(* ===== verification/_CoqProject ===== *)
-Q . S2P
Prelude.v
GoLib.v
Sha256.v
Json.v
Loads.v
Utf8.v
JsonText.v
JsonRoundtrip.v
JsonLoaded.v
GoFloat.v
GoJson.v
JsonSpelled.v
DagModel.v
DagLifecycle.v
DagGraph.v
DagAcyclic.v
DagFold.v
DagInvariant.v
DagPlan.v
DagProps.v
DagReplay.v
DagDecode.v
DagDecodeProps.v
DagStore.v
DagManifest.v
DagManifestProps.v
DagRepo.v
DagStored.v
DagWrite.v
DagRepoProps.v
DagZone.v
GoPath.v
GoTime.v
RiskTier.v
RiskTierProps.v
SchedPolicy.v
SchedRegions.v
SchedRegionsProps.v
SchedGraph.v
SchedReady.v
SchedReadyProps.v
SchedReadyClaims.v
SchedCapacity.v
JsText.v
Attest.v
Fsm.v
Grammar.v
FsmProps.v
GrammarProps.v
MergeStore.v
MergeTurn.v
MergeHead.v
MergeOps.v
MergeLand.v
MergeLane.v
MergeLaneOps.v
MergeProps.v
MergeClaims.v
MergeMoves.v
MergeGate.v
MergeExample.v
GoalTypes.v
GoalQuery.v
GoalOps.v
GoalSteer.v
GoalGate.v
GoalSound.v
GoalKeep.v
GoalFinish.v
GoalClaims.v
GoalRevive.v
GoalStored.v
GoalReview.v
GoalReviewProps.v
GoalRounds.v
GoalSignoff.v
GoalInbox.v
GoalInboxProps.v
GoalWritten.v
GoalExample.v
