(* ===== verification/Prelude.v ===== *)
(** * Codex Relay Workflow: a verification development of the plan store, of the scheduler's ready set, of the merge lane, of goal plans and their reviews, and of the PABCD loop

    ** The program

    [crw] coordinates coding agents. Seven of its parts decide, and the rest of the program relies on what they decide:

    - the relay's DAG plans (internal/relay/dag): a plan is a graph of work items. A coordinator writes it as a sequence of revisions, each a
      list of typed changes on the revision before it. A revision is a JSON document; the package reads it strictly, folds its
      changes onto the plan of the log, judges the plan they produce, and commits the event and the rows of the fold in one
      transaction of the relay store. Readers take verified snapshots and pages of the log, and replay them; the inputs a node was run with are frozen in a manifest
      named by its digest;
    - the relay's scheduler (internal/relay/dagsched): a reading of a plan at its head says of every live node whether it may be released now, and why not. It walks the
      edges, checks the inputs, ranks what is left by its place in the graph, and goes down the ranking while regions, memory and slots allow;
    - the relay's merge lane (internal/relay/mergeturn): projects that merge into one base branch take turns. A claim waits or holds the target, is granted, acknowledges the grant,
      restates its head and base at a check that opens the merge, and lands; a turn that is given up goes to the next claim, one whose outcome is not known keeps the target until an
      observation resolves it, and one whose holder is silent is passed on. Turns that are bundled in a train land together with one merge commit. Every move is an entry of a ledger;
    - the risk tier (internal/risktier): whether the changes of a branch head are low or high risk, and which gates an exception may skip;
    - the PABCD loop (internal/pabcd): the phases Plan, Audit, Build, Check and Done of a session, moved by the agent with an attestation, or by
      the user's chat command; the attestation gate and the interview gate say which moves pass;
    - goal plans (internal/pabcd/goalplan): the criteria, decisions and work phases of an objective. The agent adds tasks, completes them, closes phases, asks and settles decisions, steers the
      plan with batches of changes that are recorded once, and has it certified by a final gate. The plan is a JSON document that is read leniently and written in full;
    - review rounds (internal/pabcd/review): a document of a plan is reviewed in a round that is opened, launched and in flight until the sign-off of the reviewer is recorded; a round that is
      overtaken is closed without a verdict. A session opens an audit of its plan with a command; the hook of a child that exits keeps its sign-off in an inbox and applies what is kept, and the check
      before the next phase asks what the reviewer said (internal/pabcd/cli, internal/pabcd/hook).

    The plans, the scheduler and the sessions read and write JSON with internal/pyjson, whose canonical text is what every digest of a plan or a reading hashes.

    ** Files

    Shared: [Prelude] (results, tactics, lists, the hint database [relay]), [GoLib] (what the code uses of Go's standard library: strings
    as bytes, sorting, decimal numbers, ranging over maps), [GoPath] (path and path/filepath), [GoTime] (the RFC 3339 instants of package time and the times the relay writes), [GoFloat]
    (numbers as [float64]), [GoJson] (encoding/json with numbers as text, and the fuel of its reader), [Sha256] (crypto/sha256,
    executable).

    internal/pyjson: [Json] is the writer (dumps.go, value.go: [Dumps], [canonical], [Digest]); [Loads] the scanner and the reader (scan.go, loads.go:
    [Error], [Loads]); [Utf8], [JsonText] and [JsonRoundtrip] follow both over the text of a value (an object is a map);
    [JsonLoaded] says what the reader returns, and [JsonSpelled] follows the plain reader of [GoJson] over a canonical text, and over the indented text of
    internal/jsnode (stringify.go [Stringify], utf8.go [DecodeUTF8]).

    internal/relay/dag: [DagModel] has the structs of model.go, the violations of violations.go and the digests of digest.go; [DagLifecycle] is
    lifecycle.go; [DagGraph] the output matrix and the cycle search of fold.go ([checkEdge], [findCycle]) and what the edge rules mean, with
    [DagAcyclic] for the search; [DagFold] the rest of fold.go ([applyChanges], [Apply], [materialize], [At], [Replay]), with
    [DagInvariant], [DagPlan], [DagProps] and [DagReplay] for its theorems; [DagDecode] is decode.go, with [DagDecodeProps].
    [DagStore] has the tables (store/dag_zone.go), the readers of repo.go and epoch.go, [DagRepo] the writer, the verification of the log and
    the preflight of repo.go; [DagStored], [DagWrite], [DagRepoProps] and [DagZone] their theorems. [DagManifest] is manifest.go, with [DagManifestProps].

    internal/relay/dagsched: [SchedPolicy] (the release policy of optimism.go), [SchedRegions] (regions.go, grades.go, releaserule.go, narrowing.go: when two declared regions may be
    worked on at once) with [SchedRegionsProps], [SchedGraph] (the critical paths of ready.go), [SchedReady] ([Ready] of ready.go, with reading.go, the
    reasons of vocabulary.go and the holds of lifecycle.go), an example and its theorems [SchedReadyProps] and [SchedReadyClaims], [SchedCapacity] (capacity.go).

    internal/relay/mergeturn: [MergeStore] has the tables and statements (store/mergeturn_capacity.go, domain_rows.go, registry/coordination.go), [MergeTurn] the names, refusals, ledger,
    grants, owners and the promotion (mergeturn.go, refusals.go, lifecycle.go), [MergeHead] the comparison of heads (pullhead.go, headreset.go), [MergeOps] the operations
    on claims (mergeturn.go, lifecycle.go, livepull.go, progress.go, pass.go, returnrequest.go), [MergeLand] the check, the landing and the outcomes (check.go, outcome.go, restate.go,
    movement.go) and the landing of a bundle (train.go [TrainLand]). [MergeLane] is the machine of a turn and the invariant, with rules to follow a transaction; [MergeLaneOps] follows every operation;
    [MergeProps], [MergeClaims], [MergeMoves] and [MergeGate] have the theorems, and [MergeExample] a lane they are applied to.

    internal/risktier: [RiskTier] (classify.go, decide.go), with [RiskTierProps].

    internal/pabcd: [JsText] (text/lines.go, attest/match.go), [Attest] (attest/attest.go, interview/), [Fsm] (fsm/fsm.go, fsm/apply.go, the session of state/), [Grammar]
    (fsm/grammar.go, and the coercion of an attestation), with [FsmProps] and [GrammarProps].

    internal/pabcd/goalplan: [GoalTypes] (types.go), [GoalQuery] (query.go, integrity.go and the completion queries of lifecycle.go), [GoalOps] (lifecycle.go, workphase.go), [GoalSteer] (steering_ops.go,
    steering.go), [GoalGate] (validate.go, finalgate.go, source/identity.go [Compare]), [GoalRevive] (read.go, revive.go, plan.go, slug.go, write.go: the bytes of a stored plan, and a new plan). [GoalSound] says what a
    sound plan is and that the checks decide it, [GoalKeep] that the operations keep it, [GoalFinish] and [GoalClaims] what can be done with it; [GoalStored] and [GoalWritten] follow the
    document through reading and writing; [GoalExample] is a plan the theorems are applied to.

    internal/pabcd/review: [GoalReview] (round.go, signoff.go, verdictline.go, and the binding of an opened round to its session, epoch and files of cli/review_round_run.go), [GoalReviewProps] (the selection of rounds, the order of their ids in [float64]), [GoalRounds] (any sequence of operations on a
    plan and its rounds), [GoalSignoff] (the text of a sign-off). [GoalInbox] is the way of a verdict into the plan: the observer and its inbox (hook/reviewobserver.go, reviewobserver_inbox.go), the commands that open and
    abort an audit (cli/review_round_run.go) and the check of its verdict (cli/orchestrate_review_binding.go); [GoalInboxProps] has its theorems.

    ** How code is modelled

    A struct is a Record, a field at a time; an enum of strings stays a string, with the constants of the source; a [map[string]T] is a [gmap], and
    where the source ranges over one the order is an argument ([findCycle_run]) or the result is shown not to depend on it ([sort_by_unique]). An error is a
    value of [result] or a list of [Violation]s; a nil dereference is [None] or [EPanic]. Revision numbers and epochs are [Z]: they grow by one per
    write, so an [int64] does not wrap within the life of a store; the numbers of a document are kept in the range of [int64] by the reader.
    A [float64] is its literal in JSON and a rational, an infinity or NaN in the gates, where it is compared and truncated only. A message is the
    text of the source; a piece the source writes with [%q] is kept unrendered ([Quoted]).
    The store is its tables: lists of rows, with every key, CHECK, foreign key, unique index and trigger of the zone's tables of plans as a guard of the statement that writes; a
    transaction is all or nothing. The clock, the spelling of a number in a refusal and JavaScript's lower case (internal/jsnode) are arguments.
    [Ready] calls readers of the relay's execution records (runs, acceptances, declarations, merge order, host memory). They are the operations of the class [View]; the theorems
    hold for every instance, whatever its readers answer, and [SchedCapacity] has the
    capacity reader itself, over the tables it reads. A ceiling of capacity, a [float64], is a rational.
    An operation of the merge lane is a body in the state monad [M] over the tables, run in a transaction: a refusal commits the contest it records, an error rolls back. What the lane
    asks of the registry, of acceptances, trains, corrections and of delivery is the record [World], with what is read of git and of the forge before the transaction ([Reader], the row
    seen then) as further arguments, so a row that changes in between is covered; the judgements of package evidence are the class [EvidencePackage], the lower case of runes beyond
    ASCII the class [UnicodeLower]. A text for people keeps the pieces that are quoted unspelled. What an operation prints of the turn afterwards is left out. What
    the landing of a bundle reads of the tables of trains and acceptances is the record [TrainReads], the readings before the transaction and inside it apart.
    A goal plan is a record that an operation answers anew, as the source copies it. Its document is a list of bytes; which of its empty lists Go writes as [] and which it leaves out (an empty slice, or nil)
    is an argument of [writeEncodePlan]. A steering attempt runs over a disk that may fail at each of its writes ([Disk]): the plan or a row of the ledger
    is then written or not, and the attempt is told of it or not. The spelling of a number ([NumberString], [FormatLarge]) and the quoting of a text for people ([Quote]) are arguments. A review
    round that an operation selects is a place in the list, as the pointer of the source; the order of round ids is a whole number that is rounded as a [float64] is. The
    inbox of sign-offs is a map from file names to what a reading of the file answers, a directory under an entry's name included, which no removal takes away; what the writes of a drain do is a list of outcomes ([WriteOutcome]), and the state of another session is an argument
    ([ReadStateStrict]), as are the plan files read again ([Recomputed]).

    ** Fuel

    The scanner and the readers recurse on fuel linear in the document ([load_fuel], [scan] and [json_value] alike): each call consumes a byte, and the round trip
    shows that it never runs out on the text of a value, canonical or indented ([Stringify_read]); [read_json_fuel] shows that more fuel never changes what [read_json] reads. [kahn] and [walk] have one unit per edge or node left; [findCycle_reports] shows that they end within it.
    [first_free] has one unit more than there are keys, as the source; [nextRestatement_free] shows that it finds one within it.
    [graphMetrics] has one unit per node, and [graphMetrics_terminates] shows that it ends within it on every graph.
    The search for a dependency cycle of a goal plan ([visit]) and the chase of what a phase waits for ([waiting]) have one unit more than there are nodes, and end within it: a path that is longer repeats a node.
    [all_events] has one unit per row of the log; [EventsAfter_resumes] and [VerifyLogOn_reachable] show that the pages end within it.

    ** What is shown

    - The fold: an accepted revision preserves the invariant of a plan (unique live ids, one row per version, an acyclic graph that obeys the output
      matrix, slice digests that are the recomputed ones, a well-formed lifecycle history), is the run of its changes on an abstract
      plan, leaves every earlier snapshot as it was, never reuses an id, keeps the version of a node it does not touch; a refused one leaves
      nothing behind. The cycle search is exact and reports a genuine cycle.
    - Replay: the log of a plan replays from any of its snapshots to the plan it ends in, and a log with a gap or a wrong digest does not.
    - Documents: what the canonical writer writes is read back as it was; the strict reader accepts well-formed revisions only, and
      [Checked] passes exactly those.
    - The store: every write keeps the invariant of the zone and fails, if it fails, with a documented refusal that changes nothing; a committed
      write is the fold of its request; a repeated request is answered by the revision it produced; of two requests on one parent
      one is committed; a coordinator with an older epoch is fenced; snapshots are immutable; the log verifies; a client catches up from any
      snapshot; the preflight says what the write will do.
    - Manifests: two manifests with one digest have the same included members; the store keeps a manifest under its digest only, and reads back what was put.
    - The ready set: the nodes a reading offers are eligible, never overlap exclusively with one another or with regions in use, are at most the free slots and, with the runs
      that are held, at most the standing cap (or none is offered when more are held); they stand in the order of their true rank; a node that is not offered says why, in the closed vocabulary or as the reader of its records said it; two readings with one
      digest saw one world. A narrowed declaration takes no place
      that was not held and, a bare testdata directory apart, holds what it keeps as strictly ([widening_testdata] shows the exception); the grade of a release is the worst of its pairs, and the optimism switch follows the policy.
    - The merge lane: in every store that commands of the lane and landings of bundles leave, a target has one occupant at most, a holder one live claim, and the ledger of a turn is a run of its machine to the state of its
      row; turns only move forward. The exclusive indexes are never what stops a command of the lane; the landing of a bundle can meet one, when its leader left the lane and another turn holds the target
      ([bundle_promotion_hits_the_index]). A check opens a merge only when every guard holds, and a landing finds what the check wrote; a landing
      records what the branch reads; a target that is given up goes to the eligible claim that asked first; a turn is passed only after twenty minutes of silence; a claim made again is
      the same claim; a move of the branch is taken for merges outside the lane exactly when it is, and a restated base is always recorded. A head that a turn comes back to by another way
      is refused.
    - The risk tier: a decision is low exactly when everything it looked at is low, skips gates only at the low tier and never the record before a
      merge or the acceptance; the record of a decision validates, and what a validated record claims of its tier is true of its members.
    - PABCD: the transitions succeed exactly when the edge is legal and its gates pass; every reachable session keeps the gate invariant; an
      agent that reaches Build has attested a reviewed audit and one that reaches Done a passing check; the attestation gates mean what
      they say; a chat prompt is read as a command exactly when a line of it is one of the grammar.
    - Goal plans: the structural checks report nothing exactly when a plan is sound, every operation keeps it sound, a new plan is sound, and a sound plan that waits for nobody can be worked to its end;
      a close that is tried again answers what it did; a steering batch is applied and recorded once whatever fails; a deadlock is reported exactly when there is one, and a plan that yields has nothing to
      do; a plan that validates was approved by its own review round with evidence of the tree as it is; the bytes of a plan's document read back as the plan, after any sequence of operations and reviews, as long as its texts are UTF-8
      ([stray_byte] shows what becomes of another byte).
    - Review rounds: over any sequence of operations, the binding of a round and its supersession among them, the rounds stay in order (distinct ids, one open round per purpose, which is the latest and the one the cursor names, verdicts where the status says
      so); what happened stays, and no id is used twice even near the limit of exact numbers; a verdict is recorded exactly for the launch that is in flight; a review can be brought to its verdict; a
      sign-off is read as it was written, and what is read of any message can be stored.
    - The way of a verdict: of the sign-offs a session kept, the oldest that may decide a round decides it, and a drain that is repeated changes nothing; a write that fails delays the sign-offs and
      neither loses nor reorders them (of an inbox whose entries can be read); the inbox stays within its bound. An audit that was opened and answered lets its session go on exactly when the plan files are unchanged and the attestation agrees
      with the reviewer; no command takes an audit from a session that is still at it.

    ** What is not modelled

    The rest of the scheduler: the readers of execution records behind [View], the writers of declarations, passes, executions and integrations, the objects the commands print;
    the sampling of the host's memory; of the merge lane the opening, verification and cancelling of trains, the printed readings, the supersession of grants, and the readers of git, of the forge and of corrections; the flow engine, and the commands, processes, files and services
    around them. Of the modelled packages: [Normalize] and
    [Marshal] of the writer, the reader's other modes of numbers and objects, the reading of a risk record from JSON ([Decode]), session
    files and locks, the descriptors, the lock and the JSON of the review inbox, the packet an opened audit prints, the lock of a goal plan's directory, the checked opening of its files and the report of what an unreadable plan lost, a store without the DAG zone, and failures of the host. *)
From Stdlib Require Export Ascii ZArith Lia.
From stdpp Require Export base gmap sets strings sorting pretty fin_maps functions list.

(** The hint database of the development: well-formedness facts the components export. *)
Create HintDb relay discriminated.

(** ** Outcomes of fallible code *)

(** A Go function that returns [(T, error)]: the value, or the error. *)
Inductive result (E A : Type) : Type :=
| Ok (a : A)
| Err (e : E).
Arguments Ok {E A} a.
Arguments Err {E A} e.

Declare Scope relay_scope.
Delimit Scope relay_scope with relay.

(** [try! x := c in k] is Go's [x, err := c; if err != nil { return err }; k]. *)
Notation "'try!' x ':=' c 'in' k" :=
  (match c with Ok x => k | Err e => Err e end)
  (at level 10, x pattern, c at level 100, k at level 200) : relay_scope.

Definition is_ok {E A} (r : result E A) : bool :=
  match r with Ok _ => true | Err _ => false end.

(** ** Tactics *)

(** Split every conjunction of the context and substitute. *)
Ltac clean := repeat (simplify_eq/=; destruct_and?).

(** Case on the scrutinee of the first [match] of the goal, or of hypothesis [H]. *)
Ltac case_in H :=
  match type of H with
  | context [ match ?x with _ => _ end ] => destruct x eqn:?; simplify_eq/=
  end.

(** ** Lists *)

Section lists.
Context {A : Type}.
Implicit Types l : list A.

Lemma foldl_app_gen {B} (f : B → A → B) l1 l2 b :
  foldl f b (l1 ++ l2) = foldl f (foldl f b l1) l2.
Proof. apply foldl_app. Qed.

(** An accumulator that only ever appends can be read as a [concat]. *)
Lemma foldl_append {B} (f : A → list B) l acc :
  foldl (λ a x, a ++ f x) acc l = acc ++ concat (f <$> l).
Proof.
  revert acc; induction l as [|x l IH]; intros acc; simpl; [by rewrite app_nil_r|].
  by rewrite IH, (assoc_L (++)).
Qed.

Lemma NoDup_fmap_inj_on {B} (f : A → B) l x y :
  NoDup (f <$> l) → x ∈ l → y ∈ l → f x = f y → x = y.
Proof.
  induction l as [|z l IH]; simpl; intros Hnd Hx Hy Hf; [by apply elem_of_nil in Hx|].
  apply NoDup_cons in Hnd as [Hz Hnd].
  apply elem_of_cons in Hx as [->|Hx]; apply elem_of_cons in Hy as [->|Hy]; auto.
  - exfalso; apply Hz. rewrite Hf. apply list_elem_of_fmap; eauto.
  - exfalso; apply Hz. rewrite <- Hf. apply list_elem_of_fmap; eauto.
Qed.

Lemma NoDup_fmap_filter {B} (f : A → B) (P : A → Prop) `{∀ x, Decision (P x)} l : NoDup (f <$> l) → NoDup (f <$> filter P l).
Proof. intros. eapply sublist_NoDup; [done|]. apply fmap_sublist, sublist_filter. Qed.

Lemma Forall_mp (P Q : A → Prop) l : Forall (λ x, P x → Q x) l → Forall P l → Forall Q l.
Proof. rewrite !Forall_forall. auto. Qed.

Lemma filter_none (P : A → Prop) `{∀ x, Decision (P x)} l : (∀ x, x ∈ l → ¬ P x) → filter P l = [].
Proof.
  induction l as [|x l IH]; intros Hl; [done|]. rewrite filter_cons_False by (apply Hl; by left). apply IH. intros y Hy. apply Hl. by right.
Qed.

Lemma filter_nil_iff (P : A → Prop) `{∀ x, Decision (P x)} l : filter P l = [] ↔ ∀ x, x ∈ l → ¬ P x.
Proof. split; [|apply filter_none]. intros Hf x Hx HP. apply (not_elem_of_nil x). rewrite <- Hf. by apply list_elem_of_filter. Qed.

Lemma filter_all (P : A → Prop) `{∀ x, Decision (P x)} l : (∀ x, x ∈ l → P x) → filter P l = l.
Proof.
  induction l as [|x l IH]; intros HP; [done|]. rewrite filter_cons_True by (apply HP; by left). f_equal. apply IH. intros y Hy. apply HP. by right.
Qed.

Lemma NoDup_length_subset `{EqDecision A} (l1 l2 : list A) :
  NoDup l1 → l1 ⊆ l2 → length l1 ≤ length l2.
Proof. intros. by apply submseteq_length, NoDup_submseteq. Qed.
End lists.
