(* ===== verification/GoLib.v ===== *)
(** * GoLib: the parts of the Go standard library the modelled code uses.

    Strings are byte strings (a Go [string] is a sequence of bytes), compared bytewise as Go's [<]
    and [sort.Strings] compare them. Sorting is a stable insertion sort: [sort.SliceStable] is a stable sort
    by definition, and the uses of [sort.Strings] and [sort.Slice] have either pairwise distinct keys or
    indistinguishable equal elements, where every sort gives the same list ([sort_by_unique]). *)
From S2P Require Import Prelude.

(** ** Decimal spelling: fmt's [%d], strconv.Itoa and strconv.FormatInt(_, 10) *)
Definition itoa (z : Z) : string := pretty z.
Definition itoa_nat (n : nat) : string := pretty n.

(** ** strings.Join *)
Fixpoint join_sep (sep : string) (parts : list string) : string :=
  match parts with
  | [] => ""
  | [p] => p
  | p :: rest => p +:+ sep +:+ join_sep sep rest
  end.

(** ** Sorting *)

Section sort.
Context {A : Type} (key : A → string).

Fixpoint sort_insert (x : A) (l : list A) : list A :=
  match l with
  | [] => [x]
  | y :: l' => if String.leb (key x) (key y) then x :: y :: l' else y :: sort_insert x l'
  end.

Fixpoint sort_by (l : list A) : list A :=
  match l with
  | [] => []
  | x :: l' => sort_insert x (sort_by l')
  end.

Definition key_le (x y : A) : Prop := String.le (key x) (key y).

Lemma sort_insert_perm x l : sort_insert x l ≡ₚ x :: l.
Proof.
  induction l as [|y l IH]; simpl; [done|].
  destruct (String.leb _ _); [done|]. rewrite IH. constructor.
Qed.

Lemma sort_by_perm l : sort_by l ≡ₚ l.
Proof. induction l as [|x l IH]; simpl; [done|]. by rewrite sort_insert_perm, IH. Qed.

Lemma elem_of_sort_by x l : x ∈ sort_by l ↔ x ∈ l.
Proof. by rewrite sort_by_perm. Qed.

Lemma length_sort_by l : length (sort_by l) = length l.
Proof. by rewrite sort_by_perm. Qed.

Lemma sort_insert_sorted x l : StronglySorted key_le l → StronglySorted key_le (sort_insert x l).
Proof.
  induction l as [|y l IH]; simpl; intros Hs; [repeat constructor|].
  apply StronglySorted_cons in Hs as [Hy Hs].
  destruct (String.leb (key x) (key y)) eqn:E.
  - constructor; [by constructor|]. constructor; [unfold key_le, String.le; by rewrite E|].
    eapply Forall_impl; [exact Hy|]. intros z Hz. unfold key_le in *.
    etrans; [|exact Hz]. unfold String.le. by rewrite E.
  - constructor; [by apply IH|]. rewrite sort_insert_perm. constructor; [|done].
    unfold key_le. destruct (total String.le (key x) (key y)) as [H|H]; [|done].
    unfold String.le in H. by rewrite E in H.
Qed.

Lemma sort_by_sorted l : StronglySorted key_le (sort_by l).
Proof. induction l as [|x l IH]; simpl; [constructor|]. by apply sort_insert_sorted. Qed.

(** With pairwise distinct keys the sorted list does not depend on the order of the input: this is
    why ranging over a Go map before a sort is deterministic. *)
Lemma sort_by_unique l1 l2 :
  NoDup (key <$> l1) → l1 ≡ₚ l2 → sort_by l1 = sort_by l2.
Proof.
  intros Hnd Hp.
  apply (StronglySorted_unique_strong key_le); [|apply sort_by_sorted|apply sort_by_sorted|].
  - intros x y Hx Hy H1 H2. rewrite !elem_of_sort_by in *.
    apply (NoDup_fmap_inj_on key l1); [done|done|by rewrite Hp|].
    by apply (anti_symm String.le).
  - by rewrite !sort_by_perm.
Qed.

Lemma sort_by_id l : StronglySorted key_le l → NoDup (key <$> l) → sort_by l = l.
Proof.
  intros Hs Hnd.
  apply (StronglySorted_unique_strong key_le); [|apply sort_by_sorted|done|apply sort_by_perm].
  intros x y Hx Hy H1 H2. rewrite elem_of_sort_by in Hx.
  apply (NoDup_fmap_inj_on key l); [done|done|done|]. by apply (anti_symm String.le).
Qed.
End sort.

(** [sort.Strings]: equal strings are indistinguishable, so every sort gives this list. *)
Definition sort_strings (l : list string) : list string := sort_by id l.

Lemma elem_of_sort_strings x l : x ∈ sort_strings l ↔ x ∈ l.
Proof. apply elem_of_sort_by. Qed.

Lemma sort_strings_perm l1 l2 : l1 ≡ₚ l2 → sort_strings l1 = sort_strings l2.
Proof.
  intros Hp. apply (StronglySorted_unique_strong (key_le id)).
  - intros x y _ _ H1 H2. by apply (anti_symm String.le).
  - apply sort_by_sorted.
  - apply sort_by_sorted.
  - unfold sort_strings. by rewrite !sort_by_perm.
Qed.

Lemma sort_strings_sorted l : StronglySorted String.le (sort_strings l).
Proof. apply (sort_by_sorted id). Qed.

Lemma NoDup_sort_strings l : NoDup l → NoDup (sort_strings l).
Proof. intros. unfold sort_strings. by rewrite sort_by_perm. Qed.

(** The keys of a Go map, sorted: [for id := range m { ids = append(ids, id) }; sort.Strings(ids)]. *)
Definition sorted_keys {A} (m : gmap string A) : list string := sort_strings (map_to_list m).*1.

Lemma elem_of_sorted_keys {A} (m : gmap string A) k : k ∈ sorted_keys m ↔ is_Some (m !! k).
Proof.
  unfold sorted_keys. rewrite elem_of_sort_strings, list_elem_of_fmap. split.
  - intros ([k' x] & -> & H). apply elem_of_map_to_list in H. by eexists.
  - intros [x H]. exists (k, x). split; [done|]. by apply elem_of_map_to_list.
Qed.

Lemma NoDup_sorted_keys {A} (m : gmap string A) : NoDup (sorted_keys m).
Proof. apply NoDup_sort_strings, NoDup_fst_map_to_list. Qed.

#[export] Hint Resolve sort_by_sorted sort_strings_sorted NoDup_sorted_keys : relay.
