(* ===== verification/Sha256.v ===== *)
(** * Sha256: crypto/sha256.Sum256 and encoding/hex.EncodeToString.

    The digests of a plan are the lower-case hexadecimal SHA-256 of a canonical JSON text. The function is written out here
    (FIPS 180-4, on 32-bit words kept as [Z] modulo 2^32), so that every digest of the model computes. No theorem
    of the development assumes anything of it but that it is a function. *)
From S2P Require Import Prelude.
Local Open Scope Z_scope.

Definition add32 (x y : Z) : Z := Z.land (x + y) 0xffffffff.
Definition rotr32 (n x : Z) : Z := Z.land (Z.lor (Z.shiftr x n) (Z.shiftl x (32 - n))) 0xffffffff.
Definition not32 (x : Z) : Z := Z.lxor x 0xffffffff.

(** The constants are the first 32 bits of the fractional parts of the cube roots of the first 64 primes, and of the square
    roots of the first eight (FIPS 180-4, 4.2.2 and 5.3.3). *)
Definition is_prime (n : Z) : bool :=
  forallb (λ d, negb (n mod Z.of_nat d =? 0)) (seq 2 (Z.to_nat n - 2)).
Definition primes : list Z := filter (λ n, Is_true (is_prime n)) (Z.of_nat <$> seq 2 310).

(** The integer cube root, by bits from the highest. *)
Fixpoint cube_root (bits : nat) (x acc : Z) : Z :=
  match bits with
  | O => acc
  | S b =>
    let t := acc + 2 ^ Z.of_nat b in
    cube_root b x (if t * t * t <=? x then t else acc)
  end.

Definition round_constants : list Z :=
  Eval vm_compute in (λ p, Z.land (cube_root 36 (p * 2 ^ 96) 0) 0xffffffff) <$> primes.
Definition initial_hash : list Z :=
  Eval vm_compute in (λ p, Z.land (Z.sqrt (p * 2 ^ 64)) 0xffffffff) <$> take 8 primes.

(** The message schedule: sixteen words of the block, then 48 derived ones. [w] holds the last sixteen words,
    oldest first. *)
Definition next_word (w : list Z) : Z :=
  match w with
  | [w0; w1; _; _; _; _; _; _; _; w9; _; _; _; _; w14; _] =>
    let s0 := Z.lxor (Z.lxor (rotr32 7 w1) (rotr32 18 w1)) (Z.shiftr w1 3) in
    let s1 := Z.lxor (Z.lxor (rotr32 17 w14) (rotr32 19 w14)) (Z.shiftr w14 10) in
    add32 (add32 w0 s0) (add32 w9 s1)
  | _ => 0
  end.

Fixpoint schedule (n : nat) (w : list Z) : list Z :=
  match n with
  | O => w
  | S n' =>
    match w with
    | [] => []
    | w0 :: rest => w0 :: schedule n' (rest ++ [next_word w])
    end
  end.

Definition sha_round (st : list Z) (kw : Z * Z) : list Z :=
  match st with
  | [a; b; c; d; e; f; g; h] =>
    let s1 := Z.lxor (Z.lxor (rotr32 6 e) (rotr32 11 e)) (rotr32 25 e) in
    let ch := Z.lxor (Z.land e f) (Z.land (not32 e) g) in
    let t1 := add32 (add32 (add32 h s1) (add32 ch (fst kw))) (snd kw) in
    let s0 := Z.lxor (Z.lxor (rotr32 2 a) (rotr32 13 a)) (rotr32 22 a) in
    let maj := Z.lxor (Z.lxor (Z.land a b) (Z.land a c)) (Z.land b c) in
    let t2 := add32 s0 maj in
    [add32 t1 t2; a; b; c; add32 d t1; e; f; g]
  | _ => st
  end.

Definition compress (hash block : list Z) : list Z :=
  zip_with add32 hash (foldl sha_round hash (zip round_constants (schedule 48 block))).

(** ** Padding: a one bit, zeros, and the bit length in the last eight bytes of a 64-byte block. *)
Definition be_bytes (n : nat) (x : Z) : list Z :=
  (λ i, Z.land (Z.shiftr x (8 * Z.of_nat i)) 255) <$> reverse (seq 0 n).

Definition padded (bytes : list Z) : list Z :=
  let len := Z.of_nat (length bytes) in
  let zeros := Z.to_nat ((55 - len) mod 64) in
  bytes ++ 0x80 :: replicate zeros 0 ++ be_bytes 8 (8 * len).

Fixpoint words (bytes : list Z) : list Z :=
  match bytes with
  | a :: b :: c :: d :: rest =>
    Z.lor (Z.lor (Z.shiftl a 24) (Z.shiftl b 16)) (Z.lor (Z.shiftl c 8) d) :: words rest
  | _ => []
  end.

Fixpoint blocks (n : nat) (ws : list Z) : list (list Z) :=
  match n with
  | O => []
  | S n' => match ws with [] => [] | _ => take 16 ws :: blocks n' (drop 16 ws) end
  end.

Definition sum256 (bytes : list Z) : list Z :=
  let ws := words (padded bytes) in
  foldl compress initial_hash (blocks (length ws) ws).

(** ** Hexadecimal *)
Definition hex_digit (d : Z) : ascii :=
  ascii_of_N (Z.to_N (if Z.ltb d 10 then 48 + d else 87 + d)).

Fixpoint hex_of_bytes (bytes : list Z) : string :=
  match bytes with
  | [] => EmptyString
  | b :: rest => String (hex_digit (Z.shiftr b 4)) (String (hex_digit (Z.land b 15)) (hex_of_bytes rest))
  end.

Definition byte_of_ascii (c : ascii) : Z := Z.of_N (N_of_ascii c).
Definition bytes_of_string (s : string) : list Z := byte_of_ascii <$> String.list_ascii_of_string s.

(** [h := sha256.Sum256([]byte(s)); hex.EncodeToString(h[:])] *)
Definition sha256_hex (s : string) : string :=
  hex_of_bytes (concat (be_bytes 4 <$> sum256 (bytes_of_string s))).

(** The two test vectors of FIPS 180-4. *)
Example sha256_empty :
  sha256_hex "" = "e3b0c44298fc1c149afbf4c8996fb92427ae41e4649b934ca495991b7852b855"%string.
Proof. vm_compute. reflexivity. Qed.

Example sha256_abc :
  sha256_hex "abc" = "ba7816bf8f01cfea414140de5dae2223b00361a396177a9cb410ff61f20015ad"%string.
Proof. vm_compute. reflexivity. Qed.
