(* ===== verification/Json.v ===== *)
(** * Json: the writer of internal/pyjson (dumps.go, value.go).

    A decoded Go value is a [value]; a [map[string]any] is the list of its fields in increasing key order (the one
    order in which the package ever reads a map back), so equal maps are equal lists. A [float64] is kept as its literal: the code
    modelled here only asks whether a value is one. The writer is [Dumps] with the options the relay uses for its digests and stored
    rows ([Indent], [Compact], [SortKeys], [Unicode] and [Bytes]); [Normalize] and [Marshal] are not
    modelled, and a decoded value is a tree, so the circular-reference guard never fires. *)
From S2P Require Import Prelude GoLib Sha256.
Local Open Scope Z_scope.

#[local] Set Warnings "-register-all".

Inductive value : Type :=
| VNull
| VBool (b : bool)
| VInt (z : Z)                             (* an int64 *)
| VNumber (text : string)                  (* a json.Number: an integer past int64 *)
| VFloat (text : string)                   (* a float64, as its literal *)
| VString (s : string)
| VList (l : list value)                   (* []any *)
| VMap (fields : list (string * value)).   (* map[string]any, keys increasing *)

(** An induction principle that goes through the nested lists. *)
Section value_ind.
Variable P : value → Prop.
Hypothesis HNull : P VNull.
Hypothesis HBool : ∀ b, P (VBool b).
Hypothesis HInt : ∀ z, P (VInt z).
Hypothesis HNumber : ∀ t, P (VNumber t).
Hypothesis HFloat : ∀ t, P (VFloat t).
Hypothesis HString : ∀ s, P (VString s).
Hypothesis HList : ∀ l, Forall P l → P (VList l).
Hypothesis HMap : ∀ fs, Forall (λ kv, P (snd kv)) fs → P (VMap fs).

Fixpoint value_ind' (v : value) : P v :=
  match v with
  | VNull => HNull
  | VBool b => HBool b
  | VInt z => HInt z
  | VNumber t => HNumber t
  | VFloat t => HFloat t
  | VString s => HString s
  | VList l =>
    HList l ((fix go (l : list value) : Forall P l :=
      match l with
      | [] => Forall_nil_2 _
      | x :: l' => @Forall_cons_2 _ _ x l' (value_ind' x) (go l')
      end) l)
  | VMap fs =>
    HMap fs ((fix go (fs : list (string * value)) : Forall (λ kv, P (snd kv)) fs :=
      match fs with
      | [] => Forall_nil_2 _
      | kv :: fs' => @Forall_cons_2 _ (λ kv, P (snd kv)) kv fs' (value_ind' (snd kv)) (go fs')
      end) fs)
  end.
End value_ind.

(** ** Maps: lookup and assignment *)

Fixpoint map_get (fs : list (string * value)) (key : string) : option value :=
  match fs with
  | [] => None
  | (k, v) :: fs' => if bool_decide (k = key) then Some v else map_get fs' key
  end.

(** [m[key] = v] *)
Fixpoint map_set (fs : list (string * value)) (key : string) (v : value) : list (string * value) :=
  match fs with
  | [] => [(key, v)]
  | (k, w) :: fs' =>
    if bool_decide (k = key) then (k, v) :: fs'
    else if String.leb key k then (key, v) :: (k, w) :: fs'
    else (k, w) :: map_set fs' key v
  end.

(** A map literal: its entries assigned in order. *)
Definition map_of (entries : list (string * value)) : list (string * value) :=
  foldl (λ m kv, map_set m (fst kv) (snd kv)) [] entries.

(** ** Runes: unicode/utf8.DecodeRuneInString and (bytes.Buffer).WriteRune *)

Definition rune_error : Z := 0xfffd.
Definition in_range (lo hi b : Z) : bool := (lo <=? b) && (b <=? hi).
Definition is_cont (b : Z) : bool := in_range 0x80 0xbf b.

(** The second byte a three- or four-byte sequence may have after its first. *)
Definition second_ok (b0 b1 : Z) : bool :=
  if b0 =? 0xe0 then in_range 0xa0 0xbf b1
  else if b0 =? 0xed then in_range 0x80 0x9f b1
  else if b0 =? 0xf0 then in_range 0x90 0xbf b1
  else if b0 =? 0xf4 then in_range 0x80 0x8f b1
  else is_cont b1.

(** The first rune of the bytes and its width: [RuneError, 1] for bytes that are not UTF-8,
    [RuneError, 0] for none. *)
Definition decode_rune (s : list Z) : Z * nat :=
  match s with
  | [] => (rune_error, 0%nat)
  | b0 :: t =>
    if b0 <? 0x80 then (b0, 1%nat)
    else if in_range 0xc2 0xdf b0 then
      match t with
      | b1 :: _ =>
        if is_cont b1 then (Z.lor (Z.shiftl (Z.land b0 0x1f) 6) (Z.land b1 0x3f), 2%nat)
        else (rune_error, 1%nat)
      | _ => (rune_error, 1%nat)
      end
    else if in_range 0xe0 0xef b0 then
      match t with
      | b1 :: b2 :: _ =>
        if second_ok b0 b1 && is_cont b2 then
          (Z.lor (Z.lor (Z.shiftl (Z.land b0 0x0f) 12) (Z.shiftl (Z.land b1 0x3f) 6)) (Z.land b2 0x3f), 3%nat)
        else (rune_error, 1%nat)
      | _ => (rune_error, 1%nat)
      end
    else if in_range 0xf0 0xf4 b0 then
      match t with
      | b1 :: b2 :: b3 :: _ =>
        if second_ok b0 b1 && is_cont b2 && is_cont b3 then
          (Z.lor (Z.lor (Z.shiftl (Z.land b0 0x07) 18) (Z.shiftl (Z.land b1 0x3f) 12))
             (Z.lor (Z.shiftl (Z.land b2 0x3f) 6) (Z.land b3 0x3f)), 4%nat)
        else (rune_error, 1%nat)
      | _ => (rune_error, 1%nat)
      end
    else (rune_error, 1%nat)
  end.

(** [WriteRune]: UTF-8, and U+FFFD for a surrogate or a value past U+10FFFF. *)
Definition encode_rune (r : Z) : list Z :=
  if in_range 0 0x7f r then [r]
  else if in_range 0x80 0x7ff r then [Z.lor 0xc0 (Z.shiftr r 6); Z.lor 0x80 (Z.land r 0x3f)]
  else if in_range 0xd800 0xdfff r || negb (in_range 0 0x10ffff r) then [0xef; 0xbf; 0xbd]
  else if in_range 0x800 0xffff r then
    [Z.lor 0xe0 (Z.shiftr r 12); Z.lor 0x80 (Z.land (Z.shiftr r 6) 0x3f); Z.lor 0x80 (Z.land r 0x3f)]
  else
    [Z.lor 0xf0 (Z.shiftr r 18); Z.lor 0x80 (Z.land (Z.shiftr r 12) 0x3f);
     Z.lor 0x80 (Z.land (Z.shiftr r 6) 0x3f); Z.lor 0x80 (Z.land r 0x3f)].

(** value.go: CodePoint, IsSurrogate *)
Definition IsSurrogate (r : Z) : bool := in_range 0xd800 0xdfff r.

Definition CodePoint (s : list Z) : Z * nat :=
  let plain :=
    let '(r, size) := decode_rune s in
    if (r =? rune_error) && (size =? 1)%nat then
      match s with b0 :: _ => (0xdc00 + b0, 1%nat) | [] => (r, size) end
    else (r, size) in
  match s with
  | b0 :: b1 :: b2 :: _ =>
    if (b0 =? 0xed) && in_range 0xa0 0xbf b1 && in_range 0x80 0xbf b2 then
      (Z.lor (Z.lor 0xd000 (Z.shiftl (Z.land b1 0x3f) 6)) (Z.land b2 0x3f), 3%nat)
    else plain
  | _ => plain
  end.

Definition ascii_of_byte (b : Z) : ascii := ascii_of_N (Z.to_N b).
Definition string_of_bytes (l : list Z) : string := String.string_of_list_ascii (ascii_of_byte <$> l).

(** ** Options of the writer *)
Inductive Bytes : Type := SurrogateEscapes | ReplacedBytes | ReplacedAll.

Record Options : Type := mkOptions {
  Indent : nat;
  Compact : bool;
  SortKeys : bool;
  Unicode : bool;
  BytesOpt : Bytes
}.

(** The separators between items and after a key. *)
Definition separators (o : Options) : string * string :=
  if Compact o then (",", ":")%string
  else (if (0 <? Indent o)%nat then "," else ", ", ": ")%string.

Definition spaces (n : nat) : string := String.string_of_list_ascii (replicate n " "%char).
Definition newline : string := String "010"%char EmptyString.

(** What comes before member [i] of a container at [depth]. *)
Definition member (o : Options) (i depth : nat) : string :=
  ((if (0 <? i)%nat then fst (separators o) else "") +:+
   (if (0 <? Indent o)%nat then newline +:+ spaces (Indent o * (depth + 1)) else ""))%string.

(** What comes before the closing bracket of a non-empty container. *)
Definition close (o : Options) (depth : nat) : string :=
  (if (0 <? Indent o)%nat then newline +:+ spaces (Indent o * depth) else "")%string.

(** [fmt.Fprintf(b, `\u%04x`, r)] *)
Definition u_escape (r : Z) : list Z :=
  [92; 117] ++ ((λ n, byte_of_ascii (hex_digit (Z.land (Z.shiftr r n) 15))) <$> [12; 8; 4; 0]).

(** [utf16.Encode([]rune{r})] *)
Definition utf16_units (r : Z) : list Z :=
  if in_range 0x10000 0x10ffff r then
    [0xd800 + Z.shiftr (r - 0x10000) 10; 0xdc00 + Z.land (r - 0x10000) 0x3ff]
  else if IsSurrogate r || negb (in_range 0 0x10ffff r) then [rune_error]
  else [r].

(** One character of a string, as the writer spells it. *)
Definition spell_rune (o : Options) (r : Z) : list Z :=
  if (r =? 34) || (r =? 92) then 92 :: encode_rune r
  else if r =? 10 then [92; 110]
  else if r =? 13 then [92; 114]
  else if r =? 9 then [92; 116]
  else if r =? 8 then [92; 98]
  else if r =? 12 then [92; 102]
  else if IsSurrogate r then u_escape r
  else if (r <? 0x20) || (negb (Unicode o) && (0x7e <? r)) then concat (u_escape <$> utf16_units r)
  else encode_rune r.

(** The loop of [str] over the bytes left; [fuel] is their number, and every round consumes at least one. *)
Fixpoint str_body (o : Options) (fuel : nat) (s : list Z) : list Z :=
  match fuel, s with
  | O, _ | _, [] => []
  | S fuel', _ =>
    let '(r, size) := CodePoint s in
    let '(r, size) :=
      if IsSurrogate r &&
         match BytesOpt o with
         | ReplacedAll => true
         | ReplacedBytes => (size =? 1)%nat
         | SurrogateEscapes => false
         end
      then (rune_error, 1%nat) else (r, size) in
    spell_rune o r ++ str_body o fuel' (drop size s)
  end.

Definition write_str (o : Options) (s : string) : string :=
  let bytes := bytes_of_string s in
  string_of_bytes (34 :: str_body o (length bytes) bytes ++ [34]).

(** [writer.object] and [writer.array], over members already written. *)
Definition write_members (o : Options) (depth : nat) (opening closing : string) (members : list string) : string :=
  (opening +:+
   String.concat "" (imap (λ i m, member o i depth +:+ m) members) +:+
   (if (0 <? length members)%nat then close o depth else "") +:+ closing)%string.

Fixpoint write_value (o : Options) (v : value) (depth : nat) : string :=
  match v with
  | VNull => "null"
  | VBool b => if b then "true" else "false"
  | VInt z => itoa z
  | VNumber t => t
  | VFloat t => t
  | VString s => write_str o s
  | VList l => write_members o depth "[" "]" ((λ x, write_value o x (S depth)) <$> l)
  | VMap fs =>
    write_members o depth "{" "}"
      ((λ kv, (write_str o (fst kv) +:+ snd (separators o) +:+ write_value o (snd kv) (S depth))%string) <$> fs)
  end%string.

Definition Dumps (v : value) (o : Options) : string := write_value o v 0.

(** digest.go: canonical JSON, and the digest of a value. *)
Definition canonical_options : Options := mkOptions 0 true true true SurrogateEscapes.
Definition canonical (v : value) : string := Dumps v canonical_options.
Definition Digest (v : value) : string := sha256_hex (canonical v).

Arguments sha256_hex : simpl never.
Arguments canonical : simpl never.
Arguments Digest : simpl never.

(** The bytes of the canonical text of [{"b":-3,"a":[true,null,"\n'"]}], with [34] for the quotation mark. *)
Example canonical_example :
  bytes_of_string (canonical (VMap (map_of
    [("b", VInt (-3)); ("a", VList [VBool true; VNull; VString (String "010" "'")])]%string)))
  = [123; 34; 97; 34; 58; 91; 116; 114; 117; 101; 44; 110; 117; 108; 108; 44; 34; 92; 110; 39; 34; 93; 44;
     34; 98; 34; 58; 45; 51; 125].
Proof. vm_compute. reflexivity. Qed.
