(* ===== verification/Loads.v ===== *)
(** * Loads: the JSON reader of internal/pyjson (scan.go and loads.go).

    The relay reads every plan document and stored change list with [Loads] under the options of relay/dag's [parse]: [Python],
    [Map], [Unique] and [Int64Numbers]; the definitions below are the reader at those options. It first asks
    [Error], CPython's scanner, for a refusal, and then decodes. A position in the text is the suffix that starts there; a recursive
    descent carries fuel, and twice the length of the text is enough. *)
From S2P Require Import Prelude GoLib Sha256 Json.
Local Open Scope Z_scope.

(** [[]rune(doc)] *)
Fixpoint runes_of (fuel : nat) (s : list Z) : list Z :=
  match fuel, s with
  | O, _ | _, [] => []
  | S fuel', _ => let '(r, size) := decode_rune s in r :: runes_of fuel' (drop size s)
  end.
Definition runes (s : list Z) : list Z := runes_of (length s) s.

Definition isWS (r : Z) : bool := (r =? 32) || (r =? 9) || (r =? 10) || (r =? 13).

Fixpoint ws (s : list Z) : list Z :=
  match s with r :: s' => if isWS r then ws s' else s | [] => [] end.

Definition is_digit (r : Z) : bool := in_range 48 57 r.

(** The digits at the start and what follows them. *)
Fixpoint digits (s : list Z) : list Z * list Z :=
  match s with
  | r :: s' => if is_digit r then let '(ds, rest) := digits s' in (r :: ds, rest) else ([], s)
  | [] => ([], [])
  end.

Fixpoint strip_prefix (p s : list Z) : option (list Z) :=
  match p, s with
  | [], _ => Some s
  | a :: p', b :: s' => if a =? b then strip_prefix p' s' else None
  | _ :: _, [] => None
  end.

Definition w_null : list Z := bytes_of_string "null".
Definition w_true : list Z := bytes_of_string "true".
Definition w_false : list Z := bytes_of_string "false".
Definition w_nan : list Z := bytes_of_string "NaN".
Definition w_infinity : list Z := bytes_of_string "Infinity".
Definition w_minus_infinity : list Z := bytes_of_string "-Infinity".

(** ** scan.go: what json.loads refuses *)

(** A refusal: a message at a position (the suffix that starts there), or an integer of too many digits. *)
Inductive ScanError : Type :=
| RefuseAt (msg : string) (at_ : list Z)
| TooManyDigits (n : nat)
| OutOfFuel.

(** The sign and the integer part of a number token, and what follows each. *)
Definition split_sign (s : list Z) : list Z * list Z := match s with 45 :: t => ([45], t) | _ => ([], s) end.

Definition int_part (s : list Z) : option (list Z * list Z) :=
  match s with
  | 48 :: t => Some ([48], t)
  | c :: _ => if in_range 49 57 c then Some (digits s) else None
  | [] => None
  end.

(** The fraction and the exponent as the scanner takes them: only when they are complete. *)
Definition scan_frac (s : list Z) : list Z * list Z :=
  match s with
  | 46 :: ((c :: _) as t) => if is_digit c then let '(ds, r) := digits t in (46 :: ds, r) else ([], s)
  | _ => ([], s)
  end.

Definition exp_sign (s : list Z) : list Z * list Z :=
  match s with c :: t => if (c =? 43) || (c =? 45) then ([c], t) else ([], s) | [] => ([], s) end.

Definition is_exp (c : Z) : bool := (c =? 101) || (c =? 69).

Definition scan_exp (s : list Z) : list Z * list Z :=
  match s with
  | e :: t =>
    if is_exp e then
      let '(sg, t1) := exp_sign t in
      match digits t1 with ([], _) => ([], s) | (ds, r) => (e :: sg ++ ds, r) end
    else ([], s)
  | [] => ([], s)
  end.

(** [pyScan.number]: the token and the rest. *)
Definition scan_number (s : list Z) : option (list Z * list Z) :=
  let '(sign, s1) := split_sign s in
  match int_part s1 with
  | None => None
  | Some (ip, s2) =>
    let '(frac, s3) := scan_frac s2 in
    let '(exp, s4) := scan_exp s3 in
    Some (sign ++ ip ++ frac ++ exp, s4)
  end.

Definition isHex (r : Z) : bool := is_digit r || in_range 97 102 r || in_range 65 70 r.

(** The characters an escape may name besides [u]. *)
Definition simple_escapes : list Z := [34; 92; 47; 98; 102; 110; 114; 116].

(** [pyScan.str] after the opening quotation mark; [begin] is the position of that mark. *)
Fixpoint scan_str (begin s : list Z) : result ScanError (list Z) :=
  match s with
  | [] => Err (RefuseAt "Unterminated string starting at" begin)
  | c :: t =>
    if c =? 34 then Ok t
    else if c <? 0x20 then Err (RefuseAt "Invalid control character at" s)
    else if c =? 92 then
      match t with
      | [] => Err (RefuseAt "Unterminated string starting at" begin)
      | e :: t' =>
        if e =? 117 then
          match t' with
          | h1 :: h2 :: h3 :: h4 :: ((_ :: _) as rest) =>
            if isHex h1 && isHex h2 && isHex h3 && isHex h4 then scan_str begin rest
            else Err (RefuseAt "Invalid \uXXXX escape" t)
          | _ => Err (RefuseAt "Invalid \uXXXX escape" t)
          end
        else if bool_decide (e ∈ simple_escapes) then scan_str begin t'
        else Err (RefuseAt "Invalid \escape" s)
      end
    else scan_str begin t
  end.

(** [strings.ContainsAny(text, ".eE")] *)
Definition has_point (tok : list Z) : bool := existsb (λ c, (c =? 46) || (c =? 101) || (c =? 69)) tok.
Definition unsigned (tok : list Z) : list Z := match tok with 45 :: t => t | _ => tok end.

Definition scan_scalar (s : list Z) : result ScanError (list Z) :=
  match strip_prefix w_null s, strip_prefix w_true s, strip_prefix w_false s, strip_prefix w_nan s, strip_prefix w_infinity s,
        strip_prefix w_minus_infinity s with
  | Some r, _, _, _, _, _ | _, Some r, _, _, _, _ | _, _, Some r, _, _, _ | _, _, _, Some r, _, _ | _, _, _, _, Some r, _
  | _, _, _, _, _, Some r => Ok r
  | _, _, _, _, _, _ =>
    match scan_number s with
    | Some (tok, r) =>
      let n := length (unsigned tok) in
      if negb (has_point tok) && (4300 <? n)%nat then Err (TooManyDigits n) else Ok r
    | None => Err (RefuseAt "Expecting value" s)
    end
  end.

Fixpoint scan_value (fuel : nat) (s : list Z) : result ScanError (list Z) :=
  match fuel with
  | O => Err OutOfFuel
  | S fuel' =>
    match s with
    | [] => Err (RefuseAt "Expecting value" s)
    | c :: t =>
      if c =? 34 then scan_str s t
      else if c =? 123 then
        let t := ws t in
        match t with 125 :: r => Ok r | _ => scan_fields fuel' t end
      else if c =? 91 then
        let t := ws t in
        match t with 93 :: r => Ok r | _ => scan_items fuel' t end
      else scan_scalar s
    end
  end

(** The loop of [pyScan.object], at a key. *)
with scan_fields (fuel : nat) (s : list Z) : result ScanError (list Z) :=
  match fuel with
  | O => Err OutOfFuel
  | S fuel' =>
    match s with
    | 34 :: t =>
      match scan_str s t with
      | Err e => Err e
      | Ok r1 =>
        let r1 := ws r1 in
        match r1 with
        | 58 :: r2 =>
          match scan_value fuel' (ws r2) with
          | Err e => Err e
          | Ok r3 =>
            let r3 := ws r3 in
            match r3 with
            | 125 :: r4 => Ok r4
            | 44 :: r4 =>
              let r4 := ws r4 in
              match r4 with
              | 125 :: _ => Err (RefuseAt "Illegal trailing comma before end of object" r3)
              | _ => scan_fields fuel' r4
              end
            | _ => Err (RefuseAt "Expecting ',' delimiter" r3)
            end
          end
        | _ => Err (RefuseAt "Expecting ':' delimiter" r1)
        end
      end
    | _ => Err (RefuseAt "Expecting property name enclosed in double quotes" s)
    end
  end

(** The loop of [pyScan.array], at an item. *)
with scan_items (fuel : nat) (s : list Z) : result ScanError (list Z) :=
  match fuel with
  | O => Err OutOfFuel
  | S fuel' =>
    match scan_value fuel' s with
    | Err e => Err e
    | Ok r =>
      let r := ws r in
      match r with
      | 93 :: r1 => Ok r1
      | 44 :: r1 =>
        let r1 := ws r1 in
        match r1 with
        | 93 :: _ => Err (RefuseAt "Illegal trailing comma before end of array" r)
        | _ => scan_items fuel' r1
        end
      | _ => Err (RefuseAt "Expecting ',' delimiter" r)
      end
    end
  end.

(** [pyScan.format]: line, column and character of a position. *)
Definition format_at (all : list Z) (msg : string) (at_ : list Z) : string :=
  let pos := (length all - length at_)%nat in
  let before := take pos all in
  let line := S (length (filter (λ r, r = 10) before)) in
  let col := S (length (List.fold_left (λ cur r, if r =? 10 then [] else r :: cur) before [])) in
  msg +:+ ": line " +:+ itoa_nat line +:+ " column " +:+ itoa_nat col +:+ " (char " +:+ itoa_nat pos +:+ ")".

(** [pyjson.Error]: the refusal of json.loads, or [None]. *)
Definition Error (doc : list Z) : option string :=
  let all := runes doc in
  let fuel := S (2 * length all)%nat in
  match strip_prefix [0xef; 0xbb; 0xbf] doc with
  | Some _ => Some (format_at all "Unexpected UTF-8 BOM (decode using utf-8-sig)" all)
  | None =>
    match scan_value fuel (ws all) with
    | Err (RefuseAt msg at_) => Some (format_at all msg at_)
    | Err (TooManyDigits n) => Some ("Exceeds the limit (4300 digits) for integer string conversion: value has " +:+ itoa_nat n +:+
        " digits; use sys.set_int_max_str_digits() to increase the limit")
    | Err OutOfFuel => Some ""
    | Ok r => match ws r with [] => None | r' => Some (format_at all "Extra data" r') end
    end
  end.

(** ** loads.go: the decoder *)

Inductive LoadError : Type :=
| LScan (text : string)          (* json.loads' refusal *)
| LSyntax
| LDepth
| LConstant (word : string)      (* NaN, Infinity or -Infinity *)
| LRepeated (key : string)       (* *RepeatedKey *)
| LTrailing
| LFuel.

Definition MaxDepth : nat := 10000.

Definition hex_value (c : Z) : option Z :=
  if is_digit c then Some (c - 48)
  else if in_range 97 102 c then Some (c - 87)
  else if in_range 65 70 c then Some (c - 55)
  else None.

(** [hex4]: the \uXXXX escape at the start. *)
Definition hex4 (s : list Z) : option (Z * list Z) :=
  match s with
  | 92 :: 117 :: a :: b :: c :: d :: rest =>
    match hex_value a, hex_value b, hex_value c, hex_value d with
    | Some a, Some b, Some c, Some d => Some (((a * 16 + b) * 16 + c) * 16 + d, rest)
    | _, _, _, _ => None
    end
  | _ => None
  end.

(** [utf16.DecodeRune] *)
Definition decode_pair (r1 r2 : Z) : option Z :=
  if in_range 0xd800 0xdbff r1 && in_range 0xdc00 0xdfff r2
  then Some ((r1 - 0xd800) * 1024 + (r2 - 0xdc00) + 0x10000) else None.

(** What a simple escape stands for. *)
Definition simple_escape (e : Z) : option Z :=
  if e =? 34 then Some 34 else if e =? 92 then Some 92 else if e =? 47 then Some 47 else if e =? 98 then Some 8
  else if e =? 102 then Some 12 else if e =? 110 then Some 10 else if e =? 114 then Some 13 else if e =? 116 then Some 9 else None.

(** [decoder.escape]: the bytes written and what follows. *)
Definition escape (s : list Z) : option (list Z * list Z) :=
  match s with
  | _ :: e :: t =>
    match simple_escape e with
    | Some b => Some ([b], t)
    | None =>
      match hex4 s with
      | None => None
      | Some (unit, rest) =>
        if IsSurrogate unit then
          match hex4 rest with
          | Some (low, rest') =>
            match decode_pair unit low with
            | Some r => Some (encode_rune r, rest')
            | None => Some (encode_rune rune_error, rest)
            end
          | None => Some (encode_rune rune_error, rest)
          end
        else Some (encode_rune unit, rest)
      end
    end
  | _ => None
  end.

(** [decoder.str] after the opening quotation mark; [fuel] is the number of bytes left. *)
Fixpoint load_str (fuel : nat) (s : list Z) : result LoadError (list Z * list Z) :=
  match fuel with
  | O => Err LSyntax
  | S fuel' =>
    match s with
    | [] => Err LSyntax
    | c :: t =>
      if c =? 34 then Ok ([], t)
      else if c <? 0x20 then Err LSyntax
      else
        let step :=
          if c =? 92 then escape s
          else if c <? 0x80 then Some ([c], t)
          else
            let '(r, size) := decode_rune s in
            if (r =? rune_error) && (size =? 1)%nat then Some (encode_rune rune_error, t)
            else Some (take size s, drop size s) in
        match step with
        | None => Err LSyntax
        | Some (b, rest) =>
          match load_str fuel' rest with
          | Ok (bs, rest') => Ok (b ++ bs, rest')
          | Err e => Err e
          end
        end
    end
  end.

Definition min_int64 : Z := - 2 ^ 63.
Definition max_int64 : Z := 2 ^ 63 - 1.

(** [strconv.ParseInt(text, 10, 64)] of a JSON integer: its value when it fits. *)
Definition decimal (ds : list Z) : Z := foldl (λ n d, n * 10 + (d - 48)) 0 ds.
Definition parse_int64 (tok : list Z) : option Z :=
  let n := match tok with 45 :: ds => - decimal ds | _ => decimal tok end in
  if in_range min_int64 max_int64 n then Some n else None.

(** The fraction and the exponent as the decoder takes them: a point or an [e] without digits is refused. *)
Definition load_frac (s : list Z) : option (list Z * list Z) :=
  match s with
  | 46 :: t => match digits t with ([], _) => None | (ds, r) => Some (46 :: ds, r) end
  | _ => Some ([], s)
  end.

Definition load_exp (s : list Z) : option (list Z * list Z) :=
  match s with
  | e :: t =>
    if is_exp e then
      let '(sg, t1) := exp_sign t in
      match digits t1 with ([], _) => None | (ds, r) => Some (e :: sg ++ ds, r) end
    else Some ([], s)
  | [] => Some ([], s)
  end.

(** [decoder.numberValue] *)
Definition number_value (tok : list Z) (integer : bool) : value :=
  if integer then match parse_int64 tok with Some n => VInt n | None => VNumber (string_of_bytes tok) end
  else VFloat (string_of_bytes tok).

(** [decoder.number] *)
Definition load_number (s : list Z) : result LoadError (value * list Z) :=
  let '(sign, s1) := split_sign s in
  match int_part s1 with
  | None => Err LSyntax
  | Some (ip, s2) =>
    match load_frac s2 with
    | None => Err LSyntax
    | Some (fr, s3) =>
      match load_exp s3 with
      | None => Err LSyntax
      | Some (ex, s4) =>
        Ok (number_value (sign ++ ip ++ fr ++ ex) (bool_decide (length fr = 0%nat) && bool_decide (length ex = 0%nat)), s4)
      end
    end
  end.

(** The scalars of [decoder.value]. *)
Definition load_scalar (s : list Z) : result LoadError (value * list Z) :=
  match strip_prefix w_null s with
  | Some r => Ok (VNull, r)
  | None =>
    match strip_prefix w_true s with
    | Some r => Ok (VBool true, r)
    | None =>
      match strip_prefix w_false s with
      | Some r => Ok (VBool false, r)
      | None =>
        if match s with c :: t => (c =? 78) || (c =? 73) || ((c =? 45) && match t with 73 :: _ => true | _ => false end) | [] => false end then
          match strip_prefix w_nan s, strip_prefix w_infinity s, strip_prefix w_minus_infinity s with
          | Some _, _, _ => Err (LConstant "NaN")
          | None, Some _, _ => Err (LConstant "Infinity")
          | None, None, Some _ => Err (LConstant "-Infinity")
          | None, None, None => Err LSyntax
          end
        else load_number s
      end
    end
  end.

(** The fields of an object being read, and the first key it repeats. *)
Record builder : Type := mkBuilder {
  b_fields : list (string * value);
  b_repeated : option string
}.

Definition new_object : builder := mkBuilder [] None.

Definition builder_add (b : builder) (key : string) (item : value) : builder :=
  mkBuilder (map_set (b_fields b) key item)
    (match b_repeated b with
     | Some k => Some k
     | None => match map_get (b_fields b) key with Some _ => Some key | None => None end
     end).

Definition builder_done (b : builder) : result LoadError value :=
  match b_repeated b with Some k => Err (LRepeated k) | None => Ok (VMap (b_fields b)) end.

Fixpoint load_value (fuel depth : nat) (s : list Z) : result LoadError (value * list Z) :=
  match fuel with
  | O => Err LFuel
  | S fuel' =>
    let s := ws s in
    match s with
    | [] => Err LSyntax
    | c :: t =>
      if c =? 123 then
        if (MaxDepth <? S depth)%nat then Err LDepth
        else
          match ws t with
          | 125 :: r => match builder_done new_object with Ok v => Ok (v, r) | Err e => Err e end
          | _ => load_fields fuel' (S depth) new_object t
          end
      else if c =? 91 then
        if (MaxDepth <? S depth)%nat then Err LDepth
        else
          match ws t with
          | 93 :: r => Ok (VList [], r)
          | _ => load_items fuel' (S depth) [] t
          end
      else if c =? 34 then
        match load_str (length t) t with
        | Ok (b, r) => Ok (VString (string_of_bytes b), r)
        | Err e => Err e
        end
      else load_scalar s
    end
  end

(** The loop of [decoder.object], at a key. *)
with load_fields (fuel depth : nat) (b : builder) (s : list Z) : result LoadError (value * list Z) :=
  match fuel with
  | O => Err LFuel
  | S fuel' =>
    match ws s with
    | 34 :: t =>
      match load_str (length t) t with
      | Err e => Err e
      | Ok (key, r1) =>
        match ws r1 with
        | 58 :: r2 =>
          match load_value fuel' depth r2 with
          | Err e => Err e
          | Ok (item, r3) =>
            let b := builder_add b (string_of_bytes key) item in
            match ws r3 with
            | 44 :: r4 => load_fields fuel' depth b r4
            | 125 :: r4 => match builder_done b with Ok v => Ok (v, r4) | Err e => Err e end
            | _ => Err LSyntax
            end
          end
        | _ => Err LSyntax
        end
      end
    | _ => Err LSyntax
    end
  end

(** The loop of [decoder.array], at an item. *)
with load_items (fuel depth : nat) (items : list value) (s : list Z) : result LoadError (value * list Z) :=
  match fuel with
  | O => Err LFuel
  | S fuel' =>
    match load_value fuel' depth s with
    | Err e => Err e
    | Ok (item, r) =>
      let items := items ++ [item] in
      match ws r with
      | 44 :: r1 => load_items fuel' depth items r1
      | 93 :: r1 => Ok (VList items, r1)
      | _ => Err LSyntax
      end
    end
  end.

Definition load_fuel (s : list Z) : nat := S (2 * length s).

(** [Loads(doc, LoadOptions{Python, Map, Unique, Int64Numbers})] *)
Definition LoadsBytes (doc : list Z) : result LoadError value :=
  match Error doc with
  | Some text => Err (LScan text)
  | None =>
    match load_value (load_fuel doc) 0 doc with
    | Err e => Err e
    | Ok (v, r) => match ws r with [] => Ok v | _ => Err LTrailing end
    end
  end.

Definition Loads (doc : string) : result LoadError value := LoadsBytes (bytes_of_string doc).

(** ** Examples *)

Example loads_canonical :
  let v := VMap (map_of [("b", VInt (-3)); ("a", VList [VBool true; VNull; VString (String "010" "'")])]%string) in
  Loads (canonical v) = Ok v.
Proof. vm_compute. reflexivity. Qed.

Example loads_repeated : Loads (string_of_bytes [123; 34; 97; 34; 58; 49; 44; 32; 34; 97; 34; 58; 50; 125]) = Err (LRepeated "a").
Proof. vm_compute. reflexivity. Qed.

Example loads_trailing_comma :
  Loads "[1, 2, ]" = Err (LScan "Illegal trailing comma before end of array: line 1 column 6 (char 5)").
Proof. vm_compute. reflexivity. Qed.

(** A fraction keeps its first digit, an escape before the closing mark is complete. *)
Example loads_fraction : Loads "[1.25, 2e-3]" = Ok (VList [VFloat "1.25"; VFloat "2e-3"]).
Proof. vm_compute. reflexivity. Qed.

Example loads_escape : LoadsBytes [34; 92; 117; 48; 48; 52; 49; 34] = Ok (VString "A") ∧ is_ok (LoadsBytes [34; 92; 117; 48; 48; 52; 49]) = false.
Proof. vm_compute. auto. Qed.
