(* ===== verification/Utf8.v ===== *)
(** * Utf8: bytes, runes and the encodings between them.

    What the writer and the readers of pyjson rely on: [decode_rune] and [encode_rune] are inverse on Unicode scalar values, and
    the rune sequence of a UTF-8 text is unique. *)
From S2P Require Import Prelude GoLib Sha256 Json Loads.
Local Open Scope Z_scope.

(** ** Bytes *)
Definition is_byte (b : Z) : Prop := 0 ≤ b < 256.

Lemma byte_of_ascii_byte c : is_byte (byte_of_ascii c).
Proof. unfold is_byte, byte_of_ascii. pose proof (N_ascii_bounded c). lia. Qed.

Lemma ascii_of_byte_of_ascii c : ascii_of_byte (byte_of_ascii c) = c.
Proof. unfold ascii_of_byte, byte_of_ascii. by rewrite N2Z.id, ascii_N_embedding. Qed.

Lemma byte_of_ascii_of_byte b : is_byte b → byte_of_ascii (ascii_of_byte b) = b.
Proof. intros []. unfold ascii_of_byte, byte_of_ascii. rewrite N_ascii_embedding by lia. lia. Qed.

Lemma bytes_of_string_bytes s : Forall is_byte (bytes_of_string s).
Proof. apply Forall_fmap, Forall_true. intros c. apply byte_of_ascii_byte. Qed.

Lemma string_of_bytes_of_string s : string_of_bytes (bytes_of_string s) = s.
Proof.
  unfold string_of_bytes, bytes_of_string. rewrite <- list_fmap_compose.
  rewrite (list_fmap_ext _ id) by (intros; apply ascii_of_byte_of_ascii). by rewrite list_fmap_id, String.string_of_list_ascii_of_string.
Qed.

Lemma bytes_of_string_of_bytes l : Forall is_byte l → bytes_of_string (string_of_bytes l) = l.
Proof.
  intros Hl. unfold string_of_bytes, bytes_of_string. rewrite String.list_ascii_of_string_of_list_ascii, <- list_fmap_compose.
  induction Hl as [|b l Hb _ IH]; [done|]. csimpl. by rewrite IH, byte_of_ascii_of_byte.
Qed.

Lemma bytes_of_string_app s t : bytes_of_string (s +:+ t) = bytes_of_string s ++ bytes_of_string t.
Proof.
  unfold bytes_of_string. rewrite <- fmap_app. f_equal. induction s as [|c s IH]; [done|]. csimpl. by rewrite IH.
Qed.

Lemma length_bytes_of_string s : length (bytes_of_string s) = String.length s.
Proof. unfold bytes_of_string. rewrite length_fmap. induction s; csimpl; auto. Qed.

Lemma bytes_of_string_inj s t : bytes_of_string s = bytes_of_string t → s = t.
Proof. intros H. by rewrite <- (string_of_bytes_of_string s), H, string_of_bytes_of_string. Qed.

(** ** Bit operations as arithmetic *)
Lemma lor_high a b n : 0 ≤ n → 0 ≤ b < 2 ^ n → Z.lor (a * 2 ^ n) b = a * 2 ^ n + b.
Proof.
  intros Hn Hb. symmetry.
  rewrite <- Z.shiftl_mul_pow2 by done. apply Z.add_nocarry_lor. apply Z.bits_inj'. intros i Hi.
  rewrite Z.land_spec, Z.bits_0. destruct (decide (i < n)).
  - by rewrite Z.shiftl_spec_low.
  - destruct (decide (b = 0)) as [->|]; [by rewrite Z.bits_0, andb_false_r|].
    rewrite (Z.bits_above_log2 b); [apply andb_false_r|lia|]. apply Z.log2_lt_pow2; [lia|].
    eapply Z.lt_le_trans; [apply Hb|]. apply Z.pow_le_mono_r; lia.
Qed.

Lemma land_low b n : 0 ≤ n → Z.land b (2 ^ n - 1) = b mod 2 ^ n.
Proof. intros. rewrite <- Z.land_ones by done. f_equal. rewrite Z.ones_equiv. lia. Qed.

Lemma land_3f b : Z.land b 0x3f = b mod 64. Proof. apply (land_low b 6). lia. Qed.
Lemma land_1f b : Z.land b 0x1f = b mod 32. Proof. apply (land_low b 5). lia. Qed.
Lemma land_0f b : Z.land b 0x0f = b mod 16. Proof. apply (land_low b 4). lia. Qed.
Lemma land_07 b : Z.land b 0x07 = b mod 8. Proof. apply (land_low b 3). lia. Qed.

Lemma lor_80 x : 0 ≤ x < 64 → Z.lor 0x80 x = 0x80 + x. Proof. apply (lor_high 2 x 6). lia. Qed.
Lemma lor_c0 x : 0 ≤ x < 64 → Z.lor 0xc0 x = 0xc0 + x. Proof. apply (lor_high 3 x 6). lia. Qed.
Lemma lor_e0 x : 0 ≤ x < 32 → Z.lor 0xe0 x = 0xe0 + x. Proof. apply (lor_high 7 x 5). lia. Qed.
Lemma lor_f0 x : 0 ≤ x < 16 → Z.lor 0xf0 x = 0xf0 + x. Proof. apply (lor_high 15 x 4). lia. Qed.

Lemma bits2 a b : Z.lor (Z.shiftl (Z.land a 0x1f) 6) (Z.land b 0x3f) = (a mod 32) * 64 + b mod 64.
Proof.
  rewrite land_1f, land_3f, Z.shiftl_mul_pow2 by lia. apply (lor_high _ _ 6); [lia|]. apply Z.mod_pos_bound. lia.
Qed.

Lemma bits3 a b c :
  Z.lor (Z.lor (Z.shiftl (Z.land a 0x0f) 12) (Z.shiftl (Z.land b 0x3f) 6)) (Z.land c 0x3f)
  = (a mod 16) * 4096 + (b mod 64) * 64 + c mod 64.
Proof.
  rewrite land_0f, !land_3f, !Z.shiftl_mul_pow2 by lia.
  pose proof (Z.mod_pos_bound b 64). pose proof (Z.mod_pos_bound c 64).
  rewrite (lor_high (a mod 16) (b mod 64 * 2 ^ 6) 12) by lia.
  replace (a mod 16 * 2 ^ 12 + b mod 64 * 2 ^ 6) with ((a mod 16 * 64 + b mod 64) * 2 ^ 6) by lia.
  rewrite lor_high by lia. lia.
Qed.

Lemma bits4 a b c d :
  Z.lor (Z.lor (Z.shiftl (Z.land a 0x07) 18) (Z.shiftl (Z.land b 0x3f) 12)) (Z.lor (Z.shiftl (Z.land c 0x3f) 6) (Z.land d 0x3f))
  = (a mod 8) * 262144 + (b mod 64) * 4096 + (c mod 64) * 64 + d mod 64.
Proof.
  rewrite land_07, !land_3f, !Z.shiftl_mul_pow2 by lia.
  pose proof (Z.mod_pos_bound b 64). pose proof (Z.mod_pos_bound c 64). pose proof (Z.mod_pos_bound d 64).
  rewrite (lor_high (a mod 8) (b mod 64 * 2 ^ 12) 18) by lia. rewrite (lor_high (c mod 64) (d mod 64) 6) by lia.
  replace (a mod 8 * 2 ^ 18 + b mod 64 * 2 ^ 12) with ((a mod 8 * 64 + b mod 64) * 2 ^ 12) by lia.
  rewrite lor_high by lia. lia.
Qed.

(** ** Runes *)
Definition scalar (r : Z) : Prop := 0 ≤ r ≤ 0x10ffff ∧ ¬ (0xd800 ≤ r ≤ 0xdfff).

#[export] Instance scalar_dec r : Decision (scalar r) := _.

Lemma in_range_spec lo hi b : in_range lo hi b = true ↔ lo ≤ b ≤ hi.
Proof. unfold in_range. rewrite andb_true_iff, !Z.leb_le. done. Qed.

Lemma in_range_false lo hi b : in_range lo hi b = false ↔ ¬ (lo ≤ b ≤ hi).
Proof. rewrite <- in_range_spec. by destruct (in_range lo hi b). Qed.

(** Decide a range test by arithmetic. *)
Ltac range_true := apply in_range_spec; lia.
Ltac range_false := apply in_range_false; lia.

(** The bytes of a rune, as arithmetic. *)
Lemma encode1 r : 0 ≤ r ≤ 0x7f → encode_rune r = [r].
Proof. intros. unfold encode_rune. by rewrite (proj2 (in_range_spec _ _ _)). Qed.

Lemma encode2 r : 0x80 ≤ r ≤ 0x7ff → encode_rune r = [0xc0 + r / 64; 0x80 + r mod 64].
Proof.
  intros. unfold encode_rune. rewrite (proj2 (in_range_false 0 0x7f r)) by lia. rewrite (proj2 (in_range_spec 0x80 0x7ff r)) by lia.
  rewrite land_3f, Z.shiftr_div_pow2 by lia. change (2 ^ 6) with 64. pose proof (Z.mod_pos_bound r 64).
  rewrite lor_c0, lor_80; [done|lia|]. Z.div_mod_to_equations. lia.
Qed.

Lemma encode3 r : 0x800 ≤ r ≤ 0xffff → ¬ (0xd800 ≤ r ≤ 0xdfff) →
  encode_rune r = [0xe0 + r / 4096; 0x80 + (r / 64) mod 64; 0x80 + r mod 64].
Proof.
  intros. unfold encode_rune. rewrite (proj2 (in_range_false 0 0x7f r)), (proj2 (in_range_false 0x80 0x7ff r)) by lia.
  rewrite (proj2 (in_range_false 0xd800 0xdfff r)) by lia.
  rewrite (proj2 (in_range_spec 0 0x10ffff r)), (proj2 (in_range_spec 0x800 0xffff r)) by lia. cbn [orb negb].
  rewrite !land_3f, !Z.shiftr_div_pow2 by lia. change (2 ^ 6) with 64. change (2 ^ 12) with 4096.
  pose proof (Z.mod_pos_bound r 64). pose proof (Z.mod_pos_bound (r / 64) 64).
  rewrite lor_e0, !lor_80; [done|lia|lia|]. Z.div_mod_to_equations. lia.
Qed.

Lemma encode4 r : 0x10000 ≤ r ≤ 0x10ffff →
  encode_rune r = [0xf0 + r / 262144; 0x80 + (r / 4096) mod 64; 0x80 + (r / 64) mod 64; 0x80 + r mod 64].
Proof.
  intros. unfold encode_rune. rewrite (proj2 (in_range_false 0 0x7f r)), (proj2 (in_range_false 0x80 0x7ff r)) by lia.
  rewrite (proj2 (in_range_false 0xd800 0xdfff r)) by lia.
  rewrite (proj2 (in_range_spec 0 0x10ffff r)), (proj2 (in_range_false 0x800 0xffff r)) by lia. cbn [orb negb].
  rewrite !land_3f, !Z.shiftr_div_pow2 by lia. change (2 ^ 6) with 64. change (2 ^ 12) with 4096. change (2 ^ 18) with 262144.
  pose proof (Z.mod_pos_bound r 64). pose proof (Z.mod_pos_bound (r / 64) 64). pose proof (Z.mod_pos_bound (r / 4096) 64).
  rewrite lor_f0, !lor_80; [done|lia|lia|lia|]. Z.div_mod_to_equations. lia.
Qed.

(** The four lengths of a scalar value. *)
Lemma scalar_cases r : scalar r →
  0 ≤ r ≤ 0x7f ∨ 0x80 ≤ r ≤ 0x7ff ∨ (0x800 ≤ r ≤ 0xffff ∧ ¬ (0xd800 ≤ r ≤ 0xdfff)) ∨ 0x10000 ≤ r ≤ 0x10ffff.
Proof. unfold scalar. lia. Qed.

Ltac by_div := Z.div_mod_to_equations; lia.

Lemma second_ok_spec b0 b1 :
  second_ok b0 b1 = true ↔
  0x80 ≤ b1 ≤ 0xbf ∧ (b0 = 0xe0 → 0xa0 ≤ b1) ∧ (b0 = 0xed → b1 ≤ 0x9f) ∧ (b0 = 0xf0 → 0x90 ≤ b1) ∧ (b0 = 0xf4 → b1 ≤ 0x8f).
Proof.
  unfold second_ok, is_cont.
  destruct (Z.eqb_spec b0 0xe0); [rewrite in_range_spec; lia|].
  destruct (Z.eqb_spec b0 0xed); [rewrite in_range_spec; lia|].
  destruct (Z.eqb_spec b0 0xf0); [rewrite in_range_spec; lia|].
  destruct (Z.eqb_spec b0 0xf4); rewrite in_range_spec; lia.
Qed.

(** A rune that was written is read back, with its width. *)
Lemma decode_encode r t : scalar r → decode_rune (encode_rune r ++ t) = (r, length (encode_rune r)).
Proof.
  intros [H|[H|[[H Hs]|H]]]%scalar_cases.
  - rewrite encode1 by done. cbn [app length decode_rune]. destruct (Z.ltb_spec r 0x80); [done|lia].
  - rewrite encode2 by done. cbn [app length decode_rune].
    destruct (Z.ltb_spec (0xc0 + r / 64) 0x80) as [Hc|_]; [by_div|].
    rewrite (proj2 (in_range_spec 0xc2 0xdf _)) by by_div. unfold is_cont. rewrite (proj2 (in_range_spec 0x80 0xbf _)) by by_div.
    rewrite bits2. f_equal. by_div.
  - rewrite encode3 by done. cbn [app length decode_rune].
    destruct (Z.ltb_spec (0xe0 + r / 4096) 0x80) as [Hc|_]; [by_div|].
    rewrite (proj2 (in_range_false 0xc2 0xdf _)) by by_div. rewrite (proj2 (in_range_spec 0xe0 0xef _)) by by_div.
    rewrite (proj2 (second_ok_spec _ _)) by (repeat split; intros; by_div).
    unfold is_cont. rewrite (proj2 (in_range_spec 0x80 0xbf _)) by by_div. cbn [andb]. rewrite bits3. f_equal. by_div.
  - rewrite encode4 by done. cbn [app length decode_rune].
    destruct (Z.ltb_spec (0xf0 + r / 262144) 0x80) as [Hc|_]; [by_div|].
    rewrite (proj2 (in_range_false 0xc2 0xdf _)) by by_div. rewrite (proj2 (in_range_false 0xe0 0xef _)) by by_div.
    rewrite (proj2 (in_range_spec 0xf0 0xf4 _)) by by_div.
    rewrite (proj2 (second_ok_spec _ _)) by (repeat split; intros; by_div).
    unfold is_cont. rewrite !(proj2 (in_range_spec 0x80 0xbf _)) by by_div. cbn [andb]. rewrite bits4. f_equal. by_div.
Qed.

(** What decodes to a rune is that rune's encoding. *)
Lemma encode_decode s r n :
  Forall is_byte s → s ≠ [] → decode_rune s = (r, n) → ¬ (r = rune_error ∧ n = 1%nat) →
  scalar r ∧ take n s = encode_rune r ∧ (n ≤ length s)%nat.
Proof.
  intros Hb Hs Hd Hne. destruct s as [|b0 t]; [done|]. apply Forall_cons in Hb as [Hb0 Ht]. unfold is_byte in Hb0.
  unfold decode_rune in Hd. destruct (Z.ltb_spec b0 0x80).
  { injection Hd as <- <-. rewrite encode1 by lia. unfold scalar. simpl. split_and!; try lia. done. }
  destruct (in_range 0xc2 0xdf b0) eqn:E2; [|destruct (in_range 0xe0 0xef b0) eqn:E3; [|destruct (in_range 0xf0 0xf4 b0) eqn:E4]].
  - apply in_range_spec in E2. destruct t as [|b1 t]; [naive_solver|]. destruct (is_cont b1) eqn:E1; [|naive_solver].
    apply in_range_spec in E1. rewrite bits2 in Hd. injection Hd as <- <-. rewrite encode2 by by_div. unfold scalar.
    split_and!; [by_div|by_div|by_div| |simpl; lia]. simpl. do 2 f_equal; [by_div|]. f_equal. by_div.
  - apply in_range_spec in E3. destruct t as [|b1 [|b2 t]]; [naive_solver..|].
    destruct (second_ok b0 b1) eqn:E1; [|naive_solver]. destruct (is_cont b2) eqn:E2'; [|naive_solver]. cbn [andb] in Hd.
    apply second_ok_spec in E1 as (? & ? & ? & _). apply in_range_spec in E2'. rewrite bits3 in Hd. injection Hd as <- <-.
    rewrite encode3 by by_div. unfold scalar.
    split_and!; [by_div|by_div|by_div| |simpl; lia]. simpl. f_equal; [by_div|]. f_equal; [by_div|]. f_equal. by_div.
  - apply in_range_spec in E4. destruct t as [|b1 [|b2 [|b3 t]]]; [naive_solver..|].
    destruct (second_ok b0 b1) eqn:E1; [|naive_solver]. destruct (is_cont b2) eqn:E2'; [|naive_solver].
    destruct (is_cont b3) eqn:E3'; [|naive_solver]. cbn [andb] in Hd.
    apply second_ok_spec in E1 as (? & _ & _ & ? & ?). apply in_range_spec in E2', E3'. rewrite bits4 in Hd. injection Hd as <- <-.
    rewrite encode4 by by_div. unfold scalar.
    split_and!; [by_div|by_div|by_div| |simpl; lia]. simpl. f_equal; [by_div|]. f_equal; [by_div|]. f_equal; [by_div|]. f_equal. by_div.
  - naive_solver.
Qed.

(** ** Texts *)
Definition encode_runes (rs : list Z) : list Z := rs ≫= encode_rune.

(** A byte sequence that is UTF-8. *)
Definition utf8 (s : list Z) : Prop := ∃ rs, Forall scalar rs ∧ s = encode_runes rs.

Lemma encode_runes_app rs1 rs2 : encode_runes (rs1 ++ rs2) = encode_runes rs1 ++ encode_runes rs2.
Proof. apply bind_app. Qed.

Lemma encode_runes_cons r rs : encode_runes (r :: rs) = encode_rune r ++ encode_runes rs.
Proof. done. Qed.

Lemma encode_rune_bytes r : scalar r → Forall is_byte (encode_rune r).
Proof.
  unfold is_byte. intros [H|[H|[[H Hs]|H]]]%scalar_cases.
  - rewrite encode1 by done. repeat constructor; lia.
  - rewrite encode2 by done. repeat constructor; by_div.
  - rewrite encode3 by done. repeat constructor; by_div.
  - rewrite encode4 by done. repeat constructor; by_div.
Qed.

Lemma length_encode_rune r : scalar r → (1 ≤ length (encode_rune r) ≤ 4)%nat.
Proof.
  intros [H|[H|[[H Hs]|H]]]%scalar_cases.
  - rewrite encode1 by done. simpl. lia.
  - rewrite encode2 by done. simpl. lia.
  - rewrite encode3 by done. simpl. lia.
  - rewrite encode4 by done. simpl. lia.
Qed.

Lemma encode_runes_bytes rs : Forall scalar rs → Forall is_byte (encode_runes rs).
Proof. induction 1; [constructor|]. rewrite encode_runes_cons. apply Forall_app. eauto using encode_rune_bytes. Qed.

Lemma length_encode_runes rs : Forall scalar rs → (length rs ≤ length (encode_runes rs))%nat.
Proof.
  induction 1 as [|r rs Hr _ IH]; [done|]. rewrite encode_runes_cons, length_app. pose proof (length_encode_rune r Hr). simpl. lia.
Qed.

(** Plain ASCII characters are their own encoding. *)
Definition plain_char (r : Z) : Prop := 0 ≤ r ≤ 0x7f.

Lemma plain_scalar r : plain_char r → scalar r.
Proof. unfold plain_char, scalar. lia. Qed.

Lemma encode_runes_ascii rs : Forall plain_char rs → encode_runes rs = rs.
Proof. induction 1 as [|r rs Hr _ IH]; [done|]. rewrite encode_runes_cons, IH, encode1 by done. done. Qed.

(** [decode_rune] consumes at least one byte and no more than there are. *)
Lemma decode_rune_size s : s ≠ [] → (1 ≤ snd (decode_rune s) ≤ length s)%nat.
Proof.
  intros Hs. destruct s as [|b0 t]; [done|]. unfold decode_rune.
  repeat match goal with |- context [match ?x with _ => _ end] => destruct x end; simpl; lia.
Qed.

Lemma runes_of_fuel fuel s : (length s ≤ fuel)%nat → runes_of fuel s = runes s.
Proof.
  unfold runes. remember (length s) as n eqn:Hn. revert fuel s Hn.
  induction (lt_wf n) as [n _ IH]. intros fuel s Hn Hf. destruct s as [|b t]; [by destruct fuel; rewrite Hn|].
  destruct fuel as [|fuel]; [simpl in *; lia|]. destruct n as [|n]; [simpl in *; lia|]. cbn [runes_of].
  destruct (decode_rune (b :: t)) as [r k] eqn:E.
  pose proof (decode_rune_size (b :: t)) as Hk. rewrite E in Hk. cbn [snd] in Hk. specialize (Hk ltac:(done)).
  f_equal. assert (length (drop k (b :: t)) < S n)%nat as Hlt by (rewrite length_drop; lia).
  rewrite (IH (length (drop k (b :: t))) Hlt fuel _ eq_refl) by (rewrite length_drop; lia).
  destruct (decide (length (drop k (b :: t)) = n)) as [<-|]; [done|].
  symmetry. apply (IH _ Hlt n); [done|]. lia.
Qed.

Lemma runes_step s : s ≠ [] → runes s = fst (decode_rune s) :: runes (drop (snd (decode_rune s)) s).
Proof.
  intros Hs. pose proof (decode_rune_size s Hs) as Hk. destruct s as [|b t]; [done|].
  unfold runes at 1. cbn [length runes_of]. destruct (decode_rune (b :: t)) as [r k]. cbn [fst snd] in *.
  f_equal. apply runes_of_fuel. rewrite length_drop. simpl in *. lia.
Qed.

Lemma encode_rune_app_nonnil r t : scalar r → encode_rune r ++ t ≠ [].
Proof. intros H. pose proof (length_encode_rune r H). by destruct (encode_rune r); [simpl in *; lia|]. Qed.

Lemma runes_encode rs t : Forall scalar rs → runes (encode_runes rs ++ t) = rs ++ runes t.
Proof.
  induction 1 as [|r rs Hr _ IH]; [done|].
  rewrite encode_runes_cons, <- (assoc_L (++)), runes_step, decode_encode by eauto using encode_rune_app_nonnil.
  cbn [fst snd]. by rewrite drop_app_length, IH.
Qed.

Lemma runes_encode_runes rs : Forall scalar rs → runes (encode_runes rs) = rs.
Proof. intros. rewrite <- (app_nil_r (encode_runes rs)), runes_encode by done. by rewrite app_nil_r. Qed.

Lemma utf8_runes s : utf8 s → Forall scalar (runes s) ∧ s = encode_runes (runes s).
Proof. intros (rs & Hrs & ->). by rewrite runes_encode_runes. Qed.

Lemma utf8_app s t : utf8 s → utf8 t → utf8 (s ++ t).
Proof.
  intros (rs & Hr & ->) (rs' & Hr' & ->). exists (rs ++ rs'). rewrite encode_runes_app, Forall_app. done.
Qed.

Lemma utf8_encode_rune r : scalar r → utf8 (encode_rune r).
Proof. intros. exists [r]. split; [by constructor|]. unfold encode_runes. cbn. by rewrite app_nil_r. Qed.

Lemma utf8_nil : utf8 [].
Proof. by exists []. Qed.

Lemma utf8_ascii s : Forall plain_char s → utf8 s.
Proof. intros H. exists s. rewrite encode_runes_ascii by done. split; [|done]. eapply Forall_impl; [exact H|]. apply plain_scalar. Qed.

(** The character the writer reads is the rune. *)
Lemma CodePoint_encode r t : scalar r → CodePoint (encode_rune r ++ t) = (r, length (encode_rune r)).
Proof.
  intros Hr. unfold CodePoint. rewrite (decode_encode r t Hr).
  assert ((r =? rune_error) && (length (encode_rune r) =? 1)%nat = false) as ->.
  { destruct (Z.eqb_spec r rune_error) as [->|]; done. }
  destruct (scalar_cases r Hr) as [H|[H|[[H Hs]|H]]].
  - rewrite encode1 by done. cbn [app]. destruct t as [|b1 [|b2 t]]; try done. by destruct (Z.eqb_spec r 0xed); [lia|].
  - rewrite encode2 by done. cbn [app]. destruct t as [|b2 t]; [done|]. destruct (Z.eqb_spec (0xc0 + r / 64) 0xed); [by_div|done].
  - rewrite encode3 by done. cbn [app]. destruct (Z.eqb_spec (0xe0 + r / 4096) 0xed) as [He|]; [|done].
    rewrite (proj2 (in_range_false 0xa0 0xbf _)); [done|by_div].
  - rewrite encode4 by done. cbn [app]. destruct (Z.eqb_spec (0xf0 + r / 262144) 0xed); [by_div|done].
Qed.
