(* ===== verification/JsonText.v ===== *)
(** * JsonText: the text the canonical writer produces.

    [text_of v] is the canonical text of [v] as runes, by recursion on [v]; [canonical_text] says the writer produces its
    UTF-8. The readers of [JsonRoundtrip] are followed over this text. *)
From S2P Require Import Prelude GoLib Sha256 Json Loads Utf8.
Local Open Scope Z_scope.
(** ** Values that JSON carries exactly *)

(** What the canonical writer can write and the reader reads back: int64 integers, UTF-8 strings, maps with increasing keys. *)
Definition str_lt (a b : string) : Prop := String.le a b ∧ a ≠ b.

#[local] Set Warnings "-register-all".

Inductive json_ok : value → Prop :=
| ok_null : json_ok VNull
| ok_bool b : json_ok (VBool b)
| ok_int z : min_int64 ≤ z ≤ max_int64 → json_ok (VInt z)
| ok_string s : utf8 (bytes_of_string s) → json_ok (VString s)
| ok_list l : Forall json_ok l → json_ok (VList l)
| ok_map fs : Forall (λ kv, utf8 (bytes_of_string (fst kv)) ∧ json_ok (snd kv)) fs → StronglySorted str_lt fs.*1 → json_ok (VMap fs).

(** Containers around containers. *)
Fixpoint height (v : value) : nat :=
  match v with
  | VList l => S (max_list (height <$> l))
  | VMap fs => S (max_list ((λ kv, height (snd kv)) <$> fs))
  | _ => O
  end.

(** ** Decimal integers *)
Lemma decimal_app ds d : decimal (ds ++ [d]) = decimal ds * 10 + (d - 48).
Proof. unfold decimal. by rewrite foldl_app. Qed.

Definition digit (d : Z) : Prop := 48 ≤ d ≤ 57.

Lemma pretty_char x : (x < 10)%N → byte_of_ascii (pretty_N_char x) = 48 + Z.of_N x.
Proof.
  intros H. assert (Forall (λ n, byte_of_ascii (pretty_N_char (N.of_nat n)) = 48 + Z.of_nat n) (seq 0 10)) as HF by (by repeat constructor).
  rewrite Forall_seq in HF. specialize (HF (N.to_nat x)). rewrite N2Nat.id in HF. rewrite HF by lia. lia.
Qed.

(** The digits [pretty_N_go] puts before [s]. *)
Lemma pretty_go_digits x s : (0 < x)%N → ∃ d ds,
  bytes_of_string (pretty_N_go x s) = (d :: ds) ++ bytes_of_string s ∧ 49 ≤ d ≤ 57 ∧ Forall digit ds ∧ decimal (d :: ds) = Z.of_N x.
Proof.
  revert s. induction (N.lt_wf_0 x) as [x _ IH]. intros s Hx. rewrite pretty_N_go_step by done.
  pose proof (N.mod_lt x 10 ltac:(done)). pose proof (N.div_mod x 10 ltac:(done)).
  destruct (decide (x < 10)%N) as [Hlt|Hge].
  - rewrite N.div_small, pretty_N_go_0, N.mod_small by done. exists (48 + Z.of_N x), [].
    unfold bytes_of_string. csimpl. rewrite pretty_char by done. unfold decimal. simpl. split_and!; [done|lia|lia|done|lia].
  - destruct (IH (x / 10)%N) with (s := String (pretty_N_char (x mod 10)) s) as (d & ds & E & Hd & Hds & Hv).
    { apply N.div_lt; lia. } { assert (10 ≤ x)%N by lia. pose proof (N.Div0.div_le_mono 10 x 10). rewrite N.div_same in *; lia. }
    exists d, (ds ++ [48 + Z.of_N (x mod 10)]). rewrite E. split_and!; [|lia|lia|..].
    + unfold bytes_of_string. csimpl. rewrite pretty_char by lia. by rewrite <- (assoc_L (++)).
    + apply Forall_app. split; [done|]. apply Forall_singleton. unfold digit.
      generalize dependent (x mod 10)%N. lia.
    + rewrite app_comm_cons, decimal_app, Hv. generalize dependent (x mod 10)%N. generalize dependent (x / 10)%N. lia.
Qed.

(** The text of an integer: a sign, and digits without a leading zero. *)
Lemma itoa_text z : ∃ sign d ds,
  bytes_of_string (itoa z) = sign ++ d :: ds ∧ (sign = [] ∨ sign = [45]) ∧ (d = 48 ∧ ds = [] ∨ 49 ≤ d ≤ 57) ∧ Forall digit ds ∧
  z = (match sign with [] => decimal (d :: ds) | _ => - decimal (d :: ds) end).
Proof.
  destruct z as [|p|p].
  - exists [], 48, []. split_and!; auto.
  - destruct (pretty_go_digits (Npos p) "") as (d & ds & E & Hd & Hds & Hv); [done|]. exists [], d, ds.
    assert (bytes_of_string (itoa (Zpos p)) = bytes_of_string (pretty_N_go (Npos p) "")) as -> by done.
    rewrite E, app_nil_r. split_and!; auto; by rewrite Hv.
  - destruct (pretty_go_digits (Npos p) "") as (d & ds & E & Hd & Hds & Hv); [done|]. exists [45], d, ds.
    assert (bytes_of_string (itoa (Zneg p)) = 45 :: bytes_of_string (pretty_N_go (Npos p) "")) as -> by done.
    rewrite E, app_nil_r. split_and!; auto; by rewrite Hv.
Qed.

Lemma itoa_plain z : Forall plain_char (bytes_of_string (itoa z)).
Proof.
  destruct (itoa_text z) as (sign & d & ds & -> & Hs & Hd & Hds & _). unfold plain_char. apply Forall_app. split.
  - destruct Hs as [->| ->]; repeat constructor; lia.
  - constructor; [lia|]. eapply Forall_impl; [exact Hds|]. unfold digit. intros; lia.
Qed.

(** ** Strings *)

(** One character as the writer spells it, in runes. *)
Definition spelled (r : Z) : list Z :=
  if (r =? 34) || (r =? 92) then [92; r]
  else if r =? 10 then [92; 110]
  else if r =? 13 then [92; 114]
  else if r =? 9 then [92; 116]
  else if r =? 8 then [92; 98]
  else if r =? 12 then [92; 102]
  else if r <? 0x20 then u_escape r
  else [r].

Definition string_text (rs : list Z) : list Z := 34 :: (rs ≫= spelled) ++ [34].

(** The escapes of control characters, checked one by one. *)
Lemma control_cases (P : Z → Prop) r : Forall P (Z.of_nat <$> seq 0 32) → 0 ≤ r < 0x20 → P r.
Proof.
  intros HP Hr. rewrite Forall_fmap, Forall_seq in HP. replace r with (Z.of_nat (Z.to_nat r)) by lia. apply HP. lia.
Qed.

Definition escape_shape (r : Z) (text : list Z) : Prop :=
  ∃ a b c d, text = [92; 117; a; b; c; d] ∧ Forall plain_char text ∧
    isHex a && isHex b && isHex c && isHex d = true ∧ ∀ t, hex4 (text ++ t) = Some (r, t).

Lemma u_escape_shape r : 0 ≤ r < 0x20 → escape_shape r (u_escape r).
Proof.
  revert r. intros r Hr. apply (control_cases (λ r, escape_shape r (u_escape r))); [|done].
  repeat (apply Forall_cons; split; [do 4 eexists; split_and!;
    [vm_compute; reflexivity | refine (bool_decide_unpack _ _); vm_compute; exact I | vm_compute; reflexivity | intros t; vm_compute; reflexivity]|]).
  apply Forall_nil. done.
Qed.

Lemma spell_canonical r : scalar r → spell_rune canonical_options r = encode_runes (spelled r) ∧ Forall scalar (spelled r).
Proof.
  intros Hr. unfold spell_rune, spelled.
  assert (IsSurrogate r = false) as Hs by (unfold IsSurrogate; apply in_range_false; unfold scalar in Hr; lia).
  destruct (Z.eqb_spec r 34) as [->|]; [split; [done|refine (bool_decide_unpack _ _); vm_compute; exact I]|].
  destruct (Z.eqb_spec r 92) as [->|]; [split; [done|refine (bool_decide_unpack _ _); vm_compute; exact I]|]. cbn [orb].
  do 5 (case_match; [split; [done|refine (bool_decide_unpack _ _); vm_compute; exact I]|]). rewrite Hs.
  destruct (Z.ltb_spec r 0x20); cbn [orb negb Unicode canonical_options andb].
  - assert (utf16_units r = [r]) as ->.
    { unfold utf16_units. rewrite (proj2 (in_range_false 0x10000 0x10ffff r)) by lia. rewrite Hs.
      rewrite (proj2 (in_range_spec 0 0x10ffff r)); [done|unfold scalar in *; lia]. }
    destruct (u_escape_shape r) as (a & b & c & d & E & Hp & _); [unfold scalar in *; lia|].
    rewrite (encode_runes_ascii (u_escape r)) by done. split; [apply app_nil_r|]. eapply Forall_impl; [exact Hp|apply plain_scalar].
  - split; [|by constructor]. unfold encode_runes. cbn. by rewrite app_nil_r.
Qed.

Lemma spelled_scalar rs : Forall scalar rs → Forall scalar (rs ≫= spelled).
Proof.
  induction 1 as [|r rs Hr _ IH]; [constructor|]. rewrite bind_cons. apply Forall_app. split; [|done]. by apply spell_canonical.
Qed.

Lemma str_body_encode fuel rs : Forall scalar rs → (length (encode_runes rs) ≤ fuel)%nat →
  str_body canonical_options fuel (encode_runes rs) = encode_runes (rs ≫= spelled).
Proof.
  intros Hrs. revert fuel. induction Hrs as [|r rs Hr Hrs IH]; intros fuel Hf; [by destruct fuel|].
  rewrite encode_runes_cons in *. pose proof (length_encode_rune r Hr). rewrite length_app in Hf.
  destruct fuel as [|fuel]; [lia|]. cbn [str_body].
  destruct (encode_rune r ++ encode_runes rs) as [|b t] eqn:E; [by apply encode_rune_app_nonnil in E|]. rewrite <- E, CodePoint_encode by done.
  cbn [BytesOpt canonical_options]. rewrite andb_false_r. rewrite drop_app_length, IH by lia.
  destruct (spell_canonical r Hr) as [-> _]. by rewrite bind_cons, encode_runes_app.
Qed.

Lemma write_str_text s rs : Forall scalar rs → bytes_of_string s = encode_runes rs →
  bytes_of_string (write_str canonical_options s) = encode_runes (string_text rs).
Proof.
  intros Hrs Hs. unfold write_str. rewrite Hs, str_body_encode by done. unfold string_text.
  rewrite encode_runes_cons, encode_runes_app. change (encode_rune 34) with [34]. change (encode_runes [34]) with [34].
  apply bytes_of_string_of_bytes. apply Forall_cons. split; [done|]. apply Forall_app. split; [|by repeat constructor].
  by apply encode_runes_bytes, spelled_scalar.
Qed.

(** ** Values *)

(** Parts with commas between them. *)
Definition joined (parts : list (list Z)) : list Z :=
  match parts with [] => [] | p :: rest => p ++ concat ((λ q, 44 :: q) <$> rest) end.

Fixpoint text_of (v : value) : list Z :=
  match v with
  | VNull => w_null
  | VBool b => if b then w_true else w_false
  | VInt z => bytes_of_string (itoa z)
  | VNumber t | VFloat t => bytes_of_string t
  | VString s => string_text (runes (bytes_of_string s))
  | VList l => 91 :: joined (text_of <$> l) ++ [93]
  | VMap fs => 123 :: joined ((λ kv, string_text (runes (bytes_of_string (fst kv))) ++ 58 :: text_of (snd kv)) <$> fs) ++ [125]
  end.

Definition entry_text (kv : string * value) : list Z := string_text (runes (bytes_of_string (fst kv))) ++ 58 :: text_of (snd kv).

Lemma bytes_of_concat l : bytes_of_string (String.concat "" l) = concat (bytes_of_string <$> l).
Proof.
  induction l as [|s l IH]; [done|]. csimpl. rewrite <- IH. destruct l as [|t l].
  - cbn. by rewrite app_nil_r.
  - change (String.concat "" (s :: t :: l)) with (s +:+ "" +:+ String.concat "" (t :: l))%string. by rewrite !bytes_of_string_app.
Qed.

Lemma write_members_bytes depth opening closing ms :
  bytes_of_string (write_members canonical_options depth opening closing ms) =
  bytes_of_string opening ++ joined (bytes_of_string <$> ms) ++ bytes_of_string closing.
Proof.
  unfold write_members. rewrite !bytes_of_string_app, bytes_of_concat.
  assert (bytes_of_string (if (0 <? length ms)%nat then close canonical_options depth else "") = []) as -> by (by destruct (0 <? _)%nat).
  f_equal. f_equal. destruct ms as [|m ms]; [done|]. unfold joined. cbn [imap]. csimpl. f_equal.
  f_equal. rewrite fmap_imap, <- list_fmap_compose. apply list_eq. intros i.
  rewrite list_lookup_imap, list_lookup_fmap. by destruct (ms !! i).
Qed.

Lemma encode_joined parts : encode_runes (joined parts) = joined (encode_runes <$> parts).
Proof.
  destruct parts as [|p parts]; [done|]. unfold joined. csimpl. rewrite encode_runes_app. f_equal.
  induction parts as [|q parts IH]; [done|]. rewrite !fmap_cons. cbn [concat app]. rewrite encode_runes_cons, encode_runes_app, IH. done.
Qed.

Lemma joined_scalar parts : Forall (Forall scalar) parts → Forall scalar (joined parts).
Proof.
  destruct 1 as [|p parts Hp Hps]; [constructor|]. apply Forall_app. split; [done|].
  induction Hps; csimpl; [constructor|]. constructor; [by apply plain_scalar|]. by apply Forall_app.
Qed.

Lemma string_text_scalar rs : Forall scalar rs → Forall scalar (string_text rs).
Proof.
  intros. apply Forall_cons. split; [by apply plain_scalar|]. apply Forall_app. split; [by apply spelled_scalar|].
  apply Forall_singleton. by apply plain_scalar.
Qed.

(** Text written by a member whose bytes are known. *)
Lemma members_text depth opening closing o c ms ts :
  bytes_of_string opening = [o] → bytes_of_string closing = [c] → plain_char o → plain_char c →
  Forall2 (λ m t, bytes_of_string m = encode_runes t ∧ Forall scalar t) ms ts →
  bytes_of_string (write_members canonical_options depth opening closing ms) = encode_runes (o :: joined ts ++ [c]) ∧
  Forall scalar (o :: joined ts ++ [c]).
Proof.
  intros Ho Hc Po Pc Hms. rewrite write_members_bytes, Ho, Hc, encode_runes_cons, encode_runes_app, encode1 by done.
  rewrite (encode_runes_ascii [c]), encode_joined by (by constructor). split.
  - cbn [app]. do 3 f_equal. induction Hms as [|m t ms ts [Hm _] _ IH]; csimpl; [done|]. by rewrite Hm, IH.
  - apply Forall_cons. split; [by apply plain_scalar|]. apply Forall_app. split.
    + apply joined_scalar. induction Hms as [|m t ms ts [_ Ht] _ IH]; by constructor.
    + apply Forall_singleton. by apply plain_scalar.
Qed.

Lemma write_value_text v : json_ok v → ∀ depth,
  bytes_of_string (write_value canonical_options v depth) = encode_runes (text_of v) ∧ Forall scalar (text_of v).
Proof.
  induction v as [| b | z | t | t | s | l IH | fs IH] using value_ind'; intros Hok depth; inversion Hok; subst; cbn [write_value text_of].
  - split; [done|]. refine (bool_decide_unpack _ _). vm_compute. exact I.
  - destruct b; (split; [done|]; refine (bool_decide_unpack _ _); vm_compute; exact I).
  - pose proof (itoa_plain z) as Hp. rewrite encode_runes_ascii by done. split; [done|].
    eapply Forall_impl; [exact Hp|apply plain_scalar].
  - destruct (utf8_runes (bytes_of_string s)) as [Hr Hs]; [done|]. split; [by apply write_str_text|by apply string_text_scalar].
  - apply members_text; [done..|]. apply Forall2_fmap. apply Forall_Forall2_diag. rewrite Forall_forall in *. eauto.
  - apply members_text; [done..|]. apply Forall2_fmap. apply Forall_Forall2_diag. rewrite Forall_forall in *.
    intros [k w] Hin. cbn [fst snd]. destruct (H0 _ Hin) as [Hk Hw]. cbn [fst snd] in *.
    destruct (IH _ Hin Hw (S depth)) as [E Hsc]. cbn [snd] in *. destruct (utf8_runes _ Hk) as [Hr Hs]. split.
    + rewrite !bytes_of_string_app, E, (write_str_text k (runes (bytes_of_string k))) by done.
      by rewrite encode_runes_app, encode_runes_cons.
    + apply Forall_app. split; [by apply string_text_scalar|]. constructor; [by apply plain_scalar|done].
Qed.

Lemma canonical_text v : json_ok v → bytes_of_string (canonical v) = encode_runes (text_of v) ∧ Forall scalar (text_of v).
Proof. intros. by apply write_value_text. Qed.

(** * A [map[string]any] as the list of its fields.

    Lookup, assignment and literals of maps kept in increasing key order, and that such a list is determined by its lookups: equality of the
    lists is equality of the maps. *)
Local Close Scope Z_scope.
(** ** Maps *)
Definition assoc_last (es : list (string * value)) (k : string) : option value :=
  foldl (λ acc kv, if bool_decide (fst kv = k) then Some (snd kv) else acc) None es.

Lemma map_get_set fs k v k' : map_get (map_set fs k v) k' = if bool_decide (k = k') then Some v else map_get fs k'.
Proof.
  induction fs as [|[k0 w] fs IH]; [done|]. cbn [map_set map_get]. destruct (decide (k0 = k)) as [->|Hne].
  - rewrite bool_decide_eq_true_2 by done. cbn [map_get]. by destruct (bool_decide (k = k')).
  - rewrite bool_decide_eq_false_2 by done. destruct (String.leb k k0); cbn [map_get]; [done|].
    rewrite IH. destruct (decide (k0 = k')) as [->|].
    + by rewrite bool_decide_eq_true_2, (bool_decide_eq_false_2 (k = k')).
    + by rewrite (bool_decide_eq_false_2 (k0 = k')).
Qed.

Lemma map_get_of es k : map_get (map_of es) k = assoc_last es k.
Proof.
  unfold map_of, assoc_last. change (@None value) with (map_get [] k). generalize (@nil (string * value)).
  induction es as [|kv es IH]; intros m; [done|]. cbn [foldl]. rewrite IH. f_equal. apply map_get_set.
Qed.

Lemma assoc_last_app es1 es2 k : assoc_last (es1 ++ es2) k = match assoc_last es2 k with Some v => Some v | None => assoc_last es1 k end.
Proof.
  unfold assoc_last. rewrite foldl_app. generalize (foldl (λ acc kv, if bool_decide (kv.1 = k) then Some kv.2 else acc) None es1).
  intros o. revert o. induction es2 as [|kv es IH] using rev_ind; intros o; [done|]. rewrite !foldl_app. cbn [foldl].
  destruct (bool_decide (kv.1 = k)); [done|]. apply IH.
Qed.

Lemma keys_set fs k v k' : k' ∈ (map_set fs k v).*1 ↔ k' = k ∨ k' ∈ fs.*1.
Proof.
  induction fs as [|[k0 w] fs IH]; [by cbn; set_solver|]. cbn [map_set]. destruct (decide (k0 = k)) as [->|Hne].
  - rewrite bool_decide_eq_true_2 by done. cbn. set_solver.
  - rewrite bool_decide_eq_false_2 by done. destruct (String.leb k k0); cbn; [set_solver|]. rewrite !elem_of_cons, IH. naive_solver.
Qed.

Lemma keys_of es k : k ∈ (map_of es).*1 ↔ k ∈ es.*1.
Proof.
  unfold map_of. rewrite <- (or_False (k ∈ es.*1)). assert (False ↔ k ∈ ([] : list (string * value)).*1) as -> by (cbn; set_solver).
  generalize (@nil (string * value)). induction es as [|[k0 v] es IH]; intros m; cbn [foldl]; [cbn; set_solver|].
  rewrite IH, keys_set. cbn. set_solver.
Qed.

(** ** Maps are ordered *)
Lemma str_lt_trans : Transitive str_lt.
Proof.
  intros a b c [H1 N1] [H2 N2]. split; [by etrans|]. intros ->. apply N1. by apply (anti_symm String.le).
Qed.

Lemma map_set_sorted fs k v : StronglySorted str_lt fs.*1 → StronglySorted str_lt (map_set fs k v).*1.
Proof.
  induction fs as [|[k0 w] fs IH]; intros Hs; [by repeat constructor|]. pose proof Hs as [H0 H1]%StronglySorted_cons.
  cbn [map_set]. destruct (decide (k0 = k)) as [->|Hne]; [by rewrite bool_decide_eq_true_2|]. rewrite bool_decide_eq_false_2 by done.
  destruct (String.leb k k0) eqn:E.
  - cbn. apply StronglySorted_cons. split; [|done]. assert (str_lt k k0) as Hlt by (split; [unfold String.le; by rewrite E|done]).
    constructor; [done|]. eapply Forall_impl; [exact H0|]. intros x Hx. by eapply str_lt_trans.
  - cbn. apply StronglySorted_cons. split; [|auto]. apply Forall_forall. intros x [->|Hx]%keys_set.
    + split; [|done]. destruct (total String.le k0 k) as [|Hle]; [done|]. unfold String.le in Hle. by rewrite E in Hle.
    + by eapply Forall_forall.
Qed.

Lemma map_of_sorted es : StronglySorted str_lt (map_of es).*1.
Proof.
  unfold map_of. assert (StronglySorted str_lt ([] : list (string * value)).*1) as H by constructor. revert H.
  generalize (@nil (string * value)). induction es as [|kv es IH]; intros m Hm; [done|]. apply IH. by apply map_set_sorted.
Qed.

Lemma map_set_forall (P : string * value → Prop) fs k v : Forall P fs → P (k, v) → Forall P (map_set fs k v).
Proof.
  intros Hf Hp. induction Hf as [|[k0 w] fs H0 Hf IH]; [by repeat constructor|]. cbn [map_set].
  destruct (decide (k0 = k)) as [->|]; [rewrite bool_decide_eq_true_2 by done; by constructor|]. rewrite bool_decide_eq_false_2 by done.
  destruct (String.leb k k0); repeat constructor; done.
Qed.

Lemma map_of_forall (P : string * value → Prop) es : Forall P es → Forall P (map_of es).
Proof.
  unfold map_of. intros Hes. assert (Forall P []) as H by constructor. revert H. generalize (@nil (string * value)).
  induction Hes as [|[k v] es Hp Hes IH]; intros m Hm; [done|]. apply IH. by apply map_set_forall.
Qed.

(** ** A map is its lookups *)
Definition ordered (fs : list (string * value)) : Prop := StronglySorted str_lt fs.*1.

Lemma map_get_in fs k v : map_get fs k = Some v → (k, v) ∈ fs.
Proof.
  induction fs as [|[k0 w] fs IH]; [done|]. cbn [map_get]. case_bool_decide as E; [intros [= <-]; subst; by left|]. intros H. right. auto.
Qed.

Lemma map_get_ordered fs k v : ordered fs → (k, v) ∈ fs → map_get fs k = Some v.
Proof.
  unfold ordered. induction fs as [|[k0 w] fs IH]; intros Ho Hin; [by apply elem_of_nil in Hin|]. cbn in Ho. apply StronglySorted_cons in Ho as [H0 Ho].
  cbn [map_get]. apply elem_of_cons in Hin as [[= -> ->]|Hin]; [by rewrite bool_decide_eq_true_2|]. rewrite bool_decide_eq_false_2; [auto|].
  intros ->. rewrite Forall_forall in H0. destruct (H0 k) as [_ H]; [|done]. apply list_elem_of_fmap. by exists (k, v).
Qed.

Lemma map_get_None fs k : map_get fs k = None ↔ k ∉ fs.*1.
Proof.
  induction fs as [|[k0 w] fs IH]; [split; [intros _ H; by apply elem_of_nil in H|done]|]. cbn. rewrite not_elem_of_cons. case_bool_decide; [naive_solver|].
  rewrite IH. naive_solver.
Qed.

Lemma ordered_pairs fs : ordered fs → StronglySorted (λ x y : string * value, str_lt x.1 y.1) fs.
Proof.
  unfold ordered. induction fs as [|kv fs IH]; intros Ho; [constructor|]. cbn in Ho. apply StronglySorted_cons in Ho as [H0 Ho]. constructor; [auto|].
  rewrite Forall_forall in H0. apply Forall_forall. intros x Hx. apply H0. by apply list_elem_of_fmap_2.
Qed.

Lemma ordered_ext fs1 fs2 : ordered fs1 → ordered fs2 → (∀ k, map_get fs1 k = map_get fs2 k) → fs1 = fs2.
Proof.
  intros H1 H2 Hg. apply (StronglySorted_unique_strong (λ x y : string * value, str_lt x.1 y.1)).
  - intros x y _ _ [Hxy Hn] [Hyx _]. destruct Hn. by apply (anti_symm String.le).
  - by apply ordered_pairs.
  - by apply ordered_pairs.
  - assert (∀ fs, ordered fs → NoDup fs) as Hnd.
    { intros fs Ho. apply (NoDup_fmap_1 fst). unfold ordered in Ho. induction Ho as [|x l Hs IH Hx]; constructor; [|done].
      intros Hin. rewrite Forall_forall in Hx. by destruct (Hx x Hin). }
    apply NoDup_Permutation; [auto..|]. intros [k v].
    split; intros Hin; apply map_get_in; [rewrite <- Hg|rewrite Hg]; by apply map_get_ordered.
Qed.

Lemma ordered_filter (P : string * value → Prop) `{∀ x, Decision (P x)} fs : ordered fs → ordered (filter P fs).
Proof.
  unfold ordered. induction fs as [|kv fs IH]; intros Ho; [done|]. cbn in Ho. apply StronglySorted_cons in Ho as [H0 Ho]. rewrite filter_cons.
  destruct (decide (P kv)); [|auto]. cbn. apply StronglySorted_cons. split; [|auto]. rewrite Forall_forall in H0. apply Forall_forall. intros k Hk. apply H0.
  apply list_elem_of_fmap in Hk as (x & -> & Hx). apply list_elem_of_filter in Hx as [_ Hx]. by apply list_elem_of_fmap_2.
Qed.

Lemma map_get_filter (P : string * value → Prop) `{∀ x, Decision (P x)} fs k : ordered fs →
  map_get (filter P fs) k = match map_get fs k with Some v => if decide (P (k, v)) then Some v else None | None => None end.
Proof.
  intros Ho. destruct (map_get fs k) as [v|] eqn:E.
  - apply map_get_in in E. destruct (decide (P (k, v))) as [Hp|Hp].
    + apply map_get_ordered; [by apply ordered_filter|]. by apply list_elem_of_filter.
    + apply map_get_None. intros ([k' w] & -> & [Hw Hin]%list_elem_of_filter)%list_elem_of_fmap. cbn in *.
      assert (v = w) as ->; [|done]. apply (map_get_ordered _ _ _ Ho) in E, Hin. congruence.
  - apply map_get_None in E. apply map_get_None. intros ([k' w] & -> & [Hw Hin]%list_elem_of_filter)%list_elem_of_fmap. apply E.
    by apply (list_elem_of_fmap_2 fst) in Hin.
Qed.
