(* ===== verification/JsonRoundtrip.v ===== *)
(** * JsonRoundtrip: reading back what the canonical writer wrote.

    The scanner and the decoder are followed over the text of a value; both end at the same place, and the decoder returns the
    value itself. *)
From S2P Require Import Prelude GoLib Sha256 Json Loads Utf8 JsonText.
Local Open Scope Z_scope.

(** What may follow a value inside a document. *)
Definition delim (rest : list Z) : Prop :=
  match rest with [] => True | c :: _ => c = 44 ∨ c = 93 ∨ c = 125 end.

(** ** Shape of the texts *)

(** The first character of a value's text: no white space, and neither a comma nor a closing bracket. *)
Definition opener (c : Z) : Prop := plain_char c ∧ isWS c = false ∧ c ≠ 44 ∧ c ≠ 93 ∧ c ≠ 125.

Lemma isWS_false c : 32 < c → isWS c = false.
Proof. intros. unfold isWS. rewrite !orb_false_iff, !Z.eqb_neq. lia. Qed.

Lemma opener_intro c : 32 < c ≤ 0x7f → c ≠ 44 → c ≠ 93 → c ≠ 125 → opener c.
Proof. intros. unfold opener, plain_char. split_and!; try lia. apply isWS_false. lia. Qed.

Lemma text_opener v : json_ok v → ∃ c t, text_of v = c :: t ∧ opener c.
Proof.
  destruct v as [| b | z | t | t | s | l | fs]; intros Hok; inversion Hok; subst; cbn [text_of]; unfold string_text.
  1: by eexists _, _; split; [vm_compute; reflexivity|apply opener_intro].
  1: by destruct b; eexists _, _; (split; [vm_compute; reflexivity|apply opener_intro]).
  - destruct (itoa_text z) as (sign & d & ds & -> & Hs & Hd & _).
    destruct Hs as [->| ->]; cbn [app]; do 2 eexists; (split; [done|]); apply opener_intro; lia.
  - do 2 eexists; split; [done|]. by apply opener_intro.
  - do 2 eexists; split; [done|]. by apply opener_intro.
  - do 2 eexists; split; [done|]. by apply opener_intro.
Qed.

Lemma ws_opener c t : isWS c = false → ws (c :: t) = c :: t.
Proof. intros H. cbn. by rewrite H. Qed.

Lemma ws_delim rest : delim rest → ws rest = rest.
Proof. destruct rest as [|c t]; [done|]. intros [->|[->| ->]]; done. Qed.

(** ** Numbers *)
Definition nondigit (rest : list Z) : Prop := match rest with [] => True | c :: _ => is_digit c = false end.

Lemma is_digit_digit d : digit d → is_digit d = true.
Proof. intros. by apply in_range_spec. Qed.

Lemma digits_app ds rest : Forall digit ds → nondigit rest → digits (ds ++ rest) = (ds, rest).
Proof.
  induction 1 as [|d ds Hd _ IH]; intros Hr.
  - destruct rest as [|c t]; [done|]. cbn in *. by rewrite Hr.
  - cbn. by rewrite is_digit_digit, IH.
Qed.

(** What ends the text of an integer. *)
Definition stops (rest : list Z) : Prop := match rest with [] => True | c :: _ => is_digit c = false ∧ c ≠ 46 ∧ c ≠ 101 ∧ c ≠ 69 end.

Lemma delim_stops rest : delim rest → stops rest.
Proof. destruct rest as [|c t]; [done|]. intros [->|[->| ->]]; done. Qed.

Lemma stops_nondigit rest : stops rest → nondigit rest.
Proof. destruct rest as [|c t]; [done|]. by intros []. Qed.

Lemma decimal_from n ds : foldl (λ n d, n * 10 + (d - 48)) n ds = n * 10 ^ Z.of_nat (length ds) + decimal ds.
Proof.
  unfold decimal. revert n. induction ds as [|d ds IH]; intros n; [simpl; lia|]. cbn [foldl length].
  rewrite IH, (IH (0 * 10 + (d - 48))). rewrite Nat2Z.inj_succ, Z.pow_succ_r by lia. lia.
Qed.

Lemma decimal_nonneg ds : Forall digit ds → 0 ≤ decimal ds.
Proof.
  intros Hds. cut (∀ n, 0 ≤ n → 0 ≤ foldl (λ n d, n * 10 + (d - 48)) n ds); [unfold decimal; intros H; apply H; lia|].
  induction Hds as [|d ds Hd _ IH]; intros n Hn; [done|]. cbn. apply IH. unfold digit in Hd. lia.
Qed.

(** An integer that fits has few digits. *)
Lemma int64_digits d ds : 49 ≤ d ≤ 57 → Forall digit ds → decimal (d :: ds) ≤ 2 ^ 63 → (length (d :: ds) ≤ 19)%nat.
Proof.
  intros Hd Hds Hle. unfold decimal in Hle. cbn [foldl] in Hle. rewrite decimal_from in Hle.
  pose proof (decimal_nonneg ds Hds). cbn [length]. destruct (decide (length ds ≤ 18)%nat) as [|Hlt]; [lia|].
  assert (10 ^ 19 ≤ 10 ^ Z.of_nat (length ds)) by (apply Z.pow_le_mono_r; lia). assert (2 ^ 63 < 10 ^ 19) by done. nia.
Qed.

(** The parts of an integer's text. *)
Section int_text.
Context (sign : list Z) (d : Z) (ds rest : list Z).
Hypothesis Hsign : sign = [] ∨ sign = [45].
Hypothesis Hlead : d = 48 ∧ ds = [] ∨ 49 ≤ d ≤ 57.
Hypothesis Hds : Forall digit ds.
Hypothesis Hrest : stops rest.

Lemma split_sign_int : split_sign ((sign ++ d :: ds) ++ rest) = (sign, d :: ds ++ rest).
Proof.
  destruct Hsign as [->| ->]; [|done]. unfold split_sign. cbn [app].
  destruct d as [|p|p]; [done| |done]. do 6 (destruct p; try done; try lia).
Qed.

Lemma int_part_int : int_part (d :: ds ++ rest) = Some (d :: ds, rest).
Proof.
  destruct Hlead as [[-> ->]|Hd]; [done|]. assert (in_range 49 57 d = true) as Hi by (by apply in_range_spec).
  assert (digits (d :: ds ++ rest) = (d :: ds, rest)) as Hdig.
  { rewrite app_comm_cons. apply digits_app; [|by apply stops_nondigit]. constructor; [unfold digit; lia|done]. }
  unfold int_part. rewrite Hdig, Hi. destruct d as [|p|p]; [done| |done]. do 6 (destruct p; try done; try lia).
Qed.

Lemma no_frac_exp : scan_frac rest = ([], rest) ∧ scan_exp rest = ([], rest) ∧ load_frac rest = Some ([], rest) ∧ load_exp rest = Some ([], rest).
Proof.
  clear -Hrest. destruct rest as [|c t]; [done|]. destruct Hrest as (_ & H1 & H2 & H3). unfold scan_frac, scan_exp, load_frac, load_exp, is_exp.
  rewrite ?(proj2 (Z.eqb_neq _ _) H2), ?(proj2 (Z.eqb_neq _ _) H3). cbn [orb]. split_and!; try done; destruct c as [|q|q]; try done; do 7 (destruct q; try done).
Qed.

Lemma scan_int : scan_number ((sign ++ d :: ds) ++ rest) = Some (sign ++ d :: ds, rest).
Proof.
  unfold scan_number. rewrite split_sign_int, int_part_int. destruct no_frac_exp as (-> & -> & _). by rewrite !app_nil_r.
Qed.

Lemma load_int : load_number ((sign ++ d :: ds) ++ rest) = Ok (number_value (sign ++ d :: ds) true, rest).
Proof.
  unfold load_number. rewrite split_sign_int, int_part_int. destruct no_frac_exp as (_ & _ & -> & ->). by rewrite !app_nil_r.
Qed.

Lemma int_no_point : has_point (sign ++ d :: ds) = false.
Proof.
  assert (Forall (λ c, (c =? 46) || (c =? 101) || (c =? 69) = false) (sign ++ d :: ds)) as H.
  { apply Forall_app. split; [destruct Hsign as [->| ->]; by repeat constructor|]. constructor.
    - rewrite !orb_false_iff, !Z.eqb_neq. lia.
    - eapply Forall_impl; [exact Hds|]. unfold digit. intros c Hc. rewrite !orb_false_iff, !Z.eqb_neq. lia. }
  unfold has_point. induction H as [|c l Hc _ IH]; [done|]. cbn [existsb]. by rewrite Hc, IH.
Qed.
End int_text.

(** The text of an int64 is read as that integer, by both readers. *)
Lemma scan_scalar_int z rest : min_int64 ≤ z ≤ max_int64 → delim rest → scan_scalar (text_of (VInt z) ++ rest) = Ok rest.
Proof.
  intros Hz Hr%delim_stops. cbn [text_of]. destruct (itoa_text z) as (sign & d & ds & -> & Hs & Hd & Hds & Hv).
  unfold scan_scalar. rewrite (scan_int sign d ds rest), int_no_point by done. cbn [negb andb].
  assert (∀ w, match w with c :: _ => is_digit c = false ∧ c ≠ 45 | [] => False end → strip_prefix w ((sign ++ d :: ds) ++ rest) = None) as Hw.
  { intros [|c w]; [done|]. intros [Hc Hc']. assert (c ≠ d) as Hne by (intros ->; apply in_range_false in Hc; lia).
    destruct Hs as [->| ->]; cbn [app strip_prefix]; by rewrite (proj2 (Z.eqb_neq _ _)). }
  rewrite !Hw by done. assert (strip_prefix w_minus_infinity ((sign ++ d :: ds) ++ rest) = None) as ->.
  { change w_minus_infinity with (45 :: 73 :: bytes_of_string "nfinity").
    destruct Hs as [->| ->]; cbn [app strip_prefix]; [|rewrite Z.eqb_refl]; by rewrite (proj2 (Z.eqb_neq _ _)) by lia. }
  assert (length (unsigned (sign ++ d :: ds)) ≤ 19)%nat as Hlen.
  { assert (unsigned (sign ++ d :: ds) = d :: ds) as ->.
    { destruct Hs as [->| ->]; [|done]. unfold unsigned. cbn [app]. destruct d as [|p|p]; [done| |done]. do 6 (destruct p; try done; try lia). }
    destruct Hd as [[-> ->]|Hd]; [simpl; lia|]. apply int64_digits; [done..|]. unfold min_int64, max_int64 in Hz. destruct Hs as [->| ->]; lia. }
  destruct (Nat.ltb_spec 4300 (length (unsigned (sign ++ d :: ds)))); [lia|done].
Qed.

Lemma parse_int64_text sign d ds z : (sign = [] ∨ sign = [45]) → (d = 48 ∧ ds = [] ∨ 49 ≤ d ≤ 57) →
  z = (match sign with [] => decimal (d :: ds) | _ => - decimal (d :: ds) end) → min_int64 ≤ z ≤ max_int64 →
  parse_int64 (sign ++ d :: ds) = Some z.
Proof.
  intros Hs Hd Hz Hr. unfold parse_int64.
  assert ((match sign ++ d :: ds with 45 :: ds0 => - decimal ds0 | _ => decimal (sign ++ d :: ds) end) = z) as ->.
  { destruct Hs as [->| ->]; [|done]. cbn [app]. destruct d as [|p|p]; [done| |done]. do 6 (destruct p; try done; try lia). }
  by rewrite (proj2 (in_range_spec _ _ _) Hr).
Qed.

Lemma load_scalar_int z rest : min_int64 ≤ z ≤ max_int64 → delim rest → load_scalar (text_of (VInt z) ++ rest) = Ok (VInt z, rest).
Proof.
  intros Hz Hr%delim_stops. cbn [text_of]. destruct (itoa_text z) as (sign & d & ds & -> & Hs & Hd & Hds & Hv).
  assert (load_scalar ((sign ++ d :: ds) ++ rest) = load_number ((sign ++ d :: ds) ++ rest)) as ->.
  { destruct Hs as [->| ->]; cbn [app]; unfold load_scalar; cbn;
      (destruct d as [|p|p]; [done| |lia]); do 7 (destruct p; try done; try lia). }
  rewrite load_int by done. unfold number_value. by rewrite (parse_int64_text sign d ds z).
Qed.

(** ** Strings *)
(** Decide the tests both readers make on a backslash. *)
Ltac backslash := change (92 =? 34) with false; change (92 <? 0x20) with false; change (92 =? 92) with true; cbn iota.

Lemma scan_spelled begin r t : scalar r → t ≠ [] → scan_str begin (spelled r ++ t) = scan_str begin t.
Proof.
  intros Hr Ht. unfold spelled.
  destruct (Z.eqb_spec r 34) as [->|H1]; [done|]. destruct (Z.eqb_spec r 92) as [->|H2]; [done|]. cbn [orb].
  do 5 (case_match; [done|]). destruct (Z.ltb_spec r 0x20) as [Hlt|Hge].
  - destruct (u_escape_shape r) as (a & b & c & d & -> & _ & Hhex & _); [unfold scalar in Hr; lia|].
    destruct t as [|x t]; [done|]. cbn [app scan_str]. backslash. change (117 =? 117) with true. cbn iota.
    by rewrite Hhex.
  - cbn [app scan_str]. destruct (Z.eqb_spec r 34); [done|]. destruct (Z.ltb_spec r 0x20); [lia|]. by destruct (Z.eqb_spec r 92).
Qed.

Lemma scan_string_text begin rs rest : Forall scalar rs → scan_str begin ((rs ≫= spelled) ++ 34 :: rest) = Ok rest.
Proof.
  induction 1 as [|r rs Hr _ IH]; [done|]. rewrite bind_cons, <- (assoc_L (++)), scan_spelled; [done..|]. by destruct (rs ≫= spelled).
Qed.

Lemma load_spelled fuel r t : scalar r → load_str (S fuel) (encode_runes (spelled r) ++ t) =
  match load_str fuel t with Ok (bs, rest) => Ok (encode_rune r ++ bs, rest) | Err e => Err e end.
Proof.
  intros Hr. unfold spelled.
  destruct (Z.eqb_spec r 34) as [->|H1]; [done|]. destruct (Z.eqb_spec r 92) as [->|H2]; [done|]. cbn [orb].
  do 5 (case_match; [match goal with H : (_ =? _) = true |- _ => apply Z.eqb_eq in H as -> end; done|]).
  destruct (Z.ltb_spec r 0x20) as [Hlt|Hge].
  - destruct (u_escape_shape r) as (a & b & c & d & E & Hp & _ & Hhex); [unfold scalar in Hr; lia|]. rewrite encode_runes_ascii by done.
    specialize (Hhex t). rewrite E in *. cbn [app load_str]. cbn [app] in Hhex.
    backslash.
    unfold escape. change (simple_escape 117) with (@None Z). rewrite Hhex.
    assert (IsSurrogate r = false) as -> by (apply in_range_false; unfold scalar in Hr; lia). done.
  - unfold encode_runes. cbn [mbind list_bind]. rewrite app_nil_r.
    destruct (encode_rune r ++ t) as [|x u] eqn:E; [by apply encode_rune_app_nonnil in E|]. cbn [load_str].
    destruct (decide (r < 0x80)) as [Hr1|Hr1].
    + rewrite (encode1 r) in E |- * by lia. cbn [app] in E. injection E as <- <-.
      destruct (Z.eqb_spec r 34); [done|]. destruct (Z.ltb_spec r 0x20); [lia|]. destruct (Z.eqb_spec r 92); [done|].
      by destruct (Z.ltb_spec r 0x80); [|lia].
    + assert (0x80 ≤ x) as Hx.
      { destruct (scalar_cases r Hr) as [Hc|[Hc|[[Hc Hs]|Hc]]]; [lia|rewrite encode2 in E by done|rewrite encode3 in E by done|rewrite encode4 in E by done];
          cbn [app] in E; injection E as <- _; by_div. }
      destruct (Z.eqb_spec x 34); [lia|]. destruct (Z.ltb_spec x 0x20); [lia|]. destruct (Z.eqb_spec x 92); [lia|].
      destruct (Z.ltb_spec x 0x80); [lia|]. rewrite <- E, decode_encode by done.
      assert ((r =? rune_error) && (length (encode_rune r) =? 1)%nat = false) as ->.
      { destruct (Z.eqb_spec r rune_error) as [->|]; done. }
      by rewrite take_app_length, drop_app_length.
Qed.

Lemma load_string_text fuel rs rest : Forall scalar rs → (length rs < fuel)%nat →
  load_str fuel (encode_runes (rs ≫= spelled) ++ 34 :: rest) = Ok (encode_runes rs, rest).
Proof.
  intros Hrs. revert fuel. induction Hrs as [|r rs Hr Hrs IH]; intros fuel Hf; (destruct fuel as [|fuel]; [simpl in *; lia|]); [done|].
  rewrite bind_cons, encode_runes_app, <- (assoc_L (++)), load_spelled, IH by (done || simpl in *; lia). done.
Qed.

(** ** The scanner *)
Definition comma_tail (ts : list (list Z)) : list Z := concat ((λ q, 44 :: q) <$> ts).

Lemma delim_list ts rest : delim (comma_tail ts ++ 93 :: rest).
Proof. destruct ts as [|t ts]; cbn; auto. Qed.

Lemma delim_map ts rest : delim (comma_tail ts ++ 125 :: rest).
Proof. destruct ts as [|t ts]; cbn; auto. Qed.

#[export] Hint Resolve delim_list delim_map : relay.

(** Reduce a [match] on the first character of [c :: t] when [c] is known not to be the one it asks for. *)
Ltac other_head c := let p := fresh in destruct c as [|p|p]; [done| |done]; do 7 (destruct p; try done).

Definition scans (v : value) : Prop := ∀ fuel rest,
  (length (text_of v) ≤ fuel)%nat → delim rest → scan_value fuel (text_of v ++ rest) = Ok rest.

Lemma scan_items_text l x fuel rest : json_ok x → scans x → Forall json_ok l → Forall scans l →
  (length (text_of x ++ comma_tail (text_of <$> l)) < fuel)%nat →
  scan_items fuel (text_of x ++ comma_tail (text_of <$> l) ++ 93 :: rest) = Ok rest.
Proof.
  intros Hx Sx Hl. revert x fuel Hx Sx. induction Hl as [|y l Hy Hl IH]; intros x fuel Hx Sx Hs Hf;
    (destruct fuel as [|fuel]; [lia|]); rewrite length_app in Hf; cbn [scan_items].
  - rewrite Sx by (lia || apply (delim_list [])). done.
  - apply Forall_cons in Hs as [Sy Sl]. rewrite Sx by (lia || apply delim_list).
    destruct (text_opener y Hy) as (c & t & Ey & Hc). unfold comma_tail. rewrite !fmap_cons. cbn [concat]. rewrite Ey.
    cbn [app]. rewrite (ws_opener 44) by done. cbn iota. rewrite ws_opener by apply Hc.
    pose proof (IH y fuel Hy Sy Sl) as IHy. rewrite Ey in IHy. unfold comma_tail in *. rewrite <- (assoc_L (++)).
    rewrite fmap_cons in Hf. cbn [fmap list_fmap concat length app] in Hf. rewrite Ey in Hf. cbn [app length] in *.
    rewrite <- IHy by (rewrite !length_app in *; lia).
    destruct Hc as (_ & _ & _ & Hne & _). other_head c.
Qed.

Lemma entry_opener kv : ∃ t, entry_text kv = 34 :: t.
Proof. eexists. unfold entry_text, string_text. done. Qed.

Lemma scan_fields_text fs kv fuel rest :
  utf8 (bytes_of_string (fst kv)) → json_ok (snd kv) → scans (snd kv) →
  Forall (λ kv, utf8 (bytes_of_string (fst kv)) ∧ json_ok (snd kv)) fs → Forall (λ kv, scans (snd kv)) fs →
  (length (entry_text kv ++ comma_tail (entry_text <$> fs)) < fuel)%nat →
  scan_fields fuel (entry_text kv ++ comma_tail (entry_text <$> fs) ++ 125 :: rest) = Ok rest.
Proof.
  intros Hk Hx Sx Hl. revert kv fuel Hk Hx Sx. induction Hl as [|kv' fs [Hk' Hx'] Hl IH]; intros kv fuel Hk Hx Sx Hs Hf;
    (destruct fuel as [|fuel]; [lia|]); destruct (text_opener _ Hx) as (c & t & Ev & Hc); destruct (utf8_runes _ Hk) as [Hr _];
    unfold entry_text at 1; unfold string_text; cbn [app scan_fields]; rewrite <- !(assoc_L (++)); cbn [app];
    rewrite scan_string_text by done; rewrite (ws_opener 58) by done; cbn iota;
    rewrite length_app in Hf; unfold entry_text at 1 in Hf; rewrite length_app in Hf; cbn [length] in Hf;
    rewrite Ev; cbn [app]; rewrite ws_opener by apply Hc; rewrite (app_comm_cons t), <- Ev.
  - rewrite Sx by (lia || apply (delim_map [])). done.
  - apply Forall_cons in Hs as [Sy Sl]. rewrite Sx by (lia || apply delim_map).
    pose proof (IH kv' fuel Hk' Hx' Sy Sl) as IHy. unfold comma_tail in *. rewrite fmap_cons in *. cbn [fmap list_fmap concat app] in *.
    rewrite (ws_opener 44) by done. cbn iota. destruct (entry_opener kv') as [u Eu]. rewrite Eu in *. cbn [app length] in *.
    rewrite ws_opener by done. cbn iota. rewrite <- (assoc_L (++)). apply IHy. rewrite !length_app in *. lia.
Qed.

Lemma scan_value_text v : json_ok v → scans v.
Proof.
  induction v as [| b | z | t | t | s | l IH | fs IH] using value_ind'; intros Hok fuel rest Hf Hr; inversion Hok; subst;
    (destruct fuel as [|fuel]; [by destruct (text_opener _ Hok) as (? & ? & E & _); rewrite E in Hf; simpl in Hf; lia|]).
  - done.
  - by destruct b.
  - rewrite <- (scan_scalar_int z rest) by done. cbn [text_of]. destruct (itoa_text z) as (sign & d & ds & -> & Hs & Hd & _).
    destruct Hs as [->| ->]; [|done]. cbn [app scan_value].
    destruct (Z.eqb_spec d 34); [lia|]. destruct (Z.eqb_spec d 123); [lia|]. by destruct (Z.eqb_spec d 91); [lia|].
  - cbn [text_of]. unfold string_text. destruct (utf8_runes (bytes_of_string s)) as [Hs _]; [done|].
    cbn [app scan_value]. rewrite <- (assoc_L (++)). by apply scan_string_text.
  - cbn [text_of] in *. rewrite <- app_comm_cons, <- (assoc_L (++)). cbn [length] in Hf. rewrite length_app in Hf.
    destruct l as [|x l]; [done|]. apply Forall_cons in IH as [Sx Sl]. destruct (proj1 (Forall_cons _ _ _) H0) as [Hx Hl].
    rewrite fmap_cons in *. unfold joined in *. fold (comma_tail (text_of <$> l)) in *. rewrite <- (assoc_L (++)).
    pose proof (scan_items_text l x fuel rest Hx (Sx Hx) Hl) as Hi. destruct (text_opener x Hx) as (c & t & Ex & Hc).
    rewrite Ex in *. cbn [app] in *. cbn [scan_value]. change (91 =? 34) with false. change (91 =? 123) with false. change (91 =? 91) with true.
    cbn iota. rewrite ws_opener by apply Hc. rewrite <- Hi; [|by apply (Forall_mp json_ok)|cbn [length] in *; lia].
    destruct Hc as (_ & _ & _ & Hne & _). other_head c.
  - cbn [text_of] in *. fold entry_text in *. rewrite <- app_comm_cons, <- (assoc_L (++)). cbn [length] in Hf. rewrite length_app in Hf.
    destruct fs as [|kv fs]; [done|]. apply Forall_cons in IH as [Sx Sl]. destruct (proj1 (Forall_cons _ _ _) H0) as [[Hk Hx] Hl].
    rewrite fmap_cons in *. unfold joined in *.
    pose proof (scan_fields_text fs kv fuel rest Hk Hx (Sx Hx) Hl) as Hi. unfold comma_tail, entry_text in *.
    rewrite <- (assoc_L (++)). cbn [scan_value]. unfold string_text in *. cbn [app] in *.
    change (123 =? 34) with false. change (123 =? 123) with true. cbn iota. rewrite ws_opener by done. cbn iota.
    apply Hi; [|cbn [length] in *; lia]. rewrite Forall_forall in *. naive_solver.
Qed.

(** ** The decoder *)
Definition btext (v : value) : list Z := encode_runes (text_of v).
Definition bentry (kv : string * value) : list Z := encode_runes (entry_text kv).

Lemma btext_list l : btext (VList l) = 91 :: joined (btext <$> l) ++ [93].
Proof. unfold btext. cbn [text_of]. by rewrite encode_runes_cons, encode_runes_app, encode_joined, <- list_fmap_compose. Qed.

Lemma btext_map fs : btext (VMap fs) = 123 :: joined (bentry <$> fs) ++ [125].
Proof. unfold btext. cbn [text_of]. by rewrite encode_runes_cons, encode_runes_app, encode_joined, <- list_fmap_compose. Qed.

Lemma btext_opener v : json_ok v → ∃ c t, btext v = c :: t ∧ opener c.
Proof.
  intros (c & t & E & Hc)%text_opener. exists c, (encode_runes t). unfold btext. rewrite E, encode_runes_cons, encode1; [done|apply Hc].
Qed.

(** The string token after its opening mark. *)
Definition string_rest (s : string) : list Z := encode_runes (runes (bytes_of_string s) ≫= spelled) ++ [34].

Lemma string_text_bytes s : encode_runes (string_text (runes (bytes_of_string s))) = 34 :: string_rest s.
Proof. unfold string_text, string_rest. by rewrite encode_runes_cons, encode_runes_app. Qed.

Lemma load_string s rest : utf8 (bytes_of_string s) →
  ∃ b, load_str (length (string_rest s ++ rest)) (string_rest s ++ rest) = Ok (b, rest) ∧ string_of_bytes b = s.
Proof.
  intros Hu. destruct (utf8_runes _ Hu) as [Hr Hs]. exists (bytes_of_string s). split; [|apply string_of_bytes_of_string].
  unfold string_rest. rewrite <- (assoc_L (++)). cbn [app]. rewrite load_string_text; [by rewrite <- Hs|done|].
  rewrite length_app. cbn [length]. apply Nat.le_lt_trans with (length (runes (bytes_of_string s) ≫= spelled)).
  - clear. induction (runes (bytes_of_string s)) as [|r rs IH]; [done|]. rewrite bind_cons, length_app. cbn [length].
    assert (1 ≤ length (spelled r))%nat; [|lia]. unfold spelled, u_escape. repeat case_match; simpl; lia.
  - pose proof (length_encode_runes _ (spelled_scalar _ Hr)). lia.
Qed.

Lemma map_set_last fs k v : Forall (λ kv, str_lt (fst kv) k) fs → map_set fs k v = fs ++ [(k, v)] ∧ map_get fs k = None.
Proof.
  induction 1 as [|[k' w] fs [Hle Hne] _ [IH1 IH2]]; [done|]. cbn [fst] in *. cbn [map_set map_get].
  rewrite bool_decide_eq_false_2 by done. destruct (String.leb k k') eqn:E.
  - exfalso. apply Hne. apply (anti_symm String.le); [done|]. unfold String.le. by rewrite E.
  - by rewrite IH1, IH2.
Qed.

Definition loads (v : value) : Prop := ∀ fuel depth rest, (length (btext v) ≤ fuel)%nat → (depth + height v ≤ MaxDepth)%nat → delim rest →
  load_value fuel depth (btext v ++ rest) = Ok (v, rest).

Lemma load_items_text l x acc fuel depth rest : json_ok x → loads x → Forall json_ok l → Forall loads l →
  (length (btext x ++ comma_tail (btext <$> l)) < fuel)%nat → (∀ y, y ∈ x :: l → depth + height y ≤ MaxDepth)%nat →
  load_items fuel depth acc (btext x ++ comma_tail (btext <$> l) ++ 93 :: rest) = Ok (VList (acc ++ x :: l), rest).
Proof.
  intros Hx Lx Hl. revert x acc fuel Hx Lx. induction Hl as [|y l Hy Hl IH]; intros x acc fuel Hx Lx Hs Hf Hd;
    (destruct fuel as [|fuel]; [lia|]); rewrite length_app in Hf; cbn [load_items].
  - rewrite Lx by (lia || apply (delim_list []) || apply Hd; set_solver). done.
  - apply Forall_cons in Hs as [Ly Ll]. rewrite Lx by (lia || apply delim_list || apply Hd; set_solver).
    unfold comma_tail in *. rewrite !fmap_cons in *. cbn [concat app length] in *. rewrite (ws_opener 44) by done. cbn iota.
    rewrite <- (assoc_L (++)). rewrite IH; [by rewrite <- (assoc_L (++))|done..|lia|]. intros z Hz. apply Hd. set_solver.
Qed.

(** One entry of an object, and what the loop does after it. *)
Lemma load_entry k v b fuel depth tail :
  utf8 (bytes_of_string k) → loads v → (length (bentry (k, v)) ≤ fuel)%nat → (depth + height v ≤ MaxDepth)%nat → delim tail →
  load_fields (S fuel) depth b (bentry (k, v) ++ tail) =
  match tail with
  | 44 :: r => load_fields fuel depth (builder_add b k v) r
  | 125 :: r => match builder_done (builder_add b k v) with Ok v => Ok (v, r) | Err e => Err e end
  | _ => Err LSyntax
  end.
Proof.
  intros Hk Lv Hf Hd Ht. unfold bentry, entry_text in *. cbn [fst snd] in *.
  rewrite encode_runes_app, encode_runes_cons, string_text_bytes in *. change (encode_rune 58) with [58] in *. fold (btext v) in *.
  rewrite !length_app in Hf. cbn [length] in Hf. rewrite <- !(assoc_L (++)). cbn [app load_fields]. rewrite (ws_opener 34) by done. cbn iota.
  destruct (load_string k (58 :: btext v ++ tail) Hk) as (kb & -> & Ek). rewrite Ek, (ws_opener 58) by done. cbn iota.
  by rewrite Lv, ws_delim by (done || lia).
Qed.

Lemma sorted_before (l1 l2 : list (string * value)) k v :
  StronglySorted str_lt (l1 ++ (k, v) :: l2).*1 → Forall (λ kv, str_lt (fst kv) k) l1.
Proof.
  rewrite fmap_app, fmap_cons. intros (Hs & _ & _)%StronglySorted_app. rewrite Forall_forall. intros kv Hin.
  eapply Hs; [by apply list_elem_of_fmap_2|by left].
Qed.

Lemma load_fields_text fs kv b fuel depth rest :
  utf8 (bytes_of_string (fst kv)) → loads (snd kv) →
  Forall (λ kv, utf8 (bytes_of_string (fst kv))) fs → Forall (λ kv, loads (snd kv)) fs →
  b_repeated b = None → StronglySorted str_lt (b_fields b ++ kv :: fs).*1 →
  (length (bentry kv ++ comma_tail (bentry <$> fs)) < fuel)%nat → (∀ kv', kv' ∈ kv :: fs → depth + height (snd kv') ≤ MaxDepth)%nat →
  load_fields fuel depth b (bentry kv ++ comma_tail (bentry <$> fs) ++ 125 :: rest) = Ok (VMap (b_fields b ++ kv :: fs), rest).
Proof.
  intros Hk Lx Hl. revert kv b fuel Hk Lx. induction Hl as [|kv' fs Hk' Hl IH]; intros [k v] b fuel Hk Lx Hs Hb Hsort Hf Hd;
    (destruct fuel as [|fuel]; [lia|]); rewrite length_app in Hf;
    destruct (map_set_last (b_fields b) k v (sorted_before _ _ _ _ Hsort)) as [Eset Eget];
    (rewrite load_entry by (done || lia || (apply (Hd (k, v)); by left) || apply delim_map)).
  - cbn. unfold builder_done, builder_add. cbn [b_repeated b_fields]. by rewrite Hb, Eget, Eset.
  - apply Forall_cons in Hs as [Ly Ll]. unfold comma_tail in *. rewrite !fmap_cons in *. cbn [concat app length] in *.
    rewrite <- (assoc_L (++)). rewrite IH; unfold builder_add; cbn [b_fields b_repeated]; try done.
    + by rewrite Eset, <- (assoc_L (++)).
    + by rewrite Hb, Eget.
    + by rewrite Eset, <- (assoc_L (++)).
    + lia.
    + intros z Hz. apply Hd. by right.
Qed.

Lemma height_le l (v : value) : v ∈ l → (height v ≤ max_list (height <$> l))%nat.
Proof. intros H. apply max_list_elem_of_le. by apply list_elem_of_fmap_2. Qed.

Lemma load_value_text v : json_ok v → loads v.
Proof.
  induction v as [| b | z | t | t | s | l IH | fs IH] using value_ind'; intros Hok fuel depth rest Hf Hd Hr; inversion Hok; subst;
    (destruct fuel as [|fuel]; [by destruct (btext_opener _ Hok) as (? & ? & E & _); rewrite E in Hf; simpl in Hf; lia|]).
  - done.
  - by destruct b.
  - assert (btext (VInt z) = text_of (VInt z)) as -> by (apply encode_runes_ascii, itoa_plain).
    pose proof (load_scalar_int z rest H0 Hr) as Hl. destruct (text_opener _ Hok) as (c & t & E & Hc). rewrite E in *. cbn [app] in *.
    cbn [load_value]. rewrite ws_opener by apply Hc. destruct (itoa_text z) as (sign & d & ds & E' & Hs & Hd' & _). cbn [text_of] in E.
    rewrite E' in E. assert (c = 45 ∨ 48 ≤ c ≤ 57) as Hc' by (destruct Hs as [->| ->]; injection E as <- _; lia).
    destruct (Z.eqb_spec c 123); [lia|]. destruct (Z.eqb_spec c 91); [lia|]. by destruct (Z.eqb_spec c 34); [lia|].
  - unfold btext. cbn [text_of]. rewrite string_text_bytes. cbn [app load_value]. rewrite ws_opener by done.
    destruct (load_string s rest) as (b & E & <-); [done|]. cbn. by rewrite E.
  - rewrite btext_list in *. cbn [app load_value length] in *. rewrite ws_opener by done. cbn [height] in Hd.
    change (91 =? 123) with false. change (91 =? 91) with true. cbn iota. destruct (Nat.ltb_spec MaxDepth (S depth)); [lia|].
    destruct l as [|x l]; [done|]. destruct (proj1 (Forall_cons _ _ _) IH) as [Lx Ll]. destruct (proj1 (Forall_cons _ _ _) H0) as [Hx Hl].
    rewrite fmap_cons in *. unfold joined in *. fold (comma_tail (btext <$> l)) in *. rewrite <- !(assoc_L (++)) in *.
    pose proof (load_items_text l x [] fuel (S depth) rest Hx (Lx Hx) Hl) as Hi. destruct (btext_opener x Hx) as (c & t & Ex & Hc).
    rewrite Ex in *. cbn [app] in *. rewrite ws_opener by apply Hc. rewrite <- Hi;
      [|by apply (Forall_mp json_ok)|cbn [length] in *; rewrite !length_app in *; simpl in *; lia|].
    + destruct Hc as (_ & _ & _ & Hne & _). other_head c.
    + intros y Hy. pose proof (height_le _ _ Hy). lia.
  - rewrite btext_map in *. cbn [app load_value length] in *. rewrite ws_opener by done. cbn [height] in Hd.
    change (123 =? 123) with true. cbn iota. destruct (Nat.ltb_spec MaxDepth (S depth)); [lia|].
    destruct fs as [|kv fs]; [done|]. destruct (proj1 (Forall_cons _ _ _) IH) as [Lx Ll]. destruct (proj1 (Forall_cons _ _ _) H0) as [[Hk Hx] Hl].
    rewrite fmap_cons in *. unfold joined in *. fold (comma_tail (bentry <$> fs)) in *. rewrite <- !(assoc_L (++)) in *.
    pose proof (load_fields_text fs kv new_object fuel (S depth) rest Hk (Lx Hx)) as Hi. cbn [b_fields new_object app] in Hi. rewrite <- Hi; try done.
    + eapply Forall_impl; [exact Hl|]. by intros ? [].
    + rewrite Forall_forall in *. intros y Hy. apply Ll; [done|]. by apply Hl.
    + rewrite !length_app in *. simpl in *. lia.
    + intros y Hy. assert (height (snd y) ≤ max_list ((λ kv, height (snd kv)) <$> kv :: fs))%nat; [|rewrite fmap_cons in *; lia].
      apply max_list_elem_of_le. by apply (list_elem_of_fmap_2 (λ kv, height (snd kv))).
Qed.

(** ** The reader *)
Lemma Error_canonical v : json_ok v → Error (bytes_of_string (canonical v)) = None.
Proof.
  intros Hok. destruct (canonical_text v Hok) as [E Hs]. unfold Error. rewrite E, runes_encode_runes by done.
  destruct (text_opener v Hok) as (c & t & Et & Hc). fold (btext v). destruct (btext_opener v Hok) as (c' & t' & Eb & Hc'). rewrite Eb.
  cbn [strip_prefix]. rewrite (proj2 (Z.eqb_neq 0xef c')) by (unfold opener, plain_char in Hc'; lia).
  assert (ws (text_of v) = text_of v) as -> by (rewrite Et; apply ws_opener, Hc).
  pose proof (scan_value_text v Hok (S (2 * length (text_of v))) []) as Hscan. rewrite app_nil_r in Hscan. rewrite Hscan by (done || lia). done.
Qed.

Lemma load_canonical v : json_ok v → (height v ≤ MaxDepth)%nat →
  load_value (load_fuel (bytes_of_string (canonical v))) 0 (bytes_of_string (canonical v)) = Ok (v, []).
Proof.
  intros Hok Hh. destruct (canonical_text v Hok) as [-> _]. fold (btext v).
  pose proof (load_value_text v Hok (load_fuel (btext v)) 0%nat []) as Hl. rewrite app_nil_r in Hl.
  rewrite Hl; [done|unfold load_fuel; lia|lia|done].
Qed.

Lemma LoadsBytes_canonical v : json_ok v → (height v ≤ MaxDepth)%nat → LoadsBytes (bytes_of_string (canonical v)) = Ok v.
Proof. intros Hok Hh. unfold LoadsBytes. rewrite Error_canonical, load_canonical by done. done. Qed.

(** C23: the reader gives back what the canonical writer wrote: a value with int64 integers, UTF-8 strings and ordered keys, no deeper than
    the reader's limit, is read from its canonical text as that very value (so the text determines the value). *)
Theorem Loads_canonical v : json_ok v → (height v ≤ MaxDepth)%nat → Loads (canonical v) = Ok v.
Proof. apply LoadsBytes_canonical. Qed.

Lemma Loads_canonical_witness :
  let v := VMap [("a", VList [VInt (-9223372036854775808); VString (String "010" (String "195" (String "169" "")))]); ("b", VNull)]%string in
  Loads (canonical v) = Ok v.
Proof.
  apply Loads_canonical; [|unfold MaxDepth; apply Nat.leb_le; vm_compute; reflexivity].
  assert (∀ s rs, Forall scalar rs → bytes_of_string s = encode_runes rs → utf8 (bytes_of_string s)) as Hu by (intros s rs ? ->; by exists rs).
  repeat constructor; cbn [fst].
  - by apply (Hu _ [97]); [refine (bool_decide_unpack _ _); vm_compute; exact I|].
  - unfold min_int64. lia.
  - unfold max_int64. lia.
  - by apply (Hu _ [10; 233]); [refine (bool_decide_unpack _ _); vm_compute; exact I|].
  - by apply (Hu _ [98]); [refine (bool_decide_unpack _ _); vm_compute; exact I|].
  - done.
Defined.
