(* ===== verification/JsonLoaded.v ===== *)
(** * JsonLoaded: what the reader returns.

    Every string of a value the reader returns is UTF-8, whatever the bytes of the document: bytes that are not, and lone surrogate escapes,
    are read as U+FFFD. Its maps are ordered and its containers nest [MaxDepth] deep at most, so a value without fractions or integers past int64
    is one the canonical writer carries exactly ([loaded_json_ok]). *)
From S2P Require Import Prelude GoLib Sha256 Json Loads Utf8 JsonText.
Local Open Scope Z_scope.

#[local] Set Warnings "-register-all".

(** Every string inside the value is UTF-8, and every map is ordered. *)
Inductive loaded : value → Prop :=
| loaded_null : loaded VNull
| loaded_bool b : loaded (VBool b)
| loaded_int z : min_int64 ≤ z ≤ max_int64 → loaded (VInt z)
| loaded_number t : loaded (VNumber t)
| loaded_float t : loaded (VFloat t)
| loaded_string s : utf8 (bytes_of_string s) → loaded (VString s)
| loaded_list l : Forall loaded l → loaded (VList l)
| loaded_map fs : Forall (λ kv, utf8 (bytes_of_string (fst kv)) ∧ loaded (snd kv)) fs → ordered fs → loaded (VMap fs).

(** ** What is left of the document is bytes *)
Local Notation "'bytes' s" := (Forall is_byte s) (at level 10, s at level 9).

Lemma bytes_ws s : bytes s → bytes (ws s).
Proof. induction 1 as [|b s Hb Hs IH]; cbn; [constructor|]. destruct (isWS b); [done|by constructor]. Qed.

Lemma bytes_tail b s : bytes (b :: s) → bytes s.
Proof. by intros [_ H]%Forall_cons. Qed.

Lemma bytes_digits s ds r : bytes s → digits s = (ds, r) → bytes r.
Proof.
  intros Hs. revert ds. induction Hs as [|b s Hb Hs IH]; cbn; intros ds E; [by injection E as <- <-|].
  destruct (is_digit b).
  - destruct (digits s) as [ds' r']. injection E as <- <-. eauto.
  - injection E as <- <-. by constructor.
Qed.

Lemma bytes_strip p s r : bytes s → strip_prefix p s = Some r → bytes r.
Proof.
  revert s. induction p as [|a p IH]; intros s Hs E; [by injection E as <-|]. destruct s as [|b s]; [done|]. cbn in E.
  destruct (a =? b); [|done]. eapply IH; [|done]. by eapply bytes_tail.
Qed.

Lemma bytes_sign s sg r : bytes s → split_sign s = (sg, r) → bytes r.
Proof.
  unfold split_sign. intros Hs. destruct s as [|b s]; [by intros [= <- <-]|].
  destruct (decide (b = 45)) as [->|]; [intros [= <- <-]; by eapply bytes_tail|]. intros E.
  assert (([] : list Z, b :: s) = (sg, r)) as [= <- <-]; [|done]. rewrite <- E. destruct b as [|p|p]; [done| |done]. do 6 (destruct p; try done).
Qed.

Lemma bytes_exp_sign s sg r : bytes s → exp_sign s = (sg, r) → bytes r.
Proof.
  unfold exp_sign. intros Hs. destruct s as [|b s]; [by intros [= <- <-]|].
  destruct ((b =? 43) || (b =? 45)); intros [= <- <-]; [by eapply bytes_tail|done].
Qed.

Lemma bytes_int_part s ip r : bytes s → int_part s = Some (ip, r) → bytes r.
Proof.
  unfold int_part. intros Hs E. destruct s as [|b s]; [done|].
  assert (Some ([48], s) = Some (ip, r) ∨ Some (digits (b :: s)) = Some (ip, r)) as [[= <- <-]|[= E']].
  - destruct b as [|p|p]; [by right| |by right]. do 6 (destruct p; try (by left); try (case_match; [by right|done])).
  - by eapply bytes_tail.
  - by eapply bytes_digits.
Qed.

Lemma bytes_load_frac s fr r : bytes s → load_frac s = Some (fr, r) → bytes r.
Proof.
  unfold load_frac. intros Hs E. destruct s as [|b s]; [by injection E as <- <-|].
  destruct (decide (b = 46)) as [->|].
  - destruct (digits s) as [[|d ds] r'] eqn:Ed; [done|]. injection E as <- <-. eapply bytes_digits; [|done]. by eapply bytes_tail.
  - assert (Some ([] : list Z, b :: s) = Some (fr, r)) as [= <- <-]; [|done]. rewrite <- E. destruct b as [|p|p]; [done| |done]. do 6 (destruct p; try done).
Qed.

Lemma bytes_load_exp s ex r : bytes s → load_exp s = Some (ex, r) → bytes r.
Proof.
  unfold load_exp. intros Hs E. destruct s as [|b s]; [by injection E as <- <-|]. destruct (is_exp b); [|by injection E as <- <-].
  destruct (exp_sign s) as [sg t] eqn:Es. destruct (digits t) as [[|d ds] r'] eqn:Ed; [done|]. injection E as <- <-.
  eapply bytes_digits; [|done]. eapply bytes_exp_sign; [|done]. by eapply bytes_tail.
Qed.

Lemma parse_int64_range tok n : parse_int64 tok = Some n → min_int64 ≤ n ≤ max_int64.
Proof.
  unfold parse_int64. generalize (match tok with 45 :: ds => - decimal ds | _ => decimal tok end). intros m.
  destruct (in_range min_int64 max_int64 m) eqn:E; [|done]. apply in_range_spec in E. by intros [= <-].
Qed.

Lemma load_number_loaded s v r : bytes s → load_number s = Ok (v, r) → loaded v ∧ bytes r.
Proof.
  unfold load_number. intros Hs E. destruct (split_sign s) as [sg s1] eqn:E1. apply bytes_sign in E1; [|done].
  destruct (int_part s1) as [[ip s2]|] eqn:E2; [|done]. apply bytes_int_part in E2; [|done].
  destruct (load_frac s2) as [[fr s3]|] eqn:E3; [|done]. apply bytes_load_frac in E3; [|done].
  destruct (load_exp s3) as [[ex s4]|] eqn:E4; [|done]. apply bytes_load_exp in E4; [|done]. injection E as <- <-. split; [|done].
  unfold number_value. case_match; [|constructor]. destruct (parse_int64 _) as [n|] eqn:En; constructor. by eapply parse_int64_range.
Qed.

Lemma load_scalar_loaded s v r : bytes s → load_scalar s = Ok (v, r) → loaded v ∧ bytes r.
Proof.
  unfold load_scalar. intros Hs E.
  destruct (strip_prefix w_null s) eqn:E1; [injection E as <- <-; split; [constructor|by eapply bytes_strip]|].
  destruct (strip_prefix w_true s) eqn:E2; [injection E as <- <-; split; [constructor|by eapply bytes_strip]|].
  destruct (strip_prefix w_false s) eqn:E3; [injection E as <- <-; split; [constructor|by eapply bytes_strip]|].
  match type of E with (if ?b then _ else _) = _ => destruct b; [|by eapply load_number_loaded] end. repeat case_match; done.
Qed.

(** ** Strings *)
Lemma hex_value_range c n : hex_value c = Some n → 0 ≤ n < 16.
Proof.
  unfold hex_value, is_digit. destruct (in_range 48 57 c) eqn:E1; [apply in_range_spec in E1; intros [= <-]; lia|].
  destruct (in_range 97 102 c) eqn:E2; [apply in_range_spec in E2; intros [= <-]; lia|].
  destruct (in_range 65 70 c) eqn:E3; [apply in_range_spec in E3; intros [= <-]; lia|done].
Qed.

Lemma hex4_bytes s u r : bytes s → hex4 s = Some (u, r) → 0 ≤ u ≤ 0xffff ∧ bytes r.
Proof.
  intros Hs E. unfold hex4 in E. destruct s as [|c0 [|c1 [|a [|b [|c [|d s]]]]]]; try (repeat case_match; done).
  assert (match hex_value a, hex_value b, hex_value c, hex_value d with
    | Some a, Some b, Some c, Some d => Some (((a * 16 + b) * 16 + c) * 16 + d, s) | _, _, _, _ => None end = Some (u, r)) as E'.
  { rewrite <- E. destruct (decide (c0 = 92)) as [->|Hc0]; [destruct (decide (c1 = 117)) as [->|Hc1]; [done|]|];
      exfalso; repeat case_match; simplify_eq. }
  clear E. destruct (hex_value a) as [va|] eqn:Ea; [|done]. destruct (hex_value b) as [vb|] eqn:Eb; [|done].
  destruct (hex_value c) as [vc|] eqn:Ec; [|done]. destruct (hex_value d) as [vd|] eqn:Ed; [|done].
  apply hex_value_range in Ea, Eb, Ec, Ed. injection E' as <- <-. split; [lia|]. by do 6 apply bytes_tail in Hs.
Qed.

Lemma scalar_error : scalar rune_error.
Proof. unfold scalar, rune_error. lia. Qed.

Lemma escape_utf8 s b r : bytes s → escape s = Some (b, r) → utf8 b ∧ bytes r.
Proof.
  intros Hs E. unfold escape in E. destruct s as [|c0 [|e t]]; [done..|].
  destruct (simple_escape e) as [x|] eqn:Ex.
  - injection E as <- <-. split; [|by do 2 apply bytes_tail in Hs]. apply utf8_ascii. apply Forall_singleton. unfold simple_escape in Ex.
    unfold plain_char. repeat case_match; simplify_eq; lia.
  - destruct (hex4 (c0 :: e :: t)) as [[u rest]|] eqn:Eh; [|done]. apply hex4_bytes in Eh as [Hu Hr]; [|done].
    destruct (IsSurrogate u) eqn:Eu.
    + destruct (hex4 rest) as [[lo rest']|] eqn:El; [|injection E as <- <-; eauto using utf8_encode_rune, scalar_error].
      apply hex4_bytes in El as [Hl Hr']; [|done].
      destruct (decode_pair u lo) as [x|] eqn:Ep; injection E as <- <-; [|eauto using utf8_encode_rune, scalar_error].
      split; [|done]. apply utf8_encode_rune. unfold decode_pair in Ep.
      destruct (in_range 0xd800 0xdbff u) eqn:R1; [|done]. destruct (in_range 0xdc00 0xdfff lo) eqn:R2; [|done].
      apply in_range_spec in R1, R2. injection Ep as <-. unfold scalar. lia.
    + injection E as <- <-. split; [|done]. apply utf8_encode_rune. unfold IsSurrogate in Eu. apply in_range_false in Eu. unfold scalar. lia.
Qed.

Lemma load_str_utf8 fuel s b r : bytes s → load_str fuel s = Ok (b, r) → utf8 b ∧ bytes r.
Proof.
  revert s b. induction fuel as [|fuel IH]; intros s b Hs E; [done|]. destruct s as [|c t]; [done|]. cbn [load_str] in E.
  destruct (c =? 34); [injection E as <- <-; split; [apply utf8_nil|by eapply bytes_tail]|]. destruct (c <? 0x20) eqn:Ec; [done|].
  match type of E with match ?X with _ => _ end = _ => destruct X as [[x rest]|] eqn:Ex; [|done] end.
  destruct (load_str fuel rest) as [[bs rest']|] eqn:El; [|done]. injection E as <- <-.
  assert (utf8 x ∧ bytes rest) as [Hx Hrest]; [|destruct (IH _ _ Hrest El); auto using utf8_app].
  pose proof Hs as [Hc Ht]%Forall_cons. destruct (c =? 92); [by apply (escape_utf8 (c :: t))|]. destruct (c <? 0x80) eqn:E8.
  - injection Ex as <- <-. split; [|done]. apply utf8_ascii, Forall_singleton. unfold plain_char. unfold is_byte in Hc. lia.
  - destruct (decode_rune (c :: t)) as [u size] eqn:Ed. destruct ((u =? rune_error) && (size =? 1)%nat) eqn:Ee.
    + injection Ex as <- <-. eauto using utf8_encode_rune, scalar_error.
    + apply encode_decode in Ed as (Hu & Etake & _); [|done|done|].
      * injection Ex as <- <-. rewrite Etake. split; [by apply utf8_encode_rune|]. by apply Forall_drop.
      * intros [-> ->]. vm_compute in Ee. discriminate.
Qed.

(** ** Values *)
Definition key_loaded (kv : string * value) : Prop := utf8 (bytes_of_string (fst kv)) ∧ loaded (snd kv).

(** A value read at [depth], and the rest of the document. *)
Definition loads_to (depth : nat) (r : result LoadError (value * list Z)) : Prop :=
  match r with Ok (v, rest) => loaded v ∧ (depth + height v ≤ MaxDepth)%nat ∧ Forall is_byte rest | Err _ => True end.

(** The containers of the fields or items read so far, in a container at [depth]. *)
Definition shallow (depth : nat) (v : value) : Prop := (depth + height v ≤ MaxDepth)%nat.

Lemma shallow_list depth l : (S depth ≤ MaxDepth)%nat → Forall (shallow (S depth)) l → (depth + height (VList l) ≤ MaxDepth)%nat.
Proof.
  unfold shallow. generalize MaxDepth. intros MaxDepth Hd Hl. assert (max_list (height <$> l) ≤ MaxDepth - S depth)%nat; [|cbn [height]; lia].
  induction Hl as [|v l Hv _ IH]; csimpl; lia.
Qed.

Lemma shallow_map depth fs : (S depth ≤ MaxDepth)%nat → Forall (λ kv, shallow (S depth) (snd kv)) fs → (depth + height (VMap fs) ≤ MaxDepth)%nat.
Proof.
  unfold shallow. generalize MaxDepth. intros MaxDepth Hd Hl. assert (max_list ((λ kv, height (snd kv)) <$> fs) ≤ MaxDepth - S depth)%nat; [|cbn [height]; lia].
  induction Hl as [|v l Hv _ IH]; csimpl; lia.
Qed.

Lemma string_of_utf8 b : utf8 b → utf8 (bytes_of_string (string_of_bytes b)).
Proof. intros Hu. rewrite bytes_of_string_of_bytes; [done|]. destruct Hu as (rs & Hrs & ->). by apply encode_runes_bytes. Qed.

Lemma scalar_height s v r : load_scalar s = Ok (v, r) → height v = 0%nat.
Proof. unfold load_scalar, load_number, number_value. intros H. repeat case_match; simplify_eq; done. Qed.

(** What holds of the fields read so far of an object whose members are at [depth]. *)
Definition fields_so_far (depth : nat) (fs : list (string * value)) : Prop :=
  Forall key_loaded fs ∧ ordered fs ∧ Forall (λ kv, shallow depth (snd kv)) fs.

Lemma fields_add depth fs k v : fields_so_far depth fs → utf8 (bytes_of_string k) → loaded v → shallow depth v → fields_so_far depth (map_set fs k v).
Proof. intros (H1 & H2 & H3) Hk Hv Hs. split_and!; [by apply map_set_forall|by apply map_set_sorted|by apply map_set_forall]. Qed.

Lemma load_loaded fuel :
  (∀ depth s, bytes s → (depth ≤ MaxDepth)%nat → loads_to depth (load_value fuel depth s)) ∧
  (∀ depth b s, bytes s → (S depth ≤ MaxDepth)%nat → fields_so_far (S depth) (b_fields b) → loads_to depth (load_fields fuel (S depth) b s)) ∧
  (∀ depth items s, bytes s → (S depth ≤ MaxDepth)%nat → Forall loaded items → Forall (shallow (S depth)) items → loads_to depth (load_items fuel (S depth) items s)).
Proof.
  induction fuel as [|fuel (IHv & IHf & IHi)]; [done|]. split_and!.
  - intros depth s Hs Hd. cbn [load_value]. apply bytes_ws in Hs. destruct (ws s) as [|c t] eqn:Ew; [done|].
    pose proof (bytes_tail _ _ Hs) as Ht. pose proof (bytes_ws _ Ht) as Hwt. destruct (c =? 123); [|destruct (c =? 91); [|destruct (c =? 34)]].
    + destruct (Nat.ltb_spec MaxDepth (S depth)); [done|].
      assert (loads_to depth (load_fields fuel (S depth) new_object t)) as Hf by (apply IHf; [done|lia|]; split_and!; constructor).
      repeat case_match; simplify_eq; try done. match goal with H : builder_done _ = _ |- _ => injection H as <- end.
      split_and!; [by repeat constructor|by apply shallow_map; [lia|constructor]|by eapply bytes_tail].
    + destruct (Nat.ltb_spec MaxDepth (S depth)); [done|].
      assert (loads_to depth (load_items fuel (S depth) [] t)) as Hf by (apply IHi; [done|lia|constructor..]).
      repeat case_match; simplify_eq; try done. split_and!; [by repeat constructor|by apply shallow_list; [lia|constructor]|by eapply bytes_tail].
    + destruct (load_str _ t) as [[b r]|] eqn:E; [|done]. apply load_str_utf8 in E as [Hu Hr]; [|done].
      split_and!; [constructor; by apply string_of_utf8|cbn [height]; lia|done].
    + destruct (load_scalar (c :: t)) as [[v r]|e] eqn:E; [|done]. pose proof (scalar_height _ _ _ E).
      apply load_scalar_loaded in E as [Hv Hr]; [|done]. split_and!; [done|lia|done].
  - intros depth b s Hs Hd Hb. cbn [load_fields]. apply bytes_ws in Hs. destruct (ws s) as [|c t] eqn:Ew; [done|].
    pose proof (bytes_tail _ _ Hs) as Ht. repeat case_match; simplify_eq; try done.
    all: match goal with H : load_str _ _ = _ |- _ => apply load_str_utf8 in H as [Hu Hr]; [|done] end.
    all: match goal with H : ws ?l = 58 :: ?l' |- _ => apply bytes_ws in Hr; rewrite H in Hr; apply bytes_tail in Hr end.
    all: match goal with H : load_value _ ?d ?l = _ |- _ => specialize (IHv d l Hr Hd) as Hv; rewrite H in Hv; destruct Hv as (Hv & Hh & Hr3) end.
    all: apply bytes_ws in Hr3; match goal with H : ws ?l = _ :: _, H' : Forall is_byte (ws ?l) |- _ => rewrite H in H'; apply bytes_tail in H' end.
    + unfold builder_done, builder_add in *. case_match; simplify_eq.
      match goal with |- loads_to _ (Ok (VMap (map_set _ (string_of_bytes ?k) ?v), _)) =>
        destruct (fields_add (S depth) _ _ v Hb (string_of_utf8 k Hu) Hv Hh) as (H1 & H2 & H3) end.
      split_and!; [by constructor|by apply shallow_map|done].
    + apply IHf; [done..|]. by apply fields_add; [|apply string_of_utf8|..].
  - intros depth items s Hs Hd Hi Hsh. cbn [load_items]. pose proof (IHv (S depth) s Hs Hd) as Hv. destruct (load_value fuel (S depth) s) as [[v r]|e]; [|done].
    destruct Hv as (Hv & Hh & Hr). apply bytes_ws in Hr. destruct (ws r) as [|c t] eqn:Ew; [done|]. apply bytes_tail in Hr.
    assert (Forall loaded (items ++ [v])) as Hi' by (apply Forall_app; split; [done|by repeat constructor]).
    assert (Forall (shallow (S depth)) (items ++ [v])) as Hs' by (apply Forall_app; split; [done|by apply Forall_singleton]).
    repeat case_match; simplify_eq; try done; [split_and!; [by constructor|by apply shallow_list|done]|by apply IHi].
Qed.

Lemma Loads_loaded_height doc v : Loads doc = Ok v → loaded v ∧ (height v ≤ MaxDepth)%nat.
Proof.
  unfold Loads, LoadsBytes. destruct (Error _); [done|].
  pose proof (proj1 (load_loaded (load_fuel (bytes_of_string doc))) 0%nat _ (bytes_of_string_bytes doc) (Nat.le_0_l _)) as Hl.
  destruct (load_value _ _ _) as [[w r]|e]; [|done]. destruct Hl as (Hl & Hh & _). destruct (ws r); [|done]. by intros [= <-].
Qed.

Lemma Loads_loaded doc v : Loads doc = Ok v → loaded v.
Proof. intros H. by apply Loads_loaded_height in H as [? _]. Qed.

Lemma loaded_get obj k v : loaded (VMap obj) → map_get obj k = Some v → loaded v.
Proof.
  inversion 1 as [| | | | | | |fs Hfs]; subst. intros Hin%map_get_in. rewrite Forall_forall in Hfs. by apply (Hfs (k, v)).
Qed.

(** ** Values the writer carries exactly *)

(** No fraction and no integer past int64 inside. *)
Inductive integral : value → Prop :=
| integral_null : integral VNull
| integral_bool b : integral (VBool b)
| integral_int z : integral (VInt z)
| integral_string s : integral (VString s)
| integral_list l : Forall integral l → integral (VList l)
| integral_map fs : Forall (λ kv, integral (snd kv)) fs → integral (VMap fs).

Lemma loaded_json_ok v : loaded v → integral v → json_ok v.
Proof.
  induction v as [| | | | | |l IH|fs IH] using value_ind'; intros Hl Hi; inversion Hl; inversion Hi; subst; constructor; try done.
  all: repeat match goal with H : Forall _ _ |- _ => rewrite Forall_forall in H end; apply Forall_forall; naive_solver.
Qed.
