(* ===== verification/GoFloat.v ===== *)
(** * GoFloat: the [float64] values the code compares, and [strconv.ParseFloat].

    A [float64] is a rational, an infinity or NaN: the code modelled here compares and truncates, which is exact. [parse_float] reads the numbers of JSON: the
    nearest [float64], ties to the even mantissa. *)
From Stdlib Require Import QArith.
From S2P Require Import Prelude GoLib Sha256 Json Loads.
Local Open Scope Z_scope.

(** ** Values *)

Inductive float64 : Type :=
| FNaN
| FInf (negative : bool)
| Fin (q : Q).

Definition fle (x y : float64) : bool :=
  match x, y with
  | FNaN, _ | _, FNaN => false
  | FInf true, _ | _, FInf false => true
  | FInf false, _ | _, FInf true => false
  | Fin p, Fin q => Qle_bool p q
  end.

Definition feq (x y : float64) : bool := fle x y && fle y x.
Definition f0 : float64 := Fin 0.
Definition f1 : float64 := Fin 1.

(** ** strconv.ParseFloat *)

(** [p] divided by [q], to the nearest integer, a tie to the even one. *)
Definition div_even (p q : Z) : Z :=
  let d := p / q in
  let r := p mod q in
  if 2 * r <? q then d else if q <? 2 * r then d + 1 else if Z.even d then d else d + 1.

Definition pow2 (e : Z) : Q := if e <? 0 then 1 # Z.to_pos (2 ^ (- e)) else inject_Z (2 ^ e).

(** The nearest binary64 of the positive rational [p / q]: 53 bits of mantissa, and no unit below [2 ^ -1074]. *)
Definition round64 (p q : Z) : float64 :=
  let k := Z.log2 p - Z.log2 q in
  let below := if k <? 0 then p * 2 ^ (- k) <? q else p <? q * 2 ^ k in
  let e := if below then k - 1 else k in
  let unit := Z.max (e - 52) (-1074) in
  let m := if unit <? 0 then div_even (p * 2 ^ (- unit)) q else div_even p (q * 2 ^ unit) in
  if (0 <? unit) && (2 ^ 1024 <=? m * 2 ^ unit) then FInf false else Fin (Qred (inject_Z m * pow2 unit)).

Definition negate (f : float64) : float64 :=
  match f with FNaN => FNaN | FInf b => FInf (negb b) | Fin q => Fin (- q) end.

(** The token of a JSON number as a rational: its digits without the point, and the power of ten they are scaled by. *)
Definition parse_float (text : string) : float64 :=
  let '(sign, s1) := split_sign (bytes_of_string text) in
  let '(ip, s2) := digits s1 in
  let '(fr, s3) := match s2 with 46 :: t => digits t | _ => ([], s2) end in
  let exponent := match s3 with
                  | _ :: t => let '(sg, t1) := exp_sign t in
                              let n := decimal (fst (digits t1)) in
                              match sg with [45] => - n | _ => n end
                  | [] => 0
                  end in
  let m := decimal (ip ++ fr) in
  let scale := exponent - Z.of_nat (length fr) in
  let f := if m =? 0 then Fin 0 else if scale <? 0 then round64 m (10 ^ (- scale)) else round64 (m * 10 ^ scale) 1 in
  match sign with [] => f | _ => negate f end.

(** [float64(n)] of an integer *)
Definition float_of_int (n : Z) : float64 :=
  if n =? 0 then Fin 0 else if n <? 0 then negate (round64 (- n) 1) else round64 n 1.

Example parse_float_examples :
  parse_float "0.1" = Fin (3602879701896397 # 36028797018963968) ∧ parse_float "9007199254740993" = Fin (9007199254740992 # 1) ∧
  parse_float "1e309" = FInf false ∧ parse_float "-1.7976931348623157e308" = Fin (- (2 ^ 1024 - 2 ^ 971) # 1) ∧ parse_float "5e-324" = Fin (1 # (2 ^ 1074)).
Proof. vm_compute. done. Qed.
