(* ===== verification/GoJson.v ===== *)
(** * GoJson: the plain reading of a JSON document, encoding/json with [UseNumber], which internal/pyjson also gives with [Map] and [SpelledNumbers] (loads.go).

    A number keeps its spelling ([VNumber], a [json.Number]); of a repeated key the last value counts; NaN and the infinities are refused; what is not UTF-8 becomes
    U+FFFD. [read_json] is [json.Decoder.Decode] on the text of a value, [envelope] is pyjson.Loads with [TrailingClose], as the merge turns read a ledger entry. *)
From S2P Require Import Prelude GoLib Sha256 Json Loads Utf8.
Local Open Scope Z_scope.
(** A number token, as its text. *)
Definition json_number (s : list Z) : option (value * list Z) :=
  let '(sign, s1) := split_sign s in
  match int_part s1 with
  | None => None
  | Some (ip, s2) =>
    match load_frac s2 with
    | None => None
    | Some (fr, s3) =>
      match load_exp s3 with
      | None => None
      | Some (ex, s4) => Some (VNumber (string_of_bytes (sign ++ ip ++ fr ++ ex)), s4)
      end
    end
  end.

Definition json_scalar (s : list Z) : option (value * list Z) :=
  match strip_prefix w_null s, strip_prefix w_true s, strip_prefix w_false s with
  | Some r, _, _ => Some (VNull, r)
  | None, Some r, _ => Some (VBool true, r)
  | None, None, Some r => Some (VBool false, r)
  | None, None, None => json_number s
  end.

(** A string after its opening quotation mark: encoding/json and the reader of internal/pyjson unquote alike. *)
Definition json_string (s : list Z) : option (string * list Z) :=
  match load_str (length s) s with Ok (b, r) => Some (string_of_bytes b, r) | Err _ => None end.

(** Containers nest ten thousand deep at most, as in encoding/json; [fuel] is twice the bytes left, and every call consumes one. *)
Fixpoint json_value (fuel depth : nat) (s : list Z) : option (value * list Z) :=
  match fuel with
  | O => None
  | S fuel' =>
    match ws s with
    | [] => None
    | c :: t =>
      if c =? 123 then
        if (MaxDepth <? S depth)%nat then None
        else match ws t with 125 :: r => Some (VMap [], r) | _ => json_fields fuel' (S depth) [] t end
      else if c =? 91 then
        if (MaxDepth <? S depth)%nat then None
        else match ws t with 93 :: r => Some (VList [], r) | _ => json_items fuel' (S depth) [] t end
      else if c =? 34 then match json_string t with Some (str, r) => Some (VString str, r) | None => None end
      else json_scalar (c :: t)
    end
  end

with json_fields (fuel depth : nat) (fields : list (string * value)) (s : list Z) : option (value * list Z) :=
  match fuel with
  | O => None
  | S fuel' =>
    match ws s with
    | 34 :: t =>
      match json_string t with
      | None => None
      | Some (key, r1) =>
        match ws r1 with
        | 58 :: r2 =>
          match json_value fuel' depth r2 with
          | None => None
          | Some (item, r3) =>
            match ws r3 with
            | 44 :: r4 => json_fields fuel' depth (map_set fields key item) r4
            | 125 :: r4 => Some (VMap (map_set fields key item), r4)
            | _ => None
            end
          end
        | _ => None
        end
      end
    | _ => None
    end
  end

with json_items (fuel depth : nat) (items : list value) (s : list Z) : option (value * list Z) :=
  match fuel with
  | O => None
  | S fuel' =>
    match json_value fuel' depth s with
    | None => None
    | Some (item, r) =>
      match ws r with
      | 44 :: r1 => json_items fuel' depth (items ++ [item]) r1
      | 93 :: r1 => Some (VList (items ++ [item]), r1)
      | _ => None
      end
    end
  end.

Definition read_json (doc : list Z) : option value := fst <$> json_value (load_fuel doc) 0 doc.

(** mergeturn/grant.go [decode]: [TrailingAnything], and an object or nothing. *)
Definition decode (raw : string) : option (list (string * value)) :=
  match read_json (bytes_of_string raw) with Some (VMap m) => Some m | _ => None end.

(** mergeturn/grant.go [envelope]: [TrailingClose]. *)
Definition envelope (raw : string) : option (list (string * value)) :=
  let doc := bytes_of_string raw in
  match json_value (load_fuel doc) 0 doc with
  | Some (VMap m, rest) => match ws rest with [] => Some m | c :: _ => if (c =? 93) || (c =? 125) then Some m else None end
  | _ => None
  end.

(** * The fuel of the plain JSON reader is enough. Every reader leaves at most what it was given, and [read_json] does not depend on the fuel once there is as much as [load_fuel] gives. *)
Local Open Scope Z_scope.
Local Open Scope nat_scope.
Lemma ws_short s : length (ws s) ≤ length s.
Proof. induction s as [|c s IH]; cbn [ws]; [done|]. destruct (isWS c); cbn [length]; lia. Qed.

Lemma strip_short p s r : strip_prefix p s = Some r → length r ≤ length s.
Proof. revert s. induction p as [|a p IH]; intros s E; [by injection E as <-|]. destruct s as [|b s]; [done|]. cbn in E. destruct (a =? b)%Z; [|done]. apply IH in E. cbn [length]. lia. Qed.

Lemma digits_short s ds r : digits s = (ds, r) → length r ≤ length s.
Proof.
  revert ds. induction s as [|c s IH]; intros ds; cbn [digits]; [by intros [= <- <-]|]. destruct (is_digit c); [|by intros [= <- <-]].
  destruct (digits s) as [ds' r']. intros [= <- <-]. pose proof (IH _ eq_refl). cbn [length]. lia.
Qed.

(** Case on every [match] of a reader and compare what is left. *)
Ltac short := repeat case_match; simplify_eq; cbn [length] in *; try lia.

Lemma split_sign_short s sg r : split_sign s = (sg, r) → length r ≤ length s.
Proof. unfold split_sign. intros E. short. Qed.

Lemma exp_sign_short s sg r : exp_sign s = (sg, r) → length r ≤ length s.
Proof. unfold exp_sign. intros E. short. Qed.

Lemma int_part_short s ip r : int_part s = Some (ip, r) → length r ≤ length s.
Proof.
  unfold int_part. intros E. destruct s as [|c s]; [done|]. destruct (digits (c :: s)) as [ds r'] eqn:Ed. apply digits_short in Ed. short.
Qed.

Lemma load_frac_short s fr r : load_frac s = Some (fr, r) → length r ≤ length s.
Proof.
  unfold load_frac. intros E. destruct s as [|c s]; [by injection E as <- <-|]. destruct (digits s) as [ds r'] eqn:Ed. apply digits_short in Ed. short.
Qed.

Lemma load_exp_short s ex r : load_exp s = Some (ex, r) → length r ≤ length s.
Proof.
  unfold load_exp. intros E. destruct s as [|c s]; [by injection E as <- <-|]. destruct (exp_sign s) as [sg t] eqn:Es. apply exp_sign_short in Es.
  destruct (digits t) as [ds r'] eqn:Ed. apply digits_short in Ed. short.
Qed.

Lemma json_scalar_short s v r : json_scalar s = Some (v, r) → length r ≤ length s.
Proof.
  unfold json_scalar. destruct (strip_prefix w_null s) eqn:E1; [intros [= <- <-]; by eapply strip_short|]. destruct (strip_prefix w_true s) eqn:E2; [intros [= <- <-]; by eapply strip_short|].
  destruct (strip_prefix w_false s) eqn:E3; [intros [= <- <-]; by eapply strip_short|]. unfold json_number. destruct (split_sign s) as [sg s1] eqn:F1. apply split_sign_short in F1.
  destruct (int_part s1) as [[ip s2]|] eqn:F2; [|done]. apply int_part_short in F2. destruct (load_frac s2) as [[fr s3]|] eqn:F3; [|done]. apply load_frac_short in F3.
  destruct (load_exp s3) as [[ex s4]|] eqn:F4; [|done]. apply load_exp_short in F4. intros [= <- <-]. lia.
Qed.

Lemma hex4_short s u r : hex4 s = Some (u, r) → length r ≤ length s.
Proof. unfold hex4. intros E. short. Qed.

Lemma escape_short s b r : escape s = Some (b, r) → length r ≤ length s.
Proof.
  unfold escape. destruct s as [|c [|e t]]; [done|done|]. destruct (simple_escape e); [intros [= <- <-]; cbn [length]; lia|]. destruct (hex4 (c :: e :: t)) as [[u rest]|] eqn:E; [|done]. apply hex4_short in E.
  destruct (IsSurrogate u); [|by intros [= <- <-]]. destruct (hex4 rest) as [[low rest']|] eqn:E'; [|by intros [= <- <-]]. apply hex4_short in E'. destruct (decode_pair u low); intros [= <- <-]; lia.
Qed.

Lemma load_str_short fuel s b r : load_str fuel s = Ok (b, r) → length r ≤ length s.
Proof.
  revert s b. induction fuel as [|fuel IH]; intros s b; cbn [load_str]; [done|]. destruct s as [|c t]; [done|]. destruct (c =? 34)%Z; [intros [= <- <-]; cbn [length]; lia|]. destruct (c <? 0x20)%Z; [done|].
  match goal with |- match ?x with _ => _ end = _ → _ => destruct x as [[b' rest]|] eqn:E end; [|done].
  assert (length rest ≤ length (c :: t)) as Hl.
  { destruct (c =? 92)%Z; [by eapply escape_short|]. destruct (c <? 0x80)%Z; [injection E as <- <-; cbn [length]; lia|]. destruct (decode_rune (c :: t)) as [r' n]. destruct (_ && _); injection E as <- <-; [cbn [length]; lia|].
    rewrite length_drop. lia. }
  destruct (load_str fuel rest) as [[bs rest']|] eqn:El; [|done]. intros [= <- <-]. apply IH in El. lia.
Qed.

Lemma json_string_short s str r : json_string s = Some (str, r) → length r ≤ length s.
Proof. unfold json_string. destruct (load_str (length s) s) as [[b r']|] eqn:E; [|done]. intros [= <- <-]. by eapply load_str_short. Qed.

Lemma json_value_short fuel :
  (∀ depth s v r, json_value fuel depth s = Some (v, r) → length r ≤ length s) ∧
  (∀ depth fs s v r, json_fields fuel depth fs s = Some (v, r) → length r ≤ length s) ∧
  (∀ depth l s v r, json_items fuel depth l s = Some (v, r) → length r ≤ length s).
Proof.
  induction fuel as [|fuel (IHv & IHf & IHi)]; [done|]. split_and!.
  - intros depth s v r. cbn [json_value]. pose proof (ws_short s) as Hw. destruct (ws s) as [|c t]; [done|]. pose proof (ws_short t) as Hw'. intros E. cbn [length] in *.
    destruct (c =? 123)%Z; [|destruct (c =? 91)%Z; [|destruct (c =? 34)%Z]].
    + destruct (MaxDepth <? S depth); [done|]. assert (json_fields fuel (S depth) [] t = Some (v, r) ∨ ws t = 125%Z :: r) as [H%IHf|H]; [short; auto|lia|]. rewrite H in Hw'. cbn [length] in Hw'. lia.
    + destruct (MaxDepth <? S depth); [done|]. assert (json_items fuel (S depth) [] t = Some (v, r) ∨ ws t = 93%Z :: r) as [H%IHi|H]; [short; auto|lia|]. rewrite H in Hw'. cbn [length] in Hw'. lia.
    + destruct (json_string t) as [[str r']|] eqn:Es; [|done]. injection E as <- <-. apply json_string_short in Es. lia.
    + apply json_scalar_short in E. cbn [length] in E. lia.
  - intros depth fs s v r. cbn [json_fields]. pose proof (ws_short s) as Hw. destruct (ws s) as [|c t]; [done|]. intros E.
    assert (∃ key r1 r2 item r3 r4, json_string t = Some (key, r1) ∧ ws r1 = 58%Z :: r2 ∧ json_value fuel depth r2 = Some (item, r3) ∧
      ((∃ fs', ws r3 = 44%Z :: r4 ∧ json_fields fuel depth fs' r4 = Some (v, r)) ∨ ws r3 = 125%Z :: r4 ∧ r = r4)) as (key & r1 & r2 & item & r3 & r4 & E1 & E2 & E3 & E4).
    { repeat case_match; simplify_eq; eauto 20. }
    apply json_string_short in E1. apply IHv in E3. pose proof (ws_short r1) as W1. rewrite E2 in W1. pose proof (ws_short r3) as W3. cbn [length] in *. destruct E4 as [(fs' & E4 & E5%IHf)|[E4 ->]]; rewrite E4 in W3; cbn [length] in W3; lia.
  - intros depth l s v r. cbn [json_items]. destruct (json_value fuel depth s) as [[item r']|] eqn:E; [|done]. apply IHv in E. pose proof (ws_short r') as W. intros E'.
    assert (∃ c r1, ws r' = c :: r1 ∧ (json_items fuel depth (l ++ [item]) r1 = Some (v, r) ∨ r = r1)) as (c & r1 & E1 & E2) by (repeat case_match; simplify_eq; eauto 20).
    rewrite E1 in W. cbn [length] in W. destruct E2 as [E2%IHi| ->]; lia.
Qed.

(** Two fuels of at least twice the bytes read alike. *)
Lemma json_fuel n : ∀ m,
  (∀ depth s, 2 * length s < n → 2 * length s < m → json_value n depth s = json_value m depth s) ∧
  (∀ depth fs s, 2 * length s < n → 2 * length s < m → json_fields n depth fs s = json_fields m depth fs s) ∧
  (∀ depth l s, 2 * length s + 1 < n → 2 * length s + 1 < m → json_items n depth l s = json_items m depth l s).
Proof.
  induction n as [|n IH]; intros m; [split_and!; intros; lia|]. destruct m as [|m]; [split_and!; intros; lia|]. destruct (IH m) as (IHv & IHf & IHi). split_and!.
  - intros depth s Hn Hm. cbn [json_value]. pose proof (ws_short s) as Hw. destruct (ws s) as [|c t]; [done|]. cbn [length] in Hw. rewrite (IHf (S depth) [] t), (IHi (S depth) [] t) by lia. done.
  - intros depth fs s Hn Hm. cbn [json_fields]. pose proof (ws_short s) as Hw. destruct (ws s) as [|c t]; [done|]. cbn [length] in Hw. destruct (json_string t) as [[key r1]|] eqn:E1; [|by repeat case_match].
    apply json_string_short in E1. pose proof (ws_short r1) as W1. destruct (ws r1) as [|c2 r2]; [by repeat case_match|]. cbn [length] in W1. rewrite (IHv depth r2) by lia.
    destruct (json_value m depth r2) as [[item r3]|] eqn:E3; [|by repeat case_match]. apply (proj1 (json_value_short m)) in E3. pose proof (ws_short r3) as W3. destruct (ws r3) as [|c4 r4]; [by repeat case_match|].
    cbn [length] in W3. by rewrite (IHf depth (map_set fs key item) r4) by lia.
  - intros depth l s Hn Hm. cbn [json_items]. rewrite (IHv depth s) by lia. destruct (json_value m depth s) as [[item r]|] eqn:E; [|done]. apply (proj1 (json_value_short m)) in E. pose proof (ws_short r) as W.
    destruct (ws r) as [|c r1]; [done|]. cbn [length] in W. by rewrite (IHi depth (l ++ [item]) r1) by lia.
Qed.

(** More fuel never changes what [read_json] reads. *)
Lemma read_json_fuel doc fuel : load_fuel doc ≤ fuel → read_json doc = fst <$> json_value fuel 0 doc.
Proof. unfold load_fuel, read_json. intros H. f_equal. apply json_fuel; unfold load_fuel; lia. Qed.
