(* ===== verification/JsonSpelled.v ===== *)
(** * JsonSpelled: the plain reader over the texts the writers produce.

    A canonical text read with its numbers spelled gives the value that was written, with every integer as the text of it ([spell]). The proofs follow the reader over the text
    as [JsonRoundtrip] does for the other reader.

    The second part is internal/jsnode: [Stringify] (stringify.go), which is encoding/json's text of a value with its line separators unescaped, and [DecodeUTF8] (utf8.go). A value it
    writes has the members of an object in the order of a Go struct's fields; what is read has them sorted ([as_read]). *)
From S2P Require Import Prelude GoLib Sha256 Json Loads Utf8 JsonText JsonRoundtrip GoJson GoFloat.
Local Open Scope Z_scope.

Fixpoint spell (v : value) : value :=
  match v with
  | VInt z => VNumber (itoa z)
  | VList l => VList (spell <$> l)
  | VMap fs => VMap ((λ kv, (fst kv, spell (snd kv))) <$> fs)
  | _ => v
  end.

Definition spell_fields (fs : list (string * value)) : list (string * value) := (λ kv, (fst kv, spell (snd kv))) <$> fs.

Lemma spell_fields_keys fs : (spell_fields fs).*1 = fs.*1.
Proof. induction fs as [|[k v] fs IH]; [done|]. cbn. by f_equal. Qed.

Lemma map_get_spell fs k : map_get (spell_fields fs) k = spell <$> map_get fs k.
Proof. induction fs as [|[k' v] fs IH]; [done|]. cbn. by destruct (bool_decide (k' = k)). Qed.

Lemma json_scalar_int z rest : stops rest → json_scalar (text_of (VInt z) ++ rest) = Some (VNumber (itoa z), rest).
Proof.
  intros Hr. cbn [text_of]. destruct (itoa_text z) as (sign & d & ds & E & Hs & Hd & Hds & Hv). rewrite E.
  assert (json_scalar ((sign ++ d :: ds) ++ rest) = json_number ((sign ++ d :: ds) ++ rest)) as ->.
  { destruct Hs as [->| ->]; cbn [app]; unfold json_scalar; cbn;
      (destruct d as [|p|p]; [done| |lia]); do 7 (destruct p; try done; try lia). }
  unfold json_number. rewrite split_sign_int, int_part_int by done. destruct (no_frac_exp rest Hr) as (_ & _ & -> & ->).
  rewrite !app_nil_r, <- E. by rewrite string_of_bytes_of_string.
Qed.

Definition reads (v : value) : Prop := ∀ fuel depth rest, (length (btext v) ≤ fuel)%nat → (depth + height v ≤ MaxDepth)%nat → delim rest →
  json_value fuel depth (btext v ++ rest) = Some (spell v, rest).

Lemma json_string_text s rest : utf8 (bytes_of_string s) → json_string (string_rest s ++ rest) = Some (s, rest).
Proof. intros Hs. unfold json_string. destruct (load_string s rest Hs) as (b & -> & ->). done. Qed.

Lemma read_items_text l x acc fuel depth rest : json_ok x → reads x → Forall json_ok l → Forall reads l →
  (length (btext x ++ comma_tail (btext <$> l)) < fuel)%nat → (∀ y, y ∈ x :: l → depth + height y ≤ MaxDepth)%nat →
  json_items fuel depth acc (btext x ++ comma_tail (btext <$> l) ++ 93 :: rest) = Some (VList (acc ++ (spell <$> x :: l)), rest).
Proof.
  intros Hx Lx Hl. revert x acc fuel Hx Lx. induction Hl as [|y l Hy Hl IH]; intros x acc fuel Hx Lx Hs Hf Hd;
    (destruct fuel as [|fuel]; [lia|]); rewrite length_app in Hf; cbn [json_items].
  - rewrite Lx by (lia || apply (delim_list []) || apply Hd; set_solver). done.
  - apply Forall_cons in Hs as [Ly Ll]. rewrite Lx by (lia || apply delim_list || apply Hd; set_solver).
    unfold comma_tail in *. rewrite !fmap_cons in *. cbn [concat app length] in *. rewrite (ws_opener 44) by done. cbn iota.
    rewrite <- (assoc_L (++)). rewrite IH; [by rewrite <- (assoc_L (++))|done..|lia|]. intros z Hz. apply Hd. set_solver.
Qed.

Lemma read_entry k v fields fuel depth tail :
  utf8 (bytes_of_string k) → reads v → (length (bentry (k, v)) ≤ fuel)%nat → (depth + height v ≤ MaxDepth)%nat → delim tail →
  json_fields (S fuel) depth fields (bentry (k, v) ++ tail) =
  match tail with
  | 44 :: r => json_fields fuel depth (map_set fields k (spell v)) r
  | 125 :: r => Some (VMap (map_set fields k (spell v)), r)
  | _ => None
  end.
Proof.
  intros Hk Lv Hf Hd Ht. unfold bentry, entry_text in *. cbn [fst snd] in *.
  rewrite encode_runes_app, encode_runes_cons, string_text_bytes in *. change (encode_rune 58) with [58] in *. fold (btext v) in *.
  rewrite !length_app in Hf. cbn [length] in Hf. rewrite <- !(assoc_L (++)). cbn [app json_fields]. rewrite (ws_opener 34) by done. cbn iota.
  rewrite json_string_text by done. rewrite (ws_opener 58) by done. cbn iota. by rewrite Lv, ws_delim by (done || lia).
Qed.

Lemma read_fields_text fs kv fields fuel depth rest :
  utf8 (bytes_of_string (fst kv)) → reads (snd kv) →
  Forall (λ kv, utf8 (bytes_of_string (fst kv))) fs → Forall (λ kv, reads (snd kv)) fs →
  StronglySorted str_lt (fields ++ kv :: fs).*1 →
  (length (bentry kv ++ comma_tail (bentry <$> fs)) < fuel)%nat → (∀ kv', kv' ∈ kv :: fs → depth + height (snd kv') ≤ MaxDepth)%nat →
  json_fields fuel depth (spell_fields fields) (bentry kv ++ comma_tail (bentry <$> fs) ++ 125 :: rest) = Some (VMap (spell_fields (fields ++ kv :: fs)), rest).
Proof.
  intros Hk Lx Hl. revert kv fields fuel Hk Lx. induction Hl as [|kv' fs Hk' Hl IH]; intros [k v] fields fuel Hk Lx Hs Hsort Hf Hd;
    (destruct fuel as [|fuel]; [lia|]); rewrite length_app in Hf;
    (assert (map_set (spell_fields fields) k (spell v) = spell_fields (fields ++ [(k, v)])) as Eset;
     [unfold spell_fields at 2; rewrite fmap_app; apply (map_set_last (spell_fields fields) k (spell v));
      apply Forall_fmap; eapply Forall_impl; [exact (sorted_before _ _ _ _ Hsort)|done]|]);
    (rewrite read_entry by (done || lia || (apply (Hd (k, v)); by left) || apply delim_map)).
  - cbn. by rewrite Eset.
  - apply Forall_cons in Hs as [Ly Ll]. unfold comma_tail in *. rewrite !fmap_cons in *. cbn [concat app length] in *.
    rewrite <- (assoc_L (++)), Eset. rewrite IH; try done.
    + by rewrite <- (assoc_L (++)).
    + by rewrite <- (assoc_L (++)).
    + lia.
    + intros z Hz. apply Hd. by right.
Qed.

Lemma json_value_text v : json_ok v → reads v.
Proof.
  induction v as [| b | z | t | t | s | l IH | fs IH] using value_ind'; intros Hok fuel depth rest Hf Hd Hr; inversion Hok; subst;
    (destruct fuel as [|fuel]; [by destruct (btext_opener _ Hok) as (? & ? & E & _); rewrite E in Hf; simpl in Hf; lia|]).
  - done.
  - by destruct b.
  - assert (btext (VInt z) = text_of (VInt z)) as -> by (apply encode_runes_ascii, itoa_plain).
    pose proof (json_scalar_int z rest (delim_stops rest Hr)) as Hl. destruct (text_opener _ Hok) as (c & t & E & Hc). rewrite E in *. cbn [app] in *.
    cbn [json_value]. rewrite ws_opener by apply Hc. destruct (itoa_text z) as (sign & d & ds & E' & Hs & Hd' & _). cbn [text_of] in E.
    rewrite E' in E. assert (c = 45 ∨ 48 ≤ c ≤ 57) as Hc' by (destruct Hs as [->| ->]; injection E as <- _; lia).
    destruct (Z.eqb_spec c 123); [lia|]. destruct (Z.eqb_spec c 91); [lia|]. by destruct (Z.eqb_spec c 34); [lia|].
  - unfold btext. cbn [text_of]. rewrite string_text_bytes. cbn [app json_value]. rewrite ws_opener by done. cbn.
    by rewrite json_string_text.
  - rewrite btext_list in *. cbn [app json_value length] in *. rewrite ws_opener by done. cbn [height] in Hd.
    change (91 =? 123) with false. change (91 =? 91) with true. cbn iota. destruct (Nat.ltb_spec MaxDepth (S depth)); [lia|].
    destruct l as [|x l]; [done|]. destruct (proj1 (Forall_cons _ _ _) IH) as [Lx Ll]. destruct (proj1 (Forall_cons _ _ _) H0) as [Hx Hl].
    rewrite fmap_cons in *. unfold joined in *. fold (comma_tail (btext <$> l)) in *. rewrite <- !(assoc_L (++)) in *.
    pose proof (read_items_text l x [] fuel (S depth) rest Hx (Lx Hx) Hl) as Hi. destruct (btext_opener x Hx) as (c & t & Ex & Hc).
    rewrite Ex in *. cbn [app] in *. rewrite ws_opener by apply Hc. cbn [spell]. rewrite <- Hi;
      [|by apply (Forall_mp json_ok)|cbn [length] in *; rewrite !length_app in *; simpl in *; lia|].
    + destruct Hc as (_ & _ & _ & Hne & _). other_head c.
    + intros y Hy. pose proof (height_le _ _ Hy). lia.
  - rewrite btext_map in *. cbn [app json_value length] in *. rewrite ws_opener by done. cbn [height] in Hd.
    change (123 =? 123) with true. cbn iota. destruct (Nat.ltb_spec MaxDepth (S depth)); [lia|].
    destruct fs as [|kv fs]; [done|]. destruct (proj1 (Forall_cons _ _ _) IH) as [Lx Ll]. destruct (proj1 (Forall_cons _ _ _) H0) as [[Hk Hx] Hl].
    rewrite fmap_cons in *. unfold joined in *. fold (comma_tail (bentry <$> fs)) in *. rewrite <- !(assoc_L (++)) in *.
    pose proof (read_fields_text fs kv [] fuel (S depth) rest Hk (Lx Hx)) as Hi. cbn [spell]. change (spell_fields []) with (@nil (string * value)) in Hi. cbn [app] in Hi.
    unfold spell_fields in Hi. rewrite <- Hi; try done.
    + eapply Forall_impl; [exact Hl|]. by intros ? [].
    + rewrite Forall_forall in *. intros y Hy. apply Ll; [done|]. by apply Hl.
    + rewrite !length_app in *. simpl in *. lia.
    + intros y Hy. assert (height (snd y) ≤ max_list ((λ kv, height (snd kv)) <$> kv :: fs))%nat; [|rewrite fmap_cons in *; lia].
      apply max_list_elem_of_le. by apply (list_elem_of_fmap_2 (λ kv, height (snd kv))).
Qed.

Lemma json_canonical v : json_ok v → (height v ≤ MaxDepth)%nat →
  json_value (load_fuel (bytes_of_string (canonical v))) 0 (bytes_of_string (canonical v)) = Some (spell v, []).
Proof.
  intros Hok Hh. destruct (canonical_text v Hok) as [-> _]. fold (btext v).
  pose proof (json_value_text v Hok (load_fuel (btext v)) 0%nat []) as Hl. rewrite app_nil_r in Hl.
  rewrite Hl; [done|unfold load_fuel; lia|lia|done].
Qed.

(** The object a canonical text holds, as the merge turns read a ledger entry, with anything or only a closing bracket after it. *)
Lemma envelope_canonical fs : json_ok (VMap fs) → (height (VMap fs) ≤ MaxDepth)%nat →
  envelope (canonical (VMap fs)) = Some (spell_fields fs) ∧ decode (canonical (VMap fs)) = Some (spell_fields fs).
Proof. intros Hok Hh. unfold envelope, decode, read_json. rewrite json_canonical by done. done. Qed.

(** An int64 is read from its text, as an integer and without a fraction. *)
Lemma parse_itoa z : min_int64 ≤ z ≤ max_int64 → parse_int64 (bytes_of_string (itoa z)) = Some z ∧ has_point (bytes_of_string (itoa z)) = false.
Proof.
  intros Hz. destruct (itoa_text z) as (sign & d & ds & -> & Hs & Hd & Hds & Hv). split; [by apply parse_int64_text|by apply int_no_point].
Qed.

(** * jsnode.Stringify *)

(** encoding/json's text of a string, without the escapes for HTML; [fuel] is the number of bytes. *)
Definition u_fffd : list Z := bytes_of_string "\ufffd".
Definition u_2028 : list Z := bytes_of_string "\u2028".
Definition u_2029 : list Z := bytes_of_string "\u2029".

Fixpoint go_chars (fuel : nat) (s : list Z) : list Z :=
  match fuel, s with
  | O, _ | _, [] => []
  | S fuel', _ =>
    let '(r, size) := decode_rune s in
    (if (r =? rune_error) && (size =? 1)%nat then u_fffd
     else if r =? 0x2028 then u_2028 else if r =? 0x2029 then u_2029
     else if r <? 0x80 then spelled r else take size s) ++ go_chars fuel' (drop size s)
  end.
Definition go_string (s : string) : list Z := 34 :: go_chars (String.length s) (bytes_of_string s) ++ [34].

(** A new line at [depth], or nothing in a compact text. *)
Definition new_line (indent : list Z) (depth : nat) : list Z := match indent with [] => [] | _ => 10 :: concat (replicate depth indent) end.
Definition colon (indent : list Z) : list Z := match indent with [] => [58] | _ => [58; 32] end.

(** A list or an object, over parts already written. *)
Definition bracketed (indent : list Z) (depth : nat) (opening closing : Z) (parts : list (list Z)) : list Z :=
  match parts with
  | [] => [opening; closing]
  | _ => opening :: joined ((λ p, new_line indent (S depth) ++ p) <$> parts) ++ new_line indent depth ++ [closing]
  end.

Section text.
Context (string_ : string → list Z) (indent : list Z).

Fixpoint value_text (depth : nat) (v : value) : list Z :=
  match v with
  | VNull => w_null
  | VBool b => if b then w_true else w_false
  | VInt z => bytes_of_string (itoa z)
  | VNumber t | VFloat t => bytes_of_string t
  | VString s => string_ s
  | VList l => bracketed indent depth 91 93 (value_text (S depth) <$> l)
  | VMap fs => bracketed indent depth 123 125 ((λ kv, string_ (fst kv) ++ colon indent ++ value_text (S depth) (snd kv)) <$> fs)
  end.
End text.

(** The loop of [Stringify]: the escapes of the two line separators become the characters, and a backslash and the byte after it are copied together. *)
Fixpoint separators_literal (skip : nat) (s : list Z) : list Z :=
  match s with
  | [] => []
  | c :: t =>
    match skip with
    | S n => separators_literal n t
    | O =>
      if negb (c =? 92) then c :: separators_literal 0 t
      else if bool_decide (is_Some (strip_prefix u_2028 s)) then [0xe2; 0x80; 0xa8] ++ separators_literal 5 t
      else if bool_decide (is_Some (strip_prefix u_2029 s)) then [0xe2; 0x80; 0xa9] ++ separators_literal 5 t
      else match t with [] => [c] | d :: _ => c :: d :: separators_literal 1 t end
    end
  end.

Definition Stringify (v : value) (indent : list Z) : list Z := separators_literal 0 (value_text go_string indent 0 v).

(** * jsnode.DecodeUTF8 *)

(** [utf8.Valid]; [fuel] is the number of bytes. *)
Fixpoint valid_from (fuel : nat) (s : list Z) : bool :=
  match fuel, s with
  | _, [] => true
  | O, _ => false
  | S fuel', _ => let '(r, size) := decode_rune s in negb ((r =? rune_error) && (size =? 1)%nat) && valid_from fuel' (drop size s)
  end.
Definition Valid (s : list Z) : bool := valid_from (length s) s.

(** The bytes after the first that still start a sequence. *)
Fixpoint continued (need : nat) (lo hi : Z) (s : list Z) : nat :=
  match need, s with S n, b :: t => if in_range lo hi b then S (continued n 0x80 0xbf t) else O | _, _ => O end.

Definition subpart (b : list Z) : nat :=
  match b with
  | [] => 1
  | c :: t =>
    let '(need, lo, hi) :=
      if in_range 0xc2 0xdf c then (1%nat, 0x80, 0xbf) else if c =? 0xe0 then (2%nat, 0xa0, 0xbf) else if c =? 0xed then (2%nat, 0x80, 0x9f) else if in_range 0xe1 0xef c then (2%nat, 0x80, 0xbf)
      else if c =? 0xf0 then (3%nat, 0x90, 0xbf) else if c =? 0xf4 then (3%nat, 0x80, 0x8f) else if in_range 0xf1 0xf3 c then (3%nat, 0x80, 0xbf) else (O, 0x80, 0xbf) in
    S (continued need lo hi t)
  end.

Fixpoint replaced (fuel : nat) (s : list Z) : list Z :=
  match fuel, s with
  | O, _ | _, [] => []
  | S fuel', _ =>
    let '(r, size) := decode_rune s in
    if (r =? rune_error) && (size =? 1)%nat then encode_rune rune_error ++ replaced fuel' (drop (subpart s) s) else take size s ++ replaced fuel' (drop size s)
  end.
Definition DecodeUTF8 (s : list Z) : list Z := if Valid s then s else replaced (length s) s.

Example stringify_examples :
  string_of_bytes (Stringify (VMap [("b", VList [VInt 1; VString "x"]); ("a", VList [])]) [32; 32]) =
    (let q := String "034"%char "" in "{" +:+ newline +:+ "  " +:+ q +:+ "b" +:+ q +:+ ": [" +:+ newline +:+ "    1," +:+ newline +:+ "    " +:+ q +:+ "x" +:+ q +:+ newline +:+ "  ]," +:+ newline
      +:+ "  " +:+ q +:+ "a" +:+ q +:+ ": []" +:+ newline +:+ "}")%string ∧
  Stringify (VString (string_of_bytes [0xe2; 0x80; 0xa8; 0xff; 10; 92; 117; 50])) [] = [34; 0xe2; 0x80; 0xa8] ++ u_fffd ++ [92; 110; 92; 92; 117; 50; 34] ∧
  DecodeUTF8 [0x61; 0xe2; 0x80; 0x62; 0xff] = [0x61] ++ encode_rune rune_error ++ [0x62] ++ encode_rune rune_error.
Proof. vm_compute. done. Qed.

(** * goalplan/read.go: an escape of half a surrogate pair *)

(** The code unit of the escape at the start, and 0 for anything else. *)
Definition unit_at (s : list Z) : Z := match hex4 s with Some (n, _) => n | None => 0 end.

(** The loop at byte [i], with [skip] bytes to pass over. *)
Fixpoint unpaired_from (skip i : nat) (s : list Z) : option nat :=
  match s with
  | [] => None
  | c :: t =>
    match skip with
    | S n => unpaired_from n (S i) t
    | O =>
      if negb (c =? 92) then unpaired_from 0 (S i) t
      else if in_range 0xd800 0xdbff (unit_at s) then if in_range 0xdc00 0xdfff (unit_at (drop 6 s)) then unpaired_from 11 (S i) t else Some i
      else if in_range 0xdc00 0xdfff (unit_at s) then Some i
      else if match t with d :: _ => d =? 117 | [] => false end then unpaired_from 5 (S i) t else unpaired_from 1 (S i) t
    end
  end.
(** The offset of the first one. *)
Definition unpairedSurrogate (s : list Z) : option nat := unpaired_from 0 0 s.

(** * Reading what [Stringify] wrote *)

(** ** Texts that are UTF-8 *)
Lemma Valid_utf8 s : Forall is_byte s → Valid s = true → utf8 s.
Proof.
  unfold Valid. generalize (length s). intros fuel. revert s. induction fuel as [|fuel IH]; intros s Hb; (destruct s as [|b t]; [intros _; apply utf8_nil|]); cbn [valid_from]; [done|].
  destruct (decode_rune (b :: t)) as [r size] eqn:Ed. destruct ((r =? rune_error) && (size =? 1)%nat) eqn:Ee; cbn [negb andb]; [done|]. intros Hv.
  destruct (encode_decode (b :: t) r size Hb ltac:(done) Ed) as (Hr & Ht & _).
  - intros [-> ->]. by vm_compute in Ee.
  - rewrite <- (take_drop size (b :: t)), Ht. apply utf8_app; [by apply utf8_encode_rune|]. apply IH; [by apply Forall_drop|done].
Qed.

Lemma utf8_Valid s : utf8 s → Valid s = true.
Proof.
  intros (rs & Hrs & ->). unfold Valid. pose proof (Nat.le_refl (length (encode_runes rs))) as Hf. revert Hf. generalize (length (encode_runes rs)) at 2 3. intros fuel. revert fuel.
  induction Hrs as [|r rs Hr Hrs IH]; intros fuel Hf; [by destruct fuel|]. rewrite encode_runes_cons in *. pose proof (length_encode_rune r Hr). rewrite length_app in Hf.
  destruct fuel as [|fuel]; [lia|]. cbn [valid_from]. destruct (encode_rune r ++ encode_runes rs) as [|b t] eqn:E; [by apply encode_rune_app_nonnil in E|]. rewrite <- E, decode_encode by done.
  replace ((r =? rune_error) && (length (encode_rune r) =? 1)%nat) with false by (by destruct (Z.eqb_spec r rune_error) as [->|]). rewrite drop_app_length. apply IH. lia.
Qed.

Lemma DecodeUTF8_text s : utf8 s → DecodeUTF8 s = s.
Proof. intros H. unfold DecodeUTF8. by rewrite (utf8_Valid s H). Qed.

(** ** What a written part leaves to what follows it *)
Definition quiet (s : list Z) : Prop := ∀ i, unpaired_from 0 i s = None.

(** [b] is what becomes of the written part [a]: UTF-8, and without half a pair. *)
Record comes_out (a b : list Z) : Prop := mk_comes_out {
  out_text : ∀ rest, separators_literal 0 (a ++ rest) = b ++ separators_literal 0 rest;
  out_utf8 : utf8 b;
  out_quiet : ∀ rest, quiet rest → quiet (b ++ rest) }.

Lemma out_app a b a' b' : comes_out a b → comes_out a' b' → comes_out (a ++ a') (b ++ b').
Proof.
  intros [H1 H2 H3] [H1' H2' H3']. constructor; [|by apply utf8_app|]; intros rest; rewrite <- !(assoc_L (++)); [by rewrite H1, H1'|]. intros Hr. by apply H3, H3'.
Qed.

Lemma out_nil : comes_out [] [].
Proof. constructor; [done|apply utf8_nil|done]. Qed.

Lemma literal_over a rest : Forall (λ c, c ≠ 92) a → separators_literal 0 (a ++ rest) = a ++ separators_literal 0 rest.
Proof. induction 1 as [|c a Hc _ IH]; [done|]. cbn [app separators_literal]. rewrite (proj2 (Z.eqb_neq c 92) Hc). cbn [negb]. by rewrite IH. Qed.

Lemma quiet_over a rest : Forall (λ c, c ≠ 92) a → quiet rest → quiet (a ++ rest).
Proof. intros Ha Hr. induction Ha as [|c a Hc _ IH]; [done|]. intros i. cbn [app unpaired_from]. rewrite (proj2 (Z.eqb_neq c 92) Hc). cbn [negb]. apply IH. Qed.

Lemma out_over a : utf8 a → Forall (λ c, c ≠ 92) a → comes_out a a.
Proof. intros Hu Ha. constructor; [by intros; apply literal_over|done|by intros; apply quiet_over]. Qed.

Definition over (c : Z) : Prop := plain_char c ∧ c ≠ 92.
Lemma out_plain a : Forall over a → comes_out a a.
Proof. intros Ha. apply out_over; [apply utf8_ascii; eapply Forall_impl; [exact Ha|by intros ? []]|eapply Forall_impl; [exact Ha|by intros ? []]]. Qed.

Lemma control_plain r : 0 ≤ r < 0x20 → Forall plain_char (spelled r).
Proof. apply (control_cases (λ r, Forall plain_char (spelled r))). repeat (constructor; [refine (bool_decide_unpack _ _); vm_compute; exact I|]). constructor. Qed.

(** *** The characters of a string *)
Definition go_char (r : Z) : list Z := if r =? 0x2028 then u_2028 else if r =? 0x2029 then u_2029 else if r <? 0x80 then spelled r else encode_rune r.

Lemma encode_rune_high r : scalar r → 0x80 ≤ r → Forall (λ b, b ≠ 92) (encode_rune r).
Proof.
  intros Hr Hh. destruct (scalar_cases r Hr) as [Hc|[Hc|[[Hc Hs]|Hc]]]; [lia|rewrite encode2 by done|rewrite encode3 by done|rewrite encode4 by done]; repeat constructor; by_div.
Qed.

Lemma out_escape r : 0 ≤ r < 0x20 ∨ r = 34 ∨ r = 92 → comes_out (spelled r) (spelled r).
Proof.
  intros Hr. assert (utf8 (spelled r)) as Hu.
  { assert (0 ≤ r ≤ 92) as Hs by lia. destruct (spell_canonical r) as [_ H]; [unfold scalar; lia|]. rewrite <- (encode_runes_ascii (spelled r)); [by eexists|]. clear H.
    destruct Hr as [Hr|[->| ->]]; [by apply control_plain|by repeat constructor..]. }
  constructor; [|done|]; clear Hu.
  - intros rest. destruct Hr as [Hr|[->| ->]]; [|reflexivity..]. revert rest. apply (control_cases (λ r, ∀ rest, separators_literal 0 (spelled r ++ rest) = spelled r ++ separators_literal 0 rest)); [|done].
    repeat (constructor; [intros rest; reflexivity|]). constructor.
  - intros rest Hq i. destruct Hr as [Hr|[->| ->]]; [|exact (Hq (S (S i)))..]. revert Hq i. apply (control_cases (λ r, quiet rest → ∀ i, unpaired_from 0 i (spelled r ++ rest) = None)); [|done].
    repeat (constructor; [intros Hq i; first [exact (Hq (S (S i)))|exact (Hq (S (S (S (S (S (S i)))))))]|]). constructor.
Qed.

Lemma out_char r : scalar r → comes_out (go_char r) (encode_runes (spelled r)).
Proof.
  intros Hr. unfold go_char. assert (0x80 ≤ r → spelled r = [r]) as Hhigh.
  { intros H. unfold spelled. repeat (case_match; [lia|]). done. }
  destruct (Z.eqb_spec r 0x2028) as [->|H1]; [constructor; [done|by apply (utf8_encode_rune 0x2028)|intros rest Hq i; exact (Hq (S (S (S i))))]|].
  destruct (Z.eqb_spec r 0x2029) as [->|H2]; [constructor; [done|by apply (utf8_encode_rune 0x2029)|intros rest Hq i; exact (Hq (S (S (S i))))]|].
  destruct (Z.ltb_spec r 0x80) as [Hlow|Hge].
  - destruct (decide (r < 0x20 ∨ r = 34 ∨ r = 92)) as [He|He].
    + assert (0 ≤ r) by (unfold scalar in Hr; lia). assert (comes_out (spelled r) (spelled r)) as Ho by (apply out_escape; lia). assert (encode_runes (spelled r) = spelled r) as ->; [|done].
      apply encode_runes_ascii. destruct He as [Hc|[->| ->]]; [apply control_plain; lia|by repeat constructor..].
    + assert (spelled r = [r]) as ->. { unfold spelled. repeat (case_match; [lia|]). done. }
      assert (over r) as Ho by (unfold over, plain_char; unfold scalar in Hr; lia). rewrite encode_runes_ascii by (repeat constructor; apply Ho). apply out_plain. by apply Forall_singleton.
  - rewrite Hhigh by done. unfold encode_runes. cbn [mbind list_bind]. rewrite app_nil_r. apply out_over; [by apply utf8_encode_rune|by apply encode_rune_high].
Qed.

Lemma out_chars rs : Forall scalar rs → comes_out (rs ≫= go_char) (encode_runes (rs ≫= spelled)).
Proof. induction 1 as [|r rs Hr _ IH]; [apply out_nil|]. rewrite !bind_cons, encode_runes_app. by apply out_app; [apply out_char|]. Qed.

Lemma go_chars_text fuel rs : Forall scalar rs → (length (encode_runes rs) ≤ fuel)%nat → go_chars fuel (encode_runes rs) = rs ≫= go_char.
Proof.
  intros Hrs. revert fuel. induction Hrs as [|r rs Hr Hrs IH]; intros fuel Hf; [by destruct fuel|]. rewrite encode_runes_cons in *. pose proof (length_encode_rune r Hr). rewrite length_app in Hf.
  destruct fuel as [|fuel]; [lia|]. cbn [go_chars]. destruct (encode_rune r ++ encode_runes rs) as [|b t] eqn:E; [by apply encode_rune_app_nonnil in E|]. rewrite <- E, decode_encode by done.
  replace ((r =? rune_error) && (length (encode_rune r) =? 1)%nat) with false by (by destruct (Z.eqb_spec r rune_error) as [->|]). rewrite take_app_length, drop_app_length, bind_cons, IH by lia. done.
Qed.

(** A string as it is in the document. *)
Definition plain_string (s : string) : list Z := 34 :: string_rest s.

(** A fixed text without a backslash. *)
Ltac plain_marks := apply out_plain; repeat (apply Forall_cons_2; [done|]); apply Forall_nil_2.

Lemma out_mark c : over c → comes_out [c] [c].
Proof. intros H. apply out_plain. by apply Forall_singleton. Qed.

Lemma out_string s : utf8 (bytes_of_string s) → comes_out (go_string s) (plain_string s).
Proof.
  intros Hu. destruct (utf8_runes _ Hu) as [Hr Hs]. unfold go_string, plain_string, string_rest. rewrite <- length_bytes_of_string. rewrite Hs at 1 2. rewrite go_chars_text by done.
  apply (out_app [34] [34]); [by apply out_mark|]. apply out_app; [by apply out_chars|by apply out_mark].
Qed.

(** ** Values *)

(** What is written of a goal plan: integers, UTF-8 texts, and no key twice. *)
#[local] Set Warnings "-register-all".

Inductive text_ok : value → Prop :=
| text_null : text_ok VNull
| text_bool b : text_ok (VBool b)
| text_int z : text_ok (VInt z)
| text_string s : utf8 (bytes_of_string s) → text_ok (VString s)
| text_list l : Forall text_ok l → text_ok (VList l)
| text_map fs : Forall (λ kv, utf8 (bytes_of_string (fst kv)) ∧ text_ok (snd kv)) fs → NoDup fs.*1 → text_ok (VMap fs).

(** What is read of it. *)
Fixpoint as_read (v : value) : value :=
  match v with
  | VInt z => VNumber (itoa z)
  | VList l => VList (as_read <$> l)
  | VMap fs => VMap (map_of ((λ kv, (fst kv, as_read (snd kv))) <$> fs))
  | _ => v
  end.

Section spaced.
Context (indent : list Z).
Hypothesis Hindent : Forall (λ c, c = 32) indent.

Definition part (d : nat) (kv : string * value) : list Z := plain_string (fst kv) ++ colon indent ++ value_text plain_string indent (S d) (snd kv).

Definition blank (s : list Z) : Prop := Forall (λ c, c = 32 ∨ c = 10) s.

Lemma line_blank d : blank (new_line indent d).
Proof.
  unfold new_line. destruct indent as [|c i]; [constructor|]. constructor; [by right|]. apply Forall_concat, Forall_replicate. eapply Forall_impl; [exact Hindent|]. by left.
Qed.

Lemma ws_blank b s : blank b → ws (b ++ s) = ws s.
Proof. induction 1 as [|c b [->| ->] _ IH]; [done|..]; exact IH. Qed.

Lemma out_blank b : blank b → comes_out b b.
Proof. intros H. apply out_plain. eapply Forall_impl; [exact H|]. unfold over, plain_char. intros c Hc. lia. Qed.

Lemma out_joined ps qs : Forall2 comes_out ps qs → comes_out (joined ps) (joined qs).
Proof.
  destruct 1 as [|p q ps qs Hp Hps]; [apply out_nil|]. apply out_app; [done|]. induction Hps as [|p' q' ps qs Hp' _ IH]; [apply out_nil|]. csimpl.
  apply (out_app [44] [44]); [by apply out_mark|]. by apply out_app.
Qed.

Lemma out_bracketed d o c ps qs : over o → over c → Forall2 comes_out ps qs → comes_out (bracketed indent d o c ps) (bracketed indent d o c qs).
Proof.
  intros Ho Hc Hps. unfold bracketed. destruct Hps as [|p q ps qs Hp Hps]; [plain_marks|].
  apply (out_app [o] [o]); [by apply out_mark|]. apply out_app; [|by apply out_app; [apply out_blank, line_blank|apply out_mark]]. apply out_joined.
  assert (Forall2 comes_out (p :: ps) (q :: qs)) as H by (by constructor). clear Hp Hps. induction H; constructor; [|done]. by apply out_app; [apply out_blank, line_blank|].
Qed.

Lemma out_value v : text_ok v → ∀ d, comes_out (value_text go_string indent d v) (value_text plain_string indent d v).
Proof.
  induction v as [| b | z | t | t | s | l IH | fs IH] using value_ind'; intros Hok d; inversion Hok; subst; cbn [value_text].
  - plain_marks.
  - destruct b; plain_marks.
  - apply out_plain. destruct (itoa_text z) as (sign & c & ds & -> & Hs & Hd & Hds & _). apply Forall_app. split; [destruct Hs as [->| ->]; by repeat constructor|].
    constructor; [unfold over, plain_char; lia|]. eapply Forall_impl; [exact Hds|]. unfold digit, over, plain_char. intros; lia.
  - by apply out_string.
  - apply out_bracketed; [done|done|]. apply Forall2_fmap, Forall_Forall2_diag. rewrite Forall_forall in *. eauto.
  - apply out_bracketed; [done|done|]. apply Forall2_fmap, Forall_Forall2_diag. rewrite Forall_forall in *. intros [k w] Hin. destruct (H0 _ Hin) as [Hk Hw]. cbn [fst snd] in *.
    apply out_app; [by apply out_string|]. apply out_app; [unfold colon; destruct indent; plain_marks|]. exact (IH _ Hin Hw (S d)).
Qed.

(** *** The reader over it *)
Lemma value_opener v d : text_ok v → ∃ c t, value_text plain_string indent d v = c :: t ∧ opener c.
Proof.
  destruct v as [| b | z | t | t | s | l | fs]; intros Hok; inversion Hok; subst; cbn [value_text]; unfold plain_string, bracketed.
  1: by eexists _, _; split; [vm_compute; reflexivity|apply opener_intro].
  1: by destruct b; eexists _, _; (split; [vm_compute; reflexivity|apply opener_intro]).
  - destruct (itoa_text z) as (sign & c & ds & -> & Hs & Hd & _). destruct Hs as [->| ->]; cbn [app]; do 2 eexists; (split; [done|]); apply opener_intro; lia.
  - do 2 eexists; split; [done|]. by apply opener_intro.
  - case_match; do 2 eexists; (split; [done|]); by apply opener_intro.
  - case_match; do 2 eexists; (split; [done|]); by apply opener_intro.
Qed.

Lemma json_blank b fuel depth s : blank b → json_value fuel depth (b ++ s) = json_value fuel depth s.
Proof. intros Hb. destruct fuel as [|fuel]; [done|]. cbn [json_value]. by rewrite ws_blank. Qed.

Lemma stops_blank b s : blank b → stops s → stops (b ++ s).
Proof. destruct 1 as [|c b [->| ->] _]; done. Qed.

Definition spaced_reads (v : value) : Prop := ∀ d fuel depth rest, (length (value_text plain_string indent d v) ≤ fuel)%nat → (depth + height v ≤ MaxDepth)%nat → stops rest →
  json_value fuel depth (value_text plain_string indent d v ++ rest) = Some (as_read v, rest).

(** The members of a container from one of them on, with the line before each. *)
Definition lines (d : nat) (parts : list (list Z)) : list (list Z) := (λ p, new_line indent (S d) ++ p) <$> parts.

Lemma stops_after d ts c rest : is_digit c = false → c ≠ 46 → c ≠ 101 → c ≠ 69 → stops (comma_tail ts ++ new_line indent d ++ c :: rest).
Proof. intros. destruct ts; [|done]. change (stops (new_line indent d ++ c :: rest)). by apply stops_blank; [apply line_blank|]. Qed.

Lemma joined_lines d p ps : joined (lines d (p :: ps)) = new_line indent (S d) ++ p ++ comma_tail (lines d ps).
Proof. unfold lines, joined, comma_tail. rewrite fmap_cons. by rewrite <- (assoc_L (++)). Qed.
Lemma tail_lines d p ps : comma_tail (lines d (p :: ps)) = 44 :: joined (lines d (p :: ps)).
Proof. done. Qed.

Lemma spaced_items l x acc d fuel depth rest : Forall spaced_reads (x :: l) → Forall (λ y, depth + height y ≤ MaxDepth)%nat (x :: l) →
  (length (joined (lines d (value_text plain_string indent (S d) <$> x :: l))) < fuel)%nat →
  json_items fuel depth acc (joined (lines d (value_text plain_string indent (S d) <$> x :: l)) ++ new_line indent d ++ 93 :: rest) = Some (VList (acc ++ (as_read <$> x :: l)), rest).
Proof.
  revert x acc fuel. induction l as [|y l IH]; intros x acc fuel [Hx Hl]%Forall_cons [Dx Dl]%Forall_cons Hf; (destruct fuel as [|fuel]; [lia|]); cbn [json_items];
    rewrite fmap_cons, joined_lines in Hf |- *; rewrite !length_app in Hf; rewrite <- !(assoc_L (++)), json_blank by apply line_blank.
  - cbn [fmap list_fmap]. rewrite Hx by (lia || by apply (stops_after d [] 93)). change (comma_tail (lines d [])) with (@nil Z). cbn [app]. rewrite ws_blank by apply line_blank. done.
  - rewrite Hx by (lia || by apply stops_after). rewrite fmap_cons, tail_lines in Hf |- *. cbn [app length] in Hf |- *. rewrite (ws_opener 44) by done. cbn iota.
    rewrite <- fmap_cons in Hf |- *. rewrite IH; [by rewrite <- (assoc_L (++))|done|done|lia].
Qed.

Lemma colon_blank : ∃ b, blank b ∧ colon indent = 58 :: b.
Proof. unfold colon. destruct indent; [exists []; by split; [constructor|]|]. exists [32]. split; [|done]. apply Forall_singleton; by left. Qed.

Lemma bracketed_lines d o c p ps : bracketed indent d o c (p :: ps) = o :: joined (lines d (p :: ps)) ++ new_line indent d ++ [c].
Proof. done. Qed.

Lemma spaced_fields fs kv fields d fuel depth rest : Forall (λ kv, utf8 (bytes_of_string (fst kv)) ∧ spaced_reads (snd kv)) (kv :: fs) → Forall (λ kv, depth + height (snd kv) ≤ MaxDepth)%nat (kv :: fs) →
  (length (joined (lines d (part d <$> kv :: fs))) < fuel)%nat →
  json_fields fuel depth fields (joined (lines d (part d <$> kv :: fs)) ++ new_line indent d ++ 125 :: rest) =
    Some (VMap (foldl (λ m kv, map_set m (fst kv) (snd kv)) fields ((λ kv, (fst kv, as_read (snd kv))) <$> kv :: fs)), rest).
Proof.
  revert kv fields fuel. induction fs as [|kv' fs IH]; intros [k x] fields fuel [[Hk Hx] Hl]%Forall_cons [Dx Dl]%Forall_cons Hf; (destruct fuel as [|fuel]; [lia|]); cbn [json_fields fst snd] in *;
    rewrite fmap_cons, joined_lines in Hf |- *; unfold part at 1 in Hf; unfold part at 1; cbn [fst snd] in *; rewrite !length_app in Hf; rewrite <- !(assoc_L (++)), ws_blank by apply line_blank;
    unfold plain_string at 1; cbn [app]; rewrite (ws_opener 34) by done; cbn iota; rewrite json_string_text by done;
    destruct colon_blank as (b & Hb & Ec); rewrite Ec in Hf |- *; cbn [app length] in Hf |- *; rewrite (ws_opener 58) by done; cbn iota; rewrite json_blank by done.
  - cbn [fmap list_fmap]. rewrite Hx by (lia || by apply (stops_after d [] 125)). change (comma_tail (lines d [])) with (@nil Z). cbn [app]. rewrite ws_blank by apply line_blank. done.
  - rewrite Hx by (lia || by apply stops_after). rewrite fmap_cons, tail_lines in Hf |- *. cbn [app length] in Hf |- *. rewrite (ws_opener 44) by done. cbn iota.
    rewrite <- fmap_cons in Hf |- *. by rewrite IH by (done || lia).
Qed.

Lemma json_empty fuel depth rest : (depth < MaxDepth)%nat →
  json_value (S fuel) depth (91 :: 93 :: rest) = Some (VList [], rest) ∧ json_value (S fuel) depth (123 :: 125 :: rest) = Some (VMap [], rest).
Proof. intros Hd. cbn [json_value]. rewrite !ws_opener by done. by destruct (Nat.ltb_spec MaxDepth (S depth)); [lia|]. Qed.

Lemma value_spaced v : text_ok v → spaced_reads v.
Proof.
  induction v as [| b | z | t | t | s | l IH | fs IH] using value_ind'; intros Hok d fuel depth rest Hf Hd Hr; inversion Hok; subst;
    (destruct fuel as [|fuel]; [by destruct (value_opener _ d Hok) as (? & ? & E & _); rewrite E in Hf; simpl in Hf; lia|]).
  - done.
  - by destruct b.
  - pose proof (json_scalar_int z rest Hr) as Hl. cbn [value_text]. cbn [text_of] in Hl. destruct (itoa_text z) as (sign & c & ds & E & Hs & Hc & _). rewrite E in *. cbn [json_value].
    assert (∃ c' t, (sign ++ c :: ds) ++ rest = c' :: t ∧ (c' = 45 ∨ 48 ≤ c' ≤ 57)) as (c' & t & Et & Hc') by (destruct Hs as [->| ->]; do 2 eexists; (split; [done|lia])).
    rewrite Et in *. rewrite ws_opener by (unfold isWS; rewrite !orb_false_iff, !Z.eqb_neq; lia).
    destruct (Z.eqb_spec c' 123); [lia|]. destruct (Z.eqb_spec c' 91); [lia|]. by destruct (Z.eqb_spec c' 34); [lia|].
  - cbn [value_text]. unfold plain_string. cbn [app json_value]. rewrite ws_opener by done. cbn. by rewrite json_string_text.
  - cbn [value_text height] in *. destruct l as [|x l]; [change (json_value (S fuel) depth (91 :: 93 :: rest) = Some (VList [], rest)); apply json_empty; lia|].
    rewrite fmap_cons, bracketed_lines in Hf |- *. cbn [app json_value length] in Hf |- *. rewrite ws_opener by done. change (91 =? 123) with false. change (91 =? 91) with true. cbn iota.
    destruct (Nat.ltb_spec MaxDepth (S depth)); [lia|]. rewrite <- !(assoc_L (++)). cbn [app]. rewrite !length_app in Hf. cbn [length] in Hf.
    pose proof (spaced_items l x [] d fuel (S depth) rest) as Hi. rewrite (fmap_cons (value_text plain_string indent (S d))), joined_lines in Hi. rewrite joined_lines in Hf |- *. rewrite <- !(assoc_L (++)) in Hi |- *. rewrite ws_blank by apply line_blank.
    destruct (value_opener x (S d)) as (c & t & Ex & Hc); [by inversion H0|]. rewrite Ex in Hf, Hi |- *. cbn [app] in Hi |- *. rewrite ws_opener by apply Hc. cbn [as_read]. rewrite <- Hi.
    + destruct Hc as (_ & _ & _ & Hne & _). other_head c.
    + by apply (Forall_mp text_ok).
    + apply Forall_forall. intros y Hy. pose proof (height_le _ _ Hy). lia.
    + repeat (rewrite !length_app in * || cbn [length] in * ). lia.
  - cbn [value_text height] in *. destruct fs as [|kv fs]; [change (json_value (S fuel) depth (123 :: 125 :: rest) = Some (VMap [], rest)); apply json_empty; lia|].
    fold (part d) in *. rewrite fmap_cons, bracketed_lines in Hf |- *. cbn [app json_value length] in Hf |- *. rewrite ws_opener by done. change (123 =? 123) with true. cbn iota.
    destruct (Nat.ltb_spec MaxDepth (S depth)); [lia|]. rewrite <- !(assoc_L (++)). cbn [app]. rewrite !length_app in Hf. cbn [length] in Hf.
    pose proof (spaced_fields fs kv [] d fuel (S depth) rest) as Hi. rewrite (fmap_cons (part d)), joined_lines in Hi. rewrite joined_lines in Hf |- *. rewrite <- !(assoc_L (++)) in Hi |- *. rewrite ws_blank by apply line_blank.
    unfold part at 1 3 in Hi. unfold part at 1 3. unfold plain_string at 1 3 in Hi. unfold plain_string at 1 3. cbn [app] in Hi |- *. rewrite ws_opener by done. cbn iota. unfold as_read; fold as_read. unfold map_of. apply Hi.
    + rewrite Forall_forall in *. intros y Hy. destruct (H0 _ Hy). split; [done|]. by apply IH.
    + apply Forall_forall. intros y Hy. pose proof (list_elem_of_fmap_2 (λ kv, height (snd kv)) _ _ Hy) as Hin%max_list_elem_of_le. lia.
    + unfold part at 1 in Hf. unfold plain_string at 1 in Hf. repeat (rewrite !length_app in * || cbn [length] in * ). lia.
Qed.
End spaced.

(** What [Stringify] writes is UTF-8 without half a surrogate pair, and the reader finds the value in it, with its objects as maps and its integers as their digits. *)
Lemma Stringify_read v indent : text_ok v → (height v ≤ MaxDepth)%nat → Forall (λ c, c = 32) indent →
  DecodeUTF8 (Stringify v indent) = Stringify v indent ∧ unpairedSurrogate (Stringify v indent) = None ∧
  json_value (load_fuel (Stringify v indent)) 0 (Stringify v indent) = Some (as_read v, []).
Proof.
  intros Hok Hh Hi. pose proof (out_value indent Hi v Hok 0%nat) as [Ht Hu Hq]. specialize (Ht []). rewrite app_nil_r in Ht. unfold Stringify. rewrite Ht. cbn [separators_literal]. rewrite app_nil_r.
  split; [by apply DecodeUTF8_text|]. split.
  - unfold unpairedSurrogate. rewrite <- (app_nil_r (value_text _ _ _ _)). by apply Hq.
  - pose proof (value_spaced indent Hi v Hok 0%nat (load_fuel (value_text plain_string indent 0 v)) 0%nat []) as H. rewrite app_nil_r in H. apply H; [unfold load_fuel; lia|done|done].
Qed.

(** Every text and key is UTF-8. *)
Fixpoint texts_valid (v : value) : bool :=
  match v with
  | VString s => Valid (bytes_of_string s)
  | VList l => forallb texts_valid l
  | VMap fs => forallb (λ kv, Valid (bytes_of_string (fst kv)) && texts_valid (snd kv)) fs
  | _ => true
  end.

(** Containers at most [n] deep, no number but an integer, and no key twice in an object. *)
Fixpoint fits (n : nat) (v : value) : bool :=
  match v, n with
  | VNull, _ | VBool _, _ | VInt _, _ | VString _, _ => true
  | VList l, S n' => forallb (fits n') l
  | VMap fs, S n' => bool_decide (NoDup fs.*1) && forallb (λ kv, fits n' (snd kv)) fs
  | _, _ => false
  end.

Lemma max_list_le l n : Forall (λ m, m ≤ n)%nat l → (max_list l ≤ n)%nat.
Proof. induction 1 as [|m l Hm _ IH]; simpl; lia. Qed.

Lemma fits_text_ok n v : fits n v = true → texts_valid v = true → text_ok v ∧ (height v ≤ n)%nat.
Proof.
  revert n. induction v as [| b | z | t | t | s | l IH | fs IH] using value_ind'; intros n Hf Hv; [by split; [constructor|simpl; lia]..|by destruct n|by destruct n| | |].
  - split; [|simpl; lia]. constructor. apply Valid_utf8; [apply bytes_of_string_bytes|done].
  - destruct n as [|n]; [done|]. cbn [fits texts_valid] in *. rewrite forallb_forall in Hf, Hv. rewrite Forall_forall in IH.
    assert (∀ x, x ∈ l → text_ok x ∧ (height x ≤ n)%nat) as H by (intros x Hx; apply IH; [done|apply Hf; by apply list_elem_of_In|apply Hv; by apply list_elem_of_In]).
    split; [constructor; apply Forall_forall; intros x Hx; by apply H|]. cbn [height]. apply le_n_S, max_list_le. apply Forall_fmap, Forall_forall. intros x Hx. by apply H.
  - destruct n as [|n]; [done|]. cbn [fits texts_valid] in *. apply andb_true_iff in Hf as [Hn%bool_decide_eq_true Hf]. rewrite forallb_forall in Hf, Hv. rewrite Forall_forall in IH.
    assert (∀ x, x ∈ fs → utf8 (bytes_of_string (fst x)) ∧ text_ok (snd x) ∧ (height (snd x) ≤ n)%nat) as H.
    { intros x Hx. pose proof (proj1 (list_elem_of_In _ _) Hx) as Hi. destruct (proj1 (andb_true_iff _ _) (Hv x Hi)) as [Hk Hx']. split; [apply Valid_utf8; [apply bytes_of_string_bytes|done]|]. apply IH; [done|by apply Hf|done]. }
    split; [constructor; [|done]; apply Forall_forall; intros x Hx; by destruct (H x Hx) as (? & ? & _)|]. cbn [height]. apply le_n_S, max_list_le. apply Forall_fmap, Forall_forall. intros x Hx. by destruct (H x Hx) as (_ & _ & ?).
Qed.

(** The digits of an integer are read as its float. *)
Lemma parse_float_itoa z : parse_float (itoa z) = float_of_int z.
Proof.
  destruct (itoa_text z) as (sign & d & ds & E & Hs & Hd & Hds & Hz). unfold parse_float. rewrite E.
  pose proof (split_sign_int sign d ds [] Hs Hd) as Hsplit. rewrite !app_nil_r in Hsplit. rewrite Hsplit.
  assert (Forall digit (d :: ds)) as Hall by (constructor; [unfold digit; lia|done]). pose proof (digits_app (d :: ds) [] Hall I) as Hdig. rewrite !app_nil_r in Hdig. rewrite Hdig.
  pose proof (decimal_nonneg _ Hall) as Hnn. rewrite app_nil_r. change (0 - Z.of_nat (length [])) with 0. change (0 <? 0) with false. cbn iota. rewrite Z.mul_1_r.
  unfold float_of_int. destruct Hs as [->| ->]; subst z.
  - destruct (Z.eqb_spec (decimal (d :: ds)) 0); [done|]. by rewrite (proj2 (Z.ltb_ge _ _) Hnn).
  - destruct (Z.eqb_spec (decimal (d :: ds)) 0) as [->|Hne]; [done|]. rewrite (proj2 (Z.eqb_neq _ _)), (proj2 (Z.ltb_lt _ _)) by lia. by rewrite Z.opp_involutive.
Qed.
