(* ===== verification/DagModel.v ===== *)
(** * DagModel: the data of a DAG plan (internal/relay/dag: model.go, violations.go, digest.go).

    The structs of the package, field by field; an embedded struct is a field of its own ([NVNode], [EREdge], ...). A Go [int64]
    revision number is a [Z]. Also the objects the digests hash and the digests themselves. *)
From S2P Require Import Prelude GoLib Json.
Local Open Scope string_scope.

(** ** Names *)
Definition SchemaRevision := "dag-plan-revision/1".
Definition SchemaSnapshot := "dag-plan-snapshot/1".
Definition SchemaSlice := "dag-node-slice/1".
Definition SchemaManifest := "dag-input-manifest/1".

Definition NodeImplementation := "implementation".
Definition NodeNonPR := "non_pr".

Definition EdgeArtifactVerified := "artifact_verified".
Definition EdgeIntegrated := "integrated".
Definition EdgeDecision := "decision".

(** The twelve change operations. A [Change] holds its operation as a string; [op_of] is Go's [switch c.Op]. *)
Inductive Op : Type :=
| OpAddNode | OpUpdateNode | OpReplaceNode | OpRetireNode | OpAddEdge | OpRetireEdge
| OpPauseNode | OpResumeNode | OpCancelNode | OpArchiveNode | OpPausePlan | OpResumePlan.

#[export] Instance Op_eq_dec : EqDecision Op.
Proof. solve_decision. Defined.

Definition op_name (o : Op) : string :=
  match o with
  | OpAddNode => "add_node"
  | OpUpdateNode => "update_node"
  | OpReplaceNode => "replace_node"
  | OpRetireNode => "retire_node"
  | OpAddEdge => "add_edge"
  | OpRetireEdge => "retire_edge"
  | OpPauseNode => "pause_node"
  | OpResumeNode => "resume_node"
  | OpCancelNode => "cancel_node"
  | OpArchiveNode => "archive_node"
  | OpPausePlan => "pause_plan"
  | OpResumePlan => "resume_plan"
  end.

(** decode.go: allOps, in its order. *)
Definition allOps : list Op :=
  [OpAddNode; OpUpdateNode; OpReplaceNode; OpRetireNode; OpAddEdge; OpRetireEdge;
   OpPauseNode; OpResumeNode; OpCancelNode; OpArchiveNode; OpPausePlan; OpResumePlan].

Definition op_of (s : string) : option Op := List.find (λ o, bool_decide (op_name o = s)) allOps.

Lemma op_of_name o : op_of (op_name o) = Some o.
Proof. by destruct o. Qed.

Lemma op_of_Some s o : op_of s = Some o → s = op_name o.
Proof. intros H. apply List.find_some in H as [_ H]. by apply bool_decide_eq_true in H. Qed.

(** ** Limits *)
Definition MaxNodes : nat := 64.
Definition MaxEdges : nat := 256.
Definition MaxChanges : nat := 256.
Definition MaxDocumentBytes : Z := Z.shiftl 1 20.
Definition MaxIDLength : nat := 128.
Definition MaxTitleLength : nat := 256.
Definition MaxTextLength : nat := 512.
Definition MaxAuthorities : nat := 16.
Definition MaxAuthorityLength : nat := 256.

(** ** Structs *)
Record Node : Type := mkNode {
  NodeID : string;
  IssueKey : string;
  NKind : string;
  Title : string;
  CriteriaSetDigest : string
}.

Record Edge : Type := mkEdge {
  EdgeID : string;
  FromNodeID : string;
  ToNodeID : string;
  EKind : string;
  TargetRepository : string;
  TargetBaseRef : string;
  PinsCodeHead : bool;
  DecisionSubject : string;
  DecisionDigest : string;
  RequiredAuthority : list string
}.

#[export] Instance Node_eq_dec : EqDecision Node.
Proof. solve_decision. Defined.
#[export] Instance Edge_eq_dec : EqDecision Edge.
Proof. solve_decision. Defined.

(** A change as the Go struct has it: an operation and optional pointers. *)
Record Change : Type := mkChange {
  COp : string;
  CNode : option Node;
  CEdge : option Edge;
  CNodeID : string;
  CEdgeID : string;
  CSupersedesNodeID : string
}.

Record Revision : Type := mkRevision {
  RPlanID : string;
  RProjectKey : string;
  RRequestID : string;
  RExpectedParent : Z;
  RCoordinatorEpoch : Z;
  RAuthorTaskID : string;
  RChanges : list Change
}.

Record NodeVersion : Type := mkNodeVersion {
  NVNode : Node;
  NVSliceDigest : string;
  NVSupersedes : string;
  NVIntroducedRev : Z;
  NVRetiredRev : Z
}.

Record EdgeRow : Type := mkEdgeRow {
  EREdge : Edge;
  ERIntroducedRev : Z;
  ERRetiredRev : Z
}.

(** lifecycle.go: LifeRow *)
Record LifeRow : Type := mkLifeRow {
  LNodeID : string;
  LState : string;
  LIntroducedRev : Z;
  LRetiredRev : Z
}.

#[export] Instance NodeVersion_eq_dec : EqDecision NodeVersion.
Proof. solve_decision. Defined.
#[export] Instance EdgeRow_eq_dec : EqDecision EdgeRow.
Proof. solve_decision. Defined.
#[export] Instance LifeRow_eq_dec : EqDecision LifeRow.
Proof. solve_decision. Defined.

Record State : Type := mkState {
  SPlanID : string;
  SProjectKey : string;
  SRevision : Z;
  SNodes : list NodeVersion;
  SEdges : list EdgeRow;
  SLifecycle : list LifeRow
}.

(** Go's [State{}]. *)
Definition zero_State : State := mkState "" "" 0 [] [] [].

Record SnapNode : Type := mkSnapNode {
  SNNode : Node;
  SNSliceDigest : string;
  SNSupersedes : string;
  SNIntroducedRev : Z;
  SNLifecycle : string
}.

Record SnapEdge : Type := mkSnapEdge {
  SEEdge : Edge;
  SEIntroducedRev : Z
}.

Record Snapshot : Type := mkSnapshot {
  SnapPlanID : string;
  SnapProjectKey : string;
  SnapRevision : Z;
  SnapNodes : list SnapNode;
  SnapEdges : list SnapEdge;
  SnapStateDigest : string;
  SnapPlanState : string
}.

Record Event : Type := mkEvent {
  EvPlanID : string;
  EvRevisionNo : Z;
  EvParentRevisionNo : Z;
  EvRequestID : string;
  EvRequestDigest : string;
  EvCoordinatorEpoch : Z;
  EvAuthorTaskID : string;
  EvRecordedAt : string;
  EvChanges : list Change;
  EvStateDigest : string
}.

(** ** Violations *)

(** A detail text: literal pieces, and pieces printed with [%q] (strconv.Quote), which are kept unquoted. *)
Inductive piece : Type :=
| Lit (s : string)
| Quoted (s : string).

Record Violation : Type := mkViolation {
  VRule : string;
  VPath : string;
  VDetail : list piece
}.

Definition violation (rule path detail : string) : Violation := mkViolation rule path [Lit detail].

Definition RuleDuplicateKey := "duplicate_key".
Definition RuleNotAnObject := "not_an_object".
Definition RuleWrongType := "wrong_type".
Definition RuleUnknownField := "unknown_field".
Definition RuleMissingField := "missing_field".
Definition RuleEmptyValue := "empty_value".
Definition RuleBadIdentifier := "bad_identifier".
Definition RuleBadDigest := "bad_digest".
Definition RuleBadSchema := "bad_schema".
Definition RuleValueTooLong := "value_too_long".
Definition RuleDuplicateValue := "duplicate_value".
Definition RuleUnknownOp := "unknown_op".
Definition RuleUnknownNodeKind := "unknown_node_kind".
Definition RuleUnknownEdgeKind := "unknown_edge_kind".
Definition RuleEmptyChanges := "empty_changes".
Definition RuleLimitExceeded := "limit_exceeded".
Definition RuleProjectMismatch := "project_mismatch".
Definition RuleEmptyGraph := "empty_graph".
Definition RuleDuplicateNodeID := "duplicate_node_id".
Definition RuleDuplicateEdgeID := "duplicate_edge_id".
Definition RuleUnknownNode := "unknown_node".
Definition RuleUnknownEdge := "unknown_edge".
Definition RuleMissingPredecessor := "missing_predecessor".
Definition RuleMissingSuccessor := "missing_successor".
Definition RuleSelfReference := "self_reference".
Definition RuleCycle := "cycle".
Definition RuleEdgeFieldMissing := "edge_field_missing".
Definition RuleEdgeFieldNotApplicable := "edge_field_not_applicable".
Definition RuleOutputIntegratedNeedsImpl := "output_integrated_needs_implementation".
Definition RuleOutputDecisionNeedsNonPR := "output_decision_needs_non_pr".
Definition RuleBadText := "bad_text".
Definition RuleConflictingChanges := "conflicting_changes".
Definition RuleInvalidLifecycleTransition := "invalid_lifecycle_transition".

(** ** The objects a digest hashes (digest.go) *)

(** An entry present only when the text is not empty. *)
Definition opt_text (key s : string) : list (string * value) :=
  if bool_decide (s = "") then [] else [(key, VString s)].

Definition node_fields (n : Node) : list (string * value) :=
  [("node_id", VString (NodeID n)); ("issue_key", VString (IssueKey n)); ("kind", VString (NKind n));
   ("criteria_set_digest", VString (CriteriaSetDigest n))] ++ opt_text "title" (Title n).

Definition nodeObject (n : Node) : value := VMap (map_of (node_fields n)).

Definition authorityList (auth : list string) : value := VList (VString <$> sort_strings auth).

Definition edge_fields (e : Edge) : list (string * value) :=
  [("edge_id", VString (EdgeID e)); ("from_node_id", VString (FromNodeID e));
   ("to_node_id", VString (ToNodeID e)); ("kind", VString (EKind e))]
  ++ opt_text "target_repository" (TargetRepository e)
  ++ opt_text "target_base_ref" (TargetBaseRef e)
  ++ (if PinsCodeHead e then [("pins_code_head", VBool true)] else [])
  ++ opt_text "decision_subject" (DecisionSubject e)
  ++ opt_text "decision_digest" (DecisionDigest e)
  ++ (if (0 <? length (RequiredAuthority e))%nat then [("required_authority", authorityList (RequiredAuthority e))] else []).

Definition edgeObject (e : Edge) : value := VMap (map_of (edge_fields e)).

(** [None] is the panic of [*c.Node] or [*c.Edge] on a nil pointer. *)
Definition changeObject (c : Change) : option value :=
  let op := ("op", VString (COp c)) in
  let obj fs := Some (VMap (map_of (op :: fs))) in
  match op_of (COp c) with
  | Some OpAddNode | Some OpUpdateNode =>
    match CNode c with Some n => obj [("node", nodeObject n)] | None => None end
  | Some OpReplaceNode =>
    match CNode c with
    | Some n => obj [("node", nodeObject n); ("supersedes_node_id", VString (CSupersedesNodeID c))]
    | None => None
    end
  | Some OpRetireNode | Some OpPauseNode | Some OpResumeNode | Some OpCancelNode | Some OpArchiveNode =>
    obj [("node_id", VString (CNodeID c))]
  | Some OpAddEdge =>
    match CEdge c with Some e => obj [("edge", edgeObject e)] | None => None end
  | Some OpRetireEdge => obj [("edge_id", VString (CEdgeID c))]
  | Some OpPausePlan | Some OpResumePlan | None => obj []
  end.

Definition changeObjects (cs : list Change) : option (list value) := mapM changeObject cs.

Definition ChangesJSON (cs : list Change) : option string :=
  (λ l, canonical (VList l)) <$> changeObjects cs.

Definition SliceDigest (n : Node) (incoming : list Edge) : string :=
  Digest (VMap (map_of
    [("schema", VString SchemaSlice); ("node", nodeObject n);
     ("incoming", VList (edgeObject <$> sort_by EdgeID incoming))])).

Definition snap_node_object (n : SnapNode) : value :=
  VMap (map_of (node_fields (SNNode n) ++ [("slice_digest", VString (SNSliceDigest n))]
    ++ opt_text "supersedes_node_id" (SNSupersedes n) ++ opt_text "lifecycle" (SNLifecycle n))).

Definition stateDigest (planID project planState : string) (nodes : list SnapNode) (edges : list SnapEdge) : string :=
  Digest (VMap (map_of
    ([("schema", VString SchemaSnapshot); ("plan_id", VString planID); ("project_key", VString project);
      ("nodes", VList (snap_node_object <$> nodes)); ("edges", VList ((λ e, edgeObject (SEEdge e)) <$> edges))]
     ++ opt_text "plan_state" planState))).

Definition RequestDigest (r : Revision) : option string :=
  (λ changes, Digest (VMap (map_of
    [("schema", VString SchemaRevision); ("plan_id", VString (RPlanID r)); ("project_key", VString (RProjectKey r));
     ("request_id", VString (RRequestID r)); ("expected_parent_revision", VInt (RExpectedParent r));
     ("coordinator_epoch", VInt (RCoordinatorEpoch r)); ("author_task_id", VString (RAuthorTaskID r));
     ("changes", VList changes)]))) <$> changeObjects (RChanges r).

(** The digest of a node's slice does not depend on the order its incoming edges are given in, as long as no
    two of them share an id: the Go code collects them from a map. *)
Lemma SliceDigest_perm n es1 es2 :
  NoDup (EdgeID <$> es1) → es1 ≡ₚ es2 → SliceDigest n es1 = SliceDigest n es2.
Proof. intros. unfold SliceDigest. by rewrite (sort_by_unique EdgeID es1 es2). Qed.

Arguments SliceDigest : simpl never.
Arguments stateDigest : simpl never.
Arguments RequestDigest : simpl never.
