(* ===== verification/DagLifecycle.v ===== *)
(** * DagLifecycle: pausing, resuming, cancelling and archiving (internal/relay/dag/lifecycle.go).

    A lifecycle state is a string ([""] is active); the fold keeps a history of [LifeRow]s. The file gives the
    functions of lifecycle.go, an abstract state machine over one state per subject, and the proof that the history
    rows implement it. *)
From S2P Require Import Prelude GoLib Json DagModel.
Local Open Scope string_scope.

Definition LifePaused := "paused".
Definition LifeCancelled := "cancelled".
Definition LifeArchived := "archived".

(** [transitions[op][from]]: [None] when the table has no entry. *)
Definition transitions (o : Op) (from : string) : option string :=
  match o with
  | OpPauseNode | OpPausePlan => if bool_decide (from = "") then Some LifePaused else None
  | OpResumeNode | OpResumePlan => if bool_decide (from = LifePaused) then Some "" else None
  | OpCancelNode =>
    if bool_decide (from = "" ∨ from = LifePaused) then Some LifeCancelled else None
  | OpArchiveNode =>
    if bool_decide (from = "" ∨ from = LifePaused) then Some LifeArchived else None
  | _ => None
  end.

(** [_, ok := transitions[op]] *)
Definition is_lifecycle (o : Op) : bool :=
  match o with
  | OpPauseNode | OpResumeNode | OpCancelNode | OpArchiveNode | OpPausePlan | OpResumePlan => true
  | _ => false
  end.

Definition IsLifecycleOp (op : string) : bool :=
  match op_of op with Some o => is_lifecycle o | None => false end.

Definition isNodeLifecycleOp (op : string) : bool :=
  IsLifecycleOp op && negb (bool_decide (op = op_name OpPausePlan)) && negb (bool_decide (op = op_name OpResumePlan)).

(** The subject's lifecycle state after the rows. *)
Fixpoint currentLife (rows : list LifeRow) (node : string) : string :=
  match rows with
  | [] => ""
  | r :: rows' =>
    if bool_decide (LNodeID r = node) && (LRetiredRev r =? 0)%Z then LState r else currentLife rows' node
  end.

(** Why [op] cannot move a subject out of [from]; [""] when it can. *)
Definition transitionRefusal (op : Op) (subject from : string) : string :=
  match transitions op from with
  | Some _ => ""
  | None =>
    if bool_decide (from = LifeCancelled ∨ from = LifeArchived) then
      subject +:+ " is " +:+ from +:+ ", which is final: no change of the plan reopens it, so a cancel is never reverted (to do the work again, replace the node)"
    else if bool_decide (op = OpResumeNode ∨ op = OpResumePlan) then
      subject +:+ " is not paused, so there is nothing to resume"
    else subject +:+ " is already paused"
  end.

(** The subject a lifecycle change addresses: its node, or [""] for the plan. *)
Definition life_subject (c : Change) : string := if isNodeLifecycleOp (COp c) then CNodeID c else "".

(** [for i := range out { if out[i].NodeID == node && out[i].RetiredRev == 0 { out[i].RetiredRev = rev } }] *)
Definition retire_row (node : string) (rev : Z) (r : LifeRow) : LifeRow :=
  if bool_decide (LNodeID r = node) && (LRetiredRev r =? 0)%Z
  then mkLifeRow (LNodeID r) (LState r) (LIntroducedRev r) rev else r.

Definition life_move (rev : Z) (node to : string) (rows : list LifeRow) : list LifeRow :=
  (retire_row node rev <$> rows) ++ (if bool_decide (to = "") then [] else [mkLifeRow node to rev 0]).

Definition applyLifecycle_step (rev : Z) (out : list LifeRow) (c : Change) : result string (list LifeRow) :=
  match op_of (COp c) with
  | None => Ok out
  | Some o =>
    if is_lifecycle o then
      let node := life_subject c in
      let from := currentLife out node in
      match transitions o from with
      | Some to => Ok (life_move rev node to out)
      | None =>
        let subject := if bool_decide (node = "") then "plan" else "node " +:+ node in
        Err (COp c +:+ ": " +:+ transitionRefusal o subject from)
      end
    else Ok out
  end.

Fixpoint applyLifecycle (rows : list LifeRow) (rev : Z) (changes : list Change) : result string (list LifeRow) :=
  match changes with
  | [] => Ok rows
  | c :: changes' =>
    match applyLifecycle_step rev rows c with
    | Ok out => applyLifecycle out rev changes'
    | Err e => Err e
    end
  end.

(** Whether a row covers revision [rev]. *)
Definition life_covers (rev : Z) (r : LifeRow) : bool :=
  negb ((rev <? LIntroducedRev r)%Z || (negb (LRetiredRev r =? 0)%Z && (LRetiredRev r <=? rev)%Z)).

(** The lifecycle of the plan, and of each node that is not active, as of [rev]. *)
Definition lifeAt (rows : list LifeRow) (rev : Z) : string * gmap string string :=
  foldl (λ acc r,
    if life_covers rev r then
      if bool_decide (LNodeID r = "") then (LState r, snd acc) else (fst acc, <[LNodeID r := LState r]> (snd acc))
    else acc) ("", ∅) rows.

(** Equality of two histories as multisets of rows. *)
Definition count_row (r : LifeRow) (l : list LifeRow) : nat := length (filter (λ x, x = r) l).
Definition sameLife (a b : list LifeRow) : bool :=
  bool_decide (length a = length b) && forallb (λ r, count_row r a =? count_row r b)%nat (a ++ b).

(** ** The abstract machine: one state per subject *)

Definition life_step (f : string → string) (c : Change) : option (string → string) :=
  match op_of (COp c) with
  | None => Some f
  | Some o =>
    if is_lifecycle o then
      to ← transitions o (f (life_subject c)); Some (<[life_subject c := to]> f)
    else Some f
  end.

Fixpoint life_run (f : string → string) (cs : list Change) : option (string → string) :=
  match cs with
  | [] => Some f
  | c :: cs' => f' ← life_step f c; life_run f' cs'
  end.

(** ** Refinement *)

Definition life_view (rows : list LifeRow) (f : string → string) : Prop := ∀ s, currentLife rows s = f s.

Lemma currentLife_app rows1 rows2 s :
  (∀ r, r ∈ rows1 → LState r ≠ "") →
  currentLife (rows1 ++ rows2) s =
  if bool_decide (currentLife rows1 s = "") then currentLife rows2 s else currentLife rows1 s.
Proof.
  intros Hne. induction rows1 as [|r rows1 IH]; simpl; [done|].
  destruct (_ && _) eqn:E; [|apply IH; intros; apply Hne; by right].
  rewrite bool_decide_eq_false_2; [done|]. apply Hne. by left.
Qed.

Lemma currentLife_retire node rev rows s :
  rev ≠ 0%Z →
  currentLife (retire_row node rev <$> rows) s = if bool_decide (s = node) then "" else currentLife rows s.
Proof.
  intros Hrev. induction rows as [|r rows IH]; csimpl; [by case_bool_decide|].
  rewrite IH; clear IH. unfold retire_row.
  destruct (bool_decide (LNodeID r = node) && (LRetiredRev r =? 0)%Z) eqn:E; simpl.
  - apply andb_true_iff in E as [E1 E2]. apply bool_decide_eq_true in E1; subst.
    destruct (Z.eqb_spec rev 0); [done|]. rewrite E2, andb_false_r.
    repeat case_bool_decide; simpl; congruence.
  - destruct (decide (s = node)) as [->|Hs].
    + by rewrite E, bool_decide_eq_true_2.
    + by rewrite (bool_decide_eq_false_2 (s = node)).
Qed.

Definition life_states (rows : list LifeRow) : Prop := ∀ r, r ∈ rows → LState r ≠ "".

Lemma life_states_retire node rev rows : life_states rows → life_states (retire_row node rev <$> rows).
Proof.
  intros H r (r' & -> & Hr)%list_elem_of_fmap. unfold retire_row.
  destruct (_ && _); simpl; by apply H.
Qed.

Lemma life_states_move rev node to rows : life_states rows → life_states (life_move rev node to rows).
Proof.
  intros H r. unfold life_move. rewrite elem_of_app. intros [Hr|Hr].
  - by eapply life_states_retire.
  - case_bool_decide; [by apply elem_of_nil in Hr|]. by apply list_elem_of_singleton in Hr as ->.
Qed.

Lemma life_move_view rev node to rows f :
  rev ≠ 0%Z → life_states rows → life_view rows f →
  life_view (life_move rev node to rows) (<[node := to]> f).
Proof.
  intros Hrev Hne Hv s. unfold life_move.
  rewrite currentLife_app by (by apply life_states_retire).
  rewrite currentLife_retire by done. destruct (decide (s = node)) as [->|Hs].
  - rewrite (bool_decide_eq_true_2 (node = node)) by done. rewrite bool_decide_eq_true_2 by done.
    rewrite fn_lookup_insert.
    case_bool_decide as Ht; simpl; [done|]. by rewrite bool_decide_eq_true_2.
  - rewrite (bool_decide_eq_false_2 (s = node)) by done. rewrite fn_lookup_insert_ne by done.
    rewrite <- (Hv s). case_bool_decide as Hc; [|done]. rewrite Hc.
    case_bool_decide as Ht; simpl; [done|]. by rewrite bool_decide_eq_false_2 by done.
Qed.

Lemma applyLifecycle_step_refines rev rows c f :
  rev ≠ 0%Z → life_states rows → life_view rows f →
  match applyLifecycle_step rev rows c, life_step f c with
  | Ok rows', Some f' => life_view rows' f' ∧ life_states rows'
  | Err _, None => True
  | _, _ => False
  end.
Proof.
  intros Hrev Hne Hv. unfold applyLifecycle_step, life_step.
  destruct (op_of (COp c)) as [o|]; [|done]. destruct (is_lifecycle o); [|done].
  rewrite (Hv (life_subject c)). destruct (transitions o (f (life_subject c))) as [to|]; simpl; [|done].
  split; [by apply life_move_view|by apply life_states_move].
Qed.

Lemma applyLifecycle_refines_gen rev cs : ∀ rows f,
  rev ≠ 0%Z → life_states rows → life_view rows f →
  match applyLifecycle rows rev cs, life_run f cs with
  | Ok rows', Some f' => life_view rows' f' ∧ life_states rows'
  | Err _, None => True
  | _, _ => False
  end.
Proof.
  induction cs as [|c cs IH]; intros rows f Hrev Hne Hv; simpl; [done|].
  pose proof (applyLifecycle_step_refines rev rows c f Hrev Hne Hv) as Hstep.
  destruct (applyLifecycle_step rev rows c) as [rows'|e], (life_step f c) as [f'|]; simpl in *; try done.
  destruct Hstep as [Hv' Hne']. by apply IH.
Qed.

(** ** Finality *)

Definition final (s : string) : Prop := s = LifeCancelled ∨ s = LifeArchived.

Lemma transitions_final o s : final s → transitions o s = None.
Proof. by intros [-> | ->]; destruct o. Qed.

Lemma life_step_final f c f' s : final (f s) → life_step f c = Some f' → f' s = f s.
Proof.
  unfold life_step. intros Hf H. destruct (op_of (COp c)) as [o|]; [|by simplify_eq].
  destruct (is_lifecycle o); [|by simplify_eq].
  destruct (transitions o (f (life_subject c))) as [to|] eqn:E; simplify_eq/=.
  destruct (decide (s = life_subject c)) as [->|Hs]; [|by rewrite fn_lookup_insert_ne].
  by rewrite transitions_final in E.
Qed.

Lemma life_run_final cs : ∀ f f' s, final (f s) → life_run f cs = Some f' → f' s = f s.
Proof.
  induction cs as [|c cs IH]; intros f f' s Hf H; simplify_eq/=; [done|].
  destruct (life_step f c) as [f1|] eqn:E; simplify_eq/=.
  pose proof (life_step_final _ _ _ _ Hf E) as E1. rewrite <- E1.
  apply (IH f1); [by rewrite E1|done].
Qed.

(** ** The past of a history does not change *)

Lemma life_covers_retire node rev r q :
  (q < rev)%Z → life_covers q (retire_row node rev r) = life_covers q r.
Proof.
  intros Hq. unfold retire_row, life_covers.
  destruct (bool_decide (LNodeID r = node) && (LRetiredRev r =? 0)%Z) eqn:C; [|done].
  apply andb_true_iff in C as [_ C]. simpl. rewrite C. simpl.
  destruct (Z.leb_spec rev q); [lia|]. by rewrite andb_false_r.
Qed.

(** Lookup of a subject's state as of a revision. *)
Definition lifeOf (rows : list LifeRow) (rev : Z) (s : string) : string :=
  if bool_decide (s = "") then fst (lifeAt rows rev) else default "" (snd (lifeAt rows rev) !! s).

Lemma lifeAt_snoc rows r q :
  lifeAt (rows ++ [r]) q =
  (let acc := lifeAt rows q in
   if life_covers q r then
     if bool_decide (LNodeID r = "") then (LState r, snd acc) else (fst acc, <[LNodeID r := LState r]> (snd acc))
   else acc).
Proof. unfold lifeAt. by rewrite foldl_app. Qed.

Lemma lifeOf_snoc rows r q s :
  lifeOf (rows ++ [r]) q s = if life_covers q r && bool_decide (LNodeID r = s) then LState r else lifeOf rows q s.
Proof.
  unfold lifeOf. rewrite lifeAt_snoc; simpl. destruct (life_covers q r); simpl; [|done].
  destruct (decide (LNodeID r = s)) as [->|Hs].
  - rewrite (bool_decide_eq_true_2 (s = s)) by done. case_bool_decide; simpl; [done|]. by rewrite lookup_insert_eq.
  - rewrite (bool_decide_eq_false_2 (LNodeID r = s)) by done.
    destruct (decide (LNodeID r = "")) as [E|E].
    + rewrite (bool_decide_eq_true_2 (LNodeID r = "")) by done. simpl.
      rewrite !bool_decide_eq_false_2 by congruence. done.
    + rewrite (bool_decide_eq_false_2 (LNodeID r = "")) by done. simpl. by rewrite lookup_insert_ne.
Qed.

(** The two components of [lifeAt] are determined by [lifeOf]. *)
Lemma lifeAt_move_past rev node to rows q :
  (q < rev)%Z → lifeAt (life_move rev node to rows) q = lifeAt rows q.
Proof.
  intros Hq. unfold life_move.
  assert (lifeAt (retire_row node rev <$> rows) q = lifeAt rows q) as E.
  { induction rows as [|r rows IH] using rev_ind; [done|].
    rewrite fmap_app. change (retire_row node rev <$> [r]) with [retire_row node rev r].
    rewrite !lifeAt_snoc, IH, life_covers_retire by done.
    unfold retire_row. by destruct (_ && _). }
  case_bool_decide; [by rewrite app_nil_r|].
  rewrite lifeAt_snoc, E. unfold life_covers; simpl.
  destruct (Z.ltb_spec q rev); [done|lia].
Qed.

(** Snapshots of the past see the same lifecycle after any later revision. *)
Lemma applyLifecycle_past cs : ∀ rows rows' rev q,
  (q < rev)%Z → applyLifecycle rows rev cs = Ok rows' → lifeAt rows' q = lifeAt rows q.
Proof.
  induction cs as [|c cs IH]; intros rows rows' rev q Hq H; simplify_eq/=; [done|].
  destruct (applyLifecycle_step rev rows c) as [out|e] eqn:E; simplify_eq/=.
  rewrite (IH out rows' rev q Hq H). unfold applyLifecycle_step in E.
  repeat case_in E; simplify_eq; try done. by apply lifeAt_move_past.
Qed.

(** ** The invariant of a history at revision [rev] *)

Definition life_open (r : LifeRow) : Prop := LRetiredRev r = 0%Z.
#[export] Instance life_open_dec r : Decision (life_open r).
Proof. unfold life_open. apply _. Defined.

Record life_inv (rev : Z) (rows : list LifeRow) : Prop := {
  li_states : life_states rows;
  li_intro : ∀ r, r ∈ rows → (1 ≤ LIntroducedRev r ≤ rev)%Z;
  li_retired : ∀ r, r ∈ rows → LRetiredRev r = 0%Z ∨ (LIntroducedRev r ≤ LRetiredRev r ≤ rev)%Z;
  li_open : NoDup (LNodeID <$> filter life_open rows)
}.

Lemma life_inv_nil rev : life_inv rev [].
Proof. split; try (by intros r ?%elem_of_nil); constructor. Qed.

Lemma life_inv_mono rev rev' rows : (rev ≤ rev')%Z → life_inv rev rows → life_inv rev' rows.
Proof.
  intros Hle [H1 H2 H3 H4]. split; [done| | |done].
  - intros r Hr. specialize (H2 r Hr). lia.
  - intros r Hr. specialize (H3 r Hr). lia.
Qed.

Lemma retire_row_hit node rev r :
  LNodeID r = node → life_open r →
  retire_row node rev r = mkLifeRow (LNodeID r) (LState r) (LIntroducedRev r) rev.
Proof.
  intros Hn Ho. unfold retire_row. rewrite bool_decide_eq_true_2 by done.
  by rewrite (proj2 (Z.eqb_eq _ _) Ho).
Qed.

Lemma retire_row_miss node rev r :
  LNodeID r ≠ node ∨ ¬ life_open r → retire_row node rev r = r.
Proof.
  intros H. unfold retire_row. case_bool_decide; [|done]. destruct (Z.eqb_spec (LRetiredRev r) 0); [|done].
  exfalso. unfold life_open in H. tauto.
Qed.

Lemma retire_row_open node rev (rows : list LifeRow) :
  rev ≠ 0%Z →
  LNodeID <$> filter life_open (retire_row node rev <$> rows)
  = filter (λ s, s ≠ node) (LNodeID <$> filter life_open rows).
Proof.
  intros Hrev. induction rows as [|r rows IH]; csimpl; [done|].
  rewrite !filter_cons. destruct (decide (life_open r)) as [Ho|Ho].
  - csimpl. rewrite filter_cons. destruct (decide (LNodeID r = node)) as [Hn|Hn].
    + rewrite (retire_row_hit node rev r) by done. rewrite decide_False by (by unfold life_open).
      rewrite decide_False by tauto. done.
    + rewrite retire_row_miss by auto. rewrite !decide_True by done. csimpl. by rewrite IH.
  - rewrite retire_row_miss by auto. by rewrite decide_False.
Qed.

Lemma life_inv_move rev node to rows :
  (1 ≤ rev)%Z → life_inv rev rows → life_inv rev (life_move rev node to rows).
Proof.
  intros Hrev [H1 H2 H3 H4]. split.
  - by apply life_states_move.
  - intros r. unfold life_move. rewrite elem_of_app. intros [(r' & -> & Hr)%list_elem_of_fmap|Hr].
    + specialize (H2 r' Hr). unfold retire_row. by destruct (_ && _).
    + case_bool_decide; [by apply elem_of_nil in Hr|]. apply list_elem_of_singleton in Hr as ->; simpl; lia.
  - intros r. unfold life_move. rewrite elem_of_app. intros [(r' & -> & Hr)%list_elem_of_fmap|Hr].
    + specialize (H2 r' Hr). specialize (H3 r' Hr). unfold retire_row. destruct (_ && _); simpl; lia.
    + case_bool_decide; [by apply elem_of_nil in Hr|]. apply list_elem_of_singleton in Hr as ->; simpl; lia.
  - unfold life_move. rewrite filter_app, fmap_app, retire_row_open by lia.
    apply NoDup_app. split; [by apply NoDup_filter|]. case_bool_decide.
    + split; [|constructor]. by intros ? _ ?%elem_of_nil.
    + rewrite filter_cons, decide_True, filter_nil by done. csimpl. split; [|apply NoDup_singleton].
      intros s Hs ->%list_elem_of_singleton. apply list_elem_of_filter in Hs as [Hs _]. done.
Qed.

Lemma applyLifecycle_inv cs : ∀ rows rows' rev,
  (1 ≤ rev)%Z → life_inv rev rows → applyLifecycle rows rev cs = Ok rows' → life_inv rev rows'.
Proof.
  induction cs as [|c cs IH]; intros rows rows' rev Hrev Hi H; simplify_eq/=; [done|].
  destruct (applyLifecycle_step rev rows c) as [out|e] eqn:E; simplify_eq/=.
  eapply IH; [done| |done]. unfold applyLifecycle_step in E.
  repeat case_in E; simplify_eq; try done. by apply life_inv_move.
Qed.

Lemma currentLife_notin (rows : list LifeRow) s :
  s ∉ (LNodeID <$> filter life_open rows) → currentLife rows s = "".
Proof.
  induction rows as [|r rows IH]; simpl; [done|]. rewrite filter_cons.
  destruct (decide (life_open r)) as [Ho|Ho]; csimpl; intros Hs.
  - apply not_elem_of_cons in Hs as [Hs1 Hs2]. rewrite bool_decide_eq_false_2 by congruence. simpl. auto.
  - assert ((LRetiredRev r =? 0)%Z = false) as -> by (by apply Z.eqb_neq). rewrite andb_false_r. auto.
Qed.

(** At the revision the history ends at, the snapshot's lifecycle is the current one. *)
Lemma lifeOf_current rev rows s : life_inv rev rows → lifeOf rows rev s = currentLife rows s.
Proof.
  induction rows as [|r rows IH] using rev_ind; intros Hi; [unfold lifeOf; by case_bool_decide|].
  assert (life_inv rev rows) as Hi'.
  { destruct Hi as [H1 H2 H3 H4]. split.
    - intros x Hx. apply H1, elem_of_app; by left.
    - intros x Hx. apply H2, elem_of_app; by left.
    - intros x Hx. apply H3, elem_of_app; by left.
    - rewrite filter_app, fmap_app in H4. by apply NoDup_app in H4 as [? _]. }
  rewrite lifeOf_snoc, IH by done.
  rewrite currentLife_app by (apply (li_states _ _ Hi')). simpl.
  assert (life_covers rev r = (LRetiredRev r =? 0)%Z) as ->.
  { assert (r ∈ (rows ++ [r])%list) as Hr by (apply elem_of_app; right; by left).
    pose proof (li_intro _ _ Hi r Hr). pose proof (li_retired _ _ Hi r Hr).
    unfold life_covers. destruct (Z.ltb_spec rev (LIntroducedRev r)); [lia|]. simpl.
    destruct (Z.eqb_spec (LRetiredRev r) 0); simpl; [done|]. destruct (Z.leb_spec (LRetiredRev r) rev); [done|lia]. }
  rewrite (andb_comm (LRetiredRev r =? 0)%Z).
  destruct (bool_decide (LNodeID r = s) && (LRetiredRev r =? 0)%Z) eqn:E.
  2:{ clear E. by case_bool_decide. }
  apply andb_true_iff in E as [Hs%bool_decide_eq_true E]. apply Z.eqb_eq in E.
  rewrite bool_decide_eq_true_2; [done|]. apply currentLife_notin. intros Hin.
  pose proof (li_open _ _ Hi) as Hnd. rewrite filter_app, fmap_app in Hnd.
  apply NoDup_app in Hnd as (_ & Hd & _). apply (Hd _ Hin).
  rewrite filter_cons, decide_True by done. csimpl. subst. by left.
Qed.


(** Every row belongs to a subject the history had, or to the subject of a lifecycle change. *)
Lemma applyLifecycle_subjects cs : ∀ rows rows' rev r,
  applyLifecycle rows rev cs = Ok rows' → r ∈ rows' →
  (∃ r0, r0 ∈ rows ∧ LNodeID r0 = LNodeID r) ∨ (∃ c, c ∈ cs ∧ life_subject c = LNodeID r).
Proof.
  induction cs as [|c cs IH]; intros rows rows' rev r H Hr; simplify_eq/=; [eauto|].
  destruct (applyLifecycle_step rev rows c) as [out|e] eqn:E; simplify_eq/=.
  destruct (IH out rows' rev r H Hr) as [(r0 & Hr0 & Hid)|(c' & Hc' & Hid)].
  2:{ right. exists c'. split; [by right|done]. }
  unfold applyLifecycle_step in E. repeat case_in E; simplify_eq; eauto.
  unfold life_move in Hr0. apply elem_of_app in Hr0 as [(r1 & -> & Hr1)%list_elem_of_fmap|Hr0].
  - left. exists r1. split; [done|]. rewrite <- Hid. unfold retire_row. by destruct (_ && _).
  - right. exists c. split; [by left|]. case_bool_decide; [by apply elem_of_nil in Hr0|].
    apply list_elem_of_singleton in Hr0 as ->. done.
Qed.
