(* ===== verification/DagGraph.v ===== *)
(** * DagGraph: what an edge may join, and the search for a cycle (internal/relay/dag/fold.go).

    [checkEdge] is the output matrix of the contract. [findCycle] is Kahn's algorithm followed by a walk over
    predecessors; a Go map is ranged over in an unspecified order, so the order in which the start nodes are queued is an
    argument ([findCycle_run]), and the loops run on fuel that is shown to be enough. *)
From stdpp Require Import relations.
From stdpp Require Export list.
From S2P Require Import Prelude GoLib Json DagModel.
Local Open Scope string_scope.
Record liveNode : Type := mkLiveNode {
  LNNode : Node;
  LNSupersedes : string
}.

(** ** checkEdge *)

Definition edge_field_names : list string :=
  ["pins_code_head"; "target_repository"; "target_base_ref"; "decision_subject"; "decision_digest"; "required_authority"].

Definition field_present (e : Edge) (f : string) : bool :=
  if bool_decide (f = "pins_code_head") then PinsCodeHead e
  else if bool_decide (f = "target_repository") then negb (bool_decide (TargetRepository e = ""))
  else if bool_decide (f = "target_base_ref") then negb (bool_decide (TargetBaseRef e = ""))
  else if bool_decide (f = "decision_subject") then negb (bool_decide (DecisionSubject e = ""))
  else if bool_decide (f = "decision_digest") then negb (bool_decide (DecisionDigest e = ""))
  else if bool_decide (f = "required_authority") then (0 <? length (RequiredAuthority e))%nat
  else false.

Definition field_allowed (kind f : string) : bool :=
  if bool_decide (kind = EdgeArtifactVerified) then
    bool_decide (f ∈ ["pins_code_head"; "target_repository"; "target_base_ref"])
  else if bool_decide (kind = EdgeIntegrated) then bool_decide (f ∈ ["target_repository"; "target_base_ref"])
  else if bool_decide (kind = EdgeDecision) then
    bool_decide (f ∈ ["decision_subject"; "decision_digest"; "required_authority"])
  else false.

(** [need(fields...)]: the fields that are missing. *)
Definition missing_of (e : Edge) (fields : list string) : list string :=
  filter (λ f, field_present e f = false) fields.

Definition present_of (e : Edge) (fields : list string) : list string :=
  filter (λ f, field_present e f = true) fields.

Definition code_fields : list string := ["pins_code_head"; "target_repository"; "target_base_ref"].

(** The rules of the edge's kind, given the kind of the node it leaves. *)
Definition kind_rules (e : Edge) (fromKind path : string) : list Violation :=
  if bool_decide (EKind e = EdgeArtifactVerified) then
    if bool_decide (fromKind = NodeImplementation) then
      let missing := missing_of e code_fields in
      if bool_decide (missing = []) then []
      else [violation RuleEdgeFieldMissing path
        ("artifact_verified edge " +:+ EdgeID e +:+ " leaves implementation node " +:+ FromNodeID e
         +:+ ", so it consumes a code artifact and must set " +:+ join_sep ", " missing)]
    else
      let extra := present_of e code_fields in
      if bool_decide (extra = []) then []
      else [violation RuleEdgeFieldNotApplicable path
        ("artifact_verified edge " +:+ EdgeID e +:+ " leaves non_pr node " +:+ FromNodeID e
         +:+ ", whose artifact is not code, so it cannot set " +:+ join_sep ", " extra)]
  else if bool_decide (EKind e = EdgeIntegrated) then
    let missing := missing_of e ["target_repository"; "target_base_ref"] in
    (if bool_decide (fromKind = NodeImplementation) then []
     else [violation RuleOutputIntegratedNeedsImpl path
       ("integrated edge " +:+ EdgeID e +:+ " leaves " +:+ fromKind +:+ " node " +:+ FromNodeID e
        +:+ "; only an implementation node (one PR) can be integrated")]) ++
    (if bool_decide (missing = []) then []
     else [violation RuleEdgeFieldMissing path
       ("integrated edge " +:+ EdgeID e +:+ " must set " +:+ join_sep ", " missing)])
  else if bool_decide (EKind e = EdgeDecision) then
    let missing := missing_of e ["decision_subject"; "decision_digest"; "required_authority"] in
    (if bool_decide (fromKind = NodeImplementation) then
       [violation RuleOutputDecisionNeedsNonPR path
         ("decision edge " +:+ EdgeID e +:+ " leaves implementation node " +:+ FromNodeID e
          +:+ "; a decision follows a non_pr node")]
     else []) ++
    (if bool_decide (missing = []) then []
     else [violation RuleEdgeFieldMissing path
       ("decision edge " +:+ EdgeID e +:+ " must set " +:+ join_sep ", " missing
        +:+ " (required_authority must name at least one authority)")])
  else [].

Definition stray_rule (e : Edge) (path : string) : list Violation :=
  let stray := filter (λ f, field_present e f && negb (field_allowed (EKind e) f) = true) edge_field_names in
  if bool_decide (stray = []) then []
  else [violation RuleEdgeFieldNotApplicable path
    (EKind e +:+ " edge " +:+ EdgeID e +:+ " cannot set " +:+ join_sep ", " stray)].

Definition checkEdge (e : Edge) (nodes : gmap string liveNode) (path : string) : list Violation :=
  if bool_decide (FromNodeID e = ToNodeID e) then
    [violation RuleSelfReference path
      ("edge " +:+ EdgeID e +:+ " points from node " +:+ FromNodeID e +:+ " to itself")]
  else
    match nodes !! FromNodeID e, nodes !! ToNodeID e with
    | Some from, Some _ => kind_rules e (NKind (LNNode from)) path ++ stray_rule e path
    | from, to =>
      match from with
      | Some _ => []
      | None => [violation RuleMissingPredecessor path
          ("edge " +:+ EdgeID e +:+ " starts at node " +:+ FromNodeID e +:+ ", which is not in the plan")]
      end ++
      match to with
      | Some _ => []
      | None => [violation RuleMissingSuccessor path
          ("edge " +:+ EdgeID e +:+ " ends at node " +:+ ToNodeID e +:+ ", which is not in the plan")]
      end
    end.

(** ** findCycle *)

(** The edges the search follows: neither end missing, not a self-reference. *)
Definition follows (nodes : gmap string liveNode) (e : Edge) : bool :=
  negb (bool_decide (FromNodeID e = ToNodeID e)) &&
  bool_decide (is_Some (nodes !! FromNodeID e)) && bool_decide (is_Some (nodes !! ToNodeID e)).

Record adjacency : Type := mkAdjacency {
  indegree : gmap string Z;
  outs : gmap string (list string);
  ins : gmap string (list string)
}.

(** [m[k] = append(m[k], x)] *)
Definition append_at (m : gmap string (list string)) (k x : string) : gmap string (list string) :=
  <[k := (default [] (m !! k) ++ [x])%list]> m.

Definition add_arc (nodes : gmap string liveNode) (edges : gmap string Edge) (a : adjacency) (id : string) : adjacency :=
  match edges !! id with
  | Some e =>
    if follows nodes e then
      mkAdjacency (<[ToNodeID e := (default 0 (indegree a !! ToNodeID e) + 1)%Z]> (indegree a))
        (append_at (outs a) (FromNodeID e) (ToNodeID e))
        (append_at (ins a) (ToNodeID e) (FromNodeID e))
    else a
  | None => a
  end.

Definition build_adjacency (nodes : gmap string liveNode) (edges : gmap string Edge) : adjacency :=
  foldl (add_arc nodes edges) (mkAdjacency ((λ _, 0%Z) <$> nodes) ∅ ∅) (sorted_keys edges).

(** The inner loop of Kahn's algorithm: one decrement per outgoing edge. *)
Fixpoint relax (tos : list string) (indeg : gmap string Z) (queue : list string) : gmap string Z * list string :=
  match tos with
  | [] => (indeg, queue)
  | to :: tos' =>
    let d := (default 0 (indeg !! to) - 1)%Z in
    relax tos' (<[to := d]> indeg) (if (d =? 0)%Z then (queue ++ [to])%list else queue)
  end.

(** The outer loop; [None] when the fuel runs out with nodes still queued. *)
Fixpoint kahn (fuel : nat) (out : gmap string (list string)) (queue : list string) (indeg : gmap string Z)
    (removed : gset string) : option (gset string) :=
  match queue with
  | [] => Some removed
  | id :: queue' =>
    match fuel with
    | O => None
    | S fuel' =>
      let '(indeg', queue'') := relax (default [] (out !! id)) indeg queue' in
      kahn fuel' out queue'' indeg' ({[id]} ∪ removed)
    end
  end.

(** The index of the smallest id of the cycle, the first of equals. *)
Fixpoint lowest (i low : nat) (best : string) (l : list string) : nat :=
  match l with
  | [] => low
  | x :: l' => if String.ltb x best then lowest (S i) i x l' else lowest (S i) low best l'
  end.

Definition rotate_lowest (c : list string) : list string :=
  let low := match c with [] => 0%nat | x :: _ => lowest 0 0 x c end in
  (drop low c ++ take low c)%list.

(** The cycle as it is reported: read along the edges, from its smallest id, closed by that id. *)
Definition cycle_path (back : list string) : list string :=
  let c := rotate_lowest (reverse back) in
  (c ++ take 1 c)%list.

Definition cycle_violation (path : list string) : Violation :=
  violation RuleCycle "plan" ("nodes " +:+ join_sep " -> " path +:+ " form a cycle; a plan is a DAG").

Definition unreachable_violation : Violation := violation RuleCycle "plan" "the plan holds a cycle".

(** The walk over predecessors inside [left]. *)
Fixpoint walk (fuel : nat) (inn : gmap string (list string)) (left : list string) (at_ : gmap string nat)
    (path : list string) (cur : string) : option (list Violation) :=
  match at_ !! cur with
  | Some k => Some [cycle_violation (cycle_path (drop k path))]
  | None =>
    match fuel with
    | O => None
    | S fuel' =>
      let preds := sort_strings (default [] (inn !! cur)) in
      let next := default "" (List.find (λ p, bool_decide (p ∈ left)) preds) in
      if bool_decide (next = "") then Some [unreachable_violation]
      else walk fuel' inn left (<[cur := length path]> at_) (path ++ [cur])%list next
    end
  end.

(** [order] is the order in which the range over the in-degrees visits the nodes. *)
Definition findCycle_run (order : list string) (nodes : gmap string liveNode) (edges : gmap string Edge)
    : option (list Violation) :=
  let a := build_adjacency nodes edges in
  let queue := filter (λ id, indegree a !! id = Some 0%Z) order in
  removed ← kahn (size nodes) (outs a) queue (indegree a) ∅;
  let rest := filter (λ id, id ∉ removed) (sorted_keys nodes) in
  match rest with
  | [] => Some []
  | start :: _ => walk (length rest) (ins a) rest ∅ [] start
  end.

(** [findCycle]: an arbitrary order, and a violation should the fuel ever run out ([findCycle_order] shows that
    no order changes the answer, and [findCycle_run_total] that the fuel is enough). *)
Definition findCycle (nodes : gmap string liveNode) (edges : gmap string Edge) : list Violation :=
  default [unreachable_violation] (findCycle_run (map_to_list nodes).*1 nodes edges).

(** * The output matrix, declaratively, and its equivalence with [checkEdge]. *)
Definition no_code_fields (e : Edge) : Prop :=
  PinsCodeHead e = false ∧ TargetRepository e = "" ∧ TargetBaseRef e = "".

Definition no_decision_fields (e : Edge) : Prop :=
  DecisionSubject e = "" ∧ DecisionDigest e = "" ∧ RequiredAuthority e = [].

(** What an edge of each kind must and may not say, given the kind of the node it leaves. *)
Definition edge_conforms (fromKind : string) (e : Edge) : Prop :=
  if decide (EKind e = EdgeArtifactVerified) then
    no_decision_fields e ∧
    (if decide (fromKind = NodeImplementation)
     then PinsCodeHead e = true ∧ TargetRepository e ≠ "" ∧ TargetBaseRef e ≠ ""
     else no_code_fields e)
  else if decide (EKind e = EdgeIntegrated) then
    fromKind = NodeImplementation ∧ TargetRepository e ≠ "" ∧ TargetBaseRef e ≠ "" ∧
    PinsCodeHead e = false ∧ no_decision_fields e
  else if decide (EKind e = EdgeDecision) then
    fromKind ≠ NodeImplementation ∧ DecisionSubject e ≠ "" ∧ DecisionDigest e ≠ "" ∧ RequiredAuthority e ≠ [] ∧
    no_code_fields e
  else no_code_fields e ∧ no_decision_fields e.

(** An edge the plan may hold: two distinct nodes of the plan, and the matrix. *)
Definition edge_ok (nodes : gmap string liveNode) (e : Edge) : Prop :=
  FromNodeID e ≠ ToNodeID e ∧ is_Some (nodes !! ToNodeID e) ∧
  ∃ from, nodes !! FromNodeID e = Some from ∧ edge_conforms (NKind (LNNode from)) e.

(** ** Equivalence *)

Lemma if_nil_iff {A} (P : Prop) `{Decision P} (l : list A) :
  l ≠ [] → (if bool_decide P then [] else l) = [] ↔ P.
Proof. intros Hl. case_bool_decide; split; done. Qed.

Lemma if_nil_iff_not {A} (P : Prop) `{Decision P} (l : list A) :
  l ≠ [] → (if bool_decide P then l else []) = [] ↔ ¬ P.
Proof. intros Hl. case_bool_decide; split; done. Qed.

Lemma missing_nil_iff e l : missing_of e l = [] ↔ ∀ f, f ∈ l → field_present e f = true.
Proof. unfold missing_of. rewrite filter_nil_iff. split; intros Hf f Hin; specialize (Hf f Hin); destruct (field_present e f); done. Qed.

Lemma present_nil_iff e l : present_of e l = [] ↔ ∀ f, f ∈ l → field_present e f = false.
Proof. unfold present_of. rewrite filter_nil_iff. split; intros Hf f Hin; specialize (Hf f Hin); destruct (field_present e f); done. Qed.

Lemma stray_nil_iff e path :
  stray_rule e path = [] ↔ ∀ f, f ∈ edge_field_names → field_allowed (EKind e) f = false → field_present e f = false.
Proof.
  unfold stray_rule. rewrite if_nil_iff by done. rewrite filter_nil_iff.
  split; intros Hf f Hin; specialize (Hf f Hin).
  - intros Ha. rewrite Ha in Hf. destruct (field_present e f); [by destruct Hf|done].
  - destruct (field_present e f), (field_allowed (EKind e) f); simpl in *; naive_solver.
Qed.

(** Quantifying over the members of a literal list. *)
Lemma forall_cons {A} (x : A) l (P : A → Prop) : (∀ y, y ∈ x :: l → P y) ↔ P x ∧ (∀ y, y ∈ l → P y).
Proof. setoid_rewrite elem_of_cons. naive_solver. Qed.
Lemma forall_nil {A} (P : A → Prop) : (∀ y, y ∈ @nil A → P y) ↔ True.
Proof. split; [done|]. by intros _ y ?%elem_of_nil. Qed.

Lemma present_repository e : field_present e "target_repository" = negb (bool_decide (TargetRepository e = "")).
Proof. reflexivity. Qed.
Lemma present_base e : field_present e "target_base_ref" = negb (bool_decide (TargetBaseRef e = "")).
Proof. reflexivity. Qed.
Lemma present_pins e : field_present e "pins_code_head" = PinsCodeHead e.
Proof. reflexivity. Qed.
Lemma present_subject e : field_present e "decision_subject" = negb (bool_decide (DecisionSubject e = "")).
Proof. reflexivity. Qed.
Lemma present_digest e : field_present e "decision_digest" = negb (bool_decide (DecisionDigest e = "")).
Proof. reflexivity. Qed.
Lemma present_authority e : field_present e "required_authority" = (0 <? length (RequiredAuthority e))%nat.
Proof. reflexivity. Qed.

Lemma absent_text s : negb (bool_decide (s = "")) = false ↔ s = "".
Proof. rewrite negb_false_iff. apply bool_decide_eq_true. Qed.
Lemma present_text s : negb (bool_decide (s = "")) = true ↔ s ≠ "".
Proof. rewrite negb_true_iff. apply bool_decide_eq_false. Qed.
Lemma absent_list (l : list string) : (0 <? length l)%nat = false ↔ l = [].
Proof. destruct l; simpl; split; done. Qed.
Lemma present_list (l : list string) : (0 <? length l)%nat = true ↔ l ≠ [].
Proof. destruct l; simpl; split; done. Qed.

(** Reduce a statement about literal field lists to one about the fields of the edge. *)
Ltac solve_fields :=
  unfold code_fields, edge_field_names, no_code_fields, no_decision_fields, EdgeArtifactVerified, EdgeIntegrated, EdgeDecision in *;
  rewrite ?forall_cons, ?forall_nil;
  rewrite ?present_repository, ?present_base, ?present_pins, ?present_subject, ?present_digest, ?present_authority;
  rewrite ?absent_text, ?present_text, ?absent_list, ?present_list.

Lemma imp_false_false (P : Prop) : (false = false → P) ↔ P.
Proof. tauto. Qed.
Lemma imp_true_false (P : Prop) : (true = false → P) ↔ True.
Proof. split; done. Qed.

(** Evaluate the permissions of a known kind. *)
Ltac eval_allowed :=
  repeat match goal with
  | |- context [field_allowed ?k ?f] =>
    let b := eval vm_compute in (field_allowed k f) in change (field_allowed k f) with b
  end; rewrite ?imp_false_false, ?imp_true_false.

Lemma stray_kind e path kind :
  EKind e = kind →
  stray_rule e path = [] ↔ ∀ f, f ∈ edge_field_names → field_allowed kind f = false → field_present e f = false.
Proof. intros <-. apply stray_nil_iff. Qed.

Lemma unknown_allowed kind f :
  kind ≠ EdgeArtifactVerified → kind ≠ EdgeIntegrated → kind ≠ EdgeDecision → field_allowed kind f = false.
Proof. intros. unfold field_allowed. by rewrite !bool_decide_eq_false_2. Qed.

(** The rules of one kind: the list is empty iff the edge conforms. *)
Lemma kind_and_stray_iff e fromKind path :
  (kind_rules e fromKind path ++ stray_rule e path)%list = [] ↔ edge_conforms fromKind e.
Proof.
  rewrite app_nil. unfold edge_conforms, kind_rules.
  destruct (decide (EKind e = EdgeArtifactVerified)) as [E1|N1].
  { rewrite (bool_decide_eq_true_2 _ E1), (stray_kind _ _ _ E1). destruct (decide (fromKind = NodeImplementation)) as [F|F].
    - rewrite (bool_decide_eq_true_2 _ F), if_nil_iff by done. rewrite missing_nil_iff. solve_fields. eval_allowed. tauto.
    - rewrite (bool_decide_eq_false_2 _ F), if_nil_iff by done. rewrite present_nil_iff. solve_fields. eval_allowed. tauto. }
  rewrite (bool_decide_eq_false_2 _ N1). destruct (decide (EKind e = EdgeIntegrated)) as [E2|N2].
  { rewrite (bool_decide_eq_true_2 _ E2), (stray_kind _ _ _ E2), app_nil.
    rewrite !if_nil_iff by done. rewrite missing_nil_iff. solve_fields. eval_allowed. tauto. }
  rewrite (bool_decide_eq_false_2 _ N2). destruct (decide (EKind e = EdgeDecision)) as [E3|N3].
  { rewrite (bool_decide_eq_true_2 _ E3), (stray_kind _ _ _ E3), app_nil.
    rewrite if_nil_iff_not, if_nil_iff by done. rewrite missing_nil_iff. solve_fields. eval_allowed. tauto. }
  rewrite (bool_decide_eq_false_2 _ N3), stray_nil_iff. solve_fields.
  rewrite !unknown_allowed, !imp_false_false by done. tauto.
Qed.

(** An edge is accepted exactly when it joins two distinct nodes of the plan and says what the output matrix
    (contract 1.2 and 2.4) requires of its kind and of the kind of the node it leaves, and nothing else. *)
Lemma checkEdge_nil_iff e nodes path : checkEdge e nodes path = [] ↔ edge_ok nodes e.
Proof.
  unfold checkEdge, edge_ok. case_bool_decide as Hself; [split; [done|by intros [? _]]|].
  destruct (nodes !! FromNodeID e) as [from|] eqn:Ef, (nodes !! ToNodeID e) as [to|] eqn:Et; simpl.
  - rewrite kind_and_stray_iff. split.
    + intros Hc. split; [done|]. split; [by eexists|]. by exists from.
    + intros (_ & _ & from' & [= <-] & Hc). done.
  - split; [done|]. intros (_ & [? ?] & _). done.
  - split; [done|]. intros (_ & _ & ? & ? & _). done.
  - split; [done|]. intros (_ & _ & ? & ? & _). done.
Qed.
