(* ===== verification/DagAcyclic.v ===== *)
(** * DagAcyclic: correctness of the cycle search.

    The search is shown to terminate within its fuel, to answer the same whatever order the maps are ranged in, to answer no violation
    exactly for the acyclic graphs, and to report a genuine cycle otherwise. *)
From S2P Require Import Prelude GoLib Json DagModel DagGraph.
From stdpp Require Import relations.
From stdpp Require Export list.
Local Open Scope list_scope.

(** ** The specification *)

(** There is an edge from [u] to [v] that the search follows. *)
Definition arc (nodes : gmap string liveNode) (edges : gmap string Edge) (u v : string) : Prop :=
  ∃ id e, edges !! id = Some e ∧ FromNodeID e = u ∧ ToNodeID e = v ∧
    u ≠ v ∧ is_Some (nodes !! u) ∧ is_Some (nodes !! v).

(** No node reaches itself. *)
Definition acyclic (nodes : gmap string liveNode) (edges : gmap string Edge) : Prop :=
  ∀ u, ¬ tc (arc nodes edges) u u.

(** A closed walk: every consecutive pair is an edge and the last id is the first. *)
Definition closed_walk (R : relation string) (c : list string) : Prop :=
  ∃ x l, c = x :: l ++ [x] ∧ Sorted R c.

(** ** Arcs as a list *)

Definition arc_of (nodes : gmap string liveNode) (edges : gmap string Edge) (id : string) : option (string * string) :=
  e ← edges !! id; if follows nodes e then Some (FromNodeID e, ToNodeID e) else None.

Definition arcs (nodes : gmap string liveNode) (edges : gmap string Edge) : list (string * string) :=
  omap (arc_of nodes edges) (sorted_keys edges).

Lemma elem_of_arcs nodes edges u v : (u, v) ∈ arcs nodes edges ↔ arc nodes edges u v.
Proof.
  unfold arcs, arc, arc_of, follows. rewrite list_elem_of_omap. split.
  - intros (id & _ & H). destruct (edges !! id) as [e|] eqn:E; simplify_eq/=.
    destruct (_ && _) eqn:F; simplify_eq/=. apply andb_true_iff in F as [F F3].
    apply andb_true_iff in F as [F1 F2]. apply bool_decide_eq_true in F2, F3.
    apply negb_true_iff, bool_decide_eq_false in F1. by exists id, e.
  - intros (id & e & E & <- & <- & Hne & Hu & Hv). exists id. split.
    + apply elem_of_sorted_keys. by exists e.
    + rewrite E; simpl. rewrite bool_decide_eq_false_2 by done. by rewrite !bool_decide_eq_true_2.
Qed.

Definition into (v : string) (es : list (string * string)) : nat := length (filter (λ a, a.2 = v) es).

Lemma into_app v es1 es2 : into v (es1 ++ es2) = into v es1 + into v es2.
Proof. unfold into. by rewrite filter_app, length_app. Qed.

Lemma into_cons v a es : into v (a :: es) = (if decide (a.2 = v) then 1 else 0) + into v es.
Proof. unfold into. rewrite filter_cons. by case_decide. Qed.

Lemma into_perm v es1 es2 : es1 ≡ₚ es2 → into v es1 = into v es2.
Proof. intros H. unfold into. by rewrite H. Qed.

Lemma into_zero v es u : into v es = 0 → (u, v) ∉ es.
Proof.
  unfold into. intros H Hin. apply length_zero_iff_nil in H.
  assert ((u, v) ∈ filter (λ a, a.2 = v) es) as Hf by (by apply list_elem_of_filter).
  rewrite H in Hf. by apply elem_of_nil in Hf.
Qed.

Lemma into_nonzero v es : into v es ≠ 0 → ∃ u, (u, v) ∈ es.
Proof.
  unfold into. intros H. destruct (filter _ es) as [|[u v'] l] eqn:E; [done|].
  assert ((u, v') ∈ filter (λ a, a.2 = v) es) as Hf by (rewrite E; by left).
  apply list_elem_of_filter in Hf as [Hv Hin]. simpl in Hv. subst. eauto.
Qed.

(** What the adjacency tables hold after the edges [ids]. *)
Record adjacent (nodes : gmap string liveNode) (es : list (string * string)) (a : adjacency) : Prop := {
  adj_indegree : ∀ v, is_Some (nodes !! v) → indegree a !! v = Some (Z.of_nat (into v es));
  adj_dom : ∀ v, is_Some (indegree a !! v) → is_Some (nodes !! v);
  adj_outs : ∀ u, default [] (outs a !! u) = (filter (λ a, a.1 = u) es).*2;
  adj_ins : ∀ v, default [] (ins a !! v) = (filter (λ a, a.2 = v) es).*1
}.

Lemma append_at_lookup m k x j :
  default [] (append_at m k x !! j) = default [] (m !! j) ++ (if decide (k = j) then [x] else []).
Proof.
  unfold append_at. rewrite lookup_insert. case_decide; subst; simpl; [done|]. by rewrite app_nil_r.
Qed.

Lemma adjacent_add nodes edges es a id :
  adjacent nodes es a → adjacent nodes (es ++ option_list (arc_of nodes edges id)) (add_arc nodes edges a id).
Proof.
  intros [H1 H2 H3 H4]. unfold add_arc, arc_of. destruct (edges !! id) as [e|]; simpl; [|by rewrite app_nil_r].
  destruct (follows nodes e) eqn:F; simpl; [|by rewrite app_nil_r].
  unfold follows in F. apply andb_true_iff in F as [_ F]. apply bool_decide_eq_true in F.
  split; simpl.
  - intros v Hv. rewrite into_app, into_cons. change (into v []) with 0. simpl.
    rewrite lookup_insert. destruct (decide (ToNodeID e = v)); subst; simpl.
    + rewrite (H1 _ Hv); simpl. f_equal. lia.
    + rewrite (H1 _ Hv). f_equal. lia.
  - intros v. rewrite lookup_insert. destruct (decide (ToNodeID e = v)); [by subst|apply H2].
  - intros u. rewrite append_at_lookup, H3, filter_app, fmap_app. f_equal. rewrite filter_cons; simpl.
    by case_decide.
  - intros v. rewrite append_at_lookup, H4, filter_app, fmap_app. f_equal. rewrite filter_cons; simpl.
    by case_decide.
Qed.

Lemma build_adjacent nodes edges : adjacent nodes (arcs nodes edges) (build_adjacency nodes edges).
Proof.
  unfold arcs, build_adjacency. induction (sorted_keys edges) as [|id ids IH] using rev_ind.
  - split; simpl; try done.
    + intros v [x Hx]. by rewrite lookup_fmap, Hx.
    + intros v. rewrite lookup_fmap. destruct (nodes !! v); [done|by intros [? ?]].
  - rewrite foldl_app, omap_app.
    change (omap (arc_of nodes edges) [id]) with (option_list (arc_of nodes edges id)).
    by apply adjacent_add.
Qed.

(** ** Kahn's algorithm *)

Section kahn.
Context (V : gset string) (es : list (string * string)) (out : gmap string (list string)).
Hypothesis es_in : ∀ u v, (u, v) ∈ es → u ∈ V ∧ v ∈ V.
Hypothesis out_es : ∀ u, default [] (out !! u) = (filter (λ a, a.1 = u) es).*2.

Let R (u v : string) : Prop := (u, v) ∈ es.

(** The edges whose source has not been removed. *)
Definition remaining (removed : gset string) : list (string * string) := filter (λ a, a.1 ∉ removed) es.

Definition degrees (rem : list (string * string)) (indeg : gmap string Z) : Prop :=
  ∀ v, v ∈ V → indeg !! v = Some (Z.of_nat (into v rem)).

Definition queued (done : gset string) (rem : list (string * string)) (queue : list string) : Prop :=
  NoDup queue ∧ (∀ v, v ∈ queue ↔ (v ∈ V ∧ (v ∉ done) ∧ into v rem = 0)).

Lemma relax_spec (done : gset string) id tos : ∀ rem rest indeg queue indeg' queue',
  rem ≡ₚ (((λ to, (id, to)) <$> tos) ++ rest) →
  (∀ to, to ∈ tos → to ∈ V) →
  (∀ v, v ∈ done → into v rem = 0) →
  degrees rem indeg → queued done rem queue →
  relax tos indeg queue = (indeg', queue') →
  degrees rest indeg' ∧ queued done rest queue' ∧ (∀ v, v ∈ done → into v rest = 0).
Proof.
  induction tos as [|to tos IH]; intros rem rest indeg queue indeg' queue' Hp HV Hd Hdeg [Hnd Hq] Hr; simplify_eq/=.
  - assert (∀ v, into v rem = into v rest) as E by (intros v; by apply into_perm).
    split; [|split].
    + intros v Hv. rewrite <- E. by apply Hdeg.
    + split; [done|]. intros v. by rewrite <- E.
    + intros v Hv. rewrite <- E. auto.
  - set (rem' := ((λ to, (id, to)) <$> tos) ++ rest).
    assert (∀ v, into v rem = (if decide (to = v) then 1 else 0) + into v rem') as E.
    { intros v. rewrite (into_perm v rem _ Hp). csimpl. apply into_cons. }
    assert (to ∈ V) as Hto by (apply HV; by left).
    assert (default 0%Z (indeg !! to) = Z.of_nat (S (into to rem'))) as Edeg.
    { rewrite (Hdeg to Hto), E. simpl. by rewrite decide_True. }
    assert (to ∉ done) as Hnd'.
    { intros Hin. specialize (Hd to Hin). rewrite E, decide_True in Hd by done. lia. }
    assert (to ∉ queue) as Hnq.
    { rewrite Hq, E, decide_True by done. lia. }
    eapply (IH rem' rest); [done| |..|exact Hr].
    + intros t Ht. apply HV. by right.
    + intros v Hv. specialize (Hd v Hv). rewrite E in Hd. lia.
    + intros v Hv. rewrite lookup_insert. case_decide as Hc; subst.
      * rewrite Edeg. f_equal. lia.
      * rewrite (Hdeg v Hv), E, decide_False by done. done.
    + rewrite Edeg. destruct (Z.eqb_spec (Z.of_nat (S (into to rem')) - 1) 0) as [Hz|Hz].
      * split.
        -- apply NoDup_app. split; [done|]. split; [|apply NoDup_singleton].
           by intros x Hx ->%list_elem_of_singleton.
        -- intros v. rewrite elem_of_app, list_elem_of_singleton, Hq, E.
           destruct (decide (to = v)) as [->|Hv].
           ++ split; [intros _; split; [done|split; [done|lia]]|intros _; by right].
           ++ split; [intros [?|?]; [done|congruence]|intros ?; by left].
      * split; [done|]. intros v. rewrite Hq, E. destruct (decide (to = v)) as [->|Hv]; [|done].
        split; intros (? & ? & ?); lia.
Qed.

(** The invariant of the outer loop. *)
Record kahn_inv (removed : gset string) (queue : list string) (indeg : gmap string Z) : Prop := {
  ki_sub : removed ⊆ V;
  ki_zero : ∀ v, v ∈ removed → into v (remaining removed) = 0;
  ki_deg : degrees (remaining removed) indeg;
  ki_queue : queued removed (remaining removed) queue;
  ki_acc : ∀ v, v ∈ removed → Acc R v
}.

Lemma remaining_pop removed id :
  id ∉ removed →
  remaining removed ≡ₚ (((λ to, (id, to)) <$> (filter (λ a, a.1 = id) es).*2) ++ remaining ({[id]} ∪ removed)).
Proof.
  intros Hid. unfold remaining. clear es_in out_es R. induction es as [|[u v] l IH]; [done|].
  rewrite !filter_cons; simpl. destruct (decide (u = id)) as [->|Hu].
  - rewrite (decide_True (P := id ∉ removed)) by done.
    rewrite (decide_False (P := id ∉ {[id]} ∪ removed)) by (intros Hn; apply Hn, elem_of_union_l, elem_of_singleton; done).
    csimpl. by constructor.
  - destruct (decide (u ∉ removed)) as [Hr|Hr].
    + rewrite (decide_True (P := u ∉ {[id]} ∪ removed)) by (rewrite elem_of_union, elem_of_singleton; tauto).
      rewrite IH. apply Permutation_middle.
    + rewrite (decide_False (P := u ∉ {[id]} ∪ removed)) by (rewrite elem_of_union; tauto). done.
Qed.

Lemma into_remaining_zero removed v u : into v (remaining removed) = 0 → (u, v) ∈ es → u ∈ removed.
Proof.
  intros H Hin. destruct (decide (u ∈ removed)) as [|Hu]; [done|]. exfalso.
  apply (into_zero _ _ u H). apply list_elem_of_filter. done.
Qed.

Lemma kahn_step removed id queue indeg indeg' queue' :
  kahn_inv removed (id :: queue) indeg →
  relax (default [] (out !! id)) indeg queue = (indeg', queue') →
  kahn_inv ({[id]} ∪ removed) queue' indeg' ∧ id ∈ V ∧ id ∉ removed.
Proof.
  intros [Hsub Hz Hdeg [Hnd Hq] Hacc] Hr.
  destruct (proj1 (Hq id)) as (HV & Hrem & Hzero); [by left|].
  apply NoDup_cons in Hnd as [Hnid Hnd].
  set (gone := {[id]} ∪ removed).
  destruct (relax_spec gone id (default [] (out !! id)) (remaining removed) (remaining gone) indeg queue indeg' queue')
    as (H1 & H2 & H3).
  - rewrite out_es. by apply remaining_pop.
  - intros to Hto. rewrite out_es in Hto. apply list_elem_of_fmap in Hto as ([u v] & -> & Hin).
    apply list_elem_of_filter in Hin as [_ Hin]. by eapply es_in.
  - intros v [->%elem_of_singleton|Hv]%elem_of_union; auto.
  - exact Hdeg.
  - split; [exact Hnd|]. intros v. specialize (Hq v). rewrite elem_of_cons in Hq. unfold gone.
    rewrite elem_of_union, elem_of_singleton. split.
    + intros Hv. assert (v ≠ id) by congruence. destruct (proj1 Hq (or_intror Hv)) as (? & ? & ?).
      split; [assumption|]. split; [|assumption]. by intros [?|?].
    + intros (? & Hn & ?). destruct (proj2 Hq) as [?|?]; [|exfalso; auto|assumption].
      split; [assumption|]. split; [|assumption]. intros ?. apply Hn. by right.
  - exact Hr.
  - split; [|split; assumption]. split; [|assumption..|].
    + apply union_subseteq. split; [|assumption]. by apply singleton_subseteq_l.
    + intros v [->%elem_of_singleton|Hv]%elem_of_union; [|by apply Hacc].
      constructor. intros u Hu. apply Hacc. by eapply into_remaining_zero.
Qed.

(** What the loop leaves when the queue is empty. *)
Lemma kahn_empty removed indeg :
  kahn_inv removed [] indeg →
  removed ⊆ V ∧ (∀ v, v ∈ removed → Acc R v) ∧ (∀ v, v ∈ V → v ∉ removed → ∃ u, (u, v) ∈ es ∧ u ∉ removed).
Proof.
  intros [Hs Hz Hdeg [Hnd Hq] Hacc]. split; [assumption|]. split; [assumption|]. intros v Hv Hr.
  destruct (decide (into v (remaining removed) = 0)) as [E|E]; [exfalso; apply (elem_of_nil v), Hq; auto|].
  apply into_nonzero in E as [u Hu]. apply list_elem_of_filter in Hu as [? ?]. eauto.
Qed.

(** The loop ends within |V| - |removed| rounds and removes exactly the nodes with no infinite descent. *)
Lemma kahn_spec fuel : ∀ removed queue indeg,
  kahn_inv removed queue indeg → size V ≤ fuel + size removed →
  ∃ removed', kahn fuel out queue indeg removed = Some removed' ∧ removed' ⊆ V ∧
    (∀ v, v ∈ removed' → Acc R v) ∧ (∀ v, v ∈ V → v ∉ removed' → ∃ u, (u, v) ∈ es ∧ u ∉ removed').
Proof.
  induction fuel as [|fuel IH]; intros removed queue indeg Hinv Hf;
    (destruct queue as [|id queue]; simpl; [exists removed; split; [reflexivity|by eapply kahn_empty]|]).
  - exfalso. destruct Hinv as [Hs _ _ [_ Hq] _].
    destruct (proj1 (Hq id)) as (HV & Hrem & _); [by left|].
    assert ({[id]} ∪ removed ⊆ V) as Hsub by (apply union_subseteq; split; [by apply singleton_subseteq_l|assumption]).
    apply subseteq_size in Hsub. rewrite size_union, size_singleton in Hsub by (by apply disjoint_singleton_l). lia.
  - destruct (relax _ indeg queue) as [indeg' queue'] eqn:E.
    destruct (kahn_step _ _ _ _ _ _ Hinv E) as (Hinv' & HV & Hid).
    apply IH; [exact Hinv'|]. rewrite size_union, size_singleton by (by apply disjoint_singleton_l). lia.
Qed.

(** The set is determined: a node is removed iff it is in [V] and has no infinite descent. *)
Lemma removed_iff removed' :
  (∀ v, v ∈ removed' → Acc R v) → removed' ⊆ V →
  (∀ v, v ∈ V → v ∉ removed' → ∃ u, (u, v) ∈ es ∧ u ∉ removed') →
  ∀ v, v ∈ removed' ↔ v ∈ V ∧ Acc R v.
Proof.
  intros H1 H2 H3 v. split; [auto|]. intros [HV Ha]. induction Ha as [v _ IH].
  destruct (decide (v ∈ removed')) as [|Hv]; [done|].
  destruct (H3 v HV Hv) as (u & Hu & Hnu). destruct Hnu. apply IH; [done|]. by apply (es_in u v).
Qed.
End kahn.

(** ** Closed walks *)

Section closed_walks.
Context (R : relation string).

Lemma Sorted_middle l1 x l2 : Sorted R (l1 ++ x :: l2) ↔ Sorted R (l1 ++ [x]) ∧ Sorted R (x :: l2).
Proof.
  induction l1 as [|y l1 IH]; simpl.
  - split; [intros H; split; [repeat constructor|exact H]|by intros [_ H]].
  - split.
    + intros H. apply Sorted_inv in H as [H1 H2]. apply IH in H1 as [H3 H4]. split; [|exact H4].
      constructor; [exact H3|]. destruct l1; simpl in *; inversion H2; by constructor.
    + intros [H1 H4]. apply Sorted_inv in H1 as [H3 H2]. constructor; [apply IH; split; assumption|].
      destruct l1; simpl in *; inversion H2; by constructor.
Qed.

(** A loop without its closing element. *)
Definition loop (c : list string) : Prop := c ≠ [] ∧ Sorted R (c ++ take 1 c).

Lemma loop_closed c : loop c → closed_walk R (c ++ take 1 c).
Proof. intros [Hne Hs]. destruct c as [|x l]; [done|]. exists x, l. split; [done|exact Hs]. Qed.

Lemma loop_rotate n c : loop c → loop (drop n c ++ take n c).
Proof.
  intros [Hne Hs]. split.
  { intros E. apply app_eq_nil in E as [E1 E2]. apply Hne. rewrite <- (take_drop n c). by rewrite E1, E2. }
  rewrite <- (take_drop n c) in Hs. destruct (take n c) as [|x a] eqn:Ea, (drop n c) as [|y b] eqn:Eb; simpl in *.
  - constructor.
  - by rewrite app_nil_r.
  - by rewrite !app_nil_r in Hs.
  - rewrite take_0 in *. rewrite <- app_assoc in Hs. simpl in Hs. change (x :: a ++ y :: b ++ [x]) with ((x :: a) ++ y :: b ++ [x]) in Hs.
    apply Sorted_middle in Hs as [H1 H2]. rewrite <- app_assoc. simpl.
    change (y :: b ++ x :: a ++ [y]) with ((y :: b) ++ x :: a ++ [y]). apply Sorted_middle. split; assumption.
Qed.

Lemma Sorted_impl (R' : relation string) l : (∀ x y, R x y → R' x y) → Sorted R l → Sorted R' l.
Proof.
  intros HR. induction 1 as [|x l Hs IH Hd]; constructor; [done|]. destruct Hd; constructor; auto.
Qed.

Lemma Sorted_tc y l x : Sorted R (y :: l ++ [x]) → tc R y x.
Proof.
  revert y. induction l as [|z l IH]; intros y H; simpl in H; apply Sorted_inv in H as [H1 H2];
    apply HdRel_inv in H2; [by constructor|]. eapply tc_l; [exact H2|]. by apply IH.
Qed.

Lemma closed_walk_tc c : closed_walk R c → ∃ x, tc R x x.
Proof. intros (x & l & -> & Hs). exists x. by eapply Sorted_tc. Qed.
End closed_walks.

(** ** The smallest id first *)

Lemma string_ltb_le x y : String.ltb x y = false → String.le y x.
Proof.
  unfold String.ltb, String.le, String.leb. rewrite (String.compare_antisym y x).
  by destruct (String.compare x y).
Qed.

Lemma string_lt_le x y : String.ltb x y = true → String.le x y.
Proof. unfold String.ltb, String.le, String.leb. by destruct (String.compare x y). Qed.

(** [lowest] points at the least element: of those seen, and then of all. *)
Lemma lowest_spec l : ∀ pre low best,
  (pre ++ l) !! low = Some best → (∀ x, x ∈ pre → String.le best x) →
  ∃ m, (pre ++ l) !! lowest (length pre) low best l = Some m ∧ (∀ x, x ∈ pre ++ l → String.le m x).
Proof.
  induction l as [|y l IH]; intros pre low best Hlow Hmin; simpl.
  - exists best. rewrite app_nil_r in *. done.
  - replace (pre ++ y :: l) with ((pre ++ [y]) ++ l) in * by (by rewrite <- app_assoc).
    replace (S (length pre)) with (length (pre ++ [y])) by (rewrite length_app; simpl; lia).
    destruct (String.ltb y best) eqn:E; apply IH.
    + rewrite lookup_app_l by (rewrite length_app; simpl; lia). by rewrite lookup_app_r, Nat.sub_diag by done.
    + intros x [Hx| ->%list_elem_of_singleton]%elem_of_app; [|done].
      etrans; [by apply string_lt_le|]. by apply Hmin.
    + exact Hlow.
    + intros x [Hx| ->%list_elem_of_singleton]%elem_of_app; [by apply Hmin|by apply string_ltb_le].
Qed.

Lemma rotate_lowest_spec c :
  c ≠ [] → ∃ n m l, rotate_lowest c = drop n c ++ take n c ∧ rotate_lowest c = m :: l ∧ (∀ x, x ∈ c → String.le m x).
Proof.
  intros Hne. destruct c as [|x c]; [done|]. unfold rotate_lowest.
  destruct (lowest_spec (x :: c) [] 0 x) as (m & Hm & Hmin); [done|by intros y ?%elem_of_nil|].
  change (length []) with 0 in Hm. rewrite app_nil_l in Hm, Hmin. set (n := lowest 0 0 x (x :: c)) in *.
  exists n, m, (drop (S n) (x :: c) ++ take n (x :: c)). split; [done|]. split; [|done].
  by rewrite (drop_S _ _ _ Hm).
Qed.

(** ** The walk *)

Section walk.
Context (es : list (string * string)) (inn : gmap string (list string)) (left : list string).
Hypothesis inn_es : ∀ v, default [] (inn !! v) = (filter (λ a, a.2 = v) es).*1.
Hypothesis left_closed : ∀ v, v ∈ left → ∃ u, (u, v) ∈ es ∧ u ∈ left.
Hypothesis left_named : ("" : string) ∉ left.

Let R (u v : string) : Prop := (u, v) ∈ es.

(** The path goes against the edges, and [at_] indexes it. *)
Record walk_inv (at_ : gmap string nat) (path : list string) (cur : string) : Prop := {
  wi_cur : cur ∈ left;
  wi_sub : path ⊆ left;
  wi_nodup : NoDup path;
  wi_at : ∀ x k, at_ !! x = Some k ↔ path !! k = Some x;
  wi_chain : Sorted (flip R) (path ++ [cur])
}.

(** The loop closed by a repeated id, read along the edges. *)
Lemma walk_loop at_ path cur k :
  walk_inv at_ path cur → at_ !! cur = Some k → loop R (reverse (drop k path)).
Proof.
  intros [_ _ _ Hat Hch] Hk. apply Hat in Hk. rewrite <- (take_drop_middle path k cur Hk) in Hch.
  rewrite <- app_assoc in Hch. simpl in Hch. apply Sorted_middle in Hch as [_ Hch].
  rewrite (drop_S _ _ _ Hk). set (l := drop (S k) path) in *. split.
  - intros E. apply (f_equal reverse) in E. by rewrite reverse_involutive in E.
  - apply Sorted_reverse in Hch. rewrite reverse_cons, reverse_app in Hch. simpl in Hch.
    rewrite reverse_cons. change (flip (flip R)) with R in Hch.
    destruct (reverse l) as [|y rl] eqn:El; simpl in *.
    + exact Hch.
    + rewrite take_0, <- app_assoc. simpl. apply Sorted_inv in Hch as [H1 H2]. simpl in *.
      change (y :: rl ++ [cur; y]) with ((y :: rl) ++ cur :: [y]). apply Sorted_middle. split; [exact H1|].
      apply HdRel_inv in H2. repeat constructor. exact H2.
Qed.

Lemma walk_next v : v ∈ left →
  ∃ u, List.find (λ p, bool_decide (p ∈ left)) (sort_strings (default [] (inn !! v))) = Some u ∧ u ∈ left ∧ (u, v) ∈ es.
Proof.
  intros Hv. destruct (List.find _ _) as [u|] eqn:E.
  - exists u. split; [done|]. apply List.find_some in E as [Hin Hl]. apply bool_decide_eq_true in Hl. split; [done|].
    apply list_elem_of_In in Hin. rewrite elem_of_sort_strings, inn_es in Hin.
    apply list_elem_of_fmap in Hin as ([u' v'] & -> & Hin). apply list_elem_of_filter in Hin as [Hv' Hin].
    simpl in *. by subst.
  - exfalso. destruct (left_closed v Hv) as (u & Hu & Hl).
    assert (bool_decide (u ∈ left) = false) as Hf; [|by apply bool_decide_eq_false in Hf].
    apply (List.find_none _ _ E). apply list_elem_of_In, elem_of_sort_strings. rewrite inn_es.
    apply list_elem_of_fmap. exists (u, v). split; [done|]. by apply list_elem_of_filter.
Qed.

Lemma walk_spec fuel : ∀ at_ path cur,
  walk_inv at_ path cur → length left < fuel + S (length path) →
  ∃ c, walk fuel inn left at_ path cur = Some [cycle_violation (cycle_path c)] ∧ loop R (reverse c).
Proof.
  induction fuel as [|fuel IH]; intros at_ path cur Hinv Hf; simpl;
    (destruct (at_ !! cur) as [k|] eqn:Hat; [exists (drop k path); split; [done|by eapply walk_loop]|]).
  - exfalso. destruct Hinv as [Hc Hs Hnd Hi _].
    assert (cur ∉ path) as Hn.
    { intros Hin. apply list_elem_of_lookup in Hin as [j Hj]. apply Hi in Hj. congruence. }
    assert (length (cur :: path) ≤ length left) as Hlen; [|simpl in *; lia].
    apply NoDup_length_subset; [by constructor|]. by intros x [->|Hx]%elem_of_cons; [|apply Hs].
  - destruct Hinv as [Hc Hs Hnd Hi Hch]. destruct (walk_next cur Hc) as (u & Hu & Hul & Hue). rewrite Hu. simpl.
    rewrite bool_decide_eq_false_2 by congruence. apply IH; [|rewrite length_app; simpl; lia].
    assert (cur ∉ path) as Hn.
    { intros Hin. apply list_elem_of_lookup in Hin as [j Hj]. apply Hi in Hj. congruence. }
    split; [done| | | |].
    + intros x [Hx| ->%list_elem_of_singleton]%elem_of_app; [by apply Hs|done].
    + apply NoDup_app. split; [done|]. split; [|apply NoDup_singleton]. by intros x Hx ->%list_elem_of_singleton.
    + intros x k. rewrite lookup_insert. destruct (decide (cur = x)) as [->|Hx].
      * split; [intros [= <-]; by rewrite lookup_app_r, Nat.sub_diag by done|].
        intros [H|[H1 H2]]%lookup_app_Some.
        -- exfalso. apply Hn. apply list_elem_of_lookup. eauto.
        -- apply list_lookup_singleton_Some in H2 as [H2 _]. f_equal. lia.
      * rewrite Hi. split; [intros H; by apply lookup_app_l_Some|].
        intros [H|[H1 H2]]%lookup_app_Some; [done|]. apply list_lookup_singleton_Some in H2 as [_ H2]. congruence.
    + rewrite <- app_assoc. simpl. apply Sorted_middle. split; [done|]. repeat constructor. exact Hue.
Qed.
End walk.

(** ** The search as a whole *)

Lemma remaining_empty es : remaining es ∅ = es.
Proof.
  unfold remaining. induction es as [|a l IH]; [done|].
  rewrite filter_cons, decide_True by (by apply not_elem_of_empty). by rewrite IH.
Qed.

Lemma kahn_inv_start nodes edges order :
  order ≡ₚ (map_to_list nodes).*1 →
  kahn_inv (dom nodes) (arcs nodes edges) ∅
    (filter (λ id, indegree (build_adjacency nodes edges) !! id = Some 0%Z) order)
    (indegree (build_adjacency nodes edges)).
Proof.
  intros Hp. pose proof (build_adjacent nodes edges) as [H1 H2 _ _].
  split; rewrite ?remaining_empty.
  - apply empty_subseteq.
  - by intros v ?%elem_of_empty.
  - intros v Hv. apply H1. by apply elem_of_dom.
  - assert (∀ v, v ∈ order ↔ is_Some (nodes !! v)) as Ho.
    { intros v. rewrite Hp. rewrite <- elem_of_sorted_keys. unfold sorted_keys. rewrite elem_of_sort_strings. reflexivity. }
    split; [apply NoDup_filter; rewrite Hp; apply NoDup_fst_map_to_list|].
    intros v. rewrite list_elem_of_filter, Ho, elem_of_dom. split.
    + intros [Hz Hv]. rewrite (H1 v Hv) in Hz. injection Hz as Hz. split; [done|].
      split; [by apply not_elem_of_empty|lia].
    + intros (Hv & _ & Hz). rewrite (H1 v Hv), Hz. done.
  - by intros v ?%elem_of_empty.
Qed.

(** The part of the answer that does not depend on the order: the nodes left by Kahn's algorithm. *)
Definition left_over (nodes : gmap string liveNode) (edges : gmap string Edge) (rest : list string) : Prop :=
  ∃ removed : gset string,
    rest = filter (λ id, id ∉ removed) (sorted_keys nodes) ∧
    (∀ v, v ∈ removed ↔ v ∈ dom nodes ∧ Acc (arc nodes edges) v) ∧
    (∀ v, v ∈ dom nodes → v ∉ removed → ∃ u, arc nodes edges u v ∧ u ∉ removed).

Lemma left_over_unique nodes edges rest1 rest2 :
  left_over nodes edges rest1 → left_over nodes edges rest2 → rest1 = rest2.
Proof.
  intros (r1 & -> & H1 & _) (r2 & -> & H2 & _).
  assert (r1 = r2) as ->; [|done]. apply set_eq. intros v. by rewrite H1, H2.
Qed.

Lemma arc_in_dom nodes edges u v : arc nodes edges u v → u ∈ dom nodes ∧ v ∈ dom nodes.
Proof. intros (id & e & _ & _ & _ & _ & Hu & Hv). by rewrite !elem_of_dom. Qed.

Lemma Acc_iff {A} (R1 R2 : relation A) (x : A) : (∀ u v, R1 u v ↔ R2 u v) → Acc R1 x → Acc R2 x.
Proof. intros HR Ha. induction Ha as [x _ IH]. constructor. intros y Hy. apply IH. by apply HR. Qed.

Lemma findCycle_run_rest order nodes edges :
  order ≡ₚ (map_to_list nodes).*1 →
  ∃ rest, left_over nodes edges rest ∧
    findCycle_run order nodes edges =
      match rest with
      | [] => Some []
      | start :: _ => walk (length rest) (ins (build_adjacency nodes edges)) rest ∅ [] start
      end.
Proof.
  intros Hp. pose proof (build_adjacent nodes edges) as [_ _ Hout _].
  destruct (kahn_spec (dom nodes) (arcs nodes edges) (outs (build_adjacency nodes edges))) with
    (fuel := size nodes) (removed := ∅ : gset string) (indeg := indegree (build_adjacency nodes edges))
    (queue := filter (λ id, indegree (build_adjacency nodes edges) !! id = Some 0%Z) order)
    as (removed & Hk & Hsub & Hacc & Hleft).
  - intros u v Huv. apply elem_of_arcs in Huv. by eapply arc_in_dom.
  - exact Hout.
  - by apply kahn_inv_start.
  - rewrite size_dom. lia.
  - exists (filter (λ id, id ∉ removed) (sorted_keys nodes)). split.
    + exists removed. split; [reflexivity|]. split.
      * intros v. rewrite (removed_iff (dom nodes) (arcs nodes edges)).
        -- split; intros [HV Ha]; (split; [exact HV|]); (eapply Acc_iff; [|exact Ha]); intros; by rewrite elem_of_arcs.
        -- intros a b Hab. apply elem_of_arcs in Hab. by eapply arc_in_dom.
        -- exact Hacc.
        -- exact Hsub.
        -- exact Hleft.
      * intros v Hv Hn. destruct (Hleft v Hv Hn) as (u & Hu & Hnu). exists u. by rewrite <- elem_of_arcs.
    + unfold findCycle_run. rewrite Hk. simpl. done.
Qed.

Lemma left_over_elem nodes edges rest v :
  left_over nodes edges rest → v ∈ rest ↔ v ∈ dom nodes ∧ ¬ Acc (arc nodes edges) v.
Proof.
  intros (removed & -> & Hr & _). rewrite list_elem_of_filter, elem_of_sorted_keys, elem_of_dom, Hr, elem_of_dom. tauto.
Qed.

Lemma tc_last {A} (R : relation A) x z : tc R x z → ∃ y, rtc R x y ∧ R y z.
Proof.
  induction 1 as [x z Hxz|x y z Hxy _ (w & Hyw & Hwz)]; [exists x; split; [apply rtc_refl|done]|].
  exists w. split; [by eapply rtc_l|done].
Qed.

Lemma Acc_no_loop {A} (R : relation A) x : Acc R x → ¬ tc R x x.
Proof.
  intros Ha. induction Ha as [x _ IH]. intros (y & Hxy & Hyx)%tc_last.
  apply (IH y Hyx). eapply tc_rtc_r; [by apply tc_once|done].
Qed.

(** When nothing is left over there is no cycle. *)
Lemma left_over_nil_acyclic nodes edges : left_over nodes edges [] → acyclic nodes edges.
Proof.
  intros Hl u Hu. assert (u ∈ dom nodes) as Hdom.
  { apply tc_last in Hu as (y & _ & Hy). by apply arc_in_dom in Hy as [_ ?]. }
  assert (¬ ¬ Acc (arc nodes edges) u) as Hnn.
  { intros Hn. apply (elem_of_nil u). by apply (left_over_elem nodes edges). }
  apply Hnn. intros Ha. by apply Acc_no_loop in Hu.
Qed.

(** When something is left over the walk finds a cycle through it. *)
Lemma left_over_cycle nodes edges rest :
  nodes !! "" = None → left_over nodes edges rest → rest ≠ [] →
  ∃ start c, head rest = Some start ∧
    walk (length rest) (ins (build_adjacency nodes edges)) rest ∅ [] start = Some [cycle_violation (cycle_path c)] ∧
    loop (arc nodes edges) (reverse c).
Proof.
  intros Hname Hl Hne. pose proof (build_adjacent nodes edges) as [_ _ _ Hins].
  destruct rest as [|start rest'] eqn:Er; [done|]. rewrite <- Er in *. exists start.
  assert (∀ v, v ∈ rest ↔ v ∈ dom nodes ∧ ¬ Acc (arc nodes edges) v) as Hel by (intros; by apply left_over_elem).
  assert (start ∈ rest) as Hs by (rewrite Er; by left).
  destruct (walk_spec (arcs nodes edges) (ins (build_adjacency nodes edges)) rest) with
    (fuel := length rest) (at_ := ∅ : gmap string nat) (path := @nil string) (cur := start) as (c & Hw & Hloop).
  - exact Hins.
  - destruct Hl as (removed & Hrest & Hrem & Hpred). intros v Hv.
    assert (v ∈ dom nodes ∧ v ∉ removed) as [Hd Hn].
    { rewrite Hrest, list_elem_of_filter, elem_of_sorted_keys in Hv. rewrite elem_of_dom. tauto. }
    destruct (Hpred v Hd Hn) as (u & Hu & Hnu). exists u. split; [by apply elem_of_arcs|].
    rewrite Hrest, list_elem_of_filter, elem_of_sorted_keys, <- elem_of_dom. split; [done|].
    by apply arc_in_dom in Hu as [? _].
  - rewrite Hel, elem_of_dom, Hname. by intros [[? ?] _].
  - split; [done|apply list_subseteq_nil|constructor| |repeat constructor].
    intros x k. rewrite lookup_empty, lookup_nil. done.
  - simpl. lia.
  - exists c. split; [by rewrite Er|]. split; [done|]. destruct Hloop as [Hne' Hsrt]. split; [done|].
    eapply Sorted_impl; [|exact Hsrt]. intros x y. by rewrite elem_of_arcs.
Qed.

(** ** Properties *)

(** Whatever order Go ranges over the map of in-degrees in, the cycle search answers the same. *)
Theorem findCycle_order nodes edges order1 order2 :
  order1 ≡ₚ (map_to_list nodes).*1 → order2 ≡ₚ (map_to_list nodes).*1 →
  findCycle_run order1 nodes edges = findCycle_run order2 nodes edges.
Proof.
  intros H1 H2. destruct (findCycle_run_rest order1 nodes edges H1) as (rest1 & Hl1 & ->).
  destruct (findCycle_run_rest order2 nodes edges H2) as (rest2 & Hl2 & ->).
  by rewrite (left_over_unique nodes edges rest1 rest2).
Qed.

(** Without a cycle there is no violation; with one, the violation names it. *)
Lemma findCycle_cases nodes edges :
  nodes !! "" = None →
  (findCycle nodes edges = [] ∧ acyclic nodes edges) ∨
  (∃ c, findCycle nodes edges = [cycle_violation (cycle_path c)] ∧ loop (arc nodes edges) (reverse c)).
Proof.
  intros Hname. unfold findCycle.
  destruct (findCycle_run_rest (map_to_list nodes).*1 nodes edges) as (rest & Hl & ->); [done|].
  destruct rest as [|start rest'] eqn:Er.
  - left. split; [done|]. by apply left_over_nil_acyclic.
  - right. rewrite <- Er in *. destruct (left_over_cycle nodes edges rest) as (st & c & Hst & Hw & Hloop);
      [done|done|by rewrite Er|]. rewrite Er in Hst. injection Hst as <-. rewrite Hw. by exists c.
Qed.

Lemma walk_not_nil fuel inn left : ∀ at_ path cur, walk fuel inn left at_ path cur ≠ Some [].
Proof.
  induction fuel as [|fuel IH]; intros at_ path cur; simpl; (destruct (at_ !! cur); [done|]); [done|].
  destruct (bool_decide _); [done|]. apply IH.
Qed.

(** The direction the fold needs, for any ids. *)
Lemma findCycle_nil_acyclic nodes edges : findCycle nodes edges = [] → acyclic nodes edges.
Proof.
  unfold findCycle. destruct (findCycle_run_rest (map_to_list nodes).*1 nodes edges) as (rest & Hl & ->); [done|].
  destruct rest as [|start rest']; [intros _; by apply left_over_nil_acyclic|].
  destruct (walk _ _ _ _ _ _) as [vs|] eqn:Ew; [|done]. simpl. intros ->. by apply walk_not_nil in Ew.
Qed.

Lemma cycle_path_spec R c :
  loop R (reverse c) →
  closed_walk R (cycle_path c) ∧ (∃ m l, cycle_path c = m :: l ∧ (∀ x, x ∈ c → String.le m x)).
Proof.
  intros Hl. unfold cycle_path. destruct (rotate_lowest_spec (reverse c)) as (n & m & l & E1 & E2 & Hmin).
  { by destruct Hl. }
  split.
  - apply loop_closed. rewrite E1. by apply loop_rotate.
  - rewrite E2. exists m, (l ++ take 1 (m :: l)). split; [done|]. intros x Hx. apply Hmin. by apply elem_of_reverse.
Qed.

(** The cycle search reports nothing exactly when the plan's graph is acyclic. *)
Theorem findCycle_acyclic nodes edges :
  nodes !! "" = None → (findCycle nodes edges = [] ↔ acyclic nodes edges).
Proof.
  intros Hname. split; [apply findCycle_nil_acyclic|]. intros Ha.
  destruct (findCycle_cases nodes edges Hname) as [[H _]|(c & _ & Hl)]; [done|].
  apply cycle_path_spec in Hl as [Hc _]. apply closed_walk_tc in Hc as [x Hx]. by destruct (Ha x).
Qed.

(** A graph with a cycle is refused with one violation naming a genuine cycle, read along its edges from its
    smallest id: the search ends within its fuel and never reaches its "unreachable" answer. *)
Theorem findCycle_reports nodes edges :
  nodes !! "" = None → ¬ acyclic nodes edges →
  ∃ m l, findCycle nodes edges = [cycle_violation (m :: l)] ∧
    closed_walk (arc nodes edges) (m :: l) ∧ (∀ x, x ∈ m :: l → String.le m x).
Proof.
  intros Hname Hn. destruct (findCycle_cases nodes edges Hname) as [[_ ?]|(c & Hf & Hl)]; [done|].
  destruct (cycle_path_spec _ _ Hl) as (Hc & m & l & E & Hmin). exists m, l. rewrite <- E. split; [done|].
  split; [done|]. intros x Hx. apply Hmin. revert Hx. unfold cycle_path, rotate_lowest.
  set (r := reverse c). set (n := match r with [] => 0 | _ => _ end). intros H.
  assert (x ∈ drop n r ++ take n r) as Hin.
  { apply elem_of_app in H as [H|H]; [done|]. by apply subseteq_take in H. }
  apply elem_of_reverse. apply elem_of_app in Hin as [Hin|Hin]; [by apply subseteq_drop in Hin|by apply subseteq_take in Hin].
Qed.

(** ** Witnesses: a graph with a cycle and one without *)

Module CycleExample.
Local Open Scope string_scope.
Definition node (id : string) : liveNode := mkLiveNode (mkNode id "" NodeImplementation "" "") "".
Definition edge (id u v : string) : Edge := mkEdge id u v EdgeIntegrated "repo" "main" false "" "" [].
Definition nodes : gmap string liveNode := list_to_map [("a", node "a"); ("b", node "b"); ("c", node "c")].
Definition dag : gmap string Edge := list_to_map [("e1", edge "e1" "a" "b"); ("e2", edge "e2" "b" "c")].
Definition ring : gmap string Edge := list_to_map [("e1", edge "e1" "b" "c"); ("e2", edge "e2" "c" "a"); ("e3", edge "e3" "a" "b")].
End CycleExample.

Lemma findCycle_order_witness :
  findCycle_run (reverse (map_to_list CycleExample.nodes).*1) CycleExample.nodes CycleExample.ring
  = Some [cycle_violation ["a"; "b"; "c"; "a"]].
Proof.
  rewrite (findCycle_order CycleExample.nodes CycleExample.ring (reverse (map_to_list CycleExample.nodes).*1)
    (map_to_list CycleExample.nodes).*1 (reverse_Permutation _) (reflexivity _)).
  vm_compute. reflexivity.
Defined.

Lemma findCycle_acyclic_witness : acyclic CycleExample.nodes CycleExample.dag.
Proof.
  apply (findCycle_acyclic CycleExample.nodes CycleExample.dag); [reflexivity|]. vm_compute. reflexivity.
Defined.

Lemma ring_cyclic : ¬ acyclic CycleExample.nodes CycleExample.ring.
Proof.
  intros Ha. apply (Ha "a"). eapply tc_l; [|eapply tc_l; [|apply tc_once]].
  - exists "e3", (CycleExample.edge "e3" "a" "b"). repeat split; try done; by eexists.
  - exists "e1", (CycleExample.edge "e1" "b" "c"). repeat split; try done; by eexists.
  - exists "e2", (CycleExample.edge "e2" "c" "a"). repeat split; try done; by eexists.
Qed.

Lemma findCycle_reports_witness :
  ∃ m l, findCycle CycleExample.nodes CycleExample.ring = [cycle_violation (m :: l)] ∧
    closed_walk (arc CycleExample.nodes CycleExample.ring) (m :: l).
Proof.
  destruct (findCycle_reports CycleExample.nodes CycleExample.ring) as (m & l & H1 & H2 & _);
    [reflexivity|exact ring_cyclic|]. exists m, l. split; [exact H1|exact H2].
Defined.
