(* ===== verification/DagFold.v ===== *)
(** * DagFold: folding a revision onto a plan (internal/relay/dag/fold.go).

    [applyChanges] reads the parent plan's rows into maps, applies the typed changes one by one (collecting every violation), judges
    the plan they produce, and only then materializes the next state. [None] is a Go panic: a change whose operation needs a node or an edge
    and carries a nil pointer. *)
From S2P Require Import Prelude GoLib Json DagModel DagLifecycle DagGraph.
Local Open Scope string_scope.

Record Diff : Type := mkDiff {
  RetireNodes : list NodeVersion;
  InsertNodes : list NodeVersion;
  RetireEdges : list EdgeRow;
  InsertEdges : list EdgeRow
}.

Definition zero_Diff : Diff := mkDiff [] [] [] [].

(** ** The parent plan as maps *)

(** Rows of one kind, keyed by id: the live rows, and the ids that may not be introduced again with the reason. *)
Definition retired_note (rev : Z) : string := "was retired at revision " +:+ itoa rev.
Definition in_plan : string := "is in the plan".

Section index.
Context {A : Type} (rid : A → string) (retired : A → Z).

Definition live_rows (rows : list A) : gmap string A :=
  foldl (λ m row, if (retired row =? 0)%Z then <[rid row := row]> m else m) ∅ rows.

Definition retired_at (rows : list A) : gmap string Z :=
  foldl (λ m row,
    if (retired row =? 0)%Z then m
    else if (default 0 (m !! rid row) <? retired row)%Z then <[rid row := retired row]> m else m) ∅ rows.

(** [taken]: live ids first; a retired id only when it is not live. *)
Definition taken_ids (rows : list A) : gmap string string :=
  ((λ _, in_plan) <$> live_rows rows) ∪ (retired_note <$> retired_at rows).
End index.

Definition node_row_id (r : NodeVersion) : string := NodeID (NVNode r).
Definition edge_row_id (r : EdgeRow) : string := EdgeID (EREdge r).

Definition parent_nodes (prev : State) : gmap string NodeVersion := live_rows node_row_id NVRetiredRev (SNodes prev).
Definition parent_edges (prev : State) : gmap string EdgeRow := live_rows edge_row_id ERRetiredRev (SEdges prev).

(** ** The accumulator of the change loop *)

Record acc : Type := mkAcc {
  a_vs : list Violation;
  a_live : gmap string liveNode;
  a_taken : gmap string string;
  a_liveEdges : gmap string Edge;
  a_takenEdge : gmap string string;
  a_changedNode : gmap string nat;
  a_changedEdge : gmap string nat;
  a_addedAt : gmap string nat;
  a_addedNode : gmap string nat;
  a_planLife : option nat
}.

Definition start_acc (prev : State) : acc :=
  mkAcc []
    ((λ r, mkLiveNode (NVNode r) (NVSupersedes r)) <$> parent_nodes prev)
    (taken_ids node_row_id NVRetiredRev (SNodes prev))
    (EREdge <$> parent_edges prev)
    (taken_ids edge_row_id ERRetiredRev (SEdges prev))
    ∅ ∅ ∅ ∅ None.

Definition with_vs (a : acc) (vs : list Violation) : acc :=
  mkAcc (a_vs a ++ vs)%list (a_live a) (a_taken a) (a_liveEdges a) (a_takenEdge a) (a_changedNode a) (a_changedEdge a)
    (a_addedAt a) (a_addedNode a) (a_planLife a).

Definition with_live (a : acc) (live : gmap string liveNode) : acc :=
  mkAcc (a_vs a) live (a_taken a) (a_liveEdges a) (a_takenEdge a) (a_changedNode a) (a_changedEdge a)
    (a_addedAt a) (a_addedNode a) (a_planLife a).

Definition with_changedNode (a : acc) (id : string) (i : nat) : acc :=
  mkAcc (a_vs a) (a_live a) (a_taken a) (a_liveEdges a) (a_takenEdge a) (<[id := i]> (a_changedNode a)) (a_changedEdge a)
    (a_addedAt a) (a_addedNode a) (a_planLife a).

Definition with_planLife (a : acc) (i : nat) : acc :=
  mkAcc (a_vs a) (a_live a) (a_taken a) (a_liveEdges a) (a_takenEdge a) (a_changedNode a) (a_changedEdge a)
    (a_addedAt a) (a_addedNode a) (Some i).

Definition change_at (i : nat) : string := "changes[" +:+ itoa_nat i +:+ "]".
Definition added_note (i : nat) : string := "is added by " +:+ change_at i +:+ " in this revision".

Definition describe (taken : gmap string string) (id : string) : string :=
  match taken !! id with Some why => "it " +:+ why | None => "no such id was ever used" end.

Section changes.
Context (prev : State).

(** [targetNode]: the change addresses a node of the parent plan that no other change of the revision addressed. *)
Definition targetNode (i : nat) (path id : string) (a : acc) : acc * bool :=
  match a_addedNode a !! id with
  | Some j => (with_vs a [violation RuleUnknownNode path
      ("node " +:+ id +:+ " is added by " +:+ change_at j +:+ " in this revision; add it with its final spec instead")], false)
  | None =>
    match parent_nodes prev !! id with
    | None => (with_vs a [violation RuleUnknownNode path
        ("node " +:+ id +:+ " is not in the plan (" +:+ describe (a_taken a) id +:+ ")")], false)
    | Some _ =>
      match a_changedNode a !! id with
      | Some j => (with_vs a [violation RuleConflictingChanges path
          ("node " +:+ id +:+ " is already changed by " +:+ change_at j +:+ " in this revision")], false)
      | None => (with_changedNode a id i, true)
      end
    end
  end.

Definition introduce (i : nat) (path : string) (n : Node) (supersedes : string) (a : acc) : acc :=
  match a_taken a !! NodeID n with
  | Some why => with_vs a [violation RuleDuplicateNodeID path
      ("node id " +:+ NodeID n +:+ " " +:+ why +:+ "; node ids are never reused within a plan")]
  | None =>
    mkAcc (a_vs a) (<[NodeID n := mkLiveNode n supersedes]> (a_live a)) (<[NodeID n := added_note i]> (a_taken a))
      (a_liveEdges a) (a_takenEdge a) (a_changedNode a) (a_changedEdge a) (a_addedAt a)
      (<[NodeID n := i]> (a_addedNode a)) (a_planLife a)
  end.

Definition add_edge (i : nat) (p : string) (e : Edge) (a : acc) : acc :=
  match a_takenEdge a !! EdgeID e with
  | Some why => with_vs a [violation RuleDuplicateEdgeID (p +:+ ".edge.edge_id")
      ("edge id " +:+ EdgeID e +:+ " " +:+ why +:+ "; edge ids are never reused within a plan")]
  | None =>
    mkAcc (a_vs a) (a_live a) (a_taken a) (<[EdgeID e := e]> (a_liveEdges a)) (<[EdgeID e := added_note i]> (a_takenEdge a))
      (a_changedNode a) (a_changedEdge a) (<[EdgeID e := i]> (a_addedAt a)) (a_addedNode a) (a_planLife a)
  end.

Definition retire_edge (i : nat) (p id : string) (a : acc) : acc :=
  let path := p +:+ ".edge_id" in
  match a_addedAt a !! id with
  | Some j => with_vs a [violation RuleUnknownEdge path
      ("edge " +:+ id +:+ " is added by " +:+ change_at j +:+ " in this revision; add only the edges the plan keeps")]
  | None =>
    match parent_edges prev !! id with
    | None => with_vs a [violation RuleUnknownEdge path
        ("edge " +:+ id +:+ " is not in the plan (" +:+ describe (a_takenEdge a) id +:+ ")")]
    | Some _ =>
      match a_changedEdge a !! id with
      | Some j => with_vs a [violation RuleConflictingChanges path
          ("edge " +:+ id +:+ " is already retired by " +:+ change_at j +:+ " in this revision")]
      | None =>
        mkAcc (a_vs a) (a_live a) (a_taken a) (delete id (a_liveEdges a)) (a_takenEdge a) (a_changedNode a)
          (<[id := i]> (a_changedEdge a)) (a_addedAt a) (a_addedNode a) (a_planLife a)
      end
    end
  end.

(** The refusal of a lifecycle transition, as a list of violations. *)
Definition life_violations (o : Op) (op p subject from : string) : list Violation :=
  let why := transitionRefusal o subject from in
  if bool_decide (why = "") then []
  else [violation RuleInvalidLifecycleTransition (p +:+ ".op") (op +:+ ": " +:+ why)].

(** One change of the revision. *)
Definition change_step (i : nat) (c : Change) (a : acc) : option acc :=
  let p := change_at i in
  match op_of (COp c) with
  | None => Some a
  | Some o =>
    match o with
    | OpAddNode =>
      n ← CNode c; Some (introduce i (p +:+ ".node.node_id") n "" a)
    | OpUpdateNode =>
      n ← CNode c;
      let '(a1, ok) := targetNode i (p +:+ ".node.node_id") (NodeID n) a in
      Some (if ok : bool then
              with_live a1 (<[NodeID n := mkLiveNode n (match a_live a1 !! NodeID n with
                                                        | Some l => LNSupersedes l
                                                        | None => ""
                                                        end)]> (a_live a1))
            else a1)
    | OpReplaceNode =>
      let '(a1, ok) := targetNode i (p +:+ ".supersedes_node_id") (CSupersedesNodeID c) a in
      let a2 := if ok : bool then with_live a1 (delete (CSupersedesNodeID c) (a_live a1)) else a1 in
      n ← CNode c; Some (introduce i (p +:+ ".node.node_id") n (CSupersedesNodeID c) a2)
    | OpRetireNode =>
      let '(a1, ok) := targetNode i (p +:+ ".node_id") (CNodeID c) a in
      Some (if ok : bool then with_live a1 (delete (CNodeID c) (a_live a1)) else a1)
    | OpAddEdge => e ← CEdge c; Some (add_edge i p e a)
    | OpRetireEdge => Some (retire_edge i p (CEdgeID c) a)
    | OpPauseNode | OpResumeNode | OpCancelNode | OpArchiveNode =>
      let '(a1, ok) := targetNode i (p +:+ ".node_id") (CNodeID c) a in
      Some (if ok : bool then
              with_vs a1 (life_violations o (COp c) p ("node " +:+ CNodeID c) (currentLife (SLifecycle prev) (CNodeID c)))
            else a1)
    | OpPausePlan | OpResumePlan =>
      match a_planLife a with
      | Some j => Some (with_vs a [violation RuleConflictingChanges (p +:+ ".op")
          ("the plan's lifecycle is already changed by " +:+ change_at j +:+ " in this revision")])
      | None =>
        Some (with_vs (with_planLife a i)
          (life_violations o (COp c) p ("plan " +:+ SPlanID prev) (currentLife (SLifecycle prev) "")))
      end
    end
  end.

Fixpoint change_loop (i : nat) (changes : list Change) (a : acc) : option acc :=
  match changes with
  | [] => Some a
  | c :: changes' => a' ← change_step i c a; change_loop (S i) changes' a'
  end.
End changes.

(** ** The rules of the plan the changes produce *)

Definition edgePath (addedAt : gmap string nat) (id : string) : string :=
  match addedAt !! id with Some i => change_at i +:+ ".edge" | None => "edges." +:+ id end.

Definition limit_rules (strict : bool) (live : gmap string liveNode) (liveEdges : gmap string Edge) : list Violation :=
  ((if strict && (MaxNodes <? size live)%nat
    then [violation RuleLimitExceeded "plan"
           ("the plan would hold " +:+ itoa_nat (size live) +:+ " nodes; the limit is " +:+ itoa_nat MaxNodes)] else []) ++
   (if strict && (MaxEdges <? size liveEdges)%nat
    then [violation RuleLimitExceeded "plan"
           ("the plan would hold " +:+ itoa_nat (size liveEdges) +:+ " edges; the limit is " +:+ itoa_nat MaxEdges)] else []) ++
   (if (size live =? 0)%nat then [violation RuleEmptyGraph "plan" "the plan would hold no node"] else []))%list.

Definition edge_rules (live : gmap string liveNode) (liveEdges : gmap string Edge) (addedAt : gmap string nat) : list Violation :=
  concat ((λ id, match liveEdges !! id with
                 | Some e => checkEdge e live (edgePath addedAt id)
                 | None => []
                 end) <$> sorted_keys liveEdges).

Definition plan_rules (strict : bool) (a : acc) : list Violation :=
  (limit_rules strict (a_live a) (a_liveEdges a) ++ edge_rules (a_live a) (a_liveEdges a) (a_addedAt a)
   ++ findCycle (a_live a) (a_liveEdges a))%list.

(** ** materialize *)

Definition incoming_of (liveEdges : gmap string Edge) (id : string) : list Edge :=
  filter (λ e, ToNodeID e = id) (map_to_list liveEdges).*2.

Definition slice_of (liveEdges : gmap string Edge) (id : string) (n : liveNode) : string :=
  SliceDigest (LNNode n) (incoming_of liveEdges id).

(** Whether a live row stays as it is. *)
Definition node_kept (live : gmap string liveNode) (liveEdges : gmap string Edge) (row : NodeVersion) : bool :=
  match live !! node_row_id row with
  | Some cur =>
    bool_decide (LNNode cur = NVNode row) && bool_decide (slice_of liveEdges (node_row_id row) cur = NVSliceDigest row)
    && bool_decide (LNSupersedes cur = NVSupersedes row)
  | None => false
  end.

Definition retire_node_row (rev : Z) (row : NodeVersion) : NodeVersion :=
  mkNodeVersion (NVNode row) (NVSliceDigest row) (NVSupersedes row) (NVIntroducedRev row) rev.

Definition retire_edge_row (rev : Z) (row : EdgeRow) : EdgeRow := mkEdgeRow (EREdge row) (ERIntroducedRev row) rev.

Definition fresh_node_row (liveEdges : gmap string Edge) (rev : Z) (id : string) (n : liveNode) : NodeVersion :=
  mkNodeVersion (LNNode n) (slice_of liveEdges id n) (LNSupersedes n) rev 0.

(** A live row that does not stay. *)
Definition node_leaves (live : gmap string liveNode) (liveEdges : gmap string Edge) (row : NodeVersion) : Prop :=
  NVRetiredRev row = 0%Z ∧ node_kept live liveEdges row = false.
#[export] Instance node_leaves_dec live liveEdges row : Decision (node_leaves live liveEdges row).
Proof. unfold node_leaves. apply _. Defined.

Definition edge_leaves (liveEdges : gmap string Edge) (row : EdgeRow) : Prop :=
  ERRetiredRev row = 0%Z ∧ liveEdges !! edge_row_id row = None.
#[export] Instance edge_leaves_dec liveEdges row : Decision (edge_leaves liveEdges row).
Proof. unfold edge_leaves. apply _. Defined.

Section materialize.
Context (prev : State) (live : gmap string liveNode) (liveEdges : gmap string Edge).

Definition next_rev : Z := (SRevision prev + 1)%Z.

Definition next_node_row (row : NodeVersion) : NodeVersion :=
  if decide (node_leaves live liveEdges row) then retire_node_row next_rev row else row.

Definition next_edge_row (row : EdgeRow) : EdgeRow :=
  if decide (edge_leaves liveEdges row) then retire_edge_row next_rev row else row.

(** Ids the plan already had ([had], [hadEdge]). *)
Definition had_nodes : list string := node_row_id <$> filter (λ row, NVRetiredRev row = 0%Z) (SNodes prev).
Definition had_edges : list string := edge_row_id <$> filter (λ row, ERRetiredRev row = 0%Z) (SEdges prev).

(** New versions of rows that leave while their node stays, and rows of nodes that are new. *)
Definition new_versions : list NodeVersion :=
  omap (λ row, n ← live !! node_row_id row; Some (fresh_node_row liveEdges next_rev (node_row_id row) n))
    (filter (node_leaves live liveEdges) (SNodes prev)).
Definition new_nodes : list NodeVersion :=
  omap (λ id, n ← live !! id; Some (fresh_node_row liveEdges next_rev id n))
    (filter (λ id, id ∉ had_nodes) (sorted_keys live)).
Definition inserted_nodes : list NodeVersion := sort_by node_row_id (new_versions ++ new_nodes)%list.

Definition inserted_edges : list EdgeRow :=
  omap (λ id, e ← liveEdges !! id; Some (mkEdgeRow e next_rev 0)) (filter (λ id, id ∉ had_edges) (sorted_keys liveEdges)).

Definition materialize : State * Diff :=
  (mkState (SPlanID prev) (SProjectKey prev) next_rev
     ((next_node_row <$> SNodes prev) ++ inserted_nodes)%list ((next_edge_row <$> SEdges prev) ++ inserted_edges)%list [],
   mkDiff (retire_node_row next_rev <$> filter (node_leaves live liveEdges) (SNodes prev)) inserted_nodes
     (retire_edge_row next_rev <$> filter (edge_leaves liveEdges) (SEdges prev)) inserted_edges).
End materialize.

(** ** applyChanges and Apply *)

Definition with_lifecycle (st : State) (rows : list LifeRow) : State :=
  mkState (SPlanID st) (SProjectKey st) (SRevision st) (SNodes st) (SEdges st) rows.

Definition applyChanges (prev : State) (changes : list Change) (strict : bool) : option (State * Diff * list Violation) :=
  a ← change_loop prev 0 changes (start_acc prev);
  let vs := (a_vs a ++ plan_rules strict a)%list in
  if bool_decide (vs = []) then
    let '(next, diff) := materialize prev (a_live a) (a_liveEdges a) in
    match applyLifecycle (SLifecycle prev) (SRevision next) changes with
    | Ok rows => Some (with_lifecycle next rows, diff, [])
    | Err e => Some (next, diff, [violation RuleInvalidLifecycleTransition "plan" e])
    end
  else Some (zero_State, zero_Diff, vs).

Definition with_project (st : State) (project : string) : State :=
  mkState (SPlanID st) project (SRevision st) (SNodes st) (SEdges st) (SLifecycle st).

Definition Apply (prev : State) (rev : Revision) : option (State * Diff * list Violation) :=
  let vs :=
    if negb (bool_decide (SProjectKey prev = "")) && negb (bool_decide (RProjectKey rev = SProjectKey prev))
    then [violation RuleProjectMismatch "$.project_key"
           ("plan " +:+ SPlanID prev +:+ " belongs to project " +:+ SProjectKey prev +:+ ", not " +:+ RProjectKey rev)]
    else [] in
  let prev' := if bool_decide (SProjectKey prev = "") then with_project prev (RProjectKey rev) else prev in
  r ← applyChanges prev' (RChanges rev) true;
  let '(next, diff, more) := r in
  Some (next, diff, (vs ++ more)%list).

(** ** Snapshots *)

Definition row_live_at (rev introduced retired : Z) : Prop :=
  (introduced ≤ rev)%Z ∧ (retired = 0%Z ∨ (rev < retired)%Z).
#[export] Instance row_live_at_dec rev i r : Decision (row_live_at rev i r).
Proof. unfold row_live_at. apply _. Defined.

Definition snap_node (life : gmap string string) (row : NodeVersion) : SnapNode :=
  mkSnapNode (NVNode row) (NVSliceDigest row) (NVSupersedes row) (NVIntroducedRev row)
    (default "" (life !! node_row_id row)).

Definition snap_edge (row : EdgeRow) : SnapEdge := mkSnapEdge (EREdge row) (ERIntroducedRev row).

Definition At (s : State) (rev : Z) : Snapshot :=
  let '(planState, nodeLife) := lifeAt (SLifecycle s) rev in
  let nodes := snap_node nodeLife <$>
    filter (λ row, row_live_at rev (NVIntroducedRev row) (NVRetiredRev row)) (SNodes s) in
  let edges := snap_edge <$> filter (λ row, row_live_at rev (ERIntroducedRev row) (ERRetiredRev row)) (SEdges s) in
  let nodes := sort_by (λ n, NodeID (SNNode n)) nodes in
  let edges := sort_by (λ e, EdgeID (SEEdge e)) edges in
  mkSnapshot (SPlanID s) (SProjectKey s) rev nodes edges
    (stateDigest (SPlanID s) (SProjectKey s) planState nodes edges) planState.

(** The state a snapshot stands for. *)
Definition StateFromSnapshot (s : Snapshot) : State :=
  mkState (SnapPlanID s) (SnapProjectKey s) (SnapRevision s)
    ((λ n, mkNodeVersion (SNNode n) (SNSliceDigest n) (SNSupersedes n) (SNIntroducedRev n) 0) <$> SnapNodes s)
    ((λ e, mkEdgeRow (SEEdge e) (SEIntroducedRev e) 0) <$> SnapEdges s)
    (((λ n, mkLifeRow (NodeID (SNNode n)) (SNLifecycle n) (SnapRevision s) 0) <$>
        filter (λ n, SNLifecycle n ≠ "") (SnapNodes s)) ++
     (if bool_decide (SnapPlanState s = "") then [] else [mkLifeRow "" (SnapPlanState s) (SnapRevision s) 0]))%list.

(** ** Replay *)

Inductive ReplayError : Type :=
| NotNext (revision parent at_ : Z)        (* does not follow the revision before *)
| DoesNotApply (revision : Z) (vs : list Violation)
| DigestMismatch (revision : Z) (got recorded : string)
| ReplayPanic.                             (* a change without its node or edge *)

(** One event of the log, onto a state. *)
Definition replay_step (st : State) (ev : Event) : result ReplayError State :=
  if negb (EvParentRevisionNo ev =? SRevision st)%Z || negb (EvRevisionNo ev =? SRevision st + 1)%Z
  then Err (NotNext (EvRevisionNo ev) (EvParentRevisionNo ev) (SRevision st))
  else
    match applyChanges st (EvChanges ev) false with
    | None => Err ReplayPanic
    | Some (next, _, vs) =>
      if bool_decide (vs = []) then
        let got := SnapStateDigest (At next (SRevision next)) in
        if bool_decide (got = EvStateDigest ev) then Ok next
        else Err (DigestMismatch (EvRevisionNo ev) got (EvStateDigest ev))
      else Err (DoesNotApply (EvRevisionNo ev) vs)
    end.

Fixpoint replay_loop (st : State) (events : list Event) : result ReplayError State :=
  match events with
  | [] => Ok st
  | ev :: events' =>
    match replay_step st ev with
    | Ok next => replay_loop next events'
    | Err e => Err e
    end
  end.

Definition Replay (base : Snapshot) (events : list Event) : result ReplayError Snapshot :=
  match replay_loop (StateFromSnapshot base) events with
  | Ok st => Ok (At st (SRevision st))
  | Err e => Err e
  end.
