(* ===== verification/DagInvariant.v ===== *)
(** * DagInvariant: the invariant of a plan and the proof that a fold preserves it.

    A fold that reports no violation yields a state one revision later in which live ids are unique, every live edge joins two
    distinct live nodes and obeys the output matrix, the graph is acyclic, the stored slice digests are the recomputed ones, and
    the rows of the past are the rows of the parent state. *)
From S2P Require Import Prelude GoLib Json DagModel DagLifecycle DagGraph DagAcyclic DagFold.
Local Open Scope list_scope.
(** ** The maps of live rows *)

Section index.
Context {A : Type} (rid : A → string) (retired : A → Z).

Definition is_live (r : A) : Prop := retired r = 0%Z.
#[export] Instance is_live_dec r : Decision (is_live r).
Proof. unfold is_live. apply _. Defined.

Lemma live_rows_snoc rows r :
  live_rows rid retired (rows ++ [r]) =
  if (retired r =? 0)%Z then <[rid r := r]> (live_rows rid retired rows) else live_rows rid retired rows.
Proof. unfold live_rows. by rewrite foldl_app. Qed.

Lemma live_rows_Some rows id r :
  live_rows rid retired rows !! id = Some r → r ∈ rows ∧ is_live r ∧ rid r = id.
Proof.
  induction rows as [|x rows IH] using rev_ind; [done|]. rewrite live_rows_snoc, elem_of_app, list_elem_of_singleton.
  destruct (Z.eqb_spec (retired x) 0) as [E|E].
  - rewrite lookup_insert. destruct (decide (rid x = id)) as [Hx|Hx]; [intros [= <-]; auto|].
    intros H. destruct (IH H) as (? & ? & ?). auto.
  - intros H. destruct (IH H) as (? & ? & ?). auto.
Qed.

Lemma live_rows_is_Some rows r : r ∈ rows → is_live r → is_Some (live_rows rid retired rows !! rid r).
Proof.
  induction rows as [|x rows IH] using rev_ind; [by intros ?%elem_of_nil|].
  rewrite live_rows_snoc, elem_of_app, list_elem_of_singleton. intros [Hr| ->] Hl.
  - destruct (_ =? _)%Z; [|by apply IH]. rewrite lookup_insert. destruct (decide _); [by eexists|by apply IH].
  - rewrite (proj2 (Z.eqb_eq _ _) Hl). rewrite lookup_insert_eq. by eexists.
Qed.

(** With unique live ids the map is exactly the live rows. *)
Lemma live_rows_elem rows r :
  NoDup (rid <$> filter is_live rows) → r ∈ rows → is_live r → live_rows rid retired rows !! rid r = Some r.
Proof.
  intros Hnd Hr Hl. destruct (live_rows_is_Some rows r Hr Hl) as [r' Hr']. rewrite Hr'. f_equal.
  destruct (live_rows_Some _ _ _ Hr') as (H1 & H2 & H3).
  apply (NoDup_fmap_inj_on rid (filter is_live rows)); [done|by apply list_elem_of_filter..|done].
Qed.

Lemma retired_at_snoc rows r :
  retired_at rid retired (rows ++ [r]) =
  (let m := retired_at rid retired rows in
   if (retired r =? 0)%Z then m
   else if (default 0 (m !! rid r) <? retired r)%Z then <[rid r := retired r]> m else m).
Proof. unfold retired_at. by rewrite foldl_app. Qed.

Lemma retired_at_is_Some rows id :
  (∀ r, r ∈ rows → (0 ≤ retired r)%Z) →
  is_Some (retired_at rid retired rows !! id) ↔ ∃ r, r ∈ rows ∧ rid r = id ∧ ¬ is_live r.
Proof.
  induction rows as [|x rows IH] using rev_ind; intros Hpos.
  { unfold retired_at; simpl. rewrite lookup_empty. split; [by intros [? ?]|by intros (? & ?%elem_of_nil & _)]. }
  assert (∀ r, r ∈ rows → (0 ≤ retired r)%Z) as Hpos' by (intros; apply Hpos, elem_of_app; by left).
  specialize (IH Hpos'). rewrite retired_at_snoc; simpl.
  assert ((∃ r, r ∈ rows ++ [x] ∧ rid r = id ∧ ¬ is_live r) ↔
          (∃ r, r ∈ rows ∧ rid r = id ∧ ¬ is_live r) ∨ (rid x = id ∧ ¬ is_live x)) as ->.
  { split.
    - intros (r & [Hr| ->%list_elem_of_singleton]%elem_of_app & ? & ?); eauto.
    - intros [(r & ? & ? & ?)|[? ?]]; [exists r|exists x]; (split; [apply elem_of_app|done]); [by left|right; by left]. }
  rewrite <- IH; clear IH. unfold is_live at 1.
  destruct (Z.eqb_spec (retired x) 0) as [E|E]; [tauto|].
  assert (0 ≤ retired x)%Z as Hx by (apply Hpos, elem_of_app; right; by left).
  destruct (Z.ltb_spec (default 0%Z (retired_at rid retired rows !! rid x)) (retired x)) as [Hlt|Hge].
  - rewrite lookup_insert. destruct (decide (rid x = id)) as [<-|Hne]; [|tauto].
    split; [intros _; right; done|intros _; by eexists].
  - split; [tauto|]. intros [H|[<- _]]; [done|].
    destruct (retired_at rid retired rows !! rid x) as [z|]; [by eexists|]. simpl in Hge. lia.
Qed.

(** An id is taken iff some row, live or retired, has it. *)
Lemma taken_ids_is_Some rows id :
  (∀ r, r ∈ rows → (0 ≤ retired r)%Z) →
  is_Some (taken_ids rid retired rows !! id) ↔ ∃ r, r ∈ rows ∧ rid r = id.
Proof.
  intros Hpos. unfold taken_ids. rewrite lookup_union_is_Some, !lookup_fmap, !fmap_is_Some.
  rewrite retired_at_is_Some by done. split.
  - intros [[r Hr]|(r & ? & ? & ?)]; [|eauto]. destruct (live_rows_Some _ _ _ Hr) as (? & ? & ?). eauto.
  - intros (r & Hr & <-). destruct (decide (is_live r)) as [Hl|Hl]; [left; by apply live_rows_is_Some|right; eauto].
Qed.
End index.

#[global] Typeclasses Opaque is_live.

(** ** The accumulator *)

(** Rows whose retirement marks are revision numbers or zero. *)
Definition rows_pos (prev : State) : Prop :=
  (∀ r, r ∈ SNodes prev → (0 ≤ NVRetiredRev r)%Z) ∧ (∀ r, r ∈ SEdges prev → (0 ≤ ERRetiredRev r)%Z).

Definition new_node_id (prev : State) (id : string) : Prop := ∀ r, r ∈ SNodes prev → node_row_id r ≠ id.
Definition new_edge_id (prev : State) (id : string) : Prop := ∀ r, r ∈ SEdges prev → edge_row_id r ≠ id.

Record acc_inv (prev : State) (a : acc) : Prop := {
  ai_node_key : ∀ id n, a_live a !! id = Some n → NodeID (LNNode n) = id;
  ai_edge_key : ∀ id e, a_liveEdges a !! id = Some e → EdgeID e = id;
  ai_taken : ∀ r, r ∈ SNodes prev → is_Some (a_taken a !! node_row_id r);
  ai_takenE : ∀ r, r ∈ SEdges prev → is_Some (a_takenEdge a !! edge_row_id r);
  ai_live : ∀ id, is_Some (a_live a !! id) → is_Some (parent_nodes prev !! id) ∨ new_node_id prev id;
  ai_edges : ∀ id e, a_liveEdges a !! id = Some e →
    (∃ row, parent_edges prev !! id = Some row ∧ EREdge row = e) ∨ new_edge_id prev id
}.

Lemma start_acc_inv prev : rows_pos prev → acc_inv prev (start_acc prev).
Proof.
  intros [Hn He]. split; simpl.
  - intros id n H. rewrite lookup_fmap in H. destruct (parent_nodes prev !! id) as [r|] eqn:E; simplify_eq/=.
    by apply live_rows_Some in E as (_ & _ & E).
  - intros id e H. rewrite lookup_fmap in H. destruct (parent_edges prev !! id) as [r|] eqn:E; simplify_eq/=.
    by apply live_rows_Some in E as (_ & _ & E).
  - intros r Hr. apply taken_ids_is_Some; [done|]. eauto.
  - intros r Hr. apply taken_ids_is_Some; [done|]. eauto.
  - intros id H. left. rewrite lookup_fmap, fmap_is_Some in H. done.
  - intros id e H. left. rewrite lookup_fmap in H. destruct (parent_edges prev !! id) as [r|] eqn:E; simplify_eq/=. eauto.
Qed.

(** Changes that only touch the bookkeeping keep the invariant. *)
Lemma acc_inv_same prev a a' :
  a_live a' = a_live a → a_taken a' = a_taken a → a_liveEdges a' = a_liveEdges a → a_takenEdge a' = a_takenEdge a →
  acc_inv prev a → acc_inv prev a'.
Proof. intros E1 E2 E3 E4 [H1 H2 H3 H4 H5 H6]. split; rewrite ?E1, ?E2, ?E3, ?E4; assumption. Qed.

Lemma targetNode_same prev i path id a :
  let a' := (targetNode prev i path id a).1 in
  a_live a' = a_live a ∧ a_taken a' = a_taken a ∧ a_liveEdges a' = a_liveEdges a ∧ a_takenEdge a' = a_takenEdge a.
Proof. unfold targetNode. by repeat (case_match; simpl). Qed.

Lemma targetNode_inv prev i path id a : acc_inv prev a → acc_inv prev (targetNode prev i path id a).1.
Proof. destruct (targetNode_same prev i path id a) as (? & ? & ? & ?). by apply acc_inv_same. Qed.

Lemma with_live_delete_inv prev a id : acc_inv prev a → acc_inv prev (with_live a (delete id (a_live a))).
Proof.
  intros [H1 H2 H3 H4 H5 H6]. split; simpl; try assumption.
  - intros j n [_ H]%lookup_delete_Some. by apply H1.
  - intros j [n [_ H]%lookup_delete_Some]. apply H5. by eexists.
Qed.

Lemma with_live_update_inv prev a n s :
  is_Some (parent_nodes prev !! NodeID n) → acc_inv prev a →
  acc_inv prev (with_live a (<[NodeID n := mkLiveNode n s]> (a_live a))).
Proof.
  intros Hp [H1 H2 H3 H4 H5 H6]. split; simpl; try assumption.
  - intros j m. rewrite lookup_insert. destruct (decide (NodeID n = j)); [by intros [= <-]|apply H1].
  - intros j. rewrite lookup_insert. destruct (decide (NodeID n = j)); [subst; by left|apply H5].
Qed.

Lemma introduce_inv prev i path n s a : acc_inv prev a → acc_inv prev (introduce i path n s a).
Proof.
  intros [H1 H2 H3 H4 H5 H6]. unfold introduce. destruct (a_taken a !! NodeID n) eqn:E; [by split|].
  split; simpl; try assumption.
  - intros j m. rewrite lookup_insert. destruct (decide (NodeID n = j)); [by intros [= <-]|apply H1].
  - intros r Hr. rewrite lookup_insert. destruct (decide _); [by eexists|by apply H3].
  - intros j. rewrite lookup_insert. destruct (decide (NodeID n = j)) as [<-|]; [|apply H5].
    intros _. right. intros r Hr Heq. destruct (H3 r Hr) as [x Hx]. congruence.
Qed.

Lemma add_edge_inv prev i p e a : acc_inv prev a → acc_inv prev (add_edge i p e a).
Proof.
  intros [H1 H2 H3 H4 H5 H6]. unfold add_edge. destruct (a_takenEdge a !! EdgeID e) eqn:E; [by split|].
  split; simpl; try assumption.
  - intros j m. rewrite lookup_insert. destruct (decide (EdgeID e = j)); [by intros [= <-]|apply H2].
  - intros r Hr. rewrite lookup_insert. destruct (decide _); [by eexists|by apply H4].
  - intros j m. rewrite lookup_insert. destruct (decide (EdgeID e = j)) as [<-|]; [|apply H6].
    intros _. right. intros r Hr Heq. destruct (H4 r Hr) as [x Hx]. congruence.
Qed.

Lemma retire_edge_inv prev i p id a : acc_inv prev a → acc_inv prev (retire_edge prev i p id a).
Proof.
  intros [H1 H2 H3 H4 H5 H6]. unfold retire_edge. repeat (case_match; try by split).
  split; simpl; try assumption.
  - intros j m [_ Hm]%lookup_delete_Some. by apply H2.
  - intros j m [_ Hm]%lookup_delete_Some. by apply H6.
Qed.

(** A target that is accepted is a live row of the parent that no change touched before. *)
Lemma targetNode_true prev i path id a a' :
  targetNode prev i path id a = (a', true) →
  a' = with_changedNode a id i ∧ is_Some (parent_nodes prev !! id) ∧ a_changedNode a !! id = None ∧ a_addedNode a !! id = None.
Proof. unfold targetNode. intros H. repeat case_match; simplify_eq. eauto. Qed.

Lemma change_step_inv prev i c a a' : acc_inv prev a → change_step prev i c a = Some a' → acc_inv prev a'.
Proof.
  intros Hi H. unfold change_step in H. destruct (op_of (COp c)) as [o|]; [|by simplify_eq].
  destruct o;
    repeat match type of H with
    | context [targetNode ?p ?i ?path ?id ?a] =>
      let Ht := fresh "Ht" in let ok := fresh "ok" in let a1 := fresh "a1" in
      pose proof (targetNode_inv p i path id a Hi); destruct (targetNode p i path id a) as [a1 ok] eqn:Ht; simpl in *
    | context [CNode c] => destruct (CNode c) as [n|]; simplify_eq/=
    | context [CEdge c] => destruct (CEdge c) as [e|]; simplify_eq/=
    | context [a_planLife a] => destruct (a_planLife a); simplify_eq/=
    | context [if ?b then _ else _] => is_var b; destruct b; simplify_eq/=
    end; simplify_eq/=;
    eauto using introduce_inv, add_edge_inv, retire_edge_inv, with_live_delete_inv.
  all: try (apply targetNode_true in Ht as (-> & Hp & _); by apply with_live_update_inv).
  1: apply introduce_inv; destruct ok; [by apply with_live_delete_inv|assumption].
  all: by eapply acc_inv_same; [..|eassumption].
Qed.

Lemma change_loop_inv prev cs : ∀ i a a', acc_inv prev a → change_loop prev i cs a = Some a' → acc_inv prev a'.
Proof.
  induction cs as [|c cs IH]; intros i a a' Hi H; simplify_eq/=; [done|].
  destruct (change_step prev i c a) as [a1|] eqn:E; simplify_eq/=. eauto using change_step_inv.
Qed.

(** * The rows of the next revision.

    The state [materialize] builds has, as its live rows, exactly the nodes and edges the changes leave; every row of the
    parent is kept, at most marked as retired; the rows it adds carry the new revision. *)
(** ** Lists *)

Lemma NoDup_fmap_omap {A B K} (f : A → K) (g : B → K) (h : A → option B) (l : list A) :
  (∀ x y, x ∈ l → h x = Some y → g y = f x) → NoDup (f <$> l) → NoDup (g <$> omap h l).
Proof.
  induction l as [|x l IH]; intros Hh Hnd; csimpl; [constructor|].
  apply NoDup_cons in Hnd as [Hx Hnd].
  assert (NoDup (g <$> omap h l)) as Hrest by (apply IH; [|done]; intros; apply Hh; [by right|done]).
  destruct (h x) as [y|] eqn:E; csimpl; [|done]. constructor; [|done].
  rewrite (Hh x y) by (done || by left). intros (y' & Hy & (x' & Hx' & E')%list_elem_of_omap)%list_elem_of_fmap.
  apply Hx, list_elem_of_fmap. exists x'. split; [|done]. rewrite Hy. apply Hh; [by right|done].
Qed.

Lemma filter_fmap_ext {A B} (P Q : A → Prop) `{∀ x, Decision (P x), ∀ x, Decision (Q x)} (f : A → A) (g : A → B) (l : list A) :
  (∀ x, x ∈ l → P (f x) ↔ Q x) → (∀ x, x ∈ l → Q x → g (f x) = g x) →
  g <$> filter P (f <$> l) = g <$> filter Q l.
Proof.
  induction l as [|x l IH]; intros HP Hg; csimpl; [done|]. rewrite !filter_cons.
  assert (g <$> filter P (f <$> l) = g <$> filter Q l) as E.
  { apply IH; intros; [apply HP|apply Hg]; try done; by right. }
  assert (x ∈ x :: l) as Hx by (by left).
  destruct (decide (Q x)) as [HQ|HQ].
  - rewrite decide_True by (by apply HP). csimpl. by rewrite E, Hg.
  - rewrite decide_False by (intros ?; by apply HQ, HP). done.
Qed.

Lemma NoDup_fmap_filter_impl {A K} (f : A → K) (P Q : A → Prop) `{∀ x, Decision (P x), ∀ x, Decision (Q x)} (l : list A) :
  (∀ x, P x → Q x) → NoDup (f <$> filter Q l) → NoDup (f <$> filter P l).
Proof. intros HPQ Hnd. rewrite <- (list_filter_filter_l P Q) by done. by apply NoDup_fmap_filter. Qed.

(** ** The plan's live nodes and edges *)

Definition plan_nodes (s : State) : gmap string liveNode :=
  (λ r, mkLiveNode (NVNode r) (NVSupersedes r)) <$> parent_nodes s.
Definition plan_edges (s : State) : gmap string Edge := EREdge <$> parent_edges s.

Abbreviation live_node := (is_live NVRetiredRev).
Abbreviation live_edge := (is_live ERRetiredRev).

Definition live_ids (s : State) : list string := node_row_id <$> filter live_node (SNodes s).
Definition live_edge_ids (s : State) : list string := edge_row_id <$> filter live_edge (SEdges s).

Lemma plan_nodes_Some s id n :
  plan_nodes s !! id = Some n →
  ∃ r, r ∈ SNodes s ∧ live_node r ∧ node_row_id r = id ∧ n = mkLiveNode (NVNode r) (NVSupersedes r).
Proof.
  unfold plan_nodes. rewrite lookup_fmap. destruct (parent_nodes s !! id) as [r|] eqn:E; intros; simplify_eq/=.
  apply live_rows_Some in E as (? & ? & ?). eauto.
Qed.

Lemma plan_nodes_elem s r :
  NoDup (live_ids s) → r ∈ SNodes s → live_node r →
  plan_nodes s !! node_row_id r = Some (mkLiveNode (NVNode r) (NVSupersedes r)).
Proof. intros Hnd Hr Hl. unfold plan_nodes, parent_nodes. rewrite lookup_fmap. by rewrite live_rows_elem. Qed.

Lemma plan_edges_Some s id e :
  plan_edges s !! id = Some e → ∃ r, r ∈ SEdges s ∧ live_edge r ∧ edge_row_id r = id ∧ e = EREdge r.
Proof.
  unfold plan_edges. rewrite lookup_fmap. destruct (parent_edges s !! id) as [r|] eqn:E; intros; simplify_eq/=.
  apply live_rows_Some in E as (? & ? & ?). eauto.
Qed.

Lemma plan_edges_elem s r :
  NoDup (live_edge_ids s) → r ∈ SEdges s → live_edge r → plan_edges s !! edge_row_id r = Some (EREdge r).
Proof. intros Hnd Hr Hl. unfold plan_edges, parent_edges. rewrite lookup_fmap. by rewrite live_rows_elem. Qed.

(** ** materialize *)

Section materialize.
Context (prev : State) (live : gmap string liveNode) (liveEdges : gmap string Edge).
Let rev : Z := next_rev prev.
Let next : State := (materialize prev live liveEdges).1.

Hypothesis Hrev : (0 ≤ SRevision prev)%Z.
Hypothesis Hkey : ∀ id n, live !! id = Some n → NodeID (LNNode n) = id.
Hypothesis HkeyE : ∀ id e, liveEdges !! id = Some e → EdgeID e = id.
Hypothesis Hids : NoDup (live_ids prev).
Hypothesis HidsE : NoDup (live_edge_ids prev).
Hypothesis Hkept : ∀ id e r, liveEdges !! id = Some e → r ∈ SEdges prev → live_edge r → edge_row_id r = id → EREdge r = e.

Lemma next_node_row_id r : node_row_id (next_node_row prev live liveEdges r) = node_row_id r.
Proof. unfold next_node_row. by destruct (decide _). Qed.

Lemma next_node_row_live r :
  live_node (next_node_row prev live liveEdges r) ↔ live_node r ∧ node_kept live liveEdges r = true.
Proof.
  unfold next_node_row, is_live. destruct (decide _) as [[Hl Hk]|Hn]; simpl.
  - rewrite Hk. unfold next_rev. split; [lia|by intros [_ ?]].
  - unfold node_leaves in Hn. destruct (node_kept live liveEdges r); [tauto|]. split; [tauto|by intros [_ ?]].
Qed.

Lemma next_node_row_kept r :
  node_kept live liveEdges r = true → next_node_row prev live liveEdges r = r.
Proof. intros Hk. unfold next_node_row. rewrite decide_False; [done|]. unfold node_leaves. rewrite Hk. by intros [_ ?]. Qed.

Lemma node_kept_spec r :
  node_kept live liveEdges r = true ↔
  ∃ n, live !! node_row_id r = Some n ∧ LNNode n = NVNode r ∧ LNSupersedes n = NVSupersedes r ∧
       slice_of liveEdges (node_row_id r) n = NVSliceDigest r.
Proof.
  unfold node_kept. destruct (live !! node_row_id r) as [n|] eqn:E.
  - rewrite !andb_true_iff, !bool_decide_eq_true. split; [intros [[? ?] ?]; eauto 10|].
    intros (n' & ? & ? & ? & ?). by simplify_eq.
  - split; [done|]. by intros (? & ? & _).
Qed.

Lemma elem_of_inserted row :
  row ∈ inserted_nodes prev live liveEdges ↔
  ∃ id n, live !! id = Some n ∧ row = fresh_node_row liveEdges rev id n ∧
    (∀ r, r ∈ SNodes prev → live_node r → node_row_id r = id → node_kept live liveEdges r = false).
Proof.
  unfold inserted_nodes. rewrite elem_of_sort_by, elem_of_app. unfold new_versions, new_nodes.
  rewrite !list_elem_of_omap. split.
  - intros [(r & [[Hl Hk] Hr]%list_elem_of_filter & E)|(id & [Hn Hid]%list_elem_of_filter & E)].
    + destruct (live !! node_row_id r) as [n|] eqn:El; simplify_eq/=. exists (node_row_id r), n.
      split; [done|]. split; [done|]. intros r' Hr' Hl' Heq.
      assert (r' = r) as ->; [|done].
      apply (NoDup_fmap_inj_on node_row_id (filter live_node (SNodes prev))); [done|by apply list_elem_of_filter..|done].
    + destruct (live !! id) as [n|] eqn:El; simplify_eq/=. exists id, n. split; [done|]. split; [done|].
      intros r Hr Hl <-. exfalso. apply Hn. unfold had_nodes. apply list_elem_of_fmap. exists r.
      split; [done|]. by apply list_elem_of_filter.
  - intros (id & n & El & -> & Hno). destruct (decide (id ∈ had_nodes prev)) as [Hh|Hh].
    + left. apply list_elem_of_fmap in Hh as (r & -> & [Hl Hr]%list_elem_of_filter). exists r.
      split; [|by rewrite El]. apply list_elem_of_filter. split; [|done]. split; [done|]. by apply Hno.
    + right. exists id. split; [|by rewrite El]. apply list_elem_of_filter. split; [done|].
      apply elem_of_sorted_keys. by eexists.
Qed.

Lemma inserted_id row : row ∈ inserted_nodes prev live liveEdges → is_Some (live !! node_row_id row).
Proof.
  intros (id & n & El & -> & _)%elem_of_inserted. unfold node_row_id; simpl. rewrite (Hkey _ _ El). by eexists.
Qed.

Lemma NoDup_inserted : NoDup (node_row_id <$> inserted_nodes prev live liveEdges).
Proof.
  unfold inserted_nodes. rewrite sort_by_perm, fmap_app. apply NoDup_app. split; [|split].
  - apply (NoDup_fmap_omap node_row_id).
    + intros r y _ E. destruct (live !! node_row_id r) as [n|] eqn:El; simplify_eq/=. apply (Hkey _ _ El).
    + eapply NoDup_fmap_filter_impl; [|exact Hids]. by intros x [? _].
  - intros id (r1 & -> & (r & [[Hl _] Hr]%list_elem_of_filter & E)%list_elem_of_omap)%list_elem_of_fmap
      (r2 & E2 & (id2 & [Hid _]%list_elem_of_filter & E')%list_elem_of_omap)%list_elem_of_fmap.
    destruct (live !! node_row_id r) as [n|] eqn:El; simplify_eq/=.
    destruct (live !! id2) as [n2|] eqn:El2; simplify_eq/=.
    change (NodeID (LNNode n) = NodeID (LNNode n2)) in E2. rewrite (Hkey _ _ El), (Hkey _ _ El2) in E2. subst id2.
    apply Hid, list_elem_of_fmap. exists r. split; [done|]. by apply list_elem_of_filter.
  - apply (NoDup_fmap_omap id).
    + intros id y _ E. destruct (live !! id) as [n|] eqn:El; simplify_eq/=. apply (Hkey _ _ El).
    + rewrite list_fmap_id. apply NoDup_filter, NoDup_sorted_keys.
Qed.

Lemma elem_of_next_live row :
  row ∈ SNodes next ∧ live_node row ↔
  (row ∈ SNodes prev ∧ live_node row ∧ node_kept live liveEdges row = true) ∨ row ∈ inserted_nodes prev live liveEdges.
Proof.
  unfold next; simpl. rewrite elem_of_app, list_elem_of_fmap. split.
  - intros [[(r & -> & Hr)|Hr] Hl]; [left|by right]. apply next_node_row_live in Hl as [Hl Hk].
    by rewrite next_node_row_kept.
  - intros [(Hr & Hl & Hk)|Hr].
    + split; [|done]. left. exists row. by rewrite next_node_row_kept.
    + split; [by right|]. apply elem_of_inserted in Hr as (id & n & _ & -> & _). done.
Qed.

Lemma NoDup_live_next : NoDup (live_ids next).
Proof.
  unfold live_ids, next; simpl. rewrite filter_app, fmap_app.
  rewrite (filter_fmap_ext live_node (λ r, live_node r ∧ node_kept live liveEdges r = true));
    [|by intros; apply next_node_row_live|by intros; apply next_node_row_id].
  apply NoDup_app. split; [|split].
  - eapply NoDup_fmap_filter_impl; [|exact Hids]. by intros x [? _].
  - intros id (r & -> & [[Hl Hk] Hr]%list_elem_of_filter)%list_elem_of_fmap
      (r2 & E & [_ (id2 & n & El & -> & Hno)%elem_of_inserted]%list_elem_of_filter)%list_elem_of_fmap.
    rewrite (Hno r) in Hk; [done..|]. rewrite E. apply (Hkey _ _ El).
  - apply NoDup_fmap_filter, NoDup_inserted.
Qed.

(** The live rows of the next state are the nodes the changes leave, each with its recomputed slice digest. *)
Lemma plan_nodes_next : plan_nodes next = live.
Proof.
  apply map_eq. intros id. apply option_eq. intros n. split.
  - intros (r & Hr & Hl & <- & ->)%plan_nodes_Some.
    destruct (proj1 (elem_of_next_live r) (conj Hr Hl)) as [(_ & _ & Hk)|Hi].
    + apply node_kept_spec in Hk as ([n s] & -> & Hn & Hs & _). simpl in *. by subst.
    + apply elem_of_inserted in Hi as (id & n & El & -> & _). unfold node_row_id; simpl.
      rewrite (Hkey _ _ El), El. by destruct n.
  - intros El. destruct (decide (Exists (λ r, live_node r ∧ node_row_id r = id ∧ node_kept live liveEdges r = true) (SNodes prev)))
      as [(r & Hr & Hl & <- & Hk)%Exists_exists|Hno].
    + destruct (proj2 (elem_of_next_live r)) as [Hr' Hl']; [by left|].
      rewrite (plan_nodes_elem next r NoDup_live_next Hr' Hl').
      apply node_kept_spec in Hk as ([n' s] & E & Hn & Hs & _). rewrite E in El. simplify_eq/=. by f_equal.
    + set (row := fresh_node_row liveEdges rev id n).
      destruct (proj2 (elem_of_next_live row)) as [Hr' Hl'].
      { right. apply elem_of_inserted. exists id, n. split; [done|]. split; [done|]. intros r Hr Hl Hid.
        destruct (node_kept live liveEdges r) eqn:Hk; [|done]. exfalso. apply Hno, Exists_exists. by exists r. }
      replace id with (node_row_id row) by (apply (Hkey _ _ El)).
      rewrite (plan_nodes_elem next row NoDup_live_next Hr' Hl'). by destruct n.
Qed.

Lemma parent_nodes_elem (st : State) row :
  NoDup (live_ids st) → row ∈ SNodes st → live_node row → parent_nodes st !! node_row_id row = Some row.
Proof. intros. by apply live_rows_elem. Qed.

(** The live row of each node: the parent's row when it stays, a new one otherwise. *)
Definition next_row_of (parent : option NodeVersion) (id : string) (n : liveNode) : NodeVersion :=
  match parent with
  | Some r => if node_kept live liveEdges r then r else fresh_node_row liveEdges rev id n
  | None => fresh_node_row liveEdges rev id n
  end.

Lemma parent_nodes_next id : parent_nodes next !! id = next_row_of (parent_nodes prev !! id) id <$> live !! id.
Proof.
  destruct (live !! id) as [n|] eqn:El; simpl.
  2:{ rewrite <- plan_nodes_next in El. unfold plan_nodes in El. rewrite lookup_fmap in El.
      by destruct (parent_nodes next !! id). }
  assert (∀ row, (row ∈ SNodes prev ∧ live_node row ∧ node_kept live liveEdges row = true) ∨ row ∈ inserted_nodes prev live liveEdges →
    node_row_id row = id → parent_nodes next !! id = Some row) as Hrow.
  { intros row H <-. apply elem_of_next_live in H as [? ?]. apply parent_nodes_elem; [apply NoDup_live_next|done|done]. }
  assert (∀ r, parent_nodes prev !! id = Some r → node_kept live liveEdges r = false →
    fresh_node_row liveEdges rev id n ∈ inserted_nodes prev live liveEdges) as Hfresh.
  { intros r Hr Hk. apply elem_of_inserted. exists id, n. split; [done|]. split; [done|]. intros r' Hr' Hl' <-.
    rewrite (parent_nodes_elem prev r') in Hr by done. by simplify_eq. }
  unfold next_row_of. destruct (parent_nodes prev !! id) as [r|] eqn:Ep.
  - destruct (node_kept live liveEdges r) eqn:Ek.
    + apply live_rows_Some in Ep as (? & ? & ?). apply Hrow; auto.
    + apply Hrow; [right; by apply (Hfresh r)|apply (Hkey _ _ El)].
  - apply Hrow; [right|apply (Hkey _ _ El)]. apply elem_of_inserted. exists id, n. split; [done|]. split; [done|].
    intros r' Hr' Hl' <-. by rewrite (parent_nodes_elem prev r') in Ep.
Qed.

Lemma next_slices row :
  row ∈ SNodes next → live_node row → NVSliceDigest row = SliceDigest (NVNode row) (incoming_of liveEdges (node_row_id row)).
Proof.
  intros Hr Hl. destruct (proj1 (elem_of_next_live row) (conj Hr Hl)) as [(_ & _ & Hk)|Hi].
  - apply node_kept_spec in Hk as (n & _ & Hn & _ & Hs). unfold slice_of in Hs. by rewrite <- Hs, Hn.
  - apply elem_of_inserted in Hi as (id & n & El & -> & _). unfold fresh_node_row, slice_of, node_row_id; simpl.
    by rewrite (Hkey _ _ El).
Qed.

(** *** Edges *)

Lemma next_edge_row_id r : edge_row_id (next_edge_row prev liveEdges r) = edge_row_id r.
Proof. unfold next_edge_row. by destruct (decide _). Qed.

Lemma next_edge_row_live r :
  live_edge (next_edge_row prev liveEdges r) ↔ live_edge r ∧ is_Some (liveEdges !! edge_row_id r).
Proof.
  unfold next_edge_row, is_live. destruct (decide _) as [[Hl Hk]|Hn]; simpl.
  - rewrite Hk. unfold next_rev. split; [lia|by intros [_ [? ?]]].
  - unfold edge_leaves in Hn. destruct (liveEdges !! edge_row_id r); [|tauto]. split; [by eauto|tauto].
Qed.

Lemma next_edge_row_kept r : is_Some (liveEdges !! edge_row_id r) → next_edge_row prev liveEdges r = r.
Proof. intros [e He]. unfold next_edge_row. rewrite decide_False; [done|]. unfold edge_leaves. rewrite He. by intros [_ ?]. Qed.

Lemma elem_of_inserted_edges row :
  row ∈ inserted_edges prev liveEdges ↔
  ∃ id e, liveEdges !! id = Some e ∧ row = mkEdgeRow e rev 0 ∧ id ∉ had_edges prev.
Proof.
  unfold inserted_edges. rewrite list_elem_of_omap. split.
  - intros (id & [Hn _]%list_elem_of_filter & E). destruct (liveEdges !! id) as [e|] eqn:El; simplify_eq/=. eauto.
  - intros (id & e & El & -> & Hn). exists id. rewrite El. split; [|done].
    apply list_elem_of_filter. split; [done|]. apply elem_of_sorted_keys. by eexists.
Qed.

Lemma NoDup_inserted_edges : NoDup (edge_row_id <$> inserted_edges prev liveEdges).
Proof.
  apply (NoDup_fmap_omap id).
  - intros id y _ E. destruct (liveEdges !! id) as [e|] eqn:El; simplify_eq/=. apply (HkeyE _ _ El).
  - rewrite list_fmap_id. apply NoDup_filter, NoDup_sorted_keys.
Qed.

Lemma NoDup_live_edges_next : NoDup (live_edge_ids next).
Proof.
  unfold live_edge_ids, next; simpl. rewrite filter_app, fmap_app.
  rewrite (filter_fmap_ext live_edge (λ r, live_edge r ∧ is_Some (liveEdges !! edge_row_id r)));
    [|by intros; apply next_edge_row_live|by intros; apply next_edge_row_id].
  apply NoDup_app. split; [|split].
  - eapply NoDup_fmap_filter_impl; [|exact HidsE]. by intros x [? _].
  - intros id (r & -> & [[Hl Hk] Hr]%list_elem_of_filter)%list_elem_of_fmap
      (r2 & E & [_ (id2 & e & El & -> & Hno)%elem_of_inserted_edges]%list_elem_of_filter)%list_elem_of_fmap.
    apply Hno, list_elem_of_fmap. exists r. rewrite E. split; [symmetry; apply (HkeyE _ _ El)|].
    by apply list_elem_of_filter.
  - apply NoDup_fmap_filter, NoDup_inserted_edges.
Qed.

Lemma elem_of_next_live_edge row :
  row ∈ SEdges next ∧ live_edge row ↔
  (row ∈ SEdges prev ∧ live_edge row ∧ is_Some (liveEdges !! edge_row_id row)) ∨ row ∈ inserted_edges prev liveEdges.
Proof.
  unfold next; simpl. rewrite elem_of_app, list_elem_of_fmap. split.
  - intros [[(r & -> & Hr)|Hr] Hl]; [left|by right]. apply next_edge_row_live in Hl as [Hl Hk].
    by rewrite next_edge_row_kept.
  - intros [(Hr & Hl & Hk)|Hr].
    + split; [|done]. left. exists row. by rewrite next_edge_row_kept.
    + split; [by right|]. apply elem_of_inserted_edges in Hr as (id & n & _ & -> & _). done.
Qed.

Lemma plan_edges_next : plan_edges next = liveEdges.
Proof.
  apply map_eq. intros id. apply option_eq. intros e. split.
  - intros (r & Hr & Hl & <- & ->)%plan_edges_Some.
    destruct (proj1 (elem_of_next_live_edge r) (conj Hr Hl)) as [(Hr' & _ & [e' He'])|Hi].
    + rewrite He'. f_equal. symmetry. by apply (Hkept _ _ r He').
    + apply elem_of_inserted_edges in Hi as (id & e & El & -> & _). unfold edge_row_id; simpl. by rewrite (HkeyE _ _ El).
  - intros El. destruct (decide (id ∈ had_edges prev)) as [Hh|Hh].
    + apply list_elem_of_fmap in Hh as (r & -> & [Hl Hr]%list_elem_of_filter).
      destruct (proj2 (elem_of_next_live_edge r)) as [Hr' Hl']; [left; by eauto|].
      rewrite (plan_edges_elem next r NoDup_live_edges_next Hr' Hl'). f_equal. by apply (Hkept _ _ r El).
    + destruct (proj2 (elem_of_next_live_edge (mkEdgeRow e rev 0))) as [Hr' Hl'].
      { right. apply elem_of_inserted_edges. eauto. }
      replace id with (edge_row_id (mkEdgeRow e rev 0)) by (apply (HkeyE _ _ El)).
      apply (plan_edges_elem next _ NoDup_live_edges_next Hr' Hl').
Qed.

Definition next_edge_of (parent : option EdgeRow) (e : Edge) : EdgeRow :=
  match parent with Some r => r | None => mkEdgeRow e rev 0 end.

Lemma parent_edges_next id : parent_edges next !! id = next_edge_of (parent_edges prev !! id) <$> liveEdges !! id.
Proof.
  destruct (liveEdges !! id) as [e|] eqn:El; simpl.
  2:{ rewrite <- plan_edges_next in El. unfold plan_edges in El. rewrite lookup_fmap in El.
      by destruct (parent_edges next !! id). }
  assert (∀ row, (row ∈ SEdges prev ∧ live_edge row ∧ is_Some (liveEdges !! edge_row_id row)) ∨ row ∈ inserted_edges prev liveEdges →
    edge_row_id row = id → parent_edges next !! id = Some row) as Hrow.
  { intros row H <-. apply elem_of_next_live_edge in H as [? ?]. apply live_rows_elem; [apply NoDup_live_edges_next|done|done]. }
  unfold next_edge_of. destruct (parent_edges prev !! id) as [r|] eqn:Ep.
  - apply live_rows_Some in Ep as (? & ? & Hid). apply Hrow; [|done]. left. rewrite Hid, El. eauto.
  - apply Hrow; [right|apply (HkeyE _ _ El)]. apply elem_of_inserted_edges. exists id, e. split; [done|]. split; [done|].
    intros (r & -> & [Hl Hr]%list_elem_of_filter)%list_elem_of_fmap.
    unfold parent_edges in Ep. by rewrite (live_rows_elem edge_row_id ERRetiredRev (SEdges prev) r) in Ep.
Qed.
End materialize.
