(* ===== verification/DagPlan.v ===== *)
(** * DagPlan: the invariant of a plan, and what folding a revision promises.

    [plan_inv] is what every state of a plan satisfies. The abstract plan ([plan]: nodes, edges and one lifecycle state per
    subject) is what a change list means; a fold without violations preserves the invariant, implements the abstract run, and
    leaves every past snapshot as it was. *)
From S2P Require Import Prelude GoLib Json DagModel DagLifecycle DagGraph DagAcyclic DagFold DagInvariant.
Local Open Scope list_scope.

(** ** The invariant *)

Definition rows_between (rev introduced retired : Z) : Prop :=
  (1 ≤ introduced ≤ rev)%Z ∧ (retired = 0 ∨ introduced < retired ≤ rev)%Z.

(** The graph the live rows form. *)
Record graph_ok (nodes : gmap string liveNode) (edges : gmap string Edge) : Prop := {
  go_edges : ∀ id e, edges !! id = Some e → edge_ok nodes e;
  go_acyclic : acyclic nodes edges
}.

Record plan_inv (s : State) : Prop := {
  pi_rev : (0 ≤ SRevision s)%Z;
  pi_nodes : ∀ r, r ∈ SNodes s → rows_between (SRevision s) (NVIntroducedRev r) (NVRetiredRev r);
  pi_edges : ∀ r, r ∈ SEdges s → rows_between (SRevision s) (ERIntroducedRev r) (ERRetiredRev r);
  pi_live_ids : NoDup (live_ids s);
  pi_versions : NoDup ((λ r, (node_row_id r, NVIntroducedRev r)) <$> SNodes s);
  pi_edge_ids : NoDup (edge_row_id <$> SEdges s);
  pi_named : ∀ r, r ∈ SNodes s → node_row_id r ≠ "";
  pi_life : life_inv (SRevision s) (SLifecycle s);
  pi_graph : graph_ok (plan_nodes s) (plan_edges s);
  pi_slices : ∀ r, r ∈ SNodes s → live_node r →
    NVSliceDigest r = SliceDigest (NVNode r) (incoming_of (plan_edges s) (node_row_id r));
  pi_life_ids : ∀ r, r ∈ SLifecycle s → LNodeID r = "" ∨ ∃ row, row ∈ SNodes s ∧ node_row_id row = LNodeID r
}.

(** Changes whose nodes have an id, as the decoder guarantees. *)
Definition named_change (c : Change) : bool :=
  match CNode c with Some n => negb (bool_decide (NodeID n = "")) | None => true end.
Definition named (cs : list Change) : bool := forallb named_change cs.

Lemma rows_pos_of s : plan_inv s → rows_pos s.
Proof.
  intros Hi. split; intros r Hr.
  - destruct (pi_nodes s Hi r Hr) as [? [?|?]]; lia.
  - destruct (pi_edges s Hi r Hr) as [? [?|?]]; lia.
Qed.

Lemma live_edge_ids_NoDup s : NoDup (edge_row_id <$> SEdges s) → NoDup (live_edge_ids s).
Proof. apply NoDup_fmap_filter. Qed.

(** The empty plan. *)
Lemma plan_inv_empty id project : plan_inv (mkState id project 0 [] [] []).
Proof.
  split; simpl; try (by intros ? ?%elem_of_nil); try (apply NoDup_nil_2); [done|apply life_inv_nil|]. split.
  - intros x e H. unfold plan_edges, parent_edges in H. by rewrite lookup_fmap in H.
  - intros u Hu. apply tc_last in Hu as (y & _ & (i & e & H & _)).
    unfold plan_edges, parent_edges in H. by rewrite lookup_fmap in H.
Qed.

(** ** The abstract plan *)

Record plan : Type := mkPlan {
  pl_nodes : gmap string liveNode;
  pl_edges : gmap string Edge;
  pl_life : string → string
}.

Definition view (s : State) : plan := mkPlan (plan_nodes s) (plan_edges s) (currentLife (SLifecycle s)).

(** One change, when it makes sense. *)
Definition graph_step (nodes : gmap string liveNode) (edges : gmap string Edge) (c : Change)
    : option (gmap string liveNode * gmap string Edge) :=
  match op_of (COp c) with
  | Some OpAddNode =>
    n ← CNode c; guard (nodes !! NodeID n = None);; Some (<[NodeID n := mkLiveNode n ""]> nodes, edges)
  | Some OpUpdateNode =>
    n ← CNode c; l ← nodes !! NodeID n; Some (<[NodeID n := mkLiveNode n (LNSupersedes l)]> nodes, edges)
  | Some OpReplaceNode =>
    n ← CNode c; _ ← nodes !! CSupersedesNodeID c; guard (nodes !! NodeID n = None);;
    Some (<[NodeID n := mkLiveNode n (CSupersedesNodeID c)]> (delete (CSupersedesNodeID c) nodes), edges)
  | Some OpRetireNode => _ ← nodes !! CNodeID c; Some (delete (CNodeID c) nodes, edges)
  | Some OpAddEdge => e ← CEdge c; guard (edges !! EdgeID e = None);; Some (nodes, <[EdgeID e := e]> edges)
  | Some OpRetireEdge => _ ← edges !! CEdgeID c; Some (nodes, delete (CEdgeID c) edges)
  | _ => Some (nodes, edges)
  end.

Definition plan_step (p : plan) (c : Change) : option plan :=
  g ← graph_step (pl_nodes p) (pl_edges p) c; f ← life_step (pl_life p) c; Some (mkPlan g.1 g.2 f).

Fixpoint plan_run (p : plan) (cs : list Change) : option plan :=
  match cs with [] => Some p | c :: cs' => p' ← plan_step p c; plan_run p' cs' end.

(** ** The change loop without violations is the abstract run *)

Section clean.
Context (prev : State).
Hypothesis Hnamed : parent_nodes prev !! "" = None.

(** Violations only accumulate. *)
Lemma targetNode_vs i path id a : a_vs (targetNode prev i path id a).1 = [] → a_vs a = [].
Proof. unfold targetNode. repeat case_match; simpl; try done; by intros [? _]%app_nil. Qed.

Lemma introduce_vs i path n s a : a_vs (introduce i path n s a) = [] → a_vs a = [].
Proof. unfold introduce. case_match; simpl; [by intros [? _]%app_nil|done]. Qed.

Lemma change_step_vs i c a a' : change_step prev i c a = Some a' → a_vs a' = [] → a_vs a = [].
Proof.
  unfold change_step. intros H Hv. destruct (op_of (COp c)) as [o|]; [|by simplify_eq].
  destruct o;
    repeat match type of H with
    | context [targetNode ?p ?i ?path ?id ?a] =>
      let Ht := fresh "Ht" in pose proof (targetNode_vs i path id a) as Ht; destruct (targetNode p i path id a) as [a1 []]
    | context [CNode c] => destruct (CNode c) as [n|]; simplify_eq/=
    | context [CEdge c] => destruct (CEdge c) as [e|]; simplify_eq/=
    | context [a_planLife a] => destruct (a_planLife a); simplify_eq/=
    end; simplify_eq/=; try (apply app_nil in Hv as [Hv _]); eauto using introduce_vs.
  - apply introduce_vs in Hv. eauto.
  - revert Hv. unfold add_edge. case_match; simpl; [by intros [? _]%app_nil|done].
  - revert Hv. unfold retire_edge. repeat case_match; simpl; try done; by intros [? _]%app_nil.
Qed.

Lemma change_loop_vs cs : ∀ i a a', change_loop prev i cs a = Some a' → a_vs a' = [] → a_vs a = [].
Proof.
  induction cs as [|c cs IH]; intros i a a' H Hv; simplify_eq/=; [done|].
  destruct (change_step prev i c a) as [a1|] eqn:E; simplify_eq/=. eauto using change_step_vs.
Qed.

(** What the accumulator and the abstract plan agree on. *)
Record tracks (a : acc) (p : plan) : Prop := {
  tr_nodes : a_live a = pl_nodes p;
  tr_edges : a_liveEdges a = pl_edges p;
  tr_taken : ∀ id, is_Some (a_live a !! id) → is_Some (a_taken a !! id);
  tr_takenE : ∀ id, is_Some (a_liveEdges a !! id) → is_Some (a_takenEdge a !! id);
  tr_target : ∀ id, is_Some (parent_nodes prev !! id) → a_changedNode a !! id = None → is_Some (a_live a !! id);
  tr_targetE : ∀ id, is_Some (parent_edges prev !! id) → a_changedEdge a !! id = None → is_Some (a_liveEdges a !! id);
  tr_life : ∀ s, s ≠ "" → a_changedNode a !! s = None → pl_life p s = currentLife (SLifecycle prev) s;
  tr_planLife : a_planLife a = None → pl_life p "" = currentLife (SLifecycle prev) ""
}.

Lemma tracks_start : rows_pos prev → tracks (start_acc prev) (view prev).
Proof.
  intros [Hn He]. split; simpl; try done.
  - intros id [n (r & Hr & _ & <- & _)%plan_nodes_Some]. apply taken_ids_is_Some; [done|]. eauto.
  - intros id [n (r & Hr & _ & <- & _)%plan_edges_Some]. apply taken_ids_is_Some; [done|]. eauto.
  - intros id H _. by rewrite lookup_fmap, fmap_is_Some.
  - intros id H _. by rewrite lookup_fmap, fmap_is_Some.
Qed.

Lemma targetNode_clean i path id a a1 ok :
  targetNode prev i path id a = (a1, ok) → a_vs a1 = [] →
  ok = true ∧ a1 = with_changedNode a id i ∧ is_Some (parent_nodes prev !! id) ∧ a_changedNode a !! id = None.
Proof.
  unfold targetNode. intros H Hv. repeat case_match; simplify_eq/=; try (by apply app_nil in Hv as [_ ?]). eauto.
Qed.

Lemma tracks_touch a p id i : tracks a p → tracks (with_changedNode a id i) p.
Proof.
  intros [H1 H2 H3 H4 H5 H6 H7 H8]. split; simpl; try assumption.
  - intros j Hj Hc. rewrite lookup_insert in Hc. destruct (decide _) in Hc; [done|by apply H5].
  - intros j Hj Hc. rewrite lookup_insert in Hc. destruct (decide _) in Hc; [done|by apply H7].
Qed.

Lemma tracks_delete a p id i :
  tracks a p →
  tracks (with_live (with_changedNode a id i) (delete id (a_live a))) (mkPlan (delete id (pl_nodes p)) (pl_edges p) (pl_life p)).
Proof.
  intros Ht. destruct (tracks_touch a p id i Ht) as [H1 H2 H3 H4 H5 H6 H7 H8]. simpl in *.
  split; simpl; try assumption; [by rewrite <- H1| |].
  - intros j [n [_ Hj]%lookup_delete_Some]. apply H3. by eexists.
  - intros j Hj Hc. rewrite lookup_delete_ne; [by apply H5|]. intros ->. by rewrite lookup_insert_eq in Hc.
Qed.

Lemma tracks_update a p n s i :
  is_Some (a_taken a !! NodeID n) → tracks a p →
  tracks (with_live (with_changedNode a (NodeID n) i) (<[NodeID n := mkLiveNode n s]> (a_live a)))
    (mkPlan (<[NodeID n := mkLiveNode n s]> (pl_nodes p)) (pl_edges p) (pl_life p)).
Proof.
  intros Hk Ht. destruct (tracks_touch a p (NodeID n) i Ht) as [H1 H2 H3 H4 H5 H6 H7 H8]. simpl in *.
  split; simpl; try assumption; [by rewrite <- H1| |].
  - intros j. rewrite lookup_insert. destruct (decide _) as [<-|]; [done|apply H3].
  - intros j Hj Hc. rewrite lookup_insert. destruct (decide _); [by eexists|by apply H5].
Qed.

Lemma tracks_introduce a p i path n s :
  tracks a p → a_vs (introduce i path n s a) = [] →
  a_vs a = [] ∧ pl_nodes p !! NodeID n = None ∧
  tracks (introduce i path n s a) (mkPlan (<[NodeID n := mkLiveNode n s]> (pl_nodes p)) (pl_edges p) (pl_life p)).
Proof.
  intros [H1 H2 H3 H4 H5 H6 H7 H8]. unfold introduce. destruct (a_taken a !! NodeID n) eqn:E; simpl.
  { by intros [_ ?]%app_nil. }
  intros Hv. split; [done|]. split.
  - rewrite <- H1. apply eq_None_not_Some. intros Hs. apply H3 in Hs as [? ?]. congruence.
  - split; simpl; try assumption; [by rewrite <- H1| |].
    + intros j. rewrite !lookup_insert. destruct (decide _); [by eexists|apply H3].
    + intros j Hj Hc. rewrite lookup_insert. destruct (decide _); [by eexists|by apply H5].
Qed.

Lemma tracks_add_edge a p i path e :
  tracks a p → a_vs (add_edge i path e a) = [] →
  a_vs a = [] ∧ pl_edges p !! EdgeID e = None ∧
  tracks (add_edge i path e a) (mkPlan (pl_nodes p) (<[EdgeID e := e]> (pl_edges p)) (pl_life p)).
Proof.
  intros [H1 H2 H3 H4 H5 H6 H7 H8]. unfold add_edge. destruct (a_takenEdge a !! EdgeID e) eqn:E; simpl.
  { by intros [_ ?]%app_nil. }
  intros Hv. split; [done|]. split.
  - rewrite <- H2. apply eq_None_not_Some. intros Hs. apply H4 in Hs as [? ?]. congruence.
  - split; simpl; try assumption; [by rewrite <- H2| |].
    + intros j. rewrite !lookup_insert. destruct (decide _); [by eexists|apply H4].
    + intros j Hj Hc. rewrite lookup_insert. destruct (decide _); [by eexists|by apply H6].
Qed.

Lemma tracks_retire_edge a p i path id :
  tracks a p → a_vs (retire_edge prev i path id a) = [] →
  a_vs a = [] ∧ is_Some (pl_edges p !! id) ∧
  tracks (retire_edge prev i path id a) (mkPlan (pl_nodes p) (delete id (pl_edges p)) (pl_life p)).
Proof.
  intros [H1 H2 H3 H4 H5 H6 H7 H8]. unfold retire_edge.
  destruct (a_addedAt a !! id); [by intros [_ ?]%app_nil|].
  destruct (parent_edges prev !! id) as [r|] eqn:Er; [|by intros [_ ?]%app_nil].
  destruct (a_changedEdge a !! id) eqn:Ec; [by intros [_ ?]%app_nil|]. simpl. intros Hv.
  split; [done|]. split; [rewrite <- H2; apply H6; [by eexists|done]|].
  split; simpl; try assumption; [by rewrite <- H2| |].
  - intros j [n [_ Hj]%lookup_delete_Some]. apply H4. by eexists.
  - intros j Hj Hc. destruct (decide (id = j)) as [<-|Hne]; [by rewrite lookup_insert_eq in Hc|].
    rewrite lookup_delete_ne by done. apply H6; [done|]. by rewrite lookup_insert_ne in Hc.
Qed.

Lemma tracks_life a p s to vs i :
  s ≠ "" → tracks a p →
  tracks (with_vs (with_changedNode a s i) vs) (mkPlan (pl_nodes p) (pl_edges p) (<[s := to]> (pl_life p))).
Proof.
  intros Hs Ht. destruct (tracks_touch a p s i Ht) as [H1 H2 H3 H4 H5 H6 H7 H8]. simpl in *.
  split; simpl; try assumption.
  - intros j Hj Hc. destruct (decide (s = j)) as [<-|Hne]; [by rewrite lookup_insert_eq in Hc|].
    rewrite fn_lookup_insert_ne by done. by apply H7.
  - intros Hc. rewrite fn_lookup_insert_ne by done. by apply H8.
Qed.

Lemma tracks_planLife a p to vs i :
  tracks a p → tracks (with_vs (with_planLife a i) vs) (mkPlan (pl_nodes p) (pl_edges p) (<["" := to]> (pl_life p))).
Proof.
  intros [H1 H2 H3 H4 H5 H6 H7 H8]. split; simpl; try assumption; [|done].
  intros j Hj Hc. rewrite fn_lookup_insert_ne by done. by apply H7.
Qed.

Lemma app_ne_nil (x y : string) : (y ≠ "" → x +:+ y ≠ "")%string.
Proof. by destruct x, y. Qed.

Lemma transitionRefusal_nil o subject from : transitionRefusal o subject from = "" → is_Some (transitions o from).
Proof.
  unfold transitionRefusal. destruct (transitions o from); [by eexists|].
  repeat case_bool_decide; intros Hx; exfalso; revert Hx; by repeat apply app_ne_nil.
Qed.

Lemma life_violations_nil o op path subject from :
  life_violations o op path subject from = [] → is_Some (transitions o from).
Proof. unfold life_violations. case_bool_decide as Hw; [|done]. intros _. by eapply transitionRefusal_nil. Qed.

Lemma node_life_step a p i c o path vs a1 ok :
  op_of (COp c) = Some o → is_lifecycle o = true → life_subject c = CNodeID c →
  tracks a p → targetNode prev i path (CNodeID c) a = (a1, ok) →
  a_vs (if ok : bool then with_vs a1 vs else a1) = [] →
  (vs = [] → is_Some (transitions o (currentLife (SLifecycle prev) (CNodeID c)))) →
  a_vs a = [] ∧ ∃ f, life_step (pl_life p) c = Some f ∧
    tracks (if ok : bool then with_vs a1 vs else a1) (mkPlan (pl_nodes p) (pl_edges p) f).
Proof.
  intros Ho Hl Hs Ht Ha Hv Hok.
  assert (a_vs a1 = []) as Hv1 by (destruct ok; [by apply app_nil in Hv as [? _]|done]).
  destruct (targetNode_clean _ _ _ _ _ _ Ha Hv1) as (-> & -> & Hp & Hc). apply app_nil in Hv as [Hv ->].
  assert (CNodeID c ≠ "") as Hne by (intros E; rewrite E, Hnamed in Hp; by destruct Hp).
  destruct Hok as [to Hto]; [done|]. rewrite <- (tr_life _ _ Ht) in Hto by done.
  split; [done|]. exists (<[CNodeID c := to]> (pl_life p)). split; [|by apply tracks_life].
  unfold life_step. by rewrite Ho, Hl, Hs, Hto.
Qed.

Lemma plan_life_step a p i c o path vs a' :
  op_of (COp c) = Some o → is_lifecycle o = true → life_subject c = "" →
  tracks a p →
  a' = match a_planLife a with Some j => with_vs a [path j] | None => with_vs (with_planLife a i) vs end →
  a_vs a' = [] → (vs = [] → is_Some (transitions o (currentLife (SLifecycle prev) ""))) →
  a_vs a = [] ∧ ∃ f, life_step (pl_life p) c = Some f ∧ tracks a' (mkPlan (pl_nodes p) (pl_edges p) f).
Proof.
  intros Ho Hl Hs Ht -> Hv Hok. destruct (a_planLife a) as [j|] eqn:E; [by apply app_nil in Hv as [_ ?]|].
  apply app_nil in Hv as [Hv ->]. destruct Hok as [to Hto]; [done|]. rewrite <- (tr_planLife _ _ Ht E) in Hto.
  split; [done|]. exists (<["" := to]> (pl_life p)). split; [|by apply tracks_planLife].
  unfold life_step. by rewrite Ho, Hl, Hs, Hto.
Qed.

Lemma life_subject_node c o : op_of (COp c) = Some o → isNodeLifecycleOp (op_name o) = true → life_subject c = CNodeID c.
Proof. intros Ho%op_of_Some Hn. unfold life_subject. by rewrite Ho, Hn. Qed.

Lemma life_subject_plan c o : op_of (COp c) = Some o → isNodeLifecycleOp (op_name o) = false → life_subject c = "".
Proof. intros Ho%op_of_Some Hn. unfold life_subject. by rewrite Ho, Hn. Qed.

Lemma life_step_other f c o : op_of (COp c) = Some o → is_lifecycle o = false → life_step f c = Some f.
Proof. intros Ho Hl. unfold life_step. by rewrite Ho, Hl. Qed.

Definition stepped (a a' : acc) (p : plan) (c : Change) : Prop :=
  a_vs a = [] ∧ ∃ p', plan_step p c = Some p' ∧ tracks a' p'.

Lemma stepped_graph a a' p c o nodes edges :
  op_of (COp c) = Some o → is_lifecycle o = false → a_vs a = [] →
  graph_step (pl_nodes p) (pl_edges p) c = Some (nodes, edges) → tracks a' (mkPlan nodes edges (pl_life p)) → stepped a a' p c.
Proof.
  intros Ho Hl Hv Hg Ht. split; [done|]. unfold plan_step. rewrite Hg; simpl.
  rewrite (life_step_other _ _ _ Ho Hl). simpl. eauto.
Qed.

Lemma stepped_life a a' p c o f :
  op_of (COp c) = Some o → is_lifecycle o = true → a_vs a = [] →
  life_step (pl_life p) c = Some f → tracks a' (mkPlan (pl_nodes p) (pl_edges p) f) → stepped a a' p c.
Proof.
  intros Ho Hl Hv Hf Ht. split; [done|]. unfold plan_step, graph_step. rewrite Ho, Hf. by destruct o; simpl; eauto.
Qed.

Lemma update_stepped a p i c n :
  tracks a p → acc_inv prev a → op_of (COp c) = Some OpUpdateNode → CNode c = Some n →
  ∀ a', change_step prev i c a = Some a' → a_vs a' = [] → stepped a a' p c.
Proof.
  intros Ht Hai Ho Hn a' H Hv. unfold change_step in H. rewrite Ho, Hn in H; simpl in H.
  destruct (targetNode _ _ _ _ _) as [a1 ok] eqn:Ea. simplify_eq/=.
  assert (a_vs a1 = []) as Hv1 by (by destruct ok).
  destruct (targetNode_clean _ _ _ _ _ _ Ea Hv1) as (-> & -> & Hp & Hc). simpl in *.
  destruct (tr_target _ _ Ht (NodeID n) Hp Hc) as [l Hl]. rewrite Hl.
  eapply (stepped_graph _ _ _ _ _ _ _ Ho); [done|done| |].
  - unfold graph_step. rewrite Ho, Hn; simpl. rewrite <- (tr_nodes _ _ Ht), Hl. simpl. done.
  - rewrite (tr_nodes _ _ Ht) at 2. apply tracks_update; [|done].
    destruct Hp as [r Hp]. apply live_rows_Some in Hp as (Hr & _ & <-). by apply (ai_taken _ _ Hai).
Qed.

Lemma replace_stepped a p i c n :
  tracks a p → op_of (COp c) = Some OpReplaceNode → CNode c = Some n →
  ∀ a', change_step prev i c a = Some a' → a_vs a' = [] → stepped a a' p c.
Proof.
  intros Ht Ho Hn a' H Hv. unfold change_step in H. rewrite Ho, Hn in H; simpl in H.
  destruct (targetNode _ _ _ _ _) as [a1 ok] eqn:Ea. simplify_eq/=.
  assert (a_vs a1 = []) as Hv1.
  { revert Hv. unfold introduce. case_match; simpl; [by intros [_ ?]%app_nil|]. by destruct ok. }
  destruct (targetNode_clean _ _ _ _ _ _ Ea Hv1) as (-> & -> & Hp & Hc). simpl in *.
  destruct (tr_target _ _ Ht _ Hp Hc) as [l Hl].
  destruct (tracks_introduce _ _ i (change_at i +:+ ".node.node_id") n (CSupersedesNodeID c)
    (tracks_delete a p (CSupersedesNodeID c) i Ht) Hv) as (_ & Hd & Ht').
  assert (a_live a !! NodeID n = None) as Hn'.
  { apply eq_None_not_Some. intros [w Hw]%(tr_taken _ _ Ht).
    revert Hv. unfold introduce. simpl. rewrite Hw. simpl. by intros [_ ?]%app_nil. }
  eapply (stepped_graph _ _ _ _ _ _ _ Ho); [done|done| |exact Ht'].
  unfold graph_step. rewrite Ho, Hn; simpl. rewrite <- (tr_nodes _ _ Ht), Hl. simpl.
  by rewrite option_guard_True.
Qed.

Lemma retire_stepped a p i c :
  tracks a p → op_of (COp c) = Some OpRetireNode →
  ∀ a', change_step prev i c a = Some a' → a_vs a' = [] → stepped a a' p c.
Proof.
  intros Ht Ho a' H Hv. unfold change_step in H. rewrite Ho in H; simpl in H.
  destruct (targetNode _ _ _ _ _) as [a1 ok] eqn:Ea. simplify_eq/=.
  assert (a_vs a1 = []) as Hv1 by (by destruct ok).
  destruct (targetNode_clean _ _ _ _ _ _ Ea Hv1) as (-> & -> & Hp & Hc). simpl in *.
  destruct (tr_target _ _ Ht _ Hp Hc) as [l Hl].
  eapply (stepped_graph _ _ _ _ _ _ _ Ho); [done|done| |by apply tracks_delete].
  unfold graph_step. rewrite Ho; simpl. rewrite <- (tr_nodes _ _ Ht), Hl. done.
Qed.

Lemma node_life_stepped a p i c o :
  tracks a p → op_of (COp c) = Some o → isNodeLifecycleOp (op_name o) = true →
  ∀ a', change_step prev i c a = Some a' → a_vs a' = [] → stepped a a' p c.
Proof.
  intros Ht Ho Hn a' H Hv. unfold change_step in H. rewrite Ho in H.
  destruct o; simpl in Hn; try done; destruct (targetNode _ _ _ _ _) as [a1 ok] eqn:Ea; simplify_eq/=;
    (edestruct node_life_step as (? & f & Hf & Ht');
      [exact Ho|done|by apply (life_subject_node _ _ Ho)|exact Ht|exact Ea|exact Hv|apply life_violations_nil|];
     by eapply (stepped_life _ _ _ _ _ _ Ho)).
Qed.

Lemma plan_life_stepped a p i c o :
  tracks a p → op_of (COp c) = Some o → o = OpPausePlan ∨ o = OpResumePlan →
  ∀ a', change_step prev i c a = Some a' → a_vs a' = [] → stepped a a' p c.
Proof.
  intros Ht Ho Hn a' H Hv. unfold change_step in H. rewrite Ho in H.
  destruct Hn as [-> | ->]; (edestruct plan_life_step as (? & f & Hf & Ht');
    [exact Ho|done|by apply (life_subject_plan _ _ Ho)|exact Ht| |exact Hv|apply life_violations_nil|];
    [|by eapply (stepped_life _ _ _ _ _ _ Ho)]);
    (destruct (a_planLife a); injection H as H; symmetry; exact H).
Qed.

Lemma change_step_tracks a p i c a' :
  tracks a p → acc_inv prev a → change_step prev i c a = Some a' → a_vs a' = [] → stepped a a' p c.
Proof.
  intros Ht Hai H Hv. destruct (op_of (COp c)) as [o|] eqn:Ho.
  2:{ unfold change_step in H. rewrite Ho in H. simplify_eq/=. split; [done|]. exists p.
      unfold plan_step, graph_step, life_step. rewrite Ho. simpl. by destruct p. }
  destruct o; try (by eapply node_life_stepped); try (eapply plan_life_stepped; by eauto).
  - unfold change_step in H. rewrite Ho in H. destruct (CNode c) as [n|] eqn:Hn; simplify_eq/=.
    destruct (tracks_introduce a p i _ n "" Ht Hv) as (? & Hf & Ht').
    eapply (stepped_graph _ _ _ _ _ _ _ Ho); [done|done| |exact Ht'].
    unfold graph_step. rewrite Ho, Hn; simpl. by rewrite option_guard_True.
  - destruct (CNode c) as [n|] eqn:Hn; [by eapply update_stepped|]. unfold change_step in H. by rewrite Ho, Hn in H.
  - destruct (CNode c) as [n|] eqn:Hn; [by eapply replace_stepped|]. unfold change_step in H. rewrite Ho, Hn in H.
    by destruct (targetNode _ _ _ _ _).
  - by eapply retire_stepped.
  - unfold change_step in H. rewrite Ho in H. destruct (CEdge c) as [e|] eqn:He; simplify_eq/=.
    destruct (tracks_add_edge a p i _ e Ht Hv) as (? & Hf & Ht').
    eapply (stepped_graph _ _ _ _ _ _ _ Ho); [done|done| |exact Ht'].
    unfold graph_step. rewrite Ho, He; simpl. by rewrite option_guard_True.
  - unfold change_step in H. rewrite Ho in H. simplify_eq/=.
    destruct (tracks_retire_edge a p i _ _ Ht Hv) as (? & [e He] & Ht').
    eapply (stepped_graph _ _ _ _ _ _ _ Ho); [done|done| |exact Ht'].
    unfold graph_step. rewrite Ho; simpl. by rewrite He.
Qed.

Lemma change_loop_tracks cs : ∀ i a p a',
  tracks a p → acc_inv prev a → change_loop prev i cs a = Some a' → a_vs a' = [] →
  a_vs a = [] ∧ ∃ p', plan_run p cs = Some p' ∧ tracks a' p'.
Proof.
  induction cs as [|c cs IH]; intros i a p a' Ht Hai H Hv; simplify_eq/=; [eauto|].
  destruct (change_step prev i c a) as [a1|] eqn:E; simplify_eq/=.
  assert (a_vs a1 = []) as Hv1 by (eapply change_loop_vs; eauto).
  destruct (change_step_tracks a p i c a1 Ht Hai E Hv1) as (? & p1 & Hp1 & Ht1).
  rewrite Hp1. simpl. split; [done|]. by eapply IH; eauto using change_step_inv.
Qed.
End clean.

Lemma plan_run_life cs : ∀ p p', plan_run p cs = Some p' → life_run (pl_life p) cs = Some (pl_life p').
Proof.
  induction cs as [|c cs IH]; intros p p' H; simplify_eq/=; [done|].
  destruct (plan_step p c) as [p1|] eqn:E; simplify_eq/=. unfold plan_step in E.
  destruct (graph_step _ _ c) as [g|]; simplify_eq/=. destruct (life_step (pl_life p) c) as [f|]; simplify_eq/=.
  by apply IH in H.
Qed.

Lemma graph_step_named nodes edges c nodes' edges' :
  nodes !! "" = None → named_change c = true → graph_step nodes edges c = Some (nodes', edges') → nodes' !! "" = None.
Proof.
  unfold graph_step, named_change. intros Hn Hc H.
  assert (∀ n, CNode c = Some n → NodeID n ≠ "") as Hid.
  { intros n E. rewrite E in Hc. by apply negb_true_iff, bool_decide_eq_false in Hc. }
  assert (∀ k, delete k nodes !! "" = None) as Hd by (intros; apply lookup_delete_None; by right).
  repeat case_in H; simplify_eq/=; try done;
    repeat match type of H with
    | context [guard _] => case_guard; simplify_eq/=
    | context [mbind _ ?x] => destruct x eqn:?; simplify_eq/=
    end; rewrite ?lookup_insert_ne by eauto; auto.
Qed.

Lemma plan_run_named cs : ∀ p p',
  pl_nodes p !! "" = None → named cs = true → plan_run p cs = Some p' → pl_nodes p' !! "" = None.
Proof.
  induction cs as [|c cs IH]; intros p p' Hn Hc H; simplify_eq/=; [done|]. apply andb_true_iff in Hc as [Hc Hcs].
  destruct (plan_step p c) as [p1|] eqn:E; simplify_eq/=. apply (IH p1 p'); [|done..].
  unfold plan_step in E. destruct (graph_step _ _ c) as [[n e]|] eqn:Eg; simplify_eq/=.
  destruct (life_step (pl_life p) c) as [f|]; simplify_eq/=. by eapply graph_step_named.
Qed.

(** Subjects of a clean revision are nodes of the parent plan, or the plan. *)
Definition addresses_parent (prev : State) (c : Change) : Prop :=
  isNodeLifecycleOp (COp c) = true → is_Some (parent_nodes prev !! CNodeID c).

Lemma change_step_addresses prev i c a a' :
  change_step prev i c a = Some a' → a_vs a' = [] → addresses_parent prev c.
Proof.
  unfold addresses_parent. intros H Hv Hn.
  assert (∃ o, op_of (COp c) = Some o) as [o Ho].
  { unfold isNodeLifecycleOp, IsLifecycleOp in Hn. destruct (op_of (COp c)); [by eexists|done]. }
  rewrite (op_of_Some _ _ Ho) in Hn. unfold change_step in H. rewrite Ho in H.
  destruct o; simpl in Hn; try done; destruct (targetNode _ _ _ _ _) as [a1 ok] eqn:Ea; simplify_eq/=;
    (assert (a_vs a1 = []) as Hv1 by (destruct ok; [by apply app_nil in Hv as [? _]|done]);
     by destruct (targetNode_clean _ _ _ _ _ _ _ Ea Hv1) as (_ & _ & ? & _)).
Qed.

Lemma change_loop_addresses prev cs : ∀ i a a' c,
  change_loop prev i cs a = Some a' → a_vs a' = [] → c ∈ cs → addresses_parent prev c.
Proof.
  induction cs as [|c0 cs IH]; intros i a a' c H Hv Hc; simplify_eq/=; [by apply elem_of_nil in Hc|].
  destruct (change_step prev i c0 a) as [a1|] eqn:E; simplify_eq/=.
  apply elem_of_cons in Hc as [->|Hc]; [|by eapply IH].
  eapply change_step_addresses; [done|]. by eapply change_loop_vs.
Qed.

(** ** The outcome of a fold *)

Section fold.
Context (prev : State) (cs : list Change) (strict : bool).
Hypothesis Hinv : plan_inv prev.

Lemma parent_named : parent_nodes prev !! "" = None.
Proof.
  apply eq_None_not_Some. intros [r (Hr & _ & E)%live_rows_Some]. by apply (pi_named _ Hinv r Hr).
Qed.

(** What is known of an accepted fold. *)
Record accepted (next : State) (d : Diff) (a : acc) (rows : list LifeRow) (p : plan) : Prop := {
  ac_loop : change_loop prev 0 cs (start_acc prev) = Some a;
  ac_vs : a_vs a = [];
  ac_acc : acc_inv prev a;
  ac_rules : plan_rules strict a = [];
  ac_next : next = with_lifecycle (materialize prev (a_live a) (a_liveEdges a)).1 rows;
  ac_diff : d = (materialize prev (a_live a) (a_liveEdges a)).2;
  ac_life : applyLifecycle (SLifecycle prev) (next_rev prev) cs = Ok rows;
  ac_subjects : ∀ c, c ∈ cs → addresses_parent prev c;
  ac_run : plan_run (view prev) cs = Some p;
  ac_nodes : pl_nodes p = a_live a;
  ac_edges : pl_edges p = a_liveEdges a;
  ac_view : life_view rows (pl_life p)
}.

Lemma applyChanges_outcome next d vs :
  applyChanges prev cs strict = Some (next, d, vs) →
  (vs ≠ [] ∧ next = zero_State ∧ d = zero_Diff) ∨ (vs = [] ∧ ∃ a rows p, accepted next d a rows p).
Proof.
  unfold applyChanges. intros H. destruct (change_loop prev 0 cs (start_acc prev)) as [a|] eqn:El; [|done]. simpl in H.
  case_bool_decide as Hv; simplify_eq/=; [|by left]. right.
  apply app_nil in Hv as [Hv Hr]. pose proof (rows_pos_of _ Hinv) as Hpos.
  pose proof (change_loop_inv _ _ _ _ _ (start_acc_inv prev Hpos) El) as Ha.
  destruct (change_loop_tracks prev parent_named cs 0 _ _ _ (tracks_start prev Hpos) (start_acc_inv prev Hpos) El Hv)
    as (_ & p & Hp & Ht).
  pose proof (applyLifecycle_refines_gen (next_rev prev) cs (SLifecycle prev) (currentLife (SLifecycle prev))) as Hl.
  pose proof (plan_run_life _ _ _ Hp) as Hpl. simpl in Hpl. rewrite Hpl in Hl.
  destruct (applyLifecycle (SLifecycle prev) (next_rev prev) cs) as [rows|e] eqn:Ea.
  - simplify_eq/=. split; [done|]. exists a, rows, p. destruct Hl as [Hl _]; [|apply (pi_life _ Hinv)|done|].
    { pose proof (pi_rev _ Hinv). unfold next_rev. lia. }
    split; try done; [|by rewrite (tr_nodes _ _ _ Ht)|by rewrite (tr_edges _ _ _ Ht)].
    intros c Hc. by eapply change_loop_addresses.
  - exfalso. apply Hl; [|apply (pi_life _ Hinv)|done]. pose proof (pi_rev _ Hinv). unfold next_rev. lia.
Qed.
End fold.
