(* ===== verification/DagProps.v ===== *)
(** * DagProps: what folding a revision guarantees.

    The theorems about [applyChanges] and [Apply]: the invariant is preserved, the abstract run is implemented, a refusal leaves
    nothing behind, the past is immutable, ids are never reused, an untouched node keeps its version. *)
From S2P Require Import Prelude GoLib Json DagModel DagLifecycle DagGraph DagAcyclic DagFold DagInvariant DagPlan.
Local Open Scope list_scope.

(** ** Facts of an accepted fold *)

Section accepted.
Context (prev : State) (cs : list Change) (strict : bool) (next : State) (d : Diff) (a : acc) (rows : list LifeRow) (p : plan).
Hypothesis Hinv : plan_inv prev.
Hypothesis Hacc : accepted prev cs strict next d a rows p.

Let Hai : acc_inv prev a := ac_acc _ _ _ _ _ _ _ _ Hacc.

Lemma kept_edges id e r :
  a_liveEdges a !! id = Some e → r ∈ SEdges prev → live_edge r → edge_row_id r = id → EREdge r = e.
Proof.
  intros He Hr Hl Hid. destruct (ai_edges _ _ Hai id e He) as [(row & Hp & <-)|Hnew].
  - apply live_rows_Some in Hp as (Hr' & Hl' & Hid'). f_equal.
    apply (NoDup_fmap_inj_on edge_row_id (SEdges prev)); [apply (pi_edge_ids _ Hinv)|done|done|congruence].
  - exfalso. by apply (Hnew r Hr).
Qed.

Lemma next_plan_nodes : plan_nodes next = a_live a.
Proof.
  rewrite (ac_next _ _ _ _ _ _ _ _ Hacc). apply plan_nodes_next; [apply (pi_rev _ Hinv)|apply (ai_node_key _ _ Hai)|apply (pi_live_ids _ Hinv)].
Qed.

Lemma next_plan_edges : plan_edges next = a_liveEdges a.
Proof.
  rewrite (ac_next _ _ _ _ _ _ _ _ Hacc). apply plan_edges_next;
    [apply (pi_rev _ Hinv)|apply (ai_edge_key _ _ Hai)|apply live_edge_ids_NoDup, (pi_edge_ids _ Hinv)|apply kept_edges].
Qed.

Lemma rules_nil : (strict = true → size (a_live a) ≤ MaxNodes ∧ size (a_liveEdges a) ≤ MaxEdges) ∧
  size (a_live a) ≠ 0 ∧ graph_ok (a_live a) (a_liveEdges a).
Proof.
  pose proof (ac_rules _ _ _ _ _ _ _ _ Hacc) as H. unfold plan_rules, limit_rules in H.
  apply app_nil in H as [Hlim H]. apply app_nil in H as [He Hc].
  apply app_nil in Hlim as [H1 H2]. apply app_nil in H2 as [H2 H3].
  split; [|split].
  - intros ->. simpl in *.
    destruct (Nat.ltb_spec MaxNodes (size (a_live a))); [done|]. destruct (Nat.ltb_spec MaxEdges (size (a_liveEdges a))); [done|]. lia.
  - by destruct (Nat.eqb_spec (size (a_live a)) 0).
  - split; [|by apply findCycle_nil_acyclic]. intros id e E. apply (checkEdge_nil_iff e _ (edgePath (a_addedAt a) id)).
    unfold edge_rules in He. rewrite concat_nil_Forall, Forall_fmap, Forall_forall in He.
    specialize (He id). simpl in He. rewrite E in He. apply He, elem_of_sorted_keys. by eexists.
Qed.

Lemma next_revision : SRevision next = (SRevision prev + 1)%Z.
Proof. by rewrite (ac_next _ _ _ _ _ _ _ _ Hacc). Qed.

Lemma next_nodes : SNodes next = (next_node_row prev (a_live a) (a_liveEdges a) <$> SNodes prev) ++ InsertNodes d.
Proof. by rewrite (ac_next _ _ _ _ _ _ _ _ Hacc), (ac_diff _ _ _ _ _ _ _ _ Hacc). Qed.

Lemma next_edges : SEdges next = (next_edge_row prev (a_liveEdges a) <$> SEdges prev) ++ InsertEdges d.
Proof. by rewrite (ac_next _ _ _ _ _ _ _ _ Hacc), (ac_diff _ _ _ _ _ _ _ _ Hacc). Qed.

Lemma next_life : SLifecycle next = rows.
Proof. by rewrite (ac_next _ _ _ _ _ _ _ _ Hacc). Qed.

(** The rows a fold inserts. *)
Lemma insert_node_elem row :
  row ∈ InsertNodes d → ∃ n, a_live a !! node_row_id row = Some n ∧
    row = fresh_node_row (a_liveEdges a) (next_rev prev) (node_row_id row) n ∧
    (∀ r, r ∈ SNodes prev → live_node r → node_row_id r = node_row_id row → node_kept (a_live a) (a_liveEdges a) r = false).
Proof.
  rewrite (ac_diff _ _ _ _ _ _ _ _ Hacc); simpl. intros Hrow.
  apply elem_of_inserted in Hrow as (id & n & El & -> & Hno); [|apply (pi_live_ids _ Hinv)].
  assert (node_row_id (fresh_node_row (a_liveEdges a) (next_rev prev) id n) = id) as -> by (apply (ai_node_key _ _ Hai _ _ El)).
  eauto.
Qed.

Lemma insert_edge_elem row :
  row ∈ InsertEdges d → a_liveEdges a !! edge_row_id row = Some (EREdge row) ∧ row = mkEdgeRow (EREdge row) (next_rev prev) 0 ∧
    new_edge_id prev (edge_row_id row).
Proof.
  rewrite (ac_diff _ _ _ _ _ _ _ _ Hacc); simpl. intros (id & e & El & -> & Hno)%elem_of_inserted_edges.
  assert (edge_row_id (mkEdgeRow e (next_rev prev) 0) = id) as -> by (apply (ai_edge_key _ _ Hai _ _ El)).
  split; [done|]. split; [done|]. destruct (ai_edges _ _ Hai _ _ El) as [(r & Hr & _)|?]; [|done].
  exfalso. apply Hno. apply live_rows_Some in Hr as (Hr & Hl & <-). apply list_elem_of_fmap. exists r.
  split; [done|]. by apply list_elem_of_filter.
Qed.

(** *** The invariant of the next state *)

Lemma next_node_rows r : r ∈ SNodes next → rows_between (SRevision next) (NVIntroducedRev r) (NVRetiredRev r).
Proof.
  rewrite next_nodes, next_revision, elem_of_app. pose proof (pi_rev _ Hinv). intros [(r0 & -> & Hr)%list_elem_of_fmap|Hr].
  - pose proof (pi_nodes _ Hinv r0 Hr) as [? ?]. unfold next_node_row, rows_between.
    destruct (decide _) as [[Hl _]|_]; simpl; [unfold next_rev|]; lia.
  - destruct (insert_node_elem r Hr) as (n & _ & -> & _). unfold rows_between, next_rev; simpl. unfold next_rev. lia.
Qed.

Lemma next_edge_rows r : r ∈ SEdges next → rows_between (SRevision next) (ERIntroducedRev r) (ERRetiredRev r).
Proof.
  rewrite next_edges, next_revision, elem_of_app. pose proof (pi_rev _ Hinv). intros [(r0 & -> & Hr)%list_elem_of_fmap|Hr].
  - pose proof (pi_edges _ Hinv r0 Hr) as [? ?]. unfold next_edge_row, rows_between.
    destruct (decide _) as [[Hl _]|_]; simpl; [unfold next_rev|]; lia.
  - destruct (insert_edge_elem r Hr) as (_ & -> & _). unfold rows_between; simpl. unfold next_rev. lia.
Qed.

Lemma next_versions : NoDup ((λ r, (node_row_id r, NVIntroducedRev r)) <$> SNodes next).
Proof.
  rewrite next_nodes, fmap_app.
  replace ((λ r, (node_row_id r, NVIntroducedRev r)) <$> (next_node_row prev (a_live a) (a_liveEdges a) <$> SNodes prev))
    with ((λ r, (node_row_id r, NVIntroducedRev r)) <$> SNodes prev).
  2:{ rewrite <- list_fmap_compose. apply list_fmap_ext. intros i r _. simpl. rewrite next_node_row_id.
      unfold next_node_row. by destruct (decide _). }
  apply NoDup_app. split; [apply (pi_versions _ Hinv)|]. split.
  - intros k (r & -> & Hr)%list_elem_of_fmap (r2 & E & H2)%list_elem_of_fmap. injection E as _ E.
    destruct (insert_node_elem r2 H2) as (n & _ & E2 & _). rewrite E2 in E. simpl in E.
    pose proof (pi_nodes _ Hinv r Hr) as [? _]. unfold next_rev in E. lia.
  - apply (NoDup_fmap_1 fst). rewrite <- list_fmap_compose.
    rewrite (ac_diff _ _ _ _ _ _ _ _ Hacc). apply (NoDup_inserted prev (a_live a) (a_liveEdges a)).
    + apply (ai_node_key _ _ Hai).
    + apply (pi_live_ids _ Hinv).
Qed.

Lemma next_edge_ids : NoDup (edge_row_id <$> SEdges next).
Proof.
  rewrite next_edges, fmap_app.
  replace (edge_row_id <$> (next_edge_row prev (a_liveEdges a) <$> SEdges prev)) with (edge_row_id <$> SEdges prev).
  2:{ rewrite <- list_fmap_compose. apply list_fmap_ext. intros i r _. simpl. by rewrite next_edge_row_id. }
  apply NoDup_app. split; [apply (pi_edge_ids _ Hinv)|]. split.
  - intros id (r & -> & Hr)%list_elem_of_fmap (r2 & E & H2)%list_elem_of_fmap.
    destruct (insert_edge_elem r2 H2) as (_ & _ & Hnew). by apply (Hnew r Hr).
  - rewrite (ac_diff _ _ _ _ _ _ _ _ Hacc). apply NoDup_inserted_edges, (ai_edge_key _ _ Hai).
Qed.

Lemma live_named : named cs = true → a_live a !! "" = None.
Proof.
  intros Hn. rewrite <- (ac_nodes _ _ _ _ _ _ _ _ Hacc). eapply plan_run_named; [|exact Hn|apply (ac_run _ _ _ _ _ _ _ _ Hacc)].
  simpl. unfold plan_nodes. rewrite lookup_fmap. by rewrite parent_named.
Qed.

Lemma plan_inv_next : named cs = true → plan_inv next.
Proof.
  intros Hn. pose proof (pi_rev _ Hinv) as Hrev. split.
  - rewrite next_revision. lia.
  - apply next_node_rows.
  - apply next_edge_rows.
  - rewrite (ac_next _ _ _ _ _ _ _ _ Hacc). apply NoDup_live_next; [done|apply (ai_node_key _ _ Hai)|apply (pi_live_ids _ Hinv)].
  - apply next_versions.
  - apply next_edge_ids.
  - intros r. rewrite next_nodes, elem_of_app. intros [(r0 & -> & Hr)%list_elem_of_fmap|Hr].
    + rewrite next_node_row_id. by apply (pi_named _ Hinv).
    + destruct (insert_node_elem r Hr) as (n & E & _). intros E0. rewrite E0, (live_named Hn) in E. done.
  - rewrite next_life, next_revision. eapply applyLifecycle_inv; [|eapply life_inv_mono|apply (ac_life _ _ _ _ _ _ _ _ Hacc)];
      [lia| |apply (pi_life _ Hinv)]. lia.
  - rewrite next_plan_nodes, next_plan_edges. apply rules_nil.
  - intros r Hr Hl. rewrite next_plan_edges. rewrite (ac_next _ _ _ _ _ _ _ _ Hacc) in Hr.
    exact (next_slices prev (a_live a) (a_liveEdges a) Hrev (ai_node_key _ _ Hai) (pi_live_ids _ Hinv) r Hr Hl).
  - intros r. rewrite next_life. intros Hr.
    assert (∀ id, (∃ row, row ∈ SNodes prev ∧ node_row_id row = id) → ∃ row, row ∈ SNodes next ∧ node_row_id row = id) as Hrow.
    { intros id (row & Hrow & <-). exists (next_node_row prev (a_live a) (a_liveEdges a) row). rewrite next_nodes, next_node_row_id.
      split; [|done]. apply elem_of_app. left. by apply list_elem_of_fmap_2. }
    destruct (applyLifecycle_subjects _ _ _ _ r (ac_life _ _ _ _ _ _ _ _ Hacc) Hr) as [(r0 & Hr0 & <-)|(c & Hc & Hs)].
    + destruct (pi_life_ids _ Hinv r0 Hr0) as [?|?]; [by left|right; by apply Hrow].
    + unfold life_subject in Hs. destruct (isNodeLifecycleOp (COp c)) eqn:En; [|by left]. right. rewrite <- Hs.
      apply Hrow. destruct (ac_subjects _ _ _ _ _ _ _ _ Hacc c Hc En) as [row (? & _ & ?)%live_rows_Some]. eauto.
Qed.
End accepted.

(** ** Past snapshots *)

Section past.
Context (prev : State) (cs : list Change) (strict : bool) (next : State) (d : Diff) (a : acc) (rows : list LifeRow) (p : plan).
Hypothesis Hinv : plan_inv prev.
Hypothesis Hacc : accepted prev cs strict next d a rows p.
Context (q : Z) (Hq : (q ≤ SRevision prev)%Z).

Lemma past_nodes life :
  snap_node life <$> filter (λ row, row_live_at q (NVIntroducedRev row) (NVRetiredRev row)) (SNodes next) =
  snap_node life <$> filter (λ row, row_live_at q (NVIntroducedRev row) (NVRetiredRev row)) (SNodes prev).
Proof.
  rewrite (next_nodes _ _ _ _ _ _ _ _ Hacc), filter_app, fmap_app.
  rewrite (filter_none _ (InsertNodes d)).
  2:{ intros r Hr. destruct (insert_node_elem _ _ _ _ _ _ _ _ Hinv Hacc r Hr) as (n & _ & -> & _).
      unfold row_live_at, next_rev; simpl. unfold next_rev. lia. }
  rewrite app_nil_r. apply filter_fmap_ext.
  - intros r Hr. unfold next_node_row. destruct (decide _) as [[Hl _]|_]; [|done].
    unfold row_live_at; simpl. rewrite Hl. unfold next_rev. lia.
  - intros r Hr _. unfold next_node_row. by destruct (decide _).
Qed.

Lemma past_edges :
  snap_edge <$> filter (λ row, row_live_at q (ERIntroducedRev row) (ERRetiredRev row)) (SEdges next) =
  snap_edge <$> filter (λ row, row_live_at q (ERIntroducedRev row) (ERRetiredRev row)) (SEdges prev).
Proof.
  rewrite (next_edges _ _ _ _ _ _ _ _ Hacc), filter_app, fmap_app.
  rewrite (filter_none _ (InsertEdges d)).
  2:{ intros r Hr. destruct (insert_edge_elem _ _ _ _ _ _ _ _ Hacc r Hr) as (_ & -> & _).
      unfold row_live_at; simpl. unfold next_rev. lia. }
  rewrite app_nil_r. apply filter_fmap_ext.
  - intros r Hr. unfold next_edge_row. destruct (decide _) as [[Hl _]|_]; [|done].
    unfold row_live_at; simpl. rewrite Hl. unfold next_rev. lia.
  - intros r Hr _. unfold next_edge_row. by destruct (decide _).
Qed.

Lemma past_At : At next q = At prev q.
Proof.
  assert (lifeAt (SLifecycle next) q = lifeAt (SLifecycle prev) q) as El.
  { rewrite (next_life _ _ _ _ _ _ _ _ Hacc). eapply applyLifecycle_past; [|apply (ac_life _ _ _ _ _ _ _ _ Hacc)].
    unfold next_rev. lia. }
  unfold At. rewrite El. destruct (lifeAt (SLifecycle prev) q) as [ps nl]. rewrite past_nodes, past_edges.
  by rewrite (ac_next _ _ _ _ _ _ _ _ Hacc).
Qed.
End past.

(** ** Example plan: two implementation nodes and a decision taken between them *)

Module Example.
Local Open Scope string_scope.
Definition crit : string := "sha256:0000000000000000000000000000000000000000000000000000000000000000".
Definition prev : State := mkState "plan" "project" 0 [] [] [].
Definition node (id kind : string) : Node := mkNode id ("ISSUE-" +:+ id) kind "" crit.
Definition e1 : Edge := mkEdge "e1" "a" "b" EdgeIntegrated "repo" "main" false "" "" [].
Definition add_node (n : Node) : Change := mkChange "add_node" (Some n) None "" "" "".
Definition changes : list Change :=
  [add_node (node "a" NodeImplementation); add_node (node "b" NodeNonPR);
   mkChange "add_edge" None (Some e1) "" "" ""; mkChange "pause_plan" None None "" "" ""].
(** The second revision touches [b] only. *)
Definition changes2 : list Change :=
  [mkChange "update_node" (Some (mkNode "b" "ISSUE-b" NodeNonPR "title" crit)) None "" "" ""; mkChange "resume_plan" None None "" "" "";
   mkChange "cancel_node" None None "a" "" ""].
Definition outcome (s : State) (cs : list Change) : State * Diff :=
  match applyChanges s cs true with Some (next, d, _) => (next, d) | None => (zero_State, zero_Diff) end.
Definition next : State := Eval vm_compute in (outcome prev changes).1.
Definition diff : Diff := Eval vm_compute in (outcome prev changes).2.
Definition next2 : State := Eval vm_compute in (outcome next changes2).1.
Definition diff2 : Diff := Eval vm_compute in (outcome next changes2).2.
Lemma accepted1 : applyChanges prev changes true = Some (next, diff, []).
Proof. vm_compute. reflexivity. Qed.
Lemma accepted2 : applyChanges next changes2 true = Some (next2, diff2, []).
Proof. vm_compute. reflexivity. Qed.
Lemma inv1 : plan_inv next.
Proof.
  assert (plan_inv prev) as Hi by apply plan_inv_empty.
  destruct (applyChanges_outcome _ _ _ Hi _ _ _ accepted1) as [(? & _)|(_ & a & rows & p & Hacc)]; [done|].
  by eapply plan_inv_next.
Qed.
Lemma inv2 : plan_inv next2.
Proof.
  destruct (applyChanges_outcome _ _ _ inv1 _ _ _ accepted2) as [(? & _)|(_ & a & rows & p & Hacc)]; [done|].
  eapply plan_inv_next; [exact inv1|exact Hacc|reflexivity].
Qed.
End Example.

(** ** Helper facts for the properties *)

Lemma elem_of_incoming edges id e : e ∈ incoming_of edges id ↔ ToNodeID e = id ∧ ∃ k, edges !! k = Some e.
Proof.
  unfold incoming_of. rewrite list_elem_of_filter, list_elem_of_fmap. split.
  - intros [? ([k e'] & -> & H%elem_of_map_to_list)]. eauto.
  - intros [? [k H]]. split; [done|]. exists (k, e). split; [done|]. by apply elem_of_map_to_list.
Qed.

Lemma NoDup_incoming edges id : (∀ k e, edges !! k = Some e → EdgeID e = k) → NoDup (EdgeID <$> incoming_of edges id).
Proof.
  intros Hk. unfold incoming_of. apply NoDup_fmap_filter. rewrite <- list_fmap_compose.
  replace ((EdgeID ∘ snd) <$> map_to_list edges) with (fst <$> map_to_list edges); [apply NoDup_fst_map_to_list|].
  apply list_fmap_ext. intros i [k e] H. apply list_elem_of_lookup_2, elem_of_map_to_list in H. simpl. symmetry. by apply Hk.
Qed.

Lemma plan_edges_key s k e : plan_edges s !! k = Some e → EdgeID e = k.
Proof. by intros (r & _ & _ & <- & ->)%plan_edges_Some. Qed.

(** The slice digest only depends on the set of incoming edges. *)
Lemma slice_same s1 s2 n id :
  (∀ e, ToNodeID e = id → (∃ k, plan_edges s1 !! k = Some e) ↔ (∃ k, plan_edges s2 !! k = Some e)) →
  SliceDigest n (incoming_of (plan_edges s1) id) = SliceDigest n (incoming_of (plan_edges s2) id).
Proof.
  intros Hsame. apply SliceDigest_perm; [apply NoDup_incoming; intros; by eapply plan_edges_key|].
  apply NoDup_Permutation.
  - eapply (NoDup_fmap_1 EdgeID), NoDup_incoming. intros; by eapply plan_edges_key.
  - eapply (NoDup_fmap_1 EdgeID), NoDup_incoming. intros; by eapply plan_edges_key.
  - intros e. rewrite !elem_of_incoming. split; (intros [He H]; split; [done|]; by apply (Hsame e He)).
Qed.

Lemma outcome_accepted prev cs strict next d :
  plan_inv prev → applyChanges prev cs strict = Some (next, d, []) → ∃ a rows p, accepted prev cs strict next d a rows p.
Proof. intros Hi H. apply applyChanges_outcome in H as [(? & _)|(_ & ?)]; done. Qed.

(** *** Panics *)

(** A change carries the node or edge its operation reads. *)
Definition has_payload (c : Change) : bool :=
  match op_of (COp c) with
  | Some OpAddNode | Some OpUpdateNode | Some OpReplaceNode => match CNode c with Some _ => true | None => false end
  | Some OpAddEdge => match CEdge c with Some _ => true | None => false end
  | _ => true
  end.

Lemma change_step_payload prev i c a : is_Some (change_step prev i c a) ↔ has_payload c = true.
Proof.
  unfold change_step, has_payload. destruct (op_of (COp c)) as [[]|];
    try (destruct (targetNode _ _ _ _ _)); destruct (CNode c), (CEdge c), (a_planLife a); simpl; try (destruct (targetNode _ _ _ _ _));
    split; intros H; (done || (by eexists) || (by destruct H)).
Qed.

Lemma change_loop_payload prev cs : ∀ i a, is_Some (change_loop prev i cs a) ↔ forallb has_payload cs = true.
Proof.
  induction cs as [|c cs IH]; intros i a; simpl; [split; eauto|].
  pose proof (change_step_payload prev i c a) as Hs. destruct (change_step prev i c a) as [a'|]; simpl.
  - rewrite IH, andb_true_iff. split; [intros; split; [|done]; apply Hs; eauto|tauto].
  - split; [by intros [? ?]|]. intros [H _]%andb_true_iff. apply Hs in H as [? ?]. done.
Qed.

Lemma plan_inv_project s project : plan_inv s → plan_inv (with_project s project).
Proof. intros [H1 H2 H3 H4 H5 H6 H7 H8 H9 H10 H11]. by split. Qed.

(** ** Properties of the fold *)

(** The edges of a plan pass the rules exactly when each joins two distinct nodes of the plan and says what the output matrix
    (contract 1.2 and 2.4) requires of its kind and of the kind of the node it leaves, and nothing else. *)
Theorem edge_rules_iff live liveEdges addedAt :
  edge_rules live liveEdges addedAt = [] ↔ ∀ id e, liveEdges !! id = Some e → edge_ok live e.
Proof.
  unfold edge_rules. rewrite concat_nil_Forall, Forall_fmap, Forall_forall. split.
  - intros H id e E. specialize (H id). simpl in H. rewrite E in H.
    apply (checkEdge_nil_iff e live (edgePath addedAt id)), H, elem_of_sorted_keys. by eexists.
  - intros H id _. simpl. destruct (liveEdges !! id) as [e|] eqn:E; [|done]. apply checkEdge_nil_iff. by apply (H id).
Qed.

(** C1: a fold without violations preserves the plan invariant and moves exactly one revision forward; under the strict rules
    the plan it yields holds between one and the allowed number of nodes and edges. *)
Theorem applyChanges_preserves prev cs strict next d :
  plan_inv prev → named cs = true → applyChanges prev cs strict = Some (next, d, []) →
  plan_inv next ∧ SRevision next = (SRevision prev + 1)%Z ∧ SPlanID next = SPlanID prev ∧ SProjectKey next = SProjectKey prev ∧
  plan_nodes next ≠ ∅ ∧ (strict = true → size (plan_nodes next) ≤ MaxNodes ∧ size (plan_edges next) ≤ MaxEdges).
Proof.
  intros Hi Hn H. destruct (outcome_accepted _ _ _ _ _ Hi H) as (a & rows & p & Hacc).
  destruct (rules_nil _ _ _ _ _ _ _ _ Hacc) as (Hlim & Hne & _).
  rewrite (next_plan_nodes _ _ _ _ _ _ _ _ Hi Hacc), (next_plan_edges _ _ _ _ _ _ _ _ Hi Hacc).
  split; [by eapply plan_inv_next|]. split; [by eapply next_revision|].
  rewrite (ac_next _ _ _ _ _ _ _ _ Hacc). split; [done|]. split; [done|]. split; [|done].
  intros E. rewrite E, map_size_empty in Hne. done.
Qed.

(** C2: the plan a fold without violations yields is the run of its changes, in order, on the abstract plan: nodes, edges and
    the lifecycle state of every subject. *)
Theorem applyChanges_refines prev cs strict next d :
  plan_inv prev → applyChanges prev cs strict = Some (next, d, []) →
  ∃ p, plan_run (view prev) cs = Some p ∧ plan_nodes next = pl_nodes p ∧ plan_edges next = pl_edges p ∧
    ∀ s, currentLife (SLifecycle next) s = pl_life p s.
Proof.
  intros Hi H. destruct (outcome_accepted _ _ _ _ _ Hi H) as (a & rows & p & Hacc). exists p.
  rewrite (next_plan_nodes _ _ _ _ _ _ _ _ Hi Hacc), (next_plan_edges _ _ _ _ _ _ _ _ Hi Hacc).
  rewrite (next_life _ _ _ _ _ _ _ _ Hacc). destruct Hacc. by repeat split.
Qed.

(** A fold that reports a violation yields the zero state and an empty diff: the branch that reports a lifecycle error after
    the rows were built is never taken. *)
Theorem applyChanges_refuses prev cs strict next d vs :
  plan_inv prev → applyChanges prev cs strict = Some (next, d, vs) → vs ≠ [] → next = zero_State ∧ d = zero_Diff.
Proof. intros Hi H Hv. apply applyChanges_outcome in H as [(_ & ? & ?)|(-> & _)]; done. Qed.

(** Folding a revision never changes what a snapshot at an earlier revision shows. *)
Theorem applyChanges_past prev cs strict next d q :
  plan_inv prev → applyChanges prev cs strict = Some (next, d, []) → (q ≤ SRevision prev)%Z → At next q = At prev q.
Proof. intros Hi H Hq. destruct (outcome_accepted _ _ _ _ _ Hi H) as (a & rows & p & Hacc). by eapply past_At. Qed.

(** Ids are never reused: an edge row a fold inserts has an id no row of the plan's history has, and a node row it inserts
    either has such an id or replaces the live row of the same node, which the diff retires. *)
Theorem applyChanges_fresh_ids prev cs strict next d :
  plan_inv prev → applyChanges prev cs strict = Some (next, d, []) →
  (∀ row, row ∈ InsertEdges d → ∀ r, r ∈ SEdges prev → edge_row_id r ≠ edge_row_id row) ∧
  (∀ row, row ∈ InsertNodes d →
    (∀ r, r ∈ SNodes prev → node_row_id r ≠ node_row_id row) ∨
    (∃ r, r ∈ SNodes prev ∧ live_node r ∧ node_row_id r = node_row_id row ∧ retire_node_row (SRevision next) r ∈ RetireNodes d)).
Proof.
  intros Hi H. destruct (outcome_accepted _ _ _ _ _ Hi H) as (a & rows & p & Hacc). split.
  - intros row Hrow r Hr. destruct (insert_edge_elem _ _ _ _ _ _ _ _ Hacc row Hrow) as (_ & _ & Hnew). by apply Hnew.
  - intros row Hrow. destruct (insert_node_elem _ _ _ _ _ _ _ _ Hi Hacc row Hrow) as (n & El & _ & Hno).
    destruct (ai_live _ _ (ac_acc _ _ _ _ _ _ _ _ Hacc) (node_row_id row)) as [[r Hr]|Hnew]; [by eexists| |by left].
    right. apply live_rows_Some in Hr as (Hr & Hl & Hid). exists r. split; [done|]. split; [done|]. split; [done|].
    rewrite (next_revision _ _ _ _ _ _ _ _ Hacc), (ac_diff _ _ _ _ _ _ _ _ Hacc); simpl.
    apply list_elem_of_fmap. exists r. split; [done|]. apply list_elem_of_filter. split; [|done]. split; [done|]. by apply Hno.
Qed.

(** A node whose spec and incoming edges a revision leaves alone keeps its version: the very same row is live in the next
    state, so changing one part of a plan does not invalidate the slices of the rest. *)
Theorem applyChanges_untouched prev cs strict next d r :
  plan_inv prev → applyChanges prev cs strict = Some (next, d, []) →
  r ∈ SNodes prev → NVRetiredRev r = 0%Z →
  plan_nodes next !! node_row_id r = Some (mkLiveNode (NVNode r) (NVSupersedes r)) →
  (∀ e, ToNodeID e = node_row_id r → (∃ k, plan_edges next !! k = Some e) ↔ (∃ k, plan_edges prev !! k = Some e)) →
  r ∈ SNodes next ∧ (∀ row, row ∈ InsertNodes d → node_row_id row ≠ node_row_id r).
Proof.
  intros Hi H Hr Hl Hn He. destruct (outcome_accepted _ _ _ _ _ Hi H) as (a & rows & p & Hacc).
  assert (node_kept (a_live a) (a_liveEdges a) r = true) as Hk.
  { apply node_kept_spec. rewrite (next_plan_nodes _ _ _ _ _ _ _ _ Hi Hacc) in Hn. eexists. split; [exact Hn|].
    split; [done|]. split; [done|]. unfold slice_of. simpl. rewrite (pi_slices _ Hi r Hr Hl).
    rewrite <- (next_plan_edges _ _ _ _ _ _ _ _ Hi Hacc). by apply slice_same. }
  split.
  - rewrite (next_nodes _ _ _ _ _ _ _ _ Hacc). apply elem_of_app. left. apply list_elem_of_fmap. exists r.
    by rewrite next_node_row_kept.
  - intros row Hrow Hid. destruct (insert_node_elem _ _ _ _ _ _ _ _ Hi Hacc row Hrow) as (n & _ & _ & Hno).
    by rewrite (Hno r Hr Hl) in Hk.
Qed.

(** A cancelled or archived node stays so in every later revision. *)
Theorem applyChanges_final prev cs strict next d s :
  plan_inv prev → applyChanges prev cs strict = Some (next, d, []) →
  final (currentLife (SLifecycle prev) s) → currentLife (SLifecycle next) s = currentLife (SLifecycle prev) s.
Proof.
  intros Hi H Hf. destruct (outcome_accepted _ _ _ _ _ Hi H) as (a & rows & p & Hacc).
  rewrite (next_life _ _ _ _ _ _ _ _ Hacc), (ac_view _ _ _ _ _ _ _ _ Hacc s).
  apply (life_run_final cs (currentLife (SLifecycle prev))); [done|].
  by apply (plan_run_life cs (view prev)), (ac_run _ _ _ _ _ _ _ _ Hacc).
Qed.

(** A fold panics on a nil pointer exactly when some change lacks the node or edge its operation reads; on every other input
    it returns, whatever the parent state. *)
Theorem applyChanges_total prev cs strict : is_Some (applyChanges prev cs strict) ↔ forallb has_payload cs = true.
Proof.
  rewrite <- (change_loop_payload prev cs 0 (start_acc prev)). unfold applyChanges.
  destruct (change_loop prev 0 cs (start_acc prev)) as [a|]; simpl; [|by split; intros [? ?]].
  split; [by eauto|intros _]. case_bool_decide; [|by eauto]. simpl. case_match; by eauto.
Qed.

(** A revision that [Apply] accepts belongs to the plan's project (or founds it), moves the plan one revision forward, and
    leaves a plan that satisfies the invariant and the limits. *)
Theorem Apply_accepts prev rev next d :
  plan_inv prev → named (RChanges rev) = true → Apply prev rev = Some (next, d, []) →
  (SProjectKey prev = "" ∨ SProjectKey prev = RProjectKey rev) ∧ SProjectKey next = RProjectKey rev ∧
  SRevision next = (SRevision prev + 1)%Z ∧ plan_inv next ∧
  plan_nodes next ≠ ∅ ∧ size (plan_nodes next) ≤ MaxNodes ∧ size (plan_edges next) ≤ MaxEdges.
Proof.
  intros Hi Hn H. unfold Apply in H.
  set (prev' := if bool_decide (SProjectKey prev = "") then with_project prev (RProjectKey rev) else prev) in H.
  assert (plan_inv prev' ∧ SRevision prev' = SRevision prev) as [Hi' Hr].
  { unfold prev'. case_bool_decide; [split; [by apply plan_inv_project|done]|done]. }
  destruct (applyChanges prev' (RChanges rev) true) as [[[next' d'] vs]|] eqn:E; simplify_eq/=.
  match goal with Hv : _ ++ vs = [] |- _ => apply app_nil in Hv as [Hm ->] end.
  destruct (outcome_accepted _ _ _ _ _ Hi' E) as (a & rows & p & Hacc).
  destruct (rules_nil _ _ _ _ _ _ _ _ Hacc) as (Hlim & Hne & _). destruct (Hlim eq_refl).
  rewrite (next_plan_nodes _ _ _ _ _ _ _ _ Hi' Hacc), (next_plan_edges _ _ _ _ _ _ _ _ Hi' Hacc).
  assert (SProjectKey prev = "" ∨ SProjectKey prev = RProjectKey rev) as Hp.
  { destruct (decide (SProjectKey prev = "")) as [?|Hp]; [by left|right].
    rewrite (bool_decide_eq_false_2 (SProjectKey prev = "")) in Hm by done. simpl in Hm. by case_bool_decide. }
  split; [done|]. split.
  { rewrite (ac_next _ _ _ _ _ _ _ _ Hacc). simpl. unfold prev'. case_bool_decide; simpl; [done|]. by destruct Hp. }
  rewrite (next_revision _ _ _ _ _ _ _ _ Hacc), Hr. split; [done|]. split; [by eapply plan_inv_next|].
  split; [|done]. intros E0. by rewrite E0, map_size_empty in Hne.
Qed.

(** ** Witnesses: the properties at the example plan *)

Lemma applyChanges_preserves_witness : plan_inv Example.next2 ∧ SRevision Example.next2 = 2%Z.
Proof.
  destruct (applyChanges_preserves Example.next Example.changes2 true Example.next2 Example.diff2) as (H & Hr & _);
    [exact Example.inv1|reflexivity|exact Example.accepted2|].
  split; [exact H|exact Hr].
Defined.

Lemma applyChanges_refines_witness :
  ∃ p, plan_run (view Example.next) Example.changes2 = Some p ∧ plan_nodes Example.next2 = pl_nodes p.
Proof.
  destruct (applyChanges_refines Example.next Example.changes2 true Example.next2 Example.diff2 Example.inv1 Example.accepted2)
    as (p & Hp & Hn & _).
  exists p. split; [exact Hp|exact Hn].
Defined.

(** The empty change list on the empty plan is refused: a plan holds at least one node. *)
Lemma applyChanges_refuses_witness :
  ∃ next d vs, applyChanges Example.prev [] true = Some (next, d, vs) ∧ next = zero_State ∧ d = zero_Diff.
Proof.
  exists zero_State, zero_Diff, [violation RuleEmptyGraph "plan" "the plan would hold no node"].
  split; [vm_compute; reflexivity|].
  apply (applyChanges_refuses Example.prev [] true zero_State zero_Diff [violation RuleEmptyGraph "plan" "the plan would hold no node"]);
    [apply plan_inv_empty|vm_compute; reflexivity|discriminate].
Defined.

Lemma applyChanges_past_witness : At Example.next2 1 = At Example.next 1.
Proof. apply (applyChanges_past Example.next Example.changes2 true Example.next2 Example.diff2 1 Example.inv1 Example.accepted2). vm_compute. discriminate. Defined.

Definition first_row (rows : list NodeVersion) : NodeVersion :=
  match rows with r :: _ => r | [] => mkNodeVersion (Example.node "" "") "" "" 0 0 end.

(** The new version of [b] in the second revision replaces the live row of [b]. *)
Lemma applyChanges_fresh_ids_witness :
  ∃ r, r ∈ SNodes Example.next ∧ live_node r ∧ node_row_id r = "b" ∧ retire_node_row 2 r ∈ RetireNodes Example.diff2.
Proof.
  destruct (applyChanges_fresh_ids Example.next Example.changes2 true Example.next2 Example.diff2 Example.inv1 Example.accepted2) as [_ H].
  destruct (H (first_row (InsertNodes Example.diff2))) as [Hn|Hr]; [left| |exact Hr].
  exfalso. apply (Hn (first_row (tail (SNodes Example.next)))); [right; left|reflexivity].
Defined.

Definition row_a : NodeVersion := Eval vm_compute in first_row (SNodes Example.next).

Lemma applyChanges_untouched_witness : row_a ∈ SNodes Example.next2.
Proof.
  apply (applyChanges_untouched Example.next Example.changes2 true Example.next2 Example.diff2 row_a Example.inv1 Example.accepted2).
  - left.
  - reflexivity.
  - vm_compute. reflexivity.
  - assert (plan_edges Example.next2 = plan_edges Example.next) as -> by (vm_compute; reflexivity). tauto.
Defined.

Lemma applyChanges_final_witness :
  ∃ next d, applyChanges Example.next2 [mkChange "pause_plan" None None "" "" ""] true = Some (next, d, []) ∧
    currentLife (SLifecycle next) "a" = LifeCancelled.
Proof.
  pose (o := Example.outcome Example.next2 [mkChange "pause_plan" None None "" "" ""]). exists o.1, o.2.
  assert (applyChanges Example.next2 [mkChange "pause_plan" None None "" "" ""] true = Some (o.1, o.2, [])) as H
    by (vm_compute; reflexivity).
  split; [exact H|].
  rewrite (applyChanges_final Example.next2 _ true o.1 o.2 "a" Example.inv2 H); [reflexivity|]. left. reflexivity.
Defined.

Definition example_revision : Revision := mkRevision "plan" "project" "req" 0 1 "task" Example.changes.

Lemma Apply_accepts_witness : SRevision Example.next = 1%Z ∧ plan_inv Example.next.
Proof.
  destruct (Apply_accepts Example.prev example_revision Example.next Example.diff) as (_ & _ & Hr & Hi & _);
    [apply plan_inv_empty|reflexivity|vm_compute; reflexivity|].
  split; [exact Hr|exact Hi].
Defined.
