(* ===== verification/DagReplay.v ===== *)
(** * DagReplay: replaying the log of a plan.

    Two states simulate each other when they show the same plan: the same live rows and the same lifecycle of the subjects that
    matter. A state and the state rebuilt from its snapshot simulate each other, an accepted fold preserves the simulation, and
    simulating states have the same snapshot; so replaying a suffix of the log from any snapshot reaches the same plan. *)
From S2P Require Import Prelude GoLib Json DagModel DagLifecycle DagGraph DagAcyclic DagFold DagInvariant DagPlan DagProps.
Local Open Scope list_scope.

Record sim (s t : State) : Prop := {
  sim_inv_l : plan_inv s;
  sim_inv_r : plan_inv t;
  sim_plan : SPlanID t = SPlanID s;
  sim_project : SProjectKey t = SProjectKey s;
  sim_revision : SRevision t = SRevision s;
  sim_nodes : parent_nodes t = parent_nodes s;
  sim_edges : parent_edges t = parent_edges s;
  sim_rows : ∀ r, r ∈ SNodes t → ∃ r', r' ∈ SNodes s ∧ node_row_id r' = node_row_id r;
  sim_edge_rows : ∀ r, r ∈ SEdges t → ∃ r', r' ∈ SEdges s ∧ edge_row_id r' = edge_row_id r;
  sim_life : ∀ x, x = "" ∨ is_Some (parent_nodes s !! x) → currentLife (SLifecycle t) x = currentLife (SLifecycle s) x
}.

(** ** The change loop *)

Record acc_sim (a b : acc) : Prop := {
  as_vs : a_vs b = a_vs a;
  as_live : a_live b = a_live a;
  as_edges : a_liveEdges b = a_liveEdges a;
  as_changedNode : a_changedNode b = a_changedNode a;
  as_changedEdge : a_changedEdge b = a_changedEdge a;
  as_addedAt : a_addedAt b = a_addedAt a;
  as_addedNode : a_addedNode b = a_addedNode a;
  as_planLife : a_planLife b = a_planLife a;
  as_taken : ∀ id, a_taken a !! id = None → a_taken b !! id = None;
  as_takenE : ∀ id, a_takenEdge a !! id = None → a_takenEdge b !! id = None
}.

Lemma acc_sim_start s t : sim s t → acc_sim (start_acc s) (start_acc t).
Proof.
  intros Hs. pose proof (rows_pos_of _ (sim_inv_l _ _ Hs)) as [P1 P2]. pose proof (rows_pos_of _ (sim_inv_r _ _ Hs)) as [Q1 Q2].
  split; simpl; try done.
  - by rewrite (sim_nodes _ _ Hs).
  - by rewrite (sim_edges _ _ Hs).
  - intros id Hid. apply eq_None_not_Some. intros (r & Hr & <-)%taken_ids_is_Some; [|done].
    destruct (sim_rows _ _ Hs r Hr) as (r' & Hr' & E). rewrite <- E in Hid.
    apply eq_None_not_Some in Hid. apply Hid, taken_ids_is_Some; [done|]. eauto.
  - intros id Hid. apply eq_None_not_Some. intros (r & Hr & <-)%taken_ids_is_Some; [|done].
    destruct (sim_edge_rows _ _ Hs r Hr) as (r' & Hr' & E). rewrite <- E in Hid.
    apply eq_None_not_Some in Hid. apply Hid, taken_ids_is_Some; [done|]. eauto.
Qed.

Section loop.
Context (s t : State) (Hs : sim s t).

Lemma targetNode_sim i path id a b a1 :
  acc_sim a b → targetNode s i path id a = (a1, true) → ∃ b1, targetNode t i path id b = (b1, true) ∧ acc_sim a1 b1.
Proof.
  intros [H1 H2 H3 H4 H5 H6 H7 H8 H9 H10] H. destruct (targetNode_true _ _ _ _ _ _ H) as (-> & [r Hr] & Hc & Hn).
  exists (with_changedNode b id i). split.
  - unfold targetNode. rewrite H7, Hn, (sim_nodes _ _ Hs), Hr, H4, Hc. done.
  - split; simpl; try assumption. by rewrite H4.
Qed.

Lemma introduce_sim i path n sup a b :
  acc_sim a b → a_vs (introduce i path n sup a) = [] → acc_sim (introduce i path n sup a) (introduce i path n sup b).
Proof.
  intros [H1 H2 H3 H4 H5 H6 H7 H8 H9 H10]. unfold introduce. destruct (a_taken a !! NodeID n) eqn:E.
  { by intros [_ ?]%app_nil. }
  intros _. rewrite (H9 _ E). split; simpl; try assumption; [by rewrite H2|by rewrite H7|].
  intros j. rewrite !lookup_insert. destruct (decide _); [done|apply H9].
Qed.

Lemma add_edge_sim i path e a b :
  acc_sim a b → a_vs (add_edge i path e a) = [] → acc_sim (add_edge i path e a) (add_edge i path e b).
Proof.
  intros [H1 H2 H3 H4 H5 H6 H7 H8 H9 H10]. unfold add_edge. destruct (a_takenEdge a !! EdgeID e) eqn:E.
  { by intros [_ ?]%app_nil. }
  intros _. rewrite (H10 _ E). split; simpl; try assumption; [by rewrite H3|by rewrite H6|].
  intros j. rewrite !lookup_insert. destruct (decide _); [done|apply H10].
Qed.

Lemma retire_edge_sim i path id a b :
  acc_sim a b → a_vs (retire_edge s i path id a) = [] → acc_sim (retire_edge s i path id a) (retire_edge t i path id b).
Proof.
  intros [H1 H2 H3 H4 H5 H6 H7 H8 H9 H10]. unfold retire_edge. rewrite H6.
  destruct (a_addedAt a !! id); [by intros [_ ?]%app_nil|]. rewrite (sim_edges _ _ Hs).
  destruct (parent_edges s !! id); [|by intros [_ ?]%app_nil]. rewrite H5.
  destruct (a_changedEdge a !! id); [by intros [_ ?]%app_nil|]. simpl. intros Hv.
  split; simpl; try assumption; by rewrite ?H3.
Qed.

Lemma with_live_sim a b live : acc_sim a b → acc_sim (with_live a live) (with_live b live).
Proof. intros [H1 H2 H3 H4 H5 H6 H7 H8 H9 H10]. by split. Qed.

Lemma with_vs_sim a b vs : acc_sim a b → acc_sim (with_vs a vs) (with_vs b vs).
Proof. intros [H1 H2 H3 H4 H5 H6 H7 H8 H9 H10]. split; simpl; try assumption. by rewrite H1. Qed.

Lemma with_planLife_sim a b i : acc_sim a b → acc_sim (with_planLife a i) (with_planLife b i).
Proof. intros [H1 H2 H3 H4 H5 H6 H7 H8 H9 H10]. by split. Qed.

(** A target of a clean step. *)
Lemma target_sim i path id a b a1 ok :
  acc_sim a b → targetNode s i path id a = (a1, ok) → a_vs a1 = [] →
  ok = true ∧ ∃ b1, targetNode t i path id b = (b1, true) ∧ acc_sim a1 b1 ∧ is_Some (parent_nodes s !! id).
Proof.
  intros Hab H Hv. destruct (targetNode_clean _ _ _ _ _ _ _ H Hv) as (-> & _ & Hp & _).
  destruct (targetNode_sim _ _ _ _ _ _ Hab H) as (b1 & ? & ?). eauto 10.
Qed.

Local Ltac node_life_case :=
  match goal with
  | Hab : acc_sim ?a _, H : context [targetNode s ?i ?path ?id ?a], Hv : a_vs _ = [] |- _ =>
    let Ea := fresh "Ea" in let ok := fresh "ok" in
    destruct (targetNode s i path id a) as [? ok] eqn:Ea; simplify_eq/=;
    destruct (target_sim _ _ _ _ _ _ _ Hab Ea) as (-> & ? & -> & ? & ?);
    [destruct ok; [by apply app_nil in Hv as [? _]|done]|];
    rewrite (sim_life _ _ Hs) by auto; eauto using with_vs_sim
  end.

Lemma change_step_sim i c a b a' :
  acc_sim a b → change_step s i c a = Some a' → a_vs a' = [] → ∃ b', change_step t i c b = Some b' ∧ acc_sim a' b'.
Proof.
  intros Hab H Hv. unfold change_step in *. destruct (op_of (COp c)) as [o|]; [|simplify_eq; eauto].
  destruct o.
  - destruct (CNode c) as [n|]; simplify_eq/=. eauto using introduce_sim.
  - destruct (CNode c) as [n|]; simplify_eq/=. destruct (targetNode s _ _ _ _) as [a1 ok] eqn:Ea; simplify_eq/=.
    destruct (target_sim _ _ _ _ _ _ _ Hab Ea) as (-> & b1 & Eb & H1 & _); [by destruct ok|].
    rewrite Eb, (as_live _ _ H1). eauto using with_live_sim.
  - destruct (targetNode s _ _ _ _) as [a1 ok] eqn:Ea. destruct (CNode c) as [n|]; simplify_eq/=.
    destruct (target_sim _ _ _ _ _ _ _ Hab Ea) as (-> & b1 & Eb & H1 & _).
    { apply introduce_vs in Hv. by destruct ok. }
    rewrite Eb, (as_live _ _ H1). eauto using with_live_sim, introduce_sim.
  - destruct (targetNode s _ _ _ _) as [a1 ok] eqn:Ea; simplify_eq/=.
    destruct (target_sim _ _ _ _ _ _ _ Hab Ea) as (-> & b1 & Eb & H1 & _); [by destruct ok|].
    rewrite Eb, (as_live _ _ H1). eauto using with_live_sim.
  - destruct (CEdge c) as [e|]; simplify_eq/=. eauto using add_edge_sim.
  - simplify_eq/=. eauto using retire_edge_sim.
  - node_life_case.
  - node_life_case.
  - node_life_case.
  - node_life_case.
  - rewrite (as_planLife _ _ Hab), (sim_life _ _ Hs), (sim_plan _ _ Hs) by auto.
    destruct (a_planLife a); simplify_eq/=; eauto using with_vs_sim, with_planLife_sim.
  - rewrite (as_planLife _ _ Hab), (sim_life _ _ Hs), (sim_plan _ _ Hs) by auto.
    destruct (a_planLife a); simplify_eq/=; eauto using with_vs_sim, with_planLife_sim.
Qed.

Lemma change_loop_sim cs : ∀ i a b a',
  acc_sim a b → change_loop s i cs a = Some a' → a_vs a' = [] → ∃ b', change_loop t i cs b = Some b' ∧ acc_sim a' b'.
Proof.
  induction cs as [|c cs IH]; intros i a b a' Hab H Hv; simplify_eq/=; [eauto|].
  destruct (change_step s i c a) as [a1|] eqn:E; simplify_eq/=.
  destruct (change_step_sim i c a b a1 Hab E) as (b1 & -> & Hab1); [by eapply change_loop_vs|]. simpl. by eapply IH.
Qed.
End loop.

(** ** Lifecycle *)

Lemma currentLife_norow rows x : (∀ r, r ∈ rows → LNodeID r ≠ x) → currentLife rows x = "".
Proof.
  intros H. apply currentLife_notin. intros (r & -> & [_ Hr]%list_elem_of_filter)%list_elem_of_fmap. by apply (H r Hr).
Qed.

Lemma life_step_agree f g f' g' c x : life_step f c = Some f' → life_step g c = Some g' → f x = g x → f' x = g' x.
Proof.
  unfold life_step. intros Hf Hg E. destruct (op_of (COp c)) as [o|]; [|by simplify_eq].
  destruct (is_lifecycle o); [|by simplify_eq].
  destruct (transitions o (f _)) as [tf|] eqn:Ef; simplify_eq/=. destruct (transitions o (g _)) as [tg|] eqn:Eg; simplify_eq/=.
  destruct (decide (life_subject c = x)) as [<-|Hne]; [|by rewrite !fn_lookup_insert_ne].
  rewrite !fn_lookup_insert. rewrite E in Ef. congruence.
Qed.

Lemma life_run_agree cs x : ∀ f g f' g', life_run f cs = Some f' → life_run g cs = Some g' → f x = g x → f' x = g' x.
Proof.
  induction cs as [|c cs IH]; intros f g f' g' Hf Hg E; simplify_eq/=; [done|].
  destruct (life_step f c) as [f1|] eqn:Ef; simplify_eq/=. destruct (life_step g c) as [g1|] eqn:Eg; simplify_eq/=.
  eapply IH; [done..|]. by eapply life_step_agree.
Qed.

Lemma new_id_no_life s x : plan_inv s → x ≠ "" → new_node_id s x → currentLife (SLifecycle s) x = "".
Proof.
  intros Hi Hx Hnew. apply currentLife_norow. intros r Hr E. destruct (pi_life_ids _ Hi r Hr) as [E0|(row & Hrow & E1)].
  - congruence.
  - apply (Hnew row Hrow). congruence.
Qed.

(** ** One accepted fold *)

Section step.
Context (s t s' t' : State) (cs : list Change) (strict : bool) (d d' : Diff).
Context (a b : acc) (rs rt : list LifeRow) (ps pt : plan).
Hypothesis Hs : sim s t.
Hypothesis Hn : named cs = true.
Hypothesis Ha : accepted s cs strict s' d a rs ps.
Hypothesis Hb : accepted t cs strict t' d' b rt pt.
Hypothesis Hab : acc_sim a b.

Let Hi := sim_inv_l s t Hs.
Let Hj := sim_inv_r s t Hs.

Lemma step_nodes : parent_nodes t' = parent_nodes s'.
Proof.
  apply map_eq. intros id. rewrite (ac_next _ _ _ _ _ _ _ _ Ha), (ac_next _ _ _ _ _ _ _ _ Hb).
  pose proof (ac_acc _ _ _ _ _ _ _ _ Ha) as A1. pose proof (ac_acc _ _ _ _ _ _ _ _ Hb) as B1.
  etrans; [apply (parent_nodes_next t (a_live b) (a_liveEdges b))|symmetry; etrans; [apply (parent_nodes_next s (a_live a) (a_liveEdges a))|]];
    try apply pi_rev; try (by eapply ai_node_key); try apply pi_live_ids; try assumption.
  rewrite (as_live _ _ Hab), (as_edges _ _ Hab), (sim_nodes _ _ Hs). unfold next_row_of, next_rev.
  by rewrite (sim_revision _ _ Hs).
Qed.

Lemma step_edges : parent_edges t' = parent_edges s'.
Proof.
  apply map_eq. intros id. pose proof (kept_edges _ _ _ _ _ _ _ _ Hi Ha) as Ka. pose proof (kept_edges _ _ _ _ _ _ _ _ Hj Hb) as Kb.
  rewrite (ac_next _ _ _ _ _ _ _ _ Ha), (ac_next _ _ _ _ _ _ _ _ Hb).
  pose proof (ac_acc _ _ _ _ _ _ _ _ Ha) as A1. pose proof (ac_acc _ _ _ _ _ _ _ _ Hb) as B1.
  etrans; [apply (parent_edges_next t (a_live b) (a_liveEdges b))|symmetry; etrans; [apply (parent_edges_next s (a_live a) (a_liveEdges a))|]];
    try apply pi_rev; try (by eapply ai_edge_key); try apply live_edge_ids_NoDup, pi_edge_ids; try assumption.
  rewrite (as_edges _ _ Hab), (sim_edges _ _ Hs). unfold next_edge_of, next_rev. by rewrite (sim_revision _ _ Hs).
Qed.

Lemma step_rows r : r ∈ SNodes t' → ∃ r', r' ∈ SNodes s' ∧ node_row_id r' = node_row_id r.
Proof.
  rewrite (next_nodes _ _ _ _ _ _ _ _ Hb), elem_of_app. intros [(r0 & -> & Hr)%list_elem_of_fmap|Hr].
  - destruct (sim_rows _ _ Hs r0 Hr) as (r1 & Hr1 & E). exists (next_node_row s (a_live a) (a_liveEdges a) r1).
    rewrite !next_node_row_id. split; [|done]. rewrite (next_nodes _ _ _ _ _ _ _ _ Ha). apply elem_of_app. left.
    by apply list_elem_of_fmap_2.
  - destruct (insert_node_elem _ _ _ _ _ _ _ _ Hj Hb r Hr) as (n & El & _). rewrite (as_live _ _ Hab) in El.
    rewrite <- (next_plan_nodes _ _ _ _ _ _ _ _ Hi Ha) in El.
    apply plan_nodes_Some in El as (r' & ? & _ & ? & _). eauto.
Qed.

Lemma step_edge_rows r : r ∈ SEdges t' → ∃ r', r' ∈ SEdges s' ∧ edge_row_id r' = edge_row_id r.
Proof.
  rewrite (next_edges _ _ _ _ _ _ _ _ Hb), elem_of_app. intros [(r0 & -> & Hr)%list_elem_of_fmap|Hr].
  - destruct (sim_edge_rows _ _ Hs r0 Hr) as (r1 & Hr1 & E). exists (next_edge_row s (a_liveEdges a) r1).
    rewrite !next_edge_row_id. split; [|done]. rewrite (next_edges _ _ _ _ _ _ _ _ Ha). apply elem_of_app. left.
    by apply list_elem_of_fmap_2.
  - destruct (insert_edge_elem _ _ _ _ _ _ _ _ Hb r Hr) as (El & _). rewrite (as_edges _ _ Hab) in El.
    rewrite <- (next_plan_edges _ _ _ _ _ _ _ _ Hi Ha) in El.
    apply plan_edges_Some in El as (r' & ? & _ & ? & _). eauto.
Qed.

Lemma step_life x : x = "" ∨ is_Some (parent_nodes s' !! x) → currentLife (SLifecycle t') x = currentLife (SLifecycle s') x.
Proof.
  intros Hx. rewrite (next_life _ _ _ _ _ _ _ _ Ha), (next_life _ _ _ _ _ _ _ _ Hb).
  rewrite (ac_view _ _ _ _ _ _ _ _ Ha), (ac_view _ _ _ _ _ _ _ _ Hb).
  eapply (life_run_agree cs x); [apply (plan_run_life _ _ _ (ac_run _ _ _ _ _ _ _ _ Hb))
    |apply (plan_run_life _ _ _ (ac_run _ _ _ _ _ _ _ _ Ha))|]. simpl.
  destruct Hx as [->|Hx]; [by apply (sim_life _ _ Hs); left|].
  assert (is_Some (a_live a !! x)) as Hl.
  { rewrite <- (next_plan_nodes _ _ _ _ _ _ _ _ Hi Ha). unfold plan_nodes. by rewrite lookup_fmap, fmap_is_Some. }
  destruct (ai_live _ _ (ac_acc _ _ _ _ _ _ _ _ Ha) x Hl) as [Hp|Hnew]; [by apply (sim_life _ _ Hs); right|].
  assert (x ≠ "") as Hne.
  { intros ->. rewrite (live_named _ _ _ _ _ _ _ _ Hi Ha Hn) in Hl. by destruct Hl. }
  rewrite !new_id_no_life; [done|done|done|done|done|done|].
  intros r Hr E. destruct (sim_rows _ _ Hs r Hr) as (r' & Hr' & E'). apply (Hnew r' Hr'). congruence.
Qed.

Lemma step_sim : sim s' t'.
Proof.
  split.
  - eapply plan_inv_next; [exact Hi|exact Ha|exact Hn].
  - eapply plan_inv_next; [exact Hj|exact Hb|exact Hn].
  - rewrite (ac_next _ _ _ _ _ _ _ _ Ha), (ac_next _ _ _ _ _ _ _ _ Hb). apply (sim_plan _ _ Hs).
  - rewrite (ac_next _ _ _ _ _ _ _ _ Ha), (ac_next _ _ _ _ _ _ _ _ Hb). apply (sim_project _ _ Hs).
  - rewrite (next_revision _ _ _ _ _ _ _ _ Ha), (next_revision _ _ _ _ _ _ _ _ Hb). by rewrite (sim_revision _ _ Hs).
  - apply step_nodes.
  - apply step_edges.
  - apply step_rows.
  - apply step_edge_rows.
  - apply step_life.
Qed.
End step.

Lemma applyChanges_sim s t cs strict s' d :
  sim s t → named cs = true → applyChanges s cs strict = Some (s', d, []) →
  ∃ t' d', applyChanges t cs strict = Some (t', d', []) ∧ sim s' t'.
Proof.
  intros Hs Hn H. destruct (outcome_accepted _ _ _ _ _ (sim_inv_l _ _ Hs) H) as (a & rs & ps & Ha).
  destruct (change_loop_sim s t Hs cs 0 _ _ _ (acc_sim_start s t Hs) (ac_loop _ _ _ _ _ _ _ _ Ha) (ac_vs _ _ _ _ _ _ _ _ Ha))
    as (b & Hb & Hab).
  assert (∃ t' d' vs, applyChanges t cs strict = Some (t', d', vs) ∧ t' ≠ zero_State) as (t' & d' & vs & Ht & Hz).
  { unfold applyChanges. rewrite Hb. simpl. unfold plan_rules.
    rewrite (as_vs _ _ Hab), (ac_vs _ _ _ _ _ _ _ _ Ha), (as_live _ _ Hab), (as_edges _ _ Hab), (as_addedAt _ _ Hab).
    pose proof (ac_rules _ _ _ _ _ _ _ _ Ha) as Hr. unfold plan_rules in Hr. rewrite Hr. simpl.
    pose proof (pi_rev _ (sim_inv_r _ _ Hs)) as Hrev.
    case_match; (do 3 eexists; split; [done|]); intros E; apply (f_equal SRevision) in E; simpl in E; unfold next_rev in E; lia. }
  destruct (applyChanges_outcome _ _ _ (sim_inv_r _ _ Hs) _ _ _ Ht) as [(_ & ? & _)|(-> & b' & rt & pt & Hb')]; [done|].
  exists t', d'. split; [done|].
  assert (b' = b) as -> by (pose proof (ac_loop _ _ _ _ _ _ _ _ Hb'); congruence).
  by eapply step_sim.
Qed.

(** ** Snapshots *)

Lemma filter_ext_elem {A} (P Q : A → Prop) `{∀ x, Decision (P x), ∀ x, Decision (Q x)} (l : list A) :
  (∀ x, x ∈ l → P x ↔ Q x) → filter P l = filter Q l.
Proof.
  induction l as [|x l IH]; intros HPQ; [done|]. rewrite !filter_cons.
  rewrite (IH ltac:(intros; apply HPQ; by right)). assert (P x ↔ Q x) as Hx by (apply HPQ; by left).
  destruct (decide (P x)) as [HP|HP]; [rewrite decide_True by tauto|rewrite decide_False by tauto]; done.
Qed.

Lemma currentLife_elem rows r :
  NoDup (LNodeID <$> filter life_open rows) → r ∈ rows → life_open r → currentLife rows (LNodeID r) = LState r.
Proof.
  induction rows as [|x rows IH]; intros Hnd Hr Ho; [by apply elem_of_nil in Hr|]. simpl. rewrite filter_cons in Hnd.
  destruct (decide (LNodeID x = LNodeID r)) as [E|E].
  - rewrite bool_decide_eq_true_2 by done. simpl. destruct (Z.eqb_spec (LRetiredRev x) 0) as [Hx|Hx].
    + rewrite decide_True in Hnd by done. csimpl in Hnd. apply NoDup_cons in Hnd as [Hn _].
      apply elem_of_cons in Hr as [->|Hr]; [done|]. exfalso. apply Hn. rewrite E. apply list_elem_of_fmap_2.
      by apply list_elem_of_filter.
    + rewrite decide_False in Hnd by done. apply elem_of_cons in Hr as [->|Hr]; [done|auto].
  - rewrite bool_decide_eq_false_2 by done. simpl. apply elem_of_cons in Hr as [->|Hr]; [done|]. apply IH; [|done|done].
    destruct (decide _); [|done]. csimpl in Hnd. by apply NoDup_cons in Hnd as [_ ?].
Qed.

Definition live_view {A} (m : gmap string A) : list A := (map_to_list m).*2.

Section rows.
Context {A : Type} (rid : A → string) (retired : A → Z).

Lemma live_rows_iff rows id r :
  NoDup (rid <$> filter (is_live retired) rows) →
  live_rows rid retired rows !! id = Some r ↔ r ∈ rows ∧ is_live retired r ∧ rid r = id.
Proof.
  intros Hnd. split; [apply live_rows_Some|]. intros (Hr & Hl & <-). by apply live_rows_elem.
Qed.

Lemma live_rows_perm rows :
  NoDup (rid <$> filter (is_live retired) rows) → filter (is_live retired) rows ≡ₚ live_view (live_rows rid retired rows).
Proof.
  intros Hnd. apply NoDup_Permutation.
  - by apply (NoDup_fmap_1 rid).
  - apply (NoDup_fmap_1 rid). unfold live_view. rewrite <- list_fmap_compose.
    replace ((rid ∘ snd) <$> map_to_list (live_rows rid retired rows)) with (map_to_list (live_rows rid retired rows)).*1;
      [apply NoDup_fst_map_to_list|].
    apply list_fmap_ext. intros i [k r] H. apply list_elem_of_lookup_2, elem_of_map_to_list in H. simpl.
    by apply live_rows_Some in H as (_ & _ & <-).
  - intros r. rewrite list_elem_of_filter. unfold live_view. rewrite list_elem_of_fmap. split.
    + intros [Hl Hr]. exists (rid r, r). split; [done|]. apply elem_of_map_to_list. by apply live_rows_iff.
    + intros ([k r'] & -> & H%elem_of_map_to_list). apply live_rows_Some in H as (? & ? & _). done.
Qed.

(** Rows with the same live rows have the same map. *)
Lemma live_rows_same rows1 rows2 :
  NoDup (rid <$> filter (is_live retired) rows1) → filter (is_live retired) rows1 ≡ₚ filter (is_live retired) rows2 →
  live_rows rid retired rows1 = live_rows rid retired rows2.
Proof.
  intros Hnd Hp. apply map_eq. intros id. apply option_eq. intros r.
  rewrite !live_rows_iff; [|by rewrite <- Hp|done].
  assert (r ∈ filter (is_live retired) rows1 ↔ r ∈ filter (is_live retired) rows2) as E by (by rewrite Hp).
  rewrite !list_elem_of_filter in E. tauto.
Qed.
End rows.

Definition snap_row (s : State) (row : NodeVersion) : SnapNode :=
  mkSnapNode (NVNode row) (NVSliceDigest row) (NVSupersedes row) (NVIntroducedRev row) (currentLife (SLifecycle s) (node_row_id row)).

Section current.
Context (s : State) (Hi : plan_inv s).

Lemma live_now_nodes :
  filter (λ row, row_live_at (SRevision s) (NVIntroducedRev row) (NVRetiredRev row)) (SNodes s) = filter live_node (SNodes s).
Proof.
  apply filter_ext_elem. intros r Hr. pose proof (pi_nodes _ Hi r Hr) as [? ?]. unfold row_live_at, is_live. lia.
Qed.

Lemma live_now_edges :
  filter (λ row, row_live_at (SRevision s) (ERIntroducedRev row) (ERRetiredRev row)) (SEdges s) = filter live_edge (SEdges s).
Proof.
  apply filter_ext_elem. intros r Hr. pose proof (pi_edges _ Hi r Hr) as [? ?]. unfold row_live_at, is_live. lia.
Qed.

Lemma life_now_plan : (lifeAt (SLifecycle s) (SRevision s)).1 = currentLife (SLifecycle s) "".
Proof. by rewrite <- (lifeOf_current _ _ _ (pi_life _ Hi)). Qed.

Lemma life_now_node id :
  id ≠ "" → default "" ((lifeAt (SLifecycle s) (SRevision s)).2 !! id) = currentLife (SLifecycle s) id.
Proof. intros Hid. rewrite <- (lifeOf_current _ _ _ (pi_life _ Hi)). unfold lifeOf. by rewrite bool_decide_eq_false_2. Qed.

(** The snapshot of a plan at its last revision, from the live rows alone. *)
Lemma At_current :
  let nodes := sort_by (λ n, NodeID (SNNode n)) (snap_row s <$> filter live_node (SNodes s)) in
  let edges := sort_by (λ e, EdgeID (SEEdge e)) (snap_edge <$> filter live_edge (SEdges s)) in
  let ps := currentLife (SLifecycle s) "" in
  At s (SRevision s) = mkSnapshot (SPlanID s) (SProjectKey s) (SRevision s) nodes edges
    (stateDigest (SPlanID s) (SProjectKey s) ps nodes edges) ps.
Proof.
  simpl. unfold At. pose proof life_now_plan as El. pose proof life_now_node as En.
  destruct (lifeAt (SLifecycle s) (SRevision s)) as [ps nl]; simpl in El, En. subst ps.
  rewrite live_now_nodes, live_now_edges.
  replace (snap_node nl <$> filter live_node (SNodes s)) with (snap_row s <$> filter live_node (SNodes s)); [done|].
  apply list_fmap_ext. intros i r Hr. apply list_elem_of_lookup_2, list_elem_of_filter in Hr as [_ Hr].
  unfold snap_row, snap_node. f_equal. symmetry. apply En. by apply (pi_named _ Hi).
Qed.
End current.

Lemma sim_At s t : sim s t → At t (SRevision t) = At s (SRevision s).
Proof.
  intros Hs. pose proof (sim_inv_l _ _ Hs) as Hi. pose proof (sim_inv_r _ _ Hs) as Hj.
  rewrite (At_current s Hi), (At_current t Hj). simpl.
  assert (sort_by (λ n, NodeID (SNNode n)) (snap_row t <$> filter live_node (SNodes t)) =
          sort_by (λ n, NodeID (SNNode n)) (snap_row s <$> filter live_node (SNodes s))) as ->.
  { apply sort_by_unique.
    - rewrite <- list_fmap_compose. apply (pi_live_ids _ Hj).
    - rewrite (live_rows_perm node_row_id NVRetiredRev (SNodes t) (pi_live_ids _ Hj)), (live_rows_perm node_row_id NVRetiredRev (SNodes s) (pi_live_ids _ Hi)).
      change (live_rows node_row_id NVRetiredRev (SNodes t)) with (parent_nodes t). rewrite (sim_nodes _ _ Hs).
      replace (snap_row t <$> live_view (parent_nodes s)) with (snap_row s <$> live_view (parent_nodes s)); [done|].
      apply list_fmap_ext. intros i r Hr. apply list_elem_of_lookup_2, list_elem_of_fmap in Hr as ([k r'] & -> & H%elem_of_map_to_list).
      simpl. unfold snap_row. f_equal. symmetry. apply (sim_life _ _ Hs). right.
      pose proof H as (_ & _ & ->)%live_rows_Some. by eexists. }
  assert (sort_by (λ e, EdgeID (SEEdge e)) (snap_edge <$> filter live_edge (SEdges t)) =
          sort_by (λ e, EdgeID (SEEdge e)) (snap_edge <$> filter live_edge (SEdges s))) as ->.
  { apply sort_by_unique.
    - rewrite <- list_fmap_compose. apply live_edge_ids_NoDup, (pi_edge_ids _ Hj).
    - rewrite (live_rows_perm edge_row_id ERRetiredRev (SEdges t)) by apply live_edge_ids_NoDup, (pi_edge_ids _ Hj).
      rewrite (live_rows_perm edge_row_id ERRetiredRev (SEdges s)) by apply live_edge_ids_NoDup, (pi_edge_ids _ Hi).
      change (live_rows edge_row_id ERRetiredRev (SEdges t)) with (parent_edges t). by rewrite (sim_edges _ _ Hs). }
  rewrite (sim_life _ _ Hs) by (by left). by rewrite (sim_plan _ _ Hs), (sim_project _ _ Hs), (sim_revision _ _ Hs).
Qed.

(** ** The state a snapshot stands for *)

Section restore.
Context (s : State) (Hi : plan_inv s).
Let t : State := StateFromSnapshot (At s (SRevision s)).

Lemma restored_fields : SPlanID t = SPlanID s ∧ SProjectKey t = SProjectKey s ∧ SRevision t = SRevision s.
Proof. unfold t. by rewrite (At_current s Hi). Qed.

Lemma restored_nodes : SNodes t ≡ₚ filter live_node (SNodes s).
Proof.
  unfold t. rewrite (At_current s Hi). simpl. rewrite sort_by_perm, <- list_fmap_compose.
  rewrite <- (list_fmap_id (filter live_node (SNodes s))) at 2.
  erewrite list_fmap_ext; [done|]. intros i r Hr. apply list_elem_of_lookup_2, list_elem_of_filter in Hr as [Hl _].
  simpl. destruct r; simpl in *. by rewrite Hl.
Qed.

Lemma restored_edges : SEdges t ≡ₚ filter live_edge (SEdges s).
Proof.
  unfold t. rewrite (At_current s Hi). simpl. rewrite sort_by_perm, <- list_fmap_compose.
  rewrite <- (list_fmap_id (filter live_edge (SEdges s))) at 2.
  erewrite list_fmap_ext; [done|]. intros i r Hr. apply list_elem_of_lookup_2, list_elem_of_filter in Hr as [Hl _].
  simpl. destruct r; simpl in *. by rewrite Hl.
Qed.

Lemma restored_live : filter live_node (SNodes t) ≡ₚ filter live_node (SNodes s).
Proof. rewrite restored_nodes. by rewrite list_filter_filter_l. Qed.

Lemma restored_live_edges : filter live_edge (SEdges t) ≡ₚ filter live_edge (SEdges s).
Proof. rewrite restored_edges. by rewrite list_filter_filter_l. Qed.

Lemma restored_parent_nodes : parent_nodes t = parent_nodes s.
Proof. apply live_rows_same; [|apply restored_live]. unfold live_ids in *. rewrite restored_live. apply (pi_live_ids _ Hi). Qed.

Lemma restored_parent_edges : parent_edges t = parent_edges s.
Proof.
  apply live_rows_same; [|apply restored_live_edges]. rewrite restored_live_edges.
  apply live_edge_ids_NoDup, (pi_edge_ids _ Hi).
Qed.

(** Its lifecycle rows: one open row per live node that is not active, and one for the plan. *)
Definition restored_row (row : NodeVersion) : LifeRow :=
  mkLifeRow (node_row_id row) (currentLife (SLifecycle s) (node_row_id row)) (SRevision s) 0.
Definition inactive (row : NodeVersion) : Prop := currentLife (SLifecycle s) (node_row_id row) ≠ "".
Definition restored_plan : list LifeRow :=
  let ps := currentLife (SLifecycle s) "" in if bool_decide (ps = "") then [] else [mkLifeRow "" ps (SRevision s) 0].

Lemma restored_life : SLifecycle t ≡ₚ (restored_row <$> filter inactive (filter live_node (SNodes s))) ++ restored_plan.
Proof.
  unfold t. rewrite (At_current s Hi). simpl. apply Permutation_app_tail. rewrite sort_by_perm.
  induction (filter live_node (SNodes s)) as [|r l IH]; [done|]. csimpl. rewrite !filter_cons. unfold inactive at 2. simpl.
  destruct (decide _); csimpl; [by rewrite IH|exact IH].
Qed.

Lemma elem_of_restored_life r :
  r ∈ SLifecycle t ↔
  (∃ row, row ∈ SNodes s ∧ live_node row ∧ inactive row ∧ r = restored_row row) ∨
  (currentLife (SLifecycle s) "" ≠ "" ∧ r = mkLifeRow "" (currentLife (SLifecycle s) "") (SRevision s) 0).
Proof.
  rewrite restored_life, elem_of_app, list_elem_of_fmap. unfold restored_plan. split.
  - intros [(row & -> & [Hx [Hl Hr]%list_elem_of_filter]%list_elem_of_filter)|H]; [left; eauto 10|right].
    case_bool_decide; [by apply elem_of_nil in H|]. by apply list_elem_of_singleton in H.
  - intros [(row & Hr & Hl & Hx & ->)|[Hne ->]]; [left|right].
    + exists row. by rewrite !list_elem_of_filter.
    + rewrite bool_decide_eq_false_2 by done. by apply list_elem_of_singleton.
Qed.

Lemma currentLife_row x : currentLife (SLifecycle s) x ≠ "" → ∃ r, r ∈ SLifecycle s.
Proof. destruct (SLifecycle s) as [|r l]; [done|]. intros _. exists r. by left. Qed.

Lemma restored_open : filter life_open (SLifecycle t) = SLifecycle t.
Proof.
  apply filter_all. intros r Hr. apply elem_of_restored_life in Hr as [(row & _ & _ & _ & ->)|[_ ->]]; done.
Qed.

Lemma restored_life_inv : life_inv (SRevision t) (SLifecycle t).
Proof.
  rewrite (proj2 (proj2 restored_fields)). split.
  - intros r Hr. apply elem_of_restored_life in Hr as [(row & _ & _ & Hx & ->)|[Hx ->]]; exact Hx.
  - intros r Hr. apply elem_of_restored_life in Hr as [(row & Hrow & _ & _ & ->)|[Hx ->]]; simpl.
    + pose proof (pi_nodes _ Hi row Hrow) as [? _]. lia.
    + destruct (currentLife_row _ Hx) as [r0 Hr0]. pose proof (li_intro _ _ (pi_life _ Hi) r0 Hr0). lia.
  - intros r Hr. apply elem_of_restored_life in Hr as [(row & _ & _ & _ & ->)|[_ ->]]; by left.
  - rewrite restored_open, restored_life, fmap_app, <- list_fmap_compose. apply NoDup_app. split; [|split].
    + apply NoDup_fmap_filter, (pi_live_ids _ Hi).
    + intros x (row & -> & [_ [_ Hr]%list_elem_of_filter]%list_elem_of_filter)%list_elem_of_fmap.
      unfold restored_plan. case_bool_decide; csimpl; [by intros ?%elem_of_nil|].
      intros E%list_elem_of_singleton. by apply (pi_named _ Hi row Hr).
    + unfold restored_plan. case_bool_decide; csimpl; [apply NoDup_nil_2|apply NoDup_singleton].
Qed.

Lemma restored_currentLife x :
  x = "" ∨ is_Some (parent_nodes s !! x) → currentLife (SLifecycle t) x = currentLife (SLifecycle s) x.
Proof.
  intros Hx. destruct (decide (currentLife (SLifecycle s) x = "")) as [E|E].
  - rewrite E. apply currentLife_norow. intros r Hr Hid.
    apply elem_of_restored_life in Hr as [(row & _ & _ & Hin & ->)|[Hp ->]]; simpl in Hid; subst; done.
  - assert (mkLifeRow x (currentLife (SLifecycle s) x) (SRevision s) 0 ∈ SLifecycle t) as Hin.
    { apply elem_of_restored_life. destruct Hx as [->|[row (Hr & Hl & <-)%live_rows_Some]]; [by right|left; eauto 10]. }
    apply (currentLife_elem (SLifecycle t) _ (li_open _ _ restored_life_inv) Hin). done.
Qed.

Lemma restored_inv : plan_inv t.
Proof.
  assert (∀ r, r ∈ SNodes t ↔ live_node r ∧ r ∈ SNodes s) as Hn by (intros; by rewrite restored_nodes, list_elem_of_filter).
  assert (∀ r, r ∈ SEdges t ↔ live_edge r ∧ r ∈ SEdges s) as He by (intros; by rewrite restored_edges, list_elem_of_filter).
  pose proof (proj2 (proj2 restored_fields)) as Hr.
  assert (plan_edges t = plan_edges s) as Epe by (unfold plan_edges; by rewrite restored_parent_edges).
  assert (plan_nodes t = plan_nodes s) as Epn by (unfold plan_nodes; by rewrite restored_parent_nodes).
  split.
  - rewrite Hr. apply (pi_rev _ Hi).
  - intros r [_ H]%Hn. rewrite Hr. by apply (pi_nodes _ Hi).
  - intros r [_ H]%He. rewrite Hr. by apply (pi_edges _ Hi).
  - unfold live_ids. rewrite restored_live. apply (pi_live_ids _ Hi).
  - rewrite restored_nodes. apply NoDup_fmap_filter, (pi_versions _ Hi).
  - rewrite restored_edges. apply NoDup_fmap_filter, (pi_edge_ids _ Hi).
  - intros r [_ H]%Hn. by apply (pi_named _ Hi).
  - apply restored_life_inv.
  - rewrite Epn, Epe. apply (pi_graph _ Hi).
  - intros r [Hl H]%Hn _. rewrite Epe. by apply (pi_slices _ Hi).
  - intros r [(row & Hrow & Hl & _ & ->)|[_ ->]]%elem_of_restored_life; [right|by left]. exists row. by rewrite Hn.
Qed.

Lemma restored_sim : sim s t.
Proof.
  destruct restored_fields as (? & ? & ?). split; try done.
  - apply restored_inv.
  - apply restored_parent_nodes.
  - apply restored_parent_edges.
  - intros r. rewrite restored_nodes, list_elem_of_filter. intros [_ ?]. eauto.
  - intros r. rewrite restored_edges, list_elem_of_filter. intros [_ ?]. eauto.
  - apply restored_currentLife.
Qed.
End restore.

(** ** The log *)

(** A committed revision passes the strict rules, so it passes the rules of a replay, with the same rows. *)
Lemma plan_rules_lenient a : plan_rules true a = [] → plan_rules false a = [].
Proof.
  unfold plan_rules, limit_rules. intros [Hl Hr]%app_nil. apply app_nil in Hl as [_ Hl]. apply app_nil in Hl as [_ Hl].
  rewrite Hr, app_nil_r. simpl. done.
Qed.

Lemma applyChanges_lenient s cs next d :
  applyChanges s cs true = Some (next, d, []) → applyChanges s cs false = Some (next, d, []).
Proof.
  unfold applyChanges. destruct (change_loop s 0 cs (start_acc s)) as [a|]; simpl; [|done]. intros H.
  case_bool_decide as Hv; [|by simplify_eq]. apply app_nil in Hv as [-> Hv]. by rewrite (plan_rules_lenient a Hv).
Qed.

(** The log of a plan from [s] to [s']: what the writer commits, one event per revision. *)
Inductive history : State → list Event → State → Prop :=
| history_nil s : history s [] s
| history_cons s ev next d evs s' :
    named (EvChanges ev) = true → EvParentRevisionNo ev = SRevision s → EvRevisionNo ev = (SRevision s + 1)%Z →
    applyChanges s (EvChanges ev) true = Some (next, d, []) → EvStateDigest ev = SnapStateDigest (At next (SRevision next)) →
    history next evs s' → history s (ev :: evs) s'.

Lemma replay_step_ok st ev next :
  replay_step st ev = Ok next ↔
  EvParentRevisionNo ev = SRevision st ∧ EvRevisionNo ev = (SRevision st + 1)%Z ∧
  (∃ d, applyChanges st (EvChanges ev) false = Some (next, d, [])) ∧ SnapStateDigest (At next (SRevision next)) = EvStateDigest ev.
Proof.
  unfold replay_step. destruct (Z.eqb_spec (EvParentRevisionNo ev) (SRevision st)) as [E1|E1]; simpl; [|naive_solver].
  destruct (Z.eqb_spec (EvRevisionNo ev) (SRevision st + 1)) as [E2|E2]; simpl; [|naive_solver].
  destruct (applyChanges st (EvChanges ev) false) as [[[n d] vs]|]; [|by split; [|intros (_ & _ & [? ?] & _)]].
  case_bool_decide as Hv; [subst vs|by split; [|intros (_ & _ & [? ?] & _); simplify_eq]].
  case_bool_decide as Hd.
  - split; [intros; simplify_eq; eauto|intros (_ & _ & [? ?] & _); by simplify_eq].
  - split; [done|]. intros (_ & _ & [? ?] & ?). by simplify_eq.
Qed.

Lemma replay_step_sim s t ev s' :
  sim s t → named (EvChanges ev) = true → replay_step s ev = Ok s' → ∃ t', replay_step t ev = Ok t' ∧ sim s' t'.
Proof.
  intros Hs Hn (E1 & E2 & (d & Ha) & Hd)%replay_step_ok.
  destruct (applyChanges_sim _ _ _ _ _ _ Hs Hn Ha) as (t' & d' & Hb & Hs').
  exists t'. split; [|done]. apply replay_step_ok. rewrite (sim_revision _ _ Hs). split; [done|]. split; [done|].
  split; [by eauto|]. by rewrite (sim_At _ _ Hs').
Qed.

Lemma replay_loop_sim evs : ∀ s t s',
  sim s t → Forall (λ ev, named (EvChanges ev) = true) evs → replay_loop s evs = Ok s' →
  ∃ t', replay_loop t evs = Ok t' ∧ sim s' t'.
Proof.
  induction evs as [|ev evs IH]; intros s t s' Hs Hn H; simplify_eq/=; [eauto|]. apply Forall_cons in Hn as [Hn Hns].
  destruct (replay_step s ev) as [s1|e] eqn:E; simplify_eq/=.
  destruct (replay_step_sim _ _ _ _ Hs Hn E) as (t1 & -> & Hs1). eauto.
Qed.

Lemma replay_loop_inv evs : ∀ s s',
  plan_inv s → Forall (λ ev, named (EvChanges ev) = true) evs → replay_loop s evs = Ok s' → plan_inv s'.
Proof.
  induction evs as [|ev evs IH]; intros s s' Hi Hn H; simplify_eq/=; [done|]. apply Forall_cons in Hn as [Hn Hns].
  destruct (replay_step s ev) as [s1|e] eqn:E; simplify_eq/=.
  apply replay_step_ok in E as (_ & _ & (d & Ha) & _).
  destruct (outcome_accepted _ _ _ _ _ Hi Ha) as (a & rows & p & Hacc). eapply IH; [|done|done]. by eapply plan_inv_next.
Qed.

Lemma history_replay s evs s' : history s evs s' → replay_loop s evs = Ok s' ∧ Forall (λ ev, named (EvChanges ev) = true) evs.
Proof.
  induction 1 as [s|s ev next d evs s' Hn E1 E2 Ha Hd Hh [IH1 IH2]]; simpl; [done|].
  rewrite (proj2 (replay_step_ok s ev next)); [split; [done|by constructor]|].
  split; [done|]. split; [done|]. split; [by eauto using applyChanges_lenient|done].
Qed.

Lemma replay_loop_app evs1 evs2 : ∀ st,
  replay_loop st (evs1 ++ evs2) = match replay_loop st evs1 with Ok mid => replay_loop mid evs2 | Err e => Err e end.
Proof. induction evs1 as [|ev evs1 IH]; intros st; simpl; [done|]. by destruct (replay_step st ev). Qed.

Lemma replay_loop_cursor evs : ∀ st st',
  replay_loop st evs = Ok st' →
  SRevision st' = (SRevision st + Z.of_nat (length evs))%Z ∧
  (∀ i ev, evs !! i = Some ev → EvRevisionNo ev = (SRevision st + Z.of_nat i + 1)%Z) ∧
  (∀ ev, last evs = Some ev → EvStateDigest ev = SnapStateDigest (At st' (SRevision st'))).
Proof.
  induction evs as [|ev evs IH]; intros st st' H; simplify_eq/=; [split; [lia|done]|].
  destruct (replay_step st ev) as [st1|e] eqn:E; simplify_eq/=. destruct (IH _ _ H) as (R1 & R2 & R3).
  apply replay_step_ok in E as (_ & Er & (d & Ha) & Hd).
  assert (SRevision st1 = (SRevision st + 1)%Z) as Hr.
  { unfold applyChanges in Ha. destruct (change_loop st 0 _ _) as [a|]; simplify_eq/=.
    case_bool_decide; simplify_eq/=. case_match; by simplify_eq/=. }
  split; [rewrite R1; lia|]. split.
  - intros [|i] ev' Hev; simplify_eq/=; [lia|]. rewrite (R2 i ev' Hev). lia.
  - intros ev' Hl. destruct evs as [|ev2 evs]; simplify_eq/=; [done|]. by apply R3.
Qed.

Lemma replay_committed s evs s' : plan_inv s → history s evs s' → Replay (At s (SRevision s)) evs = Ok (At s' (SRevision s')).
Proof.
  intros Hi Hh. destruct (history_replay _ _ _ Hh) as [Hr Hn].
  destruct (replay_loop_sim _ _ _ _ (restored_sim s Hi) Hn Hr) as (t' & Ht & Hs).
  unfold Replay. rewrite Ht. by rewrite (sim_At _ _ Hs).
Qed.

(** ** Properties of the replay *)

(** C5: replaying the log a plan committed, from the snapshot of any state of it, reaches the snapshot of the state it ends in. *)
Theorem Replay_history s evs s' :
  plan_inv s → history s evs s' → Replay (At s (SRevision s)) evs = Ok (At s' (SRevision s')).
Proof. apply replay_committed. Qed.

(** A replay that succeeds also succeeds, with the same final snapshot, when it is resumed from the snapshot it passes through
    and the rest of the log. *)
Theorem Replay_resumes base evs1 evs2 mid final :
  plan_inv (StateFromSnapshot base) → Forall (λ ev, named (EvChanges ev) = true) (evs1 ++ evs2) →
  Replay base evs1 = Ok mid → Replay base (evs1 ++ evs2) = Ok final → Replay mid evs2 = Ok final.
Proof.
  intros Hi Hn Hm Hf. unfold Replay in *. rewrite replay_loop_app in Hf. apply Forall_app in Hn as [Hn1 Hn2].
  destruct (replay_loop (StateFromSnapshot base) evs1) as [st1|] eqn:E1; simplify_eq.
  destruct (replay_loop st1 evs2) as [st2|] eqn:E2; simplify_eq.
  pose proof (replay_loop_inv _ _ _ Hi Hn1 E1) as Hi1.
  destruct (replay_loop_sim _ _ _ _ (restored_sim st1 Hi1) Hn2 E2) as (t2 & -> & Hs). by rewrite (sim_At _ _ Hs).
Qed.

(** A replay refuses a log with a missing, repeated or reordered event, and one whose last digest is not the digest of the
    plan it reaches: when it succeeds, the revisions follow each other without a gap and the digest matches. *)
Theorem Replay_checks base evs final :
  Replay base evs = Ok final →
  SnapRevision final = (SnapRevision base + Z.of_nat (length evs))%Z ∧
  (∀ i ev, evs !! i = Some ev → EvRevisionNo ev = (SnapRevision base + Z.of_nat i + 1)%Z) ∧
  (∀ ev, last evs = Some ev → EvStateDigest ev = SnapStateDigest final).
Proof.
  unfold Replay. destruct (replay_loop (StateFromSnapshot base) evs) as [st|] eqn:E; intros; simplify_eq.
  destruct (replay_loop_cursor _ _ _ E) as (R1 & R2 & R3). split; [|split; [exact R2|]].
  - unfold At. destruct (lifeAt _ _). simpl. exact R1.
  - exact R3.
Qed.

(** ** Witnesses: the log of the example plan *)

Definition example_event (n : Z) (cs : list Change) (st : State) : Event :=
  mkEvent "plan" n (n - 1) "req" "" 1 "task" "" cs (SnapStateDigest (At st (SRevision st))).
Definition example_log : list Event := [example_event 1 Example.changes Example.next; example_event 2 Example.changes2 Example.next2].

Lemma example_history : history Example.prev example_log Example.next2.
Proof.
  eapply history_cons; [reflexivity|reflexivity|reflexivity|exact Example.accepted1|reflexivity|].
  eapply history_cons; [reflexivity|reflexivity|reflexivity|exact Example.accepted2|reflexivity|]. constructor.
Qed.

Lemma Replay_history_witness : Replay (At Example.prev 0) example_log = Ok (At Example.next2 2).
Proof. exact (Replay_history Example.prev example_log Example.next2 (plan_inv_empty _ _) example_history). Defined.

Lemma Replay_resumes_witness : Replay (At Example.next 1) [example_event 2 Example.changes2 Example.next2] = Ok (At Example.next2 2).
Proof.
  apply (Replay_resumes (At Example.prev 0) [example_event 1 Example.changes Example.next] [example_event 2 Example.changes2 Example.next2]).
  - apply (restored_inv Example.prev), plan_inv_empty.
  - repeat constructor.
  - vm_compute. reflexivity.
  - vm_compute. reflexivity.
Defined.

Lemma Replay_checks_witness : SnapRevision (At Example.next2 2) = 2%Z.
Proof.
  destruct (Replay_checks (At Example.prev 0) example_log (At Example.next2 2)) as (H & _); [vm_compute; reflexivity|exact H].
Defined.
