(* ===== verification/DagDecode.v ===== *)
(** * DagDecode: the strict reader of revision documents (internal/relay/dag: decode.go, violations.go's refusal).

    The methods of Go's [decoder] append to its violations: here each returns its value and the violations it adds, composed with [let!].
    A Go pair [(s, true)] or ["", false] is an [option]; the second result of [object], which no caller reads, is left out. A missing
    entry of a map read without a check is Go's nil, which no type assertion tells from a decoded [null]: [nil_get]. *)
From S2P Require Import Prelude GoLib Sha256 Json Loads DagModel.
Local Open Scope string_scope.

(** ** The violations a reader collects *)
Definition dec (A : Type) : Type := (A * list Violation)%type.
Definition dret {A} (a : A) : dec A := (a, []).
Definition dadd {A} (a : A) (v : Violation) : dec A := (a, [v]).
Definition dbind {A B} (m : dec A) (k : A → dec B) : dec B := let '(a, v) := m in let '(b, w) := k a in (b, (v ++ w)%list).
Notation "'let!' x ':=' m 'in' k" := (dbind m (λ x, k)) (at level 10, x pattern, m at level 100, k at level 200) : relay_scope.
Local Open Scope relay_scope.

Definition fields : Type := list (string * value).
Definition nil_get (obj : fields) (key : string) : value := default VNull (map_get obj key).

Definition join (path key : string) : string := path +:+ "." +:+ key.
Definition index_path (path : string) (i : nat) : string := path +:+ "[" +:+ itoa_nat i +:+ "]".

Definition mark : string := String "034" "".
Definition hints (key : string) : option string :=
  let text op piece name := "a revision carries its nodes and edges as changes: {" +:+ mark +:+ "op" +:+ mark +:+ ":" +:+ mark +:+ op +:+ mark +:+ "," +:+
    mark +:+ piece +:+ mark +:+ ":{...}} entries in changes[], and a top-level " +:+ mark +:+ name +:+ mark +:+ " is not read" in
  if bool_decide (key = "nodes") then Some (text "add_node" "node" "nodes")
  else if bool_decide (key = "edges") then Some (text "add_edge" "edge" "edges")
  else None.

Definition unknown_field (path key : string) : Violation :=
  mkViolation RuleUnknownField (join path key)
    ([Lit "unknown field "; Quoted key] ++
     (if bool_decide (path = "$") then match hints key with Some h => [Lit (": " +:+ h)] | None => [] end else []))%list.

Definition missing_field (path key : string) : Violation := violation RuleMissingField (join path key) "required field is missing".

(** [decoder.object]: the object, when [value] is one. *)
Definition object (path : string) (v : value) (required optional : list string) : dec (option fields) :=
  match v with
  | VMap obj =>
    let unknown := sort_strings (filter (λ k, (k ∉ required) ∧ (k ∉ optional)) obj.*1) in
    let missing := filter (λ k, map_get obj k = None) required in
    (Some obj, ((unknown_field path <$> unknown) ++ (missing_field path <$> missing))%list)
  | _ => dadd None (violation RuleNotAnObject path "must be a JSON object")
  end.

(** ** The characters of a text *)
Definition rune_count (s : string) : nat := length (runes (bytes_of_string s)).

Definition HasControl (s : string) : bool := existsb (λ r, (r <? 0x20)%Z || (r =? 0x7f)%Z) (runes (bytes_of_string s)).

Definition is_alnum (b : Z) : bool := in_range 65 90 b || in_range 97 122 b || in_range 48 57 b.
Definition is_id_byte (b : Z) : bool := is_alnum b || bool_decide (b ∈ [46; 95; 58; 45]%Z).

(** [identifierPattern] and [digestPattern] *)
Definition match_identifier (s : string) : bool :=
  match bytes_of_string s with b :: rest => is_alnum b && forallb is_id_byte rest | [] => false end.
Definition is_hex_lower (b : Z) : bool := in_range 48 57 b || in_range 97 102 b.
Definition match_digest (s : string) : bool :=
  (length (bytes_of_string s) =? 64)%nat && forallb is_hex_lower (bytes_of_string s).

Definition too_long (n max : nat) : string := "is " +:+ itoa_nat n +:+ " characters long; the limit is " +:+ itoa_nat max.

(** ** Fields *)
Definition text (path : string) (obj : fields) (key : string) (max : nat) : dec (option string) :=
  let p := join path key in
  match map_get obj key with
  | None => dret None
  | Some (VString s) =>
    if bool_decide (s = "") then dadd None (violation RuleEmptyValue p "must not be empty (an empty string is a missing value)")
    else if (max <? rune_count s)%nat then dadd None (violation RuleValueTooLong p (too_long (rune_count s) max))
    else if HasControl s then dadd None (violation RuleBadText p "must not contain control characters")
    else dret (Some s)
  | Some _ => dadd None (violation RuleWrongType p "must be a string")
  end.

Definition identifier (path : string) (obj : fields) (key : string) : dec (option string) :=
  let p := join path key in
  match map_get obj key with
  | None => dret None
  | Some (VString s) =>
    if bool_decide (s = "") then dadd None (violation RuleEmptyValue p "must not be empty (an empty string is a missing value)")
    else if (MaxIDLength <? String.length s)%nat then dadd None (violation RuleValueTooLong p (too_long (String.length s) MaxIDLength))
    else if match_identifier s then dret (Some s)
    else dadd None (mkViolation RuleBadIdentifier p
      [Quoted s; Lit " must start with a letter or digit and hold only letters, digits, '.', '_', ':' and '-'"])
  | Some _ => dadd None (violation RuleWrongType p "must be a string")
  end.

Definition digest (path : string) (obj : fields) (key : string) : dec (option string) :=
  let p := join path key in
  match map_get obj key with
  | None => dret None
  | Some (VString s) =>
    if match_digest s then dret (Some s)
    else dadd None (violation RuleBadDigest p "must be 64 lowercase hexadecimal characters (a sha256 digest)")
  | Some _ => dadd None (violation RuleWrongType p "must be a string")
  end.

Definition enum (path : string) (obj : fields) (key rule : string) (allowed : list string) : dec (option string) :=
  let p := join path key in
  match map_get obj key with
  | None => dret None
  | Some (VString s) =>
    if bool_decide (s ∈ allowed) then dret (Some s)
    else dadd None (mkViolation rule p [Quoted s; Lit (" is not one of " +:+ join_sep ", " allowed)])
  | Some _ => dadd None (violation RuleWrongType p "must be a string")
  end.

Definition integer (path : string) (obj : fields) (key : string) : dec (option Z) :=
  let p := join path key in
  match map_get obj key with
  | None => dret None
  | Some (VInt n) =>
    if (n <? 0)%Z then dadd None (violation RuleWrongType p "must not be negative") else dret (Some n)
  | Some _ => dadd None (violation RuleWrongType p "must be a whole number")
  end.

Definition boolean (path : string) (obj : fields) (key : string) : dec (option bool) :=
  match map_get obj key with
  | None => dret None
  | Some (VBool b) => dret (Some b)
  | Some _ => dadd None (violation RuleWrongType (join path key) "must be true or false")
  end.

(** The loop of [authorities]; [out] is also the set [seen]. *)
Fixpoint authority_loop (p : string) (i : nat) (out : list string) (items : list value) : dec (list string) :=
  match items with
  | [] => dret out
  | item :: rest =>
    let ip := index_path p i in
    let! next :=
      match item with
      | VString s =>
        if bool_decide (s = "") then dadd out (violation RuleEmptyValue ip "must not be empty")
        else if (MaxAuthorityLength <? rune_count s)%nat then dadd out (violation RuleValueTooLong ip (too_long (rune_count s) MaxAuthorityLength))
        else if HasControl s then dadd out (violation RuleBadText ip "must not contain control characters")
        else if bool_decide (s ∈ out) then dadd out (mkViolation RuleDuplicateValue ip [Quoted s; Lit " is named twice"])
        else dret (out ++ [s])%list
      | _ => dadd out (violation RuleWrongType ip "must be a string")
      end in
    authority_loop p (S i) next rest
  end.

Definition authorities (path : string) (obj : fields) (key : string) : dec (list string) :=
  let p := join path key in
  match map_get obj key with
  | None => dret []
  | Some (VList l) =>
    if bool_decide (l = []) then dadd [] (violation RuleEmptyValue p "must name at least one authority")
    else if (MaxAuthorities <? length l)%nat then
      dadd [] (violation RuleLimitExceeded p ("names " +:+ itoa_nat (length l) +:+ " authorities; the limit is " +:+ itoa_nat MaxAuthorities))
    else let! out := authority_loop p 0 [] l in dret (sort_strings out)
  | Some _ => dadd [] (violation RuleWrongType p "must be a list of strings")
  end.

(** ** Nodes, edges and changes *)
Definition nodeKinds : list string := [NodeImplementation; NodeNonPR].
Definition edgeKinds : list string := [EdgeArtifactVerified; EdgeIntegrated; EdgeDecision].

Definition node (path : string) (v : value) : dec (option Node) :=
  let! o := object path v ["node_id"; "issue_key"; "kind"; "criteria_set_digest"] ["title"] in
  match o with
  | None => dret None
  | Some obj =>
    let! id := identifier path obj "node_id" in
    let! issue := identifier path obj "issue_key" in
    let! kind := enum path obj "kind" RuleUnknownNodeKind nodeKinds in
    let! criteria := digest path obj "criteria_set_digest" in
    let! title := text path obj "title" MaxTitleLength in
    dret (Some (mkNode (default "" id) (default "" issue) (default "" kind) (default "" title) (default "" criteria)))
  end.

Definition edge (path : string) (v : value) : dec (option Edge) :=
  let! o := object path v ["edge_id"; "from_node_id"; "to_node_id"; "kind"]
    ["target_repository"; "target_base_ref"; "pins_code_head"; "decision_subject"; "decision_digest"; "required_authority"] in
  match o with
  | None => dret None
  | Some obj =>
    let! id := identifier path obj "edge_id" in
    let! from := identifier path obj "from_node_id" in
    let! to := identifier path obj "to_node_id" in
    let! kind := enum path obj "kind" RuleUnknownEdgeKind edgeKinds in
    let! repo := text path obj "target_repository" MaxTextLength in
    let! base := text path obj "target_base_ref" MaxTextLength in
    let! pins := boolean path obj "pins_code_head" in
    let! subject := text path obj "decision_subject" MaxTextLength in
    let! dd := digest path obj "decision_digest" in
    let! auth := authorities path obj "required_authority" in
    dret (Some (mkEdge (default "" id) (default "" from) (default "" to) (default "" kind) (default "" repo) (default "" base)
      (default false pins) (default "" subject) (default "" dd) auth))
  end.

(** What [change] reads for an operation it knows. *)
Definition change_body (path : string) (v : value) (op : string) (o : Op) : dec Change :=
  match o with
  | OpAddNode | OpUpdateNode =>
    let! obj := object path v ["op"; "node"] [] in
    match obj with
    | None => dret (mkChange op None None "" "" "")
    | Some obj => let! n := node (join path "node") (nil_get obj "node") in dret (mkChange op n None "" "" "")
    end
  | OpReplaceNode =>
    let! obj := object path v ["op"; "node"; "supersedes_node_id"] [] in
    match obj with
    | None => dret (mkChange op None None "" "" "")
    | Some obj =>
      let! n := node (join path "node") (nil_get obj "node") in
      let! sup := identifier path obj "supersedes_node_id" in
      dret (mkChange op n None "" "" (default "" sup))
    end
  | OpRetireNode | OpPauseNode | OpResumeNode | OpCancelNode | OpArchiveNode =>
    let! obj := object path v ["op"; "node_id"] [] in
    match obj with
    | None => dret (mkChange op None None "" "" "")
    | Some obj => let! id := identifier path obj "node_id" in dret (mkChange op None None (default "" id) "" "")
    end
  | OpPausePlan | OpResumePlan => let! _ := object path v ["op"] [] in dret (mkChange op None None "" "" "")
  | OpAddEdge =>
    let! obj := object path v ["op"; "edge"] [] in
    match obj with
    | None => dret (mkChange op None None "" "" "")
    | Some obj => let! e := edge (join path "edge") (nil_get obj "edge") in dret (mkChange op None e "" "" "")
    end
  | OpRetireEdge =>
    let! obj := object path v ["op"; "edge_id"] [] in
    match obj with
    | None => dret (mkChange op None None "" "" "")
    | Some obj => let! id := identifier path obj "edge_id" in dret (mkChange op None None "" (default "" id) "")
    end
  end.

Definition change (path : string) (v : value) : dec (option Change) :=
  match v with
  | VMap raw =>
    let! op := enum path raw "op" RuleUnknownOp (op_name <$> allOps) in
    match op with
    | None =>
      match map_get raw "op" with
      | None => dadd None (missing_field path "op")
      | Some _ => dret None
      end
    | Some op =>
      match op_of op with
      | Some o => let! c := change_body path v op o in dret (Some c)
      | None => dret (Some (mkChange op None None "" "" ""))
      end
    end
  | _ => dadd None (violation RuleNotAnObject path "must be a JSON object")
  end.

Fixpoint change_list (path : string) (i : nat) (items : list value) : dec (list Change) :=
  match items with
  | [] => dret []
  | item :: rest =>
    let! c := change (index_path path i) item in
    let! cs := change_list path (S i) rest in
    dret (match c with Some c => c :: cs | None => cs end)
  end.

Definition changes (path : string) (v : value) : dec (list Change) :=
  match v with
  | VList l =>
    if bool_decide (l = []) then dadd [] (violation RuleEmptyChanges path "a revision must carry at least one change")
    else if (MaxChanges <? length l)%nat then
      dadd [] (violation RuleLimitExceeded path ("carries " +:+ itoa_nat (length l) +:+ " changes; the limit is " +:+ itoa_nat MaxChanges))
    else change_list path 0 l
  | _ => dadd [] (violation RuleWrongType path "must be a list of changes")
  end.

(** ** Documents *)

(** The errors of the package: [UnreadableError], [PlanRejected], [CorruptError]. *)
Inductive DagError : Type :=
| Unreadable (e : LoadError)
| PlanRejected (violations : list Violation)
| Corrupt (detail : list piece).

Definition maxShown : nat := 20.

(** [Violation.String] *)
Definition violation_string (v : Violation) : list piece := ([Lit ("[" +:+ VRule v +:+ "] " +:+ VPath v +:+ ": ")] ++ VDetail v)%list.

Fixpoint join_pieces (sep : string) (parts : list (list piece)) : list piece :=
  match parts with
  | [] => []
  | [p] => p
  | p :: rest => (p ++ [Lit sep] ++ join_pieces sep rest)%list
  end.

(** The detail of [PlanRejected.refusal]. *)
Definition refusal_detail (vs : list Violation) : list piece :=
  ([Lit ("the plan revision was rejected, " +:+ itoa_nat (length vs) +:+ " violation(s): ")] ++
   join_pieces "; " (violation_string <$> take maxShown vs) ++
   (if (maxShown <? length vs)%nat then [Lit ("; and " +:+ itoa_nat (length vs - maxShown) +:+ " more")] else []))%list.

Definition parse (raw : string) : result LoadError value := Loads raw.

Definition schema_rule (obj : fields) : dec unit :=
  match map_get obj "schema" with
  | None => dret tt
  | Some (VString s) =>
    if bool_decide (s = SchemaRevision) then dret tt
    else dadd tt (mkViolation RuleBadSchema "$.schema" [Lit "must be "; Quoted SchemaRevision])
  | Some _ => dadd tt (mkViolation RuleBadSchema "$.schema" [Lit "must be "; Quoted SchemaRevision])
  end.

Definition zero_Revision : Revision := mkRevision "" "" "" 0 0 "" [].

Definition revision_fields (v : value) : dec Revision :=
  let! o := object "$" v ["schema"; "plan_id"; "project_key"; "request_id"; "expected_parent_revision"; "author_task_id"; "changes"]
    ["coordinator_epoch"] in
  match o with
  | None => dret zero_Revision
  | Some obj =>
    let! _ := schema_rule obj in
    let! plan := identifier "$" obj "plan_id" in
    let! project := identifier "$" obj "project_key" in
    let! request := identifier "$" obj "request_id" in
    let! author := identifier "$" obj "author_task_id" in
    let! parent := integer "$" obj "expected_parent_revision" in
    let! epoch := integer "$" obj "coordinator_epoch" in
    let! cs := match map_get obj "changes" with Some v => changes "$.changes" v | None => dret [] end in
    dret (mkRevision (default "" plan) (default "" project) (default "" request) (default 0%Z parent) (default 0%Z epoch)
      (default "" author) cs)
  end.

Definition DecodeRevision (raw : string) : result DagError Revision :=
  let size := Z.of_nat (String.length raw) in
  if (MaxDocumentBytes <? size)%Z then
    Err (PlanRejected [violation RuleLimitExceeded "$" ("the document is " +:+ itoa size +:+ " bytes; the limit is " +:+ itoa MaxDocumentBytes)])
  else
    match parse raw with
    | Err (LRepeated key) => Err (PlanRejected [mkViolation RuleDuplicateKey "$" [Lit "duplicate key "; Quoted key]])
    | Err e => Err (Unreadable e)
    | Ok v =>
      let '(rev, vs) := revision_fields v in
      if bool_decide (length vs = 0%nat) then Ok rev else Err (PlanRejected vs)
    end.

(** The text of a reader's error: what [err.Error()] says. *)
Definition load_error_text (e : LoadError) : list piece :=
  match e with
  | LScan t => [Lit t]
  | LSyntax => [Lit "syntax"]
  | LDepth => [Lit "exceeded max depth"]
  | LConstant w =>
    [Lit (if bool_decide (w = "-Infinity") then "invalid character 'I' in numeric literal"
          else "invalid character '" +:+ String.substring 0 1 w +:+ "' looking for beginning of value")]
  | LRepeated k => [Lit "duplicate key "; Quoted k]
  | LTrailing => [Lit "trailing data after the JSON value"]
  | LFuel => []
  end.

Definition DecodeChanges (stored : string) : result DagError (list Change) :=
  match parse stored with
  | Err e => Err (Corrupt (Lit "a stored change list is not JSON: " :: load_error_text e))
  | Ok v =>
    let '(cs, vs) := changes "changes" v in
    if bool_decide (length vs = 0%nat) then Ok cs
    else Err (Corrupt (Lit "a stored change list does not read: " :: refusal_detail vs))
  end.

(** The pieces [Checked] asks for before it writes the document. *)
Definition missing_piece (c : Change) : option string :=
  match op_of (COp c) with
  | Some OpAddNode | Some OpUpdateNode | Some OpReplaceNode => match CNode c with None => Some "node" | Some _ => None end
  | Some OpAddEdge => match CEdge c with None => Some "edge" | Some _ => None end
  | _ => None
  end.

Definition shape_violations (cs : list Change) : list Violation :=
  concat (imap (λ i c,
    match missing_piece c with
    | Some m => [violation RuleMissingField (index_path "$.changes" i +:+ "." +:+ m) (COp c +:+ " needs its " +:+ m)]
    | None => []
    end) cs).

Definition revision_object (rev : Revision) (cs : list value) : value :=
  VMap (map_of
    ([("schema", VString SchemaRevision); ("plan_id", VString (RPlanID rev)); ("project_key", VString (RProjectKey rev));
      ("request_id", VString (RRequestID rev)); ("expected_parent_revision", VInt (RExpectedParent rev));
      ("author_task_id", VString (RAuthorTaskID rev)); ("changes", VList cs)]
     ++ (if bool_decide (RCoordinatorEpoch rev = 0%Z) then [] else [("coordinator_epoch", VInt (RCoordinatorEpoch rev))]))%list).

(** [None] is the panic of a nil node or edge, which the shape check excludes. *)
Definition Checked (rev : Revision) : option (result DagError Revision) :=
  let shape := shape_violations (RChanges rev) in
  if bool_decide (length shape = 0%nat) then
    match changeObjects (RChanges rev) with
    | Some cs => Some (DecodeRevision (canonical (revision_object rev cs)))
    | None => None
    end
  else Some (Err (PlanRejected shape)).

(** ** Examples *)
Definition sample_node : Node := mkNode "n1" "CRW-1" NodeImplementation "A title" (sha256_hex "x").
Definition sample_edge : Edge := mkEdge "e1" "n1" "n2" EdgeDecision "" "" false "subject" (sha256_hex "y") ["b"; "a"].
Definition sample_revision : Revision := mkRevision "p" "k" "r" 3 0 "t"
  [mkChange "add_node" (Some sample_node) None "" "" ""; mkChange "add_edge" None (Some sample_edge) "" "" "";
   mkChange "retire_node" None None "n0" "" ""].

(** The reader sorts the authorities and keeps the rest. *)
Example checked_sample :
  Checked sample_revision = Some (Ok (mkRevision "p" "k" "r" 3 0 "t"
    [mkChange "add_node" (Some sample_node) None "" "" "";
     mkChange "add_edge" None (Some (mkEdge "e1" "n1" "n2" EdgeDecision "" "" false "subject" (sha256_hex "y") ["a"; "b"])) "" "" "";
     mkChange "retire_node" None None "n0" "" ""])).
Proof. vm_compute. reflexivity. Qed.

(** A top-level [nodes] is refused with a hint, next to the fields that are missing. *)
Example decode_hint :
  match DecodeRevision ("{" +:+ mark +:+ "nodes" +:+ mark +:+ ":[]}") with
  | Err (PlanRejected vs) => (λ v, (VRule v, VPath v)) <$> vs
  | _ => []
  end = (RuleUnknownField, "$.nodes") ::
        ((λ k, (RuleMissingField, "$." +:+ k)) <$>
         ["schema"; "plan_id"; "project_key"; "request_id"; "expected_parent_revision"; "author_task_id"; "changes"]).
Proof. vm_compute. reflexivity. Qed.
