(* ===== verification/DagDecodeProps.v ===== *)
(** * DagDecodeProps: the strict reader accepts well-formed documents only, and reads back what the package writes.

    [wf_revision] says what a revision of the package is; the reader accepts nothing else, and the document [Checked] writes for such a
    revision reads as that revision. *)
From S2P Require Import Prelude GoLib Sha256 Json Loads Utf8 JsonText JsonRoundtrip JsonLoaded DagModel DagDecode.
Local Open Scope string_scope.
(** ** Well-formed plans *)
Definition wf_id (s : string) : Prop := match_identifier s = true ∧ (String.length s ≤ MaxIDLength)%nat.
Definition wf_digest (s : string) : Prop := match_digest s = true.
Definition good_text (max : nat) (s : string) : Prop := s ≠ "" ∧ (rune_count s ≤ max)%nat ∧ HasControl s = false ∧ utf8 (bytes_of_string s).
Definition wf_text (max : nat) (s : string) : Prop := s = "" ∨ good_text max s.

Record wf_node (n : Node) : Prop := {
  wn_id : wf_id (NodeID n);
  wn_issue : wf_id (IssueKey n);
  wn_kind : NKind n ∈ nodeKinds;
  wn_criteria : wf_digest (CriteriaSetDigest n);
  wn_title : wf_text MaxTitleLength (Title n)
}.

Record wf_authorities (l : list string) : Prop := {
  wa_count : (length l ≤ MaxAuthorities)%nat;
  wa_sorted : StronglySorted String.le l;
  wa_nodup : NoDup l;
  wa_text : Forall (good_text MaxAuthorityLength) l
}.

Record wf_edge (e : Edge) : Prop := {
  we_id : wf_id (EdgeID e);
  we_from : wf_id (FromNodeID e);
  we_to : wf_id (ToNodeID e);
  we_kind : EKind e ∈ edgeKinds;
  we_repo : wf_text MaxTextLength (TargetRepository e);
  we_base : wf_text MaxTextLength (TargetBaseRef e);
  we_subject : wf_text MaxTextLength (DecisionSubject e);
  we_digest : DecisionDigest e = "" ∨ wf_digest (DecisionDigest e);
  we_auth : wf_authorities (RequiredAuthority e)
}.

(** A change carries the piece its operation needs and nothing else. *)
Inductive wf_change : Change → Prop :=
| wf_node_op o n : o = OpAddNode ∨ o = OpUpdateNode → wf_node n → wf_change (mkChange (op_name o) (Some n) None "" "" "")
| wf_replace n sup : wf_node n → wf_id sup → wf_change (mkChange (op_name OpReplaceNode) (Some n) None "" "" sup)
| wf_id_op o id : o ∈ [OpRetireNode; OpPauseNode; OpResumeNode; OpCancelNode; OpArchiveNode] → wf_id id →
    wf_change (mkChange (op_name o) None None id "" "")
| wf_plan_op o : o = OpPausePlan ∨ o = OpResumePlan → wf_change (mkChange (op_name o) None None "" "" "")
| wf_add_edge e : wf_edge e → wf_change (mkChange (op_name OpAddEdge) None (Some e) "" "" "")
| wf_retire_edge id : wf_id id → wf_change (mkChange (op_name OpRetireEdge) None None "" id "").

Definition wf_changes (cs : list Change) : Prop := (1 ≤ length cs ≤ MaxChanges)%nat ∧ Forall wf_change cs.

Definition wf_counter (n : Z) : Prop := (0 ≤ n ≤ max_int64)%Z.

Record wf_revision (r : Revision) : Prop := {
  wr_plan : wf_id (RPlanID r);
  wr_project : wf_id (RProjectKey r);
  wr_request : wf_id (RRequestID r);
  wr_author : wf_id (RAuthorTaskID r);
  wr_parent : wf_counter (RExpectedParent r);
  wr_epoch : wf_counter (RCoordinatorEpoch r);
  wr_changes : wf_changes (RChanges r)
}.

(** ** The violations of a composition *)
Lemma dbind_quiet {A B} (m : dec A) (k : A → dec B) b : dbind m k = (b, []) → ∃ a, m = (a, []) ∧ k a = (b, []).
Proof.
  unfold dbind. destruct m as [a v]. destruct (k a) as [b' w] eqn:E. intros [= <- Hnil]. apply app_nil in Hnil as [-> ->]. eauto.
Qed.

Lemma dbind_ret {A B} (a : A) (k : A → dec B) : dbind (a, []) k = k a.
Proof. unfold dbind. by destruct (k a). Qed.

(** Take a quiet composition apart, one step at a time. *)
Tactic Notation "quiet" hyp(H) ident(x) ident(Hx) := apply dbind_quiet in H as (x & Hx & H).

(** ** What a quiet field is *)
Lemma object_quiet path v req opt o : object path v req opt = (o, []) →
  ∃ obj, o = Some obj ∧ v = VMap obj ∧ ∀ k, k ∈ req → is_Some (map_get obj k).
Proof.
  unfold object. destruct v as [| | | | | | |obj]; try done. intros [= <- Hnil]. apply app_nil in Hnil as [_ Hnil]. apply fmap_nil_inv in Hnil.
  exists obj; split_and!; [done..|]. intros k Hk. destruct (map_get obj k) eqn:E; [by eexists|]. exfalso.
  assert (k ∈ filter (λ k, map_get obj k = None) req) as Hin by (by apply list_elem_of_filter). rewrite Hnil in Hin. by apply elem_of_nil in Hin.
Qed.

Lemma loaded_string_inv s : loaded (VString s) → utf8 (bytes_of_string s).
Proof. by inversion 1. Qed.

(** Split a reader of one field into its cases, and drop those that report something. *)
Ltac quiet_field := repeat (case_match; simplify_eq/=; try done).

Lemma identifier_quiet path obj key o : identifier path obj key = (o, []) → is_Some (map_get obj key) → wf_id (default "" o).
Proof.
  unfold identifier. intros H [v Hv]. rewrite Hv in H. destruct v; try done.
  destruct (bool_decide (s = "")); [done|]. destruct (Nat.ltb_spec MaxIDLength (String.length s)); [done|].
  destruct (match_identifier s) eqn:Em; [|done]. injection H as <-. by split.
Qed.

Lemma digest_quiet path obj key o : digest path obj key = (o, []) →
  (is_Some (map_get obj key) ∧ wf_digest (default "" o)) ∨ (map_get obj key = None ∧ default "" o = "").
Proof.
  unfold digest. intros H. destruct (map_get obj key) as [v|]; [|injection H as <-; by right]. destruct v; try done. left. split; [by eexists|].
  destruct (match_digest s) eqn:E; [|done]. by injection H as <-.
Qed.

Lemma enum_quiet path obj key rule allowed o : enum path obj key rule allowed = (o, []) → is_Some (map_get obj key) → default "" o ∈ allowed.
Proof.
  unfold enum. intros H [v Hv]. rewrite Hv in H. destruct v; try done. destruct (bool_decide_reflect (s ∈ allowed)); [|done]. by injection H as <-.
Qed.

Lemma text_quiet path obj key max o : loaded (VMap obj) → text path obj key max = (o, []) → wf_text max (default "" o).
Proof.
  unfold text. intros Hl H. destruct (map_get obj key) as [v|] eqn:Hv; [|injection H as <-; by left]. pose proof (loaded_get _ _ _ Hl Hv) as Hlv.
  destruct v; try done. destruct (bool_decide_reflect (s = "")); [done|]. destruct (Nat.ltb_spec max (rune_count s)); [done|].
  destruct (HasControl s) eqn:E; [done|]. injection H as <-. right. split_and!; [done..|]. by apply loaded_string_inv.
Qed.

Lemma integer_quiet path obj key o : loaded (VMap obj) → integer path obj key = (o, []) → wf_counter (default 0%Z o).
Proof.
  unfold integer. intros Hl H. destruct (map_get obj key) as [v|] eqn:Hv; [|injection H as <-; done]. pose proof (loaded_get _ _ _ Hl Hv) as Hlv.
  destruct v; try done. destruct (Z.ltb_spec z 0); [done|]. injection H as <-. inversion Hlv; subst. unfold wf_counter. simpl. lia.
Qed.

Lemma authority_loop_quiet p i out items l :
  Forall loaded items → NoDup out → Forall (good_text MaxAuthorityLength) out → authority_loop p i out items = (l, []) →
  NoDup l ∧ Forall (good_text MaxAuthorityLength) l ∧ (length l = length out + length items)%nat.
Proof.
  intros Hl. revert i out. induction Hl as [|v items Hv Hl IH]; intros i out Hnd Hg H; cbn [authority_loop] in H.
  { injection H as <-. simpl. auto with lia. }
  quiet H next Hn. assert (NoDup next ∧ Forall (good_text MaxAuthorityLength) next ∧ (length next = S (length out))%nat) as (Hnd' & Hg' & Hlen).
  { destruct v; try done. destruct (bool_decide_reflect (s = "")); [done|]. destruct (Nat.ltb_spec MaxAuthorityLength (rune_count s)); [done|].
    destruct (HasControl s) eqn:Ec; [done|]. destruct (bool_decide_reflect (s ∈ out)); [done|]. injection Hn as <-. split_and!.
    - apply NoDup_app. split_and!; [done| |apply NoDup_singleton]. intros x Hx ->%list_elem_of_singleton. done.
    - apply Forall_app. split; [done|]. apply Forall_singleton. split_and!; [done..|]. by apply loaded_string_inv.
    - rewrite length_app. simpl. lia. }
  destruct (IH _ _ Hnd' Hg' H) as (? & ? & ?). split_and!; [done..|]. simpl. lia.
Qed.

Lemma authorities_quiet path obj key l : loaded (VMap obj) → authorities path obj key = (l, []) → wf_authorities l.
Proof.
  unfold authorities. intros Hl H. destruct (map_get obj key) as [v|] eqn:Hv.
  2:{ injection H as <-. split; [simpl; lia|constructor..]. }
  pose proof (loaded_get _ _ _ Hl Hv) as Hlv. destruct v as [| | | | | |items|]; try done. inversion Hlv as [| | | | | |? Hitems|]; subst.
  destruct (bool_decide (items = [])); [done|]. destruct (Nat.ltb_spec MaxAuthorities (length items)); [done|]. quiet H out Ho. injection H as <-.
  apply authority_loop_quiet in Ho as (Hnd & Hg & Hlen); [|done|constructor..]. split.
  - unfold sort_strings. rewrite length_sort_by, Hlen. simpl. lia.
  - apply sort_strings_sorted.
  - by apply NoDup_sort_strings.
  - unfold sort_strings. by rewrite sort_by_perm.
Qed.

(** ** What a quiet piece is *)
Lemma get_in_list (obj : fields) (req : list string) : (∀ k, k ∈ req → is_Some (map_get obj k)) → ∀ k, bool_decide (k ∈ req) = true → is_Some (map_get obj k).
Proof. intros H k Hk. apply H. by apply bool_decide_eq_true in Hk. Qed.

Lemma node_quiet path v o : loaded v → node path v = (o, []) → ∃ n, o = Some n ∧ wf_node n.
Proof.
  intros Hl H. unfold node in H. quiet H obj' Ho. apply object_quiet in Ho as (obj & -> & -> & Hreq). pose proof (get_in_list _ _ Hreq) as Hget. clear Hreq.
  quiet H id Hid. quiet H issue His. quiet H kind Hk. quiet H crit Hc. quiet H title Ht. injection H as <-. eexists; split; [done|].
  apply identifier_quiet in Hid, His; [|by apply Hget..]. apply enum_quiet in Hk; [|by apply Hget]. apply text_quiet in Ht; [|done].
  apply digest_quiet in Hc as [[_ Hc]|[Hc _]]; [by split|]. destruct (Hget "criteria_set_digest" eq_refl). congruence.
Qed.

Lemma edge_quiet path v o : loaded v → edge path v = (o, []) → ∃ e, o = Some e ∧ wf_edge e.
Proof.
  intros Hl H. unfold edge in H. quiet H obj' Ho. apply object_quiet in Ho as (obj & -> & -> & Hreq). pose proof (get_in_list _ _ Hreq) as Hget. clear Hreq.
  quiet H id Hid. quiet H from Hf. quiet H to Hto. quiet H kind Hk. quiet H repo Hr. quiet H base Hb. quiet H pins Hp. quiet H subj Hs. quiet H dd Hd.
  quiet H auth Ha. injection H as <-. eexists; split; [done|].
  apply identifier_quiet in Hid, Hf, Hto; [|by apply Hget..]. apply enum_quiet in Hk; [|by apply Hget]. apply text_quiet in Hr, Hb, Hs; [|done..].
  apply authorities_quiet in Ha; [|done]. split; try done. apply digest_quiet in Hd as [[_ Hd]|[_ Hd]]; auto.
Qed.

Lemma change_body_quiet path v op o c : loaded v → op = op_name o → change_body path v op o = (c, []) → wf_change c.
Proof.
  intros Hl -> H. destruct o; unfold change_body in H; quiet H obj' Ho; apply object_quiet in Ho as (obj & -> & -> & Hreq);
    pose proof (get_in_list _ _ Hreq) as Hget; clear Hreq.
  all: try (quiet H n Hn; apply node_quiet in Hn as (n' & -> & Hn);
    [|destruct (Hget "node" eq_refl) as [w Hw]; unfold nil_get; rewrite Hw; by eapply loaded_get]).
  all: try (quiet H e He; apply edge_quiet in He as (e' & -> & He);
    [|destruct (Hget "edge" eq_refl) as [w Hw]; unfold nil_get; rewrite Hw; by eapply loaded_get]).
  all: try (quiet H id Hid; apply identifier_quiet in Hid; [|by apply Hget]).
  all: injection H as <-.
  - apply (wf_node_op OpAddNode); auto.
  - apply (wf_node_op OpUpdateNode); auto.
  - by apply wf_replace.
  - apply (wf_id_op OpRetireNode); [set_solver|done].
  - by apply wf_add_edge.
  - by apply wf_retire_edge.
  - apply (wf_id_op OpPauseNode); [set_solver|done].
  - apply (wf_id_op OpResumeNode); [set_solver|done].
  - apply (wf_id_op OpCancelNode); [set_solver|done].
  - apply (wf_id_op OpArchiveNode); [set_solver|done].
  - apply (wf_plan_op OpPausePlan); auto.
  - apply (wf_plan_op OpResumePlan); auto.
Qed.

Lemma change_quiet path v o : loaded v → change path v = (o, []) → ∃ c, o = Some c ∧ wf_change c.
Proof.
  intros Hl H. unfold change in H. destruct v as [| | | | | | |raw]; try done. quiet H op Hop. destruct op as [op|].
  - assert (op ∈ (op_name <$> allOps)) as Hin.
    { unfold enum in Hop. destruct (map_get raw "op") as [[]|]; try done. case_bool_decide; [|done]. by injection Hop as <-. }
    apply list_elem_of_fmap in Hin as (o' & -> & _). rewrite op_of_name in H. quiet H c Hc. injection H as <-. eexists; split; [done|].
    by eapply change_body_quiet.
  - unfold enum in Hop. destruct (map_get raw "op") as [[]|]; try done. case_bool_decide; done.
Qed.

Lemma change_list_quiet path i items cs : Forall loaded items → change_list path i items = (cs, []) → Forall wf_change cs ∧ length cs = length items.
Proof.
  intros Hl. revert i cs. induction Hl as [|v items Hv Hl IH]; intros i cs H; cbn [change_list] in H; [by injection H as <-|].
  quiet H c Hc. quiet H rest Hr. apply change_quiet in Hc as (c' & -> & Hc); [|done]. injection H as <-. apply IH in Hr as [? ?]. split; [by constructor|]. simpl. lia.
Qed.

Lemma changes_quiet path v cs : loaded v → changes path v = (cs, []) → wf_changes cs.
Proof.
  intros Hl H. unfold changes in H. destruct v as [| | | | | |l|]; try done. destruct (bool_decide_reflect (l = [])) as [|Hne]; [done|].
  destruct (Nat.ltb_spec MaxChanges (length l)); [done|]. inversion Hl as [| | | | | |? Hitems|]; subst. apply change_list_quiet in H as [H1 H2]; [|done].
  split; [|done]. rewrite H2. destruct l; [done|]. simpl in *. lia.
Qed.

Lemma revision_quiet v r : loaded v → revision_fields v = (r, []) → wf_revision r.
Proof.
  intros Hl H. unfold revision_fields in H. quiet H obj' Ho. apply object_quiet in Ho as (obj & -> & -> & Hreq).
  pose proof (get_in_list _ _ Hreq) as Hget. clear Hreq.
  quiet H sch Hs. quiet H plan Hp. quiet H project Hpr. quiet H request Hr. quiet H author Ha. quiet H parent Hpa. quiet H epoch He. quiet H cs Hc.
  injection H as <-. apply identifier_quiet in Hp, Hpr, Hr, Ha; [|by apply Hget..]. apply integer_quiet in Hpa, He; [|done..]. split; try done.
  destruct (Hget "changes" eq_refl) as [w Hw]. rewrite Hw in Hc. eapply changes_quiet; [|done]. by eapply loaded_get.
Qed.

(** ** Reading back what was written *)

(** An optional text as an entry of a map, and as the reader returns it. *)
Definition text_entry (s : string) : option value := if bool_decide (s = "") then None else Some (VString s).
Definition text_option (s : string) : option string := if bool_decide (s = "") then None else Some s.

Lemma default_text_option s : default "" (text_option s) = s.
Proof. unfold text_option. by case_bool_decide. Qed.

Lemma assoc_last_opt_text k s k' : assoc_last (opt_text k s) k' = if bool_decide (k = k') then text_entry s else None.
Proof. unfold opt_text, text_entry. case_bool_decide as Hs; cbn; by repeat case_bool_decide. Qed.

Lemma wf_id_nonempty s : wf_id s → s ≠ "".
Proof. intros [H _] ->. done. Qed.

Lemma wf_digest_nonempty s : wf_digest s → s ≠ "".
Proof. intros H ->. done. Qed.

Lemma object_reads path es req opt :
  Forall (λ k, is_Some (assoc_last es k)) req → Forall (λ k, k ∈ (req ++ opt)%list) es.*1 →
  object path (VMap (map_of es)) req opt = (Some (map_of es), []).
Proof.
  intros Hreq Hkeys. unfold object. do 2 f_equal. rewrite Forall_forall in *.
  assert (filter (λ k, (k ∉ req) ∧ (k ∉ opt)) (map_of es).*1 = []) as ->.
  { apply filter_none. intros k Hk [H1 H2]. rewrite keys_of in Hk. apply Hkeys in Hk. set_solver. }
  assert (filter (λ k, map_get (map_of es) k = None) req = []) as ->; [|done].
  apply filter_none. intros k [v Hk]%Hreq. rewrite map_get_of, Hk. done.
Qed.

Lemma identifier_reads path obj key s : map_get obj key = Some (VString s) → wf_id s → identifier path obj key = (Some s, []).
Proof.
  intros Hg Hw. unfold identifier. rewrite Hg, bool_decide_eq_false_2 by (by apply wf_id_nonempty). destruct Hw as [Hm Hl].
  destruct (Nat.ltb_spec MaxIDLength (String.length s)); [lia|]. by rewrite Hm.
Qed.

Lemma digest_reads path obj key s : map_get obj key = text_entry s → s = "" ∨ wf_digest s → digest path obj key = (text_option s, []).
Proof.
  unfold text_entry, text_option, digest. intros -> [->|Hw]; [done|]. rewrite bool_decide_eq_false_2 by (by apply wf_digest_nonempty).
  by rewrite Hw.
Qed.

Lemma enum_reads path obj key rule allowed s : map_get obj key = Some (VString s) → s ∈ allowed → enum path obj key rule allowed = (Some s, []).
Proof. intros Hg Hin. unfold enum. by rewrite Hg, bool_decide_eq_true_2. Qed.

Lemma text_reads path obj key max s : map_get obj key = text_entry s → wf_text max s → text path obj key max = (text_option s, []).
Proof.
  unfold text_entry, text_option, text. intros -> [->|(Hne & Hlen & Hc & _)]; [done|]. rewrite bool_decide_eq_false_2 by done.
  rewrite bool_decide_eq_false_2 by done. destruct (Nat.ltb_spec max (rune_count s)); [lia|]. by rewrite Hc.
Qed.

Lemma authority_loop_reads p i out l : NoDup (out ++ l)%list → Forall (good_text MaxAuthorityLength) l →
  authority_loop p i out (VString <$> l) = ((out ++ l)%list, []).
Proof.
  intros Hnd Hl. revert i out Hnd. induction Hl as [|s l (Hne & Hlen & Hc & _) Hl IH]; intros i out Hnd; [by rewrite app_nil_r|].
  rewrite fmap_cons. cbn [authority_loop]. rewrite bool_decide_eq_false_2 by done. destruct (Nat.ltb_spec MaxAuthorityLength (rune_count s)); [lia|].
  rewrite Hc, bool_decide_eq_false_2.
  - unfold dret. rewrite dbind_ret, IH; by rewrite <- (assoc_L (++)).
  - intros Hin. apply NoDup_app in Hnd as (_ & Hd & _). by eapply Hd; [|left].
Qed.

Lemma authorities_reads path obj key l :
  map_get obj key = (if (0 <? length l)%nat then Some (authorityList l) else None) → wf_authorities l → authorities path obj key = (l, []).
Proof.
  unfold authorities, authorityList. intros -> [Hn Hs Hnd Ht]. destruct l as [|s l]; [done|]. change (0 <? length (s :: l))%nat with true. cbn iota.
  rewrite (sort_by_id id) by (done || by rewrite list_fmap_id). rewrite bool_decide_eq_false_2 by done. rewrite length_fmap.
  destruct (Nat.ltb_spec MaxAuthorities (length (s :: l))); [lia|]. rewrite authority_loop_reads by done. rewrite dbind_ret. unfold dret. cbn [app].
  unfold sort_strings. by rewrite (sort_by_id id) by (done || by rewrite list_fmap_id).
Qed.

Lemma assoc_last_cons k v es k' :
  assoc_last ((k, v) :: es) k' = match assoc_last es k' with Some w => Some w | None => if bool_decide (k = k') then Some v else None end.
Proof. change ((k, v) :: es) with ([(k, v)] ++ es)%list. by rewrite assoc_last_app. Qed.

Lemma assoc_last_if (b : bool) es k : assoc_last (if b then es else []) k = if b then assoc_last es k else None.
Proof. by destruct b. Qed.

Lemma if_same {A} (b : bool) (x : A) : (if b then x else x) = x.
Proof. by destruct b. Qed.

Lemma option_eta {A} (o : option A) : match o with Some x => Some x | None => None end = o.
Proof. by destruct o. Qed.

(** Compare literal keys. *)
Ltac literal_keys := repeat match goal with
  | |- context [bool_decide (?a = ?b)] =>
    first [rewrite (bool_decide_eq_true_2 (a = b)) by reflexivity | rewrite (bool_decide_eq_false_2 (a = b)) by discriminate]
  end.

(** Look a key up in the entries of an object. *)
Ltac entry := rewrite ?assoc_last_app, ?assoc_last_if, ?assoc_last_cons, ?assoc_last_opt_text; change (assoc_last [] ?k) with (@None value);
  literal_keys; cbn iota; rewrite ?if_same, ?option_eta.
Ltac lookup_entry := rewrite map_get_of; entry; reflexivity.

Lemma node_reads path n : wf_node n → node path (nodeObject n) = (Some n, []).
Proof.
  intros [Hid His Hk Hc Ht]. unfold node, nodeObject. rewrite object_reads.
  - rewrite dbind_ret. unfold node_fields.
    rewrite (identifier_reads _ _ _ (NodeID n)), dbind_ret by (done || lookup_entry).
    rewrite (identifier_reads _ _ _ (IssueKey n)), dbind_ret by (done || lookup_entry).
    rewrite (enum_reads _ _ _ _ _ (NKind n)), dbind_ret by (done || lookup_entry).
    rewrite (digest_reads _ _ _ (CriteriaSetDigest n)), dbind_ret; [| |by right].
    2:{ unfold text_entry. rewrite (bool_decide_eq_false_2 (CriteriaSetDigest n = "")) by (by apply wf_digest_nonempty). lookup_entry. }
    rewrite (text_reads _ _ _ _ (Title n)), dbind_ret by (done || lookup_entry).
    unfold dret. rewrite !default_text_option. by destruct n.
  - unfold node_fields. repeat constructor; entry; by eexists.
  - unfold node_fields, opt_text. case_bool_decide; cbn; refine (bool_decide_unpack _ _); vm_compute; exact I.
Qed.

Lemma boolean_reads path obj key (b : bool) : map_get obj key = (if b then Some (VBool true) else None) →
  boolean path obj key = ((if b then Some true else None), []).
Proof. unfold boolean. intros ->. by destruct b. Qed.

Lemma edge_reads path e : wf_edge e → edge path (edgeObject e) = (Some e, []).
Proof.
  intros [Hid Hf Ht Hk Hr Hb Hs Hd Ha]. unfold edge, edgeObject. rewrite object_reads.
  - rewrite dbind_ret. unfold edge_fields.
    rewrite (identifier_reads _ _ _ (EdgeID e)), dbind_ret by (done || lookup_entry).
    rewrite (identifier_reads _ _ _ (FromNodeID e)), dbind_ret by (done || lookup_entry).
    rewrite (identifier_reads _ _ _ (ToNodeID e)), dbind_ret by (done || lookup_entry).
    rewrite (enum_reads _ _ _ _ _ (EKind e)), dbind_ret by (done || lookup_entry).
    rewrite (text_reads _ _ _ _ (TargetRepository e)), dbind_ret by (done || lookup_entry).
    rewrite (text_reads _ _ _ _ (TargetBaseRef e)), dbind_ret by (done || lookup_entry).
    rewrite (boolean_reads _ _ _ (PinsCodeHead e)), dbind_ret by lookup_entry.
    rewrite (text_reads _ _ _ _ (DecisionSubject e)), dbind_ret by (done || lookup_entry).
    rewrite (digest_reads _ _ _ (DecisionDigest e)), dbind_ret by (done || lookup_entry).
    rewrite (authorities_reads _ _ _ (RequiredAuthority e)), dbind_ret by (done || lookup_entry).
    unfold dret. rewrite !default_text_option. cbn [default]. by destruct e as [? ? ? ? ? ? []].
  - unfold edge_fields. repeat constructor; entry; by eexists.
  - unfold edge_fields, opt_text. repeat case_bool_decide; destruct (PinsCodeHead e), (RequiredAuthority e); cbn;
      refine (bool_decide_unpack _ _); vm_compute; exact I.
Qed.

#[export] Instance op_name_inj : Inj (=) (=) op_name.
Proof. intros a b H. apply (inj Some). by rewrite <- !op_of_name, H. Qed.

(** Every required key is there; every key there is known. *)
Ltac present := repeat (apply Forall_cons; split; [entry; by eexists|]); by apply Forall_nil.
Ltac known := refine (bool_decide_unpack _ _); vm_compute; exact I.

(** The object of an operation reads as itself. *)
Ltac op_object := unfold change_body; rewrite object_reads, dbind_ret; [|present|known].
Ltac op_piece := unfold nil_get; rewrite map_get_of; entry; cbn [default from_option id].

Lemma change_body_reads path c v o : wf_change c → COp c = op_name o → changeObject c = Some v → change_body path v (op_name o) o = (c, []).
Proof.
  intros Hw Ho Hv. unfold changeObject in Hv. rewrite Ho, op_of_name in Hv.
  destruct Hw as [o' n Hin Hn|n sup Hn Hs|o' id Hin Hid|o' Hin|e He|id Hid]; cbn [COp CNode CEdge CNodeID CEdgeID CSupersedesNodeID] in *;
    apply op_name_inj in Ho as <-.
  - destruct Hin as [-> | ->]; injection Hv as <-; op_object; op_piece; by rewrite node_reads, dbind_ret.
  - injection Hv as <-. op_object. op_piece. rewrite node_reads, dbind_ret by done.
    by rewrite (identifier_reads _ _ _ sup), dbind_ret by (done || lookup_entry).
  - repeat (apply elem_of_cons in Hin as [->|Hin]); [..|by apply elem_of_nil in Hin]; injection Hv as <-; op_object;
      by rewrite (identifier_reads _ _ _ id), dbind_ret by (done || lookup_entry).
  - destruct Hin as [-> | ->]; injection Hv as <-; by op_object.
  - injection Hv as <-. op_object. op_piece. by rewrite edge_reads, dbind_ret.
  - injection Hv as <-. op_object. by rewrite (identifier_reads _ _ _ id), dbind_ret by (done || lookup_entry).
Qed.

Lemma elem_of_allOps o : o ∈ allOps.
Proof. destruct o; refine (bool_decide_unpack _ _); vm_compute; exact I. Qed.

Lemma change_op c : wf_change c → ∃ o, COp c = op_name o.
Proof. destruct 1; by eexists. Qed.

Lemma changeObject_op c v : changeObject c = Some v → ∃ es, v = VMap (map_of (("op", VString (COp c)) :: es)) ∧ assoc_last es "op" = None.
Proof.
  unfold changeObject. intros H. repeat case_match; simplify_eq; eexists; (split; [reflexivity|]); reflexivity.
Qed.

Lemma change_reads path c v : wf_change c → changeObject c = Some v → change path v = (Some c, []).
Proof.
  intros Hw Hv. destruct (change_op c Hw) as (o & Ho). destruct (changeObject_op c v Hv) as (es & -> & Hes). unfold change.
  rewrite (enum_reads _ _ _ _ _ (op_name o)), dbind_ret.
  - rewrite op_of_name, (change_body_reads path c) by done. by rewrite dbind_ret.
  - rewrite map_get_of, assoc_last_cons, Hes, Ho. by rewrite bool_decide_eq_true_2.
  - apply list_elem_of_fmap_2, elem_of_allOps.
Qed.

Lemma change_list_reads path i cs vs : Forall wf_change cs → changeObjects cs = Some vs → change_list path i vs = (cs, []).
Proof.
  intros Hw Hvs. apply mapM_Some in Hvs. revert i. induction Hvs as [|c v cs vs Hv Hvs IH]; intros i; [done|].
  apply Forall_cons in Hw as [Hc Hw]. cbn [change_list]. by rewrite (change_reads _ c), dbind_ret, IH, dbind_ret.
Qed.

Lemma changes_reads path cs vs : wf_changes cs → changeObjects cs = Some vs → changes path (VList vs) = (cs, []).
Proof.
  intros [Hlen Hw] Hvs. unfold changes. pose proof (Forall2_length _ _ _ (proj1 (mapM_Some _ _ _) Hvs)) as Hl.
  rewrite bool_decide_eq_false_2 by (intros ->; simpl in *; lia). destruct (Nat.ltb_spec MaxChanges (length vs)); [lia|]. by apply change_list_reads.
Qed.

Lemma integer_reads path obj key n : map_get obj key = Some (VInt n) → wf_counter n → integer path obj key = (Some n, []).
Proof. unfold integer, wf_counter. intros -> [? _]. destruct (Z.ltb_spec n 0); [lia|done]. Qed.

(** Look a key other than the epoch's up in the document of a revision. *)
Ltac revision_entry Hep := rewrite map_get_of, assoc_last_app, Hep by done; entry; reflexivity.

Lemma revision_reads r vs : wf_revision r → changeObjects (RChanges r) = Some vs → revision_fields (revision_object r vs) = (r, []).
Proof.
  intros [Hp Hk Hr Ha He Hc Hch] Hvs. unfold revision_fields, revision_object.
  set (epoch := if bool_decide (RCoordinatorEpoch r = 0%Z) then [] else [("coordinator_epoch", VInt (RCoordinatorEpoch r))]).
  assert (∀ k, k ≠ "coordinator_epoch" → assoc_last epoch k = None) as Hep.
  { intros k Hne. unfold epoch. case_bool_decide; [done|]. rewrite assoc_last_cons. by rewrite bool_decide_eq_false_2. }
  rewrite object_reads, dbind_ret.
  - unfold schema_rule. rewrite map_get_of. rewrite assoc_last_app, Hep by done. entry. unfold dret. rewrite dbind_ret.
    rewrite (identifier_reads _ _ _ (RPlanID r)), dbind_ret by (done || revision_entry Hep).
    rewrite (identifier_reads _ _ _ (RProjectKey r)), dbind_ret by (done || revision_entry Hep).
    rewrite (identifier_reads _ _ _ (RRequestID r)), dbind_ret by (done || revision_entry Hep).
    rewrite (identifier_reads _ _ _ (RAuthorTaskID r)), dbind_ret by (done || revision_entry Hep).
    rewrite (integer_reads _ _ _ (RExpectedParent r)), dbind_ret by (done || revision_entry Hep).
    assert (integer "$" (map_of ([("schema", VString SchemaRevision); ("plan_id", VString (RPlanID r)); ("project_key", VString (RProjectKey r));
      ("request_id", VString (RRequestID r)); ("expected_parent_revision", VInt (RExpectedParent r));
      ("author_task_id", VString (RAuthorTaskID r)); ("changes", VList vs)] ++ epoch)%list) "coordinator_epoch" =
      ((if bool_decide (RCoordinatorEpoch r = 0%Z) then None else Some (RCoordinatorEpoch r)), [])) as ->.
    { unfold epoch. case_bool_decide as Hz; [|by apply integer_reads; [lookup_entry|]]. unfold integer. rewrite map_get_of. by entry. }
    rewrite dbind_ret, map_get_of, assoc_last_app, Hep by done. entry. rewrite (changes_reads _ (RChanges r)), dbind_ret by done.
    destruct r. cbn in *. case_bool_decide; by simplify_eq/=.
  - repeat (apply Forall_cons; split; [rewrite assoc_last_app, Hep by done; entry; by eexists|]); by apply Forall_nil.
  - unfold epoch. case_bool_decide; known.
Qed.

(** ** The written documents are JSON the reader carries exactly *)
Lemma match_identifier_plain s : match_identifier s = true → Forall plain_char (bytes_of_string s).
Proof.
  unfold match_identifier. destruct (bytes_of_string s) as [|b l]; [done|]. intros [Hb Hl]%andb_true_iff.
  assert (∀ c, is_alnum c = true → plain_char c) as Ha.
  { intros c Hc. unfold is_alnum in Hc. rewrite !orb_true_iff, !in_range_spec in Hc. unfold plain_char. lia. }
  constructor; [by apply Ha|]. apply Forall_forall. intros c Hin. rewrite forallb_forall in Hl. apply list_elem_of_In, Hl in Hin.
  unfold is_id_byte in Hin. apply orb_true_iff in Hin as [Hin|Hin]; [by apply Ha|]. apply bool_decide_eq_true in Hin.
  repeat (apply elem_of_cons in Hin as [->|Hin]; [done|]). by apply elem_of_nil in Hin.
Qed.

Lemma wf_id_ok s : wf_id s → json_ok (VString s).
Proof. intros [H _]. constructor. by apply utf8_ascii, match_identifier_plain. Qed.

Lemma wf_digest_ok s : wf_digest s → json_ok (VString s).
Proof.
  intros H. constructor. apply utf8_ascii. unfold wf_digest, match_digest in H. apply andb_true_iff in H as [_ H].
  apply Forall_forall. intros c Hin. rewrite forallb_forall in H. apply list_elem_of_In, H in Hin. unfold is_hex_lower in Hin.
  rewrite orb_true_iff, !in_range_spec in Hin. unfold plain_char. lia.
Qed.

Lemma good_text_ok max s : good_text max s → json_ok (VString s).
Proof. intros (_ & _ & _ & H). by constructor. Qed.

Lemma plain_ok s : bool_decide (Forall plain_char (bytes_of_string s)) = true → utf8 (bytes_of_string s).
Proof. intros H. apply utf8_ascii. by apply bool_decide_eq_true in H. Qed.

Lemma literal_ok s : bool_decide (Forall plain_char (bytes_of_string s)) = true → json_ok (VString s).
Proof. intros. by apply ok_string, plain_ok. Qed.

Definition entry_ok (kv : string * value) : Prop := utf8 (bytes_of_string (fst kv)) ∧ json_ok (snd kv).

Lemma object_ok es : Forall entry_ok es → json_ok (VMap (map_of es)).
Proof. intros H. constructor; [by apply map_of_forall|apply map_of_sorted]. Qed.

Lemma opt_text_ok k s : utf8 (bytes_of_string k) → s = "" ∨ json_ok (VString s) → Forall entry_ok (opt_text k s).
Proof. intros Hk Hs. unfold opt_text. case_bool_decide; constructor; [split; [done|]; by destruct Hs|constructor]. Qed.

Lemma wf_text_ok max s : wf_text max s → s = "" ∨ json_ok (VString s).
Proof. intros [->|H]; [by left|right]. by eapply good_text_ok. Qed.

(** The entries of an object, one by one: the key is a literal, the value is left. *)
Ltac entries := repeat (apply Forall_app; split); repeat (apply Forall_cons; split; [split; [by apply plain_ok|cbn [snd]]|]); try (by apply Forall_nil).

Lemma kind_ok l s : Forall (λ s, bool_decide (Forall plain_char (bytes_of_string s)) = true) l → s ∈ l → json_ok (VString s).
Proof. intros Hl Hin. rewrite Forall_forall in Hl. by apply literal_ok, Hl. Qed.

Lemma node_json n : wf_node n → json_ok (nodeObject n).
Proof.
  intros [Hid His Hk Hc Ht]. apply object_ok. unfold node_fields. entries; eauto using wf_id_ok, wf_digest_ok.
  - by apply (kind_ok nodeKinds); [repeat constructor|].
  - apply opt_text_ok; [by apply plain_ok|]. by eapply wf_text_ok.
Qed.

Lemma edge_json e : wf_edge e → json_ok (edgeObject e).
Proof.
  intros [Hid Hf Ht Hk Hr Hb Hs Hd [_ _ _ Ha]]. apply object_ok. unfold edge_fields. entries; eauto using wf_id_ok;
    try (apply opt_text_ok; [by apply plain_ok|]; first [by eapply wf_text_ok | destruct Hd; eauto using wf_digest_ok]).
  - by apply (kind_ok edgeKinds); [repeat constructor|].
  - destruct (PinsCodeHead e); entries. constructor.
  - destruct (0 <? length (RequiredAuthority e))%nat; entries. constructor. apply Forall_fmap. unfold sort_strings. rewrite sort_by_perm.
    eapply Forall_impl; [exact Ha|]. intros s Hgs. by eapply good_text_ok.
Qed.

Lemma op_ok o : json_ok (VString (op_name o)).
Proof. destruct o; by apply literal_ok. Qed.

Lemma change_ok c v : wf_change c → changeObject c = Some v → json_ok v.
Proof.
  intros Hw Hv. unfold changeObject in Hv. destruct Hw as [o n Hin Hn|n sup Hn Hs|o id Hin Hid|o Hin|e He|id Hid];
    cbn [COp CNode CEdge CNodeID CEdgeID CSupersedesNodeID] in Hv; rewrite op_of_name in Hv;
    repeat case_match; simplify_eq; apply object_ok; entries; eauto using node_json, edge_json, wf_id_ok, op_ok;
    by apply literal_ok.
Qed.

Lemma changes_ok cs vs : Forall wf_change cs → changeObjects cs = Some vs → Forall json_ok vs.
Proof.
  intros Hw Hvs%mapM_Some. induction Hvs as [|c v cs vs Hv Hvs IH]; [constructor|]. apply Forall_cons in Hw as [Hc Hw].
  constructor; [by eapply change_ok|auto].
Qed.

Lemma counter_ok n : wf_counter n → json_ok (VInt n).
Proof. unfold wf_counter. intros. constructor. unfold min_int64. lia. Qed.

Lemma revision_ok r vs : wf_revision r → changeObjects (RChanges r) = Some vs → json_ok (revision_object r vs).
Proof.
  intros [Hp Hk Hr Ha He Hc [_ Hch]] Hvs. apply object_ok. entries; eauto using wf_id_ok, counter_ok.
  - by apply literal_ok.
  - constructor. by eapply changes_ok.
  - case_bool_decide; entries. by apply counter_ok.
Qed.

(** Documents are shallow: a document, its changes, a change, its edge, the edge's authorities. *)
Lemma map_height es n : Forall (λ kv, (height (snd kv) ≤ n)%nat) es → (height (VMap (map_of es)) ≤ S n)%nat.
Proof.
  intros H%map_of_forall. cbn [height]. apply le_n_S. induction H; csimpl; lia.
Qed.

Lemma list_height l n : Forall (λ v, (height v ≤ n)%nat) l → (height (VList l) ≤ S n)%nat.
Proof. intros H. cbn [height]. apply le_n_S. induction H; csimpl; lia. Qed.

Lemma node_height n : (height (nodeObject n) ≤ 1)%nat.
Proof. apply map_height. unfold node_fields, opt_text. case_bool_decide; repeat constructor. Qed.

Lemma edge_height e : (height (edgeObject e) ≤ 2)%nat.
Proof.
  apply map_height. assert (height (authorityList (RequiredAuthority e)) ≤ 1)%nat as Ha.
  { apply list_height, Forall_fmap, Forall_true. intros x. simpl. lia. }
  unfold edge_fields, opt_text. repeat (apply Forall_app; split); repeat case_match; repeat (apply Forall_cons; split); try (by apply Forall_nil);
    cbn [snd]; try done; simpl; lia.
Qed.

Lemma change_height c v : changeObject c = Some v → (height v ≤ 3)%nat.
Proof.
  intros Hv. unfold changeObject in Hv. pose proof node_height. pose proof edge_height.
  repeat case_match; simplify_eq; apply map_height; repeat (apply Forall_cons; split); try (by apply Forall_nil); cbn [snd]; try (simpl; lia); eauto with lia.
Qed.

Lemma changes_height cs vs : changeObjects cs = Some vs → (height (VList vs) ≤ 4)%nat.
Proof.
  intros Hvs%mapM_Some. apply list_height. induction Hvs as [|c v cs vs Hv Hvs IH]; constructor; [by eapply change_height|done].
Qed.

Lemma revision_height r vs : changeObjects (RChanges r) = Some vs → (height (revision_object r vs) ≤ 5)%nat.
Proof.
  intros Hvs%changes_height. apply map_height. repeat (apply Forall_app; split); repeat case_match;
    repeat (apply Forall_cons; split); try (by apply Forall_nil); cbn [snd]; try done; simpl; lia.
Qed.

Lemma five_deep n : (n ≤ 5)%nat → (n ≤ MaxDepth)%nat.
Proof. intros H. etrans; [exact H|]. apply Nat.leb_le. vm_compute. reflexivity. Qed.

Lemma shape_complete cs : shape_violations cs = [] → is_Some (changeObjects cs).
Proof.
  intros H. apply mapM_is_Some. apply Forall_forall. intros c Hin. assert (missing_piece c = None) as Hm.
  { apply list_elem_of_lookup in Hin as [i Hi]. destruct (missing_piece c) as [m|] eqn:E; [|done].
    unfold shape_violations in H. rewrite concat_nil_Forall, Forall_forall in H. pose proof (H _ (elem_of_lookup_imap_2 _ _ _ _ Hi)) as Hc.
    cbn beta in Hc. by rewrite E in Hc. }
  change (is_Some (changeObject c)). revert Hm. unfold missing_piece, changeObject.
  destruct (op_of (COp c)) as [[]|], (CNode c), (CEdge c); try done; intros _; by eexists.
Qed.

Lemma Loads_revision r vs : wf_revision r → changeObjects (RChanges r) = Some vs →
  parse (canonical (revision_object r vs)) = Ok (revision_object r vs).
Proof.
  intros Hw Hvs. apply LoadsBytes_canonical; [by apply revision_ok|]. by eapply five_deep, revision_height.
Qed.

Lemma DecodeRevision_wf raw r : DecodeRevision raw = Ok r → wf_revision r ∧ (Z.of_nat (String.length raw) ≤ MaxDocumentBytes)%Z.
Proof.
  unfold DecodeRevision. destruct (Z.ltb_spec MaxDocumentBytes (Z.of_nat (String.length raw))); [done|].
  destruct (parse raw) as [v|e] eqn:E; [|by destruct e]. destruct (revision_fields v) as [r' vs] eqn:Er. case_bool_decide as Hvs; [|done].
  intros [= <-]. destruct vs; [|done]. split; [|lia]. eapply revision_quiet; [|done]. by eapply Loads_loaded.
Qed.

Lemma wf_change_object c : wf_change c → is_Some (changeObject c).
Proof.
  destruct 1 as [o n Hin Hn|n sup Hn Hs|o id Hin Hid|o Hin|e He|id Hid]; unfold changeObject; cbn [COp]; rewrite ?op_of_name; try by eexists.
  - destruct Hin as [-> | ->]; by eexists.
  - repeat (apply elem_of_cons in Hin as [->|Hin]; [by eexists|]). by apply elem_of_nil in Hin.
  - destruct Hin as [-> | ->]; by eexists.
Qed.

Lemma wf_changes_objects cs : Forall wf_change cs → is_Some (changeObjects cs).
Proof. intros H. apply mapM_is_Some. eapply Forall_impl; [exact H|]. apply wf_change_object. Qed.

Lemma wf_missing c : wf_change c → missing_piece c = None.
Proof.
  destruct 1 as [o n Hin Hn|n sup Hn Hs|o id Hin Hid|o Hin|e He|id Hid]; unfold missing_piece; cbn [COp CNode CEdge]; rewrite op_of_name; try done.
  - destruct Hin as [-> | ->]; done.
  - repeat (apply elem_of_cons in Hin as [->|Hin]; [done|]). by apply elem_of_nil in Hin.
  - destruct Hin as [-> | ->]; done.
Qed.

Lemma wf_shape cs : Forall wf_change cs → shape_violations cs = [].
Proof.
  intros H. apply concat_nil_Forall, Forall_forall. intros l (i & c & -> & Hc)%elem_of_lookup_imap. rewrite wf_missing; [done|].
  by eapply Forall_lookup_1.
Qed.

Lemma Checked_cases r : ∃ res, Checked r = Some res ∧ match res with Ok r' => wf_revision r' | Err e => e ≠ PlanRejected [] end.
Proof.
  unfold Checked. case_bool_decide as Hlen.
  - destruct (shape_complete (RChanges r)) as [vs Hvs]; [by apply nil_length_inv|]. rewrite Hvs. eexists; split; [done|].
    destruct (DecodeRevision _) as [r'|e] eqn:E; [by eapply DecodeRevision_wf|]. unfold DecodeRevision in E.
    repeat case_match; simplify_eq; naive_solver.
  - eexists; split; [done|]. intros [= H]. by rewrite H in Hlen.
Qed.

Lemma changes_read_back cs s : wf_changes cs → ChangesJSON cs = Some s → DecodeChanges s = Ok cs.
Proof.
  intros Hw Hs. unfold ChangesJSON in Hs. destruct (changeObjects cs) as [vs|] eqn:Hvs; [|done]. injection Hs as <-.
  unfold DecodeChanges, parse, Loads. rewrite LoadsBytes_canonical.
  - by rewrite (changes_reads _ cs).
  - constructor. eapply changes_ok; [apply Hw|done].
  - apply five_deep. pose proof (changes_height _ _ Hvs). lia.
Qed.

(** ** Claims *)

(** The strict reader accepts only well-formed revisions: identifiers and digests of their form, known kinds and operations, every change with
    the piece it needs and nothing else, texts bounded and free of control characters, counters not negative, between one and MaxChanges changes. *)
Theorem DecodeRevision_sound raw r : DecodeRevision raw = Ok r → wf_revision r.
Proof. intros H. by eapply DecodeRevision_wf. Qed.

(** A typed request passes [Checked] unchanged exactly when it is a well-formed revision whose document is within the size limit. *)
Theorem Checked_iff r :
  Checked r = Some (Ok r) ↔
  wf_revision r ∧ ∃ vs, changeObjects (RChanges r) = Some vs ∧ (Z.of_nat (String.length (canonical (revision_object r vs))) ≤ MaxDocumentBytes)%Z.
Proof.
  unfold Checked. split.
  - case_bool_decide; [|done]. destruct (changeObjects (RChanges r)) as [vs|] eqn:E; [|done]. intros [= Hr]. apply DecodeRevision_wf in Hr as [Hw Hs].
    split; [done|]. by exists vs.
  - intros (Hw & vs & Hvs & Hs). rewrite Hvs, wf_shape by apply Hw. rewrite bool_decide_eq_true_2 by done. unfold DecodeRevision.
    destruct (Z.ltb_spec MaxDocumentBytes (Z.of_nat (String.length (canonical (revision_object r vs))))); [lia|].
    by rewrite Loads_revision, revision_reads by done.
Qed.

(** [Checked] never panics: a change without the node or edge its operation reads is refused before the document is written; what it
    accepts is well formed. *)
Theorem Checked_total r : ∃ res, Checked r = Some res ∧ match res with Ok r' => wf_revision r' | Err e => e ≠ PlanRejected [] end.
Proof. apply Checked_cases. Qed.

(** The change list a revision row stores reads back as that change list. *)
Theorem DecodeChanges_roundtrip cs s : wf_changes cs → ChangesJSON cs = Some s → DecodeChanges s = Ok cs.
Proof. apply changes_read_back. Qed.

(** ** Witnesses *)
Definition listed_edge : Edge := mkEdge "e1" "n1" "n2" EdgeDecision "" "" false "subject" (sha256_hex "y") ["a"; "b"].
Definition listed_changes : list Change :=
  [mkChange "add_node" (Some sample_node) None "" "" ""; mkChange "add_edge" None (Some listed_edge) "" "" "";
   mkChange "retire_node" None None "n0" "" ""].
Definition listed_revision : Revision := mkRevision "p" "k" "r" 3 0 "t" listed_changes.
Definition listed_document : string :=
  Eval vm_compute in match changeObjects listed_changes with Some vs => canonical (revision_object listed_revision vs) | None => "" end.

Lemma DecodeRevision_sound_witness : DecodeRevision listed_document = Ok listed_revision ∧ wf_revision listed_revision.
Proof.
  assert (DecodeRevision listed_document = Ok listed_revision) as H by (vm_compute; reflexivity).
  split; [exact H|]. exact (DecodeRevision_sound _ _ H).
Defined.

Lemma good_text_literal max s :
  bool_decide (s ≠ "") && (rune_count s <=? max)%nat && negb (HasControl s) && bool_decide (Forall plain_char (bytes_of_string s)) = true → good_text max s.
Proof.
  rewrite !andb_true_iff, bool_decide_eq_true, Nat.leb_le, negb_true_iff. intros [[[? ?] ?] ?]. split_and!; try done. by apply plain_ok.
Qed.

Lemma wf_id_literal s : match_identifier s && (String.length s <=? MaxIDLength)%nat = true → wf_id s.
Proof. rewrite andb_true_iff, Nat.leb_le. by intros []. Qed.

Ltac literal_id := apply wf_id_literal; vm_compute; reflexivity.

Lemma listed_changes_wf : wf_changes listed_changes.
Proof.
  split; [vm_compute; lia|]. repeat (apply Forall_cons; split); [| | |by apply Forall_nil].
  - apply (wf_node_op OpAddNode); [by left|]. split; [literal_id|literal_id|known|vm_compute; reflexivity|].
    right. apply good_text_literal. vm_compute. reflexivity.
  - apply wf_add_edge. split; [literal_id|literal_id|literal_id|known|left; reflexivity|left; reflexivity| |right; vm_compute; reflexivity|].
    + right. apply good_text_literal. vm_compute. reflexivity.
    + split; [vm_compute; lia|repeat constructor|known|]. repeat (apply Forall_cons; split); [..|by apply Forall_nil];
        apply good_text_literal; vm_compute; reflexivity.
  - apply (wf_id_op OpRetireNode); [set_solver|literal_id].
Qed.

Lemma DecodeChanges_roundtrip_witness : ∃ s, ChangesJSON listed_changes = Some s ∧ DecodeChanges s = Ok listed_changes.
Proof.
  destruct (wf_changes_objects listed_changes (proj2 listed_changes_wf)) as [vs Hvs].
  exists (canonical (VList vs)). assert (ChangesJSON listed_changes = Some (canonical (VList vs))) as H by (unfold ChangesJSON; rewrite Hvs; reflexivity).
  split; [exact H|]. exact (DecodeChanges_roundtrip _ _ listed_changes_wf H).
Defined.

(** * Every digest the package computes has the shape [digestPattern] asks for.

    [sha256_hex] is the hexadecimal spelling of eight 32-bit words: 64 lower-case characters, so plain ASCII. *)
Local Close Scope string_scope.
Lemma sha_round_length st kw : length st = 8%nat → length (sha_round st kw) = 8%nat.
Proof. intros H. destruct st as [|a [|b [|c [|d [|e [|f [|g [|h []]]]]]]]]; try done. Qed.

Lemma foldl_length {A} (f : list Z → A → list Z) l st : (∀ st x, length st = 8%nat → length (f st x) = 8%nat) → length st = 8%nat → length (foldl f st l) = 8%nat.
Proof. intros Hf. revert st. induction l as [|x l IH]; intros st H; [done|]. cbn [foldl]. auto. Qed.

Lemma compress_length hash block : length hash = 8%nat → length (compress hash block) = 8%nat.
Proof. intros H. unfold compress. rewrite length_zip_with, H, (foldl_length sha_round) by (done || apply sha_round_length). done. Qed.

Lemma sum256_length bytes : length (sum256 bytes) = 8%nat.
Proof. unfold sum256. apply foldl_length; [apply compress_length|done]. Qed.

(** ** Hexadecimal *)
Lemma hex_digit_lower d : (0 ≤ d < 16)%Z → is_hex_lower (byte_of_ascii (hex_digit d)) = true.
Proof.
  intros Hd. assert (d ∈ Z.of_nat <$> seq 0 16) as Hin.
  { apply list_elem_of_fmap. exists (Z.to_nat d). split; [lia|]. apply elem_of_seq. lia. }
  revert d Hin Hd. refine (λ d Hin _, _). assert (Forall (λ d, is_hex_lower (byte_of_ascii (hex_digit d)) = true) (Z.of_nat <$> seq 0 16)) as Hall.
  { refine (bool_decide_unpack _ _). vm_compute. exact I. }
  rewrite Forall_forall in Hall. by apply Hall.
Qed.

Lemma hex_of_bytes_lower bytes : Forall (λ b, 0 ≤ b < 256)%Z bytes → forallb is_hex_lower (bytes_of_string (hex_of_bytes bytes)) = true ∧
  length (bytes_of_string (hex_of_bytes bytes)) = (2 * length bytes)%nat.
Proof.
  induction 1 as [|b bytes Hb _ [IH1 IH2]]; [done|]. cbn [hex_of_bytes].
  change (bytes_of_string (String ?x (String ?y ?s))) with (byte_of_ascii x :: byte_of_ascii y :: bytes_of_string s).
  cbn [forallb length]. rewrite IH1, IH2. rewrite !hex_digit_lower; [split; [done|lia]| |].
  - change 15%Z with (Z.ones 4). rewrite Z.land_ones by lia. apply Z.mod_pos_bound. lia.
  - rewrite Z.shiftr_div_pow2 by lia. change (2 ^ 4)%Z with 16%Z. split; [apply Z.div_pos; lia|apply Z.div_lt_upper_bound; lia].
Qed.

Lemma be_bytes_range n x : Forall (λ b, 0 ≤ b < 256)%Z (be_bytes n x).
Proof.
  unfold be_bytes. apply Forall_fmap, Forall_true. intros i. cbn. change 255%Z with (Z.ones 8). rewrite Z.land_ones by lia. apply Z.mod_pos_bound. lia.
Qed.

Lemma words_range ws : Forall (λ b, 0 ≤ b < 256)%Z (concat (be_bytes 4 <$> ws)) ∧ length (concat (be_bytes 4 <$> ws)) = (4 * length ws)%nat.
Proof.
  induction ws as [|w ws [IH1 IH2]]; [by split; [constructor|]|]. cbn [fmap list_fmap concat]. split; [apply Forall_app; split; [apply be_bytes_range|done]|].
  rewrite length_app, IH2. cbn [length]. assert (length (be_bytes 4 w) = 4%nat) as -> by (unfold be_bytes; by rewrite length_fmap). lia.
Qed.

Lemma sha256_hex_shape s : match_digest (sha256_hex s) = true.
Proof.
  unfold sha256_hex. destruct (words_range (sum256 (bytes_of_string s))) as [H1 H2]. destruct (hex_of_bytes_lower _ H1) as [H3 H4].
  rewrite H2, sum256_length in H4. unfold match_digest. by rewrite H4, H3.
Qed.

Lemma match_digest_utf8 s : match_digest s = true → utf8 (bytes_of_string s).
Proof.
  unfold match_digest. intros [_ H]%andb_true_iff. apply utf8_ascii, Forall_forall. intros b Hb. rewrite forallb_forall in H.
  specialize (H b (proj1 (list_elem_of_In _ _) Hb)). unfold is_hex_lower, in_range in H. unfold plain_char. lia.
Qed.
