(* ===== verification/DagStore.v ===== *)
(** * DagStore: the tables of the DAG zone and the statements the package runs on them
    (internal/relay/store/dag_zone.go; internal/relay/dag: epoch.go, the readers of repo.go).

    A table is the list of its rows in insertion order. An INSERT checks the constraints the zone declares (keys, unique
    indexes, CHECKs and foreign keys, which every connection of the store enforces) and its triggers and appends; an UPDATE asks the triggers and rewrites the rows it selects; ORDER BY is a stable sort. A
    row has no number of its own here: SQLite gives an inserted row a fresh rowid, and the guards of the rowid concern statements that name one, which the package has none of. No statement of the package
    updates or deletes a row of plans or of revisions. A store that holds no zone is not modelled: the zone is installed before a plan is written. *)
From S2P Require Import Prelude GoLib Sha256 Json Loads DagModel DagLifecycle DagFold DagDecode.
Local Open Scope string_scope.

(** ** Rows *)
Record PlanRow : Type := mkPlanRow { pr_plan : string; pr_project : string; pr_author : string; pr_at : string }.

Record RevRow : Type := mkRevRow {
  rr_plan : string;
  rr_no : Z;
  rr_parent : Z;
  rr_request : string;
  rr_digest : string;
  rr_change_json : string;
  rr_state_digest : string;
  rr_epoch : Z;
  rr_author : string;
  rr_at : string
}.

(** A nullable column is an [option]. *)
Record NodeRow : Type := mkNodeRow {
  nr_plan : string;
  nr_id : string;
  nr_introduced : Z;
  nr_retired : option Z;
  nr_slice : string;
  nr_issue : string;
  nr_kind : string;
  nr_title : option string;
  nr_criteria : string;
  nr_supersedes : option string
}.

Record EdgeTableRow : Type := mkEdgeTableRow {
  et_plan : string;
  et_id : string;
  et_introduced : Z;
  et_retired : option Z;
  et_from : string;
  et_to : string;
  et_kind : string;
  et_repository : option string;
  et_base : option string;
  et_pins : Z;
  et_subject : option string;
  et_digest : option string;
  et_authority : option string
}.

(** epoch.go: Claim *)
Record Claim : Type := mkClaim {
  CLPlanID : string;
  CLEpoch : Z;
  CLBindingID : string;
  CLBindingRevision : Z;
  CLTaskID : string;
  CLSessionNonce : string;
  CLClaimedAt : string
}.

(** A row of scope_bindings, with the columns the fence reads. *)
Record Binding : Type := mkBinding {
  bd_id : string;
  bd_role : string;
  bd_scope_kind : string;
  bd_scope_key : string;
  bd_task : string;
  bd_status : string;
  bd_superseded_by : option string;
  bd_revision : Z
}.

Record Store : Type := mkStore {
  Plans : list PlanRow;
  Revisions : list RevRow;
  NodeRows : list NodeRow;
  EdgeRows : list EdgeTableRow;
  Claims : list Claim;
  Bindings : list Binding
}.

(** ** Errors *)

(** An error of the package, a refusal of the relay, a constraint the database enforces, an unexpected count of rows, a nil
    dereference. *)
Inductive StoreError : Type :=
| EDag (e : DagError)
| ERefused (reason detail : string)
| EConstraint (name : string)
| ERows (detail : string)
| EPanic.

Definition RefusalPlanRevisionConflict := "plan_revision_conflict".
Definition RefusalUnregisteredScope := "unregistered_scope".
Definition RefusalStaleCoordinatorEpoch := "stale_coordinator_epoch".

Definition conflict (detail : string) : StoreError := ERefused RefusalPlanRevisionConflict detail.
Definition notFound (detail : string) : StoreError := ERefused RefusalUnregisteredScope detail.
Definition StaleEpoch (detail : string) : StoreError := ERefused RefusalStaleCoordinatorEpoch detail.
Definition corrupt (detail : string) : StoreError := EDag (Corrupt [Lit detail]).

(** ** ORDER BY *)
Section order_by.
Context {A : Type} (key : A → Z * string).

Definition key_before (x y : A) : Prop :=
  ((key x).1 < (key y).1)%Z ∨ (key x).1 = (key y).1 ∧ String.le (key x).2 (key y).2.

#[export] Instance key_before_dec : RelDecision key_before.
Proof. intros x y. unfold key_before. apply _. Defined.

Definition order_by (l : list A) : list A := merge_sort key_before l.
End order_by.

(** ** Reads *)
Definition loadHeader (st : Store) (plan : string) : option string :=
  pr_project <$> List.find (λ r, bool_decide (pr_plan r = plan)) (Plans st).

Definition plan_revisions (st : Store) (plan : string) : list RevRow := filter (λ r, rr_plan r = plan) (Revisions st).

(** [SELECT COALESCE(MAX(revision_no), 0)] *)
Definition headRevision (st : Store) (plan : string) : Z := foldr (λ r m, Z.max (rr_no r) m) 0%Z (plan_revisions st plan).

Definition scanEvent (r : RevRow) : result StoreError Event :=
  match DecodeChanges (rr_change_json r) with
  | Ok cs => Ok (mkEvent (rr_plan r) (rr_no r) (rr_parent r) (rr_request r) (rr_digest r) (rr_epoch r) (rr_author r) (rr_at r) cs (rr_state_digest r))
  | Err e => Err (EDag e)
  end.

Fixpoint queryEvents (rows : list RevRow) : result StoreError (list Event) :=
  match rows with
  | [] => Ok []
  | r :: rows' =>
    match scanEvent r with
    | Err e => Err e
    | Ok ev => match queryEvents rows' with Ok evs => Ok (ev :: evs) | Err e => Err e end
    end
  end.

Definition by_number (rows : list RevRow) : list RevRow := order_by (λ r, (rr_no r, "")) rows.

Definition revisionByRequest (st : Store) (plan request : string) : result StoreError (option Event) :=
  match queryEvents (filter (λ r, rr_request r = request) (plan_revisions st plan)) with
  | Err e => Err e
  | Ok [] => Ok None
  | Ok (ev :: _) => Ok (Some ev)
  end.

(** [json.Unmarshal(text, &[]string)]: a list of strings, null for an empty text or element. *)
Definition authority_item (v : value) : option string :=
  match v with VString s => Some s | VNull => Some "" | _ => None end.

Definition unmarshal_strings (text : string) : option (list string) :=
  let doc := bytes_of_string text in
  match load_value (load_fuel doc) 0 doc with
  | Ok (v, r) =>
    match ws r, v with
    | [], VList l => mapM authority_item l
    | [], VNull => Some []
    | _, _ => None
    end
  | Err _ => None
  end.

Definition parseAuthority (text : string) : result StoreError (list string) :=
  if bool_decide (text = "") then Ok []
  else match unmarshal_strings text with
       | Some l => Ok l
       | None => Err (corrupt "a stored required_authority is not a JSON list of strings")
       end.

(** A row of dag_nodes as the fold has it; COALESCE gives a NULL its zero value. *)
Definition scan_node (r : NodeRow) : NodeVersion :=
  mkNodeVersion (mkNode (nr_id r) (nr_issue r) (nr_kind r) (default "" (nr_title r)) (nr_criteria r)) (nr_slice r)
    (default "" (nr_supersedes r)) (nr_introduced r) (default 0%Z (nr_retired r)).

Definition scan_edge (r : EdgeTableRow) : result StoreError EdgeRow :=
  match parseAuthority (default "" (et_authority r)) with
  | Err e => Err e
  | Ok auth =>
    Ok (mkEdgeRow (mkEdge (et_id r) (et_from r) (et_to r) (et_kind r) (default "" (et_repository r)) (default "" (et_base r))
      (bool_decide (et_pins r = 1%Z)) (default "" (et_subject r)) (default "" (et_digest r)) auth) (et_introduced r) (default 0%Z (et_retired r)))
  end.

Fixpoint scan_edges (rows : list EdgeTableRow) : result StoreError (list EdgeRow) :=
  match rows with
  | [] => Ok []
  | r :: rows' =>
    match scan_edge r with
    | Err e => Err e
    | Ok e => match scan_edges rows' with Ok es => Ok (e :: es) | Err err => Err err end
    end
  end.

Fixpoint fold_lifecycle (plan : string) (rows : list LifeRow) (events : list Event) : result StoreError (list LifeRow) :=
  match events with
  | [] => Ok rows
  | ev :: events' =>
    match applyLifecycle rows (EvRevisionNo ev) (EvChanges ev) with
    | Ok rows' => fold_lifecycle plan rows' events'
    | Err e => Err (corrupt ("revision " +:+ itoa (EvRevisionNo ev) +:+ " of plan " +:+ plan +:+ " does not apply: " +:+ e))
    end
  end.

Definition loadLifecycle (st : Store) (plan : string) (head : Z) : result StoreError (list LifeRow) :=
  match queryEvents (by_number (filter (λ r, (rr_no r ≤ head)%Z) (plan_revisions st plan))) with
  | Err e => Err e
  | Ok events => fold_lifecycle plan [] events
  end.

Definition plan_node_rows (st : Store) (plan : string) : list NodeRow := filter (λ r, nr_plan r = plan) (NodeRows st).
Definition plan_edge_rows (st : Store) (plan : string) : list EdgeTableRow := filter (λ r, et_plan r = plan) (EdgeRows st).

Definition loadState (st : Store) (plan project : string) (head : Z) : result StoreError State :=
  let nodes := scan_node <$> order_by (λ r, (nr_introduced r, nr_id r)) (plan_node_rows st plan) in
  match scan_edges (order_by (λ r, (et_introduced r, et_id r)) (plan_edge_rows st plan)) with
  | Err e => Err e
  | Ok edges =>
    match loadLifecycle st plan head with
    | Err e => Err e
    | Ok life =>
      match List.find (λ row, negb (bool_decide (LNodeID row = "")) && negb (bool_decide (LNodeID row ∈ (node_row_id <$> nodes)))) life with
      | Some row => Err (corrupt ("the log of plan " +:+ plan +:+ " changes the lifecycle of node " +:+ LNodeID row +:+ ", which the plan never held"))
      | None => Ok (mkState plan project head nodes edges life)
      end
    end
  end.

(** ** The coordinator epoch (epoch.go) *)
Definition plan_claims (st : Store) (plan : string) : list Claim := filter (λ c, CLPlanID c = plan) (Claims st).

(** [ORDER BY epoch DESC LIMIT 1] *)
Definition LatestClaim (st : Store) (plan : string) : option Claim := head (order_by (λ c, ((- CLEpoch c)%Z, "")) (plan_claims st plan)).
Definition ClaimByNonce (st : Store) (plan nonce : string) : option Claim := List.find (λ c, bool_decide (CLSessionNonce c = nonce)) (plan_claims st plan).
Definition ClaimAt (st : Store) (plan : string) (epoch : Z) : option Claim := List.find (λ c, bool_decide (CLEpoch c = epoch)) (plan_claims st plan).

Definition liveParent (project task : string) (b : Binding) : bool :=
  bool_decide (bd_role b = "parent") && bool_decide (bd_scope_kind b = "project") && bool_decide (bd_scope_key b = project)
  && bool_decide (bd_task b = task) && (bool_decide (bd_status b = "active") || bool_decide (bd_status b = "paused"))
  && bool_decide (bd_superseded_by b = None).

Definition LiveParentBinding (st : Store) (project task : string) : option (string * Z) :=
  (λ b, (bd_id b, bd_revision b)) <$> List.find (liveParent project task) (Bindings st).

Definition PlanProject (st : Store) (plan : string) : option string := loadHeader st plan.

(** The fence: [None] lets the write pass. *)
Definition CheckCoordinatorEpoch (st : Store) (plan newProject actor : string) (expected : Z) : option StoreError :=
  match LatestClaim st plan with
  | None =>
    if bool_decide (expected = 0%Z) then None
    else Some (StaleEpoch ("the request holds coordinator epoch " +:+ itoa expected +:+ " and nobody has claimed an epoch of plan " +:+ plan))
  | Some latest =>
    if negb (bool_decide (expected = CLEpoch latest)) then
      Some (StaleEpoch ("the request holds coordinator epoch " +:+ itoa expected +:+ " and plan " +:+ plan +:+ " is at epoch " +:+ itoa (CLEpoch latest) +:+
        ", claimed by task " +:+ CLTaskID latest +:+ ": a newer coordinator session holds the plan"))
    else if negb (bool_decide (CLTaskID latest = actor)) then
      Some (StaleEpoch ("epoch " +:+ itoa (CLEpoch latest) +:+ " of plan " +:+ plan +:+ " is held by task " +:+ CLTaskID latest +:+ ", not by " +:+ actor))
    else
      let project := default newProject (loadHeader st plan) in
      if bool_decide (project = "") then None
      else if existsb (λ b, bool_decide (bd_id b = CLBindingID latest) && liveParent project actor b) (Bindings st) then None
      else Some (StaleEpoch ("task " +:+ actor +:+ " claimed epoch " +:+ itoa (CLEpoch latest) +:+ " of plan " +:+ plan +:+ " under binding " +:+
        CLBindingID latest +:+ ", which is not a live 자식 binding of project " +:+ project +:+ " any more"))
  end.
