(* ===== verification/DagManifest.v ===== *)
(** * DagManifest: input manifests (internal/relay/dag/manifest.go).

    A manifest is the record of what a node consumed, addressed by the digest of the fields the contract includes. [CheckManifest] is the strict
    shape, [ManifestDigest] the digest, and the table [dag_input_manifests] (store/dag_zone.go) is the list of its rows. A [%v] in a refusal is rendered by
    [print_v], where a fraction is its literal. *)
From S2P Require Import Prelude GoLib Sha256 Json Loads Utf8 JsonText JsonRoundtrip JsonLoaded DagModel DagDecode DagStore.
Local Open Scope string_scope.

(** ** The shape of a manifest *)
Record manifestRule : Type := mkManifestRule { texts : list string; ints : list string }.

Definition perKind (kind : string) : option manifestRule :=
  if bool_decide (kind = EdgeArtifactVerified) then
    Some (mkManifestRule ["acceptance_id"; "relationship_id"; "event_id"; "revision_hash"] ["execution_generation"])
  else if bool_decide (kind = EdgeIntegrated) then Some (mkManifestRule ["acceptance_id"; "head_sha"; "landed_sha"] [])
  else if bool_decide (kind = EdgeDecision) then Some (mkManifestRule ["decision_id"; "decision_digest"] ["decision_revision"])
  else None.

Definition InputSurfaceAgent := "agent".
Definition agentArtifactInput : manifestRule := mkManifestRule ["acceptance_id"; "execution_id"] [].

(** [s, _ := v.(string)] *)
Definition as_string (v : value) : string := match v with VString s => s | _ => "" end.

(** The closures [text], [digest] and [whole]. *)
Definition need_text (obj : fields) (path key : string) : list Violation :=
  if bool_decide (as_string (nil_get obj key) = "")
  then [violation RuleMissingField (join path key) "required text field is missing, empty or not text"] else [].

Definition need_digest (obj : fields) (path key : string) : list Violation :=
  match nil_get obj key with
  | VString s => if match_digest s then [] else [violation RuleBadDigest (join path key) "must be 64 lowercase hexadecimal characters"]
  | _ => [violation RuleBadDigest (join path key) "must be 64 lowercase hexadecimal characters"]
  end.

Definition need_whole (obj : fields) (path key : string) (min : Z) : list Violation :=
  let wrong := [violation RuleWrongType (join path key) ("must be a whole number of at least " +:+ itoa min)] in
  match nil_get obj key with
  | VNull => [violation RuleMissingField (join path key) "required whole number is missing"]
  | VInt n => if (n <? min)%Z then wrong else []
  | _ => wrong
  end.

Definition check_base (base : value) : list Violation :=
  match base with
  | VNull => []
  | VMap obj => ["repository"; "ref"; "sha"] ≫= need_text obj "$.base"
  | _ => [violation RuleNotAnObject "$.base" "must be a JSON object with repository, ref and sha"]
  end.

Definition check_artifact (path : string) (j : nat) (a : value) : list Violation :=
  let ap := index_path (path +:+ ".artifacts") j in
  match a with
  | VMap obj => (need_text obj ap "uri" ++ need_text obj ap "scope" ++ need_digest obj ap "sha256" ++ need_whole obj ap "bytes" 0)%list
  | _ => [violation RuleNotAnObject ap "must be a JSON object with uri, sha256, bytes and scope"]
  end.

Definition check_artifacts (path : string) (artifacts : value) : list Violation :=
  match artifacts with
  | VNull => []
  | VList l => concat (imap (check_artifact path) l)
  | _ => [violation RuleWrongType (path +:+ ".artifacts") "must be a list"]
  end.

(** The rule an input of an edge kind is read under: an artifact accepted by an agent has its own. *)
Definition input_rule (input : fields) : option manifestRule :=
  let kind := as_string (nil_get input "kind") in
  match perKind kind with
  | None => None
  | Some rule =>
    if bool_decide (kind = EdgeArtifactVerified) && bool_decide (as_string (nil_get input "surface") = InputSurfaceAgent)
    then Some agentArtifactInput else Some rule
  end.

Definition check_input (i : nat) (item : value) : list Violation :=
  let path := index_path "$.inputs" i in
  match item with
  | VMap input =>
    match input_rule input with
    | None =>
      [mkViolation RuleUnknownEdgeKind (path +:+ ".kind")
         [Quoted (as_string (nil_get input "kind"));
          Lit (" is not one of " +:+ EdgeArtifactVerified +:+ ", " +:+ EdgeIntegrated +:+ ", " +:+ EdgeDecision)]]
    | Some rule =>
      ((("edge_id" :: "from_node_id" :: texts rule) ≫= need_text input path) ++
       (ints rule ≫= λ f, need_whole input path f 0) ++
       check_artifacts path (nil_get input "artifacts"))%list
    end
  | _ => [violation RuleNotAnObject path "must be a JSON object"]
  end.

Definition check_snapshot (i : nat) (v : value) : list Violation :=
  let vp := index_path "$.volatile" i in
  match v with
  | VMap obj => (need_text obj vp "source" ++ need_text obj vp "snapshot_uri" ++ need_text obj vp "captured_at" ++ need_digest obj vp "sha256")%list
  | _ => [violation RuleNotAnObject vp "must be a JSON object with source, snapshot_uri, sha256 and captured_at"]
  end.

Definition check_volatile (v : value) : list Violation :=
  match v with
  | VNull => []
  | VList l => concat (imap check_snapshot l)
  | _ => [violation RuleWrongType "$.volatile" "must be a list"]
  end.

Definition check_inputs (v : value) : list Violation :=
  match v with
  | VList l => concat (imap check_input l)
  | _ => [violation RuleMissingField "$.inputs" "required list is missing (an empty list is allowed: a node with no incoming edge)"]
  end.

Definition check_rule_version (v : value) : list Violation :=
  match v with
  | VMap (_ :: _) => []
  | _ => [violation RuleMissingField "$.rule_version" "required object is missing or empty"]
  end.

Definition CheckManifest (body : fields) : list Violation :=
  ((["node_id"; "issue_key"; "created_by_task_id"; "created_at"] ≫= need_text body "$") ++
   (if bool_decide (as_string (nil_get body "schema") = SchemaManifest) then [] else [mkViolation RuleBadSchema "$.schema" [Lit "must be "; Quoted SchemaManifest]]) ++
   need_digest body "$" "node_slice_digest" ++
   need_digest body "$" "criteria_set_digest" ++
   need_whole body "$" "plan_revision_no" 0 ++
   need_whole body "$" "coordinator_epoch" 0 ++
   check_rule_version (nil_get body "rule_version") ++
   check_base (nil_get body "base") ++
   check_inputs (nil_get body "inputs") ++
   check_volatile (nil_get body "volatile"))%list.

(** ** The digest *)
Definition zero_byte : string := String "000" "".

Definition sort_key (names : list string) (v : value) : string :=
  let m := match v with VMap m => m | _ => [] end in
  foldl (λ k f, k +:+ as_string (nil_get m f) +:+ zero_byte) "" names.

Definition sortedBy (l : list value) (names : list string) : list value := sort_by (sort_key names) l.

Definition is_nil (v : value) : bool := match v with VNull => true | _ => false end.

Definition dropNil (m : fields) : fields := filter (λ kv, is_nil (snd kv) = false) m.

(** [delete(m, key)] *)
Definition map_delete (m : fields) (key : string) : fields := filter (λ kv, fst kv ≠ key) m.

Definition object_or {A} (v : value) (f : fields → A) (other : A) : A := match v with VMap m => f m | _ => other end.

(** An item of a list: an object loses its nulls, anything else stays. *)
Definition drop_item (v : value) : value := object_or v (λ m, VMap (dropNil m)) v.

Definition digest_input (item : value) : value :=
  object_or item (λ m,
    let copied := dropNil m in
    match map_get copied "artifacts" with
    | Some (VList artifacts) => VMap (map_set copied "artifacts" (VList (drop_item <$> sortedBy artifacts ["uri"])))
    | _ => VMap copied
    end) item.

Definition digest_snapshot (item : value) : option value :=
  object_or item (λ m, Some (VMap (map_delete (dropNil m) "captured_at"))) None.

Definition as_list (v : value) : list value := match v with VList l => l | _ => [] end.

Definition included_scalars : list string := ["schema"; "node_id"; "issue_key"; "node_slice_digest"; "criteria_set_digest"].

(** What the digest covers. *)
Definition included (body : fields) : fields :=
  let m0 := map_of [("inputs", VList (digest_input <$> sortedBy (as_list (nil_get body "inputs")) ["edge_id"]))] in
  let m1 := foldl (λ m f, if is_nil (nil_get body f) then m else map_set m f (nil_get body f)) m0 included_scalars in
  let m2 := match nil_get body "base" with VMap base => map_set m1 "base" (VMap (dropNil base)) | _ => m1 end in
  match nil_get body "volatile" with
  | VList l => map_set m2 "volatile" (VList (omap digest_snapshot (sortedBy l ["source"; "snapshot_uri"])))
  | _ => m2
  end.

Definition ManifestDigest (body : fields) : string := Digest (VMap (included body)).

(** ** The table *)
Record ManifestRow : Type := mkManifestRow {
  mf_digest : string;
  mf_node : string;
  mf_body : string;
  mf_rule_version : string;
  mf_epoch : Z;
  mf_created_at : string
}.

Definition Manifests : Type := list ManifestRow.

(** INSERT OR IGNORE: a row that breaks the key or the CHECK is left out. *)
Definition insert_or_ignore (t : Manifests) (row : ManifestRow) : Manifests :=
  if (mf_epoch row <? 0)%Z || existsb (λ r, bool_decide (mf_digest r = mf_digest row)) t then t else (t ++ [row])%list.

Definition RefusalRevisionMismatch := "revision_mismatch".

(** fmt's [%v] of a decoded value. *)
Fixpoint print_v (v : value) : string :=
  match v with
  | VNull => "<nil>"
  | VBool b => if b then "true" else "false"
  | VInt z => itoa z
  | VNumber t | VFloat t => t
  | VString s => s
  | VList l => "[" +:+ join_sep " " (print_v <$> l) +:+ "]"
  | VMap fs => "map[" +:+ join_sep " " ((λ kv, fst kv +:+ ":" +:+ print_v (snd kv)) <$> fs) +:+ "]"
  end.

Definition as_int (v : value) : Z := match v with VInt z => z | _ => 0%Z end.

(** [claimed, present := body["manifest_digest"]; present && claimed != digest]: the claim that is refused. *)
Definition wrong_claim (body : fields) (digest : string) : option value :=
  match map_get body "manifest_digest" with
  | Some (VString s) => if bool_decide (s = digest) then None else Some (VString s)
  | o => o
  end.

Definition manifest_row (body : fields) (digest : string) : ManifestRow :=
  mkManifestRow digest (as_string (nil_get body "node_id")) (canonical (VMap body)) (canonical (nil_get body "rule_version"))
    (as_int (nil_get body "coordinator_epoch")) (as_string (nil_get body "created_at")).

(** [Repo.PutManifest]: the table after the call, and the digest or the error. *)
Definition PutManifest (t : Manifests) (raw : string) : Manifests * result StoreError string :=
  match parse raw with
  | Err e => (t, Err (EDag (Unreadable e)))
  | Ok (VMap body) =>
    match CheckManifest body with
    | v :: vs => (t, Err (EDag (PlanRejected (v :: vs))))
    | [] =>
      let digest := ManifestDigest body in
      match wrong_claim body digest with
      | Some claimed => (t, Err (ERefused RefusalRevisionMismatch ("the manifest carries digest " +:+ print_v claimed +:+ " but its content digests to " +:+ digest)))
      | None => (insert_or_ignore t (manifest_row (map_set body "manifest_digest" (VString digest)) digest), Ok digest)
      end
    end
  | Ok _ => (t, Err (EDag (PlanRejected [violation RuleNotAnObject "$" "a manifest is a JSON object"])))
  end.

(** [ReadManifestOn]: the body, when there is one. Every error is of a row that was found. *)
Definition ReadManifestOn (t : Manifests) (digest : string) : result StoreError (option fields) :=
  match List.find (λ r, bool_decide (mf_digest r = digest)) t with
  | None => Ok None
  | Some row =>
    match parse (mf_body row) with
    | Ok (VMap body) =>
      if bool_decide (ManifestDigest body = digest) then Ok (Some body)
      else Err (corrupt ("the stored manifest " +:+ digest +:+ " digests to " +:+ ManifestDigest body))
    | _ => Err (corrupt ("the stored manifest " +:+ digest +:+ " is not a JSON object"))
    end
  end.
