(* ===== verification/DagManifestProps.v ===== *)
(** * DagManifestProps: what the digest of a manifest identifies, and that a stored manifest reads back. *)
From S2P Require Import Prelude GoLib Sha256 Json Loads Utf8 JsonText JsonRoundtrip JsonLoaded DagModel DagDecode DagDecodeProps DagStore DagManifest.
Local Open Scope string_scope.

(** ** Lists equal up to order and up to a relation of their items *)
Definition same_list {A} (R : A → A → Prop) (l1 l2 : list A) : Prop := ∃ l, l1 ≡ₚ l ∧ Forall2 R l l2.

Section same_list.
Context {A B : Type} (R : A → A → Prop) (key : A → string) (f : A → B).
Hypothesis Hkey : ∀ x y, R x y → key x = key y.

Lemma sort_insert_related x y l1 l2 : R x y → Forall2 R l1 l2 → Forall2 R (sort_insert key x l1) (sort_insert key y l2).
Proof.
  intros Hxy. induction 1 as [|a b l1 l2 Hab Hl IH]; cbn [sort_insert]; [by repeat constructor|].
  rewrite (Hkey x y Hxy), (Hkey a b Hab). destruct (String.leb _ _); by repeat constructor.
Qed.

Lemma sort_by_related l1 l2 : Forall2 R l1 l2 → Forall2 R (sort_by key l1) (sort_by key l2).
Proof. induction 1; cbn [sort_by]; [constructor|]. by apply sort_insert_related. Qed.

(** With distinct keys, sorting forgets the order. *)
Lemma sort_same l1 l2 : NoDup (key <$> l1) → same_list R l1 l2 → Forall2 R (sort_by key l1) (sort_by key l2).
Proof. intros Hnd (l & Hp & Hl). rewrite (sort_by_unique key l1 l Hnd Hp). by apply sort_by_related. Qed.

Lemma sort_same_map l1 l2 : (∀ x y, R x y → f x = f y) → NoDup (key <$> l1) → same_list R l1 l2 → f <$> sort_by key l1 = f <$> sort_by key l2.
Proof. intros Hf Hnd Hs. apply (sort_same _ _ Hnd) in Hs. induction Hs; csimpl; [done|]. f_equal; auto. Qed.
End same_list.

Lemma same_of_sorted {A B} (R : A → A → Prop) (key1 key2 : A → string) (f : A → B) l1 l2 :
  (∀ x y, x ∈ l1 → y ∈ l2 → f x = f y → R x y) → f <$> sort_by key1 l1 = f <$> sort_by key2 l2 → same_list R l1 l2.
Proof.
  intros Hf He. assert (Forall2 R (sort_by key1 l1) (sort_by key2 l2)) as H2.
  { assert (∀ x y, x ∈ sort_by key1 l1 → y ∈ sort_by key2 l2 → f x = f y → R x y) as Hf'
      by (intros x y; rewrite !elem_of_sort_by; apply Hf).
    revert He Hf'. generalize (sort_by key1 l1) (sort_by key2 l2). intros s1. induction s1 as [|x s1 IH]; intros [|y s2] He Hf'; try done.
    csimpl in He. injection He as He1 He2. constructor; [apply Hf'; [by left..|done]|]. apply IH; [done|]. intros; apply Hf'; [by right..|done]. }
  apply Forall2_flip, (Permutation_Forall2 (sort_by_perm key2 l2)) in H2 as (l & Hp & Hl). exists l. split; [by rewrite <- Hp, sort_by_perm|by apply Forall2_flip].
Qed.

(** ** What a manifest says *)

(** Maps that agree where a null is a missing value. *)
Definition same_fields (m1 m2 : fields) : Prop := ∀ k, nil_get m1 k = nil_get m2 k.
Definition same_fields_but (key : string) (m1 m2 : fields) : Prop := ∀ k, k ≠ key → nil_get m1 k = nil_get m2 k.

Definition same_item (R : fields → fields → Prop) (v1 v2 : value) : Prop :=
  match v1, v2 with VMap m1, VMap m2 => R m1 m2 | VMap _, _ | _, VMap _ => False | _, _ => v1 = v2 end.

Definition same_lists (R : value → value → Prop) (v1 v2 : value) : Prop :=
  match v1, v2 with VList l1, VList l2 => same_list R l1 l2 | VList _, _ | _, VList _ => False | _, _ => v1 = v2 end.

Definition same_input (m1 m2 : fields) : Prop :=
  same_fields_but "artifacts" m1 m2 ∧ same_lists (same_item same_fields) (nil_get m1 "artifacts") (nil_get m2 "artifacts").

(** Two bodies that record the same consumption: the digested members agree, a null counting as a missing value, and inputs, artifacts and
    snapshots in any order; the time a snapshot was captured does not count. *)
Record same_manifest (b1 b2 : fields) : Prop := mkSame {
  sm_scalars : ∀ f, f ∈ included_scalars → nil_get b1 f = nil_get b2 f;
  sm_base : same_item same_fields (nil_get b1 "base") (nil_get b2 "base");
  sm_inputs : same_lists (same_item same_input) (nil_get b1 "inputs") (nil_get b2 "inputs");
  sm_volatile : same_lists (same_item (same_fields_but "captured_at")) (nil_get b1 "volatile") (nil_get b2 "volatile")
}.

(** The names the digest orders by are distinct. *)
Definition distinct_artifacts (input : value) : Prop :=
  match input with VMap m => NoDup (sort_key ["uri"] <$> as_list (nil_get m "artifacts")) | _ => True end.

Record distinct_names (b : fields) : Prop := mkDistinct {
  dn_inputs : NoDup (sort_key ["edge_id"] <$> as_list (nil_get b "inputs"));
  dn_artifacts : Forall distinct_artifacts (as_list (nil_get b "inputs"));
  dn_volatile : NoDup (sort_key ["source"; "snapshot_uri"] <$> as_list (nil_get b "volatile"))
}.

(** A body the strict reader accepts and JSON carries exactly. *)
Record manifest_ok (b : fields) : Prop := mkManifestOk {
  mo_json : json_ok (VMap b);
  mo_height : (height (VMap b) ≤ MaxDepth)%nat;
  mo_check : CheckManifest b = []
}.

(** ** Maps without nulls *)
Lemma is_nil_spec v : is_nil v = true ↔ v = VNull.
Proof. by destruct v. Qed.

Lemma nil_get_set m k v k' : nil_get (map_set m k v) k' = if bool_decide (k = k') then v else nil_get m k'.
Proof. unfold nil_get. rewrite map_get_set. by case_bool_decide. Qed.

Lemma map_get_dropNil m k : ordered m → map_get (dropNil m) k = if is_nil (nil_get m k) then None else Some (nil_get m k).
Proof.
  intros Ho. unfold dropNil, nil_get. rewrite map_get_filter by done. destruct (map_get m k) as [v|]; [|done]. cbn.
  destruct (is_nil v) eqn:E; [by rewrite decide_False|by rewrite decide_True].
Qed.

Lemma nil_get_dropNil m k : ordered m → nil_get (dropNil m) k = nil_get m k.
Proof.
  intros Ho. unfold nil_get at 1. rewrite map_get_dropNil by done. destruct (is_nil (nil_get m k)) eqn:E; [|done]. by apply is_nil_spec in E as ->.
Qed.

Lemma ordered_dropNil m : ordered m → ordered (dropNil m).
Proof. apply ordered_filter. Qed.

Lemma dropNil_same m1 m2 : ordered m1 → ordered m2 → (dropNil m1 = dropNil m2 ↔ same_fields m1 m2).
Proof.
  intros H1 H2. split; intros H.
  - intros k. by rewrite <- (nil_get_dropNil m1), <- (nil_get_dropNil m2), H by done.
  - apply ordered_ext; [by apply ordered_dropNil..|]. intros k. by rewrite !map_get_dropNil, H by done.
Qed.

Lemma map_get_delete m k k' : ordered m → map_get (map_delete m k) k' = if bool_decide (k' = k) then None else map_get m k'.
Proof.
  intros Ho. unfold map_delete. rewrite map_get_filter by done. destruct (map_get m k'); [|by case_bool_decide]. cbn.
  case_bool_decide; [by rewrite decide_False by naive_solver|by rewrite decide_True].
Qed.

Lemma delete_same m1 m2 k : ordered m1 → ordered m2 → (map_delete (dropNil m1) k = map_delete (dropNil m2) k ↔ same_fields_but k m1 m2).
Proof.
  intros H1 H2. split; intros H.
  - intros k' Hk. assert (map_get (map_delete (dropNil m1) k) k' = map_get (map_delete (dropNil m2) k) k') as E by (by rewrite H).
    rewrite !map_get_delete, !bool_decide_eq_false_2 in E by (done || by apply ordered_dropNil).
    rewrite <- (nil_get_dropNil m1), <- (nil_get_dropNil m2) by done. unfold nil_get. by rewrite E.
  - apply ordered_ext; [by repeat apply ordered_filter..|]. intros k'. rewrite !map_get_delete by (by apply ordered_dropNil).
    case_bool_decide; [done|]. by rewrite !map_get_dropNil, H by done.
Qed.

(** ** The parts of a value *)
Lemma json_map_ordered m : json_ok (VMap m) → ordered m.
Proof. by inversion 1. Qed.

Lemma json_list_inv l v : json_ok (VList l) → v ∈ l → json_ok v.
Proof. inversion 1 as [| | | |? Hl|]; subst. rewrite Forall_forall in Hl. apply Hl. Qed.

Lemma json_nil_get m k : json_ok (VMap m) → json_ok (nil_get m k).
Proof.
  inversion 1 as [| | | | |? Hm Ho]; subst. unfold nil_get. destruct (map_get m k) as [v|] eqn:E; [|constructor]. apply map_get_in in E.
  rewrite Forall_forall in Hm. by apply (Hm (k, v)).
Qed.

Lemma json_as_list v x : json_ok v → x ∈ as_list v → json_ok x.
Proof. destruct v as [| | | | | |l|]; intros Hv Hx; try by apply elem_of_nil in Hx. by apply (json_list_inv l). Qed.

Lemma same_item_ext (R1 R2 : fields → fields → Prop) v1 v2 : (∀ m1 m2, v1 = VMap m1 → v2 = VMap m2 → R1 m1 m2 → R2 m1 m2) → same_item R1 v1 v2 → same_item R2 v1 v2.
Proof. intros H. destruct v1, v2; cbn; eauto. Qed.

Lemma sort_key_same (R : fields → fields → Prop) names v1 v2 :
  (∀ m1 m2 f, R m1 m2 → f ∈ names → nil_get m1 f = nil_get m2 f) → same_item R v1 v2 → sort_key names v1 = sort_key names v2.
Proof.
  intros HR H. unfold sort_key. generalize "". assert (∀ f, f ∈ names →
    nil_get (match v1 with VMap m => m | _ => [] end) f = nil_get (match v2 with VMap m => m | _ => [] end) f) as Hf.
  { intros f Hf. destruct v1, v2; try done. by apply HR. }
  clear H HR. induction names as [|f names IH]; intros k; [done|]. cbn [foldl]. rewrite Hf by (by left). apply IH. intros; apply Hf. by right.
Qed.

(** ** Artifacts *)
Lemma drop_item_same v1 v2 : json_ok v1 → json_ok v2 → (drop_item v1 = drop_item v2 ↔ same_item same_fields v1 v2).
Proof.
  intros H1 H2. destruct v1, v2; cbn; try (by split). split.
  - intros [= H]. apply dropNil_same; [by apply json_map_ordered..|done].
  - intros H. f_equal. apply dropNil_same; [by apply json_map_ordered..|done].
Qed.

Lemma artifacts_same v1 v2 : json_ok v1 → json_ok v2 → NoDup (sort_key ["uri"] <$> as_list v1) →
  same_lists (same_item same_fields) v1 v2 → drop_item <$> sortedBy (as_list v1) ["uri"] = drop_item <$> sortedBy (as_list v2) ["uri"].
Proof.
  intros H1 H2 Hnd Hs. destruct v1 as [| | | | | |l1|], v2 as [| | | | | |l2|]; try done. cbn in *. destruct Hs as (l & Hp & Hl). unfold sortedBy.
  apply (sort_same_map (λ x y, json_ok x ∧ json_ok y ∧ same_item same_fields x y)); [| |done|].
  - intros x y (_ & _ & Hxy). apply (sort_key_same same_fields); [|done]. intros m1 m2 f Hm _. apply Hm.
  - intros x y (Hx & Hy & Hxy). by apply drop_item_same.
  - exists l. split; [done|]. apply Forall2_same_length_lookup. split; [by apply Forall2_length in Hl|]. intros i x y Hx Hy. split_and!.
    + apply (json_list_inv l1); [done|]. rewrite Hp. by apply list_elem_of_lookup_2 in Hx.
    + apply (json_list_inv l2); [done|]. by apply list_elem_of_lookup_2 in Hy.
    + by eapply Forall2_lookup_lr.
Qed.

(** ** Inputs *)
Definition digest_artifacts (v : value) : option value :=
  match v with VNull => None | VList l => Some (VList (drop_item <$> sortedBy l ["uri"])) | v => Some v end.

Definition digest_fields (m : fields) : fields := match digest_input (VMap m) with VMap m' => m' | _ => [] end.

Lemma digest_input_map m : digest_input (VMap m) = VMap (digest_fields m).
Proof. unfold digest_fields. cbn. destruct (map_get _ _) as [[| | | | | | |]|]; done. Qed.

Lemma ordered_digest_fields m : ordered m → ordered (digest_fields m).
Proof.
  intros Ho%ordered_dropNil. unfold digest_fields. cbn. destruct (map_get _ _) as [[| | | | | | |]|]; try done. by apply map_set_sorted.
Qed.

Lemma map_get_digest_fields m k : ordered m →
  map_get (digest_fields m) k = if bool_decide (k = "artifacts") then digest_artifacts (nil_get m "artifacts")
    else if is_nil (nil_get m k) then None else Some (nil_get m k).
Proof.
  intros Ho. unfold digest_fields. cbn. rewrite map_get_dropNil by done. case_bool_decide as Hk.
  - subst k. destruct (nil_get m "artifacts") as [| | | | | | |] eqn:E; cbn; rewrite ?map_get_set, ?bool_decide_eq_true_2 by done; try done;
      by rewrite map_get_dropNil, E.
  - destruct (nil_get m "artifacts") as [| | | | | | |] eqn:E; cbn; rewrite ?map_get_set, ?(bool_decide_eq_false_2 ("artifacts" = k)) by congruence;
      by rewrite map_get_dropNil.
Qed.

Lemma digest_artifacts_same v1 v2 : json_ok v1 → json_ok v2 → digest_artifacts v1 = digest_artifacts v2 → same_lists (same_item same_fields) v1 v2.
Proof.
  intros H1 H2 H. destruct v1 as [| | | | | |l1|], v2 as [| | | | | |l2|]; cbn in *; try congruence. injection H as H.
  apply (same_of_sorted _ _ _ _ _ _ (λ x y Hx Hy, proj1 (drop_item_same x y (json_list_inv l1 x H1 Hx) (json_list_inv l2 y H2 Hy))) H).
Qed.

Lemma digest_input_same v1 v2 : json_ok v1 → json_ok v2 → digest_input v1 = digest_input v2 → same_item same_input v1 v2.
Proof.
  intros H1 H2. destruct v1 as [| | | | | | |m1], v2 as [| | | | | | |m2]; cbn [same_item]; try (by intros ->); rewrite ?digest_input_map; try done.
  intros [= E]. pose proof (json_map_ordered _ H1). pose proof (json_map_ordered _ H2).
  assert (∀ k, map_get (digest_fields m1) k = map_get (digest_fields m2) k) as Hk by (by rewrite E). split.
  - intros k Hne. specialize (Hk k). rewrite !map_get_digest_fields, !bool_decide_eq_false_2 in Hk by done.
    destruct (is_nil (nil_get m1 k)) eqn:E1, (is_nil (nil_get m2 k)) eqn:E2; try congruence. apply is_nil_spec in E1, E2. congruence.
  - specialize (Hk "artifacts"). rewrite !map_get_digest_fields, !bool_decide_eq_true_2 in Hk by done.
    apply digest_artifacts_same; [by apply json_nil_get..|done].
Qed.

Lemma digest_artifacts_eq v1 v2 : json_ok v1 → json_ok v2 → NoDup (sort_key ["uri"] <$> as_list v1) →
  same_lists (same_item same_fields) v1 v2 → digest_artifacts v1 = digest_artifacts v2.
Proof.
  intros H1 H2 Hnd Hs. pose proof (artifacts_same v1 v2 H1 H2 Hnd Hs) as H. destruct v1, v2; cbn in *; try done; try (by simplify_eq). by do 2 f_equal.
Qed.

Lemma same_digest_input v1 v2 : json_ok v1 → json_ok v2 → distinct_artifacts v1 → same_item same_input v1 v2 → digest_input v1 = digest_input v2.
Proof.
  intros H1 H2 Hd. destruct v1 as [| | | | | | |m1], v2 as [| | | | | | |m2]; cbn [same_item]; try done; try congruence.
  intros [Hs Ha]. rewrite !digest_input_map. f_equal. pose proof (json_map_ordered _ H1). pose proof (json_map_ordered _ H2).
  apply ordered_ext; [by apply ordered_digest_fields..|]. intros k. rewrite !map_get_digest_fields by done. case_bool_decide as Hk; [|by rewrite Hs].
  apply digest_artifacts_eq; [by apply json_nil_get..|done|done].
Qed.

(** ** Snapshots *)
Definition is_object (v : value) : Prop := match v with VMap _ => True | _ => False end.

Definition snapshot_of (v : value) : value := object_or v (λ m, VMap (map_delete (dropNil m) "captured_at")) v.

Lemma omap_snapshots l : Forall is_object l → omap digest_snapshot l = snapshot_of <$> l.
Proof. induction 1 as [|v l Hv _ IH]; [done|]. destruct v; try done. csimpl. by rewrite IH. Qed.

Lemma snapshot_same v1 v2 : json_ok v1 → json_ok v2 → (snapshot_of v1 = snapshot_of v2 ↔ same_item (same_fields_but "captured_at") v1 v2).
Proof.
  intros H1 H2. destruct v1, v2; cbn; try (by split). split.
  - intros [= H]. apply delete_same in H; [done|by apply json_map_ordered..].
  - intros H. f_equal. apply delete_same; [by apply json_map_ordered..|done].
Qed.

(** ** What the strict reader leaves *)
Lemma imap_quiet {A} (f : nat → A → list Violation) l i x : concat (imap f l) = [] → l !! i = Some x → f i x = [].
Proof.
  revert f i. induction l as [|y l IH]; intros f i H Hx; [done|]. cbn in H. apply app_nil in H as [H0 H]. destruct i as [|i]; [by injection Hx as ->|].
  by apply (IH (f ∘ S)).
Qed.

Lemma imap_objects (f : nat → value → list Violation) l : (∀ i v, f i v = [] → is_object v) → concat (imap f l) = [] → Forall is_object l.
Proof. intros Hf H. apply Forall_lookup. intros i x Hx. by apply (Hf i), (imap_quiet f l). Qed.

Lemma check_inputs_quiet v : check_inputs v = [] → ∃ l, v = VList l.
Proof. destruct v; try done. eauto. Qed.

Lemma check_volatile_quiet v : check_volatile v = [] → v = VNull ∨ ∃ l, v = VList l ∧ Forall is_object l.
Proof.
  destruct v; try done; [by left|]. intros H. right. eexists; split; [done|]. by eapply (imap_objects check_snapshot); [|exact H]; intros i [].
Qed.

Lemma check_base_quiet v : check_base v = [] → v = VNull ∨ ∃ m, v = VMap m.
Proof. destruct v; try done; eauto. Qed.

Record shaped (b : fields) : Prop := mkShaped {
  sh_inputs : ∃ l, nil_get b "inputs" = VList l;
  sh_base : nil_get b "base" = VNull ∨ ∃ m, nil_get b "base" = VMap m;
  sh_volatile : nil_get b "volatile" = VNull ∨ ∃ l, nil_get b "volatile" = VList l ∧ Forall is_object l
}.

Lemma CheckManifest_shaped b : CheckManifest b = [] → shaped b.
Proof.
  unfold CheckManifest. intros H. repeat (apply app_nil in H as [? H]). split; [by apply check_inputs_quiet|by apply check_base_quiet|by apply check_volatile_quiet].
Qed.

(** ** The digested members *)
Definition volatile_part (v : value) : option value :=
  match v with VList l => Some (VList (omap digest_snapshot (sortedBy l ["source"; "snapshot_uri"]))) | _ => None end.

Lemma foldl_scalars b names m k : map_get (foldl (λ m f, if is_nil (nil_get b f) then m else map_set m f (nil_get b f)) m names) k =
  if bool_decide (k ∈ names) && negb (is_nil (nil_get b k)) then Some (nil_get b k) else map_get m k.
Proof.
  revert m. induction names as [|f names IH]; intros m; [done|]. cbn [foldl]. rewrite IH. destruct (decide (k ∈ names)) as [Hin|Hin].
  - rewrite !bool_decide_eq_true_2 by (done || by right). cbn. destruct (is_nil (nil_get b k)) eqn:Ek; [|done]. cbn.
    destruct (is_nil (nil_get b f)) eqn:Ef; [done|]. rewrite map_get_set, bool_decide_eq_false_2; [done|]. intros ->. congruence.
  - rewrite (bool_decide_eq_false_2 (k ∈ names)) by done. cbn [andb]. destruct (decide (k = f)) as [->|Hne].
    + rewrite bool_decide_eq_true_2 by (by left). destruct (is_nil (nil_get b f)); [done|]. cbn. by rewrite map_get_set, bool_decide_eq_true_2.
    + rewrite bool_decide_eq_false_2 by (rewrite elem_of_cons; tauto). destruct (is_nil (nil_get b f)); [done|]. by rewrite map_get_set, bool_decide_eq_false_2 by congruence.
Qed.

Lemma map_get_included b k : map_get (included b) k =
  if bool_decide (k = "volatile") then volatile_part (nil_get b "volatile")
  else if bool_decide (k = "base") then match nil_get b "base" with VMap base => Some (VMap (dropNil base)) | _ => None end
  else if bool_decide (k = "inputs") then Some (VList (digest_input <$> sortedBy (as_list (nil_get b "inputs")) ["edge_id"]))
  else if bool_decide (k ∈ included_scalars) && negb (is_nil (nil_get b k)) then Some (nil_get b k) else None.
Proof.
  assert (∀ m, map_get (match nil_get b "volatile" with VList l => map_set m "volatile" (VList (omap digest_snapshot (sortedBy l ["source"; "snapshot_uri"]))) | _ => m end) k =
    match volatile_part (nil_get b "volatile") with Some v => if bool_decide ("volatile" = k) then Some v else map_get m k | None => map_get m k end) as Hv
    by (intros m; destruct (nil_get b "volatile"); try done; apply map_get_set).
  unfold included. rewrite Hv. clear Hv.
  set (m1 := foldl _ _ _). assert (map_get m1 k = if bool_decide (k ∈ included_scalars) && negb (is_nil (nil_get b k)) then Some (nil_get b k)
    else if bool_decide (k = "inputs") then Some (VList (digest_input <$> sortedBy (as_list (nil_get b "inputs")) ["edge_id"])) else None) as Hm.
  { unfold m1. rewrite foldl_scalars. unfold map_of. cbn [foldl map_set map_get fst snd]. destruct (bool_decide_reflect ("inputs" = k)) as [<-|Hk]; [done|].
    by rewrite (bool_decide_eq_false_2 (k = "inputs")) by congruence. }
  clearbody m1. set (m2 := match nil_get b "base" with VMap _ => _ | _ => _ end).
  assert (map_get m2 k = if bool_decide (k = "base") then match nil_get b "base" with VMap base => Some (VMap (dropNil base)) | _ => map_get m1 k end else map_get m1 k) as Hm2.
  { clear Hm. subst m2. destruct (nil_get b "base"); try (by destruct (bool_decide _)). rewrite map_get_set. destruct (bool_decide_reflect ("base" = k)) as [<-|Hk]; [done|].
    by rewrite (bool_decide_eq_false_2 (k = "base")) by congruence. }
  rewrite Hm2, Hm. destruct (bool_decide_reflect (k = "volatile")) as [->|Hk1]; [by destruct (volatile_part _)|].
  rewrite (bool_decide_eq_false_2 ("volatile" = k)) by congruence.
  destruct (bool_decide_reflect (k = "base")) as [->|Hk2]; [by destruct (nil_get b "base"), (volatile_part _)|].
  destruct (bool_decide_reflect (k = "inputs")) as [->|Hk3]; by destruct (volatile_part _).
Qed.

Lemma ordered_included b : ordered (included b).
Proof.
  unfold included. assert (∀ names m, ordered m → ordered (foldl (λ m f, if is_nil (nil_get b f) then m else map_set m f (nil_get b f)) m names)) as Hf.
  { induction names as [|f names IH]; intros m Hm; [done|]. cbn [foldl]. apply IH. destruct (is_nil _); [done|]. by apply map_set_sorted. }
  assert (ordered (map_of [("inputs", VList (digest_input <$> sortedBy (as_list (nil_get b "inputs")) ["edge_id"]))])) as H0 by apply map_of_sorted.
  apply (Hf included_scalars) in H0. destruct (nil_get b "base"), (nil_get b "volatile"); by repeat apply map_set_sorted.
Qed.

(** ** The digest identifies what the manifest says *)
Lemma included_same b1 b2 : manifest_ok b1 → manifest_ok b2 → included b1 = included b2 → same_manifest b1 b2.
Proof.
  intros [J1 _ C1] [J2 _ C2] E. apply CheckManifest_shaped in C1 as [(l1 & I1) B1 V1], C2 as [(l2 & I2) B2 V2].
  assert (∀ k, map_get (included b1) k = map_get (included b2) k) as Hk by (by rewrite E). split.
  - intros f Hf. specialize (Hk f). rewrite !map_get_included in Hk. rewrite !(bool_decide_eq_true_2 _ Hf) in Hk. cbn [andb] in Hk.
    rewrite (bool_decide_eq_false_2 (f = "volatile")), (bool_decide_eq_false_2 (f = "base")), (bool_decide_eq_false_2 (f = "inputs")) in Hk
      by (intros ->; revert Hf; apply (bool_decide_unpack (_ ∉ included_scalars)); vm_compute; exact I).
    destruct (is_nil (nil_get b1 f)) eqn:E1, (is_nil (nil_get b2 f)) eqn:E2; cbn in Hk; try congruence. apply is_nil_spec in E1, E2. congruence.
  - specialize (Hk "base"). rewrite !map_get_included in Hk. cbn in Hk. pose proof (json_nil_get _ "base" J1) as Hb1. pose proof (json_nil_get _ "base" J2) as Hb2.
    destruct B1 as [E1|[m1 E1]], B2 as [E2|[m2 E2]]; rewrite E1, E2 in *; try done. injection Hk as Hk.
    apply dropNil_same; [by apply json_map_ordered..|done].
  - specialize (Hk "inputs"). rewrite !map_get_included in Hk. cbn in Hk. injection Hk as Hk. rewrite I1, I2 in Hk |- *. cbn in Hk |- *.
    pose proof (json_nil_get _ "inputs" J1) as Hl1. pose proof (json_nil_get _ "inputs" J2) as Hl2. rewrite I1 in Hl1. rewrite I2 in Hl2.
    eapply same_of_sorted; [|exact Hk]. intros x y Hx Hy. apply digest_input_same; [by apply (json_list_inv l1)|by apply (json_list_inv l2)].
  - specialize (Hk "volatile"). rewrite !map_get_included in Hk. cbn in Hk.
    pose proof (json_nil_get _ "volatile" J1) as Hl1. pose proof (json_nil_get _ "volatile" J2) as Hl2.
    destruct V1 as [E1|(v1 & E1 & O1)], V2 as [E2|(v2 & E2 & O2)]; rewrite E1, E2 in *; try done. cbn in Hk. injection Hk as Hk. cbn [same_lists].
    unfold sortedBy in Hk. rewrite !omap_snapshots in Hk by (by rewrite sort_by_perm).
    eapply same_of_sorted; [|exact Hk]. intros x y Hx Hy. apply snapshot_same; [by apply (json_list_inv v1)|by apply (json_list_inv v2)].
Qed.

(** The items of two related lists, with what is known of their members. *)
Lemma same_list_in {A} (R : A → A → Prop) l1 l2 : same_list R l1 l2 → same_list (λ x y, x ∈ l1 ∧ y ∈ l2 ∧ R x y) l1 l2.
Proof.
  intros (l & Hp & Hl). exists l. split; [done|]. apply Forall2_same_length_lookup. split; [by apply Forall2_length in Hl|]. intros i x y Hx Hy. split_and!.
  - rewrite Hp. by apply list_elem_of_lookup_2 in Hx.
  - by apply list_elem_of_lookup_2 in Hy.
  - by eapply Forall2_lookup_lr.
Qed.

Lemma same_included b1 b2 : manifest_ok b1 → manifest_ok b2 → distinct_names b1 → same_manifest b1 b2 → included b1 = included b2.
Proof.
  intros [J1 _ C1] [J2 _ C2] [Di Da Dv] [Hs Hb Hi Hv]. apply CheckManifest_shaped in C1 as [(l1 & I1) B1 V1], C2 as [(l2 & I2) B2 V2].
  apply ordered_ext; [apply ordered_included..|]. intros k. rewrite !map_get_included. repeat case_bool_decide; try done.
  - pose proof (json_nil_get _ "volatile" J1) as Hl1. pose proof (json_nil_get _ "volatile" J2) as Hl2.
    destruct V1 as [E1|(v1 & E1 & O1)], V2 as [E2|(v2 & E2 & O2)]; rewrite E1, E2 in *; try done. cbn [volatile_part]. do 2 f_equal. unfold sortedBy.
    rewrite !omap_snapshots by (by rewrite sort_by_perm). apply same_list_in in Hv.
    eapply sort_same_map; [| |done|exact Hv]; intros x y (Hx & Hy & Hxy).
    + eapply sort_key_same; [|exact Hxy]. intros m1 m2 f Hm Hf. apply Hm. intros ->. revert Hf. apply (bool_decide_unpack (_ ∉ _)). vm_compute. exact I.
    + apply snapshot_same; [by apply (json_list_inv v1)|by apply (json_list_inv v2)|done].
  - pose proof (json_nil_get _ "base" J1) as Hb1. pose proof (json_nil_get _ "base" J2) as Hb2.
    destruct B1 as [E1|[m1 E1]], B2 as [E2|[m2 E2]]; rewrite E1, E2 in *; try done. do 2 f_equal. apply dropNil_same; [by apply json_map_ordered..|done].
  - do 2 f_equal. pose proof (json_nil_get _ "inputs" J1) as Hl1. pose proof (json_nil_get _ "inputs" J2) as Hl2. rewrite I1, I2 in *. cbn in Hi, Di, Da.
    apply same_list_in in Hi. eapply sort_same_map; [| |done|exact Hi]; intros x y (Hx & Hy & Hxy).
    + eapply sort_key_same; [|exact Hxy]. intros m1 m2 f [Hm _] Hf. apply Hm. intros ->. revert Hf. apply (bool_decide_unpack (_ ∉ _)). vm_compute. exact I.
    + rewrite Forall_forall in Da. apply same_digest_input; [by apply (json_list_inv l1)|by apply (json_list_inv l2)|by apply Da|done].
  - by rewrite Hs.
Qed.

(** ** The digested members as a JSON value *)
Lemma json_map_intro m : (∀ k v, (k, v) ∈ m → utf8 (bytes_of_string k) ∧ json_ok v) → ordered m → json_ok (VMap m).
Proof. intros Hm Ho. constructor; [|done]. apply Forall_forall. intros [k v]. apply Hm. Qed.

Lemma json_map_in m k v : json_ok (VMap m) → (k, v) ∈ m → utf8 (bytes_of_string k) ∧ json_ok v.
Proof. inversion 1 as [| | | | |? Hm Ho]; subst. rewrite Forall_forall in Hm. apply (Hm (k, v)). Qed.

Lemma json_filter (P : string * value → Prop) `{∀ x, Decision (P x)} m : json_ok (VMap m) → json_ok (VMap (filter P m)).
Proof.
  intros Hm. apply json_map_intro; [|by apply ordered_filter, json_map_ordered]. intros k v [_ Hin]%list_elem_of_filter. by apply (json_map_in m).
Qed.

Lemma json_map_set m k v : json_ok (VMap m) → utf8 (bytes_of_string k) → json_ok v → json_ok (VMap (map_set m k v)).
Proof. inversion 1 as [| | | | |? Hm Ho]; subst. intros Hk Hv. constructor; [by apply map_set_forall|by apply map_set_sorted]. Qed.

Lemma json_list_map (f : value → value) l : (∀ v, json_ok v → json_ok (f v)) → Forall json_ok l → Forall json_ok (f <$> l).
Proof. intros Hf Hl. apply Forall_fmap. eapply Forall_impl; [exact Hl|]. apply Hf. Qed.

Lemma json_drop_item v : json_ok v → json_ok (drop_item v).
Proof. destruct v; try done. apply (json_filter _ fields). Qed.

Lemma Forall_sortedBy (P : value → Prop) l names : Forall P l → Forall P (sortedBy l names).
Proof. unfold sortedBy. by rewrite sort_by_perm. Qed.

Lemma json_digest_input v : json_ok v → json_ok (digest_input v).
Proof.
  destruct v as [| | | | | | |m]; try done. intros Hm%(json_filter (λ kv, is_nil kv.2 = false)). cbn. fold (dropNil m) in Hm.
  destruct (map_get (dropNil m) "artifacts") as [[| | | | | |l|]|] eqn:E; try done. apply json_map_set; [done|by apply plain_ok|]. constructor.
  apply json_list_map, Forall_sortedBy; [apply json_drop_item|]. apply map_get_in, (json_map_in _ _ _ Hm) in E as [_ E]. by inversion E.
Qed.

Lemma json_snapshot v : json_ok v → json_ok (snapshot_of v).
Proof. destruct v; try done. cbn. intros H. by apply (json_filter (λ kv, kv.1 ≠ "captured_at")), (json_filter (λ kv, is_nil kv.2 = false)). Qed.

(** ** Depth *)
Lemma height_map m n : (∀ k v, (k, v) ∈ m → (height v ≤ n)%nat) → (height (VMap m) ≤ S n)%nat.
Proof.
  intros H. cbn [height]. apply le_n_S. induction m as [|[k v] m IH]; csimpl; [lia|]. specialize (IH (λ k' v' H', H k' v' (list_elem_of_further _ _ _ H'))).
  specialize (H k v (list_elem_of_here _ _)). lia.
Qed.

Lemma height_list l n : (∀ v, v ∈ l → (height v ≤ n)%nat) → (height (VList l) ≤ S n)%nat.
Proof.
  intros H. cbn [height]. apply le_n_S. induction l as [|v l IH]; csimpl; [lia|]. specialize (IH (λ v' H', H v' (list_elem_of_further _ _ _ H'))).
  specialize (H v (list_elem_of_here _ _)). lia.
Qed.

Lemma height_field m k v : (k, v) ∈ m → (S (height v) ≤ height (VMap m))%nat.
Proof.
  cbn [height]. intros H. apply le_n_S. induction m as [|kv m IH]; [by apply elem_of_nil in H|]. apply elem_of_cons in H as [<-|H]; csimpl; [lia|].
  apply IH in H. lia.
Qed.

Lemma height_item l v : v ∈ l → (S (height v) ≤ height (VList l))%nat.
Proof.
  cbn [height]. intros H. apply le_n_S. induction l as [|w l IH]; [by apply elem_of_nil in H|]. apply elem_of_cons in H as [<-|H]; csimpl; [lia|].
  apply IH in H. lia.
Qed.

Lemma height_positive m : (S (pred (height (VMap m))) = height (VMap m))%nat.
Proof. done. Qed.

Lemma height_filter (P : string * value → Prop) `{∀ x, Decision (P x)} m : (height (VMap (filter P m)) ≤ height (VMap m))%nat.
Proof.
  rewrite <- (height_positive m). apply height_map. intros k v [_ Hin]%list_elem_of_filter. apply height_field in Hin. lia.
Qed.

Lemma height_dropNil m : (height (VMap (dropNil m)) ≤ height (VMap m))%nat.
Proof. apply height_filter. Qed.

Lemma height_drop_item v : (height (drop_item v) ≤ height v)%nat.
Proof. destruct v; try done. apply height_filter. Qed.

(** A list mapped and sorted is no deeper. *)
Lemma height_sorted (f : value → value) l names : (∀ v, (height (f v) ≤ height v)%nat) → (height (VList (f <$> sortedBy l names)) ≤ height (VList l))%nat.
Proof.
  intros Hf. change (height (VList l)) with (S (pred (height (VList l)))). apply height_list. intros v (w & -> & Hw)%list_elem_of_fmap. unfold sortedBy in Hw. rewrite elem_of_sort_by in Hw.
  specialize (Hf w). apply height_item in Hw. lia.
Qed.

Lemma height_set m k v n : (height (VMap m) ≤ S n)%nat → (height v ≤ n)%nat → (height (VMap (map_set m k v)) ≤ S n)%nat.
Proof.
  intros Hm Hv. apply height_map. intros k' v' Hin.
  assert (Forall (λ kv, (height (snd kv) ≤ n)%nat) (map_set m k v)) as H; [|rewrite Forall_forall in H; by apply (H (k', v'))].
  apply map_set_forall; [|done]. apply Forall_forall. intros [k0 v0] H0. apply height_field in H0. cbn in *. lia.
Qed.

Lemma height_digest_input v : (height (digest_input v) ≤ height v)%nat.
Proof.
  destruct v as [| | | | | | |m]; try done. cbn [digest_input object_or]. pose proof (height_dropNil m) as Hd.
  destruct (map_get (dropNil m) "artifacts") as [[| | | | | |l|]|] eqn:E; try done. apply map_get_in, height_field in E.
  rewrite <- (height_positive m). apply height_set; [done|]. pose proof (height_sorted drop_item l ["uri"] height_drop_item). lia.
Qed.

Lemma height_snapshot v : (height (snapshot_of v) ≤ height v)%nat.
Proof. destruct v; try done. etrans; apply height_filter. Qed.

(** ** The digested text *)
Definition part_of (b : fields) (v : value) : Prop := json_ok v ∧ (S (height v) ≤ height (VMap b))%nat.

Lemma nil_get_part b k : json_ok (VMap b) → part_of b (nil_get b k).
Proof.
  intros Hb. split; [by apply json_nil_get|]. unfold nil_get. destruct (map_get b k) as [v|] eqn:E; [by apply map_get_in, height_field in E|cbn [default height]; lia].
Qed.

Lemma list_part b (f : value → value) v names : (∀ v, json_ok v → json_ok (f v)) → (∀ v, (height (f v) ≤ height v)%nat) → part_of b v →
  (∃ l, v = VList l) → part_of b (VList (f <$> sortedBy (as_list v) names)).
Proof.
  intros Hj Hh [Hv Hb] [l ->]. split.
  - constructor. apply json_list_map, Forall_sortedBy; [done|]. by inversion Hv.
  - pose proof (height_sorted f l names Hh). cbn [as_list]. lia.
Qed.

Lemma included_part b k v : manifest_ok b → map_get (included b) k = Some v → utf8 (bytes_of_string k) ∧ part_of b v.
Proof.
  intros [J _ C]. apply CheckManifest_shaped in C as [Is B V]. rewrite map_get_included.
  pose proof (nil_get_part b "inputs" J) as Pi. pose proof (nil_get_part b "base" J) as Pb. pose proof (nil_get_part b "volatile" J) as Pv.
  destruct (bool_decide_reflect (k = "volatile")) as [->|_]; [|destruct (bool_decide_reflect (k = "base")) as [->|_]; [|destruct (bool_decide_reflect (k = "inputs")) as [->|_]]].
  - intros E. split; [by apply plain_ok|]. destruct V as [V|(l & V & O)]; rewrite V in *; [done|]. injection E as <-. unfold sortedBy. rewrite omap_snapshots by (by rewrite sort_by_perm).
    apply (list_part b snapshot_of (VList l) ["source"; "snapshot_uri"]); [apply json_snapshot|apply height_snapshot|done|eauto].
  - intros E. split; [by apply plain_ok|]. destruct B as [B|(m & B)]; rewrite B in *; [done|]. injection E as <-. destruct Pb as [Hj Hh].
    split; [by apply json_filter|]. pose proof (height_dropNil m). lia.
  - intros [= <-]. split; [by apply plain_ok|]. apply list_part; [apply json_digest_input|apply height_digest_input|done|done].
  - destruct (bool_decide_reflect (k ∈ included_scalars)) as [Hk|]; [|done]. destruct (is_nil _); [done|]. intros [= <-]. split; [|by apply nil_get_part].
    apply plain_ok. revert k Hk. apply Forall_forall. refine (bool_decide_unpack _ _). vm_compute. exact I.
Qed.

Lemma included_json b : manifest_ok b → json_ok (VMap (included b)) ∧ (height (VMap (included b)) ≤ MaxDepth)%nat.
Proof.
  intros Hb. pose proof (ordered_included b) as Ho. split.
  - apply json_map_intro; [|done]. intros k v Hin%(map_get_ordered _ _ _ Ho). apply included_part in Hin as (H1 & H2 & _); done.
  - etrans; [|apply (mo_height _ Hb)]. rewrite <- (height_positive b). apply height_map. intros k v Hin%(map_get_ordered _ _ _ Ho).
    apply included_part in Hin as (_ & _ & H); [lia|done].
Qed.

Definition digested_text (b : fields) : string := canonical (VMap (included b)).

Lemma digested_text_same b1 b2 : manifest_ok b1 → manifest_ok b2 → digested_text b1 = digested_text b2 → included b1 = included b2.
Proof.
  unfold digested_text. intros H1 H2 E. apply included_json in H1 as [J1 D1], H2 as [J2 D2].
  apply (LoadsBytes_canonical _ J1) in D1. apply (LoadsBytes_canonical _ J2) in D2. rewrite E, D2 in D1. by injection D1.
Qed.

(** The digest of a manifest identifies exactly what it says. Two accepted manifests that record the same consumption, their inputs, artifacts and
    snapshots in any order, their absent members omitted or null, and whatever rule version, plan revision, epoch, author and times they
    carry, have one digest; and two with one digest record the same consumption, unless SHA-256 maps two different texts to it. *)
Theorem ManifestDigest_exact b1 b2 : manifest_ok b1 → manifest_ok b2 → distinct_names b1 →
  (same_manifest b1 b2 → ManifestDigest b1 = ManifestDigest b2) ∧
  (ManifestDigest b1 = ManifestDigest b2 → same_manifest b1 b2 ∨
    digested_text b1 ≠ digested_text b2 ∧ sha256_hex (digested_text b1) = sha256_hex (digested_text b2)).
Proof.
  intros H1 H2 Hd. split; [intros Hs; unfold ManifestDigest; by rewrite (same_included b1 b2)|]. intros E.
  destruct (decide (digested_text b1 = digested_text b2)) as [Et|Et]; [left|by right]. by apply included_same, digested_text_same.
Qed.

(** ** The table *)
Definition row_ok (r : ManifestRow) : Prop := ∃ b, manifest_ok b ∧ ManifestDigest b = mf_digest r ∧ r = manifest_row b (mf_digest r).

Record manifests_ok (t : Manifests) : Prop := mkManifestsOk {
  ts_keys : NoDup (mf_digest <$> t);
  ts_rows : Forall row_ok t
}.

(** The document has no fraction and no integer past int64. *)
Definition whole_numbers (raw : string) : Prop := match parse raw with Ok v => integral v | Err _ => True end.

Definition sealed (body : fields) : fields := map_set body "manifest_digest" (VString (ManifestDigest body)).

Lemma nil_get_sealed body f : f ≠ "manifest_digest" → nil_get (sealed body) f = nil_get body f.
Proof. intros Hf. unfold sealed. by rewrite nil_get_set, bool_decide_eq_false_2 by congruence. Qed.

Lemma included_sealed body : included (sealed body) = included body.
Proof. unfold included, included_scalars. cbn [foldl]. by rewrite !nil_get_sealed by done. Qed.

Lemma CheckManifest_sealed body : CheckManifest (sealed body) = CheckManifest body.
Proof. unfold CheckManifest, need_text, need_digest, need_whole. csimpl. by rewrite !nil_get_sealed by done. Qed.

Lemma sealed_ok body : manifest_ok body → manifest_ok (sealed body).
Proof.
  intros [J D C]. split; [|by etrans; [apply (height_set _ _ _ (pred (height (VMap body)))); [by rewrite height_positive|cbn [height]; lia]|rewrite height_positive]|by rewrite CheckManifest_sealed].
  apply json_map_set; [done|by apply plain_ok|]. constructor. apply match_digest_utf8, sha256_hex_shape.
Qed.

Lemma PutManifest_cases t raw t' r : PutManifest t raw = (t', r) →
  t' = t ∧ (∃ e, r = Err e) ∨
  ∃ body, parse raw = Ok (VMap body) ∧ CheckManifest body = [] ∧ wrong_claim body (ManifestDigest body) = None ∧ r = Ok (ManifestDigest body) ∧
    t' = insert_or_ignore t (manifest_row (sealed body) (ManifestDigest body)).
Proof.
  unfold PutManifest. intros H. destruct (parse raw) as [[| | | | | | |body]|e]; try (left; simplify_eq; eauto; fail).
  destruct (CheckManifest body) eqn:C; [|left; simplify_eq; eauto]. destruct (wrong_claim _ _) eqn:W; [left; simplify_eq; eauto|].
  right. exists body. injection H as <- <-. done.
Qed.

Lemma parsed_ok raw body : whole_numbers raw → parse raw = Ok (VMap body) → CheckManifest body = [] → manifest_ok body.
Proof.
  unfold whole_numbers. intros Hw E C. rewrite E in Hw. apply Loads_loaded_height in E as [Hl Hh]. split; [by apply loaded_json_ok|done|done].
Qed.

Lemma whole_quiet b path key : need_whole b path key 0 = [] → (0 ≤ as_int (nil_get b key))%Z.
Proof. unfold need_whole. destruct (nil_get b key); try done. cbn. case_match; [done|lia]. Qed.

Lemma manifest_epoch b : CheckManifest b = [] → (0 ≤ as_int (nil_get b "coordinator_epoch"))%Z.
Proof. unfold CheckManifest. intros H. repeat (apply app_nil in H as [? H]). by eapply whole_quiet. Qed.

Lemma find_row t d : (∃ r, List.find (λ r, bool_decide (mf_digest r = d)) t = Some r ∧ r ∈ t ∧ mf_digest r = d) ∨
  List.find (λ r, bool_decide (mf_digest r = d)) t = None ∧ d ∉ (mf_digest <$> t).
Proof.
  induction t as [|r t IH]; [right; split; [done|apply not_elem_of_nil]|]. cbn [List.find]. case_bool_decide as E.
  - left. exists r. split_and!; [done|by left|done].
  - destruct IH as [(r' & H1 & H2 & H3)|[H1 H2]]; [left; exists r'; split_and!; [done|by right|done]|right]. split; [done|]. csimpl. rewrite not_elem_of_cons. done.
Qed.

Lemma read_row t b d : manifest_ok b → ManifestDigest b = d → List.find (λ r, bool_decide (mf_digest r = d)) t = Some (manifest_row b d) →
  ReadManifestOn t d = Ok (Some b).
Proof.
  intros Hb Hd Hf. unfold ReadManifestOn. rewrite Hf. cbn [mf_body manifest_row]. unfold parse, Loads. rewrite LoadsBytes_canonical by apply Hb.
  by rewrite bool_decide_eq_true_2.
Qed.

(** In a well-formed table a digest is read exactly when it is a key. *)
Lemma read_cases t d : manifests_ok t →
  (∃ b, ReadManifestOn t d = Ok (Some b) ∧ manifest_ok b ∧ ManifestDigest b = d) ∨ ReadManifestOn t d = Ok None ∧ d ∉ (mf_digest <$> t).
Proof.
  intros [_ Hr]. rewrite Forall_forall in Hr. destruct (find_row t d) as [(r & Hf & Hin & <-)|[Hf Hn]].
  - destruct (Hr r Hin) as (b & Hb & Hd & Er). left. exists b. split_and!; [|done|done]. apply read_row; [done..|]. rewrite Hf. by f_equal.
  - right. split; [|done]. unfold ReadManifestOn. by rewrite Hf.
Qed.

Lemma insert_new t r d : d ∉ (mf_digest <$> t) → List.find (λ x, bool_decide (mf_digest x = d)) (t ++ [r])%list =
  if bool_decide (mf_digest r = d) then Some r else None.
Proof.
  induction t as [|x t IH]; csimpl; [done|]. rewrite not_elem_of_cons. intros [Hx Ht]. rewrite bool_decide_eq_false_2 by congruence. auto.
Qed.

Lemma find_app_old t r d x : List.find (λ x, bool_decide (mf_digest x = d)) t = Some x → List.find (λ x, bool_decide (mf_digest x = d)) (t ++ [r])%list = Some x.
Proof. induction t as [|y t IH]; csimpl; [done|]. case_bool_decide; auto. Qed.

(** What INSERT OR IGNORE does with a row of a checked manifest. *)
Lemma insert_cases t r : (0 ≤ mf_epoch r)%Z →
  insert_or_ignore t r = t ∧ mf_digest r ∈ (mf_digest <$> t) ∨ insert_or_ignore t r = (t ++ [r])%list ∧ mf_digest r ∉ (mf_digest <$> t).
Proof.
  intros He. unfold insert_or_ignore. destruct (Z.ltb_spec (mf_epoch r) 0); [lia|]. cbn [orb].
  destruct (existsb (λ x, bool_decide (mf_digest x = mf_digest r)) t) eqn:E.
  - left. split; [done|]. apply existsb_exists in E as (x & Hx & Ex%bool_decide_eq_true). rewrite <- Ex. apply list_elem_of_fmap_2. by apply list_elem_of_In.
  - right. split; [done|]. intros (x & Ex & Hx)%list_elem_of_fmap. apply not_true_iff_false in E. apply E, existsb_exists. exists x.
    split; [by apply list_elem_of_In|by apply bool_decide_eq_true].
Qed.

Lemma insert_ok t r : manifests_ok t → row_ok r → (0 ≤ mf_epoch r)%Z → manifests_ok (insert_or_ignore t r).
Proof.
  intros [Hk Hr] H He. destruct (insert_cases t r He) as [[-> _]|[-> Hn]]; [done|]. split.
  - rewrite fmap_app. apply NoDup_app. split_and!; [done| |apply NoDup_singleton]. intros d Hd Hd'. csimpl in Hd'. apply list_elem_of_singleton in Hd' as ->. done.
  - apply Forall_app. split; [done|by apply Forall_singleton].
Qed.

Lemma insert_keeps t r d x : List.find (λ x, bool_decide (mf_digest x = d)) t = Some x →
  List.find (λ x, bool_decide (mf_digest x = d)) (insert_or_ignore t r) = Some x.
Proof. intros H. unfold insert_or_ignore. destruct (_ || _); [done|]. by apply find_app_old. Qed.

Lemma insert_again t r : (0 ≤ mf_epoch r)%Z → insert_or_ignore (insert_or_ignore t r) r = insert_or_ignore t r.
Proof.
  intros He. destruct (insert_cases (insert_or_ignore t r) r He) as [[-> _]|[_ Hn]]; [done|]. destruct Hn.
  destruct (insert_cases t r He) as [[-> H]|[-> _]]; [done|]. rewrite fmap_app. apply elem_of_app. right. by left.
Qed.

Lemma sealed_row_ok body : manifest_ok body → row_ok (manifest_row (sealed body) (ManifestDigest body)).
Proof. intros H. exists (sealed body). split_and!; [by apply sealed_ok| |done]. unfold ManifestDigest. by rewrite included_sealed. Qed.

Lemma sealed_epoch body : CheckManifest body = [] → (0 ≤ mf_epoch (manifest_row (sealed body) (ManifestDigest body)))%Z.
Proof. intros H. cbn [mf_epoch manifest_row]. apply manifest_epoch. by rewrite CheckManifest_sealed. Qed.

(** The table of manifests stays well formed under every write, whatever document it is given: one row per digest, and every row's body
    is an accepted manifest that digests to its key; a refused document changes nothing. *)
Theorem PutManifest_invariant t raw : manifests_ok t → whole_numbers raw →
  manifests_ok (PutManifest t raw).1 ∧ (∀ e, (PutManifest t raw).2 = Err e → (PutManifest t raw).1 = t) ∧
  (∀ d, ∃ o, ReadManifestOn (PutManifest t raw).1 d = Ok o).
Proof.
  intros Ht Hw. destruct (PutManifest t raw) as [t' r] eqn:E. cbn. assert (manifests_ok t') as Ht'.
  { apply PutManifest_cases in E as [[-> _]|(body & Hp & C & _ & _ & ->)]; [done|].
    apply insert_ok; [done|by apply sealed_row_ok, (parsed_ok raw)|by apply sealed_epoch]. }
  split_and!; [done| |].
  - intros e ->. apply PutManifest_cases in E as [[-> _]|(body & _ & _ & _ & [=] & _)]. done.
  - intros d. destruct (read_cases t' d Ht') as [(b & -> & _)|[-> _]]; by eexists.
Qed.

(** A stored manifest reads back. A manifest [PutManifest] accepts is read under the digest it returns, as an accepted body of that
    digest, which is the document itself with its digest filled in when the digest was new; nothing stored before changes, and writing the
    document again changes nothing and answers the same. *)
Theorem PutManifest_reads t raw t' d : manifests_ok t → whole_numbers raw → PutManifest t raw = (t', Ok d) →
  (∃ b, ReadManifestOn t' d = Ok (Some b) ∧ manifest_ok b ∧ ManifestDigest b = d ∧
     (ReadManifestOn t d = Ok None → ∃ body, parse raw = Ok (VMap body) ∧ b = map_set body "manifest_digest" (VString d))) ∧
  (∀ d' b, ReadManifestOn t d' = Ok (Some b) → ReadManifestOn t' d' = Ok (Some b)) ∧
  PutManifest t' raw = (t', Ok d).
Proof.
  intros Ht Hw E. pose proof E as [[_ [e [=]]]|(body & Hp & C & W & Hd & Ht')]%PutManifest_cases. injection Hd as ->.
  pose proof (parsed_ok _ _ Hw Hp C) as Hb. pose proof (sealed_epoch _ C) as He. set (row := manifest_row (sealed body) (ManifestDigest body)) in *.
  split_and!.
  - destruct (insert_cases t row He) as [[Hold Hin]|[Hnew Hn]].
    + rewrite Hold in Ht'. subst t'. destruct (read_cases t (ManifestDigest body) Ht) as [(b & Hread & Hok & Hd)|[_ Hn]]; [|by destruct Hn].
      exists b. split_and!; [done..|]. by rewrite Hread.
    + exists (sealed body). split_and!; [|by apply sealed_ok|unfold ManifestDigest; by rewrite included_sealed|by exists body].
      apply read_row; [by apply sealed_ok|unfold ManifestDigest; by rewrite included_sealed|]. rewrite Ht', Hnew, insert_new by done.
      by rewrite bool_decide_eq_true_2.
  - intros d' b Hread. unfold ReadManifestOn in *. destruct (List.find _ t) as [x|] eqn:Hx; [|done]. rewrite Ht'. by rewrite (insert_keeps _ _ _ _ Hx).
  - unfold PutManifest. rewrite Hp, C, W. fold (sealed body). fold row. rewrite Ht'. by rewrite insert_again.
Qed.

(** ** Witnesses *)
Module ManifestExample.
Definition hex64 : string := sha256_hex "slice".

Definition artifact (uri : string) : value := VMap (map_of [("uri", VString uri); ("scope", VString "repo"); ("sha256", VString hex64); ("bytes", VInt 3)]).

Definition first_input : value := VMap (map_of
  [("edge_id", VString "e1"); ("from_node_id", VString "n1"); ("kind", VString EdgeIntegrated); ("acceptance_id", VString "a1");
   ("head_sha", VString "h1"); ("landed_sha", VString "l1"); ("artifacts", VList [artifact "u2"; artifact "u1"])]).

Definition second_input (landed : list (string * value)) : value := VMap (map_of
  ([("edge_id", VString "e2"); ("from_node_id", VString "n2"); ("kind", VString EdgeArtifactVerified); ("surface", VString InputSurfaceAgent);
   ("acceptance_id", VString "a2"); ("execution_id", VString "x2")] ++ landed)%list).

Definition body (revision : Z) (inputs : list value) : fields := map_of
  [("schema", VString SchemaManifest); ("node_id", VString "n3"); ("issue_key", VString "CRW-3"); ("created_by_task_id", VString "t");
   ("created_at", VString "now"); ("node_slice_digest", VString hex64); ("criteria_set_digest", VString hex64); ("plan_revision_no", VInt revision);
   ("coordinator_epoch", VInt 1); ("rule_version", VMap (map_of [("rules", VInt 1)])); ("inputs", VList inputs)].

Definition body1 : fields := body 4 [first_input; second_input []].
Definition body2 : fields := body 9 [second_input [("note", VNull)]; first_input].
Definition raw1 : string := canonical (VMap body1).
Definition digest1 : string := ManifestDigest body1.
Definition table1 : Manifests := (PutManifest [] raw1).1.

Lemma empty_table : manifests_ok [].
Proof. split; constructor. Qed.

Lemma raw1_whole : whole_numbers raw1.
Proof. unfold whole_numbers. assert (parse raw1 = Ok (VMap body1)) as -> by (vm_compute; reflexivity). repeat constructor. Qed.
End ManifestExample.

Lemma ManifestDigest_exact_witness : ManifestDigest ManifestExample.body1 = ManifestDigest ManifestExample.body2.
Proof.
  assert (∀ n b, b = ManifestExample.body1 ∨ b = ManifestExample.body2 → parse (canonical (VMap b)) = Ok n → n = VMap b) as Hp
    by (intros n b [->| ->]; vm_compute; congruence).
  assert (∀ b, b = ManifestExample.body1 ∨ b = ManifestExample.body2 → manifest_ok b) as Hok.
  { intros b Hb. apply (parsed_ok (canonical (VMap b))).
    - unfold whole_numbers. destruct (parse _) as [n|] eqn:E; [|done]. rewrite (Hp n b Hb E). destruct Hb as [->| ->]; repeat constructor.
    - destruct Hb as [->| ->]; vm_compute; reflexivity.
    - destruct Hb as [->| ->]; vm_compute; reflexivity. }
  refine (proj1 (ManifestDigest_exact ManifestExample.body1 ManifestExample.body2 (Hok _ (or_introl eq_refl)) (Hok _ (or_intror eq_refl)) _) _).
  - split; [| |constructor].
    + refine (bool_decide_unpack _ _). vm_compute. exact I.
    + repeat constructor; refine (bool_decide_unpack _ _); vm_compute; exact I.
  - split; [|done| |done].
    + apply Forall_forall. repeat constructor.
    + exists [ManifestExample.second_input []; ManifestExample.first_input]. split; [constructor|]. repeat constructor.
      * intros k _. revert k. apply dropNil_same; [apply map_of_sorted..|vm_compute; reflexivity].
      * exists [ManifestExample.artifact "u2"; ManifestExample.artifact "u1"]. split; [done|]. repeat constructor.
Defined.

Lemma PutManifest_invariant_witness : ∃ o, ReadManifestOn (PutManifest [] ManifestExample.raw1).1 ManifestExample.digest1 = Ok o.
Proof. apply (PutManifest_invariant [] ManifestExample.raw1 ManifestExample.empty_table ManifestExample.raw1_whole). Defined.

Lemma PutManifest_reads_witness : PutManifest ManifestExample.table1 ManifestExample.raw1 = (ManifestExample.table1, Ok ManifestExample.digest1).
Proof.
  apply (PutManifest_reads [] ManifestExample.raw1 ManifestExample.table1 ManifestExample.digest1 ManifestExample.empty_table ManifestExample.raw1_whole).
  vm_compute. reflexivity.
Defined.
