(* ===== verification/DagRepo.v ===== *)
(** * DagRepo: plans in the relay store (internal/relay/dag/repo.go).

    A write is one store transaction: [Transaction] runs it on the tables and keeps the tables as they were when it fails. The clock's reading is
    an argument of [Put]. *)
From S2P Require Import Prelude GoLib Sha256 Json Loads DagModel DagLifecycle DagFold DagDecode DagStore.
Local Open Scope string_scope.

(** ** INSERT and UPDATE under the constraints of the zone *)
Definition with_plans (st : Store) (l : list PlanRow) : Store := mkStore l (Revisions st) (NodeRows st) (EdgeRows st) (Claims st) (Bindings st).
Definition with_revisions (st : Store) (l : list RevRow) : Store := mkStore (Plans st) l (NodeRows st) (EdgeRows st) (Claims st) (Bindings st).
Definition with_nodes (st : Store) (l : list NodeRow) : Store := mkStore (Plans st) (Revisions st) l (EdgeRows st) (Claims st) (Bindings st).
Definition with_edges (st : Store) (l : list EdgeTableRow) : Store := mkStore (Plans st) (Revisions st) (NodeRows st) l (Claims st) (Bindings st).

(** Require a constraint, or fail under its name. *)
Definition demand {A} (ok : bool) (name : string) (k : result StoreError A) : result StoreError A := if ok then k else Err (EConstraint name).

Definition has_plan (st : Store) (plan : string) : bool := existsb (λ r, bool_decide (pr_plan r = plan)) (Plans st).
Definition has_revision (st : Store) (plan : string) (no : Z) : bool := existsb (λ r, bool_decide (rr_plan r = plan ∧ rr_no r = no)) (Revisions st).

Definition insert_plan (st : Store) (row : PlanRow) : result StoreError Store :=
  demand (negb (has_plan st (pr_plan row))) "dag_plans.plan_id"
  (demand (negb (bool_decide (pr_project row = ""))) "project_key <> ''"
  (Ok (with_plans st (Plans st ++ [row])%list))).

(** The trigger dag_plan_revisions_parent is asked before the row is looked at; the guards of the keys (dag_plan_revisions_pk_guard and the like) stand aside when it fires and ask what the keys ask. *)
Definition insert_revision (st : Store) (row : RevRow) : result StoreError Store :=
  let plan := rr_plan row in
  demand (negb ((0 <? rr_parent row)%Z && negb (has_revision st plan (rr_parent row)))) "dag_plan_revisions_parent"
  (demand (has_plan st plan) "REFERENCES dag_plans"
  (demand (1 <=? rr_no row)%Z "revision_no >= 1"
  (demand (negb (bool_decide (rr_request row = ""))) "request_id <> ''"
  (demand (0 <=? rr_epoch row)%Z "coordinator_epoch >= 0"
  (demand (negb (has_revision st plan (rr_no row))) "PRIMARY KEY (plan_id, revision_no)"
  (demand (negb (existsb (λ r, bool_decide (rr_plan r = plan ∧ rr_request r = rr_request row)) (Revisions st))) "UNIQUE (plan_id, request_id)"
  (demand (negb (existsb (λ r, bool_decide (rr_plan r = plan ∧ rr_parent r = rr_parent row)) (Revisions st))) "UNIQUE (plan_id, parent_revision_no)"
  (demand (rr_parent row =? rr_no row - 1)%Z "parent_revision_no = revision_no - 1"
  (Ok (with_revisions st (Revisions st ++ [row])%list)))))))))).

Definition null_or_later (introduced : Z) (retired : option Z) : bool :=
  match retired with None => true | Some r => (introduced <? r)%Z end.

Definition insert_node (st : Store) (row : NodeRow) : result StoreError Store :=
  let plan := nr_plan row in
  demand (has_plan st plan) "REFERENCES dag_plans"
  (demand (bool_decide (nr_kind row ∈ nodeKinds)) "node_kind IN"
  (demand (negb (existsb (λ r, bool_decide (nr_plan r = plan ∧ nr_id r = nr_id row ∧ nr_introduced r = nr_introduced row)) (NodeRows st))) "PRIMARY KEY (plan_id, node_id, introduced_rev)"
  (demand (has_revision st plan (nr_introduced row)) "REFERENCES dag_plan_revisions"
  (demand (match nr_retired row with None => true | Some r => has_revision st plan r end) "REFERENCES dag_plan_revisions"
  (demand (null_or_later (nr_introduced row) (nr_retired row)) "retired_rev > introduced_rev"
  (demand (negb (bool_decide (nr_retired row = None) && existsb (λ r, bool_decide (nr_plan r = plan ∧ nr_id r = nr_id row ∧ nr_retired r = None)) (NodeRows st))) "dag_nodes_live"
  (Ok (with_nodes st (NodeRows st ++ [row])%list)))))))).

Definition not_null {A} (o : option A) : bool := match o with Some _ => true | None => false end.

Definition insert_edge (st : Store) (row : EdgeTableRow) : result StoreError Store :=
  let plan := et_plan row in
  demand (has_plan st plan) "REFERENCES dag_plans"
  (demand (bool_decide (et_kind row ∈ edgeKinds)) "kind IN"
  (demand (bool_decide (et_pins row = 0%Z ∨ et_pins row = 1%Z)) "pins_code_head IN (0, 1)"
  (demand (negb (existsb (λ r, bool_decide (et_plan r = plan ∧ et_id r = et_id row)) (EdgeRows st))) "PRIMARY KEY (plan_id, edge_id)"
  (demand (has_revision st plan (et_introduced row)) "REFERENCES dag_plan_revisions"
  (demand (match et_retired row with None => true | Some r => has_revision st plan r end) "REFERENCES dag_plan_revisions"
  (demand (null_or_later (et_introduced row) (et_retired row)) "retired_rev > introduced_rev"
  (demand (negb (bool_decide (et_from row = et_to row))) "from_node_id <> to_node_id"
  (demand (negb (bool_decide (et_kind row = EdgeIntegrated)) || (not_null (et_repository row) && not_null (et_base row))) "integrated"
  (demand (bool_decide (et_pins row = 0%Z) || (not_null (et_repository row) && not_null (et_base row))) "pins_code_head"
  (demand (negb (bool_decide (et_kind row = EdgeDecision)) ||
     (not_null (et_subject row) && not_null (et_digest row) && not_null (et_authority row) && negb (bool_decide (et_authority row = Some "[]")))) "decision"
  (Ok (with_edges st (EdgeRows st ++ [row])%list)))))))))))).

(** [UPDATE dag_nodes SET retired_rev = ? WHERE plan_id = ? AND node_id = ? AND introduced_rev = ? AND retired_rev IS NULL]: the rows, and how
    many changed. The key of the row and its revision are checked as for an INSERT. *)
Definition node_selected (plan : string) (n : NodeVersion) (r : NodeRow) : Prop :=
  nr_plan r = plan ∧ nr_id r = node_row_id n ∧ nr_introduced r = NVIntroducedRev n ∧ nr_retired r = None.
#[export] Instance node_selected_dec plan n r : Decision (node_selected plan n r).
Proof. unfold node_selected. apply _. Defined.

Definition set_node_retired (rev : Z) (r : NodeRow) : NodeRow :=
  mkNodeRow (nr_plan r) (nr_id r) (nr_introduced r) (Some rev) (nr_slice r) (nr_issue r) (nr_kind r) (nr_title r) (nr_criteria r) (nr_supersedes r).

(** The trigger dag_nodes_retire_only: whether an update of a row is let through. *)
Definition dag_nodes_retire_only (old new : NodeRow) : bool :=
  negb (not_null (nr_retired old) || negb (not_null (nr_retired new)) ||
    negb (bool_decide (nr_plan new = nr_plan old)) || negb (bool_decide (nr_id new = nr_id old)) || negb (bool_decide (nr_introduced new = nr_introduced old)) ||
    negb (bool_decide (nr_slice new = nr_slice old)) || negb (bool_decide (nr_issue new = nr_issue old)) || negb (bool_decide (nr_kind new = nr_kind old)) ||
    negb (bool_decide (nr_title new = nr_title old)) || negb (bool_decide (nr_criteria new = nr_criteria old)) || negb (bool_decide (nr_supersedes new = nr_supersedes old))).

Definition retire_node_rows (plan : string) (rev : Z) (n : NodeVersion) (st : Store) : result StoreError Store :=
  let selected := filter (node_selected plan n) (NodeRows st) in
  demand (forallb (λ r, dag_nodes_retire_only r (set_node_retired rev r)) selected) "dag_nodes_retire_only"
  (demand (bool_decide (selected = []) || has_revision st plan rev) "REFERENCES dag_plan_revisions"
  (demand (forallb (λ r, (nr_introduced r <? rev)%Z) selected) "retired_rev > introduced_rev"
  (if bool_decide (length selected = 1%nat) then
     Ok (with_nodes st ((λ r, if decide (node_selected plan n r) then set_node_retired rev r else r) <$> NodeRows st))
   else Err (ERows ("retiring node " +:+ node_row_id n +:+ " (introduced at revision " +:+ itoa (NVIntroducedRev n) +:+ ") changed " +:+
     itoa_nat (length selected) +:+ " rows (<nil>)"))))).

Definition edge_selected (plan : string) (e : EdgeRow) (r : EdgeTableRow) : Prop :=
  et_plan r = plan ∧ et_id r = edge_row_id e ∧ et_retired r = None.
#[export] Instance edge_selected_dec plan e r : Decision (edge_selected plan e r).
Proof. unfold edge_selected. apply _. Defined.

Definition set_edge_retired (rev : Z) (r : EdgeTableRow) : EdgeTableRow :=
  mkEdgeTableRow (et_plan r) (et_id r) (et_introduced r) (Some rev) (et_from r) (et_to r) (et_kind r) (et_repository r) (et_base r) (et_pins r)
    (et_subject r) (et_digest r) (et_authority r).

(** The trigger dag_edges_retire_only. *)
Definition dag_edges_retire_only (old new : EdgeTableRow) : bool :=
  negb (not_null (et_retired old) || negb (not_null (et_retired new)) ||
    negb (bool_decide (et_plan new = et_plan old)) || negb (bool_decide (et_id new = et_id old)) || negb (bool_decide (et_introduced new = et_introduced old)) ||
    negb (bool_decide (et_from new = et_from old)) || negb (bool_decide (et_to new = et_to old)) || negb (bool_decide (et_kind new = et_kind old)) ||
    negb (bool_decide (et_repository new = et_repository old)) || negb (bool_decide (et_base new = et_base old)) || negb (bool_decide (et_pins new = et_pins old)) ||
    negb (bool_decide (et_subject new = et_subject old)) || negb (bool_decide (et_digest new = et_digest old)) || negb (bool_decide (et_authority new = et_authority old))).

Definition retire_edge_rows (plan : string) (rev : Z) (e : EdgeRow) (st : Store) : result StoreError Store :=
  let selected := filter (edge_selected plan e) (EdgeRows st) in
  demand (forallb (λ r, dag_edges_retire_only r (set_edge_retired rev r)) selected) "dag_edges_retire_only"
  (demand (bool_decide (selected = []) || has_revision st plan rev) "REFERENCES dag_plan_revisions"
  (demand (forallb (λ r, (et_introduced r <? rev)%Z) selected) "retired_rev > introduced_rev"
  (if bool_decide (length selected = 1%nat) then
     Ok (with_edges st ((λ r, if decide (edge_selected plan e r) then set_edge_retired rev r else r) <$> EdgeRows st))
   else Err (ERows ("retiring edge " +:+ edge_row_id e +:+ " changed " +:+ itoa_nat (length selected) +:+ " rows (<nil>)"))))).

(** ** writeDiff *)
Definition nullable (s : string) : option string := if bool_decide (s = "") then None else Some s.
Definition authorityText (a : list string) : option string := if bool_decide (a = []) then None else Some (canonical (authorityList a)).

Definition node_table_row (plan : string) (n : NodeVersion) : NodeRow :=
  mkNodeRow plan (node_row_id n) (NVIntroducedRev n) None (NVSliceDigest n) (IssueKey (NVNode n)) (NKind (NVNode n)) (nullable (Title (NVNode n)))
    (CriteriaSetDigest (NVNode n)) (nullable (NVSupersedes n)).

Definition edge_table_row (plan : string) (e : EdgeRow) : EdgeTableRow :=
  let x := EREdge e in
  mkEdgeTableRow plan (EdgeID x) (ERIntroducedRev e) None (FromNodeID x) (ToNodeID x) (EKind x) (nullable (TargetRepository x)) (nullable (TargetBaseRef x))
    (if PinsCodeHead x then 1%Z else 0%Z) (nullable (DecisionSubject x)) (nullable (DecisionDigest x)) (authorityText (RequiredAuthority x)).

(** Run a statement per item, stopping at the first failure. *)
Fixpoint each {A} (f : A → Store → result StoreError Store) (l : list A) (st : Store) : result StoreError Store :=
  match l with
  | [] => Ok st
  | x :: l' => match f x st with Ok st' => each f l' st' | Err e => Err e end
  end.

Definition writeDiff (plan : string) (rev : Z) (d : Diff) (st : Store) : result StoreError Store :=
  match each (retire_node_rows plan rev) (RetireNodes d) st with
  | Err e => Err e
  | Ok st1 =>
    match each (retire_edge_rows plan rev) (RetireEdges d) st1 with
    | Err e => Err e
    | Ok st2 =>
      match each (λ n st, insert_node st (node_table_row plan n)) (InsertNodes d) st2 with
      | Err e => Err e
      | Ok st3 => each (λ e st, insert_edge st (edge_table_row plan e)) (InsertEdges d) st3
      end
    end
  end.

(** ** verifiedState *)
Definition verify_slice (s : Snapshot) (n : SnapNode) : option StoreError :=
  let incoming := filter (λ e, ToNodeID e = NodeID (SNNode n)) (SEEdge <$> SnapEdges s) in
  let got := SliceDigest (SNNode n) incoming in
  if bool_decide (got = SNSliceDigest n) then None
  else Some (corrupt ("node " +:+ NodeID (SNNode n) +:+ " of plan " +:+ SnapPlanID s +:+ " at revision " +:+ itoa (SnapRevision s) +:+ " digests to " +:+ got +:+
    ", but " +:+ SNSliceDigest n +:+ " was stored")).

(** The first node that does not digest to what was stored. *)
Definition verifySlices (s : Snapshot) : option StoreError := head (omap (verify_slice s) (SnapNodes s)).

Definition verifiedState (st : Store) (plan project : string) (head rev : Z) : result StoreError (State * Snapshot) :=
  match loadState st plan project head with
  | Err e => Err e
  | Ok s =>
    let snap := At s rev in
    match verifySlices snap with
    | Some e => Err e
    | None =>
      match queryEvents (filter (λ r, rr_no r = rev) (plan_revisions st plan)) with
      | Err e => Err e
      | Ok [ev] =>
        if bool_decide (EvStateDigest ev = SnapStateDigest snap) then Ok (s, snap)
        else Err (corrupt ("the rows of plan " +:+ plan +:+ " at revision " +:+ itoa rev +:+ " digest to " +:+ SnapStateDigest snap +:+
          ", but the revision recorded " +:+ EvStateDigest ev))
      | Ok _ => Err (corrupt ("plan " +:+ plan +:+ " has no revision row " +:+ itoa rev))
      end
    end
  end.

(** ** Put *)
Record Result : Type := mkResult {
  RSPlanID : string;
  RSProjectKey : string;
  RSRevisionNo : Z;
  RSParentRevisionNo : Z;
  RSRequestID : string;
  RSRequestDigest : string;
  RSStateDigest : string;
  RSCoordinatorEpoch : Z;
  RSAuthorTaskID : string;
  RSRecordedAt : string;
  RSReplayed : bool;
  RSNodeDigests : gmap string string
}.

Definition resultOf (ev : Event) (project : string) (snap : Snapshot) (replayed : bool) : Result :=
  mkResult (EvPlanID ev) project (EvRevisionNo ev) (EvParentRevisionNo ev) (EvRequestID ev) (EvRequestDigest ev) (EvStateDigest ev)
    (EvCoordinatorEpoch ev) (EvAuthorTaskID ev) (EvRecordedAt ev) replayed
    (foldl (λ m n, <[NodeID (SNNode n) := SNSliceDigest n]> m) ∅ (SnapNodes snap)).

(** A repeated request: the revision it produced, from rows that still agree with the log. *)
Definition put_again (st : Store) (rev : Revision) (digest : string) (existing : Event) : result StoreError Result :=
  let plan := RPlanID rev in
  if negb (bool_decide (EvRequestDigest existing = digest)) then
    Err (conflict ("request id " +:+ RRequestID rev +:+ " already produced revision " +:+ itoa (EvRevisionNo existing) +:+ " of plan " +:+ plan +:+
      " for a different request; a request id names one request"))
  else
    match loadHeader st plan with
    | None => Err (corrupt ("plan " +:+ plan +:+ " has revisions and no header"))
    | Some project =>
      match verifiedState st plan project (headRevision st plan) (EvRevisionNo existing) with
      | Err e => Err e
      | Ok (_, snap) => Ok (resultOf existing project snap true)
      end
    end.

(** The rows of a revision that folds: header of a first revision, log, fold. *)
Definition put_rows (st : Store) (rev : Revision) (digest now changes : string) (head : Z) (exists_ : bool) (next : State) (d : Diff) : result StoreError Store :=
  let plan := RPlanID rev in
  let snap := At next (SRevision next) in
  match (if exists_ then Ok st else insert_plan st (mkPlanRow plan (RProjectKey rev) (RAuthorTaskID rev) now)) with
  | Err e => Err e
  | Ok st1 =>
    match insert_revision st1 (mkRevRow plan (SRevision next) head (RRequestID rev) digest changes (SnapStateDigest snap) (RCoordinatorEpoch rev) (RAuthorTaskID rev) now) with
    | Err e => Err e
    | Ok st2 => writeDiff plan (SRevision next) d st2
    end
  end.

(** A new request: the state it is judged on, its fold, its rows. *)
Definition put_new (st : Store) (rev : Revision) (digest now : string) : result StoreError (Store * Result) :=
  let plan := RPlanID rev in
  let header := loadHeader st plan in
  let exists_ := not_null header in
  let project := default "" header in
  let head := headRevision st plan in
  if exists_ && (head =? 0)%Z then Err (corrupt ("plan " +:+ plan +:+ " has a header and no revision"))
  else if negb exists_ && (0 <? head)%Z then Err (corrupt ("plan " +:+ plan +:+ " has revisions and no header"))
  else if negb (RExpectedParent rev =? head)%Z then
    Err (conflict ("the request expects parent revision " +:+ itoa (RExpectedParent rev) +:+ ", but plan " +:+ plan +:+ " is at revision " +:+ itoa head))
  else
    match (if exists_ then match verifiedState st plan project head head with Ok (s, _) => Ok s | Err e => Err e end
           else Ok (mkState plan project head [] [] [])) with
    | Err e => Err e
    | Ok s =>
      match Apply s rev, ChangesJSON (RChanges rev) with
      | Some (next, d, []), Some changes =>
        match put_rows st rev digest now changes head exists_ next d with
        | Err e => Err e
        | Ok st' =>
          let snap := At next (SRevision next) in
          let ev := mkEvent plan (SRevision next) head (RRequestID rev) digest (RCoordinatorEpoch rev) (RAuthorTaskID rev) now (RChanges rev) (SnapStateDigest snap) in
          Ok (st', resultOf ev (if exists_ then SProjectKey s else RProjectKey rev) snap false)
        end
      | Some (_, _, (_ :: _) as vs), _ => Err (EDag (PlanRejected vs))
      | _, _ => Err EPanic
      end
    end.

(** The body of Put's transaction. *)
Definition put_body (st : Store) (rev : Revision) (digest now : string) : result StoreError (Store * Result) :=
  match CheckCoordinatorEpoch st (RPlanID rev) (RProjectKey rev) (RAuthorTaskID rev) (RCoordinatorEpoch rev) with
  | Some e => Err e
  | None =>
    match revisionByRequest st (RPlanID rev) (RRequestID rev) with
    | Err e => Err e
    | Ok (Some existing) => match put_again st rev digest existing with Ok r => Ok (st, r) | Err e => Err e end
    | Ok None => put_new st rev digest now
    end
  end.

(** [Store.Transaction]: the tables after the body, or as they were. *)
Definition Transaction {A} (st : Store) (body : Store → result StoreError (Store * A)) : Store * result StoreError A :=
  match body st with Ok (st', a) => (st', Ok a) | Err e => (st, Err e) end.

Definition Put (st : Store) (rev : Revision) (now : string) : Store * result StoreError Result :=
  match Checked rev with
  | None => (st, Err EPanic)
  | Some (Err e) => (st, Err (EDag e))
  | Some (Ok rev) =>
    match RequestDigest rev with
    | None => (st, Err EPanic)
    | Some digest => Transaction st (λ st, put_body st rev digest now)
    end
  end.

(** ** Reads *)
Definition SnapshotAt (st : Store) (plan : string) (rev : Z) : result StoreError (Snapshot * Z) :=
  match loadHeader st plan with
  | None => Err (notFound ("no plan " +:+ plan +:+ " is registered"))
  | Some project =>
    let head := headRevision st plan in
    if (head =? 0)%Z then Err (corrupt ("plan " +:+ plan +:+ " has a header and no revision"))
    else
      let rev := if (rev =? 0)%Z then head else rev in
      if (rev <? 1)%Z || (head <? rev)%Z then
        Err (notFound ("plan " +:+ plan +:+ " has no revision " +:+ itoa rev +:+ "; its revisions are 1 to " +:+ itoa head))
      else match verifiedState st plan project head rev with Err e => Err e | Ok (_, snap) => Ok (snap, head) end
  end.

Record Page : Type := mkPage {
  PGPlanID : string;
  PGAfter : Z;
  PGHead : Z;
  PGCursor : Z;
  PGEvents : list Event
}.

Definition MaxPage : Z := 1000.

Definition EventsAfter (st : Store) (plan : string) (after limit : Z) : result StoreError Page :=
  match loadHeader st plan with
  | None => Err (notFound ("no plan " +:+ plan +:+ " is registered"))
  | Some _ =>
    let head := headRevision st plan in
    if (after <? 0)%Z || (head <? after)%Z then
      Err (notFound ("plan " +:+ plan +:+ " has no revision " +:+ itoa after +:+ " to resume after; its revisions are 1 to " +:+ itoa head))
    else
      let limit := if (limit <? 1)%Z || (MaxPage <? limit)%Z then MaxPage else limit in
      match queryEvents (take (Z.to_nat limit) (by_number (filter (λ r, (after < rr_no r)%Z) (plan_revisions st plan)))) with
      | Err e => Err e
      | Ok events => Ok (mkPage plan after head (match last events with Some ev => EvRevisionNo ev | None => after end) events)
      end
  end.

(** The pages of VerifyLogOn, gathered; [fuel] bounds their number, and every page but the last holds an event. *)
Fixpoint all_events (fuel : nat) (st : Store) (plan : string) (after : Z) : result StoreError (list Event) :=
  match fuel with
  | O => Err (ERows "out of fuel")
  | S fuel' =>
    match EventsAfter st plan after MaxPage with
    | Err e => Err e
    | Ok page =>
      if bool_decide (PGEvents page = []) || (PGHead page <=? PGCursor page)%Z then Ok (PGEvents page)
      else match all_events fuel' st plan (PGCursor page) with Ok more => Ok (PGEvents page ++ more)%list | Err e => Err e end
    end
  end.

Fixpoint verify_loop (plan : string) (s : State) (events : list Event) : result StoreError State :=
  match events with
  | [] => Ok s
  | ev :: events' =>
    if negb (EvParentRevisionNo ev =? SRevision s)%Z || negb (EvRevisionNo ev =? SRevision s + 1)%Z then
      Err (corrupt ("revision " +:+ itoa (EvRevisionNo ev) +:+ " of plan " +:+ plan +:+ " does not follow revision " +:+ itoa (SRevision s)))
    else
      match applyChanges s (EvChanges ev) false with
      | None => Err EPanic
      | Some (next, _, (_ :: _) as vs) =>
        Err (EDag (Corrupt (Lit ("revision " +:+ itoa (EvRevisionNo ev) +:+ " of plan " +:+ plan +:+ " does not apply: ") :: refusal_detail vs)))
      | Some (next, _, []) =>
        let got := SnapStateDigest (At next (SRevision next)) in
        if bool_decide (got = EvStateDigest ev) then verify_loop plan next events'
        else Err (corrupt ("replaying revision " +:+ itoa (EvRevisionNo ev) +:+ " of plan " +:+ plan +:+ " gives state digest " +:+ got +:+
          "; the revision recorded " +:+ EvStateDigest ev))
      end
  end.

Definition version_key (n : NodeVersion) : string := node_row_id n +:+ "/" +:+ itoa (NVIntroducedRev n).

Definition same_edge (x y : EdgeRow) : bool :=
  bool_decide (canonical (edgeObject (EREdge x)) = canonical (edgeObject (EREdge y))) && bool_decide (ERIntroducedRev x = ERIntroducedRev y)
  && bool_decide (ERRetiredRev x = ERRetiredRev y).

Definition sameRows (a b : State) : bool :=
  bool_decide (length (SNodes a) = length (SNodes b)) && bool_decide (length (SEdges a) = length (SEdges b)) && sameLife (SLifecycle a) (SLifecycle b)
  && forallb (λ p, bool_decide (p.1 = p.2)) (zip (sort_by version_key (SNodes a)) (sort_by version_key (SNodes b)))
  && forallb (λ p, same_edge p.1 p.2) (zip (sort_by edge_row_id (SEdges a)) (sort_by edge_row_id (SEdges b))).

Definition VerifyLogOn (st : Store) (plan : string) : result StoreError unit :=
  match loadHeader st plan with
  | None => Err (notFound ("no plan " +:+ plan +:+ " is registered"))
  | Some project =>
    match all_events (S (length (Revisions st))) st plan 0 with
    | Err e => Err e
    | Ok events =>
      match verify_loop plan (mkState plan project 0 [] [] []) events with
      | Err e => Err e
      | Ok s =>
        let head := headRevision st plan in
        if negb (SRevision s =? head)%Z then
          Err (corrupt ("plan " +:+ plan +:+ " replays to revision " +:+ itoa (SRevision s) +:+ " but its head is " +:+ itoa head))
        else
          match loadState st plan project head with
          | Err e => Err e
          | Ok stored =>
            if sameRows s stored then Ok tt
            else Err (corrupt ("the node and edge rows of plan " +:+ plan +:+ " are not what replaying its log produces"))
          end
      end
    end
  end.

(** ** Preflight: the judgement before the store is opened for writing *)
Definition isStaleEpoch (e : StoreError) : bool :=
  match e with ERefused reason _ => bool_decide (reason = RefusalStaleCoordinatorEpoch) | _ => false end.

(** What [errors.As] takes for a refusal of the relay: a RefusedError, or a PlanRejected, which unwraps to one. *)
Definition is_refusal (e : StoreError) : bool :=
  match e with ERefused _ _ | EDag (PlanRejected _) => true | _ => false end.

Definition fold_refusal (s : State) (rev : Revision) : option StoreError :=
  match Apply s rev with
  | None => Some EPanic
  | Some (_, _, []) => None
  | Some (_, _, vs) => Some (EDag (PlanRejected vs))
  end.

Definition judgeAgainstStore (st : Store) (rev : Revision) : option StoreError :=
  let plan := RPlanID rev in
  match CheckCoordinatorEpoch st plan (RProjectKey rev) (RAuthorTaskID rev) (RCoordinatorEpoch rev) with
  | Some e => Some e
  | None =>
    match revisionByRequest st plan (RRequestID rev) with
    | Err e => Some e
    | Ok (Some _) => None
    | Ok None =>
      let header := loadHeader st plan in
      let head := if not_null header then headRevision st plan else 0%Z in
      if negb (RExpectedParent rev =? head)%Z then
        Some (conflict ("the request expects parent revision " +:+ itoa (RExpectedParent rev) +:+ ", but plan " +:+ plan +:+ " is at revision " +:+ itoa head))
      else
        match loadState st plan (default "" header) head with
        | Err e => Some e
        | Ok s => fold_refusal s rev
        end
    end
  end.

(** [later] is the store as the look-up after a refusal reads it: another writer may have committed meanwhile. *)
Definition preflightRead (st later : Store) (rev : Revision) : option StoreError :=
  match judgeAgainstStore st rev with
  | None => None
  | Some e =>
    if negb (is_refusal e) || isStaleEpoch e then Some e
    else
      match revisionByRequest later (RPlanID rev) (RRequestID rev) with
      | Err lookup => Some lookup
      | Ok (Some _) => None
      | Ok None => Some e
      end
  end.

(** [None] for the database is a file that does not exist. *)
Definition Preflight (db : option Store) (later : Store) (rev : Revision) : option StoreError :=
  match Checked rev with
  | None => Some EPanic
  | Some (Err e) => Some (EDag e)
  | Some (Ok rev) =>
    match db with
    | None =>
      if negb (RCoordinatorEpoch rev =? 0)%Z then
        Some (StaleEpoch ("the request holds coordinator epoch " +:+ itoa (RCoordinatorEpoch rev) +:+ " and nobody has claimed an epoch of plan " +:+ RPlanID rev))
      else if (RExpectedParent rev =? 0)%Z then fold_refusal (mkState (RPlanID rev) "" 0 [] [] []) rev
      else Some (conflict ("the request expects parent revision " +:+ itoa (RExpectedParent rev) +:+ ", but there is no relay store, so plan " +:+ RPlanID rev +:+ " has no revision"))
    | Some st =>
      if (RExpectedParent rev =? 0)%Z then
        match CheckCoordinatorEpoch st (RPlanID rev) (RProjectKey rev) (RAuthorTaskID rev) (RCoordinatorEpoch rev) with
        | Some e => Some e
        | None => fold_refusal (mkState (RPlanID rev) "" 0 [] [] []) rev
        end
      else preflightRead st later rev
    end
  end.

(** ** Example: two revisions, a repeated request, a stale parent *)
Module RepoExample.
Definition empty : Store := mkStore [] [] [] [] [] [].
Definition digest64 : string := sha256_hex "criteria".
Definition node (id : string) : Node := mkNode id "CRW-1" NodeImplementation "" digest64.
Definition first : Revision := mkRevision "p1" "CRW" "req-1" 0 0 "task"
  [mkChange "add_node" (Some (node "a")) None "" "" ""; mkChange "add_node" (Some (node "b")) None "" "" "";
   mkChange "add_edge" None (Some (mkEdge "e1" "a" "b" EdgeIntegrated "repo" "main" false "" "" [])) "" "" ""].
Definition second : Revision := mkRevision "p1" "CRW" "req-2" 1 0 "task" [mkChange "retire_edge" None None "" "e1" ""; mkChange "pause_node" None None "a" "" ""].
Definition stale : Revision := mkRevision "p1" "CRW" "req-3" 1 0 "task" [mkChange "retire_node" None None "a" "" ""].

Definition after1 : Store := Eval vm_compute in (Put empty first "t1").1.
Definition after2 : Store := Eval vm_compute in (Put after1 second "t2").1.

Example put_first : (λ r, (RSRevisionNo r, RSReplayed r)) <$> (match (Put empty first "t1").2 with Ok r => Some r | Err _ => None end) = Some (1%Z, false).
Proof. vm_compute. reflexivity. Qed.

Example put_twice : (Put after2 first "t9").1 = after2 ∧
  match (Put after2 first "t9").2 with Ok r => RSRevisionNo r = 1%Z ∧ RSReplayed r = true ∧ RSRecordedAt r = "t1" | Err _ => False end.
Proof. vm_compute. auto. Qed.

Example put_stale : match (Put after2 stale "t3").2 with Err (ERefused reason _) => reason = RefusalPlanRevisionConflict | _ => False end.
Proof. vm_compute. reflexivity. Qed.

Example verify_log : VerifyLogOn after2 "p1" = Ok tt.
Proof. vm_compute. reflexivity. Qed.
End RepoExample.
