(* ===== verification/DagStored.v ===== *)
(** * DagStored: a plan as the tables hold it.

    [plan_stored st plan project evs s] says that the rows of [plan] are the rows of the fold [s], and its log the history [evs] that leads to [s].
    The readers of the package then return [s] and its snapshots. *)
From S2P Require Import Prelude GoLib Sha256 Json Loads Utf8 JsonText JsonRoundtrip JsonLoaded DagModel DagLifecycle DagGraph DagAcyclic DagFold DagInvariant DagPlan DagProps DagReplay DagDecode DagDecodeProps DagStore DagRepo.
From stdpp Require Export sorting list.
Local Open Scope string_scope.

(** ** ORDER BY on rows already in order *)
Section ordered.
Context {A : Type} (key : A → Z * string).

#[local] Instance key_before_total : Total (key_before key).
Proof.
  intros x y. unfold key_before. destruct (Z.lt_trichotomy (key x).1 (key y).1) as [|[E|]]; [by left; left| |by right; left].
  destruct (total String.le (key x).2 (key y).2); [left|right]; right; by rewrite E.
Qed.

#[local] Instance key_before_trans : Transitive (key_before key).
Proof.
  intros x y z [H1|[E1 H1]] [H2|[E2 H2]]; unfold key_before; [left; lia|left; lia|left; lia|right]. split; [congruence|]. by etrans.
Qed.

Lemma order_by_sorted l : StronglySorted (key_before key) l → NoDup (key <$> l) → order_by key l = l.
Proof.
  intros Hs Hnd. unfold order_by. apply (StronglySorted_unique_strong (key_before key)); [|apply (StronglySorted_merge_sort _ _)|done|apply merge_sort_Permutation].
  intros x y Hx Hy H1 H2. rewrite merge_sort_Permutation in Hx. apply (NoDup_fmap_inj_on key l); [done|done|done|].
  destruct H1 as [?|[E1 L1]], H2 as [?|[? L2]]; try lia. apply injective_projections; [done|]. by apply (anti_symm String.le).
Qed.

(** The first row of a sorted read precedes every row. *)
Lemma order_by_head l x : head (order_by key l) = Some x → x ∈ l ∧ ∀ y, y ∈ l → x = y ∨ key_before key x y.
Proof.
  unfold order_by. pose proof (StronglySorted_merge_sort (key_before key) l) as Hs. pose proof (merge_sort_Permutation (key_before key) l) as Hp.
  destruct (merge_sort _ l) as [|z l']; [done|]. intros [= ->]. apply StronglySorted_cons in Hs as [Hs _]. rewrite Forall_forall in Hs.
  split; [rewrite <- Hp; by left|]. intros y. rewrite <- Hp. intros [->|Hy]%elem_of_cons; auto.
Qed.
End ordered.

(** ** Rows *)
Definition retired_column (z : Z) : option Z := if (z =? 0)%Z then None else Some z.

Definition stored_node (plan : string) (n : NodeVersion) : NodeRow :=
  mkNodeRow plan (node_row_id n) (NVIntroducedRev n) (retired_column (NVRetiredRev n)) (NVSliceDigest n) (IssueKey (NVNode n)) (NKind (NVNode n))
    (nullable (Title (NVNode n))) (CriteriaSetDigest (NVNode n)) (nullable (NVSupersedes n)).

Definition stored_edge (plan : string) (e : EdgeRow) : EdgeTableRow :=
  let x := EREdge e in
  mkEdgeTableRow plan (EdgeID x) (ERIntroducedRev e) (retired_column (ERRetiredRev e)) (FromNodeID x) (ToNodeID x) (EKind x) (nullable (TargetRepository x))
    (nullable (TargetBaseRef x)) (if PinsCodeHead x then 1%Z else 0%Z) (nullable (DecisionSubject x)) (nullable (DecisionDigest x)) (authorityText (RequiredAuthority x)).

Lemma default_nullable s : default "" (nullable s) = s.
Proof. unfold nullable. by case_bool_decide. Qed.

Lemma default_retired z : default 0%Z (retired_column z) = z.
Proof. unfold retired_column. by destruct (Z.eqb_spec z 0). Qed.

Lemma scan_stored_node plan n : scan_node (stored_node plan n) = n.
Proof. unfold scan_node, stored_node. cbn. rewrite !default_nullable, default_retired. by destruct n as [[] ? ? ? ?]. Qed.

Lemma parse_authority l : wf_authorities l → parseAuthority (default "" (authorityText l)) = Ok l.
Proof.
  intros [Hn Hs Hnd Ht]. unfold authorityText. case_bool_decide as Hl; [by subst|]. cbn [default from_option id].
  unfold authorityList, sort_strings. rewrite (sort_by_id id) by (done || by rewrite list_fmap_id).
  set (v := VList (VString <$> l)). assert (json_ok v) as Hok.
  { constructor. apply Forall_fmap. eapply Forall_impl; [exact Ht|]. intros s Hg. by eapply good_text_ok. }
  assert (height v ≤ MaxDepth)%nat as Hh.
  { apply five_deep. etrans; [apply (list_height _ 0), Forall_fmap, Forall_true; intros; simpl; lia|lia]. }
  unfold parseAuthority. rewrite bool_decide_eq_false_2.
  - unfold unmarshal_strings. rewrite (load_canonical v Hok Hh). cbn [ws v]. clear. assert (mapM authority_item (VString <$> l) = Some l) as ->; [|done].
    induction l as [|s l IH]; [done|]. rewrite fmap_cons. cbn. by rewrite IH.
  - intros E. destruct (canonical_text v Hok) as [Ec _]. fold (btext v) in Ec. rewrite E in Ec.
    destruct (btext_opener v Hok) as (c & t & Eb & _). rewrite Eb in Ec. discriminate.
Qed.

Lemma scan_stored_edge plan e : wf_edge (EREdge e) → scan_edge (stored_edge plan e) = Ok e.
Proof.
  intros Hw. unfold scan_edge, stored_edge. cbn [et_authority]. rewrite parse_authority by apply (we_auth _ Hw). cbn.
  rewrite !default_nullable, default_retired. destruct e as [[? ? ? ? ? ? [] ? ? ?] ? ?]; done.
Qed.

Lemma scan_stored_edges plan es : Forall (λ e, wf_edge (EREdge e)) es → scan_edges (stored_edge plan <$> es) = Ok es.
Proof.
  induction 1 as [|e es He _ IH]; [done|]. rewrite fmap_cons. cbn [scan_edges]. by rewrite scan_stored_edge, IH.
Qed.

(** ** The log *)
Definition empty_plan (plan project : string) : State := mkState plan project 0 [] [] [].

(** What a history says of every revision it passes: the snapshot of that revision is the snapshot of a state of the plan. *)
Lemma history_inv s evs s' : plan_inv s → history s evs s' → plan_inv s'.
Proof.
  intros Hi Hh. revert Hi. induction Hh as [s|s ev next d evs s' Hn E1 E2 Ha Hd Hh IH]; intros Hi; [done|]. apply IH.
  destruct (outcome_accepted _ _ _ _ _ Hi Ha) as (a & rows & p & Hacc). by eapply plan_inv_next.
Qed.

Lemma history_revision s evs s' : plan_inv s → history s evs s' → SRevision s' = (SRevision s + Z.of_nat (length evs))%Z.
Proof.
  intros Hi Hh. destruct (history_replay _ _ _ Hh) as [Hr _]. by destruct (replay_loop_cursor _ _ _ Hr).
Qed.

Lemma history_past s evs s' q : plan_inv s → history s evs s' → (q ≤ SRevision s)%Z → At s' q = At s q.
Proof.
  intros Hi Hh. revert Hi. induction Hh as [s|s ev next d evs s' Hn E1 E2 Ha Hd Hh IH]; intros Hi Hq; [done|].
  destruct (outcome_accepted _ _ _ _ _ Hi Ha) as (a & rows & p & Hacc). rewrite IH.
  - by eapply past_At.
  - by eapply plan_inv_next.
  - rewrite (next_revision _ _ _ _ _ _ _ _ Hacc). lia.
Qed.

Lemma history_passes s evs s' ev : plan_inv s → history s evs s' → ev ∈ evs →
  ∃ t, plan_inv t ∧ SRevision t = EvRevisionNo ev ∧ At s' (EvRevisionNo ev) = At t (SRevision t) ∧ EvStateDigest ev = SnapStateDigest (At t (SRevision t)).
Proof.
  intros Hi Hh. revert Hi. induction Hh as [s|s ev0 next d evs s' Hn E1 E2 Ha Hd Hh IH]; intros Hi Hin; [by apply elem_of_nil in Hin|].
  destruct (outcome_accepted _ _ _ _ _ Hi Ha) as (a & rows & p & Hacc). pose proof (plan_inv_next _ _ _ _ _ _ _ _ Hi Hacc Hn) as Hi'.
  apply elem_of_cons in Hin as [->|Hin]; [|auto]. exists next. pose proof (next_revision _ _ _ _ _ _ _ _ Hacc) as Hr.
  split_and!; [done|lia| |done]. rewrite E2, <- Hr. apply (history_past next evs); [done|done|lia].
Qed.

Lemma history_lifecycle plan s evs s' : plan_inv s → history s evs s' → fold_lifecycle plan (SLifecycle s) evs = Ok (SLifecycle s').
Proof.
  intros Hi Hh. revert Hi. induction Hh as [s|s ev next d evs s' Hn E1 E2 Ha Hd Hh IH]; intros Hi; [done|].
  destruct (outcome_accepted _ _ _ _ _ Hi Ha) as (a & rows & p & Hacc). cbn [fold_lifecycle]. pose proof (ac_life _ _ _ _ _ _ _ _ Hacc) as Hl.
  unfold next_rev in Hl. rewrite E2, Hl, <- (next_life _ _ _ _ _ _ _ _ Hacc). apply IH. by eapply plan_inv_next.
Qed.

Lemma history_app s evs1 t evs2 s' : history s evs1 t → history t evs2 s' → history s (evs1 ++ evs2) s'.
Proof. induction 1; [done|]. intros. cbn. econstructor; eauto. Qed.

(** The numbers of a log. *)
Lemma history_numbers s evs s' : history s evs s' → plan_inv s →
  (∀ i ev, evs !! i = Some ev → EvRevisionNo ev = (SRevision s + Z.of_nat i + 1)%Z ∧ EvParentRevisionNo ev = (SRevision s + Z.of_nat i)%Z).
Proof.
  induction 1 as [s|s ev next d evs s' Hn E1 E2 Ha Hd Hh IH]; intros Hi i ev' Hev; [done|].
  destruct (outcome_accepted _ _ _ _ _ Hi Ha) as (a & rows & p & Hacc). pose proof (plan_inv_next _ _ _ _ _ _ _ _ Hi Hacc Hn) as Hi'.
  pose proof (next_revision _ _ _ _ _ _ _ _ Hacc) as Hr. destruct i as [|i]; [injection Hev as <-; lia|]. cbn in Hev. destruct (IH Hi' i ev' Hev). lia.
Qed.

(** ** Slice digests of a snapshot *)
Lemma live_edges_perm s : plan_inv s → EREdge <$> filter live_edge (SEdges s) ≡ₚ (map_to_list (plan_edges s)).*2.
Proof.
  intros Hi. rewrite (live_rows_perm edge_row_id ERRetiredRev (SEdges s)) by apply live_edge_ids_NoDup, (pi_edge_ids _ Hi).
  unfold live_view, plan_edges, parent_edges. rewrite map_to_list_fmap, <- !list_fmap_compose. done.
Qed.

Lemma verify_current s : plan_inv s → verifySlices (At s (SRevision s)) = None.
Proof.
  intros Hi. unfold verifySlices. rewrite (At_current s Hi). cbv zeta. set (sn := mkSnapshot _ _ _ _ _ _ _).
  assert (omap (verify_slice sn) (SnapNodes sn) = []) as ->; [|done].
  apply elem_of_nil_inv. intros e (n & Hn & Hv)%list_elem_of_omap. unfold sn in Hn. cbn [SnapNodes] in Hn.
  rewrite elem_of_sort_by in Hn. apply list_elem_of_fmap in Hn as (r & -> & [Hl Hr]%list_elem_of_filter).
  unfold verify_slice in Hv. rewrite bool_decide_eq_true_2 in Hv; [done|]. unfold snap_row. cbn [SNNode SNSliceDigest].
  rewrite (pi_slices s Hi r Hr Hl). apply SliceDigest_perm.
  - apply NoDup_fmap_filter. rewrite <- list_fmap_compose. unfold sn. cbn [SnapEdges]. rewrite sort_by_perm, <- list_fmap_compose.
    apply (live_edge_ids_NoDup _ (pi_edge_ids _ Hi)).
  - unfold incoming_of. rewrite <- (live_edges_perm s Hi). unfold sn. cbn [SnapEdges]. rewrite sort_by_perm, <- list_fmap_compose. done.
Qed.

(** ** Rows of a log *)
Lemma queryEvents_ok rows evs : queryEvents rows = Ok evs ↔ Forall2 (λ r ev, scanEvent r = Ok ev) rows evs.
Proof.
  split.
  - revert evs. induction rows as [|r rows IH]; intros evs H; cbn in H; [injection H as <-; constructor|].
    destruct (scanEvent r) as [ev|] eqn:E; [|done]. destruct (queryEvents rows) as [evs'|]; [|done]. injection H as <-. constructor; auto.
  - induction 1 as [|r ev rows evs H _ IH]; [done|]. cbn. by rewrite H, IH.
Qed.

Lemma scanEvent_fields r ev : scanEvent r = Ok ev →
  rr_plan r = EvPlanID ev ∧ rr_no r = EvRevisionNo ev ∧ rr_parent r = EvParentRevisionNo ev ∧ rr_request r = EvRequestID ev.
Proof. unfold scanEvent. destruct (DecodeChanges _); [|done]. by intros [= <-]. Qed.

(** A selection of rows is the same selection of events. *)
Lemma queryEvents_filter (P : RevRow → Prop) (Q : Event → Prop) `{∀ r, Decision (P r), ∀ ev, Decision (Q ev)} rows evs :
  (∀ r ev, scanEvent r = Ok ev → P r ↔ Q ev) → queryEvents rows = Ok evs → queryEvents (filter P rows) = Ok (filter Q evs).
Proof.
  rewrite !queryEvents_ok. intros HPQ. induction 1 as [|r ev rows evs Hr _ IH]; [constructor|]. rewrite !filter_cons.
  destruct (decide (P r)) as [HP|HP].
  - rewrite decide_True by (by apply (HPQ r ev Hr)). by constructor.
  - by rewrite decide_False by (by rewrite <- (HPQ r ev Hr)).
Qed.

(** Rows numbered [k], [k+1], ... *)
Definition numbered {A} (no : A → Z) (k : Z) (l : list A) : Prop := ∀ i x, l !! i = Some x → no x = (k + Z.of_nat i)%Z.

Section numbered.
Context {A : Type} (no : A → Z).

Lemma numbered_cons k x l : numbered no k (x :: l) → no x = k ∧ numbered no (k + 1) l.
Proof.
  intros H. split; [specialize (H 0%nat x eq_refl); lia|]. intros i y Hy. specialize (H (S i) y Hy). lia.
Qed.

Lemma numbered_range k l : numbered no k l → Forall (λ x, (k ≤ no x < k + Z.of_nat (length l))%Z) l.
Proof.
  intros H. apply Forall_lookup. intros i x Hx. pose proof (lookup_lt_Some _ _ _ Hx). rewrite (H i x Hx). lia.
Qed.

Lemma numbered_max k l : (0 < k)%Z → numbered no k l → foldr (λ r m, Z.max (no r) m) 0%Z l = if decide (l = []) then 0%Z else (k + Z.of_nat (length l) - 1)%Z.
Proof.
  revert k. induction l as [|x l IH]; intros k Hk H; [done|]. apply numbered_cons in H as [Hx H]. cbn [foldr]. rewrite (IH (k + 1)%Z) by (done || lia).
  rewrite (decide_False (P := x :: l = [])) by done. cbn [length]. destruct (decide (l = [])) as [->|]; cbn [length]; lia.
Qed.

Lemma numbered_sorted k l : numbered no k l → StronglySorted (key_before (λ r, (no r, ""))) l.
Proof.
  revert k. induction l as [|x l IH]; intros k H; [constructor|]. apply numbered_cons in H as [Hx H]. constructor; [by eapply IH|].
  eapply Forall_impl; [by apply numbered_range|]. intros y Hy. cbn in Hy. left. cbn. lia.
Qed.

Lemma numbered_NoDup k l : numbered no k l → NoDup ((λ r, (no r, "")) <$> l).
Proof.
  revert k. induction l as [|x l IH]; intros k H; [constructor|]. apply numbered_cons in H as [Hx H]. csimpl. constructor; [|by eapply IH].
  intros (y & [= E] & Hy)%list_elem_of_fmap. pose proof (numbered_range _ _ H) as Hr. rewrite Forall_forall in Hr. specialize (Hr y Hy). lia.
Qed.

Lemma numbered_after k l q : numbered no k l → filter (λ x, (q < no x)%Z) l = drop (Z.to_nat (q + 1 - k)) l.
Proof.
  revert k. induction l as [|x l IH]; intros k H; [by rewrite drop_nil|]. pose proof H as [Hx Hl]%numbered_cons. destruct (decide (q < k)%Z).
  - replace (Z.to_nat (q + 1 - k)) with 0%nat by lia. apply filter_all, Forall_forall. eapply Forall_impl; [by apply numbered_range|]. intros y Hy. cbn in Hy. lia.
  - rewrite filter_cons_False, (IH (k + 1)%Z) by (done || lia). by replace (Z.to_nat (q + 1 - k)) with (S (Z.to_nat (q + 1 - (k + 1)))) by lia.
Qed.

Lemma numbered_one k l x : numbered no k l → x ∈ l → filter (λ y, no y = no x) l = [x].
Proof.
  revert k. induction l as [|y l IH]; intros k H Hx; [by apply elem_of_nil in Hx|]. pose proof H as [Hy Hl]%numbered_cons.
  pose proof (numbered_range _ _ Hl) as Hr. apply elem_of_cons in Hx as [->|Hx].
  - rewrite filter_cons_True, filter_none by done || (apply Forall_forall; eapply Forall_impl; [exact Hr|]; intros z Hz; cbn in Hz; lia). done.
  - rewrite filter_cons_False; [by apply (IH (k + 1)%Z)|]. rewrite Forall_forall in Hr. specialize (Hr x Hx). lia.
Qed.
End numbered.

(** ** A stored plan *)

(** Rows in the order they are read, every node and edge well formed. *)
Abbreviation node_key := (λ n, (NVIntroducedRev n, node_row_id n)).
Abbreviation edge_key := (λ e, (ERIntroducedRev e, edge_row_id e)).

Record rows_ok (s : State) : Prop := {
  ro_nodes : Forall (λ n, wf_node (NVNode n)) (SNodes s);
  ro_edges : Forall (λ e, wf_edge (EREdge e)) (SEdges s);
  ro_node_order : StronglySorted (key_before node_key) (SNodes s);
  ro_edge_order : StronglySorted (key_before edge_key) (SEdges s)
}.

Record plan_stored (st : Store) (plan project : string) (evs : list Event) (s : State) : Prop := {
  ps_log : history (empty_plan plan project) evs s;
  ps_requests : NoDup (EvRequestID <$> evs);
  ps_revisions : queryEvents (plan_revisions st plan) = Ok evs;
  ps_nodes : plan_node_rows st plan = stored_node plan <$> SNodes s;
  ps_edges : plan_edge_rows st plan = stored_edge plan <$> SEdges s;
  ps_rows : rows_ok s
}.

Lemma history_names s evs s' : plan_inv s → history s evs s' → SPlanID s' = SPlanID s ∧ SProjectKey s' = SProjectKey s.
Proof.
  intros Hi Hh. revert Hi. induction Hh as [s|s ev next d evs s' Hn E1 E2 Ha Hd Hh IH]; intros Hi; [done|].
  destruct (outcome_accepted _ _ _ _ _ Hi Ha) as (a & rows & p & Hacc). destruct IH as [-> ->]; [by eapply plan_inv_next|].
  by rewrite (ac_next _ _ _ _ _ _ _ _ Hacc).
Qed.

Section stored.
Context (st : Store) (plan project : string) (evs : list Event) (s : State) (Hst : plan_stored st plan project evs s).

Lemma stored_inv : plan_inv s.
Proof. eapply history_inv; [apply plan_inv_empty|apply (ps_log _ _ _ _ _ Hst)]. Qed.

Lemma stored_names : SPlanID s = plan ∧ SProjectKey s = project.
Proof. apply (history_names _ _ _ (plan_inv_empty _ _) (ps_log _ _ _ _ _ Hst)). Qed.

Lemma stored_length : SRevision s = Z.of_nat (length evs).
Proof. apply (history_revision _ _ _ (plan_inv_empty _ _) (ps_log _ _ _ _ _ Hst)). Qed.

Lemma stored_positive : evs ≠ [] → (0 < SRevision s)%Z.
Proof. rewrite stored_length. destruct evs; [done|]. cbn. lia. Qed.

Lemma events_numbered : numbered EvRevisionNo 1 evs.
Proof.
  intros i ev Hev. destruct (history_numbers _ _ _ (ps_log _ _ _ _ _ Hst) (plan_inv_empty _ _) i ev Hev) as [-> _]. cbn. lia.
Qed.

Lemma revisions_Forall2 : Forall2 (λ r ev, scanEvent r = Ok ev) (plan_revisions st plan) evs.
Proof. apply queryEvents_ok, (ps_revisions _ _ _ _ _ Hst). Qed.

Lemma revisions_numbered : numbered rr_no 1 (plan_revisions st plan).
Proof.
  intros i r Hr. destruct (Forall2_lookup_l _ _ _ _ _ revisions_Forall2 Hr) as (ev & Hev & (_ & -> & _)%scanEvent_fields).
  by apply events_numbered.
Qed.

Lemma headRevision_stored : headRevision st plan = SRevision s.
Proof.
  unfold headRevision. rewrite (numbered_max rr_no 1) by (lia || apply revisions_numbered). rewrite (Forall2_length _ _ _ revisions_Forall2), stored_length.
  pose proof (Forall2_length _ _ _ revisions_Forall2) as Hl. destruct (decide _) as [E|]; [|lia]. rewrite E in Hl. cbn in Hl. lia.
Qed.

Lemma by_number_stored : by_number (plan_revisions st plan) = plan_revisions st plan.
Proof. apply order_by_sorted; [eapply numbered_sorted|eapply numbered_NoDup]; apply revisions_numbered. Qed.

Lemma revisionByRequest_stored q : revisionByRequest st plan q = Ok (head (filter (λ ev, EvRequestID ev = q) evs)).
Proof.
  unfold revisionByRequest. rewrite (queryEvents_filter _ (λ ev, EvRequestID ev = q) _ evs).
  - by destruct (filter _ evs).
  - intros r ev (_ & _ & _ & ->)%scanEvent_fields. done.
  - apply (ps_revisions _ _ _ _ _ Hst).
Qed.

Lemma loadLifecycle_stored : loadLifecycle st plan (SRevision s) = Ok (SLifecycle s).
Proof.
  unfold loadLifecycle. rewrite filter_all, by_number_stored, (ps_revisions _ _ _ _ _ Hst).
  - apply (history_lifecycle plan (empty_plan plan project)); [apply plan_inv_empty|apply (ps_log _ _ _ _ _ Hst)].
  - apply Forall_forall. eapply Forall_impl; [apply numbered_range, revisions_numbered|]. intros r Hr. cbn in Hr.
    rewrite (Forall2_length _ _ _ revisions_Forall2) in Hr. rewrite stored_length. lia.
Qed.

Lemma node_rows_stored : scan_node <$> order_by (λ r, (nr_introduced r, nr_id r)) (plan_node_rows st plan) = SNodes s.
Proof.
  rewrite (ps_nodes _ _ _ _ _ Hst), order_by_sorted.
  - rewrite <- list_fmap_compose. rewrite <- (list_fmap_id (SNodes s)) at 2. apply list_fmap_ext. intros i n _. apply scan_stored_node.
  - eapply (StronglySorted_fmap (stored_node plan)); [|apply (ro_node_order _ (ps_rows _ _ _ _ _ Hst))]. done.
  - rewrite <- list_fmap_compose. apply (NoDup_fmap_1 (λ k, (k.2, k.1))). rewrite <- list_fmap_compose. apply (pi_versions _ stored_inv).
Qed.

Lemma edge_rows_stored : scan_edges (order_by (λ r, (et_introduced r, et_id r)) (plan_edge_rows st plan)) = Ok (SEdges s).
Proof.
  rewrite (ps_edges _ _ _ _ _ Hst), order_by_sorted.
  - apply scan_stored_edges, (ro_edges _ (ps_rows _ _ _ _ _ Hst)).
  - eapply (StronglySorted_fmap (stored_edge plan)); [|apply (ro_edge_order _ (ps_rows _ _ _ _ _ Hst))]. done.
  - rewrite <- list_fmap_compose. apply (NoDup_fmap_1 snd). rewrite <- list_fmap_compose. apply (pi_edge_ids _ stored_inv).
Qed.

(** The rows and the log of a stored plan load as its fold. *)
Lemma loadState_stored : loadState st plan project (SRevision s) = Ok s.
Proof.
  unfold loadState. rewrite node_rows_stored, edge_rows_stored, loadLifecycle_stored.
  destruct (List.find _ (SLifecycle s)) as [row|] eqn:E.
  - apply find_some in E as [Hin Hrow]. apply list_elem_of_In in Hin. apply andb_true_iff in Hrow as [H1 H2].
    rewrite negb_true_iff, bool_decide_eq_false in H1, H2. destruct (pi_life_ids _ stored_inv row Hin) as [?|(n & Hn & En)]; [done|].
    destruct H2. rewrite <- En. by apply list_elem_of_fmap_2.
  - destruct stored_names as [E1 E2]. rewrite <- E1, <- E2. by destruct s.
Qed.

Lemma event_at rev : (1 ≤ rev ≤ SRevision s)%Z → ∃ ev, ev ∈ evs ∧ EvRevisionNo ev = rev.
Proof.
  rewrite stored_length. intros H. destruct (lookup_lt_is_Some_2 evs (Z.to_nat (rev - 1))) as [ev Hev]; [lia|].
  exists ev. split; [by eapply list_elem_of_lookup_2|]. rewrite (events_numbered _ _ Hev). lia.
Qed.

Lemma queryEvents_at ev : ev ∈ evs → queryEvents (filter (λ r, rr_no r = EvRevisionNo ev) (plan_revisions st plan)) = Ok [ev].
Proof.
  intros Hev. rewrite (queryEvents_filter _ (λ e, EvRevisionNo e = EvRevisionNo ev) _ evs).
  - f_equal. by apply (numbered_one EvRevisionNo 1), Hev; apply events_numbered.
  - intros r e (_ & -> & _)%scanEvent_fields. done.
  - apply (ps_revisions _ _ _ _ _ Hst).
Qed.

(** The fold at a revision agrees with its log, slice by slice and as a whole. *)
Lemma verifiedState_stored rev : (1 ≤ rev ≤ SRevision s)%Z → verifiedState st plan project (SRevision s) rev = Ok (s, At s rev).
Proof.
  intros Hr. destruct (event_at rev Hr) as (ev & Hev & <-). unfold verifiedState. rewrite loadState_stored.
  destruct (history_passes _ _ _ ev (plan_inv_empty _ _) (ps_log _ _ _ _ _ Hst) Hev) as (t & Ht & _ & -> & Ed).
  rewrite (verify_current t Ht), (queryEvents_at ev Hev). by rewrite bool_decide_eq_true_2.
Qed.
End stored.
