(* ===== verification/DagWrite.v ===== *)
(** * DagWrite: the rows a committed revision writes.

    On a stored plan the statements of Put meet every constraint of the zone, each UPDATE changes exactly one row, and the tables they leave store the
    next state of the plan; the rows of other plans are not touched. *)
From S2P Require Import Prelude GoLib Sha256 Json Loads Utf8 JsonText JsonRoundtrip JsonLoaded DagModel DagLifecycle DagGraph DagAcyclic DagFold DagInvariant DagPlan DagProps DagReplay DagDecode DagDecodeProps DagStore DagRepo DagStored.
From stdpp Require Export sorting list.
Local Open Scope string_scope.

(** ** Well-formed changes leave well-formed plans *)
Definition wf_plan (p : plan) : Prop :=
  (∀ id n, pl_nodes p !! id = Some n → wf_node (LNNode n)) ∧ (∀ id e, pl_edges p !! id = Some e → wf_edge e).

Lemma wf_change_node c n : wf_change c → CNode c = Some n → wf_node n.
Proof. by destruct 1; intros [= <-]. Qed.

Lemma wf_change_edge c e : wf_change c → CEdge c = Some e → wf_edge e.
Proof. by destruct 1; intros [= <-]. Qed.

Lemma insert_forall {A} (P : A → Prop) (m : gmap string A) k x : (∀ id y, m !! id = Some y → P y) → P x → ∀ id y, <[k := x]> m !! id = Some y → P y.
Proof. intros Hm Hx id y. rewrite lookup_insert. destruct (decide _); [by intros [= <-]|apply Hm]. Qed.

Lemma delete_forall {A} (P : A → Prop) (m : gmap string A) k : (∀ id y, m !! id = Some y → P y) → ∀ id y, delete k m !! id = Some y → P y.
Proof. intros Hm id y [_ Hy]%lookup_delete_Some. by eapply Hm. Qed.

Lemma graph_step_wf nodes edges c nodes' edges' :
  (∀ id n, nodes !! id = Some n → wf_node (LNNode n)) → (∀ id e, edges !! id = Some e → wf_edge e) → wf_change c →
  graph_step nodes edges c = Some (nodes', edges') →
  (∀ id n, nodes' !! id = Some n → wf_node (LNNode n)) ∧ (∀ id e, edges' !! id = Some e → wf_edge e).
Proof.
  intros Hn He Hc H. unfold graph_step in H. pose proof (λ n, wf_change_node c n Hc) as Hcn. pose proof (λ e, wf_change_edge c e Hc) as Hce.
  repeat case_in H; simplify_eq/=; try done;
    repeat match type of H with
    | context [guard _] => case_guard; simplify_eq/=
    | context [mbind _ ?x] => destruct x eqn:?; simplify_eq/=
    end; (split; [|done]) || (split; [done|]);
    repeat first [apply (insert_forall (λ l, wf_node (LNNode l)))|apply (delete_forall (λ l, wf_node (LNNode l)))|apply (insert_forall wf_edge)|apply (delete_forall wf_edge)]; auto.
Qed.

Lemma plan_run_wf cs : ∀ p p', wf_plan p → Forall wf_change cs → plan_run p cs = Some p' → wf_plan p'.
Proof.
  induction cs as [|c cs IH]; intros p p' Hp Hc H; simplify_eq/=; [done|]. apply Forall_cons in Hc as [Hc Hcs].
  destruct (plan_step p c) as [p1|] eqn:E; simplify_eq/=. apply (IH p1 p'); [|done..]. unfold plan_step in E.
  destruct (graph_step _ _ c) as [[n e]|] eqn:Eg; simplify_eq/=. destruct (life_step (pl_life p) c) as [f|]; simplify_eq/=.
  destruct Hp as [Hp1 Hp2]. by eapply graph_step_wf.
Qed.

(** ** Sorted lists *)
Lemma sorted_omap {A B} (R : A → A → Prop) (R' : B → B → Prop) (h : A → option B) l :
  (∀ x y x' y', h x = Some x' → h y = Some y' → R x y → R' x' y') → StronglySorted R l → StronglySorted R' (omap h l).
Proof.
  intros Hh. induction 1 as [|x l Hl IH Hx]; [constructor|]. cbn. destruct (h x) as [x'|] eqn:E; [|done]. constructor; [done|].
  apply Forall_forall. intros y' (y & Hy & Ey)%list_elem_of_omap. rewrite Forall_forall in Hx. eauto.
Qed.

Lemma sorted_filter {A} (R : A → A → Prop) (P : A → Prop) `{∀ x, Decision (P x)} l : StronglySorted R l → StronglySorted R (filter P l).
Proof.
  induction 1 as [|x l Hl IH Hx]; [constructor|]. rewrite filter_cons. destruct (decide (P x)); [|done]. constructor; [done|].
  apply Forall_forall. intros y [_ Hy]%list_elem_of_filter. rewrite Forall_forall in Hx. auto.
Qed.

(** ** The rows of an accepted revision *)
Section accepted.
Context (prev : State) (cs : list Change) (strict : bool) (next : State) (d : Diff) (a : acc) (life : list LifeRow) (p : plan).
Hypothesis Hinv : plan_inv prev.
Hypothesis Hacc : accepted prev cs strict next d a life p.
Hypothesis Hrows : rows_ok prev.
Hypothesis Hwf : Forall wf_change cs.

Lemma accepted_wf : wf_plan p.
Proof.
  eapply plan_run_wf; [|exact Hwf|apply (ac_run _ _ _ _ _ _ _ _ Hacc)]. pose proof (ro_nodes _ Hrows) as Hn. pose proof (ro_edges _ Hrows) as He.
  rewrite Forall_forall in Hn. rewrite Forall_forall in He. split.
  - intros id n (r & Hr & _ & _ & ->)%plan_nodes_Some. by apply Hn.
  - intros id e (r & Hr & _ & _ & ->)%plan_edges_Some. by apply He.
Qed.

Lemma insert_node_wf row : row ∈ InsertNodes d → wf_node (NVNode row) ∧ NVIntroducedRev row = SRevision next ∧ NVRetiredRev row = 0%Z.
Proof.
  intros Hrow. destruct (insert_node_elem _ _ _ _ _ _ _ _ Hinv Hacc row Hrow) as (n & El & -> & _). cbn.
  rewrite (next_revision _ _ _ _ _ _ _ _ Hacc). split_and!; [|done..]. rewrite <- (ac_nodes _ _ _ _ _ _ _ _ Hacc) in El. by apply accepted_wf in El.
Qed.

Lemma insert_edge_wf row : row ∈ InsertEdges d →
  wf_edge (EREdge row) ∧ edge_ok (a_live a) (EREdge row) ∧ ERIntroducedRev row = SRevision next ∧ ERRetiredRev row = 0%Z.
Proof.
  intros Hrow. destruct (insert_edge_elem _ _ _ _ _ _ _ _ Hacc row Hrow) as (El & -> & _). cbn [EREdge ERIntroducedRev ERRetiredRev].
  rewrite (next_revision _ _ _ _ _ _ _ _ Hacc). destruct (rules_nil _ _ _ _ _ _ _ _ Hacc) as (_ & _ & Hg). pose proof (go_edges _ _ Hg _ _ El) as Hok.
  split_and!; [|exact Hok|done..]. rewrite <- (ac_edges _ _ _ _ _ _ _ _ Hacc) in El. by apply accepted_wf in El.
Qed.

Lemma before_next_node x y : x ∈ next_node_row prev (a_live a) (a_liveEdges a) <$> SNodes prev → y ∈ InsertNodes d → key_before node_key x y.
Proof.
  intros (r & -> & Hr)%list_elem_of_fmap (_ & Hy & _)%insert_node_wf. left. cbn. rewrite Hy, (next_revision _ _ _ _ _ _ _ _ Hacc).
  pose proof (pi_nodes _ Hinv r Hr) as [? _]. unfold next_node_row. destruct (decide _); cbn; lia.
Qed.

Lemma before_next_edge x y : x ∈ next_edge_row prev (a_liveEdges a) <$> SEdges prev → y ∈ InsertEdges d → key_before edge_key x y.
Proof.
  intros (r & -> & Hr)%list_elem_of_fmap (_ & _ & Hy & _)%insert_edge_wf. left. cbn. rewrite Hy, (next_revision _ _ _ _ _ _ _ _ Hacc).
  pose proof (pi_edges _ Hinv r Hr) as [? _]. unfold next_edge_row. destruct (decide _); cbn; lia.
Qed.

Lemma inserted_nodes_sorted : StronglySorted (key_before node_key) (InsertNodes d).
Proof.
  pose proof insert_node_wf as Hw. rewrite (ac_diff _ _ _ _ _ _ _ _ Hacc) in Hw |- *. cbn [materialize InsertNodes snd] in Hw |- *. unfold inserted_nodes in Hw |- *.
  pose proof (sort_by_sorted node_row_id (new_versions prev (a_live a) (a_liveEdges a) ++ new_nodes prev (a_live a) (a_liveEdges a))%list) as Hs.
  induction Hs as [|x l Hl IH Hx]; constructor; [apply IH; intros; apply Hw; by right|]. rewrite Forall_forall in Hx |- *. intros y Hy. right. cbn.
  destruct (Hw x) as (_ & -> & _); [by left|]. destruct (Hw y) as (_ & -> & _); [by right|]. split; [done|]. by apply Hx.
Qed.

Lemma inserted_edges_sorted : StronglySorted (key_before edge_key) (InsertEdges d).
Proof.
  rewrite (ac_diff _ _ _ _ _ _ _ _ Hacc). cbn [materialize InsertEdges snd]. unfold inserted_edges.
  apply (sorted_omap (key_le id)); [|apply sorted_filter, (sort_by_sorted id)]. intros x y x' y' Ex Ey Hxy. right.
  destruct (a_liveEdges a !! x) as [e|] eqn:E1; [|done]. destruct (a_liveEdges a !! y) as [e'|] eqn:E2; [|done]. simplify_eq/=. split; [done|].
  unfold edge_row_id. cbn. rewrite (ai_edge_key _ _ (ac_acc _ _ _ _ _ _ _ _ Hacc) _ _ E1), (ai_edge_key _ _ (ac_acc _ _ _ _ _ _ _ _ Hacc) _ _ E2). done.
Qed.

Lemma rows_ok_next : rows_ok next.
Proof.
  destruct Hrows as [Hn He Hno Heo]. split; rewrite ?(next_nodes _ _ _ _ _ _ _ _ Hacc), ?(next_edges _ _ _ _ _ _ _ _ Hacc).
  - apply Forall_app. split; [|apply Forall_forall; intros r Hr; by apply insert_node_wf].
    apply Forall_fmap. eapply Forall_impl; [exact Hn|]. intros r Hr. cbn. unfold next_node_row. by destruct (decide _).
  - apply Forall_app. split; [|apply Forall_forall; intros r Hr; by apply insert_edge_wf].
    apply Forall_fmap. eapply Forall_impl; [exact He|]. intros r Hr. cbn. unfold next_edge_row. by destruct (decide _).
  - apply StronglySorted_app. split_and!; [apply before_next_node| |apply inserted_nodes_sorted].
    eapply StronglySorted_fmap; [|exact Hno]. intros x y. unfold next_node_row, key_before. by destruct (decide _), (decide _).
  - apply StronglySorted_app. split_and!; [apply before_next_edge| |apply inserted_edges_sorted].
    eapply StronglySorted_fmap; [|exact Heo]. intros x y. unfold next_edge_row, key_before. by destruct (decide _), (decide _).
Qed.
End accepted.

(** ** Statements on the rows of one plan *)
Lemma demand_ok {A} (b : bool) name (k : result StoreError A) : b = true → demand b name k = k.
Proof. by intros ->. Qed.

Abbreviation nodes_of plan l := (filter (λ r : NodeRow, nr_plan r = plan) (l : list NodeRow)).
Abbreviation edges_of plan l := (filter (λ r : EdgeTableRow, et_plan r = plan) (l : list EdgeTableRow)).
Abbreviation version := (λ r, (node_row_id r, NVIntroducedRev r)).

(** Rows [l'] that differ from [l] in the rows of [plan] only. *)
Definition other_nodes (plan : string) (l l' : list NodeRow) : Prop := ∀ q, q ≠ plan → nodes_of q l' = nodes_of q l.
Definition other_edges (plan : string) (l l' : list EdgeTableRow) : Prop := ∀ q, q ≠ plan → edges_of q l' = edges_of q l.

Lemma existsb_false {A} (P : A → Prop) `{∀ x, Decision (P x)} l : (∀ x, x ∈ l → ¬ P x) → existsb (λ x, bool_decide (P x)) l = false.
Proof.
  intros H0. destruct (existsb _ l) eqn:E; [|done]. apply existsb_exists in E as (x & Hx & HP). apply bool_decide_eq_true in HP.
  apply list_elem_of_In in Hx. by destruct (H0 x Hx).
Qed.

Lemma existsb_true {A} (P : A → Prop) `{∀ x, Decision (P x)} l x : x ∈ l → P x → existsb (λ x, bool_decide (P x)) l = true.
Proof. intros Hx HP. apply existsb_exists. exists x. split; [by apply list_elem_of_In|]. by apply bool_decide_eq_true. Qed.

(** A row of a plan is the row of some version. *)
Lemma stored_row_inv plan (l : list NodeRow) (nodes : list NodeVersion) r : nodes_of plan l = stored_node plan <$> nodes → r ∈ l → nr_plan r = plan → ∃ n, n ∈ nodes ∧ r = stored_node plan n.
Proof.
  intros E Hr Hp. assert (r ∈ stored_node plan <$> nodes) as (n & -> & Hn)%list_elem_of_fmap; [|by eauto]. rewrite <- E. by apply list_elem_of_filter.
Qed.

Lemma stored_edge_inv plan (l : list EdgeTableRow) (edges : list EdgeRow) r : edges_of plan l = stored_edge plan <$> edges → r ∈ l → et_plan r = plan → ∃ e, e ∈ edges ∧ r = stored_edge plan e.
Proof.
  intros E Hr Hp. assert (r ∈ stored_edge plan <$> edges) as (n & -> & Hn)%list_elem_of_fmap; [|by eauto]. rewrite <- E. by apply list_elem_of_filter.
Qed.

Lemma retired_column_none z : retired_column z = None ↔ z = 0%Z.
Proof. unfold retired_column. destruct (Z.eqb_spec z 0); split; done. Qed.

(** An update of some rows of [plan], row by row. *)
Lemma filter_map_other {A} (owner : A → string) (f : A → A) q (l : list A) :
  (∀ r, r ∈ l → owner (f r) = owner r) → (∀ r, r ∈ l → owner r = q → f r = r) → filter (λ r, owner r = q) (f <$> l) = filter (λ r, owner r = q) l.
Proof.
  intros H1 H2. induction l as [|r l IH]; [done|]. csimpl. rewrite !filter_cons. rewrite H1 by (by left).
  rewrite IH by (intros; first [by apply H1; right|by apply H2; [right|]]). destruct (decide (owner r = q)); [|done]. by rewrite H2 by (done || by left).
Qed.

Lemma filter_map_plan {A B} (owner : A → string) (f : A → A) q (l : list A) (g h : B → A) (xs : list B) :
  (∀ r, owner (f r) = owner r) → filter (λ r, owner r = q) l = g <$> xs → (∀ x, x ∈ xs → f (g x) = h x) → filter (λ r, owner r = q) (f <$> l) = h <$> xs.
Proof.
  intros H1 E H2. revert xs E H2. induction l as [|r l IH]; intros xs E H2; [by destruct xs|].
  csimpl. rewrite filter_cons in E |- *. rewrite H1. destruct (decide (owner r = q)); [|by apply IH].
  destruct xs as [|x xs]; [done|]. csimpl in E. injection E as -> E. csimpl. f_equal; [apply H2; by left|]. apply IH; [done|]. intros y Hy. apply H2. by right.
Qed.

Lemma filter_one {A K} (f : A → K) (P : A → Prop) `{∀ x, Decision (P x)} l x :
  NoDup (f <$> l) → x ∈ l → P x → (∀ y, y ∈ l → P y → f y = f x) → filter P l = [x].
Proof.
  induction l as [|y l IH]; intros Hnd Hx HP Hu; [by apply elem_of_nil in Hx|]. apply NoDup_cons in Hnd as [Hy Hnd].
  apply elem_of_cons in Hx as [->|Hx].
  - rewrite filter_cons_True by done. f_equal. apply filter_none. intros z Hz HPz. apply Hy. rewrite <- (Hu z) by (done || by right).
    by apply list_elem_of_fmap_2.
  - rewrite filter_cons_False; [apply IH; try done; intros; apply Hu; [by right|done]|]. intros HPy. apply Hy. rewrite (Hu y) by (done || by left).
    by apply list_elem_of_fmap_2.
Qed.

Lemma filter_stored {A B} (owner : A → string) (P : A → Prop) `{∀ x, Decision (P x)} (g : B → A) q (l : list A) (xs : list B) :
  (∀ r, P r → owner r = q) → filter (λ r, owner r = q) l = g <$> xs → filter P l = g <$> filter (λ x, P (g x)) xs.
Proof.
  intros HP E. rewrite <- (list_filter_filter_l P (λ r, owner r = q)) by done. rewrite E. clear E.
  induction xs as [|x xs IH]; [done|]. csimpl. rewrite !filter_cons. destruct (decide (P (g x))); csimpl; by rewrite IH.
Qed.

(** *** Retiring *)
(** The statements that retire a row change nothing else of it, so the triggers let them through. *)
Lemma node_retire_allowed rev r : nr_retired r = None → dag_nodes_retire_only r (set_node_retired rev r) = true.
Proof. intros E. unfold dag_nodes_retire_only, set_node_retired. cbn. rewrite E. cbn. by rewrite !bool_decide_eq_true_2. Qed.

Lemma edge_retire_allowed rev r : et_retired r = None → dag_edges_retire_only r (set_edge_retired rev r) = true.
Proof. intros E. unfold dag_edges_retire_only, set_edge_retired. cbn. rewrite E. cbn. by rewrite !bool_decide_eq_true_2. Qed.

Lemma selected_allowed {A} (P : A → Prop) `{∀ x, Decision (P x)} (f : A → bool) l : (∀ x, P x → f x = true) → forallb f (filter P l) = true.
Proof. intros Hf. apply forallb_forall. intros x Hx%list_elem_of_In. apply list_elem_of_filter in Hx as [Hx _]. by apply Hf. Qed.

Definition retire_version (rev : Z) (v : string * Z) (r : NodeVersion) : NodeVersion := if decide (version r = v) then retire_node_row rev r else r.
Definition retire_edge_id (rev : Z) (id : string) (r : EdgeRow) : EdgeRow := if decide (edge_row_id r = id) then retire_edge_row rev r else r.

Lemma retire_node_ok st plan rev nodes n0 n :
  plan_node_rows st plan = stored_node plan <$> nodes → NoDup (version <$> nodes) → n0 ∈ nodes → live_node n0 → version n = version n0 →
  has_revision st plan rev = true → (NVIntroducedRev n0 < rev)%Z → (0 < rev)%Z →
  ∃ l, retire_node_rows plan rev n st = Ok (with_nodes st l) ∧
    nodes_of plan l = stored_node plan <$> (retire_version rev (version n) <$> nodes) ∧ other_nodes plan (NodeRows st) l.
Proof.
  intros E Hnd Hn0 Hl Hv Hrev Hlt Hpos. assert (∀ x, node_selected plan n (stored_node plan x) ↔ version x = version n ∧ live_node x) as Hsel.
  { intros x. unfold node_selected, stored_node, is_live. cbn [nr_plan nr_id nr_introduced nr_retired]. rewrite retired_column_none, pair_eq. tauto. }
  assert (filter (node_selected plan n) (NodeRows st) = [stored_node plan n0]) as Es.
  { rewrite (filter_stored nr_plan _ (stored_node plan) plan _ nodes) by (done || by intros r [? _]).
    rewrite (filter_one version _ nodes n0); [done|done|done|by apply Hsel|]. intros y _ [Hy _]%Hsel. congruence. }
  unfold retire_node_rows. cbv zeta. rewrite selected_allowed by (intros r (_ & _ & _ & Hr); by apply node_retire_allowed). rewrite Es. rewrite !demand_ok; [| | |done].
  - rewrite bool_decide_eq_true_2 by done. eexists. split; [done|]. split.
    + rewrite <- list_fmap_compose.
      apply (filter_map_plan nr_plan _ plan _ (stored_node plan)); [intros r; by destruct (decide _)|exact E|]. intros x Hx. cbn. unfold retire_version.
      destruct (decide (version x = version n)) as [Hxv|Hxv].
      * assert (x = n0) as -> by (apply (NoDup_fmap_inj_on version nodes); [done|done|done|congruence]).
        rewrite decide_True by (by apply Hsel). unfold stored_node, set_node_retired, retire_node_row, retired_column. cbn. by destruct (Z.eqb_spec rev 0); [lia|].
      * by rewrite decide_False by (rewrite Hsel; tauto).
    + intros q Hq. apply filter_map_other; [intros r _; by destruct (decide _)|]. intros r _ Hr. rewrite decide_False; [done|]. intros [? _]. congruence.
  - cbn. rewrite andb_true_r. by apply Z.ltb_lt.
  - by rewrite Hrev, orb_true_r.
Qed.

Lemma retire_edge_ok st plan rev edges e0 e :
  plan_edge_rows st plan = stored_edge plan <$> edges → NoDup (edge_row_id <$> edges) → e0 ∈ edges → live_edge e0 → edge_row_id e = edge_row_id e0 →
  has_revision st plan rev = true → (ERIntroducedRev e0 < rev)%Z → (0 < rev)%Z →
  ∃ l, retire_edge_rows plan rev e st = Ok (with_edges st l) ∧
    edges_of plan l = stored_edge plan <$> (retire_edge_id rev (edge_row_id e) <$> edges) ∧ other_edges plan (EdgeRows st) l.
Proof.
  intros E Hnd He0 Hl Hv Hrev Hlt Hpos. assert (∀ x, edge_selected plan e (stored_edge plan x) ↔ edge_row_id x = edge_row_id e ∧ live_edge x) as Hsel.
  { intros x. unfold edge_selected, stored_edge, is_live. cbn [et_plan et_id et_retired]. rewrite retired_column_none. tauto. }
  assert (filter (edge_selected plan e) (EdgeRows st) = [stored_edge plan e0]) as Es.
  { rewrite (filter_stored et_plan _ (stored_edge plan) plan _ edges) by (done || by intros r [? _]).
    rewrite (filter_one edge_row_id _ edges e0); [done|done|done|by apply Hsel|]. intros y _ [Hy _]%Hsel. congruence. }
  unfold retire_edge_rows. cbv zeta. rewrite selected_allowed by (intros r (_ & _ & Hr); by apply edge_retire_allowed). rewrite Es. rewrite !demand_ok; [| | |done].
  - rewrite bool_decide_eq_true_2 by done. eexists. split; [done|]. split.
    + rewrite <- list_fmap_compose.
      apply (filter_map_plan et_plan _ plan _ (stored_edge plan)); [intros r; by destruct (decide _)|exact E|]. intros x Hx. cbn. unfold retire_edge_id.
      destruct (decide (edge_row_id x = edge_row_id e)) as [Hxv|Hxv].
      * assert (x = e0) as -> by (apply (NoDup_fmap_inj_on edge_row_id edges); [done|done|done|congruence]).
        rewrite decide_True by (by apply Hsel). unfold stored_edge, set_edge_retired, retire_edge_row, retired_column. cbn. by destruct (Z.eqb_spec rev 0); [lia|].
      * by rewrite decide_False by (rewrite Hsel; tauto).
    + intros q Hq. apply filter_map_other; [intros r _; by destruct (decide _)|]. intros r _ Hr. rewrite decide_False; [done|]. intros [? _]. congruence.
  - cbn. rewrite andb_true_r. by apply Z.ltb_lt.
  - by rewrite Hrev, orb_true_r.
Qed.

Definition retire_versions (rev : Z) (vs : list (string * Z)) (r : NodeVersion) : NodeVersion := if decide (version r ∈ vs) then retire_node_row rev r else r.
Definition retire_edge_ids (rev : Z) (ids : list string) (r : EdgeRow) : EdgeRow := if decide (edge_row_id r ∈ ids) then retire_edge_row rev r else r.

Lemma retire_versions_cons rev v vs r : retire_versions rev vs (retire_version rev v r) = retire_versions rev (v :: vs) r.
Proof.
  unfold retire_versions, retire_version. destruct (decide (version r = v)) as [E|E].
  - rewrite (decide_True (P := version r ∈ v :: vs)) by (rewrite E; by left). by destruct (decide _).
  - destruct (decide (version r ∈ vs)) as [H|H]; [by rewrite decide_True by (by right)|]. rewrite decide_False; [done|]. by intros [?|?]%elem_of_cons.
Qed.

Lemma retire_edge_ids_cons rev v vs r : retire_edge_ids rev vs (retire_edge_id rev v r) = retire_edge_ids rev (v :: vs) r.
Proof.
  unfold retire_edge_ids, retire_edge_id. destruct (decide (edge_row_id r = v)) as [E|E].
  - rewrite (decide_True (P := edge_row_id r ∈ v :: vs)) by (rewrite E; by left). by destruct (decide _).
  - destruct (decide (edge_row_id r ∈ vs)) as [H|H]; [by rewrite decide_True by (by right)|]. rewrite decide_False; [done|]. by intros [?|?]%elem_of_cons.
Qed.

Lemma other_nodes_trans plan l1 l2 l3 : other_nodes plan l1 l2 → other_nodes plan l2 l3 → other_nodes plan l1 l3.
Proof. intros H1 H2 q Hq. by rewrite H2, H1. Qed.

Lemma other_edges_trans plan l1 l2 l3 : other_edges plan l1 l2 → other_edges plan l2 l3 → other_edges plan l1 l3.
Proof. intros H1 H2 q Hq. by rewrite H2, H1. Qed.

Section retire_all.
Context (plan : string) (rev : Z) (Hpos : (0 < rev)%Z).

Definition retirable_node (nodes : list NodeVersion) (n : NodeVersion) : Prop :=
  ∃ n0, n0 ∈ nodes ∧ live_node n0 ∧ version n = version n0 ∧ (NVIntroducedRev n0 < rev)%Z.
Definition retirable_edge (edges : list EdgeRow) (e : EdgeRow) : Prop :=
  ∃ e0, e0 ∈ edges ∧ live_edge e0 ∧ edge_row_id e = edge_row_id e0 ∧ (ERIntroducedRev e0 < rev)%Z.

Lemma retire_nodes_ok ns : ∀ st nodes,
  plan_node_rows st plan = stored_node plan <$> nodes → NoDup (version <$> nodes) → has_revision st plan rev = true →
  NoDup (version <$> ns) → Forall (retirable_node nodes) ns →
  ∃ l, each (retire_node_rows plan rev) ns st = Ok (with_nodes st l) ∧
    nodes_of plan l = stored_node plan <$> (retire_versions rev (version <$> ns) <$> nodes) ∧ other_nodes plan (NodeRows st) l.
Proof.
  induction ns as [|n ns IH]; intros st nodes E Hnd Hrev Hns Hall.
  - exists (NodeRows st). split; [by destruct st|]. split; [|done]. rewrite (list_fmap_ext _ id nodes) by done. by rewrite list_fmap_id.
  - apply Forall_cons in Hall as [(n0 & H0 & Hl & Hv & Hlt) Hall]. apply NoDup_cons in Hns as [Hn Hns]. cbn [each].
    destruct (retire_node_ok st plan rev nodes n0 n) as (l & -> & El & Ho); [done..|].
    destruct (IH (with_nodes st l) (retire_version rev (version n) <$> nodes)) as (l' & -> & El' & Ho'); [exact El| |exact Hrev|done| |].
    + rewrite <- list_fmap_compose. erewrite list_fmap_ext; [exact Hnd|]. intros i r _. unfold retire_version. cbn. by destruct (decide _).
    + rewrite Forall_forall in Hall |- *. intros m Hm. destruct (Hall m Hm) as (m0 & Hm0 & ? & Emv & ?). exists m0. split; [|done].
      apply list_elem_of_fmap. exists m0. split; [|done]. unfold retire_version. rewrite decide_False; [done|]. intros Em. apply Hn. rewrite <- Em, <- Emv.
      by apply (list_elem_of_fmap_2 version).
    + exists l'. split; [done|]. split; [|by eapply other_nodes_trans]. rewrite El'. f_equal. rewrite <- list_fmap_compose. apply list_fmap_ext.
      intros i r _. apply retire_versions_cons.
Qed.

Lemma retire_edges_ok es : ∀ st edges,
  plan_edge_rows st plan = stored_edge plan <$> edges → NoDup (edge_row_id <$> edges) → has_revision st plan rev = true →
  NoDup (edge_row_id <$> es) → Forall (retirable_edge edges) es →
  ∃ l, each (retire_edge_rows plan rev) es st = Ok (with_edges st l) ∧
    edges_of plan l = stored_edge plan <$> (retire_edge_ids rev (edge_row_id <$> es) <$> edges) ∧ other_edges plan (EdgeRows st) l.
Proof.
  induction es as [|e es IH]; intros st edges E Hnd Hrev Hes Hall.
  - exists (EdgeRows st). split; [by destruct st|]. split; [|done]. rewrite (list_fmap_ext _ id edges) by done. by rewrite list_fmap_id.
  - apply Forall_cons in Hall as [(e0 & H0 & Hl & Hv & Hlt) Hall]. apply NoDup_cons in Hes as [He Hes]. cbn [each].
    destruct (retire_edge_ok st plan rev edges e0 e) as (l & -> & El & Ho); [done..|].
    destruct (IH (with_edges st l) (retire_edge_id rev (edge_row_id e) <$> edges)) as (l' & -> & El' & Ho'); [exact El| |exact Hrev|done| |].
    + rewrite <- list_fmap_compose. erewrite list_fmap_ext; [exact Hnd|]. intros i r _. unfold retire_edge_id. cbn. by destruct (decide _).
    + rewrite Forall_forall in Hall |- *. intros m Hm. destruct (Hall m Hm) as (m0 & Hm0 & ? & Emv & ?). exists m0. split; [|done].
      apply list_elem_of_fmap. exists m0. split; [|done]. unfold retire_edge_id. rewrite decide_False; [done|]. intros Em. apply He. rewrite <- Em, <- Emv.
      by apply (list_elem_of_fmap_2 edge_row_id).
    + exists l'. split; [done|]. split; [|by eapply other_edges_trans]. rewrite El'. f_equal. rewrite <- list_fmap_compose. apply list_fmap_ext.
      intros i r _. apply retire_edge_ids_cons.
Qed.
End retire_all.

(** *** Inserting *)
Lemma authority_not_empty l : wf_authorities l → authorityText l ≠ Some "[]".
Proof.
  intros Hw E. pose proof (parse_authority l Hw) as Hp. rewrite E in Hp. assert (parseAuthority "[]" = Ok []) as Hn by (vm_compute; reflexivity).
  cbn in Hp. rewrite Hn in Hp. injection Hp as <-. done.
Qed.

Lemma not_null_nullable s : not_null (nullable s) = negb (bool_decide (s = "")).
Proof. unfold nullable. by case_bool_decide. Qed.

(** The CHECKs of dag_edges follow from the output matrix. *)
Lemma edge_checks plan nodes e :
  wf_edge (EREdge e) → edge_ok nodes (EREdge e) → let row := edge_table_row plan e in
  bool_decide (et_from row = et_to row) = false ∧
  negb (bool_decide (et_kind row = EdgeIntegrated)) || (not_null (et_repository row) && not_null (et_base row)) = true ∧
  bool_decide (et_pins row = 0%Z) || (not_null (et_repository row) && not_null (et_base row)) = true ∧
  negb (bool_decide (et_kind row = EdgeDecision)) ||
    (not_null (et_subject row) && not_null (et_digest row) && not_null (et_authority row) && negb (bool_decide (et_authority row = Some "[]"))) = true.
Proof.
  intros Hw (Hne & _ & from & _ & Hc). cbn. rewrite !not_null_nullable. pose proof (authority_not_empty _ (we_auth _ Hw)) as Ha.
  rewrite (bool_decide_eq_false_2 (authorityText _ = _)) by done. unfold authorityText. unfold edge_conforms, no_code_fields, no_decision_fields in Hc.
  rewrite bool_decide_eq_false_2 by done. split; [done|].
  destruct (decide (EKind (EREdge e) = EdgeArtifactVerified)) as [->|H1]; [|destruct (decide (EKind (EREdge e) = EdgeIntegrated)) as [->|H2];
    [|destruct (decide (EKind (EREdge e) = EdgeDecision)) as [->|H3]]].
  - destruct Hc as [_ Hc]. case_decide; destruct Hc as (Hp & ? & ?); rewrite Hp, ?(bool_decide_eq_false_2 (_ = "")) by done; done.
  - destruct Hc as (_ & ? & ? & -> & _). by rewrite !(bool_decide_eq_false_2 (_ = "")) by done.
  - destruct Hc as (_ & ? & ? & ? & -> & _). by rewrite (bool_decide_eq_false_2 (DecisionSubject _ = "")), (bool_decide_eq_false_2 (DecisionDigest _ = "")), (bool_decide_eq_false_2 (_ = [])) by done.
  - destruct Hc as [(-> & _) _]. by rewrite (bool_decide_eq_false_2 (_ = EdgeIntegrated)), (bool_decide_eq_false_2 (_ = EdgeDecision)) by done.
Qed.

Section insert_all.
Context (plan : string) (rev : Z).

Lemma insert_nodes_ok ns : ∀ st nodes,
  plan_node_rows st plan = stored_node plan <$> nodes → has_plan st plan = true → has_revision st plan rev = true →
  NoDup (version <$> (nodes ++ ns)%list) → NoDup (node_row_id <$> filter live_node (nodes ++ ns)%list) →
  Forall (λ n, wf_node (NVNode n) ∧ NVIntroducedRev n = rev ∧ NVRetiredRev n = 0%Z) ns →
  ∃ l, each (λ n st, insert_node st (node_table_row plan n)) ns st = Ok (with_nodes st l) ∧
    nodes_of plan l = stored_node plan <$> (nodes ++ ns)%list ∧ other_nodes plan (NodeRows st) l.
Proof.
  induction ns as [|n ns IH]; intros st nodes E Hp Hrev Hv Hl Hall.
  - exists (NodeRows st). rewrite app_nil_r. split; [by destruct st|]. done.
  - apply Forall_cons in Hall as [(Hw & Hi & Hr) Hall]. cbn [each].
    assert (node_table_row plan n = stored_node plan n) as En by (unfold node_table_row, stored_node, retired_column; by rewrite Hr).
    rewrite cons_middle, (assoc_L (++)%list) in Hv, Hl |- *.
    assert (insert_node st (node_table_row plan n) = Ok (with_nodes st (NodeRows st ++ [stored_node plan n])%list)) as ->.
    { unfold insert_node. rewrite <- En. cbv zeta. rewrite !demand_ok; cbn [node_table_row nr_plan nr_id nr_introduced nr_retired nr_kind]; rewrite ?Hi; try done.
      - rewrite existsb_false; [done|]. intros r Hrow (Hpl & Hid & Hn). destruct (stored_row_inv _ _ _ _ E Hrow Hpl) as (m & Hm & ->).
        apply retired_column_none in Hn. rewrite filter_app, fmap_app in Hl. apply NoDup_app in Hl as [Hl _]. rewrite filter_app, fmap_app in Hl.
        apply NoDup_app in Hl as (_ & Hl & _). apply (Hl (node_row_id n)).
        + cbn in Hid. rewrite <- Hid. apply list_elem_of_fmap_2, list_elem_of_filter. done.
        + rewrite filter_cons_True by done. by left.
      - rewrite existsb_false; [done|]. intros r Hrow (Hpl & Hid & Hn). destruct (stored_row_inv _ _ _ _ E Hrow Hpl) as (m & Hm & ->).
        rewrite !fmap_app in Hv. apply NoDup_app in Hv as [Hv _]. apply NoDup_app in Hv as (_ & Hv & _). apply (Hv (version n)).
        + cbn in Hid, Hn. rewrite Hi, <- Hid, <- Hn. by apply (list_elem_of_fmap_2 version).
        + by left.
      - apply bool_decide_eq_true_2. apply (wn_kind _ Hw). }
    destruct (IH (with_nodes st (NodeRows st ++ [stored_node plan n])%list) (nodes ++ [n])%list) as (l & -> & El & Ho); try done.
    + cbn. rewrite filter_app. unfold plan_node_rows in E. rewrite E, fmap_app. by rewrite filter_cons_True.
    + exists l. split; [done|]. split; [done|]. intros q Hq. rewrite (Ho q Hq). cbn. rewrite filter_app, filter_cons_False by (cbn; congruence). by rewrite app_nil_r.
Qed.

Lemma insert_edges_ok nodes es : ∀ st edges,
  plan_edge_rows st plan = stored_edge plan <$> edges → has_plan st plan = true → has_revision st plan rev = true →
  NoDup (edge_row_id <$> (edges ++ es)%list) →
  Forall (λ e, wf_edge (EREdge e) ∧ edge_ok nodes (EREdge e) ∧ ERIntroducedRev e = rev ∧ ERRetiredRev e = 0%Z) es →
  ∃ l, each (λ e st, insert_edge st (edge_table_row plan e)) es st = Ok (with_edges st l) ∧
    edges_of plan l = stored_edge plan <$> (edges ++ es)%list ∧ other_edges plan (EdgeRows st) l.
Proof.
  induction es as [|e es IH]; intros st edges E Hp Hrev Hv Hall.
  - exists (EdgeRows st). rewrite app_nil_r. split; [by destruct st|]. done.
  - apply Forall_cons in Hall as [(Hw & Hok & Hi & Hr) Hall]. cbn [each].
    assert (edge_table_row plan e = stored_edge plan e) as Ee by (unfold edge_table_row, stored_edge, retired_column; by rewrite Hr).
    rewrite cons_middle, (assoc_L (++)%list) in Hv |- *.
    assert (insert_edge st (edge_table_row plan e) = Ok (with_edges st (EdgeRows st ++ [stored_edge plan e])%list)) as ->.
    { destruct (edge_checks plan nodes e Hw Hok) as (C1 & C2 & C3 & C4). unfold insert_edge. rewrite <- Ee. cbv zeta.
      rewrite !demand_ok; rewrite ?C1, ?C2, ?C3, ?C4; cbn [edge_table_row et_plan et_id et_introduced et_retired et_kind et_pins]; rewrite ?Hi; try done.
      - rewrite existsb_false; [done|]. intros r Hrow (Hpl & Hid). destruct (stored_edge_inv _ _ _ _ E Hrow Hpl) as (m & Hm & ->).
        rewrite !fmap_app in Hv. apply NoDup_app in Hv as [Hv _]. apply NoDup_app in Hv as (_ & Hv & _). apply (Hv (edge_row_id e)).
        + cbn in Hid. unfold edge_row_id at 1. rewrite <- Hid. by apply (list_elem_of_fmap_2 edge_row_id).
        + by left.
      - apply bool_decide_eq_true_2. destruct (PinsCodeHead _); auto.
      - apply bool_decide_eq_true_2. apply (we_kind _ Hw). }
    destruct (IH (with_edges st (EdgeRows st ++ [stored_edge plan e])%list) (edges ++ [e])%list) as (l & -> & El & Ho); try done.
    + cbn. rewrite filter_app. unfold plan_edge_rows in E. rewrite E, fmap_app. by rewrite filter_cons_True.
    + exists l. split; [done|]. split; [done|]. intros q Hq. rewrite (Ho q Hq). cbn. rewrite filter_app, filter_cons_False by (cbn; congruence). by rewrite app_nil_r.
Qed.
End insert_all.

(** ** writeDiff *)
Section write.
Context (prev : State) (cs : list Change) (strict : bool) (next : State) (d : Diff) (a : acc) (life : list LifeRow) (p : plan).
Hypothesis Hinv : plan_inv prev.
Hypothesis Hacc : accepted prev cs strict next d a life p.
Hypothesis Hrows : rows_ok prev.
Hypothesis Hwf : Forall wf_change cs.
Hypothesis Hnext : plan_inv next.

Let leaves := node_leaves (a_live a) (a_liveEdges a).
Let leavesE := edge_leaves (a_liveEdges a).

Lemma retired_nodes : RetireNodes d = retire_node_row (SRevision next) <$> filter leaves (SNodes prev).
Proof. by rewrite (next_revision _ _ _ _ _ _ _ _ Hacc), (ac_diff _ _ _ _ _ _ _ _ Hacc). Qed.

Lemma retired_edges : RetireEdges d = retire_edge_row (SRevision next) <$> filter leavesE (SEdges prev).
Proof. by rewrite (next_revision _ _ _ _ _ _ _ _ Hacc), (ac_diff _ _ _ _ _ _ _ _ Hacc). Qed.

Lemma retired_versions : version <$> RetireNodes d = version <$> filter leaves (SNodes prev).
Proof. rewrite retired_nodes, <- list_fmap_compose. done. Qed.

Lemma retired_edge_ids : edge_row_id <$> RetireEdges d = edge_row_id <$> filter leavesE (SEdges prev).
Proof. rewrite retired_edges, <- list_fmap_compose. done. Qed.

Lemma retire_next_nodes :
  retire_versions (SRevision next) (version <$> RetireNodes d) <$> SNodes prev = next_node_row prev (a_live a) (a_liveEdges a) <$> SNodes prev.
Proof.
  rewrite retired_versions, (next_revision _ _ _ _ _ _ _ _ Hacc). apply list_fmap_ext. intros i r Hr%list_elem_of_lookup_2. unfold retire_versions, next_node_row.
  fold (leaves r). destruct (decide (leaves r)) as [Hl|Hl].
  - rewrite decide_True by (apply (list_elem_of_fmap_2 version), list_elem_of_filter; done). done.
  - rewrite decide_False; [done|]. intros (r' & E & [Hl' Hr']%list_elem_of_filter)%list_elem_of_fmap. apply Hl.
    by rewrite (NoDup_fmap_inj_on version (SNodes prev) r r' (pi_versions _ Hinv) Hr Hr' E).
Qed.

Lemma retire_next_edges :
  retire_edge_ids (SRevision next) (edge_row_id <$> RetireEdges d) <$> SEdges prev = next_edge_row prev (a_liveEdges a) <$> SEdges prev.
Proof.
  rewrite retired_edge_ids, (next_revision _ _ _ _ _ _ _ _ Hacc). apply list_fmap_ext. intros i r Hr%list_elem_of_lookup_2. unfold retire_edge_ids, next_edge_row.
  fold (leavesE r). destruct (decide (leavesE r)) as [Hl|Hl].
  - rewrite decide_True by (apply (list_elem_of_fmap_2 edge_row_id), list_elem_of_filter; done). done.
  - rewrite decide_False; [done|]. intros (r' & E & [Hl' Hr']%list_elem_of_filter)%list_elem_of_fmap. apply Hl.
    by rewrite (NoDup_fmap_inj_on edge_row_id (SEdges prev) r r' (pi_edge_ids _ Hinv) Hr Hr' E).
Qed.

Lemma retirable_nodes : Forall (retirable_node (SRevision next) (SNodes prev)) (RetireNodes d).
Proof.
  rewrite retired_nodes. apply Forall_fmap, Forall_forall. intros r [[Hl _] Hr]%list_elem_of_filter. exists r.
  pose proof (pi_nodes _ Hinv r Hr) as [? _]. rewrite (next_revision _ _ _ _ _ _ _ _ Hacc). split_and!; [done|done|done|lia].
Qed.

Lemma retirable_edges : Forall (retirable_edge (SRevision next) (SEdges prev)) (RetireEdges d).
Proof.
  rewrite retired_edges. apply Forall_fmap, Forall_forall. intros r [[Hl _] Hr]%list_elem_of_filter. exists r.
  pose proof (pi_edges _ Hinv r Hr) as [? _]. rewrite (next_revision _ _ _ _ _ _ _ _ Hacc). split_and!; [done|done|done|lia].
Qed.

Lemma writeDiff_ok st plan :
  plan_node_rows st plan = stored_node plan <$> SNodes prev → plan_edge_rows st plan = stored_edge plan <$> SEdges prev →
  has_plan st plan = true → has_revision st plan (SRevision next) = true →
  ∃ nl el, writeDiff plan (SRevision next) d st = Ok (with_edges (with_nodes st nl) el) ∧
    nodes_of plan nl = stored_node plan <$> SNodes next ∧ edges_of plan el = stored_edge plan <$> SEdges next ∧
    other_nodes plan (NodeRows st) nl ∧ other_edges plan (EdgeRows st) el.
Proof.
  intros En Ee Hp Hr. unfold writeDiff. assert (0 < SRevision next)%Z as Hpos by (rewrite (next_revision _ _ _ _ _ _ _ _ Hacc); pose proof (pi_rev _ Hinv); lia).
  destruct (retire_nodes_ok plan (SRevision next) Hpos (RetireNodes d) st (SNodes prev)) as (l1 & -> & E1 & O1);
    [done|apply (pi_versions _ Hinv)|done|rewrite retired_versions; apply NoDup_fmap_filter, (pi_versions _ Hinv)|apply retirable_nodes|].
  destruct (retire_edges_ok plan (SRevision next) Hpos (RetireEdges d) (with_nodes st l1) (SEdges prev)) as (l2 & -> & E2 & O2);
    [done|apply (pi_edge_ids _ Hinv)|done|rewrite retired_edge_ids; apply NoDup_fmap_filter, (pi_edge_ids _ Hinv)|apply retirable_edges|].
  rewrite retire_next_nodes in E1. rewrite retire_next_edges in E2.
  pose proof (next_nodes _ _ _ _ _ _ _ _ Hacc) as Hn. pose proof (next_edges _ _ _ _ _ _ _ _ Hacc) as He.
  destruct (insert_nodes_ok plan (SRevision next) (InsertNodes d) (with_edges (with_nodes st l1) l2) (next_node_row prev (a_live a) (a_liveEdges a) <$> SNodes prev))
    as (l3 & -> & E3 & O3);
    [done|done|done|rewrite <- Hn; apply (pi_versions _ Hnext)|rewrite <- Hn; apply (pi_live_ids _ Hnext)|apply Forall_forall; intros r Hin; exact (insert_node_wf _ _ _ _ _ _ _ _ Hinv Hacc Hrows Hwf r Hin)|].
  destruct (insert_edges_ok plan (SRevision next) (a_live a) (InsertEdges d) (with_nodes (with_edges (with_nodes st l1) l2) l3) (next_edge_row prev (a_liveEdges a) <$> SEdges prev))
    as (l4 & -> & E4 & O4);
    [done|done|done|rewrite <- He; apply (pi_edge_ids _ Hnext)|apply Forall_forall; intros r Hin; exact (insert_edge_wf _ _ _ _ _ _ _ _ Hacc Hrows Hwf r Hin)|].
  exists l3, l4. split; [done|]. rewrite E3, E4, <- Hn, <- He. split_and!; [done|done|by eapply other_nodes_trans|by eapply other_edges_trans].
Qed.
End write.
