(* ===== verification/DagRepoProps.v ===== *)
(** * DagRepoProps: what the store of plans promises.

    [store_inv] is the invariant of the DAG zone: every plan with a header is stored, with a log that is not empty, and no rows belong to another plan.
    [Put] preserves it, and on it the readers return the plan of the log. *)
From S2P Require Import Prelude GoLib Sha256 Json Loads Utf8 JsonText JsonRoundtrip JsonLoaded DagModel DagLifecycle DagGraph DagAcyclic DagFold DagInvariant DagPlan DagProps DagReplay DagDecode DagDecodeProps DagStore DagRepo DagStored DagWrite.
Local Open Scope string_scope.

Record store_inv (st : Store) : Prop := {
  si_plans : NoDup (pr_plan <$> Plans st);
  si_stored : ∀ r, r ∈ Plans st → pr_project r ≠ "" ∧ ∃ evs s, plan_stored st (pr_plan r) (pr_project r) evs s ∧ evs ≠ [];
  si_free : ∀ plan, plan ∉ (pr_plan <$> Plans st) → plan_revisions st plan = [] ∧ plan_node_rows st plan = [] ∧ plan_edge_rows st plan = []
}.

(** ** Headers *)
Lemma loadHeader_Some st plan project : loadHeader st plan = Some project → ∃ r, r ∈ Plans st ∧ pr_plan r = plan ∧ pr_project r = project.
Proof.
  unfold loadHeader. destruct (List.find _ (Plans st)) as [r|] eqn:E; [|done]. intros [= <-]. apply find_some in E as [Hr Hp].
  apply bool_decide_eq_true in Hp. apply list_elem_of_In in Hr. eauto.
Qed.

Lemma loadHeader_None st plan : loadHeader st plan = None ↔ plan ∉ (pr_plan <$> Plans st).
Proof.
  unfold loadHeader. destruct (List.find _ (Plans st)) as [r|] eqn:E; cbn.
  - apply find_some in E as [Hr Hp]. apply bool_decide_eq_true in Hp. apply list_elem_of_In in Hr. split; [done|]. intros []. rewrite <- Hp. by apply list_elem_of_fmap_2.
  - split; [|done]. intros _ (r & -> & Hr)%list_elem_of_fmap. apply list_elem_of_In in Hr. pose proof (find_none _ _ E r Hr) as Hn. cbn in Hn.
    by rewrite bool_decide_eq_true_2 in Hn.
Qed.

Lemma has_plan_header st plan : has_plan st plan = not_null (loadHeader st plan).
Proof.
  unfold has_plan. destruct (loadHeader st plan) as [project|] eqn:E; cbn.
  - apply loadHeader_Some in E as (r & Hr & Hp & _). by apply (existsb_true _ _ r).
  - apply existsb_false. intros r Hr <-. apply loadHeader_None in E. apply E. by apply list_elem_of_fmap_2.
Qed.

Lemma header_stored st plan project : store_inv st → loadHeader st plan = Some project → project ≠ "" ∧ ∃ evs s, plan_stored st plan project evs s ∧ evs ≠ [].
Proof. intros Hi (r & Hr & <- & <-)%loadHeader_Some. by apply (si_stored _ Hi). Qed.

Lemma no_header_stored st plan project : store_inv st → loadHeader st plan = None → plan_stored st plan project [] (empty_plan plan project).
Proof.
  intros Hi Hn%loadHeader_None. destruct (si_free _ Hi plan Hn) as (E1 & E2 & E3). split; [constructor|constructor|by rewrite E1|done|done|].
  split; constructor.
Qed.

(** The same rows of a plan. *)
Definition same_rows (q : string) (st st' : Store) : Prop :=
  plan_revisions st' q = plan_revisions st q ∧ plan_node_rows st' q = plan_node_rows st q ∧ plan_edge_rows st' q = plan_edge_rows st q.

Lemma stored_frame st st' q project evs s : same_rows q st st' → plan_stored st q project evs s → plan_stored st' q project evs s.
Proof. intros (E1 & E2 & E3) [H1 H2 H3 H4 H5 H6]. split; rewrite ?E1, ?E2, ?E3; done. Qed.

(** ** The rows of a new revision *)
Lemma wf_named cs : Forall wf_change cs → named cs = true.
Proof.
  intros H. apply forallb_forall. intros c Hc%list_elem_of_In. rewrite Forall_forall in H. specialize (H c Hc). unfold named_change.
  destruct (CNode c) as [n|] eqn:E; [|done]. rewrite bool_decide_eq_false_2; [done|]. by apply wf_id_nonempty, (wn_id _ (wf_change_node _ _ H E)).
Qed.

Lemma Apply_changes prev rev next d : Apply prev rev = Some (next, d, []) →
  (SProjectKey prev = "" ∨ SProjectKey prev = RProjectKey rev) ∧ applyChanges (with_project prev (RProjectKey rev)) (RChanges rev) true = Some (next, d, []).
Proof.
  unfold Apply. intros H. destruct (decide (SProjectKey prev = "")) as [E|E].
  - rewrite (bool_decide_eq_true_2 (SProjectKey prev = "")) in H by done. cbn [negb andb app] in H.
    destruct (applyChanges _ _ _) as [[[n dd] more]|]; [|done]. cbn in H. simplify_eq. split; [by left|done].
  - rewrite (bool_decide_eq_false_2 (SProjectKey prev = "")) in H by done. destruct (decide (RProjectKey rev = SProjectKey prev)) as [E'|E'].
    + rewrite bool_decide_eq_true_2 in H by done. cbn in H. assert (with_project prev (RProjectKey rev) = prev) as -> by (rewrite E'; by destruct prev).
      destruct (applyChanges _ _ _) as [[[n dd] more]|]; [|done]. cbn in H. simplify_eq. split; [by right|done].
    + rewrite bool_decide_eq_false_2 in H by done. cbn in H. by destruct (applyChanges _ _ _) as [[[n dd] more]|].
Qed.

Lemma plan_revisions_snoc st l r q :
  plan_revisions (with_revisions st (l ++ [r])%list) q = (filter (λ r, rr_plan r = q) l ++ if decide (rr_plan r = q) then [r] else [])%list.
Proof. unfold plan_revisions. cbn. rewrite filter_app, filter_cons. by destruct (decide _). Qed.

(** The event a committed request leaves in the log. *)
Definition event_of (rev : Revision) (digest now : string) (parent : Z) (next : State) : Event :=
  mkEvent (RPlanID rev) (SRevision next) parent (RRequestID rev) digest (RCoordinatorEpoch rev) (RAuthorTaskID rev) now (RChanges rev)
    (SnapStateDigest (At next (SRevision next))).

Lemma plan_revision_elem st plan r : r ∈ Revisions st → rr_plan r = plan → r ∈ plan_revisions st plan.
Proof. intros. by apply list_elem_of_filter. Qed.

Lemma stored_revision st plan project evs s r : plan_stored st plan project evs s → r ∈ plan_revisions st plan →
  (1 ≤ rr_no r ≤ SRevision s)%Z ∧ rr_parent r = (rr_no r - 1)%Z ∧ rr_request r ∈ (EvRequestID <$> evs).
Proof.
  intros Hst (i & Hi)%list_elem_of_lookup. destruct (Forall2_lookup_l _ _ _ _ _ (revisions_Forall2 _ _ _ _ _ Hst) Hi) as (ev & Hev & Hs).
  destruct (scanEvent_fields _ _ Hs) as (_ & E1 & E2 & E3). destruct (history_numbers _ _ _ (ps_log _ _ _ _ _ Hst) (plan_inv_empty _ _) i ev Hev) as [N1 N2].
  cbn in N1, N2. rewrite E1, E2, E3, N1, N2, (stored_length _ _ _ _ _ Hst). pose proof (lookup_lt_Some _ _ _ Hev). split; [lia|]. split; [lia|].
  by eapply list_elem_of_fmap_2, list_elem_of_lookup_2.
Qed.

Definition plan_row (rev : Revision) (now : string) : PlanRow := mkPlanRow (RPlanID rev) (RProjectKey rev) (RAuthorTaskID rev) now.
Definition revision_row (rev : Revision) (digest now changes : string) (parent : Z) (next : State) : RevRow :=
  mkRevRow (RPlanID rev) (SRevision next) parent (RRequestID rev) digest changes (SnapStateDigest (At next (SRevision next))) (RCoordinatorEpoch rev)
    (RAuthorTaskID rev) now.

Section put_rows.
Context (st : Store) (rev : Revision) (digest now changes : string) (evs : list Event) (prev next : State) (d : Diff).
Let plan := RPlanID rev.
Let project := RProjectKey rev.
Let ev := event_of rev digest now (SRevision prev) next.
Let row := revision_row rev digest now changes (SRevision prev) next.
Hypothesis Hst : plan_stored st plan project evs prev.
Hypothesis Hwf : wf_revision rev.
Hypothesis Happ : applyChanges prev (RChanges rev) true = Some (next, d, []).
Hypothesis Hchanges : ChangesJSON (RChanges rev) = Some changes.
Hypothesis Hnew : RRequestID rev ∉ (EvRequestID <$> evs).

Lemma put_accepted : ∃ a life p, accepted prev (RChanges rev) true next d a life p.
Proof. apply outcome_accepted; [by eapply stored_inv|done]. Qed.

Lemma put_next_revision : SRevision next = (SRevision prev + 1)%Z.
Proof. destruct put_accepted as (a & life & p & Hacc). by eapply next_revision. Qed.

Lemma put_next_inv : plan_inv next.
Proof. destruct put_accepted as (a & life & p & Hacc). eapply plan_inv_next; [by eapply stored_inv|exact Hacc|]. apply wf_named, (wr_changes _ Hwf). Qed.

Lemma put_header : ∃ pl,
  (if not_null (loadHeader st plan) then Ok st else insert_plan st (plan_row rev now)) = Ok (with_plans st pl) ∧
  pl = (Plans st ++ if not_null (loadHeader st plan) then [] else [plan_row rev now])%list ∧ has_plan (with_plans st pl) plan = true.
Proof.
  pose proof (has_plan_header st plan) as Hp. destruct (not_null (loadHeader st plan)) eqn:E.
  - exists (Plans st). rewrite app_nil_r. split; [by destruct st|done].
  - eexists. split; [|split; [done|]].
    + unfold insert_plan. rewrite !demand_ok; [done| |]; cbn [plan_row pr_plan pr_project]; [|by fold plan; rewrite Hp].
      rewrite bool_decide_eq_false_2; [done|]. by apply wf_id_nonempty, (wr_project _ Hwf).
    + unfold has_plan. cbn. rewrite existsb_app. cbn. fold plan. by rewrite bool_decide_eq_true_2, orb_true_r.
Qed.

(** The head of a plan is a revision of it. *)
Lemma head_there : (0 < SRevision prev)%Z → has_revision st plan (SRevision prev) = true.
Proof.
  rewrite <- (headRevision_stored _ _ _ _ _ Hst). fold plan. unfold headRevision, has_revision. intros H0. apply existsb_exists. assert (∃ r, r ∈ plan_revisions st plan ∧ rr_no r = foldr (λ r m, Z.max (rr_no r) m) 0%Z (plan_revisions st plan)) as (r & Hr & E).
  { induction (plan_revisions st plan) as [|r l IH]; cbn in *; [lia|]. destruct (Z.max_spec (rr_no r) (foldr (λ r m, Z.max (rr_no r) m) 0%Z l)) as [[Hlt E]|[_ E]]; rewrite E in *; [|by exists r; split; [left|]]. destruct IH as (x & Hx & Ex); [lia|]. exists x. by split; [right|]. }
  exists r. apply list_elem_of_filter in Hr as [Hp Hr]. split; [by apply list_elem_of_In|]. by apply bool_decide_eq_true.
Qed.

Lemma put_revision pl : has_plan (with_plans st pl) plan = true →
  insert_revision (with_plans st pl) row = Ok (with_revisions (with_plans st pl) (Revisions st ++ [row])%list).
Proof.
  intros Hp. pose proof put_next_revision as Hn. pose proof (pi_rev _ (stored_inv _ _ _ _ _ Hst)) as H0.
  assert (∀ r, r ∈ Revisions st → rr_plan r = plan → (rr_no r ≤ SRevision prev)%Z ∧ rr_parent r = (rr_no r - 1)%Z ∧ rr_request r ∈ (EvRequestID <$> evs)) as Hr.
  { intros r Hr Ep. destruct (stored_revision _ _ _ _ _ r Hst) as ([_ ?] & ? & ?); [by apply plan_revision_elem|done]. }
  unfold insert_revision. cbn [row revision_row rr_plan rr_no rr_parent rr_request rr_epoch]. rewrite !demand_ok; try done.
  - apply Z.eqb_eq. lia.
  - rewrite existsb_false; [done|]. intros r Hin [Ep Eq]. destruct (Hr r Hin Ep) as (? & ? & _). lia.
  - rewrite existsb_false; [done|]. intros r Hin [Ep Eq]. destruct (Hr r Hin Ep) as (_ & _ & Hq). rewrite Eq in Hq. done.
  - unfold has_revision. rewrite existsb_false; [done|]. intros r Hin [Ep Eq]. destruct (Hr r Hin Ep) as (? & _). lia.
  - apply Z.leb_le, (wr_epoch _ Hwf).
  - rewrite bool_decide_eq_false_2; [done|]. by apply wf_id_nonempty, (wr_request _ Hwf).
  - apply Z.leb_le. lia.
  - destruct (Z.ltb_spec 0 (SRevision prev)) as [Hh|]; [|done]. cbn. rewrite negb_involutive. exact (head_there Hh).
Qed.

Lemma scan_revision_row : scanEvent row = Ok ev.
Proof. unfold scanEvent. cbn [row revision_row rr_change_json]. by rewrite (changes_read_back (RChanges rev)) by (done || apply (wr_changes _ Hwf)). Qed.

Lemma queryEvents_snoc rows : queryEvents rows = Ok evs → queryEvents (rows ++ [row])%list = Ok (evs ++ [ev])%list.
Proof. rewrite !queryEvents_ok. intros H. apply Forall2_app; [done|]. repeat constructor. apply scan_revision_row. Qed.

Lemma put_log : history (empty_plan plan project) (evs ++ [ev])%list next.
Proof.
  eapply history_app; [apply (ps_log _ _ _ _ _ Hst)|]. eapply history_cons; [apply wf_named, (wr_changes _ Hwf)|done| |exact Happ|done|constructor].
  apply put_next_revision.
Qed.

Lemma put_requests : NoDup (EvRequestID <$> (evs ++ [ev])%list).
Proof.
  rewrite fmap_app. apply NoDup_app. split; [apply (ps_requests _ _ _ _ _ Hst)|]. split; [|apply NoDup_singleton].
  intros q Hq ->%list_elem_of_singleton. done.
Qed.

Lemma put_rows_ok : ∃ st', put_rows st rev digest now changes (SRevision prev) (not_null (loadHeader st plan)) next d = Ok st' ∧
  Plans st' = (Plans st ++ if not_null (loadHeader st plan) then [] else [plan_row rev now])%list ∧ Claims st' = Claims st ∧ Bindings st' = Bindings st ∧
  plan_stored st' plan project (evs ++ [ev])%list next ∧ ∀ q, q ≠ plan → same_rows q st st'.
Proof.
  destruct put_header as (pl & Epl & -> & Hp). set (pl := (Plans st ++ _)%list) in *. pose proof (put_revision pl Hp) as Erow.
  destruct put_accepted as (a & life & p & Hacc). pose proof (stored_inv _ _ _ _ _ Hst) as Hi.
  set (st2 := with_revisions (with_plans st pl) (Revisions st ++ [row])%list) in *.
  destruct (writeDiff_ok _ _ _ _ _ _ _ _ Hi Hacc (ps_rows _ _ _ _ _ Hst) (proj2 (wr_changes _ Hwf)) put_next_inv st2 plan) as (nl & el & Ew & En & Ee & On & Oe).
  - apply (ps_nodes _ _ _ _ _ Hst).
  - apply (ps_edges _ _ _ _ _ Hst).
  - exact Hp.
  - apply (existsb_true _ _ row); [|done]. apply elem_of_app. right. by left.
  - exists (with_edges (with_nodes st2 nl) el). split; [|split_and!; [done|done|done| |]].
    + unfold put_rows. cbv zeta. change (mkPlanRow _ _ _ _) with (plan_row rev now). change (mkRevRow _ _ _ _ _ _ _ _ _ _) with row. fold plan.
      rewrite Epl. by rewrite Erow.
    + split; [apply put_log|apply put_requests| |exact En|exact Ee|].
      * change (queryEvents (plan_revisions st2 plan) = Ok (evs ++ [ev])%list). unfold st2. rewrite plan_revisions_snoc, decide_True by done.
        apply queryEvents_snoc, (ps_revisions _ _ _ _ _ Hst).
      * eapply rows_ok_next; [exact Hi|exact Hacc|apply (ps_rows _ _ _ _ _ Hst)|apply (wr_changes _ Hwf)].
    + intros q Hq. split_and!; [|by apply On|by apply Oe]. change (plan_revisions st2 q = plan_revisions st q). unfold st2.
      rewrite plan_revisions_snoc, decide_False by (intros Eq; by apply Hq). by rewrite app_nil_r.
Qed.
End put_rows.

(** ** The cases of Put *)

(** The project of a plan, or the one a first revision gives it. *)
Definition project_of (st : Store) (rev : Revision) : string := default (RProjectKey rev) (loadHeader st (RPlanID rev)).

(** The state a new revision is judged on: a plan without header has no project yet. *)
Definition base_of (st : Store) (rev : Revision) (s : State) : State := with_project s (default "" (loadHeader st (RPlanID rev))).

Inductive put_case (st : Store) (rev : Revision) (digest now : string) (evs : list Event) (s : State) : Store → result StoreError Result → Prop :=
| case_stale detail :
    CheckCoordinatorEpoch st (RPlanID rev) (RProjectKey rev) (RAuthorTaskID rev) (RCoordinatorEpoch rev) = Some (StaleEpoch detail) →
    put_case st rev digest now evs s st (Err (StaleEpoch detail))
| case_reused ev detail :
    ev ∈ evs → EvRequestID ev = RRequestID rev → EvRequestDigest ev ≠ digest →
    put_case st rev digest now evs s st (Err (conflict detail))
| case_repeated ev :
    CheckCoordinatorEpoch st (RPlanID rev) (RProjectKey rev) (RAuthorTaskID rev) (RCoordinatorEpoch rev) = None →
    ev ∈ evs → EvRequestID ev = RRequestID rev → EvRequestDigest ev = digest →
    put_case st rev digest now evs s st (Ok (resultOf ev (project_of st rev) (At s (EvRevisionNo ev)) true))
| case_behind :
    CheckCoordinatorEpoch st (RPlanID rev) (RProjectKey rev) (RAuthorTaskID rev) (RCoordinatorEpoch rev) = None →
    RRequestID rev ∉ (EvRequestID <$> evs) → RExpectedParent rev ≠ SRevision s →
    put_case st rev digest now evs s st (Err (conflict ("the request expects parent revision " +:+ itoa (RExpectedParent rev) +:+ ", but plan " +:+
      RPlanID rev +:+ " is at revision " +:+ itoa (SRevision s))))
| case_rejected next d vs :
    CheckCoordinatorEpoch st (RPlanID rev) (RProjectKey rev) (RAuthorTaskID rev) (RCoordinatorEpoch rev) = None →
    RRequestID rev ∉ (EvRequestID <$> evs) → RExpectedParent rev = SRevision s → Apply (base_of st rev s) rev = Some (next, d, vs) → vs ≠ [] →
    put_case st rev digest now evs s st (Err (EDag (PlanRejected vs)))
| case_committed st' next d :
    CheckCoordinatorEpoch st (RPlanID rev) (RProjectKey rev) (RAuthorTaskID rev) (RCoordinatorEpoch rev) = None →
    RRequestID rev ∉ (EvRequestID <$> evs) → RExpectedParent rev = SRevision s → Apply (base_of st rev s) rev = Some (next, d, []) →
    project_of st rev = RProjectKey rev →
    Plans st' = (Plans st ++ if not_null (loadHeader st (RPlanID rev)) then [] else [plan_row rev now])%list →
    Claims st' = Claims st → Bindings st' = Bindings st →
    plan_stored st' (RPlanID rev) (RProjectKey rev) (evs ++ [event_of rev digest now (SRevision s) next])%list next →
    (∀ q, q ≠ RPlanID rev → same_rows q st st') →
    put_case st rev digest now evs s st'
      (Ok (resultOf (event_of rev digest now (SRevision s) next) (RProjectKey rev) (At next (SRevision next)) false)).

Lemma plan_of_store st rev : store_inv st →
  ∃ evs s, plan_stored st (RPlanID rev) (project_of st rev) evs s ∧ (evs = [] ↔ loadHeader st (RPlanID rev) = None) ∧
    (loadHeader st (RPlanID rev) = Some "" → False).
Proof.
  intros Hi. unfold project_of. destruct (loadHeader st (RPlanID rev)) as [project|] eqn:E; cbn.
  - destruct (header_stored _ _ _ Hi E) as (Hp & evs & s & Hst & Hne). exists evs, s. split; [done|]. split; [done|]. by intros [= ->].
  - exists [], (empty_plan (RPlanID rev) (RProjectKey rev)). split; [by apply no_header_stored|]. done.
Qed.

Lemma CheckCoordinatorEpoch_stale st plan project actor n e : CheckCoordinatorEpoch st plan project actor n = Some e → ∃ detail, e = StaleEpoch detail.
Proof. unfold CheckCoordinatorEpoch. intros H. repeat case_match; simplify_eq; by eexists. Qed.

Lemma RequestDigest_total rev : wf_revision rev → is_Some (RequestDigest rev).
Proof.
  intros Hw. unfold RequestDigest. destruct (wf_changes_objects _ (proj2 (wr_changes _ Hw))) as [vs Hvs]. rewrite Hvs. by eexists.
Qed.

Lemma ChangesJSON_total rev : wf_revision rev → is_Some (ChangesJSON (RChanges rev)).
Proof.
  intros Hw. unfold ChangesJSON. destruct (wf_changes_objects _ (proj2 (wr_changes _ Hw))) as [vs Hvs]. rewrite Hvs. by eexists.
Qed.

Lemma wf_payload c : wf_change c → has_payload c = true.
Proof.
  destruct 1 as [o n Hin Hn|n sup Hn Hs|o id Hin Hid|o Hin|e He|id Hid]; unfold has_payload; cbn [COp CNode CEdge]; rewrite op_of_name; try done.
  - by destruct Hin as [-> | ->].
  - by repeat (apply elem_of_cons in Hin as [->|Hin]; [done|]); apply elem_of_nil in Hin.
  - by destruct Hin as [-> | ->].
Qed.

Lemma Apply_total prev rev : Forall wf_change (RChanges rev) → ∃ next d vs, Apply prev rev = Some (next, d, vs).
Proof.
  intros Hw. unfold Apply. set (prev' := if bool_decide (SProjectKey prev = "") then with_project prev (RProjectKey rev) else prev).
  assert (is_Some (change_loop prev' 0 (RChanges rev) (start_acc prev'))) as [a Ha].
  { apply change_loop_payload, forallb_forall. intros c Hc%list_elem_of_In. rewrite Forall_forall in Hw. by apply wf_payload, Hw. }
  assert (∃ x, applyChanges prev' (RChanges rev) true = Some x) as [[[next d] more] ->]; [|by do 3 eexists].
  unfold applyChanges. rewrite Ha. cbn [mbind option_bind]. cbv zeta. destruct (bool_decide (_ = [])); [|by eexists]. destruct (materialize _ _ _) as [next diff].
  destruct (applyLifecycle _ _ _); by eexists.
Qed.

(** The request id of an event is found, and only its own event. *)
Lemma find_request evs q : NoDup (EvRequestID <$> evs) →
  match head (filter (λ ev, EvRequestID ev = q) evs) with
  | Some ev => ev ∈ evs ∧ EvRequestID ev = q
  | None => q ∉ (EvRequestID <$> evs)
  end.
Proof.
  intros _. destruct (filter _ evs) as [|ev l] eqn:E; cbn.
  - intros (ev & -> & Hev)%list_elem_of_fmap. apply (elem_of_nil ev). rewrite <- E. by apply list_elem_of_filter.
  - assert (ev ∈ filter (λ ev, EvRequestID ev = q) evs) as [? ?]%list_elem_of_filter by (rewrite E; by left). done.
Qed.

Section cases.
Context (st : Store) (rev : Revision) (digest now : string) (evs : list Event) (s : State).
Hypothesis Hwf : wf_revision rev.
Hypothesis Hst : plan_stored st (RPlanID rev) (project_of st rev) evs s.
Hypothesis Hhead : evs = [] ↔ loadHeader st (RPlanID rev) = None.
Hypothesis Hproject : loadHeader st (RPlanID rev) = Some "" → False.

Lemma put_again_case ev :
  CheckCoordinatorEpoch st (RPlanID rev) (RProjectKey rev) (RAuthorTaskID rev) (RCoordinatorEpoch rev) = None →
  ev ∈ evs → EvRequestID ev = RRequestID rev →
  put_case st rev digest now evs s st (put_again st rev digest ev).
Proof.
  intros He Hev Hq. unfold put_again. cbv zeta. case_bool_decide as Hd; cbn [negb]; [|by eapply case_reused].
  pose proof Hst as Hst'. unfold project_of in Hst'. destruct (loadHeader st (RPlanID rev)) as [project|] eqn:El; cbn [default from_option id] in Hst'.
  - rewrite (headRevision_stored _ _ _ _ _ Hst'), (verifiedState_stored _ _ _ _ _ Hst').
    + assert (project = project_of st rev) as Ep by (unfold project_of; by rewrite El). rewrite Ep. by apply case_repeated.
    + destruct (proj1 (list_elem_of_lookup _ _) Hev) as [i Hi]. pose proof (lookup_lt_Some _ _ _ Hi).
      rewrite (events_numbered _ _ _ _ _ Hst _ _ Hi), (stored_length _ _ _ _ _ Hst). lia.
  - rewrite (proj2 Hhead eq_refl) in Hev. by apply elem_of_nil in Hev.
Qed.

Lemma head_of_plan : headRevision st (RPlanID rev) = SRevision s.
Proof. apply (headRevision_stored _ _ _ _ _ Hst). Qed.

(** The state [put_new] judges the request on. *)
Lemma put_base : let header := loadHeader st (RPlanID rev) in
  (if not_null header then match verifiedState st (RPlanID rev) (default "" header) (SRevision s) (SRevision s) with Ok (s, _) => Ok s | Err e => Err e end
   else Ok (mkState (RPlanID rev) (default "" header) (SRevision s) [] [] [])) = Ok (base_of st rev s).
Proof.
  cbv zeta. unfold base_of. pose proof Hst as Hst'. unfold project_of in Hst'. destruct (loadHeader st (RPlanID rev)) as [project|] eqn:El; cbn in Hst' |- *.
  - rewrite (verifiedState_stored _ _ _ _ _ Hst'); [destruct (stored_names _ _ _ _ _ Hst') as [_ E]; rewrite <- E; by destruct s|].
    assert (evs ≠ []) as Hne by (intros E; by apply Hhead in E). pose proof (stored_positive _ _ _ _ _ Hst' Hne). lia.
  - pose proof (ps_log _ _ _ _ _ Hst') as Hh. rewrite (proj2 Hhead eq_refl) in Hh. inversion Hh; subst. done.
Qed.

Lemma base_with_project : with_project (base_of st rev s) (project_of st rev) = s.
Proof. destruct (stored_names _ _ _ _ _ Hst) as [_ E]. rewrite <- E. by destruct s. Qed.

Lemma base_project : SProjectKey (base_of st rev s) = default "" (loadHeader st (RPlanID rev)).
Proof. done. Qed.

Lemma put_new_case : CheckCoordinatorEpoch st (RPlanID rev) (RProjectKey rev) (RAuthorTaskID rev) (RCoordinatorEpoch rev) = None →
  RRequestID rev ∉ (EvRequestID <$> evs) →
  ∃ st' res, put_case st rev digest now evs s st' res ∧
    put_new st rev digest now = match res with Ok r => Ok (st', r) | Err e => Err e end.
Proof.
  intros He Hnew. unfold put_new. cbv zeta. rewrite head_of_plan.
  assert (not_null (loadHeader st (RPlanID rev)) && (SRevision s =? 0)%Z = false) as ->.
  { destruct (loadHeader st (RPlanID rev)) eqn:El; [|done]. assert (evs ≠ []) as Hne by (intros E; by apply Hhead in E).
    pose proof (stored_positive _ _ _ _ _ Hst Hne). cbn. apply Z.eqb_neq. lia. }
  assert (negb (not_null (loadHeader st (RPlanID rev))) && (0 <? SRevision s)%Z = false) as ->.
  { destruct (loadHeader st (RPlanID rev)) eqn:El; [done|]. rewrite (stored_length _ _ _ _ _ Hst), (proj2 Hhead eq_refl). done. }
  destruct (Z.eqb_spec (RExpectedParent rev) (SRevision s)) as [Hp|Hp]; cbn [negb]; [|eexists _, (Err _); split; [by eapply case_behind|done]].
  pose proof put_base as Hb. cbv zeta in Hb. rewrite Hb. destruct (Apply_total (base_of st rev s) rev) as (next & d & vs & Ha); [apply (wr_changes _ Hwf)|].
  rewrite Ha. destruct vs as [|v vs]; [|eexists _, (Err _); split; [by eapply case_rejected|done]].
  destruct (ChangesJSON_total rev Hwf) as [changes Hc]. rewrite Hc. destruct (Apply_changes _ _ _ _ Ha) as [Hkey Happ].
  assert (project_of st rev = RProjectKey rev) as Ep.
  { unfold project_of. rewrite base_project in Hkey. destruct (loadHeader st (RPlanID rev)) as [project|]; [|done]. cbn in Hkey |- *. destruct Hkey as [->|]; [|done]. by destruct Hproject. }
  pose proof Hst as Hst'. rewrite Ep in Hst'. rewrite <- Ep, base_with_project in Happ.
  destruct (put_rows_ok st rev digest now changes evs s next d Hst' Hwf Happ Hc Hnew) as (st' & -> & E1 & E2 & E3 & Hs' & Hother).
  eexists st', (Ok _). split; [by eapply case_committed|]. f_equal. f_equal. fold (event_of rev digest now (SRevision s) next). unfold resultOf. f_equal.
  rewrite base_project. unfold project_of in Ep. by destruct (loadHeader st (RPlanID rev)).
Qed.

Lemma put_body_case : ∃ st' res, put_case st rev digest now evs s st' res ∧ put_body st rev digest now = match res with Ok r => Ok (st', r) | Err e => Err e end.
Proof.
  unfold put_body. destruct (CheckCoordinatorEpoch _ _ _ _ _) as [e|] eqn:He.
  { destruct (CheckCoordinatorEpoch_stale _ _ _ _ _ _ He) as [detail ->]. eexists st, (Err _). split; [by apply case_stale|done]. }
  rewrite (revisionByRequest_stored _ _ _ _ _ Hst). pose proof (find_request evs (RRequestID rev) (ps_requests _ _ _ _ _ Hst)) as Hf.
  destruct (head _) as [ev|]; [|by apply put_new_case]. destruct Hf as [Hev Hq]. exists st, (put_again st rev digest ev). split; [by apply put_again_case|].
  by destruct (put_again st rev digest ev).
Qed.
End cases.

(** ** Put on a store that satisfies the invariant *)
Lemma put_case_err st rev digest now evs s st' e : put_case st rev digest now evs s st' (Err e) → st' = st.
Proof. by inversion 1. Qed.

Inductive Put_runs (st : Store) (rev : Revision) (now : string) : Store * result StoreError Result → Prop :=
| put_refused e : Checked rev = Some (Err e) → Put_runs st rev now (st, Err (EDag e))
| put_ran rev' digest evs s st' res :
    Checked rev = Some (Ok rev') → wf_revision rev' → RequestDigest rev' = Some digest →
    plan_stored st (RPlanID rev') (project_of st rev') evs s → (evs = [] ↔ loadHeader st (RPlanID rev') = None) →
    put_case st rev' digest now evs s st' res → Put_runs st rev now (st', res).

Lemma Put_cases st rev now : store_inv st → Put_runs st rev now (Put st rev now).
Proof.
  intros Hi. unfold Put. destruct (Checked_cases rev) as (res & Hc & Hw). rewrite Hc. destruct res as [rev'|e]; [|by apply put_refused].
  destruct (RequestDigest_total rev' Hw) as [digest Hd]. rewrite Hd. destruct (plan_of_store st rev' Hi) as (evs & s & Hst & Hhead & Hproj).
  destruct (put_body_case st rev' digest now evs s Hw Hst Hhead Hproj) as (st' & res & Hcase & Hb). unfold Transaction. rewrite Hb.
  destruct res as [r|e]; [by eapply put_ran|]. rewrite (put_case_err _ _ _ _ _ _ _ _ Hcase) in Hcase. by eapply put_ran.
Qed.

Lemma committed_inv st rev now st' evs s :
  store_inv st → wf_revision rev → Plans st' = (Plans st ++ if not_null (loadHeader st (RPlanID rev)) then [] else [plan_row rev now])%list →
  project_of st rev = RProjectKey rev → plan_stored st' (RPlanID rev) (RProjectKey rev) evs s → evs ≠ [] →
  (∀ q, q ≠ RPlanID rev → same_rows q st st') → store_inv st'.
Proof.
  intros Hi Hw Hp Hproj Hs Hne Ho. split.
  - rewrite Hp. destruct (loadHeader st (RPlanID rev)) eqn:E; cbn; [rewrite app_nil_r; apply (si_plans _ Hi)|]. rewrite fmap_app. apply NoDup_app.
    split; [apply (si_plans _ Hi)|]. split; [|apply NoDup_singleton]. intros q Hq ->%list_elem_of_singleton. by apply loadHeader_None in E.
  - intros r Hr. destruct (decide (pr_plan r = RPlanID rev)) as [E|E].
    + assert (pr_project r = RProjectKey rev) as ->.
      { rewrite Hp in Hr. apply elem_of_app in Hr as [Hr|Hr].
        - rewrite <- Hproj. unfold project_of. destruct (loadHeader st (RPlanID rev)) as [project|] eqn:El; cbn.
          + apply loadHeader_Some in El as (r' & Hr' & E' & <-). rewrite (NoDup_fmap_inj_on pr_plan (Plans st) r r' (si_plans _ Hi) Hr Hr'); [done|congruence].
          + apply loadHeader_None in El. destruct El. rewrite <- E. by apply list_elem_of_fmap_2.
        - destruct (not_null _); [by apply elem_of_nil in Hr|]. by apply list_elem_of_singleton in Hr as ->. }
      rewrite E. split; [apply wf_id_nonempty, (wr_project _ Hw)|]. by exists evs, s.
    + assert (r ∈ Plans st) as Hr'.
      { rewrite Hp in Hr. apply elem_of_app in Hr as [Hr|Hr]; [done|]. destruct (not_null _); [by apply elem_of_nil in Hr|]. by apply list_elem_of_singleton in Hr as ->. }
      destruct (si_stored _ Hi r Hr') as (Hpr & evs' & s' & Hs' & Hne'). split; [done|]. exists evs', s'. split; [|done]. eapply stored_frame; [by apply Ho|done].
  - intros q Hq. assert (q ∉ (pr_plan <$> Plans st)) as Hq' by (intros H; apply Hq; rewrite Hp, fmap_app, elem_of_app; by left).
    assert (q ≠ RPlanID rev) as Hqr.
    { intros ->. apply Hq. rewrite Hp, fmap_app, elem_of_app. apply loadHeader_None in Hq'. rewrite Hq'. right. by left. }
    destruct (Ho q Hqr) as (-> & -> & ->). by apply (si_free _ Hi).
Qed.

Lemma Put_inv st rev now : store_inv st → store_inv (Put st rev now).1.
Proof.
  intros Hi. destruct (Put_cases st rev now Hi) as [e Hc|rev' digest evs s st' res Hc Hw Hd Hst Hhead Hcase]; [done|].
  destruct Hcase; try done. eapply (committed_inv st rev' now); try done. by destruct evs.
Qed.

Lemma store_inv_empty claims bindings : store_inv (mkStore [] [] [] [] claims bindings).
Proof. split; [constructor|by intros r Hr%elem_of_nil|done]. Qed.

(** ** Sequences of writes *)
Inductive put_step : Store → Store → Prop := put_step_put st rev now : put_step st (Put st rev now).1.

(** What later writes keep of a store: the claims and, plan by plan, the header and the log. *)
Record extends (st st' : Store) : Prop := {
  ex_claims : Claims st' = Claims st;
  ex_bindings : Bindings st' = Bindings st;
  ex_header : ∀ q project, loadHeader st q = Some project → loadHeader st' q = Some project;
  ex_log : ∀ q project evs s, loadHeader st q = Some project → plan_stored st q project evs s →
    ∃ more s', plan_stored st' q project (evs ++ more)%list s' ∧ history s more s'
}.

#[export] Instance extends_preorder : PreOrder extends.
Proof.
  split.
  - intros st. split; [done|done|done|]. intros q project evs s _ Hs. exists [], s. rewrite app_nil_r. split; [done|constructor].
  - intros st1 st2 st3 [C1 B1 H1 L1] [C2 B2 H2 L2]. split; [congruence|congruence|auto|]. intros q project evs s Hq Hs.
    destruct (L1 q project evs s Hq Hs) as (m1 & s1 & Hs1 & Hh1). destruct (L2 q project _ s1 (H1 _ _ Hq) Hs1) as (m2 & s2 & Hs2 & Hh2).
    exists (m1 ++ m2)%list, s2. rewrite (assoc_L (++)%list). split; [done|by eapply history_app].
Qed.

Lemma find_left {A} (f : A → bool) l1 l2 x : List.find f l1 = Some x → List.find f (l1 ++ l2)%list = Some x.
Proof. induction l1 as [|y l1 IH]; [done|]. cbn. by destruct (f y). Qed.

Lemma stored_unique st q project project' evs s evs' s' : plan_stored st q project evs s → plan_stored st q project' evs' s' → project = project' → evs' = evs ∧ s' = s.
Proof.
  intros H H' <-. assert (evs' = evs) as -> by (pose proof (ps_revisions _ _ _ _ _ H); pose proof (ps_revisions _ _ _ _ _ H'); congruence).
  split; [done|]. pose proof (loadState_stored _ _ _ _ _ H) as E. pose proof (loadState_stored _ _ _ _ _ H') as E'.
  rewrite (stored_length _ _ _ _ _ H) in E. rewrite (stored_length _ _ _ _ _ H') in E'. congruence.
Qed.

Lemma Put_extends st rev now : store_inv st → extends st (Put st rev now).1.
Proof.
  intros Hi. destruct (Put_cases st rev now Hi) as [e Hc|rev' digest evs s st' res Hc Hw Hd Hst Hhead Hcase]; [reflexivity|].
  destruct Hcase as [| | | | |st' next d He Hnew Hpar Ha Hproj Hp Hcl Hb Hs' Ho]; try reflexivity. cbn.
  assert (∀ q project, loadHeader st q = Some project → loadHeader st' q = Some project) as Hh.
  { intros q project. unfold loadHeader. rewrite Hp. destruct (List.find _ (Plans st)) as [r|] eqn:E; [|done]. by rewrite (find_left _ _ _ _ E). }
  split; [done|done|done|]. intros q project evs' s0 Hq Hs0. destruct (decide (q = RPlanID rev')) as [->|Hne].
  - assert (project = project_of st rev') as Ep by (unfold project_of; by rewrite Hq).
    destruct (stored_unique _ _ _ _ _ _ _ _ Hst Hs0 (eq_sym Ep)) as [-> ->]. rewrite Ep, Hproj. exists [event_of rev' digest now (SRevision s) next], next.
    split; [done|]. pose proof (ps_log _ _ _ _ _ Hs') as Hl. pose proof (stored_inv _ _ _ _ _ Hst) as Hinv. destruct (Apply_changes _ _ _ _ Ha) as [_ Happ].
    rewrite <- Hproj, (base_with_project _ _ _ _ Hst) in Happ.
    destruct (outcome_accepted _ _ _ _ _ Hinv Happ) as (a & life & p & Hacc).
    eapply history_cons; [apply wf_named, (wr_changes _ Hw)|done|apply (next_revision _ _ _ _ _ _ _ _ Hacc)|exact Happ|done|constructor].
  - exists [], s0. rewrite app_nil_r. split; [|constructor]. eapply stored_frame; [by apply Ho|done].
Qed.

Lemma puts_keep st st' : store_inv st → rtc put_step st st' → store_inv st' ∧ extends st st'.
Proof.
  intros Hi Hr. revert Hi. induction Hr as [st|st1 st2 st3 Hstep Hr IH]; intros Hi; [done|]. destruct Hstep as [st rev now].
  destruct (IH (Put_inv st rev now Hi)) as [Hi' He]. split; [done|]. etrans; [by apply Put_extends|done].
Qed.
