(* ===== verification/DagZone.v ===== *)
(** * DagZone: the properties of the store of plans.

    Pages of the log, snapshots, the replay of a cursor, and the theorems on [Put], [SnapshotAt], [EventsAfter], [VerifyLogOn] and [Preflight]. *)
From S2P Require Import Prelude GoLib Sha256 Json Loads Utf8 JsonText JsonRoundtrip JsonLoaded DagModel DagLifecycle DagGraph DagAcyclic DagFold DagInvariant DagPlan DagProps DagReplay DagDecode DagDecodeProps DagStore DagRepo DagStored DagWrite DagRepoProps.
Local Open Scope string_scope.

(** ** Reads of a stored plan *)
Section reads.
Context (st : Store) (plan project : string) (evs : list Event) (s : State).
Hypothesis Hst : plan_stored st plan project evs s.
Hypothesis Hheader : loadHeader st plan = Some project.
Hypothesis Hne : evs ≠ [].

Lemma SnapshotAt_stored n : (0 ≤ n ≤ SRevision s)%Z → SnapshotAt st plan n = Ok (At s (if (n =? 0)%Z then SRevision s else n), SRevision s).
Proof.
  intros Hn. unfold SnapshotAt. rewrite Hheader, (headRevision_stored _ _ _ _ _ Hst). pose proof (stored_positive _ _ _ _ _ Hst Hne) as Hp.
  rewrite (proj2 (Z.eqb_neq _ _)) by lia. cbv zeta. destruct (Z.eqb_spec n 0) as [->|].
  - rewrite (proj2 (Z.ltb_ge _ _)), (proj2 (Z.ltb_ge _ _)) by lia. cbn [orb]. by rewrite (verifiedState_stored _ _ _ _ _ Hst) by lia.
  - rewrite (proj2 (Z.ltb_ge _ _)), (proj2 (Z.ltb_ge _ _)) by lia. cbn [orb]. by rewrite (verifiedState_stored _ _ _ _ _ Hst) by lia.
Qed.

Lemma SnapshotAt_range n snap h : SnapshotAt st plan n = Ok (snap, h) → (0 ≤ n ≤ SRevision s)%Z.
Proof.
  unfold SnapshotAt. rewrite Hheader, (headRevision_stored _ _ _ _ _ Hst). pose proof (stored_positive _ _ _ _ _ Hst Hne) as Hp.
  rewrite (proj2 (Z.eqb_neq _ _)) by lia. cbv zeta. destruct (Z.eqb_spec n 0); [lia|]. destruct (Z.ltb_spec n 1), (Z.ltb_spec (SRevision s) n); cbn [orb]; try done. lia.
Qed.

(** A page is a slice of the log. *)
Definition cursor_of (after : Z) (events : list Event) : Z := match last events with Some ev => EvRevisionNo ev | None => after end.

Lemma EventsAfter_stored after limit : (0 ≤ after ≤ SRevision s)%Z → (1 ≤ limit ≤ MaxPage)%Z →
  let events := take (Z.to_nat limit) (drop (Z.to_nat after) evs) in
  EventsAfter st plan after limit = Ok (mkPage plan after (SRevision s) (cursor_of after events) events).
Proof.
  intros Ha Hl. cbv zeta. unfold EventsAfter. rewrite Hheader, (headRevision_stored _ _ _ _ _ Hst). cbv zeta.
  rewrite (proj2 (Z.ltb_ge after 0)), (proj2 (Z.ltb_ge (SRevision s) after)), (proj2 (Z.ltb_ge limit 1)), (proj2 (Z.ltb_ge MaxPage limit)) by lia. cbn [orb].
  pose proof (revisions_numbered _ _ _ _ _ Hst) as Hnum. rewrite (numbered_after rr_no 1 _ _ Hnum). replace (after + 1 - 1)%Z with after by lia.
  assert (numbered rr_no (1 + after) (drop (Z.to_nat after) (plan_revisions st plan))) as Hnum'.
  { intros i r Hr. rewrite lookup_drop in Hr. rewrite (Hnum _ _ Hr). lia. }
  unfold by_number. rewrite order_by_sorted by (by eapply numbered_sorted || by eapply numbered_NoDup).
  rewrite (proj2 (queryEvents_ok _ (take (Z.to_nat limit) (drop (Z.to_nat after) evs)))); [done|].
  by apply Forall2_take, Forall2_drop, queryEvents_ok, (ps_revisions _ _ _ _ _ Hst).
Qed.

Lemma cursor_of_slice after n : (0 ≤ after ≤ SRevision s)%Z → (0 < n)%nat →
  cursor_of after (take n (drop (Z.to_nat after) evs)) = (after + Z.of_nat (length (take n (drop (Z.to_nat after) evs))))%Z.
Proof.
  intros Ha Hn. unfold cursor_of. destruct (last _) as [ev|] eqn:E.
  - rewrite last_lookup in E. apply lookup_take_Some in E as [E Hlt]. rewrite lookup_drop in E. rewrite (events_numbered _ _ _ _ _ Hst _ _ E).
    pose proof (lookup_lt_Some _ _ _ E) as Hlen. rewrite length_take, length_drop in *. lia.
  - apply last_None in E. rewrite E. cbn. lia.
Qed.

(** The pages end, and together they are the rest of the log. *)
Lemma all_events_stored fuel : ∀ after, (0 ≤ after ≤ SRevision s)%Z → (SRevision s - after < Z.of_nat fuel)%Z →
  all_events fuel st plan after = Ok (drop (Z.to_nat after) evs).
Proof.
  induction fuel as [|fuel IH]; intros after Ha Hf; [lia|]. cbn [all_events]. assert (0 < MaxPage)%Z as Hm by done.
  rewrite (EventsAfter_stored after MaxPage) by lia. cbn [PGEvents PGHead PGCursor]. set (n := Z.to_nat MaxPage).
  assert (0 < n)%nat as Hn by (unfold n; lia). clearbody n. rewrite (cursor_of_slice after n Ha Hn). pose proof (stored_length _ _ _ _ _ Hst) as Hlen.
  case_bool_decide as He; cbn [orb].
  - rewrite He. f_equal. symmetry. apply nil_length_inv. apply (f_equal length) in He. rewrite length_take in He. cbn in He. lia.
  - destruct (Z.leb_spec (SRevision s) (after + Z.of_nat (length (take n (drop (Z.to_nat after) evs))))) as [Hle|Hgt].
    + rewrite take_ge; [done|]. rewrite length_take, length_drop in *. lia.
    + assert (0 < length (take n (drop (Z.to_nat after) evs)))%nat as Hpos by (destruct (take _ _); [done|]; cbn; lia).
      rewrite IH by lia. f_equal. etrans; [|apply (take_drop n)]. f_equal. rewrite drop_drop. f_equal. rewrite length_take, length_drop in *. lia.
Qed.
End reads.

(** ** verify_loop and sameRows *)
Lemma verify_loop_history plan s evs s' : history s evs s' → verify_loop plan s evs = Ok s'.
Proof.
  induction 1 as [s|s ev next d evs s' Hn E1 E2 Ha Hd Hh IH]; [done|]. cbn [verify_loop].
  rewrite E1, E2, !Z.eqb_refl, (applyChanges_lenient _ _ _ _ Ha). cbn [negb orb]. by rewrite bool_decide_eq_true_2.
Qed.

Lemma forallb_zip_refl {A} (f : A * A → bool) (l : list A) : (∀ x, f (x, x) = true) → forallb f (zip l l) = true.
Proof. intros H. induction l as [|x l IH]; [done|]. cbn. by rewrite H, IH. Qed.

Lemma sameRows_refl s : sameRows s s = true.
Proof.
  unfold sameRows, sameLife, same_edge. rewrite !forallb_zip_refl, !bool_decide_eq_true_2 by (try done; intros x; by rewrite !bool_decide_eq_true_2). cbn [andb].
  rewrite !andb_true_r. apply forallb_forall. intros r _. apply Nat.eqb_refl.
Qed.

(** The fence reads the claims, the bindings and the project only. *)
Lemma CheckCoordinatorEpoch_same st st' plan project actor n : Claims st' = Claims st → Bindings st' = Bindings st →
  default project (loadHeader st' plan) = default project (loadHeader st plan) →
  CheckCoordinatorEpoch st' plan project actor n = CheckCoordinatorEpoch st plan project actor n.
Proof. intros Hc Hb Hh. unfold CheckCoordinatorEpoch, LatestClaim, plan_claims. by rewrite Hc, Hb, Hh. Qed.

(** ** Claims *)

(** The refusals [Put] documents: a request that is not well formed, a coordinator epoch that is not the latest, a request id or a parent revision that
    another request took, and a plan that breaks the rules. *)
Inductive documented (rev : Revision) : StoreError → Prop :=
| doc_malformed e : Checked rev = Some (Err e) → documented rev (EDag e)
| doc_stale detail : documented rev (StaleEpoch detail)
| doc_conflict detail : documented rev (conflict detail)
| doc_rejected vs : vs ≠ [] → documented rev (EDag (PlanRejected vs)).

(** C3: a write keeps the invariant of the zone whatever it is asked; when it fails the tables are as they were and the error is a documented refusal:
    it never meets a constraint or a trigger of the zone's tables of plans, an unexpected row count, a nil pointer or a plan it takes for corrupt. *)
Theorem Put_safe st rev now : store_inv st →
  store_inv (Put st rev now).1 ∧ ∀ e, (Put st rev now).2 = Err e → (Put st rev now).1 = st ∧ documented rev e.
Proof.
  intros Hi. split; [by apply Put_inv|]. destruct (Put_cases st rev now Hi) as [e0 Hc|rev' digest evs s st' res Hc Hw Hd Hst Hhead Hcase]; cbn.
  - intros e [= <-]. split; [done|]. by apply doc_malformed.
  - intros e ->. inversion Hcase; subst; (split; [done|]); by constructor.
Qed.

(** C4: a committed write stored exactly the fold of the request: the parent it names is the head it found, the log grows by one event, the tables load as
    the next state, the result reports that state, and the rows of no other plan change. *)
Theorem Put_commits st rev now st' r : store_inv st → Put st rev now = (st', Ok r) → RSReplayed r = false →
  ∃ rev' evs s next d ev, Checked rev = Some (Ok rev') ∧
    plan_stored st (RPlanID rev') (RProjectKey rev') evs s ∧ SRevision s = RExpectedParent rev' ∧
    applyChanges s (RChanges rev') true = Some (next, d, []) ∧
    plan_stored st' (RPlanID rev') (RProjectKey rev') (evs ++ [ev])%list next ∧
    loadState st' (RPlanID rev') (RProjectKey rev') (headRevision st' (RPlanID rev')) = Ok next ∧
    RSRevisionNo r = SRevision next ∧ RSStateDigest r = SnapStateDigest (At next (SRevision next)) ∧
    (∀ q, q ≠ RPlanID rev' → same_rows q st st').
Proof.
  intros Hi Hput Hr. pose proof (Put_cases st rev now Hi) as Hrun. rewrite Hput in Hrun.
  inversion Hrun as [|rev' digest evs s st0 res Hc Hw Hd Hst Hhead Hcase]; subst. inversion Hcase as [| |ev| | |st1 next d He Hnew Hpar Ha Hproj Hp Hcl Hb Hs' Ho]; subst.
  - done.
  - destruct (Apply_changes _ _ _ _ Ha) as [_ Happ]. rewrite <- Hproj, (base_with_project _ _ _ _ Hst) in Happ. rewrite Hproj in Hst.
    eexists rev', evs, s, next, d, _. split_and!; try done. rewrite (headRevision_stored _ _ _ _ _ Hs'). by apply (loadState_stored _ _ _ _ _ Hs').
Qed.

Definition as_replayed (r : Result) : Result :=
  mkResult (RSPlanID r) (RSProjectKey r) (RSRevisionNo r) (RSParentRevisionNo r) (RSRequestID r) (RSRequestDigest r) (RSStateDigest r)
    (RSCoordinatorEpoch r) (RSAuthorTaskID r) (RSRecordedAt r) true (RSNodeDigests r).

(** Repeating the request whose event the log holds. *)
Lemma Put_again st rev rev' digest now evs s ev :
  store_inv st → Checked rev = Some (Ok rev') → RequestDigest rev' = Some digest → plan_stored st (RPlanID rev') (project_of st rev') evs s →
  CheckCoordinatorEpoch st (RPlanID rev') (RProjectKey rev') (RAuthorTaskID rev') (RCoordinatorEpoch rev') = None →
  ev ∈ evs → EvRequestID ev = RRequestID rev' → EvRequestDigest ev = digest →
  Put st rev now = (st, Ok (resultOf ev (project_of st rev') (At s (EvRevisionNo ev)) true)).
Proof.
  intros Hi Hc Hd Hst He Hev Hq Hdig. pose proof (Put_cases st rev now Hi) as Hrun.
  inversion Hrun as [e Hc' Heq|rev1 digest1 evs1 s1 st1 res Hc' Hw Hd' Hst' Hhead Hcase Heq]; [congruence|].
  assert (rev1 = rev') as -> by congruence. assert (digest1 = digest) as -> by congruence.
  destruct (stored_unique _ _ _ _ _ _ _ _ Hst Hst' eq_refl) as [-> ->]. pose proof (ps_requests _ _ _ _ _ Hst) as Hnd.
  assert (∀ ev', ev' ∈ evs → EvRequestID ev' = RRequestID rev' → ev' = ev) as Huniq.
  { intros ev' H1 H2. apply (NoDup_fmap_inj_on EvRequestID evs); [done|done|done|congruence]. }
  assert (RRequestID rev' ∈ (EvRequestID <$> evs)) as Hin by (rewrite <- Hq; by apply list_elem_of_fmap_2).
  inversion Hcase as [detail He'|ev' detail H1 H2 H3|ev' _ H1 H2 H3|_ H1|next d vs _ H1|st2 next d _ H1]; subst; try done; [congruence| |].
  - rewrite (Huniq ev') in H3 by done. done.
  - by rewrite (Huniq ev') by done.
Qed.

Lemma committed_header st st' rev now :
  Plans st' = (Plans st ++ if not_null (loadHeader st (RPlanID rev)) then [] else [plan_row rev now])%list → project_of st rev = RProjectKey rev →
  loadHeader st' (RPlanID rev) = Some (RProjectKey rev).
Proof.
  unfold project_of. intros Hp Hproj. destruct (loadHeader st (RPlanID rev)) as [project|] eqn:E; cbn in Hp, Hproj.
  - rewrite app_nil_r in Hp. unfold loadHeader in *. by rewrite Hp, E, Hproj.
  - unfold loadHeader in *. rewrite Hp. clear Hp Hproj. induction (Plans st) as [|x l IH]; cbn in E |- *; [by rewrite bool_decide_eq_true_2|].
    destruct (bool_decide (pr_plan x = RPlanID rev)); [done|]. by apply IH.
Qed.

(** C24: a repeated request is answered by the revision it produced, whatever plan writes came in between: the same result, marked as replayed, and no row changes. (A newer claim of the coordinator,
    which is no write of a plan, fences the repeat as it fences any write.) *)
Theorem Put_idempotent st rev now st1 r st2 now2 : store_inv st → Put st rev now = (st1, Ok r) → rtc put_step st1 st2 →
  Put st2 rev now2 = (st2, Ok (as_replayed r)).
Proof.
  intros Hi Hput Hsteps. pose proof (Put_cases st rev now Hi) as Hrun. rewrite Hput in Hrun. pose proof (Put_inv st rev now Hi) as Hi1. rewrite Hput in Hi1. cbn in Hi1.
  pose proof (Put_extends st rev now Hi) as He1. rewrite Hput in He1. cbn in He1. destruct (puts_keep _ _ Hi1 Hsteps) as [Hi2 He2].
  inversion Hrun as [|rev' digest evs s st0 res Hc Hw Hd Hst Hhead Hcase]; subst.
  assert (∃ ev evs1 s1, plan_stored st1 (RPlanID rev') (project_of st rev') evs1 s1 ∧ loadHeader st1 (RPlanID rev') = Some (project_of st rev') ∧
    CheckCoordinatorEpoch st (RPlanID rev') (RProjectKey rev') (RAuthorTaskID rev') (RCoordinatorEpoch rev') = None ∧
    ev ∈ evs1 ∧ EvRequestID ev = RRequestID rev' ∧ EvRequestDigest ev = digest ∧ as_replayed r = resultOf ev (project_of st rev') (At s1 (EvRevisionNo ev)) true)
    as (ev & evs1 & s1 & Hst1 & Hh1 & He & Hev & Hq & Hdig & ->).
  { inversion Hcase as [| |ev He Hev Hq Hdig| | |st'' next d He Hnew Hpar Ha Hproj Hp Hcl Hb Hs' Ho]; subst.
    - exists ev, evs, s. split_and!; try done. unfold project_of. destruct (loadHeader st1 (RPlanID rev')) as [|] eqn:E; [done|].
      rewrite (proj2 Hhead eq_refl) in Hev. by apply elem_of_nil in Hev.
    - eexists _, _, next. rewrite Hproj. split; [done|]. split; [by eapply committed_header|]. split; [done|]. split; [apply elem_of_app; right; by left|]. done. }
  destruct (ex_log _ _ He2 _ _ _ _ Hh1 Hst1) as (more & s2 & Hst2 & Hmore). pose proof (ex_header _ _ He2 _ _ Hh1) as Hh2.
  assert (project_of st2 rev' = project_of st rev') as Ep by (unfold project_of at 1; by rewrite Hh2).
  rewrite <- Ep in Hst2. rewrite (Put_again st2 rev rev' digest now2 (evs1 ++ more)%list s2 ev); try done.
  - rewrite Ep. do 3 f_equal. eapply (history_past s1 more); [by eapply stored_inv|done|].
    destruct (proj1 (list_elem_of_lookup _ _) Hev) as [i Hlook]. pose proof (lookup_lt_Some _ _ _ Hlook).
    rewrite (events_numbered _ _ _ _ _ Hst1 _ _ Hlook), (stored_length _ _ _ _ _ Hst1). lia.
  - rewrite (CheckCoordinatorEpoch_same st st2); [done| | |].
    + by rewrite (ex_claims _ _ He2), (ex_claims _ _ He1).
    + by rewrite (ex_bindings _ _ He2), (ex_bindings _ _ He1).
    + exact Ep.
  - apply elem_of_app. by left.
Qed.

(** A snapshot is a value: the snapshot of a revision is the same however many revisions are written after it. *)
Theorem SnapshotAt_stable st st' plan n snap head : store_inv st → SnapshotAt st plan n = Ok (snap, head) → rtc put_step st st' →
  ∃ head', (head ≤ head')%Z ∧ SnapshotAt st' plan (SnapRevision snap) = Ok (snap, head').
Proof.
  intros Hi Hs Hsteps. destruct (puts_keep _ _ Hi Hsteps) as [Hi' He]. destruct (loadHeader st plan) as [project|] eqn:Hh; [|unfold SnapshotAt in Hs; by rewrite Hh in Hs].
  destruct (header_stored _ _ _ Hi Hh) as (_ & evs & s & Hst & Hne). pose proof (SnapshotAt_range _ _ _ _ _ Hst Hh Hne _ _ _ Hs) as Hn.
  rewrite (SnapshotAt_stored _ _ _ _ _ Hst Hh Hne n Hn) in Hs. injection Hs as <- <-. set (k := if (n =? 0)%Z then SRevision s else n) in *.
  assert (1 ≤ k ≤ SRevision s)%Z as Hk by (unfold k; pose proof (stored_positive _ _ _ _ _ Hst Hne); destruct (Z.eqb_spec n 0); lia).
  assert (SnapRevision (At s k) = k) as -> by (unfold At; by destruct (lifeAt _ _)).
  destruct (ex_log _ _ He _ _ _ _ Hh Hst) as (more & s' & Hst' & Hmore). pose proof (history_revision _ _ _ (stored_inv _ _ _ _ _ Hst) Hmore) as Hr.
  exists (SRevision s'). split; [lia|]. rewrite (SnapshotAt_stored _ _ _ _ _ Hst' (ex_header _ _ He _ _ Hh)); [|by destruct evs|lia].
  rewrite (proj2 (Z.eqb_neq k 0)) by lia. do 2 f_equal. eapply (history_past s more); [by eapply stored_inv|done|lia].
Qed.

(** C16: on every store the writes of the package can produce, the log of a plan verifies: it replays, revision by revision, to the very rows the tables hold. *)
Theorem VerifyLogOn_reachable claims bindings st plan : rtc put_step (mkStore [] [] [] [] claims bindings) st → is_Some (loadHeader st plan) →
  VerifyLogOn st plan = Ok tt.
Proof.
  intros Hsteps [project Hh]. destruct (puts_keep _ _ (store_inv_empty claims bindings) Hsteps) as [Hi _].
  destruct (header_stored _ _ _ Hi Hh) as (_ & evs & s & Hst & Hne). unfold VerifyLogOn. rewrite Hh.
  rewrite (all_events_stored _ _ _ _ _ Hst Hh).
  - change (mkState plan project 0 [] [] []) with (empty_plan plan project). rewrite drop_0, (verify_loop_history plan (empty_plan plan project) evs s (ps_log _ _ _ _ _ Hst)). cbv zeta.
    rewrite (headRevision_stored _ _ _ _ _ Hst), Z.eqb_refl, (loadState_stored _ _ _ _ _ Hst), sameRows_refl. done.
  - pose proof (stored_positive _ _ _ _ _ Hst Hne). lia.
  - rewrite (stored_length _ _ _ _ _ Hst), <- (Forall2_length _ _ _ (revisions_Forall2 _ _ _ _ _ Hst)). unfold plan_revisions.
    pose proof (length_filter (λ r, rr_plan r = plan) (Revisions st)). lia.
Qed.

Lemma history_split s evs1 evs2 s' : history s (evs1 ++ evs2)%list s' → ∃ t, history s evs1 t ∧ history t evs2 s'.
Proof.
  revert s. induction evs1 as [|ev evs1 IH]; intros s Hh; [exists s; split; [constructor|done]|].
  inversion Hh as [|s0 ev0 next d evs' s'' Hn E1 E2 Ha Hd Hrest]; subst. destruct (IH next Hrest) as (t & H1 & H2). exists t. split; [|done]. by econstructor.
Qed.

(** A client that holds a snapshot and reads the pages of the log after it reaches the head: the pages end, the replay of their events onto the
    snapshot succeeds, and its result is the snapshot of the head. *)
Theorem EventsAfter_resumes st plan n base head : store_inv st → SnapshotAt st plan n = Ok (base, head) →
  ∃ evs final, all_events (S (length (Revisions st))) st plan (SnapRevision base) = Ok evs ∧ SnapshotAt st plan 0 = Ok (final, head) ∧ Replay base evs = Ok final.
Proof.
  intros Hi Hs. destruct (loadHeader st plan) as [project|] eqn:Hh; [|unfold SnapshotAt in Hs; by rewrite Hh in Hs].
  destruct (header_stored _ _ _ Hi Hh) as (_ & evs & s & Hst & Hne). pose proof (SnapshotAt_range _ _ _ _ _ Hst Hh Hne _ _ _ Hs) as Hn.
  pose proof (stored_positive _ _ _ _ _ Hst Hne) as Hp. rewrite (SnapshotAt_stored _ _ _ _ _ Hst Hh Hne n Hn) in Hs. injection Hs as <- <-.
  set (k := if (n =? 0)%Z then SRevision s else n) in *. assert (1 ≤ k ≤ SRevision s)%Z as Hk by (unfold k; destruct (Z.eqb_spec n 0); lia).
  assert (SnapRevision (At s k) = k) as -> by (unfold At; by destruct (lifeAt _ _)). exists (drop (Z.to_nat k) evs), (At s (SRevision s)).
  pose proof (stored_length _ _ _ _ _ Hst) as Hlen. split_and!.
  - apply (all_events_stored _ _ _ _ _ Hst Hh); [lia|]. rewrite Hlen, <- (Forall2_length _ _ _ (revisions_Forall2 _ _ _ _ _ Hst)). unfold plan_revisions.
    pose proof (length_filter (λ r, rr_plan r = plan) (Revisions st)). lia.
  - by rewrite (SnapshotAt_stored _ _ _ _ _ Hst Hh Hne 0) by lia.
  - pose proof (ps_log _ _ _ _ _ Hst) as Hl. rewrite <- (take_drop (Z.to_nat k) evs) in Hl. apply history_split in Hl as (t & H1 & H2).
    pose proof (history_inv _ _ _ (plan_inv_empty _ _) H1) as Ht. pose proof (history_revision _ _ _ (plan_inv_empty _ _) H1) as Hr. cbn in Hr.
    rewrite length_take in Hr. assert (SRevision t = k) as Ek by lia. rewrite (history_past t _ s k Ht H2) by lia. rewrite <- Ek at 1. by apply replay_committed.
Qed.

(** A claim of a newer epoch fences the older coordinator: its writes are refused as stale and change nothing, whatever the store holds. *)
Theorem Put_fenced st rev now c : Checked rev = Some (Ok rev) → c ∈ Claims st → CLPlanID c = RPlanID rev → (RCoordinatorEpoch rev < CLEpoch c)%Z →
  ∃ detail, Put st rev now = (st, Err (StaleEpoch detail)).
Proof.
  intros Hc Hin Hp Hlt. destruct (Checked_cases rev) as (res & Hc' & Hw). rewrite Hc in Hc'. injection Hc' as <-. destruct (RequestDigest_total rev Hw) as [digest Hd].
  unfold Put. rewrite Hc, Hd. unfold Transaction, put_body. assert (c ∈ plan_claims st (RPlanID rev)) as Hpc by (by apply list_elem_of_filter).
  unfold CheckCoordinatorEpoch. destruct (LatestClaim st (RPlanID rev)) as [latest|] eqn:El.
  - apply order_by_head in El as [_ Hmax]. assert (CLEpoch c ≤ CLEpoch latest)%Z as Hle.
    { destruct (Hmax c Hpc) as [->|[H|[H _]]]; [done|cbn in H; lia..]. }
    rewrite bool_decide_eq_false_2 by lia. by eexists.
  - exfalso. unfold LatestClaim, order_by in El. pose proof (merge_sort_Permutation (key_before (λ c, ((- CLEpoch c)%Z, ""))) (plan_claims st (RPlanID rev))) as Hperm.
    destruct (merge_sort _ _); [|done]. rewrite <- Hperm in Hpc. by apply elem_of_nil in Hpc.
Qed.

(** Of the requests that name the same parent revision at most one is committed: once one is, no later write commits another, whatever happens between. *)
Theorem Put_one_winner st rev1 now1 st1 r1 st2 rev2 now2 st3 r2 :
  store_inv st → Checked rev1 = Some (Ok rev1) → Checked rev2 = Some (Ok rev2) → RPlanID rev2 = RPlanID rev1 → RExpectedParent rev2 = RExpectedParent rev1 →
  Put st rev1 now1 = (st1, Ok r1) → RSReplayed r1 = false → rtc put_step st1 st2 → Put st2 rev2 now2 = (st3, Ok r2) → RSReplayed r2 = true.
Proof.
  intros Hi Hc1 Hc2 Hplan Hparent Hput1 Hr1 Hsteps Hput2. pose proof (Put_inv st rev1 now1 Hi) as Hi1. rewrite Hput1 in Hi1. cbn in Hi1.
  destruct (puts_keep _ _ Hi1 Hsteps) as [Hi2 He2]. pose proof (Put_cases st rev1 now1 Hi) as Hrun. rewrite Hput1 in Hrun.
  inversion Hrun as [|rev' digest evs s st0 res Hc Hw Hd Hst Hhead Hcase]; subst. assert (rev' = rev1) as -> by congruence.
  inversion Hcase as [| |ev| | |st'' next d He Hnew Hpar Ha Hproj Hp Hcl Hb Hs' Ho]; subst; [done|].
  pose proof (committed_header _ _ _ _ Hp Hproj) as Hh1. destruct (ex_log _ _ He2 _ _ _ _ Hh1 Hs') as (more & s2 & Hst2 & Hmore).
  pose proof (Put_cases st2 rev2 now2 Hi2) as Hrun2. rewrite Hput2 in Hrun2. inversion Hrun2 as [|rev'' digest2 evs2 t st0 res Hc' Hw2 Hd2 Ht Hhead2 Hcase2]; subst.
  assert (rev'' = rev2) as -> by congruence. inversion Hcase2 as [| |ev| | |st'' next2 d2 _ _ Hpar2]; subst; [done|]. exfalso.
  rewrite Hplan in Ht. assert (project_of st2 rev2 = RProjectKey rev1) as Ep by (unfold project_of; by rewrite Hplan, (ex_header _ _ He2 _ _ Hh1)).
  destruct (stored_unique _ _ _ _ _ _ _ _ Hst2 Ht (eq_sym Ep)) as [_ ->].
  pose proof (stored_length _ _ _ _ _ Hst2) as L2. pose proof (stored_length _ _ _ _ _ Hst) as L1. rewrite !length_app in L2. cbn in L2. lia.
Qed.

Lemma preflight_judge st rev : revisionByRequest st (RPlanID rev) (RRequestID rev) = Ok None → preflightRead st st rev = judgeAgainstStore st rev.
Proof. intros Hq. unfold preflightRead. destruct (judgeAgainstStore st rev); [|done]. rewrite Hq. by destruct (_ || _). Qed.

(** The judgement of a new request on a plan at [s]. *)
Definition new_refusal (st : Store) (rev : Revision) (s : State) : option StoreError :=
  match CheckCoordinatorEpoch st (RPlanID rev) (RProjectKey rev) (RAuthorTaskID rev) (RCoordinatorEpoch rev) with
  | Some e => Some e
  | None =>
    if decide (RExpectedParent rev = SRevision s) then fold_refusal (base_of st rev s) rev
    else Some (conflict ("the request expects parent revision " +:+ itoa (RExpectedParent rev) +:+ ", but plan " +:+ RPlanID rev +:+ " is at revision " +:+ itoa (SRevision s)))
  end.

Lemma new_case st rev digest now evs s st' res : put_case st rev digest now evs s st' res → RRequestID rev ∉ (EvRequestID <$> evs) →
  match new_refusal st rev s with
  | None => ∃ r, res = Ok r ∧ RSReplayed r = false
  | Some e => st' = st ∧ res = Err e
  end.
Proof.
  intros Hcase Hnot. assert (∀ ev, ev ∈ evs → EvRequestID ev ≠ RRequestID rev) as Hno by (intros ev Hev E; apply Hnot; rewrite <- E; by apply list_elem_of_fmap_2).
  unfold new_refusal. destruct Hcase as [detail He|ev detail H1 H2|ev _ H1 H2|He _ Hp|next d vs He _ Hp Ha Hv|st' next d He _ Hp Ha]; try by destruct (Hno ev H1).
  - by rewrite He.
  - by rewrite He, decide_False.
  - rewrite He, decide_True by done. unfold fold_refusal. rewrite Ha. by destruct vs.
  - rewrite He, decide_True by done. unfold fold_refusal. rewrite Ha. by eexists.
Qed.

Lemma judge_new st rev evs s : revisionByRequest st (RPlanID rev) (RRequestID rev) = Ok None → plan_stored st (RPlanID rev) (project_of st rev) evs s →
  (evs = [] ↔ loadHeader st (RPlanID rev) = None) → RExpectedParent rev ≠ 0%Z → judgeAgainstStore st rev = new_refusal st rev s.
Proof.
  intros Hq Hst Hhead Hp. unfold judgeAgainstStore, new_refusal. cbv zeta. destruct (CheckCoordinatorEpoch _ _ _ _ _); [done|]. rewrite Hq, (headRevision_stored _ _ _ _ _ Hst).
  pose proof Hst as Hst'. unfold project_of, base_of in *. destruct (loadHeader st (RPlanID rev)) as [project|] eqn:Hh; cbn [default from_option id not_null] in *.
  - destruct (Z.eqb_spec (RExpectedParent rev) (SRevision s)); [|by rewrite decide_False]. cbn [negb]. rewrite decide_True by done.
    rewrite (loadState_stored _ _ _ _ _ Hst'). destruct (stored_names _ _ _ _ _ Hst') as [_ E]. rewrite <- E. by destruct s.
  - assert (SRevision s = 0%Z) as -> by (rewrite (stored_length _ _ _ _ _ Hst), (proj2 Hhead eq_refl); done).
    rewrite (proj2 (Z.eqb_neq _ _)) by done. by rewrite decide_False.
Qed.

(** C25: on a store nobody else writes, the preflight of a well-formed request that is new to it, and that names a parent revision or founds a plan that has no header, says exactly what the write does:
    no refusal, and the write commits; a refusal, and the write is refused with the same error. (A new request that would found a plan that is there passes the preflight, and the write refuses it.) *)
Theorem Preflight_exact st rev now : store_inv st → Checked rev = Some (Ok rev) → revisionByRequest st (RPlanID rev) (RRequestID rev) = Ok None →
  RExpectedParent rev ≠ 0%Z ∨ loadHeader st (RPlanID rev) = None →
  match Preflight (Some st) st rev with
  | None => ∃ st' r, Put st rev now = (st', Ok r) ∧ RSReplayed r = false
  | Some e => Put st rev now = (st, Err e)
  end.
Proof.
  intros Hi Hc Hq Hnew. pose proof (Put_cases st rev now Hi) as Hrun. inversion Hrun as [e Hc'|rev' digest evs s st' res Hc' Hw Hd Hst Hhead Hcase Heq]; [congruence|].
  assert (rev' = rev) as -> by congruence. assert (RRequestID rev ∉ (EvRequestID <$> evs)) as Hnot.
  { pose proof Hq as Hf. rewrite (revisionByRequest_stored _ _ _ _ _ Hst) in Hf. injection Hf as Hf.
    pose proof (find_request evs (RRequestID rev) (ps_requests _ _ _ _ _ Hst)) as Hr. by rewrite Hf in Hr. }
  assert (Preflight (Some st) st rev = new_refusal st rev s) as ->.
  { unfold Preflight. rewrite Hc. destruct (Z.eqb_spec (RExpectedParent rev) 0) as [E0|E0]; [|rewrite preflight_judge by done; by eapply judge_new].
    destruct Hnew as [?|Hh]; [done|]. pose proof (ps_log _ _ _ _ _ Hst) as Hl. rewrite (proj2 Hhead Hh) in Hl. inversion Hl; subst.
    unfold new_refusal, base_of. rewrite Hh. destruct (CheckCoordinatorEpoch _ _ _ _ _); [done|]. by rewrite decide_True. }
  pose proof (new_case _ _ _ _ _ _ _ _ Hcase Hnot) as Hn. destruct (new_refusal st rev s) as [e|].
  - by destruct Hn as [-> ->].
  - destruct Hn as (r & -> & ?). by exists st', r.
Qed.

(** ** Witnesses: the example of DagRepo *)
Module ZoneExample.
Import RepoExample.

Definition no_result : Result := mkResult "" "" 0 0 "" "" "" 0 "" "" true ∅.
Definition result_of (r : result StoreError Result) : Result := match r with Ok r => r | Err _ => no_result end.
Definition result1 : Result := Eval vm_compute in result_of (Put empty first "t1").2.
Definition result2 : Result := Eval vm_compute in result_of (Put after1 second "t2").2.

Lemma run1 : Put empty first "t1" = (after1, Ok result1).
Proof. vm_compute. reflexivity. Qed.
Lemma run2 : Put after1 second "t2" = (after2, Ok result2).
Proof. vm_compute. reflexivity. Qed.

Lemma inv0 : store_inv empty.
Proof. apply store_inv_empty. Qed.
Lemma store1 : store_inv after1.
Proof. pose proof (Put_inv empty first "t1" inv0) as H. by rewrite run1 in H. Qed.
Lemma store2 : store_inv after2.
Proof. pose proof (Put_inv after1 second "t2" store1) as H. by rewrite run2 in H. Qed.

Lemma step1 : put_step empty after1.
Proof. pose proof (put_step_put empty first "t1") as H. by rewrite run1 in H. Qed.
Lemma step2 : put_step after1 after2.
Proof. pose proof (put_step_put after1 second "t2") as H. by rewrite run2 in H. Qed.

(** A coordinator whose epoch was taken over, and the fenced store. *)
Definition claimed : Store := mkStore [] [] [] [] [mkClaim "p1" 2 "b" 1 "other" "nonce" "t"] [].

Definition snapshot1 : Snapshot := Eval vm_compute in match SnapshotAt after1 "p1" 1 with Ok (s, _) => s | Err _ => At (empty_plan "" "") 0 end.
End ZoneExample.

Lemma Put_safe_witness : store_inv RepoExample.after1 ∧ documented RepoExample.stale
  (conflict "the request expects parent revision 1, but plan p1 is at revision 2").
Proof.
  split.
  - exact (eq_rect _ (λ p, store_inv p.1) (proj1 (Put_safe RepoExample.empty RepoExample.first "t1" ZoneExample.inv0)) _ ZoneExample.run1).
  - refine (proj2 (proj2 (Put_safe RepoExample.after2 RepoExample.stale "t3" ZoneExample.store2) _ _)). vm_compute. reflexivity.
Defined.

Lemma Put_commits_witness : ∃ rev evs s next, Checked RepoExample.second = Some (Ok rev) ∧ plan_stored RepoExample.after1 (RPlanID rev) (RProjectKey rev) evs s ∧
  loadState RepoExample.after2 (RPlanID rev) (RProjectKey rev) (headRevision RepoExample.after2 (RPlanID rev)) = Ok next ∧ RSRevisionNo ZoneExample.result2 = SRevision next.
Proof.
  destruct (Put_commits RepoExample.after1 RepoExample.second "t2" RepoExample.after2 ZoneExample.result2 ZoneExample.store1 ZoneExample.run2 eq_refl)
    as (rev & evs & s & next & d & ev & H1 & H2 & _ & _ & _ & H3 & H4 & _).
  exists rev, evs, s, next. exact (conj H1 (conj H2 (conj H3 H4))).
Defined.

Lemma Put_idempotent_witness : Put RepoExample.after2 RepoExample.first "t9" = (RepoExample.after2, Ok (as_replayed ZoneExample.result1)).
Proof.
  apply (Put_idempotent RepoExample.empty RepoExample.first "t1" RepoExample.after1 ZoneExample.result1 RepoExample.after2 "t9" ZoneExample.inv0 ZoneExample.run1).
  apply rtc_once, ZoneExample.step2.
Defined.

Lemma SnapshotAt_stable_witness : ∃ head', (1 ≤ head')%Z ∧ SnapshotAt RepoExample.after2 "p1" 1 = Ok (ZoneExample.snapshot1, head').
Proof.
  refine (SnapshotAt_stable RepoExample.after1 RepoExample.after2 "p1" 1 ZoneExample.snapshot1 1 ZoneExample.store1 _ _); [vm_compute; reflexivity|].
  apply rtc_once, ZoneExample.step2.
Defined.

Lemma VerifyLogOn_reachable_witness : VerifyLogOn RepoExample.after2 "p1" = Ok tt.
Proof.
  apply (VerifyLogOn_reachable [] [] RepoExample.after2 "p1"); [|exists "CRW"; vm_compute; reflexivity].
  apply (rtc_l _ _ _ _ ZoneExample.step1), rtc_once, ZoneExample.step2.
Defined.

Lemma EventsAfter_resumes_witness : ∃ evs final, all_events 3 RepoExample.after2 "p1" 1 = Ok evs ∧
  SnapshotAt RepoExample.after2 "p1" 0 = Ok (final, 2%Z) ∧ Replay ZoneExample.snapshot1 evs = Ok final.
Proof.
  refine (EventsAfter_resumes RepoExample.after2 "p1" 1 ZoneExample.snapshot1 2 ZoneExample.store2 _). vm_compute. reflexivity.
Defined.

Lemma Put_fenced_witness : ∃ detail, Put ZoneExample.claimed RepoExample.first "t" = (ZoneExample.claimed, Err (StaleEpoch detail)).
Proof.
  apply (Put_fenced ZoneExample.claimed RepoExample.first "t" (mkClaim "p1" 2 "b" 1 "other" "nonce" "t")); [vm_compute; reflexivity|left|reflexivity|vm_compute; reflexivity].
Defined.

(** A second writer that read revision 1 too. *)
Definition other_second : Revision := mkRevision "p1" "CRW" "req-2" 1 0 "task" [mkChange "retire_edge" None None "" "e1" ""; mkChange "pause_node" None None "a" "" ""].

Lemma Put_one_winner_witness : RSReplayed (as_replayed ZoneExample.result2) = true.
Proof.
  apply (Put_one_winner RepoExample.after1 RepoExample.second "t2" RepoExample.after2 ZoneExample.result2 RepoExample.after2 other_second "t5" RepoExample.after2
    (as_replayed ZoneExample.result2) ZoneExample.store1); [vm_compute; reflexivity|vm_compute; reflexivity|reflexivity|reflexivity|exact ZoneExample.run2|reflexivity|apply rtc_refl|].
  vm_compute. reflexivity.
Defined.

Lemma Preflight_exact_witness : Put RepoExample.after2 RepoExample.stale "t3" =
  (RepoExample.after2, Err (conflict "the request expects parent revision 1, but plan p1 is at revision 2")).
Proof.
  pose proof (Preflight_exact RepoExample.after2 RepoExample.stale "t3" ZoneExample.store2) as H.
  assert (Preflight (Some RepoExample.after2) RepoExample.after2 RepoExample.stale = Some (conflict "the request expects parent revision 1, but plan p1 is at revision 2")) as E
    by (vm_compute; reflexivity).
  rewrite E in H. apply H; [vm_compute; reflexivity|vm_compute; reflexivity|left; vm_compute; discriminate].
Defined.
