(* ===== verification/GoPath.v ===== *)
(** * GoPath: the parts of Go's packages path, strings and unicode/utf8 that read a slash-separated path.

    [strings.ToLower] is followed where its result can be told apart by a search for ASCII text: the ASCII letters, and the two other
    characters whose lower case is ASCII (U+0130 and U+212A). Every other character lowers to one outside ASCII and is left as it is. *)
From S2P Require Import Prelude GoLib Sha256 Json Loads Utf8.
Local Open Scope string_scope.

(** ** strings *)
Definition slash : ascii := "/".
Definition dot : ascii := ".".

(** [strings.Split(s, sep)] for a one-byte separator: never empty. *)
Fixpoint split_on (sep : ascii) (s : string) : list string :=
  match s with
  | EmptyString => [""]
  | String c s' =>
    if bool_decide (c = sep) then "" :: split_on sep s'
    else match split_on sep s' with w :: ws => String c w :: ws | [] => [String c ""] end
  end.

Definition has_prefix (s p : string) : bool := String.prefix p s.

(** [strings.Contains(s, sub)] *)
Fixpoint contains (s sub : string) : bool :=
  has_prefix s sub || match s with EmptyString => false | String _ s' => contains s' sub end.

(** [strings.ContainsRune(s, c)] for an ASCII [c] *)
Fixpoint contains_byte (s : string) (c : ascii) : bool :=
  match s with EmptyString => false | String x s' => bool_decide (x = c) || contains_byte s' c end.

Definition lower_rune (r : Z) : Z :=
  if in_range 65 90 r then (r + 32)%Z else if (r =? 0x130)%Z then 0x69%Z else if (r =? 0x212a)%Z then 0x6b%Z else r.

Definition to_lower (s : string) : string := string_of_bytes (encode_runes (lower_rune <$> runes (bytes_of_string s))).

(** unicode.IsSpace *)
Definition is_space (r : Z) : bool :=
  in_range 9 13 r || bool_decide (r ∈ [0x20; 0x85; 0xa0; 0x1680; 0x2028; 0x2029; 0x202f; 0x205f; 0x3000]%Z) || in_range 0x2000 0x200a r.

(** [strings.TrimSpace(s) == ""] *)
Definition blank (s : string) : bool := forallb is_space (runes (bytes_of_string s)).

(** utf8.ValidString *)
Fixpoint valid_bytes (fuel : nat) (s : list Z) : bool :=
  match fuel, s with
  | _, [] => true
  | O, _ => false
  | S fuel', _ =>
    let '(r, size) := decode_rune s in
    negb ((r =? rune_error)%Z && (size =? 1)%nat) && valid_bytes fuel' (drop size s)
  end.
Definition valid_string (s : string) : bool := valid_bytes (String.length s) (bytes_of_string s).

(** ** path *)

(** The elements kept so far, the last one first: "." and "" go, ".." takes back an element, or stays when there is none and the
    path is not rooted. *)
Definition clean_step (rooted : bool) (kept : list string) (part : string) : list string :=
  if bool_decide (part = "") || bool_decide (part = ".") then kept
  else if bool_decide (part = "..") then
    match kept with
    | top :: rest => if bool_decide (top = "..") then ".." :: kept else rest
    | [] => if rooted then [] else [".."]
    end
  else part :: kept.

(** path.Clean *)
Definition Clean (p : string) : string :=
  let rooted := has_prefix p "/" in
  let kept := reverse (foldl (clean_step rooted) [] (split_on slash p)) in
  if rooted then "/" +:+ join_sep "/" kept
  else if bool_decide (kept = []) then "." else join_sep "/" kept.

(** path.Ext: from the last dot of the last element. *)
Fixpoint Ext (p : string) : string :=
  match p with
  | EmptyString => ""
  | String c p' =>
    let e := Ext p' in
    if bool_decide (e = "") && bool_decide (c = dot) && negb (contains_byte p' slash) then p else e
  end.

(** ** Splitting and joining *)
Lemma str_assoc a b c : (a +:+ b) +:+ c = a +:+ b +:+ c.
Proof. induction a as [|x a IH]; [done|]. exact (f_equal (String x) IH). Qed.

Definition no_slash (s : string) : Prop := contains_byte s slash = false.

Lemma split_cons sep s : ∃ w ws, split_on sep s = w :: ws.
Proof. destruct s as [|c s]; cbn; [by eexists _, _|]. case_bool_decide; [by eexists _, _|]. destruct (split_on sep s); by eexists _, _. Qed.

Lemma join_cons sep w ws : ws ≠ [] → join_sep sep (w :: ws) = w +:+ sep +:+ join_sep sep ws.
Proof. by destruct ws. Qed.

Lemma join_split s : join_sep "/" (split_on slash s) = s.
Proof.
  induction s as [|c s IH]; [done|]. cbn [split_on]. destruct (split_cons slash s) as (w & ws & E). rewrite E in *. case_bool_decide as Hc.
  - subst c. rewrite join_cons by done. rewrite IH. done.
  - destruct ws; cbn [join_sep] in *; by rewrite <- IH.
Qed.

Lemma split_no_slash s : Forall no_slash (split_on slash s).
Proof.
  induction s as [|c s IH]; cbn [split_on]; [by repeat constructor|]. case_bool_decide as Hc; [by constructor|].
  destruct (split_on slash s) as [|w ws]; [apply Forall_singleton|apply Forall_cons in IH as [Hw IH]; constructor; [|done]];
    unfold no_slash in *; cbn [contains_byte]; by rewrite (bool_decide_eq_false_2 _ Hc).
Qed.

Lemma split_word w : no_slash w → split_on slash w = [w].
Proof.
  induction w as [|c w IH]; intros H; [done|]. unfold no_slash in H. cbn [contains_byte] in H. apply orb_false_iff in H as [H1 H2].
  cbn [split_on]. rewrite H1. by rewrite IH.
Qed.

Lemma split_app w s : no_slash w → split_on slash (w +:+ "/" +:+ s) = w :: split_on slash s.
Proof.
  induction w as [|c w IH]; intros H; [done|]. unfold no_slash in H. cbn [contains_byte] in H. apply orb_false_iff in H as [H1 H2].
  change (String c w +:+ "/" +:+ s) with (String c (w +:+ "/" +:+ s)). cbn [split_on]. rewrite H1. by rewrite IH.
Qed.

Lemma split_join ws : ws ≠ [] → Forall no_slash ws → split_on slash (join_sep "/" ws) = ws.
Proof.
  intros Hne Hf. induction Hf as [|w ws Hw Hf IH]; [done|]. destruct ws as [|w' ws]; [by apply split_word|].
  rewrite join_cons by done. rewrite split_app by done. by rewrite IH.
Qed.

(** ** Prefixes *)
Lemma has_prefix_app s t : has_prefix (s +:+ t) s = true.
Proof.
  unfold has_prefix. induction s as [|c s IH]; [by destruct t|].
  change (String c s +:+ t) with (String c (s +:+ t)). cbn. destruct (ascii_dec c c); [exact IH|congruence].
Qed.

Lemma has_prefix_spec s p : has_prefix s p = true ↔ ∃ t, s = p +:+ t.
Proof.
  split; [|intros [t ->]; apply has_prefix_app]. unfold has_prefix. revert s. induction p as [|c p IH]; intros s H; [by exists s|].
  destruct s as [|d s]; [done|]. cbn in H. destruct (ascii_dec c d) as [->|]; [|done]. destruct (IH s H) as [t ->]. by exists t.
Qed.

(** ** Clean paths *)

(** An element a clean path keeps. *)
Definition good_part (part : string) : Prop := part ≠ "" ∧ part ≠ "." ∧ part ≠ "..".

Lemma clean_good rooted kept parts : Forall good_part parts → foldl (clean_step rooted) kept parts = (reverse parts ++ kept)%list.
Proof.
  intros H. revert kept. induction H as [|w ws (H1 & H2 & H3) H IH]; intros kept; [done|]. cbn [foldl]. rewrite IH.
  unfold clean_step. rewrite !bool_decide_eq_false_2 by done. cbn [orb]. by rewrite reverse_cons, <- (assoc_L (++)%list).
Qed.

(** What Clean keeps of a path that is not rooted: ".." only at the front. *)
Definition kept_ok (kept : list string) : Prop := ∃ goods ups, kept = (goods ++ ups)%list ∧ Forall good_part goods ∧ Forall (λ u, u = "..") ups.

Lemma clean_step_ok kept part : kept_ok kept → kept_ok (clean_step false kept part).
Proof.
  intros (goods & ups & -> & Hg & Hu). unfold clean_step. destruct (decide (part = "")) as [->|N1]; [by exists goods, ups|].
  destruct (decide (part = ".")) as [->|N2]; [by exists goods, ups|]. rewrite !(bool_decide_eq_false_2 (part = _)) by done. cbn [orb].
  destruct (decide (part = "..")) as [->|N3].
  - rewrite bool_decide_eq_true_2 by done. destruct Hg as [|g goods (_ & _ & Hg) Hgs]; cbn.
    + destruct Hu as [|u ups -> Hu]; cbn; [exists [], [".."]|exists [], (".." :: ".." :: ups)]; split_and!; by repeat constructor.
    + rewrite bool_decide_eq_false_2 by done. by exists goods, ups.
  - rewrite bool_decide_eq_false_2 by done. exists (part :: goods), ups. split_and!; [done|by constructor|done].
Qed.

Lemma clean_fold_ok parts kept : kept_ok kept → kept_ok (foldl (clean_step false) kept parts).
Proof. revert kept. induction parts as [|w ws IH]; intros kept H; [done|]. apply IH. by apply clean_step_ok. Qed.

Lemma clean_subset rooted parts kept w : w ∈ foldl (clean_step rooted) kept parts → w ∈ kept ∨ w ∈ parts.
Proof.
  revert kept. induction parts as [|x ws IH]; intros kept H; [by left|]. apply IH in H as [H|H]; [|right; by right].
  unfold clean_step in H. repeat case_match; try (by left); repeat case_bool_decide; subst; rewrite ?elem_of_cons, ?elem_of_nil in *; naive_solver.
Qed.

(** A relative path that Clean leaves as it is, and that does not climb, is its elements joined: none of them empty, "." or "..". *)
Lemma Clean_relative p : has_prefix p "/" = false → p ≠ "." → (Clean p = p ∧ p ≠ ".." ∧ has_prefix p "../" = false ↔ Forall good_part (split_on slash p)).
Proof.
  intros Hr Hdot. unfold Clean. rewrite Hr. split.
  - intros (Hc & Hup & Hclimb). pose proof (clean_fold_ok (split_on slash p) [] ltac:(exists [], []; by repeat constructor)) as (goods & ups & Hk & Hg & Hu).
    rewrite Hk in Hc. case_bool_decide as Hnil; [congruence|].
    assert (Forall no_slash (reverse (goods ++ ups))) as Hns.
    { rewrite <- Hk. apply Forall_forall. intros w Hw. rewrite elem_of_reverse in Hw. apply clean_subset in Hw as [Hw|Hw]; [by apply elem_of_nil in Hw|].
      pose proof (split_no_slash p) as Hs. rewrite Forall_forall in Hs. by apply Hs. }
    rewrite <- Hc, split_join by done. rewrite reverse_app. destruct ups as [|u ups] using rev_ind; [by rewrite reverse_nil; apply Forall_reverse|].
    exfalso. clear IHups. apply Forall_app in Hu as [Hu Hu1]. apply Forall_singleton in Hu1 as ->.
    rewrite reverse_app, reverse_app in Hc. change (reverse [".."]) with [".."] in Hc. cbn [app] in Hc.
    destruct (reverse ups ++ reverse goods)%list as [|w ws] eqn:E; [by cbn in Hc|]. rewrite join_cons in Hc by done. rewrite <- Hc in Hclimb.
    exact (eq_true_false_abs _ (has_prefix_app "../" (join_sep "/" (w :: ws))) Hclimb).
  - intros Hg. rewrite clean_good, app_nil_r, reverse_involutive, join_split by done.
    destruct (split_cons slash p) as (w & ws & E). rewrite bool_decide_eq_false_2 by (by rewrite E). rewrite E in Hg. apply Forall_cons in Hg as [(H1 & H2 & H3) _].
    split_and!; [done| |].
    + intros ->. by injection E as <- _.
    + apply not_true_is_false. intros [s ->]%has_prefix_spec. change ("../" +:+ s) with (".." +:+ "/" +:+ s) in E.
      rewrite split_app in E by done. by injection E as <- _.
Qed.

(** [dir] is a directory on the way to [p]. *)
Lemma split_prefix dir s : split_on slash (dir +:+ "/" +:+ s) = (split_on slash dir ++ split_on slash s)%list.
Proof.
  rewrite <- (join_split dir) at 1. pose proof (split_no_slash dir) as Hn. destruct (split_cons slash dir) as (w & ws & E). rewrite E in *. clear E dir.
  revert w Hn. induction ws as [|w' ws IH]; intros w Hn; apply Forall_cons in Hn as [Hw Hn]; [by apply split_app|].
  rewrite join_cons by done. rewrite !str_assoc, split_app by done. cbn [app]. f_equal. by apply IH.
Qed.

Lemma within_prefix p dir : (p = dir ∨ has_prefix p (dir +:+ "/") = true) ↔ split_on slash dir `prefix_of` split_on slash p.
Proof.
  rewrite has_prefix_spec. split.
  - intros [->|[t ->]]; [done|]. rewrite str_assoc, split_prefix. by eexists.
  - intros [ws Hp]. rewrite <- (join_split p), Hp. destruct ws as [|w ws]; [left; by rewrite app_nil_r, join_split|]. right.
    exists (join_sep "/" (w :: ws)). rewrite <- (join_split dir) at 2. destruct (split_cons slash dir) as (x & xs & ->). clear.
    revert x. induction xs as [|y xs IH]; intros x; [cbn [app]; by rewrite join_cons, str_assoc by done|]. cbn [app]. rewrite (join_cons _ x (y :: xs ++ w :: ws)), (join_cons _ x (y :: xs)) by done.
    rewrite !str_assoc. f_equal. f_equal. specialize (IH y). cbn [app] in IH. rewrite IH. by rewrite str_assoc.
Qed.
