(* ===== verification/GoTime.v ===== *)
(** * GoTime: the instants of Go's package time that a record spells.

    A [time.Time] is its seconds since the first instant of year 1 in UTC and its nanoseconds; its location plays no part, since the records take it to
    UTC first. [instant] is [t.UTC().Format("2006-01-02T15:04:05Z")], and [parse_instant] is [time.Parse(time.RFC3339, _)] on the texts of
    that layout. *)
From S2P Require Import Prelude GoLib Sha256.
Local Open Scope Z_scope.
Record Time : Type := mkTime { t_sec : Z; t_nsec : Z }.

#[export] Instance Time_eq_dec : EqDecision Time.
Proof. solve_decision. Defined.

Definition IsZero (t : Time) : bool := (t_sec t =? 0) && (t_nsec t =? 0).

(** ** The calendar *)
Definition leap (y : Z) : bool := (y mod 4 =? 0) && (negb (y mod 100 =? 0) || (y mod 400 =? 0)).

Definition month_lengths (l : bool) : list Z := [31; if l then 29 else 28; 31; 30; 31; 30; 31; 31; 30; 31; 30; 31].

(** The month and the day of a day of the year, both from zero on entry. *)
Fixpoint month_day (lengths : list Z) (m yday : Z) : Z * Z :=
  match lengths with
  | n :: ((_ :: _) as rest) => if yday <? n then (m, yday + 1) else month_day rest (m + 1) (yday - n)
  | _ => (m, yday + 1)
  end.

(** The year and the day of the year, by cycles of 400, 100, 4 and 1 years. *)
Definition year_day (days : Z) : Z * Z :=
  let n400 := days / 146097 in
  let d := days mod 146097 in
  let n100 := Z.min 3 (d / 36524) in
  let d := d - 36524 * n100 in
  let n4 := d / 1461 in
  let d := d mod 1461 in
  let n1 := Z.min 3 (d / 365) in
  (400 * n400 + 100 * n100 + 4 * n4 + n1 + 1, d - 365 * n1).

Definition date (days : Z) : Z * Z * Z :=
  let '(y, yday) := year_day days in
  let '(m, d) := month_day (month_lengths (leap y)) 1 yday in
  (y, m, d).

Definition days_before_year (y : Z) : Z := let p := y - 1 in 365 * p + p / 4 - p / 100 + p / 400.
Definition days_before_month (l : bool) (m : Z) : Z := foldr Z.add 0 (take (Z.to_nat (m - 1)) (month_lengths l)).
Definition days_of (y m d : Z) : Z := days_before_year y + days_before_month (leap y) m + (d - 1).
Definition days_in (y m : Z) : Z := default 0 (month_lengths (leap y) !! Z.to_nat (m - 1)).

(** ** Spelling *)
Definition digit_char (d : Z) : ascii := ascii_of_N (Z.to_N (48 + d)).
Definition two (n : Z) : list ascii := [digit_char (n / 10); digit_char (n mod 10)].
Definition four (n : Z) : list ascii := (two (n / 100) ++ two (n mod 100))%list.

Definition year_text (y : Z) : list ascii :=
  let body n := if n <=? 9999 then four n else String.list_ascii_of_string (itoa n) in
  if y <? 0 then "-"%char :: body (- y) else body y.

Definition instant_chars (t : Time) : list ascii :=
  let days := t_sec t / 86400 in
  let s := t_sec t mod 86400 in
  let '(y, m, d) := date days in
  (year_text y ++ "-"%char :: two m ++ "-"%char :: two d ++ "T"%char :: two (s / 3600) ++ ":"%char :: two (s mod 3600 / 60) ++ ":"%char :: two (s mod 60) ++
   ["Z"%char])%list.

Definition instant (t : Time) : string := String.string_of_list_ascii (instant_chars t).

(** ** Reading *)
Definition digit_value (c : ascii) : option Z :=
  let n := Z.of_N (N_of_ascii c) - 48 in if (0 <=? n) && (n <=? 9) then Some n else None.

Definition number2 (a b : ascii) : option Z := x ← digit_value a; y ← digit_value b; Some (10 * x + y).

Definition parse_chars (s : list ascii) : option Time :=
  match s with
  | [y1; y2; y3; y4; "-"; m1; m2; "-"; d1; d2; "T"; h1; h2; ":"; n1; n2; ":"; s1; s2; "Z"]%char =>
    yh ← number2 y1 y2; yl ← number2 y3 y4; m ← number2 m1 m2; d ← number2 d1 d2; h ← number2 h1 h2; n ← number2 n1 n2; sec ← number2 s1 s2;
    let y := 100 * yh + yl in
    if (1 <=? m) && (m <=? 12) && (1 <=? d) && (d <=? days_in y m) && (h <=? 23) && (n <=? 59) && (sec <=? 59)
    then Some (mkTime (86400 * days_of y m d + 3600 * h + 60 * n + sec) 0) else None
  | _ => None
  end.

Definition parse_instant (s : string) : option Time := parse_chars (String.list_ascii_of_string s).

(** ** Reading back *)
Lemma digit_value_char d : 0 ≤ d < 10 → digit_value (digit_char d) = Some d.
Proof.
  intros H. assert (Forall (λ d, digit_value (digit_char d) = Some d) (Z.of_nat <$> seq 0 10)) as Ha.
  { refine (bool_decide_unpack _ _). vm_compute. exact I. }
  rewrite Forall_forall in Ha. apply Ha, list_elem_of_fmap. exists (Z.to_nat d). split; [lia|]. apply elem_of_seq. lia.
Qed.

Lemma number2_two n : 0 ≤ n < 100 → number2 (digit_char (n / 10)) (digit_char (n mod 10)) = Some n.
Proof.
  intros H. unfold number2. assert (0 ≤ n / 10 < 10) by (split; [apply Z.div_pos; lia|apply Z.div_lt_upper_bound; lia]).
  pose proof (Z.mod_pos_bound n 10 ltac:(lia)). rewrite !digit_value_char by lia. cbn. f_equal. pose proof (Z.div_mod n 10). lia.
Qed.

Lemma month_day_spec (l : bool) yday m d : 0 ≤ yday < (if l then 366 else 365) → month_day (month_lengths l) 1 yday = (m, d) →
  1 ≤ m ≤ 12 ∧ 1 ≤ d ≤ default 0 (month_lengths l !! Z.to_nat (m - 1)) ∧ days_before_month l m + (d - 1) = yday.
Proof.
  intros Hy E. pose (md l yday := month_day (month_lengths l) 1 yday).
  assert (∀ l : bool, Forall (λ yday, (1 ≤ (md l yday).1 ∧ (md l yday).1 ≤ 12) ∧
    (1 ≤ (md l yday).2 ∧ (md l yday).2 ≤ default 0 (month_lengths l !! Z.to_nat ((md l yday).1 - 1))) ∧
    days_before_month l (md l yday).1 + ((md l yday).2 - 1) = yday) (Z.of_nat <$> seq 0 (if l then 366 else 365))) as Ha.
  { intros []; refine (bool_decide_unpack _ _); vm_compute; exact I. }
  specialize (Ha l). rewrite Forall_forall in Ha. specialize (Ha yday). unfold md in Ha. rewrite E in Ha. apply Ha, list_elem_of_fmap. exists (Z.to_nat yday).
  split; [lia|]. apply elem_of_seq. destruct l; lia.
Qed.

(** A year and a day of it, in cycles: how the days before it and its length follow. *)
Lemma cycle_year a b c e : 0 ≤ a → 0 ≤ b ≤ 3 → 0 ≤ c ≤ 24 → 0 ≤ e ≤ 3 →
  days_before_year (400 * a + 100 * b + 4 * c + e + 1) = 146097 * a + 36524 * b + 1461 * c + 365 * e ∧
  (leap (400 * a + 100 * b + 4 * c + e + 1) = true ↔ e = 3 ∧ (c ≠ 24 ∨ b = 3)).
Proof.
  intros Ha Hb Hc He. unfold days_before_year, leap. split; [Z.to_euclidean_division_equations; nia|].
  rewrite andb_true_iff, orb_true_iff, negb_true_iff, Z.eqb_eq, Z.eqb_neq, Z.eqb_eq. split.
  - intros [H1 H2]. Z.to_euclidean_division_equations. nia.
  - intros [-> H]. Z.to_euclidean_division_equations. nia.
Qed.

Lemma year_day_spec days y yday : 0 ≤ days → year_day days = (y, yday) →
  1 ≤ y ∧ days_before_year y + yday = days ∧ 0 ≤ yday < (if leap y then 366 else 365).
Proof.
  intros Hd. unfold year_day. set (a := days / 146097). set (d1 := days mod 146097). set (b := Z.min 3 (d1 / 36524)).
  set (c := (d1 - 36524 * b) / 1461). set (d2 := (d1 - 36524 * b) mod 1461). set (e := Z.min 3 (d2 / 365)).
  assert (days = 146097 * a + d1 ∧ 0 ≤ a ∧ 0 ≤ d1 < 146097) as (E1 & Ha & Hd1) by (subst a d1; Z.to_euclidean_division_equations; lia).
  assert (0 ≤ b ≤ 3 ∧ 0 ≤ d1 - 36524 * b ≤ 36524 ∧ (b ≠ 3 → d1 - 36524 * b ≤ 36523)) as (Hb & Hr & Hr3)
    by (clearbody d1; subst b; Z.to_euclidean_division_equations; lia).
  assert (d1 - 36524 * b = 1461 * c + d2 ∧ 0 ≤ c ≤ 24 ∧ 0 ≤ d2 < 1461) as (E2 & Hc & Hd2)
    by (clearbody b d1; subst c d2; Z.to_euclidean_division_equations; lia).
  assert (0 ≤ e ≤ 3 ∧ 0 ≤ d2 - 365 * e ≤ 365 ∧ (e ≠ 3 → d2 - 365 * e ≤ 364)) as (He & Hy & Hy3)
    by (clearbody d2; subst e; Z.to_euclidean_division_equations; lia).
  clearbody a d1 b c d2 e. intros [= <- <-]. destruct (cycle_year a b c e Ha Hb Hc He) as [-> Hl]. split_and!; [lia|lia|lia|].
  destruct (leap _) eqn:L; [lia|]. assert (¬ (e = 3 ∧ (c ≠ 24 ∨ b = 3))) as Hn by (intros H; by apply Hl in H).
  destruct (decide (e = 3)), (decide (b = 3)); [exfalso; auto|lia..].
Qed.

(** The instants of the years 1 to 9999. *)
Definition in_years (t : Time) : Prop := 0 ≤ t_sec t < 3652059 * 86400.

Lemma days_before_mono y : 10000 ≤ y → 3652059 ≤ days_before_year y.
Proof. intros H. unfold days_before_year. Z.to_euclidean_division_equations. lia. Qed.

Lemma parse_instant_instant t : in_years t → parse_instant (instant t) = Some (mkTime (t_sec t) 0).
Proof.
  intros [H0 H1]. unfold parse_instant, instant. rewrite String.list_ascii_of_string_of_list_ascii. unfold instant_chars.
  set (days := t_sec t / 86400). set (s := t_sec t mod 86400).
  assert (t_sec t = 86400 * days + s ∧ 0 ≤ days < 3652059 ∧ 0 ≤ s < 86400) as (E & Hd & Hs) by (subst days s; Z.to_euclidean_division_equations; lia).
  clearbody days s. unfold date. destruct (year_day days) as [y yday] eqn:Ey. destruct (month_day _ 1 yday) as [m d] eqn:Em.
  apply year_day_spec in Ey as (Y1 & Y2 & Y3); [|lia]. apply month_day_spec in Em as (M1 & M2 & M3); [|done].
  assert (y ≤ 9999) by (destruct (Z.le_gt_cases y 9999); [done|]; pose proof (days_before_mono y ltac:(lia)); lia).
  unfold year_text. destruct (Z.ltb_spec y 0); [lia|]. destruct (Z.leb_spec y 9999); [|lia]. unfold four, two. cbn [app parse_chars].
  assert (d ≤ 31) by (destruct M2 as [_ M2]; etrans; [exact M2|]; destruct (leap y); clear -M1;
    assert (Forall (λ n, n ≤ 31) (month_lengths true) ∧ Forall (λ n, n ≤ 31) (month_lengths false)) as [F1 F2] by (split; repeat constructor; lia);
    [destruct (month_lengths true !! _) eqn:X; [by apply (Forall_lookup_1 _ _ _ _ F1) in X|cbn; lia]|
     destruct (month_lengths false !! _) eqn:X; [by apply (Forall_lookup_1 _ _ _ _ F2) in X|cbn; lia]]).
  assert (0 ≤ y / 100 < 100 ∧ 0 ≤ y mod 100 < 100 ∧ 0 ≤ s / 3600 < 24 ∧ 0 ≤ s mod 3600 / 60 < 60 ∧ 0 ≤ s mod 60 < 60 ∧
    s = 3600 * (s / 3600) + 60 * (s mod 3600 / 60) + s mod 60 ∧ 100 * (y / 100) + y mod 100 = y) as (B1 & B2 & B3 & B4 & B5 & B6 & B7)
    by (Z.to_euclidean_division_equations; lia).
  rewrite !number2_two by lia. cbn [mbind option_bind]. rewrite B7. unfold days_in.
  assert ((1 <=? m) && (m <=? 12) && (1 <=? d) && (d <=? default 0 (month_lengths (leap y) !! Z.to_nat (m - 1))) && (s / 3600 <=? 23) && (s mod 3600 / 60 <=? 59)
    && (s mod 60 <=? 59) = true) as -> by (rewrite !andb_true_iff, !Z.leb_le; lia).
  f_equal. unfold days_of. f_equal. lia.
Qed.

(** The last second of February in a leap year, and a day that does not exist. *)
Example instant_example :
  instant (mkTime 63844847999 5) = "2024-02-29T23:59:59Z"%string ∧ parse_instant "2024-02-29T23:59:59Z" = Some (mkTime 63844847999 0) ∧
  parse_instant "2023-02-29T00:00:00Z" = None.
Proof. vm_compute. done. Qed.

(** * The microsecond times the relay writes and reads back.

    [ISO] is registry.ISO: [t.UTC().Format("2006-01-02T15:04:05.000000") + "+00:00"]. [parse_iso] is [time.Parse("2006-01-02T15:04:05.000000Z07:00", _)]: the hour may be one digit, the
    fraction is six characters after a point or a comma, read with an optional sign, and the zone is "Z" or an offset of at most 24 hours and 60 minutes. *)
Definition six (n : Z) : list ascii := (two (n / 10000) ++ two (n / 100 mod 100) ++ two (n mod 100))%list.

Definition ISO_chars (t : Time) : list ascii :=
  let days := t_sec t / 86400 in
  let s := t_sec t mod 86400 in
  let '(y, m, d) := date days in
  (year_text y ++ "-"%char :: two m ++ "-"%char :: two d ++ "T"%char :: two (s / 3600) ++ ":"%char :: two (s mod 3600 / 60) ++ ":"%char :: two (s mod 60) ++
   "."%char :: six (t_nsec t / 1000) ++ ["+"; "0"; "0"; ":"; "0"; "0"]%char)%list.

Definition ISO (t : Time) : string := String.string_of_list_ascii (ISO_chars t).

Definition digits_value (cs : list ascii) : option Z := foldl (λ acc c, n ← acc; d ← digit_value c; Some (10 * n + d)) (Some 0) cs.

(** The fraction: [atoi] of six characters, refused when negative. *)
Definition fraction (cs : list ascii) : option Z :=
  match cs with
  | "+"%char :: rest => digits_value rest
  | "-"%char :: rest => n ← digits_value rest; if n =? 0 then Some 0 else None
  | _ => digits_value cs
  end.

(** The offset in seconds of the zone that ends the text. *)
Definition zone (cs : list ascii) : option Z :=
  match cs with
  | ["Z"%char] => Some 0
  | [sign; h1; h2; ":"%char; m1; m2] =>
    h ← number2 h1 h2; m ← number2 m1 m2;
    if (24 <? h) || (60 <? m) then None
    else if bool_decide (sign = "+"%char) then Some (60 * (60 * h + m)) else if bool_decide (sign = "-"%char) then Some (- (60 * (60 * h + m))) else None
  | _ => None
  end.

(** The hour, of one or two digits, and what follows it. *)
Definition hour (cs : list ascii) : option (Z * list ascii) :=
  match cs with
  | h1 :: ((h2 :: rest) as tail) => x ← digit_value h1; match digit_value h2 with Some y => Some (10 * x + y, rest) | None => Some (x, tail) end
  | _ => None
  end.

Definition clock (y m d : Z) (cs : list ascii) : option Time :=
  '(h, rest) ← hour cs;
  match rest with
  | ":"%char :: n1 :: n2 :: ":"%char :: s1 :: s2 :: point :: f1 :: f2 :: f3 :: f4 :: f5 :: f6 :: tail =>
    n ← number2 n1 n2; sec ← number2 s1 s2; micros ← fraction [f1; f2; f3; f4; f5; f6]; offset ← zone tail;
    if bool_decide (point ∈ ["."; ","]%char) && (1 <=? m) && (m <=? 12) && (1 <=? d) && (d <=? days_in y m) && (h <=? 23) && (n <=? 59) && (sec <=? 59)
    then Some (mkTime (86400 * days_of y m d + 3600 * h + 60 * n + sec - offset) (1000 * micros)) else None
  | _ => None
  end.

Definition parse_iso_chars (s : list ascii) : option Time :=
  match s with
  | y1 :: y2 :: y3 :: y4 :: "-"%char :: m1 :: m2 :: "-"%char :: d1 :: d2 :: "T"%char :: rest =>
    yh ← number2 y1 y2; yl ← number2 y3 y4; m ← number2 m1 m2; d ← number2 d1 d2; clock (100 * yh + yl) m d rest
  | _ => None
  end.

Definition parse_iso (s : string) : option Time := parse_iso_chars (String.list_ascii_of_string s).

(** [t.Sub(u)] in nanoseconds: saturated at the ends of int64. *)
Definition Sub (t u : Time) : Z := Z.max (- 2 ^ 63) (Z.min (2 ^ 63 - 1) (1000000000 * (t_sec t - t_sec u) + (t_nsec t - t_nsec u))).

(** [t.Add(d)] for a whole number of seconds. *)
Definition add_seconds (t : Time) (n : Z) : Time := mkTime (t_sec t + n) (t_nsec t).

(** ** Reading back *)
Lemma digits_two a b n rest : 0 ≤ n < 100 → a = digit_char (n / 10) → b = digit_char (n mod 10) → ∀ acc, 
  foldl (λ acc c, n ← acc; d ← digit_value c; Some (10 * n + d)) (Some acc) (a :: b :: rest) = foldl (λ acc c, n ← acc; d ← digit_value c; Some (10 * n + d)) (Some (100 * acc + n)) rest.
Proof.
  intros H -> -> acc. assert (0 ≤ n / 10 < 10) by (split; [apply Z.div_pos; lia|apply Z.div_lt_upper_bound; lia]). pose proof (Z.mod_pos_bound n 10 ltac:(lia)).
  cbn [foldl mbind option_bind]. rewrite !digit_value_char by lia. cbn [mbind option_bind]. do 2 f_equal. pose proof (Z.div_mod n 10). lia.
Qed.

Lemma digits_six n : 0 ≤ n < 1000000 → digits_value (six n) = Some n.
Proof.
  intros H. assert (0 ≤ n / 10000 < 100 ∧ 0 ≤ n / 100 mod 100 < 100 ∧ 0 ≤ n mod 100 < 100 ∧ n = 10000 * (n / 10000) + 100 * (n / 100 mod 100) + n mod 100) as (H1 & H2 & H3 & E)
    by (Z.to_euclidean_division_equations; lia).
  unfold digits_value, six, two. cbn [app]. rewrite (digits_two _ _ (n / 10000)) by done. rewrite (digits_two _ _ (n / 100 mod 100)) by done.
  rewrite (digits_two _ _ (n mod 100)) by done. cbn [foldl]. f_equal. lia.
Qed.

(** A fraction that starts with a digit has no sign. *)
Lemma fraction_digits a rest n : 0 ≤ n < 10 → a = digit_char n → fraction (a :: rest) = digits_value (a :: rest).
Proof.
  intros H ->. assert (n = 0 ∨ n = 1 ∨ n = 2 ∨ n = 3 ∨ n = 4 ∨ n = 5 ∨ n = 6 ∨ n = 7 ∨ n = 8 ∨ n = 9) as Hn by lia. by repeat destruct Hn as [->|Hn]; [..|subst n].
Qed.

Lemma month_at_most l m : 1 ≤ m ≤ 12 → default 0 (month_lengths l !! Z.to_nat (m - 1)) ≤ 31.
Proof.
  intros _. assert (Forall (λ n, n ≤ 31) (month_lengths l)) as F by (destruct l; repeat constructor; lia).
  destruct (month_lengths l !! _) eqn:X; [by apply (Forall_lookup_1 _ _ _ _ F) in X|cbn; lia].
Qed.

(** A time the relay wrote is read back to the microsecond. *)
Lemma parse_iso_ISO t : in_years t → 0 ≤ t_nsec t < 1000000000 → parse_iso (ISO t) = Some (mkTime (t_sec t) (1000 * (t_nsec t / 1000))).
Proof.
  intros [H0 H1] Hn. unfold parse_iso, ISO. rewrite String.list_ascii_of_string_of_list_ascii. unfold ISO_chars.
  set (days := t_sec t / 86400). set (s := t_sec t mod 86400).
  assert (t_sec t = 86400 * days + s ∧ 0 ≤ days < 3652059 ∧ 0 ≤ s < 86400) as (E & Hd & Hs) by (subst days s; Z.to_euclidean_division_equations; lia).
  assert (0 ≤ t_nsec t / 1000 < 1000000) as Hu by (Z.to_euclidean_division_equations; lia). set (u := t_nsec t / 1000) in *. clearbody u.
  clearbody days s. unfold date. destruct (year_day days) as [y yday] eqn:Ey. destruct (month_day _ 1 yday) as [m d] eqn:Em.
  apply year_day_spec in Ey as (Y1 & Y2 & Y3); [|lia]. apply month_day_spec in Em as (M1 & M2 & M3); [|done].
  assert (y ≤ 9999) by (destruct (Z.le_gt_cases y 9999); [done|]; pose proof (days_before_mono y ltac:(lia)); lia). pose proof (month_at_most (leap y) m M1).
  unfold year_text. destruct (Z.ltb_spec y 0); [lia|]. destruct (Z.leb_spec y 9999); [|lia]. pose proof (digits_six u Hu) as Hsix.
  unfold four, six, two in *. cbn [app] in *. cbn [parse_iso_chars].
  assert (0 ≤ y / 100 < 100 ∧ 0 ≤ y mod 100 < 100 ∧ 0 ≤ s / 3600 < 24 ∧ 0 ≤ s mod 3600 / 60 < 60 ∧ 0 ≤ s mod 60 < 60 ∧
    s = 3600 * (s / 3600) + 60 * (s mod 3600 / 60) + s mod 60 ∧ 100 * (y / 100) + y mod 100 = y) as (B1 & B2 & B3 & B4 & B5 & B6 & B7)
    by (Z.to_euclidean_division_equations; lia).
  assert (0 ≤ s / 3600 / 10 < 10 ∧ 0 ≤ (s / 3600) mod 10 < 10 ∧ s / 3600 = 10 * (s / 3600 / 10) + (s / 3600) mod 10 ∧ 0 ≤ u / 10000 / 10 < 10) as (B8 & B9 & B10 & B11)
    by (clear -B3 Hu; Z.to_euclidean_division_equations; lia).
  rewrite !number2_two by lia. cbn [mbind option_bind]. unfold clock, hour. rewrite !digit_value_char by done. cbn [mbind option_bind]. rewrite !number2_two by lia. cbn [mbind option_bind].
  rewrite (fraction_digits _ _ (u / 10000 / 10)) by done. rewrite Hsix. cbn [mbind option_bind zone]. change (number2 "0" "0") with (Some 0). cbn -[Z.mul Z.add days_of].
  rewrite (bool_decide_eq_true_2 ("+"%char = "+"%char)), (bool_decide_eq_true_2 ("."%char ∈ _)) by (done || by left). cbn [mbind option_bind]. rewrite <- B10, B7, andb_true_l. unfold days_in.
  assert ((1 <=? m) && (m <=? 12) && (1 <=? d) && (d <=? default 0 (month_lengths (leap y) !! Z.to_nat (m - 1))) && (s / 3600 <=? 23) && (s mod 3600 / 60 <=? 59)
    && (s mod 60 <=? 59) = true) as -> by (rewrite !andb_true_iff, !Z.leb_le; lia).
  f_equal. unfold days_of. f_equal. lia.
Qed.
