(* ===== verification/RiskTier.v ===== *)
(** * RiskTier: the risk tier of a branch head (internal/risktier: classify.go, decide.go).

    [Classify] is the tier of a path, [Decide] the decision record of a head, [inputOf] and [Validate] the check of a record against the
    decision its own members give. Go ranges over the map of identities in an order of its own: the order is an argument of [Decide].
    [Validate] compares the two records as encoding/json spells them, which replaces the bytes of a string that are not UTF-8; a record has
    non-nil lists, as those [Decode] hands on. A time in another spelling of RFC 3339 (an offset, fractions of a second) is read by Go and then refused, since the decision
    spells it in UTC with whole seconds; [inputOf] refuses it at once. The reading of a document ([Decode]) is not modelled. *)
From S2P Require Import Prelude GoLib Sha256 Json Loads Utf8 GoPath GoTime.
Local Open Scope string_scope.

(** ** classify.go *)
Definition Tier : Type := string.
Definition Low : Tier := "low".
Definition High : Tier := "high".

Definition valid (t : Tier) : bool := bool_decide (t = Low) || bool_decide (t = High).

Definition Max (a b : Tier) : Tier := if bool_decide (a = Low) && bool_decide (b = Low) then Low else High.

Record Verdict : Type := mkVerdict { VTier : Tier; VRuleName : string }.

Definition RuleDocsProse := "docs_prose".
Definition RuleDocsProseTree := "docs_prose_tree".
Definition RuleTestdataData := "testdata_data".
Definition RuleTestdataTree := "testdata_tree".
Definition RuleTestdataUnlisted := "testdata_not_listed".
Definition RuleSharedContract := "shared_contract".
Definition RuleExecutableText := "executable_instruction".
Definition RuleCorpusOrFixture := "corpus_or_fixture".
Definition RuleHighTree := "high_tree".
Definition RuleNotOnAllowlist := "not_on_allowlist".
Definition RuleInvalidPath := "invalid_path".
Definition RuleTypeChange := "type_change".
Definition RuleSecurityCorpus := "security_corpus".

Definition reservedDocs : list string := ["golden"; "fixture"; "corpus"; "oracle"; "recorded"; "security"].
Definition reservedTestdata : list string := ["golden"; "fixture"; "corpus"; "oracle"; "recorded"; "security"; "replay"; "hook"; "shell"].
Definition lowTestdata : list string := ["internal/skill/search/testdata"].
Definition testdataExts : list string := [".json"; ".jsonl"; ".ndjson"; ".txt"; ".md"; ".toml"; ".yaml"; ".yml"; ".csv"].
Definition highTrees : list string := ["internal/relay"; "internal/runtime"; "internal/hookswitch"; "internal/policystore"].
Definition securityCorpusTrees : list string := ["internal/dev/cxcfuzz/testdata"; "internal/pabcd/gate/testdata"].
Definition sharedTrees : list string := ["contract"].
Definition sharedFiles : list string := ["internal/relay/argparse/specs.json"].
Definition instructionFiles : list string := ["AGENTS.md"; "CLAUDE.md"; "POLICY.md"; "SECURITY.md"].
Definition agentInstructionNames : list string := ["agents.md"; "claude.md"].

Definition within (p dir : string) : bool := bool_decide (p = dir) || has_prefix p (dir +:+ "/").
Definition withinAny (p : string) (dirs : list string) : bool := existsb (within p) dirs.

Definition backslash : ascii := "092".

Definition validPath (p : string) : bool :=
  if bool_decide (p = "") || bool_decide (p = ".") || negb (valid_string p) || negb (bool_decide (Clean p = p)) || has_prefix p "/" || contains_byte p backslash
  then false
  else if existsb (λ r, (r <? 0x20)%Z || (r =? 0x7f)%Z) (runes (bytes_of_string p)) then false
  else negb (bool_decide (p = "..")) && negb (has_prefix p "../").

Definition reserved (p : string) (names : list string) : bool := existsb (contains (to_lower p)) names.

Definition hasSegment (segments : list string) (name : string) : bool := existsb (λ s, bool_decide (s = name)) segments.

Fixpoint testdataGolden (segments : list string) : bool :=
  match segments with
  | a :: ((b :: _) as rest) => (bool_decide (a = "testdata") && bool_decide (b = "golden")) || testdataGolden rest
  | _ => false
  end.

Definition isOneOf (p : string) (l : list string) : bool := existsb (λ s, bool_decide (p = s)) l.

(** [segments[len(segments)-1]]: a split path has one. *)
Definition last_segment (segments : list string) : string := default "" (last segments).

Definition highFloor (p : string) (segments : list string) : option Verdict :=
  if withinAny p sharedTrees || isOneOf p sharedFiles || testdataGolden segments then Some (mkVerdict High RuleSharedContract)
  else if within p "plugins" || isOneOf p instructionFiles || isOneOf (to_lower (last_segment segments)) agentInstructionNames
  then Some (mkVerdict High RuleExecutableText)
  else if withinAny p securityCorpusTrees then Some (mkVerdict High RuleSecurityCorpus)
  else if withinAny p highTrees then Some (mkVerdict High RuleHighTree)
  else None.

Definition defaultHigh : Verdict := mkVerdict High RuleNotOnAllowlist.

Definition first_segment (segments : list string) : string := default "" (head segments).

Definition Classify (p : string) : Verdict :=
  if negb (validPath p) then mkVerdict High RuleInvalidPath
  else
    let segments := split_on slash p in
    match highFloor p segments with
    | Some v => v
    | None =>
      let ext := Ext p in
      if bool_decide (first_segment segments = "docs") && (1 <? length segments)%nat && bool_decide (ext = ".md") then
        if reserved p reservedDocs then mkVerdict High RuleCorpusOrFixture else mkVerdict Low RuleDocsProse
      else if hasSegment (take (length segments - 1) segments) "testdata" && isOneOf ext testdataExts then
        if reserved p reservedTestdata then mkVerdict High RuleCorpusOrFixture
        else if negb (withinAny p lowTestdata) then mkVerdict High RuleTestdataUnlisted
        else mkVerdict Low RuleTestdataData
      else defaultHigh
    end.

Definition classifyTree (p : string) : Verdict :=
  if negb (validPath p) then mkVerdict High RuleInvalidPath
  else
    let segments := split_on slash p in
    match highFloor p segments with
    | Some v => v
    | None =>
      if within p "docs" then
        if reserved p reservedDocs then mkVerdict High RuleCorpusOrFixture else mkVerdict Low RuleDocsProseTree
      else if hasSegment segments "testdata" then
        if reserved p reservedTestdata then mkVerdict High RuleCorpusOrFixture
        else if negb (withinAny p lowTestdata) then mkVerdict High RuleTestdataUnlisted
        else mkVerdict Low RuleTestdataTree
      else defaultHigh
    end.

Record Region : Type := mkRegion { RPath : string; RKind : string; RKey : string; RChange : string }.

Definition ClassifyRegion (r : Region) : Verdict :=
  if bool_decide (RKind r = "tree") then classifyTree (RPath r) else Classify (RPath r).

Definition covers (r : Region) (p : string) : bool :=
  if bool_decide (RKind r = "tree") then within p (RPath r) else bool_decide (p = RPath r).

(** ** decide.go: data *)
Definition RecordSchema := "policy-decision/1".
Definition PolicyName := "risk-tier/1".

Definition neverSkipped : list string := ["premerge_record"; "dag_accept"].

Definition is_lower_hex (b : Z) : bool := in_range 48 57 b || in_range 97 102 b.
Definition hex40 (s : string) : bool := (String.length s =? 40)%nat && forallb is_lower_hex (bytes_of_string s).
Definition gateName (s : string) : bool :=
  match bytes_of_string s with
  | b :: rest => in_range 97 122 b && forallb (λ b, in_range 97 122 b || in_range 48 57 b || (b =? 95)%Z) rest
  | [] => false
  end.

Record HeadChange : Type := mkHeadChange { CPath : string; COldPath : string; CChange : string }.

Record Exception : Type := mkException { ExBy : string; ExReason : string; ExAt : Time; ExExecutionTier : Tier }.

Record SkippedGate : Type := mkSkippedGate { SGGate : string; SGReason : string }.

Record Input : Type := mkInput {
  InIssue : string;
  InNode : string;
  InHead : string;
  InDev : string;
  InDecidedAt : Time;
  InDecidedBy : string;
  InDeclared : Tier;
  InRegions : list Region;
  InChanges : list HeadChange;
  InException : option Exception;
  InSkippedGates : list SkippedGate
}.

Record RegionEntry : Type := mkRegionEntry { REPath : string; REKind : string; REKey : string; REChange : string; RETier : Tier; RERule : string }.

Record ChangedEntry : Type := mkChangedEntry { CEPath : string; CEOldPath : string; CEChange : string; CETier : Tier; CERule : string }.

Record ExceptionEntry : Type := mkExceptionEntry { EEBy : string; EEReason : string; EEAt : string; EEExecutionTier : Tier }.

Record PolicyRecord : Type := mkPolicyRecord {
  PSchema : string;
  PPolicy : string;
  PIssue : string;
  PNode : string;
  PHead : string;
  PDev : string;
  PDecidedAt : string;
  PDecidedBy : string;
  PDeclaredTier : option Tier;
  PRegionTier : option Tier;
  PChangedTier : Tier;
  PDerivedTier : Tier;
  PTier : Tier;
  PExecutionTier : Tier;
  PDeclaredRegions : list RegionEntry;
  PChangedPaths : list ChangedEntry;
  POutsideRegions : list string;
  PReclassified : bool;
  PException : option ExceptionEntry;
  PSkippedGates : list SkippedGate
}.

(** The refusals, one per error the source returns. *)
Inductive DecideError : Type :=
| EmptyIdentity (name : string)
| BadCommits
| NoTime
| BadDeclared (t : Tier)
| RegionNoPath
| RegionKind (kind path : string)
| RegionChange (change path : string)
| RegionNoSymbol (path : string)
| RegionKey (path : string)
| ChangeNoPath
| ChangeOldPath (change path : string)
| ChangeNoOldPath (change path : string)
| ChangeKind (change path : string)
| ExceptionBlank
| ExceptionNoTime
| ExceptionTier (t : Tier)
| NoException (t : Tier)
| GateName (gate : string)
| GateNeverSkipped (gate : string)
| GateNoReason (gate : string)
| GateTwice (gate : string)
| GateAtHigh (gate : string).

(** ** decide.go: Decide *)
Definition normalRegion (r : Region) : result DecideError Region :=
  if bool_decide (RPath r = "") then Err RegionNoPath
  else
    let change := if bool_decide (RChange r = "") then "edit" else RChange r in
    let r := mkRegion (RPath r) (RKind r) (RKey r) change in
    if negb (isOneOf (RKind r) ["tree"; "file"; "symbol"]) then Err (RegionKind (RKind r) (RPath r))
    else if negb (isOneOf change ["edit"; "rename"; "delete"]) then Err (RegionChange change (RPath r))
    else if bool_decide (RKind r = "symbol") && bool_decide (RKey r = "") then Err (RegionNoSymbol (RPath r))
    else if negb (bool_decide (RKind r = "symbol")) && negb (bool_decide (RKey r = "")) then Err (RegionKey (RPath r))
    else Ok r.

Definition validChange (c : HeadChange) : option DecideError :=
  if bool_decide (CPath c = "") then Some ChangeNoPath
  else if isOneOf (CChange c) ["add"; "modify"; "delete"; "type_change"] then
    if bool_decide (COldPath c = "") then None else Some (ChangeOldPath (CChange c) (CPath c))
  else if isOneOf (CChange c) ["rename"; "copy"] then
    if bool_decide (COldPath c = "") then Some (ChangeNoOldPath (CChange c) (CPath c)) else None
  else Some (ChangeKind (CChange c) (CPath c)).

Definition changedVerdict (c : HeadChange) : Verdict :=
  if bool_decide (CChange c = "type_change") then mkVerdict High RuleTypeChange
  else
    let v := Classify (CPath c) in
    if negb (bool_decide (COldPath c = "")) && bool_decide (VTier v = Low) then
      let old := Classify (COldPath c) in if bool_decide (VTier old = High) then old else v
    else v.

Definition coveredByAny (regions : list Region) (p : string) : bool := existsb (λ r, covers r p) regions.

Fixpoint lessStrings (a b : list string) : bool :=
  match a, b with
  | x :: a', y :: b' => if bool_decide (x = y) then lessStrings a' b' else negb (String.leb y x)
  | _, _ => false
  end.

(** [sort.SliceStable] by the strings of a key. *)
Section sort_keys.
Context {A : Type} (key : A → list string).

Fixpoint key_insert (x : A) (l : list A) : list A :=
  match l with
  | [] => [x]
  | y :: l' => if lessStrings (key y) (key x) then y :: key_insert x l' else x :: y :: l'
  end.

Fixpoint sort_keys (l : list A) : list A := match l with [] => [] | x :: l' => key_insert x (sort_keys l') end.
End sort_keys.

Definition region_key (e : RegionEntry) : list string := [REPath e; REKind e; REKey e; REChange e].
Definition changed_key (e : ChangedEntry) : list string := [CEPath e; CEOldPath e; CEChange e].

(** The loop over the declared regions: the entries, the normalised regions and their tier. *)
Fixpoint region_loop (regions : list RegionEntry) (rlist : list Region) (tier : option Tier) (todo : list Region) :
  result DecideError (list RegionEntry * list Region * option Tier) :=
  match todo with
  | [] => Ok (regions, rlist, tier)
  | r :: todo' =>
    match normalRegion r with
    | Err e => Err e
    | Ok r =>
      let v := ClassifyRegion r in
      region_loop (regions ++ [mkRegionEntry (RPath r) (RKind r) (RKey r) (RChange r) (VTier v) (VRuleName v)])%list (rlist ++ [r])%list
        (Some (match tier with Some t => Max t (VTier v) | None => VTier v end)) todo'
    end
  end.

(** The paths of a change no declared region covers. *)
Definition outside_of (rlist : list Region) (c : HeadChange) : list string :=
  match rlist with
  | [] => []
  | _ => filter (λ p, p ≠ "" ∧ coveredByAny rlist p = false) [CPath c; COldPath c]
  end.

Fixpoint change_loop (rlist : list Region) (changed : list ChangedEntry) (tier : Tier) (outside : gset string) (todo : list HeadChange) :
  result DecideError (list ChangedEntry * Tier * gset string) :=
  match todo with
  | [] => Ok (changed, tier, outside)
  | c :: todo' =>
    match validChange c with
    | Some e => Err e
    | None =>
      let v := changedVerdict c in
      change_loop rlist (changed ++ [mkChangedEntry (CPath c) (COldPath c) (CChange c) (VTier v) (VRuleName v)])%list (Max tier (VTier v))
        (outside ∪ list_to_set (outside_of rlist c)) todo'
    end
  end.

Definition decide_exception (tier : Tier) (e : option Exception) : result DecideError (Tier * option ExceptionEntry) :=
  match e with
  | None => Ok (tier, None)
  | Some e =>
    if blank (ExBy e) || blank (ExReason e) then Err ExceptionBlank
    else if IsZero (ExAt e) then Err ExceptionNoTime
    else if negb (valid (ExExecutionTier e)) then Err (ExceptionTier (ExExecutionTier e))
    else if bool_decide (ExExecutionTier e = tier) then Err (NoException tier)
    else Ok (ExExecutionTier e, Some (mkExceptionEntry (ExBy e) (ExReason e) (instant (ExAt e)) (ExExecutionTier e)))
  end.

Fixpoint gate_loop (execution : Tier) (seen : gset string) (skipped todo : list SkippedGate) : result DecideError (list SkippedGate) :=
  match todo with
  | [] => Ok skipped
  | g :: todo' =>
    if negb (gateName (SGGate g)) then Err (GateName (SGGate g))
    else if isOneOf (SGGate g) neverSkipped then Err (GateNeverSkipped (SGGate g))
    else if blank (SGReason g) then Err (GateNoReason (SGGate g))
    else if bool_decide (SGGate g ∈ seen) then Err (GateTwice (SGGate g))
    else if bool_decide (execution = High) then Err (GateAtHigh (SGGate g))
    else gate_loop execution (seen ∪ {[SGGate g]}) (skipped ++ [g])%list todo'
  end.

(** The values of the map of identities. *)
Definition identity (i : Input) (name : string) : string :=
  if bool_decide (name = "issue") then InIssue i else if bool_decide (name = "node") then InNode i else InDecidedBy i.

Definition declared_tier (i : Input) : option Tier := if bool_decide (InDeclared i = "") then None else Some (InDeclared i).

(** The record of an input whose loops gave these. *)
Definition decision (i : Input) (regions : list RegionEntry) (regionTier : option Tier) (changed : list ChangedEntry) (changedTier : Tier)
  (outside : gset string) : result DecideError PolicyRecord :=
  let outsideList := sort_strings (elements outside) in
  let derived := match regionTier with Some t => Max changedTier t | None => changedTier end in
  let tier := match declared_tier i with Some d => Max derived d | None => derived end in
  match decide_exception tier (InException i) with
  | Err e => Err e
  | Ok (execution, exception) =>
    match gate_loop execution ∅ [] (InSkippedGates i) with
    | Err e => Err e
    | Ok skipped =>
      Ok (mkPolicyRecord RecordSchema PolicyName (InIssue i) (InNode i) (InHead i) (InDev i) (instant (InDecidedAt i)) (InDecidedBy i)
        (declared_tier i) regionTier changedTier derived tier execution (sort_keys region_key regions) (sort_keys changed_key changed) outsideList
        (match regionTier with Some t => negb (bool_decide (outsideList = [])) && negb (bool_decide (derived = t)) | None => false end)
        exception (sort_by SGGate skipped))
    end
  end.

(** [Decide], with the order in which the identities are looked at. *)
Definition Decide (order : list string) (i : Input) : result DecideError PolicyRecord :=
  match List.find (λ name, blank (identity i name)) order with
  | Some name => Err (EmptyIdentity name)
  | None =>
    if negb (hex40 (InHead i)) || negb (hex40 (InDev i)) then Err BadCommits
    else if IsZero (InDecidedAt i) then Err NoTime
    else if negb (bool_decide (InDeclared i = "")) && negb (valid (InDeclared i)) then Err (BadDeclared (InDeclared i))
    else
      match region_loop [] [] None (InRegions i) with
      | Err e => Err e
      | Ok (regions, rlist, regionTier) =>
        match change_loop rlist [] (match InChanges i with [] => High | _ => Low end) ∅ (InChanges i) with
        | Err e => Err e
        | Ok (changed, changedTier, outside) => decision i regions regionTier changed changedTier outside
        end
      end
  end.

(** ** decide.go: a record against its own inputs *)
Definition exception_of (e : ExceptionEntry) : option Exception :=
  at_ ← parse_instant (EEAt e); Some (mkException (EEBy e) (EEReason e) at_ (EEExecutionTier e)).

(** [inputOf]; [None] is its error: a time that is not one, or a declared tier that is none. *)
Definition inputOf (r : PolicyRecord) : option Input :=
  at_ ← parse_instant (PDecidedAt r);
  declared ← match PDeclaredTier r with Some t => if valid t then Some t else None | None => Some "" end;
  exception ← match PException r with Some e => Some <$> exception_of e | None => Some None end;
  Some (mkInput (PIssue r) (PNode r) (PHead r) (PDev r) at_ (PDecidedBy r) declared
    ((λ e, mkRegion (REPath e) (REKind e) (REKey e) (REChange e)) <$> PDeclaredRegions r)
    ((λ e, mkHeadChange (CEPath e) (CEOldPath e) (CEChange e)) <$> PChangedPaths r) exception (PSkippedGates r)).

(** A string as encoding/json writes it: bytes that are not UTF-8 become U+FFFD. *)
Definition spelled_string (s : string) : string := string_of_bytes (encode_runes (runes (bytes_of_string s))).

(** A record as its JSON members. *)
Definition marshal (r : PolicyRecord) : PolicyRecord :=
  let s := spelled_string in
  mkPolicyRecord (s (PSchema r)) (s (PPolicy r)) (s (PIssue r)) (s (PNode r)) (s (PHead r)) (s (PDev r)) (s (PDecidedAt r)) (s (PDecidedBy r))
    (s <$> PDeclaredTier r) (s <$> PRegionTier r) (s (PChangedTier r)) (s (PDerivedTier r)) (s (PTier r)) (s (PExecutionTier r))
    ((λ e, mkRegionEntry (s (REPath e)) (s (REKind e)) (s (REKey e)) (s (REChange e)) (s (RETier e)) (s (RERule e))) <$> PDeclaredRegions r)
    ((λ e, mkChangedEntry (s (CEPath e)) (s (CEOldPath e)) (s (CEChange e)) (s (CETier e)) (s (CERule e))) <$> PChangedPaths r)
    (s <$> POutsideRegions r) (PReclassified r)
    ((λ e, mkExceptionEntry (s (EEBy e)) (s (EEReason e)) (s (EEAt e)) (s (EEExecutionTier e))) <$> PException r)
    ((λ g, mkSkippedGate (s (SGGate g)) (s (SGReason g))) <$> PSkippedGates r).

#[export] Instance SkippedGate_eq_dec : EqDecision SkippedGate.
Proof. solve_decision. Defined.
#[export] Instance RegionEntry_eq_dec : EqDecision RegionEntry.
Proof. solve_decision. Defined.
#[export] Instance ChangedEntry_eq_dec : EqDecision ChangedEntry.
Proof. solve_decision. Defined.
#[export] Instance ExceptionEntry_eq_dec : EqDecision ExceptionEntry.
Proof. solve_decision. Defined.
#[export] Instance PolicyRecord_eq_dec : EqDecision PolicyRecord.
Proof. solve_decision. Defined.

(** [Record.Validate] returns no error. *)
Definition Validate (order : list string) (r : PolicyRecord) : bool :=
  match inputOf r with
  | None => false
  | Some i => match Decide order i with Err _ => false | Ok want => bool_decide (marshal r = marshal want) end
  end.
