(* ===== verification/RiskTierProps.v ===== *)
(** * RiskTierProps: what the tiers mean, and that a decision record is the decision its own members give. *)
From S2P Require Import Prelude GoLib Sha256 Json Loads Utf8 GoPath GoTime RiskTier.
Local Open Scope string_scope.

(** ** Paths *)

(** UTF-8 without a backslash or a control character. *)
Definition printable (p : string) : Prop :=
  valid_string p = true ∧ contains_byte p backslash = false ∧
  Forall (λ r, (0x20 ≤ r)%Z ∧ r ≠ 0x7f%Z) (runes (bytes_of_string p)).

Lemma controls_spec l : existsb (λ r, (r <? 0x20)%Z || (r =? 0x7f)%Z) l = false ↔ Forall (λ r, (0x20 ≤ r)%Z ∧ r ≠ 0x7f%Z) l.
Proof.
  induction l as [|r l IH]; cbn; [by split|]. rewrite orb_false_iff, IH, Forall_cons, orb_false_iff, Z.ltb_ge, Z.eqb_neq. tauto.
Qed.

Lemma first_part p : Forall good_part (split_on slash p) → p ≠ "" ∧ p ≠ "." ∧ has_prefix p "/" = false.
Proof.
  intros H. split_and!; [intros ->|intros ->|apply not_true_is_false; intros [s ->]%has_prefix_spec].
  - by apply Forall_cons in H as [[] _].
  - by apply Forall_cons in H as [(_ & [] & _) _].
  - change ("/" +:+ s) with ("" +:+ "/" +:+ s) in H. rewrite split_app in H by done. by apply Forall_cons in H as [[] _].
Qed.

(** A path is valid when it is printable and its elements are proper names: no empty one, no "." and no "..". *)
Lemma validPath_iff p : validPath p = true ↔ printable p ∧ Forall good_part (split_on slash p).
Proof.
  unfold validPath, printable. rewrite <- controls_spec. split.
  - intros H. match type of H with (if ?b then _ else _) = _ => destruct b eqn:E; [done|] end. rewrite !orb_false_iff, !bool_decide_eq_false, !negb_false_iff, bool_decide_eq_true in E.
    destruct E as (((((E1 & E2) & E3) & E4) & E5) & E6). destruct (existsb _ _) eqn:Ec; [done|]. apply andb_true_iff in H as [H1 H2].
    rewrite negb_true_iff in H1, H2. apply bool_decide_eq_false in H1. split_and!; [done..|]. by apply Clean_relative.
  - intros ((V & B & C) & G). pose proof (first_part p G) as (N1 & N2 & N3). apply (Clean_relative p N3 N2) in G as (Hc & Hu & Hp).
    rewrite V, B, C, N3, Hp, !(bool_decide_eq_false_2 (p = _)), (bool_decide_eq_true_2 (Clean p = p)) by done. done.
Qed.

Definition under (tree : string) (p : string) : Prop := split_on slash tree `prefix_of` split_on slash p.

Lemma within_iff p dir : within p dir = true ↔ under dir p.
Proof. unfold within, under. rewrite orb_true_iff, bool_decide_eq_true. apply within_prefix. Qed.

Lemma withinAny_iff p dirs : withinAny p dirs = true ↔ ∃ d, d ∈ dirs ∧ under d p.
Proof.
  unfold withinAny. rewrite existsb_exists. split; intros (d & H1 & H2); exists d; (split; [by apply list_elem_of_In|by apply within_iff]).
Qed.

Lemma isOneOf_iff p l : isOneOf p l = true ↔ p ∈ l.
Proof.
  unfold isOneOf. rewrite existsb_exists. split.
  - intros (s & H1 & ->%bool_decide_eq_true). by apply list_elem_of_In.
  - intros H. exists p. split; [by apply list_elem_of_In|by apply bool_decide_eq_true].
Qed.

Lemma testdataGolden_iff segs : testdataGolden segs = true ↔ ∃ i, segs !! i = Some "testdata" ∧ segs !! (S i) = Some "golden".
Proof.
  induction segs as [|a segs IH]; [split; [done|by intros (i & H & _)]|]. destruct segs as [|b segs].
  - split; [done|]. intros ([|i] & H1 & H2); done.
  - cbn [testdataGolden]. rewrite orb_true_iff, andb_true_iff, !bool_decide_eq_true. rewrite IH. split.
    + intros [[-> ->]|(i & H)]; [by exists 0%nat|by exists (S i)].
    + intros ([|i] & H1 & H2); [left; cbn in *; by simplify_eq|right; by exists i].
Qed.

(** A path no rule may call low: a contract surface, a golden, text that instructs an agent, the security corpus, or a tree the policy names. *)
Definition protected (p : string) : Prop :=
  (∃ t, t ∈ (sharedTrees ++ ["plugins"] ++ securityCorpusTrees ++ highTrees)%list ∧ under t p) ∨
  p ∈ (sharedFiles ++ instructionFiles)%list ∨
  (∃ i, split_on slash p !! i = Some "testdata" ∧ split_on slash p !! (S i) = Some "golden") ∨
  to_lower (last_segment (split_on slash p)) ∈ agentInstructionNames.

Lemma highFloor_iff p : (∃ v, highFloor p (split_on slash p) = Some v ∧ VTier v = High) ∧ protected p ∨ highFloor p (split_on slash p) = None ∧ ¬ protected p.
Proof.
  assert (protected p ↔ withinAny p sharedTrees || isOneOf p sharedFiles || testdataGolden (split_on slash p) = true ∨
    within p "plugins" || isOneOf p instructionFiles || isOneOf (to_lower (last_segment (split_on slash p))) agentInstructionNames = true ∨
    withinAny p securityCorpusTrees = true ∨ withinAny p highTrees = true) as Hp.
  { rewrite !orb_true_iff, !withinAny_iff, !isOneOf_iff, testdataGolden_iff, within_iff. unfold protected. setoid_rewrite elem_of_app. setoid_rewrite elem_of_app.
    setoid_rewrite elem_of_app. setoid_rewrite list_elem_of_singleton. naive_solver. }
  unfold highFloor. repeat match goal with |- context [if ?b then _ else _] => destruct b eqn:? end.
  1-4: left; split; [by eexists|]; apply Hp; auto.
  right. split; [done|]. rewrite Hp. intros [H|[H|[H|H]]]; congruence.
Qed.

Definition reserved_word (names : list string) (p : string) : Prop := ∃ n, n ∈ names ∧ contains (to_lower p) n = true.

Lemma reserved_iff p names : reserved p names = true ↔ reserved_word names p.
Proof. unfold reserved, reserved_word. rewrite existsb_exists. split; intros (n & H1 & H2); exists n; (split; [by apply list_elem_of_In|done]). Qed.

(** Markdown under docs/, and the data files of a listed testdata tree; none with a reserved word in its path. *)
Definition docs_prose (p : string) : Prop :=
  (∃ rest, split_on slash p = "docs" :: rest ∧ rest ≠ []) ∧ Ext p = ".md" ∧ ¬ reserved_word reservedDocs p.

Definition listed_data (p : string) : Prop :=
  (∃ t, t ∈ lowTestdata ∧ under t p) ∧ Ext p ∈ testdataExts ∧ ¬ reserved_word reservedTestdata p.

Lemma listed_segment p : (∃ t, t ∈ lowTestdata ∧ under t p) → Ext p ≠ "" →
  first_segment (split_on slash p) ≠ "docs" ∧ hasSegment (take (length (split_on slash p) - 1) (split_on slash p)) "testdata" = true.
Proof.
  intros (t & ->%list_elem_of_singleton & [ws Hu]) He. change (split_on slash "internal/skill/search/testdata") with ["internal"; "skill"; "search"; "testdata"] in Hu.
  rewrite Hu. cbn [app]. split; [done|]. destruct ws as [|w ws]; [|done]. exfalso. apply He.
  rewrite <- (join_split p), Hu. reflexivity.
Qed.

(** A path is low exactly when it is on the allowlist. [Classify] answers low for a printable path of proper names that is not protected and is
    Markdown under docs/ or a data file of a listed testdata tree, with no reserved word in it; every other path, in particular every
    invalid or unlisted one, is high. *)
Theorem Classify_low_iff p :
  (VTier (Classify p) = Low ↔ printable p ∧ Forall good_part (split_on slash p) ∧ ¬ protected p ∧ (docs_prose p ∨ listed_data p)) ∧
  (VTier (Classify p) = Low ∨ VTier (Classify p) = High).
Proof.
  unfold Classify. destruct (validPath p) eqn:V; cbn [negb]; [|split; [|by right]; split; [done|]; intros (H1 & H2 & _); by rewrite (proj2 (validPath_iff p)) in V].
  apply validPath_iff in V as [Hpr Hg]. destruct (highFloor_iff p) as [[(v & -> & ->) Hp]|[-> Hp]]; [split; [naive_solver|by right]|].
  set (docs := bool_decide (first_segment (split_on slash p) = "docs") && (1 <? length (split_on slash p))%nat).
  assert (docs = true ↔ ∃ rest, split_on slash p = "docs" :: rest ∧ rest ≠ []) as Hd.
  { unfold docs. destruct (split_cons slash p) as (w & ws & ->). rewrite andb_true_iff, bool_decide_eq_true, Nat.ltb_lt. cbn. destruct ws; cbn; naive_solver lia. }
  assert (withinAny p lowTestdata = true → isOneOf (Ext p) testdataExts = true → docs = false ∧
    hasSegment (take (length (split_on slash p) - 1) (split_on slash p)) "testdata" = true) as Hl.
  { rewrite withinAny_iff, isOneOf_iff. intros Hw Hx. destruct (listed_segment p Hw) as [H1 H2].
    - intros E. rewrite E in Hx. revert Hx. apply (bool_decide_unpack (_ ∉ _)). vm_compute. exact I.
    - split; [|done]. unfold docs. by rewrite bool_decide_eq_false_2. }
  unfold docs_prose, listed_data. rewrite <- Hd, <- !reserved_iff, <- withinAny_iff, <- (isOneOf_iff (Ext p)). clear Hd. fold docs. clearbody docs.
  assert (∀ b : bool, ¬ b = true ↔ b = false) as Hn by (by intros []). rewrite !Hn. clear Hn.
  destruct (bool_decide_reflect (Ext p = ".md")), docs, (reserved p reservedDocs), (hasSegment _ _), (isOneOf (Ext p) _), (reserved p reservedTestdata), (withinAny p lowTestdata);
    cbn; naive_solver.
Qed.

(** ** Tiers *)
Definition tiers (l : list Tier) : Tier := if decide (Forall (λ t, t = Low) l) then Low else High.

Lemma tiers_low l : tiers l = Low ↔ Forall (λ t, t = Low) l.
Proof. unfold tiers. destruct (decide _); naive_solver. Qed.

Lemma tiers_valid l : tiers l = Low ∨ tiers l = High.
Proof. unfold tiers. destruct (decide _); auto. Qed.

Lemma tiers_perm l1 l2 : l1 ≡ₚ l2 → tiers l1 = tiers l2.
Proof. intros H. unfold tiers. destruct (decide _) as [H1|H1], (decide _) as [H2|H2]; try done; by rewrite H in H1. Qed.

Lemma Max_low a b : Max a b = Low ↔ a = Low ∧ b = Low.
Proof. unfold Max. repeat case_bool_decide; cbn; naive_solver. Qed.

Lemma Max_valid a b : Max a b = Low ∨ Max a b = High.
Proof. unfold Max. repeat case_bool_decide; cbn; auto. Qed.

Lemma tier_ext a b : (a = Low ∨ a = High) → (b = Low ∨ b = High) → (a = Low ↔ b = Low) → a = b.
Proof. intros [->| ->] [->| ->] H; try done; [by destruct (proj1 H eq_refl)|by destruct (proj2 H eq_refl)]. Qed.

Lemma Max_tiers t l : Max (tiers l) t = tiers (l ++ [t]).
Proof.
  apply tier_ext; [apply Max_valid|apply tiers_valid|]. rewrite Max_low, !tiers_low, Forall_app, Forall_singleton. done.
Qed.

Lemma Classify_valid p : VTier (Classify p) = Low ∨ VTier (Classify p) = High.
Proof.
  unfold Classify. destruct (validPath p); [|by right]. cbn [negb]. destruct (highFloor_iff p) as [[(v & -> & ->) _]|[-> _]]; [by right|].
  repeat match goal with |- context [if ?b then _ else _] => destruct b end; auto.
Qed.

Lemma classifyTree_valid p : VTier (classifyTree p) = Low ∨ VTier (classifyTree p) = High.
Proof.
  unfold classifyTree. destruct (validPath p); [|by right]. cbn [negb]. destruct (highFloor_iff p) as [[(v & -> & ->) _]|[-> _]]; [by right|].
  repeat match goal with |- context [if ?b then _ else _] => destruct b end; auto.
Qed.

Lemma ClassifyRegion_valid r : VTier (ClassifyRegion r) = Low ∨ VTier (ClassifyRegion r) = High.
Proof. unfold ClassifyRegion. case_bool_decide; [apply classifyTree_valid|apply Classify_valid]. Qed.

Lemma changedVerdict_valid c : VTier (changedVerdict c) = Low ∨ VTier (changedVerdict c) = High.
Proof.
  unfold changedVerdict. repeat match goal with |- context [if ?b then _ else _] => destruct b end; auto using Classify_valid.
Qed.

(** ** The loops *)
Definition normal (r : Region) : Region := mkRegion (RPath r) (RKind r) (RKey r) (if bool_decide (RChange r = "") then "edit" else RChange r).
Definition region_ok (r : Region) : Prop := normalRegion r = Ok (normal r).

Lemma normalRegion_Ok r r' : normalRegion r = Ok r' → r' = normal r ∧ region_ok r.
Proof. unfold region_ok, normalRegion, normal. intros H. repeat case_match; simplify_eq; done. Qed.

Lemma normal_again r : region_ok r → region_ok (normal r) ∧ normal (normal r) = normal r.
Proof.
  intros H. assert (normal (normal r) = normal r) as E by (unfold normal; cbn; f_equal; destruct (decide (RChange r = "")) as [Hc|Hc];
    [by rewrite Hc|by rewrite !(bool_decide_eq_false_2 _ Hc)]).
  split; [|done]. unfold region_ok in *. rewrite E. rewrite <- H. unfold normalRegion. cbn. unfold normal in E. injection E as E. cbn in E. by rewrite E.
Qed.

Definition region_entry (r : Region) : RegionEntry :=
  let r := normal r in let v := ClassifyRegion r in mkRegionEntry (RPath r) (RKind r) (RKey r) (RChange r) (VTier v) (VRuleName v).

(** The tier of the regions, when there are any. *)
Definition regions_tier (l : list Region) : option Tier := match l with [] => None | _ => Some (tiers (RETier ∘ region_entry <$> l)) end.

Lemma region_loop_spec done_ todo out : region_loop (region_entry <$> done_) (normal <$> done_) (regions_tier done_) todo = Ok out ↔
  Forall region_ok todo ∧ out = (region_entry <$> (done_ ++ todo)%list, normal <$> (done_ ++ todo)%list, regions_tier (done_ ++ todo)).
Proof.
  revert done_. induction todo as [|r todo IH]; intros done_; cbn [region_loop].
  { rewrite app_nil_r. split; [intros [= <-]; by split|by intros [_ ->]]. }
  destruct (normalRegion r) as [r'|e] eqn:E.
  - apply normalRegion_Ok in E as [-> Hr]. specialize (IH (done_ ++ [r])%list). rewrite <- (assoc_L (++)%list) in IH. cbn [app] in IH.
    rewrite (fmap_app _ done_ [r]), (fmap_app _ done_ [r]) in IH. cbn [fmap list_fmap] in IH.
    replace (regions_tier (done_ ++ [r])) with (Some (match regions_tier done_ with Some t => Max t (VTier (ClassifyRegion (normal r))) | None => VTier (ClassifyRegion (normal r)) end)) in IH.
    { rewrite Forall_cons. etrans; [exact IH|]. tauto. }
    destruct done_ as [|x l]; cbn [app regions_tier].
    + f_equal. apply tier_ext; [apply ClassifyRegion_valid|apply tiers_valid|]. rewrite tiers_low. csimpl. by rewrite Forall_singleton.
    + rewrite Max_tiers, app_comm_cons, fmap_app. done.
  - split; [done|]. intros [[Hr _]%Forall_cons _]. unfold region_ok in Hr. congruence.
Qed.

Definition change_entry (c : HeadChange) : ChangedEntry :=
  let v := changedVerdict c in mkChangedEntry (CPath c) (COldPath c) (CChange c) (VTier v) (VRuleName v).
Definition change_ok (c : HeadChange) : Prop := validChange c = None.
Definition outside_set (rlist : list Region) (l : list HeadChange) : gset string := list_to_set (l ≫= outside_of rlist).

Lemma change_loop_spec rlist start done_ todo out :
  start = Low ∨ start = High →
  change_loop rlist (change_entry <$> done_) (tiers (start :: (CETier ∘ change_entry <$> done_))) (outside_set rlist done_) todo = Ok out ↔
  Forall change_ok todo ∧ out = (change_entry <$> (done_ ++ todo)%list, tiers (start :: (CETier ∘ change_entry <$> (done_ ++ todo)%list)), outside_set rlist (done_ ++ todo)).
Proof.
  intros Hs. revert done_. induction todo as [|c todo IH]; intros done_; cbn [change_loop].
  { rewrite app_nil_r. split; [intros [= <-]; by split|by intros [_ ->]]. }
  destruct (validChange c) as [e|] eqn:E.
  - split; [done|]. intros [[Hc _]%Forall_cons _]. unfold change_ok in Hc. congruence.
  - specialize (IH (done_ ++ [c])%list). rewrite <- (assoc_L (++)%list) in IH. cbn [app] in IH.
    assert (outside_set rlist (done_ ++ [c]) = outside_set rlist done_ ∪ list_to_set (outside_of rlist c)) as Ho
      by (unfold outside_set; rewrite bind_app, list_to_set_app_L; cbn [mbind list_bind]; by rewrite app_nil_r).
    rewrite Ho, (fmap_app _ done_ [c]), (fmap_app _ done_ [c]) in IH. cbn [fmap list_fmap] in IH. rewrite app_comm_cons, <- Max_tiers in IH. rewrite Forall_cons. unfold change_ok at 1.
    etrans; [exact IH|]. tauto.
Qed.

Definition gate_ok (g : SkippedGate) : Prop := gateName (SGGate g) = true ∧ SGGate g ∉ neverSkipped ∧ blank (SGReason g) = false.

Lemma gate_loop_spec execution done_ todo out :
  gate_loop execution (list_to_set (SGGate <$> done_)) done_ todo = Ok out ↔
  Forall gate_ok todo ∧ NoDup (SGGate <$> todo) ∧ (∀ g, g ∈ SGGate <$> todo → g ∉ SGGate <$> done_) ∧ (todo = [] ∨ execution ≠ High) ∧ out = (done_ ++ todo)%list.
Proof.
  revert done_. induction todo as [|g todo IH]; intros done_; cbn [gate_loop].
  { rewrite app_nil_r. split; [intros [= <-]; split_and!; [constructor..|by intros g ?%elem_of_nil|by left|done]|by intros (_ & _ & _ & _ & ->)]. }
  assert ((list_to_set (SGGate <$> done_) : gset string) ∪ {[SGGate g]} = list_to_set (SGGate <$> (done_ ++ [g])%list)) as ->
    by (rewrite fmap_app, list_to_set_app_L; cbn; by rewrite (right_id_L ∅ (∪))).
  rewrite Forall_cons, fmap_cons, NoDup_cons. unfold gate_ok at 1. rewrite <- (isOneOf_iff (SGGate g) neverSkipped).
  destruct (gateName (SGGate g)); cbn [negb]; [|split; [done|intros ((([=] & _) & _) & _)]].
  destruct (isOneOf (SGGate g) neverSkipped); [split; [done|intros (((_ & H & _) & _) & _); by destruct H]|].
  destruct (blank (SGReason g)); [split; [done|intros (((_ & _ & [=]) & _) & _)]|].
  rewrite (bool_decide_ext _ (SGGate g ∈ SGGate <$> done_)) by (apply elem_of_list_to_set).
  case_bool_decide as Hseen; [split; [done|intros (_ & _ & Hn & _); by destruct (Hn (SGGate g) (list_elem_of_here _ _))]|].
  case_bool_decide as Hh; [split; [done|intros (_ & _ & _ & [[=]|H] & _); by destruct H]|]. rewrite IH. setoid_rewrite fmap_app. setoid_rewrite not_elem_of_app. csimpl.
  setoid_rewrite list_elem_of_singleton. setoid_rewrite elem_of_cons. rewrite <- (assoc_L (++)%list). cbn [app].
  split.
  - intros (H1 & H2 & H3 & H4 & ->). split; [by split|]. split; [split; [by intros H; destruct (H3 _ H) as [_ []]|done]|].
    split; [|by split; [right|]]. intros x [->|Hx]; [done|]. by apply H3.
  - intros ((_ & H1) & (H2 & H2') & H3 & H4 & ->). split_and!; [done..| |by right|done]. intros x Hx. split; [by apply H3; right|]. by intros ->.
Qed.

(** ** What a decision is made of *)
Definition identities : list string := ["issue"; "node"; "decided_by"].

Record input_ok (i : Input) : Prop := mkInputOk {
  io_identity : ∀ name, name ∈ identities → blank (identity i name) = false;
  io_commits : hex40 (InHead i) = true ∧ hex40 (InDev i) = true;
  io_time : IsZero (InDecidedAt i) = false;
  io_declared : InDeclared i = "" ∨ valid (InDeclared i) = true;
  io_regions : Forall region_ok (InRegions i);
  io_changes : Forall change_ok (InChanges i)
}.

Definition first_tier (l : list HeadChange) : Tier := match l with [] => High | _ => Low end.
Definition changed_tier (l : list HeadChange) : Tier := tiers (first_tier l :: (CETier ∘ change_entry <$> l)).
Definition derived_tier (regions : list Region) (changes : list HeadChange) : Tier :=
  match regions_tier regions with Some t => Max (changed_tier changes) t | None => changed_tier changes end.
Definition tier_of (i : Input) : Tier :=
  let derived := derived_tier (InRegions i) (InChanges i) in match declared_tier i with Some d => Max derived d | None => derived end.

Definition gates_ok (execution : Tier) (l : list SkippedGate) : Prop :=
  Forall gate_ok l ∧ NoDup (SGGate <$> l) ∧ (l = [] ∨ execution ≠ High).

#[export] Instance gates_ok_perm execution : Proper ((≡ₚ) ==> iff) (gates_ok execution).
Proof.
  intros l1 l2 Hp. unfold gates_ok. assert (l1 = [] ↔ l2 = []) as -> by (split; intros ->; [by apply Permutation_nil_l in Hp|by apply Permutation_nil_r in Hp]).
  by rewrite Hp.
Qed.

Definition outside_list (regions : list Region) (changes : list HeadChange) : list string := sort_strings (elements (outside_set (normal <$> regions) changes)).

(** The record of an input that passed its checks. *)
Definition record (i : Input) (execution : Tier) (exception : option ExceptionEntry) : PolicyRecord :=
  let R := InRegions i in
  let C := InChanges i in
  mkPolicyRecord RecordSchema PolicyName (InIssue i) (InNode i) (InHead i) (InDev i) (instant (InDecidedAt i)) (InDecidedBy i)
    (declared_tier i) (regions_tier R) (changed_tier C) (derived_tier R C) (tier_of i) execution
    (sort_keys region_key (region_entry <$> R)) (sort_keys changed_key (change_entry <$> C)) (outside_list R C)
    (match regions_tier R with Some t => negb (bool_decide (outside_list R C = [])) && negb (bool_decide (derived_tier R C = t)) | None => false end)
    exception (sort_by SGGate (InSkippedGates i)).

Lemma find_blank order i : order ≡ₚ identities →
  List.find (λ name, blank (identity i name)) order = None ↔ ∀ name, name ∈ identities → blank (identity i name) = false.
Proof.
  intros Hp. setoid_rewrite <- (elem_of_Permutation_proper _ _ _ Hp). clear Hp. induction order as [|n order IH]; cbn [List.find].
  - split; [intros _ n H; by apply elem_of_nil in H|done].
  - setoid_rewrite elem_of_cons. destruct (blank (identity i n)) eqn:E; [split; [done|intros H; by rewrite H in E by (by left)]|]. rewrite IH. naive_solver.
Qed.

Lemma region_loop_Ok R out : region_loop [] [] None R = Ok out ↔ Forall region_ok R ∧ out = (region_entry <$> R, normal <$> R, regions_tier R).
Proof. apply (region_loop_spec []). Qed.

Lemma change_loop_Ok R C out : change_loop (normal <$> R) [] (first_tier C) ∅ C = Ok out ↔
  Forall change_ok C ∧ out = (change_entry <$> C, changed_tier C, outside_set (normal <$> R) C).
Proof.
  assert (first_tier C = Low ∨ first_tier C = High) as Hv by (destruct C; auto). pose proof (change_loop_spec (normal <$> R) (first_tier C) [] C out Hv) as H.
  cbn [fmap list_fmap app] in H. assert (tiers [first_tier C] = first_tier C) as Ht by (by destruct C). rewrite Ht in H. exact H.
Qed.

Lemma gate_loop_Ok execution l out : gate_loop execution ∅ [] l = Ok out ↔ gates_ok execution l ∧ out = l.
Proof.
  etrans; [apply (gate_loop_spec execution [])|]. unfold gates_ok. cbn [app fmap list_fmap].
  assert (∀ g, g ∈ SGGate <$> l → g ∉ ([] : list string)) as Hn by (intros; apply not_elem_of_nil). tauto.
Qed.

(** The checks of the scalars. *)
Definition scalars_ok (i : Input) : Prop :=
  (∀ name, name ∈ identities → blank (identity i name) = false) ∧ (hex40 (InHead i) = true ∧ hex40 (InDev i) = true) ∧
  IsZero (InDecidedAt i) = false ∧ (InDeclared i = "" ∨ valid (InDeclared i) = true).

Lemma Decide_scalars order i : order ≡ₚ identities →
  (scalars_ok i ∧ Decide order i = match region_loop [] [] None (InRegions i) with
    | Err e => Err e
    | Ok (regions, rlist, regionTier) =>
      match change_loop rlist [] (first_tier (InChanges i)) ∅ (InChanges i) with
      | Err e => Err e
      | Ok (changed, changedTier, outside) => decision i regions regionTier changed changedTier outside
      end
    end) ∨ (¬ scalars_ok i ∧ ∃ e, Decide order i = Err e).
Proof.
  intros Hp. unfold Decide, scalars_ok. pose proof (find_blank order i Hp) as Hf.
  destruct (List.find _ order); [right; split; [intros [H _]; by apply Hf in H|by eexists]|]. pose proof (proj1 Hf eq_refl) as Hid. clear Hf.
  destruct (negb (hex40 (InHead i)) || negb (hex40 (InDev i))) eqn:E1; [right; split; [|by eexists]|].
  { intros (_ & [H1 H2] & _). by rewrite H1, H2 in E1. }
  apply orb_false_iff in E1 as [H1%negb_false_iff H2%negb_false_iff].
  destruct (IsZero (InDecidedAt i)); [right; split; [by intros (_ & _ & H & _)|by eexists]|].
  destruct (negb (bool_decide (InDeclared i = "")) && negb (valid (InDeclared i))) eqn:E3; [right; split; [|by eexists]|left].
  - apply andb_true_iff in E3 as [N1%negb_true_iff%bool_decide_eq_false N2%negb_true_iff]. intros (_ & _ & _ & []); congruence.
  - split; [|by destruct (InChanges i)]. split_and!; [done..|]. apply andb_false_iff in E3 as [N%negb_false_iff%bool_decide_eq_true|N%negb_false_iff]; auto.
Qed.

Lemma Decide_Ok order i r : order ≡ₚ identities → Decide order i = Ok r ↔
  input_ok i ∧ ∃ execution exception, decide_exception (tier_of i) (InException i) = Ok (execution, exception) ∧
    gates_ok execution (InSkippedGates i) ∧ r = record i execution exception.
Proof.
  intros Hp. destruct (Decide_scalars order i Hp) as [[Hs ->]|[Hs [e ->]]].
  2: { split; [done|]. intros [[] _]. by destruct Hs. }
  destruct (region_loop _ _ _ _) as [[[regions rlist] rtier]|e] eqn:Er.
  2: { split; [done|]. intros [[_ _ _ _ H _] _]. pose proof (proj2 (region_loop_Ok _ _) (conj H eq_refl)). congruence. }
  apply region_loop_Ok in Er as [Hreg [= -> -> ->]]. destruct (change_loop _ _ _ _ _) as [[[changed ctier] outside]|e] eqn:Ec.
  2: { split; [done|]. intros [[_ _ _ _ _ H] _]. pose proof (proj2 (change_loop_Ok (InRegions i) _ _) (conj H eq_refl)). congruence. }
  apply change_loop_Ok in Ec as [Hch [= -> -> ->]]. assert (input_ok i) as Hok by (destruct Hs as (? & ? & ? & ?); by split). unfold decision.
  change (match declared_tier i with Some d => _ | None => _ end) with (tier_of i).
  destruct (decide_exception (tier_of i) (InException i)) as [[execution exception]|e]; [|split; [done|intros [_ (x & y & H & _)]; done]].
  destruct (gate_loop execution ∅ [] (InSkippedGates i)) as [skipped|e] eqn:Eg.
  - apply gate_loop_Ok in Eg as [Hg ->]. split.
    + intros [= <-]. split; [done|]. by exists execution, exception.
    + intros [_ (x & y & [= <- <-] & _ & ->)]. done.
  - split; [done|]. intros [_ (x & y & [= <- <-] & Hg & ->)]. pose proof (proj2 (gate_loop_Ok execution _ _) (conj Hg eq_refl)). congruence.
Qed.

(** ** The tier *)

(** A change the diff may carry at the low tier: neither side of it, and not the kind of file, is out of the allowlist. *)
Definition low_change (c : HeadChange) : Prop :=
  CChange c ≠ "type_change" ∧ VTier (Classify (CPath c)) = Low ∧ (COldPath c = "" ∨ VTier (Classify (COldPath c)) = Low).

Lemma changedVerdict_low c : VTier (changedVerdict c) = Low ↔ low_change c.
Proof.
  unfold changedVerdict, low_change. destruct (bool_decide_reflect (CChange c = "type_change")); [naive_solver|].
  destruct (bool_decide_reflect (COldPath c = "")); cbn [negb andb]; [tauto|]. destruct (bool_decide_reflect (VTier (Classify (CPath c)) = Low)); [|tauto].
  destruct (Classify_valid (COldPath c)) as [E|E]; [rewrite bool_decide_eq_false_2 by (by rewrite E)|rewrite bool_decide_eq_true_2 by done]; rewrite E; naive_solver.
Qed.

Lemma changed_tier_low l : changed_tier l = Low ↔ l ≠ [] ∧ Forall low_change l.
Proof.
  unfold changed_tier. rewrite tiers_low, Forall_cons, Forall_fmap. assert (first_tier l = Low ↔ l ≠ []) as -> by (by destruct l).
  assert (Forall ((λ t, t = Low) ∘ (CETier ∘ change_entry)) l ↔ Forall low_change l) as ->; [|done].
  rewrite !Forall_forall. split; intros H c Hc; apply changedVerdict_low, (H c Hc).
Qed.

Lemma regions_tier_low l : Forall (λ r, VTier (ClassifyRegion (normal r)) = Low) l ↔ match regions_tier l with Some t => t = Low | None => True end.
Proof.
  destruct l as [|r l]; [by split|]. cbn [regions_tier]. rewrite tiers_low, Forall_fmap. done.
Qed.

Lemma normal_region r : ClassifyRegion (normal r) = ClassifyRegion r.
Proof. done. Qed.

Lemma tier_of_low i : input_ok i →
  (tier_of i = Low ↔ InChanges i ≠ [] ∧ Forall low_change (InChanges i) ∧ Forall (λ r, VTier (ClassifyRegion r) = Low) (InRegions i) ∧ InDeclared i ≠ High) ∧
  (tier_of i = Low ∨ tier_of i = High).
Proof.
  intros Hok. pose proof (io_declared i Hok) as Hd.
  assert (derived_tier (InRegions i) (InChanges i) = Low ↔ InChanges i ≠ [] ∧ Forall low_change (InChanges i) ∧ Forall (λ r, VTier (ClassifyRegion r) = Low) (InRegions i)) as Hdt.
  { unfold derived_tier. pose proof (regions_tier_low (InRegions i)) as Hrt. setoid_rewrite normal_region in Hrt. rewrite Hrt.
    destruct (regions_tier _); rewrite ?Max_low, changed_tier_low; tauto. }
  unfold tier_of, declared_tier. case_bool_decide as Hdecl.
  - split; [rewrite Hdecl, Hdt; naive_solver|]. unfold derived_tier. destruct (regions_tier _); [apply Max_valid|apply tiers_valid].
  - split; [|apply Max_valid]. rewrite Max_low, Hdt. destruct Hd as [|Hd]; [done|]. unfold valid in Hd. apply orb_true_iff in Hd as [E%bool_decide_eq_true|E%bool_decide_eq_true]; rewrite E; naive_solver.
Qed.

(** The tier whose gates run: the rules' own, or that of a named and reasoned exception. *)
Lemma execution_cases tier e x y : decide_exception tier e = Ok (x, y) →
  x = tier ∧ y = None ∨ ∃ e, y = Some e ∧ blank (EEBy e) = false ∧ blank (EEReason e) = false ∧ EEExecutionTier e = x ∧ (x = Low ∨ x = High).
Proof.
  unfold decide_exception. destruct e as [e|]; intros Hx; [|left; by injection Hx]. right. destruct (blank (ExBy e)) eqn:B1; [done|].
  destruct (blank (ExReason e)) eqn:B2; [done|]. cbn [orb] in Hx. destruct (IsZero _); [done|]. destruct (valid (ExExecutionTier e)) eqn:V; [|done]. cbn [negb] in Hx.
  case_bool_decide; [done|]. injection Hx as <- <-. eexists. split_and!; [done..|]. unfold valid in V. apply orb_true_iff in V as [V%bool_decide_eq_true|V%bool_decide_eq_true]; auto.
Qed.

Lemma gates_low i x y l : input_ok i → decide_exception (tier_of i) (InException i) = Ok (x, y) → gates_ok x l → l ≠ [] → x = Low.
Proof.
  intros Hok Hx (_ & _ & [G3|G3]) Hn; [done|]. destruct (execution_cases _ _ _ _ Hx) as [[-> _]|(e & _ & _ & _ & _ & Hv)]; [|tauto].
  destruct (tier_of_low i Hok) as [_ Hv]. tauto.
Qed.

(** A head is at the low tier exactly when nothing about it is high. In a decision [Decide] makes, the tier is low if and only if the
    diff is not empty, every change of it is low on both its paths, every declared region is low, and the author did not declare high: an
    author can raise the tier and never lower it. The tier is otherwise high. *)
Theorem Decide_low_iff order i r : order ≡ₚ identities → Decide order i = Ok r →
  (PTier r = Low ↔ InChanges i ≠ [] ∧ Forall low_change (InChanges i) ∧ Forall (λ r, VTier (ClassifyRegion r) = Low) (InRegions i) ∧ InDeclared i ≠ High) ∧
  (PTier r = Low ∨ PTier r = High).
Proof. intros Hp Hr. apply Decide_Ok in Hr as [Hok (x & y & _ & _ & ->)]; [|done]. by apply tier_of_low. Qed.

(** What a decision skips. A record [Decide] makes skips a gate only at the low execution tier; it never skips the pre-merge record or
    the acceptance, names each skipped gate once and with a reason; and it runs at another tier than the one the rules gave only
    under an exception that says who recorded it and why. *)
Theorem Decide_gates order i r : order ≡ₚ identities → Decide order i = Ok r →
  (PSkippedGates r ≠ [] → PExecutionTier r = Low) ∧
  (∀ g, g ∈ PSkippedGates r → SGGate g ∉ ["premerge_record"; "dag_accept"] ∧ blank (SGReason g) = false) ∧
  NoDup (SGGate <$> PSkippedGates r) ∧ PSkippedGates r ≡ₚ InSkippedGates i ∧
  (PExecutionTier r ≠ PTier r → ∃ e, PException r = Some e ∧ blank (EEBy e) = false ∧ blank (EEReason e) = false ∧ EEExecutionTier e = PExecutionTier r).
Proof.
  intros Hp Hr. apply Decide_Ok in Hr as [Hok (x & y & Hx & HG & ->)]; [|done]. cbn [PSkippedGates PExecutionTier PTier PException record].
  pose proof (sort_by_perm SGGate (InSkippedGates i)) as Hs. pose proof HG as (G1 & G2 & _). split_and!.
  - intros Hn. apply (gates_low i x y (InSkippedGates i)); [done..|]. intros G. by rewrite G in Hn.
  - intros g Hg. rewrite Hs in Hg. rewrite Forall_forall in G1. by destruct (G1 g Hg) as (_ & H1 & H2).
  - by rewrite Hs.
  - done.
  - intros Hn. destruct (execution_cases _ _ _ _ Hx) as [[-> _]|(e & -> & H1 & H2 & H3 & _)]; [done|]. by exists e.
Qed.

(** ** Sorting by several strings *)
Lemma leb_false x y : String.leb x y = false → String.leb y x = true.
Proof. intros H. destruct (total String.le x y) as [Hle|Hle]; unfold String.le in Hle; [by rewrite H in Hle|]. by apply Is_true_true in Hle. Qed.

Lemma less_antisym a b : length a = length b → lessStrings a b = false → lessStrings b a = false → a = b.
Proof.
  revert b. induction a as [|x a IH]; intros [|y b] Hl H1 H2; try done. cbn [lessStrings] in *. injection Hl as Hl. destruct (decide (x = y)) as [->|Hne].
  - rewrite bool_decide_eq_true_2 in H1, H2 by done. f_equal. by apply IH.
  - rewrite bool_decide_eq_false_2 in H1, H2 by congruence. rewrite negb_false_iff in H1, H2. destruct Hne.
    apply (anti_symm String.le); unfold String.le; by rewrite ?H1, ?H2.
Qed.

Lemma less_total a b : lessStrings a b = true → lessStrings b a = false.
Proof.
  revert b. induction a as [|x a IH]; intros [|y b] H; try done. cbn [lessStrings] in *. destruct (decide (x = y)) as [->|Hne].
  - rewrite bool_decide_eq_true_2 in H |- * by done. auto.
  - rewrite bool_decide_eq_false_2 in H |- * by congruence. apply negb_true_iff in H. rewrite negb_false_iff. by apply leb_false.
Qed.

Lemma less_trans a b c : length a = length b → length b = length c → lessStrings b a = false → lessStrings c b = false → lessStrings c a = false.
Proof.
  revert b c. induction a as [|x a IH]; intros [|y b] [|z c] L1 L2 H1 H2; try done. cbn [lessStrings] in *. injection L1 as L1. injection L2 as L2.
  destruct (bool_decide_reflect (y = x)) as [E1|N1], (bool_decide_reflect (z = y)) as [E2|N2]; subst; rewrite ?negb_false_iff in *.
  - rewrite bool_decide_eq_true_2 by done. by eapply IH.
  - rewrite bool_decide_eq_false_2 by done. by rewrite negb_false_iff.
  - rewrite bool_decide_eq_false_2 by done. by rewrite negb_false_iff.
  - destruct (bool_decide_reflect (z = x)) as [->|N3].
    + destruct N1. apply (anti_symm String.le); unfold String.le; by rewrite ?H1, ?H2.
    + rewrite negb_false_iff. assert (String.le x z) as Hx by (etrans; unfold String.le; [by rewrite H1|by rewrite H2]). by apply Is_true_true in Hx.
Qed.

Section sort_keys_props.
Context {A : Type} (key : A → list string) (n : nat).
Hypothesis Hlen : ∀ x, length (key x) = n.

Definition keys_le (x y : A) : Prop := lessStrings (key y) (key x) = false.

Lemma key_insert_perm x l : key_insert key x l ≡ₚ x :: l.
Proof. induction l as [|y l IH]; cbn; [done|]. destruct (lessStrings _ _); [|done]. rewrite IH. constructor. Qed.

Lemma sort_keys_perm l : sort_keys key l ≡ₚ l.
Proof. induction l as [|x l IH]; cbn; [done|]. by rewrite key_insert_perm, IH. Qed.

Lemma keys_le_trans x y z : keys_le x y → keys_le y z → keys_le x z.
Proof. unfold keys_le. intros H1 H2. eapply less_trans; [| |exact H1|exact H2]; by rewrite !Hlen. Qed.

Lemma key_insert_sorted x l : StronglySorted keys_le l → StronglySorted keys_le (key_insert key x l).
Proof.
  induction l as [|y l IH]; cbn [key_insert]; intros Hs; [repeat constructor|]. pose proof Hs as [Hy Hl]%StronglySorted_cons. destruct (lessStrings (key y) (key x)) eqn:E.
  - constructor; [auto|]. rewrite key_insert_perm. constructor; [by apply less_total|done].
  - constructor; [done|]. constructor; [done|]. eapply Forall_impl; [exact Hy|]. intros z Hz. by eapply keys_le_trans.
Qed.

Lemma sort_keys_sorted l : StronglySorted keys_le (sort_keys key l).
Proof. induction l; cbn [sort_keys]; [constructor|]. by apply key_insert_sorted. Qed.

(** Where the key determines the entry, the sorted list does not depend on the order. *)
Lemma sort_keys_unique l1 l2 : (∀ x y, x ∈ l1 → y ∈ l1 → key x = key y → x = y) → l1 ≡ₚ l2 → sort_keys key l1 = sort_keys key l2.
Proof.
  intros Hk Hp. apply (StronglySorted_unique_strong keys_le); [|apply sort_keys_sorted..|by rewrite !sort_keys_perm].
  intros x y Hx Hy H1 H2. rewrite !sort_keys_perm in *. rewrite <- Hp in Hy. apply Hk; [done|done|]. apply less_antisym; [by rewrite !Hlen|done|done].
Qed.
End sort_keys_props.

(** ** A decision does not depend on the order of its input *)
Lemma normal_idem r : normal (normal r) = normal r.
Proof.
  unfold normal. cbn. f_equal. destruct (decide (RChange r = "")) as [Hc|Hc]; [by rewrite Hc|by rewrite !(bool_decide_eq_false_2 _ Hc)].
Qed.

Lemma region_entry_normal r : region_entry (normal r) = region_entry r.
Proof. unfold region_entry. by rewrite normal_idem. Qed.

Lemma regions_tier_perm l1 l2 : normal <$> l1 ≡ₚ normal <$> l2 → regions_tier l1 = regions_tier l2.
Proof.
  intros Hp. assert (∀ l : list Region, RETier ∘ region_entry <$> l = (RETier ∘ region_entry) <$> (normal <$> l)) as Hn.
  { intros l. rewrite <- list_fmap_compose. apply list_fmap_ext. intros i r _. cbn -[region_entry]. by rewrite region_entry_normal. }
  assert (l1 = [] ↔ l2 = []) as He.
  { apply Permutation_length in Hp. rewrite !length_fmap in Hp. destruct l1, l2; naive_solver. }
  destruct l1 as [|r1 l1], l2 as [|r2 l2]; [done|naive_solver..|]. unfold regions_tier. f_equal. rewrite (Hn (r1 :: l1)), (Hn (r2 :: l2)).
  apply tiers_perm. by rewrite Hp.
Qed.

Lemma changed_tier_perm l1 l2 : l1 ≡ₚ l2 → changed_tier l1 = changed_tier l2.
Proof.
  intros Hp. unfold changed_tier. assert (first_tier l1 = first_tier l2) as -> by (apply Permutation_length in Hp; by destruct l1, l2).
  apply tiers_perm. by rewrite Hp.
Qed.

Lemma region_entries_perm l1 l2 : normal <$> l1 ≡ₚ normal <$> l2 → sort_keys region_key (region_entry <$> l1) = sort_keys region_key (region_entry <$> l2).
Proof.
  intros Hp. assert (∀ l : list Region, region_entry <$> l = region_entry <$> (normal <$> l)) as Hn.
  { intros l. rewrite <- list_fmap_compose. apply list_fmap_ext. intros i r _. cbn -[region_entry]. by rewrite region_entry_normal. }
  rewrite (Hn l1), (Hn l2). apply (sort_keys_unique region_key 4); [done| |by rewrite Hp].
  intros x y (r1 & -> & _)%list_elem_of_fmap (r2 & -> & _)%list_elem_of_fmap. intros [= E1 E2 E3 E4].
  unfold region_entry. assert (normal r1 = normal r2) as ->; [|done]. unfold normal. by f_equal.
Qed.

Lemma changed_entries_perm l1 l2 : l1 ≡ₚ l2 → sort_keys changed_key (change_entry <$> l1) = sort_keys changed_key (change_entry <$> l2).
Proof.
  intros Hp. apply (sort_keys_unique changed_key 3); [done| |by rewrite Hp].
  intros x y ([p1 o1 c1] & -> & _)%list_elem_of_fmap ([p2 o2 c2] & -> & _)%list_elem_of_fmap. by intros [= -> -> ->].
Qed.

Lemma covered_perm R1 R2 p : R1 ≡ₚ R2 → coveredByAny R1 p = coveredByAny R2 p.
Proof.
  intros Hp. apply eq_true_iff_eq. unfold coveredByAny. rewrite !existsb_exists. split; intros (r & Hr & H); exists r; (split; [|done]);
    apply list_elem_of_In; apply list_elem_of_In in Hr; [by rewrite <- Hp|by rewrite Hp].
Qed.

Lemma outside_perm R1 R2 C1 C2 : R1 ≡ₚ R2 → C1 ≡ₚ C2 → outside_set R1 C1 = outside_set R2 C2.
Proof.
  intros HR HC. assert (∀ c, outside_of R1 c = outside_of R2 c) as Ho.
  { intros c. unfold outside_of. assert (R1 = [] ↔ R2 = []) as He by (apply Permutation_length in HR; destruct R1, R2; naive_solver).
    destruct R1 as [|r1 R1], R2 as [|r2 R2]; [done|naive_solver..|]. apply list_filter_iff. intros p. by rewrite (covered_perm _ _ p HR). }
  unfold outside_set. apply set_eq. intros p. rewrite !elem_of_list_to_set, !list_elem_of_bind. split; intros (c & H1 & H2); exists c.
  - rewrite <- Ho, <- HC. done.
  - rewrite Ho, HC. done.
Qed.

(** ** What encoding/json can hide: nothing of an ASCII text *)
Lemma respelled_ascii fuel b : Forall is_byte b → (length b ≤ fuel)%nat → Forall plain_char (encode_runes (runes_of fuel b)) → encode_runes (runes_of fuel b) = b.
Proof.
  revert b. induction fuel as [|fuel IH]; intros b Hb Hf Hp; [destruct b; [done|cbn in Hf; lia]|]. destruct b as [|b0 t]; [done|]. cbn [runes_of] in *.
  pose proof (decode_rune_size (b0 :: t) ltac:(done)) as Hs. destruct (decode_rune (b0 :: t)) as [u size] eqn:E. rewrite encode_runes_cons in *.
  apply Forall_app in Hp as [Hp1 Hp2]. cbn [snd] in Hs. assert (¬ (u = rune_error ∧ size = 1%nat)) as Hne.
  { intros [-> _]. change (encode_rune rune_error) with [0xef; 0xbf; 0xbd]%Z in Hp1. apply Forall_cons in Hp1 as [Hp1 _]. unfold plain_char in Hp1. lia. }
  apply encode_decode in E as (_ & <- & _); [|done..]. rewrite IH; [apply take_drop|by apply Forall_drop|rewrite length_drop; cbn in *; lia|done].
Qed.

Lemma runes_scalar fuel b : Forall is_byte b → Forall scalar (runes_of fuel b).
Proof.
  revert b. induction fuel as [|fuel IH]; intros b Hb; [constructor|]. destruct b as [|b0 t]; [constructor|]. cbn [runes_of].
  destruct (decode_rune (b0 :: t)) as [u size] eqn:E. constructor; [|by apply IH, Forall_drop].
  destruct (decide (u = rune_error ∧ size = 1%nat)) as [[-> _]|Hne]; [unfold scalar, rune_error; lia|]. by apply encode_decode in E as (H & _).
Qed.

Lemma spelled_ascii s t : Forall plain_char (bytes_of_string t) → spelled_string s = t → s = t.
Proof.
  unfold spelled_string. intros Ht E. pose proof (bytes_of_string_bytes s) as Hb. assert (encode_runes (runes (bytes_of_string s)) = bytes_of_string t) as Eb.
  { rewrite <- E, bytes_of_string_of_bytes; [done|]. by apply encode_runes_bytes, runes_scalar. }
  apply bytes_of_string_inj. rewrite <- Eb. symmetry. apply respelled_ascii; [done..|]. unfold runes in Eb. by rewrite Eb.
Qed.

Lemma spelled_low s : spelled_string s = spelled_string Low → s = Low.
Proof. apply (spelled_ascii s Low). refine (bool_decide_unpack _ _). vm_compute. exact I. Qed.

(** ** A record against its own members *)
Definition regions_of (r : PolicyRecord) : list Region := (λ e, mkRegion (REPath e) (REKind e) (REKey e) (REChange e)) <$> PDeclaredRegions r.
Definition changes_of (r : PolicyRecord) : list HeadChange := (λ e, mkHeadChange (CEPath e) (CEOldPath e) (CEChange e)) <$> PChangedPaths r.

(** An instant a record can carry: within the years 1 to 9999, past their first second. *)
Definition recordable (t : Time) : Prop := in_years t ∧ (0 < t_sec t)%Z.

Lemma instant_sec t : instant (mkTime (t_sec t) 0) = instant t.
Proof. done. Qed.

Lemma regions_of_record i x y : regions_of (record i x y) ≡ₚ normal <$> InRegions i.
Proof.
  unfold regions_of. cbn [record PDeclaredRegions]. rewrite sort_keys_perm, <- list_fmap_compose. by erewrite list_fmap_ext.
Qed.

Lemma changes_of_record i x y : changes_of (record i x y) ≡ₚ InChanges i.
Proof.
  unfold changes_of. cbn [record PChangedPaths]. rewrite sort_keys_perm, <- list_fmap_compose.
  erewrite (list_fmap_ext _ id); [by rewrite list_fmap_id|]. by intros j [].
Qed.

(** The parts of a record that do not come from the scalars of its input. *)
Lemma record_same i1 i2 x y : InIssue i1 = InIssue i2 → InNode i1 = InNode i2 → InHead i1 = InHead i2 → InDev i1 = InDev i2 →
  instant (InDecidedAt i1) = instant (InDecidedAt i2) → InDecidedBy i1 = InDecidedBy i2 → InDeclared i1 = InDeclared i2 →
  normal <$> InRegions i1 ≡ₚ normal <$> InRegions i2 → InChanges i1 ≡ₚ InChanges i2 → NoDup (SGGate <$> InSkippedGates i1) →
  InSkippedGates i1 ≡ₚ InSkippedGates i2 → record i1 x y = record i2 x y ∧ tier_of i1 = tier_of i2.
Proof.
  intros E1 E2 E3 E4 E5 E6 E7 HR HC Hn HG. unfold record, tier_of, derived_tier, outside_list, declared_tier. rewrite E1, E2, E3, E4, E5, E6, E7.
  rewrite (regions_tier_perm _ _ HR), (changed_tier_perm _ _ HC), (region_entries_perm _ _ HR), (changed_entries_perm _ _ HC), (outside_perm _ _ _ _ HR HC).
  by rewrite (sort_by_unique SGGate _ _ Hn HG).
Qed.

Lemma exception_read tier e x y : (∀ e', e = Some e' → recordable (ExAt e')) → decide_exception tier e = Ok (x, y) →
  ∃ e2, match y with Some e => Some <$> exception_of e | None => Some None end = Some e2 ∧ decide_exception tier e2 = Ok (x, y).
Proof.
  intros Ht. unfold decide_exception at 1. destruct e as [e|]; [|intros [= <- <-]; by exists None]. specialize (Ht e eq_refl) as [Hy Hs].
  destruct (_ || _) eqn:B; [done|]. destruct (IsZero (ExAt e)); [done|]. destruct (valid _) eqn:V; [|done]. cbn [negb]. case_bool_decide as N; [done|].
  intros [= <- <-]. unfold exception_of. cbn [EEAt EEBy EEReason EEExecutionTier]. rewrite parse_instant_instant by done. cbn [mbind option_bind]. eexists. split; [done|].
  cbn [decide_exception ExBy ExReason ExAt ExExecutionTier]. rewrite B, V. unfold IsZero. cbn. destruct (Z.eqb_spec (t_sec (ExAt e)) 0); [lia|]. cbn. by rewrite bool_decide_eq_false_2.
Qed.

Lemma inputOf_record i x y : recordable (InDecidedAt i) → input_ok i → (∀ e, InException i = Some e → recordable (ExAt e)) →
  decide_exception (tier_of i) (InException i) = Ok (x, y) → NoDup (SGGate <$> InSkippedGates i) →
  ∃ i2, inputOf (record i x y) = Some i2 ∧ input_ok i2 ∧ decide_exception (tier_of i2) (InException i2) = Ok (x, y) ∧
    InSkippedGates i2 ≡ₚ InSkippedGates i ∧ record i2 x y = record i x y.
Proof.
  intros [Hy Hs] Hok Hexc Hdec Hnd. destruct (exception_read _ _ _ _ Hexc Hdec) as (e2 & He2 & Hd2).
  set (i2 := mkInput (InIssue i) (InNode i) (InHead i) (InDev i) (mkTime (t_sec (InDecidedAt i)) 0) (InDecidedBy i) (InDeclared i)
    (regions_of (record i x y)) (changes_of (record i x y)) e2 (sort_by SGGate (InSkippedGates i))).
  assert (normal <$> regions_of (record i x y) ≡ₚ normal <$> InRegions i) as HR.
  { rewrite regions_of_record, <- list_fmap_compose. erewrite list_fmap_ext; [done|]. intros j r _. apply normal_idem. }
  destruct (record_same i i2 x y) as [Er Et]; [done..|symmetry; exact HR|symmetry; apply changes_of_record|done|symmetry; apply sort_by_perm|].
  exists i2. split; [|split_and!; [|by rewrite <- Et|apply sort_by_perm|done]].
  - unfold inputOf. cbn [record PDecidedAt PDeclaredTier PException]. rewrite parse_instant_instant by done. cbn [mbind option_bind].
    assert (match declared_tier i with Some t => if valid t then Some t else None | None => Some "" end = Some (InDeclared i)) as ->.
    { unfold declared_tier. case_bool_decide as E; [by rewrite E|]. destruct (io_declared i Hok) as [|V]; [done|]. by rewrite V. }
    cbn [mbind option_bind]. rewrite He2. done.
  - destruct Hok as [H1 H2 H3 H4 H5 H6]. split; [exact H1|done| |done| |].
    + unfold IsZero. cbn. by destruct (Z.eqb_spec (t_sec (InDecidedAt i)) 0); [lia|].
    + cbn [i2 InRegions]. rewrite regions_of_record. apply Forall_fmap. eapply Forall_impl; [exact H5|]. intros r Hr. by apply normal_again.
    + cbn [i2 InChanges]. by rewrite changes_of_record.
Qed.

(** A decision record stands for the decision its own members give. A record [Decide] makes of a head is accepted, in whatever order the identities are looked at; and
    an accepted record claims the low tier only when every changed path it lists is low, every declared region is low and it declares
    no high tier, and skips a gate only at the low execution tier. *)
Theorem Validate_decided order1 order2 : order1 ≡ₚ identities → order2 ≡ₚ identities →
  (∀ i r, recordable (InDecidedAt i) → (∀ e, InException i = Some e → recordable (ExAt e)) → Decide order1 i = Ok r → Validate order2 r = true) ∧
  (∀ r, Validate order2 r = true →
    (PTier r = Low → PChangedPaths r ≠ [] ∧ Forall low_change (changes_of r) ∧ Forall (λ x, VTier (ClassifyRegion x) = Low) (regions_of r) ∧ PDeclaredTier r ≠ Some High) ∧
    (PSkippedGates r ≠ [] → PExecutionTier r = Low)).
Proof.
  intros H1 H2. split.
  - intros i r Ht He Hr. apply Decide_Ok in Hr as [Hok (x & y & Hd & (G1 & G2 & G3) & ->)]; [|done].
    destruct (inputOf_record i x y Ht Hok He Hd G2) as (i2 & Hi & Hok2 & Hd2 & HG & Er). unfold Validate. rewrite Hi.
    assert (Decide order2 i2 = Ok (record i x y)) as ->; [|by apply bool_decide_eq_true]. apply Decide_Ok; [done|]. split; [done|]. exists x, y.
    split_and!; [done| |done]. by rewrite HG.
  - intros r. unfold Validate. destruct (inputOf r) as [i|] eqn:Ei; [|done]. destruct (Decide order2 i) as [want|] eqn:Ed; [|done].
    intros E%bool_decide_eq_true. apply Decide_Ok in Ed as [Hok (x & y & Hd & (G1 & G2 & G3) & Ew)]; [|done].
    assert (regions_of r = InRegions i ∧ changes_of r = InChanges i ∧ PSkippedGates r = InSkippedGates i ∧ (PDeclaredTier r = Some High → InDeclared i = High)) as (EI & EC & ER & ED).
    { unfold inputOf in Ei. repeat (apply bind_Some in Ei as (? & ? & Ei)). injection Ei as <-. split_and!; [done..|]. cbn. intros Ex. rewrite Ex in *. by simplify_eq/=. }
    rewrite ER. subst want. assert (spelled_string (PTier r) = spelled_string (tier_of i) ∧ spelled_string (PExecutionTier r) = spelled_string x) as [ET EX]
      by (injection E; auto). split.
    + intros HL. rewrite HL in ET. symmetry in ET. apply spelled_low in ET. apply tier_of_low in ET as (L1 & L2 & L3 & L4); [|done]. rewrite <- EC in L1, L2. rewrite <- EI in L3.
      split_and!; [|done..|by intros Ex; apply ED in Ex]. intros En. apply L1. unfold changes_of. by rewrite En.
    + intros Hn. apply (gates_low i x y) in Hn; [|done..]. rewrite Hn in EX. by apply spelled_low.
Qed.

(** ** Witnesses *)
Module TierExample.
Definition sha : string := "0123456789abcdef0123456789abcdef01234567".
Definition at_time : Time := mkTime 63844847999 0.

Definition input : Input := mkInput "CRW-1" "n1" sha sha at_time "management" ""
  [mkRegion "docs" "tree" "" ""]
  [mkHeadChange "docs/b.md" "docs/a.md" "rename"; mkHeadChange "docs/guide/x.md" "" "add"] None [mkSkippedGate "second_review" "prose only"].

Definition high_input : Input := mkInput "CRW-2" "n2" sha sha at_time "management" Low []
  [mkHeadChange "internal/relay/dag/fold.go" "" "modify"] (Some (mkException "lead" "hot fix" at_time Low)) [mkSkippedGate "second_review" "urgent"].

Definition decided (i : Input) : PolicyRecord :=
  match Decide identities i with Ok r => r | Err _ => mkPolicyRecord "" "" "" "" "" "" "" "" None None "" "" "" "" [] [] [] false None [] end.

Lemma decided_low : Decide identities input = Ok (decided input).
Proof. vm_compute. reflexivity. Qed.

Lemma decided_high : Decide identities high_input = Ok (decided high_input).
Proof. vm_compute. reflexivity. Qed.
End TierExample.

Lemma Decide_low_iff_witness : PTier (TierExample.decided TierExample.input) = Low.
Proof.
  apply (Decide_low_iff identities TierExample.input _ ltac:(done) TierExample.decided_low). split_and!; [done| | |done].
  - apply Forall_cons; split; [split_and!; [done|vm_compute; reflexivity|right; vm_compute; reflexivity]|].
    apply Forall_singleton. split_and!; [done|vm_compute; reflexivity|by left].
  - apply Forall_singleton. vm_compute. reflexivity.
Defined.

Lemma Decide_gates_witness : PExecutionTier (TierExample.decided TierExample.high_input) = Low ∧ PTier (TierExample.decided TierExample.high_input) = High.
Proof.
  split; [|vm_compute; reflexivity].
  refine (proj1 (Decide_gates identities TierExample.high_input _ _ TierExample.decided_high) _); [done|]. vm_compute. discriminate.
Defined.

Lemma Validate_decided_witness : Validate identities (TierExample.decided TierExample.high_input) = true.
Proof.
  assert (recordable TierExample.at_time) as Ht by (unfold recordable, in_years, TierExample.at_time; cbn [t_sec]; lia).
  refine (proj1 (Validate_decided identities identities _ _) TierExample.high_input _ Ht _ TierExample.decided_high); [done..|].
  intros e [= <-]. exact Ht.
Defined.
