(* ===== verification/SchedPolicy.v ===== *)
(** * SchedPolicy: the release policy of a plan (internal/relay/dagsched/optimism.go).

    Local-optimistic release is switched off when the last landings of a plan show that it costs more than it saves, and on again after a run of clean landings.
    The landings, in order, are an argument: the code reads them from the store. An [int] of the settings is within the bounds of a recorded policy. *)
From S2P Require Import Prelude GoLib Sha256 Json DagModel.
Local Open Scope string_scope.

Definition OptimismOn := "on".
Definition OptimismOff := "off".
Definition MaxPolicyWindow : Z := 64.
Definition MaxPolicyTransitions : nat := 8.
Definition ResultDevRed := "dev_red".
Definition ResultReverted := "reverted".

Record ReleaseSettings : Type := mkSettings {
  RSSeq : Z;
  RSWindow : Z;
  RSHandlingSeconds : Z;
  RSRedMerges : Z;
  RSCleanRun : Z;
  RSRecordedBy : string;
  RSRecordedAt : string
}.

Record PolicyInput : Type := mkPolicyInput { PIWindow : Z; PIHandlingSeconds : Z; PIRedMerges : Z; PICleanRun : Z }.

(** [validate]: the detail of the refusal, malformed_receipt, or [None]. *)
Definition validate (p : PolicyInput) : option string :=
  if (PIWindow p <? 1)%Z || (MaxPolicyWindow <? PIWindow p)%Z then
    Some ("the window is 1 to " +:+ itoa MaxPolicyWindow +:+ " landings, not " +:+ itoa (PIWindow p))
  else if (PIHandlingSeconds p <? 1)%Z then
    Some ("the handling time that makes a landing slow is 1 second or more, not " +:+ itoa (PIHandlingSeconds p))
  else if (PIRedMerges p <? 1)%Z || (PIWindow p <? PIRedMerges p)%Z then
    Some ("the red landings that switch optimism off are 1 to the window (" +:+ itoa (PIWindow p) +:+ "), not " +:+ itoa (PIRedMerges p))
  else if (PICleanRun p <? 1)%Z || (PIWindow p <? PICleanRun p)%Z then
    Some ("the clean landings that switch it on again are 1 to the window (" +:+ itoa (PIWindow p) +:+ "), not " +:+ itoa (PICleanRun p))
  else None.

(** The settings a recorded policy stands for. *)
Definition settings_of (seq : Z) (p : PolicyInput) (by_ at_ : string) : ReleaseSettings :=
  mkSettings seq (PIWindow p) (PIHandlingSeconds p) (PIRedMerges p) (PICleanRun p) by_ at_.

(** A landing, with what the policy reads of it. *)
Record Landing : Type := mkLanding {
  LandNodeID : string;
  LandAt : string;
  LandHandlingSeconds : option Z;
  LandResults : gset string
}.

Definition red (l : Landing) : bool := bool_decide (ResultDevRed ∈ LandResults l).
Definition reverted (l : Landing) : bool := bool_decide (ResultReverted ∈ LandResults l).
Definition slow (s : ReleaseSettings) (l : Landing) : bool := match LandHandlingSeconds l with Some t => (RSHandlingSeconds s <? t)%Z | None => false end.
Definition clean_landing (s : ReleaseSettings) (l : Landing) : bool := negb (slow s l) && negb (red l) && negb (reverted l).
Definition troubled_landing (l : Landing) : bool := red l || reverted l.

(** [landings[len(landings)-n:]] when there are more than [n], else all of them. *)
Definition last_of {A} (n : Z) (l : list A) : list A := if (n <? Z.of_nat (length l))%Z then drop (length l - Z.to_nat n) l else l.

(** The reason of the switch, or the empty string. *)
Definition trigger_of (s : ReleaseSettings) (window : list Landing) : string :=
  let troubled := length (filter (λ l, troubled_landing l = true) window) in
  match List.find (slow s) window with
  | Some l => "landing " +:+ LandNodeID l +:+ " took " +:+ itoa (default 0%Z (LandHandlingSeconds l)) +:+ " seconds to settle a conflict, over the "
      +:+ itoa (RSHandlingSeconds s) +:+ " seconds the policy allows"
  | None =>
    if (RSRedMerges s <=? Z.of_nat troubled)%Z then
      itoa_nat troubled +:+ " of the last " +:+ itoa_nat (length window) +:+ " landings are red or reverted (the policy switches off at " +:+ itoa (RSRedMerges s) +:+ ")"
    else ""
  end.

Definition optimismAfter (s : ReleaseSettings) (landings : list Landing) : bool * string :=
  match landings with
  | [] => (true, "no landing has been read yet")
  | _ =>
    let window := last_of (RSWindow s) landings in
    let trigger := trigger_of s window in
    if bool_decide (trigger = "") then (true, "none of the last " +:+ itoa_nat (length window) +:+ " landings is slow, red or reverted")
    else if (RSCleanRun s <=? Z.of_nat (length landings))%Z && forallb (clean_landing s) (drop (length landings - Z.to_nat (RSCleanRun s)) landings) then
      (true, "the last " +:+ itoa (RSCleanRun s) +:+ " landings were clean (the window still holds: " +:+ trigger +:+ ")")
    else (false, trigger)
  end.

Record Transition : Type := mkTransition { TNodeID : string; TAt : string; TFrom : string; TTo : string; TBecause : string }.

Record OptimismState : Type := mkOptimism {
  OptSettings : ReleaseSettings;
  OptOn : bool;
  OptReason : string;
  OptLandings : nat;
  OptWindow : list Landing;
  OptTransitions : list Transition;
  OptTransitionsOmitted : nat
}.

Definition optimismWord (on : bool) : string := if on then OptimismOn else OptimismOff.

(** The switches: [seen] are the landings read so far. *)
Fixpoint switches (s : ReleaseSettings) (seen : list Landing) (previous : bool) (rest : list Landing) : list Transition :=
  match rest with
  | [] => []
  | l :: rest' =>
    let seen' := (seen ++ [l])%list in
    let '(on, because) := optimismAfter s seen' in
    if eqb on previous then switches s seen' previous rest'
    else mkTransition (LandNodeID l) (LandAt l) (optimismWord previous) (optimismWord on) because :: switches s seen' on rest'
  end.

Definition evaluateOptimism (s : ReleaseSettings) (landings : list Landing) : OptimismState :=
  let '(on, reason) := optimismAfter s landings in
  let all := switches s [] true landings in
  mkOptimism s on reason (length landings) (last_of (RSWindow s) landings) (drop (length all - MaxPolicyTransitions) all) (length all - MaxPolicyTransitions).

(** ** The canonical form *)
Definition landing_canonical (s : ReleaseSettings) (l : Landing) : value :=
  VMap (map_of ([("node_id", VString (LandNodeID l)); ("landed_at", VString (LandAt l)); ("slow", VBool (slow s l)); ("post_merge_red", VBool (red l)); ("reverted", VBool (reverted l))]
    ++ match LandHandlingSeconds l with Some t => [("conflict_handling_seconds", VInt t)] | None => [] end)%list).

Definition transition_canonical (t : Transition) : value :=
  VMap (map_of [("node_id", VString (TNodeID t)); ("landed_at", VString (TAt t)); ("from", VString (TFrom t)); ("to", VString (TTo t)); ("because", VString (TBecause t))]).

Definition settings_canonical (s : ReleaseSettings) : value :=
  VMap (map_of [("policy_seq", VInt (RSSeq s)); ("window", VInt (RSWindow s)); ("handling_seconds", VInt (RSHandlingSeconds s)); ("red_merges", VInt (RSRedMerges s)); ("clean_run", VInt (RSCleanRun s))]).

Definition optimism_canonical (o : OptimismState) : value :=
  VMap (map_of [("settings", settings_canonical (OptSettings o)); ("local_optimistic", VString (optimismWord (OptOn o))); ("reason", VString (OptReason o));
    ("landings", VInt (Z.of_nat (OptLandings o))); ("window", VList (landing_canonical (OptSettings o) <$> OptWindow o));
    ("transitions", VList (transition_canonical <$> OptTransitions o)); ("transitions_omitted", VInt (Z.of_nat (OptTransitionsOmitted o)))]).

(** ** When optimism is on *)

(** The window asks for a switch. *)
Definition window_bad (s : ReleaseSettings) (landings : list Landing) : Prop :=
  let window := last_of (RSWindow s) landings in
  (∃ l, l ∈ window ∧ slow s l = true) ∨ (RSRedMerges s ≤ Z.of_nat (length (filter (λ l, troubled_landing l = true) window)))%Z.

(** The last [CleanRun] landings are clean. *)
Definition clean_run (s : ReleaseSettings) (landings : list Landing) : Prop :=
  ∃ before run, landings = (before ++ run)%list ∧ Z.of_nat (length run) = RSCleanRun s ∧ Forall (λ l, clean_landing s l = true) run.

Lemma trigger_empty s window : trigger_of s window = "" ↔ ¬ ((∃ l, l ∈ window ∧ slow s l = true) ∨ (RSRedMerges s ≤ Z.of_nat (length (filter (λ l, troubled_landing l = true) window)))%Z).
Proof.
  unfold trigger_of. destruct (List.find (slow s) window) as [l|] eqn:E.
  - apply find_some in E as [Hl Hs]. split; [done|]. intros []. left. exists l. by rewrite list_elem_of_In.
  - pose proof (find_none _ _ E) as Hn. destruct (Z.leb_spec (RSRedMerges s) (Z.of_nat (length (filter (λ l, troubled_landing l = true) window)))) as [H|H].
    + split; [|intros []; by right]. intros E'. exfalso. revert E'. generalize (length (filter (λ l, troubled_landing l = true) window)) as k. intros k E'. by destruct (itoa_nat k).
    + split; [|done]. intros _ [(l & Hl & Hs)|?]; [|lia]. rewrite list_elem_of_In in Hl. apply Hn in Hl. congruence.
Qed.

Lemma clean_run_drop s landings : (0 ≤ RSCleanRun s)%Z →
  (RSCleanRun s <=? Z.of_nat (length landings))%Z && forallb (clean_landing s) (drop (length landings - Z.to_nat (RSCleanRun s)) landings) = true ↔ clean_run s landings.
Proof.
  intros H0. rewrite andb_true_iff, Z.leb_le, forallb_forall. unfold clean_run. split.
  - intros [Hle Hall]. exists (take (length landings - Z.to_nat (RSCleanRun s)) landings), (drop (length landings - Z.to_nat (RSCleanRun s)) landings).
    rewrite take_drop, length_drop. split_and!; [done|lia|]. apply Forall_forall. intros l Hl. apply Hall. by rewrite <- list_elem_of_In.
  - intros (before & run & -> & Hlen & Hall). rewrite length_app. split; [lia|]. rewrite drop_app_ge by lia. replace (_ - _ - _)%nat with 0%nat by lia. rewrite drop_0.
    intros l Hl. rewrite Forall_forall in Hall. apply Hall. by rewrite list_elem_of_In.
Qed.

Lemma optimism_on s landings : (0 ≤ RSCleanRun s)%Z → (optimismAfter s landings).1 = true ↔ landings = [] ∨ ¬ window_bad s landings ∨ clean_run s landings.
Proof.
  intros H0. unfold optimismAfter. destruct landings as [|l0 landings]; [split; [by left|done]|]. set (ls := l0 :: landings). cbv zeta.
  case_bool_decide as Ht; [rewrite trigger_empty in Ht; split; [intros _; right; by left|done]|]. rewrite trigger_empty in Ht. rewrite <- (clean_run_drop s ls H0).
  destruct (_ && _); cbn [fst]; [split; [intros _; right; by right|done]|]. split; [done|]. intros [?|[Hw|?]]; [done| |done]. exfalso. by apply Ht.
Qed.

(** ** The switches *)
Lemma switches_last s seen previous rest :
  let all := switches s seen previous rest in
  (default (optimismWord previous) (TTo <$> last all) = optimismWord (match rest with [] => previous | _ => (optimismAfter s (seen ++ rest)).1 end)).
Proof.
  revert seen previous. induction rest as [|l rest IH]; intros seen previous; [done|]. cbn [switches]. cbv zeta. destruct (optimismAfter s (seen ++ [l])) as [on because] eqn:E.
  specialize (IH (seen ++ [l])%list). rewrite <- (assoc_L (++)) in IH. cbn [app] in IH. cbv zeta in IH.
  destruct (eqb on previous) eqn:Eb.
  - apply eqb_prop in Eb as ->. rewrite IH. destruct rest; [by rewrite E|done].
  - rewrite last_cons. specialize (IH on). destruct (last (switches s (seen ++ [l]) on rest)) as [t|] eqn:El; cbn in *; rewrite IH; destruct rest; try done; by rewrite E.
Qed.

Lemma last_drop_some {A} n (l : list A) : (n < length l)%nat → last (drop n l) = last l.
Proof. intros Hn. rewrite <- (take_drop n l) at 2. rewrite last_app. destruct (drop n l) as [|x d] eqn:E; [|by destruct (last (x :: d)) eqn:?; [|apply last_None in Heqo]]. apply (f_equal length) in E. rewrite length_drop in E. cbn in E. lia. Qed.

Lemma kept_last {A} k (l : list A) : (0 < k)%nat → last (drop (length l - k) l) = last l.
Proof. intros Hk. destruct l as [|x l]; [done|]. apply last_drop_some. cbn. lia. Qed.

Lemma last_of_length {A} n (l : list A) : (0 ≤ n)%Z → (Z.of_nat (length (last_of n l)) ≤ n)%Z.
Proof. intros Hn. unfold last_of. destruct (Z.ltb_spec n (Z.of_nat (length l))); [rewrite length_drop|]; lia. Qed.

Lemma last_of_last {A} n (l : list A) x : (1 ≤ n)%Z → x ∈ last_of n (l ++ [x]).
Proof.
  intros Hn. unfold last_of. destruct (Z.ltb_spec n (Z.of_nat (length (l ++ [x])))) as [H|H]; [|apply elem_of_app; right; by left].
  rewrite length_app in *. cbn in *. rewrite drop_app_le by lia. apply elem_of_app. right. by left.
Qed.

Lemma validate_bounds p : validate p = None →
  (1 ≤ PIWindow p ≤ MaxPolicyWindow)%Z ∧ (1 ≤ PIHandlingSeconds p)%Z ∧ (1 ≤ PIRedMerges p ≤ PIWindow p)%Z ∧ (1 ≤ PICleanRun p ≤ PIWindow p)%Z.
Proof. unfold validate. repeat (case_match; try done). repeat match goal with H : orb _ _ = false |- _ => apply orb_false_iff in H as [? ?] | H : Z.ltb _ _ = false |- _ => apply Z.ltb_ge in H end. done. Qed.

(** A slow last landing switches optimism off at once: no clean run can end in it. *)
Lemma slow_last s before l : (1 ≤ RSWindow s)%Z → (1 ≤ RSCleanRun s)%Z → slow s l = true → (optimismAfter s (before ++ [l])).1 = false.
Proof.
  intros Hw Hc Hs. apply not_true_is_false. rewrite optimism_on by lia. intros [H|[H|(b & run & E & Hlen & Hall)]].
  - by destruct before.
  - apply H. left. exists l. split; [by apply last_of_last|done].
  - destruct run as [|r run] using rev_ind; [cbn in Hlen; lia|]. rewrite (assoc_L (++)) in E. apply app_inj_tail in E as [_ E]. subst r.
    rewrite Forall_forall in Hall. specialize (Hall l). unfold clean_landing in Hall. rewrite Hs in Hall. discriminate Hall. apply elem_of_app. right. by left.
Qed.

(** Under a policy that was accepted ([validate]), local-optimistic release is on exactly when nothing landed yet, the window of the last landings holds no slow landing and fewer red or
    reverted ones than the policy allows, or the last [CleanRun] landings are all clean; a slow last landing switches it off at once; the last switch the state names is the switch
    to the state it is in; and the state keeps at most 64 landings and 8 switches. *)
Theorem evaluateOptimism_policy p seq by_ at_ landings : validate p = None →
  let s := settings_of seq p by_ at_ in
  let o := evaluateOptimism s landings in
  (OptOn o = true ↔ landings = [] ∨ ¬ window_bad s landings ∨ clean_run s landings) ∧
  (∀ before l, landings = (before ++ [l])%list → slow s l = true → OptOn o = false) ∧
  default OptimismOn (TTo <$> last (OptTransitions o)) = optimismWord (OptOn o) ∧
  (length (OptTransitions o) ≤ 8)%nat ∧ (length (OptWindow o) ≤ 64)%nat.
Proof.
  intros (Hw & _ & _ & Hc)%validate_bounds. cbv zeta. set (s := settings_of seq p by_ at_). unfold evaluateOptimism.
  pose proof (optimism_on s landings) as Hon. pose proof (switches_last s [] true landings) as Hlast. cbv zeta in Hlast. cbn [app] in Hlast.
  destruct (optimismAfter s landings) as [on reason] eqn:E. cbn [OptOn OptTransitions OptWindow fst] in *. split_and!.
  - apply Hon. unfold s. cbn. lia.
  - intros before l -> Hs. pose proof (slow_last s before l) as H. rewrite E in H. apply H; [unfold s; cbn; lia|unfold s; cbn; lia|done].
  - rewrite kept_last by (unfold MaxPolicyTransitions; lia). change OptimismOn with (optimismWord true). rewrite Hlast. destruct landings; [|done].
    unfold optimismAfter in E. by injection E as <- <-.
  - rewrite length_drop. unfold MaxPolicyTransitions. lia.
  - pose proof (last_of_length (RSWindow s) landings) as H. unfold MaxPolicyWindow in Hw. unfold s in *. cbn [RSWindow settings_of] in *. lia.
Qed.

Lemma evaluateOptimism_policy_witness :
  let p := mkPolicyInput 3 60 2 2 in
  let l n t := mkLanding n "t" t ∅ in
  validate p = None ∧ OptOn (evaluateOptimism (settings_of 1 p "p" "t") [l "a" (Some 61%Z)]) = false.
Proof.
  split; [done|]. pose proof (evaluateOptimism_policy (mkPolicyInput 3 60 2 2) 1 "p" "t" [mkLanding "a" "t" (Some 61%Z) ∅]) as H.
  apply H with [] (mkLanding "a" "t" (Some 61%Z) ∅); done.
Defined.
