(* ===== verification/SchedRegions.v ===== *)
(** * SchedRegions: edit regions and the release rule of the plan scheduler (internal/relay/dagsched: regions.go, grades.go, releaserule.go, narrowing.go).

    A node declares the places it will edit. [PairGrade] says how an overlap of two declared places is settled, [judgeRelease] whether a candidate may be
    released beside the nodes that hold regions, and [widening] whether a node that holds regions may declare others. The conflict observations of the plan, which
    the code loads from the store on first use, are an argument. A refusal that names regions is the regions it names. *)
From S2P Require Import Prelude GoLib Sha256 Json Loads Utf8 GoPath SchedPolicy.
Local Open Scope string_scope.

(** ** path and strings *)

(** path.Base of a clean path *)
Definition Base (p : string) : string :=
  if bool_decide (p = "") then "." else if bool_decide (p = "/") then "/" else default "" (last (split_on slash p)).

Definition trim_slash (p : string) : string := match p with String c p' => if bool_decide (c = slash) then p' else p | EmptyString => p end.

Fixpoint has_suffix (s suffix : string) : bool :=
  bool_decide (s = suffix) || match s with EmptyString => false | String _ s' => has_suffix s' suffix end.

(** ** regions.go *)
Record Region : Type := mkRegion {
  Repository : string;
  Path : string;
  Kind : string;
  Key : string;
  RegionChange : string;
  Exclusive : bool;
  Grade : string;
  Rule : string
}.

#[export] Instance Region_eq_dec : EqDecision Region.
Proof. solve_decision. Defined.

Definition hotspotNames : list string :=
  ["go.mod"; "go.sum"; "package-lock.json"; "yarn.lock"; "pnpm-lock.yaml"; "Cargo.lock"; "poetry.lock"; "Pipfile.lock"; "uv.lock"; "Makefile"; "Dockerfile"].

(** [Classify]: the reason a change is exclusive at its place, or [None]. *)
Definition ClassifyPlace (p change : string) : option string :=
  if bool_decide (change = "rename") || bool_decide (change = "delete") then Some change
  else
    let clean := trim_slash (Clean p) in
    if bool_decide (Base clean ∈ hotspotNames) then Some "hotspot"
    else if bool_decide (clean = ".github") || has_prefix clean ".github/" || has_suffix clean ".sql" then Some "hotspot"
    else if existsb (λ s, bool_decide (s = "schema") || bool_decide (s = "migrations")) (split_on slash clean) then Some "hotspot"
    else None.

Definition placeHold (r : Region) : bool := bool_decide (ClassifyPlace (Path r) (RegionChange r) ≠ None).

Definition inside (p dir : string) : bool := bool_decide (p = dir) || has_prefix p (dir +:+ "/").

(** ** grades.go *)
Definition GradeIndependent := "independent".
Definition GradeMechanical := "mechanical".
Definition GradeLocal := "local".
Definition GradeExclusive := "exclusive".
Definition RuleIndependent := "independent".
Definition RuleMechanical := "mechanical".
Definition RuleLocalOptimistic := "local-optimistic".
Definition RuleDefer := "defer".
Definition MaxBasisRows : nat := 16.

Definition sharedTrees : list string := ["contract/schema"; "contract/golden"; "contract/fixtures"].
Definition sharedFiles : list string := ["internal/relay/argparse/specs.json"].

Fixpoint golden_pair (segments : list string) : bool :=
  match segments with
  | a :: ((b :: _) as rest) => (bool_decide (a = "testdata") && bool_decide (b = "golden")) || golden_pair rest
  | _ => false
  end.

Definition SharedSurface (p : string) : bool :=
  let p := Clean p in existsb (inside p) sharedTrees || bool_decide (p ∈ sharedFiles) || golden_pair (split_on slash p).

Definition holdsSharedSurface (tree : string) : bool :=
  let tree := Clean tree in
  SharedSurface tree || bool_decide (Base tree = "testdata") || existsb (λ listed, inside listed tree) (sharedTrees ++ sharedFiles)%list.

Definition foldedGrade (r : Region) : string * string :=
  if Exclusive r || SharedSurface (Path r) || placeHold r then (GradeExclusive, "")
  else if bool_decide (Grade r = "") then (GradeIndependent, "")
  else if negb (bool_decide (Grade r = GradeMechanical)) then (Grade r, "")
  else (Grade r, Rule r).

Definition EffectiveGrade (r : Region) : string := fst (foldedGrade r).

Definition wholeFile (r : Region) : bool := SharedSurface (Path r) || placeHold r.

(** [commonPlace]: the place and whether it is a directory, when the regions share one. *)
Definition commonPlace (a b : Region) : option (string * bool) :=
  let ap := Clean (Path a) in
  let bp := Clean (Path b) in
  if bool_decide (Kind a = "tree") && inside bp ap then Some (bp, bool_decide (Kind b = "tree"))
  else if bool_decide (Kind b = "tree") && inside ap bp then Some (ap, bool_decide (Kind a = "tree"))
  else if negb (bool_decide (ap = bp)) then None
  else if bool_decide (Kind a = "symbol") && bool_decide (Kind b = "symbol") && negb (bool_decide (Key a = Key b)) && negb (wholeFile a) && negb (wholeFile b) then None
  else Some (ap, false).

Definition Overlaps (a b : Region) : bool :=
  if negb (bool_decide (Repository a = Repository b)) then false
  else if Exclusive a || Exclusive b then true
  else bool_decide (commonPlace a b ≠ None).

(** The grade of an overlap by the grades of its sides. *)
Definition side_grade (a b : Region) : string :=
  let '(ga, ra) := foldedGrade a in
  let '(gb, rb) := foldedGrade b in
  if bool_decide (ga = GradeExclusive) || bool_decide (gb = GradeExclusive) then GradeExclusive
  else if bool_decide (ga = GradeIndependent) || bool_decide (gb = GradeIndependent) then GradeExclusive
  else if bool_decide (ga = GradeMechanical) && bool_decide (gb = GradeMechanical) && bool_decide (ra = rb) then GradeMechanical
  else GradeLocal.

Definition PairGrade (a b : Region) : string :=
  if negb (bool_decide (Repository a = Repository b)) then ""
  else if Exclusive a || Exclusive b then GradeExclusive
  else match commonPlace a b with
       | None => ""
       | Some (place, tree) => if (if tree then holdsSharedSurface place else SharedSurface place) then GradeExclusive else side_grade a b
       end.

Definition gradeWeight (g : string) : nat :=
  if bool_decide (g = GradeMechanical) then 1 else if bool_decide (g = GradeLocal) then 2 else if bool_decide (g = GradeExclusive) then 3 else 0.

Definition worse (a b : string) : string := if (gradeWeight a <? gradeWeight b)%nat then b else a.

(** ** releaserule.go *)
Record holder : Type := mkHolder { HNodeID : string; HRegions : list Region; HUnknown : bool }.

Record OverlapCounts : Type := mkOverlapCounts { OMechanical : nat; OLocal : nat; OExclusive : nat }.

Definition add_counts (a b : OverlapCounts) : OverlapCounts :=
  mkOverlapCounts (OMechanical a + OMechanical b) (OLocal a + OLocal b) (OExclusive a + OExclusive b).

Record BasisRow : Type := mkBasisRow {
  BHolder : string;
  BRepository : string;
  BPath : string;
  BUndeclared : string;
  BGrade : string;
  BCandidateGrade : string;
  BCandidateRule : string;
  BHolderGrade : string;
  BHolderRule : string;
  BObservations : nat;
  BConflicts : nat;
  BUnattributed : nat
}.

#[export] Instance BasisRow_eq_dec : EqDecision BasisRow.
Proof. solve_decision. Defined.

Record ReleaseJudgement : Type := mkJudgement {
  JRule : string;
  JOverlaps : OverlapCounts;
  JBasis : list BasisRow;
  JOmitted : nat;
  JHeldByPolicy : bool;
  JPolicyReason : string
}.

(** A conflict observation of the plan: its conflicts, and the files it could not merge by repository. *)
Record observedConflict : Type := mkObserved { ob_conflicts : Z; ob_files : gmap string (list string) }.

(** [observations.about]: how many observations there are, how many conflicted in a file of the place, and how many without a file of the repository. *)
Definition about (items : list observedConflict) (repository place : string) : nat * nat * nat :=
  let names item := default [] (ob_files item !! repository) in
  (length items,
   length (filter (λ item, existsb (λ name, inside name place) (names item) = true) items),
   length (filter (λ item, names item = [] ∧ (0 < ob_conflicts item)%Z) items)).

Definition placeOf (a b : Region) : string :=
  if Exclusive a then Clean (Path a) else if Exclusive b then Clean (Path b)
  else match commonPlace a b with Some (place, _) => place | None => Clean (Path a) end.

Definition basis_row (items : list observedConflict) (h : string) (a b : Region) : BasisRow :=
  let place := placeOf a b in
  let '(seenN, conflicted, unattributed) := about items (Repository a) place in
  mkBasisRow h (Repository a) place "" (PairGrade a b) (fst (foldedGrade a)) (snd (foldedGrade a)) (fst (foldedGrade b)) (snd (foldedGrade b))
    seenN conflicted unattributed.

(** The pairs of regions of a candidate and a holder, in the order of the two loops. *)
Definition region_pairs (candidate h : holder) : list (Region * Region) := a ← HRegions candidate; b ← HRegions h; [(a, b)].

(** The worst grade over the pairs. *)
Definition worse_pair (worst : string) (ab : Region * Region) : string :=
  let grade := PairGrade (fst ab) (snd ab) in if bool_decide (grade = "") then worst else worse worst grade.
Definition worst_of (pairs : list (Region * Region)) : string := foldl worse_pair "" pairs.

(** One holder: the worst grade of the overlap with it, and its rows of the basis. *)
Definition judge_holder (items : list observedConflict) (candidate h : holder) : string * list BasisRow :=
  let undeclared side := mkBasisRow (HNodeID h) "" "" side "" "" "" "" "" 0 0 0 in
  if HUnknown candidate then ("", [undeclared "candidate"])
  else if HUnknown h then ("", [undeclared "holder"])
  else
    let pairs := region_pairs candidate h in
    (worst_of pairs, (λ ab, basis_row items (HNodeID h) (fst ab) (snd ab)) <$> filter (λ ab, PairGrade (fst ab) (snd ab) ≠ "") pairs).

Definition count_grade (worst : string) : OverlapCounts :=
  if bool_decide (worst = GradeMechanical) then mkOverlapCounts 1 0 0
  else if bool_decide (worst = GradeLocal) then mkOverlapCounts 0 1 0
  else if bool_decide (worst = GradeExclusive) then mkOverlapCounts 0 0 1
  else mkOverlapCounts 0 0 0.

(** Keep the first of equal rows. *)
Fixpoint unique_rows (have : list BasisRow) (rows : list BasisRow) : list BasisRow :=
  match rows with
  | [] => []
  | r :: rows' => if bool_decide (r ∈ have) then unique_rows have rows' else r :: unique_rows (r :: have) rows'
  end.

Definition str_less (x y : string) : bool := negb (String.leb y x).

Definition basis_less (a b : BasisRow) : bool :=
  let text r := BCandidateGrade r +:+ BCandidateRule r +:+ BHolderGrade r +:+ BHolderRule r in
  if negb (gradeWeight (BGrade a) =? gradeWeight (BGrade b))%nat then (gradeWeight (BGrade b) <? gradeWeight (BGrade a))%nat
  else if negb (bool_decide (BHolder a = BHolder b)) then str_less (BHolder a) (BHolder b)
  else if negb (bool_decide (BRepository a = BRepository b)) then str_less (BRepository a) (BRepository b)
  else if negb (bool_decide (BPath a = BPath b)) then str_less (BPath a) (BPath b)
  else str_less (text a) (text b).

(** [sort.SliceStable] by a less function. *)
Section sort_less.
Context {A : Type} (less : A → A → bool).

Fixpoint less_insert (x : A) (l : list A) : list A :=
  match l with
  | [] => [x]
  | y :: l' => if less y x then y :: less_insert x l' else x :: y :: l'
  end.

Fixpoint sort_less (l : list A) : list A := match l with [] => [] | x :: l' => less_insert x (sort_less l') end.
End sort_less.

Definition rule_of (c : OverlapCounts) : string :=
  if (0 <? OExclusive c)%nat then RuleDefer else if (0 <? OLocal c)%nat then RuleLocalOptimistic
  else if (0 <? OMechanical c)%nat then RuleMechanical else RuleIndependent.

Definition judgeRelease (items : list observedConflict) (candidate : holder) (holders : list holder) : ReleaseJudgement :=
  let judged := judge_holder items candidate <$> holders in
  let counts := foldl (λ c w, add_counts c (count_grade w)) (mkOverlapCounts 0 0 0) judged.*1 in
  let unique := sort_less basis_less (unique_rows [] (concat judged.*2)) in
  mkJudgement (rule_of counts) counts (take MaxBasisRows unique) (length unique - MaxBasisRows) false "".

Definition applyPolicy (j : ReleaseJudgement) (policy : option OptimismState) : ReleaseJudgement :=
  match policy with
  | Some p =>
    if OptOn p || negb (bool_decide (JRule j = RuleLocalOptimistic)) then j
    else mkJudgement RuleDefer (JOverlaps j) (JBasis j) (JOmitted j) true (OptReason p)
  | None => j
  end.

(** ** narrowing.go *)
Definition wholeRepository (r : Region) : bool := Exclusive r.

Definition footprintKind (r : Region) : string := if bool_decide (Kind r = "symbol") && wholeFile r then "file" else Kind r.

Definition holdCovers (held next : Region) : bool :=
  if negb (bool_decide (Repository held = Repository next)) then false
  else if wholeRepository held then true
  else if wholeRepository next then false
  else
    let hp := Clean (Path held) in
    let np := Clean (Path next) in
    let hk := footprintKind held in
    let nk := footprintKind next in
    if bool_decide (hk = "tree") then inside np hp
    else if bool_decide (hk = "file") then bool_decide (np = hp) && negb (bool_decide (nk = "tree"))
    else if bool_decide (hk = "symbol") then bool_decide (np = hp) && bool_decide (nk = "symbol") && bool_decide (Key next = Key held)
    else false.

Definition holdWeight (r : Region) : nat * string :=
  let '(grade, rule) := foldedGrade r in
  if bool_decide (grade = GradeMechanical) then (1%nat, rule) else if bool_decide (grade = GradeLocal) then (2%nat, "") else (3%nat, "").

(** Why a declaration is not a narrowing: what the sentence of the refusal names. *)
Inductive Widening : Type :=
| LessStrict (next held : Region)
| OtherRule (next held : Region)
| NotInside (next : Region)
| LowersInside (enclosing held : Region).

(** The first loop, for one region of the new declaration, over the held regions that cover it. *)
Fixpoint check_inside (n : Region) (covered : bool) (held : list Region) : option Widening :=
  match held with
  | [] => if covered then None else Some (NotInside n)
  | h :: held' =>
    if negb (holdCovers h n) then check_inside n covered held'
    else
      let '(nw, nrule) := holdWeight n in
      let '(hw, hrule) := holdWeight h in
      if (nw <? hw)%nat then Some (LessStrict n h)
      else if (nw =? 1)%nat && (hw =? 1)%nat && negb (bool_decide (nrule = hrule)) then Some (OtherRule n h)
      else check_inside n true held'
  end.

Definition at_least (next held : Region) : bool :=
  let '(nw, nrule) := holdWeight next in
  let '(hw, hrule) := holdWeight held in
  (hw <? nw)%nat || ((nw =? hw)%nat && (negb (hw =? 1)%nat || bool_decide (nrule = hrule))).

(** The second loop, for one held region. *)
Definition check_kept (next : list Region) (h : Region) : option Widening :=
  let covering := filter (λ n, holdCovers n h = true) next in
  match covering with
  | [] => None
  | enclosing :: _ => if existsb (λ n, at_least n h) covering then None else Some (LowersInside enclosing h)
  end.

Fixpoint first_some {A B} (f : A → option B) (l : list A) : option B :=
  match l with [] => None | x :: l' => match f x with Some b => Some b | None => first_some f l' end end.

Definition widening (held next : list Region) : option Widening :=
  match first_some (λ n, check_inside n false held) next with
  | Some w => Some w
  | None => first_some (check_kept next) held
  end.
