(* ===== verification/SchedRegionsProps.v ===== *)
(** * SchedRegionsProps: what an overlap is, what the release rule says, and what a narrowing may do. *)
From S2P Require Import Prelude GoLib Sha256 Json Loads Utf8 GoPath SchedPolicy SchedRegions.
Local Open Scope string_scope.

(** ** Places *)

(** The elements of the path of a region. *)
Definition place (r : Region) : list string := split_on slash (Clean (Path r)).

Lemma inside_iff p dir : inside p dir = true ↔ split_on slash dir `prefix_of` split_on slash p.
Proof. unfold inside. rewrite orb_true_iff, bool_decide_eq_true. apply within_prefix. Qed.

Lemma place_inj r1 r2 : place r1 = place r2 ↔ Clean (Path r1) = Clean (Path r2).
Proof. unfold place. split; [|by intros ->]. intros H. by rewrite <- (join_split (Clean (Path r1))), H, join_split. Qed.

Definition tree (r : Region) : Prop := Kind r = "tree".

(** Two symbols of one file that are two places. *)
Definition apart (a b : Region) : Prop := Kind a = "symbol" ∧ Kind b = "symbol" ∧ Key a ≠ Key b ∧ wholeFile a = false ∧ wholeFile b = false.

(** What it is for two regions of one repository to share a place. *)
Definition shares (a b : Region) : Prop :=
  (tree a ∧ place a `prefix_of` place b) ∨ (tree b ∧ place b `prefix_of` place a) ∨ (place a = place b ∧ ¬ apart a b).

Lemma commonPlace_iff a b : commonPlace a b ≠ None ↔ shares a b.
Proof.
  unfold commonPlace, shares, tree. rewrite place_inj. unfold place. rewrite <- !inside_iff.
  destruct (bool_decide_reflect (Kind a = "tree")) as [Ta|Ta]; cbn [andb].
  - destruct (inside (Clean (Path b)) (Clean (Path a))) eqn:Ia; [naive_solver|].
    destruct (bool_decide_reflect (Kind b = "tree")) as [Tb|Tb]; cbn [andb].
    + destruct (inside (Clean (Path a)) (Clean (Path b))) eqn:Ib; [naive_solver|]. destruct (bool_decide_reflect (Clean (Path a) = Clean (Path b))) as [E|E]; [|naive_solver].
      rewrite E in Ia. unfold inside in Ia. by rewrite bool_decide_eq_true_2 in Ia.
    + destruct (bool_decide_reflect (Clean (Path a) = Clean (Path b))) as [E|E]; [|naive_solver].
      rewrite E in Ia. unfold inside in Ia. by rewrite bool_decide_eq_true_2 in Ia.
  - destruct (bool_decide_reflect (Kind b = "tree")) as [Tb|Tb]; cbn [andb].
    + destruct (inside (Clean (Path a)) (Clean (Path b))) eqn:Ib; [naive_solver|]. destruct (bool_decide_reflect (Clean (Path a) = Clean (Path b))) as [E|E]; [|naive_solver].
      rewrite E in Ib. unfold inside in Ib. by rewrite bool_decide_eq_true_2 in Ib.
    + destruct (bool_decide_reflect (Clean (Path a) = Clean (Path b))) as [E|E]; [|naive_solver]. cbn [negb]. unfold apart.
      match goal with |- context [if ?c then None else _] => assert (c = true ↔ Kind a = "symbol" ∧ Kind b = "symbol" ∧ Key a ≠ Key b ∧ wholeFile a = false ∧ wholeFile b = false) as Hc
        by (rewrite !andb_true_iff, !negb_true_iff, !bool_decide_eq_true, bool_decide_eq_false; tauto); destruct c end.
      * split; [done|]. intros [[Ht _]|[[Ht _]|[_ Hn]]]; [done..|]. destruct Hn. by apply Hc.
      * split; [|done]. intros _. right; right. split; [done|]. rewrite <- Hc. done.
Qed.

Lemma Overlaps_iff a b : Overlaps a b = true ↔ Repository a = Repository b ∧ (Exclusive a = true ∨ Exclusive b = true ∨ shares a b).
Proof.
  unfold Overlaps. rewrite <- commonPlace_iff. destruct (bool_decide_reflect (Repository a = Repository b)); cbn [negb]; [|naive_solver].
  destruct (Exclusive a), (Exclusive b); cbn [orb]; [tauto..|]. rewrite bool_decide_eq_true. split; [auto|]. intros [_ [[=]|[[=]|H]]]. done.
Qed.

Lemma PairGrade_overlaps a b : PairGrade a b ≠ "" ↔ Overlaps a b = true.
Proof.
  unfold PairGrade, Overlaps. destruct (bool_decide_reflect (Repository a = Repository b)); cbn [negb]; [|naive_solver]. destruct (Exclusive a || Exclusive b); [naive_solver|].
  rewrite bool_decide_eq_true. destruct (commonPlace a b) as [[p t]|]; [|naive_solver]. split; [done|]. intros _. destruct (if t then _ else _); [done|].
  unfold side_grade. destruct (foldedGrade a), (foldedGrade b). repeat case_match; done.
Qed.

(** ** The order of the sides does not matter *)
Lemma apart_sym a b : apart a b → apart b a.
Proof. unfold apart. naive_solver. Qed.

Lemma side_grade_sym a b : side_grade a b = side_grade b a.
Proof.
  unfold side_grade. destruct (foldedGrade a) as [ga ra], (foldedGrade b) as [gb rb]. rewrite (orb_comm (bool_decide (gb = GradeExclusive))), (orb_comm (bool_decide (gb = GradeIndependent))).
  destruct (_ || _); [done|]. destruct (_ || _); [done|]. rewrite (andb_comm (bool_decide (gb = _))). rewrite (bool_decide_ext (ra = rb) (rb = ra)) by done. done.
Qed.

Lemma inside_antisym p q : inside p q = true → inside q p = true → p = q.
Proof.
  rewrite !inside_iff. intros H1 H2. rewrite <- (join_split p), <- (join_split q). f_equal. by apply (anti_symm prefix).
Qed.

Lemma commonPlace_sym a b : commonPlace a b = commonPlace b a.
Proof.
  unfold commonPlace. destruct (bool_decide (Kind a = "tree") && inside (Clean (Path b)) (Clean (Path a))) eqn:E1, (bool_decide (Kind b = "tree") && inside (Clean (Path a)) (Clean (Path b))) eqn:E2;
    [|done|done|].
  - apply andb_true_iff in E1 as [T1 I1], E2 as [T2 I2]. by rewrite T1, T2, (inside_antisym _ _ I1 I2).
  - rewrite (bool_decide_ext (Clean (Path b) = Clean (Path a)) (Clean (Path a) = Clean (Path b))) by done.
    destruct (bool_decide_reflect (Clean (Path a) = Clean (Path b))) as [E|]; [|done]. cbn [negb]. rewrite E, (andb_comm (bool_decide (Kind b = "symbol"))).
    rewrite (bool_decide_ext (Key b = Key a) (Key a = Key b)) by done. rewrite <- !andb_assoc, (andb_comm (negb (wholeFile b))). done.
Qed.

Lemma PairGrade_sym a b : PairGrade a b = PairGrade b a.
Proof.
  unfold PairGrade. rewrite (bool_decide_ext (Repository b = Repository a) (Repository a = Repository b)) by done.
  rewrite (orb_comm (Exclusive b)), (commonPlace_sym b a), (side_grade_sym b a). done.
Qed.

(** ** A region that covers another overlaps what it overlaps *)
Lemma footprint_tree r : footprintKind r = "tree" ↔ tree r.
Proof. unfold footprintKind, tree. destruct (bool_decide_reflect (Kind r = "symbol")) as [->|]; cbn [andb]; [|done]. destruct (wholeFile r); done. Qed.

Lemma footprint_symbol r : footprintKind r = "symbol" ↔ Kind r = "symbol" ∧ wholeFile r = false.
Proof. unfold footprintKind. destruct (bool_decide_reflect (Kind r = "symbol")) as [->|]; cbn [andb]; [|naive_solver]. destruct (wholeFile r); naive_solver. Qed.

Lemma footprint_file r : footprintKind r = "file" ↔ Kind r = "file" ∨ Kind r = "symbol" ∧ wholeFile r = true.
Proof. unfold footprintKind. destruct (bool_decide_reflect (Kind r = "symbol")) as [->|]; cbn [andb]; [|naive_solver]. destruct (wholeFile r); naive_solver. Qed.

(** How the place of [n] lies inside that of [h]. *)
Definition enclosed (h n : Region) : Prop :=
  (tree h ∧ place h `prefix_of` place n) ∨
  (footprintKind h = "file" ∧ place n = place h ∧ ¬ tree n) ∨
  (footprintKind h = "symbol" ∧ place n = place h ∧ footprintKind n = "symbol" ∧ Key n = Key h).

Lemma holdCovers_iff h n : holdCovers h n = true ↔ Repository h = Repository n ∧ (Exclusive h = true ∨ Exclusive n = false ∧ enclosed h n).
Proof.
  unfold holdCovers, wholeRepository, enclosed. destruct (bool_decide_reflect (Repository h = Repository n)); cbn [negb]; [|naive_solver]. destruct (Exclusive h); [naive_solver|].
  destruct (Exclusive n); [naive_solver|]. rewrite <- footprint_tree, <- (footprint_tree n), place_inj. unfold place. rewrite <- inside_iff.
  destruct (bool_decide_reflect (footprintKind h = "tree")) as [->|]; [naive_solver|].
  destruct (bool_decide_reflect (footprintKind h = "file")) as [->|]; [rewrite andb_true_iff, negb_true_iff, bool_decide_eq_true, bool_decide_eq_false; naive_solver|].
  destruct (bool_decide_reflect (footprintKind h = "symbol")) as [->|]; [rewrite !andb_true_iff, !bool_decide_eq_true; naive_solver|naive_solver].
Qed.

Lemma enclosed_shares h n b : enclosed h n → shares n b → shares h b.
Proof.
  unfold enclosed, shares. intros [[Th Hp]|[(Fh & E & Tn)|(Fh & E & Fn & Ek)]] [[Tn' Hn]|[[Tb Hb]|[Eb Ha]]].
  - left. split; [done|]. by etrans.
  - destruct (prefix_weak_total _ _ _ Hp Hb); [by left|by right; left].
  - left. rewrite <- Eb. done.
  - done.
  - right; left. by rewrite <- E.
  - right; right. split; [congruence|]. intros (Kh & _ & _ & Wh & _). apply footprint_file in Fh as [Fh|[_ Fh]]; congruence.
  - apply footprint_symbol in Fn as [Fn _]. unfold tree in Tn'. congruence.
  - right; left. by rewrite <- E.
  - right; right. split; [congruence|]. intros (Kh & Kb & Nk & Wh & Wb). apply Ha. apply footprint_symbol in Fn as [Fn1 Fn2]. split_and!; congruence.
Qed.

Lemma holdCovers_overlaps h n b : holdCovers h n = true → Overlaps n b = true → Overlaps h b = true.
Proof.
  rewrite holdCovers_iff, !Overlaps_iff. intros [Er H] [Eb Hb]. split; [congruence|]. destruct H as [He|[Hn H]]; [by left|]. destruct Hb as [Hb|[Hb|Hb]]; [congruence|by right; left|].
  right; right. by eapply enclosed_shares.
Qed.

(** ** A region held as strictly grades its overlaps as high *)
Lemma weight_le_3 g : (gradeWeight g ≤ 3)%nat.
Proof. unfold gradeWeight. repeat case_match; lia. Qed.

(** A region as DeclareRegions stores it: a clean path and one of the four grades. *)
Record stored (r : Region) : Prop := mkStored {
  st_clean : Clean (Path r) = Path r;
  st_grade : Grade r ∈ [GradeIndependent; GradeMechanical; GradeLocal; GradeExclusive]
}.

(** The grade a stored region is judged at, and its weight. *)
Lemma stored_grade r : stored r →
  (∃ rule, foldedGrade r = (GradeMechanical, rule) ∧ holdWeight r = (1%nat, rule)) ∨
  (∃ rule, foldedGrade r = (GradeLocal, rule) ∧ holdWeight r = (2%nat, "")) ∨
  (∃ g rule, foldedGrade r = (g, rule) ∧ (g = GradeIndependent ∨ g = GradeExclusive) ∧ holdWeight r = (3%nat, "")).
Proof.
  intros [_ Hg]. unfold holdWeight, foldedGrade. destruct (_ || _); [right; right; by eexists _, _; split_and!; [|right|]|].
  rewrite !elem_of_cons, elem_of_nil in Hg. destruct Hg as [->|[->|[->|[->|[]]]]].
  - right; right. by eexists _, _; split_and!; [|left|].
  - left. by eexists.
  - right; left. by eexists.
  - right; right. by eexists _, _; split_and!; [|right|].
Qed.

Lemma side_weight a b : stored a → stored b → gradeWeight (side_grade a b) =
  if (fst (holdWeight a) =? 3)%nat || (fst (holdWeight b) =? 3)%nat then 3%nat
  else if (fst (holdWeight a) =? 1)%nat && (fst (holdWeight b) =? 1)%nat && bool_decide (snd (holdWeight a) = snd (holdWeight b)) then 1%nat else 2%nat.
Proof.
  intros Ha%stored_grade Hb%stored_grade. unfold side_grade.
  destruct Ha as [(ra & -> & ->)|[(ra & -> & ->)|(ga & ra & -> & [->| ->] & ->)]], Hb as [(rb & -> & ->)|[(rb & -> & ->)|(gb & rb & -> & [->| ->] & ->)]]; try reflexivity.
  cbn [fst snd]. destruct (bool_decide (ra = rb)); reflexivity.
Qed.

Lemma at_least_side n h b : stored n → stored h → stored b → at_least n h = true → (gradeWeight (side_grade h b) ≤ gradeWeight (side_grade n b))%nat.
Proof.
  intros Hn Hh Hb. rewrite !side_weight by done. unfold at_least. pose proof (stored_grade n Hn) as Wn. pose proof (stored_grade h Hh) as Wh.
  assert (∀ r, stored r → fst (holdWeight r) = 1%nat ∨ fst (holdWeight r) = 2%nat ∨ fst (holdWeight r) = 3%nat) as Hw
    by (intros r [(x & _ & ->)|[(x & _ & ->)|(x & y & _ & _ & ->)]]%stored_grade; auto).
  pose proof (Hw n Hn) as Kn. pose proof (Hw h Hh) as Kh. pose proof (Hw b Hb) as Kb. clear Hw Wn Wh.
  destruct (holdWeight n) as [wn rn], (holdWeight h) as [wh rh], (holdWeight b) as [wb rb]. cbn [fst snd] in *.
  destruct Kn as [->|[->| ->]], Kh as [->|[->| ->]], Kb as [->|[->| ->]]; cbn; try done; try lia; rewrite ?orb_false_r, ?bool_decide_eq_true; try (by intros ->);
    intros _; destruct (bool_decide _); lia.
Qed.

(** A directory region whose place is judged a shared surface although the region is not folded to exclusive: a bare testdata directory. *)
Definition bare_testdata (r : Region) : Prop := tree r ∧ Base (Clean (Path r)) = "testdata" ∧ EffectiveGrade r ≠ GradeExclusive.

Lemma shared_folded r : SharedSurface (Path r) = true → fst (foldedGrade r) = GradeExclusive.
Proof. intros H. unfold foldedGrade. by rewrite H, orb_true_r. Qed.

Lemma side_exclusive a b : fst (foldedGrade a) = GradeExclusive ∨ fst (foldedGrade b) = GradeExclusive → side_grade a b = GradeExclusive.
Proof.
  unfold side_grade. destruct (foldedGrade a), (foldedGrade b). cbn [fst]. intros [->| ->]; [by rewrite bool_decide_eq_true_2|].
  by rewrite (bool_decide_eq_true_2 (GradeExclusive = GradeExclusive)), orb_true_r.
Qed.

(** The place two trees share, and when it is judged as a whole. *)
Lemma tree_place_shared h b p t : stored h → stored b → commonPlace h b = Some (p, t) → (if t then holdsSharedSurface p else SharedSurface p) = true →
  side_grade h b = GradeExclusive ∨
  (tree h ∧ tree b ∧ place h `prefix_of` place b ∧ holdsSharedSurface (Path b) = true) ∨
  (tree h ∧ tree b ∧ place b `prefix_of` place h ∧ holdsSharedSurface (Path h) = true).
Proof.
  intros [Ch _] [Cb _]. unfold commonPlace, tree. unfold place. rewrite <- !inside_iff, Ch, Cb.
  destruct (bool_decide_reflect (Kind h = "tree")) as [Th|Th], (bool_decide_reflect (Kind b = "tree")) as [Tb|Tb]; cbn [andb]; intros H Hs.
  - destruct (inside (Path b) (Path h)) eqn:I1; [injection H as <- <-; right; left; done|]. destruct (inside (Path h) (Path b)) eqn:I2; [injection H as <- <-; right; right; done|].
    destruct (bool_decide_reflect (Path h = Path b)) as [E|]; [|done]. rewrite E in I1. unfold inside in I1. by rewrite bool_decide_eq_true_2 in I1.
  - repeat case_match; simplify_eq; cbn in *; left; apply side_exclusive; auto using shared_folded.
  - repeat case_match; simplify_eq; cbn in *; left; apply side_exclusive; auto using shared_folded.
  - repeat case_match; simplify_eq; cbn in *; left; apply side_exclusive; auto using shared_folded.
Qed.

Lemma holds_cases p : Clean p = p → holdsSharedSurface p = true →
  SharedSurface p = true ∨ Base p = "testdata" ∨ ∃ l, l ∈ (sharedTrees ++ sharedFiles)%list ∧ split_on slash p `prefix_of` split_on slash l.
Proof.
  unfold holdsSharedSurface. intros ->. rewrite !orb_true_iff, bool_decide_eq_true, existsb_exists. intros [[H|H]|(l & H1 & H2)]; [auto..|].
  right; right. exists l. split; [by apply list_elem_of_In|by apply inside_iff].
Qed.

Lemma holds_listed p l : Clean p = p → l ∈ (sharedTrees ++ sharedFiles)%list → split_on slash p `prefix_of` split_on slash l → holdsSharedSurface p = true.
Proof.
  unfold holdsSharedSurface. intros -> Hl Hp. rewrite !orb_true_iff, existsb_exists. right. exists l. split; [by apply list_elem_of_In|by apply inside_iff].
Qed.

Lemma PairGrade_place a b p t : Repository a = Repository b → Exclusive a = false → Exclusive b = false → commonPlace a b = Some (p, t) →
  PairGrade a b = if (if t then holdsSharedSurface p else SharedSurface p) then GradeExclusive else side_grade a b.
Proof. intros Hr Ha Hb Hc. unfold PairGrade. by rewrite bool_decide_eq_true_2, Ha, Hb, Hc by done. Qed.

(** Two trees, one above the other, are judged on the lower one. *)
Lemma tree_pair n b : Repository n = Repository b → Exclusive n = false → Exclusive b = false → tree n → tree b → stored n → stored b →
  place n `prefix_of` place b → holdsSharedSurface (Path b) = true → PairGrade n b = GradeExclusive.
Proof.
  intros Hr En Eb Tn Tb [Cn _] [Cb _] Hp Hs. unfold tree in *. rewrite (PairGrade_place n b (Path b) true) by (try done;
    unfold commonPlace; rewrite Tn, Tb, (proj2 (inside_iff (Clean (Path b)) (Clean (Path n))) Hp); cbn; by rewrite Cb). cbn. by rewrite Hs.
Qed.

Lemma at_least_pair n h b : stored n → stored h → stored b → ¬ bare_testdata h → holdCovers n h = true → at_least n h = true →
  (gradeWeight (PairGrade h b) ≤ gradeWeight (PairGrade n b))%nat.
Proof.
  intros Sn Sh Sb Nt Hc Hat. pose proof (weight_le_3 (PairGrade h b)) as H3. destruct (decide (PairGrade h b = "")) as [->|Ho]; [change (gradeWeight "") with 0%nat; lia|].
  apply PairGrade_overlaps in Ho. pose proof (holdCovers_overlaps _ _ _ Hc Ho) as Ho'. apply holdCovers_iff in Hc as [Er Hc].
  apply Overlaps_iff in Ho as [Er' Ho], Ho' as [Er'' Ho'].
  assert (∀ e, PairGrade n b = e → e = GradeExclusive → (gradeWeight (PairGrade h b) ≤ gradeWeight (PairGrade n b))%nat) as Htop by (intros e <- ->; exact H3).
  destruct Hc as [En|[Eh Hc]]; [apply (Htop GradeExclusive); [unfold PairGrade; by rewrite bool_decide_eq_true_2, En by done|done]|].
  destruct (Exclusive n) eqn:En; [apply (Htop GradeExclusive); [unfold PairGrade; by rewrite bool_decide_eq_true_2, En by done|done]|].
  destruct (Exclusive b) eqn:Eb; [apply (Htop GradeExclusive); [unfold PairGrade; by rewrite bool_decide_eq_true_2, Eb, orb_true_r by done|done]|].
  destruct Ho as [|[|Ho]]; [congruence..|]. destruct Ho' as [|[|Ho']]; [congruence..|]. apply commonPlace_iff in Ho, Ho'.
  destruct (commonPlace h b) as [[p t]|] eqn:Ep; [|done]. destruct (commonPlace n b) as [[p' t']|] eqn:Ep'; [|done].
  pose proof (at_least_side n h b Sn Sh Sb Hat) as Hside. rewrite (PairGrade_place h b p t), (PairGrade_place n b p' t') by done.
  destruct (if t' then _ else _) eqn:Es'; [destruct (if t then _ else _); [done|apply weight_le_3]|]. destruct (if t then _ else _) eqn:Es; [|done].
  destruct (tree_place_shared h b p t Sh Sb Ep Es) as [Hx|[(Th & Tb & Hp & Hs)|(Th & Tb & Hp & Hs)]]; [by rewrite <- Hx| |].
  all: assert (tree n ∧ place n `prefix_of` place h) as [Tn Hn] by (destruct Hc as [Hc|[(_ & _ & Hc)|(_ & _ & Hc & _)]]; [done|by destruct Hc|];
    apply footprint_symbol in Hc as [Hc _]; unfold tree in Th; congruence).
  - assert (PairGrade n b = GradeExclusive) as Hx by (apply tree_pair; try done; by etrans). rewrite (PairGrade_place n b p' t'), Es' in Hx by done. by rewrite Hx.
  - apply holds_cases in Hs as [Hs|[Hs|(l & Hl & Hpl)]]; [..|apply Sh].
    + by rewrite <- (side_exclusive h b) by (left; by apply shared_folded).
    + destruct (decide (EffectiveGrade h = GradeExclusive)) as [Hx|Hx]; [by rewrite <- (side_exclusive h b) by (by left)|].
      destruct Nt. split_and!; [done| |done]. by rewrite (st_clean _ Sh).
    + assert (PairGrade n b = GradeExclusive) as Hx.
      { assert (place h `prefix_of` split_on slash l) as Hpl' by (unfold place; by rewrite (st_clean _ Sh)). destruct (prefix_weak_total _ _ _ Hn Hp) as [Hnb|Hbn].
        - apply tree_pair; try done. apply (holds_listed _ l); [apply Sb|done|]. rewrite <- (st_clean _ Sb). fold (place b). by etrans.
        - rewrite PairGrade_sym. apply tree_pair; try done. apply (holds_listed _ l); [apply Sn|done|]. rewrite <- (st_clean _ Sn). fold (place n). by etrans. }
      rewrite (PairGrade_place n b p' t'), Es' in Hx by done. by rewrite Hx.
Qed.

(** ** Narrowing *)
Lemma first_some_None {A B} (f : A → option B) l : first_some f l = None ↔ ∀ x, x ∈ l → f x = None.
Proof.
  induction l as [|x l IH]; cbn [first_some]; [split; [intros _ x H; by apply elem_of_nil in H|done]|]. setoid_rewrite elem_of_cons.
  destruct (f x) eqn:E; [split; [done|intros H; rewrite H in E by (by left); done]|]. rewrite IH. naive_solver.
Qed.

Lemma check_inside_None n covered held : check_inside n covered held = None → covered = true ∨ ∃ h, h ∈ held ∧ holdCovers h n = true.
Proof.
  revert covered. induction held as [|h held IH]; intros covered; cbn [check_inside]; [destruct covered; [by left|done]|].
  destruct (holdCovers h n) eqn:E; cbn [negb].
  - intros _. right. exists h. split; [by left|done].
  - intros H. apply IH in H as [H|(h' & H1 & H2)]; [by left|right]. exists h'. split; [by right|done].
Qed.

Lemma check_kept_None next h n : check_kept next h = None → n ∈ next → holdCovers n h = true → ∃ n', n' ∈ next ∧ holdCovers n' h = true ∧ at_least n' h = true.
Proof.
  unfold check_kept. intros H Hn Hc. assert (n ∈ filter (λ n, holdCovers n h = true) next) as Hin by (by apply list_elem_of_filter).
  destruct (filter _ next) as [|e l] eqn:E; [by apply elem_of_nil in Hin|]. destruct (existsb _ _) eqn:Ex; [|done].
  apply existsb_exists in Ex as (n' & Hn' & Ha). apply list_elem_of_In in Hn'. rewrite <- E in Hn'. apply list_elem_of_filter in Hn' as [Hc' Hin']. by exists n'.
Qed.

(** A narrowing frees places and takes none. When [widening] finds nothing against a declaration that replaces a held one, every region
    that overlaps the new declaration overlapped the held one; and a held region that the new declaration still covers stays as strictly
    held: the overlap of any other region with it is graded no lower against the new declaration. The one exception is a bare testdata directory. *)
Theorem widening_narrows held next : Forall stored held → Forall stored next → widening held next = None →
  (∀ n b, n ∈ next → Overlaps n b = true → ∃ h, h ∈ held ∧ Overlaps h b = true) ∧
  (∀ h n b, h ∈ held → n ∈ next → holdCovers n h = true → ¬ bare_testdata h → stored b →
    ∃ n', n' ∈ next ∧ (gradeWeight (PairGrade h b) ≤ gradeWeight (PairGrade n' b))%nat).
Proof.
  intros Sh Sn Hw. rewrite Forall_forall in Sh. rewrite Forall_forall in Sn. unfold widening in Hw.
  destruct (first_some _ next) eqn:E1; [done|]. rewrite first_some_None in E1. rewrite first_some_None in Hw. split.
  - intros n b Hn Ho. destruct (check_inside_None n false held (E1 n Hn)) as [[=]|(h & Hh & Hc)]. exists h. split; [done|]. by eapply holdCovers_overlaps.
  - intros h n b Hh Hn Hc Hb Sb. destruct (check_kept_None next h n (Hw h Hh) Hn Hc) as (n' & Hn' & Hc' & Ha). exists n'. split; [done|].
    apply at_least_pair; auto.
Qed.

(** ** The exception is real *)
Module NarrowExample.
Definition local_tree (p : string) : Region := mkRegion "acme/app" p "tree" "" "edit" false GradeLocal "".
Definition held : list Region := [local_tree "pkg"; local_tree "pkg/testdata"].
Definition next : list Region := [local_tree "pkg"].
Definition other : Region := local_tree "pkg".
Definition symbol (key : string) : Region := mkRegion "acme/app" "pkg/a.go" "symbol" key "edit" false GradeExclusive "".

Lemma held_stored : Forall stored held.
Proof. repeat constructor; vm_compute; reflexivity || (repeat (apply list_elem_of_here || apply list_elem_of_further)). Qed.

Lemma next_stored : Forall stored next.
Proof. repeat constructor; vm_compute; reflexivity || (repeat (apply list_elem_of_here || apply list_elem_of_further)). Qed.
End NarrowExample.

(** A declaration [widening] accepts as a narrowing can hold a kept place less strictly. A node that holds a directory and its testdata directory, both
    local, may declare the directory alone; the other node that takes the directory was graded exclusive against the held declaration, and is
    graded local against the new one. *)
Theorem widening_testdata :
  widening NarrowExample.held NarrowExample.next = None ∧
  (∃ h, h ∈ NarrowExample.held ∧ (∃ n, n ∈ NarrowExample.next ∧ holdCovers n h = true) ∧ PairGrade h NarrowExample.other = GradeExclusive) ∧
  (∀ n, n ∈ NarrowExample.next → PairGrade n NarrowExample.other = GradeLocal).
Proof.
  split_and!; [vm_compute; reflexivity| |].
  - exists (NarrowExample.local_tree "pkg/testdata"). split_and!; [right; left| |vm_compute; reflexivity].
    exists (NarrowExample.local_tree "pkg"). split; [left|vm_compute; reflexivity].
  - intros n ->%list_elem_of_singleton. vm_compute. reflexivity.
Qed.

Lemma widening_narrows_witness :
  ∃ h, h ∈ NarrowExample.held ∧ Overlaps h (NarrowExample.symbol "F") = true.
Proof.
  refine (proj1 (widening_narrows NarrowExample.held NarrowExample.next NarrowExample.held_stored NarrowExample.next_stored _) (NarrowExample.local_tree "pkg") _ _ _);
    [vm_compute; reflexivity|left|vm_compute; reflexivity].
Defined.

(** ** The release rule *)

(** The overlaps of a declared candidate with the declared holders. *)
Definition overlap (candidate : holder) (holders : list holder) (grade : string) : Prop :=
  ∃ h a b, h ∈ holders ∧ HUnknown candidate = false ∧ HUnknown h = false ∧ a ∈ HRegions candidate ∧ b ∈ HRegions h ∧ PairGrade a b = grade.

Lemma PairGrade_grades a b : PairGrade a b ∈ [""; GradeMechanical; GradeLocal; GradeExclusive].
Proof.
  unfold PairGrade, side_grade. destruct (foldedGrade a), (foldedGrade b).
  repeat match goal with |- context [if ?c then _ else _] => destruct c | |- context [match ?c with Some _ => _ | None => _ end] => destruct c as [[? ?]|] end;
    repeat (apply list_elem_of_here || apply list_elem_of_further).
Qed.

Lemma worse_grade a b : a ∈ [""; GradeMechanical; GradeLocal; GradeExclusive] → b ∈ [""; GradeMechanical; GradeLocal; GradeExclusive] →
  worse a b ∈ [""; GradeMechanical; GradeLocal; GradeExclusive] ∧ gradeWeight (worse a b) = Nat.max (gradeWeight a) (gradeWeight b).
Proof. intros Ha Hb. unfold worse. destruct (Nat.ltb_spec (gradeWeight a) (gradeWeight b)); split; try done; lia. Qed.

Definition pair_weight (ab : Region * Region) : nat := gradeWeight (PairGrade (fst ab) (snd ab)).

Lemma worst_of_weight pairs : worst_of pairs ∈ [""; GradeMechanical; GradeLocal; GradeExclusive] ∧ gradeWeight (worst_of pairs) = max_list (pair_weight <$> pairs).
Proof.
  unfold worst_of. assert ("" ∈ [""; GradeMechanical; GradeLocal; GradeExclusive]) as H0 by (apply list_elem_of_here).
  assert (∀ w, w ∈ [""; GradeMechanical; GradeLocal; GradeExclusive] → foldl worse_pair w pairs ∈ [""; GradeMechanical; GradeLocal; GradeExclusive] ∧ gradeWeight (foldl worse_pair w pairs) = Nat.max (gradeWeight w) (max_list (pair_weight <$> pairs))) as Hg.
  { induction pairs as [|[a b] pairs IH]; intros w Hw; [split; [done|cbn; lia]|]. cbn [foldl]. rewrite fmap_cons.
    change (max_list (pair_weight (a, b) :: (pair_weight <$> pairs))) with (Nat.max (gradeWeight (PairGrade a b)) (max_list (pair_weight <$> pairs))).
    assert (worse_pair w (a, b) = if bool_decide (PairGrade a b = "") then w else worse w (PairGrade a b)) as -> by done. pose proof (PairGrade_grades a b) as Hp. case_bool_decide as E.
    - destruct (IH w Hw) as [H1 H2]. split; [done|]. rewrite H2, E. change (gradeWeight "") with 0%nat. lia.
    - destruct (worse_grade w (PairGrade a b) Hw Hp) as [W1 W2]. destruct (IH _ W1) as [H1 H2]. split; [done|]. rewrite H2, W2. lia. }
  destruct (Hg "" H0) as [H1 H2]. split; [done|]. rewrite H2. done.
Qed.

Lemma weight_inj a b : a ∈ [""; GradeMechanical; GradeLocal; GradeExclusive] → b ∈ [""; GradeMechanical; GradeLocal; GradeExclusive] → gradeWeight a = gradeWeight b → a = b.
Proof.
  rewrite !elem_of_cons, !elem_of_nil. intros [->|[->|[->|[->|[]]]]] [->|[->|[->|[->|[]]]]]; try done; vm_compute; discriminate.
Qed.

Lemma max_list_reached l : max_list l = 0%nat ∨ max_list l ∈ l.
Proof.
  induction l as [|x l IH]; [by left|]. change (max_list (x :: l)) with (Nat.max x (max_list l)). rewrite elem_of_cons. destruct (Nat.max_spec x (max_list l)) as [[? ->]|[? ->]]; [|auto].
  destruct IH as [IH|IH]; [lia|auto].
Qed.

Lemma max_list_bound l x : x ∈ l → (x ≤ max_list l)%nat.
Proof.
  induction l as [|y l IH]; [by intros ?%elem_of_nil|]. change (max_list (y :: l)) with (Nat.max y (max_list l)). intros [->|H]%elem_of_cons; [lia|]. apply IH in H. lia.
Qed.

(** A grade is the worst of the pairs when some pair has it and none has a worse one. *)
Lemma worst_of_iff pairs g : g ∈ [GradeMechanical; GradeLocal; GradeExclusive] →
  worst_of pairs = g ↔ (∃ ab, ab ∈ pairs ∧ PairGrade ab.1 ab.2 = g) ∧ ∀ ab, ab ∈ pairs → (pair_weight ab ≤ gradeWeight g)%nat.
Proof.
  intros Hg. destruct (worst_of_weight pairs) as [Hin Hw]. assert (g ∈ [""; GradeMechanical; GradeLocal; GradeExclusive]) as Hg' by (by right).
  assert (0 < gradeWeight g)%nat as Hpos by (revert Hg; rewrite !elem_of_cons, elem_of_nil; intros [->|[->|[->|[]]]]; vm_compute; lia). split.
  - intros E. rewrite E in Hw. split.
    + destruct (max_list_reached (pair_weight <$> pairs)) as [H|H]; [lia|]. rewrite <- Hw in H. apply list_elem_of_fmap in H as (ab & Hab & Hin'). exists ab. split; [done|].
      symmetry. apply weight_inj; [done|apply PairGrade_grades|done].
    + intros ab Hab. rewrite Hw. apply max_list_bound. by apply list_elem_of_fmap_2.
  - intros [(ab & Hab & E) Hmax]. apply weight_inj; [done|done|]. rewrite Hw. apply Nat.le_antisymm.
    + destruct (max_list_reached (pair_weight <$> pairs)) as [->|H]; [lia|]. apply list_elem_of_fmap in H as (cd & -> & Hcd). by apply Hmax.
    + rewrite <- E. apply max_list_bound. apply list_elem_of_fmap. by exists ab.
Qed.

(** ** Counting *)
Definition counts_of (ws : list string) : OverlapCounts := foldl (λ c w, add_counts c (count_grade w)) (mkOverlapCounts 0 0 0) ws.

Lemma count_positive (f : OverlapCounts → nat) g ws : (∀ c d, f (add_counts c d) = (f c + f d)%nat) → f (mkOverlapCounts 0 0 0) = 0%nat →
  (∀ w, (0 < f (count_grade w))%nat ↔ w = g) → (0 < f (counts_of ws))%nat ↔ g ∈ ws.
Proof.
  intros Hadd H0 Hg. unfold counts_of. assert (∀ c, (0 < f (foldl (λ c w, add_counts c (count_grade w)) c ws))%nat ↔ (0 < f c)%nat ∨ g ∈ ws) as H.
  { induction ws as [|w ws IH]; intros c; cbn [foldl]; [rewrite elem_of_nil; tauto|]. rewrite IH, Hadd, elem_of_cons. specialize (Hg w).
    assert ((0 < f c + f (count_grade w))%nat ↔ (0 < f c)%nat ∨ (0 < f (count_grade w))%nat) as -> by lia. rewrite Hg. split; intuition congruence. }
  rewrite H, H0. split; [intros [?|?]; [lia|done]|by right].
Qed.

Lemma counts_exclusive ws : (0 < OExclusive (counts_of ws))%nat ↔ GradeExclusive ∈ ws.
Proof. apply (count_positive OExclusive); [done|done|]. intros w. unfold count_grade. repeat case_bool_decide; subst; cbn; split; (lia || done). Qed.

Lemma counts_local ws : (0 < OLocal (counts_of ws))%nat ↔ GradeLocal ∈ ws.
Proof. apply (count_positive OLocal); [done|done|]. intros w. unfold count_grade. repeat case_bool_decide; subst; cbn; split; (lia || done). Qed.

Lemma counts_mechanical ws : (0 < OMechanical (counts_of ws))%nat ↔ GradeMechanical ∈ ws.
Proof. apply (count_positive OMechanical); [done|done|]. intros w. unfold count_grade. repeat case_bool_decide; subst; cbn; split; (lia || done). Qed.

(** ** The rule is the worst overlap *)
Lemma judge_worst items candidate h : (judge_holder items candidate h).1 =
  if HUnknown candidate || HUnknown h then "" else worst_of (region_pairs candidate h).
Proof. unfold judge_holder. by destruct (HUnknown candidate), (HUnknown h). Qed.

Lemma elem_region_pairs candidate h a b : (a, b) ∈ region_pairs candidate h ↔ a ∈ HRegions candidate ∧ b ∈ HRegions h.
Proof.
  unfold region_pairs. rewrite list_elem_of_bind. setoid_rewrite list_elem_of_bind. setoid_rewrite list_elem_of_singleton. naive_solver.
Qed.

(** Some holder's worst overlap is of grade [g], when no overlap at all is worse. *)
Lemma overlap_worst items candidate holders g : g ∈ [GradeMechanical; GradeLocal; GradeExclusive] →
  (∀ g', overlap candidate holders g' → (gradeWeight g' ≤ gradeWeight g)%nat) →
  g ∈ (judge_holder items candidate <$> holders).*1 ↔ overlap candidate holders g.
Proof.
  intros Hg Hmax. rewrite <- list_fmap_compose, list_elem_of_fmap. assert (g ≠ "") as Hne by (intros ->; revert Hg; apply (bool_decide_unpack (_ ∉ _)); vm_compute; exact I).
  unfold overlap. split.
  - intros (h & E & Hh). cbn [compose] in E. rewrite judge_worst in E. destruct (HUnknown candidate) eqn:Uc, (HUnknown h) eqn:Uh; cbn [orb] in E; try congruence.
    symmetry in E. apply worst_of_iff in E as [([a b] & [Ha Hb]%elem_region_pairs & Eg) _]; [|done]. by exists h, a, b.
  - intros (h & a & b & Hh & Uc & Uh & Ha & Hb & Eg). exists h. split; [|done]. cbn [compose]. rewrite judge_worst, Uc, Uh. cbn [orb]. symmetry. apply worst_of_iff; [done|].
    split; [exists (a, b); by rewrite elem_region_pairs|]. intros [a' b'] [Ha' Hb']%elem_region_pairs. unfold pair_weight. cbn [fst snd]. apply Hmax. by exists h, a', b'.
Qed.

Lemma overlap_grades candidate holders g : overlap candidate holders g → g ∈ [""; GradeMechanical; GradeLocal; GradeExclusive].
Proof. intros (h & a & b & _ & _ & _ & _ & _ & <-). apply PairGrade_grades. Qed.

(** The four cases of the rule. *)
Lemma judge_cases items candidate holders (E := overlap candidate holders GradeExclusive) (L := overlap candidate holders GradeLocal) (M := overlap candidate holders GradeMechanical) :
  let rule := JRule (judgeRelease items candidate holders) in
  E ∧ rule = RuleDefer ∨ ¬ E ∧ L ∧ rule = RuleLocalOptimistic ∨ ¬ E ∧ ¬ L ∧ M ∧ rule = RuleMechanical ∨ ¬ E ∧ ¬ L ∧ ¬ M ∧ rule = RuleIndependent.
Proof.
  assert (∀ g, g ∈ [GradeMechanical; GradeLocal; GradeExclusive] → (∀ g', g' ∈ [""; GradeMechanical; GradeLocal; GradeExclusive] → (gradeWeight g < gradeWeight g')%nat → ¬ overlap candidate holders g') →
    g ∈ (judge_holder items candidate <$> holders).*1 ↔ overlap candidate holders g) as Hw.
  { intros g Hg Hn. apply overlap_worst; [done|]. intros g' Hg'. destruct (Nat.le_gt_cases (gradeWeight g') (gradeWeight g)) as [|Hlt]; [done|].
    by destruct (Hn g' (overlap_grades _ _ _ Hg') Hlt). }
  assert (GradeExclusive ∈ (judge_holder items candidate <$> holders).*1 ↔ E) as HwE.
  { apply (Hw GradeExclusive); [repeat (apply list_elem_of_here || apply list_elem_of_further)|].
    intros g' _ Hlt. pose proof (weight_le_3 g'). change (gradeWeight GradeExclusive) with 3%nat in Hlt. lia. }
  cbn zeta. unfold judgeRelease. cbn [JRule]. fold (counts_of (judge_holder items candidate <$> holders).*1). unfold rule_of.
  destruct (Nat.ltb_spec 0 (OExclusive (counts_of (judge_holder items candidate <$> holders).*1))) as [HE|HE].
  { left. split; [|done]. apply HwE, counts_exclusive, HE. }
  assert (¬ E) as NE by (intros H; apply HwE, counts_exclusive in H; lia).
  assert (GradeLocal ∈ (judge_holder items candidate <$> holders).*1 ↔ L) as HL.
  { apply (Hw GradeLocal); [repeat (apply list_elem_of_here || apply list_elem_of_further)|]. intros g'. rewrite !elem_of_cons, elem_of_nil. intros [->|[->|[->|[->|[]]]]] Hlt;
      try done; vm_compute in Hlt; lia. }
  right. destruct (Nat.ltb_spec 0 (OLocal (counts_of (judge_holder items candidate <$> holders).*1))) as [HL'|HL'].
  { left. rewrite counts_local in HL'. tauto. }
  assert (¬ L) as NL by (intros H; apply HL, counts_local in H; lia).
  assert (GradeMechanical ∈ (judge_holder items candidate <$> holders).*1 ↔ M) as HM.
  { apply (Hw GradeMechanical); [repeat (apply list_elem_of_here || apply list_elem_of_further)|]. intros g'. rewrite !elem_of_cons, elem_of_nil. intros [->|[->|[->|[->|[]]]]] Hlt;
      try done; vm_compute in Hlt; lia. }
  right. destruct (Nat.ltb_spec 0 (OMechanical (counts_of (judge_holder items candidate <$> holders).*1))) as [HM'|HM'].
  - left. rewrite counts_mechanical in HM'. tauto.
  - right. split_and!; [done|done| |done]. intros H. apply HM, counts_mechanical in H. lia.
Qed.

(** The release rule is the worst overlap. Against the nodes that hold regions, a candidate is deferred exactly when some declared region of its own overlaps
    a declared region of a holder exclusively; released optimistically when no overlap is exclusive and one is local; mechanically when
    every overlap is mechanical and there is one; and independently when there is none. The grade of an overlap does not depend on which side is the candidate. *)
Theorem judgeRelease_rule items candidate holders :
  let rule := JRule (judgeRelease items candidate holders) in
  (rule = RuleDefer ↔ overlap candidate holders GradeExclusive) ∧
  (rule = RuleLocalOptimistic ↔ ¬ overlap candidate holders GradeExclusive ∧ overlap candidate holders GradeLocal) ∧
  (rule = RuleMechanical ↔ ¬ overlap candidate holders GradeExclusive ∧ ¬ overlap candidate holders GradeLocal ∧ overlap candidate holders GradeMechanical) ∧
  (rule = RuleIndependent ↔ ∀ g, g ≠ "" → ¬ overlap candidate holders g) ∧
  (∀ a b, PairGrade a b = PairGrade b a).
Proof.
  cbn zeta. pose proof (overlap_grades candidate holders) as Hg.
  destruct (judge_cases items candidate holders) as [(HE & ->)|[(HE & HL & ->)|[(HE & HL & HM & ->)|(HE & HL & HM & ->)]]]; (split_and!; [..|apply PairGrade_sym]); split; try done; try tauto.
  1-3: intros Hn; exfalso; by eapply Hn; [|eassumption].
  intros _ g Hne Ho. specialize (Hg g Ho). rewrite !elem_of_cons, elem_of_nil in Hg. destruct Hg as [->|[->|[->|[->|[]]]]]; done.
Qed.
