(* ===== verification/SchedGraph.v ===== *)
(** * SchedGraph: the metrics a plan's ready nodes are ranked by (internal/relay/dagsched/ready.go: graphMetrics).

    [critical] is the number of nodes on the longest chain that starts at a node, computed by a memoised depth-first search that cuts a cycle;
    [descendants] the number of nodes reachable below it. The searches run on fuel: one unit per node that is not on the stack, or not yet reached. *)
From S2P Require Import Prelude GoLib DagModel DagGraph DagAcyclic.
From stdpp Require Import relations.
Local Open Scope string_scope.

(** ** The edges of a snapshot by their ends *)
Definition outgoing_of (edges : list SnapEdge) : gmap string (list string) :=
  foldl (λ m e, append_at m (FromNodeID (SEEdge e)) (ToNodeID (SEEdge e))) ∅ edges.

Definition successors (out : gmap string (list string)) (id : string) : list string := default [] (out !! id).

(** ** The longest chain *)

(** The variables the closure [depth] shares between its calls. *)
Record memo : Type := mkMemo { critical : gmap string nat; visiting : gset string }.

(** [for _, next := range outgoing[id] { best = max(best, depth(next)) }] *)
Fixpoint best_of (rec : memo → string → option (nat * memo)) (best : nat) (m : memo) (nexts : list string) : option (nat * memo) :=
  match nexts with
  | [] => Some (best, m)
  | next :: nexts' =>
    match rec m next with
    | None => None
    | Some (d, m') => best_of rec (best `max` d)%nat m' nexts'
    end
  end.

Fixpoint depth (fuel : nat) (out : gmap string (list string)) (m : memo) (id : string) : option (nat * memo) :=
  match critical m !! id with
  | Some v => Some (v, m)
  | None =>
    if bool_decide (id ∈ visiting m) then Some (0%nat, m)
    else
      match fuel with
      | O => None
      | S fuel' =>
        match best_of (depth fuel' out) 0 (mkMemo (critical m) ({[id]} ∪ visiting m)) (successors out id) with
        | None => None
        | Some (best, m') => Some ((best + 1)%nat, mkMemo (<[id := (best + 1)%nat]> (critical m')) (visiting m' ∖ {[id]}))
        end
      end
  end.

(** ** The nodes below *)
Fixpoint reach_all (rec : gset string → string → option (gset string)) (reach : gset string) (nexts : list string) : option (gset string) :=
  match nexts with
  | [] => Some reach
  | next :: nexts' =>
    if bool_decide (next ∈ reach) then reach_all rec reach nexts'
    else
      match rec ({[next]} ∪ reach) next with
      | None => None
      | Some reach' => reach_all rec reach' nexts'
      end
  end.

Fixpoint walk_below (fuel : nat) (out : gmap string (list string)) (reach : gset string) (id : string) : option (gset string) :=
  match fuel with
  | O => None
  | S fuel' => reach_all (walk_below fuel' out) reach (successors out id)
  end.

(** ** graphMetrics *)

(** The ids a search can meet: the nodes it starts from and the ends of the edges. *)
Definition graph_ids (nodes : list SnapNode) (out : gmap string (list string)) : gset string :=
  list_to_set ((λ n, NodeID (SNNode n)) <$> nodes) ∪ list_to_set (concat (map_to_list out).*2).

Fixpoint metrics_loop (fuel : nat) (out : gmap string (list string)) (m : memo) (descendants : gmap string nat) (nodes : list SnapNode)
    : option (gmap string nat * gmap string nat) :=
  match nodes with
  | [] => Some (critical m, descendants)
  | n :: nodes' =>
    match depth fuel out m (NodeID (SNNode n)) with
    | None => None
    | Some (_, m') =>
      match walk_below fuel out ∅ (NodeID (SNNode n)) with
      | None => None
      | Some reach => metrics_loop fuel out m' (<[NodeID (SNNode n) := size reach]> descendants) nodes'
      end
    end
  end.

Definition graphMetrics (nodes : list SnapNode) (out : gmap string (list string)) : option (gmap string nat * gmap string nat) :=
  metrics_loop (S (size (graph_ids nodes out))) out (mkMemo ∅ ∅) ∅ nodes.

(** ** Reference definitions *)
Definition next_of (out : gmap string (list string)) : relation string := λ u v, v ∈ successors out u.

(** A chain: nodes each of which has an edge to the next. *)
Definition chain_from (out : gmap string (list string)) (u : string) (c : list string) : Prop :=
  ∃ l, c = u :: l ∧ Sorted (next_of out) c.

Definition longest_chain (out : gmap string (list string)) (u : string) (n : nat) : Prop :=
  (∃ c, chain_from out u c ∧ length c = n) ∧ ∀ c, chain_from out u c → (length c ≤ n)%nat.

(** The whole graph below a node. *)
Definition all_below (out : gmap string (list string)) (u : string) (below : gset string) : Prop := ∀ v, v ∈ below ↔ tc (next_of out) u v.

(** ** Termination *)
Lemma size_shrink (U V : gset string) x : x ∈ U → x ∉ V → (size (U ∖ ({[x]} ∪ V)) < size (U ∖ V))%nat.
Proof.
  intros Hx Hv. assert (U ∖ V = {[x]} ∪ U ∖ ({[x]} ∪ V)) as E.
  { apply leibniz_equiv. intros y. rewrite elem_of_union, !elem_of_difference, elem_of_union, elem_of_singleton. destruct (decide (y = x)); naive_solver. }
  rewrite E, (size_union {[x]} (U ∖ ({[x]} ∪ V))), size_singleton by (apply disjoint_singleton_l; rewrite elem_of_difference, elem_of_union, elem_of_singleton; naive_solver). lia.
Qed.

Section termination.
Context (out : gmap string (list string)) (U : gset string).
Hypothesis Hclosed : ∀ u v, next_of out u v → v ∈ U.

(** A call returns within the nodes that are not on the stack, and leaves the stack as it was. *)
Definition depth_returns (m : memo) (r : option (nat * memo)) : Prop := ∃ d m', r = Some (d, m') ∧ visiting m' = visiting m.

Lemma best_of_returns rec nexts : ∀ best m, (∀ m' x, visiting m' = visiting m → x ∈ nexts → depth_returns m' (rec m' x)) → depth_returns m (best_of rec best m nexts).
Proof.
  induction nexts as [|x nexts IH]; intros best m Hrec; cbn [best_of]; [by eexists _, _|].
  destruct (Hrec m x eq_refl) as (d & m' & -> & Hv); [by left|]. destruct (IH (best `max` d)%nat m') as (d' & m'' & E & Hv').
  - intros m1 y H1 Hy. apply Hrec; [congruence|by right].
  - exists d', m''. split; [done|congruence].
Qed.

Lemma depth_terminates fuel : ∀ m id, id ∈ U → (size (U ∖ visiting m) ≤ fuel)%nat → depth_returns m (depth fuel out m id).
Proof.
  induction fuel as [|fuel IH]; intros m id Hid Hs; cbn [depth]; (destruct (critical m !! id) as [v|]; [by eexists _, _|]); case_bool_decide as Hv; try by eexists _, _.
  - exfalso. assert (id ∈ U ∖ visiting m) as H by (by apply elem_of_difference). assert (U ∖ visiting m ≢ ∅) as Hne%size_non_empty_iff by set_solver. lia.
  - destruct (best_of_returns (depth fuel out) (successors out id) 0 (mkMemo (critical m) ({[id]} ∪ visiting m))) as (best & m' & -> & Hv').
    + intros m' x Hm' Hx. apply IH; [by eapply Hclosed|]. rewrite Hm'. cbn [visiting]. pose proof (size_shrink U (visiting m) id Hid Hv). lia.
    + eexists _, _. split; [done|]. cbn [visiting] in *. rewrite Hv'. apply leibniz_equiv. intros y. rewrite elem_of_difference, elem_of_union, elem_of_singleton. naive_solver.
Qed.

(** What a walk from [id] adds to [reach]: everything below [id] that it can reach, with what its own additions lead to. *)
Definition walked (reach : gset string) (id : string) (r : option (gset string)) : Prop :=
  ∃ reach', r = Some reach' ∧ reach ⊆ reach' ∧ (∀ v, v ∈ reach' → v ∈ reach ∨ tc (next_of out) id v) ∧ (∀ v, next_of out id v → v ∈ reach') ∧
    ∀ u v, u ∈ reach' → u ∉ reach → next_of out u v → v ∈ reach'.

Lemma reach_all_walked rec n nexts : (∀ reach x, x ∈ U → (size (U ∖ reach) < n)%nat → walked reach x (rec reach x)) → (∀ x, x ∈ nexts → x ∈ U) →
  ∀ reach, (size (U ∖ reach) ≤ n)%nat →
  ∃ reach', reach_all rec reach nexts = Some reach' ∧ reach ⊆ reach' ∧ (∀ v, v ∈ reach' → v ∈ reach ∨ ∃ x, x ∈ nexts ∧ (v = x ∨ tc (next_of out) x v)) ∧
    (∀ x, x ∈ nexts → x ∈ reach') ∧ ∀ u v, u ∈ reach' → u ∉ reach → next_of out u v → v ∈ reach'.
Proof.
  intros Hrec. induction nexts as [|x nexts IH]; intros HU reach Hs; cbn [reach_all].
  { exists reach. split_and!; [done|done|by left|by intros x ?%elem_of_nil|done]. }
  assert (∀ y, y ∈ nexts → y ∈ U) as HU' by (intros y Hy; apply HU; by right). case_bool_decide as Hx.
  - destruct (IH HU' reach Hs) as (r & E & Hsub & Hfrom & Hall & Hcl). exists r. split_and!; [done|done| | |done].
    + intros v [?|(y & Hy & ?)]%Hfrom; [by left|]. right. exists y. split; [by right|done].
    + intros y [->|Hy]%elem_of_cons; [by apply Hsub|by apply Hall].
  - destruct (Hrec ({[x]} ∪ reach) x) as (r1 & -> & Hsub1 & Hfrom1 & Hall1 & Hcl1); [apply HU; by left|eapply Nat.lt_le_trans; [apply size_shrink; [apply HU; by left|done]|done]|].
    destruct (IH HU' r1) as (r & E & Hsub & Hfrom & Hall & Hcl).
    { etrans; [|exact Hs]. apply subseteq_size. set_solver. }
    exists r. split_and!; [done|set_solver| | |].
    + intros v [Hv|(y & Hy & ?)]%Hfrom; [|right; exists y; split; [by right|done]]. apply Hfrom1 in Hv as [Hv|Hv]; [|right; exists x; split; [by left|by right]].
      apply elem_of_union in Hv as [->%elem_of_singleton|Hv]; [right; exists x; split; [by left|by left]|by left].
    + intros y [->|Hy]%elem_of_cons; [set_solver|by apply Hall].
    + intros u v Hu Hnu Huv. destruct (decide (u ∈ r1)) as [H1|H1]; [|by apply (Hcl u v)]. apply Hsub. destruct (decide (u = x)) as [->|Hux]; [by apply Hall1|].
      apply (Hcl1 u v); [done| |done]. rewrite elem_of_union, elem_of_singleton. by intros [?|?].
Qed.

Lemma walk_terminates fuel : ∀ reach id, id ∈ U → (size (U ∖ reach) < fuel)%nat → walked reach id (walk_below fuel out reach id).
Proof.
  induction fuel as [|fuel IH]; intros reach id Hid Hs; [lia|]. cbn [walk_below].
  destruct (reach_all_walked (walk_below fuel out) fuel (successors out id) IH (Hclosed id) reach) as (r & -> & Hsub & Hfrom & Hall & Hcl); [lia|].
  exists r. split_and!; [done|done| |done|done]. intros v [?|(x & Hx & [->|Hv])]%Hfrom; [by left| |]; right; [by constructor|by eapply tc_l].
Qed.

(** From nothing, a walk finds exactly what is below. *)
Lemma walk_exact fuel id : id ∈ U → (size U < fuel)%nat → ∃ below, walk_below fuel out ∅ id = Some below ∧ all_below out id below.
Proof.
  intros Hid Hs. destruct (walk_terminates fuel ∅ id) as (r & E & _ & Hfrom & Hall & Hcl); [done|by rewrite difference_empty_L|].
  exists r. split; [done|]. intros v. split; [intros [?%elem_of_empty|?]%Hfrom; done|].
  clear E Hfrom Hid Hs. intros Hv. induction Hv as [u v Huv|u w v Huw _ IH]; [by apply Hall|]. apply IH. intros v' Hv'. apply (Hcl w v'); [by apply Hall|set_solver|done].
Qed.
End termination.

(** ** The longest chain of an acyclic graph *)
Lemma longest_step out u b : (∀ x, x ∈ successors out u → ∃ d, longest_chain out x d ∧ (d ≤ b)%nat) → (b = 0%nat ∨ ∃ x, x ∈ successors out u ∧ longest_chain out x b) →
  longest_chain out u (b + 1).
Proof.
  intros Hall Hmax. split.
  - destruct Hmax as [->|(x & Hx & (c & (l & -> & Hs) & <-) & _)].
    + exists [u]. split; [|done]. exists []. split; [done|repeat constructor].
    + exists (u :: x :: l). split; [|cbn; lia]. exists (x :: l). split; [done|]. constructor; [done|by constructor].
  - intros c (l & -> & Hs). destruct l as [|x l]; [cbn; lia|]. apply Sorted_inv in Hs as [Hs Hx%HdRel_inv].
    destruct (Hall x Hx) as (d & [_ Hd] & Hle). specialize (Hd (x :: l) (ex_intro _ l (conj eq_refl Hs))). cbn in *. lia.
Qed.

Section longest.
Context (out : gmap string (list string)) (U : gset string).
Hypothesis Hclosed : ∀ u v, next_of out u v → v ∈ U.
Hypothesis Hacyclic : ∀ u, ¬ tc (next_of out) u u.

Definition memo_ok (m : memo) : Prop := map_Forall (longest_chain out) (critical m).

Definition found (m : memo) (id : string) (r : option (nat * memo)) : Prop :=
  ∃ d m', r = Some (d, m') ∧ longest_chain out id d ∧ memo_ok m' ∧ visiting m' = visiting m ∧ dom (critical m) ⊆ dom (critical m') ∧ critical m' !! id = Some d.

Lemma best_of_found rec nexts : ∀ best m, memo_ok m → (∀ m' x, memo_ok m' → visiting m' = visiting m → x ∈ nexts → found m' x (rec m' x)) →
  ∃ b m', best_of rec best m nexts = Some (b, m') ∧ memo_ok m' ∧ visiting m' = visiting m ∧ dom (critical m) ⊆ dom (critical m') ∧ (best ≤ b)%nat ∧
    (∀ x, x ∈ nexts → ∃ d, longest_chain out x d ∧ (d ≤ b)%nat) ∧ (b = best ∨ ∃ x, x ∈ nexts ∧ longest_chain out x b).
Proof.
  induction nexts as [|x nexts IH]; intros best m Hm Hrec; cbn [best_of].
  { exists best, m. split_and!; [done|done|done|done|done|by intros x ?%elem_of_nil|by left]. }
  destruct (Hrec m x Hm eq_refl) as (d & m1 & -> & Hd & Hm1 & Hv1 & Hdom1 & _); [by left|].
  destruct (IH (best `max` d)%nat m1 Hm1) as (b & m' & E & Hm' & Hv & Hdom & Hle & Hall & Hmax).
  { intros m2 y H2 Hv2 Hy. apply Hrec; [done|congruence|by right]. }
  exists b, m'. split_and!; [done|done|congruence|set_solver|lia| |].
  - intros y [->|Hy]%elem_of_cons; [exists d; split; [done|lia]|by apply Hall].
  - destruct Hmax as [->|(y & Hy & ?)]; [|right; exists y; split; [by right|done]]. destruct (Nat.max_spec best d) as [[_ ->]|[_ ->]]; [right; exists x; split; [by left|done]|by left].
Qed.

Lemma depth_exact fuel : ∀ m id, memo_ok m → (∀ w, w ∈ visiting m → tc (next_of out) w id) → id ∈ U → (size (U ∖ visiting m) ≤ fuel)%nat → found m id (depth fuel out m id).
Proof.
  induction fuel as [|fuel IH]; intros m id Hm Hstack Hid Hs; cbn [depth];
    (destruct (critical m !! id) as [v|] eqn:Ec; [exists v, m; split_and!; [done|by apply Hm|done|done|done|done]|]); rewrite bool_decide_false by (intros H%Hstack; by apply Hacyclic in H).
  - exfalso. assert (U ∖ visiting m ≢ ∅) as Hne%size_non_empty_iff; [|lia]. intros E. destruct (Hacyclic id). apply Hstack, dec_stable. intros Hn. set_solver.
  - assert (id ∉ visiting m) as Hv by (intros H%Hstack; by apply Hacyclic in H). pose proof (size_shrink U (visiting m) id Hid Hv) as Hlt.
    destruct (best_of_found (depth fuel out) (successors out id) 0 (mkMemo (critical m) ({[id]} ∪ visiting m)) Hm) as (b & m' & -> & Hm' & Hv' & Hdom & _ & Hall & Hmax).
    { intros m' x Hm' Hvm Hx. apply IH; [done| |by eapply Hclosed|rewrite Hvm; cbn [visiting]; lia]. rewrite Hvm. cbn [visiting].
      intros w [->%elem_of_singleton|Hw]%elem_of_union; [by constructor|]. apply tc_r with id; [by apply Hstack|done]. }
    exists (b + 1)%nat. eexists. split; [done|]. assert (longest_chain out id (b + 1)) as Hb by (by apply longest_step). split_and!; cbn [critical visiting].
    + done.
    + by apply map_Forall_insert_2.
    + rewrite Hv'. cbn [visiting]. apply leibniz_equiv. intros y. rewrite elem_of_difference, elem_of_union, elem_of_singleton. naive_solver.
    + rewrite dom_insert_L. cbn [critical] in Hdom. set_solver.
    + by rewrite lookup_insert_eq.
Qed.
End longest.

(** ** graphMetrics *)
Lemma graph_ids_node nodes out n : n ∈ nodes → NodeID (SNNode n) ∈ graph_ids nodes out.
Proof. intros Hn. unfold graph_ids. apply elem_of_union_l, elem_of_list_to_set. by apply (list_elem_of_fmap_2 (λ n, NodeID (SNNode n))). Qed.

Lemma graph_ids_next nodes out u v : next_of out u v → v ∈ graph_ids nodes out.
Proof.
  intros Hv. unfold graph_ids. apply elem_of_union_r, elem_of_list_to_set. unfold next_of, successors in Hv. destruct (out !! u) as [l|] eqn:E; cbn in Hv; [|by apply elem_of_nil in Hv].
  apply list_elem_of_In, in_concat. exists l. split; apply list_elem_of_In; [|done]. apply list_elem_of_fmap. exists (u, l). split; [done|]. by apply elem_of_map_to_list.
Qed.

Definition below_ok (out : gmap string (list string)) (ds : gmap string nat) : Prop := ∀ id k, ds !! id = Some k → ∃ below, all_below out id below ∧ k = size below.

Section loop.
Context (fuel : nat) (out : gmap string (list string)) (U : gset string).
Hypothesis Hcl : ∀ u v, next_of out u v → v ∈ U.
Hypothesis Hf : (size U < fuel)%nat.

Lemma metrics_loop_total nodes : ∀ m ds, (∀ n, n ∈ nodes → NodeID (SNNode n) ∈ U) → visiting m = ∅ → below_ok out ds →
  ∃ cs ds', metrics_loop fuel out m ds nodes = Some (cs, ds') ∧ below_ok out ds' ∧ dom ds ⊆ dom ds' ∧ ∀ n, n ∈ nodes → NodeID (SNNode n) ∈ dom ds'.
Proof.
  induction nodes as [|n nodes IH]; intros m ds Hn Hv Hds; cbn [metrics_loop].
  { eexists _, _. split_and!; [done|done|done|by intros n ?%elem_of_nil]. }
  assert (NodeID (SNNode n) ∈ U) as Hid by (apply Hn; by left).
  destruct (depth_terminates out U Hcl fuel m (NodeID (SNNode n)) Hid) as (d & m' & -> & Hv'); [rewrite Hv, difference_empty_L; lia|].
  destruct (walk_exact out U Hcl fuel (NodeID (SNNode n)) Hid Hf) as (below & -> & Hb).
  destruct (IH m' (<[NodeID (SNNode n) := size below]> ds)) as (cs & ds' & E & Hds' & Hdd & Hall); [intros n' ?; apply Hn; by right|congruence| |].
  - intros id k [[<- <-]|[_ ?]]%lookup_insert_Some; [by exists below|by apply Hds].
  - exists cs, ds'. rewrite dom_insert_L in Hdd. split_and!; [done|done|set_solver|]. intros n' [->|Hn']%elem_of_cons; [set_solver|by apply Hall].
Qed.

Hypothesis Hac : ∀ u, ¬ tc (next_of out) u u.

Lemma metrics_loop_exact nodes : ∀ m ds cs ds', (∀ n, n ∈ nodes → NodeID (SNNode n) ∈ U) → visiting m = ∅ → memo_ok out m → metrics_loop fuel out m ds nodes = Some (cs, ds') →
  map_Forall (longest_chain out) cs ∧ dom (critical m) ⊆ dom cs ∧ ∀ n, n ∈ nodes → NodeID (SNNode n) ∈ dom cs.
Proof.
  induction nodes as [|n nodes IH]; intros m ds cs ds' Hn Hv Hm; cbn [metrics_loop].
  { intros [= <- <-]. split_and!; [done|done|by intros n ?%elem_of_nil]. }
  assert (NodeID (SNNode n) ∈ U) as Hid by (apply Hn; by left).
  destruct (depth_exact out U Hcl Hac fuel m (NodeID (SNNode n)) Hm) as (d & m' & -> & Hd & Hm' & Hv' & Hdom & Hc); [rewrite Hv; set_solver|done|rewrite Hv, difference_empty_L; lia|].
  destruct (walk_below fuel out ∅ (NodeID (SNNode n))) as [below|]; [|done]. intros E.
  destruct (IH m' _ cs ds' (λ n' H, Hn n' (list_elem_of_further _ _ _ H)) ltac:(congruence) Hm' E) as (Hcs & Hdc & Hall).
  split_and!; [done|set_solver|]. intros n' [->|Hn']%elem_of_cons; [|by apply Hall]. apply Hdc, elem_of_dom. by eexists.
Qed.
End loop.

Lemma metrics_total nodes out : ∃ cs ds, graphMetrics nodes out = Some (cs, ds) ∧
  ∀ n, n ∈ nodes → ∃ below, ds !! NodeID (SNNode n) = Some (size below) ∧ all_below out (NodeID (SNNode n)) below.
Proof.
  destruct (metrics_loop_total (S (size (graph_ids nodes out))) out (graph_ids nodes out) (graph_ids_next nodes out) (Nat.lt_succ_diag_r _)
    nodes (mkMemo ∅ ∅) ∅ (graph_ids_node nodes out) eq_refl) as (cs & ds & E & Hds & _ & Hall); [by intros id k ?%lookup_empty_Some|].
  exists cs, ds. split; [done|]. intros n Hn. pose proof (Hall n Hn) as [k Hk]%elem_of_dom. destruct (Hds _ _ Hk) as (below & Hb & ->). by exists below.
Qed.

Lemma metrics_longest nodes out cs ds : (∀ u, ¬ tc (next_of out) u u) → graphMetrics nodes out = Some (cs, ds) →
  ∀ n, n ∈ nodes → ∃ c, cs !! NodeID (SNNode n) = Some c ∧ longest_chain out (NodeID (SNNode n)) c.
Proof.
  intros Hac E n Hn. destruct (metrics_loop_exact _ out (graph_ids nodes out) (graph_ids_next nodes out) (Nat.lt_succ_diag_r _) Hac nodes (mkMemo ∅ ∅) ∅ cs ds
    (graph_ids_node nodes out) eq_refl ltac:(apply map_Forall_empty) E) as (Hcs & _ & Hall).
  pose proof (Hall n Hn) as [c Hc]%elem_of_dom. exists c. split; [done|by apply Hcs].
Qed.

(** C35: the search of the metrics returns for every graph, a cyclic one included: the depth search stops at a node that is on the stack and a walk enters a node once, so
    one unit of fuel per node is enough; and the descendants of a node are the number of nodes below it, whatever the graph. *)
Theorem graphMetrics_terminates nodes out : ∃ cs ds, graphMetrics nodes out = Some (cs, ds) ∧
  ∀ n, n ∈ nodes → ∃ below, ds !! NodeID (SNNode n) = Some (size below) ∧ all_below out (NodeID (SNNode n)) below.
Proof. apply metrics_total. Qed.
