(* ===== verification/SchedReady.v ===== *)
(** * SchedReady: the ready set of a plan (internal/relay/dagsched: ready.go, reading.go, lifecycle.go, vocabulary.go, and what ready.go calls of releaserule.go).

    [Ready] reads a plan at its head and says of every live node whether it may be released now. The execution records of the relay, which other parts of the
    package read in the same transaction, are the operations of the interface [View]: what each returns of the store as it is. Values that a reading only hands on
    (an acceptance, a stale object, a merge order, the object of the host's memory) are kept as the JSON they print. *)
From S2P Require Import Prelude GoLib Sha256 Json Loads Utf8 GoPath DagModel DagLifecycle DagGraph DagFold DagStore DagRepo SchedPolicy SchedRegions SchedGraph.
Local Open Scope string_scope.
Local Open Scope relay_scope.

(** ** vocabulary.go *)
Definition DispReady := "ready".
Definition DispDefer := "defer".
Definition DispBlocked := "blocked".
Definition DispDone := "done".

Definition DeferNoCapacity := "defer:no_capacity".
Definition DeferCapacityUnmeasured := "defer:capacity_unmeasured".
Definition DeferHostMemory := "defer:host_memory".
Definition DeferEditOverlap := "defer:edit_overlap".
Definition DeferMergeWindow := "defer:merge_window".
Definition DeferOwnershipUnverified := "defer:ownership_unverified".
Definition SkipAlreadyOwned := "skip:already_owned".
Definition DoneIntegrated := "done:integrated".
Definition DeferPlanPaused := "defer:plan_paused".
Definition DeferNodePaused := "defer:node_paused".
Definition SkipNodeCancelled := "skip:node_cancelled".
Definition SkipNodeArchived := "skip:node_archived".
Definition BlockedCreationUnknown := "blocked:creation_unknown".
Definition BlockedReleaseAbandoned := "blocked:release_abandoned".

Definition emittedReasons : list string :=
  [DeferNoCapacity; DeferCapacityUnmeasured; DeferHostMemory; DeferEditOverlap; DeferMergeWindow; DeferOwnershipUnverified; "defer:authority_pending";
   SkipAlreadyOwned;
   "blocked:manifest_incomplete"; "blocked:manifest_tampered"; "blocked:input_missing"; "blocked:input_hash_mismatch"; "blocked:input_out_of_scope";
   "blocked:input_unaccepted"; "blocked:acceptance_tampered"; "blocked:acceptance_incomplete"; "blocked:stale_head"; "blocked:stale_criteria";
   "blocked:decision_mismatch"; "blocked:integration_unprovable"; "blocked:evidence_mismatch"; "blocked:inconsistent_inputs";
   "blocked:input_unverified_at_consumption"; "blocked:stale_predecessor"; BlockedCreationUnknown; "blocked:effect_unknown";
   "blocked:predecessor_cancelled"; BlockedReleaseAbandoned; "blocked:evicted"; "blocked:ambiguous_head";
   "stale:slice_changed"; "stale:criteria_changed";
   "done:accepted"; DoneIntegrated;
   DeferPlanPaused; DeferNodePaused; SkipNodeCancelled; SkipNodeArchived; "blocked:predecessor_archived"].

Definition WaitEdgePrefix := "wait:edge:".
Definition StaleEdgePrefix := "stale:edge:".

Definition ReasonsClosed (r : string) : bool :=
  if has_prefix r WaitEdgePrefix then negb (bool_decide (r = WaitEdgePrefix))
  else if has_prefix r StaleEdgePrefix then negb (bool_decide (r = StaleEdgePrefix))
  else bool_decide (r ∈ emittedReasons).

Definition colon : ascii := ":"%char.

(** [dispositionOf]: the text before the first colon. *)
Fixpoint dispositionOf (reason : string) : string :=
  match reason with
  | EmptyString => EmptyString
  | String c rest => if bool_decide (c = colon) then EmptyString else String c (dispositionOf rest)
  end.

(** The limits of a pass. *)
Definition LimitNone := "none".
Definition LimitNoCapacity := "no_capacity".
Definition LimitEditOverlap := "edit_overlap".
Definition LimitCapacityUnmeasured := "capacity_unmeasured".
Definition LimitHostMemory := "host_memory".

Definition storedLimit (limit : string) : string := if bool_decide (limit = LimitHostMemory) then LimitNoCapacity else limit.

(** States. *)
Definition StateWaiting := "waiting".
Definition StateReady := "ready".
Definition StatePlanned := "planned".
Definition StatePausedNode := "paused".
Definition StateCancelled := "cancelled".
Definition StateArchivedNode := "archived".
Definition StateStale := "stale".

(** ** What the other parts of the package say *)
Record nodeState : Type := mkNodeState {
  NSState : string;
  NSOwned : bool;
  NSDisp : string;
  NSReason : string;
  NSDetail : string;
  NSAcc : value;
  NSHasAcc : bool;
  NSHolds : bool
}.

Record EdgeStatus : Type := mkEdgeStatus {
  ESSatisfied : bool;
  ESReason : string;
  ESDetail : string;
  ESSince : string;
  ESAcceptanceID : string;
  ESObservationID : string;
  ESDecisionID : string;
  ESDecisionRevision : Z
}.

Record BlockedFinding : Type := mkFinding { BFCode : string; BFReason : string; BFDetail : string }.
Record inputVerdict : Type := mkVerdict { IVFinding : option BlockedFinding; IVHashes : list string }.

Record Capacity : Type := mkCapacity { CFree : Z; CCeiling : Z; CHeld : Z; CSource : string; CBasis : string; CUnmeasured : bool }.

(** A judged sample of the host: its state, its sentence ([Detail]) and its object. *)
Record HostMemoryVerdict : Type := mkHost { HVState : string; HVDetail : string; HVObject : value }.
Definition HostMemoryDeferring := "deferring".

(** A stagnation: the rung of the ladder and the canonical form. *)
Record Stagnation : Type := mkStagnation { StRung : string; StCanonical : value }.

Record orderHolder : Type := mkOrderHolder {
  OHNodeID : string;
  OHState : string;
  OHDisp : string;
  OHAcc : value;
  OHHasAcc : bool;
  OHHeld : bool
}.

(** The rows [resourceHold] counts. *)
Record RelationshipRow : Type := mkRelationship { rel_issue : string; rel_status : string; rel_superseded_by : option string }.
Record StartRow : Type := mkStart { start_issue : string; start_state : string }.
Record BindingRow : Type := mkBinding { bind_task : string; bind_role : string; bind_kind : string; bind_key : string; bind_status : string; bind_superseded_by : option string }.
Record TurnRow : Type := mkTurn { turn_repository : string; turn_base_ref : string; turn_state : string }.

Class View : Type := mkView {
  stateOf : string → Snapshot → SnapNode → result StoreError nodeState;
  stagnation_of : string → Snapshot → SnapNode → result StoreError (option Stagnation);
  staleOf : string → Snapshot → SnapNode → result StoreError (option value);
  withRoute : string → Snapshot → SnapNode → value → result StoreError (option value);
  edgeStatus : string → Snapshot → SnapEdge → result StoreError EdgeStatus;
  checkInputs : string → list SnapEdge → gmap string EdgeStatus → bool → result StoreError inputVerdict;
  capacity : string → result StoreError Capacity;
  host_judge : option HostMemoryVerdict;
  loadDeclarations : string → result StoreError (gmap string (list Region));
  releasePolicy : string → Snapshot → result StoreError (option OptimismState);
  observed : string → list observedConflict;
  orderConstraints : string → list orderHolder → gmap string (list Region) → result StoreError (gmap string value * nat);
  relationships : list RelationshipRow;
  managed_start_requests : list StartRow;
  scope_bindings : list BindingRow;
  merge_turns : list TurnRow
}.

(** ** lifecycle.go: what the plan says of a node's life *)
Record lifeView : Type := mkLife { planPaused : bool; life_node : string }.

Definition lifeOf_node (snap : Snapshot) (n : SnapNode) : lifeView := mkLife (bool_decide (SnapPlanState snap = LifePaused)) (SNLifecycle n).

Definition life_active (l : lifeView) : bool := negb (planPaused l) && bool_decide (life_node l = "").
Definition ended (l : lifeView) : bool := bool_decide (life_node l = LifeCancelled) || bool_decide (life_node l = LifeArchived).

Definition life_reason (l : lifeView) (id : string) : string * string :=
  if bool_decide (life_node l = LifeCancelled) then
    (SkipNodeCancelled, "the plan cancelled node " +:+ id +:+ ": it is never released again, what it produced is not counted as done, and a cancel is not reverted (to do the work again the plan replaces the node)")
  else if bool_decide (life_node l = LifeArchived) then
    (SkipNodeArchived, "the plan archived node " +:+ id +:+ ": it is never released again and nothing downstream is released from its result; a pull request it already had accepted may still land")
  else if planPaused l then
    (DeferPlanPaused, "the plan is paused: nothing is released, accepted, corrected or sent to the merge lane until a resume revision" +:+
      (if bool_decide (life_node l = LifePaused) then " (node " +:+ id +:+ " is also paused by its own change)" else ""))
  else (DeferNodePaused, "the plan paused node " +:+ id +:+ ": it is not released, accepted, corrected or sent to the merge lane until a resume revision, and its slot stays held (contract 7.4)").

(** ** reading.go *)
Record Rank : Type := mkRank { CriticalPath : nat; Descendants : nat; ReadySince : string }.

Record NodeReading : Type := mkReading {
  NRNodeID : string;
  NRIssueKey : string;
  NRKind : string;
  NRState : string;
  NRDisposition : string;
  NRReason : string;
  NRDetail : string;
  NRRank : option Rank;
  NRStale : option value;
  NRLifecycle : string;
  NRRelease : option ReleaseJudgement;
  NRMergeOrder : option value;
  NRStagnation : option Stagnation
}.

(** Assignments to fields of a reading. *)
Definition set_state (s : string) (r : NodeReading) : NodeReading :=
  mkReading (NRNodeID r) (NRIssueKey r) (NRKind r) s (NRDisposition r) (NRReason r) (NRDetail r) (NRRank r) (NRStale r) (NRLifecycle r) (NRRelease r) (NRMergeOrder r) (NRStagnation r).
Definition set_outcome (disp reason detail : string) (r : NodeReading) : NodeReading :=
  mkReading (NRNodeID r) (NRIssueKey r) (NRKind r) (NRState r) disp reason detail (NRRank r) (NRStale r) (NRLifecycle r) (NRRelease r) (NRMergeOrder r) (NRStagnation r).
Definition set_stale (s : option value) (r : NodeReading) : NodeReading :=
  mkReading (NRNodeID r) (NRIssueKey r) (NRKind r) (NRState r) (NRDisposition r) (NRReason r) (NRDetail r) (NRRank r) s (NRLifecycle r) (NRRelease r) (NRMergeOrder r) (NRStagnation r).
Definition set_lifecycle (l : string) (r : NodeReading) : NodeReading :=
  mkReading (NRNodeID r) (NRIssueKey r) (NRKind r) (NRState r) (NRDisposition r) (NRReason r) (NRDetail r) (NRRank r) (NRStale r) l (NRRelease r) (NRMergeOrder r) (NRStagnation r).
Definition set_judged (k : Rank) (j : option ReleaseJudgement) (r : NodeReading) : NodeReading :=
  mkReading (NRNodeID r) (NRIssueKey r) (NRKind r) (NRState r) (NRDisposition r) (NRReason r) (NRDetail r) (Some k) (NRStale r) (NRLifecycle r) j (NRMergeOrder r) (NRStagnation r).
Definition set_order (o : value) (r : NodeReading) : NodeReading :=
  mkReading (NRNodeID r) (NRIssueKey r) (NRKind r) (NRState r) (NRDisposition r) (NRReason r) (NRDetail r) (NRRank r) (NRStale r) (NRLifecycle r) (NRRelease r) (Some o) (NRStagnation r).
Definition add_detail (t : string) (r : NodeReading) : NodeReading := set_outcome (NRDisposition r) (NRReason r) (NRDetail r +:+ t) r.

(** ** lifecycle.go: the plan's life on a reading *)
Definition holdUnowned (l : lifeView) (r : NodeReading) : NodeReading :=
  let state := if bool_decide (life_node l = LifeCancelled) then StateCancelled
    else if bool_decide (life_node l = LifeArchived) then StateArchivedNode
    else if bool_decide (life_node l = LifePaused) then StatePausedNode else StatePlanned in
  let '(reason, detail) := life_reason l (NRNodeID r) in
  set_outcome (dispositionOf reason) reason detail (set_state state (set_lifecycle (life_node l) r)).

Definition overlayOwned (l : lifeView) (st : nodeState) (r : NodeReading) : NodeReading :=
  let r := set_lifecycle (life_node l) r in
  if life_active l then r
  else
    let '(reason, detail) := life_reason l (NRNodeID r) in
    if bool_decide (NSReason st = DoneIntegrated) then add_detail ("; the plan has not reverted the landing: " +:+ detail) r
    else if has_prefix (NSReason st) "blocked:" then
      add_detail ("; " +:+ detail +:+ (if bool_decide (NSReason st = BlockedCreationUnknown) || bool_decide (NSReason st = BlockedReleaseAbandoned)
        then "; a repeat of the release is refused until the plan lets the node run" else "")) r
    else if ended l || bool_decide (NSReason st = SkipAlreadyOwned) then
      let r := if bool_decide (NSState st = StateStale)
        then set_stale None (set_state (if bool_decide (life_node l = LifeArchived) then StateArchivedNode else StateCancelled) r) else r in
      set_outcome (dispositionOf reason) reason (detail +:+ "; its execution: " +:+ NSDetail st) r
    else add_detail ("; " +:+ detail) r.

(** ** ready.go: what a candidate meets outside the plan *)
Section view.
Context {V : View}.

Definition projectParents (project : string) : list string :=
  sort_strings (bind_task <$> filter (λ b, bind_role b = "parent" ∧ bind_kind b = "project" ∧ bind_key b = project ∧ bind_status b ∈ ["active"; "paused"] ∧ bind_superseded_by b = None) scope_bindings).

(** A non-empty reason, with its detail. *)
Definition issueOwned (n : SnapNode) : option (string * string) :=
  let issue := IssueKey (SNNode n) in
  if (0 <? length (filter (λ r, rel_issue r = issue ∧ rel_status r ∈ ["active"; "paused"] ∧ rel_superseded_by r = None) relationships))%nat then
    Some (SkipAlreadyOwned, issue +:+ " already has an open relationship that is not an execution of this node")
  else if (0 <? length (filter (λ r, start_issue r = issue ∧ start_state r ∈ ["reserved"; "create_armed"]) managed_start_requests))%nat then
    Some (SkipAlreadyOwned, issue +:+ " has a managed start in flight that no release of this node made")
  else None.

(** The edges whose target branch a merge turn is moving. *)
Definition moving (e : SnapEdge) : bool :=
  let t := SEEdge e in
  negb (bool_decide (TargetRepository t = "")) && negb (bool_decide (TargetBaseRef t = "")) &&
  existsb (λ r, bool_decide (turn_repository r = TargetRepository t) && bool_decide (turn_base_ref r = TargetBaseRef t) && bool_decide (turn_state r ∈ ["merging"; "unknown"])) merge_turns.

Definition resourceHold (snap : Snapshot) (n : SnapNode) (edges : list SnapEdge) (issueOwnership : bool) : option (string * string) :=
  match (if issueOwnership then issueOwned n else None) with
  | Some held => Some held
  | None =>
    let parents := projectParents (SnapProjectKey snap) in
    if negb (length parents =? 1)%nat then
      Some (DeferOwnershipUnverified, "project " +:+ SnapProjectKey snap +:+ " has " +:+ itoa_nat (length parents) +:+ " registered 자식 sessions; a release needs exactly one to reserve under")
    else
      match List.find moving edges with
      | Some e => Some (DeferMergeWindow, "a merge turn is moving " +:+ TargetRepository (SEEdge e) +:+ " " +:+ TargetBaseRef (SEEdge e) +:+ "; the tip the node would build on is not settled")
      | None => None
      end
  end.
End view.

(** The stored time of the revision that introduced a node; empty when there is no such row. *)
Definition introducedAt (st : Store) (plan : string) (revision : Z) : string :=
  match filter (λ r, rr_plan r = plan ∧ rr_no r = revision) (Revisions st) with r :: _ => rr_at r | [] => "" end.

(** ** ready.go: the nodes in order *)
Record ReadyOptions : Type := mkReadyOptions { SkipArtifactBytes : bool; AgentNode : string }.

Record candidate : Type := mkCandidate { cand_node : SnapNode; cand_rank : Rank }.

#[export] Instance SnapNode_eq_dec : EqDecision SnapNode.
Proof. solve_decision. Defined.

#[export] Instance Rank_eq_dec : EqDecision Rank.
Proof. solve_decision. Defined.

#[export] Instance candidate_eq_dec : EqDecision candidate.
Proof. solve_decision. Defined.

Definition node_id (n : SnapNode) : string := NodeID (SNNode n).
Definition node_kind (n : SnapNode) : string := NKind (SNNode n).

(** [incoming[id]], sorted by edge id. *)
Definition incoming_edges (snap : Snapshot) (id : string) : list SnapEdge :=
  sort_by (λ e, EdgeID (SEEdge e)) (filter (λ e, ToNodeID (SEEdge e) = id) (SnapEdges snap)).

Section ready.
Context {V : View}.

(** The loop over the incoming edges: the first that is not satisfied, or the statuses and the latest time one became satisfied. *)
Fixpoint edges_loop (plan : string) (snap : Snapshot) (statuses : gmap string EdgeStatus) (since : string) (edges : list SnapEdge)
    : result StoreError (EdgeStatus + gmap string EdgeStatus * string) :=
  match edges with
  | [] => Ok (inr (statuses, since))
  | e :: edges' =>
    try! status := edgeStatus plan snap e in
    if negb (ESSatisfied status) then Ok (inl status)
    else edges_loop plan snap (<[EdgeID (SEEdge e) := status]> statuses) (if str_less since (ESSince status) then ESSince status else since) edges'
  end.

(** What one node adds: its reading, the regions it holds, its place in the merge order, its candidacy, and the hashes its inputs were read with. *)
Record contribution : Type := mkContribution {
  cn_reading : NodeReading;
  cn_holder : option holder;
  cn_live : option orderHolder;
  cn_candidate : option candidate;
  cn_hashes : list string
}.

Definition only (r : NodeReading) : contribution := mkContribution r None None None [].

Definition holder_of (declarations : gmap string (list Region)) (id : string) : holder :=
  mkHolder id (default [] (declarations !! id)) (negb (bool_decide (is_Some (declarations !! id)))).

Definition read_owned (plan : string) (snap : Snapshot) (declarations : gmap string (list Region)) (n : SnapNode) (state : nodeState) (r : NodeReading) : result StoreError contribution :=
  let life := lifeOf_node snap n in
  let r := set_outcome (NSDisp state) (NSReason state) (NSDetail state) r in
  try! stale := (if bool_decide (NSState state = StateStale) then
    try! found := staleOf plan snap n in
    match found with Some s => withRoute plan snap n s | None => Ok None end
    else Ok None) in
  let r := overlayOwned life state (set_stale stale r) in
  if NSHolds state && bool_decide (node_kind n = NodeImplementation) then
    Ok (mkContribution r (Some (holder_of declarations (node_id n)))
      (Some (mkOrderHolder (node_id n) (NSState state) (NSDisp state) (NSAcc state) (NSHasAcc state)
        (planPaused life || bool_decide (life_node life = LifePaused) || bool_decide (life_node life = LifeCancelled)))) None [])
  else Ok (only r).

Definition read_unowned (st : Store) (plan : string) (snap : Snapshot) (opts : ReadyOptions) (metrics : gmap string nat * gmap string nat) (n : SnapNode) (r : NodeReading) : result StoreError contribution :=
  let incoming := incoming_edges snap (node_id n) in
  let r := set_state StateWaiting r in
  try! walked := edges_loop plan snap ∅ "" incoming in
  match walked with
  | inl first => Ok (only (set_outcome (dispositionOf (ESReason first)) (ESReason first) (ESDetail first) r))
  | inr (statuses, since) =>
    try! verdict := checkInputs plan incoming statuses (SkipArtifactBytes opts) in
    match IVFinding verdict with
    | Some f => Ok (mkContribution (set_outcome DispBlocked (BFReason f) (BFCode f +:+ ": " +:+ BFDetail f) r) None None None (IVHashes verdict))
    | None =>
      let r := set_state StateReady r in
      match resourceHold snap n incoming (negb (bool_decide (node_id n = AgentNode opts))) with
      | Some (reason, detail) => Ok (mkContribution (set_outcome (dispositionOf reason) reason detail r) None None None (IVHashes verdict))
      | None =>
        let since := match incoming with [] => introducedAt st plan (SNIntroducedRev n) | _ => since end in
        let rank := mkRank (default 0%nat (metrics.1 !! node_id n)) (default 0%nat (metrics.2 !! node_id n)) since in
        Ok (mkContribution r None None (Some (mkCandidate n rank)) (IVHashes verdict))
      end
    end
  end.

(** One iteration of the loop over the nodes. *)
Definition read_node (st : Store) (plan : string) (snap : Snapshot) (opts : ReadyOptions) (declarations : gmap string (list Region)) (metrics : gmap string nat * gmap string nat)
    (n : SnapNode) : result StoreError contribution :=
  try! state := stateOf plan snap n in
  try! stagnation := stagnation_of plan snap n in
  let r := mkReading (node_id n) (IssueKey (SNNode n)) (node_kind n) (NSState state) "" "" "" None None "" None None stagnation in
  if NSOwned state then read_owned plan snap declarations n state r
  else if negb (life_active (lifeOf_node snap n)) then Ok (only (holdUnowned (lifeOf_node snap n) r))
  else read_unowned st plan snap opts metrics n r.

Fixpoint read_all (f : SnapNode → result StoreError contribution) (nodes : list SnapNode) : result StoreError (list contribution) :=
  match nodes with
  | [] => Ok []
  | n :: nodes' =>
    try! c := f n in
    try! cs := read_all f nodes' in
    Ok (c :: cs)
  end.

Definition cand_less (a b : candidate) : bool :=
  let x := cand_rank a in
  let y := cand_rank b in
  if negb (CriticalPath x =? CriticalPath y)%nat then (CriticalPath y <? CriticalPath x)%nat
  else if negb (Descendants x =? Descendants y)%nat then (Descendants y <? Descendants x)%nat
  else if negb (bool_decide (ReadySince x = ReadySince y)) then str_less (ReadySince x) (ReadySince y)
  else str_less (node_id (cand_node a)) (node_id (cand_node b)).

(** ** ready.go: the pass over the candidates *)
Record pass : Type := mkPass {
  ps_readings : gmap string NodeReading;
  ps_holders : list holder;
  ps_overlaps : OverlapCounts;
  ps_limit : string;
  ps_ready : list string;
  ps_selected : Z
}.

Definition describeGrade (grade rule : string) : string := if bool_decide (rule = "") then grade else grade +:+ " (" +:+ rule +:+ ")".

Definition describe_row (word : string) (b : BasisRow) : string :=
  " " +:+ word +:+ " overlap with " +:+ BHolder b +:+ " on " +:+ BPath b +:+ " (candidate " +:+ describeGrade (BCandidateGrade b) (BCandidateRule b)
  +:+ ", holder " +:+ describeGrade (BHolderGrade b) (BHolderRule b) +:+ ")".

Definition deferDetail (j : ReleaseJudgement) : string :=
  let start := "its edit regions overlap a node that is running or accepted and not yet landed; release rule " +:+ RuleDefer +:+ ":" in
  let start := if JHeldByPolicy j then start +:+ " local-optimistic release is switched off by the release policy (" +:+ JPolicyReason j +:+ ");" else start in
  let grade := if JHeldByPolicy j then GradeLocal else GradeExclusive in
  let row := match List.find (λ b, bool_decide (BGrade b = grade)) (JBasis j) with Some b => describe_row grade b | None => "" end in
  start +:+ row +:+ "; overlaps: mechanical " +:+ itoa_nat (OMechanical (JOverlaps j)) +:+ ", local " +:+ itoa_nat (OLocal (JOverlaps j)) +:+ ", exclusive " +:+ itoa_nat (OExclusive (JOverlaps j)).

(** The limits, each with the reason and the detail it leaves: an edit overlap, the host's memory, the free slots. *)
Definition overlap_cut (judged : option ReleaseJudgement) : option (string * string * string) :=
  match judged with
  | Some j => if bool_decide (JRule j = RuleDefer) then Some (LimitEditOverlap, DeferEditOverlap, deferDetail j) else None
  | None => None
  end.

Definition host_cut (host : option HostMemoryVerdict) : option (string * string * string) :=
  match host with
  | Some h => if bool_decide (HVState h = HostMemoryDeferring) then Some (LimitHostMemory, DeferHostMemory, HVDetail h) else None
  | None => None
  end.

Definition capacity_cut (cap : Capacity) (selected : Z) : option (string * string * string) :=
  if negb (CFree cap <=? selected)%Z then None
  else if CUnmeasured cap then
    Some (LimitCapacityUnmeasured, DeferCapacityUnmeasured, "an enforced ceiling on a dimension nobody measured leaves no basis to say a slot is free")
  else Some (LimitNoCapacity, DeferNoCapacity, "no slot is free in the scope that binds: " +:+ itoa (CHeld cap) +:+ " held of a ceiling of " +:+ itoa (CCeiling cap)).

(** The limit that cuts a candidate: the first that applies; [None] when it is released. *)
Definition cut_by (cap : Capacity) (host : option HostMemoryVerdict) (judged : option ReleaseJudgement) (selected : Z) : option (string * string * string) :=
  match overlap_cut judged with
  | Some cut => Some cut
  | None => match host_cut host with Some cut => Some cut | None => capacity_cut cap selected end
  end.

(** One candidate of the pass. *)
Definition select_one (plan : string) (cap : Capacity) (policy : option OptimismState) (declarations : gmap string (list Region)) (p : pass) (c : candidate) : result StoreError pass :=
  let id := node_id (cand_node c) in
  let implementation := bool_decide (node_kind (cand_node c) = NodeImplementation) in
  match ps_readings p !! id with
  | None => Err EPanic
  | Some r =>
    let own := holder_of declarations id in
    let judged := if implementation then Some (applyPolicy (judgeRelease (observed plan) own (ps_holders p)) policy) else None in
    let overlaps := match judged with Some j => add_counts (ps_overlaps p) (JOverlaps j) | None => ps_overlaps p end in
    let r := set_judged (cand_rank c) (match judged with Some j => Some j | None => NRRelease r end) r in
    match cut_by cap host_judge judged (ps_selected p) with
    | Some (limit, reason, detail) =>
      Ok (mkPass (<[id := set_outcome DispDefer reason detail r]> (ps_readings p)) (ps_holders p) overlaps
        (if bool_decide (ps_limit p = LimitNone) then limit else ps_limit p) (ps_ready p) (ps_selected p))
    | None =>
      Ok (mkPass (<[id := set_outcome DispReady "" "" r]> (ps_readings p)) (if implementation then ps_holders p ++ [own] else ps_holders p)%list overlaps
        (ps_limit p) (ps_ready p ++ [id])%list (ps_selected p + 1)%Z)
    end
  end.

Fixpoint select (plan : string) (cap : Capacity) (policy : option OptimismState) (declarations : gmap string (list Region)) (p : pass) (cs : list candidate) : result StoreError pass :=
  match cs with
  | [] => Ok p
  | c :: cs' =>
    try! p' := select_one plan cap policy declarations p c in
    select plan cap policy declarations p' cs'
  end.
End ready.

(** ** reading.go: the reading *)
Record StagnationCounts : Type := mkStagnating { RetrySamePacket : nat; EditPacket : nat; SplitNode : nat; NeighbourRepair : nat; FullReplan : nat }.

Definition no_stagnation : StagnationCounts := mkStagnating 0 0 0 0 0.

Definition add_rung (c : StagnationCounts) (rung : string) : StagnationCounts :=
  let '(mkStagnating a b s n f) := c in
  if bool_decide (rung = "retry_same_packet") then mkStagnating (S a) b s n f
  else if bool_decide (rung = "edit_packet") then mkStagnating a (S b) s n f
  else if bool_decide (rung = "split_node") then mkStagnating a b (S s) n f
  else if bool_decide (rung = "neighbour_repair") then mkStagnating a b s (S n) f
  else if bool_decide (rung = "full_replan") then mkStagnating a b s n (S f)
  else c.

#[export] Instance StagnationCounts_eq_dec : EqDecision StagnationCounts.
Proof. solve_decision. Defined.

Record PassSummary : Type := mkPassSummary {
  PSFreeSlots : Z;
  PSCeiling : Z;
  PSHeld : Z;
  PSReadyCount : Z;
  PSCeilingSource : string;
  PSDecidingLimit : string;
  PSOverlaps : OverlapCounts;
  PSOrderConstraints : nat;
  PSHostMemory : option HostMemoryVerdict;
  PSStagnation : StagnationCounts
}.

Record Reading : Type := mkReadingOf {
  RDPlanID : string;
  RDPlanRevision : Z;
  RDStateDigest : string;
  RDInputDigest : string;
  RDPass : PassSummary;
  RDReady : list NodeReading;
  RDNodes : list NodeReading;
  RDPlanState : string;
  RDReleasePolicy : option OptimismState
}.

(** ** Canonical forms *)
Definition vnat (n : nat) : value := VInt (Z.of_nat n).

Definition basis_canonical (b : BasisRow) : value :=
  VMap (map_of ([("holder", VString (BHolder b)); ("grade", VString (BGrade b)); ("recent_observations", vnat (BObservations b)); ("recent_conflicts", vnat (BConflicts b));
    ("unattributed_conflicts", vnat (BUnattributed b))]
    ++ opt_text "repository" (BRepository b) ++ opt_text "path" (BPath b) ++ opt_text "candidate_grade" (BCandidateGrade b) ++ opt_text "candidate_rule" (BCandidateRule b)
    ++ opt_text "holder_grade" (BHolderGrade b) ++ opt_text "holder_rule" (BHolderRule b) ++ opt_text "undeclared" (BUndeclared b))%list).

Definition judgement_canonical (j : ReleaseJudgement) : value :=
  VMap (map_of ([("rule", VString (JRule j)); ("basis", VList (basis_canonical <$> JBasis j)); ("basis_omitted", vnat (JOmitted j));
    ("overlaps", VMap (map_of [("mechanical", vnat (OMechanical (JOverlaps j))); ("local", vnat (OLocal (JOverlaps j))); ("exclusive", vnat (OExclusive (JOverlaps j)))]))]
    ++ (if JHeldByPolicy j then [("held_by_policy", VBool true)] else []))%list).

Definition stagnating_canonical (c : StagnationCounts) : value :=
  VMap (map_of [("retry_same_packet", vnat (RetrySamePacket c)); ("edit_packet", vnat (EditPacket c)); ("split_node", vnat (SplitNode c)); ("neighbour_repair", vnat (NeighbourRepair c));
    ("full_replan", vnat (FullReplan c))]).

Definition opt_value {A} (key : string) (f : A → value) (o : option A) : list (string * value) := match o with Some a => [(key, f a)] | None => [] end.

Definition node_entry (n : NodeReading) : value :=
  VMap (map_of ([("node_id", VString (NRNodeID n)); ("state", VString (NRState n)); ("disposition", VString (NRDisposition n)); ("reason", VString (NRReason n)); ("detail", VString (NRDetail n))]
    ++ opt_value "release" judgement_canonical (NRRelease n) ++ opt_value "merge_order" id (NRMergeOrder n) ++ opt_value "stagnation" StCanonical (NRStagnation n))%list).

(** [inputDigest], of a reading whose digest is not set yet. *)
Definition digest_object (r : Reading) (c : Capacity) (hashes : list string) : value :=
  VMap (map_of ([("plan_id", VString (RDPlanID r)); ("plan_revision", VInt (RDPlanRevision r)); ("state_digest", VString (RDStateDigest r)); ("nodes", VList (node_entry <$> RDNodes r));
    ("order", VList ((λ n, VString (NRNodeID n)) <$> RDReady r)); ("files", VList (VString <$> sort_strings hashes));
    ("free", VInt (CFree c)); ("ceiling", VInt (CCeiling c)); ("held", VInt (CHeld c)); ("source", VString (CSource c)); ("unmeasured", VBool (CUnmeasured c));
    ("deciding_limit", VString (PSDecidingLimit (RDPass r)))]
    ++ (if (0 <? PSOrderConstraints (RDPass r))%nat then [("order_constraints", vnat (PSOrderConstraints (RDPass r)))] else [])
    ++ opt_value "release_policy" optimism_canonical (RDReleasePolicy r) ++ opt_value "host_memory" HVObject (PSHostMemory (RDPass r))
    ++ (if bool_decide (PSStagnation (RDPass r) = no_stagnation) then [] else [("stagnation", stagnating_canonical (PSStagnation (RDPass r)))]))%list).

Definition inputDigest (r : Reading) (c : Capacity) (hashes : list string) : string := Digest (digest_object r c hashes).

(** ** ready.go: Ready *)
Section reading.
Context {V : View}.

(** The readings of the loop over the nodes, by id. *)
Definition readings_of (cs : list contribution) : gmap string NodeReading := foldl (λ m c, <[NRNodeID (cn_reading c) := cn_reading c]> m) ∅ cs.

Definition stagnating_of (cs : list contribution) : StagnationCounts :=
  foldl (λ acc c, match NRStagnation (cn_reading c) with Some s => add_rung acc (StRung s) | None => acc end) no_stagnation cs.

(** [for id, order := range orders { readings[id].MergeOrder = order }] *)
Definition with_orders (orders : gmap string value) (readings : gmap string NodeReading) : option (gmap string NodeReading) :=
  if forallb (λ id, bool_decide (is_Some (readings !! id))) (map_to_list orders).*1 then Some (map_imap (λ id r, Some (match orders !! id with Some o => set_order o r | None => r end)) readings) else None.

(** The loop over the nodes of a snapshot, and what it collects. *)
Definition read_plan (st : Store) (plan : string) (snap : Snapshot) (opts : ReadyOptions) (declarations : gmap string (list Region)) : result StoreError (list contribution) :=
  let nodes := sort_by node_id (SnapNodes snap) in
  let metrics := default (∅, ∅) (graphMetrics nodes (outgoing_of (SnapEdges snap))) in
  read_all (read_node st plan snap opts declarations metrics) nodes.

Definition first_pass (cs : list contribution) : pass :=
  mkPass (readings_of cs) (omap cn_holder cs) (mkOverlapCounts 0 0 0) LimitNone [] 0.

Definition Ready (st : Store) (plan : string) (opts : ReadyOptions) : result StoreError Reading :=
  try! (snap, _) := SnapshotAt st plan 0 in
  try! cap := capacity (SnapProjectKey snap) in
  try! declarations := loadDeclarations plan in
  try! policy := releasePolicy plan snap in
  try! cs := read_plan st plan snap opts declarations in
  try! p := select plan cap policy declarations (first_pass cs) (sort_less cand_less (omap cn_candidate cs)) in
  try! (orders, constrained) := orderConstraints plan (omap cn_live cs) declarations in
  match with_orders orders (ps_readings p) with
  | None => Err EPanic
  | Some readings =>
    let summary := mkPassSummary (CFree cap) (CCeiling cap) (CHeld cap) (ps_selected p) (CSource cap) (ps_limit p) (ps_overlaps p) constrained host_judge (stagnating_of cs) in
    let find id := option_list (readings !! id) in
    let out digest := mkReadingOf plan (SnapRevision snap) (SnapStateDigest snap) digest summary (ps_ready p ≫= find) ((node_id <$> sort_by node_id (SnapNodes snap)) ≫= find)
      (SnapPlanState snap) policy in
    Ok (out (inputDigest (out "") cap (concat (cn_hashes <$> cs))))
  end.
End reading.
