(* ===== verification/SchedReadyProps.v ===== *)
(** * SchedReadyProps: the theorems on the ready set of a plan, and first a plan of three nodes read with one parent and two free slots.

    The files [a] and [b] declare overlap, so [a] is offered and [b] is deferred; [c] is offered beside [a]. The theorems on [Ready] are applied to it. *)
From stdpp Require Import relations.
From S2P Require Import Prelude GoLib Sha256 Json Loads Utf8 JsonText JsonRoundtrip JsonLoaded DagModel DagLifecycle DagGraph DagAcyclic DagFold DagInvariant DagPlan DagReplay DagStore DagRepo DagStored DagRepoProps DagZone GoPath SchedPolicy SchedRegions SchedRegionsProps SchedGraph SchedReady.
Local Open Scope string_scope.
Local Open Scope list_scope.
Module ReadyExample.
Import RepoExample.

Definition three : Revision := mkRevision "p1" "CRW" "req-1" 0 0 "task"
  [mkChange "add_node" (Some (node "a")) None "" "" ""; mkChange "add_node" (Some (node "b")) None "" "" ""; mkChange "add_node" (Some (node "c")) None "" "" ""].
Definition stored : Store := Eval vm_compute in (Put empty three "t1").1.

Lemma example_plan_inv : store_inv stored.
Proof.
  pose proof (Put_inv empty three "t1" (store_inv_empty [] [])) as H. assert ((Put empty three "t1").1 = stored) as E by (vm_compute; reflexivity). by rewrite E in H.
Qed.

Definition file (p : string) : Region := mkRegion "r" p "file" "" "edit" false "" "".
Definition declared : gmap string (list Region) := <["a" := [file "x.go"]]> (<["b" := [file "x.go"; file "y.go"]]> (<["c" := [file "z.go"]]> ∅)).

(** Nobody owns a node, and no edge is satisfied. *)
#[export] Instance view : View := {
  stateOf _ _ _ := Ok (mkNodeState StatePlanned false "" "" "" VNull false false);
  stagnation_of _ _ _ := Ok None;
  staleOf _ _ _ := Ok None;
  withRoute _ _ _ _ := Ok None;
  edgeStatus _ _ e := Ok (mkEdgeStatus false (WaitEdgePrefix +:+ "e1") "" "" "" "" "" 0);
  checkInputs _ _ _ _ := Ok (mkVerdict None []);
  capacity _ := Ok (mkCapacity 2 2 0 "declared" "" false);
  host_judge := None;
  loadDeclarations _ := Ok declared;
  releasePolicy _ _ := Ok None;
  observed _ := [];
  orderConstraints _ _ _ := Ok (∅, 0%nat);
  relationships := [];
  managed_start_requests := [];
  scope_bindings := [mkBinding "task" "parent" "project" "CRW" "active" None];
  merge_turns := []
}.

Definition opts : ReadyOptions := mkReadyOptions false "".
Definition none : Reading := mkReadingOf "" 0 "" "" (mkPassSummary 0 0 0 0 "" "" (mkOverlapCounts 0 0 0) 0 None no_stagnation) [] [] "" None.
Definition reading : Reading := Eval vm_compute in match Ready stored "p1" opts with Ok r => r | Err _ => none end.
Definition snap : Snapshot := Eval vm_compute in match SnapshotAt stored "p1" 0 with Ok (s, _) => s | Err _ => mkSnapshot "" "" 0 [] [] "" "" end.
Definition node_b : SnapNode := Eval vm_compute in default (mkSnapNode (node "") "" "" 0 "") (SnapNodes snap !! 1%nat).

Example offered_two : NRNodeID <$> RDReady reading = ["a"; "c"] ∧
  (λ n, (NRNodeID n, NRReason n)) <$> RDNodes reading = [("a", ""); ("b", DeferEditOverlap); ("c", "")] ∧ PSDecidingLimit (RDPass reading) = LimitEditOverlap.
Proof. vm_compute. done. Qed.

Lemma run : Ready stored "p1" opts = Ok reading.
Proof. vm_compute. reflexivity. Qed.
Lemma read : SnapshotAt stored "p1" 0 = Ok (snap, 1%Z).
Proof. vm_compute. reflexivity. Qed.
End ReadyExample.

(** * The theorems *)
Local Open Scope string_scope.
(** ** The snapshot a reading starts from *)

(** What the reading relies on: one node per id, and no cycle. *)
Record snapshot_ok (snap : Snapshot) : Prop := {
  so_ids : NoDup (node_id <$> SnapNodes snap);
  so_acyclic : ∀ u, ¬ tc (next_of (outgoing_of (SnapEdges snap))) u u
}.

Lemma successors_outgoing edges u v : v ∈ successors (outgoing_of edges) u ↔ ∃ e, e ∈ edges ∧ FromNodeID (SEEdge e) = u ∧ ToNodeID (SEEdge e) = v.
Proof.
  unfold outgoing_of, successors. assert (∀ m, v ∈ default [] (foldl (λ m e, append_at m (FromNodeID (SEEdge e)) (ToNodeID (SEEdge e))) m edges !! u) ↔
    v ∈ default [] (m !! u) ∨ ∃ e, e ∈ edges ∧ FromNodeID (SEEdge e) = u ∧ ToNodeID (SEEdge e) = v) as H.
  { induction edges as [|e edges IH]; intros m; cbn [foldl].
    - split; [by left|]. intros [?|(e & ?%elem_of_nil & _)]; done.
    - rewrite IH, append_at_lookup, elem_of_app. setoid_rewrite elem_of_cons. case_decide as Hd; [rewrite list_elem_of_singleton|rewrite elem_of_nil]; naive_solver. }
  rewrite H, lookup_empty. cbn. rewrite elem_of_nil. naive_solver.
Qed.

Lemma plan_snapshot_ok s : plan_inv s → snapshot_ok (At s (SRevision s)).
Proof.
  intros Hi. rewrite (At_current s Hi). cbv zeta. split; cbn [SnapNodes SnapEdges].
  - unfold node_id. rewrite sort_by_perm, <- list_fmap_compose. apply (pi_live_ids _ Hi).
  - intros u Hu. destruct (pi_graph _ Hi) as [Hedges Hac]. apply (Hac u). revert Hu. generalize u at 2 4. intros w Hw.
    assert (∀ x y, next_of (outgoing_of (sort_by (λ e, EdgeID (SEEdge e)) (snap_edge <$> filter live_edge (SEdges s)))) x y → arc (plan_nodes s) (plan_edges s) x y) as Harc.
    { intros x y (e & He & <- & <-)%successors_outgoing. apply elem_of_sort_by, list_elem_of_fmap in He as (row & -> & Hrow). cbn [SEEdge snap_edge].
      assert (EREdge row ∈ (map_to_list (plan_edges s)).*2) as Hin by (rewrite <- (live_edges_perm s Hi); by apply list_elem_of_fmap_2).
      apply list_elem_of_fmap in Hin as ([id e] & E & He%elem_of_map_to_list). cbn in E. subst e. exists id, (EREdge row). destruct (Hedges _ _ He) as (Hne & Hto & from & Hfrom & _).
      split_and!; [done|done|done|done|by eexists|done]. }
    induction Hw as [x y H|x y z H _ IH]; [by apply tc_once, Harc|]. eapply tc_l; [by apply Harc|done].
Qed.

Lemma head_snapshot_ok st plan snap head : store_inv st → SnapshotAt st plan 0 = Ok (snap, head) → snapshot_ok snap.
Proof.
  intros Hi Hs. destruct (loadHeader st plan) as [project|] eqn:Hh; [|unfold SnapshotAt in Hs; by rewrite Hh in Hs].
  destruct (header_stored _ _ _ Hi Hh) as (_ & evs & s & Hst & Hne). pose proof (stored_positive _ _ _ _ _ Hst Hne) as Hp.
  rewrite (SnapshotAt_stored _ _ _ _ _ Hst Hh Hne 0) in Hs by lia. injection Hs as <- <-. apply plan_snapshot_ok, (stored_inv _ _ _ _ _ Hst).
Qed.

(** ** What the loop over the nodes collects *)
Section view.
Context {V : View}.

Lemma read_all_ok f nodes : ∀ cs, read_all f nodes = Ok cs → Forall2 (λ n c, f n = Ok c) nodes cs.
Proof.
  induction nodes as [|n nodes IH]; intros cs; cbn [read_all]; [intros [= <-]; constructor|].
  destruct (f n) as [c|] eqn:E; [|done]. destruct (read_all f nodes) as [cs'|]; [|done]. intros [= <-]. constructor; [done|by apply IH].
Qed.

(** The statuses of the edges of a node, as the loop collects them. *)
Definition statuses_of (plan : string) (snap : Snapshot) (edges : list SnapEdge) : gmap string EdgeStatus :=
  foldl (λ m e, match edgeStatus plan snap e with Ok status => <[EdgeID (SEEdge e) := status]> m | Err _ => m end) ∅ edges.

Definition satisfied (plan : string) (snap : Snapshot) (e : SnapEdge) : Prop := ∃ status, edgeStatus plan snap e = Ok status ∧ ESSatisfied status = true.

Lemma edges_loop_all plan snap edges : ∀ m since m' since',
  edges_loop plan snap m since edges = Ok (inr (m', since')) →
  Forall (satisfied plan snap) edges ∧ m' = foldl (λ m e, match edgeStatus plan snap e with Ok status => <[EdgeID (SEEdge e) := status]> m | Err _ => m end) m edges.
Proof.
  induction edges as [|e edges IH]; intros m since m' since'; cbn [edges_loop foldl]; [by intros [= -> ->]|].
  destruct (edgeStatus plan snap e) as [status|] eqn:E; [|done]. destruct (ESSatisfied status) eqn:Es; cbn [negb]; [|done].
  intros [Hall ->]%IH. split; [|done]. constructor; [by exists status|done].
Qed.

Lemma edges_loop_satisfied plan snap edges : Forall (satisfied plan snap) edges → ∀ m since, ∃ since',
  edges_loop plan snap m since edges = Ok (inr (foldl (λ m e, match edgeStatus plan snap e with Ok status => <[EdgeID (SEEdge e) := status]> m | Err _ => m end) m edges, since')).
Proof.
  induction 1 as [|e edges (status & E & Hs) Hall IH]; intros m since; cbn [edges_loop foldl]; [by eexists|]. rewrite E, Hs. cbn [negb]. apply IH.
Qed.

(** A node the release may choose: nobody owns it, the plan does not hold it, its incoming edges are satisfied, its inputs verify, and nothing outside the plan holds it. *)
Definition eligible (plan : string) (snap : Snapshot) (opts : ReadyOptions) (n : SnapNode) : Prop :=
  ∃ state verdict, stateOf plan snap n = Ok state ∧ NSOwned state = false ∧ life_active (lifeOf_node snap n) = true ∧
    Forall (satisfied plan snap) (incoming_edges snap (node_id n)) ∧
    checkInputs plan (incoming_edges snap (node_id n)) (statuses_of plan snap (incoming_edges snap (node_id n))) (SkipArtifactBytes opts) = Ok verdict ∧ IVFinding verdict = None ∧
    resourceHold snap n (incoming_edges snap (node_id n)) (negb (bool_decide (node_id n = AgentNode opts))) = None.

(** A node whose edit regions are in use. *)
Definition holds_regions (plan : string) (snap : Snapshot) (n : SnapNode) : Prop :=
  ∃ state, stateOf plan snap n = Ok state ∧ NSOwned state = true ∧ NSHolds state = true ∧ node_kind n = NodeImplementation.

Lemma overlay_names l state r : NRNodeID (overlayOwned l state r) = NRNodeID r ∧ NRKind (overlayOwned l state r) = NRKind r.
Proof. unfold overlayOwned. destruct (life_reason l (NRNodeID (set_lifecycle (life_node l) r))). repeat case_match; done. Qed.

(** What a node contributes. *)
Record contributes (plan : string) (snap : Snapshot) (opts : ReadyOptions) (declarations : gmap string (list Region)) (n : SnapNode) (c : contribution) : Prop := {
  co_id : NRNodeID (cn_reading c) = node_id n;
  co_kind : NRKind (cn_reading c) = node_kind n;
  co_candidate : ∀ d, cn_candidate c = Some d → cand_node d = n;
  co_eligible : is_Some (cn_candidate c) ↔ eligible plan snap opts n;
  co_holder : ∀ h, cn_holder c = Some h ↔ h = holder_of declarations (node_id n) ∧ holds_regions plan snap n
}.

Lemma read_owned_contributes plan snap opts declarations n state r c : stateOf plan snap n = Ok state → NSOwned state = true → NRNodeID r = node_id n → NRKind r = node_kind n →
  read_owned plan snap declarations n state r = Ok c → contributes plan snap opts declarations n c.
Proof.
  intros Es Ho Hid Hk. unfold read_owned. cbv zeta. destruct (if bool_decide (NSState state = StateStale) then _ else _) as [stale|]; [|done].
  pose proof (overlay_names (lifeOf_node snap n) state (set_stale stale (set_outcome (NSDisp state) (NSReason state) (NSDetail state) r))) as [E1 E2]. cbn [NRNodeID NRKind set_stale set_outcome] in E1, E2.
  assert (¬ eligible plan snap opts n) as Hne by (intros (s' & v & E' & Ho' & _); congruence).
  assert (holds_regions plan snap n ↔ NSHolds state && bool_decide (node_kind n = NodeImplementation) = true) as Hh.
  { rewrite andb_true_iff, bool_decide_eq_true. split; [intros (s' & E' & _ & ? & ?); split; congruence|intros []; by exists state]. }
  destruct (NSHolds state && bool_decide (node_kind n = NodeImplementation)) eqn:Eh; intros [= <-]; split; cbn [cn_reading cn_candidate cn_holder only]; try congruence; try done.
  - intros h. split; [intros [= <-]; split; [done|by apply Hh]|by intros [-> _]].
  - intros h. split; [done|]. intros [_ H%Hh]. congruence.
Qed.

Lemma read_unowned_contributes st plan snap opts declarations metrics n state r c : stateOf plan snap n = Ok state → NSOwned state = false → life_active (lifeOf_node snap n) = true →
  NRNodeID r = node_id n → NRKind r = node_kind n → read_unowned st plan snap opts metrics n r = Ok c → contributes plan snap opts declarations n c.
Proof.
  intros Es Ho Hl Hid Hk. unfold read_unowned. cbv zeta. set (inc := incoming_edges snap (node_id n)).
  assert (∀ h, (None : option holder) = Some h ↔ h = holder_of declarations (node_id n) ∧ holds_regions plan snap n) as Hh.
  { intros h. split; [done|]. intros [_ (s' & E' & Ho' & _)]. congruence. }
  destruct (edges_loop plan snap ∅ "" inc) as [walked|] eqn:Ew; [|done].
  assert (eligible plan snap opts n → ∃ since, walked = inr (statuses_of plan snap inc, since)) as Hw.
  { intros (_ & _ & _ & _ & _ & Hall & _). destruct (edges_loop_satisfied plan snap inc Hall ∅ "") as [since E]. exists since. rewrite E in Ew. by injection Ew as <-. }
  destruct walked as [first|[statuses since]].
  { intros [= <-]. split; cbn; try done. split; [by intros []|]. intros H. by destruct (Hw H) as [? ?]. }
  apply edges_loop_all in Ew as [Hall ->]. fold (statuses_of plan snap inc). clear Hw.
  destruct (checkInputs plan inc (statuses_of plan snap inc) (SkipArtifactBytes opts)) as [verdict|] eqn:Ec; [|done].
  assert (eligible plan snap opts n ↔ IVFinding verdict = None ∧ resourceHold snap n inc (negb (bool_decide (node_id n = AgentNode opts))) = None) as Hel.
  { split; [intros (s' & v & _ & _ & _ & _ & Ev & Hf & Hr); unfold inc in *; split; congruence|]. intros [Hf Hr]. exists state, verdict. done. }
  destruct (IVFinding verdict) as [f|].
  { intros [= <-]. split; cbn; try done. split; [by intros []|]. by intros [? _]%Hel. }
  destruct (resourceHold snap n inc _) as [[reason detail]|].
  { intros [= <-]. split; cbn; try done. split; [by intros []|]. by intros [_ ?]%Hel. }
  intros [= <-]. split; cbn; try done; [by intros d [= <-]|]. split; [intros _; by apply Hel|by eexists].
Qed.

Lemma read_node_contributes st plan snap opts declarations metrics n c :
  read_node st plan snap opts declarations metrics n = Ok c → contributes plan snap opts declarations n c.
Proof.
  unfold read_node. destruct (stateOf plan snap n) as [state|] eqn:Es; [|done]. destruct (stagnation_of plan snap n) as [stag|]; [|done]. cbv zeta.
  destruct (NSOwned state) eqn:Ho; [by apply read_owned_contributes|]. destruct (life_active (lifeOf_node snap n)) eqn:Hl; cbn [negb]; [by eapply read_unowned_contributes|].
  intros [= <-]. unfold holdUnowned. cbn [NRNodeID]. destruct (life_reason (lifeOf_node snap n) (node_id n)) as [reason detail]. split; cbn; try done.
  - split; [by intros []|]. intros (s' & v & _ & _ & H & _). congruence.
  - intros h. split; [done|]. intros [_ (s' & E' & Ho' & _)]. congruence.
Qed.
End view.

(** ** The pass over the candidates *)
Local Open Scope list_scope.

Section pass.
Context {V : View}.
Context (plan : string) (cap : Capacity) (policy : option OptimismState) (declarations : gmap string (list Region)).
Context (R0 : gmap string NodeReading) (H0 : list holder).

Definition cid (c : candidate) : string := node_id (cand_node c).
Definition implementation (c : candidate) : Prop := node_kind (cand_node c) = NodeImplementation.
Definition own_holder (c : candidate) : holder := holder_of declarations (cid c).
Definition released_holders (released : list candidate) : list holder := own_holder <$> filter implementation released.

Definition policy_off : Prop := ∃ o, policy = Some o ∧ OptOn o = false.
Definition host_short : Prop := ∃ h, host_judge = Some h ∧ HVState h = HostMemoryDeferring.

(** An overlap that defers a candidate: an exclusive one, or a local one while the policy has optimism off. *)
Definition clashes (h : holder) (others : list holder) : Prop := overlap h others GradeExclusive ∨ policy_off ∧ overlap h others GradeLocal.

(** Why a candidate is deferred, given the candidates that are released. *)
Definition justified (released : list candidate) (c : candidate) (reason : string) : Prop :=
  reason = DeferEditOverlap ∧ implementation c ∧ clashes (own_holder c) (H0 ++ released_holders released) ∨
  reason = DeferHostMemory ∧ host_short ∨
  reason ∈ [DeferNoCapacity; DeferCapacityUnmeasured] ∧ (CFree cap ≤ Z.of_nat (length released))%Z.

Definition judged_reading (c : candidate) (r0 r : NodeReading) (disp reason : string) : Prop := ∃ j detail, r = set_outcome disp reason detail (set_judged (cand_rank c) j r0).

Record pass_inv (seen released : list candidate) (p : pass) : Prop := {
  pa_sub : released `sublist_of` seen;
  pa_ready : ps_ready p = cid <$> released;
  pa_count : ps_selected p = Z.of_nat (length released);
  pa_free : (Z.of_nat (length released) ≤ Z.max 0 (CFree cap))%Z;
  pa_host : host_short → released = [];
  pa_holders : ps_holders p = H0 ++ released_holders released;
  pa_apart : ∀ before c after, released = before ++ c :: after → implementation c → ¬ clashes (own_holder c) (H0 ++ released_holders before);
  pa_others : ∀ id, id ∉ cid <$> seen → ps_readings p !! id = R0 !! id;
  pa_released : ∀ c, c ∈ released → ∃ r0 r, R0 !! cid c = Some r0 ∧ ps_readings p !! cid c = Some r ∧ judged_reading c r0 r DispReady "";
  pa_deferred : ∀ c, c ∈ seen → c ∉ released → ∃ r0 r reason, R0 !! cid c = Some r0 ∧ ps_readings p !! cid c = Some r ∧ judged_reading c r0 r DispDefer reason ∧ justified released c reason;
  pa_limit : ps_limit p = LimitNone ↔ released = seen
}.

Lemma overlap_app h hs1 hs2 g : overlap h hs1 g → overlap h (hs1 ++ hs2) g.
Proof. intros (x & a & b & Hx & ?). exists x, a, b. split; [apply elem_of_app; by left|done]. Qed.

Lemma released_holders_snoc released c : released_holders (released ++ [c]) = released_holders released ++ (if decide (implementation c) then [own_holder c] else []).
Proof. unfold released_holders. rewrite filter_app, fmap_app, filter_cons. by case_decide. Qed.

Lemma justified_snoc released c d reason : justified released c reason → justified (released ++ [d]) c reason.
Proof.
  unfold justified, clashes. rewrite released_holders_snoc, length_app, (assoc_L (++)). intros [(-> & Hi & Ho)|[H|[? ?]]].
  - left. split_and!; [done|done|]. destruct Ho as [?|[? ?]]; [left|right; split; [done|]]; by apply overlap_app.
  - right. by left.
  - right. right. split; [done|cbn; lia].
Qed.

(** The judgement of a candidate, with the policy, is a deferral exactly when its regions clash. *)
Lemma judged_defers items h others : JRule (applyPolicy (judgeRelease items h others) policy) = RuleDefer ↔ clashes h others.
Proof.
  unfold clashes, policy_off, applyPolicy. destruct (judge_cases items h others) as [(HE & E)|[(HE & HL & E)|[(HE & HL & HM & E)|(HE & HL & HM & E)]]];
    (destruct policy as [o|]; [destruct (OptOn o) eqn:Eo; cbn [orb]; [|case_bool_decide as Hr; cbn [negb JRule]; rewrite E in Hr]|]); rewrite ?E; split; try done; try tauto; try by left.
  all: try (intros [?|[(o' & [= <-] & ?) ?]]; [done|congruence]).
  all: try (intros [?|[(o' & ? & ?) ?]]; done).
  intros _. right. split; [by exists o|done].
Qed.

Lemma cut_by_cases judged selected :
  match cut_by cap host_judge judged selected with
  | Some (limit, reason, _) => limit ≠ LimitNone ∧
      (reason = DeferEditOverlap ∧ (∃ j, judged = Some j ∧ JRule j = RuleDefer) ∨ reason = DeferHostMemory ∧ host_short ∨ reason ∈ [DeferNoCapacity; DeferCapacityUnmeasured] ∧ (CFree cap ≤ selected)%Z)
  | None => (∀ j, judged = Some j → JRule j ≠ RuleDefer) ∧ ¬ host_short ∧ (selected < CFree cap)%Z
  end.
Proof.
  unfold cut_by. destruct (overlap_cut judged) as [[[limit reason] detail]|] eqn:Eo.
  { unfold overlap_cut in Eo. destruct judged as [j|]; [|done]. case_bool_decide; [|done]. injection Eo as <- <- <-. split; [done|]. left. split; [done|by exists j]. }
  destruct (host_cut host_judge) as [[[limit reason] detail]|] eqn:Eh.
  { unfold host_cut in Eh. destruct host_judge as [h|] eqn:E; [|done]. case_bool_decide; [|done]. injection Eh as <- <- <-. split; [done|]. right. left. split; [done|by exists h]. }
  unfold capacity_cut. destruct (Z.leb_spec (CFree cap) selected) as [Hf|Hf]; cbn [negb].
  { destruct (CUnmeasured cap); (split; [done|right; right; split; [|done]]); [by right; left|by left]. }
  split_and!; [| |done].
  - intros j ->. cbn in Eo. by case_bool_decide.
  - intros (h & E & Hh). unfold host_cut in Eh. rewrite E in Eh. by case_bool_decide.
Qed.

(** The candidates seen so far are not the next one. *)
Lemma seen_other seen released c d : released `sublist_of` seen → cid c ∉ cid <$> seen → d ∈ seen ∨ d ∈ released → cid c ≠ cid d.
Proof.
  intros Hsub Hc Hd E. apply Hc. rewrite E. apply list_elem_of_fmap_2. destruct Hd as [?|Hd]; [done|]. by apply (elem_of_sublist released).
Qed.

Lemma not_seen_snoc id seen c : id ∉ cid <$> seen ++ [c] → cid c ≠ id ∧ id ∉ cid <$> seen.
Proof. rewrite fmap_app, elem_of_app. intros H. split; [intros <-; apply H; right; by left|tauto]. Qed.

Lemma pass_cut seen released p c r j reason detail limit overlaps : pass_inv seen released p → cid c ∉ cid <$> seen → R0 !! cid c = Some r → limit ≠ LimitNone → justified released c reason →
  pass_inv (seen ++ [c]) released (mkPass (<[cid c := set_outcome DispDefer reason detail (set_judged (cand_rank c) j r)]> (ps_readings p)) (ps_holders p) overlaps
    (if bool_decide (ps_limit p = LimitNone) then limit else ps_limit p) (ps_ready p) (ps_selected p)).
Proof.
  intros Hp Hc Hr Hl Hj. pose proof (seen_other seen released c) as Hother. specialize (λ d, Hother d (pa_sub _ _ _ Hp) Hc).
  assert (c ∉ released) as Hnew by (intros H; by apply (Hother c (or_intror H))).
  split; cbn [ps_ready ps_selected ps_holders ps_readings ps_limit]; try apply Hp.
  - etrans; [apply Hp|]. by apply sublist_inserts_r.
  - intros id [Hne Hid]%not_seen_snoc. rewrite lookup_insert_ne by done. by apply (pa_others _ _ _ Hp).
  - intros d Hd. rewrite lookup_insert_ne by (apply Hother; by right). by apply (pa_released _ _ _ Hp).
  - intros d [Hd| ->%list_elem_of_singleton]%elem_of_app Hn.
    + rewrite lookup_insert_ne by (apply Hother; by left). by apply (pa_deferred _ _ _ Hp).
    + rewrite lookup_insert_eq. exists r, (set_outcome DispDefer reason detail (set_judged (cand_rank c) j r)), reason. split_and!; [done|done|by exists j, detail|done].
  - case_bool_decide as El; (split; [intros ?; done|]); intros ->; destruct Hnew; apply elem_of_app; right; by left.
Qed.

Lemma pass_release seen released p c r j overlaps : pass_inv seen released p → cid c ∉ cid <$> seen → R0 !! cid c = Some r → ¬ host_short → (ps_selected p < CFree cap)%Z →
  (implementation c → ¬ clashes (own_holder c) (H0 ++ released_holders released)) →
  pass_inv (seen ++ [c]) (released ++ [c]) (mkPass (<[cid c := set_outcome DispReady "" "" (set_judged (cand_rank c) j r)]> (ps_readings p))
    (ps_holders p ++ if decide (implementation c) then [own_holder c] else []) overlaps (ps_limit p) (ps_ready p ++ [cid c]) (ps_selected p + 1)%Z).
Proof.
  intros Hp Hc Hr Hh Hf Hclash. pose proof (seen_other seen released c) as Hother. specialize (λ d, Hother d (pa_sub _ _ _ Hp) Hc).
  pose proof (pa_count _ _ _ Hp) as Hcount. split; cbn [ps_ready ps_selected ps_holders ps_readings ps_limit].
  - apply sublist_app; [apply Hp|done].
  - by rewrite fmap_app, (pa_ready _ _ _ Hp).
  - rewrite Hcount, length_app. cbn. lia.
  - rewrite length_app. cbn. lia.
  - done.
  - rewrite (pa_holders _ _ _ Hp), released_holders_snoc. by rewrite (assoc_L (++)).
  - intros before d after E Hd. destruct after as [|x after _] using rev_ind.
    + apply app_inj_tail in E as [-> ->]. by apply Hclash.
    + rewrite app_comm_cons, (assoc_L (++)) in E. apply app_inj_tail in E as [E _]. by eapply (pa_apart _ _ _ Hp).
  - intros id [Hne Hid]%not_seen_snoc. rewrite lookup_insert_ne by done. by apply (pa_others _ _ _ Hp).
  - intros d [Hd| ->%list_elem_of_singleton]%elem_of_app.
    + rewrite lookup_insert_ne by (apply Hother; by right). by apply (pa_released _ _ _ Hp).
    + rewrite lookup_insert_eq. eexists r, _. split_and!; [done|done|by exists j, ""].
  - intros d [Hd| ->%list_elem_of_singleton]%elem_of_app Hn; [|destruct Hn; apply elem_of_app; right; by left].
    rewrite lookup_insert_ne by (apply Hother; by left). destruct (pa_deferred _ _ _ Hp d Hd) as (r0 & r1 & reason & ? & ? & ? & ?); [intros ?; apply Hn; apply elem_of_app; by left|].
    exists r0, r1, reason. split_and!; [done|done|done|by apply justified_snoc].
  - rewrite (pa_limit _ _ _ Hp). split; [by intros ->|]. intros E. by apply app_inj_tail in E as [-> _].
Qed.

Lemma select_one_inv seen released p c p' : pass_inv seen released p → cid c ∉ cid <$> seen → select_one plan cap policy declarations p c = Ok p' →
  ∃ released', pass_inv (seen ++ [c]) released' p'.
Proof.
  intros Hp Hc. unfold select_one. fold (cid c). destruct (ps_readings p !! cid c) as [r|] eqn:Er; [|done]. cbv zeta.
  set (judged := if bool_decide _ then _ else _). pose proof (cut_by_cases judged (ps_selected p)) as Hcut.
  assert (∀ j, judged = Some j → implementation c ∧ (JRule j = RuleDefer ↔ clashes (own_holder c) (H0 ++ released_holders released))) as Hj.
  { intros j. unfold judged. case_bool_decide; [|done]. intros [= <-]. split; [done|]. rewrite judged_defers, (pa_holders _ _ _ Hp). done. }
  rewrite (pa_others _ _ _ Hp _ Hc) in Er. destruct (cut_by cap host_judge judged (ps_selected p)) as [[[limit reason] detail]|]; intros [= <-].
  - destruct Hcut as [Hl Hcut]. exists released. apply pass_cut; [done|done|done|done|]. rewrite (pa_count _ _ _ Hp) in Hcut.
    destruct Hcut as [(-> & j & Ej & Hd)|[H|H]]; [left|right; by left|right; by right]. destruct (Hj j Ej) as [Hi Hd']. split_and!; [done|done|by apply Hd'].
  - destruct Hcut as (Hn & Hh & Hf). exists (released ++ [c]). eassert (_ = _) as ->; [|apply pass_release; [done|done|done|done|done|]].
    + f_equal. case_bool_decide as Hi; [by rewrite decide_True by done|]. rewrite decide_False by done. by rewrite app_nil_r.
    + intros Hi. unfold judged in Hn, Hj. rewrite bool_decide_true in Hn, Hj by done. destruct (Hj _ eq_refl) as [_ <-]. by apply Hn.
Qed.

Lemma select_inv cs : ∀ seen released p p', NoDup (cid <$> seen ++ cs) → pass_inv seen released p → select plan cap policy declarations p cs = Ok p' →
  ∃ released', pass_inv (seen ++ cs) released' p'.
Proof.
  induction cs as [|c cs IH]; intros seen released p p' Hnd Hp; cbn [select]; [intros [= <-]; exists released; by rewrite app_nil_r|].
  destruct (select_one plan cap policy declarations p c) as [p1|] eqn:E; [|done]. intros Hs.
  destruct (select_one_inv seen released p c p1 Hp) as [released1 H1]; [|done|].
  - rewrite fmap_app, fmap_cons in Hnd. apply NoDup_app in Hnd as (_ & Hnd & _). intros H. apply (Hnd _ H). by left.
  - destruct (IH (seen ++ [c]) released1 p1 p') as [released' H']; [by rewrite <- (assoc_L (++))|done|done|]. exists released'. by rewrite <- (assoc_L (++)) in H'.
Qed.
End pass.

(** ** A whole reading *)
Lemma Forall2_in {A B} (P : A → B → Prop) l k : Forall2 P l k → Forall2 (λ x y, x ∈ l ∧ P x y) l k.
Proof.
  intros H. assert (∀ l', l ⊆ l' → Forall2 (λ x y, x ∈ l' ∧ P x y) l k) as Hl; [|by apply Hl]. induction H as [|x y l k HP H IH]; intros l' Hsub; constructor.
  - split; [apply Hsub; by left|done].
  - apply IH. intros z Hz. apply Hsub. by right.
Qed.

Lemma sort_less_perm {A} (less : A → A → bool) l : sort_less less l ≡ₚ l.
Proof.
  induction l as [|x l IH]; cbn [sort_less]; [done|]. rewrite <- IH at 2. generalize (sort_less less l) as k. induction k as [|y k IHk]; cbn [less_insert]; [done|].
  destruct (less y x); [|done]. rewrite IHk. constructor.
Qed.

Section run.
Context {V : View}.

(** What a reading says of a released candidate, and of any node. *)
Record released_reading (c : candidate) (x : NodeReading) : Prop := {
  rr_node : NRNodeID x = cid c;
  rr_kind : NRKind x = node_kind (cand_node c);
  rr_disposition : NRDisposition x = DispReady;
  rr_reason : NRReason x = "";
  rr_rank : NRRank x = Some (cand_rank c)
}.

Definition with_order (orders : gmap string value) (id : string) (r : NodeReading) : NodeReading := match orders !! id with Some o => set_order o r | None => r end.

Record ran (st : Store) (plan : string) (opts : ReadyOptions) (r : Reading) (snap : Snapshot) (cap : Capacity) (declarations : gmap string (list Region)) (policy : option OptimismState)
    (cs : list contribution) (released : list candidate) (p : pass) (orders : gmap string value) : Prop := {
  rn_snap : ∃ head, SnapshotAt st plan 0 = Ok (snap, head);
  rn_ok : snapshot_ok snap;
  rn_cap : capacity (SnapProjectKey snap) = Ok cap;
  rn_declarations : loadDeclarations plan = Ok declarations;
  rn_policy : releasePolicy plan snap = Ok policy;
  rn_read : read_plan st plan snap opts declarations = Ok cs;
  rn_contributes : Forall2 (contributes plan snap opts declarations) (sort_by node_id (SnapNodes snap)) cs;
  rn_pass : pass_inv cap policy declarations (readings_of cs) (omap cn_holder cs) (sort_less cand_less (omap cn_candidate cs)) released p;
  rn_ready : Forall2 released_reading released (RDReady r);
  rn_values : Forall2 (λ c x, ∃ y, ps_readings p !! cid c = Some y ∧ x = with_order orders (cid c) y) released (RDReady r);
  rn_nodes : Forall2 (λ n x, ∃ y, ps_readings p !! node_id n = Some y ∧ x = with_order orders (node_id n) y) (sort_by node_id (SnapNodes snap)) (RDNodes r);
  rn_summary : PSReadyCount (RDPass r) = ps_selected p ∧ PSDecidingLimit (RDPass r) = ps_limit p ∧ PSFreeSlots (RDPass r) = CFree cap;
  rn_ready_nodes : ∀ x, x ∈ RDReady r → x ∈ RDNodes r
}.

Lemma candidate_ids plan snap opts declarations nodes cs : NoDup (node_id <$> nodes) → Forall2 (contributes plan snap opts declarations) nodes cs → NoDup (cid <$> omap cn_candidate cs).
Proof.
  intros Hnd Hc. revert Hnd. induction Hc as [|n c nodes cs Hn Hc IH]; [constructor|]. rewrite fmap_cons, NoDup_cons. intros [Hni Hnd]. cbn [omap list_omap].
  destruct (cn_candidate c) as [d|] eqn:Ed; [|by apply IH]. rewrite fmap_cons. apply NoDup_cons. split; [|by apply IH].
  unfold cid at 1. rewrite (co_candidate _ _ _ _ _ _ Hn d Ed). intros (d' & E & (c' & Hc' & Ed')%list_elem_of_omap)%list_elem_of_fmap. apply Hni. rewrite E.
  apply list_elem_of_lookup in Hc' as [i Hi]. destruct (Forall2_lookup_r _ _ _ _ _ Hc Hi) as (n' & Hn' & Hco). unfold cid. rewrite (co_candidate _ _ _ _ _ _ Hco d' Ed').
  apply list_elem_of_fmap_2. by eapply list_elem_of_lookup_2.
Qed.

(** The readings of the loop, by id. *)
Lemma readings_lookup plan snap opts declarations nodes cs n c i : NoDup (node_id <$> nodes) → Forall2 (contributes plan snap opts declarations) nodes cs →
  nodes !! i = Some n → cs !! i = Some c → readings_of cs !! node_id n = Some (cn_reading c).
Proof.
  intros Hnd Hc. unfold readings_of. generalize (∅ : gmap string NodeReading) as m. revert i. induction Hc as [|n' c' nodes cs Hn Hc IH]; intros i m Hi Hj; [done|].
  rewrite fmap_cons in Hnd. apply NoDup_cons in Hnd as [Hni Hnd]. cbn [foldl]. destruct i as [|i]; [|by apply (IH Hnd i)]. injection Hi as ->. injection Hj as ->.
  clear IH. rewrite (co_id _ _ _ _ _ _ Hn). assert (∀ m : gmap string NodeReading, m !! node_id n = Some (cn_reading c) → foldl (λ m c, <[NRNodeID (cn_reading c) := cn_reading c]> m) m cs !! node_id n = Some (cn_reading c)) as H.
  { clear m. induction Hc as [|n2 c2 nodes cs Hn2 Hc IH]; intros m Hm; [done|]. cbn [foldl]. rewrite fmap_cons, elem_of_cons in Hni. apply NoDup_cons in Hnd as [_ Hnd]. apply IH; [tauto|done|].
    rewrite (co_id _ _ _ _ _ _ Hn2), lookup_insert_ne; [done|]. intros E. apply Hni. by left. }
  apply H. apply lookup_insert_eq.
Qed.

Lemma candidate_of plan snap opts declarations nodes cs d : Forall2 (contributes plan snap opts declarations) nodes cs → d ∈ omap cn_candidate cs →
  ∃ i n c, nodes !! i = Some n ∧ cs !! i = Some c ∧ cn_candidate c = Some d ∧ cand_node d = n ∧ contributes plan snap opts declarations n c.
Proof.
  intros Hc (c & Hin & Ed)%list_elem_of_omap. apply list_elem_of_lookup in Hin as [i Hi]. destruct (Forall2_lookup_r _ _ _ _ _ Hc Hi) as (n & Hn & Hco).
  exists i, n, c. split_and!; [done|done|done|by apply (co_candidate _ _ _ _ _ _ Hco)|done].
Qed.

Lemma candidate_reading plan snap opts declarations nodes cs d : NoDup (node_id <$> nodes) → Forall2 (contributes plan snap opts declarations) nodes cs → d ∈ omap cn_candidate cs →
  ∃ n c, n ∈ nodes ∧ cand_node d = n ∧ readings_of cs !! cid d = Some (cn_reading c) ∧ cn_candidate c = Some d ∧ c ∈ cs ∧ contributes plan snap opts declarations n c.
Proof.
  intros Hnd Hc Hd. destruct (candidate_of _ _ _ _ _ _ _ Hc Hd) as (i & n & c & Hi & Hj & Ed & Hn & Hco). exists n, c.
  split_and!; [by eapply list_elem_of_lookup_2|done| |done|by eapply list_elem_of_lookup_2|done]. unfold cid. rewrite Hn. by eapply readings_lookup.
Qed.

Lemma with_orders_lookup orders readings readings' : with_orders orders readings = Some readings' → ∀ id, readings' !! id = with_order orders id <$> readings !! id.
Proof. unfold with_orders. destruct (forallb _ _); [|done]. intros [= <-] id. rewrite map_lookup_imap. by destruct (readings !! id). Qed.

Lemma bind_found {A} (f : A → string) (m : gmap string NodeReading) l : (∀ x, x ∈ l → is_Some (m !! f x)) →
  Forall2 (λ x y, m !! f x = Some y) l ((f <$> l) ≫= (λ id, option_list (m !! id))).
Proof.
  induction l as [|x l IH]; intros Hl; [constructor|]. rewrite fmap_cons, bind_cons. destruct (Hl x (list_elem_of_here _ _)) as [y Hy]. rewrite Hy. cbn [option_list app].
  constructor; [done|]. apply IH. intros z Hz. apply Hl. by right.
Qed.

Lemma first_pass_inv cap policy declarations cs : pass_inv cap policy declarations (readings_of cs) (omap cn_holder cs) [] [] (first_pass cs).
Proof.
  split; try done; cbn; first [lia|by rewrite app_nil_r|intros before c after E; by destruct before|intros c H; by apply elem_of_nil in H].
Qed.

Lemma judged_kept c r0 r disp reason orders id : judged_reading c r0 r disp reason →
  NRNodeID (with_order orders id r) = NRNodeID r0 ∧ NRKind (with_order orders id r) = NRKind r0 ∧ NRDisposition (with_order orders id r) = disp ∧ NRReason (with_order orders id r) = reason ∧
  NRRank (with_order orders id r) = Some (cand_rank c).
Proof. intros (j & detail & ->). unfold with_order. by destruct (orders !! id). Qed.

(** Every node keeps a reading through the pass. *)
Lemma pass_total cap policy declarations R0 H0 seen released p id : pass_inv cap policy declarations R0 H0 seen released p → is_Some (R0 !! id) → is_Some (ps_readings p !! id).
Proof.
  intros Hp Hr. destruct (decide (id ∈ cid <$> seen)) as [(c & -> & Hc)%list_elem_of_fmap|Hn]; [|by rewrite (pa_others _ _ _ _ _ _ _ _ Hp _ Hn)].
  destruct (decide (c ∈ released)) as [Hin|Hin]; [destruct (pa_released _ _ _ _ _ _ _ _ Hp c Hin) as (r0 & r & _ & -> & _)|destruct (pa_deferred _ _ _ _ _ _ _ _ Hp c Hc Hin) as (r0 & r & reason & _ & -> & _)]; by eexists.
Qed.

Lemma Ready_ran st plan opts r : store_inv st → Ready st plan opts = Ok r →
  ∃ snap cap declarations policy cs released p orders, ran st plan opts r snap cap declarations policy cs released p orders.
Proof.
  intros Hi. unfold Ready. destruct (SnapshotAt st plan 0) as [[snap head]|] eqn:Es; [|done]. pose proof (head_snapshot_ok _ _ _ _ Hi Es) as Hok.
  destruct (capacity (SnapProjectKey snap)) as [cap|] eqn:Ec; [|done]. destruct (loadDeclarations plan) as [declarations|] eqn:Ed; [|done].
  destruct (releasePolicy plan snap) as [policy|] eqn:Ep; [|done]. destruct (read_plan st plan snap opts declarations) as [cs|] eqn:Er; [|done].
  destruct (select plan cap policy declarations (first_pass cs) (sort_less cand_less (omap cn_candidate cs))) as [p|] eqn:Esel; [|done].
  destruct (orderConstraints plan (omap cn_live cs) declarations) as [[orders constrained]|] eqn:Eo; [|done].
  destruct (with_orders orders (ps_readings p)) as [readings|] eqn:Ew; [|done]. cbv zeta. intros [= <-].
  assert (Forall2 (contributes plan snap opts declarations) (sort_by node_id (SnapNodes snap)) cs) as Hc.
  { eapply Forall2_impl; [by apply read_all_ok|]. intros n c. apply read_node_contributes. }
  assert (NoDup (node_id <$> sort_by node_id (SnapNodes snap))) as Hnd by (rewrite sort_by_perm; apply (so_ids _ Hok)).
  destruct (select_inv plan cap policy declarations (readings_of cs) (omap cn_holder cs) (sort_less cand_less (omap cn_candidate cs)) [] [] (first_pass cs) p) as [released Hp].
  { cbn [app]. rewrite sort_less_perm. by eapply candidate_ids. }
  { apply first_pass_inv. }
  { done. }
  assert (∀ c, c ∈ released → c ∈ omap cn_candidate cs) as Hsub.
  { intros c Hin. rewrite <- (sort_less_perm cand_less). by apply (elem_of_sublist released), (pa_sub _ _ _ _ _ _ _ _ Hp). }
  pose proof (λ d, candidate_reading plan snap opts declarations _ cs d Hnd Hc) as Hcand.
  exists snap, cap, declarations, policy, cs, released, p, orders. cbn [app] in Hp. split; cbn [RDReady RDNodes RDPass PSReadyCount PSDecidingLimit PSFreeSlots]; try done.
  - by exists head.
  - rewrite (pa_ready _ _ _ _ _ _ _ _ Hp). eapply Forall2_impl; [apply Forall2_in, (bind_found cid)|].
    + intros c Hin. rewrite (with_orders_lookup _ _ _ Ew). destruct (pa_released _ _ _ _ _ _ _ _ Hp c Hin) as (r0 & r & _ & -> & _). by eexists.
    + intros c x [Hin Hx]. destruct (pa_released _ _ _ _ _ _ _ _ Hp c Hin) as (r0 & r & E0 & Er1 & Hj). rewrite (with_orders_lookup _ _ _ Ew), Er1 in Hx. injection Hx as <-.
      destruct (Hcand c (Hsub c Hin)) as (n & c' & _ & Hn & E1 & _ & _ & Hco). rewrite E1 in E0. injection E0 as <-.
      destruct (judged_kept c (cn_reading c') r DispReady "" orders (cid c) Hj) as (K1 & K2 & K3 & K4 & K5).
      split; [by rewrite K1, (co_id _ _ _ _ _ _ Hco), <- Hn|by rewrite K2, (co_kind _ _ _ _ _ _ Hco), <- Hn|done|done|done].
  - rewrite (pa_ready _ _ _ _ _ _ _ _ Hp). eapply Forall2_impl; [apply (bind_found cid)|].
    + intros c Hin. rewrite (with_orders_lookup _ _ _ Ew). destruct (pa_released _ _ _ _ _ _ _ _ Hp c Hin) as (r0 & r & _ & -> & _). by eexists.
    + intros c x Hx. cbn beta in Hx. rewrite (with_orders_lookup _ _ _ Ew) in Hx. apply fmap_Some in Hx as (y & ? & ->). by exists y.
  - eapply Forall2_impl; [apply (bind_found node_id)|].
    + intros n [i Hn]%list_elem_of_lookup. destruct (Forall2_lookup_l _ _ _ _ _ Hc Hn) as (c & Hci & _).
      rewrite (with_orders_lookup _ _ _ Ew), fmap_is_Some. eapply pass_total; [done|]. eexists. by eapply readings_lookup.
    + intros n x Hx. cbn beta in Hx. rewrite (with_orders_lookup _ _ _ Ew) in Hx. apply fmap_Some in Hx as (y & ? & ->). by exists y.
  - intros x (id & Hx & Hid)%list_elem_of_bind. apply list_elem_of_bind. exists id. split; [done|]. rewrite (pa_ready _ _ _ _ _ _ _ _ Hp) in Hid.
    apply list_elem_of_fmap in Hid as (c & -> & Hin). destruct (Hcand c (Hsub c Hin)) as (n & c' & Hnn & Hn & _). unfold cid. rewrite Hn. by apply list_elem_of_fmap_2.
Qed.
End run.

(** ** Claims *)
Section claims.
Context {V : View}.

Lemma declared_holder declarations id a : a ∈ default [] (declarations !! id) → HUnknown (holder_of declarations id) = false ∧ a ∈ HRegions (holder_of declarations id).
Proof. unfold holder_of. cbn. destruct (declarations !! id) as [l|]; cbn; [|by intros ?%elem_of_nil]. done. Qed.

Lemma no_clash declarations policy c h others a b : ¬ clashes policy (own_holder declarations c) others → holder_of declarations h ∈ others →
  a ∈ default [] (declarations !! cid c) → b ∈ default [] (declarations !! h) → PairGrade a b ≠ GradeExclusive.
Proof.
  intros Hn Hin [Ua Ha]%declared_holder [Ub Hb]%declared_holder E. apply Hn. left. exists (holder_of declarations h), a, b. done.
Qed.

(** C12: a pass never releases two nodes into one place. Of the implementation nodes a reading offers, no two have declared regions that overlap exclusively, and none overlaps
    exclusively with a node whose regions are already in use (running, or accepted and not landed); two declarations overlap alike from both sides. *)
Theorem Ready_exclusive st plan opts r snap head declarations :
  store_inv st → Ready st plan opts = Ok r → SnapshotAt st plan 0 = Ok (snap, head) → loadDeclarations plan = Ok declarations →
  (∀ i j x y a b, RDReady r !! i = Some x → RDReady r !! j = Some y → i ≠ j → NRKind x = NodeImplementation → NRKind y = NodeImplementation →
    a ∈ default [] (declarations !! NRNodeID x) → b ∈ default [] (declarations !! NRNodeID y) → PairGrade a b ≠ GradeExclusive) ∧
  (∀ n x a b, n ∈ SnapNodes snap → holds_regions plan snap n → x ∈ RDReady r → NRKind x = NodeImplementation →
    a ∈ default [] (declarations !! node_id n) → b ∈ default [] (declarations !! NRNodeID x) → PairGrade a b ≠ GradeExclusive).
Proof.
  intros Hi Hr Hs Hd. destruct (Ready_ran _ _ _ _ Hi Hr) as (snap' & cap & decl & policy & cs & released & p & orders & [[head' Hs'] _ _ Hd' _ _ Hc Hp Hready _ _ _ _]).
  rewrite Hs in Hs'. injection Hs' as <- <-. rewrite Hd in Hd'. injection Hd' as <-.
  assert (∀ i j x y a b, RDReady r !! i = Some x → RDReady r !! j = Some y → (i < j)%nat → NRKind x = NodeImplementation → NRKind y = NodeImplementation →
    a ∈ default [] (declarations !! NRNodeID x) → b ∈ default [] (declarations !! NRNodeID y) → PairGrade b a ≠ GradeExclusive) as Hlt.
  { intros i j x y a b Hx Hy Hij Kx Ky Ha Hb. destruct (Forall2_lookup_r _ _ _ _ _ Hready Hx) as (c1 & E1 & R1). destruct (Forall2_lookup_r _ _ _ _ _ Hready Hy) as (c2 & E2 & R2).
    rewrite (rr_node _ _ R1) in Ha. rewrite (rr_node _ _ R2) in Hb. rewrite (rr_kind _ _ R1) in Kx. rewrite (rr_kind _ _ R2) in Ky.
    pose proof (take_drop_middle _ _ _ E2) as E. symmetry in E. apply (no_clash declarations policy c2 (cid c1) (omap cn_holder cs ++ released_holders declarations (take j released))); [|  |done|done].
    - by apply (pa_apart _ _ _ _ _ _ _ _ Hp _ _ _ E).
    - apply elem_of_app. right. apply (list_elem_of_fmap_2 (own_holder declarations)), list_elem_of_filter. split; [done|]. apply list_elem_of_lookup. exists i. by rewrite lookup_take_lt. }
  split.
  - intros i j x y a b Hx Hy Hij Kx Ky Ha Hb. destruct (Nat.lt_total i j) as [H|[H|H]]; [|done|exact (Hlt j i y x b a Hy Hx H Ky Kx Hb Ha)]. rewrite PairGrade_sym. exact (Hlt i j x y a b Hx Hy H Kx Ky Ha Hb).
  - intros n x a b Hn Hh [j Hx]%list_elem_of_lookup Kx Ha Hb. destruct (Forall2_lookup_r _ _ _ _ _ Hready Hx) as (c & E & R). rewrite (rr_node _ _ R) in Hb. rewrite (rr_kind _ _ R) in Kx.
    pose proof (take_drop_middle _ _ _ E) as E'. symmetry in E'. rewrite PairGrade_sym.
    apply (no_clash declarations policy c (node_id n) (omap cn_holder cs ++ released_holders declarations (take j released))); [|  |done|done].
    + by apply (pa_apart _ _ _ _ _ _ _ _ Hp _ _ _ E').
    + apply elem_of_app. left. rewrite <- (elem_of_sort_by node_id) in Hn. apply list_elem_of_lookup in Hn as [i Hn]. destruct (Forall2_lookup_l _ _ _ _ _ Hc Hn) as (c' & Hc' & Hco).
      apply list_elem_of_omap. exists c'. split; [by eapply list_elem_of_lookup_2|]. by apply (co_holder _ _ _ _ _ _ Hco).
Qed.

Lemma Ready_count st plan opts r : store_inv st → Ready st plan opts = Ok r →
  ∃ snap head cap, SnapshotAt st plan 0 = Ok (snap, head) ∧ capacity (SnapProjectKey snap) = Ok cap ∧ (Z.of_nat (length (RDReady r)) ≤ Z.max 0 (CFree cap))%Z.
Proof.
  intros Hi Hr. destruct (Ready_ran _ _ _ _ Hi Hr) as (snap & cap & decl & policy & cs & released & p & orders & Hran). destruct (rn_snap _ _ _ _ _ _ _ _ _ _ _ _ Hran) as [head Hs].
  exists snap, head, cap. split_and!; [done|apply Hran|]. rewrite <- (Forall2_length _ _ _ (rn_ready _ _ _ _ _ _ _ _ _ _ _ _ Hran)). apply (pa_free _ _ _ _ _ _ _ _ (rn_pass _ _ _ _ _ _ _ _ _ _ _ _ Hran)).
Qed.

(** A reading offers at most as many nodes as there are free slots, and none while the host is short of memory; no node is offered twice, and every offered node
    is one of the reading's nodes. *)
Theorem Ready_bound st plan opts r : store_inv st → Ready st plan opts = Ok r →
  (∃ snap head cap, SnapshotAt st plan 0 = Ok (snap, head) ∧ capacity (SnapProjectKey snap) = Ok cap ∧ (Z.of_nat (length (RDReady r)) ≤ Z.max 0 (CFree cap))%Z) ∧
  PSReadyCount (RDPass r) = Z.of_nat (length (RDReady r)) ∧ (host_short → RDReady r = []) ∧ NoDup (NRNodeID <$> RDReady r) ∧ (∀ x, x ∈ RDReady r → x ∈ RDNodes r).
Proof.
  intros Hi Hr. destruct (Ready_ran _ _ _ _ Hi Hr) as (snap & cap & decl & policy & cs & released & p & orders & [[head Hs] Hok Hcap _ _ _ Hc Hp Hready _ _ (Hcount & _) Hin]).
  pose proof (Forall2_length _ _ _ Hready) as Hlen. split_and!.
  - by apply (Ready_count st plan opts).
  - rewrite Hcount, (pa_count _ _ _ _ _ _ _ _ Hp), Hlen. done.
  - intros Hh. apply (pa_host _ _ _ _ _ _ _ _ Hp) in Hh. rewrite Hh in Hready. by apply Forall2_nil_inv_l in Hready.
  - assert (NRNodeID <$> RDReady r = cid <$> released) as -> by (clear -Hready; induction Hready as [|c x ? ? R ? IH]; [done|]; rewrite !fmap_cons; f_equal; [apply R|done]).
    eapply sublist_NoDup; [|apply fmap_sublist, (pa_sub _ _ _ _ _ _ _ _ Hp)]. rewrite sort_less_perm. eapply candidate_ids; [|done]. rewrite sort_by_perm. apply Hok.
  - done.
Qed.
End claims.

Import ReadyExample.

(** The two nodes the example offers. *)
Lemma Ready_exclusive_witness : PairGrade (file "x.go") (file "z.go") ≠ GradeExclusive.
Proof.
  refine (proj1 (Ready_exclusive stored "p1" opts reading snap 1 declared example_plan_inv run read eq_refl) 0%nat 1%nat _ _ _ _ eq_refl eq_refl _ eq_refl eq_refl _ _); [done|vm_compute; left|vm_compute; left].
Defined.

Lemma Ready_bound_witness : PSReadyCount (RDPass reading) = 2%Z ∧ NoDup (NRNodeID <$> RDReady reading).
Proof. pose proof (Ready_bound stored "p1" opts reading example_plan_inv run) as (_ & H & _ & Hnd & _). split; [exact H|exact Hnd]. Defined.
