(* ===== verification/SchedReadyClaims.v ===== *)
(** * SchedReadyClaims: which nodes a reading offers, in which order, and what it says of the others. *)
From S2P Require Import Prelude GoLib Sha256 Json Loads Utf8 JsonText JsonRoundtrip JsonLoaded GoPath DagModel DagLifecycle DagGraph DagFold DagDecode DagDecodeProps DagStore DagRepo DagStored DagRepoProps DagZone SchedPolicy SchedRegions SchedRegionsProps SchedGraph SchedReady SchedReadyProps.
From stdpp Require Import relations.
Local Open Scope string_scope.
Local Open Scope list_scope.

Lemma sublist_full {A} (l1 l2 : list A) : l1 `sublist_of` l2 → (length l2 ≤ length l1)%nat → l1 = l2.
Proof.
  induction 1 as [|x l1 l2 Hs IH|x l1 l2 Hs IH]; intros Hl; cbn in Hl; [done|f_equal; apply IH; lia|]. apply sublist_length in Hs. lia.
Qed.

Section offered.
Context {V : View}.

Definition offered (r : Reading) (n : SnapNode) : Prop := ∃ x, x ∈ RDReady r ∧ NRNodeID x = node_id n.

(** The regions of [n] and [m] overlap so that one of them waits. *)
Definition regions_clash (policy : option OptimismState) (declarations : gmap string (list Region)) (n m : SnapNode) : Prop :=
  ∃ a b, a ∈ default [] (declarations !! node_id n) ∧ b ∈ default [] (declarations !! node_id m) ∧
    (PairGrade a b = GradeExclusive ∨ policy_off policy ∧ PairGrade a b = GradeLocal).

(** Why an eligible node is not offered. *)
Definition deferred_for (plan : string) (snap : Snapshot) (cap : Capacity) (policy : option OptimismState) (declarations : gmap string (list Region)) (r : Reading) (n : SnapNode) (reason : string) : Prop :=
  reason = DeferEditOverlap ∧ node_kind n = NodeImplementation ∧
    (∃ m, m ∈ SnapNodes snap ∧ node_kind m = NodeImplementation ∧ (holds_regions plan snap m ∨ offered r m) ∧ regions_clash policy declarations n m) ∨
  reason = DeferHostMemory ∧ host_short ∨
  reason ∈ [DeferNoCapacity; DeferCapacityUnmeasured] ∧ (CFree cap ≤ Z.of_nat (length (RDReady r)))%Z.

Section of_run.
Context {st : Store} {plan : string} {opts : ReadyOptions} {r : Reading} {snap : Snapshot} {cap : Capacity} {declarations : gmap string (list Region)} {policy : option OptimismState}
  {cs : list contribution} {released : list candidate} {p : pass} {orders : gmap string value}.
Hypothesis Hran : ran st plan opts r snap cap declarations policy cs released p orders.

Lemma sorted_ids : NoDup (node_id <$> sort_by node_id (SnapNodes snap)).
Proof. rewrite sort_by_perm. apply (so_ids _ (rn_ok _ _ _ _ _ _ _ _ _ _ _ _ Hran)). Qed.

Lemma node_contribution n : n ∈ SnapNodes snap → ∃ i c, sort_by node_id (SnapNodes snap) !! i = Some n ∧ cs !! i = Some c ∧ contributes plan snap opts declarations n c ∧ readings_of cs !! node_id n = Some (cn_reading c).
Proof.
  rewrite <- (elem_of_sort_by node_id). intros [i Hn]%list_elem_of_lookup. pose proof (rn_contributes _ _ _ _ _ _ _ _ _ _ _ _ Hran) as Hc.
  destruct (Forall2_lookup_l _ _ _ _ _ Hc Hn) as (c & Hci & Hco). exists i, c. split_and!; [done|done|done|]. by eapply readings_lookup; [apply sorted_ids|..].
Qed.

Lemma released_offered c : c ∈ released → offered r (cand_node c).
Proof.
  intros [i Hi]%list_elem_of_lookup. destruct (Forall2_lookup_l _ _ _ _ _ (rn_ready _ _ _ _ _ _ _ _ _ _ _ _ Hran) Hi) as (x & Hx & R).
  exists x. split; [by eapply list_elem_of_lookup_2|apply R].
Qed.

Lemma offered_released n : offered r n → ∃ c, c ∈ released ∧ cid c = node_id n.
Proof.
  intros (x & [i Hi]%list_elem_of_lookup & <-). destruct (Forall2_lookup_r _ _ _ _ _ (rn_ready _ _ _ _ _ _ _ _ _ _ _ _ Hran) Hi) as (c & Hc & R).
  exists c. split; [by eapply list_elem_of_lookup_2|by rewrite (rr_node _ _ R)].
Qed.

Lemma candidate_node d : d ∈ omap cn_candidate cs → cand_node d ∈ SnapNodes snap ∧ eligible plan snap opts (cand_node d).
Proof.
  intros Hd. destruct (candidate_reading _ _ _ _ _ _ _ sorted_ids (rn_contributes _ _ _ _ _ _ _ _ _ _ _ _ Hran) Hd) as (n & c & Hn & -> & _ & Ed & _ & Hco).
  rewrite elem_of_sort_by in Hn. split; [done|]. apply (co_eligible _ _ _ _ _ _ Hco). by eexists.
Qed.

Lemma seen_candidate d : d ∈ sort_less cand_less (omap cn_candidate cs) ↔ d ∈ omap cn_candidate cs.
Proof. by rewrite sort_less_perm. Qed.

Lemma released_candidate d : d ∈ released → d ∈ omap cn_candidate cs.
Proof. intros Hd. rewrite <- seen_candidate. eapply elem_of_sublist; [done|]. apply (pa_sub _ _ _ _ _ _ _ _ (rn_pass _ _ _ _ _ _ _ _ _ _ _ _ Hran)). Qed.

Lemma node_unique n m : n ∈ SnapNodes snap → m ∈ SnapNodes snap → node_id n = node_id m → n = m.
Proof. intros Hn Hm. apply (NoDup_fmap_inj_on node_id (SnapNodes snap)); [apply (so_ids _ (rn_ok _ _ _ _ _ _ _ _ _ _ _ _ Hran))|done|done]. Qed.

(** The candidate of an eligible node. *)
Lemma eligible_candidate n : n ∈ SnapNodes snap → eligible plan snap opts n → ∃ d, d ∈ omap cn_candidate cs ∧ cand_node d = n.
Proof.
  intros Hn He. destruct (node_contribution n Hn) as (i & c & _ & Hc & Hco & _). apply (co_eligible _ _ _ _ _ _ Hco) in He as [d Ed]. exists d. split; [|by apply (co_candidate _ _ _ _ _ _ Hco)].
  apply list_elem_of_omap. exists c. split; [by eapply list_elem_of_lookup_2|done].
Qed.

Lemma clash_regions c : clashes policy (own_holder declarations c) (omap cn_holder cs ++ released_holders declarations released) →
  ∃ m, m ∈ SnapNodes snap ∧ node_kind m = NodeImplementation ∧ (holds_regions plan snap m ∨ offered r m) ∧ regions_clash policy declarations (cand_node c) m.
Proof.
  assert (∀ g, overlap (own_holder declarations c) (omap cn_holder cs ++ released_holders declarations released) g → ∃ m, m ∈ SnapNodes snap ∧ node_kind m = NodeImplementation ∧
    (holds_regions plan snap m ∨ offered r m) ∧ ∃ a b, a ∈ default [] (declarations !! cid c) ∧ b ∈ default [] (declarations !! node_id m) ∧ PairGrade a b = g) as H.
  { intros g (h & a & b & [Hh|Hh]%elem_of_app & _ & _ & Ha & Hb & Eg).
    - apply list_elem_of_omap in Hh as (c' & [i Hi]%list_elem_of_lookup & Hh). destruct (Forall2_lookup_r _ _ _ _ _ (rn_contributes _ _ _ _ _ _ _ _ _ _ _ _ Hran) Hi) as (m & Hm & Hco).
      apply (co_holder _ _ _ _ _ _ Hco) in Hh as [-> Hhold]. exists m. apply list_elem_of_lookup_2, elem_of_sort_by in Hm. split_and!; [done|by destruct Hhold as (? & _ & _ & _ & ?)|by left|by exists a, b].
    - apply list_elem_of_fmap in Hh as (d & -> & [Hd Hin]%list_elem_of_filter). exists (cand_node d). destruct (candidate_node d (released_candidate d Hin)) as [Hm _].
      split_and!; [done|done|right; by apply released_offered|by exists a, b]. }
  intros [Ho|[Hoff Ho]]; destruct (H _ Ho) as (m & Hm & Hk & Hhold & a & b & Ha & Hb & Eg); exists m; (split_and!; [done|done|done|]); exists a, b; (split_and!; [done|done|]); [by left|by right].
Qed.
End of_run.

(** C13: a reading offers eligible nodes only, and defers one only for cause. A node is offered only when nobody owns it, the plan does not hold it, every incoming edge is satisfied, its
    inputs verify and no resource holds it; an eligible node that is not offered says why, and the reason is true: its regions clash with those of a node that holds regions or is offered
    beside it, the host is short of memory, or the offered nodes use every free slot. The pass names no deciding limit exactly when every eligible node is offered. *)
Theorem Ready_eligible st plan opts r snap head cap declarations policy :
  store_inv st → Ready st plan opts = Ok r → SnapshotAt st plan 0 = Ok (snap, head) → capacity (SnapProjectKey snap) = Ok cap → loadDeclarations plan = Ok declarations → releasePolicy plan snap = Ok policy →
  (∀ n, n ∈ SnapNodes snap → offered r n → eligible plan snap opts n) ∧
  (∀ n, n ∈ SnapNodes snap → eligible plan snap opts n → ¬ offered r n →
    ∃ x, x ∈ RDNodes r ∧ NRNodeID x = node_id n ∧ NRDisposition x = DispDefer ∧ deferred_for plan snap cap policy declarations r n (NRReason x)) ∧
  (PSDecidingLimit (RDPass r) = LimitNone ↔ ∀ n, n ∈ SnapNodes snap → eligible plan snap opts n → offered r n).
Proof.
  intros Hi Hr Hs Hcap Hd Hpol. destruct (Ready_ran _ _ _ _ Hi Hr) as (snap' & cap' & decl & policy' & cs & released & p & orders & Hran).
  destruct (rn_snap _ _ _ _ _ _ _ _ _ _ _ _ Hran) as [head' Hs']. rewrite Hs in Hs'. injection Hs' as <- <-.
  pose proof (rn_cap _ _ _ _ _ _ _ _ _ _ _ _ Hran) as E. rewrite Hcap in E. injection E as <-. pose proof (rn_declarations _ _ _ _ _ _ _ _ _ _ _ _ Hran) as E. rewrite Hd in E. injection E as <-.
  pose proof (rn_policy _ _ _ _ _ _ _ _ _ _ _ _ Hran) as E. rewrite Hpol in E. injection E as <-. pose proof (rn_pass _ _ _ _ _ _ _ _ _ _ _ _ Hran) as Hp.
  split_and!.
  - intros n Hn (c & Hc & Ec)%(offered_released Hran). destruct (candidate_node Hran c (released_candidate Hran c Hc)) as [Hm He].
    by rewrite <- (node_unique Hran (cand_node c) n Hm Hn Ec).
  - intros n Hn (d & Hd1 & <-)%(eligible_candidate Hran n Hn) Hno. rewrite <- seen_candidate in Hd1.
    destruct (pa_deferred _ _ _ _ _ _ _ _ Hp d Hd1) as (r0 & r1 & reason & E0 & E1 & Hj & Hwhy); [by intros H%(released_offered Hran)|].
    rewrite <- (elem_of_sort_by node_id) in Hn. apply list_elem_of_lookup in Hn as [i Hn].
    destruct (Forall2_lookup_l _ _ _ _ _ (rn_nodes _ _ _ _ _ _ _ _ _ _ _ _ Hran) Hn) as (x & Hx & y & Ey & ->). fold (cid d) in *. rewrite E1 in Ey. injection Ey as <-.
    destruct (judged_kept d r0 r1 DispDefer reason orders (cid d) Hj) as (K1 & _ & K3 & K4 & _). eexists. split; [by eapply list_elem_of_lookup_2|]. rewrite K1, K3, K4. split_and!; [|done|].
    + apply list_elem_of_lookup_2 in Hn. rewrite elem_of_sort_by in Hn. destruct (node_contribution Hran _ Hn) as (_ & c & _ & _ & Hco & E). fold (cid d) in E. rewrite E in E0. injection E0 as <-. apply Hco.
    + destruct Hwhy as [(-> & Hi' & Hcl)|[?|[? Hf]]]; [left; split_and!; [done|done|by apply (clash_regions Hran)]|right; by left|right; right]. split; [done|].
      by rewrite <- (Forall2_length _ _ _ (rn_ready _ _ _ _ _ _ _ _ _ _ _ _ Hran)).
  - destruct (rn_summary _ _ _ _ _ _ _ _ _ _ _ _ Hran) as (_ & -> & _). rewrite (pa_limit _ _ _ _ _ _ _ _ Hp). split.
    + intros E n Hn (d & Hd1 & <-)%(eligible_candidate Hran n Hn). apply (released_offered Hran). rewrite E. by apply seen_candidate.
    + intros Hall. apply sublist_full; [apply (pa_sub _ _ _ _ _ _ _ _ Hp)|]. assert (NoDup (cid <$> omap cn_candidate cs)) as Hnd by (by eapply candidate_ids; [apply (sorted_ids Hran)|apply Hran]).
      apply NoDup_length_subset; [rewrite sort_less_perm; by apply (NoDup_fmap_1 cid)|]. intros d Hd1%seen_candidate. destruct (candidate_node Hran d Hd1) as [Hm He].
      destruct (offered_released Hran _ (Hall _ Hm He)) as (c & Hc & Ec). by rewrite <- (NoDup_fmap_inj_on cid _ c d Hnd (released_candidate Hran c Hc) Hd1 Ec).
Qed.
End offered.

(** ** The order of the offered nodes *)
Definition str_before (x y : string) : Prop := str_less x y = true.

Lemma str_before_iff x y : str_before x y ↔ ¬ String.le y x.
Proof. unfold str_before, str_less, String.le. rewrite negb_true_iff. destruct (String.leb y x); cbn; intuition done. Qed.

Lemma str_before_trans x y z : str_before x y → str_before y z → str_before x z.
Proof.
  rewrite !str_before_iff. intros H1 H2 H3. destruct (total String.le x y) as [H|H]; [|done]. apply H2. by etrans.
Qed.

Lemma str_before_irrefl x : ¬ str_before x x.
Proof. rewrite str_before_iff. intros H. by apply H. Qed.

Lemma str_before_total x y : str_before x y ∨ x = y ∨ str_before y x.
Proof.
  rewrite !str_before_iff. unfold String.le. destruct (String.leb y x) eqn:E1, (String.leb x y) eqn:E2; [right; left|right; right|left|left]; try (intros H; done).
  apply (anti_symm String.le); unfold String.le; [by rewrite E2|by rewrite E1].
Qed.

(** The first node is released before the second: a longer chain below it, then more descendants, then ready earlier, then the smaller id. *)
Definition outranks (a b : Rank * string) : Prop :=
  let '(x, idx) := a in
  let '(y, idy) := b in
  (CriticalPath y < CriticalPath x)%nat ∨ CriticalPath x = CriticalPath y ∧
  ((Descendants y < Descendants x)%nat ∨ Descendants x = Descendants y ∧
   (str_before (ReadySince x) (ReadySince y) ∨ ReadySince x = ReadySince y ∧ str_before idx idy)).

Definition cand_key (c : candidate) : Rank * string := (cand_rank c, cid c).

Lemma cand_less_outranks a b : cand_less a b = true ↔ outranks (cand_key a) (cand_key b).
Proof.
  unfold cand_less, outranks, cand_key, cid. destruct (cand_rank a) as [ca da sa], (cand_rank b) as [cb db sb]. cbn [CriticalPath Descendants ReadySince].
  destruct (Nat.eqb_spec ca cb) as [->|Hc]; cbn [negb]; [|rewrite Nat.ltb_lt; lia].
  destruct (Nat.eqb_spec da db) as [->|Hd]; cbn [negb]; [|rewrite Nat.ltb_lt; lia].
  case_bool_decide as Hs; cbn [negb]; fold (str_before (node_id (cand_node a)) (node_id (cand_node b))).
  - subst sb. pose proof (str_before_irrefl sa). split; [tauto|]. intros [?|[_ [?|[_ [?|[_ ?]]]]]]; [lia|lia|done|done].
  - fold (str_before sa sb). split; [tauto|]. intros [?|[_ [?|[_ [?|[? _]]]]]]; [lia|lia|done|done].
Qed.

Lemma outranks_trans a b c : outranks a b → outranks b c → outranks a c.
Proof.
  destruct a as [[ca da sa] ia], b as [[cb db sb] ib], c as [[cc dc sc] ic]. unfold outranks. cbn [CriticalPath Descendants ReadySince].
  pose proof (str_before_trans sa sb sc). pose proof (str_before_trans ia ib ic).
  intros [?|[-> [?|[-> [?|[-> ?]]]]]] [?|[<- [?|[<- [?|[<- ?]]]]]]; try (left; lia); right; (split; [done|]); try (left; lia); right; (split; [done|]); tauto.
Qed.

Lemma outranks_total a b : outranks a b ∨ a = b ∨ outranks b a.
Proof.
  destruct a as [[ca da sa] ia], b as [[cb db sb] ib]. unfold outranks. cbn [CriticalPath Descendants ReadySince].
  destruct (Nat.lt_total ca cb) as [?|[->|?]]; [by right; right; left| |by left; left]. destruct (Nat.lt_total da db) as [?|[->|?]]; [right; right; right; split; [done|by left]| |left; right; split; [done|by left]].
  destruct (str_before_total sa sb) as [?|[->|?]]; [left; right; split; [done|]; right; split; [done|by left]| |right; right; right; split; [done|]; right; split; [done|by left]].
  destruct (str_before_total ia ib) as [?|[->|?]]; [left; right; split; [done|]; right; split; [done|by right]|right; by left|right; right; right; split; [done|]; right; split; [done|by right]].
Qed.

Lemma less_insert_sorted c l : Forall (λ d, cand_key d ≠ cand_key c) l → StronglySorted (λ a b, outranks (cand_key a) (cand_key b)) l →
  StronglySorted (λ a b, outranks (cand_key a) (cand_key b)) (less_insert cand_less c l).
Proof.
  induction l as [|d l IH]; intros Hne Hs; cbn [less_insert]; [repeat constructor|]. apply Forall_cons in Hne as [Hd Hne]. apply StronglySorted_inv in Hs as [Hs Hall].
  destruct (cand_less d c) eqn:E.
  - constructor; [by apply IH|]. rewrite cand_less_outranks in E. clear IH. induction l as [|e l IHl]; cbn [less_insert]; [by constructor|].
    apply Forall_cons in Hall as [He Hall]. destruct (cand_less e c); constructor; [done| |done|by constructor]. apply IHl; [by apply Forall_cons in Hne as [_ ?]|by apply StronglySorted_inv in Hs as [? _]|done].
  - assert (outranks (cand_key c) (cand_key d)) as Hcd.
    { destruct (outranks_total (cand_key c) (cand_key d)) as [?|[?|H]]; [done|congruence|]. apply cand_less_outranks in H. congruence. }
    constructor; [by constructor|]. constructor; [done|]. eapply Forall_impl; [exact Hall|]. intros e He. by eapply outranks_trans.
Qed.

Lemma sort_less_sorted l : NoDup (cid <$> l) → StronglySorted (λ a b, outranks (cand_key a) (cand_key b)) (sort_less cand_less l).
Proof.
  induction l as [|c l IH]; intros Hnd; cbn [sort_less]; [constructor|]. rewrite fmap_cons in Hnd. apply NoDup_cons in Hnd as [Hc Hnd]. apply less_insert_sorted; [|by apply IH].
  rewrite sort_less_perm. apply Forall_forall. intros d Hd [= _ E]. apply Hc. rewrite <- E. by apply list_elem_of_fmap_2.
Qed.

Lemma sublist_sorted {A} (R : A → A → Prop) l1 l2 : l1 `sublist_of` l2 → StronglySorted R l2 → StronglySorted R l1.
Proof.
  induction 1 as [|x l1 l2 Hs IH|x l1 l2 Hs IH]; intros H; [done| |]; apply StronglySorted_inv in H as [Hl Hall]; [|by apply IH].
  constructor; [by apply IH|]. apply Forall_forall. intros y Hy. rewrite Forall_forall in Hall. apply Hall. by eapply elem_of_sublist.
Qed.

Section ranked.
Context {V : View}.

(** The rank of a candidate is read from the metrics. *)
Lemma read_node_rank st plan snap opts declarations metrics n c d : read_node st plan snap opts declarations metrics n = Ok c → cn_candidate c = Some d →
  CriticalPath (cand_rank d) = default 0%nat (metrics.1 !! node_id n) ∧ Descendants (cand_rank d) = default 0%nat (metrics.2 !! node_id n).
Proof.
  unfold read_node. destruct (stateOf plan snap n) as [state|]; [|done]. destruct (stagnation_of plan snap n) as [stag|]; [|done]. cbv zeta. destruct (NSOwned state).
  { unfold read_owned. cbv zeta. destruct (if bool_decide (NSState state = StateStale) then _ else _) as [stale|]; [|done]. destruct (_ && _); by intros [= <-]. }
  destruct (negb _); [by intros [= <-]|]. unfold read_unowned. cbv zeta. destruct (edges_loop _ _ _ _ _) as [[first|[statuses since]]|]; [by intros [= <-]| |done].
  destruct (checkInputs _ _ _ _) as [verdict|]; [|done]. destruct (IVFinding verdict); [by intros [= <-]|]. destruct (resourceHold _ _ _ _) as [[? ?]|]; [by intros [= <-]|].
  intros [= <-] [= <-]. done.
Qed.

(** C34: the offered nodes stand in the order of their rank (the longest chain of the plan that starts at a node, then the number of nodes below it, then the time it became ready, then
    its id), and the rank a reading prints is the true one: on the graph of the plan the critical path is the length of a longest chain, and the descendants are all nodes reachable. *)
Theorem Ready_ranked st plan opts r snap head : store_inv st → Ready st plan opts = Ok r → SnapshotAt st plan 0 = Ok (snap, head) →
  (∀ i j x y, (i < j)%nat → RDReady r !! i = Some x → RDReady r !! j = Some y → ∃ kx ky, NRRank x = Some kx ∧ NRRank y = Some ky ∧ outranks (kx, NRNodeID x) (ky, NRNodeID y)) ∧
  (∀ x, x ∈ RDReady r → ∃ k below, NRRank x = Some k ∧ longest_chain (outgoing_of (SnapEdges snap)) (NRNodeID x) (CriticalPath k) ∧
    all_below (outgoing_of (SnapEdges snap)) (NRNodeID x) below ∧ Descendants k = size below).
Proof.
  intros Hi Hr Hs. destruct (Ready_ran _ _ _ _ Hi Hr) as (snap' & cap & decl & policy & cs & released & p & orders & Hran).
  destruct (rn_snap _ _ _ _ _ _ _ _ _ _ _ _ Hran) as [head' Hs']. rewrite Hs in Hs'. injection Hs' as <- <-. pose proof (rn_pass _ _ _ _ _ _ _ _ _ _ _ _ Hran) as Hp.
  pose proof (rn_ready _ _ _ _ _ _ _ _ _ _ _ _ Hran) as Hready. split.
  - intros i j x y Hij Hx Hy. destruct (Forall2_lookup_r _ _ _ _ _ Hready Hx) as (c1 & E1 & R1). destruct (Forall2_lookup_r _ _ _ _ _ Hready Hy) as (c2 & E2 & R2).
    exists (cand_rank c1), (cand_rank c2). split_and!; [apply R1|apply R2|]. rewrite (rr_node _ _ R1), (rr_node _ _ R2).
    assert (StronglySorted (λ a b, outranks (cand_key a) (cand_key b)) released) as Hsort.
    { eapply sublist_sorted; [apply (pa_sub _ _ _ _ _ _ _ _ Hp)|]. apply sort_less_sorted. eapply candidate_ids; [apply (sorted_ids Hran)|apply Hran]. }
    rewrite <- (take_drop j released) in Hsort. apply (StronglySorted_app_1_elem_of _ _ _ c1 c2 Hsort).
    + apply list_elem_of_lookup. exists i. by rewrite lookup_take_lt.
    + apply list_elem_of_lookup. exists 0%nat. rewrite lookup_drop. by rewrite Nat.add_0_r.
  - intros x [i Hx]%list_elem_of_lookup. destruct (Forall2_lookup_r _ _ _ _ _ Hready Hx) as (c & E & R). apply list_elem_of_lookup_2 in E. pose proof (released_candidate Hran c E) as Hd.
    pose proof (rn_contributes _ _ _ _ _ _ _ _ _ _ _ _ Hran) as Hc. destruct (candidate_of _ _ _ _ _ _ _ Hc Hd) as (k & n & c' & Hk & Hk' & Ed & En & _).
    pose proof (read_all_ok _ _ _ (rn_read _ _ _ _ _ _ _ _ _ _ _ _ Hran)) as Hall. pose proof (Forall2_lookup_lr _ _ _ _ _ _ Hall Hk Hk') as Hread.
    destruct (read_node_rank _ _ _ _ _ _ _ _ _ Hread Ed) as [Ecrit Edesc].
    destruct (metrics_total (sort_by node_id (SnapNodes snap)) (outgoing_of (SnapEdges snap))) as (crit & desc & Em & Hbelow). rewrite Em in Ecrit, Edesc. cbn in Ecrit, Edesc. fold (node_id n) in Ecrit, Edesc.
    apply list_elem_of_lookup_2 in Hk. destruct (Hbelow n Hk) as (below & Eb & Hb). destruct (metrics_longest _ _ _ _ (so_acyclic _ (rn_ok _ _ _ _ _ _ _ _ _ _ _ _ Hran)) Em n Hk) as (m & Ec & Hm).
    exists (cand_rank c), below. rewrite (rr_node _ _ R). unfold cid. rewrite En. fold (node_id n) in Ec, Eb. rewrite Ec in Ecrit. rewrite Eb in Edesc. cbn in Ecrit, Edesc. rewrite Ecrit, Edesc.
    split_and!; [apply R|done|done|done].
Qed.
End ranked.

(** ** Every node is accounted for *)

Definition reading_closed (x : NodeReading) : Prop := ReasonsClosed (NRReason x) = true ∧ NRDisposition x = dispositionOf (NRReason x).

Lemma closed_not_ready reason : ReasonsClosed reason = true → dispositionOf reason ≠ DispReady.
Proof.
  unfold ReasonsClosed. destruct (has_prefix reason WaitEdgePrefix) eqn:E1; [apply has_prefix_spec in E1 as [t ->]; intros _ E; vm_compute in E; congruence|].
  destruct (has_prefix reason StaleEdgePrefix) eqn:E2; [apply has_prefix_spec in E2 as [t ->]; intros _ E; vm_compute in E; congruence|].
  rewrite bool_decide_eq_true. intros Hin. assert (Forall (λ r, dispositionOf r ≠ DispReady) emittedReasons) as H by (refine (bool_decide_unpack _ _); vm_compute; exact I).
  rewrite Forall_forall in H. by apply H.
Qed.

(** What the readers of the execution records said of a node: the state of a node that is owned, an edge into it that is not satisfied, or a finding of its inputs. *)
Definition reader_said `{V : View} (plan : string) (snap : Snapshot) (n : SnapNode) (x : NodeReading) : Prop :=
  (∃ state, stateOf plan snap n = Ok state ∧ NSOwned state = true ∧ NRReason x = NSReason state ∧ NRDisposition x = NSDisp state) ∨
  (∃ e status, e ∈ incoming_edges snap (node_id n) ∧ edgeStatus plan snap e = Ok status ∧ ESSatisfied status = false ∧ NRReason x = ESReason status ∧ NRDisposition x = dispositionOf (ESReason status)) ∨
  (∃ statuses skip verdict f, checkInputs plan (incoming_edges snap (node_id n)) statuses skip = Ok verdict ∧ IVFinding verdict = Some f ∧ NRReason x = BFReason f ∧ NRDisposition x = DispBlocked).

(** A node that is not offered carries a reason of the closed vocabulary with its class, or what a reader said of it. *)
Definition accounted `{V : View} (plan : string) (snap : Snapshot) (n : SnapNode) (x : NodeReading) : Prop := reading_closed x ∧ NRDisposition x ≠ DispReady ∨ reader_said plan snap n x.

Section closed.
Context {V : View}.

Lemma closed_accounted plan snap n x : reading_closed x → accounted plan snap n x.
Proof. intros [Hc Hd]. left. split; [done|]. rewrite Hd. by apply closed_not_ready. Qed.

Lemma life_reason_closed l id : ReasonsClosed (life_reason l id).1 = true.
Proof. unfold life_reason. repeat case_bool_decide; try (vm_compute; reflexivity); destruct (planPaused l); vm_compute; reflexivity. Qed.

Lemma life_outcome_closed l id detail r : reading_closed (set_outcome (dispositionOf (life_reason l id).1) (life_reason l id).1 detail r).
Proof. split; [apply life_reason_closed|done]. Qed.

(** A life that is over or held changes what is said of an owned node to a reason of its own, or adds to the detail. *)
Lemma overlay_reason l state r : reading_closed (overlayOwned l state r) ∨ NRReason (overlayOwned l state r) = NRReason r ∧ NRDisposition (overlayOwned l state r) = NRDisposition r.
Proof.
  unfold overlayOwned. cbv zeta. destruct (life_active l); [by right|]. pose proof (life_outcome_closed l (NRNodeID (set_lifecycle (life_node l) r))) as Hl.
  destruct (life_reason l (NRNodeID (set_lifecycle (life_node l) r))) as [reason detail]. cbn [fst] in Hl.
  case_bool_decide; [by right|]. destruct (has_prefix _ _); [by right|]. destruct (_ || _); [left; apply Hl|by right].
Qed.

Lemma resourceHold_closed snap n edges own reason detail : resourceHold snap n edges own = Some (reason, detail) → ReasonsClosed reason = true.
Proof.
  unfold resourceHold, issueOwned. cbv zeta. destruct own; repeat case_match; intros; simplify_eq; vm_compute; reflexivity.
Qed.

Lemma edges_loop_first plan snap edges : ∀ m since first, edges_loop plan snap m since edges = Ok (inl first) → ∃ e, e ∈ edges ∧ edgeStatus plan snap e = Ok first ∧ ESSatisfied first = false.
Proof.
  induction edges as [|e edges IH]; intros m since first; cbn [edges_loop]; [done|]. destruct (edgeStatus plan snap e) as [status|] eqn:E; [|done].
  destruct (ESSatisfied status) eqn:Es; cbn [negb]; [intros (x & Hx & H)%IH; exists x; by split; [right|]|]. intros [= <-]. exists e. by split; [left|].
Qed.

Lemma read_node_accounted st plan snap opts declarations metrics n c : read_node st plan snap opts declarations metrics n = Ok c → cn_candidate c = None → accounted plan snap n (cn_reading c).
Proof.
  unfold read_node. destruct (stateOf plan snap n) as [state|] eqn:Es; [|done]. destruct (stagnation_of plan snap n) as [stag|]; [|done]. cbv zeta. destruct (NSOwned state) eqn:Eo.
  { unfold read_owned. cbv zeta. destruct (if bool_decide (NSState state = StateStale) then _ else _) as [stale|]; [|done].
    destruct (_ && _); intros [= <-] _; cbn [cn_reading only]; (match goal with |- accounted _ _ _ (overlayOwned ?l ?s ?r) => destruct (overlay_reason l s r) as [Hc|[E1 E2]] end; [by apply closed_accounted|right; left; exists state; by rewrite E1, E2]). }
  destruct (negb _).
  { intros [= <-] _. apply closed_accounted. unfold holdUnowned. cbn [cn_reading only NRNodeID]. pose proof (life_outcome_closed (lifeOf_node snap n) (node_id n)) as Hl. destruct (life_reason _ _). apply Hl. }
  unfold read_unowned. cbv zeta. destruct (edges_loop _ _ _ _ _) as [[first|[statuses since]]|] eqn:Ee; [|  |done].
  { intros [= <-] _. destruct (edges_loop_first _ _ _ _ _ _ Ee) as (e & He & Hs & Hn). right. right. left. by exists e, first. }
  destruct (checkInputs _ _ _ _) as [verdict|] eqn:Ec; [|done]. destruct (IVFinding verdict) as [f|] eqn:Ef.
  { intros [= <-] _. right. right. right. by exists statuses, (SkipArtifactBytes opts), verdict, f. }
  destruct (resourceHold _ _ _ _) as [[reason detail]|] eqn:Eh; [|by intros [= <-]]. intros [= <-] _. apply closed_accounted. split; cbn; [by eapply resourceHold_closed|done].
Qed.

Lemma justified_closed cap policy declarations H0 released c reason : justified cap policy declarations H0 released c reason → ReasonsClosed reason = true ∧ dispositionOf reason = DispDefer.
Proof.
  intros [(-> & _)|[(-> & _)|[Hr _]]]; [vm_compute; split; reflexivity|vm_compute; split; reflexivity|]. rewrite !elem_of_cons, elem_of_nil in Hr. destruct Hr as [->|[->|[]]]; vm_compute; split; reflexivity.
Qed.

(** What a reading says of a node, before the merge order is set. *)
Lemma node_outcome st plan opts r snap cap declarations policy cs released p orders n y : ran st plan opts r snap cap declarations policy cs released p orders → n ∈ SnapNodes snap →
  ps_readings p !! node_id n = Some y → NRNodeID y = node_id n ∧
  ((∃ c, c ∈ released ∧ cid c = node_id n) ∧ NRDisposition y = DispReady ∧ NRReason y = "" ∨ (∀ c, c ∈ released → cid c ≠ node_id n) ∧ accounted plan snap n y).
Proof.
  intros Hran Hn Hy. pose proof (rn_pass _ _ _ _ _ _ _ _ _ _ _ _ Hran) as Hp. destruct (node_contribution Hran n Hn) as (i & c & Hi & Hc & Hco & E0).
  pose proof (Forall2_lookup_lr _ _ _ _ _ _ (read_all_ok _ _ _ (rn_read _ _ _ _ _ _ _ _ _ _ _ _ Hran)) Hi Hc) as Hread.
  destruct (cn_candidate c) as [d|] eqn:Ed.
  - assert (cid d = node_id n) as Eid by (unfold cid; by rewrite (co_candidate _ _ _ _ _ _ Hco d Ed)).
    assert (d ∈ omap cn_candidate cs) as Hd by (apply list_elem_of_omap; exists c; split; [by eapply list_elem_of_lookup_2|done]).
    rewrite <- Eid in Hy, E0. destruct (decide (d ∈ released)) as [Hin|Hin].
    + destruct (pa_released _ _ _ _ _ _ _ _ Hp d Hin) as (r0 & r1 & E1 & E2 & j & detail & ->). rewrite E2 in Hy. rewrite E0 in E1. injection Hy as <-. injection E1 as <-.
      split; [apply Hco|]. left. split_and!; [by exists d|done|done].
    + rewrite <- seen_candidate in Hd. destruct (pa_deferred _ _ _ _ _ _ _ _ Hp d Hd Hin) as (r0 & r1 & reason & E1 & E2 & (j & detail & ->) & Hj). rewrite E2 in Hy. rewrite E0 in E1.
      injection Hy as <-. injection E1 as <-. split; [apply Hco|]. right. apply justified_closed in Hj as [H1 H2]. split; [|apply closed_accounted; split; cbn; [done|by rewrite H2]].
      intros d' Hd' E. rewrite seen_candidate in Hd. rewrite <- Eid in E.
      pose proof (candidate_ids _ _ _ _ _ _ (sorted_ids Hran) (rn_contributes _ _ _ _ _ _ _ _ _ _ _ _ Hran)) as Hnd.
      by rewrite (NoDup_fmap_inj_on cid _ d' d Hnd (released_candidate Hran d' Hd') Hd E) in Hd'.
  - assert (∀ d, d ∈ omap cn_candidate cs → cid d ≠ node_id n) as Hne.
    { intros d Hd E. destruct (candidate_of _ _ _ _ _ _ _ (rn_contributes _ _ _ _ _ _ _ _ _ _ _ _ Hran) Hd) as (k & m & c' & Hk & Hk' & Ed' & Em & _). unfold cid in E. rewrite Em in E.
      assert (m = n) as -> by (apply (node_unique Hran); [apply list_elem_of_lookup_2 in Hk; by rewrite elem_of_sort_by in Hk|done|done]).
      assert (k = i) as -> by (eapply NoDup_lookup; [apply (NoDup_fmap_1 node_id), (sorted_ids Hran)|done|done]). rewrite Hc in Hk'. injection Hk' as <-. congruence. }
    rewrite (pa_others _ _ _ _ _ _ _ _ Hp) in Hy by (intros (d & E & Hd%seen_candidate)%list_elem_of_fmap; by apply (Hne d Hd)). rewrite E0 in Hy. injection Hy as <-.
    split; [apply Hco|]. right. split; [intros d Hd; by apply Hne, (released_candidate Hran)|exact (read_node_accounted _ _ _ _ _ _ _ _ Hread Ed)].
Qed.

(** C21: every live node of a plan is accounted for. A reading has one entry per live node, in the order of the ids; an entry is offered, with the disposition ready and no reason, or it is not, and then
    it carries a reason of the closed vocabulary with the class of that reason as its disposition, or exactly what a reader of the execution records said of that node: the state of a node that is
    owned, an edge into it that is not satisfied, a finding of its inputs. *)
Theorem Ready_closed st plan opts r snap head : store_inv st → Ready st plan opts = Ok r → SnapshotAt st plan 0 = Ok (snap, head) →
  NRNodeID <$> RDNodes r = node_id <$> sort_by node_id (SnapNodes snap) ∧
  ∀ x, x ∈ RDNodes r →
    (x ∈ RDReady r ∧ NRDisposition x = DispReady ∧ NRReason x = "") ∨ (x ∉ RDReady r ∧ ∃ n, n ∈ SnapNodes snap ∧ node_id n = NRNodeID x ∧ accounted plan snap n x).
Proof.
  intros Hi Hr Hs. destruct (Ready_ran _ _ _ _ Hi Hr) as (snap' & cap & decl & policy & cs & released & p & orders & Hran).
  destruct (rn_snap _ _ _ _ _ _ _ _ _ _ _ _ Hran) as [head' Hs']. rewrite Hs in Hs'. injection Hs' as <- <-. pose proof (rn_nodes _ _ _ _ _ _ _ _ _ _ _ _ Hran) as Hnodes.
  assert (∀ n y, n ∈ sort_by node_id (SnapNodes snap) → ps_readings p !! node_id n = Some y → NRNodeID (with_order orders (node_id n) y) = node_id n) as Hid.
  { intros n y Hn Hy. rewrite elem_of_sort_by in Hn. destruct (node_outcome _ _ _ _ _ _ _ _ _ _ _ _ n y Hran Hn Hy) as [E _]. unfold with_order. by destruct (orders !! node_id n). }
  split.
  - apply Forall2_in in Hnodes. revert Hnodes. generalize (sort_by node_id (SnapNodes snap)) at 2 3. intros ns Hns. induction Hns as [|n x ns xs (Hn & y & Hy & ->) Hns IH]; [done|].
    rewrite !fmap_cons. f_equal; [by apply Hid|done].
  - intros x [i Hx]%list_elem_of_lookup. destruct (Forall2_lookup_r _ _ _ _ _ Hnodes Hx) as (n & Hn & y & Hy & ->). apply list_elem_of_lookup_2 in Hn. pose proof (Hid n y Hn Hy) as Eid.
    rewrite elem_of_sort_by in Hn. destruct (node_outcome _ _ _ _ _ _ _ _ _ _ _ _ n y Hran Hn Hy) as [_ [((c & Hc & Ec) & Hd & Hrs)|[Hno Hacc]]].
    + left. split_and!; [|unfold with_order; by destruct (orders !! node_id n)|unfold with_order; by destruct (orders !! node_id n)].
      apply list_elem_of_lookup in Hc as [k Hk]. destruct (Forall2_lookup_l _ _ _ _ _ (rn_values _ _ _ _ _ _ _ _ _ _ _ _ Hran) Hk) as (x & Hxk & y' & Hy' & ->).
      rewrite Ec in *. rewrite Hy in Hy'. injection Hy' as <-. by eapply list_elem_of_lookup_2.
    + right. split; [|exists n; split_and!; [done|done|unfold with_order; by destruct (orders !! node_id n)]]. intros [k Hk]%list_elem_of_lookup.
      destruct (Forall2_lookup_r _ _ _ _ _ (rn_ready _ _ _ _ _ _ _ _ _ _ _ _ Hran) Hk) as (c & Hc & R). apply (Hno c); [by eapply list_elem_of_lookup_2|]. by rewrite <- (rr_node _ _ R), Eid.
Qed.
End closed.

(** ** The digest of a reading *)
Lemma assoc_last_skip (es tail : list (string * value)) k : k ∉ tail.*1 → assoc_last (es ++ tail) k = assoc_last es k.
Proof.
  intros Hk. unfold assoc_last. rewrite foldl_app. generalize (foldl (λ a kv, if bool_decide (kv.1 = k) then Some kv.2 else a) None es) as o. induction tail as [|[k' v] tail IH]; intros o; [done|].
  cbn [foldl fst snd]. rewrite fmap_cons in Hk. apply not_elem_of_cons in Hk as [Hne Hk]. rewrite bool_decide_false by (cbn in Hne; congruence). by apply IH.
Qed.

(** The keys of the parts that are present only when they say something. *)
Definition digest_tail (r : Reading) : list (string * value) :=
  (if (0 <? PSOrderConstraints (RDPass r))%nat then [("order_constraints", vnat (PSOrderConstraints (RDPass r)))] else [])
  ++ opt_value "release_policy" optimism_canonical (RDReleasePolicy r) ++ opt_value "host_memory" HVObject (PSHostMemory (RDPass r))
  ++ (if bool_decide (PSStagnation (RDPass r) = no_stagnation) then [] else [("stagnation", stagnating_canonical (PSStagnation (RDPass r)))]).

Lemma opt_value_keys {A} key (f : A → value) o k : k ∈ (opt_value key f o).*1 → k = key.
Proof. destruct o; cbn; [by intros ->%list_elem_of_singleton|by intros ?%elem_of_nil]. Qed.

Lemma digest_tail_keys r k : k ∈ (digest_tail r).*1 → k ∈ ["order_constraints"; "release_policy"; "host_memory"; "stagnation"].
Proof.
  unfold digest_tail. rewrite !fmap_app, !elem_of_app, !elem_of_cons. intros [H|[H%opt_value_keys|[H%opt_value_keys|H]]]; [|by right; left|by right; right; left|].
  - destruct (_ <? _)%nat; cbn in H; [apply list_elem_of_singleton in H; by left|by apply elem_of_nil in H].
  - case_bool_decide; cbn in H; [by apply elem_of_nil in H|apply list_elem_of_singleton in H; by right; right; right; left].
Qed.

(** What a node looks like in the digest. *)
Definition node_fields_of (n : NodeReading) : string * string * string * string * string := (NRNodeID n, NRState n, NRDisposition n, NRReason n, NRDetail n).

Definition entry_head (n : NodeReading) : list (string * value) :=
  [("node_id", VString (NRNodeID n)); ("state", VString (NRState n)); ("disposition", VString (NRDisposition n)); ("reason", VString (NRReason n)); ("detail", VString (NRDetail n))].

Definition entry_tail (n : NodeReading) : list (string * value) :=
  opt_value "release" judgement_canonical (NRRelease n) ++ opt_value "merge_order" id (NRMergeOrder n) ++ opt_value "stagnation" StCanonical (NRStagnation n).

Lemma entry_tail_keys n k : k ∈ (entry_tail n).*1 → k ∈ ["release"; "merge_order"; "stagnation"].
Proof. unfold entry_tail. rewrite !fmap_app, !elem_of_app, !elem_of_cons. intros [->%opt_value_keys|[->%opt_value_keys| ->%opt_value_keys]]; tauto. Qed.

(** Two maps with the same tail keys agree on the other keys of their heads. *)
Lemma maps_agree head1 tail1 head2 tail2 (ks : list string) : VMap (map_of (head1 ++ tail1)) = VMap (map_of (head2 ++ tail2)) → (∀ k, k ∈ tail1.*1 → k ∈ ks) → (∀ k, k ∈ tail2.*1 → k ∈ ks) →
  ∀ k, bool_decide (k ∉ ks) = true → assoc_last head1 k = assoc_last head2 k.
Proof.
  intros E H1 H2 k Hk%bool_decide_eq_true. injection E as E. apply (f_equal (λ m, map_get m k)) in E. rewrite !map_get_of in E.
  by rewrite !assoc_last_skip in E by (intros H; apply Hk; auto).
Qed.

Lemma node_entry_fields n1 n2 : node_entry n1 = node_entry n2 → node_fields_of n1 = node_fields_of n2.
Proof.
  intros E. pose proof (maps_agree (entry_head n1) (entry_tail n1) (entry_head n2) (entry_tail n2) _ E (entry_tail_keys n1) (entry_tail_keys n2)) as Hb.
  pose proof (Hb "node_id" eq_refl) as [= E1]. pose proof (Hb "state" eq_refl) as [= E2]. pose proof (Hb "disposition" eq_refl) as [= E3]. pose proof (Hb "reason" eq_refl) as [= E4].
  pose proof (Hb "detail" eq_refl) as [= E5]. unfold node_fields_of. congruence.
Qed.

Record same_world (r1 : Reading) (c1 : Capacity) (h1 : list string) (r2 : Reading) (c2 : Capacity) (h2 : list string) : Prop := {
  sw_plan : RDPlanID r1 = RDPlanID r2 ∧ RDPlanRevision r1 = RDPlanRevision r2 ∧ RDStateDigest r1 = RDStateDigest r2;
  sw_nodes : node_fields_of <$> RDNodes r1 = node_fields_of <$> RDNodes r2;
  sw_order : NRNodeID <$> RDReady r1 = NRNodeID <$> RDReady r2;
  sw_files : h1 ≡ₚ h2;
  sw_capacity : CFree c1 = CFree c2 ∧ CCeiling c1 = CCeiling c2 ∧ CHeld c1 = CHeld c2 ∧ CSource c1 = CSource c2 ∧ CUnmeasured c1 = CUnmeasured c2;
  sw_limit : PSDecidingLimit (RDPass r1) = PSDecidingLimit (RDPass r2)
}.

Lemma fmap_eq_impl {A B C} (f : A → B) (g : A → C) (l1 l2 : list A) : (∀ x y, f x = f y → g x = g y) → f <$> l1 = f <$> l2 → g <$> l1 = g <$> l2.
Proof.
  intros H. revert l2. induction l1 as [|x l1 IH]; intros [|y l2] E; try done. rewrite !fmap_cons in *. injection E as E1 E2. f_equal; [by apply H|by apply IH].
Qed.

Definition digest_head (r : Reading) (c : Capacity) (hashes : list string) : list (string * value) :=
  [("plan_id", VString (RDPlanID r)); ("plan_revision", VInt (RDPlanRevision r)); ("state_digest", VString (RDStateDigest r)); ("nodes", VList (node_entry <$> RDNodes r));
   ("order", VList ((λ n, VString (NRNodeID n)) <$> RDReady r)); ("files", VList (VString <$> sort_strings hashes));
   ("free", VInt (CFree c)); ("ceiling", VInt (CCeiling c)); ("held", VInt (CHeld c)); ("source", VString (CSource c)); ("unmeasured", VBool (CUnmeasured c));
   ("deciding_limit", VString (PSDecidingLimit (RDPass r)))].

Lemma digest_object_same r1 c1 h1 r2 c2 h2 : digest_object r1 c1 h1 = digest_object r2 c2 h2 → same_world r1 c1 h1 r2 c2 h2.
Proof.
  intros E. pose proof (maps_agree (digest_head r1 c1 h1) (digest_tail r1) (digest_head r2 c2 h2) (digest_tail r2) _ E (digest_tail_keys r1) (digest_tail_keys r2)) as Hb.
  pose proof (Hb "plan_id" eq_refl) as [= E1]. pose proof (Hb "plan_revision" eq_refl) as [= E2]. pose proof (Hb "state_digest" eq_refl) as [= E3]. pose proof (Hb "nodes" eq_refl) as [= E4].
  pose proof (Hb "order" eq_refl) as [= E5]. pose proof (Hb "files" eq_refl) as [= E6]. pose proof (Hb "free" eq_refl) as [= E7]. pose proof (Hb "ceiling" eq_refl) as [= E8].
  pose proof (Hb "held" eq_refl) as [= E9]. pose proof (Hb "source" eq_refl) as [= E10]. pose proof (Hb "unmeasured" eq_refl) as [= E11]. pose proof (Hb "deciding_limit" eq_refl) as [= E12].
  split; try done.
  - eapply fmap_eq_impl; [apply node_entry_fields|done].
  - eapply fmap_eq_impl; [|exact E5]. cbn. by intros x y [= ->].
  - apply (fmap_eq_impl VString id) in E6; [|by intros x y [= ->]]. rewrite !list_fmap_id in E6. by rewrite <- (sort_by_perm id h1), <- (sort_by_perm id h2); fold (sort_strings h1) (sort_strings h2); rewrite E6.
Qed.

Definition digest_text (r : Reading) (c : Capacity) (hashes : list string) : string := canonical (digest_object r c hashes).
Definition digest_ok (r : Reading) (c : Capacity) (hashes : list string) : Prop := json_ok (digest_object r c hashes) ∧ (height (digest_object r c hashes) ≤ MaxDepth)%nat.

(** Two readings with one input digest saw one world. If two readings (of UTF-8 text and machine integers) have the same digest, they agree on the plan, its revision and state digest,
    on the state, disposition, reason and detail of every node, on the offered nodes and their order, on the limit that decided, on the capacity figures and on the hashes of
    the files that were read, unless SHA-256 maps two different texts to it. *)
Theorem inputDigest_exact r1 c1 h1 r2 c2 h2 : digest_ok r1 c1 h1 → digest_ok r2 c2 h2 → inputDigest r1 c1 h1 = inputDigest r2 c2 h2 →
  same_world r1 c1 h1 r2 c2 h2 ∨ digest_text r1 c1 h1 ≠ digest_text r2 c2 h2 ∧ sha256_hex (digest_text r1 c1 h1) = sha256_hex (digest_text r2 c2 h2).
Proof.
  intros [J1 D1] [J2 D2] E. destruct (decide (digest_text r1 c1 h1 = digest_text r2 c2 h2)) as [Et|Et]; [left|right; exact (conj Et E)]. unfold digest_text in Et.
  apply digest_object_same. apply (LoadsBytes_canonical _ J1) in D1. apply (LoadsBytes_canonical _ J2) in D2. rewrite Et, D2 in D1.
  apply (f_equal (λ o, match o with Ok v => v | Err _ => VNull end)) in D1. symmetry. exact D1.
Qed.

(** ** Witnesses *)
Import ReadyExample.

Lemma b_eligible : eligible "p1" snap opts node_b.
Proof. exists (mkNodeState StatePlanned false "" "" "" VNull false false), (mkVerdict None []). split_and!; try reflexivity. vm_compute. constructor. Qed.

(** The deferred node of the example is deferred for cause. *)
Lemma Ready_eligible_witness : ∃ x, x ∈ RDNodes reading ∧ NRNodeID x = "b" ∧ NRDisposition x = DispDefer ∧ deferred_for "p1" snap (mkCapacity 2 2 0 "declared" "" false) None declared reading node_b (NRReason x).
Proof.
  refine (proj1 (proj2 (Ready_eligible stored "p1" opts reading snap 1 (mkCapacity 2 2 0 "declared" "" false) declared None example_plan_inv run read eq_refl eq_refl eq_refl)) node_b _ b_eligible _).
  - vm_compute. right. left.
  - intros (x & Hx & E). unfold reading in Hx. cbn [RDReady] in Hx. rewrite !elem_of_cons, elem_of_nil in Hx. destruct Hx as [->|[->|[]]]; vm_compute in E; discriminate E.
Defined.

Lemma Ready_ranked_witness : ∃ kx ky, NRRank <$> RDReady reading = [Some kx; Some ky] ∧ outranks (kx, "a") (ky, "c").
Proof.
  destruct (proj1 (Ready_ranked stored "p1" opts reading snap 1 example_plan_inv run read) 0%nat 1%nat _ _ (Nat.lt_0_succ 0) eq_refl eq_refl) as (kx & ky & E1 & E2 & H).
  exists kx, ky. vm_compute in E1, E2. injection E1 as <-. injection E2 as <-. split; [vm_compute; reflexivity|exact H].
Defined.

Lemma Ready_closed_witness : NRNodeID <$> RDNodes reading = ["a"; "b"; "c"].
Proof. pose proof (proj1 (Ready_closed stored "p1" opts reading snap 1 example_plan_inv run read)) as H. exact H. Defined.

(** The files of a reading, in two orders. *)
Lemma none_ok h : digest_object none (mkCapacity 0 0 0 "" "" false) h = digest_object none (mkCapacity 0 0 0 "" "" false) ["f1"; "f2"] → digest_ok none (mkCapacity 0 0 0 "" "" false) h.
Proof.
  unfold digest_ok. intros ->. split; [|refine (bool_decide_unpack _ _); vm_compute; exact I]. apply object_ok. cbn.
  entries; first [by apply literal_ok|by apply ok_int; vm_compute|apply ok_bool|apply ok_list; by constructor|apply ok_list; repeat (apply Forall_cons; split; [by apply literal_ok|]); constructor].
Qed.

Lemma inputDigest_exact_witness : ["f1"; "f2"] ≡ₚ ["f2"; "f1"] ∨
  digest_text none (mkCapacity 0 0 0 "" "" false) ["f1"; "f2"] ≠ digest_text none (mkCapacity 0 0 0 "" "" false) ["f2"; "f1"] ∧
  sha256_hex (digest_text none (mkCapacity 0 0 0 "" "" false) ["f1"; "f2"]) = sha256_hex (digest_text none (mkCapacity 0 0 0 "" "" false) ["f2"; "f1"]).
Proof.
  destruct (inputDigest_exact none (mkCapacity 0 0 0 "" "" false) ["f1"; "f2"] none (mkCapacity 0 0 0 "" "" false) ["f2"; "f1"]) as [H|H].
  - by apply none_ok.
  - apply none_ok. vm_compute. reflexivity.
  - vm_compute. reflexivity.
  - left. exact (sw_files _ _ _ _ _ _ H).
  - right. exact H.
Defined.
