(* ===== verification/SchedCapacity.v ===== *)
(** * SchedCapacity: the slots a project may use now (internal/relay/dagsched/capacity.go).

    [capacity_of] reads the enforced ceilings of the initiative above a project, of the project and of the store, and the parent's standing cap of six children, and keeps the
    smallest headroom. The tables are the rows of the store; the initiative above the project, which the registry resolves, is an argument, empty when there is none. A
    ceiling or an observation is a [float64]: a rational, compared and rounded up only; a ceiling is within the range of an [int]. *)
From S2P Require Import Prelude GoLib Json SchedReady SchedReadyProps.
From S2P Require Import Sha256 Loads Utf8 GoPath DagModel DagStore DagRepo DagStored DagRepoProps SchedPolicy SchedRegions SchedGraph.
From Stdlib Require Import QArith Qround.
Local Open Scope string_scope.
Local Open Scope Z_scope.

Definition StandingCap : Z := 6.
Definition MaxInt : Z := 2 ^ 63 - 1.

(** ** The rows *)
Record LimitRow : Type := mkLimit { lim_id : string; lim_kind : string; lim_key : string; lim_dimension : string; lim_ceiling : Q; lim_enforce : bool; lim_revision : Z }.
Record UsageRow : Type := mkUsage { use_kind : string; use_key : string; use_dimension : string; use_observed : Q }.
Record SlotRow : Type := mkSlot { slot_state : string; slot_project : string; slot_initiative : string }.
Record BasisRecord : Type := mkBasis { basis_limit : string; basis_revision : Z }.

Record CapacityTables : Type := mkTables {
  execution_limits : list LimitRow;
  execution_usage : list UsageRow;
  execution_slots : list SlotRow;
  dag_cap_basis : list BasisRecord
}.

Section tables.
Context (t : CapacityTables).

(** store/mergeturn_capacity.go *)
Definition EnforcedExecutionLimits (kind key : string) : list LimitRow :=
  sort_by lim_dimension (filter (λ l, lim_kind l = kind ∧ lim_key l = key ∧ lim_enforce l = true) (execution_limits t)).

Definition ExecutionUsage (kind key dimension : string) : option UsageRow :=
  List.find (λ u, bool_decide (use_kind u = kind) && bool_decide (use_key u = key) && bool_decide (use_dimension u = dimension)) (execution_usage t).

Definition RunsIn (kind key : string) : Z :=
  let held := filter (λ s, slot_state s = "held") (execution_slots t) in
  Z.of_nat (length (if bool_decide (kind = "store") then held else if bool_decide (kind = "project") then filter (λ s, slot_project s = key) held
    else filter (λ s, slot_initiative s = key) held)).

Definition has_basis (l : LimitRow) : bool :=
  existsb (λ b, bool_decide (basis_limit b = lim_id l) && (basis_revision b =? lim_revision l)) (dag_cap_basis t).

(** [consider] *)
Definition consider (best c : Capacity) : Capacity := if CFree c <? CFree best then c else best.

Definition ceil_int (q : Q) : Z := Qceiling q.

(** The slots of a ceiling on runs. *)
Definition runs_capacity (kind key : string) (l : LimitRow) : Capacity :=
  let above := negb (Qle_bool (lim_ceiling l) (inject_Z StandingCap)) in
  let '(limit, source, basis) :=
    if above then if has_basis l then (lim_ceiling l, "declared", "recorded") else (inject_Z StandingCap, "clamped_no_basis", "missing")
    else (lim_ceiling l, "declared", "") in
  let held := RunsIn kind key in
  mkCapacity (Z.max (ceil_int limit - held) 0) (ceil_int limit) held source basis false.

Definition set_unmeasured (c : Capacity) (u : bool) : Capacity := mkCapacity (CFree c) (CCeiling c) (CHeld c) (CSource c) (CBasis c) u.

(** One enforced limit of a scope: the best capacity so far, and whether the project has a ceiling on runs. *)
Definition limit_step (kind key : string) (acc : Capacity * bool) (l : LimitRow) : Capacity * bool :=
  let '(best, limited) := acc in
  if negb (bool_decide (lim_dimension l = "runs")) then
    match ExecutionUsage kind key (lim_dimension l) with
    | None => (consider (set_unmeasured best true) (mkCapacity 0 (ceil_int (lim_ceiling l)) 0 "declared" "" true), limited)
    | Some u => (if Qle_bool (lim_ceiling l) (use_observed u) then consider best (mkCapacity 0 (ceil_int (lim_ceiling l)) 0 "declared" "" false) else best, limited)
    end
  else (consider best (runs_capacity kind key l), limited || bool_decide (kind = "project")).

Definition scope_step (acc : Capacity * bool) (scope : string * string) : Capacity * bool :=
  foldl (limit_step scope.1 scope.2) acc (EnforcedExecutionLimits scope.1 scope.2).

Definition scopes (initiative project : string) : list (string * string) :=
  ((if bool_decide (initiative = "") then [] else [("initiative", initiative)]) ++ [("project", project); ("store", "store")])%list.

Definition capacity_of (initiative project : string) : Capacity :=
  let '(best, limited) := foldl scope_step (mkCapacity MaxInt 0 0 "standing_cap" "" false, false) (scopes initiative project) in
  let best := if limited then best
    else let held := RunsIn "project" project in consider best (mkCapacity (Z.max (StandingCap - held) 0) StandingCap held "standing_cap" "" false) in
  let unmeasured := CUnmeasured best in
  let best := if CFree best =? MaxInt then mkCapacity 0 0 0 "standing_cap" "" false else best in
  set_unmeasured best unmeasured.

(** ** The smallest headroom *)

(** The headroom an enforced limit leaves, when it binds. *)
Definition headroom (kind key : string) (l : LimitRow) : option Z :=
  if bool_decide (lim_dimension l = "runs") then Some (CFree (runs_capacity kind key l))
  else match ExecutionUsage kind key (lim_dimension l) with
       | None => Some 0
       | Some u => if Qle_bool (lim_ceiling l) (use_observed u) then Some 0 else None
       end.

Definition scope_headrooms (scope : string * string) : list Z := omap (headroom scope.1 scope.2) (EnforcedExecutionLimits scope.1 scope.2).

(** The project has an enforced ceiling on runs. *)
Definition project_limited (project : string) : bool := existsb (λ l, bool_decide (lim_dimension l = "runs")) (EnforcedExecutionLimits "project" project).

Definition headrooms (initiative project : string) : list Z :=
  ((scopes initiative project ≫= scope_headrooms) ++ if project_limited project then [] else [Z.max (StandingCap - RunsIn "project" project) 0])%list.

Lemma consider_free best c : CFree (consider best c) = Z.min (CFree best) (CFree c).
Proof. unfold consider. destruct (Z.ltb_spec (CFree c) (CFree best)); lia. Qed.

Lemma limit_steps kind key ls : ∀ best limited,
  let '(best', limited') := foldl (limit_step kind key) (best, limited) ls in
  CFree best' = foldl Z.min (CFree best) (omap (headroom kind key) ls) ∧ limited' = limited || (bool_decide (kind = "project") && existsb (λ l, bool_decide (lim_dimension l = "runs")) ls).
Proof.
  induction ls as [|l ls IH]; intros best limited; [cbn; by rewrite andb_false_r, orb_false_r|]. cbn [foldl existsb].
  destruct (limit_step kind key (best, limited) l) as [b1 l1] eqn:E. specialize (IH b1 l1). destruct (foldl (limit_step kind key) (b1, l1) ls) as [b2 l2]. destruct IH as [-> ->].
  unfold limit_step in E. cbn [omap list_omap]. unfold headroom at 2.
  destruct (bool_decide (lim_dimension l = "runs")) eqn:Er; cbn [negb] in E.
  - injection E as <- <-. cbn [foldl]. rewrite consider_free. split; [done|]. by destruct limited, (bool_decide (kind = "project")).
  - destruct (ExecutionUsage kind key (lim_dimension l)) as [u|].
    + injection E as <- <-. destruct (Qle_bool _ _); [cbn [foldl]; rewrite consider_free|]; by destruct limited, (bool_decide (kind = "project")).
    + injection E as <- <-. cbn [foldl]. rewrite consider_free. by destruct limited, (bool_decide (kind = "project")).
Qed.

Definition limits_runs (scope : string * string) : bool :=
  bool_decide (scope.1 = "project") && existsb (λ l, bool_decide (lim_dimension l = "runs")) (EnforcedExecutionLimits scope.1 scope.2).

Lemma scope_steps scs : ∀ best limited,
  let '(best', limited') := foldl scope_step (best, limited) scs in
  CFree best' = foldl Z.min (CFree best) (scs ≫= scope_headrooms) ∧ limited' = limited || existsb limits_runs scs.
Proof.
  induction scs as [|sc scs IH]; intros best limited; [cbn; by rewrite orb_false_r|]. cbn [foldl existsb]. rewrite bind_cons, foldl_app.
  unfold scope_step at 2. pose proof (limit_steps sc.1 sc.2 (EnforcedExecutionLimits sc.1 sc.2) best limited) as H.
  destruct (foldl (limit_step sc.1 sc.2) (best, limited) (EnforcedExecutionLimits sc.1 sc.2)) as [b1 l1]. destruct H as [E1 E2]. specialize (IH b1 l1).
  destruct (foldl scope_step (b1, l1) scs) as [b2 l2]. destruct IH as [-> ->]. rewrite E1, E2. unfold scope_headrooms, limits_runs. split; [done|]. by rewrite orb_assoc.
Qed.

Lemma scopes_limited initiative project : existsb limits_runs (scopes initiative project) = project_limited project.
Proof. unfold scopes, limits_runs, project_limited. case_bool_decide; cbn; by rewrite orb_false_r. Qed.

Lemma foldl_min_spec l : ∀ b, foldl Z.min b l ≤ b ∧ (∀ h, h ∈ l → foldl Z.min b l ≤ h) ∧ (foldl Z.min b l = b ∨ foldl Z.min b l ∈ l).
Proof.
  induction l as [|x l IH]; intros b; cbn [foldl]; [split_and!; [done|by intros h ?%elem_of_nil|by left]|]. destruct (IH (Z.min b x)) as (H1 & H2 & H3). split_and!.
  - lia.
  - intros h [->|Hh]%elem_of_cons; [lia|by apply H2].
  - destruct H3 as [H3|H3]; [|right; by right]. rewrite H3. destruct (Z.min_spec b x) as [[_ ->]|[_ ->]]; [by left|right; by left].
Qed.

Lemma runs_free_positive kind key l : 0 ≤ CFree (runs_capacity kind key l).
Proof. unfold runs_capacity. repeat case_match; cbn; lia. Qed.

Lemma headrooms_positive initiative project h : h ∈ headrooms initiative project → 0 ≤ h.
Proof.
  unfold headrooms, scope_headrooms. intros [Hh|Hh]%elem_of_app.
  - apply list_elem_of_bind in Hh as (sc & (l & _ & Hl)%list_elem_of_omap & _). unfold headroom in Hl. case_bool_decide; [injection Hl as <-; apply runs_free_positive|]. repeat case_match; simplify_eq; lia.
  - destruct (project_limited project); [by apply elem_of_nil in Hh|]. apply list_elem_of_singleton in Hh. lia.
Qed.

(** The free slots are the smallest headroom. *)
Lemma capacity_min initiative project : CFree (capacity_of initiative project) =
  let m := foldl Z.min MaxInt (headrooms initiative project) in if m =? MaxInt then 0 else m.
Proof.
  unfold capacity_of, headrooms. pose proof (scope_steps (scopes initiative project) (mkCapacity MaxInt 0 0 "standing_cap" "" false) false) as H.
  destruct (foldl scope_step _ _) as [best limited]. destruct H as [E1 E2]. rewrite scopes_limited in E2. cbn [orb CFree] in E1, E2. cbv zeta. rewrite foldl_app, <- E1.
  destruct (project_limited project); subst limited; cbn [foldl].
  - destruct (CFree best =? MaxInt) eqn:E; rewrite ?E; done.
  - set (c := mkCapacity (Z.max _ _) _ _ _ _ _). change (Z.max (StandingCap - RunsIn "project" project) 0) with (CFree c). rewrite <- consider_free. destruct (CFree (consider best c) =? MaxInt); done.
Qed.

Lemma project_headroom initiative project l : l ∈ EnforcedExecutionLimits "project" project → lim_dimension l = "runs" → CFree (runs_capacity "project" project l) ∈ headrooms initiative project.
Proof.
  intros Hl Hd. unfold headrooms. apply elem_of_app. left. apply list_elem_of_bind. exists ("project", project). split.
  - unfold scope_headrooms. apply list_elem_of_omap. exists l. split; [done|]. unfold headroom. by rewrite bool_decide_true by done.
  - unfold scopes. apply elem_of_app. right. by left.
Qed.

(** A ceiling on runs the parent's standing cap does not clamp. *)
Definition raised (project : string) : Prop :=
  ∃ l, l ∈ EnforcedExecutionLimits "project" project ∧ lim_dimension l = "runs" ∧ (inject_Z StandingCap < lim_ceiling l)%Q ∧ has_basis l = true.

Lemma runs_clamped project l : ¬ raised project → l ∈ EnforcedExecutionLimits "project" project → lim_dimension l = "runs" →
  CFree (runs_capacity "project" project l) ≤ Z.max (StandingCap - RunsIn "project" project) 0.
Proof.
  intros Hr Hl Hd. unfold runs_capacity. destruct (Qle_bool (lim_ceiling l) (inject_Z StandingCap)) eqn:Eq; cbn [negb].
  - apply Qle_bool_iff in Eq. cbn. apply Qceiling_resp_le in Eq. unfold ceil_int. rewrite Qceiling_Z in Eq. lia.
  - destruct (has_basis l) eqn:Eb.
    + destruct Hr. exists l. split_and!; [done|done| |done]. apply Qnot_le_lt. intros H%Qle_bool_iff. congruence.
    + cbn. unfold ceil_int. rewrite Qceiling_Z. done.
Qed.

Lemma standing_headroom initiative project : ¬ raised project → ∃ h, h ∈ headrooms initiative project ∧ h ≤ Z.max (StandingCap - RunsIn "project" project) 0.
Proof.
  intros Hr. destruct (project_limited project) eqn:Ep.
  - unfold project_limited in Ep. apply existsb_exists in Ep as (l & Hl%list_elem_of_In & Hd%bool_decide_eq_true). exists (CFree (runs_capacity "project" project l)).
    split; [by apply project_headroom|by apply runs_clamped].
  - exists (Z.max (StandingCap - RunsIn "project" project) 0). split; [|done]. unfold headrooms. rewrite Ep. apply elem_of_app. right. by left.
Qed.

Lemma standing_bound initiative project : ¬ raised project → CFree (capacity_of initiative project) ≤ Z.max (StandingCap - RunsIn "project" project) 0.
Proof.
  intros Hr. destruct (standing_headroom initiative project Hr) as (h & Hh & Hle). rewrite capacity_min. cbv zeta. destruct (foldl_min_spec (headrooms initiative project) MaxInt) as (_ & H & _).
  specialize (H h Hh). destruct (_ =? _); lia.
Qed.
End tables.

(** The free slots of a project are the smallest headroom: no enforced ceiling of the initiative, the project or the store leaves less (a ceiling on runs leaves what it allows, rounded up, above the
    runs that are held; one on another dimension nothing when nobody measured it or the observation reached it), some ceiling or the standing cap leaves exactly that, and the count is never negative. *)
Theorem capacity_smallest t initiative project :
  let free := CFree (capacity_of t initiative project) in
  0 ≤ free ∧ (∀ h, h ∈ headrooms t initiative project → free ≤ h) ∧
  (free ∈ headrooms t initiative project ∨ ∀ h, h ∈ headrooms t initiative project → MaxInt ≤ h).
Proof.
  cbv zeta. rewrite capacity_min. cbv zeta. pose proof (headrooms_positive t initiative project) as Hpos. destruct (foldl_min_spec (headrooms t initiative project) MaxInt) as (_ & Hle & Hin).
  destruct (Z.eqb_spec (foldl Z.min MaxInt (headrooms t initiative project)) MaxInt) as [E|E].
  - split_and!; [done|by intros h Hh%Hpos|]. right. intros h Hh. rewrite <- E. by apply Hle.
  - destruct Hin as [?|Hin]; [done|]. split_and!; [by apply Hpos|done|by left].
Qed.

(** C20: a pass respects the parent's standing cap. Unless a cap basis is recorded for an enforced ceiling above six on the project's runs, the nodes a reading offers, together with the runs the
    project already holds, are at most six (or no node is offered, when more are held already). *)
Theorem Ready_standing_cap `{V : View} t initiative st plan opts r snap head : store_inv st → Ready st plan opts = Ok r → SnapshotAt st plan 0 = Ok (snap, head) →
  capacity (SnapProjectKey snap) = Ok (capacity_of t initiative (SnapProjectKey snap)) → ¬ raised t (SnapProjectKey snap) →
  Z.of_nat (length (RDReady r)) + RunsIn t "project" (SnapProjectKey snap) ≤ Z.max StandingCap (RunsIn t "project" (SnapProjectKey snap)).
Proof.
  intros Hi Hr Hs Hcap Hn. destruct (Ready_count _ _ _ _ Hi Hr) as (snap' & head' & cap & Hs' & Hcap' & Hle). rewrite Hs in Hs'. injection Hs' as <- <-. rewrite Hcap in Hcap'. injection Hcap' as <-.
  pose proof (standing_bound t initiative (SnapProjectKey snap) Hn). lia.
Qed.

(** ** Witness: the example of a reading, with a declared ceiling of two runs *)
Definition two_runs : CapacityTables := mkTables [mkLimit "l" "project" "CRW" "runs" (2 # 1) true 1] [] [] [].

Lemma two_not_raised : ¬ raised two_runs "CRW".
Proof.
  intros (l & Hl & _ & Hq & Hb). unfold has_basis, two_runs in Hb. cbn in Hb. discriminate Hb.
Qed.

Lemma Ready_standing_cap_witness : Z.of_nat (length (RDReady ReadyExample.reading)) + RunsIn two_runs "project" "CRW" ≤ 6.
Proof.
  exact (Ready_standing_cap (V := ReadyExample.view) two_runs "" ReadyExample.stored "p1" ReadyExample.opts ReadyExample.reading ReadyExample.snap 1 ReadyExample.example_plan_inv ReadyExample.run ReadyExample.read
    eq_refl two_not_raised).
Defined.
