(* ===== verification/JsText.v ===== *)
(** * JsText: the text helpers of the PABCD loop (internal/pabcd/text/lines.go, internal/pabcd/attest/match.go).

    JavaScript's trim and line splitting, and the hand-written regular expressions of the attestation gate. Text is handled as bytes, as in
    Go; a rune is decoded where the Go code ranges over runes. *)
From S2P Require Import Prelude GoLib Sha256 Json.
Local Open Scope Z_scope.

(** A text literal in which [~] stands for the quotation mark. *)
Fixpoint quoted (s : string) : string :=
  match s with
  | EmptyString => EmptyString
  | String c s' => String (if bool_decide (c = "~"%char) then "034"%char else c) (quoted s')
  end.

(** ** text.Trim *)

Definition isJSSpace (r : Z) : bool :=
  bool_decide (r ∈ [9; 10; 11; 12; 13; 32; 0xA0; 0x1680; 0x2028; 0x2029; 0x202F; 0x205F; 0x3000; 0xFEFF])
  || in_range 0x2000 0x200A r.

(** [strings.TrimLeftFunc(s, isJSSpace)]; [fuel] is the number of bytes. *)
Fixpoint trim_left (fuel : nat) (s : list Z) : list Z :=
  match fuel, s with
  | O, _ | _, [] => s
  | S fuel', _ =>
    let '(r, size) := decode_rune s in
    if isJSSpace r then trim_left fuel' (drop size s) else s
  end.

(** [utf8.RuneStart] *)
Definition rune_start (b : Z) : bool := negb (is_cont b).

(** [utf8.DecodeLastRuneInString]: the rune that ends the bytes and its width. *)
Definition start_of_last (s : list Z) : nat :=
  let n := length s in
  let back k := match s !! (n - k)%nat with Some b => (k <=? n)%nat && rune_start b | None => false end in
  if back 2%nat then 2%nat else if back 3%nat then 3%nat else if back 4%nat then 4%nat
  else if (n <=? 4)%nat then n else 4%nat.

Definition decode_last_rune (s : list Z) : Z * nat :=
  match last s with
  | None => (rune_error, 0%nat)
  | Some b =>
    if b <? 0x80 then (b, 1%nat)
    else
      let k := start_of_last s in
      let '(r, size) := decode_rune (drop (length s - k) s) in
      if (size =? k)%nat then (r, size) else (rune_error, 1%nat)
  end.

(** [strings.TrimRightFunc(s, isJSSpace)] *)
Fixpoint trim_right (fuel : nat) (s : list Z) : list Z :=
  match fuel, s with
  | O, _ | _, [] => s
  | S fuel', _ =>
    let '(r, size) := decode_last_rune s in
    if isJSSpace r then trim_right fuel' (take (length s - size) s) else s
  end.

Definition TrimBytes (s : list Z) : list Z :=
  let s := trim_left (length s) s in trim_right (length s) s.

Definition Trim (s : string) : string := string_of_bytes (TrimBytes (bytes_of_string s)).

(** ** text.SplitLines *)

(** [strings.Split(s, "\n")] *)
Fixpoint split_lf (s : list Z) (cur : list Z) : list (list Z) :=
  match s with
  | [] => [cur]
  | b :: s' => if b =? 10 then cur :: split_lf s' [] else split_lf s' (cur ++ [b])
  end.

(** [strings.TrimSuffix(l, "\r")] *)
Definition trim_cr (l : list Z) : list Z :=
  match last l with Some 13 => take (length l - 1) l | _ => l end.

(** Every line but the last loses a carriage return before its line feed. *)
Fixpoint strip_crs (lines : list (list Z)) : list (list Z) :=
  match lines with
  | [] => []
  | [l] => [l]
  | l :: rest => trim_cr l :: strip_crs rest
  end.

Definition SplitLinesBytes (s : list Z) : list (list Z) := strip_crs (split_lf s []).

(** ** match.go *)

Definition lower_byte (b : Z) : Z := if in_range 65 90 b then b + 32 else b.

(** [asciiLower]: A to Z only. The Go code maps runes; a byte of A to Z is always a rune of its own. Bytes that are not UTF-8 become
    U+FFFD in Go; they are no letter either way, and every caller compares the result with an ASCII text. *)
Definition asciiLowerBytes (s : list Z) : list Z := lower_byte <$> s.
Definition asciiLower (s : string) : string := string_of_bytes (asciiLowerBytes (bytes_of_string s)).

(** [strings.Trim(s, cut) == ""] for a one-byte cut set: the text is that byte repeated. *)
Definition only (c : Z) (s : list Z) : bool := forallb (λ b, b =? c) s.

Definition placeholders : list string := ["tbd"; "todo"; "na"; "n/a"; "none"; "done"; "ok"]%string.

Definition isPlaceholderDid (s : string) : bool :=
  bool_decide (asciiLower s ∈ placeholders)
  || (negb (bool_decide (s = ""%string)) && (only 46 (bytes_of_string s) || only 45 (bytes_of_string s))).

Definition isWordByte (c : Z) : bool := in_range 97 122 c || in_range 65 90 c || in_range 48 57 c || (c =? 95).

Definition verdict_word : list Z := bytes_of_string "verdict".
Definition fail_word : list Z := bytes_of_string "fail".

(** What follows [verdict:] or [verdict=] on a line. *)
Definition verdictBody (line : list Z) : option (list Z) :=
  if (length line <? 7)%nat || negb (bool_decide (asciiLowerBytes (take 7 line) = verdict_word)) then None
  else
    match TrimBytes (drop 7 line) with
    | [] => None
    | b :: rest => if (b =? 58) || (b =? 61) then Some rest else None
    end.

(** The last five elements. *)
Definition last_five {A} (l : list A) : list A := if (5 <? length l)%nat then drop (length l - 5) l else l.

Definition HasFailVerdictTail (auditOutput : string) : bool :=
  let lines := filter (λ l, l ≠ []) (TrimBytes <$> SplitLinesBytes (bytes_of_string auditOutput)) in
  match last (omap verdictBody (last_five lines)) with
  | None => false
  | Some body =>
    let body := TrimBytes body in
    (4 <=? length body)%nat && bool_decide (asciiLowerBytes (take 4 body) = fail_word)
    && match body !! 4%nat with None => true | Some c => negb (isWordByte c) end
  end.

(** ** Examples *)

Definition lf : string := String "010" "".

Example tail_fail : HasFailVerdictTail ("VERDICT: PASS" +:+ lf +:+ "  Verdict =  FAIL (2 blockers)" +:+ lf) = true.
Proof. vm_compute. reflexivity. Qed.

Example tail_corrected : HasFailVerdictTail ("verdict: fail" +:+ lf +:+ "verdict: pass") = false.
Proof. vm_compute. reflexivity. Qed.

Example tail_word : HasFailVerdictTail "verdict: failover works" = false.
Proof. vm_compute. reflexivity. Qed.

Example placeholder_dots : isPlaceholderDid "..." = true ∧ isPlaceholderDid "N/A" = true ∧ isPlaceholderDid "done." = false.
Proof. vm_compute. auto. Qed.
