(* ===== verification/Attest.v ===== *)
(** * Attest: the evidence gate of the PABCD transitions (internal/pabcd/attest/attest.go) and the interview gate
    (internal/pabcd/interview/interview.go and gate.go).

    A phase is the string the state file holds. A [float64] is a rational, an infinity or NaN: the code modelled here compares and
    truncates, which is exact. The spelling of a number in a refusal (internal/jsnode NumberString) is a parameter. *)
From Stdlib Require Import QArith.
From S2P Require Import Prelude GoLib Sha256 Json GoFloat JsText.
Local Open Scope string_scope.

(** ** Phases (internal/pabcd/state/state.go) *)

Definition Phase : Type := string.
#[export] Instance Phase_eq_dec : EqDecision Phase.
Proof. unfold Phase. apply _. Defined.
Definition PhaseIdle : Phase := "IDLE".
Definition PhaseI : Phase := "I".
Definition PhaseP : Phase := "P".
Definition PhaseA : Phase := "A".
Definition PhaseB : Phase := "B".
Definition PhaseC : Phase := "C".
Definition PhaseD : Phase := "D".
Definition WorkPhases : list Phase := [PhaseI; PhaseP; PhaseA; PhaseB; PhaseC; PhaseD].
Definition AllPhases : list Phase := PhaseIdle :: WorkPhases.

(** ** The attestation *)

Definition VerdictPass := "pass".
Definition VerdictNearPass := "near-pass".
Definition VerdictFail := "fail".

Definition DispositionFolded := "folded".
Definition DispositionRebutted := "rebutted".

Record BlockerDisposition : Type := mkBlocker {
  Blocker : Z;
  Disposition : string;
  BReason : string
}.

Record Attestation : Type := mkAttestation {
  From : Phase;
  To : Phase;
  Did : string;
  AuditOutput : string;
  AuditVerdict : string;
  AuditResidual : string;
  AuditRounds : option float64;
  AuditBlockers : list BlockerDisposition;
  CheckOutput : string;
  ExitCode : option float64;
  Override : bool;
  PlanUnit : string;
  PlanPaths : list string;
  WorkPhaseID : string;
  TestReceiptPath : string
}.

(** The loop of [DisposesBlockers]; [seen] is its map. *)
Fixpoint disposes_loop (n : Z) (seen : gset Z) (ds : list BlockerDisposition) : bool :=
  match ds with
  | [] => true
  | d :: ds' =>
    if (Blocker d <? 1)%Z || (n <? Blocker d)%Z || bool_decide (Blocker d ∈ seen) || bool_decide (BReason d = "")
       || (negb (bool_decide (Disposition d = DispositionFolded)) && negb (bool_decide (Disposition d = DispositionRebutted)))
    then false
    else disposes_loop n ({[Blocker d]} ∪ seen) ds'
  end.

Definition DisposesBlockers (a : option Attestation) (n : Z) : bool :=
  match a with
  | None => false
  | Some a => if negb (Z.of_nat (length (AuditBlockers a)) =? n)%Z then false else disposes_loop n ∅ (AuditBlockers a)
  end.

Record Result : Type := mkResult {
  ROK : bool;
  Reason : string;
  Reasons : list string
}.

Definition ok_result : Result := mkResult true "" [].

Definition GatedTransitions : list string := ["P>A"; "A>B"; "B>C"; "C>D"].
Definition edge_name (from to : Phase) : string := from +:+ ">" +:+ to.
Definition IsGated (from to : Phase) : bool := bool_decide (edge_name from to ∈ GatedTransitions).
Definition IsAuditVerdict (v : string) : bool := bool_decide (v = VerdictPass ∨ v = VerdictNearPass ∨ v = VerdictFail).

(** The text of a refusal: the single reason, or the reasons numbered. [reasons] is never empty. *)
Definition refuse (reasons : list string) : Result :=
  let n := itoa_nat (length reasons) in
  let numbered := imap (λ i r, "(" +:+ itoa_nat (S i) +:+ "/" +:+ n +:+ ") " +:+ r) reasons in
  mkResult false (match reasons with [r] => r | _ => join_sep newline numbered end) reasons.

Definition ValidateWorkPhaseBinding (att : option Attestation) (active : option string) : Result :=
  match active with
  | None => ok_result
  | Some active =>
    let missing := mkResult false ("A goalplan is bound (active work-phase " +:+ active +:+
      quoted "); pass ~workPhaseId~ in the attest. One work-phase = one full PABCD cycle (LOOP-UNIT-CHAIN-01).") [] in
    match att with
    | None => missing
    | Some a =>
      if bool_decide (WorkPhaseID a = "") then missing
      else if bool_decide (WorkPhaseID a = active) then ok_result
      else mkResult false ("attest.workPhaseId=" +:+ WorkPhaseID a +:+ " but the active work-phase is " +:+ active +:+
        ". Close this cycle through D before touching another unit (LOOP-UNIT-CHAIN-01).") []
    end
  end.

Section validate.
Context (NumberString : float64 → string).

(** The requirements of A>B. *)
Definition audit_reasons (att : Attestation) (before : list string) : list string :=
  let missing := (before
    ++ (if bool_decide (AuditOutput att = "") then [quoted "A -> B additionally requires ~auditOutput~: paste the tail of the independent reviewer verdict you actually received. Dispatch a reviewer subagent with agent_type ~reviewer~ if the live schema exposes that native role; otherwise use agent_type ~explorer~ with CRW-ROLE: reviewer before TASK:; if the host has no agent_type field, omit agent_type and prepend CRW-ROLE: reviewer before TASK: (DISPATCH-AGENT-TYPE-01) at the A gate; a self-written sentence is not an audit."] else [])
    ++ (if IsAuditVerdict (AuditVerdict att) then [] else [quoted "A -> B additionally requires ~auditVerdict~: ~pass~ | ~near-pass~ | ~fail~ - YOUR OWN judgment of this audit round (AUDIT-LOOP-01). ~fail~ never advances; ~near-pass~ means every blocking finding was folded into the plan or explicitly rebutted (also supply ~auditResidual~)."])
    ++ (if bool_decide (AuditVerdict att = VerdictNearPass ∧ AuditResidual att = "") then [quoted "A -> B with ~near-pass~ additionally requires ~auditResidual~: name each residual blocker and its disposition (folded into plan / rebutted with rationale), e.g. ~GO-WITH-FIXES; 2 blockers folded back: (1) ..., (2) ...~."] else []))%list in
  match missing with
  | [] =>
    if bool_decide (AuditVerdict att = VerdictFail) then [quoted "A -> B is blocked: you judged this audit round ~fail~. Synthesize the blockers (REVIEW-SYNTHESIS-01), amend the plan, and re-audit with the SAME reviewer (v2 surface: followup_task to its task_name; v1 surface: send_input to its agent_id). Re-attest with ~pass~ or ~near-pass~ once only folded/rebutted residuals remain; after 3 failed rounds return to P with a changed plan (LOOP-REPAIR-01)."]
    else if HasFailVerdictTail (AuditOutput att) then [quoted "The pasted auditOutput tail ends with a FAIL verdict line, contradicting auditVerdict=~" +:+ AuditVerdict att +:+ quoted "~. Run another audit round (same reviewer) and paste the round that actually reached PASS / GO-WITH-FIXES - or attest ~fail~ and keep looping (AUDIT-LOOP-01)."]
    else []
  | _ => missing
  end.

(** The requirements of C>D. *)
Definition check_reasons (att : Attestation) (before : list string) : list string :=
  let missing := (before
    ++ (if bool_decide (CheckOutput att = "") then [quoted "C -> D additionally requires ~checkOutput~: paste the tail of the test/tsc command you actually ran."] else [])
    ++ (match ExitCode att with None => [quoted "C -> D additionally requires ~exitCode~: the exit status of the command whose output you pasted. Report the real number - a check with no outcome is not a check."] | Some _ => [] end))%list in
  (missing
    ++ (match ExitCode att with
        | Some f => if feq f f0 then [] else ["C -> D requires a passing check, but the attestation reports exitCode " +:+ NumberString f +:+ ". Fix the failure (orchestrate B) before advancing."]
        | None => []
        end)
    ++ (if (0 <? length missing)%nat && bool_decide (TestReceiptPath att = "") then [quoted "C -> D on a goalplan-bound session ALSO requires ~testReceiptPath~ (CHECK-BINDING-01), produced by `crw pabcd receipt test -- <command>`. Supplying it now avoids another round trip."] else []))%list.

Definition Validate (from to : Phase) (att : option Attestation) : Result :=
  if negb (IsGated from to) then ok_result
  else
    match att with
    | None => refuse [from +:+ " -> " +:+ to +:+ quoted " requires an attestation with a non-empty ~did~. Pass --attest-file <path> (required on Windows) or --attest '{~from~:~" +:+ from +:+ quoted "~,~to~:~" +:+ to +:+ quoted "~,~did~:~...~}'."]
    | Some att =>
      if negb (bool_decide (From att = from)) || negb (bool_decide (To att = to)) then
        refuse ["Attestation from/to (" +:+ From att +:+ "->" +:+ To att +:+ ") does not match the requested transition " +:+ from +:+ "->" +:+ to +:+ "."]
      else
        let narrative := if bool_decide (Did att = "") || isPlaceholderDid (Did att)
          then [from +:+ " -> " +:+ to +:+ quoted " needs a specific ~did~ narrative (not empty or a placeholder)."] else [] in
        let edge := edge_name from to in
        let reasons := if bool_decide (edge = "A>B") then audit_reasons att narrative
          else if bool_decide (edge = "C>D") then check_reasons att narrative else narrative in
        match reasons with [] => ok_result | _ => refuse reasons end
    end.
End validate.

(** ** The interview tracker and its gate *)

Definition LevelHigh := "high".
Definition LevelMax := "max".
Definition SeverityHigh := "high".
Definition DimensionGoal := "goal".
Definition DimensionConstraint := "constraint".
Definition DimensionSuccess := "success".
Definition DimensionOntology := "ontology".
Definition DimensionOrder : list string := [DimensionGoal; DimensionConstraint; DimensionSuccess; DimensionOntology].

(** A slice that may be nil is an [option]. *)
Record DimensionScore : Type := mkScore {
  Level : string;
  Known : option (list string);
  Unknown : option (list string);
  Confidence : float64
}.

Record Dimensions : Type := mkDimensions {
  Goal : DimensionScore;
  Constraint : DimensionScore;
  Success : DimensionScore;
  Ontology : DimensionScore
}.

Definition Score (d : Dimensions) (dim : string) : option DimensionScore :=
  if bool_decide (dim = DimensionGoal) then Some (Goal d)
  else if bool_decide (dim = DimensionConstraint) then Some (Constraint d)
  else if bool_decide (dim = DimensionSuccess) then Some (Success d)
  else if bool_decide (dim = DimensionOntology) then Some (Ontology d)
  else None.

Record Contradiction : Type := mkContradiction {
  ContradictionID : string;
  CSeverity : string;
  Summary : string
}.

Record Assumption : Type := mkAssumption {
  AID : string;
  AText : string;
  Recorded : bool;
  ASeverity : string;
  RequiresUserReview : bool
}.

Record OntologyEntity : Type := mkEntity {
  EName : string;
  EFields : list string;
  ERelationships : list (string * string)
}.

Record Tracker : Type := mkTracker {
  RoundID : Z;
  TDimensions : Dimensions;
  Contradictions : option (list Contradiction);
  Assumptions : option (list Assumption);
  AutoResolveCount : Z;
  ConsecutiveAutoResolves : Z;
  ScanRounds : Z;
  LastScanRoundID : Z;
  OntologySchema : list OntologyEntity
}.

(** [roundIDNum] of an int64. *)
Definition roundIDNum (n : Z) : Z := Z.max n 0.

Definition is_Some_b {A} (o : option A) : bool := match o with Some _ => true | None => false end.

Definition validScore (s : DimensionScore) : bool :=
  is_Some_b (Known s) && is_Some_b (Unknown s) && fle f0 (Confidence s) && fle (Confidence s) f1.

Definition dimension_ready (t : Tracker) (d : string) : bool :=
  match Score (TDimensions t) d with
  | Some s => validScore s && (bool_decide (Level s = LevelHigh) || bool_decide (Level s = LevelMax))
  | None => false
  end.

Definition IsInterviewReady (t : option Tracker) : bool :=
  match t with
  | None => false
  | Some t =>
    forallb (dimension_ready t) DimensionOrder
    && match Contradictions t with Some [] => true | _ => false end
    && match Assumptions t with Some l => forallb Recorded l | None => false end
    && (1 <=? roundIDNum (ScanRounds t))%Z
  end.

Record Gate : Type := mkGate {
  Ready : bool;
  ScanRan : bool;
  HighContradictionCount : nat;
  Warnings : list string
}.

Definition warnNoScan := "no contradiction scan has been recorded for this interview".
Definition warnNotReady := "interview is not ready (dimensions/assumptions incomplete)".
(** The dash is the three bytes of U+2014. *)
Definition em_dash : string := String "226" (String "128" (String "148" "")).
Definition warnUnbackedTail : string := quoted (" reached ~high~ without an answered question in the interview ledger " +:+ em_dash +:+
  " ask and record one per dimension (`crw pabcd scan record --derive --map <questionId>=<dimension>`), or assert the level deliberately").

Definition open_contradictions (t : option Tracker) : list Contradiction :=
  match t with Some t => default [] (Contradictions t) | None => [] end.

(** The dimensions at [high] that no answered question backs; [evidence] is the set of backed ones. *)
Definition unbacked (t : Tracker) (backed : gset string) (d : string) : bool :=
  match Score (TDimensions t) d with
  | Some s => bool_decide (Level s = LevelHigh) && negb (bool_decide (d ∈ backed))
  | None => false
  end.

Definition unbacked_dimensions (t : option Tracker) (backed : gset string) : list string :=
  match t with
  | None => []
  | Some t => filter (λ d, unbacked t backed d = true) DimensionOrder
  end.

Definition EvaluateInterviewGate (t : option Tracker) (evidence : option (gset string)) : Gate :=
  let scan := match t with Some t => (1 <=? roundIDNum (ScanRounds t))%Z | None => false end in
  let highs := length (filter (λ c, CSeverity c = SeverityHigh) (open_contradictions t)) in
  let shape := IsInterviewReady t in
  let unbacked := if shape then match evidence with Some backed => unbacked_dimensions t backed | None => [] end else [] in
  let ready := shape && bool_decide (unbacked = []) in
  let warnings := ((if scan then [] else [warnNoScan])
    ++ (if (0 <? highs)%nat then [itoa_nat highs +:+ " high-severity contradiction(s) still open"] else [])
    ++ (if bool_decide (unbacked = []) then [] else [join_sep ", " unbacked +:+ warnUnbackedTail]))%list in
  mkGate ready scan highs (if negb ready && bool_decide (warnings = []) then [warnNotReady] else warnings).
