(* ===== verification/Fsm.v ===== *)
(** * Fsm: the PABCD loop (internal/pabcd/fsm/fsm.go and apply.go, and the session state of internal/pabcd/state).

    A session state is passed and returned by value. The fields the loop never writes are kept together in [Kept]; the others are the
    Go fields. The clock of [ApplyHumanTransition] is the text of its instant, an argument. *)
From S2P Require Import Prelude GoLib Sha256 Json GoFloat JsText Attest.
Local Open Scope string_scope.

Record Flags : Type := mkFlags {
  Interview : bool;
  AuditPassed : bool;
  CheckPassed : bool
}.

Definition no_flags : Flags := mkFlags false false false.

Record UnverifiedSubagent : Type := mkSubagent {
  AgentID : string;
  TurnID : string;
  AgentType : string;
  Attempts : float64;
  ReceiptClaimed : string;
  RecordedAt : string;
  Resolvable : bool
}.

Record DcloseRecoveryMarker : Type := mkMarker {
  MSessionID : string;
  MCheckEpoch : string;
  ClosedWorkPhaseID : string;
  NextWorkPhaseID : option string;
  Legacy : bool
}.

Record SourceIdentity : Type := mkSource {
  Kind : string;
  CommitSha : string;
  Dirty : bool;
  CapturedAt : string;
  TreeHash : option string;
  SourceRoot : option string
}.

(** The fields of a state that no function of the loop writes. *)
Record Kept : Type := mkKept {
  UpdatedAt : string;
  SupersededBy : option string;
  InjectedTurns : list string;
  StopBlockPhase : option Phase;
  StopBlockCount : float64;
  StopMetricCursor : float64;
  StopBlockTotal : float64;
  StopBlockTurnID : option string;
  StopBlockCapNotified : bool;
  StopTurnGeneration : float64;
  StopDivergenceWindows : list (string * (float64 * float64));
  MemoryWriteRequested : bool;
  MemoryWriteTurn : option string;
  MemoryWriteGrant : bool;
  UnverifiedSubagents : list UnverifiedSubagent;
  UnverifiedCorrupt : bool;
  BoundSourceRoot : option string
}.

Record Session : Type := mkSession {
  SPhase : Phase;
  SSessionID : string;
  Slug : string;
  SFlags : Flags;
  LastInjectedPhase : option Phase;
  OrchestrationActive : bool;
  SInterview : option Tracker;
  StopBlockWorkPhaseID : option string;
  LoopArmSeen : bool;
  IdleEditNudges : float64;
  PhaseEntrySource : option SourceIdentity;
  SPlanUnit : option string;
  PlanEpoch : option string;
  CheckEpoch : option string;
  DcloseRecovery : option DcloseRecoveryMarker;
  SKept : Kept
}.

Definition with_phase (s : Session) (p : Phase) : Session :=
  mkSession p (SSessionID s) (Slug s) (SFlags s) (LastInjectedPhase s) (OrchestrationActive s) (SInterview s) (StopBlockWorkPhaseID s)
    (LoopArmSeen s) (IdleEditNudges s) (PhaseEntrySource s) (SPlanUnit s) (PlanEpoch s) (CheckEpoch s) (DcloseRecovery s) (SKept s).

Definition with_flags (s : Session) (f : Flags) : Session :=
  mkSession (SPhase s) (SSessionID s) (Slug s) f (LastInjectedPhase s) (OrchestrationActive s) (SInterview s) (StopBlockWorkPhaseID s)
    (LoopArmSeen s) (IdleEditNudges s) (PhaseEntrySource s) (SPlanUnit s) (PlanEpoch s) (CheckEpoch s) (DcloseRecovery s) (SKept s).

(** [s.Flags, s.OrchestrationActive, s.LastInjectedPhase = state.Flags{}, false, nil] *)
Definition closed_cycle (s : Session) : Session :=
  mkSession (SPhase s) (SSessionID s) (Slug s) no_flags None false (SInterview s) (StopBlockWorkPhaseID s)
    (LoopArmSeen s) (IdleEditNudges s) (PhaseEntrySource s) (SPlanUnit s) (PlanEpoch s) (CheckEpoch s) (DcloseRecovery s) (SKept s).

(** state.go: defaultState *)
Definition defaultState (sessionID slug now : string) : Session :=
  mkSession PhaseIdle sessionID slug no_flags None false None None false f0 None None None None None
    (mkKept now None [] None f0 f0 f0 None false f0 [] false None false [] false None).

Definition MatchesDcloseRecovery (s : Session) (closePhaseID : string) : bool :=
  match DcloseRecovery s, CheckEpoch s with
  | Some m, Some epoch =>
    bool_decide (MSessionID m = SSessionID s) && bool_decide (MCheckEpoch m = epoch) && bool_decide (ClosedWorkPhaseID m = closePhaseID)
  | _, _ => false
  end.

(** ** fsm.go *)

Definition Order : list Phase := WorkPhases.

(** Every legal edge of a phase; any other phase has none. *)
Definition ValidTransitions : gmap string (list Phase) := list_to_map
  [(PhaseIdle, [PhaseI; PhaseP]); (PhaseI, [PhaseP; PhaseIdle]); (PhaseP, [PhaseI; PhaseA]); (PhaseA, [PhaseI; PhaseB; PhaseP]);
   (PhaseB, [PhaseI; PhaseC]); (PhaseC, [PhaseI; PhaseD; PhaseB; PhaseP]); (PhaseD, [PhaseI; PhaseIdle])].

Definition IsLegalEdge (from to : Phase) : bool := bool_decide (to ∈ default [] (ValidTransitions !! from)).

(** Whether [s] may enter [to]: [None], or the reason it may not. *)
Definition CanEnter (to : Phase) (s : Session) : option string :=
  let from := SPhase s in
  if negb (IsLegalEdge from to) then Some ("illegal transition " +:+ from +:+ "->" +:+ to)
  else if bool_decide (to = PhaseP) then
    if negb (bool_decide (from = PhaseIdle)) && negb (bool_decide (from = PhaseC)) && negb (bool_decide (from = PhaseA)) && negb (Interview (SFlags s))
    then Some "interview not completed (I->P needs interview flag)" else None
  else if bool_decide (to = PhaseB) then
    if AuditPassed (SFlags s) then None else Some "audit gate closed (need auditPassed via A->B attestation)"
  else if bool_decide (to = PhaseD) then
    if CheckPassed (SFlags s) then None else Some "check gate closed (need checkPassed via C->D attestation)"
  else None.

(** The index of a phase in the order. *)
Fixpoint index_of (p : Phase) (l : list Phase) : option nat :=
  match l with
  | [] => None
  | q :: l' => if bool_decide (q = p) then Some 0 else S <$> index_of p l'
  end.

Definition NextPhase (s : Session) : option Phase :=
  if bool_decide (SPhase s = PhaseD) then Some PhaseIdle
  else i ← index_of (SPhase s) Order; Order !! S i.

Definition IsAuditGateOpen (s : Session) : bool := bool_decide (SPhase s = PhaseA) || AuditPassed (SFlags s).
Definition IsBuildGateOpen (s : Session) : bool := AuditPassed (SFlags s).
Definition IsDone (s : Session) : bool := bool_decide (SPhase s = PhaseD) && CheckPassed (SFlags s).
Definition IsIdle (s : Session) : bool := bool_decide (SPhase s = PhaseIdle).

Definition DeriveInterviewFlag (s : Session) : Session :=
  with_flags s (mkFlags (IsInterviewReady (SInterview s)) (AuditPassed (SFlags s)) (CheckPassed (SFlags s))).

Section loop.
Context (NumberString : float64 → string).

(** The flag a transition flips before the gate is asked. *)
Definition flip_flags (from to : Phase) (f : Flags) : Flags :=
  if bool_decide (from = PhaseA ∧ to = PhaseB) then mkFlags (Interview f) true (CheckPassed f)
  else if bool_decide (from = PhaseC ∧ to = PhaseD) then mkFlags (Interview f) (AuditPassed f) true
  else if bool_decide (from = PhaseIdle ∧ to = PhaseI) then mkFlags false (AuditPassed f) (CheckPassed f)
  else f.

(** The agent's path: the next state, or the reason of the refusal. *)
Definition Transition (s : Session) (to : Phase) (att : option Attestation) : result string Session :=
  let from := SPhase s in
  let gate := Validate NumberString from to att in
  if negb (ROK gate) then Err (Reason gate)
  else
    let s1 := with_flags s (flip_flags from to (SFlags s)) in
    match CanEnter to s1 with
    | Some reason => Err reason
    | None =>
      let s2 := if bool_decide (from = PhaseD ∧ to = PhaseIdle) then closed_cycle s1 else s1 in
      Ok (with_phase s2 to)
    end.
End loop.

(** ** apply.go: the chat commands *)

Definition VerbStatus := "status".
Definition VerbReset := "reset".
Definition VerbUnbind := "unbind".
Definition VerbConstructor := "constructor".

Inductive Control : Type := ControlNone | ControlStatus | ControlReset | ControlDone | ControlUnbind.

(** The fields of a ledger row these functions set. *)
Record LedgerEntry : Type := mkLedger {
  LTS : string;
  LSessionID : string;
  LFrom : option Phase;
  LTo : Phase;
  LReason : string;
  LEvidence : option string;
  LActor : string;
  LOverride : option bool;
  LScanEvidence : option (Z * nat)           (* scanRounds, highContradictionCount *)
}.

(** A command that is carried out: what was asked, the state to persist, the row to append, and whether it was a no-op. *)
Record Applied : Type := mkApplied {
  AControl : Control;
  AState : option Session;
  ALedger : option LedgerEntry;
  ANoop : bool
}.

Definition objectSource := "function Object() { [native code] }".

Definition ClearedIdle (s : Session) : Session :=
  mkSession PhaseIdle (SSessionID s) (Slug s) no_flags None false (SInterview s) (StopBlockWorkPhaseID s)
    (LoopArmSeen s) f0 None None None None None (SKept s).

Definition Unbound (s : Session) : Session :=
  mkSession (SPhase s) (SSessionID s) "" (SFlags s) (LastInjectedPhase s) (OrchestrationActive s) (SInterview s) None
    (LoopArmSeen s) (IdleEditNudges s) (PhaseEntrySource s) (SPlanUnit s) (PlanEpoch s) (CheckEpoch s) (DcloseRecovery s) (SKept s).

(** [next.LoopArmSeen = false] *)
Definition disarmed (s : Session) : Session :=
  mkSession (SPhase s) (SSessionID s) (Slug s) (SFlags s) (LastInjectedPhase s) (OrchestrationActive s) (SInterview s) (StopBlockWorkPhaseID s)
    false (IdleEditNudges s) (PhaseEntrySource s) (SPlanUnit s) (PlanEpoch s) (CheckEpoch s) (DcloseRecovery s) (SKept s).

Definition row (ts : string) (s : Session) (from to : Phase) (reason : string) (evidence : option string) (actor : string) : LedgerEntry :=
  mkLedger ts (SSessionID s) (Some from) to reason evidence actor None None.

(** Work a reset or an unbind finds: a leftover check epoch or D-close marker. *)
Definition pending (s : Session) : bool := is_Some_b (CheckEpoch s) || is_Some_b (DcloseRecovery s).

Definition unbindResult (s : Session) (ts : string) : result string Applied :=
  let reset := "`crw pabcd orchestrate reset --session " +:+ SSessionID s +:+ "`" in
  if negb (bool_decide (SPhase s = PhaseIdle)) then
    Err ("unbind: a PABCD cycle is in flight at phase " +:+ SPhase s +:+ ", so the session's goalplan stays bound. Close the cycle (advance to D) or run " +:+ reset +:+
         ", then unbind again (reset closes the cycle and keeps the slug).")
  else if pending s then
    Err ("unbind: a check or a D-close is still pending on this session, so the session's goalplan stays bound. Run " +:+ reset +:+ ", then unbind again.")
  else if bool_decide (Slug s = "") then Ok (mkApplied ControlUnbind None None true)
  else Ok (mkApplied ControlUnbind (Some (Unbound s))
             (Some (row ts s PhaseIdle PhaseIdle "unbound" (Some ("released goalplan slug " +:+ Slug s)) "")) false).

(** The gate flag a forward edge unlocks. *)
Definition unlockedFlag (f : Flags) (from to : Phase) : Flags :=
  if bool_decide (from = PhaseA ∧ to = PhaseB) then mkFlags (Interview f) true (CheckPassed f)
  else if bool_decide (from = PhaseC ∧ to = PhaseD) then mkFlags (Interview f) (AuditPassed f) true
  else f.

Definition evidence_of (att : option Attestation) : option string :=
  match att with Some a => if bool_decide (Did a = "") then None else Some (Did a) | None => None end.

(** The interview soft gate of I>P: the flags after it, what an override records, or the refusal. *)
Definition soft_gate (s : Session) (att : option Attestation) (f : Flags) : result string (Flags * option (Z * nat)) :=
  let gate := EvaluateInterviewGate (SInterview s) None in
  let opened := mkFlags true (AuditPassed f) (CheckPassed f) in
  if Ready gate then Ok (opened, None)
  else if match att with Some a => Override a | None => false end then
    Ok (opened, Some (match SInterview s with Some t => ScanRounds t | None => 0%Z end, HighContradictionCount gate))
  else Err ("interview soft-gate: " +:+ join_sep "; " (Warnings gate) +:+ ". Re-run a contradiction scan, or pass override:true to proceed anyway.").

(** A move along a legal edge. *)
Definition free_pass (s : Session) (verb : string) (att : option Attestation) (ts : string) : result string Applied :=
  let from := SPhase s in
  let to := verb in
  let flags := unlockedFlag (SFlags s) from to in
  match (if bool_decide (from = PhaseI ∧ to = PhaseP) then soft_gate s att flags else Ok (flags, None)) with
  | Err reason => Err reason
  | Ok (flags, scan) =>
    let flags := if bool_decide (to = PhaseI) then no_flags else flags in
    let next := with_flags s flags in
    match CanEnter to next with
    | Some reason => Err (if bool_decide (verb = VerbConstructor) then "illegal transition " +:+ from +:+ "->" +:+ objectSource else reason)
    | None =>
      Ok (mkApplied ControlNone (Some (with_phase next to))
        (Some (mkLedger ts (SSessionID s) (Some from) to "chat" (evidence_of att) "human"
                 (match scan with Some _ => Some true | None => None end) scan)) false)
    end
  end.

Definition applyHumanTransition (s : Session) (verb : string) (att : option Attestation) (ts : string) : result string Applied :=
  let from := SPhase s in
  if bool_decide (verb = VerbStatus) then Ok (mkApplied ControlStatus None None false)
  else if bool_decide (verb = VerbReset) then
    if bool_decide (from = PhaseIdle) && negb (pending s) then Ok (mkApplied ControlReset None None true)
    else Ok (mkApplied ControlReset (Some (disarmed (ClearedIdle s))) (Some (row ts s from PhaseIdle "reset" None "")) false)
  else if bool_decide (verb = VerbUnbind) then unbindResult s ts
  else if bool_decide (verb = PhaseD) then
    if bool_decide (from = PhaseC) then
      Ok (mkApplied ControlDone (Some (ClearedIdle s)) (Some (row ts s PhaseC PhaseIdle "done" (evidence_of att) "")) false)
    else Err ("illegal transition " +:+ from +:+ "->D")
  else free_pass s verb att ts.
