(* ===== verification/Grammar.v ===== *)
(** * Grammar: the chat commands of the PABCD loop (internal/pabcd/fsm/grammar.go) and the attestation they carry (attest.Coerce).

    Text is bytes, as in Go. The JSON of an attestation is read by [read_json] of [GoJson]. A number of an attestation is read by
    [parse_float] of [GoFloat]. The lower case of JavaScript (internal/jsnode Lower) is an argument. *)
From Stdlib Require Import QArith.
From S2P Require Import Prelude GoLib Sha256 Json Loads GoFloat GoJson JsText Attest Fsm.
Local Open Scope Z_scope.

(** ** attest.Coerce *)
Section grammar.
Variable Lower : string → string.
Local Open Scope string_scope.

Definition finite (v : option value) : option float64 :=
  match (match v with Some (VFloat t) | Some (VNumber t) => parse_float t | _ => FNaN end) with
  | Fin q => Some (Fin q)
  | _ => None
  end.

Definition str_field (v : option value) : string := match v with Some (VString s) => s | _ => "" end.

(** A whole number from 1 to 9999, or 0. *)
Definition blocker_number (f : option float64) : Z :=
  match f with
  | Some (Fin q) =>
    let n := (Qnum q / Zpos (Qden q))%Z in
    if (Qnum q mod Zpos (Qden q) =? 0)%Z && (1 <=? n)%Z && (n <=? 9999)%Z then n else 0
  | _ => 0
  end.

Definition coerce_blocker (entry : value) : BlockerDisposition :=
  match entry with
  | VMap d => mkBlocker (blocker_number (finite (map_get d "blocker"))) (Lower (Trim (str_field (map_get d "disposition")))) (Trim (str_field (map_get d "reason")))
  | _ => mkBlocker 0 "" ""
  end.

Definition list_field (v : option value) : list value := match v with Some (VList l) => l | _ => [] end.

Definition plan_path (p : value) : option string :=
  match p with VString s => if bool_decide (Trim s = "") then None else Some (Trim s) | _ => None end.

Definition Coerce (v : value) : option Attestation :=
  match v with
  | VMap rec =>
    match map_get rec "from", map_get rec "to" with
    | Some (VString from), Some (VString to) =>
      let str key := Trim (str_field (map_get rec key)) in
      Some (mkAttestation from to (str "did") (str "auditOutput") (Lower (str "auditVerdict")) (str "auditResidual") (finite (map_get rec "auditRounds"))
        (coerce_blocker <$> list_field (map_get rec "auditBlockers")) (str "checkOutput") (finite (map_get rec "exitCode"))
        (match map_get rec "override" with Some (VBool b) => b | _ => false end) (str "planUnit") (omap plan_path (list_field (map_get rec "planPaths")))
        (str "workPhaseId") (str "testReceiptPath"))
    | _, _ => None
    end
  | _ => None
  end.

(** ** grammar.go *)

Record OrchestrateCommand : Type := mkCommand {
  Verb : string;
  RawAttest : option string;
  CmdAttest : option Attestation;
  AttestError : string;
  FormError : string
}.

Definition ErrCommandSeparator : string :=
  "the command's --attest text holds a carriage return, U+2028 or U+2029; a chat command is one line - write the JSON on one line, escaping any such character inside a string (\r, \u2028, \u2029)".
Definition errNoBalanced : string := "no balanced JSON object after --attest".
Definition errNotJSON : string := "attest JSON is not valid JSON".
Definition errNoFromTo : string :=
  quoted "attest JSON missing valid from/to. Every attest names the edge it advances: {~from~:~<phase>~,~to~:~<phase>~,~did~:~...~} plus that edge's keys (ATTEST-SHAPE-01).".

Definition word : list Z := bytes_of_string "orchestrate".
Definition attestFlag : list Z := bytes_of_string "--attest".
Local Open Scope Z_scope.
Local Open Scope list_scope.

Definition isASCIILetter (c : Z) : bool := in_range 97 122 (Z.lor c 0x20).

Definition upper_byte (b : Z) : Z := if in_range 97 122 b then b - 32 else b.

Definition verbToken (token : list Z) : option string :=
  let lower := string_of_bytes (asciiLowerBytes token) in
  if bool_decide (lower ∈ ["i"; "p"; "a"; "b"; "c"; "d"]%string) then Some (string_of_bytes (upper_byte <$> asciiLowerBytes token))
  else if bool_decide (lower ∈ [VerbStatus; VerbReset; VerbUnbind]) then Some lower
  else None.

(** [strings.TrimLeftFunc(s, isJSSpace)] *)
Definition TrimLeft (s : list Z) : list Z := trim_left (length s) s.

Definition stripPrefix (s : list Z) : list Z :=
  match strip_prefix (bytes_of_string "$crw:crw-") s, strip_prefix (bytes_of_string "$crw-") s, strip_prefix (bytes_of_string "/") s with
  | Some r, _, _ => r
  | None, Some r, _ => r
  | None, None, Some r => r
  | None, None, None =>
    match strip_prefix (bytes_of_string "crw") s with
    | Some rest => if bool_decide (TrimLeft rest = rest) then s else TrimLeft rest
    | None => s
    end
  end.

(** The first bytes of [s] are the letters of [w], in either case. *)
Fixpoint strip_word (w s : list Z) : option (list Z) :=
  match w, s with
  | [], _ => Some s
  | _ :: _, [] => None
  | a :: w', b :: s' => if Z.lor b 0x20 =? a then strip_word w' s' else None
  end.

(** The letters at the start, and what follows. *)
Fixpoint letters (s : list Z) : list Z * list Z :=
  match s with
  | c :: t => if isASCIILetter c then let '(a, r) := letters t in (c :: a, r) else ([], s)
  | [] => ([], [])
  end.

Definition has_separator (s : list Z) : bool := existsb (λ r, bool_decide (r ∈ [10; 13; 0x2028; 0x2029])) (runes s).

(** The token, the rest and whether the rest holds a separator. *)
Definition scanCommand (s : list Z) : option (list Z * list Z * bool) :=
  match strip_word word s with
  | None => None
  | Some after =>
    let body := TrimLeft after in
    if (length body =? length after)%nat then None
    else
      let '(token, tail) := letters body in
      let rest := TrimLeft tail in
      match token with [] => None | _ => Some (token, rest, has_separator rest) end
  end.

Definition startsAttest (s : list Z) : bool :=
  match strip_prefix attestFlag s with
  | None => false
  | Some rest => (length (TrimLeft rest) <? length rest)%nat && match TrimLeft rest with 123 :: _ => true | _ => false end
  end.

Fixpoint flagIndex (s : list Z) : option nat :=
  match (match strip_prefix attestFlag s with
         | Some [] => true
         | Some (c :: _) => negb (isASCIILetter c || (c =? 95) || in_range 48 57 c)
         | None => false
         end) with
  | true => Some 0%nat
  | false => match s with [] => None | _ :: t => S <$> flagIndex t end
  end.

(** The loop of [ExtractBalancedJSON]: the bytes up to the brace that closes the first. *)
Fixpoint balance (depth : Z) (inString escaped : bool) (s : list Z) : option (list Z) :=
  match s with
  | [] => None
  | c :: t =>
    if inString then cons c <$> balance depth (escaped || negb (c =? 34)) (negb escaped && (c =? 92)) t
    else if c =? 34 then cons c <$> balance depth true escaped t
    else if c =? 123 then cons c <$> balance (depth + 1) false escaped t
    else if c =? 125 then if depth - 1 =? 0 then Some [c] else cons c <$> balance (depth - 1) false escaped t
    else cons c <$> balance depth false escaped t
  end.

Fixpoint from_brace (s : list Z) : option (list Z) :=
  match s with [] => None | c :: t => if c =? 123 then Some s else from_brace t end.

Definition ExtractBalancedJSON (s : list Z) : option (list Z) :=
  match from_brace s with None => None | Some t => balance 0 false false t end.

Definition parseAttestTail (rest : list Z) : option (list Z) * option Attestation * string :=
  match flagIndex rest with
  | None => (None, None, ""%string)
  | Some idx =>
    match ExtractBalancedJSON (drop (idx + length attestFlag) rest) with
    | None => (None, None, errNoBalanced)
    | Some balanced =>
      match read_json balanced with
      | None => (Some balanced, None, errNotJSON)
      | Some v =>
        match Coerce v with
        | None => (Some balanced, None, errNoFromTo)
        | Some att => (Some balanced, Some att, ""%string)
        end
      end
    end
  end.

(** [strings.Index] *)
Fixpoint index_of (p s : list Z) : option nat :=
  match strip_prefix p s with
  | Some _ => Some 0%nat
  | None => match s with [] => None | _ :: t => S <$> index_of p t end
  end.

(** The body of the loop: the command a line is. *)
Definition command_of (line : list Z) : option OrchestrateCommand :=
  match scanCommand (stripPrefix (TrimBytes line)) with
  | None => None
  | Some (token, rest, separator) =>
    match verbToken token with
    | None => None
    | Some verb =>
      if separator then if startsAttest rest then Some (mkCommand verb None None "" ErrCommandSeparator) else None
      else if bool_decide (rest = []) || startsAttest rest then
        match parseAttestTail rest with
        | (None, att, err) => Some (mkCommand verb None att err "")
        | (Some raw, att, err) =>
          if match index_of raw rest with Some i => (i + length raw =? length rest)%nat | None => false end
          then Some (mkCommand verb (Some (string_of_bytes raw)) att err "") else None
        end
      else None
    end
  end.

Fixpoint first_command (lines : list (list Z)) : option OrchestrateCommand :=
  match lines with
  | [] => None
  | line :: lines' => match command_of line with Some c => Some c | None => first_command lines' end
  end.

Definition ParseOrchestrateCommand (prompt : string) : option OrchestrateCommand := first_command (SplitLinesBytes (bytes_of_string prompt)).
End grammar.

(** ** Examples *)
Example parse_example :
  ParseOrchestrateCommand id (quoted ("please" +:+ lf +:+ "  crw  Orchestrate b --attest {~from~:~A~,~to~:~B~,~did~:~ a } in text ~,~exitCode~:-1.5e1,~auditBlockers~:[{~blocker~:2,~disposition~:~folded~,~reason~:~r~},7]} " +:+ lf))
  = Some (mkCommand "B" (Some (quoted "{~from~:~A~,~to~:~B~,~did~:~ a } in text ~,~exitCode~:-1.5e1,~auditBlockers~:[{~blocker~:2,~disposition~:~folded~,~reason~:~r~},7]}"))
      (Some (mkAttestation "A" "B" "a } in text" "" "" "" None [mkBlocker 2 "folded" "r"; mkBlocker 0 "" ""] "" (Some (Fin (-15 # 1))) false "" [] "" "")) "" "").
Proof. vm_compute. reflexivity. Qed.

Example parse_prose :
  ParseOrchestrateCommand id "we could orchestrate b" = None ∧ ParseOrchestrateCommand id "orchestrate constructor" = None ∧
  ParseOrchestrateCommand id "orchestrate b --attest {} now" = None ∧
  ParseOrchestrateCommand id "$crw-orchestrate RESET" = Some (mkCommand "reset" None None "" "") ∧
  ParseOrchestrateCommand id "/orchestrate D --attest {x" = Some (mkCommand "D" None None errNoBalanced "").
Proof. vm_compute. done. Qed.
