(* ===== verification/FsmProps.v ===== *)
(** * FsmProps: what the gates mean, and the moves of a session. *)
From Stdlib Require Import QArith.
From stdpp Require Export list.
From stdpp Require Import relations.
From S2P Require Import Prelude GoLib Sha256 Json GoFloat JsText Attest Fsm.
Local Open Scope string_scope.
(** ** The attestation gate, declaratively *)

Definition audit_ok (a : Attestation) : Prop :=
  AuditOutput a ≠ "" ∧ (AuditVerdict a = VerdictPass ∨ AuditVerdict a = VerdictNearPass ∧ AuditResidual a ≠ "") ∧
  HasFailVerdictTail (AuditOutput a) = false.

Definition check_ok (a : Attestation) : Prop :=
  CheckOutput a ≠ "" ∧ ∃ f, ExitCode a = Some f ∧ feq f f0 = true.

(** The evidence a gated edge needs. *)
Definition attested (from to : Phase) (att : option Attestation) : Prop :=
  ∃ a, att = Some a ∧ From a = from ∧ To a = to ∧ Did a ≠ "" ∧ isPlaceholderDid (Did a) = false ∧
    (edge_name from to = "A>B" → audit_ok a) ∧ (edge_name from to = "C>D" → check_ok a).

Lemma if_nil_true {A} (b : bool) (l : list A) : l ≠ [] → (if b then l else []) = [] ↔ b = false.
Proof. by destruct b. Qed.

Lemma if_nil_false {A} (b : bool) (l : list A) : l ≠ [] → (if b then [] else l) = [] ↔ b = true.
Proof. by destruct b. Qed.

Lemma app_nil_iff {A} (l k : list A) : (l ++ k)%list = [] ↔ l = [] ∧ k = [].
Proof. split; [by intros ?%app_nil|]. by intros [-> ->]. Qed.

Lemma audit_reasons_nil a before : audit_reasons a before = [] ↔ before = [] ∧ audit_ok a.
Proof.
  unfold audit_reasons, audit_ok.
  match goal with |- context [match ?m with [] => _ | _ => _ end] => set (missing := m) end.
  assert (missing = [] ↔ before = [] ∧ AuditOutput a ≠ "" ∧ IsAuditVerdict (AuditVerdict a) = true ∧
    ¬ (AuditVerdict a = VerdictNearPass ∧ AuditResidual a = "")) as Hm.
  { unfold missing. rewrite !app_nil_iff, !if_nil_true, if_nil_false by done. by rewrite !bool_decide_eq_false. }
  unfold IsAuditVerdict in Hm. rewrite bool_decide_eq_true in Hm.
  destruct missing as [|r rs].
  - destruct (proj1 Hm eq_refl) as (-> & Ho & Hv & Hr). case_bool_decide as Hf.
    + split; [done|]. intros (_ & _ & [Hp|[Hp _]] & _); by rewrite Hp in Hf.
    + destruct (HasFailVerdictTail (AuditOutput a)); split; try done; [by intros (_ & _ & _ & ?)|].
      intros _. split; [done|]. split; [done|]. split; [|done]. destruct Hv as [?|[?|?]]; [by left| |done]. right. split; [done|].
      intros ?. by apply Hr.
  - split; [done|]. intros (-> & Ho & Hv & _). apply Hm. split; [done|]. split; [done|]. split.
    + destruct Hv as [?|[? _]]; auto.
    + intros [Hn He]. destruct Hv as [Hv|[_ ?]]; [|done]. by rewrite Hv in Hn.
Qed.

Lemma check_reasons_nil ns a before : check_reasons ns a before = [] ↔ before = [] ∧ check_ok a.
Proof.
  unfold check_reasons, check_ok. rewrite !app_nil_iff. rewrite (if_nil_true (bool_decide (CheckOutput a = ""))) by done.
  rewrite bool_decide_eq_false. destruct (ExitCode a) as [f|].
  - destruct (feq f f0) eqn:Ef.
    + split.
      * intros ((-> & ? & _) & _). eauto.
      * intros (-> & Hc & _). split; [done|]. split; [done|]. rewrite bool_decide_eq_false_2 by done. done.
    + split; [by intros (_ & ? & _)|]. intros (_ & _ & f' & [= <-] & ?). congruence.
  - split; [by intros ((_ & _ & ?) & _)|]. by intros (_ & _ & ? & ? & _).
Qed.

Lemma IsGated_cases from to : IsGated from to = true ↔ edge_name from to ∈ GatedTransitions.
Proof. apply bool_decide_eq_true. Qed.

Lemma Validate_accepts ns from to att :
  ROK (Validate ns from to att) = true ↔ (IsGated from to = true → attested from to att).
Proof.
  unfold Validate. destruct (IsGated from to); simpl; [|split; done].
  destruct att as [a|]; simpl.
  2:{ split; [done|]. intros H. destruct (H eq_refl) as (a & ? & _). done. }
  destruct (decide (From a = from)) as [Hf|Hf].
  2:{ rewrite (bool_decide_eq_false_2 (From a = from)) by done. simpl. split; [done|].
      intros H. destruct (H eq_refl) as (a' & [= <-] & ? & _). done. }
  destruct (decide (To a = to)) as [Ht|Ht].
  2:{ rewrite (bool_decide_eq_false_2 (To a = to)), orb_true_r by done. simpl. split; [done|].
      intros H. destruct (H eq_refl) as (a' & [= <-] & _ & ? & _). done. }
  rewrite !bool_decide_eq_true_2 by done. cbn [negb orb].
  match goal with |- context [match ?m with [] => _ | _ => _ end] => set (reasons := m) end.
  assert (reasons = [] ↔ attested from to (Some a)) as Hr.
  { unfold reasons, attested. match goal with |- context [audit_reasons a ?n] => set (nar := n) end.
    assert (nar = [] ↔ Did a ≠ "" ∧ isPlaceholderDid (Did a) = false) as Hn.
    { unfold nar. rewrite if_nil_true, orb_false_iff, bool_decide_eq_false by done. done. }
    destruct (decide (edge_name from to = "A>B")) as [E1|E1].
    - rewrite bool_decide_eq_true_2, audit_reasons_nil, Hn by done. rewrite E1. split.
      + intros ((? & ?) & ?). exists a. by split_and!.
      + intros (a' & [= <-] & _ & _ & ? & ? & H & _). auto.
    - rewrite (bool_decide_eq_false_2 (edge_name from to = "A>B")) by done.
      destruct (decide (edge_name from to = "C>D")) as [E2|E2].
      + rewrite bool_decide_eq_true_2, check_reasons_nil, Hn by done. split.
        * intros ((? & ?) & ?). exists a. by split_and!.
        * intros (a' & [= <-] & _ & _ & ? & ? & _ & H). auto.
      + rewrite bool_decide_eq_false_2, Hn by done. split.
        * intros (? & ?). exists a. by split_and!.
        * intros (a' & [= <-] & _ & _ & ? & ? & _). auto. }
  destruct reasons as [|r rs]; simpl; [split; [intros _ _; by apply Hr|done]|].
  split; [done|]. intros H. by apply Hr in H.
Qed.

(** ** The dispositions of an audit's blockers *)

Definition disposed (d : BlockerDisposition) : Prop :=
  BReason d ≠ "" ∧ (Disposition d = DispositionFolded ∨ Disposition d = DispositionRebutted).

Lemma disposes_loop_iff n ds : ∀ seen,
  disposes_loop n seen ds = true ↔
  NoDup (Blocker <$> ds) ∧ (∀ d, d ∈ ds → (1 ≤ Blocker d ≤ n)%Z ∧ (Blocker d ∉ seen) ∧ disposed d).
Proof.
  induction ds as [|d ds IH]; intros seen; csimpl.
  { split; [|done]. intros _. split; [constructor|by intros ? ?%elem_of_nil]. }
  match goal with |- context [if ?b then _ else _] => set (bad := b) end.
  assert (bad = false ↔ (1 ≤ Blocker d ≤ n)%Z ∧ (Blocker d ∉ seen) ∧ disposed d) as Hb.
  { unfold bad, disposed. rewrite !orb_false_iff, andb_false_iff, !negb_false_iff, !bool_decide_eq_false, !bool_decide_eq_true.
    rewrite !Z.ltb_ge. split; [intros ((((?&?)&?)&?)&?); repeat split; try lia; tauto|]. intros (? & ? & ? & ?). repeat split; try lia; tauto. }
  rewrite NoDup_cons. destruct bad.
  - split; [done|]. intros [_ H]. symmetry. apply Hb, H. by left.
  - destruct (proj1 Hb eq_refl) as (Hr & Hs & Hd). rewrite IH. clear Hb. split.
    + intros [Hnd H]. split.
      * split; [|done]. intros (d' & E & Hd')%list_elem_of_fmap. destruct (H d' Hd') as (_ & Hn & _). apply Hn. rewrite <- E. set_solver.
      * intros d' [->|Hd']%elem_of_cons; [done|]. destruct (H d' Hd') as (? & Hn & ?). split; [done|]. split; [|done]. set_solver.
    + intros [[Hn Hnd] H]. split; [done|]. intros d' Hd'. destruct (H d') as (? & ? & ?); [by right|]. split; [done|]. split; [|done].
      rewrite not_elem_of_union, not_elem_of_singleton. split; [|done]. intros E. apply Hn. rewrite <- E. by apply list_elem_of_fmap_2.
Qed.

Lemma disposes_perm n ds :
  Z.of_nat (length ds) = n → NoDup (Blocker <$> ds) → (∀ d, d ∈ ds → (1 ≤ Blocker d ≤ n)%Z) → (Blocker <$> ds) ≡ₚ seqZ 1 n.
Proof.
  intros Hl Hnd Hr. apply submseteq_length_Permutation.
  - apply NoDup_submseteq; [done|]. intros x (d & -> & Hd)%list_elem_of_fmap. apply elem_of_seqZ. specialize (Hr d Hd). lia.
  - rewrite length_fmap, length_seqZ. lia.
Qed.

(** ** Properties *)

(** The attestation gate lets an edge pass exactly when the edge is not gated, or the attestation is for that very edge, carries a
    specific narrative and, on A>B, a reviewer's verdict judged pass (or near-pass with its residuals) that does not end in FAIL,
    and on C>D, output with exit code zero. *)
Theorem Validate_iff ns from to att :
  ROK (Validate ns from to att) = true ↔ (edge_name from to ∈ GatedTransitions → attested from to att).
Proof. rewrite Validate_accepts, IsGated_cases. done. Qed.

(** An attestation disposes of [n] blockers exactly when its entries number the blockers 1 to [n], each once in any order, and each
    is folded or rebutted with a reason. *)
Theorem DisposesBlockers_iff a n :
  DisposesBlockers (Some a) n = true ↔
  (0 ≤ n)%Z ∧ (Blocker <$> AuditBlockers a) ≡ₚ seqZ 1 n ∧ (∀ d, d ∈ AuditBlockers a → disposed d).
Proof.
  unfold DisposesBlockers. destruct (Z.eqb_spec (Z.of_nat (length (AuditBlockers a))) n) as [E|E]; simpl.
  - rewrite disposes_loop_iff. split.
    + intros [Hnd H]. split; [lia|]. split; [|intros d Hd; by apply (H d Hd)]. apply disposes_perm; [done|done|]. intros d Hd. apply (H d Hd).
    + intros (_ & Hp & Hd). split; [rewrite Hp; apply NoDup_seqZ|]. intros d Hin. split; [|split; [set_solver|by apply Hd]].
      assert (Blocker d ∈ Blocker <$> AuditBlockers a) as Hb by (by apply list_elem_of_fmap_2).
      rewrite Hp in Hb. apply elem_of_seqZ in Hb. lia.
  - split; [done|]. intros (Hn & Hp & _). apply Permutation_length in Hp. rewrite length_fmap, length_seqZ in Hp. lia.
Qed.

(** The interview gate warns exactly when it is not ready, and without ledger evidence it is ready exactly when the
    tracker is. *)
Theorem EvaluateInterviewGate_warns t evidence :
  let g := EvaluateInterviewGate t evidence in
  (Ready g = true ↔ Warnings g = []) ∧ (evidence = None → Ready g = IsInterviewReady t).
Proof.
  unfold EvaluateInterviewGate. cbn [Ready Warnings].
  match goal with |- context [IsInterviewReady t && bool_decide (?u = [])] => set (unbacked := u) end.
  split; [|intros ->; unfold unbacked; destruct (IsInterviewReady t); done].
  destruct (decide (unbacked = [])) as [Eu|Eu].
  2:{ rewrite !(bool_decide_eq_false_2 (unbacked = [])) by done. rewrite andb_false_r. simpl.
      rewrite bool_decide_eq_false_2; [|by intros [_ [_ ?]%app_nil]%app_nil]. split; [done|]. by intros [_ [_ ?]%app_nil]%app_nil. }
  rewrite !(bool_decide_eq_true_2 (unbacked = [])) by done. rewrite andb_true_r, app_nil_r.
  destruct (IsInterviewReady t) eqn:Er; simpl.
  - split; [intros _|done]. destruct t as [t|]; [|done]. unfold IsInterviewReady in Er.
    repeat (apply andb_true_iff in Er as [Er ?]). rewrite H. simpl. by destruct (Contradictions t) as [[|]|].
  - case_bool_decide; split; done.
Qed.

(** * The invariants of the PABCD loop. *)
(** ** The table of edges *)

(** Case analysis on membership in a concrete list. *)
Ltac each H := repeat (apply elem_of_cons in H as [H|H]; [simplify_eq|]); try (by apply elem_of_nil in H).
Ltac by_computation := refine (bool_decide_unpack _ _); vm_compute; exact I.

Definition edges : list (Phase * Phase) :=
  [(PhaseIdle, PhaseI); (PhaseIdle, PhaseP); (PhaseI, PhaseP); (PhaseI, PhaseIdle); (PhaseP, PhaseI); (PhaseP, PhaseA);
   (PhaseA, PhaseI); (PhaseA, PhaseB); (PhaseA, PhaseP); (PhaseB, PhaseI); (PhaseB, PhaseC); (PhaseC, PhaseI); (PhaseC, PhaseD);
   (PhaseC, PhaseB); (PhaseC, PhaseP); (PhaseD, PhaseI); (PhaseD, PhaseIdle)].

Lemma legal_edges from to : IsLegalEdge from to = true ↔ (from, to) ∈ edges.
Proof.
  unfold IsLegalEdge. rewrite bool_decide_eq_true. split.
  - destruct (ValidTransitions !! from) as [l|] eqn:E; [|by intros ?%elem_of_nil]. simpl. intros Hto.
    apply elem_of_list_to_map_2 in E. each E; each Hto; subst; by_computation.
  - intros H. unfold edges in H. each H; by_computation.
Qed.

Lemma legal_phases from to : IsLegalEdge from to = true → from ∈ AllPhases ∧ to ∈ AllPhases.
Proof. rewrite legal_edges. unfold edges. intros H. each H; split; by_computation. Qed.

(** ** The gates *)

Definition gate_open (from to : Phase) (f : Flags) : Prop :=
  (from = PhaseI → to = PhaseP → Interview f = true) ∧ (to = PhaseB → AuditPassed f = true) ∧ (to = PhaseD → CheckPassed f = true).

Lemma CanEnter_None to s :
  CanEnter to s = None ↔ IsLegalEdge (SPhase s) to = true ∧ gate_open (SPhase s) to (SFlags s).
Proof.
  unfold CanEnter, gate_open. destruct (IsLegalEdge (SPhase s) to) eqn:El; simpl; [|split; [done|by intros [? _]]].
  apply legal_edges in El. remember (SPhase s) as from eqn:Ef. clear Ef. unfold edges in El.
  destruct (SFlags s) as [i a c]; simpl. each El; destruct i, a, c; vm_compute; split; intros H; try done; split_and?; try done;
    destruct_and? H; naive_solver.
Qed.

(** The state a transition leaves. *)
Definition moved (s : Session) (to : Phase) : Session :=
  let s1 := with_flags s (flip_flags (SPhase s) to (SFlags s)) in
  with_phase (if bool_decide (SPhase s = PhaseD ∧ to = PhaseIdle) then closed_cycle s1 else s1) to.

Lemma flip_gate_open from to f :
  (from, to) ∈ edges →
  gate_open from to (flip_flags from to f) ↔
  (from = PhaseI → to = PhaseP → Interview f = true) ∧ (from = PhaseC → to = PhaseB → AuditPassed f = true).
Proof.
  unfold edges, gate_open. destruct f as [i a c]. intros H. each H; vm_compute; split; intros H; split_and?; try done; destruct_and? H; naive_solver.
Qed.

Lemma Transition_ok ns s to att s' :
  Transition ns s to att = Ok s' ↔
  IsLegalEdge (SPhase s) to = true ∧ (IsGated (SPhase s) to = true → attested (SPhase s) to att) ∧
  (SPhase s = PhaseI → to = PhaseP → Interview (SFlags s) = true) ∧
  (SPhase s = PhaseC → to = PhaseB → AuditPassed (SFlags s) = true) ∧ s' = moved s to.
Proof.
  unfold Transition. pose proof (Validate_accepts ns (SPhase s) to att) as Hv.
  destruct (ROK (Validate ns (SPhase s) to att)); simpl.
  2:{ split; [done|]. intros (_ & H & _). apply Hv in H. done. }
  set (s1 := with_flags s (flip_flags (SPhase s) to (SFlags s))). pose proof (CanEnter_None to s1) as Hc.
  change (SPhase s1) with (SPhase s) in Hc. change (SFlags s1) with (flip_flags (SPhase s) to (SFlags s)) in Hc.
  destruct (CanEnter to s1) as [r|].
  - split; [done|]. intros (Hl & _ & H1 & H2 & _). exfalso. assert (Some r = None) as ?; [|done].
    apply Hc. split; [done|]. apply flip_gate_open; [by apply legal_edges|done].
  - destruct (proj1 Hc eq_refl) as [Hl Hg]. apply flip_gate_open in Hg; [|by apply legal_edges]. split.
    + intros [= <-]. destruct Hg. split; [done|]. split; [by apply Hv|]. done.
    + intros (_ & _ & _ & _ & ->). done.
Qed.

(** ** The invariant of a session *)

Record gate_inv (s : Session) : Prop := {
  gi_phase : SPhase s ∈ AllPhases;
  gi_audit : SPhase s ∈ [PhaseB; PhaseC; PhaseD] → AuditPassed (SFlags s) = true;
  gi_check : SPhase s = PhaseD → CheckPassed (SFlags s) = true
}.

(** Every state change of the package: the agent's transitions, the chat commands, and the interview flag recomputed from the
    tracker. *)
Inductive step (ns : float64 → string) : Session → Session → Prop :=
| step_agent s to att s' : Transition ns s to att = Ok s' → step ns s s'
| step_human s verb att ts a s' : applyHumanTransition s verb att ts = Ok a → AState a = Some s' → step ns s s'
| step_derive s : step ns s (DeriveInterviewFlag s).

Lemma edge_audit from to (a a' : bool) :
  (from, to) ∈ edges → (from ∈ [PhaseB; PhaseC; PhaseD] → a = true) →
  (a = true ∨ to = PhaseB → to ≠ PhaseI → to ≠ PhaseIdle → a' = true) → to ∈ [PhaseB; PhaseC; PhaseD] → a' = true.
Proof.
  unfold edges. intros He Ha H Hto.
  each He; try (exfalso; by each Hto); (apply H; [first [right; reflexivity|left; apply Ha; by_computation]|done|done]).
Qed.

(** An edge that keeps or opens the flags it needs keeps the invariant. *)
Lemma gate_inv_edge s s' :
  gate_inv s → (SPhase s, SPhase s') ∈ edges →
  (AuditPassed (SFlags s) = true ∨ SPhase s' = PhaseB → SPhase s' ≠ PhaseI → SPhase s' ≠ PhaseIdle → AuditPassed (SFlags s') = true) →
  (SPhase s' = PhaseD → CheckPassed (SFlags s') = true) → gate_inv s'.
Proof.
  intros [Hp Ha Hc] He H1 H2. split; [by apply legal_edges, legal_phases in He as [_ ?]| |done].
  by apply (edge_audit (SPhase s) _ (AuditPassed (SFlags s))).
Qed.

Lemma moved_phase s to : SPhase (moved s to) = to.
Proof. reflexivity. Qed.

Lemma moved_flags s to :
  SFlags (moved s to) = if bool_decide (SPhase s = PhaseD ∧ to = PhaseIdle) then no_flags else flip_flags (SPhase s) to (SFlags s).
Proof. unfold moved. by case_bool_decide. Qed.

Lemma flip_audit from to f : AuditPassed f = true ∨ (from = PhaseA ∧ to = PhaseB) → AuditPassed (flip_flags from to f) = true.
Proof. unfold flip_flags. intros H. repeat (case_bool_decide; simpl; try done); destruct H as [?|[? ?]]; tauto. Qed.

Lemma Transition_inv ns s to att s' : gate_inv s → Transition ns s to att = Ok s' → gate_inv s'.
Proof.
  intros Hi (Hl & _ & _ & Hcb & ->)%Transition_ok. apply legal_edges in Hl.
  apply (gate_inv_edge s); rewrite ?moved_phase, ?moved_flags; [done|done|..].
  - intros H _ Hidle. rewrite bool_decide_eq_false_2 by tauto. apply flip_audit. destruct H as [?| ->]; [by left|].
    unfold edges in Hl. destruct (decide (SPhase s = PhaseA)) as [?|Hna]; [by right|left]. apply Hcb; [|done].
    each Hl; congruence.
  - intros ->. rewrite bool_decide_eq_false_2 by (by intros [_ ?]). unfold edges in Hl. each Hl; try congruence.
    match goal with E : _ = SPhase s |- _ => rewrite <- E | E : SPhase s = _ |- _ => rewrite E end. reflexivity.
Qed.

(** A move along an edge from the chat. *)
Lemma free_pass_ok s verb att ts a :
  free_pass s verb att ts = Ok a →
  ∃ f, IsLegalEdge (SPhase s) verb = true ∧ gate_open (SPhase s) verb f ∧ AState a = Some (with_phase (with_flags s f) verb) ∧
    (verb = PhaseI → f = no_flags) ∧ (verb ≠ PhaseI → AuditPassed (SFlags s) = true → AuditPassed f = true) ∧
    ∃ r, ALedger a = Some r ∧ LFrom r = Some (SPhase s) ∧ LTo r = verb ∧ LSessionID r = SSessionID s.
Proof.
  unfold free_pass. intros H.
  set (g := if bool_decide (SPhase s = PhaseI ∧ verb = PhaseP) then soft_gate s att _ else _) in H.
  assert (∀ f scan, g = Ok (f, scan) → AuditPassed (SFlags s) = true → AuditPassed f = true) as Hg.
  { assert (AuditPassed (SFlags s) = true → AuditPassed (unlockedFlag (SFlags s) (SPhase s) verb) = true) as Hu.
    { unfold unlockedFlag. intros. repeat (case_bool_decide; simpl; try done). }
    unfold g, soft_gate. intros f scan E Ha. case_bool_decide; [|simplify_eq; auto].
    repeat case_in E; simplify_eq/=; auto. }
  destruct g as [[f scan]|]; [|done]. set (f' := if bool_decide (verb = PhaseI) then no_flags else f) in H.
  destruct (CanEnter verb (with_flags s f')) as [r|] eqn:Ec; simplify_eq/=. apply CanEnter_None in Ec as [Hl Ho].
  exists f'. split; [done|]. split; [done|]. split; [done|]. split.
  { intros ->. unfold f'. by rewrite bool_decide_eq_true_2. }
  split; [|by eexists]. intros Hne Ha. unfold f'. rewrite bool_decide_eq_false_2 by done. by eapply Hg.
Qed.

Lemma free_pass_inv s verb att ts a s' : gate_inv s → free_pass s verb att ts = Ok a → AState a = Some s' → gate_inv s'.
Proof.
  intros Hi (f & Hl & (_ & Hb & Hd) & Hs & Hf & Ha & _)%free_pass_ok Hs'. rewrite Hs in Hs'. simplify_eq.
  apply legal_edges in Hl. apply (gate_inv_edge s); simpl; [done|done| |done]. intros [H| ->] Hne _; auto.
Qed.

Lemma idle_inv s' : SPhase s' = PhaseIdle → gate_inv s'.
Proof. intros E. split; rewrite E; [by_computation|intros H; by each H|done]. Qed.

Lemma applyHuman_inv s verb att ts a s' :
  gate_inv s → applyHumanTransition s verb att ts = Ok a → AState a = Some s' → gate_inv s'.
Proof.
  intros Hi H Hs. unfold applyHumanTransition in H. repeat case_in H; simplify_eq/=; try (by eapply idle_inv); try (by eapply free_pass_inv).
  unfold unbindResult in H. repeat case_in H; simplify_eq/=. destruct Hi. by split.
Qed.

Lemma step_inv ns s s' : gate_inv s → step ns s s' → gate_inv s'.
Proof.
  intros Hi Hs. destruct Hs as [s to att s' H|s verb att ts a s' H Ha|s].
  - by eapply Transition_inv.
  - by eapply applyHuman_inv.
  - destruct Hi. by split.
Qed.

Lemma default_inv id slug now : gate_inv (defaultState id slug now).
Proof. by apply idle_inv. Qed.

(** ** Runs of the agent *)

(** The agent's transitions in order, each with the attestation it gave. *)
Inductive agent_run (ns : float64 → string) : Session → list (Phase * option Attestation) → Session → Prop :=
| run_nil s : agent_run ns s [] s
| run_cons s to att s1 tr s2 : Transition ns s to att = Ok s1 → agent_run ns s1 tr s2 → agent_run ns s ((to, att) :: tr) s2.

Lemma flip_flags_opened from to f :
  (AuditPassed (flip_flags from to f) = true → AuditPassed f = true ∨ from = PhaseA ∧ to = PhaseB) ∧
  (CheckPassed (flip_flags from to f) = true → CheckPassed f = true ∨ from = PhaseC ∧ to = PhaseD).
Proof. unfold flip_flags. repeat (case_bool_decide; simpl); auto. Qed.

(** A gate flag opens only on its edge, with evidence. *)
Lemma Transition_opens ns s to att s' :
  Transition ns s to att = Ok s' →
  (AuditPassed (SFlags s') = true → AuditPassed (SFlags s) = true ∨ ∃ a, to = PhaseB ∧ att = Some a ∧ audit_ok a) ∧
  (CheckPassed (SFlags s') = true → CheckPassed (SFlags s) = true ∨ ∃ a, to = PhaseD ∧ att = Some a ∧ check_ok a).
Proof.
  intros (Hl & Hv & _ & _ & ->)%Transition_ok. rewrite moved_flags. case_bool_decide; simpl; [by auto|].
  destruct (flip_flags_opened (SPhase s) to (SFlags s)) as [F1 F2]. split.
  - intros HF%F1. destruct HF as [?|[Hf ->]]; [by left|right]. rewrite Hf in Hv. destruct (Hv eq_refl) as (a & -> & _ & _ & _ & _ & Ha & _). eauto.
  - intros HF%F2. destruct HF as [?|[Hf ->]]; [by left|right]. rewrite Hf in Hv. destruct (Hv eq_refl) as (a & -> & _ & _ & _ & _ & _ & Hc). eauto.
Qed.

Lemma agent_run_opens ns s tr s' :
  agent_run ns s tr s' →
  (AuditPassed (SFlags s') = true → AuditPassed (SFlags s) = true ∨ ∃ a, (PhaseB, Some a) ∈ tr ∧ audit_ok a) ∧
  (CheckPassed (SFlags s') = true → CheckPassed (SFlags s) = true ∨ ∃ a, (PhaseD, Some a) ∈ tr ∧ check_ok a).
Proof.
  induction 1 as [s|s to att s1 tr s2 H _ [IH1 IH2]]; [auto|]. destruct (Transition_opens _ _ _ _ _ H) as [T1 T2]. split.
  - intros Hs. destruct (IH1 Hs) as [Hs1|(a & ? & ?)]; [|right; exists a; split; [by right|done]].
    destruct (T1 Hs1) as [?|(a & -> & -> & ?)]; [by left|right; exists a; split; [by left|done]].
  - intros Hs. destruct (IH2 Hs) as [Hs1|(a & ? & ?)]; [|right; exists a; split; [by right|done]].
    destruct (T2 Hs1) as [?|(a & -> & -> & ?)]; [by left|right; exists a; split; [by left|done]].
Qed.

Lemma agent_run_inv ns s tr s' : gate_inv s → agent_run ns s tr s' → gate_inv s'.
Proof. intros Hi Hr. induction Hr as [s|s to att s1 tr s2 Ht _ IH]; [done|]. by eapply IH, Transition_inv. Qed.

(** ** Properties *)

(** C31: the agent's transition succeeds exactly along a legal edge whose evidence is attested when it is gated, whose interview flag is
    up on I>P and whose audit still stands on C>B; the state it returns is the phase moved, the unlocked flag set and, on D>IDLE, the
    cycle closed. *)
Theorem Transition_iff ns s to att s' :
  Transition ns s to att = Ok s' ↔
  (SPhase s, to) ∈ edges ∧ (edge_name (SPhase s) to ∈ GatedTransitions → attested (SPhase s) to att) ∧
  (SPhase s = PhaseI → to = PhaseP → Interview (SFlags s) = true) ∧
  (SPhase s = PhaseC → to = PhaseB → AuditPassed (SFlags s) = true) ∧ s' = moved s to.
Proof. rewrite Transition_ok, IsGated_cases, legal_edges. done. Qed.

(** C22: in every state a session reaches from a fresh one, by the agent's transitions, the chat commands and the recomputed interview
    flag in any order, the phase is one of the seven, the audit flag is up in B, C and D, and the check flag is up in D. *)
Theorem session_invariant ns id slug now s :
  rtc (step ns) (defaultState id slug now) s →
  SPhase s ∈ AllPhases ∧ (SPhase s ∈ [PhaseB; PhaseC; PhaseD] → AuditPassed (SFlags s) = true) ∧
  (SPhase s = PhaseD → CheckPassed (SFlags s) = true).
Proof.
  intros H. assert (gate_inv s) as [? ? ?]; [|done].
  revert H. generalize (default_inv id slug now). generalize (defaultState id slug now) as s0. intros s0 Hi H.
  induction H as [s0|s0 s1 s2 Hs _ IH]; [done|]. by apply IH, (step_inv ns s0).
Qed.

(** C32: an agent that brings a fresh session to B, C or D has attested a reviewed audit on the way, and one that brings it to D has
    attested a passing check. *)
Theorem agent_evidence ns id slug now tr s :
  agent_run ns (defaultState id slug now) tr s →
  (SPhase s ∈ [PhaseB; PhaseC; PhaseD] → ∃ a, (PhaseB, Some a) ∈ tr ∧ audit_ok a) ∧
  (SPhase s = PhaseD → ∃ a, (PhaseD, Some a) ∈ tr ∧ check_ok a).
Proof.
  intros H. destruct (agent_run_inv _ _ _ _ (default_inv id slug now) H) as [_ Ha Hc].
  destruct (agent_run_opens _ _ _ _ H) as [H1 H2]. split.
  - intros Hp. by destruct (H1 (Ha Hp)) as [?|?].
  - intros Hp. by destruct (H2 (Hc Hp)) as [?|?].
Qed.

(** A chat command that changes the state appends the row of that change: from the phase the session was in to the phase it is in now,
    and a phase change follows a legal edge, unless the command resets the session or closes a cycle at C. *)
Theorem applyHumanTransition_ledger s verb att ts a s' :
  applyHumanTransition s verb att ts = Ok a → AState a = Some s' →
  (∃ r, ALedger a = Some r ∧ LFrom r = Some (SPhase s) ∧ LTo r = SPhase s' ∧ LSessionID r = SSessionID s') ∧
  ((SPhase s, SPhase s') ∈ edges ∨ SPhase s' = SPhase s ∨ verb = VerbReset ∧ SPhase s' = PhaseIdle ∨
   SPhase s = PhaseC ∧ verb = PhaseD ∧ SPhase s' = PhaseIdle).
Proof.
  intros H Hs. unfold applyHumanTransition in H.
  destruct (bool_decide (verb = VerbStatus)); [by simplify_eq/=|].
  case_bool_decide as Hr; [repeat case_in H; simplify_eq/=; (split; [by eexists|]); auto 10|].
  case_bool_decide as Hu.
  { unfold unbindResult in H. repeat case_in H; simplify_eq/=. split; [eexists; split; [done|]|by auto].
    apply negb_false_iff, bool_decide_eq_true in Heqb. by rewrite Heqb. }
  case_bool_decide as Hd.
  { case_bool_decide as Hc; simplify_eq/=. split; [eexists; split; [done|]; by rewrite Hc|]. auto 10. }
  apply free_pass_ok in H as (f & Hl & _ & Ha & _ & _ & r & Hlr & ? & ? & ?). rewrite Ha in Hs. simplify_eq/=.
  split; [by eexists|]. left. by apply legal_edges.
Qed.

(** A reset always succeeds and leaves a session at rest: idle, no flag up, nothing pending, so a second reset changes nothing and an
    unbind is accepted; after the unbind the session holds no slug. *)
Theorem reset_then_unbind s att ts :
  ∃ a, applyHumanTransition s VerbReset att ts = Ok a ∧
  let s1 := default s (AState a) in
  SPhase s1 = PhaseIdle ∧ pending s1 = false ∧
  applyHumanTransition s1 VerbReset att ts = Ok (mkApplied ControlReset None None true) ∧
  ∃ b, applyHumanTransition s1 VerbUnbind att ts = Ok b ∧ Slug (default s1 (AState b)) = "" ∧
    applyHumanTransition (default s1 (AState b)) VerbUnbind att ts = Ok (mkApplied ControlUnbind None None true).
Proof.
  assert (∀ t : Session, SPhase t = PhaseIdle → pending t = false →
    applyHumanTransition t VerbReset att ts = Ok (mkApplied ControlReset None None true) ∧
    ∃ b, applyHumanTransition t VerbUnbind att ts = Ok b ∧ Slug (default t (AState b)) = "" ∧
      applyHumanTransition (default t (AState b)) VerbUnbind att ts = Ok (mkApplied ControlUnbind None None true)) as Hrest.
  { intros t Hp Hn. unfold applyHumanTransition, unbindResult. simpl. rewrite Hp, Hn. simpl. split; [done|].
    destruct (decide (Slug t = "")) as [E|E].
    - rewrite bool_decide_eq_true_2 by done. eexists. split; [done|]. simpl. rewrite Hp, Hn. simpl. by rewrite bool_decide_eq_true_2.
    - rewrite bool_decide_eq_false_2 by done. eexists. split; [done|]. simpl. rewrite Hp. simpl.
      change (pending (Unbound t)) with (pending t). by rewrite Hn. }
  unfold applyHumanTransition at 1. simpl.
  destruct (bool_decide (SPhase s = PhaseIdle) && negb (pending s)) eqn:E.
  - apply andb_true_iff in E as [E1%bool_decide_eq_true E2%negb_true_iff]. eexists. split; [done|]. simpl. auto.
  - eexists. split; [done|]. simpl. split; [done|]. split; [done|]. by apply Hrest.
Qed.

(** The phase [NextPhase] names is a legal edge away, and it is IDLE exactly after D; a session outside the work phases has none. *)
Theorem NextPhase_legal s :
  match NextPhase s with
  | Some p => (SPhase s, p) ∈ edges ∧ (p = PhaseIdle ↔ SPhase s = PhaseD)
  | None => SPhase s ∉ WorkPhases
  end.
Proof.
  destruct (decide (SPhase s ∈ WorkPhases)) as [Hw|Hw].
  - unfold NextPhase. remember (SPhase s) as p eqn:E. clear E. unfold WorkPhases in Hw. each Hw; (split; [by_computation|by vm_compute]).
  - assert (NextPhase s = None) as ->; [|done]. unfold NextPhase. unfold WorkPhases in Hw. rewrite !not_elem_of_cons in Hw.
    destruct_and! Hw. unfold Order, WorkPhases, index_of. by rewrite !bool_decide_eq_false_2 by congruence.
Qed.

(** ** Witnesses: an agent's cycle *)

Module AgentExample.
Definition number (f : float64) : string := "0".
Definition fresh : Session := defaultState "s1" "" "2026-01-01T00:00:00.000Z".
Definition att (from to : Phase) : Attestation :=
  mkAttestation from to "read the plan and built it" "Verdict: PASS" VerdictPass "" None [] "ok" (Some f0) false "" [] "" "".
Definition trace : list (Phase * option Attestation) :=
  [(PhaseP, None); (PhaseA, Some (att PhaseP PhaseA)); (PhaseB, Some (att PhaseA PhaseB)); (PhaseC, Some (att PhaseB PhaseC));
   (PhaseD, Some (att PhaseC PhaseD))].
Fixpoint run (s : Session) (tr : list (Phase * option Attestation)) : Session :=
  match tr with
  | [] => s
  | (to, a) :: tr' => match Transition number s to a with Ok s1 => run s1 tr' | Err _ => s end
  end.
Definition at_d : Session := Eval vm_compute in run fresh trace.
Definition at_c : Session := Eval vm_compute in run fresh (take 4 trace).
Lemma agent_at_d : agent_run number fresh trace at_d.
Proof. unfold trace. repeat (eapply run_cons; [vm_compute; reflexivity|]). constructor. Qed.
Lemma steps_at_d : rtc (step number) fresh at_d.
Proof.
  generalize agent_at_d. generalize fresh, trace, at_d. intros s tr s' H.
  induction H as [s|s to a s1 tr s2 H _ IH]; [apply rtc_refl|]. eapply rtc_l; [by eapply step_agent|done].
Qed.
End AgentExample.

Lemma session_invariant_witness : CheckPassed (SFlags AgentExample.at_d) = true.
Proof.
  destruct (session_invariant AgentExample.number "s1" "" "2026-01-01T00:00:00.000Z" AgentExample.at_d AgentExample.steps_at_d)
    as (_ & _ & H). apply H. reflexivity.
Defined.

Lemma agent_evidence_witness : ∃ a, (PhaseD, Some a) ∈ AgentExample.trace ∧ check_ok a.
Proof.
  destruct (agent_evidence AgentExample.number "s1" "" "2026-01-01T00:00:00.000Z" AgentExample.trace AgentExample.at_d AgentExample.agent_at_d)
    as (_ & H). apply H. reflexivity.
Defined.

Lemma applyHumanTransition_ledger_witness :
  ∃ r, ALedger (mkApplied ControlDone (Some (ClearedIdle AgentExample.at_c))
      (Some (Fsm.row "t" AgentExample.at_c PhaseC PhaseIdle "done" None "")) false) = Some r ∧ LTo r = PhaseIdle.
Proof.
  destruct (applyHumanTransition_ledger AgentExample.at_c PhaseD None "t"
    (mkApplied ControlDone (Some (ClearedIdle AgentExample.at_c)) (Some (Fsm.row "t" AgentExample.at_c PhaseC PhaseIdle "done" None "")) false)
    (ClearedIdle AgentExample.at_c)) as [(r & H1 & _ & H2 & _) _]; [vm_compute; reflexivity|reflexivity|].
  exists r. split; [exact H1|exact H2].
Defined.
