(* ===== verification/GrammarProps.v ===== *)
(** * GrammarProps: the scanner of chat commands accepts exactly the lines of a grammar. *)
From S2P Require Import Prelude GoLib Sha256 Json Loads Utf8 GoFloat GoJson JsText Attest Fsm Grammar.
Local Open Scope Z_scope.
(** ** White space *)
Definition js_spaces : list Z := [9; 10; 11; 12; 13; 32; 0xA0; 0x1680; 0x2028; 0x2029; 0x202F; 0x205F; 0x3000; 0xFEFF] ++ (Z.add 0x2000 <$> [0; 1; 2; 3; 4; 5; 6; 7; 8; 9; 10]).

Lemma isJSSpace_list r : isJSSpace r = true → r ∈ js_spaces.
Proof.
  unfold isJSSpace. intros [Hr|Hr]%orb_true_iff; apply elem_of_app; [left; by apply bool_decide_eq_true in Hr|right]. apply in_range_spec in Hr.
  apply list_elem_of_fmap. exists (r - 0x2000). split; [lia|].
  assert (r - 0x2000 ∈ Z.of_nat <$> seq 0 11) as H by (apply list_elem_of_fmap; exists (Z.to_nat (r - 0x2000)); split; [lia|apply elem_of_seq; lia]). exact H.
Qed.

(** What the scanner needs of a white space character: its bytes are UTF-8, and none can be taken for a brace, a letter, a digit or an underscore. *)
Definition space_ok (r : Z) : bool :=
  in_range 0 0xFEFF r && negb (in_range 0xd800 0xdfff r) && negb (r =? rune_error) && forallb (λ b, negb (b =? 123) && negb (isASCIILetter b || (b =? 95) || in_range 48 57 b)) (encode_rune r).

Lemma isJSSpace_ok r : isJSSpace r = true → space_ok r = true.
Proof. intros Hr%isJSSpace_list. assert (forallb space_ok js_spaces = true) as H by (vm_compute; reflexivity). rewrite forallb_forall in H. by apply H, list_elem_of_In. Qed.

Lemma space_scalar r : isJSSpace r = true → scalar r ∧ r ≠ rune_error.
Proof.
  intros H%isJSSpace_ok. unfold space_ok in H. rewrite !andb_true_iff, !negb_true_iff, in_range_spec, in_range_false, Z.eqb_neq in H. unfold scalar. lia.
Qed.

Definition spaces (s : list Z) : Prop := ∃ rs, Forall (λ r, isJSSpace r = true) rs ∧ s = encode_runes rs.

(** A text that does not start with white space. *)
Definition solid (s : list Z) : Prop := s = [] ∨ isJSSpace (fst (decode_rune s)) = false.

Lemma solid_ascii c t : 32 < c < 0x80 → solid (c :: t).
Proof.
  intros Hc. right. unfold decode_rune. rewrite (proj2 (Z.ltb_lt c 0x80)) by lia. cbn [fst]. destruct (isJSSpace c) eqn:E; [|done]. apply isJSSpace_list in E.
  assert (forallb (λ r, (r <=? 32) || (0x80 <=? r)) js_spaces = true) as H by (vm_compute; reflexivity). rewrite forallb_forall in H. apply list_elem_of_In, H in E. lia.
Qed.

Lemma spaces_byte s b : spaces s → b ∈ s → b ≠ 123 ∧ (isASCIILetter b || (b =? 95) || in_range 48 57 b) = false.
Proof.
  intros (rs & Hrs & ->) Hb. apply list_elem_of_bind in Hb as (r & Hb & Hr). rewrite Forall_forall in Hrs. apply Hrs in Hr. apply isJSSpace_ok in Hr. unfold space_ok in Hr.
  rewrite !andb_true_iff, forallb_forall in Hr. destruct Hr as [_ Hr]. apply list_elem_of_In in Hb. apply Hr in Hb. rewrite andb_true_iff, !negb_true_iff, Z.eqb_neq in Hb. done.
Qed.

Lemma trim_left_spaces rs t fuel : Forall (λ r, isJSSpace r = true) rs → solid t → (length (encode_runes rs ++ t) ≤ fuel)%nat → trim_left fuel (encode_runes rs ++ t) = t.
Proof.
  intros Hrs Ht. revert fuel. induction Hrs as [|r rs Hr Hrs IH]; intros fuel Hf.
  - cbn [encode_runes mbind list_bind app] in *. destruct fuel as [|fuel]; [destruct t; [done|cbn in Hf; lia]|]. destruct Ht as [->|Ht]; [done|]. destruct t as [|c t]; [done|]. cbn [trim_left].
    destruct (decode_rune (c :: t)) as [r n]. cbn [fst] in Ht. by rewrite Ht.
  - rewrite encode_runes_cons, <- (assoc_L (++)) in *. destruct (space_scalar r Hr) as [Hs _]. pose proof (length_encode_rune r Hs) as Hl. rewrite length_app in Hf.
    destruct fuel as [|fuel]; [lia|]. destruct (encode_rune r ++ encode_runes rs ++ t) as [|c s] eqn:E; [by apply encode_rune_app_nonnil in E|]. cbn [trim_left]. rewrite <- E, decode_encode by done. rewrite Hr, drop_app_length.
    apply IH. lia.
Qed.

Lemma TrimLeft_app sp t : spaces sp → solid t → TrimLeft (sp ++ t) = t.
Proof. intros (rs & Hrs & ->) Ht. by apply trim_left_spaces. Qed.

Lemma trim_left_split fuel s : Forall is_byte s → (length s ≤ fuel)%nat → ∃ sp, spaces sp ∧ s = sp ++ trim_left fuel s ∧ solid (trim_left fuel s).
Proof.
  revert s. induction fuel as [|fuel IH]; intros s Hb Hf; [destruct s; [|cbn in Hf; lia]; exists []; split_and!; [by exists []|done|by left]|].
  destruct s as [|c t]; [exists []; split_and!; [by exists []|done|by left]|]. cbn [trim_left]. destruct (decode_rune (c :: t)) as [r n] eqn:E. destruct (isJSSpace r) eqn:Hr.
  - destruct (space_scalar r Hr) as [_ Hne]. destruct (encode_decode (c :: t) r n Hb (ltac:(done)) E) as (Hs & Ht & Hn); [by intros [? _]|].
    pose proof (length_encode_rune r Hs) as Hl. rewrite <- Ht, length_take in Hl.
    destruct (IH (drop n (c :: t))) as (sp & (rs & Hrs & ->) & Es & Hso); [by apply Forall_drop|rewrite length_drop; lia|].
    exists (encode_rune r ++ encode_runes rs). split_and!; [|by rewrite <- (assoc_L (++)), <- Es, <- Ht, take_drop|done].
    exists (r :: rs). split; [by constructor|by rewrite encode_runes_cons].
  - exists []. split_and!; [by exists []|done|right; by rewrite E].
Qed.

Lemma TrimLeft_split s : Forall is_byte s → ∃ sp, spaces sp ∧ s = sp ++ TrimLeft s ∧ solid (TrimLeft s).
Proof. intros Hb. by apply trim_left_split. Qed.

Lemma TrimLeft_solid t : solid t → TrimLeft t = t.
Proof. apply (TrimLeft_app []). by exists []. Qed.

(** ** Balanced braces *)

(** The inside of a string literal: an escape covers the character after it. *)
Inductive literal : list Z → Prop :=
| lit_nil : literal []
| lit_char c l : c ≠ 34 → c ≠ 92 → literal l → literal (c :: l)
| lit_escape c l : literal l → literal (92 :: c :: l).

(** A text whose braces match, outside its string literals. *)
Inductive matched : list Z → Prop :=
| mt_nil : matched []
| mt_char c t : c ≠ 34 → c ≠ 123 → c ≠ 125 → matched t → matched (c :: t)
| mt_string l t : literal l → matched t → matched (34 :: l ++ 34 :: t)
| mt_braces b t : matched b → matched t → matched (123 :: b ++ 125 :: t).

Definition braced (t : list Z) : Prop := ∃ b, matched b ∧ t = 123 :: b ++ [125].

Lemma balance_literal depth l t : literal l → balance depth true false (l ++ 34 :: t) = (λ r, l ++ 34 :: r) <$> balance depth false false t.
Proof.
  induction 1 as [|c l H1 H2 _ IH|c l _ IH]; cbn [app balance orb negb andb]; [done| |].
  - rewrite (proj2 (Z.eqb_neq _ _) H1), (proj2 (Z.eqb_neq _ _) H2). cbn [negb]. rewrite IH, <- option_fmap_compose. done.
  - cbn. rewrite IH, <- !option_fmap_compose. done.
Qed.

Lemma balance_matched b : matched b → ∀ depth t, 0 < depth → balance depth false false (b ++ t) = app b <$> balance depth false false t.
Proof.
  induction 1 as [|c b H1 H2 H3 _ IH|l b Hl _ IH|b1 b2 _ IH1 _ IH2]; intros depth t Hd; cbn [app].
  - by rewrite option_fmap_id.
  - cbn [balance]. rewrite (proj2 (Z.eqb_neq _ _) H1), (proj2 (Z.eqb_neq _ _) H2), (proj2 (Z.eqb_neq _ _) H3), IH by done. by rewrite <- option_fmap_compose.
  - rewrite <- (assoc_L (++)). cbn [app balance Z.eqb Pos.eqb]. rewrite balance_literal, IH by done. rewrite <- !option_fmap_compose. apply option_fmap_ext. intros r. cbn. by rewrite <- (assoc_L (++)).
  - rewrite <- (assoc_L (++)). cbn [app balance Z.eqb Pos.eqb]. rewrite IH1 by lia. cbn [balance Z.eqb Pos.eqb]. rewrite (proj2 (Z.eqb_neq _ _)) by lia.
    replace (depth + 1 - 1) with depth by lia. rewrite IH2 by done. rewrite <- !option_fmap_compose. apply option_fmap_ext. intros r. cbn. by rewrite <- (assoc_L (++)).
Qed.

(** What the scan keeps at a depth: matched texts, each closed by a brace, one per open brace. *)
Inductive closes : nat → list Z → Prop :=
| cl_last b : matched b → closes 1 (b ++ [125])
| cl_more n b r : matched b → closes n r → closes (S n) (b ++ 125 :: r).

Lemma closes_char n c r : c ≠ 34 → c ≠ 123 → c ≠ 125 → closes n r → closes n (c :: r).
Proof. intros ? ? ?. destruct 1 as [b Hb|n b r Hb Hr]; [apply (cl_last (c :: b))|apply (cl_more n (c :: b))]; by try constructor. Qed.

Lemma closes_string n l r : literal l → closes n r → closes n (34 :: l ++ 34 :: r).
Proof.
  intros Hl. destruct 1 as [b Hb|n b r Hb Hr].
  - rewrite (app_comm_cons b [125] 34), (assoc_L (++)). apply (cl_last (34 :: l ++ 34 :: b)). by constructor.
  - rewrite (app_comm_cons b (125 :: r) 34), (assoc_L (++)). apply (cl_more n (34 :: l ++ 34 :: b)); [by constructor|done].
Qed.

Lemma closes_brace n r : (0 < n)%nat → closes (S n) r → closes n (123 :: r).
Proof.
  intros Hn H. inversion H as [|n' b r' Hb Hr]; subst; [lia|]. inversion Hr as [b' Hb'|n' b' r'' Hb' Hr']; subst.
  - rewrite (app_comm_cons b' [125] 125), (assoc_L (++)). apply (cl_last (123 :: b ++ 125 :: b')). by constructor.
  - rewrite (app_comm_cons b' (125 :: r'') 125), (assoc_L (++)). apply (cl_more n' (123 :: b ++ 125 :: b')); [by constructor|done].
Qed.

Lemma balance_closes s : ∀ n r, (0 < n)%nat →
  (balance (Z.of_nat n) false false s = Some r → closes n r ∧ r `prefix_of` s) ∧
  (∀ escaped, balance (Z.of_nat n) true escaped s = Some r →
    ∃ l r', r = l ++ 34 :: r' ∧ (if escaped then ∃ c l', l = c :: l' ∧ literal l' else literal l) ∧ closes n r' ∧ r `prefix_of` s).
Proof.
  induction s as [|c s IH]; intros n r Hn; [done|]. cbn [balance]. split.
  - destruct (Z.eqb_spec c 34) as [->|H34].
    { intros (r1 & E & ->)%fmap_Some. destruct (proj2 (IH n r1 Hn) false E) as (l & r' & -> & Hl & Hc & Hp). split; [by apply closes_string|by apply prefix_cons]. }
    destruct (Z.eqb_spec c 123) as [->|H123].
    { intros (r1 & E & ->)%fmap_Some. replace (Z.of_nat n + 1) with (Z.of_nat (S n)) in E by lia. destruct (proj1 (IH (S n) r1 ltac:(lia)) E) as [Hc Hp]. split; [by apply closes_brace|by apply prefix_cons]. }
    destruct (Z.eqb_spec c 125) as [->|H125].
    { destruct (Z.eqb_spec (Z.of_nat n - 1) 0) as [E1|E1].
      - intros [= <-]. replace n with 1%nat by lia. split; [apply (cl_last []), mt_nil|by exists s].
      - intros (r1 & E & ->)%fmap_Some. destruct n as [|n]; [lia|]. replace (Z.of_nat (S n) - 1) with (Z.of_nat n) in E by lia. destruct (proj1 (IH n r1 ltac:(lia)) E) as [Hc Hp].
        split; [apply (cl_more n []); [apply mt_nil|done]|by apply prefix_cons]. }
    intros (r1 & E & ->)%fmap_Some. destruct (proj1 (IH n r1 Hn) E) as [Hc Hp]. split; [by apply closes_char|by apply prefix_cons].
  - intros escaped (r1 & E & ->)%fmap_Some. destruct escaped; cbn [orb negb andb] in E.
    + destruct (proj2 (IH n r1 Hn) _ E) as (l & r' & -> & Hl & Hc & Hp). exists (c :: l), r'. split_and!; [done|by exists c, l|done|by apply prefix_cons].
    + destruct (Z.eqb_spec c 34) as [->|H34]; cbn [negb] in E.
      * destruct (proj1 (IH n r1 Hn) E) as [Hc Hp]. exists [], r1. split_and!; [done|apply lit_nil|done|by apply prefix_cons].
      * destruct (proj2 (IH n r1 Hn) _ E) as (l & r' & -> & Hl & Hc & Hp). exists (c :: l), r'. split_and!; [done| |done|by apply prefix_cons].
        destruct (Z.eqb_spec c 92) as [->|H92]; [destruct Hl as (c' & l' & -> & Hl); by apply lit_escape|by apply lit_char].
Qed.

(** The scan from an opening brace finds the braced text that starts there, if there is one. *)
Lemma balance_iff t o : balance 0 false false (123 :: t) = Some o ↔ braced o ∧ o `prefix_of` 123 :: t.
Proof.
  split.
  - cbn [balance Z.eqb Pos.eqb]. intros (r & E & ->)%fmap_Some. destruct (proj1 (balance_closes t 1 r ltac:(lia)) E) as [Hc Hp]. split; [|by apply prefix_cons].
    inversion Hc as [b Hb|n b r' Hb Hr]; subst; [by exists b|]. inversion Hr.
  - intros [(b & Hb & ->) [post E]]. injection E as ->. cbn [balance Z.eqb Pos.eqb]. rewrite <- (assoc_L (++)), balance_matched by (done || lia). done.
Qed.

(** [ExtractBalancedJSON] returns the braced text that starts at the first brace, and nothing when there is none. *)
Lemma ExtractBalancedJSON_iff s o : ExtractBalancedJSON s = Some o ↔ ∃ pre post, s = pre ++ o ++ post ∧ 123 ∉ pre ∧ braced o.
Proof.
  unfold ExtractBalancedJSON. induction s as [|c s IH]; cbn [from_brace].
  - split; [done|]. intros (pre & post & E & _ & b & _ & ->). destruct pre; discriminate E.
  - destruct (Z.eqb_spec c 123) as [->|Hc].
    + rewrite balance_iff. split; [intros [Ho [post E]]; exists [], post; split_and!; [done|apply not_elem_of_nil|done]|].
      intros (pre & post & E & Hn & Ho). split; [done|]. destruct pre as [|c pre]; [by exists post|]. injection E as <- ->. by destruct Hn; left.
    + rewrite IH. split.
      * intros (pre & post & -> & Hn & Ho). exists (c :: pre), post. split_and!; [done|by apply not_elem_of_cons|done].
      * intros (pre & post & E & Hn & Ho). destruct pre as [|c' pre]; [destruct Ho as (b & _ & ->); injection E as -> _; done|]. injection E as <- ->. apply not_elem_of_cons in Hn as [_ Hn]. by exists pre, post.
Qed.

(** ** Letters *)
Definition letter (c : Z) : Prop := 65 ≤ c ≤ 90 ∨ 97 ≤ c ≤ 122.

(** The bytes on which [c | 0x20] is a small letter, and what it is there. *)
Lemma lor_letter c : 97 ≤ Z.lor c 0x20 ≤ 122 → letter c ∧ Z.lor c 0x20 = lower_byte c.
Proof.
  intros H. assert (0 ≤ c) as H0 by (apply (Z.lor_nonneg c 0x20); lia). assert (c < 128) as H1.
  { destruct (Z.le_gt_cases c 0); [lia|]. apply Z.log2_lt_cancel. pose proof (Z.log2_lor c 0x20 H0 ltac:(lia)) as E. pose proof (Z.log2_le_mono (Z.lor c 0x20) 122 ltac:(lia)) as E1.
    change (Z.log2 122) with 6 in E1. change (Z.log2 128) with 7. lia. }
  assert (forallb (λ c, negb (in_range 97 122 (Z.lor c 0x20)) || ((in_range 65 90 c || in_range 97 122 c) && (Z.lor c 0x20 =? lower_byte c))) (Z.of_nat <$> seq 0 128) = true) as Hall by (vm_compute; reflexivity).
  rewrite forallb_forall in Hall. assert (c ∈ Z.of_nat <$> seq 0 128) as Hc by (apply list_elem_of_fmap; exists (Z.to_nat c); split; [lia|apply elem_of_seq; lia]).
  apply list_elem_of_In, Hall in Hc. rewrite (proj2 (in_range_spec 97 122 _) H) in Hc. cbn [negb orb] in Hc. rewrite andb_true_iff, orb_true_iff, !in_range_spec, Z.eqb_eq in Hc. exact Hc.
Qed.

Lemma letter_lor c : letter c → 97 ≤ Z.lor c 0x20 ≤ 122.
Proof.
  intros H. assert (forallb (λ c, in_range 97 122 (Z.lor c 0x20)) (Z.of_nat <$> seq 65 26 ++ seq 97 26) = true) as Hall by (vm_compute; reflexivity).
  rewrite forallb_forall in Hall. apply in_range_spec, Hall, list_elem_of_In, list_elem_of_fmap. exists (Z.to_nat c). unfold letter in H. split; [lia|]. rewrite elem_of_app, !elem_of_seq. lia.
Qed.

Lemma isASCIILetter_iff c : isASCIILetter c = true ↔ letter c.
Proof. unfold isASCIILetter. rewrite in_range_spec. split; [apply lor_letter|apply letter_lor]. Qed.

(** A text that does not go on with a letter. *)
Definition no_letter (s : list Z) : Prop := match s with c :: _ => ¬ letter c | [] => True end.

Lemma letters_iff s tok tail : letters s = (tok, tail) ↔ s = tok ++ tail ∧ Forall letter tok ∧ no_letter tail.
Proof.
  revert tok. induction s as [|c s IH]; intros tok; cbn [letters].
  - split; [by intros [= <- <-]|]. intros (E & _ & _). symmetry in E. apply app_nil in E as [-> ->]. done.
  - destruct (isASCIILetter c) eqn:Hc.
    + destruct (letters s) as [a r] eqn:E. split.
      * intros [= <- <-]. destruct (proj1 (IH a) eq_refl) as (-> & Ha & Hr). split_and!; [done|constructor; [by apply isASCIILetter_iff|done]|done].
      * intros (E' & Ht & Hn). destruct tok as [|c' tok]; [cbn in E'; subst; cbn in Hn; by apply isASCIILetter_iff in Hc|]. injection E' as <- E'. apply Forall_cons in Ht as [_ Ht].
        pose proof (proj2 (IH tok) (conj E' (conj Ht Hn))) as [= -> ->]. done.
    + assert (¬ letter c) as Hl by (rewrite <- isASCIILetter_iff; by rewrite Hc). split; [intros [= <- <-]; done|]. intros (E' & Ht & Hn).
      destruct tok as [|c' tok]; [cbn in E'; by subst|]. injection E' as <- E'. apply Forall_cons in Ht as [? _]. done.
Qed.

(** [orchestrate] in either case, and what follows it. *)
Lemma strip_word_iff w s r : Forall (λ a, 97 ≤ a ≤ 122) w → strip_word w s = Some r ↔ ∃ kw, s = kw ++ r ∧ asciiLowerBytes kw = w.
Proof.
  intros Hw. revert s. induction Hw as [|a w Ha Hw IH]; intros s.
  - cbn. split; [intros [= ->]; by exists []|]. intros (kw & -> & E). apply fmap_nil_inv in E as ->. done.
  - destruct s as [|b s]; [split; [done|]; intros (kw & E & E'); destruct kw; [done|discriminate E]|]. cbn [strip_word]. destruct (Z.eqb_spec (Z.lor b 0x20) a) as [E|E].
    + rewrite IH. split.
      * intros (kw & -> & Ek). exists (b :: kw). split; [done|]. cbn. f_equal; [|done]. rewrite <- E in Ha |- *. by destruct (lor_letter b Ha).
      * intros (kw & E1 & E2). destruct kw as [|b' kw]; [done|]. injection E1 as <- ->. injection E2 as _ E2. by exists kw.
    + split; [done|]. intros (kw & E1 & E2). destruct kw as [|b' kw]; [done|]. injection E1 as <- ->. injection E2 as E2 _. destruct E. unfold lower_byte in E2.
      assert (letter b) as Hb by (unfold letter; destruct (in_range 65 90 b) eqn:E3; [apply in_range_spec in E3; lia|lia]). apply letter_lor in Hb. apply lor_letter in Hb as [_ ->]. done.
Qed.

Lemma strip_prefix_iff p s r : strip_prefix p s = Some r ↔ s = p ++ r.
Proof.
  revert s. induction p as [|a p IH]; intros s; cbn [strip_prefix app]; [split; [by intros [= ->]|by intros ->]|]. destruct s as [|b s]; [done|].
  destruct (Z.eqb_spec a b) as [->|E]; [rewrite IH; split; [by intros ->|by intros [= ->]]|]. split; [done|]. by intros [= -> _].
Qed.

(** ** The grammar of a command line *)

(** What may stand before the keyword. *)
Definition prefix_text (p : list Z) : Prop :=
  p ∈ [[]; bytes_of_string "$crw:crw-"; bytes_of_string "$crw-"; bytes_of_string "/"] ∨ ∃ sp, spaces sp ∧ sp ≠ [] ∧ p = bytes_of_string "crw" ++ sp.

(** The flag, white space and an opening brace. *)
Definition flagged (rest text : list Z) : Prop := ∃ sp, spaces sp ∧ sp ≠ [] ∧ rest = attestFlag ++ sp ++ text ∧ head text = Some 123.

(** What a braced text says: the attestation, or why there is none. *)
Definition attestation_of (Lower : string → string) (text : list Z) : option Attestation * string :=
  match read_json text with
  | None => (None, errNotJSON)
  | Some v => match Coerce Lower v with None => (None, errNoFromTo) | Some a => (Some a, ""%string) end
  end.

(** What a verb may carry: nothing; or the flag with an object that ends the line. A separator in it is an error of form, and an object that is not closed an error of the attestation. *)
Inductive carries (Lower : string → string) (verb : string) (rest : list Z) : OrchestrateCommand → Prop :=
| ca_bare : rest = [] → carries Lower verb rest (mkCommand verb None None "" "")
| ca_separator text : flagged rest text → has_separator rest = true → carries Lower verb rest (mkCommand verb None None "" ErrCommandSeparator)
| ca_attest text : flagged rest text → has_separator rest = false → braced text →
    carries Lower verb rest (mkCommand verb (Some (string_of_bytes text)) (fst (attestation_of Lower text)) (snd (attestation_of Lower text)) "")
| ca_open text : flagged rest text → has_separator rest = false → (∀ o, braced o → ¬ o `prefix_of` text) → carries Lower verb rest (mkCommand verb None None errNoBalanced "").

(** A line, trimmed: a prefix, the keyword in either case, white space, the verb, and what it carries. *)
Definition command_line (Lower : string → string) (line : list Z) (c : OrchestrateCommand) : Prop :=
  ∃ p kw sp token sp' rest verb, TrimBytes line = p ++ kw ++ sp ++ token ++ sp' ++ rest ∧ prefix_text p ∧ asciiLowerBytes kw = word ∧ spaces sp ∧ sp ≠ [] ∧
    Forall letter token ∧ no_letter (sp' ++ rest) ∧ verbToken token = Some verb ∧ spaces sp' ∧ solid rest ∧ carries Lower verb rest c.

Lemma word_letters : Forall (λ a, 97 ≤ a ≤ 122) word.
Proof.
  assert (forallb (in_range 97 122) word = true) as H by (vm_compute; reflexivity). rewrite forallb_forall in H. apply Forall_forall. intros a Ha. apply in_range_spec, H, list_elem_of_In, Ha.
Qed.

(** The keyword starts with the letter o. *)
Lemma keyword_head kw : asciiLowerBytes kw = word → ∃ c t, kw = c :: t ∧ (c = 79 ∨ c = 111).
Proof.
  intros E. destruct kw as [|c t]; [done|]. exists c, t. split; [done|]. injection E as E _. unfold lower_byte in E. destruct (in_range 65 90 c); [|by right]. change (byte_of_ascii "o") with 111 in E. left. lia.
Qed.

Lemma stripPrefix_split s : Forall is_byte s → ∃ p, prefix_text p ∧ s = p ++ stripPrefix s.
Proof.
  intros Hb. unfold stripPrefix.
  destruct (strip_prefix (bytes_of_string "$crw:crw-") s) as [r|] eqn:E1; [apply strip_prefix_iff in E1; eexists; split; [left|exact E1]; set_solver|].
  destruct (strip_prefix (bytes_of_string "$crw-") s) as [r|] eqn:E2; [apply strip_prefix_iff in E2; eexists; split; [left|exact E2]; set_solver|].
  destruct (strip_prefix (bytes_of_string "/") s) as [r|] eqn:E3; [apply strip_prefix_iff in E3; eexists; split; [left|exact E3]; set_solver|].
  assert (prefix_text []) as Hnil by (left; set_solver).
  destruct (strip_prefix (bytes_of_string "crw") s) as [rest|] eqn:E4; [|by exists []]. case_bool_decide as Et; [by exists []|]. apply strip_prefix_iff in E4.
  assert (Forall is_byte rest) as Hr by (rewrite E4 in Hb; by apply Forall_app in Hb as [_ ?]). destruct (TrimLeft_split rest Hr) as (sp & Hsp & E & _).
  exists (bytes_of_string "crw" ++ sp). split; [|by rewrite <- (assoc_L (++)), <- E].
  right. exists sp. split_and!; [done| |done]. intros ->. by apply Et.
Qed.

Lemma stripPrefix_app p c t : prefix_text p → c = 79 ∨ c = 111 → stripPrefix (p ++ c :: t) = c :: t.
Proof.
  intros Hp Hc. assert (solid (c :: t)) as Hs by (apply solid_ascii; lia). destruct Hp as [Hp|(sp & Hsp & Hne & ->)].
  - rewrite !elem_of_cons, elem_of_nil in Hp. destruct Hp as [->|[->|[->|[->|[]]]]]; cbn; by destruct Hc as [->| ->].
  - unfold stripPrefix. rewrite <- (assoc_L (++)). rewrite (proj2 (strip_prefix_iff (bytes_of_string "crw") _ _) eq_refl).
    do 3 (destruct (strip_prefix _ _) eqn:?; [by rewrite strip_prefix_iff in *|]). rewrite TrimLeft_app by done. rewrite bool_decide_eq_false_2; [done|]. intros E.
    apply (f_equal length) in E. rewrite length_app in E. destruct sp; [done|]. cbn in E. lia.
Qed.

Lemma letter_solid c t : letter c → solid (c :: t).
Proof. intros Hc. apply solid_ascii. unfold letter in Hc. lia. Qed.

Lemma scanCommand_iff s token rest sep : Forall is_byte s →
  scanCommand s = Some (token, rest, sep) ↔
  ∃ kw sp sp', s = kw ++ sp ++ token ++ sp' ++ rest ∧ asciiLowerBytes kw = word ∧ spaces sp ∧ sp ≠ [] ∧ token ≠ [] ∧ Forall letter token ∧ no_letter (sp' ++ rest) ∧ spaces sp' ∧ solid rest ∧ sep = has_separator rest.
Proof.
  intros Hb. unfold scanCommand. split.
  - destruct (strip_word word s) as [after|] eqn:Ew; [|done]. apply (strip_word_iff _ _ _ word_letters) in Ew as (kw & -> & Ek). apply Forall_app in Hb as [_ Hb].
    destruct (TrimLeft_split after Hb) as (sp & Hsp & Esp & Hso). destruct (Nat.eqb_spec (length (TrimLeft after)) (length after)) as [|Hl]; [done|].
    destruct (letters (TrimLeft after)) as [tok tail] eqn:El. apply letters_iff in El as (Et & Htok & Hn). rewrite Esp in Hb. apply Forall_app in Hb as [_ Hb]. rewrite Et in Hb. apply Forall_app in Hb as [_ Hb].
    destruct (TrimLeft_split tail Hb) as (sp' & Hsp' & Esp' & Hso'). destruct tok as [|c tok]; [done|]. intros [= <- <- <-]. exists kw, sp, sp'. rewrite <- Esp', <- Et, <- Esp.
    split_and!; [done|done|done| |done|done|done|done|done|done]. intros ->. apply Hl. cbn [app] in Esp. by rewrite <- Esp.
  - intros (kw & sp & sp' & -> & Ek & Hsp & Hne & Ht & Htok & Hn & Hsp' & Hso & ->).
    rewrite (proj2 (strip_word_iff _ _ _ word_letters) (ex_intro _ kw (conj eq_refl Ek))).
    destruct token as [|c token]; [done|]. assert (letter c) as Hc by (by apply Forall_cons in Htok as [? _]).
    rewrite TrimLeft_app by (done || by apply letter_solid). rewrite (proj2 (Nat.eqb_neq _ _)).
    + rewrite (proj2 (letters_iff _ (c :: token) (sp' ++ rest))) by done. by rewrite TrimLeft_app.
    + rewrite !length_app. destruct sp; [done|]. cbn. lia.
Qed.

(** ** Lines are bytes *)
Lemma trim_left_bytes fuel s : Forall is_byte s → Forall is_byte (trim_left fuel s).
Proof.
  revert s. induction fuel as [|fuel IH]; intros s Hb; [by destruct s|]. destruct s as [|c t]; [done|]. cbn [trim_left]. destruct (decode_rune (c :: t)) as [r n]. destruct (isJSSpace r); [|done].
  by apply IH, Forall_drop.
Qed.

Lemma trim_right_bytes fuel s : Forall is_byte s → Forall is_byte (trim_right fuel s).
Proof.
  revert s. induction fuel as [|fuel IH]; intros s Hb; [by destruct s|]. destruct s as [|c t]; [done|]. cbn [trim_right]. destruct (decode_last_rune (c :: t)) as [r n]. destruct (isJSSpace r); [|done].
  by apply IH, Forall_take.
Qed.

Lemma TrimBytes_bytes s : Forall is_byte s → Forall is_byte (TrimBytes s).
Proof. intros Hb. by apply trim_right_bytes, trim_left_bytes. Qed.

Lemma split_lf_bytes s cur : Forall is_byte s → Forall is_byte cur → Forall (Forall is_byte) (split_lf s cur).
Proof.
  intros Hs. revert cur. induction Hs as [|b s Hb Hs IH]; intros cur Hc; cbn [split_lf]; [by apply Forall_singleton|]. destruct (b =? 10); [constructor; [done|by apply IH]|].
  apply IH, Forall_app. split; [done|by apply Forall_singleton].
Qed.

Lemma trim_cr_bytes l : Forall is_byte l → Forall is_byte (trim_cr l).
Proof.
  intros H. unfold trim_cr. pose proof (Forall_take _ (length l - 1) l H) as Ht. repeat match goal with |- context [match ?x with _ => _ end] => destruct x end; done.
Qed.

Lemma SplitLines_bytes s : Forall is_byte s → Forall (Forall is_byte) (SplitLinesBytes s).
Proof.
  intros Hs. unfold SplitLinesBytes. induction (split_lf_bytes s [] Hs ltac:(constructor)) as [|l lines Hl Hlines IH]; [constructor|]. destruct lines as [|l' lines]; [by constructor|].
  constructor; [by apply trim_cr_bytes|exact IH].
Qed.

(** ** What a verb carries *)
Lemma flagged_text rest : Forall is_byte rest → startsAttest rest = true ↔ ∃ text, flagged rest text.
Proof.
  intros Hb. unfold startsAttest. split.
  - destruct (strip_prefix attestFlag rest) as [r|] eqn:E; [|done]. apply strip_prefix_iff in E as ->. apply Forall_app in Hb as [_ Hb]. intros [Hl Hh]%andb_true_iff.
    destruct (TrimLeft_split r Hb) as (sp & Hsp & Er & _). exists (TrimLeft r), sp. apply Nat.ltb_lt in Hl. rewrite <- Er. split_and!; [done| |done|].
    + intros ->. cbn [app] in Er. rewrite <- Er in Hl. lia.
    + destruct (TrimLeft r) as [|c t]; [done|]. cbn. f_equal. destruct (decide (c = 123)) as [|Hc]; [done|]. repeat (destruct c as [|c|c]; try done).
  - intros (text & sp & Hsp & Hne & -> & Hh). rewrite (proj2 (strip_prefix_iff _ _ _) eq_refl). destruct text as [|c text]; [done|]. injection Hh as ->.
    rewrite TrimLeft_app; [|done|apply solid_ascii; lia]. rewrite andb_true_r, Nat.ltb_lt, length_app. destruct sp; [done|]. cbn. lia.
Qed.

Lemma flagged_flag rest text : flagged rest text → flagIndex rest = Some 0%nat.
Proof.
  intros (sp & Hsp & Hne & -> & _). destruct sp as [|c sp]; [done|]. destruct (spaces_byte _ c Hsp ltac:(left)) as [_ Hc].
  unfold flagIndex. destruct (attestFlag ++ (c :: sp) ++ text) as [|a s] eqn:E; [done|]. rewrite <- E. rewrite (proj2 (strip_prefix_iff _ _ _) eq_refl). cbn [app]. rewrite Hc. done.
Qed.

Lemma index_of_first pre o post : 123 ∉ pre → head o = Some 123 → index_of o (pre ++ o ++ post) = Some (length pre).
Proof.
  intros Hn Ho. destruct o as [|c o]; [done|]. injection Ho as ->. induction pre as [|c pre IH]; cbn [app length].
  - cbn [index_of]. by rewrite (proj2 (strip_prefix_iff (123 :: o) (123 :: o ++ post) post) eq_refl).
  - apply not_elem_of_cons in Hn as [Hc Hn]. cbn [index_of strip_prefix]. rewrite (proj2 (Z.eqb_neq _ _) Hc). cbn [app] in IH. by rewrite IH.
Qed.

Lemma flag_no_brace : 123 ∉ attestFlag.
Proof. rewrite list_elem_of_In. intros H. assert (existsb (Z.eqb 123) attestFlag = true) as E by (apply existsb_exists; exists 123; done). vm_compute in E. discriminate E. Qed.

Lemma braced_head o : braced o → head o = Some 123.
Proof. by intros (b & _ & ->). Qed.

Section command.
Context (Lower : string → string).

(** The tail of a flagged text: the braced text that starts at its brace, or none. *)
Lemma parse_flagged rest text : flagged rest text →
  (∃ o post, braced o ∧ text = o ++ post ∧ parseAttestTail Lower rest = (Some o, fst (attestation_of Lower o), snd (attestation_of Lower o)) ∧
     match index_of o rest with Some i => (i + length o =? length rest)%nat | None => false end = bool_decide (post = [])) ∨
  ((∀ o, braced o → ¬ o `prefix_of` text) ∧ parseAttestTail Lower rest = (None, None, errNoBalanced)).
Proof.
  intros Hf. pose proof (flagged_flag _ _ Hf) as Hi. destruct Hf as (sp & Hsp & Hne & -> & Hh). unfold parseAttestTail. rewrite Hi. cbn [Nat.add]. rewrite drop_app_length.
  assert (123 ∉ sp) as Hn by (intros H; by destruct (spaces_byte _ _ Hsp H)).
  destruct (ExtractBalancedJSON (sp ++ text)) as [o|] eqn:E.
  - left. apply ExtractBalancedJSON_iff in E as (pre & post & E & Hpre & Ho). pose proof (braced_head o Ho) as Hho.
    assert (pre = sp ∧ text = o ++ post) as [-> ->].
    { destruct o as [|c o]; [done|]. injection Hho as ->. destruct text as [|c' text]; [done|]. injection Hh as ->. clear -E Hpre Hn. revert pre E Hpre. induction sp as [|b sp IH]; intros [|b' pre] E Hpre; cbn in E; [by injection E as ->| | |].
      - injection E as <- _. by destruct Hpre; left.
      - injection E as -> _. by destruct Hn; left.
      - injection E as -> E. apply not_elem_of_cons in Hn as [_ Hn], Hpre as [_ Hpre]. by destruct (IH Hn pre E Hpre) as [-> ->]. }
    exists o, post. split_and!; [done|done|unfold attestation_of; destruct (read_json o) as [v|]; [destruct (Coerce Lower v)|]; done|].
    rewrite (assoc_L (++)), index_of_first; [|by rewrite elem_of_app; intros [?%flag_no_brace|?]|done]. rewrite !length_app. apply eq_true_iff_eq. rewrite Nat.eqb_eq, bool_decide_eq_true, <- length_zero_iff_nil. lia.
  - right. split; [|done]. intros o Ho [post ->]. assert (ExtractBalancedJSON (sp ++ o ++ post) = Some o) as E' by (apply ExtractBalancedJSON_iff; by exists sp, post). congruence.
Qed.

Lemma braced_unique o text : braced text → braced o → o `prefix_of` text → o = text.
Proof.
  intros Ht Ho Hp. destruct text as [|c text]; [by apply braced_head in Ht|]. pose proof (braced_head _ Ht) as Hc. injection Hc as ->. pose proof (proj2 (balance_iff text o) (conj Ho Hp)) as E.
  rewrite (proj2 (balance_iff text (123 :: text)) (conj Ht (reflexivity _))) in E. by injection E as <-.
Qed.

(** What the body of the loop answers once the keyword and the verb are read. *)
Lemma carries_iff verb rest c : Forall is_byte rest →
  (if has_separator rest then if startsAttest rest then Some (mkCommand verb None None "" ErrCommandSeparator) else None
   else if bool_decide (rest = []) || startsAttest rest then
     match parseAttestTail Lower rest with
     | (None, att, err) => Some (mkCommand verb None att err "")
     | (Some raw, att, err) =>
       if match index_of raw rest with Some i => (i + length raw =? length rest)%nat | None => false end then Some (mkCommand verb (Some (string_of_bytes raw)) att err "") else None
     end
   else None) = Some c ↔ carries Lower verb rest c.
Proof.
  intros Hb. assert (∀ text, flagged rest text → startsAttest rest = true ∧ rest ≠ []) as Hfl.
  { intros text Hf. split; [by apply flagged_text; [|exists text]|]. destruct Hf as (sp & _ & _ & -> & _). done. }
  split.
  - destruct (has_separator rest) eqn:Es.
    + destruct (startsAttest rest) eqn:Ea; [|done]. intros [= <-]. apply flagged_text in Ea as [text Hf]; [|done]. by apply (ca_separator _ _ _ text).
    + destruct (bool_decide (rest = [])) eqn:Er; cbn [orb].
      * apply bool_decide_eq_true in Er as ->. intros [= <-]. by constructor.
      * destruct (startsAttest rest) eqn:Ea; [|done]. apply flagged_text in Ea as [text Hf]; [|done]. destruct (parse_flagged rest text Hf) as [(o & post & Ho & -> & -> & ->)|[Hno ->]].
        -- destruct (bool_decide_reflect (post = [])) as [Hp|Hp]; [|done]. subst. rewrite app_nil_r in Hf. intros [= <-]. by apply ca_attest.
        -- intros [= <-]. by apply (ca_open _ _ _ text).
  - destruct 1 as [->|text Hf Hs|text Hf Hs Ht|text Hf Hs Hno]; [done|..]; destruct (Hfl _ Hf) as [Ha Hne]; rewrite Hs, Ha; [done|..]; rewrite bool_decide_eq_false_2 by done; cbn [orb].
    + destruct (parse_flagged rest text Hf) as [(o & post & Ho & -> & -> & ->)|[Hno _]]; [|by destruct (Hno text Ht)].
      assert (o = o ++ post) as E by (apply braced_unique; [done|done|by exists post]). apply (f_equal length) in E. rewrite length_app in E. destruct post; [|cbn in E; lia]. by rewrite app_nil_r.
    + destruct (parse_flagged rest text Hf) as [(o & post & Ho & -> & _)|[_ ->]]; [|done]. destruct (Hno o Ho). by exists post.
Qed.

Lemma command_of_iff line c : Forall is_byte (TrimBytes line) → command_of Lower line = Some c ↔ command_line Lower line c.
Proof.
  intros Hb. unfold command_of, command_line. destruct (stripPrefix_split _ Hb) as (p & Hp & Ep). assert (Forall is_byte (stripPrefix (TrimBytes line))) as Hb' by (rewrite Ep in Hb; by apply Forall_app in Hb as [_ ?]).
  split.
  - destruct (scanCommand _) as [[[token rest] sep]|] eqn:E; [|done]. apply scanCommand_iff in E as (kw & sp & sp' & E & Ek & Hsp & Hne & Ht & Htok & Hn & Hsp' & Hso & ->); [|done].
    destruct (verbToken token) as [verb|] eqn:Ev; [|done]. rewrite E in Hb'. rewrite !Forall_app in Hb'. rewrite carries_iff by apply Hb'. intros Hc. rewrite E in Ep. by exists p, kw, sp, token, sp', rest, verb.
  - intros (p' & kw & sp & token & sp' & rest & verb & E & Hp' & Ek & Hsp & Hne & Htok & Hn & Ev & Hsp' & Hso & Hc). rewrite E in Hb |- *. destruct (keyword_head kw Ek) as (c0 & t0 & -> & Hc0).
    change ((c0 :: t0) ++ sp ++ token ++ sp' ++ rest) with (c0 :: t0 ++ sp ++ token ++ sp' ++ rest) in Hb |- *. rewrite stripPrefix_app by done. apply Forall_app in Hb as [_ Hb].
    rewrite (proj2 (scanCommand_iff _ token rest (has_separator rest) Hb)).
    + rewrite Ev. apply carries_iff; [|done]. change (c0 :: t0 ++ sp ++ token ++ sp' ++ rest) with ((c0 :: t0) ++ sp ++ token ++ sp' ++ rest) in Hb. rewrite !Forall_app in Hb. apply Hb.
    + exists (c0 :: t0), sp, sp'. split_and!; try done. by intros ->.
Qed.

Lemma first_command_iff lines c : Forall (Forall is_byte) lines →
  first_command Lower lines = Some c ↔ ∃ before line after, lines = before ++ line :: after ∧ command_line Lower line c ∧ ∀ l c', l ∈ before → ¬ command_line Lower l c'.
Proof.
  induction 1 as [|l lines Hl Hlines IH]; cbn [first_command].
  - split; [done|]. intros ([|] & line & after & E & _); discriminate E.
  - pose proof (λ c, command_of_iff l c (TrimBytes_bytes l Hl)) as Hc. destruct (command_of Lower l) as [c'|].
    + split.
      * intros [= ->]. exists [], l, lines. split_and!; [done|by apply Hc|by intros l' c' ?%elem_of_nil].
      * intros (before & line & after & E & Hcl & Hb). destruct before as [|l0 before]; [injection E as <- <-; by apply Hc|]. injection E as <- _. destruct (Hb l c' ltac:(left)). by apply Hc.
    + rewrite IH. split.
      * intros (before & line & after & -> & Hcl & Hb). exists (l :: before), line, after. split_and!; [done|done|]. intros l' c' [->|Hin]%elem_of_cons; [by intros ?%Hc|by apply Hb].
      * intros (before & line & after & E & Hcl & Hb). destruct before as [|l0 before]; [injection E as <- <-; by apply Hc in Hcl|]. injection E as <- ->. exists before, line, after. split_and!; [done|done|]. intros l' c' Hin. apply Hb. by right.
Qed.

(** C33: the scanner of chat commands is exact. A prompt is read as a command exactly when one of its lines is a command of the grammar, and then as the command of the first such line: an
    optional prefix, the word orchestrate in either case, white space, a known verb, and then either nothing or the flag with a text whose braces match and which ends the line (its attestation is what
    the JSON reader and the coercion make of that text). A line of prose, or one with anything after its object, is never a command; a flagged text with a line separator in it, or one
    that is never closed, is a command with the error that says so. *)
Theorem ParseOrchestrateCommand_iff prompt c :
  ParseOrchestrateCommand Lower prompt = Some c ↔
  ∃ before line after, SplitLinesBytes (bytes_of_string prompt) = before ++ line :: after ∧ command_line Lower line c ∧ ∀ l c', l ∈ before → ¬ command_line Lower l c'.
Proof. apply first_command_iff, SplitLines_bytes, bytes_of_string_bytes. Qed.
End command.

(** * Trimming a trimmed text changes nothing.

    A cut at the right may leave bytes that are not UTF-8 at the end, so the argument is about what a prefix decodes to: white space at its start is white space of the whole. *)
(** A rune that decodes is not changed by the bytes that follow. *)
Lemma decode_rune_app p q r n : decode_rune p = (r, n) → r ≠ rune_error → decode_rune (p ++ q) = (r, n).
Proof.
  destruct p as [|b0 p]; [by intros [= <- <-]|]. cbn [decode_rune app]. destruct (b0 <? 128); [done|].
  destruct (in_range 194 223 b0); [destruct p as [|b1 p]; [by intros [= <- <-]|done]|].
  destruct (in_range 224 239 b0); [destruct p as [|b1 [|b2 p]]; try done; by intros [= <- <-]|].
  destruct (in_range 240 244 b0); [destruct p as [|b1 [|b2 [|b3 p]]]; try done; by intros [= <- <-]|]. by intros [= <- <-].
Qed.

Lemma solid_prefix p s : p `prefix_of` s → solid s → solid p.
Proof.
  intros [q ->] [H|H]; [left; by apply app_eq_nil in H as [-> _]|]. destruct (isJSSpace (fst (decode_rune p))) eqn:E; [|by right].
  destruct (decode_rune p) as [r n] eqn:Ed. destruct (space_scalar r E) as [_ Hne]. by rewrite (decode_rune_app _ _ _ _ Ed Hne), E in H.
Qed.

(** A text that does not end with white space. *)
Definition solid_end (s : list Z) : Prop := s = [] ∨ isJSSpace (fst (decode_last_rune s)) = false.

Lemma decode_last_rune_size s : s ≠ [] → (1 ≤ snd (decode_last_rune s) ≤ length s)%nat.
Proof.
  intros Hs. unfold decode_last_rune. destruct (last s) as [b|] eqn:E; [|by apply last_None in E].
  assert (1 ≤ length s)%nat by (destruct s; [done|simpl; lia]). destruct (b <? 128); [simpl; lia|].
  destruct (decode_rune (drop (length s - start_of_last s) s)) as [r n] eqn:Ed. destruct (n =? start_of_last s)%nat; [|simpl; lia].
  destruct (decide (drop (length s - start_of_last s) s = [])) as [Hn|Hn].
  - apply (f_equal length) in Hn. rewrite length_drop in Hn. assert (1 ≤ start_of_last s)%nat; [|simpl in Hn; lia].
    unfold start_of_last. repeat case_match; lia.
  - pose proof (decode_rune_size _ Hn) as Hsz. rewrite Ed, length_drop in Hsz. simpl in *. lia.
Qed.

Lemma trim_right_spec fuel s : (length s ≤ fuel)%nat → trim_right fuel s `prefix_of` s ∧ solid_end (trim_right fuel s).
Proof.
  revert s. induction fuel as [|fuel IH]; intros s Hf; [destruct s; [split; [done|by left]|simpl in Hf; lia]|].
  destruct s as [|c t]; [split; [done|by left]|]. cbn [trim_right]. pose proof (decode_last_rune_size (c :: t) ltac:(done)) as Hn.
  destruct (decode_last_rune (c :: t)) as [r n] eqn:E. destruct (isJSSpace r) eqn:Hr; [|split; [done|right; by rewrite E]].
  destruct (IH (take (length (c :: t) - n) (c :: t))) as [Hp Hs]; [rewrite length_take; cbn [snd] in Hn; lia|].
  split; [|done]. etrans; [done|]. apply prefix_take.
Qed.

Lemma TrimBytes_idem s : Forall is_byte s → TrimBytes (TrimBytes s) = TrimBytes s.
Proof.
  intros Hb. unfold TrimBytes at 2 3. set (u := trim_left (length s) s). destruct (trim_left_split (length s) s Hb ltac:(done)) as (_ & _ & _ & Hu).
  destruct (trim_right_spec (length u) u ltac:(done)) as [Hp He]. set (t := trim_right (length u) u) in *.
  assert (trim_left (length t) t = t) as Ht by apply (TrimLeft_solid t), (solid_prefix _ _ Hp Hu).
  unfold TrimBytes. rewrite Ht. destruct t as [|c t']; [done|]. destruct He as [|He]; [done|]. cbn [length trim_right].
  destruct (decode_last_rune (c :: t')) as [r n]. simpl in He. by rewrite He.
Qed.

Lemma Trim_idem s : Trim (Trim s) = Trim s.
Proof. unfold Trim. rewrite bytes_of_string_of_bytes; [by rewrite TrimBytes_idem by apply bytes_of_string_bytes|]. apply TrimBytes_bytes, bytes_of_string_bytes. Qed.
