(* ===== verification/MergeStore.v ===== *)
(** * MergeStore: the tables of merge turns and the statements run on them (internal/relay/store/mergeturn_capacity.go, domain_rows.go, relay-sqlite.sql;
    registry/coordination.go for the contests).

    A table is the list of its rows in insertion order, as in [DagStore]. An INSERT or an UPDATE checks the keys and the unique indexes the schema declares on the table
    ([merge_turns_one_live_holder], [merge_turns_one_live_claim], the keys of the ledger) and fails with [Constraint] where one would be violated. *)
From S2P Require Import Prelude GoLib Sha256 Json.
Local Open Scope string_scope.

(** ** Rows *)
Record MergeTurnsRow : Type := mkTurn {
  TurnID : string;
  TargetKey : string;
  Repository : string;
  BaseRef : string;
  ProjectKey : string;
  HolderTaskID : string;
  HolderHostID : string;
  RelationshipID : option string;
  PRNumber : option Z;
  CandidateHead : string;
  DeclaredReady : Z;
  TurnState : string;
  Tenure : Z;
  CheckedBaseSHA : option string;
  LandedSHA : option string;
  ObservedBaseSHA : option string;
  CloseReason : option string;
  RequestedAt : string;
  HeldAt : option string;
  MergingAt : option string;
  ClosedAt : option string;
  UpdatedAt : string
}.

Record MergeTurnLedgerRow : Type := mkEntry {
  EntryID : string;
  EntryTurn : string;
  Kind : string;
  FromState : option string;
  ToState : option string;
  EvidenceKind : string;
  ActorTaskID : string;
  Evidence : string;
  IdempotencyKey : string;
  RecordedAt : string
}.

Record MergeTurnChecksRow : Type := mkCheck {
  CheckID : string;
  CheckTurn : string;
  HeadSHA : string;
  BaseSHA : string;
  Required : string;
  ChecksDigest : string;
  Checks : string;
  ReviewDigest : string;
  Review : string;
  CheckResult : string;
  RefusalReason : option string;
  CheckedAt : string
}.

Record JournalRow : Type := mkJournal { JAt : string; JKind : string; JSubject : string; JDetail : string }.

(** A text for people: literal pieces, and pieces spelled by pyvalue.StrRepr, strconv.Quote, pyvalue.Repr of a list and quote.Shell, which are kept unspelled. *)
Inductive piece : Type :=
| Lit (s : string)
| Rep (s : string)
| Quo (s : string)
| Reps (l : list string)
| Shl (s : string).

Definition text : Type := list piece.

(** registry/coordination.go: a decided refusal, and the row that records it. *)
Record CoordinationRefusal : Type := mkRefusal {
  Reason : string;
  Detail : text;
  Domain : string;
  Subject : string;
  Incumbent : string;
  Challenger : text
}.

Record ConflictRow : Type := mkConflict { ConflictAt : string; Contest : CoordinationRefusal }.

(** A notice handed to the delivery engine. *)
Record Queued : Type := mkQueued { QEvent : string; QRelationship : string; QRecipient : string; QReceipt : string; QSubject : string; QAt : string }.

Record Tables : Type := mkTables {
  t_turns : list MergeTurnsRow;
  t_ledger : list MergeTurnLedgerRow;
  t_checks : list MergeTurnChecksRow;
  t_journal : list JournalRow;
  t_conflicts : list ConflictRow;
  t_queued : list Queued
}.

(** ** The operations of a transaction *)
Inductive MergeError : Type :=
| Refused (reason : string) (detail : text) (* *store.RefusedError *)
| Constraint (index : string)              (* a key or a unique index of the schema *)
| NoRows                                   (* sql.ErrNoRows *)
| NotUTF8
| DeliveryFailed (text : string).

(** What runs inside a transaction: the tables in, a value and the tables out, or an error that rolls back. *)
Definition M (A : Type) : Type := Tables → result MergeError (A * Tables).

#[export] Instance M_ret : MRet M := λ A x st, Ok (x, st).
#[export] Instance M_bind : MBind M := λ A B f m st, match m st with Ok (x, st') => f x st' | Err e => Err e end.
Definition raise {A} (e : MergeError) : M A := λ _, Err e.
Definition get {A} (f : Tables → A) : M A := λ st, Ok (f st, st).

(** [Store.Transaction]: all of it, or nothing. *)
Definition transaction {A} (body : M A) (st : Tables) : Tables * result MergeError A :=
  match body st with Ok (x, st') => (st', Ok x) | Err e => (st, Err e) end.

Definition with_turns (st : Tables) (l : list MergeTurnsRow) : Tables := mkTables l (t_ledger st) (t_checks st) (t_journal st) (t_conflicts st) (t_queued st).
Definition with_ledger (st : Tables) (l : list MergeTurnLedgerRow) : Tables := mkTables (t_turns st) l (t_checks st) (t_journal st) (t_conflicts st) (t_queued st).
Definition with_checks (st : Tables) (l : list MergeTurnChecksRow) : Tables := mkTables (t_turns st) (t_ledger st) l (t_journal st) (t_conflicts st) (t_queued st).
Definition with_journal (st : Tables) (l : list JournalRow) : Tables := mkTables (t_turns st) (t_ledger st) (t_checks st) l (t_conflicts st) (t_queued st).
Definition with_conflicts (st : Tables) (l : list ConflictRow) : Tables := mkTables (t_turns st) (t_ledger st) (t_checks st) (t_journal st) l (t_queued st).
Definition with_queued (st : Tables) (l : list Queued) : Tables := mkTables (t_turns st) (t_ledger st) (t_checks st) (t_journal st) (t_conflicts st) l.

(** ** merge_turns *)
Definition Waiting := "waiting".
Definition Holding := "holding".
Definition Merging := "merging".
Definition Unknown := "unknown".
Definition Passed := "passed".

Definition occupying (state : string) : bool := bool_decide (state ∈ [Holding; Merging; Unknown]).
Definition live (state : string) : bool := bool_decide (state ∈ [Waiting; Holding; Merging; Unknown]).

(** No two rows of the list have the same image where [f] is defined: a unique index over a condition. *)
Fixpoint unique_by {A B} `{EqDecision B} (f : A → option B) (l : list A) : bool :=
  match l with
  | [] => true
  | x :: l' => match f x with None => true | Some k => forallb (λ y, bool_decide (f y ≠ Some k)) l' end && unique_by f l'
  end.

Definition holder_key (r : MergeTurnsRow) : option string := if occupying (TurnState r) then Some (TargetKey r) else None.
Definition claim_key (r : MergeTurnsRow) : option (string * string) := if live (TurnState r) then Some (TargetKey r, HolderTaskID r) else None.

(** The keys of merge_turns, on the rows a statement leaves. *)
Definition turn_constraints (l : list MergeTurnsRow) : option string :=
  if negb (unique_by (Some ∘ TurnID) l) then Some "merge_turns.turn_id"
  else if negb (unique_by holder_key l) then Some "merge_turns_one_live_holder"
  else if negb (unique_by claim_key l) then Some "merge_turns_one_live_claim"
  else None.

Definition write_turns (l : list MergeTurnsRow) : M () := λ st,
  match turn_constraints l with Some index => Err (Constraint index) | None => Ok ((), with_turns st l) end.

Definition InsertMergeTurn (r : MergeTurnsRow) : M () := λ st, write_turns (t_turns st ++ [r])%list st.

(** An UPDATE of the row with the id. *)
Definition update_turn (id : string) (f : MergeTurnsRow → MergeTurnsRow) : M () := λ st,
  write_turns ((λ r, if bool_decide (TurnID r = id) then f r else r) <$> t_turns st) st.

(** The columns an UPDATE of the package sets. *)
Definition set_turn (state : string) (ready : Z) (head : string) (held merging closed landed observed checked reason : option string) (at_ : string) (r : MergeTurnsRow) : MergeTurnsRow :=
  mkTurn (TurnID r) (TargetKey r) (Repository r) (BaseRef r) (ProjectKey r) (HolderTaskID r) (HolderHostID r) (RelationshipID r) (PRNumber r) head ready state (Tenure r)
    checked landed observed reason (RequestedAt r) held merging closed at_.

Definition promoted_row (at_ : string) (r : MergeTurnsRow) : MergeTurnsRow :=
  set_turn Holding (DeclaredReady r) (CandidateHead r) (Some at_) (MergingAt r) (ClosedAt r) (LandedSHA r) (ObservedBaseSHA r) (CheckedBaseSHA r) (CloseReason r) at_ r.
Definition PromoteMergeTurn (id at_ : string) : M () := update_turn id (promoted_row at_).

Definition declared_row (ready : Z) (head state : string) (held : option string) (at_ : string) (r : MergeTurnsRow) : MergeTurnsRow :=
  set_turn state ready head held (MergingAt r) (ClosedAt r) (LandedSHA r) (ObservedBaseSHA r) (CheckedBaseSHA r) (CloseReason r) at_ r.
Definition DeclareMergeReadiness (id : string) (ready : Z) (head state : string) (held : option string) (at_ : string) : M () := update_turn id (declared_row ready head state held at_).

(** [COALESCE(new, old)] *)
Definition coalesce {A} (new old : option A) : option A := match new with Some x => Some x | None => old end.

Definition closed_row (state reason at_ : string) (landed observed : option string) (r : MergeTurnsRow) : MergeTurnsRow :=
  set_turn state (DeclaredReady r) (CandidateHead r) (HeldAt r) (MergingAt r) (Some at_) (coalesce landed (LandedSHA r)) (coalesce observed (ObservedBaseSHA r))
    (CheckedBaseSHA r) (Some reason) at_ r.
Definition CloseMergeTurn (id state reason at_ : string) (landed observed : option string) : M () := update_turn id (closed_row state reason at_ landed observed).

(** check.go: the UPDATE that begins a merge. *)
Definition merging_row (sha at_ : string) (r : MergeTurnsRow) : MergeTurnsRow :=
  set_turn Merging (DeclaredReady r) (CandidateHead r) (HeldAt r) (Some at_) (ClosedAt r) (LandedSHA r) (ObservedBaseSHA r) (Some sha) (CloseReason r) at_ r.
Definition begin_merge (id sha at_ : string) : M () := update_turn id (merging_row sha at_).

(** outcome.go: the UPDATE of [Unknown]. *)
Definition unknown_row (reason at_ : string) (r : MergeTurnsRow) : MergeTurnsRow :=
  set_turn Unknown (DeclaredReady r) (CandidateHead r) (HeldAt r) (MergingAt r) (ClosedAt r) (LandedSHA r) (ObservedBaseSHA r) (CheckedBaseSHA r) (Some reason) at_ r.
Definition mark_unknown (id reason at_ : string) : M () := update_turn id (unknown_row reason at_).

(** restate.go: the UPDATE of [writeRestatement]. *)
Definition restated_row (sha at_ : string) (r : MergeTurnsRow) : MergeTurnsRow :=
  set_turn (TurnState r) (DeclaredReady r) (CandidateHead r) (HeldAt r) (MergingAt r) (ClosedAt r) (LandedSHA r) (Some sha) (CheckedBaseSHA r) (CloseReason r) at_ r.
Definition restate_observed (id sha at_ : string) : M () := update_turn id (restated_row sha at_).

(** ** Queries *)
Definition MergeTurn (id : string) (st : Tables) : option MergeTurnsRow := head (filter (λ r, TurnID r = id) (t_turns st)).

(** ORDER BY requested_at, turn_id *)
Definition by_request (l : list MergeTurnsRow) : list MergeTurnsRow := sort_by RequestedAt (sort_by TurnID l).

Definition MergeTurnsForTarget (target : string) (st : Tables) : list MergeTurnsRow := by_request (filter (λ r, TargetKey r = target) (t_turns st)).

Definition LiveMergeClaim (target holder : string) (st : Tables) : option MergeTurnsRow :=
  head (filter (λ r, TargetKey r = target ∧ HolderTaskID r = holder ∧ live (TurnState r) = true) (t_turns st)).

Definition MergeTargetOccupant (target : string) (st : Tables) : option MergeTurnsRow :=
  head (filter (λ r, TargetKey r = target ∧ occupying (TurnState r) = true) (t_turns st)).

Definition HighestMergeTenure (target holder : string) (st : Tables) : Z :=
  foldr Z.max 0%Z (Tenure <$> filter (λ r, TargetKey r = target ∧ HolderTaskID r = holder) (t_turns st)).

Definition ReadyMergeWaiters (target : string) (st : Tables) : list MergeTurnsRow :=
  by_request (filter (λ r, TargetKey r = target ∧ TurnState r = Waiting ∧ DeclaredReady r = 1%Z) (t_turns st)).

(** ** merge_turn_ledger *)

(** ON CONFLICT (turn_id, idempotency_key) DO NOTHING: a replayed key is one fact. *)
Definition WriteMergeLedger (e : MergeTurnLedgerRow) : M () := λ st,
  if existsb (λ x, bool_decide (EntryTurn x = EntryTurn e ∧ IdempotencyKey x = IdempotencyKey e)) (t_ledger st) then Ok ((), st)
  else if existsb (λ x, bool_decide (EntryID x = EntryID e)) (t_ledger st) then Err (Constraint "merge_turn_ledger.entry_id")
  else Ok ((), with_ledger st (t_ledger st ++ [e])%list).

(** ORDER BY recorded_at, entry_id *)
Definition MergeLedger (turn : string) (st : Tables) : list MergeTurnLedgerRow :=
  sort_by RecordedAt (sort_by EntryID (filter (λ e, EntryTurn e = turn) (t_ledger st))).

Definition MergeLedgerEntry (turn key : string) (st : Tables) : option MergeTurnLedgerRow :=
  head (filter (λ e, EntryTurn e = turn ∧ IdempotencyKey e = key) (t_ledger st)).

(** ** merge_turn_checks, journal, coordination_conflicts *)

(** ON CONFLICT (check_id) DO UPDATE SET result, refusal_reason, recorded_at *)
Definition RecordMergeCheck (c : MergeTurnChecksRow) : M () := λ st,
  if existsb (λ x, bool_decide (CheckID x = CheckID c)) (t_checks st) then
    Ok ((), with_checks st ((λ x, if bool_decide (CheckID x = CheckID c)
      then mkCheck (CheckID x) (CheckTurn x) (HeadSHA x) (BaseSHA x) (Required x) (ChecksDigest x) (Checks x) (ReviewDigest x) (Review x) (CheckResult c) (RefusalReason c) (CheckedAt c)
      else x) <$> t_checks st))
  else Ok ((), with_checks st (t_checks st ++ [c])%list).

Definition add_journal (at_ kind subject detail : string) : M () := λ st, Ok ((), with_journal st (t_journal st ++ [mkJournal at_ kind subject detail])%list).

#[export] Instance piece_eq_dec : EqDecision piece.
Proof. solve_decision. Defined.

Definition same_contest (a b : CoordinationRefusal) : Prop :=
  Domain a = Domain b ∧ Subject a = Subject b ∧ Reason a = Reason b ∧ Incumbent a = Incumbent b ∧ Challenger a = Challenger b.

#[export] Instance same_contest_dec a b : Decision (same_contest a b).
Proof. unfold same_contest. apply _. Defined.

Definition RecordCoordinationConflict (r : CoordinationRefusal) (at_ : string) : M () := λ st,
  if existsb (λ c, bool_decide (same_contest (Contest c) r)) (t_conflicts st) then
    Ok ((), with_conflicts st ((λ c, if bool_decide (same_contest (Contest c) r) then mkConflict at_ r else c) <$> t_conflicts st))
  else Ok ((), with_conflicts st (t_conflicts st ++ [mkConflict at_ r])%list).

Definition add_queued (q : Queued) : M () := λ st, Ok ((), with_queued st (t_queued st ++ [q])%list).

(** The landed turn of a target whose close was journalled last: LEFT JOIN journal ... ORDER BY COALESCE(j.seq, -1) DESC, m.closed_at DESC, m.turn_id DESC LIMIT 1. A turn is
    closed once, so it has at most one such row; [0] stands for no row. *)
Fixpoint close_seq (id : string) (seq : nat) (journal : list JournalRow) : nat :=
  match journal with
  | [] => 0
  | j :: rest => if bool_decide (JSubject j = id ∧ JKind j = "merge_turn_closed") then Nat.max (S seq) (close_seq id (S seq) rest) else close_seq id (S seq) rest
  end.

Definition landing_after (st : Tables) (a b : MergeTurnsRow) : bool :=
  let sa := close_seq (TurnID a) 0 (t_journal st) in
  let sb := close_seq (TurnID b) 0 (t_journal st) in
  if negb (sa =? sb)%nat then (sb <? sa)%nat
  else if negb (bool_decide (ClosedAt a = ClosedAt b)) then String.ltb (default "" (ClosedAt b)) (default "" (ClosedAt a))
  else String.ltb (TurnID b) (TurnID a).

Definition latest_of (st : Tables) (rows : list MergeTurnsRow) : option MergeTurnsRow :=
  foldl (λ best r, match best with None => Some r | Some b => if landing_after st r b then Some r else Some b end) None rows.

Definition latestLanding (target : string) (st : Tables) : option MergeTurnsRow :=
  latest_of st (filter (λ r, TargetKey r = target ∧ TurnState r = "landed" ∧ is_Some (ObservedBaseSHA r)) (t_turns st)).
