(* ===== verification/MergeTurn.v ===== *)
(** * MergeTurn: the parts the operations of merge turns share (internal/relay/mergeturn: mergeturn.go, refusals.go, grant.go, lifecycle.go; registry/coordination.go).

    What other components answer is a [World]: the live owners of a project, the walk above a task, the attachment and the work reports of a relationship, the train a turn is a
    member of, the refusal of a head under correction, and the delivery. An operation takes the world of its own call, so nothing is assumed to stay the same between two calls.
    A decided refusal is recorded as a contest and committed; any other error rolls back. *)
From S2P Require Import Prelude GoLib Sha256 Json Loads GoFloat GoJson GoPath MergeStore.
Local Open Scope string_scope.

(** ** What the other components answer *)
Record Owner : Type := mkOwner { o_role : string; o_task : string; o_status : string }.
Record Level : Type := mkLevel { l_kind : string; l_owner : string }.
Record Walk : Type := mkWalk { w_readable : bool; w_state : string; w_levels : list Level }.
Record CurrentReport : Type := mkReport { rep_head : string; rep_pr : option Z; rep_repository : string }.

(** mergeturn.Delivery: [Channel] answers [inl refused] or [inr event]; [Queue] may fail. *)
Record Delivery : Type := mkDelivery {
  Channel : option string → string → string → string → string + string;
  QueueError : Queued → option string
}.

Record World : Type := mkWorld {
  Owners : string → list Owner;
  Up : string → string → Walk;
  Attachment : string → option string;
  CurrentReports : string → list CurrentReport;
  MergeTrainOfTurn : string → option (string * string);
  underCorrectionRefusal : MergeTurnsRow → option CoordinationRefusal;
  EventKnown : string → bool;
  delivery : option Delivery
}.

(** ** Bodies of transactions *)

(** What the body of a transaction answers: a value, or a refusal whose contest it recorded. *)
Notation Body A := (M (result CoordinationRefusal A)).

Definition refuse {A} (c : CoordinationRefusal) (at_ : string) : Body A := RecordCoordinationConflict c at_;; mret (Err c).
Definition answer {A} (x : A) : Body A := mret (Ok x).

(** [err := s.Store.Transaction(..)], then [if refusal != nil { return nil, refusal.Error() }]. *)
Definition run {A} (body : Body A) (st : Tables) : Tables * result MergeError A :=
  match transaction body st with
  | (st', Ok (Ok x)) => (st', Ok x)
  | (st', Ok (Err c)) => (st', Err (Refused (Reason c) (Detail c)))
  | (st', Err e) => (st', Err e)
  end.

(** [if refusal == nil { refusal = .. }] *)
Definition orelse {A} (a : option A) (b : option A) : option A := match a with Some x => Some x | None => b end.
Notation "a <||> b" := (orelse a b) (at level 60, right associativity).

Definition when (b : bool) (c : CoordinationRefusal) : option CoordinationRefusal := if b then Some c else None.

(** ** Identities *)
Definition key (prefix : string) (fields : list string) : string := prefix +:+ "-" +:+ String.substring 0 32 (sha256_hex (join_sep "|" fields)).
Definition TurnIdentity (target holder : string) (tenure : Z) : string := key "mtn" [target; holder; itoa tenure].
Definition GrantID (turn : string) (tenure sequence : Z) : string := key "mtg" [turn; itoa tenure; itoa sequence].
Definition ledgerID (turn identity : string) : string := key "mte" [turn; identity].
Definition nullable (v : string) : option string := if bool_decide (v = "") then None else Some v.

Definition MergeEvidenceRequired := "merge_evidence_required".
Definition MergeTurnNotHeld := "merge_turn_not_held".
Definition MergeTargetUnreadable := "merge_target_unreadable".
Definition MergeCandidateMoved := "merge_candidate_moved".
Definition MergeCurrencyStale := "merge_currency_stale".
Definition MergeTurnUnresolved := "merge_turn_unresolved".
Definition MergeBaseMismatch := "merge_base_mismatch".
Definition ScopeRoleMismatch := "scope_role_mismatch".
Definition UnregisteredScope := "unregistered_scope".
Definition DispositionConflict := "disposition_conflict".
Definition DomainMergeTarget := "merge_target".

Definition CoordinationExact (v what : string) : result MergeError () :=
  if blank v then Err (Refused UnregisteredScope [Lit (what +:+ " must be a non-empty string, not "); Quo v])
  else if contains v "|" then Err (Refused UnregisteredScope [Lit (what +:+ " must not contain '|', which is the field separator")])
  else Ok ().

(** [store.EncodeUTF8 == nil]: no code point is a surrogate. *)
Fixpoint encodes (fuel : nat) (s : list Z) : bool :=
  match fuel, s with
  | _, [] => true
  | O, _ => false
  | S fuel', _ => let '(r, size) := CodePoint s in negb (IsSurrogate r) && encodes fuel' (drop size s)
  end.

Definition TargetIdentity (repository base : string) : result MergeError string :=
  match CoordinationExact repository "a repository" with
  | Err e => Err e
  | Ok _ =>
    match CoordinationExact base "a base ref" with
    | Err e => Err e
    | Ok _ =>
      let joined := repository +:+ "|" +:+ base in
      if encodes (String.length joined) (bytes_of_string joined) then Ok (key "tgt" [repository; base]) else Err NotUTF8
    end
  end.

(** check.go [pythonJSON]; an [OrderedObject] is the list of its fields in their order. *)
Definition pythonJSON (v : value) : string := Dumps v (mkOptions 0 false false false SurrogateEscapes).
Definition journalOutcome (kind turn : string) (payload : list (string * value)) (at_ : string) : M () := add_journal at_ kind turn (pythonJSON (VMap payload)).

(** ** Refusals *)
Definition coordination (r : MergeTurnsRow) (reason : string) (detail : text) (incumbent challenger : string) : CoordinationRefusal :=
  mkRefusal reason detail DomainMergeTarget (TargetKey r) incumbent [Lit challenger].

Definition notHolder (r : MergeTurnsRow) (actor what : string) : CoordinationRefusal :=
  coordination r MergeTurnNotHeld
    [Lit "task "; Rep actor; Lit " does not hold turn "; Rep (TurnID r); Lit ", which belongs to "; Rep (HolderTaskID r); Lit (", so it cannot " +:+ what +:+ " it")]
    (HolderTaskID r) actor.

Definition wrongState (r : MergeTurnsRow) (actor what : string) : CoordinationRefusal :=
  if bool_decide (TurnState r = Passed) then
    coordination r MergeTurnNotHeld
      [Lit "turn "; Rep (TurnID r); Lit (" was passed on to the next waiter at " +:+ default "" (ClosedAt r) +:+ " and is no longer held by "); Rep (HolderTaskID r);
       Lit (", so it does not admit " +:+ what +:+ " (" +:+ default "" (CloseReason r) +:+ "); claim the target again with merge-turn-request if the candidate is still wanted")]
      (TurnState r) actor
  else coordination r MergeTurnNotHeld [Lit "turn "; Rep (TurnID r); Lit (" is " +:+ TurnState r +:+ ", which does not admit " +:+ what)] (TurnState r) actor.

Definition staleOwner (r : MergeTurnsRow) (owner : string) (known : bool) (actor : string) : CoordinationRefusal :=
  coordination r ScopeRoleMismatch
    [Lit "task "; Rep actor; Lit " no longer owns project "; Rep (ProjectKey r); Lit ", which is held by "; if known then Rep owner else Lit "None";
     Lit "; the project changed hands after this claim was made"] owner actor.

Definition unresolved (r : MergeTurnsRow) (actor : string) : CoordinationRefusal :=
  coordination r MergeTurnUnresolved
    [Lit "turn "; Rep (TurnID r); Lit (" is " +:+ TurnState r +:+ " on target "); Rep (TargetKey r);
     Lit ". Its holder may already have merged, so no amount of waiting and no cancellation releases it. Record the outcome with land or report_unknown, then resolve_unknown with an observation of the target"]
    (HolderTaskID r) actor.

Definition paused (r : MergeTurnsRow) (actor what : string) : CoordinationRefusal :=
  coordination r ScopeRoleMismatch
    [Lit "task "; Rep actor; Lit " owns project "; Rep (ProjectKey r); Lit " with a paused binding, so it keeps turn "; Rep (TurnID r);
     Lit (" and cannot " +:+ what +:+ " under it; resume the binding, or return the turn so a ready peer can proceed")] (HolderTaskID r) actor.

(** refusals.go [row] *)
Definition row (turn : string) : M MergeTurnsRow :=
  found ← get (MergeTurn turn);
  match found with Some r => mret r | None => raise (Refused UnregisteredScope [Lit "no merge turn "; Quo turn]) end.

(** ** The ledger *)
Definition engine_kinds : list string :=
  ["claim"; "close"; "candidate_head_changed"; "took_free_target"; "promoted"; "currency_confirmed"; "outcome_unknown"; "grant"; "grant_acknowledged"; "readiness_declared";
   "readiness_withdrawn"; "landing_base_restated"; "progress_recorded"; "turn_passed"].
Definition engineLedgerKind (kind : string) : bool := bool_decide (kind ∈ engine_kinds).

Definition same_fact (a b : MergeTurnLedgerRow) : Prop :=
  Kind a = Kind b ∧ FromState a = FromState b ∧ ToState a = ToState b ∧ EvidenceKind a = EvidenceKind b ∧ ActorTaskID a = ActorTaskID b ∧ Evidence a = Evidence b.

#[export] Instance same_fact_dec a b : Decision (same_fact a b).
Proof. unfold same_fact. apply _. Defined.

Definition ledger (id kind from to evidence actor body identity at_ : string) : M () :=
  let wanted := mkEntry (ledgerID id identity) id kind (nullable from) (nullable to) evidence actor body identity at_ in
  WriteMergeLedger wanted;;
  if negb (engineLedgerKind evidence) then mret ()
  else
    found ← get (MergeLedgerEntry id identity);
    match found with
    | None => raise NoRows
    | Some seen =>
      if bool_decide (same_fact seen wanted) then mret ()
      else raise (Refused MergeEvidenceRequired
        [Lit "turn "; Quo id; Lit " already holds "; Quo identity; Lit " as "; Quo (EvidenceKind seen); Lit " by "; Quo (ActorTaskID seen); Lit ", so recording "; Quo evidence;
         Lit " under it would be discarded without anything saying so; this ledger is inconsistent and the operation is rolled back rather than half written"])
    end.

Definition count_kind (kinds : list string) (entries : list MergeTurnLedgerRow) : Z := Z.of_nat (length (filter (λ e, EvidenceKind e ∈ kinds) entries)).

(** ** Grants *)
Definition grant_fields (r : MergeTurnsRow) (id : string) (sequence : Z) (source : string) (wake : list (string * value)) : list (string * value) :=
  map_of ([("kind", VString "merge_turn_grant"); ("grantId", VString id); ("turnId", VString (TurnID r)); ("tenure", VInt (Tenure r)); ("sequence", VInt sequence);
           ("targetKey", VString (TargetKey r)); ("repository", VString (Repository r)); ("baseRef", VString (BaseRef r)); ("recipientTaskId", VString (HolderTaskID r));
           ("candidateHead", VString (CandidateHead r)); ("grantedFrom", VString source)] ++ wake)%list.

(** [Delivery.Queue] *)
Definition queue (d : Delivery) (q : Queued) : M () := match QueueError d q with Some e => raise (DeliveryFailed e) | None => add_queued q end.

Definition grant (w : World) (r : MergeTurnsRow) (source at_ : string) : M () :=
  entries ← get (MergeLedger (TurnID r));
  let sequence := (1 + count_kind ["grant"] entries)%Z in
  let id := GrantID (TurnID r) (Tenure r) sequence in
  let channel := if bool_decide (source = "promotion") then d ← delivery w; Some (d, Channel d (RelationshipID r) (HolderTaskID r) id (ProjectKey r)) else None in
  match channel with
  | Some (_, inl refused) =>
    journalOutcome "merge_turn_wake_unaddressed" (TurnID r) [("grantId", VString id); ("recipientTaskId", VString (HolderTaskID r)); ("reason", VString refused)] at_
  | _ => mret ()
  end;;
  let wake := match channel with
              | Some (_, inr event) => [("wake", VMap [("eventId", VString event)])]
              | Some (_, inl refused) => [("wake", VMap [("refused", VString refused)])]
              | None => []
              end in
  let evidence := canonical (VMap (grant_fields r id sequence source wake)) in
  ledger (TurnID r) "attestation" (TurnState r) "" "grant" (HolderTaskID r) evidence ("grant:" +:+ id) at_;;
  match channel with
  | Some (d, inr event) =>
    queue d (mkQueued event (default "" (RelationshipID r)) (HolderTaskID r) evidence id at_);;
    journalOutcome "merge_turn_wake_queued" (TurnID r) [("grantId", VString id); ("eventId", VString event); ("recipientTaskId", VString (HolderTaskID r))] at_
  | _ => mret ()
  end.

Definition text_field (g : list (string * value)) (name : string) : option string :=
  match map_get g name with Some (VString s) => if bool_decide (s = "") then None else Some s | _ => None end.

(** [g[name] == text] *)
Definition field_is (g : list (string * value)) (name text : string) : bool := match map_get g name with Some (VString s) => bool_decide (s = text) | _ => false end.

Definition number_field (g : list (string * value)) (name : string) : option string := match map_get g name with Some (VNumber t) => Some t | _ => None end.

Definition finite (f : float64) : bool := match f with Fin _ => true | _ => false end.

(** [recognizedGrant]: the fields of a grant this engine wrote for the turn and the tenure. *)
Definition recognizedGrant (entry : MergeTurnLedgerRow) (turn : string) (tenure : Z) : option (list (string * value)) :=
  if negb (bool_decide (EvidenceKind entry = "grant")) then None
  else
    g ← envelope (Evidence entry);
    number ← number_field g "sequence";
    if has_point (bytes_of_string number) then None
    else
      seq ← parse_int64 (bytes_of_string number);
      stated ← number_field g "tenure";
      if negb (field_is g "turnId" turn) then None
      else if negb (finite (parse_float stated) && feq (parse_float stated) (float_of_int tenure)) then None
      else
        let id := GrantID turn tenure seq in
        if negb (field_is g "grantId" id && bool_decide (IdempotencyKey entry = "grant:" +:+ id)) then None
        else _ ← text_field g "recipientTaskId"; _ ← text_field g "candidateHead"; Some g.

Definition grantSequence (g : list (string * value)) : Z := default 0%Z (t ← number_field g "sequence"; parse_int64 (bytes_of_string t)).
Definition grant_id_of (g : list (string * value)) : string := default "" (text_field g "grantId").

(** [currentGrant]: the newest recognised grant, or [""]. *)
Definition current_step (turn : string) (tenure : Z) (acc : string * Z) (entry : MergeTurnLedgerRow) : string * Z :=
  match recognizedGrant entry turn tenure with
  | Some g => if bool_decide (acc.1 = "") || (acc.2 <? grantSequence g)%Z then (grant_id_of g, grantSequence g) else acc
  | None => acc
  end.
Definition currentGrant (turn : string) (tenure : Z) (st : Tables) : string := (foldl (current_step turn tenure) ("", 0%Z) (MergeLedger turn st)).1.

Definition unansweredGrant (r : MergeTurnsRow) (actor : string) (st : Tables) : option CoordinationRefusal :=
  let current := currentGrant (TurnID r) (Tenure r) st in
  if bool_decide (current = "") then None
  else match MergeLedgerEntry (TurnID r) ("grant_acknowledged:" +:+ current) st with
       | Some _ => None
       | None => Some (coordination r MergeTurnNotHeld
           [Lit "turn "; Rep (TurnID r); Lit " was granted "; Rep current;
            Lit (" and has not acknowledged it, so nothing records that this candidate was re-checked against the store rather than against what its holder remembers. Acknowledge the grant with merge-turn-acknowledge --turn "
                 +:+ TurnID r +:+ " --actor " +:+ actor +:+ " --grant " +:+ current +:+ " --evidence <what you read>, then check again")] current actor)
       end.

(** ** Owners *)
Definition parents (w : World) (project : string) : list string := o_task <$> filter (λ o, o_role o = "parent") (Owners w project).

Definition ownership (w : World) (project subject actor : string) : CoordinationRefusal + string :=
  match parents w project with
  | [] => inl (mkRefusal UnregisteredScope [Lit "project "; Rep project; Lit " has no registered 자식, so nobody can claim a merge turn for it"] DomainMergeTarget subject "" [Lit actor])
  | [owner] => inr owner
  | owners =>
    let sorted := sort_strings owners in
    inl (mkRefusal "duplicate_scope_owner"
      ([Lit "project "; Rep project; Lit " has more than one live 자식 ("] ++
       tail (sorted ≫= λ task, [Lit ", "; Rep task]) ++
       [Lit "), so there is no owner to hold a merge turn under; repair the store rather than letting one of them win"])%list
      DomainMergeTarget subject (default "" (head sorted)) [Lit actor])
  end.

Definition ownerStatus (w : World) (project : string) : string :=
  match o_status <$> filter (λ o, o_role o = "parent") (Owners w project) with [status] => status | _ => "" end.

(** The loop of [Request] and [Ready] over every owner of a project. *)
Definition any_paused (w : World) (project : string) : bool := existsb (λ o, negb (bool_decide (o_status o = "active"))) (Owners w project).

(** [refusal = other; if refusal == nil && owner != actor { refusal = staleOwner(..) }] *)
Definition not_owner (w : World) (r : MergeTurnsRow) (actor : string) : option CoordinationRefusal :=
  match ownership w (ProjectKey r) (TargetKey r) actor with
  | inl other => Some other
  | inr owner => when (negb (bool_decide (owner = actor))) (staleOwner r owner true actor)
  end.

Definition owner_paused (w : World) (r : MergeTurnsRow) (actor what : string) : option CoordinationRefusal :=
  when (negb (bool_decide (ownerStatus w (ProjectKey r) = "active"))) (paused r actor what).

(** [withheld]: why a claim would not be promoted, or [""]. *)
Definition withheld (w : World) (project holder : string) : string :=
  if negb (bool_decide (parents w project = [holder])) then "not_the_project_owner"
  else if negb (bool_decide (ownerStatus w project = "active")) then "owner_paused" else "".

Definition supervisorOf (w : World) (project : string) : string :=
  match parents w project with
  | [parent] =>
    let walk := Up w parent project in
    if negb (w_readable walk) || bool_decide (w_state walk = "ambiguous") then ""
    else match filter (λ l, l_kind l = "initiative") (w_levels walk) with l :: _ => l_owner l | [] => "" end
  | _ => ""
  end.

Definition supervisor_text (supervisor : string) : text :=
  if bool_decide (supervisor = "") then [Lit ", and that project has no readable 부모"] else [Lit ", which is "; Rep supervisor].

Definition authority (w : World) (r : MergeTurnsRow) (actor what : string) : option CoordinationRefusal :=
  if bool_decide (actor = HolderTaskID r) then None
  else
    let supervisor := supervisorOf w (ProjectKey r) in
    if negb (bool_decide (supervisor = "")) && bool_decide (actor = supervisor) then None
    else Some (mkRefusal ScopeRoleMismatch
      ([Lit "task "; Rep actor; Lit " is neither the holder of turn "; Rep (TurnID r); Lit " nor the 부모 above project "; Rep (ProjectKey r)] ++ supervisor_text supervisor ++
       [Lit (", so it cannot " +:+ what)])%list DomainMergeTarget (TargetKey r) (HolderTaskID r) [Lit actor]).

(** ** Closing a turn and giving the target on *)
Definition closeWith (r : MergeTurnsRow) (state reason actor at_ : string) (landed observed : option string) : M () :=
  CloseMergeTurn (TurnID r) state reason at_ landed observed;;
  ledger (TurnID r) "transition" (TurnState r) state "close" actor reason ("close:" +:+ state) at_;;
  journalOutcome "merge_turn_closed" (TurnID r) [("state", VString state); ("reason", VString reason); ("actor", VString actor)] at_.

Definition close (r : MergeTurnsRow) (state reason actor at_ : string) : M () := closeWith r state reason actor at_ None None.

(** A row whose state, or whose head, the code changed in its copy. *)
Definition as_state (r : MergeTurnsRow) (state head : string) : MergeTurnsRow :=
  set_turn state (DeclaredReady r) head (HeldAt r) (MergingAt r) (ClosedAt r) (LandedSHA r) (ObservedBaseSHA r) (CheckedBaseSHA r) (CloseReason r) (UpdatedAt r) r.

Definition take_over (w : World) (candidate : MergeTurnsRow) (at_ : string) : M () :=
  PromoteMergeTurn (TurnID candidate) at_;;
  ledger (TurnID candidate) "transition" Waiting Holding "promoted" (HolderTaskID candidate) "promoted when the target was released" ("promote:" +:+ itoa (Tenure candidate)) at_;;
  grant w (as_state candidate Holding (CandidateHead candidate)) "promotion" at_.

(** Why a waiting claim has lost its standing: its project has no single owner, or another one. *)
Definition stale_claim (w : World) (target : string) (candidate : MergeTurnsRow) : option CoordinationRefusal :=
  match ownership w (ProjectKey candidate) target (HolderTaskID candidate) with
  | inl refusal => Some refusal
  | inr owner => when (negb (bool_decide (owner = HolderTaskID candidate))) (staleOwner candidate owner true (HolderTaskID candidate))
  end.

Fixpoint promote_loop (w : World) (target at_ : string) (waiters : list MergeTurnsRow) : M string :=
  match waiters with
  | [] => mret ""
  | candidate :: rest =>
    match stale_claim w target candidate with
    | None =>
      if negb (bool_decide (ownerStatus w (ProjectKey candidate) = "active")) then promote_loop w target at_ rest
      else take_over w candidate at_;; mret (TurnID candidate)
    | Some refusal =>
      close candidate "withdrawn" ("withdrawn at promotion: " +:+ Reason refusal) (HolderTaskID candidate) at_;;
      RecordCoordinationConflict refusal at_;;
      promote_loop w target at_ rest
    end
  end.

Definition promote (w : World) (target at_ : string) : M string :=
  waiters ← get (ReadyMergeWaiters target);
  promote_loop w target at_ waiters.
