(* ===== verification/MergeHead.v ===== *)
(** * MergeHead: comparing a stated head with what a turn is bound to (internal/relay/mergeturn: pullhead.go, headreset.go, target.go; commitid).

    A turn that records a pull request on a forge repository is compared with the forge, and only with it; any other turn that records a pull request or a relationship is
    compared with the work reports of its relationship. Lower case outside ASCII follows the tables of Go's package unicode, which are a parameter ([UnicodeLower]). *)
From S2P Require Import Prelude GoLib Sha256 Json Loads Utf8 GoPath MergeStore MergeTurn.
Local Open Scope string_scope.

(** unicode.ToLower of a character outside ASCII. *)
Class UnicodeLower : Type := unicode_lower : Z → Z.

Fixpoint drop_space (rs : list Z) : list Z := match rs with r :: rest => if is_space r then drop_space rest else rs | [] => [] end.
Definition trim_space (rs : list Z) : list Z := reverse (drop_space (reverse (drop_space rs))).

Section compare.
Context `{UnicodeLower}.

Definition lower_char (r : Z) : Z := if in_range 65 90 r then (r + 32)%Z else if (r <? 128)%Z then r else unicode_lower r.

(** [strings.ToLower(strings.TrimSpace(s))] *)
Definition CommitText (s : string) : string := string_of_bytes (encode_runes (lower_char <$> trim_space (runes (bytes_of_string s)))).

(** commitid.Same *)
Definition SameCommit (a b : string) : bool := negb (bool_decide (CommitText a = "")) && bool_decide (CommitText a = CommitText b).

(** ** Repositories *)
Definition alnum (c : ascii) : bool := let b := byte_of_ascii c in in_range 48 57 b || in_range 65 90 b || in_range 97 122 b.

(** [^[A-Za-z0-9][A-Za-z0-9-]{0,38}/[A-Za-z0-9._-]{1,100}$] *)
Definition slug (s : string) : bool :=
  match split_on slash s with
  | [String c owner; name] =>
    alnum c && forallb (λ x, alnum x || bool_decide (x = "-"%char)) (String.list_ascii_of_string owner) && (String.length owner <=? 38)%nat &&
    forallb (λ x, alnum x || bool_decide (x ∈ ["."; "_"; "-"]%char)) (String.list_ascii_of_string name) && (1 <=? String.length name)%nat && (String.length name <=? 100)%nat
  | _ => false
  end.

Definition forgeRepository (repository : string) : bool := negb (has_prefix repository "/") && slug repository.

(** [strings.EqualFold(s, t)] for an ASCII [t]: U+017F and U+212A fold to the letters s and k. *)
Definition fold_char (r : Z) : Z := if in_range 65 90 r then (r + 32)%Z else if (r =? 0x17f)%Z then 115%Z else if (r =? 0x212a)%Z then 107%Z else r.
Definition EqualFold (s t : string) : bool := bool_decide (fold_char <$> runes (bytes_of_string s) = fold_char <$> runes (bytes_of_string t)).

(** ** Reading the pull request *)

(** A pull request reader: why it could not read, or the head and its source. *)
Definition PullReader : Type := string → Z → text + (string * string).

Record pullRequestRead : Type := mkRead { forHead : string; candidate : string; reading : text + (string * string) }.

Definition pr_of (r : MergeTurnsRow) : Z := default 0%Z (PRNumber r).

Definition readPullRequest (pulls : PullReader) (r : MergeTurnsRow) (head : string) : pullRequestRead :=
  mkRead head (CandidateHead r) (pulls (Repository r) (pr_of r)).

(** The [pullRequestHead] of an answer. *)
Inductive Decided : Type :=
| ByForge (pr : Z) (head source : string)
| ByReport (pr : option Z) (head relationship : string).

(** [strings.TrimSuffix(verb, "s")] *)
Definition verbOf (verb : string) : string :=
  let n := (String.length verb - 1)%nat in if bool_decide (String.substring n 1 verb = "s") then String.substring 0 n verb else verb.

Definition headCompareRelationship (r : MergeTurnsRow) : string := default "" (RelationshipID r).
Definition headCompareRecorded (r : MergeTurnsRow) : bool := bool_decide (is_Some (PRNumber r)) || negb (bool_decide (headCompareRelationship r = "")).
Definition headCompareForge (r : MergeTurnsRow) : bool := bool_decide (is_Some (PRNumber r)) && forgeRepository (Repository r).

Definition headCompareNothing (r : MergeTurnsRow) (actor verb : string) (why : text) : CoordinationRefusal :=
  coordination r MergeTargetUnreadable
    ([Lit ("the head this call " +:+ verb +:+ " for turn "); Rep (TurnID r); Lit " cannot be compared with anything: "] ++ why ++
     [Lit ". A head is compared with the pull request of a forge repository (owner/name) or with the work report of the assignment the turn names; claim with --pr on a forge repository, or with --relationship and retry after a work report records the head"])%list
    (TurnID r) actor.

Definition pullRequestVerdict (r : MergeTurnsRow) (actor verb head : string) (read : option pullRequestRead) : CoordinationRefusal + Decided :=
  let number := itoa (pr_of r) in
  let unread (why : text) := coordination r MergeTargetUnreadable
    ([Lit ("the head of pull request " +:+ number +:+ " of " +:+ Repository r +:+ " was not read, so the head this call " +:+ verb +:+ " for turn "); Rep (TurnID r);
      Lit " cannot be compared with it: "] ++ why)%list (TurnID r) actor in
  if negb (forgeRepository (Repository r)) then
    inl (headCompareNothing r actor verb [Lit ("pull request " +:+ number +:+ " is recorded on "); Rep (Repository r); Lit ", which is not an owner/name forge repository"])
  else match read with
  | None => inl (unread [Lit "the turn changed during the call before the pull request was read for this head; call again"])
  | Some p =>
    if negb (bool_decide (forHead p = head)) || negb (bool_decide (candidate p = CandidateHead r)) then
      inl (unread [Lit "the turn changed during the call before the pull request was read for this head; call again"])
    else match reading p with
    | inl failed => inl (unread (failed ++ [Lit "; call again once the forge answers"])%list)
    | inr (sha, source) =>
      if negb (SameCommit sha head) then
        inl (coordination r MergeCandidateMoved
          [Lit "turn "; Rep (TurnID r); Lit (" is bound to pull request " +:+ number +:+ " of " +:+ Repository r +:+ ", which reads head "); Rep sha;
           Lit (" on the forge (" +:+ source +:+ "), and this call " +:+ verb +:+ " head "); Rep head;
           Lit (" for it. A head that is not the pull request's head is another candidate, so it was not taken. If the branch was just refreshed, read the pull request again and "
                +:+ verbOf verb +:+ " the head it shows; for another pull request, ask for its own turn after this one lands or is returned")] sha head)
      else inr (ByForge (pr_of r) sha source)
    end
  end.

(** ** Work reports *)
Definition headCompareScope (w : World) (r : MergeTurnsRow) (actor : string) : option CoordinationRefusal :=
  let rid := headCompareRelationship r in
  match Attachment w rid with
  | Some project =>
    when (negb (bool_decide (project = ProjectKey r)))
      (mkRefusal "foreign_scope" [Lit "relationship "; Rep rid; Lit " belongs to project "; Rep project; Lit ", not "; Rep (ProjectKey r)] DomainMergeTarget (TargetKey r) "" [Lit actor])
  | None => None
  end.

(** [slices.Compact] *)
Fixpoint compact (l : list string) : list string :=
  match l with x :: ((y :: _) as rest) => if bool_decide (x = y) then compact rest else x :: compact rest | _ => l end.

Definition headCompareDistinctHeads (reports : list CurrentReport) : list string :=
  compact (sort_strings (filter (λ h, h ≠ "") ((λ rep, CommitText (rep_head rep)) <$> reports))).

Definition headCompareReportRefusal (r : MergeTurnsRow) (actor verb head : string) (heads : list string) : option CoordinationRefusal :=
  let rid := headCompareRelationship r in
  let first := default "" (hd_error heads) in
  when (1 <? length heads)%nat
    (mkRefusal "revision_ambiguous" [Lit "relationship "; Rep rid; Lit " has work reports naming "; Reps heads; Lit "; which one this candidate is cannot be read off them"]
       DomainMergeTarget (TargetKey r) first [Lit head]) <||>
  when (negb (SameCommit first head))
    (mkRefusal MergeCandidateMoved [Lit "the work report for "; Rep rid; Lit " names head "; Rep first; Lit (" and this " +:+ verb +:+ " "); Rep head]
       DomainMergeTarget (TargetKey r) first [Lit head]).

(** What a report says the head is the head of, where that is not what the turn is bound to. *)
Definition other_identity (r : MergeTurnsRow) (rep : CurrentReport) : option text :=
  let repository := if forgeRepository (Repository r) && negb (bool_decide (rep_repository rep = "")) && negb (EqualFold (rep_repository rep) (Repository r))
                    then Some [Lit "repository "; Rep (rep_repository rep); Lit ", and turn "; Rep (TurnID r); Lit " is bound to "; Rep (Repository r)] else None in
  match PRNumber r, rep_pr rep with
  | Some n, Some m =>
    if negb (bool_decide (m = n)) then Some [Lit ("pull request " +:+ itoa m +:+ ", and turn "); Rep (TurnID r); Lit (" is bound to pull request " +:+ itoa n)] else repository
  | _, _ => repository
  end.

Fixpoint headCompareReportIdentityRefusal (r : MergeTurnsRow) (actor verb head : string) (reports : list CurrentReport) : option CoordinationRefusal :=
  match reports with
  | [] => None
  | rep :: rest =>
    match (if SameCommit (rep_head rep) head then other_identity r rep else None) with
    | None => headCompareReportIdentityRefusal r actor verb head rest
    | Some other => Some (mkRefusal MergeCandidateMoved
        ([Lit "the work report for "; Rep (headCompareRelationship r); Lit " names head "; Rep (CommitText (rep_head rep)); Lit " for "] ++ other ++
         [Lit (", so the head this call " +:+ verb +:+ " is another pull request's; ask for the turn of the pull request the report names, or " +:+ verbOf verb
               +:+ " the head of the pull request this turn is bound to")])%list
        DomainMergeTarget (TargetKey r) (rep_head rep) [Lit head])
    end
  end.

Definition headCompareWorkReportVerdict (w : World) (r : MergeTurnsRow) (actor verb head : string) : CoordinationRefusal + Decided :=
  let rid := headCompareRelationship r in
  let reports := CurrentReports w rid in
  let heads := headCompareDistinctHeads reports in
  match headCompareScope w r actor <||>
        when (bool_decide (heads = [])) (headCompareNothing r actor verb [Lit "relationship "; Rep rid; Lit " has no work report that names a head"]) <||>
        headCompareReportRefusal r actor verb head heads <||> headCompareReportIdentityRefusal r actor verb head reports with
  | Some c => inl c
  | None => inr (ByReport (PRNumber r) (default "" (hd_error heads)) rid)
  end.

Definition headCompareVerdict (w : World) (r : MergeTurnsRow) (actor verb head : string) (read : option pullRequestRead) (pulls : option PullReader) :
    CoordinationRefusal + option Decided :=
  if negb (headCompareRecorded r) then inr None
  else if headCompareForge r then
    match pulls with
    | None => inl (headCompareNothing r actor verb
        [Lit ("this service has no pull request head reader for recorded pull request " +:+ itoa (pr_of r) +:+ " of " +:+ Repository r
              +:+ "; supply a pull request head reader and call again")])
    | Some _ => match pullRequestVerdict r actor verb head read with inl c => inl c | inr d => inr (Some d) end
    end
  else if negb (bool_decide (headCompareRelationship r = "")) then
    match headCompareWorkReportVerdict w r actor verb head with inl c => inl c | inr d => inr (Some d) end
  else inl (headCompareNothing r actor verb
    [Lit ("pull request " +:+ itoa (pr_of r) +:+ " is recorded on "); Rep (Repository r);
     Lit ", which is not an owner/name forge repository, so its head cannot be read from the forge, and the turn records no relationship whose work report could name it"]).

(** check.go [relationshipRefusal]: the refusal, or the head the reports name, if they name one. *)
Definition relationshipRefusal (w : World) (r : MergeTurnsRow) (actor head : string) : CoordinationRefusal + option string :=
  let heads := headCompareDistinctHeads (CurrentReports w (default "" (RelationshipID r))) in
  match headCompareScope w r actor <||> (if bool_decide (heads = []) then None else headCompareReportRefusal r actor "restates" head heads) with
  | Some c => inl c
  | None => inr (hd_error heads)
  end.
End compare.

(** ** Restated heads (headreset.go) *)
Record headReset : Type := mkReset { reset_from : string; reset_to : string; readyAsked : bool; reset_grant : string }.

Definition reset_detail (h : headReset) (turn actor : string) : string :=
  "restating the candidate head from " +:+ reset_from h +:+ " to " +:+ reset_to h +:+ " resets readiness" +:+
  (if readyAsked h then ", so the --ready given with it was not recorded" else "") +:+ ". Next: " +:+
  (if bool_decide (reset_grant h = "") then ""
   else "acknowledge grant " +:+ reset_grant h +:+ " with merge-turn-acknowledge --turn " +:+ turn +:+ " --actor " +:+ actor +:+ " --grant " +:+ reset_grant h +:+ " --evidence <what you read>; ") +:+
  "once " +:+ reset_to h +:+ "'s checks have finished, declare readiness with merge-turn-ready --turn " +:+ turn +:+ " --actor " +:+ actor +:+ " --head " +:+ reset_to h +:+ " --ready".

Definition restateCommand (turn actor head : string) : string :=
  "merge-turn-ready --turn " +:+ turn +:+ " --actor " +:+ actor +:+ " --head " +:+ head +:+ " --not-ready (it resets readiness and, on a holding turn, issues a grant to acknowledge)".

Definition notReadyStep (turn actor candidate stated : string) : text :=
  if bool_decide (stated = candidate) then
    [Lit ("once its checks have finished, declare it with merge-turn-ready --turn " +:+ turn +:+ " --actor " +:+ actor +:+ " --head " +:+ candidate +:+ " --ready (restating a head resets readiness)")]
  else [Lit "this check states "; Rep stated; Lit (", which is not that head: declare the head you mean with " +:+ restateCommand turn actor stated +:+ ", then follow its answer")].
