(* ===== verification/MergeOps.v ===== *)
(** * MergeOps: claiming, declaring, releasing and passing on a merge turn (internal/relay/mergeturn: mergeturn.go, livepull.go, lifecycle.go, progress.go, pass.go,
    returnrequest.go).

    An operation is one transaction on the tables: the guards in the order of the code, then every write. It answers what the code computes besides the printed reading of the
    turn. What the code reads before the transaction is an argument ([read] of [Ready]), since another call may commit in between. *)
From S2P Require Import Prelude GoLib Sha256 Json Loads GoJson GoPath GoTime MergeStore MergeTurn MergeHead.
Local Open Scope string_scope.

(** [if _, err := registry.CoordinationExact(..); err != nil { return nil, err }], over several fields. *)
Fixpoint exact_all (fields : list (string * string)) : result MergeError () :=
  match fields with
  | [] => Ok ()
  | (v, what) :: rest => match CoordinationExact v what with Err e => Err e | Ok _ => exact_all rest end
  end.

(** ** Another request of the holder of a live claim (livepull.go) *)
Definition named (relationship : option string) : option string := r ← relationship; nullable r.

Definition compareClaim (live : MergeTurnsRow) (pr : option Z) (relationship : option string) : list string * list string :=
  let '(c1, u1) := match pr, PRNumber live with
                   | None, _ => ([], [])
                   | Some _, None => ([], ["pull request"])
                   | Some n, Some m => if bool_decide (m = n) then ([], []) else (["pull request"], [])
                   end in
  let '(c2, u2) := match named relationship, named (RelationshipID live) with
                   | None, _ => ([], [])
                   | Some _, None => ([], ["relationship"])
                   | Some a, Some b => if bool_decide (b = a) then ([], []) else (["relationship"], [])
                   end in
  ((c1 ++ c2)%list, (u1 ++ u2)%list).

Definition requestIsLiveClaim (live : MergeTurnsRow) (pr : option Z) (relationship : option string) : bool :=
  bool_decide (compareClaim live pr relationship = ([], [])).

(** The index of the first turn of the list with the id. *)
Fixpoint place_of (id : string) (rows : list MergeTurnsRow) : option nat :=
  match rows with [] => None | r :: rest => if bool_decide (TurnID r = id) then Some 0 else S <$> place_of id rest end.

Definition livePlace (live : MergeTurnsRow) (st : Tables) : nat * nat :=
  let rows := MergeTurnsForTarget (TargetKey live) st in
  let order := (filter (λ r, occupying (TurnState r) = true) rows ++ filter (λ r, TurnState r = Waiting) rows)%list in
  (match place_of (TurnID live) order with Some i => S i | None => 0 end, length order).

Definition identityText (pr : option Z) (relationship : option string) (extra : text) : text :=
  let parens (l : list text) : text :=
    match l with
    | [] => []
    | first :: rest => ([Lit " ("] ++ first ++ (rest ≫= λ d, Lit ", " :: d) ++ [Lit ")"])%list
    end in
  let extras := match extra with [] => [] | _ => [extra] end in
  match pr, named relationship with
  | Some n, Some r => Lit ("pull request " +:+ itoa n) :: parens ([Lit "relationship "; Rep r] :: extras)
  | Some n, None => Lit ("pull request " +:+ itoa n) :: parens extras
  | None, Some r => Lit "relationship " :: Rep r :: parens extras
  | None, None => Lit "no pull request or relationship" :: parens extras
  end.

Definition claimedWith (live : MergeTurnsRow) : text :=
  match PRNumber live, named (RelationshipID live) with
  | Some n, Some r => [Lit ("--pr " +:+ itoa n); Lit " "; Lit "--relationship "; Rep r]
  | Some n, None => [Lit ("--pr " +:+ itoa n); Lit " and no --relationship"]
  | None, Some r => [Lit "--relationship "; Rep r; Lit " and no --pr"]
  | None, None => [Lit "neither --pr nor --relationship"]
  end.

Definition otherPullRequestRefusal (live : MergeTurnsRow) (pr : option Z) (relationship : option string) (actor : string) (st : Tables) : CoordinationRefusal :=
  let '(place, total) := livePlace live st in
  let next := if bool_decide (TurnState live = Waiting) then "withdraw it with merge-turn-withdraw"
              else if bool_decide (TurnState live = Merging) then "land it with merge-turn-land"
              else if bool_decide (TurnState live = Unknown) then "resolve it with merge-turn-resolve"
              else "return it with merge-turn-release" in
  let '(contradicted, unrecorded) := compareClaim live pr relationship in
  let because := if bool_decide (contradicted = []) then
      "The turn does not record the " +:+ join_sep " and the " unrecorded
      +:+ " this request names, so the request cannot be confirmed as a repeat of it, and a matching commit does not settle that because two pull requests can point at one commit; it is not answered with the turn"
    else "A 자식 holds one turn per target and a request for another pull request is not answered with the turn it already has" in
  mkRefusal DispositionConflict
    ([Lit "task "; Rep actor; Lit " already has the live merge turn "; Rep (TurnID live); Lit (" on this target: it is " +:+ TurnState live +:+ " at place " +:+ itoa_nat place +:+ " of "
      +:+ itoa_nat total +:+ " (the claims that hold the target first, then the waiting ones in the order they were made), bound to ")] ++
     identityText (PRNumber live) (RelationshipID live) [Lit "candidate head "; Rep (CandidateHead live)] ++ [Lit ", and this request names "] ++ identityText pr relationship [] ++
     [Lit (". " +:+ because +:+ ". Nothing was recorded for this request. To repeat this claim, repeat the request with the arguments the claim was made with (its identity arguments: ")] ++
     claimedWith live ++
     [Lit ("); that does not add or change the identities it records. To request a turn with other or additional identities, " +:+ next +:+ ", then request it with those identities.")])%list
    DomainMergeTarget (TargetKey live) (TurnID live) (identityText pr relationship []).

(** ** Request *)
Definition requested (w : World) (target repository base project holder host head_ : string) (ready : bool) (pr : option Z) (relationship : option string) (at_ : string)
    (st : Tables) : MergeTurnsRow :=
  let tenure := (HighestMergeTenure target holder st + 1)%Z in
  let state := if bool_decide (is_Some (MergeTargetOccupant target st)) || any_paused w project then Waiting else Holding in
  mkTurn (TurnIdentity target holder tenure) target repository base project holder host relationship pr head_ (if ready then 1 else 0) state tenure None None None None at_
    (if bool_decide (state = Waiting) then None else nullable at_) None None at_.

(** The new claim: its row, its entry, and its grant when it holds the target at once. *)
Definition claim (w : World) (r : MergeTurnsRow) (at_ : string) : Body (string * bool) :=
  InsertMergeTurn r;;
  ledger (TurnID r) "transition" "" (TurnState r) "claim" (HolderTaskID r) ("requested " +:+ Repository r +:+ " " +:+ BaseRef r) ("request:" +:+ itoa (Tenure r)) at_;;
  (if bool_decide (TurnState r = Holding) then grant w r "claim" at_ else mret ());;
  journalOutcome "merge_turn_requested" (TurnID r) [("targetKey", VString (TargetKey r)); ("state", VString (TurnState r)); ("holder", VString (HolderTaskID r))] at_;;
  answer (TurnID r, false).

Definition Request_body (w : World) (target repository base project holder host head_ : string) (ready : bool) (pr : option Z) (relationship : option string) (at_ : string) :
    Body (string * bool) :=
  let refusal := match ownership w project target holder with
                 | inl c => Some c
                 | inr owner => when (negb (bool_decide (owner = holder)))
                     (mkRefusal ScopeRoleMismatch
                       [Lit "task "; Rep holder; Lit " is not the registered 자식 of project "; Rep project; Lit ", which is held by "; Rep owner;
                        Lit "; holding a merge turn is the project 자식's, and saying it is your turn is not being its 자식"] DomainMergeTarget target owner [Lit holder])
                 end in
  match refusal with
  | Some c => refuse c at_
  | None =>
    live ← get (LiveMergeClaim target holder);
    match live with
    | Some own =>
      if requestIsLiveClaim own pr relationship then answer (TurnID own, true)
      else c ← get (otherPullRequestRefusal own pr relationship holder); refuse c at_
    | None =>
      r ← get (requested w target repository base project holder host head_ ready pr relationship at_);
      claim w r at_
    end
  end.

Definition Request (w : World) (repository base project holder host head_ : string) (ready : bool) (pr : option Z) (relationship : option string) (at_ : string) (st : Tables) :
    Tables * result MergeError (string * bool) :=
  match TargetIdentity repository base with
  | Err e => (st, Err e)
  | Ok target =>
    match exact_all [(project, "a project key"); (holder, "a task id"); (host, "a host id"); (head_, "a candidate head")] with
    | Err e => (st, Err e)
    | Ok _ => run (Request_body w target repository base project holder host head_ ready pr relationship at_) st
    end
  end.

(** ** Attest *)
Definition reserved_prefixes : list string :=
  ["request:"; "close:"; "head:"; "take:"; "promote:"; "merging:"; "unknown:"; "ready:"; "grant:"; "grant_acknowledged:"; "restate-base:"; "progress:"; "pass:"].

Definition squatted (kind identity : string) : option text :=
  if engineLedgerKind kind then Some [Lit "evidence kind "; Quo kind]
  else match filter (λ p, has_prefix identity p = true) reserved_prefixes with
       | prefix :: _ => Some [Lit "idempotency key "; Quo identity; Lit ", which is in the "; Quo prefix; Lit " namespace"]
       | [] => None
       end.

Definition Attest_body (turn kind identity actor evidence at_ : string) : Body () :=
  r ← row turn;
  match CoordinationExact kind "an evidence kind" with
  | Err e => raise e
  | Ok _ => ledger turn "attestation" (TurnState r) "" kind actor evidence identity at_;; answer ()
  end.

Definition Attest (turn kind identity actor evidence at_ : string) (st : Tables) : Tables * result MergeError () :=
  match squatted kind identity with
  | Some what => (st, Err (Refused MergeEvidenceRequired
      (what ++ [Lit " belongs to the merge turn itself. Attesting is for facts that reached a turn from outside it, such as a transport accepting a message; the turn's own transitions, grants and acknowledgements are written by the operations that cause them"])%list))
  | None => run (Attest_body turn kind identity actor evidence at_) st
  end.

(** ** Acknowledge *)
Definition Acknowledge_body (w : World) (turn actor grant_ evidence at_ : string) : Body () :=
  r ← row turn;
  current ← get (currentGrant turn (Tenure r));
  match (if negb (bool_decide (HolderTaskID r = actor)) then Some (notHolder r actor "acknowledge a grant on")
         else if negb (bool_decide (TurnState r = Holding)) then Some (wrongState r actor "acknowledging a grant")
         else if bool_decide (current = "") then Some (coordination r MergeTurnNotHeld
             [Lit "turn "; Rep turn; Lit " records no grant, so there is nothing here to acknowledge; a claim made before grants were recorded has none and needs none"] (HolderTaskID r) actor)
         else when (negb (bool_decide (grant_ = current))) (coordination r MergeTurnNotHeld
             [Lit "grant "; Rep grant_; Lit (" is not the grant for tenure " +:+ itoa (Tenure r) +:+ " of turn "); Rep turn; Lit ", which is "; Rep current;
              Lit "; the grant you read was returned before you acted on it"] current grant_)) <||>
        not_owner w r actor <||> owner_paused w r actor "act on a grant" with
  | Some c => refuse c at_
  | None => ledger turn "attestation" (TurnState r) "" "grant_acknowledged" actor evidence ("grant_acknowledged:" +:+ current) at_;; answer ()
  end.

Definition Acknowledge (w : World) (turn actor grant_ evidence at_ : string) (st : Tables) : Tables * result MergeError () :=
  if blank evidence then
    (st, Err (Refused MergeEvidenceRequired [Lit "acknowledging a grant states what was read; a bare acknowledgement is exactly the remembered message this replaces"]))
  else match CoordinationExact grant_ "a grant id" with
       | Err e => (st, Err e)
       | Ok _ => run (Acknowledge_body w turn actor grant_ evidence at_) st
       end.

(** ** Release and Withdraw *)
Definition Release_body (w : World) (turn actor disposition reason evidence at_ : string) : Body string :=
  r ← row turn;
  match (if bool_decide (TurnState r = Merging) || bool_decide (TurnState r = Unknown) then Some (unresolved r actor)
         else if bool_decide (TurnState r = Waiting) then Some (wrongState r actor "release; a waiting claim is withdrawn")
         else if negb (bool_decide (TurnState r = Holding)) then Some (wrongState r actor "release")
         else if bool_decide (disposition = "returned") && negb (bool_decide (HolderTaskID r = actor)) then Some (notHolder r actor "return")
         else if bool_decide (disposition = "cancelled") then authority w r actor "take the turn away" else None) with
  | Some c => refuse c at_
  | None =>
    close r disposition (if bool_decide (disposition = "cancelled") then reason +:+ "; " +:+ evidence else reason) actor at_;;
    promoted ← promote w (TargetKey r) at_;
    answer promoted
  end.

Definition Release (w : World) (turn actor disposition reason evidence at_ : string) (st : Tables) : Tables * result MergeError string :=
  if negb (bool_decide (disposition = "returned")) && negb (bool_decide (disposition = "cancelled")) then
    (st, Err (Refused "link_not_active" [Lit "a disposition is returned or cancelled, not "; Quo disposition; Lit "; a landing is recorded with land, not chosen here"]))
  else if blank reason then (st, Err (Refused MergeEvidenceRequired [Lit "a release states why"]))
  else if bool_decide (disposition = "cancelled") && blank evidence then
    (st, Err (Refused MergeEvidenceRequired [Lit "taking a turn away from its holder requires evidence, because the holder is not the one saying it is finished"]))
  else run (Release_body w turn actor disposition reason evidence at_) st.

Definition Withdraw_body (turn actor at_ : string) : Body () :=
  r ← row turn;
  match when (negb (bool_decide (HolderTaskID r = actor))) (notHolder r actor "withdraw") <||>
        when (negb (bool_decide (TurnState r = Waiting))) (wrongState r actor "withdraw") with
  | Some c => refuse c at_
  | None => close r "withdrawn" "withdrawn by its claimant" actor at_;; answer ()
  end.

Definition Withdraw (turn actor at_ : string) (st : Tables) : Tables * result MergeError () := run (Withdraw_body turn actor at_) st.

(** ** Ready *)
Section ready.
Context `{UnicodeLower}.

(** What [Ready] reads before its transaction, on the row it saw then. *)
Definition ready_read (pulls : option PullReader) (early : option MergeTurnsRow) (actor : string) (ready : bool) (stated : string) : option pullRequestRead :=
  reader ← pulls;
  r ← early;
  if (negb (bool_decide (stated = "")) || ready) && headCompareForge r && bool_decide (HolderTaskID r = actor) &&
     (bool_decide (TurnState r = Waiting) || bool_decide (TurnState r = Holding))
  then
    let meant := if bool_decide (stated = "") then CandidateHead r else stated in
    if negb (bool_decide (meant = CandidateHead r)) || ready then Some (readPullRequest reader r meant) else None
  else None.

Record ReadyAnswer : Type := mkReady { ready_blocked : option (string * option string); ready_reset : option headReset; ready_decided : option Decided }.

(** A head that moved: its entry and, on a holding turn, its own grant. *)
Definition move_head (w : World) (r : MergeTurnsRow) (actor head_ at_ : string) : M string :=
  ledger (TurnID r) "transition" (TurnState r) (TurnState r) "candidate_head_changed" actor (CandidateHead r +:+ " -> " +:+ head_) ("head:" +:+ head_) at_;;
  if bool_decide (TurnState r = Holding) then
    grant w (as_state r (TurnState r) head_) "candidate_restated" at_;;
    get (currentGrant (TurnID r) (Tenure r))
  else mret "".

(** A readiness that changed: its entry. *)
Definition record_readiness (r : MergeTurnsRow) (actor head_ cause : string) (moved : bool) (flag : Z) (at_ : string) : M () :=
  if bool_decide (flag = DeclaredReady r) then mret ()
  else
    entries ← get (MergeLedger (TurnID r));
    let sequence := (1 + count_kind ["readiness_declared"; "readiness_withdrawn"] entries)%Z in
    let kind := if bool_decide (flag = 1%Z) then "readiness_declared" else "readiness_withdrawn" in
    let body := if negb (bool_decide (cause = "")) then cause else if moved then "the head moved to " +:+ head_
                else if bool_decide (flag = 1%Z) then "declared ready on " +:+ head_ else "readiness withdrawn on " +:+ head_ in
    ledger (TurnID r) "transition" (TurnState r) (TurnState r) kind actor body ("ready:" +:+ itoa (Tenure r) +:+ ":" +:+ itoa sequence) at_.

(** A waiting claim declared ready takes a free target: what blocks it, the state and the time it holds since. *)
Definition take_free (w : World) (r : MergeTurnsRow) (actor head_ : string) (flag : Z) (at_ : string) : M (option (string * option string) * string * option string) :=
  if negb (bool_decide (TurnState r = Waiting) && bool_decide (flag = 1%Z)) then mret (None, TurnState r, HeldAt r)
  else
    occupant ← get (MergeTargetOccupant (TargetKey r));
    match occupant with
    | Some o => mret (Some (TurnState o, Some (TurnID o)), TurnState r, HeldAt r)
    | None =>
      if any_paused w (ProjectKey r) then mret (Some ("owner_paused", None), TurnState r, HeldAt r)
      else
        ledger (TurnID r) "transition" Waiting Holding "took_free_target" actor "declared ready while the target was free" ("take:" +:+ itoa (Tenure r)) at_;;
        grant w (as_state r Holding head_) "late_ready" at_;;
        mret (None, Holding, nullable at_)
    end.

Definition Ready_body (w : World) (pulls : option PullReader) (read : option pullRequestRead) (turn actor : string) (ready : bool) (stated cause at_ : string) : Body ReadyAnswer :=
  r ← row turn;
  match (if negb (bool_decide (HolderTaskID r = actor)) then Some (notHolder r actor "declare readiness on")
         else when (negb (bool_decide (TurnState r = Waiting)) && negb (bool_decide (TurnState r = Holding))) (wrongState r actor "declare readiness on")) <||>
        not_owner w r actor with
  | Some c => refuse c at_
  | None =>
    let head_ := if bool_decide (stated = "") then CandidateHead r else stated in
    let moved := negb (bool_decide (head_ = CandidateHead r)) in
    match (if moved || ready then headCompareVerdict w r actor "declares" head_ read pulls else inr None) with
    | inl c => refuse c at_
    | inr decided =>
      let flag := if ready && negb moved then 1%Z else 0%Z in
      granted ← if moved then move_head w r actor head_ at_ else mret "";
      record_readiness r actor head_ cause moved flag at_;;
      '(blocked, state, held) ← take_free w r actor head_ flag at_;
      DeclareMergeReadiness turn flag head_ state held at_;;
      answer (mkReady blocked (if moved then Some (mkReset (CandidateHead r) head_ ready granted) else None) decided)
    end
  end.

Definition Ready (w : World) (pulls : option PullReader) (early : option MergeTurnsRow) (turn actor : string) (ready : bool) (stated cause at_ : string) (st : Tables) :
    Tables * result MergeError ReadyAnswer :=
  run (Ready_body w pulls (ready_read pulls early actor ready stated) turn actor ready stated cause at_) st.
End ready.

(** ** Progress *)
Definition LongestCISeconds : Z := 900.
Definition HoldingMarginSeconds : Z := 300.
Definition HoldingLimitSeconds : Z := (LongestCISeconds + HoldingMarginSeconds)%Z.
Definition ProgressSteps : list string := ["base_refresh"; "ci_started"; "ci_polled"; "ci_result"; "merge_attempt"].

Record signOfLife : Type := mkSign { SignKind : string; SignStep : string; SignSequence : Z; SignAt : string }.

Definition signRank (kind : string) : nat :=
  if bool_decide (kind = "progress_recorded") then 2
  else if bool_decide (kind ∈ ["grant_acknowledged"; "candidate_head_changed"; "readiness_declared"; "readiness_withdrawn"; "currency_confirmed"]) then 1 else 0.

Definition beats (a b : signOfLife) : bool :=
  if negb (bool_decide (SignAt a = SignAt b)) then String.ltb (SignAt b) (SignAt a)
  else if negb (signRank (SignKind a) =? signRank (SignKind b))%nat then (signRank (SignKind b) <? signRank (SignKind a))%nat
  else (SignSequence b <? SignSequence a)%Z.

Definition describe (a : signOfLife) : string := if bool_decide (SignStep a = "") then SignKind a else SignStep a.

Definition progressBody (turn step evidence : string) (sequence : Z) : string :=
  canonical (VMap (map_of [("evidence", VString evidence); ("sequence", VInt sequence); ("step", VString step); ("turnId", VString turn)])).

(** [progressEntry], on the texts [progressBody] writes: the fields of the struct by their names; [text_field] answers nothing for an empty step, which is refused. *)
Definition progressEntry (evidence : string) : option (string * Z) :=
  g ← decode evidence; step ← text_field g "step"; t ← number_field g "sequence"; n ← parse_int64 (bytes_of_string t); Some (step, n).

Definition sign_of (e : MergeTurnLedgerRow) : signOfLife :=
  let '(step, sequence) := if bool_decide (EvidenceKind e = "progress_recorded") then default ("", 0%Z) (progressEntry (Evidence e)) else ("", 0%Z) in
  mkSign (EvidenceKind e) step sequence (RecordedAt e).

Definition sign_step (r : MergeTurnsRow) (best : signOfLife) (e : MergeTurnLedgerRow) : signOfLife :=
  if (signRank (EvidenceKind e) =? 0)%nat || negb (bool_decide (ActorTaskID e = HolderTaskID r)) then best
  else if beats (sign_of e) best then sign_of e else best.

Definition lastSignOfLife (r : MergeTurnsRow) (entries : list MergeTurnLedgerRow) : signOfLife :=
  foldl (sign_step r) (mkSign "held" "" 0 (default (RequestedAt r) (HeldAt r))) entries.

Record stall : Type := mkStall { Last : signOfLife; Readable : bool; ElapsedSeconds : Z; StallsAt : string; Stalled : bool }.

Definition stallOf (r : MergeTurnsRow) (entries : list MergeTurnLedgerRow) (now : string) : stall :=
  let sign := lastSignOfLife r entries in
  match parse_iso (SignAt sign), parse_iso now with
  | Some last, Some current =>
    let elapsed := Z.max 0 (Z.quot (Sub current last) 1000000000) in
    mkStall sign true elapsed (ISO (add_seconds last HoldingLimitSeconds))
      ((bool_decide (TurnState r = Holding) || bool_decide (TurnState r = Merging)) && (HoldingLimitSeconds <=? elapsed)%Z)
  | _, _ => mkStall sign false 0 "" false
  end.

Definition Progress_body (w : World) (turn actor step evidence at_ : string) : Body Z :=
  r ← row turn;
  match (if negb (bool_decide (HolderTaskID r = actor)) then Some (notHolder r actor "record progress on")
         else when (negb (bool_decide (TurnState r = Holding)) && negb (bool_decide (TurnState r = Merging))) (wrongState r actor "recording progress")) <||>
        not_owner w r actor <||> owner_paused w r actor "record progress" with
  | Some c => refuse c at_
  | None =>
    entries ← get (MergeLedger turn);
    let sequence := (1 + count_kind ["progress_recorded"] entries)%Z in
    ledger turn "attestation" (TurnState r) "" "progress_recorded" actor (progressBody turn step evidence sequence) ("progress:" +:+ itoa sequence) at_;;
    answer sequence
  end.

Definition Progress (w : World) (turn actor step evidence at_ : string) (st : Tables) : Tables * result MergeError Z :=
  if bool_decide (step ∈ ProgressSteps) then run (Progress_body w turn actor step evidence at_) st
  else (st, Err (Refused MergeEvidenceRequired [Lit ("a progress record names the step it records, one of " +:+ join_sep ", " ProgressSteps +:+ ", not "); Quo step])).

(** ** Pass *)
Definition may_pass (w : World) (r : MergeTurnsRow) (actor : string) (claims : list MergeTurnsRow) : bool :=
  existsb (λ claim, bool_decide (TurnState claim = Waiting) && bool_decide (HolderTaskID claim = actor) &&
    match ownership w (ProjectKey claim) (TargetKey r) actor with inr owner => bool_decide (owner = actor) | inl _ => false end) claims.

Definition passRefusal (w : World) (r : MergeTurnsRow) (actor : string) (st : Tables) : option CoordinationRefusal :=
  let supervisor := supervisorOf w (ProjectKey r) in
  if negb (bool_decide (supervisor = "")) && bool_decide (actor = supervisor) then None
  else if may_pass w r actor (MergeTurnsForTarget (TargetKey r) st) then None
  else Some (coordination r ScopeRoleMismatch
    ([Lit "task "; Rep actor; Lit " is neither the 부모 above project "; Rep (ProjectKey r)] ++ supervisor_text supervisor ++
     [Lit " nor the 자식 of a waiting claim on target "; Rep (TargetKey r); Lit " that still owns its project, so it cannot pass turn "; Rep (TurnID r); Lit " on"])%list (HolderTaskID r) actor).

Definition notStalled (r : MergeTurnsRow) (turn actor : string) (silence : stall) : option CoordinationRefusal :=
  let limit := itoa HoldingLimitSeconds in
  if negb (Readable silence) then Some (coordination r MergeTurnNotHeld
    [Lit "turn "; Rep turn; Lit " is holding but its last progress time "; Rep (SignAt (Last silence));
     Lit (" cannot be read, so it cannot be judged stalled against the holding limit of " +:+ limit +:+ " s and is not passed on")] (HolderTaskID r) actor)
  else when (negb (Stalled silence)) (coordination r MergeTurnNotHeld
    [Lit "turn "; Rep turn; Lit " is holding and its holder "; Rep (HolderTaskID r);
     Lit (" last made progress at " +:+ SignAt (Last silence) +:+ " (" +:+ describe (Last silence) +:+ "), " +:+ itoa (ElapsedSeconds silence) +:+ " s ago; the holding limit is " +:+ limit
          +:+ " s, so the turn is not stalled and is not passed on before " +:+ StallsAt silence)] (HolderTaskID r) actor).

Definition passed_fields (r : MergeTurnsRow) (turn actor evidence : string) (silence : stall) : list (string * value) :=
  let orNone (v : option string) := match v with Some s => VString s | None => VNull end in
  map_of [("candidateHead", VString (CandidateHead r)); ("elapsedSeconds", VInt (ElapsedSeconds silence)); ("evidence", VString evidence); ("heldAt", orNone (HeldAt r));
          ("holder", VString (HolderTaskID r)); ("lastProgressAt", VString (SignAt (Last silence))); ("lastProgressKind", VString (SignKind (Last silence)));
          ("lastProgressStep", orNone (nullable (SignStep (Last silence)))); ("limitSeconds", VInt HoldingLimitSeconds); ("passedBy", VString actor); ("turnId", VString turn)].

Definition pass_reason (actor evidence : string) (silence : stall) : string :=
  "passed on to the next waiter by " +:+ actor +:+ " after " +:+ itoa (ElapsedSeconds silence) +:+ " s without progress (holding limit " +:+ itoa HoldingLimitSeconds +:+ " s; last progress "
  +:+ describe (Last silence) +:+ " at " +:+ SignAt (Last silence) +:+ "): " +:+ evidence.

Definition Pass_body (w : World) (turn actor evidence at_ : string) : Body string :=
  r ← row turn;
  refused ← get (λ st,
    (if bool_decide (TurnState r = Merging) || bool_decide (TurnState r = Unknown) then Some (unresolved r actor)
     else when (negb (bool_decide (TurnState r = Holding))) (wrongState r actor "being passed on")) <||>
    passRefusal w r actor st <||> notStalled r turn actor (stallOf r (MergeLedger turn st) at_));
  match refused with
  | Some c => refuse c at_
  | None =>
    silence ← get (λ st, stallOf r (MergeLedger turn st) at_);
    ledger turn "attestation" Holding "" "turn_passed" actor (canonical (VMap (passed_fields r turn actor evidence silence))) ("pass:" +:+ itoa (Tenure r)) at_;;
    close r Passed (pass_reason actor evidence silence) actor at_;;
    promoted ← promote w (TargetKey r) at_;
    answer promoted
  end.

Definition Pass (w : World) (turn actor evidence at_ : string) (st : Tables) : Tables * result MergeError string :=
  if blank evidence then (st, Err (Refused MergeEvidenceRequired
    [Lit "passing a turn on states what was observed: it takes the target from a holder that did not release it, so the reason is the record of why"]))
  else run (Pass_body w turn actor evidence at_) st.

(** ** RequestReturn *)
Definition ReturnRequestKind := "merge_turn_return_request".
Definition ReturnRequestID (turn requester : string) : string := key "mtr" [turn; requester].

(** delivery.go [GrantEventID] *)
Definition GrantEventID (relationship grant_ : string) : string := String.substring 0 32 (sha256_hex (relationship +:+ "|" +:+ grant_ +:+ "|merge_turn_grant|null|null")).

Inductive Notice : Type :=
| NotSent (reason : string)
| NoticeQueued (event request : string)
| Unaddressed (reason request : string).

Definition return_receipt (r : MergeTurnsRow) (request actor stated event : string) : string :=
  canonical (VMap (map_of [("kind", VString ReturnRequestKind); ("requestId", VString request); ("turnId", VString (TurnID r)); ("tenure", VInt (Tenure r));
    ("targetKey", VString (TargetKey r)); ("repository", VString (Repository r)); ("baseRef", VString (BaseRef r)); ("recipientTaskId", VString (HolderTaskID r));
    ("candidateHead", VString (CandidateHead r)); ("requestedBy", VString actor); ("evidence", VString stated); ("holdingLimitSeconds", VInt HoldingLimitSeconds);
    ("wake", VMap [("eventId", VString event)])])).

Definition RequestReturn_body (w : World) (turn actor evidence at_ : string) : Body Notice :=
  r ← row turn;
  let identity := "return_requested:" +:+ actor in
  prior ← get (MergeLedgerEntry turn identity);
  let stated := match prior with Some e => Evidence e | None => evidence end in
  ledger turn "attestation" (TurnState r) "" "return_requested" actor stated identity at_;;
  if negb (occupying (TurnState r)) then
    answer (NotSent ("turn " +:+ TurnID r +:+ " is " +:+ TurnState r +:+ ", so it holds nothing to give back and nobody is woken"))
  else
    let request := ReturnRequestID turn actor in
    let existing := rid ← named (RelationshipID r); let event := GrantEventID rid request in if EventKnown w event then Some event else None in
    match existing with
    | Some event => answer (NoticeQueued event request)
    | None =>
      match delivery w with
      | None =>
        (if bool_decide (is_Some prior) then mret ()
         else journalOutcome "merge_turn_wake_unaddressed" turn
           [("requestId", VString request); ("recipientTaskId", VString (HolderTaskID r)); ("reason", VString "no delivery channel is configured")] at_);;
        answer (Unaddressed "no delivery channel is configured" request)
      | Some d =>
        match Channel d (RelationshipID r) (HolderTaskID r) request (ProjectKey r) with
        | inl refused =>
          (if bool_decide (is_Some prior) then mret ()
           else journalOutcome "merge_turn_wake_unaddressed" turn [("requestId", VString request); ("recipientTaskId", VString (HolderTaskID r)); ("reason", VString refused)] at_);;
          answer (Unaddressed refused request)
        | inr event =>
          queue d (mkQueued event (default "" (RelationshipID r)) (HolderTaskID r) (return_receipt r request actor stated event) request at_);;
          journalOutcome "merge_turn_wake_queued" turn [("requestId", VString request); ("eventId", VString event); ("recipientTaskId", VString (HolderTaskID r))] at_;;
          answer (NoticeQueued event request)
        end
      end
    end.

Definition RequestReturn (w : World) (turn actor evidence at_ : string) (st : Tables) : Tables * result MergeError Notice := run (RequestReturn_body w turn actor evidence at_) st.
