(* ===== verification/MergeLand.v ===== *)
(** * MergeLand: checking a candidate, landing it, and the outcomes that are not known (internal/relay/mergeturn: check.go, outcome.go, restate.go, movement.go, refusals.go,
    target.go).

    The forge and the git repository are read before the transaction, on the row seen then; the readings are arguments, so that a row or a landing that changed in between is
    covered. The judgements on restated checks and reviews are those of package evidence ([EvidencePackage]). *)
From S2P Require Import Prelude GoLib Sha256 Json Loads Utf8 GoJson GoPath JsText MergeStore MergeTurn MergeHead MergeOps.
Local Open Scope string_scope.

(** ** Readings *)
Record Tip : Type := mkTip { SHA : string; Source : string; Reference : string; TipRepository : string }.
Definition no_tip : Tip := mkTip "" "" "" "".

Record Step : Type := mkStep { StepSHA : string; Parents : list string; StepSubject : string }.
Record Movement : Type := mkMovement { MoveFrom : string; MoveTo : string; Steps : list Step }.

(** mergeturn.Reader, with the capabilities it may have besides. *)
Record Reader : Type := mkReader {
  read_tip : string → string → text + Tip;
  read_movement : option (string → string → string → string → text + Movement);
  read_pulls : option PullReader
}.

Definition readTarget (reader : option Reader) (repository base : string) : Tip * text :=
  match reader with
  | None => (no_tip, [Lit "this relay has no target reader configured, so it cannot read where "; Rep base; Lit " points"])
  | Some rd => match read_tip rd repository base with inl why => (no_tip, why) | inr tip => (tip, []) end
  end.

Definition readMovement (reader : option Reader) (repository base from to : string) : Movement * text :=
  match rd ← reader; read_movement rd with
  | None => (mkMovement "" "" [], [Lit "this relay's target reader cannot read how the branch moved"])
  | Some movements =>
    match movements repository base from to with
    | inl why => (mkMovement "" "" [], (Lit "reading how the branch moved failed: " :: why))
    | inr m => (m, [])
    end
  end.

(** Package evidence, as a check uses it, and pyvalue.Str. *)
Class EvidencePackage : Type := mkEvidencePackage {
  ReviewShapeProblems : value → list string;
  ChecksProblems : string → list string → list value → list (string * string);
  ReviewProblems : value → list string;
  PyStr : value → string
}.

(** [json.Unmarshal] into a map, on the texts the engine writes: an object and nothing after it but white space. *)
Definition unmarshal_map (raw : string) : option (list (string * value)) :=
  let doc := bytes_of_string raw in
  match json_value (load_fuel doc) 0 doc with Some (VMap m, rest) => match ws rest with [] => Some m | _ => None end | _ => None end.

Definition observed (tip : Tip) (where_ : string) : list (string * value) :=
  [("sha", VString (SHA tip)); ("source", VString (Source tip)); ("reference", VString (Reference tip)); ("repository", VString (TipRepository tip)); ("at", VString where_)].

(** ** More refusals *)
Definition unreadableTarget (r : MergeTurnsRow) (actor : string) (why : text) (what : string) : CoordinationRefusal :=
  coordination r MergeTargetUnreadable
    ([Lit "the base branch "; Rep (BaseRef r); Lit " of "; Rep (Repository r); Lit (" was not read, so " +:+ what +:+ ": ")] ++ why)%list (TurnID r) actor.

Definition trainMemberRefusal (w : World) (turn actor what : string) : option CoordinationRefusal :=
  match MergeTrainOfTurn w turn with
  | None => None
  | Some (train, target) => Some (mkRefusal DispositionConflict
      [Lit "turn "; Rep turn; Lit " is a member of train "; Rep train; Lit ("; it lands with merge-train-land, so it cannot " +:+ what)] DomainMergeTarget target train [Lit actor])
  end.

Definition mismatch (r : MergeTurnsRow) (actor stated : string) (tip : Tip) (what : string) (optional : bool) : CoordinationRefusal :=
  coordination r MergeBaseMismatch
    [Lit "the base branch "; Rep (BaseRef r); Lit " reads "; Rep (SHA tip); Lit (" (" +:+ Source tip +:+ ") and " +:+ what +:+ " states "); Rep stated;
     Lit ("; the relay records what the branch reads, so read it again and state it in full" +:+ (if optional then ", or leave the statement out" else ""))] (SHA tip) stated.

(** ** Restating the base of a landing (restate.go) *)

(** [increment], on the digits from the last. *)
Fixpoint incr_rev (ds : list ascii) : list ascii :=
  match ds with
  | [] => ["1"%char]
  | d :: rest => if (byte_of_ascii d <? 57)%Z then ascii_of_byte (byte_of_ascii d + 1) :: rest else "0"%char :: incr_rev rest
  end.
Definition increment (n : string) : string := String.string_of_list_ascii (reverse (incr_rev (reverse (String.list_ascii_of_string n)))).

Fixpoint trim_zeros (ds : list ascii) : list ascii := match ds with "0"%char :: rest => trim_zeros rest | _ => ds end.

Definition restate_prefix := "restate-base:".

(** The number a key [restate-base:<n>] names, without leading zeros. *)
Definition restate_number (k : string) : option string :=
  if negb (has_prefix k restate_prefix) then None
  else
    let ds := drop (String.length restate_prefix) (String.list_ascii_of_string k) in
    if bool_decide (ds = []) || negb (forallb (λ c, is_digit (byte_of_ascii c)) ds) || (4000 <? length ds)%nat then None
    else match trim_zeros ds with [] => Some "0" | n => Some (String.string_of_list_ascii n) end.

Definition greater (n best : string) : bool :=
  (String.length best <? String.length n)%nat || ((String.length n =? String.length best)%nat && String.ltb best n).

Fixpoint first_free (fuel : nat) (keys : list string) (candidate : string) : string :=
  match fuel with
  | O => candidate
  | S fuel' => if bool_decide (restate_prefix +:+ candidate ∈ keys) then first_free fuel' keys (increment candidate) else candidate
  end.

Definition best_restatement (keys : list string) : string :=
  foldl (λ best k, match restate_number k with Some n => if greater n best then n else best | None => best end) "0" keys.

Definition nextRestatement (keys : list string) : string := first_free (S (length keys)) keys (increment (best_restatement keys)).

Definition writeRestatement (r : MergeTurnsRow) (tip : Tip) (actor : string) (body : string → string) (extra : list (string * value)) (at_ : string) : M string :=
  entries ← get (MergeLedger (TurnID r));
  let sequence := nextRestatement (IdempotencyKey <$> entries) in
  ledger (TurnID r) "transition" "landed" "landed" "landing_base_restated" actor (body sequence) (restate_prefix +:+ sequence) at_;;
  restate_observed (TurnID r) (SHA tip) at_;;
  journalOutcome "merge_turn_base_restated" (TurnID r)
    ([("from", match ObservedBaseSHA r with Some s => VString s | None => VNull end); ("to", VString (SHA tip)); ("source", VString (Source tip)); ("actor", VString actor)] ++ extra)%list at_;;
  mret sequence.

(** The first turn of the target that is merging or unknown, by turn id. *)
Definition in_flight (target : string) (st : Tables) : option MergeTurnsRow :=
  head (sort_by TurnID (filter (λ r, TargetKey r = target ∧ TurnState r ∈ [Merging; Unknown]) (t_turns st))).

(** ** How the base branch moved (movement.go) *)
Definition MaxMovementSteps : nat := 32.
Definition shortSHA (sha : string) : string := if (12 <? String.length sha)%nat then String.substring 0 12 sha else sha.

Section land.
Context `{UnicodeLower}.

Definition ToLower (s : string) : string := string_of_bytes (encode_runes (lower_char <$> runes (bytes_of_string s))).

(** The steps down to the one whose first parent is [from]: [inl] a step that breaks the line, [inr None] a line that does not reach it. *)
Fixpoint first_parent_line (from want : string) (steps : list Step) : Step + option (list Step) :=
  match steps with
  | [] => inr None
  | s :: rest =>
    if negb (SameCommit (StepSHA s) want) then inl s
    else match Parents s with
         | [] => inr None
         | p :: _ =>
           if SameCommit p from then inr (Some [s])
           else match first_parent_line from p rest with inl b => inl b | inr None => inr None | inr (Some line) => inr (Some (s :: line)) end
         end
  end.

(** The first step that is not a merge commit, or that a landing records; [landed] maps a landed object name to its turn. *)
Fixpoint not_outside (landed : string → option string) (steps : list Step) : option text :=
  match steps with
  | [] => None
  | s :: rest =>
    if (length (Parents s) <? 2)%nat then
      Some [Lit "commit "; Rep (shortSHA (StepSHA s)); Lit " on the branch has one parent, so it is not a merge commit and is not known to be a merged pull request"]
    else match landed (ToLower (StepSHA s)) with
         | Some turn => Some [Lit "commit "; Rep (shortSHA (StepSHA s)); Lit " is the landing of turn "; Rep turn;
             Lit " recorded by this lane, so the lane's own records disagree with the branch"]
         | None => not_outside landed rest
         end
  end.

Definition outsideMerges (m : Movement) (from to : string) (landed : string → option string) : text + list Step :=
  if negb (SameCommit (MoveFrom m) from) || negb (SameCommit (MoveTo m) to) then
    inl [Lit "the reading of the branch does not run from the recorded base to the tip it was read for"]
  else if bool_decide (length (Steps m) = 0) then
    inl [Lit "nothing was read from the tip "; Rep (shortSHA to); Lit ", so there is no first-parent line to compare with the recorded base"]
  else match first_parent_line from to (Steps m) with
  | inl broken => inl [Lit "the first-parent line read from "; Rep (shortSHA to); Lit " is broken at "; Rep (shortSHA (StepSHA broken));
      Lit ", which is not the parent of the commit before it"]
  | inr None => inl [Lit "the first-parent line of the branch does not lead from "; Rep (shortSHA to); Lit " to the recorded base "; Rep (shortSHA from);
      Lit (" within " +:+ itoa_nat MaxMovementSteps +:+ " commits, so the branch was rewritten or moved by more merges than the relay reads")]
  | inr (Some line) => match not_outside landed line with Some why => inl why | None => inr line end
  end.

Definition is_control (r : Z) : bool := in_range 0 0x1f r || in_range 0x7f 0x9f r.

Fixpoint until_lf (s : string) : string := match s with String c rest => if bool_decide (c = "010"%char) then "" else String c (until_lf rest) | EmptyString => "" end.

Definition cleanSubject (subject : string) : string :=
  let rs := (λ r, if is_control r then 32%Z else r) <$> runes (bytes_of_string (until_lf subject)) in
  string_of_bytes (encode_runes (trim_space (take 100 rs))).

Definition staleLandingDetail (r landing : MergeTurnsRow) (base tip : string) (why : text) : text :=
  let landed := TurnID landing in
  ([Lit "the last landing on this target, turn "; Rep landed; Lit ", recorded base "; Rep (default "" (ObservedBaseSHA landing)); Lit " and this restates "; Rep base;
    Lit "; the base moved under the candidate. If that recorded base is wrong, the landing's holder "; Rep (HolderTaskID landing); Lit " or the 부모 above project ";
    Rep (ProjectKey landing); Lit (" re-reads it with merge-turn-restate-base --turn " +:+ landed +:+ ". The base branch "); Rep (BaseRef r); Lit " of "; Rep (Repository r); Lit " reads ";
    Rep tip;
    Lit ", not the base that landing recorded: a merge made outside the lane (an out-of-lane merge) moved it, or that recorded base is wrong. The relay records the base again itself only when it confirms the move as merge commits that no landing recorded, and it did not: "]
   ++ why ++
   [Lit ". Recovery, run by that holder or the 부모: merge-turn-restate-base --turn "; Shl landed; Lit " --actor "; Shl (HolderTaskID landing);
    Lit " --evidence '<why the base moved>', then check again"])%list.

(** movement.go [moveReading] *)
Record moveReading : Type := mkMove { move_landing : string; move_from : string; move_to : string; move_read : Movement; move_why : text }.

Definition readMoveSinceLanding (reader : option Reader) (early : MergeTurnsRow) (landing : option MergeTurnsRow) (tip : Tip) : option moveReading :=
  l ← landing;
  let recorded := default "" (ObservedBaseSHA l) in
  if SameCommit recorded (SHA tip) then None
  else
    let '(movement, why) := readMovement reader (Repository early) (BaseRef early) (CommitText recorded) (SHA tip) in
    Some (mkMove (TurnID l) recorded (SHA tip) movement why).

Definition landedShas (target : string) (st : Tables) (sha : string) : option string :=
  TurnID <$> last (filter (λ r, TargetKey r = target ∧ TurnState r = "landed" ∧ (ToLower <$> LandedSHA r) = Some sha) (t_turns st)).

Definition restated_body (row_ landing : MergeTurnsRow) (actor : string) (tip : Tip) (id : string) (merges : list Step) (sequence : string) : string :=
  let recorded := default "" (ObservedBaseSHA landing) in
  let commits := VList ((λ s, VMap [("sha", VString (StepSHA s)); ("subject", VString (cleanSubject (StepSubject s)))]) <$> merges) in
  let evidence := "automatic: merge-turn-check of turn " +:+ TurnID row_ +:+ " by " +:+ actor +:+ " read that " +:+ BaseRef row_ +:+ " of " +:+ Repository row_ +:+ " moved from " +:+ recorded
    +:+ " to " +:+ SHA tip +:+ " through " +:+ itoa_nat (length merges) +:+ " merge commit(s) on its first-parent line that no landing on this target records (read from " +:+ Source tip +:+ "): "
    +:+ join_sep "; " ((λ s, StepSHA s +:+ " (" +:+ cleanSubject (StepSubject s) +:+ ")") <$> merges) in
  canonical (VMap (map_of [("automatic", VBool true); ("checkId", VString id); ("checkTurnId", VString (TurnID row_)); ("evidence", VString evidence); ("from", VString recorded);
    ("mergeCommits", commits); ("sequence", VNumber sequence); ("source", VString (Source tip)); ("to", VString (SHA tip)); ("turnId", VString (TurnID landing))])).

(** [inl] the refusal's detail, or the sequence of the restatement it wrote. *)
Definition restateAfterOutOfLaneMerge (r landing : MergeTurnsRow) (actor base : string) (tip : Tip) (moved : option moveReading) (id at_ : string) : M (text + string) :=
  let recorded := default "" (ObservedBaseSHA landing) in
  let unconfirmed (why : text) : M (text + string) := mret (inl (staleLandingDetail r landing base (SHA tip) why)) in
  match moved with
  | None => unconfirmed [Lit "the landing record changed while the branch was being read; call again"]
  | Some m =>
    if negb (bool_decide (move_landing m = TurnID landing)) || negb (SameCommit (move_from m) recorded) || negb (SameCommit (move_to m) (SHA tip)) then
      unconfirmed [Lit "the landing record changed while the branch was being read; call again"]
    else if negb (bool_decide (move_why m = [])) then unconfirmed (move_why m)
    else
      flight ← get (in_flight (TargetKey r));
      match flight with
      | Some f => unconfirmed [Lit "turn "; Rep (TurnID f); Lit " is merging or unknown on this target, so its landing is not yet known"]
      | None =>
        found ← get (λ st, outsideMerges (move_read m) recorded (SHA tip) (landedShas (TargetKey r) st));
        match found with
        | inl why => unconfirmed why
        | inr merges =>
          landing_row ← row (TurnID landing);
          sequence ← writeRestatement landing_row tip actor (restated_body r landing actor tip id merges) [("automatic", VBool true); ("checkTurnId", VString (TurnID r))] at_;
          mret (inr sequence)
        end
      end
  end.

(** ** Check *)
Section check.
Context `{EvidencePackage}.

Definition check_line (entry : value) : string :=
  let fields := match entry with VMap fs => fs | _ => [] end in
  join_sep "|" ((λ name, match map_get fields name with Some v => PyStr v | None => "" end) <$> ["runId"; "name"; "headSha"; "conclusion"; "attempt"]).

Definition checksDigest (required : list string) (checks : list value) : string :=
  sha256_hex (canonical (VMap (map_of [("required", VList (VString <$> required)); ("checks", VList (VString <$> sort_strings (check_line <$> checks)))]))).

Definition checkID (turn head_ base digestChecks digestReview : string) : string := key "chk" [turn; head_; base; digestChecks; digestReview].

(** What a check reads before its transaction. *)
Record CheckRead : Type := mkCheckRead { check_tip : Tip; check_unread : text; check_moved : option moveReading; check_pulled : option pullRequestRead }.

Definition check_read (reader : option Reader) (early landing : option MergeTurnsRow) (actor head_ base : string) : CheckRead :=
  let nothing := mkCheckRead no_tip [Lit "the turn was not holding this ready candidate when the call began, and changed during it; call again"] None None in
  match early with
  | None => nothing
  | Some r =>
    if bool_decide (HolderTaskID r = actor) && bool_decide (TurnState r = Holding) && bool_decide (DeclaredReady r = 1%Z) && bool_decide (CandidateHead r = head_) then
      let '(tip, unread) := readTarget reader (Repository r) (BaseRef r) in
      let moved := if negb (bool_decide (SHA tip = "")) && SameCommit base (SHA tip) then readMoveSinceLanding reader r landing tip else None in
      let pulled := rd ← reader; pulls ← read_pulls rd; if headCompareForge r then Some (readPullRequest pulls r head_) else None in
      mkCheckRead tip unread moved pulled
    else nothing
  end.

Record CheckAnswer : Type := mkCheckAnswer { answer_id : string; answer_verified : option string; answer_decided : option Decided; answer_restated : option string }.

Definition stale_parent (w : World) (r : MergeTurnsRow) (actor : string) : option CoordinationRefusal :=
  let held := parents w (ProjectKey r) in
  if bool_decide (held = [actor]) then None else Some (staleOwner r (default "" (hd_error held)) (negb (bool_decide (held = []))) actor).

(** The guards up to the comparison of the head. *)
Definition check_turn (w : World) (r : MergeTurnsRow) (turn actor head_ : string) (st : Tables) : option CoordinationRefusal :=
  trainMemberRefusal w turn actor "begin a merge on it" <||>
  underCorrectionRefusal w r <||>
  when (negb (bool_decide (HolderTaskID r = actor))) (notHolder r actor "begin a merge on") <||>
  when (negb (bool_decide (TurnState r = Holding))) (wrongState r actor "beginning a merge") <||>
  when (negb (bool_decide (DeclaredReady r = 1%Z)))
    (coordination r MergeCandidateMoved
      ([Lit "turn "; Rep turn; Lit " has not declared its candidate ready, so there is nothing saying "; Rep (CandidateHead r); Lit " is the head it means to merge; "] ++
       notReadyStep turn actor (CandidateHead r) head_)%list (CandidateHead r) actor) <||>
  stale_parent w r actor <||>
  owner_paused w r actor "begin a merge" <||>
  unansweredGrant r actor st <||>
  when (negb (bool_decide (head_ = CandidateHead r)))
    (coordination r MergeCandidateMoved
      [Lit "the candidate head is "; Rep (CandidateHead r); Lit " and the restated head is "; Rep head_;
       Lit ("; the turn was granted for the first. Restate the head the turn holds, or declare the one you mean with " +:+ restateCommand turn actor head_)] (CandidateHead r) head_).

Definition check_tip_refusal (r : MergeTurnsRow) (actor base : string) (rd : CheckRead) : option CoordinationRefusal :=
  let tip := SHA (check_tip rd) in
  when (bool_decide (tip = "")) (unreadableTarget r actor (check_unread rd) "the restated base cannot be compared with it") <||>
  when (negb (SameCommit base tip))
    (coordination r MergeCurrencyStale
      [Lit "the base branch "; Rep (BaseRef r); Lit " reads "; Rep tip; Lit " and this restates "; Rep base; Lit "; restate the base the branch points at now, in full"] tip base).

(** The landing the base must restate: nothing to say, a refusal, or the base restated. *)
Definition check_landing (r : MergeTurnsRow) (actor base : string) (rd : CheckRead) (id at_ : string) : M (option CoordinationRefusal * option string) :=
  landing ← get (latestLanding (TargetKey r));
  match landing with
  | None => mret (None, None)
  | Some l =>
    let recorded := default "" (ObservedBaseSHA l) in
    if SameCommit recorded base then mret (None, None)
    else
      done ← restateAfterOutOfLaneMerge r l actor base (check_tip rd) (check_moved rd) id at_;
      match done with
      | inr sequence => mret (None, Some sequence)
      | inl detail => mret (Some (coordination r MergeCurrencyStale detail recorded base), None)
      end
  end.

Definition check_evidence (r : MergeTurnsRow) (actor head_ : string) (required : list string) (checks : list value) (review : value) : option CoordinationRefusal :=
  match ChecksProblems head_ required checks with
  | (detail, incumbent) :: _ => Some (coordination r MergeCurrencyStale [Lit detail] incumbent actor)
  | [] => match ReviewProblems review with [] => None | problems => Some (coordination r "merge_review_incomplete" [Lit (join_sep "; " problems)] "" actor) end
  end.

Definition check_reports (w : World) (r : MergeTurnsRow) (actor head_ : string) (decided : option Decided) : CoordinationRefusal + option string :=
  if bool_decide (headCompareRelationship r = "") then inr None
  else match decided with
       | Some (ByReport _ verified _) => inr (Some verified)
       | _ => relationshipRefusal w r actor head_
       end.

(** Everything a check decides: the refusal, or what its answer says. *)
Definition judge (w : World) (r : MergeTurnsRow) (pulls : option PullReader) (rd : CheckRead) (turn actor head_ base : string) (required : list string) (checks : list value)
    (review : value) (id at_ : string) : M (CoordinationRefusal + CheckAnswer) :=
  refused ← get (check_turn w r turn actor head_);
  match refused with
  | Some c => mret (inl c)
  | None =>
    match headCompareVerdict w r actor "restates" head_ (check_pulled rd) pulls with
    | inl c => mret (inl c)
    | inr decided =>
      match check_tip_refusal r actor base rd with
      | Some c => mret (inl c)
      | None =>
        '(stale, restated) ← check_landing r actor base rd id at_;
        match stale <||> check_evidence r actor head_ required checks review with
        | Some c => mret (inl c)
        | None =>
          match check_reports w r actor head_ decided with
          | inl c => mret (inl c)
          | inr verified => mret (inr (mkCheckAnswer id verified decided restated))
          end
        end
      end
    end
  end.

Definition Check_body (w : World) (pulls : option PullReader) (rd : CheckRead) (turn actor head_ base : string) (required : list string) (checks : list value) (review : value) (at_ : string) :
    Body CheckAnswer :=
  let digestChecks := checksDigest required checks in
  let digestReview := sha256_hex (canonical review) in
  let id := checkID turn head_ base digestChecks digestReview in
  r ← row turn;
  verdict ← judge w r pulls rd turn actor head_ base required checks review id at_;
  RecordMergeCheck (mkCheck id turn head_ base (pythonJSON (VList (VString <$> required))) digestChecks (pythonJSON (VList checks)) digestReview (pythonJSON review)
    (match verdict with inl _ => "refused" | inr _ => "current" end) (match verdict with inl c => nullable (Reason c) | inr _ => None end) at_);;
  match verdict with
  | inl c => refuse c at_
  | inr result_ =>
    let tip := check_tip rd in
    begin_merge turn (SHA tip) at_;;
    ledger turn "transition" Holding Merging "currency_confirmed" actor
      (canonical (VMap (map_of [("checkId", VString id); ("baseRead", VString (SHA tip)); ("source", VString (Source tip))]))) ("merging:" +:+ head_) at_;;
    answer result_
  end.

Definition Check (w : World) (reader : option Reader) (early landing : option MergeTurnsRow) (turn actor head_ base : string) (checkList review : value) (required : list string)
    (at_ : string) (st : Tables) : Tables * result MergeError CheckAnswer :=
  let review := match review with VNull => VMap [] | v => v end in
  match ReviewShapeProblems review with
  | [] =>
    let required := compact (sort_strings required) in
    let checks := match checkList with VList l => l | _ => [] end in
    run (Check_body w (rd ← reader; read_pulls rd) (check_read reader early landing actor head_ base) turn actor head_ base required checks review at_) st
  | problems => (st, Err (Refused "merge_evidence_malformed"
      [Lit "the review restated for turn "; Quo turn; Lit (" is malformed, so the turn and its target were not read and nothing was recorded for this check: " +:+ join_sep "; " problems)]))
  end.
End check.

(** ** Land *)
Definition baseWasRead (r : MergeTurnsRow) (st : Tables) : bool :=
  match MergeLedgerEntry (TurnID r) ("merging:" +:+ CandidateHead r) st, CheckedBaseSHA r with
  | Some e, Some checked =>
    bool_decide (EvidenceKind e = "currency_confirmed") && bool_decide (Kind e = "transition") && bool_decide (default "" (FromState e) = Holding) &&
    bool_decide (default "" (ToState e) = Merging) &&
    match unmarshal_map (Evidence e) with Some payload => field_is payload "baseRead" checked | None => false end
  | _, _ => false
  end.

Definition land_refusal (w : World) (r : MergeTurnsRow) (turn actor stated : string) (tip : Tip) (why : text) (st : Tables) : option CoordinationRefusal :=
  let checked := default "" (CheckedBaseSHA r) in
  trainMemberRefusal w turn actor "record a landing on it" <||>
  underCorrectionRefusal w r <||>
  when (negb (bool_decide (HolderTaskID r = actor))) (notHolder r actor "record a landing on") <||>
  when (negb (bool_decide (TurnState r = Merging))) (wrongState r actor "recording a landing") <||>
  when (negb (baseWasRead r st))
    (coordination r MergeEvidenceRequired
      [Lit "turn "; Rep turn; Lit " entered merging before the relay read its base, so its checked base "; match CheckedBaseSHA r with Some s => Rep s | None => Lit "None" end;
       Lit " was typed rather than read and the branch cannot show whether this merge landed. Report the outcome with merge-turn-unknown and resolve it from the pull request's state with merge-turn-resolve, which reads the branch"]
      checked actor) <||>
  when (bool_decide (SHA tip = "")) (unreadableTarget r actor why "the base this landing leaves behind cannot be recorded; the turn stays merging") <||>
  when (bool_decide (is_Some (CheckedBaseSHA r)) && SameCommit (SHA tip) checked && negb (SameCommit checked (CandidateHead r)))
    (coordination r "merge_base_not_advanced"
      [Lit "the base branch "; Rep (BaseRef r); Lit " still reads "; Rep (SHA tip); Lit ", the base the currency check read before merging, so the merge of "; Rep (CandidateHead r);
       Lit " is not on it. The turn stays merging: merge and land again, or read again if the forge has not caught up. If the merge changed nothing because the base already contained the candidate, record that with merge-turn-unknown and merge-turn-resolve --pr-state merged"]
      checked (SHA tip)) <||>
  when (negb (bool_decide (stated = "")) && negb (SameCommit stated (SHA tip))) (mismatch r actor stated tip "--observed-base-sha" true).

Definition Land_body (w : World) (tip : Tip) (why : text) (turn actor landed stated evidence at_ : string) : Body string :=
  r ← row turn;
  refused ← get (land_refusal w r turn actor stated tip why);
  match refused with
  | Some c => refuse c at_
  | None =>
    closeWith r "landed" evidence actor at_ (nullable landed) (nullable (SHA tip));;
    journalOutcome "merge_turn_base_observed" turn (observed tip "landing") at_;;
    promoted ← promote w (TargetKey r) at_;
    answer promoted
  end.

Definition land_read (reader : option Reader) (early : option MergeTurnsRow) (actor : string) : Tip * text :=
  match early with
  | Some r =>
    if bool_decide (HolderTaskID r = actor) && bool_decide (TurnState r = Merging) then readTarget reader (Repository r) (BaseRef r)
    else (no_tip, [Lit "the turn was not merging under this holder when the call began, and changed during it; call again"])
  | None => (no_tip, [Lit "the turn was not merging under this holder when the call began, and changed during it; call again"])
  end.

Definition Land (w : World) (reader : option Reader) (early : option MergeTurnsRow) (turn actor landed stated evidence at_ : string) (st : Tables) : Tables * result MergeError string :=
  if blank evidence then
    (st, Err (Refused MergeEvidenceRequired [Lit "a landing states what was observed; the relay reads only where the base branch points, so the evidence is what makes the merge itself a fact"]))
  else match exact_all ((landed, "a landed sha") :: if bool_decide (stated = "") then [] else [(stated, "an observed base sha")]) with
       | Err e => (st, Err e)
       | Ok _ => let '(tip, why) := land_read reader early actor in run (Land_body w tip why turn actor landed stated evidence at_) st
       end.

(** ** An outcome that is not known *)
Definition ReportUnknown_body (w : World) (turn actor reason at_ : string) : Body () :=
  r ← row turn;
  match (if negb (bool_decide (TurnState r = Merging)) then Some (wrongState r actor "reporting an unknown outcome") else authority w r actor "report its outcome unknown") with
  | Some c => refuse c at_
  | None => mark_unknown turn reason at_;; ledger turn "transition" Merging Unknown "outcome_unknown" actor reason ("unknown:" +:+ actor) at_;; answer ()
  end.

Definition ReportUnknown (w : World) (turn actor reason at_ : string) (st : Tables) : Tables * result MergeError () :=
  if blank reason then (st, Err (Refused MergeEvidenceRequired [Lit "an unknown outcome states why"])) else run (ReportUnknown_body w turn actor reason at_) st.

Definition pr_settled (prState : string) : bool := bool_decide (prState ∈ ["merged"; "open"; "closed"]).

Definition Resolve_body (w : World) (tip : Tip) (why : text) (turn actor stated prState evidence at_ : string) : Body (string * string) :=
  r ← row turn;
  match (if negb (bool_decide (TurnState r = Unknown)) then Some (wrongState r actor "resolving an unknown outcome") else authority w r actor "resolve its outcome") with
  | Some c => refuse c at_
  | None =>
    let landed := bool_decide (prState = "merged") in
    if negb (pr_settled prState) then
      let moved := match CheckedBaseSHA r with
                   | Some checked => if bool_decide (stated = checked) then []
                                     else [Lit "; the base moved from "; Quo checked; Lit " to "; Quo stated; Lit ", which any unrelated commit also does"]
                   | None => []
                   end in
      raise (Refused MergeEvidenceRequired
        ([Quo prState; Lit " does not say whether this candidate merged. Read the pull request and resolve again with merged, open or closed"] ++ moved)%list)
    else
      match (if bool_decide (SHA tip = "") then when landed (unreadableTarget r actor why "a merged outcome has no base to record; the turn stays unknown")
             else when (negb (SameCommit stated (SHA tip))) (mismatch r actor stated tip "--observed-base-sha" false)) with
      | Some c => refuse c at_
      | None =>
        let state := if landed then "landed" else "returned" in
        closeWith r state ("resolved from an observation: pr_state=" +:+ prState +:+ "; " +:+ evidence) actor at_ (if landed then nullable (CandidateHead r) else None) (nullable (SHA tip));;
        (if bool_decide (SHA tip = "") then mret () else journalOutcome "merge_turn_base_observed" turn (observed tip "resolution") at_);;
        promoted ← promote w (TargetKey r) at_;
        answer (state, promoted)
      end
  end.

Definition resolve_read (w : World) (reader : option Reader) (early : option MergeTurnsRow) (actor prState : string) : Tip * text :=
  let nothing := (no_tip, [Lit "the turn was not unknown when the call began, or the caller could not resolve it then, and it changed during the call; call again"]) in
  match early with
  | Some r =>
    if bool_decide (TurnState r = Unknown) && pr_settled prState then
      match authority w r actor "resolve its outcome" with None => readTarget reader (Repository r) (BaseRef r) | Some _ => nothing end
    else nothing
  | None => nothing
  end.

Definition Resolve (w : World) (reader : option Reader) (early : option MergeTurnsRow) (turn actor stated prState evidence at_ : string) (st : Tables) :
    Tables * result MergeError (string * string) :=
  if blank evidence then
    (st, Err (Refused MergeEvidenceRequired [Lit "resolving an unknown outcome requires the observation that resolves it; elapsed time is not one and never becomes one"]))
  else match CoordinationExact stated "an observed base sha" with
       | Err e => (st, Err e)
       | Ok _ => let '(tip, why) := resolve_read w reader early actor prState in run (Resolve_body w tip why turn actor stated prState evidence at_) st
       end.

(** ** RestateBase *)
Definition restate_text (r : MergeTurnsRow) (turn evidence : string) (tip : Tip) (sequence : string) : string :=
  let str (s : string) := canonical (VString s) in
  quoted "{~evidence~:" +:+ str evidence +:+ quoted ",~from~:" +:+ str (default "" (ObservedBaseSHA r)) +:+ quoted ",~sequence~:" +:+ sequence +:+ quoted ",~source~:" +:+ str (Source tip)
  +:+ quoted ",~to~:" +:+ str (SHA tip) +:+ quoted ",~turnId~:" +:+ str turn +:+ "}".

Definition restate_refusal (w : World) (r : MergeTurnsRow) (turn actor stated : string) (tip : Tip) (why : text) (st : Tables) : option CoordinationRefusal :=
  authority w r actor "restate its base" <||>
  when (negb (bool_decide (TurnState r = "landed"))) (wrongState r actor "restating a landing's base") <||>
  match latestLanding (TargetKey r) st with
  | None => Some (coordination r MergeTurnNotHeld [Lit "turn "; Rep turn; Lit " is not the landing the currency check reads; it records no base"] "" actor)
  | Some l => when (negb (bool_decide (TurnID l = turn)))
      (coordination r MergeTurnNotHeld
        [Lit "turn "; Rep turn; Lit " is not the landing the currency check reads; that is "; Rep (TurnID l); Lit ", so restate that one"] (TurnID l) actor)
  end <||>
  (f ← in_flight (TargetKey r) st; Some (unresolved f actor)) <||>
  when (bool_decide (SHA tip = "")) (unreadableTarget r actor why "the recorded base cannot be read again") <||>
  when (negb (bool_decide (stated = "")) && negb (SameCommit stated (SHA tip))) (mismatch r actor stated tip "--observed-base-sha" true).

Definition RestateBase_body (w : World) (tip : Tip) (why : text) (turn actor stated evidence at_ : string) : Body bool :=
  r ← row turn;
  refused ← get (restate_refusal w r turn actor stated tip why);
  match refused with
  | Some c => refuse c at_
  | None =>
    if bool_decide (ObservedBaseSHA r = Some (SHA tip)) then answer false
    else writeRestatement r tip actor (restate_text r turn evidence tip) [] at_;; answer true
  end.

Definition restate_read (w : World) (reader : option Reader) (early : option MergeTurnsRow) (actor : string) : Tip * text :=
  let nothing := (no_tip, [Lit "the turn was not a landing this caller may restate when the call began, and changed during it; call again"]) in
  match early with
  | Some r =>
    if bool_decide (TurnState r = "landed") then
      match authority w r actor "restate its base" with None => readTarget reader (Repository r) (BaseRef r) | Some _ => nothing end
    else nothing
  | None => nothing
  end.

Definition RestateBase (w : World) (reader : option Reader) (early : option MergeTurnsRow) (turn actor stated evidence at_ : string) (st : Tables) : Tables * result MergeError bool :=
  if blank evidence then (st, Err (Refused MergeEvidenceRequired [Lit "a restatement states why the recorded base is being read again"]))
  else match (if bool_decide (stated = "") then Ok () else CoordinationExact stated "an observed base sha") with
       | Err e => (st, Err e)
       | Ok _ => let '(tip, why) := restate_read w reader early actor in run (RestateBase_body w tip why turn actor stated evidence at_) st
       end.
End land.

(** ** Landing a bundle (train.go)

    The tables of the trains and of the acceptances are read through other packages: what they answer is [TrainReads], the readings before the transaction and those inside it apart.
    The landed event is a row of those tables; [TrainLand] answers what it lists of the members, those landed and those excluded. *)
Record MergeTrainRow : Type := mkTrain { TrainTarget : string; LeaderTaskID : string; TrainRepository : string; TrainBaseRef : string; TrainBaseSHA : string }.
Record MergeTrainMemberRow : Type := mkMember { MemberSeq : Z; MemberTurn : string; MemberPR : Z; MemberRelationship : string; MemberHead : string }.
Record TrainPullRequest : Type := mkTrainPull { TrainNumber : Z; TrainState : string; TrainPullBase : string; TrainHeadSHA : string }.
Record TrainCommit : Type := mkTrainCommit { TrainParents : list string; TrainTree : string }.

(** The reads of the forge a landing makes; [inl] is an error. *)
Record TrainForge : Type := mkForge {
  PullRequest : string → Z → text + TrainPullRequest;
  Commit : string → string → text + TrainCommit;
  Compare : string → string → string → text + string
}.

Record TrainReads : Type := mkTrainReads {
  read_train : option MergeTrainRow;
  read_state : option string;
  newestVerified : option (list (string * value));
  read_members : list MergeTrainMemberRow;
  early_turn : string → option MergeTurnsRow;
  state_inside : option string;
  trainMemberCorrectionRefusal : MergeTrainMemberRow → option MergeError;
  trainExcludedMemberRefusal : MergeTrainMemberRow → option MergeError;
  trainExpectations : list MergeTrainMemberRow → option MergeError;
  RecordMergeTrainEvent : option MergeError
}.

Definition trainConflict (detail : text) : MergeError := Refused DispositionConflict detail.
Definition trainUnreadable (detail : text) : MergeError := Refused MergeTargetUnreadable detail.

(** [if bad { return nil, e }] *)
Definition fails (bad : bool) (e : MergeError) : option MergeError := if bad then Some e else None.

(** The first error of a loop that returns it. *)
Definition first_error {A} (f : A → option MergeError) (l : list A) : option MergeError := head (omap f l).

Definition in_lane (state : string) : bool := bool_decide (state = Holding) || bool_decide (state = Waiting).

(** [membersWhoLeftTheLane], as the exemption it gives a member: [None] where a turn of a member is not there. *)
Definition left_the_lane (turns : string → option MergeTurnsRow) (m : MergeTrainMemberRow) : bool :=
  match turns (MemberTurn m) with Some r => negb (in_lane (TurnState r)) | None => false end.
Definition membersWhoLeftTheLane (turns : string → option MergeTurnsRow) (members : list MergeTrainMemberRow) : option (list string) :=
  if forallb (λ m, bool_decide (is_Some (turns (MemberTurn m)))) members then Some (MemberTurn <$> filter (λ m, left_the_lane turns m = true) members) else None.

Section train.
Context `{UnicodeLower}.

(** train.go's [trainMemberRefusal], for one member. *)
Definition train_member_moved (forge : TrainForge) (repository base : string) (exempt : list string) (m : MergeTrainMemberRow) : option MergeError :=
  if bool_decide (MemberTurn m ∈ exempt) then None
  else
    let n := itoa (MemberPR m) in
    match PullRequest forge repository (MemberPR m) with
    | inl why => Some (trainUnreadable ([Lit ("member pull request " +:+ n +:+ " of "); Rep repository; Lit " was not read: "] ++ why)%list)
    | inr pull =>
      fails (negb (bool_decide (TrainNumber pull = MemberPR m)))
        (trainUnreadable [Lit ("the forge's answer for member pull request " +:+ n +:+ " names " +:+ itoa (TrainNumber pull))]) <||>
      fails (negb (SameCommit (TrainHeadSHA pull) (MemberHead m)))
        (trainConflict [Lit ("member pull request " +:+ n +:+ " reads head "); Rep (TrainHeadSHA pull); Lit " and the bundle carries "; Rep (MemberHead m);
          Lit ", so the member moved after the train opened"]) <||>
      fails (negb (bool_decide (TrainState pull = "open")))
        (trainConflict [Lit ("member pull request " +:+ n +:+ " is " +:+ TrainState pull +:+ " and the bundle carries its head "); Rep (MemberHead m);
          Lit ", so the member no longer proposes this landing"]) <||>
      fails (negb (bool_decide (TrainPullBase pull = base)))
        (trainConflict [Lit ("member pull request " +:+ n +:+ " targets "); Rep (TrainPullBase pull); Lit " and the bundle's base is "; Rep base;
          Lit ", so the member no longer proposes this landing"])
    end.

Definition train_member_ancestor (forge : TrainForge) (repository landed : string) (m : MergeTrainMemberRow) : option MergeError :=
  match Compare forge repository (MemberHead m) landed with
  | inl why => Some (trainUnreadable ([Lit "the ancestry of "; Rep (MemberHead m); Lit (" in " +:+ landed +:+ " was not read: ")] ++ why)%list)
  | inr status =>
    fails (negb (bool_decide (status = "identical")) && negb (bool_decide (status = "ahead")))
      (trainConflict [Lit "member head "; Rep (MemberHead m); Lit (" of pull request " +:+ itoa (MemberPR m) +:+ " is " +:+ status +:+ " of " +:+ landed +:+
        ", and every member's accepted head must be an ancestor of the merge commit")])
  end.

Definition train_commit_refusal (row_ : MergeTrainRow) (landed head tested : string) (commit : TrainCommit) : option MergeError :=
  match TrainParents commit with
  | [p0; p1] =>
    fails (negb (SameCommit p0 (TrainBaseSHA row_)) || negb (SameCommit p1 head))
      (trainConflict [Lit ("merge commit " +:+ landed +:+ " has parents "); Rep p0; Lit " and "; Rep p1; Lit ", and a bundle's are the base "; Rep (TrainBaseSHA row_);
        Lit " and the verified head "; Rep head; Lit " in that order"])
  | parents => Some (trainConflict [Lit ("merge commit " +:+ landed +:+ " has " +:+ itoa_nat (length parents) +:+ " parent(s), and a bundle lands as one merge commit with two")])
  end <||>
  fails (bool_decide (TrainTree commit = ""))
    (trainUnreadable [Lit ("merge commit " +:+ landed +:+ " was read without a tree, so whether it preserves the tested tree cannot be told")]) <||>
  fails (negb (bool_decide (TrainTree commit = tested)))
    (trainConflict [Lit ("merge commit " +:+ landed +:+ " has tree " +:+ TrainTree commit +:+ " and the verified bundle tree is " +:+ tested +:+
      ", so the landed tree is not the tree CI passed")]).

(** What is refused before the transaction, or the train and the tip the landing is recorded with. *)
Definition train_land_read (reads : TrainReads) (train actor landed observed_ : string) (reader : option Reader) (forge : option TrainForge) : MergeError + MergeTrainRow * Tip :=
  match forge with
  | None => inl (trainUnreadable [Lit "this relay has no forge reader configured, so the bundle's landing cannot be read"])
  | Some forge =>
    if blank landed then inl (trainConflict [Lit "a landing names the merge commit M"])
    else match read_train reads with
    | None => inl (trainConflict [Lit "no train "; Rep train])
    | Some row_ =>
      if negb (bool_decide (LeaderTaskID row_ = actor)) then
        inl (trainConflict [Lit "task "; Rep actor; Lit " is not the leader of train "; Rep train; Lit ", which is "; Rep (LeaderTaskID row_)])
      else if negb (bool_decide (read_state reads = Some "verified")) then
        inl (trainConflict [Lit "train "; Rep train; Lit (" is " +:+ default "None" (read_state reads) +:+ " and only a verified bundle lands")])
      else match newestVerified reads with
      | None => inl (trainConflict [Lit "train "; Rep train; Lit " holds no verified event"])
      | Some verified =>
        match text_field verified "head", text_field verified "tree" with
        | Some head, Some tested =>
          let '(tip, why) := readTarget reader (TrainRepository row_) (TrainBaseRef row_) in
          match
            fails (bool_decide (SHA tip = ""))
              (trainUnreadable ([Lit "the base branch "; Rep (TrainBaseRef row_); Lit " of "; Rep (TrainRepository row_); Lit " was not read, so the landing cannot be compared: "] ++ why)%list) <||>
            fails (negb (SameCommit landed (SHA tip)))
              (trainConflict [Lit "the base branch "; Rep (TrainBaseRef row_); Lit " reads "; Rep (SHA tip); Lit " and --landed-sha states "; Rep landed]) <||>
            fails (negb (bool_decide (observed_ = "")) && negb (SameCommit observed_ (SHA tip)))
              (trainConflict [Lit "--observed-base-sha states "; Rep observed_; Lit " and the base branch reads "; Rep (SHA tip)]) <||>
            match Commit forge (TrainRepository row_) landed with
            | inl why => Some (trainUnreadable ([Lit ("merge commit " +:+ landed +:+ " of "); Rep (TrainRepository row_); Lit " was not read: "] ++ why)%list)
            | inr commit => train_commit_refusal row_ landed head tested commit
            end <||>
            match membersWhoLeftTheLane (early_turn reads) (read_members reads) with
            | None => Some NoRows
            | Some gone => first_error (train_member_moved forge (TrainRepository row_) (TrainBaseRef row_) gone) (read_members reads)
            end <||>
            first_error (train_member_ancestor forge (TrainRepository row_) landed) (read_members reads)
          with
          | Some e => inl e
          | None => inr (row_, tip)
          end
        | head, _ => inl (trainUnreadable [Lit "the verified event of train "; Rep train;
            Lit (" names no " +:+ (if head then "tree" else "head") +:+ ", so the landing cannot be compared with it")])
        end
      end
    end
  end.

(** The turn of each member, read inside the transaction: the members still in the lane with their turns, and those that left it. *)
Fixpoint split_members (members : list MergeTrainMemberRow) : M (list (MergeTrainMemberRow * MergeTurnsRow) * list (MergeTrainMemberRow * MergeTurnsRow)) :=
  match members with
  | [] => mret ([], [])
  | m :: rest =>
    turn ← row (MemberTurn m);
    if negb (in_lane (TurnState turn)) then
      sides ← split_members rest;
      mret (sides.1, (m, turn) :: sides.2)
    else if negb (SameCommit (CandidateHead turn) (MemberHead m)) then
      raise (trainConflict [Lit "member turn "; Rep (MemberTurn m); Lit (" of pull request " +:+ itoa (MemberPR m) +:+ " now holds "); Rep (CandidateHead turn);
        Lit " and the bundle carries "; Rep (MemberHead m); Lit ", so the member changed after the train opened"])
    else
      sides ← split_members rest;
      mret ((m, turn) :: sides.1, sides.2)
  end.

Definition raise_some (e : option MergeError) : M () := match e with Some e => raise e | None => mret () end.

Fixpoint land_each (turns : list MergeTurnsRow) (reason actor at_ : string) (landed tip : option string) : M () :=
  match turns with
  | [] => mret ()
  | turn :: rest => closeWith turn "landed" reason actor at_ landed tip;; land_each rest reason actor at_ landed tip
  end.

Definition TrainLand_body (w : World) (reads : TrainReads) (row_ : MergeTrainRow) (tip : Tip) (train actor landed at_ : string) : M (list string * list string) :=
  if negb (bool_decide (state_inside reads = Some "verified")) then
    raise (trainConflict [Lit "train "; Rep train; Lit " changed while the landing was being read, so nothing is recorded; call again"])
  else
    sides ← split_members (read_members reads);
    raise_some (first_error (trainMemberCorrectionRefusal reads) sides.1.*1);;
    raise_some (first_error (trainExcludedMemberRefusal reads) sides.2.*1);;
    raise_some (trainExpectations reads sides.1.*1);;
    land_each sides.1.*2 ("landed via bundle " +:+ train +:+ " " +:+ landed) actor at_ (nullable landed) (nullable (SHA tip));;
    raise_some (RecordMergeTrainEvent reads);;
    _ ← promote w (TrainTarget row_) at_;
    mret (MemberTurn <$> sides.1.*1, MemberTurn <$> sides.2.*1).

Definition TrainLand (w : World) (reads : TrainReads) (train actor landed observed_ : string) (reader : option Reader) (forge : option TrainForge) (at_ : string) (st : Tables) :
    Tables * result MergeError (list string * list string) :=
  match train_land_read reads train actor landed observed_ reader forge with
  | inl e => (st, Err e)
  | inr (row_, tip) => transaction (TrainLand_body w reads row_ tip train actor landed at_) st
  end.
End train.
