(* ===== verification/MergeLane.v ===== *)
(** * MergeLane: the lane of a target as a state machine, and the rules to follow the operations over it.

    The machine is abstract: a turn is claimed waiting or holding, waits, holds, merges, may become unknown, and closes; [edge] lists its moves, and no move leads back. A store is in
    the [lane] when at most one turn of a target holds it and one live claim of a holder stands on it, every ledger entry belongs to a turn, and the transitions the ledger records for
    a turn lead, move by move, to the state of its row. [spec P m Q] follows a body of a transaction from [P] to [Q], through its errors too: no error it ends in is a violated
    exclusive index ([benign]). *)
From S2P Require Import Prelude GoLib Sha256 Json MergeStore MergeTurn.
Local Open Scope string_scope.
(** ** The machine *)

(** A turn of a bundle that lands is closed as it stands, waiting or holding. *)
Definition edges : list (option string * string) :=
  [(None, Waiting); (None, Holding); (Some Waiting, Holding); (Some Waiting, "withdrawn"); (Some Holding, Merging); (Some Holding, "returned"); (Some Holding, "cancelled");
   (Some Holding, Passed); (Some Waiting, "landed"); (Some Holding, "landed"); (Some Merging, "landed"); (Some Merging, Unknown); (Some Unknown, "landed"); (Some Unknown, "returned")].
Definition edge (from : option string) (to : string) : Prop := (from, to) ∈ edges.
#[export] Instance edge_dec from to : Decision (edge from to).
Proof. unfold edge. apply _. Defined.

Definition edge_step (a b : option string) : Prop := match b with Some s => edge a s | None => False end.
#[export] Instance edge_step_dec a b : Decision (edge_step a b).
Proof. destruct b; apply _. Defined.

Lemma an_edge from to : bool_decide (edge from to) = true → edge from to.
Proof. apply bool_decide_eq_true. Qed.

(** How far a state is along the machine. *)
Definition rank (s : option string) : nat :=
  match s with
  | None => 0
  | Some s => if bool_decide (s = Waiting) then 1 else if bool_decide (s = Holding) then 2 else if bool_decide (s = Merging) then 3 else if bool_decide (s = Unknown) then 4 else 5
  end.

Lemma edge_rank from to : edge from to → rank from < rank (Some to).
Proof.
  assert (Forall (λ e, rank e.1 < rank (Some e.2)) edges) as F by (refine (bool_decide_unpack _ _); vm_compute; exact I).
  intros H. by apply (proj1 (Forall_forall _ _) F (from, to)).
Qed.

(** Every state has a name, so the columns of an entry spell it. *)
Lemma edge_named from to : edge from to → nullable to = Some to ∧ nullable (default "" from) = from.
Proof.
  assert (Forall (λ e, nullable e.2 = Some e.2 ∧ nullable (default "" e.1) = e.1) edges) as F by (refine (bool_decide_unpack _ _); vm_compute; exact I).
  intros H. by apply (proj1 (Forall_forall _ _) F (from, to)).
Qed.

(** ** The transitions the ledger records *)
Definition move_of (e : MergeTurnLedgerRow) : option string * option string := (FromState e, ToState e).
Definition is_move (id : string) (e : MergeTurnLedgerRow) : Prop := EntryTurn e = id ∧ Kind e = "transition" ∧ FromState e ≠ ToState e.
#[export] Instance is_move_dec id e : Decision (is_move id e).
Proof. unfold is_move. apply _. Defined.

Definition moves (id : string) (L : list MergeTurnLedgerRow) : list (option string * option string) := move_of <$> filter (is_move id) L.

(** A run of the machine, or none where a move does not start where the last one ended or is not one of the machine's. *)
Fixpoint walk (s : option string) (l : list (option string * option string)) : option (option string) :=
  match l with
  | [] => Some s
  | (from, to) :: l' => if bool_decide (from = s ∧ edge_step from to) then walk to l' else None
  end.

Definition ends (L : list MergeTurnLedgerRow) (id : string) : option (option string) := walk None (moves id L).

Lemma walk_app s l1 l2 : walk s (l1 ++ l2) = match walk s l1 with Some s' => walk s' l2 | None => None end.
Proof. revert s. induction l1 as [|[from to] l1 IH]; intros s; [done|]. cbn. destruct (bool_decide _); [apply IH|done]. Qed.

Lemma moves_app id L1 L2 : moves id (L1 ++ L2) = (moves id L1 ++ moves id L2)%list.
Proof. unfold moves. by rewrite filter_app, fmap_app. Qed.

(** A run goes up, so it never takes a move that starts where it ended, twice. *)
Lemma walk_up s l s' : walk s l = Some s' → (rank s ≤ rank s')%nat ∧ (∀ from to, (from, to) ∈ l → rank from < rank s')%nat.
Proof.
  revert s. induction l as [|[from to] l IH]; intros s; cbn; [intros [= ->]; split; [done|]; intros ? ? ?%elem_of_nil; done|].
  destruct (bool_decide_reflect (from = s ∧ edge_step from to)) as [[-> He]|]; [|done]. intros [H1 H2]%IH.
  destruct to as [to|]; [|done]. pose proof (edge_rank _ _ He). split; [lia|]. intros f t [[= -> ->]|Hin]%elem_of_cons; [lia|eauto].
Qed.

Lemma walk_reaches s l s' : walk s l = Some s' → rtc edge_step s s'.
Proof.
  revert s. induction l as [|[from to] l IH]; intros s; cbn; [by intros [= ->]|].
  destruct (bool_decide_reflect (from = s ∧ edge_step from to)) as [[-> He]|]; [|done]. intros H%IH. by eapply rtc_l.
Qed.

(** ** Keys of merge_turns *)
Section unique.
Context {A B : Type} `{EqDecision B} (f : A → option B).

Lemma unique_by_true l : unique_by f l = true ↔ ∀ i j x y k, l !! i = Some x → l !! j = Some y → f x = Some k → f y = Some k → i = j.
Proof.
  induction l as [|a l IH]; cbn; [split; [intros _ ???? ? H; by rewrite lookup_nil in H|done]|]. rewrite andb_true_iff, IH. split.
  - intros [H1 H2] [|i] [|j] x y k Hx Hy Ex Ey; cbn in Hx, Hy; simplify_eq; [done|..].
    + rewrite Ex, forallb_forall in H1. specialize (H1 y). rewrite bool_decide_eq_true in H1. exfalso. apply H1; [|done]. apply list_elem_of_In. by eapply list_elem_of_lookup_2.
    + rewrite Ey, forallb_forall in H1. specialize (H1 x). rewrite bool_decide_eq_true in H1. exfalso. apply H1; [|done]. apply list_elem_of_In. by eapply list_elem_of_lookup_2.
    + f_equal. by eapply H2.
  - intros H. split.
    + destruct (f a) as [k|] eqn:E; [|done]. apply forallb_forall. intros y [j Hy]%list_elem_of_In%list_elem_of_lookup. rewrite bool_decide_eq_true. intros Ey.
      by specialize (H 0 (S j) a y k eq_refl Hy E Ey).
    + intros i j x y k Hx Hy Ex Ey. by specialize (H (S i) (S j) x y k Hx Hy Ex Ey) as [= ->].
Qed.

(** Rows that keep or lose their key stay apart. *)
Lemma unique_by_map (g : A → A) l : (∀ x, x ∈ l → f (g x) = f x ∨ f (g x) = None) → unique_by f l = true → unique_by f (g <$> l) = true.
Proof.
  rewrite !unique_by_true. intros Hg H i j x y k. rewrite !list_lookup_fmap, !fmap_Some. intros (x' & Hx & ->) (y' & Hy & ->) Ex Ey. apply (H i j x' y' k); [done..| |].
  - destruct (Hg x' (list_elem_of_lookup_2 _ _ _ Hx)) as [E|E]; congruence.
  - destruct (Hg y' (list_elem_of_lookup_2 _ _ _ Hy)) as [E|E]; congruence.
Qed.

Lemma unique_by_snoc l a : unique_by f l = true → (∀ k, f a = Some k → ∀ x, x ∈ l → f x ≠ Some k) → unique_by f (l ++ [a]) = true.
Proof.
  intros H Ha. induction l as [|x l IH]; cbn in *; [by destruct (f a)|]. apply andb_true_iff in H as [H1 H2]. apply andb_true_iff. split.
  - destruct (f x) as [k|] eqn:E; [|done]. rewrite forallb_app, H1. cbn. rewrite andb_true_r, bool_decide_eq_true. intros Ea. eapply (Ha _ Ea x); [by left|done].
  - apply IH; [done|]. intros k Ek y Hy. apply (Ha k Ek y). by right.
Qed.
End unique.

(** The rows after an UPDATE of one turn. *)
Definition upd (id : string) (f : MergeTurnsRow → MergeTurnsRow) (T : list MergeTurnsRow) : list MergeTurnsRow := (λ r, if bool_decide (TurnID r = id) then f r else r) <$> T.

(** The identity of a turn is derived from its target, its holder and its tenure. *)
Definition derived (r : MergeTurnsRow) : Prop := TurnID r = TurnIdentity (TargetKey r) (HolderTaskID r) (Tenure r).

Lemma derived_named r : derived r → TurnID r ≠ "".
Proof. unfold derived, TurnIdentity, key. intros -> H. by destruct (sha256_hex _). Qed.

(** Rows whose keys are as the schema demands, and what that gives. *)
Definition keyed (T : list MergeTurnsRow) : Prop := turn_constraints T = None ∧ Forall derived T.

Lemma keyed_indexes T : keyed T → unique_by (Some ∘ TurnID) T = true ∧ unique_by holder_key T = true ∧ unique_by claim_key T = true.
Proof.
  intros [H _]. revert H. unfold turn_constraints. destruct (unique_by (Some ∘ TurnID) T), (unique_by holder_key T), (unique_by claim_key T); done.
Qed.

Lemma keyed_intro T : unique_by (Some ∘ TurnID) T = true → unique_by holder_key T = true → unique_by claim_key T = true → Forall derived T → keyed T.
Proof. intros H1 H2 H3 H4. split; [|done]. unfold turn_constraints. by rewrite H1, H2, H3. Qed.

Lemma keyed_id T r r' : keyed T → r ∈ T → r' ∈ T → TurnID r = TurnID r' → r = r'.
Proof.
  intros (H & _)%keyed_indexes [i Hi]%list_elem_of_lookup [j Hj]%list_elem_of_lookup E. rewrite unique_by_true in H. assert (i = j) as -> by (eapply H; [done..| |done]; cbn; by f_equal). congruence.
Qed.

Lemma keyed_occupant T r r' : keyed T → r ∈ T → r' ∈ T → TargetKey r = TargetKey r' → occupying (TurnState r) = true → occupying (TurnState r') = true → r = r'.
Proof.
  intros (_ & H & _)%keyed_indexes [i Hi]%list_elem_of_lookup [j Hj]%list_elem_of_lookup E O O'. rewrite unique_by_true in H.
  assert (i = j) as -> by (eapply (H i j r r' (TargetKey r)); [done..| |]; unfold holder_key; rewrite ?O, ?O', ?E; done). congruence.
Qed.

(** ** The lane *)
Definition lane_as (f : MergeTurnsRow → option string) (T : list MergeTurnsRow) (L : list MergeTurnLedgerRow) : Prop :=
  keyed T ∧ (∀ e, e ∈ L → ∃ r, r ∈ T ∧ TurnID r = EntryTurn e) ∧ (∀ r, r ∈ T → ends L (TurnID r) = Some (f r)).
Definition now (r : MergeTurnsRow) : option string := Some (TurnState r).
Definition lane : list MergeTurnsRow → list MergeTurnLedgerRow → Prop := lane_as now.

(** The states the ledger stands at when it is at [s] for one turn, and where the rows are for the others. *)
Definition at_state (id : string) (s : option string) (r : MergeTurnsRow) : option string := if bool_decide (TurnID r = id) then s else now r.

Lemma lane_ext f g T L : (∀ r, r ∈ T → f r = g r) → lane_as f T L → lane_as g T L.
Proof. intros Hfg (H1 & H2 & H3). split_and!; [done..|]. intros r Hr. by rewrite <- Hfg, H3. Qed.

Lemma at_state_now id s (T : list MergeTurnsRow) : (∀ r, r ∈ T → TurnID r = id → now r = s) → ∀ r, r ∈ T → at_state id s r = now r.
Proof. intros H r Hr. unfold at_state. destruct (bool_decide_reflect (TurnID r = id)); [|done]. symmetry. by apply H. Qed.

Lemma now_at_state T r : keyed T → r ∈ T → ∀ r', r' ∈ T → now r' = at_state (TurnID r) (now r) r'.
Proof. intros Hk Hr r' Hr'. unfold at_state. destruct (bool_decide_reflect (TurnID r' = TurnID r)); [|done]. by rewrite (keyed_id T r' r). Qed.

(** No turn of the target occupies it. *)
Definition free (target : string) (T : list MergeTurnsRow) : Prop := ∀ r, r ∈ T → TargetKey r = target → occupying (TurnState r) = false.

(** Nothing is lost: the ledger only grows, and a row keeps what identifies it. *)
Definition identity_of (r : MergeTurnsRow) : list string * (option string * option Z * Z) :=
  ([TurnID r; TargetKey r; Repository r; BaseRef r; ProjectKey r; HolderTaskID r; HolderHostID r; RequestedAt r], (RelationshipID r, PRNumber r, Tenure r)).

Definition grows (T0 : list MergeTurnsRow) (L0 : list MergeTurnLedgerRow) (T : list MergeTurnsRow) (L : list MergeTurnLedgerRow) : Prop :=
  L0 `prefix_of` L ∧ (identity_of <$> T0) `prefix_of` (identity_of <$> T).

Lemma grows_refl T L : grows T L T L.
Proof. done. Qed.

(** ** Following a body *)
Definition benign (e : MergeError) : Prop := e ≠ Constraint "merge_turns_one_live_holder" ∧ e ≠ Constraint "merge_turns_one_live_claim".

Definition assn : Type := list MergeTurnsRow → list MergeTurnLedgerRow → Prop.
Definition holds (P : assn) (st : Tables) : Prop := P (t_turns st) (t_ledger st).
Definition spec {A} (P : assn) (m : M A) (Q : A → assn) : Prop :=
  ∀ st, holds P st → match m st with Ok (x, st') => holds (Q x) st' | Err e => benign e end.

Section rules.
Context {A B : Type}.
Implicit Types (P : assn) (m : M A).

Lemma spec_ret P (x : A) Q : (∀ T L, P T L → Q x T L) → spec P (mret x) Q.
Proof. intros H st HP. by apply H. Qed.

Lemma spec_bind P m (Q : A → assn) (f : A → M B) (R : B → assn) : spec P m Q → (∀ x, spec (Q x) (f x) R) → spec P (m ≫= f) R.
Proof.
  intros Hm Hf st HP. specialize (Hm st HP). cbv [mbind M_bind]. destruct (m st) as [[x st']|e]; [|done]. by apply Hf.
Qed.

Lemma spec_get P (f : Tables → A) (Q : A → assn) : (∀ st, holds P st → holds (Q (f st)) st) → spec P (get f) Q.
Proof. intros H st HP. by apply H. Qed.

Lemma spec_look P (f : Tables → A) : spec P (get f) (λ _, P).
Proof. by apply spec_get. Qed.

Lemma spec_look_fact (ψ : A → Prop) P (f : Tables → A) : (∀ st, ψ (f st)) → spec P (get f) (λ x T L, ψ x ∧ P T L).
Proof. intros H. apply spec_get. intros st HP. by split. Qed.

Lemma spec_raise P e (Q : A → assn) : benign e → spec P (raise e) Q.
Proof. by intros H st _. Qed.

Lemma spec_pre P P' m (Q : A → assn) : spec P' m Q → (∀ T L, P T L → P' T L) → spec P m Q.
Proof. intros H HP st Hst. apply H, HP, Hst. Qed.

Lemma spec_post P m (Q Q' : A → assn) : spec P m Q → (∀ x T L, Q x T L → Q' x T L) → spec P m Q'.
Proof. intros H HQ st Hst. specialize (H st Hst). destruct (m st) as [[x st']|e]; [|done]. by apply HQ. Qed.

(** What a fact about the state says may be assumed. *)
Lemma spec_pull (φ : Prop) P m (Q : A → assn) : (φ → spec P m Q) → spec (λ T L, φ ∧ P T L) m Q.
Proof. intros H st [Hφ HP]. by apply H. Qed.

Lemma spec_pure (ψ : Prop) P m (Q : A → assn) : (∀ T L, P T L → ψ) → (ψ → spec P m Q) → spec P m Q.
Proof. intros H HQ st HP. apply HQ; [|done]. by eapply H. Qed.

Lemma spec_ex {X} (P : X → assn) m (Q : A → assn) : (∀ x, spec (P x) m Q) → spec (λ T L, ∃ x, P x T L) m Q.
Proof. intros H st [x HP]. by eapply H. Qed.
End rules.

Lemma spec_then {B} P (m : M ()) (Q : assn) (m' : M B) (R : B → assn) : spec P m (λ _, Q) → spec Q m' R → spec P (m;; m') R.
Proof. intros H H'. eapply spec_bind; [exact H|]. by intros []. Qed.

(** Statements on the other tables change nothing of the lane. *)
Lemma spec_journal P kind turn payload at_ : spec P (journalOutcome kind turn payload at_) (λ _, P).
Proof. by intros st HP. Qed.

Lemma spec_conflict P c at_ : spec P (RecordCoordinationConflict c at_) (λ _, P).
Proof. intros st HP. unfold RecordCoordinationConflict. by destruct (existsb _ _). Qed.

Lemma spec_check_row P c : spec P (RecordMergeCheck c) (λ _, P).
Proof. intros st HP. unfold RecordMergeCheck. by destruct (existsb _ _). Qed.

Lemma spec_queue P d q : spec P (queue d q) (λ _, P).
Proof. intros st HP. unfold queue. by destruct (QueueError d q). Qed.

Lemma spec_refuse {A} P c at_ (Q : result CoordinationRefusal A → assn) : (∀ T L, P T L → Q (Err c) T L) → spec P (refuse c at_) Q.
Proof. intros H. eapply spec_then; [apply spec_conflict|]. by apply spec_ret. Qed.

Lemma row_cases turn st : match row turn st with Ok (r, st') => st' = st ∧ r ∈ t_turns st ∧ TurnID r = turn | Err e => benign e end.
Proof.
  unfold row, get, mbind, M_bind, MergeTurn. destruct (head _) as [r|] eqn:E; cbn; [|by split].
  apply head_Some_elem_of, list_elem_of_filter in E as [E ?]. done.
Qed.

Lemma spec_row P turn : spec P (row turn) (λ r T L, (TurnID r = turn ∧ r ∈ T) ∧ P T L).
Proof. intros st HP. pose proof (row_cases turn st) as H. destruct (row turn st) as [[r st']|e]; [|done]. by destruct H as (-> & ? & ?). Qed.

(** * What the shared parts of the operations do to the lane.

    [inv φ f T0 L0] is the lane with the ledger standing at the states [f], a fact [φ] about the rows, and nothing lost since [T0] and [L0]. Each writer of [MergeTurn] gets one rule. *)
Definition inv (φ : list MergeTurnsRow → Prop) (f : MergeTurnsRow → option string) (T0 : list MergeTurnsRow) (L0 : list MergeTurnLedgerRow) : assn :=
  λ T L, φ T ∧ lane_as f T L ∧ grows T0 L0 T L.

Lemma inv_mono (φ ψ : list MergeTurnsRow → Prop) f T0 L0 T L : (∀ T, keyed T → φ T → ψ T) → inv φ f T0 L0 T L → inv ψ f T0 L0 T L.
Proof. intros H (H1 & H2 & H3). split_and!; [|done..]. apply H; [apply H2|done]. Qed.

(** ** Entries *)
Lemma ledger_cases id kind from to ev actor body identity at_ st :
  let e := mkEntry (ledgerID id identity) id kind (nullable from) (nullable to) ev actor body identity at_ in
  match ledger id kind from to ev actor body identity at_ st with
  | Ok (_, st') => t_turns st' = t_turns st ∧
    (t_ledger st' = (t_ledger st ++ [e])%list ∨
     t_ledger st' = t_ledger st ∧ ∃ x, x ∈ t_ledger st ∧ EntryTurn x = id ∧ IdempotencyKey x = identity ∧ (engineLedgerKind ev = true → same_fact x e))
  | Err err => benign err
  end.
Proof.
  intros e. unfold ledger. fold e. cbv [mbind M_bind]. unfold WriteMergeLedger. destruct (existsb (λ x, bool_decide (_ ∧ _)) (t_ledger st)) eqn:Ex.
  - assert (∃ x, MergeLedgerEntry id identity st = Some x ∧ x ∈ t_ledger st ∧ EntryTurn x = id ∧ IdempotencyKey x = identity) as (x & Hx & Hin & E1 & E2).
    { unfold MergeLedgerEntry. apply existsb_exists in Ex as (y & Hy%list_elem_of_In & Hk%bool_decide_eq_true). destruct (head _) as [x|] eqn:Eh.
      - exists x. apply head_Some_elem_of, list_elem_of_filter in Eh as [[??] ?]. done.
      - apply head_None in Eh. assert (y ∈ filter (λ e, EntryTurn e = id ∧ IdempotencyKey e = identity) (t_ledger st)) as Hf by (by apply list_elem_of_filter).
        rewrite Eh in Hf. by apply elem_of_nil in Hf. }
    destruct (engineLedgerKind ev) eqn:Ek; cbn [negb get].
    + rewrite Hx. destruct (bool_decide_reflect (same_fact x e)); cbn; [|done]. split; [done|]. right. eauto 7.
    + cbn. split; [done|]. right. split; [done|]. exists x. by split_and!.
  - destruct (existsb (λ x, bool_decide (EntryID x = _)) (t_ledger st)); [by split|]. destruct (engineLedgerKind ev) eqn:Ek; cbn [negb]; [|by split; [|left]].
    unfold get. destruct (MergeLedgerEntry _ _ _) as [x|]; [|by split]. destruct (bool_decide _); [by split; [|left]|done].
Qed.

Section entries.
Context (φ : list MergeTurnsRow → Prop) (T0 : list MergeTurnsRow) (L0 : list MergeTurnLedgerRow) (id : string).
Hypothesis Hknown : ∀ T, φ T → ∃ r, r ∈ T ∧ TurnID r = id.

Lemma lane_snoc f g T L e : EntryTurn e = id → φ T → lane_as f T L →
  (∀ r, r ∈ T → (match ends L (TurnID r) with Some s => walk s (moves (TurnID r) [e]) | None => None end) = Some (g r)) → lane_as g T (L ++ [e]).
Proof.
  intros He Hφ (H1 & H2 & H3) Hg. split_and!; [done| |].
  - intros x [?| ->%list_elem_of_singleton]%elem_of_app; [by apply H2|]. destruct (Hknown T Hφ) as (r & ? & ?). exists r. split; [done|congruence].
  - intros r Hr. unfold ends. rewrite moves_app, walk_app. fold (ends L (TurnID r)). by apply Hg.
Qed.

Lemma grows_snoc T L e : grows T0 L0 T L → grows T0 L0 T (L ++ [e]).
Proof. intros [H1 H2]. split; [|done]. by apply prefix_app_r. Qed.

(** An entry that moves nothing. *)
Lemma spec_note f kind from to ev actor body identity at_ : ¬ (kind = "transition" ∧ nullable from ≠ nullable to) →
  spec (inv φ f T0 L0) (ledger id kind from to ev actor body identity at_) (λ _, inv φ f T0 L0).
Proof.
  intros Hn st (H1 & H2 & H3). pose proof (ledger_cases id kind from to ev actor body identity at_ st) as Hc. cbn zeta in Hc.
  destruct (ledger _ _ _ _ _ _ _ _ _ st) as [[u st']|e]; [|done]. destruct Hc as [ET [EL|[EL _]]]; unfold holds; rewrite ET, EL; [|done].
  split_and!; [done| |by apply grows_snoc]. eapply lane_snoc; [done..|]. intros r Hr. rewrite (proj2 (proj2 H2)) by done.
  unfold moves. rewrite filter_cons_False; [done|]. intros (_ & ? & ?). by apply Hn.
Qed.

(** An entry that moves the turn. *)
Lemma spec_move s from to ev actor body identity at_ : nullable from = s → edge s to → engineLedgerKind ev = true →
  spec (inv φ (at_state id s) T0 L0) (ledger id "transition" from to ev actor body identity at_) (λ _, inv φ (at_state id (Some to)) T0 L0).
Proof.
  intros Es Hedge Hk st (H1 & H2 & H3). pose proof (ledger_cases id "transition" from to ev actor body identity at_ st) as Hc. cbn zeta in Hc.
  pose proof (proj1 (edge_named _ _ Hedge)) as Et.
  assert (s ≠ Some to) as Hne by (intros ->; apply edge_rank in Hedge; lia).
  destruct (ledger _ _ _ _ _ _ _ _ _ st) as [[u st']|e]; [|done]. destruct Hc as [ET [EL|[EL (x & Hx & Ex & _ & Hf)]]]; unfold holds; rewrite ET, EL.
  - split_and!; [done| |by apply grows_snoc]. eapply lane_snoc; [done..|]. intros r Hr. rewrite (proj2 (proj2 H2)) by done. unfold at_state.
    destruct (bool_decide_reflect (TurnID r = id)) as [E|E].
    + unfold moves. rewrite filter_cons_True by (split_and!; [done..|]; cbn; congruence). cbn. rewrite Es, Et. by rewrite bool_decide_eq_true_2.
    + unfold moves. rewrite filter_cons_False by (intros (F & _); cbn in F; congruence). done.
  - exfalso. destruct (Hf Hk) as (F1 & F2 & F3 & _). cbn in F1, F2, F3. destruct H2 as (_ & Ht & He). destruct (Ht x Hx) as (r & Hr & Er).
    specialize (He r Hr). rewrite Er, Ex in He. unfold at_state in He. rewrite bool_decide_eq_true_2 in He by congruence. apply walk_up in He as [_ He].
    specialize (He (FromState x) (ToState x)). assert (rank (FromState x) < rank s) as Hlt; [|rewrite F2, Es in Hlt; lia].
    apply He. unfold moves. apply list_elem_of_fmap. exists x. split; [done|]. apply list_elem_of_filter. split; [|done]. split_and!; [done..|]. rewrite F2, F3, Es, Et. done.
Qed.
End entries.

(** ** Rows *)
Lemma upd_elem id g T x : x ∈ upd id g T ↔ (∃ r, r ∈ T ∧ TurnID r = id ∧ x = g r) ∨ (x ∈ T ∧ TurnID x ≠ id).
Proof.
  unfold upd. rewrite list_elem_of_fmap. split.
  - intros (r & -> & Hr). destruct (bool_decide_reflect (TurnID r = id)); [left; by exists r|by right].
  - intros [(r & Hr & E & ->)|[Hx E]]; [exists r; by rewrite bool_decide_eq_true_2|exists x; by rewrite bool_decide_eq_false_2].
Qed.

Definition keeps (g : MergeTurnsRow → MergeTurnsRow) : Prop := ∀ r, identity_of (g r) = identity_of r.

Lemma keeps_id g r : keeps g → TurnID (g r) = TurnID r ∧ TargetKey (g r) = TargetKey r ∧ HolderTaskID (g r) = HolderTaskID r.
Proof. intros H. specialize (H r). unfold identity_of in H. by simplify_eq. Qed.

Lemma upd_identity id g T : keeps g → identity_of <$> upd id g T = identity_of <$> T.
Proof.
  intros Hg. unfold upd. rewrite <- list_fmap_compose. apply list_fmap_ext. intros i r _. cbn. destruct (bool_decide _); [apply Hg|done].
Qed.

Lemma upd_ids id g T : keeps g → unique_by (Some ∘ TurnID) T = true → unique_by (Some ∘ TurnID) (upd id g T) = true.
Proof.
  intros Hg. apply unique_by_map. intros r _. left. cbn. destruct (bool_decide _); [|done]. f_equal. by apply keeps_id.
Qed.

Lemma upd_keyed id g T : keeps g → keyed T → unique_by holder_key (upd id g T) = true → unique_by claim_key (upd id g T) = true → keyed (upd id g T).
Proof.
  intros Hg K U1 U2. apply keyed_intro; [|done..|].
  - apply upd_ids; [done|]. by apply keyed_indexes.
  - rewrite Forall_forall. intros x [(r & Hr & _ & ->)|[Hx _]]%upd_elem; [|by apply (proj1 (Forall_forall _ _) (proj2 K))].
    pose proof (proj1 (Forall_forall _ _) (proj2 K) r Hr) as D. unfold derived in *. specialize (Hg r). unfold identity_of in Hg. simplify_eq. congruence.
Qed.

(** A statement on the row of one turn: the lane is kept, whatever the state of the row becomes. *)
Lemma spec_update φ id s g T0 L0 : keeps g →
  (∀ T, φ T → keyed T → unique_by holder_key (upd id g T) = true ∧ unique_by claim_key (upd id g T) = true) →
  spec (inv φ (at_state id s) T0 L0) (update_turn id g) (λ _, inv (λ T, ∃ T', T = upd id g T' ∧ φ T' ∧ keyed T') (at_state id s) T0 L0).
Proof.
  intros Hg Hu st (H1 & H2 & H3 & H4). unfold update_turn, write_turns. fold (upd id g (t_turns st)).
  destruct (Hu _ H1 (proj1 H2)) as [U1 U2]. unfold turn_constraints. rewrite U1, U2. cbn [negb].
  rewrite upd_ids by (done || apply keyed_indexes, H2). cbn. destruct H2 as (K & H2 & H2'). split_and!; [by exists (t_turns st)| |split].
  - split_and!.
    + by apply upd_keyed.
    + intros e He. destruct (H2 e He) as (r & Hr & E). destruct (decide (TurnID r = id)) as [Ei|Ei].
      * exists (g r). split; [apply upd_elem; left; by exists r|]. by rewrite (proj1 (keeps_id g r Hg)).
      * exists r. split; [apply upd_elem; by right|done].
    + intros x [(r & Hr & E & ->)|[Hx E]]%upd_elem.
      * rewrite (proj1 (keeps_id g r Hg)), H2' by done. unfold at_state. rewrite !bool_decide_eq_true_2; [done| |done]. by rewrite (proj1 (keeps_id g r Hg)).
      * by apply H2'.
  - done.
  - cbn. by rewrite upd_identity.
Qed.

(** A row that keeps or gives up its keys. *)
Lemma keys_shrink id g T : (∀ r, r ∈ T → TurnID r = id → (holder_key (g r) = holder_key r ∨ holder_key (g r) = None) ∧ (claim_key (g r) = claim_key r ∨ claim_key (g r) = None)) →
  keyed T → unique_by holder_key (upd id g T) = true ∧ unique_by claim_key (upd id g T) = true.
Proof.
  intros Hg (_ & K1 & K2)%keyed_indexes. split; (apply unique_by_map; [|done]); intros r Hr; cbn; (destruct (bool_decide_reflect (TurnID r = id)) as [E|]; [|by left]); by apply (Hg r Hr E).
Qed.

(** A waiting claim that takes a free target. *)
Lemma keys_take id g T r : keeps g → TurnState (g r) = Holding → r ∈ T → TurnID r = id → TurnState r = Waiting → free (TargetKey r) T → keyed T →
  unique_by holder_key (upd id g T) = true ∧ unique_by claim_key (upd id g T) = true.
Proof.
  intros Hg Eg Hr Er Es Hf K. pose proof K as (_ & K1 & K2)%keyed_indexes. destruct (keeps_id g r Hg) as (I1 & I2 & I3). split.
  - apply unique_by_true. intros i j x y k Hx Hy Ex Ey. pose proof (list_elem_of_lookup_2 _ _ _ Hx) as Mx. pose proof (list_elem_of_lookup_2 _ _ _ Hy) as My.
    assert (∀ i x, upd id g T !! i = Some x → x ∈ upd id g T → holder_key x = Some k → ∃ r', T !! i = Some r' ∧ (r' = r ∧ x = g r ∧ k = TargetKey r ∨ x = r' ∧ TurnID r' ≠ id)) as Hsplit.
    { clear -Hr Er Es K Eg I2. intros i x Hx _ Ex. unfold upd in Hx. rewrite list_lookup_fmap, fmap_Some in Hx. destruct Hx as (r' & Hr' & ->). exists r'. split; [done|]. revert Ex.
      destruct (bool_decide_reflect (TurnID r' = id)) as [E|E]; intros Ex; [left|by right]. assert (r' = r) as -> by (eapply keyed_id; [done|by eapply list_elem_of_lookup_2|done|congruence]).
      split_and!; [done..|]. unfold holder_key in Ex. rewrite Eg in Ex. change (occupying Holding) with true in Ex. cbn in Ex. congruence. }
    destruct (Hsplit i x Hx Mx Ex) as (rx & Tx & [(-> & -> & ->)|[-> Nx]]), (Hsplit j y Hy My Ey) as (ry & Ty & [(-> & -> & Ek)|[-> Ny]]).
    + eapply (proj1 (unique_by_true (Some ∘ TurnID) T)); [apply keyed_indexes, K|exact Tx|exact Ty|done|done].
    + exfalso. unfold holder_key in Ey. destruct (occupying (TurnState ry)) eqn:O; [|done]. injection Ey as Ey. rewrite (Hf ry) in O; [done|by eapply list_elem_of_lookup_2|done].
    + exfalso. unfold holder_key in Ex. destruct (occupying (TurnState rx)) eqn:O; [|done]. injection Ex as Ex. rewrite (Hf rx) in O; [done|by eapply list_elem_of_lookup_2|congruence].
    + by eapply (proj1 (unique_by_true holder_key T)).
  - apply unique_by_map; [|done]. intros r' Hr'. cbn. destruct (bool_decide_reflect (TurnID r' = id)) as [E|]; [|by left]. assert (r' = r) as -> by (eapply keyed_id; [done..|congruence]).
    left. unfold claim_key. by rewrite Eg, Es, I2, I3.
Qed.

(** ** Closing, granting, taking over *)
Lemma set_turn_keeps state ready head_ held merging closed landed observed checked reason at_ r :
  identity_of (set_turn state ready head_ held merging closed landed observed checked reason at_ r) = identity_of r.
Proof. done. Qed.

Lemma live_occupying s : live s = false → occupying s = false.
Proof. unfold live, occupying. rewrite !bool_decide_eq_false. set_solver. Qed.

(** The ledger of a turn stands where its row does. *)
Lemma inv_at φ r T0 L0 T L : (∀ T, φ T → r ∈ T) → inv φ now T0 L0 T L → inv φ (at_state (TurnID r) (now r)) T0 L0 T L.
Proof. intros Hr (H1 & H2 & H3). split_and!; [done| |done]. eapply lane_ext; [|exact H2]. apply now_at_state; [apply H2|by apply Hr]. Qed.

Lemma inv_now φ id s T0 L0 T L : (∀ T, φ T → ∀ r, r ∈ T → TurnID r = id → now r = s) → inv φ (at_state id s) T0 L0 T L → inv φ now T0 L0 T L.
Proof. intros Hr (H1 & H2 & H3). split_and!; [done| |done]. eapply lane_ext; [|exact H2]. apply at_state_now. by apply Hr. Qed.

(** After an UPDATE of [r]. *)
Definition updated (φ : list MergeTurnsRow → Prop) (id : string) (g : MergeTurnsRow → MergeTurnsRow) (T : list MergeTurnsRow) : Prop := ∃ T', T = upd id g T' ∧ φ T' ∧ keyed T'.

Lemma updated_known φ r g T : keeps g → (∀ T, φ T → r ∈ T) → updated φ (TurnID r) g T → ∃ r', r' ∈ T ∧ TurnID r' = TurnID r.
Proof.
  intros Hg Hr (T' & -> & Hφ & _). exists (g r). split; [|by apply keeps_id]. apply upd_elem. left. exists r. by split_and!; [apply Hr|..].
Qed.

Lemma updated_now φ r g T : keeps g → (∀ T, φ T → r ∈ T) → updated φ (TurnID r) g T → ∀ x, x ∈ T → TurnID x = TurnID r → x = g r.
Proof.
  intros Hg Hr (T' & -> & Hφ & K) x [(r' & Hr' & E & ->)|[_ ?]]%upd_elem E'; [|done]. by rewrite (keyed_id T' r' r K Hr' (Hr _ Hφ) E).
Qed.

Section writers.
Context (φ : list MergeTurnsRow → Prop) (T0 : list MergeTurnsRow) (L0 : list MergeTurnLedgerRow) (r : MergeTurnsRow).
Hypothesis Hr : ∀ T, φ T → r ∈ T.

(** An UPDATE of the state of the row, its entry in the ledger, and what follows. *)
Lemma spec_shift {A} g from to ev actor body identity at_ (k : M A) Q : keeps g → TurnState (g r) = to → nullable from = now r → edge (now r) to → engineLedgerKind ev = true →
  (∀ T, φ T → keyed T → unique_by holder_key (upd (TurnID r) g T) = true ∧ unique_by claim_key (upd (TurnID r) g T) = true) →
  spec (inv (updated φ (TurnID r) g) now T0 L0) k Q →
  spec (inv φ now T0 L0) (update_turn (TurnID r) g;; ledger (TurnID r) "transition" from to ev actor body identity at_;; k) Q.
Proof.
  intros Hg Eg Ef He Hk Hu HQ. eapply spec_pre; [|intros T L; by apply inv_at]. eapply spec_then; [apply (spec_update φ (TurnID r) (now r) g); done|].
  eapply spec_then; [apply spec_move; [|done..]|].
  - intros T. by apply updated_known.
  - eapply spec_pre; [exact HQ|]. intros T L. apply inv_now. intros T' HT' x Hx E. rewrite (updated_now φ r g T' Hg Hr HT' x Hx E). unfold now. by rewrite Eg.
Qed.

Lemma spec_close state reason actor at_ landed observed : edge (now r) state → live state = false →
  spec (inv φ now T0 L0) (closeWith r state reason actor at_ landed observed)
    (λ _, inv (updated φ (TurnID r) (closed_row state reason at_ landed observed)) now T0 L0).
Proof.
  intros He Hl. unfold closeWith, CloseMergeTurn. apply spec_shift; [done|done|by apply (edge_named _ _ He)|done|done| |apply spec_journal].
  intros T Hφ K. apply keys_shrink; [|done]. intros x Hx E. split; right; unfold holder_key, claim_key; cbn; by rewrite ?Hl, ?live_occupying.
Qed.

Lemma spec_grant f w r' source at_ : TurnID r' = TurnID r → spec (inv φ f T0 L0) (grant w r' source at_) (λ _, inv φ f T0 L0).
Proof.
  intros E. assert (∀ T, φ T → ∃ x, x ∈ T ∧ TurnID x = TurnID r') as Hk by (intros T HT; exists r; split; [by apply Hr|done]).
  unfold grant. eapply spec_bind; [apply spec_look|]. intros entries. cbn zeta.
  eapply spec_then; [|eapply spec_then; [apply (spec_note φ T0 L0 (TurnID r') Hk); by intros [? _]|]].
  - destruct (if bool_decide _ then _ else _) as [[d [?|?]]|]; [apply spec_journal|by apply spec_ret..].
  - destruct (if bool_decide _ then _ else _) as [[d [?|?]]|]; [by apply spec_ret|eapply spec_then; [apply spec_queue|apply spec_journal]|by apply spec_ret].
Qed.
End writers.

Lemma spec_take_over φ T0 L0 w c at_ : (∀ T, φ T → c ∈ T ∧ free (TargetKey c) T) → TurnState c = Waiting →
  spec (inv φ now T0 L0) (take_over w c at_) (λ _, inv (updated φ (TurnID c) (promoted_row at_)) now T0 L0).
Proof.
  intros Hc Ew. set (g := promoted_row at_). assert (keeps g) as Hg by done. assert (∀ T, φ T → c ∈ T) as Hin by (intros T HT; by apply Hc).
  eapply spec_pre; [|intros T L; by apply inv_at]. unfold take_over. eapply spec_then; [apply (spec_update φ (TurnID c) (now c) g); [done|]|].
  - intros T Hφ K. destruct (Hc T Hφ) as [? ?]. by apply (keys_take (TurnID c) g T c).
  - eapply spec_then; [apply spec_move; [|unfold now; by rewrite Ew|unfold now; rewrite Ew; by apply an_edge|done]|].
    + intros T. by apply updated_known.
    + eapply spec_post; [apply (spec_grant _ T0 L0 (g c)); [|done]|].
      * intros T (T' & -> & Hφ & K). apply upd_elem. left. exists c. by split_and!; [apply Hin|..].
      * intros [] T L. apply inv_now. intros T' HT' x Hx E. by rewrite (updated_now φ c g T' Hg Hin HT' x Hx E).
Qed.
