(* ===== verification/MergeLaneOps.v ===== *)
(** * MergeLaneOps: the promotion and every operation of the lane keep the invariant. *)
From S2P Require Import Prelude GoLib Sha256 Json Loads GoJson GoPath MergeStore MergeTurn MergeHead MergeOps MergeLand MergeLane.
Local Open Scope string_scope.
Section promote.
Context (w : World) (target at_ : string).

Definition eligible (c : MergeTurnsRow) : Prop := withheld w (ProjectKey c) (HolderTaskID c) = "".

Lemma ownership_parents project subject actor owner : ownership w project subject actor = inr owner ↔ parents w project = [owner].
Proof. unfold ownership. destruct (parents w project) as [|p [|q l]]; naive_solver. Qed.

Lemma stale_None c : stale_claim w target c = None ↔ parents w (ProjectKey c) = [HolderTaskID c].
Proof.
  unfold stale_claim. destruct (ownership _ _ _ _) as [refusal|owner] eqn:E.
  - split; [done|]. intros H. rewrite (proj2 (ownership_parents _ target (HolderTaskID c) _) H) in E. done.
  - apply ownership_parents in E. rewrite E. unfold when. destruct (bool_decide_reflect (owner = HolderTaskID c)); cbn; naive_solver.
Qed.

Lemma eligible_iff c : eligible c ↔ stale_claim w target c = None ∧ ownerStatus w (ProjectKey c) = "active".
Proof.
  unfold eligible, withheld. rewrite stale_None. destruct (bool_decide_reflect (parents w (ProjectKey c) = [HolderTaskID c])); cbn; [|naive_solver].
  destruct (bool_decide_reflect (ownerStatus w (ProjectKey c) = "active")); cbn; naive_solver.
Qed.

(** What happens to a row: the claims [seen] before the promoted one that lost their standing are withdrawn, and the promoted one holds. *)
Definition served (seen : list MergeTurnsRow) (promoted : option string) (r : MergeTurnsRow) : MergeTurnsRow :=
  if bool_decide (TurnID r ∈ TurnID <$> seen) then
    match stale_claim w target r with Some c => closed_row "withdrawn" ("withdrawn at promotion: " +:+ Reason c) at_ None None r | None => r end
  else if bool_decide (promoted = Some (TurnID r)) then promoted_row at_ r else r.

(** The claim [waiters] go to: the first eligible one, if there is one. *)
Definition chosen (waiters seen : list MergeTurnsRow) (promoted : option string) : Prop :=
  match promoted with
  | None => seen = waiters ∧ Forall (λ c, ¬ eligible c) waiters
  | Some id => ∃ c rest, waiters = (seen ++ c :: rest)%list ∧ TurnID c = id ∧ eligible c ∧ Forall (λ c, ¬ eligible c) seen
  end.

Definition queued_in (T waiters : list MergeTurnsRow) : Prop :=
  NoDup (TurnID <$> waiters) ∧ Forall (λ c, c ∈ T ∧ TurnState c = Waiting ∧ TargetKey c = target) waiters.

Lemma queued_tail T c waiters : queued_in T (c :: waiters) → queued_in T waiters.
Proof. intros [[_ ?]%NoDup_cons [_ ?]%Forall_cons]. by split. Qed.

Lemma free_upd id g T : keeps g → (∀ r, r ∈ T → TurnID r = id → occupying (TurnState (g r)) = false) → free target T → free target (upd id g T).
Proof. intros Hg Ho Hf x [(r & Hr & E & ->)|[Hx _]]%upd_elem; [intros _; by apply Ho|by apply Hf]. Qed.

Lemma queued_upd g T c waiters : queued_in T (c :: waiters) → queued_in (upd (TurnID c) g T) waiters.
Proof.
  intros [[Hn ?]%NoDup_cons [_ Hw]%Forall_cons]. split; [done|]. rewrite Forall_forall in *. intros x Hx. destruct (Hw x Hx) as (? & ? & ?). split_and!; [|done..].
  apply upd_elem. right. split; [done|]. intros E. apply Hn. rewrite <- E. by apply list_elem_of_fmap_2.
Qed.

(** The first claim is withdrawn, the rest is served: the same as serving both. *)
Lemma served_cons T c rest seen promoted refusal : keyed T → queued_in T (c :: rest) → chosen rest seen promoted → stale_claim w target c = Some refusal →
  served seen promoted <$> upd (TurnID c) (closed_row "withdrawn" ("withdrawn at promotion: " +:+ Reason refusal) at_ None None) T = served (c :: seen) promoted <$> T.
Proof.
  intros K [[Hn _]%NoDup_cons [[Hc _] _]%Forall_cons] Hch Hs. unfold upd. rewrite <- list_fmap_compose. apply list_fmap_ext. intros i r Hr%list_elem_of_lookup_2. cbn.
  assert (seen ⊆ rest ∧ promoted ≠ Some (TurnID c)) as [Hsub Hp].
  { destruct promoted as [id|]; cbn in Hch; [|by destruct Hch as [-> _]]. destruct Hch as (c' & rest' & -> & <- & _). split; [set_solver|]. intros [= E].
    apply Hn. rewrite <- E. apply list_elem_of_fmap_2. set_solver. }
  assert (TurnID c ∉ TurnID <$> seen) as Hns by (intros (x & E & Hx)%list_elem_of_fmap; apply Hn; rewrite E; apply list_elem_of_fmap_2; by apply Hsub).
  unfold served. destruct (bool_decide_reflect (TurnID r = TurnID c)) as [E|E].
  - assert (r = c) as -> by (by apply (keyed_id T)). rewrite (bool_decide_eq_true_2 (TurnID c ∈ TurnID <$> c :: seen)) by (rewrite fmap_cons; by left).
    rewrite bool_decide_eq_false_2 by done. rewrite bool_decide_eq_false_2 by done. by rewrite Hs.
  - rewrite (bool_decide_ext (TurnID r ∈ TurnID <$> c :: seen) (TurnID r ∈ TurnID <$> seen)); [done|]. rewrite fmap_cons, elem_of_cons. naive_solver.
Qed.

Lemma served_paused T c rest seen promoted : keyed T → queued_in T (c :: rest) → chosen rest seen promoted → stale_claim w target c = None →
  served seen promoted <$> T = served (c :: seen) promoted <$> T.
Proof.
  intros K [[Hn _]%NoDup_cons [[Hc _] _]%Forall_cons] Hch Hs. apply list_fmap_ext. intros i r Hr%list_elem_of_lookup_2.
  assert (promoted ≠ Some (TurnID c)) as Hp.
  { destruct promoted as [id|]; [|done]. destruct Hch as (c' & rest' & -> & <- & _). intros [= E]. apply Hn. rewrite <- E. apply list_elem_of_fmap_2. set_solver. }
  unfold served. destruct (bool_decide_reflect (TurnID r = TurnID c)) as [E|E].
  - assert (r = c) as -> by (by apply (keyed_id T)). rewrite (bool_decide_eq_true_2 (TurnID c ∈ TurnID <$> c :: seen)) by (rewrite fmap_cons; by left).
    rewrite Hs. destruct (bool_decide _); [done|]. by rewrite bool_decide_eq_false_2.
  - rewrite (bool_decide_ext (TurnID r ∈ TurnID <$> c :: seen) (TurnID r ∈ TurnID <$> seen)); [done|]. rewrite fmap_cons, elem_of_cons. naive_solver.
Qed.

(** What the walk leaves: the rows of before, served. *)
Definition served_from (φ : list MergeTurnsRow → Prop) (waiters : list MergeTurnsRow) (promoted : string) (T : list MergeTurnsRow) : Prop :=
  ∃ T' seen, T = served seen (nullable promoted) <$> T' ∧ chosen waiters seen (nullable promoted) ∧ φ T'.

Lemma spec_promote_loop φ T0 L0 waiters : (∀ T, φ T → free target T ∧ queued_in T waiters ∧ keyed T) → Forall (λ c, TurnID c ≠ "") waiters →
  spec (inv φ now T0 L0) (promote_loop w target at_ waiters) (λ id, inv (served_from φ waiters id) now T0 L0).
Proof.
  revert φ. induction waiters as [|c waiters IH]; intros φ Hφ Hne; cbn [promote_loop].
  { apply spec_ret. intros T L H. eapply inv_mono; [|exact H]. intros T' _ HT'. exists T', []. split_and!; [|done..]. symmetry. apply list_fmap_id. }
  apply Forall_cons in Hne as [Hc Hne]. assert (∀ T, φ T → c ∈ T ∧ TurnState c = Waiting ∧ TargetKey c = target) as Hin.
  { intros T HT. destruct (Hφ T HT) as (_ & [_ [? _]%Forall_cons] & _). done. }
  destruct (stale_claim w target c) as [refusal|] eqn:Es.
  - apply (spec_pure (TurnState c = Waiting)); [intros T L H; by apply (Hin _ (proj1 H))|]. intros Ew.
    eapply spec_then; [apply (spec_close φ); [by apply Hin|unfold now; rewrite Ew; by apply an_edge|done]|].
    eapply spec_then; [apply spec_conflict|]. eapply spec_post; [apply IH; [|done]|].
    + intros T (T' & -> & HT & K). destruct (Hφ T' HT) as (Hf & Hq & _). split_and!; [by apply free_upd|by apply queued_upd|].
      apply upd_keyed; [done..| |]; (eapply keys_shrink; [|done]); intros x Hx E; by split; right.
    + intros id T L H. eapply inv_mono; [|exact H]. intros T2 _ (T1 & seen & -> & Hch & (T' & -> & HT & K)). exists T', (c :: seen). destruct (Hφ T' HT) as (_ & Hq & _).
      split_and!; [by eapply served_cons| |done]. destruct (nullable id) as [i|]; cbn in *.
      * destruct Hch as (c' & rest' & -> & ? & ? & ?). exists c', rest'. split_and!; [done..|]. constructor; [|done]. rewrite eligible_iff, Es. by intros [? _].
      * destruct Hch as [-> ?]. split; [done|]. constructor; [|done]. rewrite eligible_iff, Es. by intros [? _].
  - destruct (bool_decide_reflect (ownerStatus w (ProjectKey c) = "active")) as [Ea|Ea]; cbn [negb].
    + apply (spec_pure (TurnState c = Waiting ∧ TargetKey c = target)); [intros T L H; by apply (Hin _ (proj1 H))|]. intros [Ew Et].
      eapply spec_then; [apply (spec_take_over φ); [|done]; intros T HT; destruct (Hφ T HT) as (? & _); rewrite Et; by split; [apply Hin|]|].
      apply spec_ret. intros T L H. eapply inv_mono; [|exact H]. intros T2 _ (T' & -> & HT & K). exists T', []. unfold nullable. rewrite bool_decide_eq_false_2 by done.
      split_and!; [|exists c, waiters; split_and!; [done..|rewrite eligible_iff; by split|done]|done].
      unfold upd. apply list_fmap_ext. intros i r Hr. unfold served. rewrite (bool_decide_eq_false_2 (TurnID r ∈ TurnID <$> [])) by apply not_elem_of_nil.
      destruct (bool_decide_reflect (TurnID r = TurnID c)) as [E|E]; [rewrite bool_decide_eq_true_2 by (by rewrite E)|rewrite bool_decide_eq_false_2 by congruence]; done.
    + eapply spec_post; [apply IH; [|done]|].
      * intros T HT. destruct (Hφ T HT) as (? & ? & ?). split_and!; [done| |done]. by eapply queued_tail.
      * intros id T L H. eapply inv_mono; [|exact H]. intros T2 _ (T' & seen & -> & Hch & HT). exists T', (c :: seen). destruct (Hφ T' HT) as (_ & Hq & K).
        split_and!; [by eapply served_paused| |done]. destruct (nullable id) as [i|]; cbn in *.
        -- destruct Hch as (c' & rest' & -> & ? & ? & ?). exists c', rest'. split_and!; [done..|]. constructor; [|done]. rewrite eligible_iff. by intros [_ ?].
        -- destruct Hch as [-> ?]. split; [done|]. constructor; [|done]. rewrite eligible_iff. by intros [_ ?].
Qed.
End promote.

(** ** The queue *)
Definition ready_waiters (target : string) (T : list MergeTurnsRow) : list MergeTurnsRow :=
  by_request (filter (λ r, TargetKey r = target ∧ TurnState r = Waiting ∧ DeclaredReady r = 1%Z) T).

Lemma elem_of_ready target T r : r ∈ ready_waiters target T ↔ r ∈ T ∧ TargetKey r = target ∧ TurnState r = Waiting ∧ DeclaredReady r = 1%Z.
Proof. unfold ready_waiters, by_request. rewrite !elem_of_sort_by, list_elem_of_filter. naive_solver. Qed.

Lemma keyed_nodup T : keyed T → NoDup (TurnID <$> T).
Proof.
  intros (H & _)%keyed_indexes. rewrite unique_by_true in H. apply NoDup_alt. intros i j id. rewrite !list_lookup_fmap, !fmap_Some. intros (x & Hx & ->) (y & Hy & E).
  apply (H i j x y (TurnID x)); [done..|]. cbn. by f_equal.
Qed.

Lemma ready_queued target T : keyed T → queued_in target T (ready_waiters target T) ∧ Forall (λ c, TurnID c ≠ "") (ready_waiters target T).
Proof.
  intros K. split_and!; [split|]; [|apply Forall_forall; intros r (?&?&?&?)%elem_of_ready; naive_solver|].
  - unfold ready_waiters, by_request. rewrite !sort_by_perm. apply NoDup_fmap_filter. by apply keyed_nodup.
  - apply Forall_forall. intros r (Hr&_)%elem_of_ready. apply derived_named. by apply (proj1 (Forall_forall _ _) (proj2 K)).
Qed.

(** The waiters in the order they asked, then by turn. *)
Definition asked_before (a b : MergeTurnsRow) : Prop := String.le (RequestedAt a) (RequestedAt b).

Lemma ready_order target T : StronglySorted asked_before (ready_waiters target T).
Proof. apply (sort_by_sorted RequestedAt). Qed.

(** What [promote] leaves: the rows of before, served in the order of the queue. *)
Definition gone_to (w : World) (target at_ : string) (φ : list MergeTurnsRow → Prop) (promoted : string) (T : list MergeTurnsRow) : Prop :=
  ∃ T' seen, T = served w target at_ seen (nullable promoted) <$> T' ∧ chosen w (ready_waiters target T') seen (nullable promoted) ∧ φ T' ∧ keyed T'.

Lemma spec_promote φ T0 L0 w target at_ : (∀ T, φ T → free target T) →
  spec (inv φ now T0 L0) (promote w target at_) (λ id, inv (gone_to w target at_ φ id) now T0 L0).
Proof.
  intros Hf st H. assert (keyed (t_turns st)) as K by apply H. destruct (ready_queued target _ K) as [Hq Hn].
  pose proof (spec_promote_loop w target at_ (λ T, T = t_turns st ∧ φ T ∧ keyed T) T0 L0 (ready_waiters target (t_turns st))) as Hp.
  specialize (Hp ltac:(by intros T (-> & HT & _); split_and!; [apply Hf| |]) Hn st).
  change (promote w target at_ st) with (promote_loop w target at_ (ready_waiters target (t_turns st)) st).
  destruct H as (H1 & H2 & H3). specialize (Hp ltac:(by split_and!)). destruct (promote_loop _ _ _ _ st) as [[id st']|e]; [|done]. eapply inv_mono; [|exact Hp].
  intros T _ (T' & seen & -> & Hch & -> & ? & ?). exists (t_turns st), seen. by split_and!.
Qed.

(** A target whose occupant was closed is free. *)
Lemma closed_free φ r state reason at_ landed observed T : (∀ T, φ T → r ∈ T) → occupying (TurnState r) = true → live state = false →
  updated φ (TurnID r) (closed_row state reason at_ landed observed) T → free (TargetKey r) T.
Proof.
  intros Hr Ho Hl (T' & -> & HT & K) x [(r' & Hr' & E & ->)|[Hx E]]%upd_elem Et; [cbn; by apply live_occupying|]. destruct (occupying (TurnState x)) eqn:O; [|done].
  exfalso. apply E. by rewrite (keyed_occupant T' x r K Hx (Hr _ HT) Et O Ho).
Qed.

Lemma no_occupant target st : MergeTargetOccupant target st = None → free target (t_turns st).
Proof.
  unfold MergeTargetOccupant. intros H%head_None r Hr Et. destruct (occupying (TurnState r)) eqn:O; [|done].
  assert (r ∈ filter (λ r, TargetKey r = target ∧ occupying (TurnState r) = true) (t_turns st)) as Hf by (by apply list_elem_of_filter). rewrite H in Hf. by apply elem_of_nil in Hf.
Qed.

(** * Every operation keeps the lane.

    For each body of [MergeOps] and [MergeLand]: from a store in the lane it ends in one, with nothing lost, or in an error that is not a violated exclusive index. *)
Definition kept (T0 : list MergeTurnsRow) (L0 : list MergeTurnLedgerRow) : assn := inv (λ _, True) now T0 L0.

Section ops.
Context (T0 : list MergeTurnsRow) (L0 : list MergeTurnLedgerRow).

Lemma inv_kept φ T L : inv φ now T0 L0 T L → kept T0 L0 T L.
Proof. by apply inv_mono. Qed.

Lemma spec_row_then {B} turn (f : MergeTurnsRow → M B) Q : (∀ r, TurnID r = turn → spec (inv (λ T, r ∈ T) now T0 L0) (f r) Q) → spec (kept T0 L0) (row turn ≫= f) Q.
Proof.
  intros H. eapply spec_bind; [apply spec_row|]. intros r st [[Hr HT] (_ & H2 & H3)]. apply (H r Hr st). by split_and!.
Qed.

Lemma spec_refuse_kept {B} φ c at_ : spec (inv φ now T0 L0) (refuse c at_) (λ _ : result CoordinationRefusal B, kept T0 L0).
Proof. apply spec_refuse. intros T L. apply inv_kept. Qed.

Lemma spec_answer φ {B} (x : B) : spec (inv φ now T0 L0) (answer x) (λ _ : result CoordinationRefusal B, kept T0 L0).
Proof. apply spec_ret. intros T L. apply inv_kept. Qed.

Lemma exact_benign v what e : CoordinationExact v what = Err e → benign e.
Proof. unfold CoordinationExact. destruct (blank v); [by intros [= <-]|]. destruct (contains v "|"); [by intros [= <-]|done]. Qed.

(** An entry about a turn that is there. *)
Lemma spec_note_on r φ f kind from to ev actor body identity at_ : (∀ T, φ T → r ∈ T) → ¬ (kind = "transition" ∧ nullable from ≠ nullable to) →
  spec (inv φ f T0 L0) (ledger (TurnID r) kind from to ev actor body identity at_) (λ _, inv φ f T0 L0).
Proof. intros Hr. apply spec_note. intros T HT. exists r. split; [by apply Hr|done]. Qed.

(** The rows after a turn that occupied its target was closed and the target given on. *)
Definition given_on (w : World) (turn at_ promoted : string) (T : list MergeTurnsRow) : Prop :=
  ∃ r g seen, r ∈ T0 ∧ TurnID r = turn ∧ occupying (TurnState r) = true ∧ keeps g ∧ live (TurnState (g r)) = false ∧ keyed (upd turn g T0) ∧
    T = served w (TargetKey r) at_ seen (nullable promoted) <$> upd turn g T0 ∧ chosen w (ready_waiters (TargetKey r) (upd turn g T0)) seen (nullable promoted).

Definition handed {B} (p : B → string) (w : World) (turn at_ : string) (v : result CoordinationRefusal B) : assn :=
  inv (λ T, match v with Ok x => given_on w turn at_ (p x) T | Err _ => True end) now T0 L0.

Lemma spec_give_on {B} r w state reason at_ landed observed (x : string → B) p : live state = false → occupying (TurnState r) = true → (∀ s, p (x s) = s) →
  spec (inv (updated (λ T, T = T0 ∧ r ∈ T) (TurnID r) (closed_row state reason at_ landed observed)) now T0 L0) (promoted ← promote w (TargetKey r) at_; answer (x promoted))
    (handed p w (TurnID r) at_).
Proof.
  intros Hl Ho Hp. eapply spec_bind; [apply spec_promote|].
  - intros T HT. apply (closed_free (λ T, r ∈ T) r state reason at_ landed observed); try done. destruct HT as (T' & -> & [_ ?] & ?). by exists T'.
  - intros promoted. apply spec_ret. intros T L H. eapply inv_mono; [|exact H]. cbn. intros T1 _ (T2 & seen & -> & Hch & (T' & -> & [-> Hr] & K) & K'). rewrite Hp.
    exists r, (closed_row state reason at_ landed observed), seen. by split_and!.
Qed.

Lemma spec_row_first {B} turn (f : MergeTurnsRow → M B) Q : (∀ r, TurnID r = turn → spec (inv (λ T, T = T0 ∧ r ∈ T) now T0 L0) (f r) Q) →
  spec (inv (λ T, T = T0) now T0 L0) (row turn ≫= f) Q.
Proof.
  intros H. eapply spec_bind; [apply spec_row|]. intros r st [[Hr HT] (? & H2 & H3)]. apply (H r Hr st). by split_and!.
Qed.

Lemma spec_refuse_handed {B} φ (p : B → string) w turn c at_ : spec (inv φ now T0 L0) (refuse c at_) (handed p w turn at_).
Proof. apply spec_refuse. intros T L. by apply inv_mono. Qed.

Lemma handed_kept {B} (p : B → string) w turn at_ v T L : handed p w turn at_ v T L → kept T0 L0 T L.
Proof. apply inv_kept. Qed.

(** ** Claims *)
Lemma spec_insert w target repository base project holder host head_ ready pr relationship at_ st :
  let r := requested w target repository base project holder host head_ ready pr relationship at_ st in
  LiveMergeClaim target holder st = None →
  spec (inv (λ T, T = t_turns st) now T0 L0) (InsertMergeTurn r) (λ _, inv (λ T, r ∈ T ∧ keyed T) (at_state (TurnID r) None) T0 L0).
Proof.
  intros r Hlive st1 (H1 & H2 & H3). assert (TurnState r = Waiting ∨ TurnState r = Holding ∧ free target (t_turns st)) as Hstate.
  { cbn. destruct (bool_decide_reflect (is_Some (MergeTargetOccupant target st))) as [?|Hn]; [by left|]. destruct (any_paused w project); [by left|]. right. split; [done|].
    apply no_occupant. by apply eq_None_not_Some. }
  unfold InsertMergeTurn, write_turns. rewrite H1. destruct (proj1 H2) as [Kc Kd]. pose proof (keyed_indexes _ (proj1 H2)) as (U1 & U2 & U3). rewrite H1 in *.
  assert (unique_by holder_key (t_turns st ++ [r])%list = true) as V2.
  { apply unique_by_snoc; [done|]. intros k Ek x Hx Ex. unfold holder_key in Ek, Ex. destruct Hstate as [Es|[Es Hf]]; rewrite Es in Ek; cbn in Ek; [done|]. injection Ek as <-.
    destruct (occupying (TurnState x)) eqn:O; [|done]. injection Ex as Ex. rewrite (Hf x) in O; done. }
  assert (unique_by claim_key (t_turns st ++ [r])%list = true) as V3.
  { apply unique_by_snoc; [done|]. intros k Ek x Hx Ex. unfold claim_key in Ek, Ex. destruct (live (TurnState r)); [|done]. destruct (live (TurnState x)) eqn:O; [|done].
    injection Ek as <-. injection Ex as E1 E2. unfold LiveMergeClaim in Hlive. apply head_None in Hlive.
    assert (x ∈ filter (λ r, TargetKey r = target ∧ HolderTaskID r = holder ∧ live (TurnState r) = true) (t_turns st)) as Hf by (apply list_elem_of_filter; by split_and!).
    rewrite Hlive in Hf. by apply elem_of_nil in Hf. }
  unfold turn_constraints. rewrite V2, V3. cbn [negb]. destruct (unique_by (Some ∘ TurnID) (t_turns st ++ [r])%list) eqn:V1; cbn [negb]; [|by split]. cbn.
  assert (∀ x, x ∈ t_turns st → TurnID x ≠ TurnID r) as Hfresh.
  { intros x [i Hi]%list_elem_of_lookup E. rewrite unique_by_true in V1. assert (i = length (t_turns st)) as ->.
    { apply (V1 i (length (t_turns st)) x r (TurnID r)); [by apply lookup_app_l_Some|by rewrite lookup_app_r, Nat.sub_diag by lia|cbn; by rewrite E|done]. }
    apply lookup_lt_Some in Hi. lia. }
  assert (keyed (t_turns st ++ [r])%list) as K' by (apply keyed_intro; [done..|]; apply Forall_app; split; [done|]; by constructor).
  destruct H2 as (K & E1 & E2). split_and!; [apply elem_of_app; right; by left|done| |].
  - split_and!; [done| |].
    + intros e He. destruct (E1 e He) as (x & Hx & ?). exists x. split; [apply elem_of_app; by left|done].
    + intros x [Hx| ->%list_elem_of_singleton]%elem_of_app.
      * rewrite E2 by done. unfold at_state. by rewrite bool_decide_eq_false_2 by (by apply Hfresh).
      * unfold at_state. rewrite bool_decide_eq_true_2 by done. unfold ends, moves. rewrite filter_none; [done|]. intros e He (Et & _). destruct (E1 e He) as (x & Hx & ?).
        apply (Hfresh x Hx). congruence.
  - destruct H3 as [? ?]. split; [done|]. cbn. rewrite fmap_app. by apply prefix_app_r.
Qed.

Lemma spec_claim w target repository base project holder host head_ ready pr relationship at_ st :
  let r := requested w target repository base project holder host head_ ready pr relationship at_ st in
  LiveMergeClaim target holder st = None → spec (inv (λ T, T = t_turns st) now T0 L0) (claim w r at_) (λ _, kept T0 L0).
Proof.
  intros r El. assert (edge None (TurnState r)) as He by (cbn; destruct (_ || _); by apply an_edge).
  unfold claim. eapply spec_then; [by apply spec_insert|]. eapply spec_then; [apply spec_move; [|done|exact He|done]; intros T [HT _]; by exists r|].
  eapply (spec_pre _ (inv (λ T, r ∈ T ∧ keyed T) now T0 L0)).
  - eapply spec_then; [|eapply spec_then; [apply spec_journal|apply spec_answer]]. destruct (bool_decide _); [apply (spec_grant _ _ _ r); [by intros T [? _]|done]|by apply spec_ret].
  - intros T L. apply inv_now. intros T' [HT K] x Hx E. by rewrite (keyed_id T' x r).
Qed.

Lemma spec_request w target repository base project holder host head_ ready pr relationship at_ :
  spec (kept T0 L0) (Request_body w target repository base project holder host head_ ready pr relationship at_) (λ _, kept T0 L0).
Proof.
  unfold Request_body. cbn zeta. destruct (match ownership _ _ _ _ with inl c => Some c | inr owner => _ end); [apply spec_refuse_kept|].
  intros st H. cbv [get mbind M_bind]. destruct (LiveMergeClaim target holder st) as [own|] eqn:El.
  - destruct (requestIsLiveClaim _ _ _); [by apply (spec_answer (λ _, True))|]. by apply (spec_refuse_kept (λ _, True)).
  - apply (spec_claim w target repository base project holder host head_ ready pr relationship at_ st El). destruct H as (_ & ? & ?). by split_and!.
Qed.

(** ** Attest, Acknowledge, Progress, RequestReturn *)
Lemma spec_attest turn kind identity actor evidence at_ : spec (kept T0 L0) (Attest_body turn kind identity actor evidence at_) (λ _, kept T0 L0).
Proof.
  apply spec_row_then. intros r <-. destruct (CoordinationExact kind _) as [[]|e] eqn:E; [|apply spec_raise; by eapply exact_benign].
  eapply spec_then; [apply spec_note_on; [done|by intros [? _]]|apply spec_answer].
Qed.

Lemma spec_acknowledge w turn actor grant_ evidence at_ : spec (kept T0 L0) (Acknowledge_body w turn actor grant_ evidence at_) (λ _, kept T0 L0).
Proof.
  apply spec_row_then. intros r <-. eapply spec_bind; [apply spec_look|]. intros current. destruct (_ <||> _); [apply spec_refuse_kept|].
  eapply spec_then; [apply spec_note_on; [done|by intros [? _]]|apply spec_answer].
Qed.

Lemma spec_progress w turn actor step evidence at_ : spec (kept T0 L0) (Progress_body w turn actor step evidence at_) (λ _, kept T0 L0).
Proof.
  apply spec_row_then. intros r <-. destruct (_ <||> _); [apply spec_refuse_kept|]. eapply spec_bind; [apply spec_look|]. intros entries.
  eapply spec_then; [apply spec_note_on; [done|by intros [? _]]|apply spec_answer].
Qed.

Lemma spec_request_return w turn actor evidence at_ : spec (kept T0 L0) (RequestReturn_body w turn actor evidence at_) (λ _, kept T0 L0).
Proof.
  apply spec_row_then. intros r <-. eapply spec_bind; [apply spec_look|]. intros prior. eapply spec_then; [apply spec_note_on; [done|by intros [? _]]|].
  destruct (negb _); [apply spec_answer|]. cbn zeta. destruct (named _ ≫= _) as [event|]; [apply spec_answer|]. destruct (delivery w) as [d|].
  - destruct (Channel d _ _ _ _) as [refused|event].
    + eapply spec_then; [|apply spec_answer]. destruct (bool_decide _); [by apply spec_ret|apply spec_journal].
    + eapply spec_then; [apply spec_queue|]. eapply spec_then; [apply spec_journal|apply spec_answer].
  - eapply spec_then; [|apply spec_answer]. destruct (bool_decide _); [by apply spec_ret|apply spec_journal].
Qed.

(** ** Withdraw, Release, Pass *)
Lemma spec_withdraw turn actor at_ : spec (kept T0 L0) (Withdraw_body turn actor at_) (λ _, kept T0 L0).
Proof.
  apply spec_row_then. intros r <-. unfold when. destruct (bool_decide_reflect (HolderTaskID r = actor)) as [_|_]; cbn [negb orelse]; [|apply spec_refuse_kept].
  destruct (bool_decide_reflect (TurnState r = Waiting)) as [E|_]; cbn [negb]; [|apply spec_refuse_kept].
  eapply spec_then; [apply spec_close; [done|unfold now; rewrite E; by apply an_edge|done]|apply spec_answer].
Qed.

Lemma spec_release w turn actor disposition reason evidence at_ : disposition = "returned" ∨ disposition = "cancelled" →
  spec (inv (λ T, T = T0) now T0 L0) (Release_body w turn actor disposition reason evidence at_) (handed id w turn at_).
Proof.
  intros Hd. apply spec_row_first. intros r <-. destruct (if _ || _ then _ else _) as [c|] eqn:Ec; [apply spec_refuse_handed|].
  assert (TurnState r = Holding) as E.
  { destruct (bool_decide _ || _); [done|]. destruct (bool_decide (TurnState r = Waiting)); [done|]. by destruct (bool_decide_reflect (TurnState r = Holding)). }
  eapply spec_then; [apply spec_close; [by intros T [_ ?]| |]|apply (spec_give_on r w disposition _ _ _ _ (λ p, p)); [|by rewrite E|done]]; [|by destruct Hd as [-> | ->]..].
  unfold now. rewrite E. destruct Hd as [-> | ->]; by apply an_edge.
Qed.

Lemma spec_pass w turn actor evidence at_ : spec (inv (λ T, T = T0) now T0 L0) (Pass_body w turn actor evidence at_) (handed id w turn at_).
Proof.
  apply spec_row_first. intros r <-. eapply spec_bind; [apply (spec_look_fact (λ c, c = None → TurnState r = Holding))|].
  { intros st. destruct (bool_decide _ || _); [done|]. by destruct (bool_decide_reflect (TurnState r = Holding)). }
  intros [c|]; apply spec_pull; intros E; [apply spec_refuse_handed|]. specialize (E eq_refl). eapply spec_bind; [apply spec_look|]. intros silence.
  eapply spec_then; [apply spec_note_on; [by intros T [_ ?]|by intros [? _]]|].
  eapply spec_then; [apply spec_close; [by intros T [_ ?]|unfold now; rewrite E; by apply an_edge|done]|]. apply (spec_give_on r w Passed _ _ _ _ (λ p, p)); [done|by rewrite E|done].
Qed.

(** ** Ready *)
Section ready.
Context `{UnicodeLower}.

Lemma occupant_fact target : ∀ P : assn, spec P (get (MergeTargetOccupant target)) (λ o T L, (o = None → free target T) ∧ P T L).
Proof. intros P. apply spec_get. intros st HP. split; [apply no_occupant|done]. Qed.

(** Taking a free target: the entry and the grant come before the row. *)
Lemma spec_take_free w r actor head_ flag at_ : TurnState r = Waiting ∨ TurnState r = Holding →
  spec (inv (λ T, r ∈ T) (at_state (TurnID r) (now r)) T0 L0) (take_free w r actor head_ flag at_)
    (λ x, inv (λ T, r ∈ T ∧ (x.1.2 = TurnState r ∨ x.1.2 = Holding ∧ TurnState r = Waiting ∧ free (TargetKey r) T)) (at_state (TurnID r) (Some x.1.2)) T0 L0).
Proof.
  intros Hs. unfold take_free. destruct (bool_decide_reflect (TurnState r = Waiting)) as [E|E]; cbn [andb negb].
  - destruct (bool_decide (flag = 1%Z)); cbn [negb]; [|apply spec_ret; intros T L Hi; eapply inv_mono; [|exact Hi]; naive_solver].
    eapply spec_bind; [apply occupant_fact|]. intros [o|]; [apply spec_ret; intros T L [_ Hi]; eapply inv_mono; [|exact Hi]; naive_solver|].
    destruct (any_paused w _); [apply spec_ret; intros T L [_ Hi]; eapply inv_mono; [|exact Hi]; naive_solver|].
    eapply (spec_pre _ (inv (λ T, r ∈ T ∧ free (TargetKey r) T) (at_state (TurnID r) (now r)) T0 L0)); [|intros T L [Hf (? & ? & ?)]; by split_and!; [|apply Hf|..]].
    eapply spec_then; [apply spec_move; [intros T [HT _]; by exists r|unfold now; by rewrite E|unfold now; rewrite E; by apply an_edge|done]|].
    eapply spec_then; [apply (spec_grant _ _ _ r); [by intros T [? _]|done]|]. apply spec_ret. intros T L Hi. eapply inv_mono; [|exact Hi]. naive_solver.
  - apply spec_ret. intros T L Hi. eapply inv_mono; [|exact Hi]. naive_solver.
Qed.

Lemma spec_move_head w r f actor head_ at_ : spec (inv (λ T, r ∈ T) f T0 L0) (move_head w r actor head_ at_) (λ _, inv (λ T, r ∈ T) f T0 L0).
Proof.
  unfold move_head. eapply spec_then; [apply spec_note_on; [done|by intros [_ ?]]|]. destruct (bool_decide _); [|by apply spec_ret].
  eapply spec_then; [by apply (spec_grant _ _ _ r)|apply spec_look].
Qed.

Lemma spec_record_readiness r f actor head_ cause moved flag at_ :
  spec (inv (λ T, r ∈ T) f T0 L0) (record_readiness r actor head_ cause moved flag at_) (λ _, inv (λ T, r ∈ T) f T0 L0).
Proof.
  unfold record_readiness. destruct (bool_decide _); [by apply spec_ret|]. eapply spec_bind; [apply spec_look|]. intros entries. apply spec_note_on; [done|by intros [_ ?]].
Qed.

(** The row follows: readiness, head and state. *)
Lemma spec_declare r flag head_ state held at_ : 
  spec (inv (λ T, r ∈ T ∧ (state = TurnState r ∨ state = Holding ∧ TurnState r = Waiting ∧ free (TargetKey r) T)) (at_state (TurnID r) (Some state)) T0 L0)
    (DeclareMergeReadiness (TurnID r) flag head_ state held at_) (λ _, kept T0 L0).
Proof.
  unfold DeclareMergeReadiness. eapply spec_post; [apply spec_update; [done|]|].
  - intros T [Hr [Es|(Es & Ew & Hf)]] K.
    + apply keys_shrink; [|done]. intros x Hx E. rewrite (keyed_id T x r K Hx Hr E). unfold holder_key, claim_key. cbn. rewrite Es. by split; left.
    + by apply (keys_take (TurnID r) _ T r).
  - intros [] T L Hi. eapply inv_kept, inv_now; [|exact Hi].
    intros T' (T1 & -> & [Hr _] & K) x [(x' & Hx' & E & ->)|[_ ?]]%upd_elem E'; [done|done].
Qed.

Lemma spec_ready w pulls read turn actor ready stated cause at_ : spec (kept T0 L0) (Ready_body w pulls read turn actor ready stated cause at_) (λ _, kept T0 L0).
Proof.
  apply spec_row_then. intros r <-. destruct (_ <||> _) as [c|] eqn:Ec; [apply spec_refuse_kept|].
  assert (TurnState r = Waiting ∨ TurnState r = Holding) as Hs.
  { destruct (negb _); [done|]. unfold when in Ec. destruct (bool_decide_reflect (TurnState r = Waiting)); [by left|]. destruct (bool_decide_reflect (TurnState r = Holding)); [by right|done]. }
  clear Ec. cbn zeta. set (head_ := if bool_decide (stated = "") then _ else _). set (moved := negb _). clearbody head_ moved.
  destruct (if moved || ready then _ else _) as [c|decided]; [apply spec_refuse_kept|].
  eapply spec_pre; [|intros T L; by apply (inv_at (λ T, r ∈ T))].
  eapply spec_bind; [instantiate (1 := λ _, inv (λ T, r ∈ T) (at_state (TurnID r) (now r)) T0 L0); destruct moved; [apply spec_move_head|by apply spec_ret]|]. intros granted.
  eapply spec_then; [apply spec_record_readiness|]. eapply spec_bind; [by apply spec_take_free|]. intros [[blocked state] held]. cbn [fst snd].
  eapply spec_then; [apply spec_declare|apply (spec_answer (λ _, True))].
Qed.
End ready.

(** ** Landing and unknown outcomes *)
Section land.
Context `{UnicodeLower}.

(** A state that is occupied stays so: the keys of the row are the same. *)
Lemma keys_same r g to T : keeps g → TurnState (g r) = to → occupying (TurnState r) = true → occupying to = true → r ∈ T → keyed T →
  unique_by holder_key (upd (TurnID r) g T) = true ∧ unique_by claim_key (upd (TurnID r) g T) = true.
Proof.
  intros Hg Eg Ho Ho' Hr K. assert (∀ s, occupying s = true → live s = true) as Hl by (unfold occupying, live; intros s; rewrite !bool_decide_eq_true; set_solver).
  apply keys_shrink; [|done]. intros x Hx E. rewrite (keyed_id T x r K Hx Hr E). destruct (keeps_id g r Hg) as (_ & I2 & I3). unfold holder_key, claim_key.
  rewrite Eg, Ho', Ho, !Hl, I2, I3 by done. by split; left.
Qed.

Lemma spec_report_unknown w turn actor reason at_ : spec (kept T0 L0) (ReportUnknown_body w turn actor reason at_) (λ _, kept T0 L0).
Proof.
  apply spec_row_then. intros r <-. destruct (bool_decide_reflect (TurnState r = Merging)) as [E|]; cbn [negb]; [|apply spec_refuse_kept].
  destruct (authority _ _ _ _); [apply spec_refuse_kept|]. unfold mark_unknown.
  apply spec_shift; [done|done|done|unfold now; by rewrite E|unfold now; rewrite E; by apply an_edge|done| |apply spec_answer].
  intros T Hr K. apply (keys_same r _ Unknown); try done. by rewrite E.
Qed.

Lemma land_holder w r turn actor stated tip why st : land_refusal w r turn actor stated tip why st = None → TurnState r = Merging ∧ HolderTaskID r = actor ∧ SHA tip ≠ "" ∧ baseWasRead r st = true.
Proof.
  unfold land_refusal. destruct (trainMemberRefusal _ _ _ _); [done|]. destruct (underCorrectionRefusal _ _); [done|]. unfold when. cbn [orelse].
  destruct (bool_decide_reflect (HolderTaskID r = actor)); [|done]. destruct (bool_decide_reflect (TurnState r = Merging)); [|done]. cbn [negb orelse].
  destruct (baseWasRead r st); [|done]. cbn [negb orelse]. by destruct (bool_decide_reflect (SHA tip = "")).
Qed.

Lemma spec_land w tip why turn actor landed stated evidence at_ : spec (inv (λ T, T = T0) now T0 L0) (Land_body w tip why turn actor landed stated evidence at_) (handed id w turn at_).
Proof.
  apply spec_row_first. intros r <-. eapply spec_bind; [apply (spec_look_fact (λ c, c = None → TurnState r = Merging)); intros st Hc; by apply land_holder in Hc as (? & _)|].
  intros [c|]; apply spec_pull; intros E; [apply spec_refuse_handed|]. specialize (E eq_refl).
  eapply spec_then; [apply spec_close; [by intros T [_ ?]|unfold now; rewrite E; by apply an_edge|done]|]. eapply spec_then; [apply spec_journal|].
  apply (spec_give_on r w "landed" _ _ _ _ (λ p, p)); [done|by rewrite E|done].
Qed.

Lemma spec_resolve w tip why turn actor stated prState evidence at_ : spec (inv (λ T, T = T0) now T0 L0) (Resolve_body w tip why turn actor stated prState evidence at_) (handed snd w turn at_).
Proof.
  apply spec_row_first. intros r <-. destruct (bool_decide_reflect (TurnState r = Unknown)) as [E|]; cbn [negb]; [|apply spec_refuse_handed].
  destruct (authority _ _ _ _); [apply spec_refuse_handed|]. cbn zeta. destruct (negb (pr_settled _)); [apply spec_raise; by split|].
  destruct (if bool_decide (SHA tip = "") then _ else _); [apply spec_refuse_handed|]. set (landed := bool_decide (prState = "merged")).
  assert (live (if landed then "landed" else "returned") = false) as Hl by (by destruct landed).
  eapply spec_then; [apply spec_close; [by intros T [_ ?]|unfold now; rewrite E; destruct landed; by apply an_edge|done]|].
  eapply spec_then; [destruct (bool_decide (SHA tip = "")); [by apply spec_ret|apply spec_journal]|].
  apply (spec_give_on r w _ _ _ _ _ (λ p, (if landed then "landed" else "returned", p))); [done|by rewrite E|done].
Qed.

(** A restated base: an entry that moves nothing, and a row that keeps its state. *)
Lemma spec_restatement φ r tip actor body extra at_ : (∀ T, φ T → r ∈ T) → TurnState r = "landed" →
  spec (inv φ now T0 L0) (writeRestatement r tip actor body extra at_)
    (λ _, inv (updated φ (TurnID r) (restated_row (SHA tip) at_)) now T0 L0).
Proof.
  intros Hr E. assert (keeps (restated_row (SHA tip) at_)) as Hg by done. unfold writeRestatement, restate_observed. eapply spec_bind; [apply spec_look|]. intros entries.
  eapply spec_then; [apply spec_note_on; [done|by intros [_ ?]]|]. eapply spec_pre; [|intros T L; by apply inv_at].
  eapply spec_then; [apply (spec_update φ (TurnID r) (now r)); [done|]|].
  { intros T HT K. apply keys_shrink; [|done]. intros x Hx Ex. by split; left. }
  eapply spec_then; [apply spec_journal|]. apply spec_ret. intros T L Hi. eapply inv_now; [|exact Hi].
  intros T' HT' x Hx Ex. by rewrite (updated_now φ r _ T' Hg Hr HT' x Hx Ex).
Qed.

Lemma spec_restate_base w tip why turn actor stated evidence at_ : spec (kept T0 L0) (RestateBase_body w tip why turn actor stated evidence at_) (λ _, kept T0 L0).
Proof.
  apply spec_row_then. intros r <-. eapply spec_bind; [apply (spec_look_fact (λ c, c = None → TurnState r = "landed"))|].
  { intros st. unfold restate_refusal. destruct (authority _ _ _ _); [done|]. unfold when. cbn [orelse]. by destruct (bool_decide_reflect (TurnState r = "landed")). }
  intros [c|]; apply spec_pull; intros E; [apply spec_refuse_kept|]. specialize (E eq_refl). destruct (bool_decide _); [apply spec_answer|].
  eapply spec_bind; [by apply spec_restatement|]. intros sequence. apply spec_answer.
Qed.

(** *** Check *)
Section check.
Context `{EvidencePackage}.

Lemma latest_elem st rows r : latest_of st rows = Some r → r ∈ rows.
Proof.
  unfold latest_of. assert (∀ best : option MergeTurnsRow, foldl (λ best r, match best with None => Some r | Some b => if landing_after st r b then Some r else Some b end) best rows = Some r →
    best = Some r ∨ r ∈ rows) as Hg; [|intros E; by destruct (Hg _ E)].
  induction rows as [|x rows IH]; intros best; cbn; [by left|]. intros [E|?]%IH; [|right; by right]. destruct best as [b|]; [|injection E as <-; right; by left].
  destruct (landing_after st x b); injection E as <-; [right; by left|by left].
Qed.

Lemma landing_landed target st r : latestLanding target st = Some r → r ∈ t_turns st ∧ TurnState r = "landed" ∧ TargetKey r = target ∧ is_Some (ObservedBaseSHA r).
Proof. intros Hl%latest_elem. apply list_elem_of_filter in Hl as [(? & ? & ?) ?]. done. Qed.

Lemma spec_restate_after r l actor base tip moved id at_ : TurnState r = Holding → TurnState l = "landed" →
  spec (inv (λ T, r ∈ T ∧ l ∈ T ∧ keyed T) now T0 L0) (restateAfterOutOfLaneMerge r l actor base tip moved id at_) (λ _, inv (λ T, r ∈ T) now T0 L0).
Proof.
  intros Er El. assert (∀ x : text + string, spec (inv (λ T, r ∈ T ∧ l ∈ T ∧ keyed T) now T0 L0) (mret x) (λ _, inv (λ T, r ∈ T) now T0 L0)) as Hret.
  { intros x. apply spec_ret. intros T L Hi. eapply inv_mono; [|exact Hi]. naive_solver. }
  unfold restateAfterOutOfLaneMerge. cbn zeta. destruct moved as [m|]; [|apply Hret]. destruct (_ || _ || _); [apply Hret|]. destruct (negb _); [apply Hret|].
  eapply spec_bind; [apply spec_look|]. intros [f|]; [apply Hret|]. eapply spec_bind; [apply spec_look|]. intros [why|merges]; [apply Hret|].
  eapply spec_bind; [apply spec_row|]. intros x. eapply (spec_pre _ (inv (λ T, x ∈ T ∧ r ∈ T ∧ keyed T ∧ TurnState x = "landed") now T0 L0)).
  - apply (spec_pure (TurnState x = "landed")); [by intros T L ((_ & _ & _ & ?) & _)|]. intros Ex.
    eapply spec_bind; [apply spec_restatement; [by intros T [? _]|done]|]. intros sequence. apply spec_ret. intros T L Hi. eapply inv_mono; [|exact Hi].
    intros T' _ (T1 & -> & (Hx & Hr & K & _) & _). apply upd_elem. right. split; [done|]. intros E. assert (r = x) as -> by (by apply (keyed_id T1)). rewrite Ex in Er. done.
  - intros T L [[Ex Hx] (Hφ & H2 & H3)]. destruct Hφ as (Hr & Hl & K). split_and!; [done..| |done|done]. by rewrite (keyed_id T x l).
Qed.

Lemma spec_check_landing r actor base rd id at_ : TurnState r = Holding →
  spec (inv (λ T, r ∈ T) now T0 L0) (check_landing r actor base rd id at_) (λ _, inv (λ T, r ∈ T) now T0 L0).
Proof.
  intros Er. unfold check_landing.
  eapply spec_bind; [apply (spec_get _ _ (λ o, inv (λ T, r ∈ T ∧ match o with Some l => (l ∈ T ∧ keyed T) ∧ TurnState l = "landed" | None => True end) now T0 L0))|].
  { intros st (Hr & H2 & H3). split_and!; [done| |done..]. destruct (latestLanding _ st) as [l|] eqn:E; [|done]. apply landing_landed in E as (? & ? & _).
    split_and!; [done|apply H2..|done]. }
  intros o. assert (∀ x : option CoordinationRefusal * option string, spec (inv (λ T, r ∈ T ∧ match o with Some l => (l ∈ T ∧ keyed T) ∧ TurnState l = "landed" | None => True end) now T0 L0)
    (mret x) (λ _, inv (λ T, r ∈ T) now T0 L0)) as Hret.
  { intros x. apply spec_ret. intros T L Hi. eapply inv_mono; [|exact Hi]. by intros T' _ [? _]. }
  destruct o as [l|]; [|apply Hret]. destruct (SameCommit _ _); [apply Hret|]. apply (spec_pure (TurnState l = "landed")); [by intros T L ((_ & _ & ?) & _)|]. intros El.
  eapply spec_bind; [eapply spec_pre; [by apply spec_restate_after|]|].
  - intros T L Hi. eapply inv_mono; [|exact Hi]. naive_solver.
  - intros [detail|sequence]; by apply spec_ret.
Qed.

(** What the guards of a check that begins a merge say of its turn. *)
Lemma check_turn_None w r turn actor head_ st : check_turn w r turn actor head_ st = None →
  TurnState r = Holding ∧ HolderTaskID r = actor ∧ DeclaredReady r = 1%Z ∧ CandidateHead r = head_ ∧ unansweredGrant r actor st = None ∧ parents w (ProjectKey r) = [actor].
Proof.
  unfold check_turn, stale_parent. destruct (trainMemberRefusal _ _ _ _); [done|]. destruct (underCorrectionRefusal _ _); [done|]. unfold when. cbn [orelse].
  destruct (bool_decide_reflect (HolderTaskID r = actor)); [|done]. destruct (bool_decide_reflect (TurnState r = Holding)); [|done].
  destruct (bool_decide_reflect (DeclaredReady r = 1%Z)); [|done]. destruct (bool_decide_reflect (parents w (ProjectKey r) = [actor])); [|done]. cbn [negb orelse].
  destruct (owner_paused _ _ _ _); [done|]. cbn [orelse]. destruct (unansweredGrant r actor st); [done|]. cbn [orelse]. by destruct (bool_decide_reflect (head_ = CandidateHead r)).
Qed.

Lemma spec_judge w r pulls rd turn actor head_ base required checks review id at_ :
  spec (inv (λ T, r ∈ T) now T0 L0) (judge w r pulls rd turn actor head_ base required checks review id at_)
    (λ v, inv (λ T, r ∈ T ∧ match v with inr _ => TurnState r = Holding | inl _ => True end) now T0 L0).
Proof.
  assert (∀ c : CoordinationRefusal, spec (inv (λ T, r ∈ T) now T0 L0) (mret (inl c))
    (λ v : CoordinationRefusal + CheckAnswer, inv (λ T, r ∈ T ∧ match v with inr _ => TurnState r = Holding | inl _ => True end) now T0 L0)) as Hret.
  { intros c. apply spec_ret. intros T L Hi. eapply inv_mono; [|exact Hi]. done. }
  unfold judge. eapply spec_bind; [apply (spec_look_fact (λ c, c = None → TurnState r = Holding)); intros st Hc; by apply check_turn_None in Hc as (? & _)|].
  intros [c|]; apply spec_pull; intros E; [apply Hret|]. specialize (E eq_refl). destruct (headCompareVerdict _ _ _ _ _ _ _); [apply Hret|].
  destruct (check_tip_refusal _ _ _ _); [apply Hret|]. eapply spec_bind; [by apply spec_check_landing|]. intros [stale restated].
  destruct (stale <||> _); [apply Hret|]. destruct (check_reports _ _ _ _ _); [apply Hret|]. apply spec_ret. intros T L Hi. eapply inv_mono; [|exact Hi]. done.
Qed.

Lemma spec_check w pulls rd turn actor head_ base required checks review at_ :
  spec (kept T0 L0) (Check_body w pulls rd turn actor head_ base required checks review at_) (λ _, kept T0 L0).
Proof.
  unfold Check_body. cbn zeta. apply spec_row_then. intros r <-. eapply spec_bind; [apply spec_judge|]. intros v. eapply spec_then; [apply spec_check_row|].
  destruct v as [c|x]; [apply spec_refuse_kept|]. apply (spec_pure (TurnState r = Holding)); [by intros T L ((_ & ?) & _)|]. intros E. unfold begin_merge.
  apply spec_shift; [by intros T [? _]|done|done|unfold now; by rewrite E|unfold now; rewrite E; by apply an_edge|done| |apply spec_answer].
  intros T [Hr _] K. apply (keys_same r _ Merging); try done. by rewrite E.
Qed.
End check.
End land.
End ops.

(** ** The landing of a bundle

    The leader of a train may have left the lane and the target gone on, so nothing says that the target is free when the landing promotes: the index of live holders may refuse the
    promotion, and the landing is rolled back. Here only a body that ends well is followed. *)
Definition wspec {A} (P : assn) (m : M A) (Q : A → assn) : Prop := ∀ st x st', holds P st → m st = Ok (x, st') → holds (Q x) st'.

Lemma wspec_spec {A} P (m : M A) Q : spec P m Q → wspec P m Q.
Proof. intros H st x st' HP E. specialize (H st HP). by rewrite E in H. Qed.

Lemma wspec_bind {A B} P (m : M A) Q (f : A → M B) R : wspec P m Q → (∀ x, wspec (Q x) (f x) R) → wspec P (m ≫= f) R.
Proof. intros Hm Hf st y st' HP E. cbv [mbind M_bind] in E. destruct (m st) as [[x st1]|] eqn:E1; [|done]. eapply Hf; [by eapply Hm|exact E]. Qed.

Lemma wspec_then {B} P (m : M ()) (Q : assn) (m' : M B) R : wspec P m (λ _, Q) → wspec Q m' R → wspec P (m;; m') R.
Proof. intros H H'. eapply wspec_bind; [exact H|]. by intros []. Qed.

Lemma wspec_pre {A} P P' (m : M A) Q : wspec P' m Q → (∀ T L, P T L → P' T L) → wspec P m Q.
Proof. intros H HP st x st' Hst. by apply H, HP. Qed.

(** A claim that takes its target over took a free one. *)
Lemma take_over_free w c at_ st st' : keyed (t_turns st) → c ∈ t_turns st → TurnState c = Waiting → take_over w c at_ st = Ok ((), st') → free (TargetKey c) (t_turns st).
Proof.
  intros K Hc Ew E r Hr Et. destruct (occupying (TurnState r)) eqn:O; [exfalso|done]. unfold take_over, PromoteMergeTurn, update_turn, write_turns in E. cbv [mbind M_bind] in E.
  fold (upd (TurnID c) (promoted_row at_) (t_turns st)) in E. destruct (turn_constraints (upd (TurnID c) (promoted_row at_) (t_turns st))) eqn:Ec; [done|]. clear E.
  assert (TurnID r ≠ TurnID c) as Hne by (intros Ei; rewrite (keyed_id _ r c K Hr Hc Ei), Ew in O; done).
  assert (keyed (upd (TurnID c) (promoted_row at_) (t_turns st))) as K'.
  { split; [done|]. rewrite Forall_forall. intros x [(y & Hy & _ & ->)|[Hx _]]%upd_elem;
    [exact (proj1 (Forall_forall _ _) (proj2 K) y Hy)|by apply (proj1 (Forall_forall _ _) (proj2 K))]. }
  apply Hne. rewrite (keyed_occupant _ r (promoted_row at_ c) K'); [done|apply upd_elem; by right|apply upd_elem; left; by exists c|done..].
Qed.

Lemma wspec_take_over T0 L0 w c at_ : TurnState c = Waiting → wspec (inv (λ T, c ∈ T) now T0 L0) (take_over w c at_) (λ _, kept T0 L0).
Proof.
  intros Ew st [] st' (Hc & Hl & Hg) E. pose proof (take_over_free w c at_ st st' (proj1 Hl) Hc Ew E) as Hf.
  pose proof (spec_take_over (λ T, T = t_turns st) T0 L0 w c at_ ltac:(intros T ->; by split) Ew st ltac:(by split_and!)) as H. rewrite E in H. revert H. apply inv_kept.
Qed.

Lemma wspec_promote_loop T0 L0 w target at_ waiters : wspec (inv (λ T, queued_in target T waiters) now T0 L0) (promote_loop w target at_ waiters) (λ _, kept T0 L0).
Proof.
  induction waiters as [|c waiters IH]; cbn [promote_loop]; [apply wspec_spec, spec_ret; intros T L; apply inv_kept|].
  destruct (stale_claim w target c) as [refusal|].
  - intros st x st' H. assert (TurnState c = Waiting) as Ew by (destruct H as [[_ [(_ & ? & _) _]%Forall_cons] _]; done). revert st x st' H.
    change (wspec (inv (λ T, queued_in target T (c :: waiters)) now T0 L0) (close c "withdrawn" ("withdrawn at promotion: " +:+ Reason refusal) (HolderTaskID c) at_;;
      RecordCoordinationConflict refusal at_;; promote_loop w target at_ waiters) (λ _, kept T0 L0)).
    eapply wspec_then; [apply wspec_spec, spec_close; [by intros T [_ [(? & _) _]%Forall_cons]|unfold now; rewrite Ew; by apply an_edge|done]|].
    eapply wspec_then; [apply wspec_spec, spec_conflict|]. eapply wspec_pre; [exact IH|]. intros T L. apply inv_mono. intros T' _ (T1 & -> & Hq & _). by apply queued_upd.
  - destruct (bool_decide _); cbn [negb].
    + intros st x st' H. assert (TurnState c = Waiting) as Ew by (destruct H as [[_ [(_ & ? & _) _]%Forall_cons] _]; done). revert st x st' H.
      eapply (wspec_then _ _ (kept T0 L0)); [eapply wspec_pre; [by apply wspec_take_over|]|apply wspec_spec, spec_ret; by intros T L].
      intros T L. apply inv_mono. by intros T' _ [_ [(? & _) _]%Forall_cons].
    + eapply wspec_pre; [exact IH|]. intros T L. apply inv_mono. intros T' _. apply queued_tail.
Qed.

Lemma wspec_promote T0 L0 w target at_ : wspec (kept T0 L0) (promote w target at_) (λ _, kept T0 L0).
Proof.
  intros st x st' H E. eapply (wspec_promote_loop T0 L0 w target at_ (ready_waiters target (t_turns st)) st x st'); [|exact E].
  destruct H as (_ & H2 & H3). split_and!; [|done..]. by apply ready_queued, H2.
Qed.

Lemma spec_land_each T0 L0 turns reason actor at_ landed tip : NoDup (TurnID <$> turns) → Forall (λ r, in_lane (TurnState r) = true) turns →
  spec (inv (λ T, Forall (λ r, r ∈ T) turns) now T0 L0) (land_each turns reason actor at_ landed tip) (λ _, kept T0 L0).
Proof.
  induction turns as [|r turns IH]; intros Hn Hs; cbn [land_each]; [apply spec_ret; intros T L; apply inv_kept|].
  rewrite fmap_cons in Hn. apply NoDup_cons in Hn as [Hr Hn]. apply Forall_cons in Hs as [Es Hs].
  assert (edge (now r) "landed") as He.
  { unfold in_lane in Es. unfold now. destruct (bool_decide_reflect (TurnState r = Holding)) as [->|]; [by apply an_edge|].
    destruct (bool_decide_reflect (TurnState r = Waiting)) as [->|]; [by apply an_edge|done]. }
  eapply spec_then; [apply spec_close; [by intros T [? _]%Forall_cons|exact He|done]|]. eapply spec_pre; [by apply IH|]. intros T L. apply inv_mono.
  intros T' _ (T1 & -> & [_ Hin]%Forall_cons & _). rewrite Forall_forall in *. intros x Hx. apply upd_elem. right. split; [by apply Hin|]. intros E. apply Hr. rewrite <- E.
  by apply list_elem_of_fmap_2.
Qed.

Lemma split_members_cases `{UnicodeLower} members st sides st' : split_members members st = Ok (sides, st') →
  st' = st ∧ sides.1.*1 `sublist_of` members ∧ Forall (λ p, p.2 ∈ t_turns st ∧ TurnID p.2 = MemberTurn p.1 ∧ in_lane (TurnState p.2) = true) sides.1.
Proof.
  revert sides. induction members as [|m members IH]; intros sides; cbn [split_members]; [intros [= <- <-]; by split_and!|]. cbv [mbind M_bind].
  pose proof (row_cases (MemberTurn m) st) as Hrow. destruct (row (MemberTurn m) st) as [[r st1]|]; [|done]. destruct Hrow as (-> & Hr & Er).
  destruct (in_lane (TurnState r)) eqn:El; cbn [negb].
  - destruct (SameCommit _ _); [|done]. cbn [negb]. destruct (split_members members st) as [[sides' st1]|]; [|done]. intros [= <- <-].
    destruct (IH sides' eq_refl) as (-> & Hsub & Hall). split_and!; [done|by apply sublist_skip|]. by constructor.
  - destruct (split_members members st) as [[sides' st1]|]; [|done]. intros [= <- <-]. destruct (IH sides' eq_refl) as (-> & Hsub & Hall). split_and!; [done|by apply sublist_cons|done].
Qed.

Lemma sublist_fmap_of {A B} (f : A → B) l1 l2 : l1 `sublist_of` l2 → f <$> l1 `sublist_of` f <$> l2.
Proof. induction 1; [done|by apply sublist_skip|by apply sublist_cons]. Qed.

Lemma raise_some_Ok e st u st' : raise_some e st = Ok (u, st') → st' = st.
Proof. destruct e; cbn; [done|]. by intros [= _ <-]. Qed.

Lemma wspec_raise_some P e : wspec P (raise_some e) (λ _, P).
Proof. intros st u st' HP ->%raise_some_Ok. done. Qed.

Lemma wspec_train_land `{UnicodeLower} T0 L0 w reads row_ tip train actor landed at_ : NoDup (MemberTurn <$> read_members reads) →
  wspec (kept T0 L0) (TrainLand_body w reads row_ tip train actor landed at_) (λ _, kept T0 L0).
Proof.
  intros Hn. unfold TrainLand_body. destruct (bool_decide _); cbn [negb]; [|by intros st x st' _]. set (members := read_members reads) in *.
  eapply (wspec_bind _ _ (λ sides, inv (λ T, sides.1.*1 `sublist_of` members ∧ Forall (λ p, p.2 ∈ T ∧ TurnID p.2 = MemberTurn p.1 ∧ in_lane (TurnState p.2) = true) sides.1) now T0 L0)).
  { intros st sides st' (_ & H2 & H3) (-> & ? & ?)%split_members_cases. by split_and!. }
  intros sides. do 3 (eapply wspec_then; [apply wspec_raise_some|]).
  eapply (wspec_then _ _ (kept T0 L0)); [|eapply wspec_then; [apply wspec_raise_some|]; eapply wspec_bind; [apply wspec_promote|]; intros p; by apply wspec_spec, spec_ret].
  intros st u st' [[Hsub Hall] [H2 H3]]. apply wspec_spec with (P := inv (λ T, Forall (λ r, r ∈ T) sides.1.*2) now T0 L0) (Q := λ _, kept T0 L0); [apply spec_land_each|].
  - assert (TurnID <$> sides.1.*2 = MemberTurn <$> sides.1.*1) as ->.
    { rewrite <- !list_fmap_compose. apply list_fmap_ext. intros i p Hp%list_elem_of_lookup_2. rewrite Forall_forall in Hall. cbn. by apply Hall. }
    eapply sublist_NoDup; [exact Hn|]. by apply sublist_fmap_of.
  - rewrite Forall_fmap. eapply Forall_impl; [exact Hall|]. by intros p (_ & _ & ?).
  - split_and!; [|done..]. rewrite Forall_fmap. eapply Forall_impl; [exact Hall|]. by intros p (? & _).
Qed.
