(* ===== verification/MergeProps.v ===== *)
(** * MergeProps: what holds of the merge turns of every store the operations can reach.

    A step is any call of any operation, with any arguments and any world; the landing of a bundle is one too, with any readings of the trains and of the forge. The stores are those
    reached from empty tables. *)
From S2P Require Import Prelude GoLib Sha256 Json Loads GoJson GoPath MergeStore MergeTurn MergeHead MergeOps MergeLand MergeLane MergeLaneOps.
Local Open Scope string_scope.

Definition err_of {A} (x : Tables * result MergeError A) : option MergeError := match x.2 with Ok _ => None | Err e => Some e end.

Section steps.
Context `{UnicodeLower} `{EvidencePackage}.

Inductive lane_step (st : Tables) : Tables → option MergeError → Prop :=
| step_request w repository base project holder host head_ ready pr relationship at_ :
  let x := Request w repository base project holder host head_ ready pr relationship at_ st in lane_step st x.1 (err_of x)
| step_attest turn kind identity actor evidence at_ : let x := Attest turn kind identity actor evidence at_ st in lane_step st x.1 (err_of x)
| step_acknowledge w turn actor grant_ evidence at_ : let x := Acknowledge w turn actor grant_ evidence at_ st in lane_step st x.1 (err_of x)
| step_ready w pulls early turn actor ready stated cause at_ : let x := Ready w pulls early turn actor ready stated cause at_ st in lane_step st x.1 (err_of x)
| step_progress w turn actor step evidence at_ : let x := Progress w turn actor step evidence at_ st in lane_step st x.1 (err_of x)
| step_request_return w turn actor evidence at_ : let x := RequestReturn w turn actor evidence at_ st in lane_step st x.1 (err_of x)
| step_withdraw turn actor at_ : let x := Withdraw turn actor at_ st in lane_step st x.1 (err_of x)
| step_release w turn actor disposition reason evidence at_ : let x := Release w turn actor disposition reason evidence at_ st in lane_step st x.1 (err_of x)
| step_pass w turn actor evidence at_ : let x := Pass w turn actor evidence at_ st in lane_step st x.1 (err_of x)
| step_check w reader early landing turn actor head_ base checks review required at_ :
  let x := Check w reader early landing turn actor head_ base checks review required at_ st in lane_step st x.1 (err_of x)
| step_land w reader early turn actor landed stated evidence at_ : let x := Land w reader early turn actor landed stated evidence at_ st in lane_step st x.1 (err_of x)
| step_unknown w turn actor reason at_ : let x := ReportUnknown w turn actor reason at_ st in lane_step st x.1 (err_of x)
| step_resolve w reader early turn actor stated prState evidence at_ : let x := Resolve w reader early turn actor stated prState evidence at_ st in lane_step st x.1 (err_of x)
| step_restate w reader early turn actor stated evidence at_ : let x := RestateBase w reader early turn actor stated evidence at_ st in lane_step st x.1 (err_of x).

(** Any command that writes merge turns: one of the lane, or the landing of a bundle. A train has one turn per member: [Open] refuses a pull request named twice and takes the one
    turn of each. *)
Inductive call (st : Tables) : Tables → option MergeError → Prop :=
| call_lane st' e : lane_step st st' e → call st st' e
| call_train_land w reads train actor landed observed_ reader forge at_ : NoDup (MemberTurn <$> read_members reads) →
  let x := TrainLand w reads train actor landed observed_ reader forge at_ st in call st x.1 (err_of x).

Inductive reachable : Tables → Prop :=
| reach_empty : reachable (mkTables [] [] [] [] [] [])
| reach_step st st' e : reachable st → call st st' e → reachable st'.

(** ** One step *)

(** What a call keeps: the lane, everything recorded, and the exclusive indexes. *)
Definition keeps_lane (st st' : Tables) (e : option MergeError) : Prop :=
  holds lane st' ∧ grows (t_turns st) (t_ledger st) (t_turns st') (t_ledger st') ∧ match e with Some e => benign e | None => True end.

Lemma keeps_err {A} st (e : MergeError) : holds lane st → benign e → keeps_lane st (st, @Err MergeError A e).1 (err_of (st, @Err MergeError A e)).
Proof. intros Hl He. split_and!; [done|apply grows_refl|done]. Qed.

Lemma run_keeps {A} (body : Body A) Q st : holds lane st → spec (inv (λ T, T = t_turns st) now (t_turns st) (t_ledger st)) body Q →
  (∀ v T L, Q v T L → kept (t_turns st) (t_ledger st) T L) → keeps_lane st (run body st).1 (err_of (run body st)).
Proof.
  intros Hl Hs HQ. specialize (Hs st ltac:(split_and!; [done|exact Hl|apply grows_refl])). unfold run, transaction.
  destruct (body st) as [[v st']|e]; [|by apply (@keeps_err A)]. apply HQ in Hs as (_ & ? & ?). destruct v as [x|c]; cbn; by split_and!.
Qed.

Lemma run_kept {A} (body : Body A) st : holds lane st → (∀ T0 L0, spec (kept T0 L0) body (λ _, kept T0 L0)) → keeps_lane st (run body st).1 (err_of (run body st)).
Proof. intros Hl Hs. eapply run_keeps; [done|eapply spec_pre; [apply (Hs (t_turns st) (t_ledger st))|]|by intros v T L]. intros T L. apply inv_kept. Qed.

Lemma exact_all_benign fields e : exact_all fields = Err e → benign e.
Proof.
  induction fields as [|[v what] fields IH]; cbn; [done|]. destruct (CoordinationExact v what) as [[]|e'] eqn:E; [done|]. intros [= ->]. by eapply exact_benign.
Qed.

Lemma target_benign repository base e : TargetIdentity repository base = Err e → benign e.
Proof.
  unfold TargetIdentity. destruct (CoordinationExact repository _) as [[]|?] eqn:E1; [|intros [= ->]; by eapply exact_benign].
  destruct (CoordinationExact base _) as [[]|?] eqn:E2; [|intros [= ->]; by eapply exact_benign]. destruct (encodes _ _); [done|]. by intros [= <-].
Qed.

Lemma step_keeps st st' e : holds lane st → lane_step st st' e → keeps_lane st st' e.
Proof.
  intros Hl Hstep. destruct Hstep; subst x.
  - unfold Request. destruct (TargetIdentity _ _) as [target|] eqn:E; [|apply keeps_err; [done|by eapply target_benign]].
    destruct (exact_all _) as [[]|] eqn:E'; [|apply keeps_err; [done|by eapply exact_all_benign]]. apply run_kept; [done|]. intros. apply spec_request.
  - unfold Attest. destruct (squatted _ _); [by apply keeps_err|]. apply run_kept; [done|]. intros. apply spec_attest.
  - unfold Acknowledge. destruct (blank _); [by apply keeps_err|]. destruct (CoordinationExact _ _) as [[]|] eqn:E; [|apply keeps_err; [done|by eapply exact_benign]].
    apply run_kept; [done|]. intros. apply spec_acknowledge.
  - apply run_kept; [done|]. intros. apply spec_ready.
  - unfold Progress. destruct (bool_decide _); [|by apply keeps_err]. apply run_kept; [done|]. intros. apply spec_progress.
  - apply run_kept; [done|]. intros. apply spec_request_return.
  - apply run_kept; [done|]. intros. apply spec_withdraw.
  - unfold Release. destruct (bool_decide_reflect (disposition = "returned")), (bool_decide_reflect (disposition = "cancelled")); cbn [negb andb]; try (by apply keeps_err);
      (destruct (blank reason); [by apply keeps_err|]); try (destruct (blank evidence); [by apply keeps_err|]);
      (eapply run_keeps; [done|apply spec_release; tauto|intros v T L; apply handed_kept]).
  - unfold Pass. destruct (blank _); [by apply keeps_err|]. eapply run_keeps; [done|apply spec_pass|intros v T L; apply handed_kept].
  - unfold Check. cbn zeta. destruct (ReviewShapeProblems _); [|by apply keeps_err]. apply run_kept; [done|]. intros. apply spec_check.
  - unfold Land. destruct (blank _); [by apply keeps_err|]. destruct (exact_all _) as [[]|] eqn:E; [|apply keeps_err; [done|by eapply exact_all_benign]].
    destruct (land_read _ _ _) as [tip why]. eapply run_keeps; [done|apply spec_land|intros v T L; apply handed_kept].
  - unfold ReportUnknown. destruct (blank _); [by apply keeps_err|]. apply run_kept; [done|]. intros. apply spec_report_unknown.
  - unfold Resolve. destruct (blank _); [by apply keeps_err|]. destruct (CoordinationExact _ _) as [[]|] eqn:E; [|apply keeps_err; [done|by eapply exact_benign]].
    destruct (resolve_read _ _ _ _ _) as [tip why]. eapply run_keeps; [done|apply spec_resolve|intros v T L; apply handed_kept].
  - unfold RestateBase. destruct (blank _); [by apply keeps_err|].
    destruct (if bool_decide _ then _ else _) as [[]|] eqn:E; [|apply keeps_err; [done|]; destruct (bool_decide _); [done|by eapply exact_benign]].
    destruct (restate_read _ _ _ _) as [tip why]. apply run_kept; [done|]. intros. apply spec_restate_base.
Qed.

Lemma call_keeps st st' e : holds lane st → call st st' e → holds lane st' ∧ grows (t_turns st) (t_ledger st) (t_turns st') (t_ledger st').
Proof.
  intros Hl [? ? Hs|w reads train actor landed observed_ reader forge at_ Hn]; [destruct (step_keeps _ _ _ Hl Hs) as (? & ? & _); done|]. subst x. unfold TrainLand.
  destruct (train_land_read _ _ _ _ _ _ _) as [e'|[row_ tip]]; [done|]. unfold transaction.
  destruct (TrainLand_body _ _ _ _ _ _ _ _ st) as [[v st1]|e'] eqn:E; [|done].
  destruct (wspec_train_land (t_turns st) (t_ledger st) w reads row_ tip train actor landed at_ Hn st v st1) as (_ & ? & ?); [|done..]. by split_and!.
Qed.

Lemma reachable_lane st : reachable st → holds lane st.
Proof.
  induction 1 as [|st st' e _ IH Hs]; [|by apply (call_keeps st st' e)]. split_and!; [by split|intros e He; by apply elem_of_nil in He|intros r Hr; by apply elem_of_nil in Hr].
Qed.

(** ** Claims *)

(** C6: in every reachable store a target has at most one turn that is holding, merging or unknown, a holder has at most one live claim on a target, and the transitions the ledger
    records for a turn are a run of the turn's machine from nothing to the state of its row: the ledger explains every row. The stores are those any sequence of the lane's commands
    and of bundle landings leaves. *)
Theorem lane_exclusive_and_explained st : reachable st →
  (∀ r r', r ∈ t_turns st → r' ∈ t_turns st → TargetKey r = TargetKey r' → occupying (TurnState r) = true → occupying (TurnState r') = true → r = r') ∧
  (∀ r r', r ∈ t_turns st → r' ∈ t_turns st → TargetKey r = TargetKey r' → HolderTaskID r = HolderTaskID r' → live (TurnState r) = true → live (TurnState r') = true → r = r') ∧
  (∀ r, r ∈ t_turns st → walk None (moves (TurnID r) (t_ledger st)) = Some (Some (TurnState r))).
Proof.
  intros (K & _ & He)%reachable_lane. split_and!; [intros; by apply (keyed_occupant (t_turns st))| |exact He].
  intros r r' [i Hi]%list_elem_of_lookup [j Hj]%list_elem_of_lookup Et Eh L L'. destruct (keyed_indexes _ K) as (_ & _ & U). rewrite unique_by_true in U.
  assert (i = j) as -> by (apply (U i j r r' (TargetKey r, HolderTaskID r)); [done..| |]; unfold claim_key; rewrite ?L, ?L', ?Et, ?Eh; done). congruence.
Qed.

(** The exclusive indexes of the schema are never what stops a command of the lane: from a reachable store none ends in a violation of the index of live holders or of the index of
    live claims, so the guards of the code decide every contest before the store does. A bundle landing is not such a command. *)
Theorem exclusive_index_never_hit st st' e : reachable st → lane_step st st' (Some e) →
  e ≠ Constraint "merge_turns_one_live_holder" ∧ e ≠ Constraint "merge_turns_one_live_claim".
Proof. intros Hr%reachable_lane Hs. by apply (step_keeps st st' (Some e)). Qed.

(** C28: a call loses nothing and no turn goes back: the ledger only grows, every row keeps its identity (turn, target, repository, base, project, holder, host, relationship, pull
    request, tenure and time of request), and its state moves only along the machine: waiting to holding or withdrawn, holding to merging, returned, cancelled or passed, merging to
    landed or unknown, unknown to landed or returned, and with its bundle waiting or holding to landed; so a merging or unknown turn is never released, passed or withdrawn and a
    closed turn stays as it is. *)
Theorem turns_only_move_forward st st' e r : reachable st → call st st' e → r ∈ t_turns st →
  t_ledger st `prefix_of` t_ledger st' ∧ ∃ r', r' ∈ t_turns st' ∧ identity_of r' = identity_of r ∧ rtc edge_step (Some (TurnState r)) (Some (TurnState r')).
Proof.
  intros Hl%reachable_lane Hs Hr. destruct (call_keeps st st' e Hl Hs) as ((_ & _ & He') & [Hp Hi]). split; [done|].
  assert (identity_of r ∈ identity_of <$> t_turns st') as (r' & E & Hr')%list_elem_of_fmap.
  { eapply elem_of_prefix; [|exact Hi]. by apply list_elem_of_fmap_2. }
  exists r'. split_and!; [done..|]. destruct Hp as [more Hp]. specialize (He' r' Hr'). destruct Hl as (_ & _ & He). specialize (He r Hr).
  assert (TurnID r' = TurnID r) as Et by (unfold identity_of in E; by simplify_eq). unfold ends in He, He'. rewrite Hp, moves_app, walk_app, Et, He in He'. by eapply walk_reaches.
Qed.
End steps.
