(* ===== verification/MergeClaims.v ===== *)
(** * MergeClaims: what single operations on merge turns do.

    Who a given-up target goes to, when a silent holder may be passed, and that a repeated claim is the same claim. *)
From S2P Require Import Prelude GoLib Sha256 Json Loads GoJson GoPath GoTime MergeStore MergeTurn MergeHead MergeOps MergeLand MergeLane MergeLaneOps MergeProps.
Local Open Scope string_scope.

(** ** Handing a target on *)
Section handover.
Context `{UnicodeLower} `{EvidencePackage}.

(** A call that closed the turn that occupied a target, and what it answered about the next one. *)
Inductive handover (w : World) (turn at_ : string) (st st' : Tables) (p : string) : Prop :=
| by_release actor disposition reason evidence : Release w turn actor disposition reason evidence at_ st = (st', Ok p) → handover w turn at_ st st' p
| by_pass actor evidence : Pass w turn actor evidence at_ st = (st', Ok p) → handover w turn at_ st st' p
| by_land reader early actor landed stated evidence : Land w reader early turn actor landed stated evidence at_ st = (st', Ok p) → handover w turn at_ st st' p
| by_resolve reader early actor stated prState evidence s : Resolve w reader early turn actor stated prState evidence at_ st = (st', Ok (s, p)) → handover w turn at_ st st' p.

Lemma run_handed {B} (body : Body B) p w turn at_ st st' x : holds lane st → spec (inv (λ T, T = t_turns st) now (t_turns st) (t_ledger st)) body (handed (t_turns st) (t_ledger st) p w turn at_) →
  run body st = (st', Ok x) → given_on (t_turns st) w turn at_ (p x) (t_turns st').
Proof.
  intros Hl Hs. specialize (Hs st ltac:(split_and!; [done|exact Hl|apply grows_refl])). unfold run, transaction.
  destruct (body st) as [[[y|c] st1]|e]; [|done..]. intros [= -> ->]. apply Hs.
Qed.

Lemma handover_given w turn at_ st st' p : holds lane st → handover w turn at_ st st' p → given_on (t_turns st) w turn at_ p (t_turns st').
Proof.
  intros Hl [actor disposition reason evidence E|actor evidence E|reader early actor landed stated evidence E|reader early actor stated prState evidence s E].
  - unfold Release in E. destruct (bool_decide_reflect (disposition = "returned")), (bool_decide_reflect (disposition = "cancelled")); cbn [negb andb] in E; try done;
      (destruct (blank reason); [done|]); try (destruct (blank evidence); [done|]); by apply (run_handed _ id _ _ _ _ _ _ Hl (spec_release _ _ w turn actor disposition reason evidence at_ ltac:(tauto))).
  - unfold Pass in E. destruct (blank evidence); [done|]. by apply (run_handed _ id _ _ _ _ _ _ Hl (spec_pass _ _ w turn actor evidence at_)).
  - unfold Land in E. destruct (blank evidence); [done|]. destruct (exact_all _); [|done]. destruct (land_read _ _ _) as [tip why].
    by apply (run_handed _ id _ _ _ _ _ _ Hl (spec_land _ _ w tip why turn actor landed stated evidence at_)).
  - unfold Resolve in E. destruct (blank evidence); [done|]. destruct (CoordinationExact _ _); [|done]. destruct (resolve_read _ _ _ _ _) as [tip why].
    by apply (run_handed _ snd _ _ _ _ _ (s, p) Hl (spec_resolve _ _ w tip why turn actor stated prState evidence at_)).
Qed.

(** The ready waiters of a target. *)
Definition ready_waiter (target : string) (c : MergeTurnsRow) : Prop := TargetKey c = target ∧ TurnState c = Waiting ∧ DeclaredReady c = 1%Z.

Lemma sorted_first (seen rest : list MergeTurnsRow) c c' : StronglySorted asked_before (seen ++ c :: rest) → c' ∈ (seen ++ c :: rest)%list → c' ∉ seen → c' = c ∨ asked_before c c'.
Proof.
  intros Hs [?|[->|Hr]%elem_of_cons]%elem_of_app Hn; [done|by left|right]. apply StronglySorted_app in Hs as (_ & _ & Hs). apply StronglySorted_cons in Hs as [Hs _].
  by apply (proj1 (Forall_forall _ _) Hs).
Qed.

(** C27: a target whose turn was released, passed on, landed or resolved goes to the eligible claim that asked first, and to nobody only when no claim is eligible. Either the call
    names a promoted turn: a waiting, ready claim on the target whose holder is the one owner of its project, active, none of the other such claims having asked earlier, and its row
    now holds the target since the call; or it names none: nobody occupies the target any more, and every ready claim still waiting is not its project's owner or is paused. *)
Theorem target_goes_to_the_first_ready w turn at_ st st' p : reachable st → handover w turn at_ st st' p →
  ∃ r, r ∈ t_turns st ∧ TurnID r = turn ∧ occupying (TurnState r) = true ∧
    if bool_decide (p = "") then (∀ c, c ∈ t_turns st' → TargetKey c = TargetKey r → occupying (TurnState c) = false) ∧
      (∀ c, c ∈ t_turns st' → ready_waiter (TargetKey r) c → withheld w (ProjectKey c) (HolderTaskID c) ≠ "")
    else ∃ c, c ∈ t_turns st ∧ TurnID c = p ∧ ready_waiter (TargetKey r) c ∧ withheld w (ProjectKey c) (HolderTaskID c) = "" ∧ promoted_row at_ c ∈ t_turns st' ∧
      (∀ c', c' ∈ t_turns st → ready_waiter (TargetKey r) c' → withheld w (ProjectKey c') (HolderTaskID c') = "" → c' = c ∨ String.le (RequestedAt c) (RequestedAt c')).
Proof.
  intros Hl%reachable_lane Hh. destruct (handover_given _ _ _ _ _ _ Hl Hh) as (r & g & seen & Hr & Et & Ho & Hg & Hlive & K & ET & Hch). exists r. split_and!; [done..|].
  set (T1 := upd turn g (t_turns st)) in *. assert (∀ c, TurnState c = Waiting → c ∈ T1 ↔ c ∈ t_turns st) as Hw.
  { intros c Ec. unfold T1. rewrite upd_elem. assert (TurnState (g r) ≠ Waiting) by (intros E; rewrite E in Hlive; done). split.
    - intros [(x & Hx & Ex & ->)|[? _]]; [|done]. by rewrite (keyed_id _ x r (proj1 Hl) Hx Hr) in Ec by congruence.
    - intros Hc. right. split; [done|]. intros E. rewrite (keyed_id _ c r (proj1 Hl) Hc Hr) in Ec by congruence. by rewrite Ec in Ho. }
  assert (∀ c, c ∈ t_turns st → ready_waiter (TargetKey r) c → c ∈ ready_waiters (TargetKey r) T1) as Hq.
  { intros c Hc (? & ? & ?). apply elem_of_ready. split_and!; [|done..]. by apply Hw. }
  unfold nullable in *. destruct (bool_decide_reflect (p = "")) as [Ep|Ep]; cbn [chosen] in Hch.
  - destruct Hch as [-> Hn]. rewrite Forall_forall in Hn. rewrite ET.
    assert (∀ c0, TurnState (served w (TargetKey r) at_ (ready_waiters (TargetKey r) T1) None c0) = TurnState c0 ∨
      TurnState (served w (TargetKey r) at_ (ready_waiters (TargetKey r) T1) None c0) = "withdrawn") as Hstate.
    { intros c0. unfold served. destruct (bool_decide _); [destruct (stale_claim _ _ _); [by right|by left]|]. by destruct (bool_decide_reflect (None = Some (TurnID c0))); [|left]. }
    split.
    + intros c (c0 & -> & Hc0)%list_elem_of_fmap Ec. destruct (Hstate c0) as [E|E]; rewrite E; [|done].
      assert (TargetKey c0 = TargetKey r) as E0 by (unfold served in Ec; destruct (bool_decide _); [by destruct (stale_claim _ _ _)|by destruct (bool_decide _)]).
      apply upd_elem in Hc0 as [(x & Hx & Ex & ->)|[Hx Ex]]; [rewrite (keyed_id _ x r (proj1 Hl) Hx Hr) by congruence; by apply live_occupying|].
      destruct (occupying (TurnState c0)) eqn:O; [|done]. exfalso. apply Ex. by rewrite (keyed_occupant _ c0 r (proj1 Hl) Hx Hr).
    + intros c (c0 & -> & Hc0)%list_elem_of_fmap (Q1 & Q2 & Q3). revert Q1 Q2 Q3. unfold served. destruct (bool_decide_reflect (TurnID c0 ∈ TurnID <$> ready_waiters (TargetKey r) T1)) as [Hin|Hin].
      * apply list_elem_of_fmap in Hin as (x & Ex & Hx). assert (c0 = x) as -> by (apply (keyed_id T1); [done|done|by apply elem_of_ready in Hx as [? _]|done]).
        destruct (stale_claim _ _ _) eqn:Es; [done|]. intros _ _ _. by apply Hn.
      * rewrite bool_decide_eq_false_2 by done. intros Q1 Q2 Q3. exfalso. apply Hin, list_elem_of_fmap_2, elem_of_ready. by split_and!.
  - destruct Hch as (c & rest & Eq & Ec & Hel & Hn). rewrite Forall_forall in Hn.
    assert (c ∈ ready_waiters (TargetKey r) T1) as Hc by (rewrite Eq; apply elem_of_app; right; by left). apply elem_of_ready in Hc as (Hc1 & Q). exists c.
    split_and!; [apply Hw; [apply Q|done]|done|done|exact Hel| |].
    + rewrite ET. apply list_elem_of_fmap. exists c. split; [|done]. unfold served. rewrite bool_decide_eq_false_2; [by rewrite bool_decide_eq_true_2 by (by f_equal)|].
      intros (x & Ex & Hx)%list_elem_of_fmap. apply (Hn x Hx). assert (x ∈ T1) as Hx1 by (assert (x ∈ ready_waiters (TargetKey r) T1) as Hx2 by (rewrite Eq; apply elem_of_app; by left); by apply elem_of_ready in Hx2 as [? _]).
      by rewrite <- (keyed_id T1 c x K Hc1 Hx1 Ex).
    + intros c' Hc' Hr' Hel'. apply (sorted_first seen rest); [rewrite <- Eq; apply ready_order|rewrite <- Eq; by apply Hq|]. intros Hs. by apply (Hn c' Hs).
Qed.
End handover.

(** ** Passing a silent turn on *)
Lemma ltb_le a b : String.ltb a b = false → String.le b a.
Proof. unfold String.ltb, String.le, String.leb. rewrite String.compare_antisym. destruct (String.compare b a); cbn; done. Qed.

Lemma lt_ltb_le a b : String.ltb a b = true → String.le a b.
Proof. unfold String.ltb, String.le, String.leb. by destruct (String.compare a b). Qed.

Lemma not_beats a b : beats a b = false → String.le (SignAt a) (SignAt b).
Proof.
  unfold beats. destruct (bool_decide_reflect (SignAt a = SignAt b)) as [->|]; cbn [negb]; [done|]. apply ltb_le.
Qed.

Lemma beats_le a b : beats a b = true → String.le (SignAt b) (SignAt a).
Proof.
  unfold beats. destruct (bool_decide_reflect (SignAt a = SignAt b)) as [->|]; cbn [negb]; [done|]. apply lt_ltb_le.
Qed.

(** The newest sign of life is no older than any sign of the holder, nor than the time the turn is held since. *)
Lemma last_sign_newest r entries :
  String.le (default (RequestedAt r) (HeldAt r)) (SignAt (lastSignOfLife r entries)) ∧
  (∀ e, e ∈ entries → ActorTaskID e = HolderTaskID r → signRank (EvidenceKind e) ≠ 0 → String.le (RecordedAt e) (SignAt (lastSignOfLife r entries))).
Proof.
  unfold lastSignOfLife. set (s0 := mkSign _ _ _ _). change (default (RequestedAt r) (HeldAt r)) with (SignAt s0). clearbody s0.
  assert (∀ e, SignAt (sign_of e) = RecordedAt e) as Hat by (intros e; unfold sign_of; destruct (if bool_decide _ then _ else _); done).
  revert s0. induction entries as [|e entries IH]; intros s0; cbn; [split; [done|]; intros e He; by apply elem_of_nil in He|].
  destruct (IH (sign_step r s0 e)) as [H1 H2].
  assert (String.le (SignAt s0) (SignAt (sign_step r s0 e))) as Hup.
  { unfold sign_step. destruct (_ || _); [done|]. destruct (beats (sign_of e) s0) eqn:B; [by apply beats_le|done]. }
  split; [by etrans|]. intros x [->|Hx]%elem_of_cons Ha Hk; [|by apply H2]. etrans; [|exact H1]. unfold sign_step.
  rewrite (proj2 (Nat.eqb_neq _ _) Hk), bool_decide_eq_true_2 by done. cbn. rewrite <- (Hat e). destruct (beats (sign_of e) s0) eqn:B; [done|by apply not_beats].
Qed.

Lemma may_pass_spec w r actor claims : may_pass w r actor claims = true → ∃ c, c ∈ claims ∧ TurnState c = Waiting ∧ HolderTaskID c = actor ∧ parents w (ProjectKey c) = [actor].
Proof.
  unfold may_pass. rewrite existsb_exists. intros (c & Hc%list_elem_of_In & Hb). apply andb_true_iff in Hb as [[Hw%bool_decide_eq_true Hh%bool_decide_eq_true]%andb_true_iff Ho].
  exists c. destruct (ownership _ _ _ _) as [|owner] eqn:E; [done|]. apply bool_decide_eq_true in Ho as ->. by apply ownership_parents in E.
Qed.

(** The silence a pass needs, in nanoseconds. *)
Definition silent (last current : Time) : Prop := (1200 * 1000000000 ≤ 1000000000 * (t_sec current - t_sec last) + (t_nsec current - t_nsec last))%Z.

Lemma stalled_silent r entries at_ : Readable (stallOf r entries at_) = true → Stalled (stallOf r entries at_) = true →
  ∃ last current, parse_iso (SignAt (lastSignOfLife r entries)) = Some last ∧ parse_iso at_ = Some current ∧ silent last current.
Proof.
  unfold stallOf. destruct (parse_iso (SignAt _)) as [last|]; [|done]. destruct (parse_iso at_) as [current|]; [|done]. cbn. intros _ [_ Hs%Z.leb_le]%andb_true_iff.
  exists last, current. split_and!; [done..|]. unfold HoldingLimitSeconds, LongestCISeconds, HoldingMarginSeconds, Sub, silent in *.
  set (d := (1000000000 * (t_sec current - t_sec last) + (t_nsec current - t_nsec last))%Z) in *. clearbody d.
  destruct (Z.le_gt_cases (1200 * 1000000000) d) as [|Hd]; [done|]. exfalso. assert (Z.quot (Z.max (- 2 ^ 63) (Z.min (2 ^ 63 - 1) d)) 1000000000 < 1200)%Z; [|lia].
  set (m := Z.max _ _). assert (m < 1200 * 1000000000)%Z as Hm by lia. clearbody m. destruct (Z.le_gt_cases 0 m).
  - apply Z.quot_lt_upper_bound; lia.
  - assert (Z.quot m 1000000000 ≤ 0)%Z; [|lia]. replace m with (- - m)%Z by lia. rewrite Z.quot_opp_l by lia. pose proof (Z.quot_pos (- m) 1000000000). lia.
Qed.

Lemma notStalled_None r turn actor silence : notStalled r turn actor silence = None → Readable silence = true ∧ Stalled silence = true.
Proof. unfold notStalled, when. destruct (Readable silence), (Stalled silence); done. Qed.

Lemma row_found turn st r st1 : row turn st = Ok (r, st1) → st1 = st ∧ MergeTurn turn st = Some r.
Proof. unfold row, get, mbind, M_bind. destruct (MergeTurn turn st); [|done]. by intros [= -> ->]. Qed.

(** C29: a turn is taken from its holder only when the holder has been silent for twenty minutes. A call that passes a turn found it holding; the newest sign of life of the turn (the
    time it is held since, or what its holder recorded in its ledger: progress, an acknowledged grant, a head, a readiness) has a readable time that is at least 1200 seconds before
    the readable time of the call, and no recorded sign of the holder is newer; and the caller is the supervisor above the project, or the one owner of another project with a waiting claim on the same target. *)
Theorem passed_only_after_silence w turn actor evidence at_ st st' p : Pass w turn actor evidence at_ st = (st', Ok p) →
  ∃ r last current, MergeTurn turn st = Some r ∧ TurnState r = Holding ∧
    parse_iso (SignAt (lastSignOfLife r (MergeLedger turn st))) = Some last ∧ parse_iso at_ = Some current ∧ silent last current ∧
    String.le (default (RequestedAt r) (HeldAt r)) (SignAt (lastSignOfLife r (MergeLedger turn st))) ∧
    (∀ e, e ∈ t_ledger st → EntryTurn e = turn → ActorTaskID e = HolderTaskID r → signRank (EvidenceKind e) ≠ 0 →
      String.le (RecordedAt e) (SignAt (lastSignOfLife r (MergeLedger turn st)))) ∧
    (actor = supervisorOf w (ProjectKey r) ∨
     ∃ c, c ∈ t_turns st ∧ TargetKey c = TargetKey r ∧ TurnState c = Waiting ∧ HolderTaskID c = actor ∧ parents w (ProjectKey c) = [actor]).
Proof.
  unfold Pass. destruct (blank evidence); [done|]. unfold run, transaction, Pass_body. unfold mbind at 1, M_bind at 1. destruct (row turn st) as [[r st1]|] eqn:Er; [|done].
  apply row_found in Er as [-> Er]. unfold mbind at 1, M_bind at 1, get at 1. destruct (_ <||> _) as [c|] eqn:Ec.
  { unfold refuse, mbind, M_bind. destruct (RecordCoordinationConflict _ _ _) as [[]|]; done. }
  intros _. destruct (bool_decide (TurnState r = Merging) || _); [done|]. unfold when in Ec. destruct (bool_decide_reflect (TurnState r = Holding)) as [Eh|]; [|done]. cbn [negb orelse] in Ec.
  destruct (passRefusal w r actor st) eqn:Ep; [done|]. cbn [orelse] in Ec. apply notStalled_None in Ec as [Hr Hs]. destruct (stalled_silent _ _ _ Hr Hs) as (last & current & E1 & E2 & E3).
  destruct (last_sign_newest r (MergeLedger turn st)) as [N1 N2]. exists r, last, current. split_and!; [done..| |].
  - intros e He Et. apply N2. unfold MergeLedger. rewrite !elem_of_sort_by. by apply list_elem_of_filter.
  - unfold passRefusal in Ep. destruct (bool_decide_reflect (actor = supervisorOf w (ProjectKey r))) as [|]; [by left|right]. rewrite andb_false_r in Ep.
    destruct (may_pass _ _ _ _) eqn:M; [|done]. apply may_pass_spec in M as (c & Hc & ? & ? & ?). unfold MergeTurnsForTarget, by_request in Hc.
    rewrite !elem_of_sort_by in Hc. apply list_elem_of_filter in Hc as [? ?]. by exists c.
Qed.

(** ** Claiming twice *)
Lemma spec_ledger_turns (φ : list MergeTurnsRow → Prop) id kind from to ev actor body identity at_ :
  spec (λ T _, φ T) (ledger id kind from to ev actor body identity at_) (λ _ T _, φ T).
Proof.
  intros st H. pose proof (ledger_cases id kind from to ev actor body identity at_ st) as Hc. cbn zeta in Hc. destruct (ledger _ _ _ _ _ _ _ _ _ st) as [[u st']|]; [|done].
  unfold holds. by rewrite (proj1 Hc).
Qed.

Lemma spec_grant_turns (φ : list MergeTurnsRow → Prop) w r source at_ : spec (λ T _, φ T) (grant w r source at_) (λ _ T _, φ T).
Proof.
  unfold grant. eapply spec_bind; [apply spec_look|]. intros entries. cbn zeta. eapply spec_then; [|eapply spec_then; [apply spec_ledger_turns|]].
  - destruct (if bool_decide _ then _ else _) as [[d [?|?]]|]; [apply spec_journal|by apply spec_ret..].
  - destruct (if bool_decide _ then _ else _) as [[d [?|?]]|]; [by apply spec_ret|eapply spec_then; [apply spec_queue|apply spec_journal]|by apply spec_ret].
Qed.

(** What a new claim leaves: its row after the others. *)
Lemma claim_turns w r at_ st st1 v : claim w r at_ st = Ok (v, st1) → v = Ok (TurnID r, false) ∧ t_turns st1 = (t_turns st ++ [r])%list.
Proof.
  unfold claim, InsertMergeTurn, write_turns. unfold mbind at 1, M_bind at 1. destruct (turn_constraints _); [done|].
  match goal with |- (?m ≫= ?f) ?s = _ → _ => pose proof (spec_then (λ T _, T = (t_turns st ++ [r])%list) m (λ T _, T = (t_turns st ++ [r])%list) (f ()) (λ v T _, v = Ok (TurnID r, false) ∧ T = (t_turns st ++ [r])%list)) as Hs end.
  lapply Hs; [clear Hs; intros Hs|apply spec_ledger_turns]. lapply Hs; [clear Hs; intros Hs|].
  - intros E. specialize (Hs (with_turns st (t_turns st ++ [r])) eq_refl). cbv beta in Hs. rewrite E in Hs. exact Hs.
  - eapply spec_then; [destruct (bool_decide _); [apply spec_grant_turns|by apply spec_ret]|]. eapply spec_then; [apply spec_journal|]. by apply spec_ret.
Qed.

Lemma request_is_own r : requestIsLiveClaim r (PRNumber r) (RelationshipID r) = true.
Proof.
  unfold requestIsLiveClaim. apply bool_decide_eq_true. unfold compareClaim. destruct (PRNumber r) as [n|]; [rewrite bool_decide_eq_true_2 by done|];
    (destruct (named (RelationshipID r)) as [k|]; [rewrite bool_decide_eq_true_2 by done|]; done).
Qed.

(** Claiming is idempotent. A request that was answered with a turn, made again by the same owner for the same target, pull request and relationship, whatever readiness and time
    it states, is answered with the same turn as an existing claim, and the store is untouched: no second turn, entry, grant or journal row. *)
Theorem request_is_idempotent w repository base project holder host head_ ready pr relationship at_ st st1 id b ready' at_' :
  Request w repository base project holder host head_ ready pr relationship at_ st = (st1, Ok (id, b)) →
  Request w repository base project holder host head_ ready' pr relationship at_' st1 = (st1, Ok (id, true)).
Proof.
  unfold Request. destruct (TargetIdentity _ _) as [target|]; [|done]. destruct (exact_all _); [|done]. unfold run, transaction, Request_body. cbn zeta.
  destruct (match ownership _ _ _ _ with inl c => Some c | inr owner => _ end).
  { unfold refuse, mbind, M_bind. destruct (RecordCoordinationConflict _ _ _) as [[]|]; done. }
  unfold mbind at 1 2, M_bind at 1 2. unfold get at 1 2. destruct (LiveMergeClaim target holder st) as [own|] eqn:El.
  - destruct (requestIsLiveClaim own pr relationship) eqn:Eq; cbn.
    + intros E. simplify_eq. cbv [get mbind M_bind]. by rewrite El, Eq.
    + unfold refuse, mbind, M_bind. destruct (RecordCoordinationConflict _ _ _) as [[]|]; done.
  - unfold mbind at 1, M_bind at 1. unfold get at 1. set (r := requested _ _ _ _ _ _ _ _ _ _ _ _ st). destruct (claim w r at_ st) as [[v st2]|] eqn:Ec; [|done].
    apply claim_turns in Ec as [-> ET]. intros [= <- <- _]. cbv [get mbind M_bind]. assert (LiveMergeClaim target holder st2 = Some r) as ->.
    { unfold LiveMergeClaim in *. rewrite ET, filter_app. apply head_None in El. rewrite El. rewrite filter_cons_True; [done|]. split_and!; [done..|].
      unfold r. cbn. by destruct (_ || _). }
    pose proof (request_is_own r) as Ho. change (PRNumber r) with pr in Ho. change (RelationshipID r) with relationship in Ho. by rewrite Ho.
Qed.

(** ** A head the turn came to another way *)
Section again.
Context `{UnicodeLower}.

Lemma ledger_refuses id kind from to ev actor body identity at_ st seen : engineLedgerKind ev = true → MergeLedgerEntry id identity st = Some seen → Evidence seen ≠ body →
  ∃ detail, ledger id kind from to ev actor body identity at_ st = Err (Refused MergeEvidenceRequired detail).
Proof.
  intros Hk Hs Hb. unfold ledger. cbv [mbind M_bind]. unfold WriteMergeLedger. cbn [EntryTurn IdempotencyKey].
  assert (seen ∈ filter (λ e, EntryTurn e = id ∧ IdempotencyKey e = identity) (t_ledger st)) as [[E1 E2] Hin]%list_elem_of_filter by (by apply head_Some_elem_of).
  rewrite (proj2 (existsb_exists _ _)); [|exists seen; split; [by apply list_elem_of_In|by apply bool_decide_eq_true]]. rewrite Hk. cbn [negb]. unfold get. rewrite Hs.
  rewrite bool_decide_eq_false_2; [by eexists|]. intros (_ & _ & _ & _ & _ & E). by apply Hb.
Qed.

(** C30: a head can be declared again only from where it was declared before. When a turn's ledger already records a move to a head from another one, a call that moves the turn to that
    head is refused, whoever calls and whatever else holds, and the turn and its ledger stay as they were. *)
Theorem head_declared_another_way_is_refused w pulls early turn actor ready stated cause at_ st r e :
  MergeTurn turn st = Some r → stated ≠ "" → stated ≠ CandidateHead r →
  MergeLedgerEntry turn ("head:" +:+ stated) st = Some e → Evidence e ≠ CandidateHead r +:+ " -> " +:+ stated →
  ∃ st' reason detail, Ready w pulls early turn actor ready stated cause at_ st = (st', Err (Refused reason detail)) ∧ t_turns st' = t_turns st ∧ t_ledger st' = t_ledger st.
Proof.
  intros Er Hs Hm He Hb. assert (TurnID r = turn) as Et by (apply head_Some_elem_of, list_elem_of_filter in Er as [? _]; done).
  assert (∀ c, ∃ st' reason detail, (match refuse (A := ReadyAnswer) c at_ st with
    | Ok (x, st') => match x with Ok x => (st', Ok x) | Err c => (st', Err (Refused (Reason c) (Detail c))) end | Err e => (st, Err e) end) = (st', Err (Refused reason detail)) ∧
    t_turns st' = t_turns st ∧ t_ledger st' = t_ledger st) as Href.
  { intros c. unfold refuse, mbind, M_bind, RecordCoordinationConflict. destruct (existsb _ _); cbn; by do 3 eexists. }
  unfold Ready, run, transaction, Ready_body. unfold mbind at 1, M_bind at 1. unfold row, get, mbind at 1, M_bind at 1. rewrite Er. cbn [mret M_ret].
  destruct (_ <||> _) as [c|].
  { specialize (Href c). destruct (refuse c at_ st) as [[[?|?] ?]|]; exact Href. }
  cbn zeta. rewrite (bool_decide_eq_false_2 (stated = "")), (bool_decide_eq_false_2 (stated = CandidateHead r)) by done. cbn [negb orb].
  destruct (headCompareVerdict _ _ _ _ _ _ _) as [c|decided].
  { specialize (Href c). destruct (refuse c at_ st) as [[[?|?] ?]|]; exact Href. }
  unfold mbind at 1, M_bind at 1. unfold move_head. unfold mbind at 1, M_bind at 1. rewrite Et.
  destruct (ledger_refuses turn "transition" (TurnState r) (TurnState r) "candidate_head_changed" actor (CandidateHead r +:+ " -> " +:+ stated) ("head:" +:+ stated) at_ st e) as [detail ->]; [done..|].
  by do 3 eexists.
Qed.
End again.
