(* ===== verification/MergeMoves.v ===== *)
(** * MergeMoves: what a confirmed move of the base branch is, and that a restated base is always recorded.

    The reading of a branch is compared with the record: [chain] is the first-parent line from a tip down to a recorded base, and [outside_merge] a commit on it that is a merge no
    landing records. The key of a restatement is counted up in decimal until it is free. *)
From S2P Require Import Prelude GoLib Sha256 Json Loads Utf8 GoJson GoPath MergeStore MergeTurn MergeHead MergeOps MergeLand MergeLane MergeLaneOps.
Local Open Scope string_scope.

(** ** The first-parent line *)
Section line.
Context `{UnicodeLower}.

(** The commits from the tip [want] down to the one whose first parent is [from], each the first parent of the one above. *)
Inductive chain (from : string) : string → list Step → Prop :=
| chain_last want s p ps : SameCommit (StepSHA s) want = true → Parents s = p :: ps → SameCommit p from = true → chain from want [s]
| chain_next want s p ps line : SameCommit (StepSHA s) want = true → Parents s = p :: ps → SameCommit p from = false → chain from p line → chain from want (s :: line).

Definition outside_merge (landed : string → option string) (s : Step) : Prop := (2 ≤ length (Parents s))%nat ∧ landed (ToLower (StepSHA s)) = None.

Lemma line_chain from want steps line : first_parent_line from want steps = inr (Some line) ↔ line `prefix_of` steps ∧ chain from want line.
Proof.
  revert want line. induction steps as [|s steps IH]; intros want line; cbn.
  { split; [done|]. intros [->%prefix_nil_inv Hc]. inversion Hc. }
  destruct (SameCommit (StepSHA s) want) eqn:Es; cbn [negb].
  - destruct (Parents s) as [|p ps] eqn:Ep.
    { split; [done|]. intros [Hp Hc]. inversion Hc; subst; apply prefix_cons_inv_1 in Hp as ->; congruence. }
    destruct (SameCommit p from) eqn:Ef.
    + split.
      * intros [= <-]. split; [by apply prefix_cons, prefix_nil|by eapply chain_last].
      * intros [Hp Hc]. inversion Hc; subst; apply prefix_cons_inv_1 in Hp as ->; congruence.
    + split.
      * destruct (first_parent_line from p steps) as [?|[line'|]] eqn:El; [done| |done]. intros [= <-]. apply IH in El as [Hp Hc].
        split; [by apply prefix_cons|by eapply chain_next].
      * intros [Hp Hc]. inversion Hc as [? s' p' ps' ? Ep'|? s' p' ps' line' ? Ep' ? Hc']; subst; pose proof (prefix_cons_inv_1 _ _ _ _ Hp) as ->; rewrite Ep in Ep';
          injection Ep' as <- <-; [congruence|]. apply prefix_cons_inv_2 in Hp. by rewrite (proj2 (IH _ _) (conj Hp Hc')).
  - split; [done|]. intros [Hp Hc]. inversion Hc; subst; apply prefix_cons_inv_1 in Hp as ->; congruence.
Qed.

Lemma not_outside_None landed steps : not_outside landed steps = None ↔ Forall (outside_merge landed) steps.
Proof.
  induction steps as [|s steps IH]; cbn [not_outside]; [by split|]. rewrite Forall_cons. unfold outside_merge at 1. destruct (Nat.ltb_spec (length (Parents s)) 2).
  - split; [done|]. intros [[? _] _]. lia.
  - destruct (landed _); [|rewrite IH; naive_solver]. split; [done|]. by intros [[_ ?] _].
Qed.

(** The relay takes a move of the base branch for merges made outside the lane exactly when they are: the reading runs from the recorded base to the tip, and its first commits are
    the first-parent line from the tip down to the recorded base, every one of them a merge commit that no landing of the target records. The answer is that line. *)
Theorem outside_merges_exactly m from to landed line :
  outsideMerges m from to landed = inr line ↔
  SameCommit (MoveFrom m) from = true ∧ SameCommit (MoveTo m) to = true ∧ line `prefix_of` Steps m ∧ chain from to line ∧ Forall (outside_merge landed) line.
Proof.
  unfold outsideMerges. destruct (SameCommit (MoveFrom m) from), (SameCommit (MoveTo m) to); cbn [negb orb]; try (split; [done|by intros (? & ? & _)]).
  rewrite <- not_outside_None. destruct (bool_decide_reflect (length (Steps m) = 0)%nat) as [E|E].
  - split; [done|]. intros (_ & _ & Hp & Hc & _). apply nil_length_inv in E. rewrite E in Hp. apply prefix_nil_inv in Hp as ->. inversion Hc.
  - split.
    + destruct (first_parent_line _ _ _) as [?|[line'|]] eqn:El; [done| |done]. apply line_chain in El as [Hp Hc]. destruct (not_outside landed line') eqn:En; [done|].
      by intros [= <-].
    + intros (_ & _ & Hp & Hc & En). rewrite (proj2 (line_chain _ _ _ _) (conj Hp Hc)). by rewrite En.
Qed.
End line.

(** ** The key of a restatement *)

(** The number that digits spell from the last. *)
Fixpoint value_rev (ds : list ascii) : Z := match ds with [] => 0 | d :: rest => (byte_of_ascii d - 48) + 10 * value_rev rest end%Z.
Definition all_digits (ds : list ascii) : Prop := Forall (λ c, 48 ≤ byte_of_ascii c ≤ 57)%Z ds.

Lemma incr_rev_value ds : all_digits ds → all_digits (incr_rev ds) ∧ value_rev (incr_rev ds) = (value_rev ds + 1)%Z.
Proof.
  induction 1 as [|d ds Hd Hds [IH1 IH2]]; cbn [incr_rev]; [split; [by repeat constructor|done]|]. destruct (Z.ltb_spec (byte_of_ascii d) 57).
  - assert (byte_of_ascii (ascii_of_byte (byte_of_ascii d + 1)) = (byte_of_ascii d + 1)%Z) as E by (apply byte_of_ascii_of_byte; unfold is_byte; lia).
    cbn [value_rev]. rewrite E. split; [constructor; [rewrite E; lia|done]|lia].
  - split; [constructor; [by split|done]|]. cbn [value_rev]. rewrite IH2. change (byte_of_ascii "0") with 48%Z. lia.
Qed.

Definition text_value (n : string) : Z := value_rev (reverse (String.list_ascii_of_string n)).
Definition numeral (n : string) : Prop := all_digits (reverse (String.list_ascii_of_string n)).

Lemma increment_value n : numeral n → numeral (increment n) ∧ text_value (increment n) = (text_value n + 1)%Z.
Proof.
  unfold numeral, text_value, increment. intros H%incr_rev_value. by rewrite String.list_ascii_of_string_of_list_ascii, reverse_involutive.
Qed.

Lemma iter_value k n : numeral n → numeral (Nat.iter k increment n) ∧ text_value (Nat.iter k increment n) = (text_value n + Z.of_nat k)%Z.
Proof.
  intros H. induction k as [|k [IH1 IH2]]; [split; [done|]; change (Nat.iter 0 increment n) with n; lia|]. cbn [Nat.iter nat_rect]. destruct (increment_value _ IH1) as [? E]. split; [done|]. unfold Nat.iter in *. rewrite E, IH2. lia.
Qed.

Lemma first_free_tried fuel keys n : restate_prefix +:+ first_free fuel keys n ∈ keys → ∀ k, (k ≤ fuel)%nat → restate_prefix +:+ Nat.iter k increment n ∈ keys.
Proof.
  revert n. induction fuel as [|fuel IH]; intros n; cbn [first_free]; [intros H k Hk; assert (k = 0%nat) as -> by lia; exact H|].
  destruct (bool_decide_reflect (restate_prefix +:+ n ∈ keys)) as [Hn|Hn]; [|done]. intros H [|k] Hk; [done|]. rewrite Nat.iter_succ_r. apply IH; [done|lia].
Qed.

(** One try more than there are keys finds a free one. *)
Lemma first_free_free keys n : numeral n → restate_prefix +:+ first_free (S (length keys)) keys n ∉ keys.
Proof.
  intros Hn Hin. pose proof (first_free_tried _ _ _ Hin) as Hall. set (tried := (λ k, restate_prefix +:+ Nat.iter k increment n) <$> seq 0 (S (length keys))).
  assert (NoDup tried) as Hd.
  { apply NoDup_fmap_2_strong; [|apply NoDup_seq]. intros i j _ _ E%(inj (String.append restate_prefix)). pose proof (proj2 (iter_value i n Hn)). pose proof (proj2 (iter_value j n Hn)). rewrite E in *. lia. }
  assert (tried ⊆+ keys) as Hs%submseteq_length.
  { apply NoDup_submseteq; [done|]. intros x (k & -> & Hk%elem_of_seq)%list_elem_of_fmap. apply Hall. lia. }
  unfold tried in Hs. rewrite length_fmap, length_seq in Hs. lia.
Qed.

Lemma trim_zeros_digits ds : all_digits ds → all_digits (trim_zeros ds).
Proof. induction 1 as [|d ds Hd Hds IH]; [constructor|]. cbn. destruct d as [[] [] [] [] [] [] [] []]; try (by constructor). done. Qed.

Lemma restate_number_numeral k n : restate_number k = Some n → numeral n.
Proof.
  unfold restate_number. destruct (negb _); [done|]. cbn zeta. set (ds := drop _ _). destruct (bool_decide (ds = [])); [done|]. cbn [orb].
  destruct (forallb _ ds) eqn:E; [|done]. cbn [negb orb]. destruct (_ <? _)%nat; [done|].
  assert (all_digits ds) as Hd. { apply Forall_forall. intros c Hc%list_elem_of_In. apply (proj1 (forallb_forall _ _) E) in Hc. unfold is_digit, in_range in Hc. lia. }
  apply trim_zeros_digits in Hd. destruct (trim_zeros ds) as [|c rest]; intros E'; simplify_eq; [by repeat constructor|]. unfold numeral.
  change (String c (String.string_of_list_ascii rest)) with (String.string_of_list_ascii (c :: rest)). rewrite String.list_ascii_of_string_of_list_ascii. by apply Forall_reverse.
Qed.

Lemma best_numeral keys : numeral (best_restatement keys).
Proof.
  unfold best_restatement. assert (numeral "0") as H0 by (by repeat constructor). revert H0. generalize "0". induction keys as [|k keys IH]; intros best Hb; cbn; [done|].
  apply IH. destruct (restate_number k) eqn:E; [|done]. apply restate_number_numeral in E. by destruct (greater _ _).
Qed.

Lemma nextRestatement_free keys : restate_prefix +:+ nextRestatement keys ∉ keys.
Proof. apply first_free_free, increment_value, best_numeral. Qed.

Lemma next_key_fresh turn st x : x ∈ t_ledger st → EntryTurn x = turn → IdempotencyKey x ≠ restate_prefix +:+ nextRestatement (IdempotencyKey <$> MergeLedger turn st).
Proof.
  intros Hx Ex Ek. apply (nextRestatement_free (IdempotencyKey <$> MergeLedger turn st)). apply list_elem_of_fmap. exists x. split; [by rewrite Ek|]. unfold MergeLedger. rewrite !elem_of_sort_by. by apply list_elem_of_filter.
Qed.

(** ** What a body that succeeded did *)
Lemma bind_Ok {A B} (m : M A) (f : A → M B) st z : (m ≫= f) st = Ok z → ∃ y st1, m st = Ok (y, st1) ∧ f y st1 = Ok z.
Proof. cbv [mbind M_bind]. destruct (m st) as [[y st1]|]; [|done]. eauto. Qed.

Lemma get_Ok {A B} (q : Tables → A) (f : A → M B) st z : (get q ≫= f) st = Ok z → f (q st) st = Ok z.
Proof. done. Qed.

Lemma row_Ok {B} turn (f : MergeTurnsRow → M B) st z : (row turn ≫= f) st = Ok z → ∃ r, MergeTurn turn st = Some r ∧ TurnID r = turn ∧ f r st = Ok z.
Proof.
  intros (r & st1 & E & Ef)%bind_Ok. unfold row, get, mbind, M_bind in E. destruct (MergeTurn turn st) as [x|] eqn:Et; [|done]. injection E as -> ->. exists r. split_and!; [done| |done].
  by apply head_Some_elem_of, list_elem_of_filter in Et as [? _].
Qed.

Lemma run_Ok {A} (body : Body A) st st' x : run body st = (st', Ok x) → body st = Ok (Ok x, st').
Proof. unfold run, transaction. destruct (body st) as [[[y|c] st1]|e]; [|done..]. by intros [= -> ->]. Qed.

Lemma refuse_not_Ok {A} c at_ st (x : A) st' : refuse c at_ st ≠ Ok (Ok x, st').
Proof. unfold refuse, mbind, M_bind. destruct (RecordCoordinationConflict c at_ st) as [[]|]; done. Qed.

Lemma update_Ok id f st st' u : update_turn id f st = Ok (u, st') → st' = with_turns st (upd id f (t_turns st)).
Proof. unfold update_turn, write_turns. fold (upd id f (t_turns st)). destruct (turn_constraints _); [done|]. by intros [= _ <-]. Qed.

Lemma MergeTurn_upd id f st : (∀ r, TurnID (f r) = TurnID r) → MergeTurn id (with_turns st (upd id f (t_turns st))) = f <$> MergeTurn id st.
Proof.
  intros Hf. unfold MergeTurn, upd. cbn [t_turns with_turns]. induction (t_turns st) as [|r l IH]; [done|]. rewrite fmap_cons, !filter_cons. cbv beta. destruct (bool_decide_reflect (TurnID r = id)) as [E|E].
  - by rewrite !decide_True by (by rewrite ?Hf).
  - by rewrite !decide_False.
Qed.

Lemma MergeTurn_upd_ne id id' f st : id' ≠ id → (∀ r, TurnID (f r) = TurnID r) → MergeTurn id (with_turns st (upd id' f (t_turns st))) = MergeTurn id st.
Proof.
  intros Hne Hf. unfold MergeTurn, upd. cbn [t_turns with_turns]. induction (t_turns st) as [|r l IH]; [done|]. rewrite fmap_cons, !filter_cons. cbv beta. destruct (bool_decide_reflect (TurnID r = id')) as [E|E].
  - rewrite !decide_False by (rewrite ?Hf; congruence). done.
  - destruct (decide (TurnID r = id)); [done|exact IH].
Qed.

(** The entry an engine kind leaves under its key is the fact that was to be recorded. *)
Lemma ledger_Ok id kind from to ev actor body identity at_ st st' u : engineLedgerKind ev = true → ledger id kind from to ev actor body identity at_ st = Ok (u, st') →
  t_turns st' = t_turns st ∧ ∃ e, MergeLedgerEntry id identity st' = Some e ∧ same_fact e (mkEntry (ledgerID id identity) id kind (nullable from) (nullable to) ev actor body identity at_).
Proof.
  intros Hk E. split; [pose proof (ledger_cases id kind from to ev actor body identity at_ st) as Hc; cbn zeta in Hc; rewrite E in Hc; apply Hc|].
  unfold ledger in E. apply bind_Ok in E as (u' & st1 & _ & E). rewrite Hk in E. cbn [negb] in E. apply get_Ok in E. destruct (MergeLedgerEntry id identity st1) as [seen|] eqn:Es; [|done].
  destruct (bool_decide_reflect (same_fact seen (mkEntry (ledgerID id identity) id kind (nullable from) (nullable to) ev actor body identity at_))) as [Hf|]; [|done].
  injection E as _ <-. by exists seen.
Qed.

(** Under a key the turn does not have, the entry is added. *)
Lemma ledger_fresh id kind from to ev actor body identity at_ st st' u : ledger id kind from to ev actor body identity at_ st = Ok (u, st') →
  (∀ x, x ∈ t_ledger st → EntryTurn x = id → IdempotencyKey x ≠ identity) →
  t_turns st' = t_turns st ∧ t_ledger st' = (t_ledger st ++ [mkEntry (ledgerID id identity) id kind (nullable from) (nullable to) ev actor body identity at_])%list.
Proof.
  intros E Hf. pose proof (ledger_cases id kind from to ev actor body identity at_ st) as Hc. cbn zeta in Hc. rewrite E in Hc. destruct Hc as [Ht [Hl|[_ (x & Hx & E1 & E2 & _)]]]; [done|].
  by destruct (Hf x Hx E1).
Qed.

Lemma orelse_None {A} (a b : option A) : (a <||> b) = None ↔ a = None ∧ b = None.
Proof. destruct a; cbn; naive_solver. Qed.

Lemma when_None b (x : CoordinationRefusal) : when b x = None ↔ b = false.
Proof. by destruct b. Qed.

(** ** Restating a base *)

(** What a restatement writes: the row's base, and an entry under a key that is new. *)
Definition restated (r : MergeTurnsRow) (tip : Tip) (actor at_ : string) (st st' : Tables) : Prop :=
  t_turns st' = upd (TurnID r) (restated_row (SHA tip) at_) (t_turns st) ∧
  ∃ n body, let e := mkEntry (ledgerID (TurnID r) (restate_prefix +:+ n)) (TurnID r) "transition" (Some "landed") (Some "landed") "landing_base_restated" actor body (restate_prefix +:+ n) at_ in
    t_ledger st' = (t_ledger st ++ [e])%list ∧ ∀ x, x ∈ t_ledger st → EntryTurn x = TurnID r → IdempotencyKey x ≠ IdempotencyKey e.

Lemma writeRestatement_Ok r tip actor body extra at_ st st' n : writeRestatement r tip actor body extra at_ st = Ok (n, st') → restated r tip actor at_ st st'.
Proof.
  unfold writeRestatement. intros E%get_Ok. pose proof (next_key_fresh (TurnID r) st) as Hf. cbn zeta in E. set (seq := nextRestatement _) in *. clearbody seq. apply bind_Ok in E as (u & st1 & El & E).
  apply ledger_fresh in El as [Et El]; [|done]. apply bind_Ok in E as (u' & st2 & E2 & E). apply update_Ok in E2 as ->. injection E as _ <-. split; [cbn; by rewrite Et|].
  by exists seq, (body seq).
Qed.

Section restate.
Context `{UnicodeLower}.

(** Restating the base of a landing writes what the branch reads and is always recorded. A call that answers that it restated was allowed to: the turn is the landed turn whose
    base the checks of its target compare with, its caller the holder or the supervisor above the project, no turn of the target is merging or unknown, and the branch was read. The
    row records that reading as its base, and one entry is added to the ledger under a number the turn has not used, so no restatement is ever mistaken for an earlier one. *)
Theorem restated_base_is_recorded w reader early turn actor stated evidence at_ st st' : RestateBase w reader early turn actor stated evidence at_ st = (st', Ok true) →
  ∃ r l, MergeTurn turn st = Some r ∧ latestLanding (TargetKey r) st = Some l ∧ TurnID l = turn ∧ TurnState r = "landed" ∧ in_flight (TargetKey r) st = None ∧
    authority w r actor "restate its base" = None ∧
    let tip := fst (restate_read w reader early actor) in
    SHA tip ≠ "" ∧ ObservedBaseSHA r ≠ Some (SHA tip) ∧ MergeTurn turn st' = Some (restated_row (SHA tip) at_ r) ∧ restated r tip actor at_ st st'.
Proof.
  unfold RestateBase. destruct (blank evidence); [done|]. destruct (if bool_decide (stated = "") then _ else _); [|done]. destruct (restate_read _ _ _ _) as [tip why]. cbn zeta.
  intros E%run_Ok. apply row_Ok in E as (r & Er & Et & E). apply get_Ok in E. destruct (restate_refusal _ _ _ _ _ _ _ st) as [c|] eqn:Ec; [by apply refuse_not_Ok in E|].
  destruct (bool_decide_reflect (ObservedBaseSHA r = Some (SHA tip))) as [|Hne]; [done|]. apply bind_Ok in E as (n & st1 & E & E'). injection E' as ->.
  apply writeRestatement_Ok in E. unfold restate_refusal in Ec. rewrite !orelse_None, !when_None in Ec. destruct Ec as (Ha & Hs & Hl & Hf & Hr & _).
  destruct (latestLanding (TargetKey r) st) as [l|] eqn:El; [|done]. rewrite when_None in Hl.
  exists r, l. split_and!; try done.
  - by destruct (bool_decide_reflect (TurnID l = turn)).
  - by destruct (bool_decide_reflect (TurnState r = "landed")).
  - by destruct (in_flight (TargetKey r) st).
  - cbn. by destruct (bool_decide_reflect (SHA tip = "")).
  - cbn [fst]. destruct E as [E _]. rewrite Et in E. unfold MergeTurn at 1. rewrite E. pose proof (MergeTurn_upd turn (restated_row (SHA tip) at_) st (λ _, eq_refl)) as Hm. rewrite Er in Hm. exact Hm.
Qed.
End restate.
