(* ===== verification/MergeGate.v ===== *)
(** * MergeGate: what a check and a landing let through.

    A check that answers opened the merge of the very candidate and base it was called with, after every guard; what it wrote is what a landing later asks for. *)
From S2P Require Import Prelude GoLib Sha256 Json Loads Utf8 JsonText JsonRoundtrip GoJson JsonSpelled DagDecodeProps GoPath MergeStore MergeTurn MergeHead MergeOps MergeLand MergeLane MergeLaneOps MergeProps MergeClaims MergeMoves.
Local Open Scope string_scope.

(** ** Names are plain text *)
Lemma substring_take n s : String.list_ascii_of_string (String.substring 0 n s) = take n (String.list_ascii_of_string s).
Proof. revert n. induction s as [|c s IH]; intros [|n]; cbn; [done..|]. by rewrite IH. Qed.

Lemma key_utf8 prefix fields : Forall plain_char (bytes_of_string prefix) → utf8 (bytes_of_string (key prefix fields)).
Proof.
  intros Hp. unfold key. apply utf8_ascii. rewrite !bytes_of_string_app. unfold bytes_of_string at 3. rewrite substring_take.
  apply Forall_app. split; [done|]. apply Forall_app. split; [by repeat constructor|]. rewrite fmap_take. apply Forall_take.
  pose proof (sha256_hex_shape (join_sep "|" fields)) as H. apply andb_true_iff in H as [_ H]. apply Forall_forall. intros b Hb. rewrite forallb_forall in H.
  specialize (H b (proj1 (list_elem_of_In _ _) Hb)). unfold DagDecode.is_hex_lower, in_range in H. unfold plain_char. lia.
Qed.

(** ** What a check records is read back *)
Definition confirmed_fields (id : string) (tip : Tip) : list (string * value) :=
  map_of [("checkId", VString id); ("baseRead", VString (SHA tip)); ("source", VString (Source tip))].

Lemma unmarshal_confirmed id tip : utf8 (bytes_of_string id) → utf8 (bytes_of_string (SHA tip)) → utf8 (bytes_of_string (Source tip)) →
  unmarshal_map (canonical (VMap (confirmed_fields id tip))) = Some (confirmed_fields id tip).
Proof.
  intros H1 H2 H3. assert (json_ok (VMap (confirmed_fields id tip))) as Hok.
  { constructor; [|by repeat constructor]. repeat apply Forall_cons_2; try (split; [by apply utf8_ascii; repeat constructor|by constructor]). constructor. }
  unfold unmarshal_map. rewrite json_canonical; [done|done|by apply Nat.leb_le; vm_compute].
Qed.

Lemma base_read id tip : map_get (confirmed_fields id tip) "baseRead" = Some (VString (SHA tip)).
Proof. reflexivity. Qed.

Section gate.
Context `{UnicodeLower} `{EvidencePackage}.

(** The base of the landing a check compares with is the one it restates, or the branch moved from it through merges that no landing records. *)
Definition base_follows (r : MergeTurnsRow) (rd : CheckRead) (base : string) (restatement : option string) (st : Tables) : Prop :=
  match latestLanding (TargetKey r) st with
  | None => True
  | Some l =>
    let recorded := default "" (ObservedBaseSHA l) in
    SameCommit recorded base = true ∨
    ∃ m merges, check_moved rd = Some m ∧ in_flight (TargetKey r) st = None ∧ outsideMerges (move_read m) recorded (SHA (check_tip rd)) (landedShas (TargetKey r) st) = inr merges ∧ is_Some restatement
  end.

(** Rows that differ at most in the base a landing records. *)
Definition same_candidate (r r' : MergeTurnsRow) : Prop :=
  TurnState r' = TurnState r ∧ CandidateHead r' = CandidateHead r ∧ identity_of r' = identity_of r.

Lemma candidate_here st turn x : MergeTurn turn st = Some x → ∃ x', MergeTurn turn st = Some x' ∧ same_candidate x x'.
Proof. intros E. by exists x. Qed.

Lemma check_landing_Ok r actor base rd id at_ st st1 restatement : check_landing r actor base rd id at_ st = Ok ((None, restatement), st1) →
  base_follows r rd base restatement st ∧ ∀ turn x, MergeTurn turn st = Some x → ∃ x', MergeTurn turn st1 = Some x' ∧ same_candidate x x'.
Proof.
  unfold check_landing, base_follows. intros E%get_Ok. destruct (latestLanding (TargetKey r) st) as [l|]; [|injection E as <- <-; split; [done|apply candidate_here]].
  cbn zeta in *. destruct (SameCommit _ base) eqn:Es; [injection E as <- <-; split; [by left|apply candidate_here]|]. apply bind_Ok in E as ([detail|sequence] & st2 & E & E'); [done|].
  injection E' as <- <-. unfold restateAfterOutOfLaneMerge in E. cbn zeta in E. destruct (check_moved rd) as [m|]; [|done].
  destruct (_ || _ || _); [done|]. destruct (negb _); [done|]. apply get_Ok in E. destruct (in_flight _ st); [done|]. apply get_Ok in E.
  destruct (outsideMerges _ _ _ _) as [why|merges] eqn:Eo; [done|]. apply row_Ok in E as (x & Ex & Et & E). apply bind_Ok in E as (n & st3 & [E _]%writeRestatement_Ok & E').
  injection E' as _ <-. split; [right; eauto 7|]. intros turn y Ey. destruct (decide (TurnID x = turn)) as [<-|Hne].
  - exists (restated_row (SHA (check_tip rd)) at_ y). split; [|done]. pose proof (MergeTurn_upd (TurnID x) (restated_row (SHA (check_tip rd)) at_) st (λ _, eq_refl)) as Hm.
    rewrite Ey in Hm. unfold MergeTurn at 1. rewrite E. exact Hm.
  - exists y. split; [|done]. pose proof (MergeTurn_upd_ne turn (TurnID x) (restated_row (SHA (check_tip rd)) at_) st Hne (λ _, eq_refl)) as Hm. rewrite Ey in Hm. unfold MergeTurn at 1. rewrite E. exact Hm.
Qed.

(** A check that decided for the merge. *)
Lemma judge_Ok w r pulls rd turn actor head_ base required checks review id at_ st st1 a :
  judge w r pulls rd turn actor head_ base required checks review id at_ st = Ok (inr a, st1) →
  check_turn w r turn actor head_ st = None ∧ check_tip_refusal r actor base rd = None ∧ check_evidence r actor head_ required checks review = None ∧
  base_follows r rd base (answer_restated a) st ∧ ∀ turn x, MergeTurn turn st = Some x → ∃ x', MergeTurn turn st1 = Some x' ∧ same_candidate x x'.
Proof.
  unfold judge. intros E%get_Ok. destruct (check_turn w r turn actor head_ st); [done|]. destruct (headCompareVerdict _ _ _ _ _ _ _) as [|decided]; [done|].
  destruct (check_tip_refusal r actor base rd); [done|]. apply bind_Ok in E as ([stale restatement] & st2 & Ec & E). destruct (stale <||> _) eqn:Ev; [done|].
  apply orelse_None in Ev as [-> Ev]. destruct (check_reports _ _ _ _ _) as [|verified]; [done|]. injection E as <- <-. apply check_landing_Ok in Ec as [? ?]. by split_and!.
Qed.

(** C15: a check that answers opened a merge that every guard allows. The turn was holding, ready and held by the caller, who is the one owner of its project; it is in no train; the
    grant it holds is acknowledged; the head restated is its candidate and the base restated is what the branch read, which is the base the last landing on the target recorded, or the
    branch moved from there only through merges outside the lane; neither the checks nor the review have a problem. The turn is merging with that reading as its checked base, and a
    landing finds that the base was read. *)
Theorem check_opens_merge w reader early landing turn actor head_ base checkList review required at_ st st' a :
  Check w reader early landing turn actor head_ base checkList review required at_ st = (st', Ok a) →
  let rd := check_read reader early landing actor head_ base in let tip := check_tip rd in
  ∃ r r', MergeTurn turn st = Some r ∧ TurnState r = Holding ∧ HolderTaskID r = actor ∧ DeclaredReady r = 1%Z ∧ CandidateHead r = head_ ∧ parents w (ProjectKey r) = [actor] ∧
    MergeTrainOfTurn w turn = None ∧
    (currentGrant turn (Tenure r) st ≠ "" → is_Some (MergeLedgerEntry turn ("grant_acknowledged:" +:+ currentGrant turn (Tenure r) st) st)) ∧
    SHA tip ≠ "" ∧ SameCommit base (SHA tip) = true ∧ base_follows r rd base (answer_restated a) st ∧
    ChecksProblems head_ (compact (sort_strings required)) (match checkList with VList l => l | _ => [] end) = [] ∧ ReviewProblems (match review with VNull => VMap [] | v => v end) = [] ∧
    MergeTurn turn st' = Some r' ∧ TurnState r' = Merging ∧ CandidateHead r' = head_ ∧ identity_of r' = identity_of r ∧ CheckedBaseSHA r' = Some (SHA tip) ∧
    (utf8 (bytes_of_string (SHA tip)) → utf8 (bytes_of_string (Source tip)) → baseWasRead r' st' = true).
Proof.
  unfold Check. cbn zeta. destruct (ReviewShapeProblems _); [|done]. set (rd := check_read _ _ _ _ _ _). clearbody rd. set (review' := match review with VNull => _ | v => v end).
  set (checks := match checkList with VList l => l | _ => [] end). clearbody review' checks. intros E%run_Ok. unfold Check_body in E. cbn zeta in E.
  apply row_Ok in E as (r & Er & Et & E). set (id := checkID _ _ _ _ _) in E. apply bind_Ok in E as ([c|a'] & st1 & Ej & E);
    apply bind_Ok in E as (u & st2 & Erec & E); [by apply refuse_not_Ok in E|].
  apply judge_Ok in Ej as (Hturn & Htip & Hev & Hbase & Hsame). destruct (Hsame turn r Er) as (r1 & Er1 & S1 & S2 & S3).
  assert (t_turns st2 = t_turns st1) as E2 by (unfold RecordMergeCheck in Erec; by destruct (existsb _ _); injection Erec as _ <-).
  apply bind_Ok in E as (u2 & st3 & E3 & E). apply update_Ok in E3 as ->. apply bind_Ok in E as (u3 & st4 & El & E). injection E as -> ->.
  apply ledger_Ok in El as (Et4 & e & Ee & Hfact); [|done].
  assert (MergeTurn turn st' = Some (merging_row (SHA (check_tip rd)) at_ r1)) as Er'.
  { unfold MergeTurn at 1. rewrite Et4. pose proof (MergeTurn_upd turn (merging_row (SHA (check_tip rd)) at_) st2 (λ _, eq_refl)) as Hm. unfold MergeTurn at 2 in Hm. rewrite E2 in Hm.
    fold (MergeTurn turn st1) in Hm. rewrite Er1 in Hm. unfold MergeTurn in Hm. rewrite <- E2 in Hm. exact Hm. }
  destruct (check_turn_None _ _ _ _ _ _ Hturn) as (T1 & T2 & T3 & T4 & T5 & T6). apply orelse_None in Hturn as [Htrain _]. unfold check_tip_refusal in Htip.
  rewrite orelse_None, !when_None in Htip. destruct Htip as [Ht1 Ht2]. unfold check_evidence in Hev. destruct (ChecksProblems _ _ _) as [|[] ?] eqn:Ecp; [|done].
  destruct (ReviewProblems _) eqn:Erp; [|done]. exists r, (merging_row (SHA (check_tip rd)) at_ r1). split_and!; try done.
  - unfold trainMemberRefusal in Htrain. by destruct (MergeTrainOfTurn w turn) as [[]|].
  - unfold unansweredGrant in T5. rewrite Et in T5. intros Hne. rewrite bool_decide_eq_false_2 in T5 by done. by destruct (MergeLedgerEntry _ _ st).
  - by destruct (bool_decide_reflect (SHA (check_tip rd) = "")).
  - by destruct (SameCommit base _).
  - cbn. by rewrite S2.
  - intros U1 U2. unfold baseWasRead. cbn [TurnID CandidateHead CheckedBaseSHA merging_row set_turn].
    assert (TurnID r1 = turn) as -> by (by apply head_Some_elem_of, list_elem_of_filter in Er1 as [? _]). rewrite S2, T4, Ee. destruct Hfact as (F1 & F2 & F3 & F4 & F5 & F6).
    rewrite F1, F2, F3, F4, F6. cbn [Kind FromState ToState EvidenceKind Evidence]. fold (confirmed_fields id (check_tip rd)).
    rewrite unmarshal_confirmed; [rewrite !(bool_decide_eq_true_2 (_ = _)) by done; unfold field_is; rewrite base_read; by apply bool_decide_eq_true|by apply key_utf8; repeat constructor|done..].
Qed.

(** ** Landing *)
Lemma ledger_turns id kind from to ev actor body identity at_ st st' u : ledger id kind from to ev actor body identity at_ st = Ok (u, st') → t_turns st' = t_turns st.
Proof. intros E. pose proof (ledger_cases id kind from to ev actor body identity at_ st) as Hc. cbn zeta in Hc. rewrite E in Hc. apply Hc. Qed.

Lemma grant_turns w r source at_ st st' u : grant w r source at_ st = Ok (u, st') → t_turns st' = t_turns st.
Proof. intros E. pose proof (spec_grant_turns (λ T, T = t_turns st) w r source at_ st eq_refl) as Hs. by rewrite E in Hs. Qed.

Lemma close_turns r state reason actor at_ landed observed st st' u : closeWith r state reason actor at_ landed observed st = Ok (u, st') →
  t_turns st' = upd (TurnID r) (closed_row state reason at_ landed observed) (t_turns st).
Proof.
  unfold closeWith. intros (u1 & st1 & E1 & E)%bind_Ok. apply update_Ok in E1 as ->. apply bind_Ok in E as (u2 & st2 & E2%ledger_turns & E). injection E as _ <-. exact E2.
Qed.

(** A row that is not among the waiters stays. *)
Lemma promote_keeps w target at_ waiters x st st' p : promote_loop w target at_ waiters st = Ok (p, st') → Forall (λ c, TurnID c ≠ TurnID x) waiters → x ∈ t_turns st → x ∈ t_turns st'.
Proof.
  revert st. induction waiters as [|c waiters IH]; intros st; cbn [promote_loop]; [by intros [= _ <-]|]. intros E [Hc Hw]%Forall_cons Hx.
  assert (∀ g, x ∈ upd (TurnID c) g (t_turns st)) as Hu by (intros g; apply upd_elem; right; split; [done|by apply not_eq_sym]).
  destruct (stale_claim w target c) as [refusal|].
  - apply bind_Ok in E as (u1 & st1 & E1%close_turns & E). apply bind_Ok in E as (u2 & st2 & E2 & E). eapply IH; [exact E|done|].
    assert (t_turns st2 = t_turns st1) as -> by (unfold RecordCoordinationConflict in E2; by destruct (existsb _ _); injection E2 as _ <-). rewrite E1. apply Hu.
  - destruct (negb _); [by eapply IH|]. apply bind_Ok in E as (u1 & st1 & E1 & E). injection E as _ <-. unfold take_over in E1.
    apply bind_Ok in E1 as (u2 & st2 & E2 & E1). apply update_Ok in E2 as ->. apply bind_Ok in E1 as (u3 & st3 & E3%ledger_turns & E1%grant_turns). rewrite E1, E3. apply Hu.
Qed.

(** C26: a landing is of a merge the relay opened, and records what the branch reads. A call that lands a turn found it merging under the caller, outside every train, with a checked
    base that a check read; the branch was read for it, and does not still read the checked base (unless that is the candidate itself). The row is landed with the reported commit and
    with that reading as the base it leaves, which is what later checks of the target compare with; handing the target on leaves the row alone. *)
Theorem landing_records_the_branch w reader early turn actor landed stated evidence at_ st st' p : Land w reader early turn actor landed stated evidence at_ st = (st', Ok p) →
  let tip := fst (land_read reader early actor) in
  ∃ r checked, MergeTurn turn st = Some r ∧ TurnState r = Merging ∧ HolderTaskID r = actor ∧ MergeTrainOfTurn w turn = None ∧ baseWasRead r st = true ∧ CheckedBaseSHA r = Some checked ∧
    SHA tip ≠ "" ∧ (SameCommit (SHA tip) checked = true → SameCommit checked (CandidateHead r) = true) ∧
    ∃ r', r' ∈ t_turns st' ∧ identity_of r' = identity_of r ∧ TurnState r' = "landed" ∧ LandedSHA r' = Some landed ∧ ObservedBaseSHA r' = Some (SHA tip) ∧ CheckedBaseSHA r' = Some checked.
Proof.
  unfold Land. destruct (blank evidence); [done|]. destruct (exact_all _) as [[]|] eqn:Ex; [|done]. assert (landed ≠ "") as Hne by (intros ->; done).
  destruct (land_read reader early actor) as [tip why]. cbn [fst]. intros E%run_Ok. apply row_Ok in E as (r & Er & Et & E). apply get_Ok in E.
  destruct (land_refusal w r turn actor stated tip why st) eqn:Ec; [by apply refuse_not_Ok in E|]. destruct (land_holder _ _ _ _ _ _ _ _ Ec) as (H1 & H2 & H3 & H4).
  apply bind_Ok in E as (u1 & st1 & E1%close_turns & E). apply bind_Ok in E as (u2 & st2 & E2 & E). assert (t_turns st2 = t_turns st1) as E2' by (by injection E2 as _ <-).
  apply bind_Ok in E as (p' & st3 & Ep & E). injection E as _ <-. set (g := closed_row _ _ _ _ _) in E1. unfold land_refusal in Ec. rewrite !orelse_None, !when_None in Ec.
  destruct Ec as (C1 & _ & _ & _ & _ & _ & C2 & _). assert (∃ checked, CheckedBaseSHA r = Some checked) as [checked Ek].
  { unfold baseWasRead in H4. destruct (MergeLedgerEntry _ _ _), (CheckedBaseSHA r); try done. by eexists. }
  exists r, checked. split_and!; try done.
  - unfold trainMemberRefusal in C1. by destruct (MergeTrainOfTurn w turn) as [[]|].
  - intros Es. rewrite Ek, (bool_decide_eq_true_2 (is_Some _)) in C2 by by eexists. cbn [default] in C2. cbn in C2. rewrite Es in C2. by destruct (SameCommit checked (CandidateHead r)).
  - exists (g r). split; [|unfold g, nullable; cbn; rewrite !bool_decide_eq_false_2 by done; by split_and!].
    assert (r ∈ t_turns st) as Hr by (by apply head_Some_elem_of, list_elem_of_filter in Er as [_ ?]).
    unfold promote in Ep. apply get_Ok in Ep. eapply promote_keeps; [exact Ep| |rewrite E2', E1; apply upd_elem; left; by exists r].
    apply Forall_forall. intros c Hc. unfold ReadyMergeWaiters, by_request in Hc. rewrite !elem_of_sort_by in Hc. apply list_elem_of_filter in Hc as [(_ & Hw & _) Hc].
    rewrite E2', E1 in Hc. apply upd_elem in Hc as [(x & _ & _ & ->)|[_ ?]]; [by apply (f_equal (λ s, bool_decide (s = "landed"))) in Hw|done].
Qed.
End gate.
