(* ===== verification/MergeExample.v ===== *)
(** * MergeExample: two claims on one target, followed from the empty tables.

    The claim of the task t1 takes the free target, acknowledges its grant, is checked and lands; the claim of t2 waits, is promoted by the landing, falls silent and is passed by the
    supervisor. Each store is the one the operation leaves, evaluated; the theorems on the merge turns are applied to them. *)
From S2P Require Import Prelude GoLib Sha256 Json Loads Utf8 GoJson GoPath GoTime MergeStore MergeTurn MergeHead MergeOps MergeLand MergeLane MergeLaneOps MergeProps MergeClaims MergeMoves MergeGate.
Local Open Scope string_scope.

(** Letters without an other case, and evidence without a problem. *)
#[export] Instance no_lower : UnicodeLower := λ r, r.
#[export] Instance clean_evidence : EvidencePackage := mkEvidencePackage (λ _, []) (λ _ _ _, []) (λ _, []) (λ _, "").

Definition two_projects : World :=
  mkWorld (λ p, if bool_decide (p = "p1") then [mkOwner "parent" "t1" "active"] else [mkOwner "parent" "t2" "active"]) (λ _ _, mkWalk true "ok" [mkLevel "initiative" "sup"])
    (λ _, None) (λ _, []) (λ _, None) (λ _, None) (λ _, false) None.

Definition minute (n : string) : string := "2024-01-01T00:" +:+ n +:+ ":00.000000+00:00".
Definition reads_base (sha : string) : Reader := mkReader (λ _ _, inr (mkTip sha "git" "refs/heads/main" "/r")) None None.

Definition empty_tables : Tables := mkTables [] [] [] [] [] [].
Definition claimed : Tables := Eval vm_compute in (Request two_projects "/r" "main" "p1" "t1" "h" "aaa" true None None (minute "00") empty_tables).1.
Definition turn1 : string := Eval vm_compute in match claimed with mkTables (r :: _) _ _ _ _ _ => TurnID r | _ => "" end.
Definition queued_up : Tables := Eval vm_compute in (Request two_projects "/r" "main" "p2" "t2" "h" "bbb" true None None (minute "01") claimed).1.
Definition turn2 : string := Eval vm_compute in match queued_up with mkTables (_ :: r :: _) _ _ _ _ _ => TurnID r | _ => "" end.
Definition grant1 : string := Eval vm_compute in currentGrant turn1 1 queued_up.
Definition acknowledged : Tables := Eval vm_compute in (Acknowledge two_projects turn1 "t1" grant1 "read" (minute "02") queued_up).1.
Definition check1 : Tables * result MergeError CheckAnswer :=
  Eval vm_compute in Check two_projects (Some (reads_base "base0")) (MergeTurn turn1 acknowledged) None turn1 "t1" "aaa" "BASE0" (VList []) VNull [] (minute "03") acknowledged.
Definition merging : Tables := Eval vm_compute in check1.1.
Definition landed : Tables :=
  Eval vm_compute in (Land two_projects (Some (reads_base "base1")) (MergeTurn turn1 merging) turn1 "t1" "merge1" "" "seen" (minute "04") merging).1.
Definition passed : Tables := Eval vm_compute in (Pass two_projects turn2 "sup" "gone" (minute "24") landed).1.
Definition restated_landing : Tables :=
  Eval vm_compute in (RestateBase two_projects (Some (reads_base "base2")) (MergeTurn turn1 passed) turn1 "t1" "" "moved" (minute "25") passed).1.

(** The claim of t1 declares another head, and a third. *)
Definition head_b : Tables := Eval vm_compute in (Ready two_projects None None turn1 "t1" false "bbb" "" (minute "05") claimed).1.
Definition head_c : Tables := Eval vm_compute in (Ready two_projects None None turn1 "t1" false "ccc" "" (minute "06") head_b).1.

(** ** The stores are reachable *)
Lemma reachable_after {A} st (x : Tables * result MergeError A) st' r : reachable st → lane_step st x.1 (err_of x) → x = (st', r) → reachable st'.
Proof. intros Hr Hs ->. apply (reach_step st st' (err_of (st', r))); [done|]. by apply call_lane. Qed.

Lemma claimed_reachable : reachable claimed.
Proof.
  eapply (reachable_after empty_tables); [apply reach_empty|apply (step_request empty_tables two_projects "/r" "main" "p1" "t1" "h" "aaa" true None None (minute "00"))|].
  vm_compute. reflexivity.
Qed.

Lemma queued_up_reachable : reachable queued_up.
Proof.
  eapply (reachable_after claimed); [apply claimed_reachable|apply (step_request claimed two_projects "/r" "main" "p2" "t2" "h" "bbb" true None None (minute "01"))|].
  vm_compute. reflexivity.
Qed.

Lemma acknowledged_reachable : reachable acknowledged.
Proof.
  eapply (reachable_after queued_up); [apply queued_up_reachable|apply (step_acknowledge queued_up two_projects turn1 "t1" grant1 "read" (minute "02"))|]. vm_compute. reflexivity.
Qed.

Definition answer1 : CheckAnswer := Eval vm_compute in match check1.2 with Ok a => a | Err _ => mkCheckAnswer "" None None None end.

Lemma first_checked : Check two_projects (Some (reads_base "base0")) (MergeTurn turn1 acknowledged) None turn1 "t1" "aaa" "BASE0" (VList []) VNull [] (minute "03") acknowledged =
  (merging, Ok answer1).
Proof. vm_compute. reflexivity. Qed.

Lemma merging_step : lane_step acknowledged merging None.
Proof.
  pose proof (step_check acknowledged two_projects (Some (reads_base "base0")) (MergeTurn turn1 acknowledged) None turn1 "t1" "aaa" "BASE0" (VList []) VNull [] (minute "03")) as H.
  cbv zeta in H. rewrite first_checked in H. exact H.
Qed.

Lemma merging_reachable : reachable merging.
Proof. eapply (reach_step acknowledged merging); [apply acknowledged_reachable|apply call_lane, merging_step]. Qed.

Lemma first_landed : Land two_projects (Some (reads_base "base1")) (MergeTurn turn1 merging) turn1 "t1" "merge1" "" "seen" (minute "04") merging = (landed, Ok turn2).
Proof. vm_compute. reflexivity. Qed.

(** ** The theorems on them *)
Lemma lane_exclusive_witness : Forall (λ r, walk None (moves (TurnID r) (t_ledger merging)) = Some (Some (TurnState r))) (t_turns merging).
Proof. apply Forall_forall. exact (proj2 (proj2 (lane_exclusive_and_explained merging merging_reachable))). Defined.

(** A claim of a task that does not own the project. *)
Definition stranger : Tables * result MergeError (string * bool) := Request two_projects "/r" "main" "p1" "t9" "h" "eee" true None None (minute "09") claimed.
Definition after_stranger : Tables := Eval vm_compute in stranger.1.
Definition stranger_error : MergeError := Eval vm_compute in match stranger.2 with Err e => e | Ok _ => NoRows end.

Lemma stranger_refused : stranger = (after_stranger, Err stranger_error).
Proof. vm_compute. reflexivity. Qed.

Lemma stranger_step : lane_step claimed after_stranger (Some stranger_error).
Proof.
  pose proof (step_request claimed two_projects "/r" "main" "p1" "t9" "h" "eee" true None None (minute "09")) as Hs. cbv zeta in Hs. fold stranger in Hs.
  rewrite stranger_refused in Hs. exact Hs.
Qed.

Lemma exclusive_index_witness : stranger_error ≠ Constraint "merge_turns_one_live_holder" ∧ stranger_error ≠ Constraint "merge_turns_one_live_claim".
Proof. exact (exclusive_index_never_hit claimed after_stranger stranger_error claimed_reachable stranger_step). Defined.

Lemma turns_only_move_forward_witness : Forall (λ r, t_ledger acknowledged `prefix_of` t_ledger merging ∧
  ∃ r', r' ∈ t_turns merging ∧ identity_of r' = identity_of r ∧ rtc edge_step (Some (TurnState r)) (Some (TurnState r'))) (t_turns acknowledged).
Proof. apply Forall_forall. intros r Hr. exact (turns_only_move_forward acknowledged merging None r acknowledged_reachable (call_lane _ _ _ merging_step) Hr). Defined.

Lemma target_goes_witness : ∃ c, c ∈ t_turns merging ∧ TurnID c = turn2 ∧ promoted_row (minute "04") c ∈ t_turns landed.
Proof.
  destruct (target_goes_to_the_first_ready two_projects turn1 (minute "04") merging landed turn2 merging_reachable
    (by_land two_projects turn1 (minute "04") merging landed turn2 (Some (reads_base "base1")) (MergeTurn turn1 merging) "t1" "merge1" "" "seen" first_landed)) as (r & _ & _ & _ & H).
  destruct (bool_decide_reflect (turn2 = "")) as [Hne|_]; [vm_compute in Hne; done|]. destruct H as (c & H1 & H2 & _ & _ & H3 & _). exists c. split; [exact H1|split; [exact H2|exact H3]].
Defined.

Lemma passed_only_after_silence_witness : ∃ r last current, MergeTurn turn2 landed = Some r ∧
  parse_iso (SignAt (lastSignOfLife r (MergeLedger turn2 landed))) = Some last ∧ parse_iso (minute "24") = Some current ∧ silent last current.
Proof.
  assert (Pass two_projects turn2 "sup" "gone" (minute "24") landed = (passed, Ok "")) as E by (vm_compute; reflexivity).
  destruct (passed_only_after_silence two_projects turn2 "sup" "gone" (minute "24") landed passed "" E) as (r & last & current & H1 & _ & H2 & H3 & H4 & _).
  exists r, last, current. split; [exact H1|split; [exact H2|split; [exact H3|exact H4]]].
Defined.

Lemma request_is_idempotent_witness : Request two_projects "/r" "main" "p1" "t1" "h" "aaa" false None None (minute "07") claimed = (claimed, Ok (turn1, true)).
Proof.
  apply (request_is_idempotent two_projects "/r" "main" "p1" "t1" "h" "aaa" true None None (minute "00") empty_tables claimed turn1 false false (minute "07")). vm_compute. reflexivity.
Defined.

(** Back to the second head, which the first one led to and the third does not. *)
Lemma head_declared_witness : ∃ st' reason detail, Ready two_projects None None turn1 "t1" false "bbb" "" (minute "07") head_c = (st', Err (Refused reason detail)) ∧
  t_turns st' = t_turns head_c ∧ t_ledger st' = t_ledger head_c.
Proof.
  destruct (MergeTurn turn1 head_c) as [r|] eqn:Er; [|vm_compute in Er; done]. destruct (MergeLedgerEntry turn1 "head:bbb" head_c) as [e|] eqn:Ee; [|vm_compute in Ee; done].
  apply (head_declared_another_way_is_refused two_projects None None turn1 "t1" false "bbb" "" (minute "07") head_c r e Er); [done| |exact Ee|];
    vm_compute in Er, Ee; injection Er as <-; [done|]. injection Ee as <-. vm_compute. done.
Defined.

Lemma check_opens_merge_witness : ∃ r', MergeTurn turn1 merging = Some r' ∧ TurnState r' = Merging ∧ CheckedBaseSHA r' = Some "base0" ∧ baseWasRead r' merging = true.
Proof.
  destruct (check_opens_merge two_projects (Some (reads_base "base0")) (MergeTurn turn1 acknowledged) None turn1 "t1" "aaa" "BASE0" (VList []) VNull [] (minute "03") acknowledged merging answer1 first_checked)
    as (r & r' & _ & _ & _ & _ & _ & _ & _ & _ & _ & _ & _ & _ & _ & H1 & H2 & _ & _ & H3 & H4).
  exists r'. split; [exact H1|split; [exact H2|split; [exact H3|apply H4]]]; apply utf8_ascii; repeat constructor; vm_compute; done.
Defined.

Lemma landing_records_witness : ∃ r', r' ∈ t_turns landed ∧ TurnState r' = "landed" ∧ ObservedBaseSHA r' = Some "base1".
Proof.
  destruct (landing_records_the_branch two_projects (Some (reads_base "base1")) (MergeTurn turn1 merging) turn1 "t1" "merge1" "" "seen" (minute "04") merging landed turn2 first_landed)
    as (r & checked & _ & _ & _ & _ & _ & _ & _ & _ & r' & H1 & _ & H2 & _ & H3 & _).
  exists r'. split; [exact H1|split; [exact H2|exact H3]].
Defined.

Lemma restated_base_witness : ∃ r, MergeTurn turn1 passed = Some r ∧ MergeTurn turn1 restated_landing = Some (restated_row "base2" (minute "25") r).
Proof.
  assert (RestateBase two_projects (Some (reads_base "base2")) (MergeTurn turn1 passed) turn1 "t1" "" "moved" (minute "25") passed = (restated_landing, Ok true)) as E by (vm_compute; reflexivity).
  destruct (restated_base_is_recorded two_projects (Some (reads_base "base2")) (MergeTurn turn1 passed) turn1 "t1" "" "moved" (minute "25") passed restated_landing E)
    as (r & l & H1 & _ & _ & _ & _ & _ & _ & _ & H2 & _).
  exists r. split; [exact H1|exact H2].
Defined.

(** ** Bundles *)
Definition four_projects : World :=
  mkWorld (λ p, [mkOwner "parent" (if bool_decide (p = "p1") then "t1" else if bool_decide (p = "p2") then "t2" else if bool_decide (p = "p3") then "t3" else "t4") "active"])
    (λ _ _, mkWalk true "ok" [mkLevel "initiative" "sup"]) (λ _, None) (λ _, []) (λ _, None) (λ _, None) (λ _, false) None.

(** A verified bundle of two members, led by t1, whose merge commit M is read at the tip. *)
Definition bundle_train : MergeTrainRow := Eval vm_compute in
  mkTrain (match claimed with mkTables (r :: _) _ _ _ _ _ => TargetKey r | _ => "" end) "t1" "/r" "main" "base0".
Definition bundle_members : list MergeTrainMemberRow := [mkMember 1 turn1 11 "rel1" "aaa"; mkMember 2 turn2 12 "rel2" "bbb"].
Definition bundle_reads (st : Tables) : TrainReads :=
  mkTrainReads (Some bundle_train) (Some "verified") (Some [("head", VString "H"); ("tree", VString "T")]) bundle_members (λ id, MergeTurn id st) (Some "verified")
    (λ _, None) (λ _, None) (λ _, None) None.
Definition bundle_forge : TrainForge :=
  mkForge (λ _ n, inr (mkTrainPull n "open" "main" (if (n =? 11)%Z then "aaa" else "bbb"))) (λ _ _, inr (mkTrainCommit ["base0"; "H"] "T")) (λ _ _ _, inr "ahead").
Definition land_bundle (st : Tables) : Tables * result MergeError (list string * list string) :=
  TrainLand four_projects (bundle_reads st) "trn-1" "t1" "M" "" (Some (reads_base "M")) (Some bundle_forge) (minute "30") st.

Lemma land_bundle_call st st' r : land_bundle st = (st', r) → call st st' (err_of (st', r)).
Proof.
  intros E. pose proof (call_train_land st four_projects (bundle_reads st) "trn-1" "t1" "M" "" (Some (reads_base "M")) (Some bundle_forge) (minute "30")) as H.
  cbv zeta in H. fold (land_bundle st) in H. rewrite E in H. apply H.
  refine (bool_decide_unpack _ _). vm_compute. exact I.
Qed.

(** The leader holds and the other member waits: both land in one call. *)
Definition bundled : Tables := Eval vm_compute in (land_bundle queued_up).1.
Lemma bundle_landed : land_bundle queued_up = (bundled, Ok ([turn1; turn2], [])).
Proof. vm_compute. reflexivity. Qed.

Lemma bundle_landed_witness : (TurnState <$> t_turns queued_up) = [Holding; Waiting] ∧ (TurnState <$> t_turns bundled) = ["landed"; "landed"] ∧
  Forall (λ r, t_ledger queued_up `prefix_of` t_ledger bundled ∧
    ∃ r', r' ∈ t_turns bundled ∧ identity_of r' = identity_of r ∧ rtc edge_step (Some (TurnState r)) (Some (TurnState r'))) (t_turns queued_up).
Proof.
  split; [vm_compute; reflexivity|]. split; [vm_compute; reflexivity|]. apply Forall_forall. intros r Hr.
  exact (turns_only_move_forward queued_up bundled None r queued_up_reachable (land_bundle_call queued_up bundled _ bundle_landed) Hr).
Defined.

(** The claims of t3 and t4 are ready when t1 returns its turn: t3 asked before t2 and takes the target. *)
Definition asked3 : Tables := Eval vm_compute in (Request four_projects "/r" "main" "p3" "t3" "h" "ccc" true None None (minute "01") claimed).1.
Definition asked2 : Tables := Eval vm_compute in (Request four_projects "/r" "main" "p2" "t2" "h" "bbb" true None None (minute "02") asked3).1.
Definition asked4 : Tables := Eval vm_compute in (Request four_projects "/r" "main" "p4" "t4" "h" "ddd" true None None (minute "03") asked2).1.
Definition leader_left : Tables := Eval vm_compute in (Release four_projects turn1 "t1" "returned" "gave up" "seen" (minute "04") asked4).1.

Lemma leader_left_reachable : reachable leader_left.
Proof.
  eapply (reachable_after asked4); [|apply (step_release asked4 four_projects turn1 "t1" "returned" "gave up" "seen" (minute "04"))|vm_compute; reflexivity].
  eapply (reachable_after asked2); [|apply (step_request asked2 four_projects "/r" "main" "p4" "t4" "h" "ddd" true None None (minute "03"))|vm_compute; reflexivity].
  eapply (reachable_after asked3); [|apply (step_request asked3 four_projects "/r" "main" "p2" "t2" "h" "bbb" true None None (minute "02"))|vm_compute; reflexivity].
  eapply (reachable_after claimed); [apply claimed_reachable|apply (step_request claimed four_projects "/r" "main" "p3" "t3" "h" "ccc" true None None (minute "01"))|vm_compute; reflexivity].
Qed.

(** A bundle whose leader left the lane lands the members that stayed and then promotes a ready claim though another turn holds the target: the index of live holders refuses, and the
    whole landing is rolled back with that error, each time it is called while the target is held and a ready claim waits. *)
Theorem bundle_promotion_hits_the_index : reachable leader_left ∧ (∃ r, r ∈ t_turns leader_left ∧ TurnState r = Holding ∧ HolderTaskID r = "t3") ∧
  land_bundle leader_left = (leader_left, Err (Constraint "merge_turns_one_live_holder")).
Proof.
  split; [exact leader_left_reachable|]. split; [|vm_compute; reflexivity]. unfold leader_left. cbn [t_turns]. eexists. split; [right; left; reflexivity|done].
Qed.
