(* ===== verification/GoalTypes.v ===== *)
(** * GoalTypes: the record of a goal plan (internal/pabcd/goalplan/types.go).

    A plan in memory was revived or built by the package, so a status is one of its constants; an absent surface, presentation or verdict is [None]. A list the store may keep absent or
    empty is a list. A time and a text are kept as they are stored. *)
From S2P Require Import Prelude GoLib Sha256 Json GoFloat Attest Fsm.
Local Open Scope string_scope.

Definition SupportedMaxSchemaVersion : float64 := Fin (QArith_base.inject_Z 3).

Inductive CriterionStatus : Type := CriterionOpen | CriterionMet.
Inductive CriterionSurface : Type := SurfaceLogic | SurfaceWeb | SurfaceTUI | SurfaceDesktop.
Inductive PresentedSurface : Type := PresentedNative.
Inductive TaskStatus : Type := TaskPending | TaskDone.
Inductive WorkPhaseStatus : Type := WorkPhasePending | WorkPhaseInProgress | WorkPhaseDone | WorkPhaseBlocked | WorkPhaseSuperseded.
Inductive DecisionStatus : Type := DecisionOpen | DecisionDecided.
Inductive ReviewRoundStatus : Type := ReviewPending | ReviewLaunching | ReviewInFlight | ReviewApproved | ReviewChangesRequested | ReviewInconclusive.
Inductive ReviewPurpose : Type := PurposePlanAudit | PurposeFinalGate.
Inductive Verdict : Type := VerdictPass | VerdictNearPass | VerdictFail.
Inductive FinalGateStatus : Type := GatePending | GateInFlight | GateApproved | GateInconclusive.

#[export] Instance criterion_status_eq : EqDecision CriterionStatus.
Proof. solve_decision. Defined.
#[export] Instance surface_eq : EqDecision CriterionSurface.
Proof. solve_decision. Defined.
#[export] Instance presented_eq : EqDecision PresentedSurface.
Proof. solve_decision. Defined.
#[export] Instance task_status_eq : EqDecision TaskStatus.
Proof. solve_decision. Defined.
#[export] Instance phase_status_eq : EqDecision WorkPhaseStatus.
Proof. solve_decision. Defined.
#[export] Instance decision_status_eq : EqDecision DecisionStatus.
Proof. solve_decision. Defined.
#[export] Instance round_status_eq : EqDecision ReviewRoundStatus.
Proof. solve_decision. Defined.
#[export] Instance purpose_eq : EqDecision ReviewPurpose.
Proof. solve_decision. Defined.
#[export] Instance verdict_eq : EqDecision Verdict.
Proof. solve_decision. Defined.
#[export] Instance gate_status_eq : EqDecision FinalGateStatus.
Proof. solve_decision. Defined.

(** The constants as they are stored and printed. *)
Definition surface_text (s : CriterionSurface) : string := match s with SurfaceLogic => "logic" | SurfaceWeb => "web" | SurfaceTUI => "tui" | SurfaceDesktop => "desktop" end.
Definition presented_text (p : PresentedSurface) : string := match p with PresentedNative => "native" end.
Definition task_status_text (s : TaskStatus) : string := match s with TaskPending => "pending" | TaskDone => "done" end.
Definition phase_status_text (s : WorkPhaseStatus) : string :=
  match s with WorkPhasePending => "pending" | WorkPhaseInProgress => "in_progress" | WorkPhaseDone => "done" | WorkPhaseBlocked => "blocked" | WorkPhaseSuperseded => "superseded" end.
Definition round_status_text (s : ReviewRoundStatus) : string :=
  match s with
  | ReviewPending => "pending" | ReviewLaunching => "launching" | ReviewInFlight => "in_flight" | ReviewApproved => "approved"
  | ReviewChangesRequested => "changes_requested" | ReviewInconclusive => "inconclusive"
  end.
Definition purpose_text (p : ReviewPurpose) : string := match p with PurposePlanAudit => "plan_audit" | PurposeFinalGate => "final_gate" end.
Definition verdict_text (v : Verdict) : string := match v with VerdictPass => "pass" | VerdictNearPass => "near-pass" | VerdictFail => "fail" end.
Definition gate_status_text (s : FinalGateStatus) : string :=
  match s with GatePending => "pending" | GateInFlight => "in_flight" | GateApproved => "approved" | GateInconclusive => "inconclusive" end.

Record GoalplanCriterion : Type := mkCriterion {
  CriterionID : string;
  Scenario : string;
  ExpectedEvidence : string;
  CapturedEvidence : option string;
  CStatus : CriterionStatus;
  Surface : option CriterionSurface;
  Presented : option PresentedSurface
}.

Record GoalplanTask : Type := mkTask {
  TaskID : string;
  TaskTitle : string;
  TStatus : TaskStatus;
  TaskDependsOn : list string;
  Outcome : string
}.

Record GoalplanWorkPhase : Type := mkPhase {
  PhaseID : string;
  PhaseTitle : string;
  PStatus : WorkPhaseStatus;
  Tasks : list GoalplanTask;
  CriteriaIDs : list string;
  DependsOn : list string;
  AwaitsDecision : list string;
  BlockedReason : option string;
  SupersededBy : option string
}.

Record GoalplanDecision : Type := mkDecision {
  DecisionID : string;
  Question : string;
  DStatus : DecisionStatus;
  Answer : string;
  AskedAt : string;
  DecidedAt : string;
  Recommendation : string;
  DecisionOptions : list string
}.

Record GoalplanHostLink : Type := mkHost { Armed : bool; ArmedAt : option string; HostSource : string }.

Record ReviewLane : Type := mkLane {
  LaunchID : string;
  ReviewerSession : option string;
  WorkspaceRoot : option string;
  ArtifactSha256 : option string;
  LaneVerdict : option Verdict;
  LaneSourceIdentity : option SourceIdentity;
  Blockers : Z;
  Findings : list string
}.

Record ReviewRoundState : Type := mkRound {
  RoundID : string;
  Purpose : ReviewPurpose;
  RoundPlanPath : string;
  PlanSha256 : string;
  RoundStatus : ReviewRoundStatus;
  Lane : ReviewLane;
  OpenedAt : string;
  RoundClosedAt : option string;
  OwnerSessionID : string;
  RoundWorkPhaseID : string;
  PlanUnit : string;
  PlanEpoch : string;
  PlanFiles : list (string * string);
  RoundSupersededBy : string
}.

Record FinalGateState : Type := mkGate {
  GateStatus : FinalGateStatus;
  QaRequired : bool;
  GateUpdatedAt : string;
  ReviewRoundID : option string;
  TestReceiptPath : option string;
  QaReceiptPath : option string;
  GateVerdict : option Verdict;
  GateSourceIdentity : option SourceIdentity
}.

(** The kinds of a steering op (steering_ops.go). *)
Inductive SteerOp : Type :=
| SteerOpAnnotate (note : string)
| SteerOpAddCriterion (scenario : string) (surface : option CriterionSurface) (presented : option PresentedSurface) (expectedEvidence : string)
| SteerOpAddWorkPhase (id title : string) (dependsOn : list string).

(** An op as an entry stores it: the texts are kept as they are, an absent one is empty; an absent list of prerequisites is [None]. *)
Record SteeringOpRecord : Type := mkOpRecord {
  RKind : string;
  RNote : string;
  RScenario : string;
  RSurface : string;
  RPresented : string;
  RExpectedEvidence : string;
  ROpID : string;
  RTitle : string;
  RDependsOn : option (list string)
}.

(** A ledger row an entry owes. *)
Record SteeringEventRecord : Type := mkEvent { EventID : string; Event : string; EventDetail : string }.

(** An entry with no op is one written before ops were recorded. *)
Record SteeringEntry : Type := mkSteering {
  IdempotencyKey : string;
  Rationale : string;
  SteeringEvidence : string;
  AppliedAt : string;
  Summary : string;
  SteeringOps : list SteeringOpRecord;
  SteeringEvents : list SteeringEventRecord
}.

(** A row of the ledger (the cursors a row may carry are not read here). *)
Record GoalplanLedgerEntry : Type := mkLedgerEntry {
  LedgerTs : string;
  LedgerSlug : string;
  LedgerEvent : string;
  LedgerDetail : string;
  LedgerEventID : option string
}.

#[export] Instance op_record_eq : EqDecision SteeringOpRecord.
Proof. solve_decision. Defined.
#[export] Instance event_eq : EqDecision SteeringEventRecord.
Proof. solve_decision. Defined.
#[export] Instance entry_eq : EqDecision SteeringEntry.
Proof. solve_decision. Defined.

Record Goalplan : Type := mkPlan {
  Objective : string;
  Slug : string;
  CreatedAt : string;
  PlanUpdatedAt : string;
  ActiveWorkPhaseID : option string;
  WorkPhases : list GoalplanWorkPhase;
  Criteria : list GoalplanCriterion;
  Host : GoalplanHostLink;
  ReviewRounds : list ReviewRoundState;
  Decisions : list GoalplanDecision;
  ActivePlanAuditRoundID : option string;
  ActiveFinalGateRoundID : option string;
  SchemaVersion : option float64;
  FinalGate : option FinalGateState;
  SteeringLog : list SteeringEntry
}.

(** [next := *plan] with another field. *)
Definition with_cursor (plan : Goalplan) (cursor : option string) (phases : list GoalplanWorkPhase) : Goalplan :=
  mkPlan (Objective plan) (Slug plan) (CreatedAt plan) (PlanUpdatedAt plan) cursor phases (Criteria plan) (Host plan) (ReviewRounds plan) (Decisions plan)
    (ActivePlanAuditRoundID plan) (ActiveFinalGateRoundID plan) (SchemaVersion plan) (FinalGate plan) (SteeringLog plan).
Definition with_phases (plan : Goalplan) (phases : list GoalplanWorkPhase) : Goalplan := with_cursor plan (ActiveWorkPhaseID plan) phases.
Definition with_criteria (plan : Goalplan) (criteria : list GoalplanCriterion) : Goalplan :=
  mkPlan (Objective plan) (Slug plan) (CreatedAt plan) (PlanUpdatedAt plan) (ActiveWorkPhaseID plan) (WorkPhases plan) criteria (Host plan) (ReviewRounds plan) (Decisions plan)
    (ActivePlanAuditRoundID plan) (ActiveFinalGateRoundID plan) (SchemaVersion plan) (FinalGate plan) (SteeringLog plan).
Definition with_decisions (plan : Goalplan) (decisions : list GoalplanDecision) : Goalplan :=
  mkPlan (Objective plan) (Slug plan) (CreatedAt plan) (PlanUpdatedAt plan) (ActiveWorkPhaseID plan) (WorkPhases plan) (Criteria plan) (Host plan) (ReviewRounds plan) decisions
    (ActivePlanAuditRoundID plan) (ActiveFinalGateRoundID plan) (SchemaVersion plan) (FinalGate plan) (SteeringLog plan).

Definition with_status (p : GoalplanWorkPhase) (s : WorkPhaseStatus) : GoalplanWorkPhase :=
  mkPhase (PhaseID p) (PhaseTitle p) s (Tasks p) (CriteriaIDs p) (DependsOn p) (AwaitsDecision p) (BlockedReason p) (SupersededBy p).
Definition with_tasks (p : GoalplanWorkPhase) (ts : list GoalplanTask) : GoalplanWorkPhase :=
  mkPhase (PhaseID p) (PhaseTitle p) (PStatus p) ts (CriteriaIDs p) (DependsOn p) (AwaitsDecision p) (BlockedReason p) (SupersededBy p).
Definition with_awaits (p : GoalplanWorkPhase) (ds : list string) : GoalplanWorkPhase :=
  mkPhase (PhaseID p) (PhaseTitle p) (PStatus p) (Tasks p) (CriteriaIDs p) (DependsOn p) ds (BlockedReason p) (SupersededBy p).
Definition with_log (plan : Goalplan) (log : list SteeringEntry) : Goalplan :=
  mkPlan (Objective plan) (Slug plan) (CreatedAt plan) (PlanUpdatedAt plan) (ActiveWorkPhaseID plan) (WorkPhases plan) (Criteria plan) (Host plan) (ReviewRounds plan) (Decisions plan)
    (ActivePlanAuditRoundID plan) (ActiveFinalGateRoundID plan) (SchemaVersion plan) (FinalGate plan) log.
(** The copy a plan write publishes carries a fresh time. *)
Definition with_updated (plan : Goalplan) (now : string) : Goalplan :=
  mkPlan (Objective plan) (Slug plan) (CreatedAt plan) now (ActiveWorkPhaseID plan) (WorkPhases plan) (Criteria plan) (Host plan) (ReviewRounds plan) (Decisions plan)
    (ActivePlanAuditRoundID plan) (ActiveFinalGateRoundID plan) (SchemaVersion plan) (FinalGate plan) (SteeringLog plan).
