(* ===== verification/GoalQuery.v ===== *)
(** * GoalQuery: the reads of a goal plan and its integrity checks (internal/pabcd/goalplan: query.go, integrity.go, workphase_cursor.go, the queries of lifecycle.go).

    Reasons are the texts of the source. Ids are sorted by their UTF-16 code units, as JavaScript sorts; two ids with the same units are the same text unless they are not UTF-8. *)
From S2P Require Import Prelude GoLib Sha256 Json Loads GoFloat JsText Attest Fsm GoalTypes.
Local Open Scope string_scope.

(** ** Ids *)

(** [utf16.Encode([]rune(s))], two bytes to a unit: the bytes compare as the units do. *)
Definition utf16_units (r : Z) : list Z :=
  if (r <? 0x10000)%Z then [r] else [0xD800 + (r - 0x10000) / 1024; 0xDC00 + (r - 0x10000) mod 1024]%Z.
Definition utf16_key (s : string) : string := string_of_bytes ((runes (bytes_of_string s) ≫= utf16_units) ≫= λ u, [u / 256; u mod 256]%Z).

Definition sortedDependencyIDs (ids : list string) : list string := sort_by utf16_key ids.

(** The ids in the order they first occur. *)
Fixpoint unique_from (seen : list string) (ids : list string) : list string :=
  match ids with
  | [] => []
  | id :: rest => if bool_decide (id ∈ seen) then unique_from seen rest else id :: unique_from (id :: seen) rest
  end.
Definition uniqueDependencyIDs (ids : list string) : list string := unique_from [] ids.

Fixpoint repeated_from (seen repeated : list string) (ids : list string) : list string :=
  match ids with
  | [] => []
  | id :: rest =>
    if bool_decide (id ∈ seen) && negb (bool_decide (id ∈ repeated)) then id :: repeated_from (id :: seen) (id :: repeated) rest
    else repeated_from (id :: seen) repeated rest
  end.
Definition duplicateIDs (ids : list string) : list string := sortedDependencyIDs (repeated_from [] [] ids).

(** ** findDependencyCycle *)
Definition dependencyNode : Type := string * list string.

(** [byID[node.id] = node]: the last node of an id. *)
Definition by_id {A} (nodes : list (string * A)) : gmap string A := foldl (λ m n, <[n.1 := n.2]> m) ∅ nodes.

(** The walk from one id: the cycle it closed, or the ids that are settled. [stack] holds the ids being visited; [fuel] is one more than the ids that are not on it. *)
Fixpoint visit (fuel : nat) (byID : gmap string (list string)) (stack : list string) (visited : gset string) (id : string) : list string + gset string :=
  match fuel with
  | O => inr visited
  | S fuel' =>
    match list_find (λ x, x = id) stack with
    | Some (at_, _) => inl (drop at_ stack ++ [id])%list
    | None =>
      if bool_decide (id ∈ visited) then inr visited
      else
        let step acc dependencyID :=
          match acc with
          | inl cycle => inl cycle
          | inr visited => if bool_decide (is_Some (byID !! dependencyID)) then visit fuel' byID (stack ++ [id])%list visited dependencyID else inr visited
          end in
        match foldl step (inr visited) (sortedDependencyIDs (default [] (byID !! id))) with
        | inl cycle => inl cycle
        | inr visited => inr ({[ id ]} ∪ visited)
        end
    end
  end.

Definition findDependencyCycle (nodes : list dependencyNode) : option (list string) :=
  let byID := by_id nodes in
  let ids := sortedDependencyIDs (sorted_keys byID) in
  match foldl (λ acc id, match acc with inl cycle => inl cycle | inr visited => visit (S (length ids)) byID [] visited id end) (inr ∅) ids with
  | inl cycle => Some cycle
  | inr _ => None
  end.

Definition withoutSelfDependency (id : string) (dependencies : list string) : list string := filter (λ d, d ≠ id) dependencies.

(** ** Lookups *)
Definition queryFindWorkPhase (plan : Goalplan) (id : string) : option GoalplanWorkPhase := head (filter (λ p, PhaseID p = id) (WorkPhases plan)).
Definition queryFindTask (phase : GoalplanWorkPhase) (id : string) : option GoalplanTask := head (filter (λ t, TaskID t = id) (Tasks phase)).

Definition done_phase (p : option GoalplanWorkPhase) : bool := match p with Some p => bool_decide (PStatus p = WorkPhaseDone) | None => false end.
Definition done_task (t : option GoalplanTask) : bool := match t with Some t => bool_decide (TStatus t = TaskDone) | None => false end.

Definition RemainingWorkPhases (plan : Goalplan) : list GoalplanWorkPhase := filter (λ p, PStatus p ≠ WorkPhaseDone ∧ PStatus p ≠ WorkPhaseSuperseded) (WorkPhases plan).
Definition UnmetCriteria (plan : Goalplan) : list GoalplanCriterion := filter (λ c, CStatus c = CriterionOpen) (Criteria plan).
Definition DoneWorkPhasesWithPendingTasks (plan : Goalplan) : list GoalplanWorkPhase :=
  filter (λ p, PStatus p = WorkPhaseDone ∧ existsb (λ t, negb (bool_decide (TStatus t = TaskDone))) (Tasks p) = true) (WorkPhases plan).
Definition IsGoalplanComplete (plan : Goalplan) : bool :=
  bool_decide (RemainingWorkPhases plan = []) && bool_decide (UnmetCriteria plan = []) && bool_decide (DoneWorkPhasesWithPendingTasks plan = []).

(** ** Readiness *)
Definition WorkPhaseDependenciesMet (plan : Goalplan) (phase : GoalplanWorkPhase) : bool := forallb (λ id, done_phase (queryFindWorkPhase plan id)) (DependsOn phase).
Definition TaskDependenciesMet (phase : GoalplanWorkPhase) (task : GoalplanTask) : bool := forallb (λ id, done_task (queryFindTask phase id)) (TaskDependsOn task).

(** How many decisions have the id, and the status of the last one. *)
Definition queryDecisionMatches (plan : Goalplan) (id : string) : nat * option DecisionStatus :=
  let found := filter (λ d, DecisionID d = id) (Decisions plan) in (length found, DStatus <$> last found).

Definition OpenDecisionIDsForPhase (plan : Goalplan) (phase : GoalplanWorkPhase) : list string :=
  filter (λ id, queryDecisionMatches plan id ≠ (1, Some DecisionDecided)) (uniqueDependencyIDs (AwaitsDecision phase)).

Definition WorkPhaseReadyConditionsMet (plan : Goalplan) (phase : GoalplanWorkPhase) : bool :=
  WorkPhaseDependenciesMet plan phase && bool_decide (OpenDecisionIDsForPhase plan phase = []).

Definition IsRunnablePhase (plan : Goalplan) (phase : GoalplanWorkPhase) : bool :=
  (bool_decide (PStatus phase = WorkPhasePending) || bool_decide (PStatus phase = WorkPhaseInProgress)) && WorkPhaseReadyConditionsMet plan phase.

Definition ReadyWorkPhases (plan : Goalplan) : list GoalplanWorkPhase := filter (λ p, IsRunnablePhase plan p = true) (WorkPhases plan).

Definition ready_task (p : GoalplanWorkPhase) (t : GoalplanTask) : bool := bool_decide (TStatus t = TaskPending) && TaskDependenciesMet p t.

Definition ReadyTasks (plan : Goalplan) : list (string * GoalplanTask) :=
  ReadyWorkPhases plan ≫= λ p, (λ t, (PhaseID p, t)) <$> filter (λ t, ready_task p t = true) (Tasks p).

Definition NextOpenTask (plan : Goalplan) : option (GoalplanWorkPhase * GoalplanTask) :=
  '(id, t) ← head (ReadyTasks plan); p ← queryFindWorkPhase plan id; Some (p, t).

Definition EffectiveActiveWorkPhaseID (plan : Goalplan) : option string :=
  let cursor := match ActiveWorkPhaseID plan with
                | Some id => if bool_decide (id = "") then None
                             else match queryFindWorkPhase plan id with Some p => if IsRunnablePhase plan p then Some (PhaseID p) else None | None => None end
                | None => None
                end in
  match cursor with
  | Some id => Some id
  | None =>
    match filter (λ p, PStatus p = WorkPhaseInProgress ∧ IsRunnablePhase plan p = true) (WorkPhases plan) with
    | p :: _ => Some (PhaseID p)
    | [] => match filter (λ p, PStatus p = WorkPhasePending ∧ IsRunnablePhase plan p = true) (WorkPhases plan) with p :: _ => Some (PhaseID p) | [] => None end
    end
  end.

Definition AbsentSuccessorDetail (reason : string) : string :=
  if bool_decide (reason = "absent") then "is gone too" else if bool_decide (reason = "not_runnable") then "can no longer be started" else "now waits for a prerequisite or decision".

(** ** Why work waits *)
Definition queryDescribePhaseDependency (plan : Goalplan) (id : string) : string :=
  "work-phase " +:+ id +:+ " (" +:+ (match queryFindWorkPhase plan id with Some p => phase_status_text (PStatus p) | None => "missing" end) +:+ ")".
Definition queryDescribeTaskDependency (phase : GoalplanWorkPhase) (id : string) : string :=
  "task " +:+ PhaseID phase +:+ "/" +:+ id +:+ " (" +:+ (match queryFindTask phase id with Some t => task_status_text (TStatus t) | None => "missing" end) +:+ ")".
Definition queryDependencyWaitReason (subject : string) (dependencies : list string) : string := subject +:+ " waits for " +:+ join_sep ", " dependencies.

Definition queryUnmetPhaseDependencyIDs (plan : Goalplan) (phase : GoalplanWorkPhase) : list string :=
  filter (λ id, done_phase (queryFindWorkPhase plan id) = false) (uniqueDependencyIDs (DependsOn phase)).
Definition queryUnmetTaskDependencyIDs (phase : GoalplanWorkPhase) (task : GoalplanTask) : list string :=
  filter (λ id, done_task (queryFindTask phase id) = false) (uniqueDependencyIDs (TaskDependsOn task)).

Definition queryPhaseWaitReason (plan : Goalplan) (phase : GoalplanWorkPhase) (ids : list string) : string :=
  queryDependencyWaitReason ("work-phase " +:+ PhaseID phase) (queryDescribePhaseDependency plan <$> ids).

Definition queryDecisionWaitReasons (plan : Goalplan) (phase : GoalplanWorkPhase) : list string :=
  match OpenDecisionIDsForPhase plan phase with [] => [] | ids => ["work-phase " +:+ PhaseID phase +:+ " awaits decision " +:+ join_sep ", " ids] end.

Definition queryTaskWaitReasons (phase : GoalplanWorkPhase) : list string :=
  Tasks phase ≫= λ task,
    if bool_decide (TStatus task = TaskPending) then
      match queryUnmetTaskDependencyIDs phase task with
      | [] => []
      | ids => [queryDependencyWaitReason ("task " +:+ PhaseID phase +:+ "/" +:+ TaskID task) (queryDescribeTaskDependency phase <$> ids)]
      end
    else [].

Definition DependencyWaitReasons (plan : Goalplan) : list string :=
  RemainingWorkPhases plan ≫= λ p,
    ((match queryUnmetPhaseDependencyIDs plan p with [] => [] | ids => [queryPhaseWaitReason plan p ids] end) ++ queryDecisionWaitReasons plan p ++
     (if bool_decide (PStatus p = WorkPhasePending) || bool_decide (PStatus p = WorkPhaseInProgress) then queryTaskWaitReasons p else []))%list.

(** A runnable phase with a task to do, or with all of them done. *)
Definition can_proceed (p : GoalplanWorkPhase) : bool := existsb (ready_task p) (Tasks p) || forallb (λ t, bool_decide (TStatus t = TaskDone)) (Tasks p).

Definition deadlock_reasons (plan : Goalplan) (p : GoalplanWorkPhase) : list string :=
  if bool_decide (PStatus p = WorkPhaseBlocked) then
    (("work-phase " +:+ PhaseID p +:+ " is blocked" +:+
       match BlockedReason p with Some why => if bool_decide (why = "") then "" else " (" +:+ why +:+ ")" | None => "" end) :: queryDecisionWaitReasons plan p)
  else
    match queryUnmetPhaseDependencyIDs plan p with
    | [] => (queryDecisionWaitReasons plan p ++ queryTaskWaitReasons p)%list
    | ids => queryPhaseWaitReason plan p ids :: queryDecisionWaitReasons plan p
    end.

Definition DetectDependencyDeadlock (plan : Goalplan) : option (list string) :=
  let remaining := RemainingWorkPhases plan in
  if bool_decide (remaining = []) then None
  else if existsb can_proceed (ReadyWorkPhases plan) then None
  else match remaining ≫= deadlock_reasons plan with [] => None | out => Some out end.

(** ** integrity.go *)
Definition EffectiveSchemaVersion (plan : Goalplan) (markerPresent : bool) : float64 :=
  let declared := default f1 (SchemaVersion plan) in
  let two := Fin (QArith_base.inject_Z 2) in
  if markerPresent then (match declared with FNaN => FNaN | _ => if fle two declared then declared else two end) else declared.

Definition ComputeQaRequired (plan : Goalplan) : bool :=
  existsb (λ c, bool_decide (Surface c ∈ [Some SurfaceWeb; Some SurfaceTUI; Some SurfaceDesktop])) (Criteria plan).

(** The last status an id has. *)
Definition decision_status (plan : Goalplan) : gmap string DecisionStatus := by_id ((λ d, (DecisionID d, DStatus d)) <$> Decisions plan).
Definition phase_status (plan : Goalplan) : gmap string WorkPhaseStatus := by_id ((λ p, (PhaseID p, PStatus p)) <$> WorkPhases plan).
Definition task_status (phase : GoalplanWorkPhase) : gmap string TaskStatus := by_id ((λ t, (TaskID t, TStatus t)) <$> Tasks phase).

Definition awaits_reasons (plan : Goalplan) (phase : GoalplanWorkPhase) : list string :=
  (((λ id, "work phase " +:+ PhaseID phase +:+ " awaits decision '" +:+ id +:+ "' more than once") <$> duplicateIDs (AwaitsDecision phase)) ++
   (uniqueDependencyIDs (AwaitsDecision phase) ≫= λ id,
      match decision_status plan !! id with
      | None => ["work phase " +:+ PhaseID phase +:+ " awaits unknown decision '" +:+ id +:+ "'"]
      | Some status =>
        if bool_decide (PStatus phase = WorkPhaseDone) && bool_decide (status = DecisionOpen)
        then ["work phase " +:+ PhaseID phase +:+ " is done while decision " +:+ id +:+ " is open"] else []
      end))%list.

Definition phase_reference_reasons (plan : Goalplan) (phase : GoalplanWorkPhase) : list string :=
  uniqueDependencyIDs (DependsOn phase) ≫= λ id,
    if bool_decide (id = PhaseID phase) then ["work phase " +:+ PhaseID phase +:+ " depends on itself"]
    else if bool_decide (id ∈ PhaseID <$> WorkPhases plan) then []
    else ["work phase " +:+ PhaseID phase +:+ " depends on unknown work phase '" +:+ id +:+ "'"].

Definition task_reference_reasons (phase : GoalplanWorkPhase) (task : GoalplanTask) : list string :=
  uniqueDependencyIDs (TaskDependsOn task) ≫= λ id,
    if bool_decide (id = TaskID task) then ["task " +:+ PhaseID phase +:+ "/" +:+ TaskID task +:+ " depends on itself"]
    else if bool_decide (id ∈ TaskID <$> Tasks phase) then []
    else ["task " +:+ PhaseID phase +:+ "/" +:+ TaskID task +:+ " depends on unknown task '" +:+ id +:+ "' in the same work phase"].

Definition cycle_reason (prefix : string) (nodes : list dependencyNode) : list string :=
  match findDependencyCycle nodes with Some cycle => [prefix +:+ join_sep " -> " cycle] | None => [] end.

Definition outcome_reasons (plan : Goalplan) (phase : GoalplanWorkPhase) (task : GoalplanTask) : list string :=
  ((if bool_decide (TStatus task = TaskDone) && bool_decide (Trim (Outcome task) = "")
    then ["task " +:+ PhaseID phase +:+ "/" +:+ TaskID task +:+ " is done but has no non-empty outcome"] else []) ++
   (if bool_decide (TStatus task = TaskPending) && negb (bool_decide (Outcome task = ""))
    then ["task " +:+ PhaseID phase +:+ "/" +:+ TaskID task +:+ " is pending but has outcome"] else []))%list.

Definition phase_nodes (plan : Goalplan) : list dependencyNode := (λ p, (PhaseID p, withoutSelfDependency (PhaseID p) (DependsOn p))) <$> WorkPhases plan.
Definition task_nodes (phase : GoalplanWorkPhase) : list dependencyNode := (λ t, (TaskID t, withoutSelfDependency (TaskID t) (TaskDependsOn t))) <$> Tasks phase.

Definition phase_reasons (plan : Goalplan) (phase : GoalplanWorkPhase) : list string :=
  (phase_reference_reasons plan phase ++
   ((λ id, "work phase " +:+ PhaseID phase +:+ " has duplicate task id '" +:+ id +:+ "', so task dependency references are ambiguous") <$> duplicateIDs (TaskID <$> Tasks phase)) ++
   (Tasks phase ≫= task_reference_reasons phase) ++
   cycle_reason ("task dependency cycle in work phase " +:+ PhaseID phase +:+ ": ") (task_nodes phase) ++
   (if fle (Fin (QArith_base.inject_Z 3)) (EffectiveSchemaVersion plan false) then Tasks phase ≫= outcome_reasons plan phase else []))%list.

Definition GoalplanDefinitionIntegrityReasons (plan : Goalplan) : list string :=
  (((λ id, "duplicate work phase id '" +:+ id +:+ "' makes dependency references ambiguous") <$> duplicateIDs (PhaseID <$> WorkPhases plan)) ++
   ((λ id, "duplicate decision id '" +:+ id +:+ "' makes awaitsDecision references ambiguous") <$> duplicateIDs (DecisionID <$> Decisions plan)) ++
   (WorkPhases plan ≫= awaits_reasons plan) ++
   (WorkPhases plan ≫= phase_reasons plan) ++
   cycle_reason "work phase dependency cycle: " (phase_nodes plan) ++
   ((λ id, "duplicate criterion id '" +:+ id +:+ "' makes criteriaIds references ambiguous") <$> duplicateIDs (CriterionID <$> Criteria plan)) ++
   (WorkPhases plan ≫= λ phase, CriteriaIDs phase ≫= λ id,
      if bool_decide (id ∈ CriterionID <$> Criteria plan) then [] else ["work phase " +:+ PhaseID phase +:+ " references unknown criterion '" +:+ id +:+ "'"]))%list.

Definition open_phase_dependencies (plan : Goalplan) (phase : GoalplanWorkPhase) : list string :=
  filter (λ id, phase_status plan !! id ≠ Some WorkPhaseDone) (uniqueDependencyIDs (DependsOn phase)).
Definition open_task_dependencies (phase : GoalplanWorkPhase) (task : GoalplanTask) : list string :=
  filter (λ id, task_status phase !! id ≠ Some TaskDone) (uniqueDependencyIDs (TaskDependsOn task)).

Definition phase_completion_reasons (plan : Goalplan) (phase : GoalplanWorkPhase) : list string :=
  ((if bool_decide (PStatus phase = WorkPhaseDone) then
      match open_phase_dependencies plan phase with
      | [] => []
      | open => ["work phase " +:+ PhaseID phase +:+ " is done while dependency work phase(s) are not done: " +:+ join_sep ", " open]
      end
    else []) ++
   (Tasks phase ≫= λ task,
      if bool_decide (TStatus task = TaskDone) then
        match open_task_dependencies phase task with
        | [] => []
        | open => ["task " +:+ PhaseID phase +:+ "/" +:+ TaskID task +:+ " is done while dependency task(s) are not done: " +:+ join_sep ", " open]
        end
      else []))%list.
Definition GoalplanDependencyCompletionReasons (plan : Goalplan) : list string := WorkPhases plan ≫= phase_completion_reasons plan.

Definition superseded_reason (plan : Goalplan) (phase : GoalplanWorkPhase) : list string :=
  if negb (bool_decide (PStatus phase = WorkPhaseSuperseded)) then []
  else match SupersededBy phase with
       | None => ["work phase " +:+ PhaseID phase +:+ " is superseded but does not name what replaced it (supersededBy)"]
       | Some by_ =>
         if bool_decide (Trim by_ = "") then ["work phase " +:+ PhaseID phase +:+ " is superseded but does not name what replaced it (supersededBy)"]
         else if bool_decide (by_ = PhaseID phase) then ["work phase " +:+ PhaseID phase +:+ " claims to supersede itself, which would drop it from the remaining work for free"]
         else match queryFindWorkPhase plan by_ with
              | None => ["work phase " +:+ PhaseID phase +:+ " is superseded by '" +:+ by_ +:+ "', which is not in this plan"]
              | Some target =>
                if bool_decide (PStatus target = WorkPhaseSuperseded)
                then ["work phase " +:+ PhaseID phase +:+ " is superseded by '" +:+ by_ +:+ "', which is itself superseded — the work would vanish"] else []
              end
       end.
Definition supersededIntegrityReasons (plan : Goalplan) : list string := WorkPhases plan ≫= superseded_reason plan.
