(* ===== verification/GoalOps.v ===== *)
(** * GoalOps: the operations on a goal plan (internal/pabcd/goalplan: lifecycle.go, workphase.go, steering_ops.go, jsvalue.go).

    All of them are pure: they answer a new plan, the plan as it stands, or a refusal with its text. JavaScript's spelling of a number (jsnode.NumberString) is an argument of what
    prints one. *)
From S2P Require Import Prelude GoLib Sha256 Json Loads GoFloat GoTime JsText Attest Fsm GoalTypes GoalQuery.
Local Open Scope string_scope.

(** ** jsvalue.go *)
Definition lower_or_digit (c : ascii) : bool := let b := byte_of_ascii c in in_range 97 122 b || in_range 48 57 b.
Definition isLifecycleID (s : string) : bool :=
  match String.list_ascii_of_string s with
  | [] => false
  | c :: rest => (length rest <? 40)%nat && lower_or_digit c && forallb (λ c, lower_or_digit c || bool_decide (c = "-"%char)) rest
  end.

(** [digits]: the number that ASCII digits spell. *)
Definition digits_number (cs : list ascii) : option Z :=
  foldl (λ acc c, n ← acc; let b := byte_of_ascii c in if in_range 48 57 b then Some (10 * n + (b - 48))%Z else None) (Some 0%Z) cs.

(** The clock of an ISO text after its year, and whether the moment exists and is in the range of a Date. *)
Definition iso_rest (year : Z) (s : list ascii) : bool :=
  match s with
  | ["-"; m1; m2; "-"; d1; d2; "T"; h1; h2; ":"; n1; n2; ":"; s1; s2; "."; f1; f2; f3; "Z"]%char =>
    match digits_number [m1; m2], digits_number [d1; d2], digits_number [h1; h2], digits_number [n1; n2], digits_number [s1; s2], digits_number [f1; f2; f3] with
    | Some m, Some d, Some h, Some n, Some sec, Some ms =>
      let total := (1000 * (86400 * (days_of year m d - 719162) + 3600 * h + 60 * n + sec) + ms)%Z in
      (1 <=? m)%Z && (m <=? 12)%Z && (h <=? 23)%Z && (n <=? 59)%Z && (sec <=? 59)%Z && (1 <=? d)%Z && (d <=? days_in year m)%Z &&
      (- 8640000000000000 <=? total)%Z && (total <=? 8640000000000000)%Z
    | _, _, _, _, _, _ => false
    end
  | _ => false
  end.

Definition validIsoTime (s : string) : bool :=
  let cs := String.list_ascii_of_string s in
  if (length cs =? 24)%nat then match digits_number (take 4 cs) with Some y => iso_rest y (drop 4 cs) | None => false end
  else if (length cs =? 27)%nat then
    match cs with
    | sign :: rest =>
      match digits_number (take 6 rest) with
      | Some y =>
        if bool_decide (sign = "-"%char) then (0 <? y)%Z && iso_rest (- y) (drop 6 rest)
        else if bool_decide (sign = "+"%char) then (9999 <? y)%Z && iso_rest y (drop 6 rest) else false
      | None => false
      end
    | [] => false
    end
  else false.

(** ** lifecycle.go *)
Inductive GoalplanLifecycleResult : Type :=
| GoalplanLifecycleChanged (plan : Goalplan)
| GoalplanLifecycleUnchanged (plan : Goalplan) (reason : string)
| GoalplanLifecycleRejected (reason : string).

(** A chain of refusals: the first that has a reason, or the answer. *)
Notation "c '=?>' r ; k" := (if c then GoalplanLifecycleRejected r else k) (at level 100, r at level 99, k at level 200, right associativity).

Record AskGoalplanDecisionInput : Type := mkAsk {
  AskID : string;
  AskQuestion : string;
  AskRecommendation : option string;
  AskOptions : option (list string);
  AskWorkPhaseIDs : list string;
  AskAskedAt : string
}.

(** The first phase of a question that cannot await it. *)
Fixpoint ask_phase_refusal (plan : Goalplan) (ids : list string) : option string :=
  match ids with
  | [] => None
  | id :: rest =>
    match queryFindWorkPhase plan id with
    | None => Some ("work phase '" +:+ id +:+ "' is not in this plan")
    | Some p =>
      if bool_decide (PStatus p = WorkPhaseDone) || bool_decide (PStatus p = WorkPhaseSuperseded)
      then Some ("work phase '" +:+ id +:+ "' is " +:+ phase_status_text (PStatus p) +:+ " and cannot await a decision") else ask_phase_refusal plan rest
    end
  end.

(** The first text that occurs twice. *)
Fixpoint first_repeat (seen l : list string) : option string :=
  match l with [] => None | x :: rest => if bool_decide (x ∈ seen) then Some x else first_repeat (x :: seen) rest end.

Definition options_refusal (recommendation : option string) (options : option (list string)) : option string :=
  match options with
  | None => None
  | Some opts =>
    if bool_decide (opts = []) then Some "decision options must not be empty"
    else if bool_decide ("" ∈ opts) then Some "decision options must be non-empty text"
    else match first_repeat [] opts with
         | Some o => Some ("duplicate decision option '" +:+ o +:+ "'")
         | None => match recommendation with
                   | Some r => if bool_decide (r ∈ opts) then None else Some "decision recommendation must be one of the options"
                   | None => None
                   end
         end
  end.

Definition rejected_or (reason : option string) (k : GoalplanLifecycleResult) : GoalplanLifecycleResult := match reason with Some r => GoalplanLifecycleRejected r | None => k end.

(** [if reasons := GoalplanDefinitionIntegrityReasons(&next); len(reasons) > 0] *)
Definition if_sound (next : Goalplan) : GoalplanLifecycleResult :=
  match GoalplanDefinitionIntegrityReasons next with [] => GoalplanLifecycleChanged next | reasons => GoalplanLifecycleRejected (join_sep "; " reasons) end.

Definition asked_plan (plan : Goalplan) (decision : GoalplanDecision) (ids : list string) : Goalplan :=
  with_phases (with_decisions plan (Decisions plan ++ [decision])%list)
    ((λ p, if bool_decide (PhaseID p ∈ ids) then with_awaits p (AwaitsDecision p ++ [DecisionID decision])%list else p) <$> WorkPhases plan).

Definition AskGoalplanDecision (plan : Goalplan) (input : AskGoalplanDecisionInput) : GoalplanLifecycleResult :=
  let id := Trim (AskID input) in
  let question := Trim (AskQuestion input) in
  let recommendation := Trim <$> AskRecommendation input in
  let workPhaseIDs := Trim <$> AskWorkPhaseIDs input in
  let options := (λ l : list string, Trim <$> l) <$> AskOptions input in
  negb (isLifecycleID id) =?> "decision id must be a short lowercase id, e.g. dec-1";
  bool_decide (question = "") =?> "decision question must not be empty";
  bool_decide (recommendation = Some "") =?> "decision recommendation must not be empty";
  rejected_or (options_refusal recommendation options)
  (negb (validIsoTime (AskAskedAt input)) =?> "decision askedAt must be an ISO timestamp";
   bool_decide (id ∈ DecisionID <$> Decisions plan) =?> "decision '" +:+ id +:+ "' is already in this plan";
   match filter (λ d, DStatus d = DecisionOpen ∧ Trim (Question d) = question) (Decisions plan) with
   | d :: _ => GoalplanLifecycleRejected ("question is already open as decision '" +:+ DecisionID d +:+ "'")
   | [] =>
     bool_decide ("" ∈ workPhaseIDs) =?> "--work-phase requires distinct non-empty ids";
     negb (length (uniqueDependencyIDs workPhaseIDs) =? length workPhaseIDs)%nat =?> "--work-phase requires distinct non-empty ids";
     rejected_or (ask_phase_refusal plan workPhaseIDs)
       (if_sound (asked_plan plan (mkDecision id question DecisionOpen "" (AskAskedAt input) "" (default "" recommendation) (default [] options)) workPhaseIDs))
   end).

Definition decided (answer decidedAt : string) (d : GoalplanDecision) : GoalplanDecision :=
  mkDecision (DecisionID d) (Question d) DecisionDecided answer (AskedAt d) decidedAt (Recommendation d) (DecisionOptions d).

Definition DecideGoalplanDecision (plan : Goalplan) (id answer decidedAt : string) : GoalplanLifecycleResult :=
  let trimmedID := Trim id in
  match filter (λ d, DecisionID d = trimmedID) (Decisions plan) with
  | [] => GoalplanLifecycleRejected ("decision '" +:+ trimmedID +:+ "' is not in this plan")
  | [decision] =>
    bool_decide (Trim answer = "") =?> "decision answer must not be empty";
    negb (validIsoTime decidedAt) =?> "decision decidedAt must be an ISO timestamp";
    if bool_decide (DStatus decision = DecisionDecided) then
      if bool_decide (Answer decision = Trim answer) then GoalplanLifecycleUnchanged plan ("decision '" +:+ trimmedID +:+ "' is already decided")
      else GoalplanLifecycleRejected ("decision '" +:+ trimmedID +:+ "' already has a different answer")
    else GoalplanLifecycleChanged (with_decisions plan ((λ d, if bool_decide (DecisionID d = DecisionID decision) then decided (Trim answer) decidedAt d else d) <$> Decisions plan))
  | matches => GoalplanLifecycleRejected ("decision id '" +:+ trimmedID +:+ "' is ambiguous (" +:+ itoa_nat (length matches) +:+ " entries); repair the plan first")
  end.

Definition AddGoalplanTask (plan : Goalplan) (workPhaseID taskID taskTitle : string) (depends : list string) : GoalplanLifecycleResult :=
  let id := Trim taskID in
  let title := Trim taskTitle in
  let dependsOn := Trim <$> depends in
  negb (isLifecycleID id) =?> "task id must be a short lowercase id, e.g. t-1";
  bool_decide (title = "") =?> "task title must not be empty";
  bool_decide ("" ∈ dependsOn) =?> "task dependencies must be non-empty task ids";
  negb (length (uniqueDependencyIDs dependsOn) =? length dependsOn)%nat =?> "task dependencies must not contain duplicate ids";
  match queryFindWorkPhase plan workPhaseID with
  | None => GoalplanLifecycleRejected ("work phase '" +:+ workPhaseID +:+ "' is not in this plan")
  | Some target =>
    bool_decide (PStatus target = WorkPhaseDone) || bool_decide (PStatus target = WorkPhaseSuperseded) =?>
      "work phase '" +:+ workPhaseID +:+ "' is " +:+ phase_status_text (PStatus target) +:+ " and cannot accept a new task";
    bool_decide (id ∈ TaskID <$> Tasks target) =?> "task '" +:+ workPhaseID +:+ "/" +:+ id +:+ "' is already in this work phase";
    if_sound (with_phases plan
      ((λ p, if bool_decide (PhaseID p = workPhaseID) then with_tasks p (Tasks p ++ [mkTask id title TaskPending dependsOn ""])%list else p) <$> WorkPhases plan))
  end.

Definition goalplanAmbiguousWorkPhaseMatches (plan : Goalplan) (id : string) : nat := length (filter (λ p, PhaseID p = id) (WorkPhases plan)).
Definition goalplanAmbiguousTaskMatches (phase : GoalplanWorkPhase) (id : string) : nat := length (filter (λ t, TaskID t = id) (Tasks phase)).

Definition completed_task (outcome : string) (t : GoalplanTask) : GoalplanTask := mkTask (TaskID t) (TaskTitle t) TaskDone (TaskDependsOn t) outcome.
Definition completed_plan (plan : Goalplan) (workPhaseID taskID outcome : string) : Goalplan :=
  with_phases plan ((λ p, if bool_decide (PhaseID p = workPhaseID)
    then with_tasks p ((λ t, if bool_decide (TaskID t = taskID) then completed_task outcome t else t) <$> Tasks p) else p) <$> WorkPhases plan).

Definition CompleteGoalplanTask (plan : Goalplan) (workPhaseID taskID outcomeText : string) : GoalplanLifecycleResult :=
  let outcome := Trim outcomeText in
  let name := workPhaseID +:+ "/" +:+ taskID in
  bool_decide (outcome = "") =?> "task outcome must not be empty";
  match (phase ← queryFindWorkPhase plan workPhaseID; target ← queryFindTask phase taskID; Some (phase, target)) with
  | None => GoalplanLifecycleRejected ("task '" +:+ name +:+ "' is not in this plan")
  | Some (phase, target) =>
    (1 <? goalplanAmbiguousWorkPhaseMatches plan workPhaseID)%nat =?>
      "work phase id '" +:+ workPhaseID +:+ "' is ambiguous (" +:+ itoa_nat (goalplanAmbiguousWorkPhaseMatches plan workPhaseID) +:+ " entries); repair the plan first";
    (1 <? goalplanAmbiguousTaskMatches phase taskID)%nat =?>
      "task id '" +:+ name +:+ "' is ambiguous (" +:+ itoa_nat (goalplanAmbiguousTaskMatches phase taskID) +:+ " entries); repair the plan first";
    if bool_decide (TStatus target = TaskDone) then GoalplanLifecycleUnchanged plan ("task '" +:+ name +:+ "' is already done")
    else
      negb (existsb (λ e, bool_decide (e.1 = workPhaseID) && bool_decide (TaskID e.2 = taskID)) (ReadyTasks plan)) =?> "task '" +:+ name +:+ "' is not ready";
      GoalplanLifecycleChanged (completed_plan plan workPhaseID taskID outcome)
  end.

Definition met (evidence : string) (c : GoalplanCriterion) : GoalplanCriterion :=
  mkCriterion (CriterionID c) (Scenario c) (ExpectedEvidence c) (Some evidence) CriterionMet (Surface c) (Presented c).

Definition MeetGoalplanCriterion (plan : Goalplan) (criterionID evidenceText : string) : GoalplanLifecycleResult :=
  let evidence := Trim evidenceText in
  bool_decide (evidence = "") =?> "criterion evidence must not be empty";
  match filter (λ c, CriterionID c = criterionID) (Criteria plan) with
  | [] => GoalplanLifecycleRejected ("criterion '" +:+ criterionID +:+ "' is not in this plan")
  | [target] =>
    if bool_decide (CStatus target = CriterionMet) then GoalplanLifecycleUnchanged plan ("criterion '" +:+ criterionID +:+ "' is already met")
    else GoalplanLifecycleChanged (with_criteria plan ((λ c, if bool_decide (CriterionID c = criterionID) then met evidence c else c) <$> Criteria plan))
  | matches => GoalplanLifecycleRejected ("criterion id '" +:+ criterionID +:+ "' is ambiguous (" +:+ itoa_nat (length matches) +:+ " entries); repair the plan first")
  end.

(** ** workphase.go *)

(** What a marker says of the successor: nothing yet, or the successor it recorded, which may be none. *)
Inductive WorkPhaseRecordedNext : Type :=
| NextUnknown
| NextKnown (id : option string).

Inductive WorkPhaseCloseFixedResult : Type :=
| WorkPhaseCloseFixedOK (closedID : string) (plan : Goalplan)
| WorkPhaseCloseFixedAlreadyDone
| WorkPhaseCloseFixedAbsent
| WorkPhaseCloseFixedNotRunnable (status : WorkPhaseStatus)
| WorkPhaseCloseFixedDependenciesUnmet (unmet : list string)
| WorkPhaseCloseFixedTasksPending (workPhaseID : string) (pending : list GoalplanTask)
| WorkPhaseCloseFixedSuccessorLost (successorID reason : string).

Inductive WorkPhaseAdvanceResult : Type :=
| WorkPhaseAdvanceOK (closedID : string) (plan : Goalplan)
| WorkPhaseAdvanceTasksPending (workPhaseID : string) (pending : list GoalplanTask)
| WorkPhaseAdvanceNoActive.

Inductive WorkPhaseResumeAbsentTargetResult : Type :=
| WorkPhaseResumeActivate (plan : Goalplan)
| WorkPhaseResumeCleanup
| WorkPhaseResumeSuccessorLost (successorID reason : string).

(** The first pending runnable phase of a stretch of the plan. *)
Definition workPhaseFirstRunnable (plan : Goalplan) (stretch : list GoalplanWorkPhase) : option GoalplanWorkPhase :=
  head (filter (λ p, PStatus p = WorkPhasePending ∧ IsRunnablePhase plan p = true) stretch).

Definition set_status (id : string) (s : WorkPhaseStatus) (phases : list GoalplanWorkPhase) : list GoalplanWorkPhase :=
  (λ p, if bool_decide (PhaseID p = id) then with_status p s else p) <$> phases.

Definition phase_shape (p : GoalplanWorkPhase) : string * WorkPhaseStatus * string * list (string * TaskStatus) :=
  (PhaseID p, PStatus p, join_sep (String "000" EmptyString) (DependsOn p), (λ t, (TaskID t, TStatus t)) <$> Tasks p).
Definition workPhaseSamePlanShape (left right : Goalplan) : bool :=
  bool_decide (ActiveWorkPhaseID left = ActiveWorkPhaseID right) && bool_decide ((phase_shape <$> WorkPhases left) = (phase_shape <$> WorkPhases right)).

(** The successor of a close: the phase to start, or the refusal. *)
Definition close_successor (plan closedPlan : Goalplan) (idx : nat) (workPhaseID : string) (recordedNext : WorkPhaseRecordedNext) : WorkPhaseCloseFixedResult + option GoalplanWorkPhase :=
  match recordedNext with
  | NextUnknown =>
    inr (match workPhaseFirstRunnable closedPlan (drop (S idx) (WorkPhases closedPlan)) with
         | Some p => Some p
         | None => workPhaseFirstRunnable closedPlan (take idx (WorkPhases closedPlan))
         end)
  | NextKnown None => inr None
  | NextKnown (Some recorded) =>
    if bool_decide (recorded = "") || bool_decide (recorded = workPhaseID) then inl (WorkPhaseCloseFixedSuccessorLost recorded "corrupt")
    else match queryFindWorkPhase closedPlan recorded with
         | None => inl (WorkPhaseCloseFixedSuccessorLost recorded "absent")
         | Some named =>
           match PStatus named with
           | WorkPhaseDone =>
             inr (match ActiveWorkPhaseID plan with
                  | Some active =>
                    if bool_decide (active = workPhaseID) then None
                    else head (filter (λ p, PhaseID p = active ∧ PStatus p = WorkPhaseInProgress ∧ WorkPhaseReadyConditionsMet closedPlan p = true) (WorkPhases closedPlan))
                  | None => None
                  end)
           | WorkPhasePending | WorkPhaseInProgress =>
             if WorkPhaseReadyConditionsMet closedPlan named then inr (Some named) else inl (WorkPhaseCloseFixedSuccessorLost recorded "dependencies_unmet")
           | _ => inl (WorkPhaseCloseFixedSuccessorLost recorded "not_runnable")
           end
         end
  end.

Definition settled_plan (closedPlan : Goalplan) (next : option GoalplanWorkPhase) : Goalplan :=
  match next with
  | None => closedPlan
  | Some p => with_cursor closedPlan (Some (PhaseID p)) (set_status (PhaseID p) WorkPhaseInProgress (WorkPhases closedPlan))
  end.

(** The gates of a phase that may be closed, and the close. *)
Definition close_gated (plan : Goalplan) (workPhaseID : string) (recordedNext : WorkPhaseRecordedNext) (idx : nat) (current : GoalplanWorkPhase) : WorkPhaseCloseFixedResult :=
  if negb (WorkPhaseReadyConditionsMet plan current) then
    WorkPhaseCloseFixedDependenciesUnmet (queryUnmetPhaseDependencyIDs plan current ++ ((λ id, "decision:" +:+ id) <$> OpenDecisionIDsForPhase plan current))%list
  else match filter (λ t, TStatus t ≠ TaskDone) (Tasks current) with
       | [] =>
         let closedPlan := with_cursor plan None (set_status workPhaseID WorkPhaseDone (WorkPhases plan)) in
         match close_successor plan closedPlan idx workPhaseID recordedNext with
         | inl lost => lost
         | inr next =>
           let settled := settled_plan closedPlan next in
           if workPhaseSamePlanShape plan settled then WorkPhaseCloseFixedAlreadyDone else WorkPhaseCloseFixedOK workPhaseID settled
         end
       | pending => WorkPhaseCloseFixedTasksPending workPhaseID pending
       end.

Definition workPhaseCloseFixed (plan : Goalplan) (workPhaseID : string) (recordedNext : WorkPhaseRecordedNext) : WorkPhaseCloseFixedResult :=
  match list_find (λ p, PhaseID p = workPhaseID) (WorkPhases plan) with
  | None => WorkPhaseCloseFixedAbsent
  | Some (idx, current) =>
    match PStatus current with
    | WorkPhaseBlocked | WorkPhaseSuperseded => WorkPhaseCloseFixedNotRunnable (PStatus current)
    | _ => close_gated plan workPhaseID recordedNext idx current
    end
  end.

Definition workPhaseAdvance (plan : Goalplan) : WorkPhaseAdvanceResult :=
  match EffectiveActiveWorkPhaseID plan with
  | None => WorkPhaseAdvanceNoActive
  | Some id =>
    if bool_decide (id = "") then WorkPhaseAdvanceNoActive
    else match workPhaseCloseFixed plan id NextUnknown with
         | WorkPhaseCloseFixedTasksPending phase pending => WorkPhaseAdvanceTasksPending phase pending
         | WorkPhaseCloseFixedOK closed next => WorkPhaseAdvanceOK closed next
         | _ => WorkPhaseAdvanceNoActive
         end
  end.

Definition workPhaseResumeAbsentTarget (plan : Goalplan) (recordedNext : string) : WorkPhaseResumeAbsentTargetResult :=
  if bool_decide (recordedNext = "") then WorkPhaseResumeCleanup
  else match queryFindWorkPhase plan recordedNext with
       | None => WorkPhaseResumeSuccessorLost recordedNext "absent"
       | Some named =>
         match PStatus named with
         | WorkPhaseDone => WorkPhaseResumeCleanup
         | WorkPhaseBlocked | WorkPhaseSuperseded => WorkPhaseResumeSuccessorLost recordedNext "not_runnable"
         | WorkPhasePending | WorkPhaseInProgress =>
           if negb (WorkPhaseReadyConditionsMet plan named) then WorkPhaseResumeSuccessorLost recordedNext "dependencies_unmet"
           else if bool_decide (PStatus named = WorkPhaseInProgress) then
             if bool_decide (ActiveWorkPhaseID plan = Some (PhaseID named)) then WorkPhaseResumeCleanup
             else WorkPhaseResumeActivate (with_cursor plan (Some (PhaseID named)) (WorkPhases plan))
           else WorkPhaseResumeActivate (with_cursor plan (Some (PhaseID named)) (set_status (PhaseID named) WorkPhaseInProgress (WorkPhases plan)))
         end
       end.
