(* ===== verification/GoalSteer.v ===== *)
(** * GoalSteer: steering a goal plan (internal/pabcd/goalplan: steering_ops.go, steering.go).

    A batch is a decoded JSON value. The store is the plan on disk and the rows of its ledger; what the disk does to a write is an argument (a [Disk]). JavaScript's spelling of a number
    (jsnode.NumberString) and Go's quoting of a text (strconv.Quote) are arguments of what prints one. The lock around a batch is held: the steps of a batch are not interleaved. *)
From S2P Require Import Prelude GoLib Sha256 Json Loads GoFloat JsText Attest Fsm GoPath GoalTypes GoalQuery GoalOps.
Local Open Scope string_scope.

(** ** The grammar of a batch *)
Record SteerBatch : Type := mkBatch { BatchKey : string; BatchRationale : string; BatchEvidence : string; BatchOps : list SteerOp }.

Definition steeringOpsQuoted (s : string) : string := quoted "~" +:+ s +:+ quoted "~".

Definition surface_of (s : string) : option CriterionSurface :=
  if bool_decide (s = "logic") then Some SurfaceLogic else if bool_decide (s = "web") then Some SurfaceWeb
  else if bool_decide (s = "tui") then Some SurfaceTUI else if bool_decide (s = "desktop") then Some SurfaceDesktop else None.

Definition steeringOpsField (raw : value) (key : string) : option value := match raw with VMap m => map_get m key | _ => None end.
Definition steeringOpsIsObject (raw : value) : bool := match raw with VMap _ | VList _ => true | _ => false end.
Definition text_of (v : option value) : option string := match v with Some (VString s) => Some s | _ => None end.
Definition text_field (raw : value) (key : string) : option string := text_of (steeringOpsField raw key).
(** A text that is not blank. *)
Definition said (raw : value) (key : string) : option string := s ← text_field raw key; if bool_decide (Trim s = "") then None else Some s.

Definition steeringOpsTrimmedText (v : option value) : string := match text_of v with Some s => Trim s | None => "" end.
Definition steeringOpsStringList (v : value) : option (list string) :=
  match v with VList l => Some ((λ e, match e with VString s => Trim s | _ => "" end) <$> l) | _ => None end.

(** An op, or why it is refused. *)
Definition validate_annotate (at_ : string) (raw : value) : string + SteerOp :=
  match said raw "note" with Some note => inr (SteerOpAnnotate note) | None => inl (at_ +:+ " is an annotate without a note") end.

Definition validate_add_criterion (at_ : string) (raw : value) : string + SteerOp :=
  match said raw "scenario" with
  | None => inl (at_ +:+ " is an add-criterion without a scenario")
  | Some scenario =>
    let surface := match steeringOpsField raw "surface" with None => Some SurfaceLogic | Some v => s ← text_of (Some v); surface_of s end in
    match surface with
    | None => inl (at_ +:+ quoted ".surface must be ~logic~, ~web~, ~tui~, or ~desktop~")
    | Some surface =>
      let built presented := SteerOpAddCriterion (Trim scenario) (Some surface) presented (steeringOpsTrimmedText (steeringOpsField raw "expectedEvidence")) in
      match steeringOpsField raw "presented" with
      | None => inr (built None)
      | Some v =>
        if negb (bool_decide (text_of (Some v) = Some (presented_text PresentedNative))) then inl (at_ +:+ quoted ".presented must be ~native~")
        else if negb (bool_decide (surface = SurfaceDesktop)) then inl (at_ +:+ quoted ".presented ~native~ requires surface ~desktop~")
        else inr (built (Some PresentedNative))
      end
    end
  end.

Definition validate_add_work_phase (at_ : string) (raw : value) : string + SteerOp :=
  match text_field raw "id" with
  | Some id =>
    if negb (isLifecycleID id) then inl (at_ +:+ quoted ".id must be a short lowercase work-phase id, e.g. ~wp04-loop-criteria~")
    else match said raw "title" with
         | None => inl (at_ +:+ " is an add-work-phase without a title")
         | Some title =>
           let rawDependsOn := match steeringOpsField raw "dependsOn" with None | Some VNull => VList [] | Some v => v end in
           match steeringOpsStringList rawDependsOn with
           | None => inl (at_ +:+ ".dependsOn must be an array of non-empty work-phase ids")
           | Some dependsOn =>
             if bool_decide ("" ∈ dependsOn) then inl (at_ +:+ ".dependsOn must be an array of non-empty work-phase ids")
             else if negb (length (uniqueDependencyIDs dependsOn) =? length dependsOn)%nat then inl (at_ +:+ ".dependsOn must not contain duplicate ids")
             else inr (SteerOpAddWorkPhase id (Trim title) dependsOn)
           end
         end
  | None => inl (at_ +:+ quoted ".id must be a short lowercase work-phase id, e.g. ~wp04-loop-criteria~")
  end.

Definition validate_op (i : nat) (raw : value) : string + SteerOp :=
  let at_ := "ops[" +:+ itoa_nat i +:+ "]" in
  if negb (steeringOpsIsObject raw) then inl (at_ +:+ " must be an object")
  else match text_field raw "kind" with
       | None => inl (at_ +:+ ".kind must be a string")
       | Some kind =>
         if bool_decide (kind = "annotate") then validate_annotate at_ raw
         else if bool_decide (kind = "add-criterion") then validate_add_criterion at_ raw
         else if bool_decide (kind = "add-work-phase") then validate_add_work_phase at_ raw
         else inl (at_ +:+ ".kind " +:+ steeringOpsQuoted kind +:+ quoted " is not supported - use ~annotate~, ~add-criterion~, or ~add-work-phase~")
       end.

Fixpoint validate_ops (i : nat) (raws : list value) : string + list SteerOp :=
  match raws with
  | [] => inr []
  | raw :: rest =>
    match validate_op i raw with
    | inl reason => inl reason
    | inr op => match validate_ops (S i) rest with inl reason => inl reason | inr ops => inr (op :: ops) end
    end
  end.

Definition steeringOpsValidateBatch (batch : value) : string + SteerBatch :=
  match batch with
  | VMap _ =>
    match said batch "idempotencyKey", said batch "rationale", said batch "evidence" with
    | None, _, _ => inl "idempotencyKey is required and must be a non-empty string"
    | _, None, _ => inl "rationale is required and must be a non-empty string"
    | _, _, None => inl "evidence is required and must be a non-empty string"
    | Some key, Some rationale, Some evidence =>
      match steeringOpsField batch "ops" with
      | Some (VList ((_ :: _) as raws)) => match validate_ops 0 raws with inl reason => inl reason | inr ops => inr (mkBatch key rationale evidence ops) end
      | _ => inl "ops must be a non-empty array — a batch with nothing to do has nothing to record"
      end
    end
  | _ => inl "batch must be a JSON object"
  end.

(** ** The fold of a batch into a plan *)
Definition steeringOpsIntegrityReasons (candidate : Goalplan) : list string := (GoalplanDefinitionIntegrityReasons candidate ++ GoalplanDependencyCompletionReasons candidate)%list.

Definition steeringOpsCriterionNumber (id : string) : option float64 :=
  match id with
  | String "c" (String "-" (String _ _ as digits)) =>
    if forallb (in_range 48 57) (bytes_of_string digits) then Some (parse_float digits) else None
  | _ => None
  end.

(** [f + 1] of a float that is not negative. *)
Definition increment (f : float64) : float64 :=
  match f with Fin q => round64 (QArith_base.Qnum q + Z.pos (QArith_base.Qden q)) (Z.pos (QArith_base.Qden q)) | _ => f end.

Definition max_number (criteria : list GoalplanCriterion) : float64 :=
  foldl (λ maxID c, match steeringOpsCriterionNumber (CriterionID c) with Some (Fin q) => if fle (Fin q) maxID then maxID else Fin q | _ => maxID end) f0 criteria.

(** A clock's time, what the disk did to a write, and whether the caller is still there. *)
Inductive AppendOutcome : Type :=
| Appended
| NotAppended (err : string)      (* no row of the ledger is the row, though part of its text may be there *)
| AppendedUnsynced (err : string).  (* the row is there, and the call failed *)

Inductive WriteOutcome : Type :=
| Written
| PublishedUnsynced (err : string)
| NotWritten (err : string).

Record Disk : Type := mkDisk {
  clock : string;
  write_clock : string;
  appends : list AppendOutcome;
  plan_write : WriteOutcome;
  ledger_read : option string;
  ledger_sync : option string;
  ended_before_scan : option string;
  ended_before_write : option string
}.

Record GoalStore : Type := mkGoalStore { stored_plan : Goalplan; ledger : list GoalplanLedgerEntry }.

Inductive SteerResult : Type :=
| SteerResultApplied (plan : Goalplan) (entry : SteeringEntry) (warning : string)
| SteerResultDuplicate (entry : SteeringEntry) (warning : string)
| SteerResultRejected (entry : option SteeringEntry) (reason : string)
| SteerError (err : string).

Definition kind_text (op : SteerOp) : string :=
  match op with SteerOpAnnotate _ => "annotate" | SteerOpAddCriterion _ _ _ _ => "add-criterion" | SteerOpAddWorkPhase _ _ _ => "add-work-phase" end.

Definition steeringBatchSummary (ops : list SteerOp) : string := itoa_nat (length ops) +:+ " op(s): " +:+ join_sep ", " (kind_text <$> ops).

Definition steeringLedgerPathText (slug : string) : string := ".crw/goalplans/" +:+ slug +:+ "/ledger.jsonl".
Definition steeringLedgerWarning (slug err : string) : string :=
  "the batch was applied but its ledger entry could not be written to " +:+ steeringLedgerPathText slug +:+ " (" +:+ err +:+ "). " +:+
  "Re-running the same batch with the same key records the missing rows without applying it again.".
Definition steeringKeyReusedReason (entry : SteeringEntry) : string :=
  "idempotencyKey " +:+ steeringOpsQuoted (IdempotencyKey entry) +:+ " was already used at " +:+ AppliedAt entry +:+ " for a different batch - send different content under a new key".
Definition goalplanPublishedWarning (slug err : string) : string := "goalplan '" +:+ slug +:+ "' was published but its directory could not be synced: " +:+ err.

Definition steeringOpRecord (op : SteerOp) : SteeringOpRecord :=
  match op with
  | SteerOpAnnotate note => mkOpRecord "annotate" note "" "" "" "" "" "" None
  | SteerOpAddCriterion scenario surface presented expected =>
    mkOpRecord "add-criterion" "" scenario (from_option surface_text "" surface) (from_option presented_text "" presented) expected "" "" None
  | SteerOpAddWorkPhase id title dependsOn => mkOpRecord "add-work-phase" "" "" "" "" "" id title (if bool_decide (dependsOn = []) then None else Some dependsOn)
  end.
Definition steeringOpRecords (ops : list SteerOp) : list SteeringOpRecord := steeringOpRecord <$> ops.

(** The prerequisites of an op are compared as a set. *)
Definition sorted_record (op : SteeringOpRecord) : SteeringOpRecord :=
  mkOpRecord (RKind op) (RNote op) (RScenario op) (RSurface op) (RPresented op) (RExpectedEvidence op) (ROpID op) (RTitle op) (sort_by id <$> RDependsOn op).
Definition steeringSameBatch (entry : SteeringEntry) (batch : SteerBatch) : bool :=
  bool_decide (Rationale entry = BatchRationale batch) && bool_decide (SteeringEvidence entry = BatchEvidence batch) &&
  bool_decide ((sorted_record <$> SteeringOps entry) = (sorted_record <$> steeringOpRecords (BatchOps batch))).

(** What the ledger has of an entry's rows: the event ids of its rows, and the event and detail of a row of the entry's time with no id. *)
Definition steeringRecordedRows (rows : list GoalplanLedgerEntry) (slug ts : string) : list string * list (string * string) :=
  let own := filter (λ r, LedgerSlug r = slug) rows in
  (omap LedgerEventID own, (λ r, (LedgerEvent r, LedgerDetail r)) <$> filter (λ r, LedgerEventID r = None ∧ LedgerTs r = ts) own).

Definition has (recorded : list string * list (string * string)) (ev : SteeringEventRecord) : bool :=
  bool_decide (EventID ev ∈ recorded.1) || bool_decide ((Event ev, EventDetail ev) ∈ recorded.2).
Definition steeringOwesRows (entry : SteeringEntry) (recorded : list string * list (string * string)) : bool := existsb (λ ev, negb (has recorded ev)) (SteeringEvents entry).

Definition event_row (slug : string) (entry : SteeringEntry) (ev : SteeringEventRecord) : GoalplanLedgerEntry :=
  mkLedgerEntry (AppliedAt entry) slug (Event ev) (EventDetail ev) (Some (EventID ev)).

(** The rows an entry owes, appended in order; the first failure ends it with its error. *)
Fixpoint append_events (slug : string) (entry : SteeringEntry) (recorded : list string * list (string * string)) (evs : list SteeringEventRecord)
  (outcomes : list AppendOutcome) (rows : list GoalplanLedgerEntry) : list GoalplanLedgerEntry * option string :=
  match evs with
  | [] => (rows, None)
  | ev :: rest =>
    if has recorded ev then append_events slug entry recorded rest outcomes rows
    else match outcomes with
         | NotAppended err :: _ => (rows, Some err)
         | AppendedUnsynced err :: _ => ((rows ++ [event_row slug entry ev])%list, Some err)
         | Appended :: outcomes' => append_events slug entry recorded rest outcomes' (rows ++ [event_row slug entry ev])%list
         | [] => append_events slug entry recorded rest [] (rows ++ [event_row slug entry ev])%list
         end
  end.

Definition steeringRecordEvents (slug : string) (entry : SteeringEntry) (recorded : list string * list (string * string)) (disk : Disk) (rows : list GoalplanLedgerEntry) :
  list GoalplanLedgerEntry * string :=
  match append_events slug entry recorded (SteeringEvents entry) (appends disk) rows with
  | (rows', Some err) => (rows', steeringLedgerWarning slug err)
  | (rows', None) =>
    (rows', if existsb (has recorded) (SteeringEvents entry) then match ledger_sync disk with Some err => steeringLedgerWarning slug err | None => "" end else "")
  end.

Section steer.
Context (NumberString : float64 → string) (Quote : string → string).

Definition steeringOpsNextCriterionID (criteria : list GoalplanCriterion) : string := "c-" +:+ NumberString (increment (max_number criteria)).

(** [if len(reasons) > 0] after an addition *)
Definition if_whole (candidate : Goalplan) : string + Goalplan :=
  match steeringOpsIntegrityReasons candidate with [] => inr candidate | reasons => inl (join_sep "; " reasons) end.

Definition apply_op (plan : Goalplan) (op : SteerOp) : string + Goalplan :=
  match op with
  | SteerOpAnnotate _ => inr plan
  | SteerOpAddCriterion scenario surface presented expectedEvidence =>
    if bool_decide (scenario ∈ Scenario <$> Criteria plan) then inl ("a criterion with scenario " +:+ steeringOpsQuoted scenario +:+ " is already registered")
    else
      if_whole (with_criteria plan (Criteria plan ++
        [mkCriterion (steeringOpsNextCriterionID (Criteria plan)) scenario expectedEvidence None CriterionOpen (Some (default SurfaceLogic surface)) presented])%list)
  | SteerOpAddWorkPhase id title dependsOn =>
    if bool_decide (id ∈ PhaseID <$> WorkPhases plan) then inl ("work phase '" +:+ id +:+ "' is already in this plan")
    else if_whole (with_phases plan (WorkPhases plan ++ [mkPhase id title WorkPhasePending [] [] dependsOn [] None None])%list)
  end.

Fixpoint steeringOpsApplyOps (plan : Goalplan) (ops : list SteerOp) : string + Goalplan :=
  match ops with
  | [] => inr plan
  | op :: rest => match apply_op plan op with inl reason => inl reason | inr next => steeringOpsApplyOps next rest end
  end.

Fixpoint dependency_events (id : string) (i : nat) (ops : list SteerOp) : list SteeringEventRecord :=
  match ops with
  | [] => []
  | SteerOpAddWorkPhase phase _ ((_ :: _) as dependsOn) :: rest =>
    mkEvent (id +:+ ":op" +:+ itoa_nat i) "dependency_registered" (phase +:+ " dependsOn=" +:+ join_sep "," dependsOn) :: dependency_events id (S i) rest
  | _ :: rest => dependency_events id (S i) rest
  end.
Definition steeringEvents (key summary rationale : string) (ops : list SteerOp) : list SteeringEventRecord :=
  let id := "steer:" +:+ Quote key in
  mkEvent id "steered" (key +:+ ": " +:+ summary +:+ " — " +:+ rationale) :: dependency_events id 0 ops.

Definition new_entry (batch : SteerBatch) (now : string) : SteeringEntry :=
  let summary := steeringBatchSummary (BatchOps batch) in
  mkSteering (BatchKey batch) (BatchRationale batch) (BatchEvidence batch) now summary (steeringOpRecords (BatchOps batch))
    (steeringEvents (BatchKey batch) summary (BatchRationale batch) (BatchOps batch)).

(** The batch whose key the plan has. *)
Definition steer_again (slug : string) (store : GoalStore) (existing : SteeringEntry) (batch : SteerBatch) (disk : Disk) : GoalStore * SteerResult :=
  if bool_decide (SteeringOps existing = []) then (store, SteerResultDuplicate existing "")
  else if negb (steeringSameBatch existing batch) then (store, SteerResultRejected (Some existing) (steeringKeyReusedReason existing))
  else match ended_before_scan disk, ledger_read disk with
       | Some err, _ => (store, SteerError err)
       | None, Some err => (store, SteerResultDuplicate existing (steeringLedgerWarning slug err))
       | None, None =>
         let recorded := steeringRecordedRows (ledger store) slug (AppliedAt existing) in
         match (if steeringOwesRows existing recorded then ended_before_write disk else None) with
         | Some err => (store, SteerError err)
         | None =>
           let '(rows, warning) := steeringRecordEvents slug existing recorded disk (ledger store) in
           (mkGoalStore (stored_plan store) rows, SteerResultDuplicate existing warning)
         end
       end.

Definition steeringApplyLocked (slug : string) (store : GoalStore) (batch : SteerBatch) (disk : Disk) : GoalStore * SteerResult :=
  let plan := stored_plan store in
  match filter (λ e, IdempotencyKey e = BatchKey batch) (SteeringLog plan) with
  | existing :: _ => steer_again slug store existing batch disk
  | [] =>
    let entry := new_entry batch (clock disk) in
    match steeringOpsApplyOps plan (BatchOps batch) with
    | inl reason => (store, SteerResultRejected None reason)
    | inr applied =>
      let next := with_log applied (SteeringLog plan ++ [entry])%list in
      match ended_before_write disk, plan_write disk with
      | Some err, _ => (store, SteerError err)
      | None, NotWritten err => (store, SteerError err)
      | None, outcome =>
        let warning := match outcome with PublishedUnsynced err => goalplanPublishedWarning slug err | _ => "" end in
        let '(rows, rowWarning) := steeringRecordEvents slug entry ([], []) disk (ledger store) in
        (mkGoalStore (with_updated next (write_clock disk)) rows, SteerResultApplied next entry (if bool_decide (rowWarning = "") then warning else rowWarning))
      end
    end
  end.

(** What the goalplan write lock answered: it is held and the plan read, another holds it, or the plan cannot be read. *)
Inductive LockOutcome : Type :=
| LockHeld
| LockBusy (reason : string)
| PlanUnreadable (reason : string).

Inductive BatchResult : Type :=
| Steered (r : SteerResult)
| SteerResultLocked (reason : string).

Definition ApplySteeringBatch (slug : string) (store : GoalStore) (rawBatch : value) (lock : LockOutcome) (disk : Disk) : GoalStore * BatchResult :=
  match steeringOpsValidateBatch rawBatch with
  | inl reason => (store, Steered (SteerResultRejected None reason))
  | inr batch =>
    match lock with
    | LockBusy reason => (store, SteerResultLocked reason)
    | PlanUnreadable reason =>
      (store, Steered (SteerResultRejected None
        (if bool_decide (reason = "goalplan '" +:+ slug +:+ "' does not exist") then "no goalplan found at slug '" +:+ slug +:+ "'"
         else "goalplan at slug '" +:+ slug +:+ "' is unusable - " +:+ reason)))
    | LockHeld => let '(store', r) := steeringApplyLocked slug store batch disk in (store', Steered r)
    end
  end.
End steer.
