(* ===== verification/GoalGate.v ===== *)
(** * GoalGate: what certifies a goal plan complete (internal/pabcd/goalplan: validate.go, finalgate.go, the yield of query.go; internal/pabcd/source Compare).

    The callbacks of a validation context are functions of the context: each answers, fails or panics. What the file system says of the schema marker is an argument. *)
From S2P Require Import Prelude GoLib Sha256 Json Loads GoFloat JsText Attest Fsm GoPath GoalTypes GoalQuery GoalOps.
Local Open Scope string_scope.

(** ** internal/pabcd/source *)
Inductive Comparison : Type :=
| ComparisonSame
| ComparisonDifferent (detail : option string)
| ComparisonUnavailable.

Definition short (sha : string) : string := String.substring 0 7 sha.

Definition Compare (a b : SourceIdentity) : Comparison :=
  if bool_decide (Kind a = "unavailable") || bool_decide (Kind b = "unavailable") then ComparisonUnavailable
  else if negb (bool_decide (SourceRoot a = SourceRoot b)) then ComparisonDifferent (Some "source root changed or binding is missing")
  else if negb (bool_decide (CommitSha a = CommitSha b)) then ComparisonDifferent (Some ("commit " +:+ short (CommitSha a) +:+ " -> " +:+ short (CommitSha b)))
  else if Dirty a && negb (Dirty b) then ComparisonDifferent (Some "working tree went clean")
  else if negb (Bool.eqb (Dirty a) (Dirty b)) then ComparisonDifferent (Some "working tree went dirty")
  else if negb (bool_decide (default "" (TreeHash a) = default "" (TreeHash b))) then ComparisonDifferent (Some "uncommitted changes differ")
  else ComparisonSame.

(** ** The yield of a plan that waits for decisions (query.go) *)
Definition newer_schema (plan : Goalplan) : bool := match SchemaVersion plan with Some FNaN | None => false | Some v => negb (fle v SupportedMaxSchemaVersion) end.
Definition unevidenced (c : GoalplanCriterion) : bool :=
  bool_decide (CStatus c = CriterionMet) && match CapturedEvidence c with None => true | Some e => bool_decide (Trim e = "") end.

Definition queryStructuralValid (plan : Goalplan) : bool :=
  negb (newer_schema plan) && bool_decide (GoalplanDefinitionIntegrityReasons plan = []) && bool_decide (GoalplanDependencyCompletionReasons plan = []) &&
  negb (existsb unevidenced (Criteria plan)) &&
  forallb (λ p, negb (bool_decide (PStatus p = WorkPhaseDone)) || forallb (λ t, bool_decide (TStatus t = TaskDone)) (Tasks p)) (WorkPhases plan) &&
  bool_decide (supersededIntegrityReasons plan = []).

(** Whether an open decision accounts for a phase, through what it depends on. [fuel] is more than the ids of the plan. *)
Fixpoint waiting (fuel : nat) (plan : Goalplan) (byID : gmap string GoalplanWorkPhase) (visiting : list string) (p : GoalplanWorkPhase) : bool :=
  match fuel with
  | O => false
  | S fuel' =>
    (bool_decide (PStatus p = WorkPhasePending) || bool_decide (PStatus p = WorkPhaseInProgress)) &&
    (existsb (λ id, bool_decide (queryDecisionMatches plan id = (1, Some DecisionOpen))) (AwaitsDecision p) ||
     (negb (bool_decide (PhaseID p ∈ visiting)) &&
      existsb (λ id, match byID !! id with
                     | Some dependency => negb (bool_decide (PStatus dependency = WorkPhaseDone)) && waiting fuel' plan byID (PhaseID p :: visiting) dependency
                     | None => false
                     end) (DependsOn p)))
  end.

Definition RemainingWorkAwaitsDecisions (plan : Goalplan) : bool :=
  let remaining := RemainingWorkPhases plan in
  let byID := by_id ((λ p, (PhaseID p, p)) <$> WorkPhases plan) in
  queryStructuralValid plan && negb (bool_decide (remaining = [])) &&
  forallb (waiting (S (S (length (WorkPhases plan)))) plan byID []) remaining &&
  forallb (λ c, negb (bool_decide (CStatus c = CriterionOpen)) || existsb (λ p, bool_decide (CriterionID c ∈ CriteriaIDs p)) remaining) (Criteria plan).

(** ** finalgate.go *)
Inductive ReceiptKind : Type := ReceiptTest | ReceiptQA.
Record ArtifactDigest : Type := mkArtifact { ArtifactPath : string; ArtifactKind : string; CriterionIDs : list string }.
Record GoalplanReceiptEvidence : Type := mkReceipt { ReceiptSource : SourceIdentity; ArtifactManifest : list ArtifactDigest }.

Inductive receipt_answer : Type :=
| ReceiptRead (e : GoalplanReceiptEvidence)
| ReceiptUnusable (err : string)
| ReceiptPanicked (text : string).

Record GoalplanValidationCtx : Type := mkCtx {
  CaptureSourceIdentity : string + SourceIdentity;   (* [inl]: the text of a panic *)
  CompareSource : SourceIdentity → SourceIdentity → Comparison;
  ReadReceipt : string → ReceiptKind → receipt_answer;
  Marker : string + (string * bool)   (* SchemaMarkerPath: its error, or the path and whether the file is there *)
}.

Definition finalGateBaseName (p : string) : string := from_option id "" (last (split_on slash (string_of_bytes ((λ b, if (b =? 92)%Z then 47%Z else b) <$> bytes_of_string p)))).

Definition finalGateDesktopArtifactCriterionIDs (plan : Goalplan) : list string :=
  CriterionID <$> filter (λ c, Surface c = Some SurfaceDesktop ∧ Presented c ≠ Some PresentedNative) (Criteria plan).

Definition finalGateHasArtifactIdentityForCriterion (manifest : list ArtifactDigest) (criterionID : string) : bool :=
  existsb (λ e, bool_decide (ArtifactKind e = "artifact-identity") && bool_decide (finalGateBaseName (ArtifactPath e) = "artifact-identity.json") && bool_decide (criterionID ∈ CriterionIDs e)) manifest.

Definition find_round (plan : Goalplan) (id : string) : option ReviewRoundState := head (filter (λ r, RoundID r = id) (ReviewRounds plan)).

Definition round_named_reasons (round : ReviewRoundState) (g : FinalGateState) : list string :=
  ((if bool_decide (Purpose round = PurposeFinalGate) then []
    else ["review round " +:+ RoundID round +:+ quoted " has purpose ~" +:+ purpose_text (Purpose round) +:+ quoted "~ — a plan audit cannot stand in for the final code gate"]) ++
   (if bool_decide (RoundStatus round = ReviewApproved) then [] else ["review round " +:+ RoundID round +:+ " is " +:+ round_status_text (RoundStatus round) +:+ ", not approved"]) ++
   (match LaneVerdict (Lane round) with
    | None => ["review round " +:+ RoundID round +:+ " recorded no verdict"]
    | Some v => if bool_decide (Some v = GateVerdict g) then []
                else ["review round " +:+ RoundID round +:+ quoted " says ~" +:+ verdict_text v +:+ quoted "~ but the final gate says ~" +:+ from_option verdict_text "undefined" (GateVerdict g) +:+ quoted "~"]
    end))%list.

Definition finalGateRoundReasons (plan : Goalplan) (g : FinalGateState) : list string :=
  match ReviewRoundID g with
  | None | Some "" => ["final gate has no reviewRoundId — an approval must name the round that produced it"]
  | Some roundID =>
    match find_round plan roundID with
    | None => ["final gate names review round " +:+ roundID +:+ ", which is not in the plan"]
    | Some round => round_named_reasons round g
    end
  end.

(** A receipt's reasons, and the identity it names. *)
Definition slot_reasons (plan : Goalplan) (ctx : GoalplanValidationCtx) (label : string) (path : option string) (kind : ReceiptKind) : list string * list (string * SourceIdentity) :=
  match path with
  | None | Some "" => ([label +:+ " path is missing"], [])
  | Some path =>
    match ReadReceipt ctx path kind with
    | ReceiptPanicked text => ([label +:+ " could not be read: " +:+ text], [])
    | ReceiptUnusable err => ([label +:+ " is not usable: " +:+ err], [])
    | ReceiptRead evidence =>
      ((match kind with
        | ReceiptQA => (λ id, "the QA receipt artifactManifest has no artifact-identity.json entry for desktop criterion " +:+ id) <$>
            filter (λ id, finalGateHasArtifactIdentityForCriterion (ArtifactManifest evidence) id = false) (finalGateDesktopArtifactCriterionIDs plan)
        | ReceiptTest => []
        end), [(label, ReceiptSource evidence)])
    end
  end.

Definition identity_reason (ctx : GoalplanValidationCtx) (current : SourceIdentity) (entry : string * SourceIdentity) : list string :=
  match CompareSource ctx entry.2 current with
  | ComparisonSame => []
  | ComparisonDifferent detail => [entry.1 +:+ " describes a different source than the tree right now (" +:+ default "changed" detail +:+ ") — re-run the gate"]
  | ComparisonUnavailable => [entry.1 +:+ " cannot be compared because git could not resolve the source identity — a schemaVersion 2 plan cannot be certified without git; use the v1 flow instead"]
  end.

Definition finalGateIdentityReasons (plan : Goalplan) (g : FinalGateState) (ctx : GoalplanValidationCtx) : list string :=
  match CaptureSourceIdentity ctx with
  | inl text => ["could not capture the current source identity: " +:+ text]
  | inr current =>
    let own := match GateSourceIdentity g with Some i => [("the final gate", i)] | None => [] end in
    let reviewer := match (id ← ReviewRoundID g; r ← find_round plan id; LaneSourceIdentity (Lane r)) with Some i => [("the reviewer", i)] | None => [] end in
    let test := slot_reasons plan ctx "the test receipt" (TestReceiptPath g) ReceiptTest in
    let qa := if QaRequired g then slot_reasons plan ctx "the QA receipt" (QaReceiptPath g) ReceiptQA else ([], []) in
    ((match GateSourceIdentity g with None => ["final gate has no sourceIdentity — an approval must record the tree it approved"] | Some _ => [] end) ++
     test.1 ++ qa.1 ++ ((own ++ reviewer ++ test.2 ++ qa.2) ≫= identity_reason ctx current))%list
  end.

Definition bool_text (b : bool) : string := if b then "true" else "false".

Section validate.
Context (NumberString : float64 → string).

Definition gate_reasons (plan : Goalplan) (ctx : GoalplanValidationCtx) (version : float64) : list string :=
  let surfaces := (λ c, "criterion " +:+ CriterionID c +:+ quoted " has no valid surface (~logic~ | ~web~ | ~tui~ | ~desktop~) — schemaVersion 2 requires it, since an unclassified criterion would silently escape the QA requirement") <$>
    filter (λ c, Surface c = None) (Criteria plan) in
  match FinalGate plan with
  | None => (surfaces ++ ["schemaVersion " +:+ NumberString version +:+ " requires an approved finalGate, and no command in this build opens a final-gate review round - either record the gate another way or declare schemaVersion 1, which new plans now use by default"])%list
  | Some g =>
    (surfaces ++
     (if bool_decide (GateStatus g = GateApproved) then [] else ["final gate is " +:+ gate_status_text (GateStatus g) +:+ ", not approved — close the gate before completing the goal"]) ++
     (if bool_decide (GateVerdict g = Some VerdictFail) then ["final gate verdict is fail"] else []) ++
     (if Bool.eqb (ComputeQaRequired plan) (QaRequired g) then []
      else ["final gate recorded qaRequired=" +:+ bool_text (QaRequired g) +:+ " but the plan now scans as " +:+ bool_text (ComputeQaRequired plan) +:+ " — criteria changed after the gate opened, so re-open it"]) ++
     finalGateRoundReasons plan g ++ finalGateIdentityReasons plan g ctx)%list
  end.

Definition below_two (f : float64) : bool := match f with FNaN => false | _ => negb (fle (Fin (QArith_base.inject_Z 2)) f) end.

Definition finalGateReasons (plan : Goalplan) (ctx : option GoalplanValidationCtx) : list string :=
  match ctx with
  | None =>
    if below_two (EffectiveSchemaVersion plan false) then []
    else ["this plan is schemaVersion >= 2 but validateGoalplan was called without a validation context, so the final gate could not be checked — this is a refusal, not a pass"]
  | Some ctx =>
    match Marker ctx with
    | inl err => ["the schema-v2 marker of this plan could not be checked: " +:+ err +:+ " — this is a refusal, not a pass"]
    | inr (markerPath, markerPresent) =>
      let version := EffectiveSchemaVersion plan markerPresent in
      if below_two version then []
      else if markerPresent && below_two (default f1 (SchemaVersion plan)) then
        ["this plan was promoted to schemaVersion 2 (" +:+ markerPath +:+ " exists) but the plan file declares " +:+ from_option NumberString "none" (SchemaVersion plan) +:+
         quoted " — restore ~schemaVersion~: 2 instead of downgrading"]
      else gate_reasons plan ctx version
    end
  end.

(** ** validate.go *)
Definition evidence_reasons (plan : Goalplan) : list string :=
  (λ c, "criterion " +:+ CriterionID c +:+ " marked met but has no captured evidence") <$> filter (λ c, unevidenced c = true) (Criteria plan).

Definition remaining_reasons (plan : Goalplan) : list string :=
  match RemainingWorkPhases plan with [] => [] | remaining => [itoa_nat (length remaining) +:+ " work phase(s) not done: " +:+ join_sep ", " (PhaseID <$> remaining)] end.
Definition open_task_reasons (plan : Goalplan) : list string :=
  (λ p, "work phase " +:+ PhaseID p +:+ " is marked done but still has open task(s): " +:+ join_sep ", " (TaskID <$> filter (λ t, TStatus t ≠ TaskDone) (Tasks p))) <$>
    DoneWorkPhasesWithPendingTasks plan.
Definition unmet_reasons (plan : Goalplan) : list string :=
  match UnmetCriteria plan with [] => [] | unmet => [itoa_nat (length unmet) +:+ " unmet criterion/criteria: " +:+ join_sep ", " (CriterionID <$> unmet)] end.

(** The reasons; the plan is certified when there are none. *)
Definition ValidateGoalplan (plan : Goalplan) (ctx : option GoalplanValidationCtx) : list string :=
  if newer_schema plan then
    ["schemaVersion " +:+ from_option NumberString "" (SchemaVersion plan) +:+ " is newer than this build supports (max 3) - upgrade crw before validating this plan"]
  else
    (GoalplanDefinitionIntegrityReasons plan ++ GoalplanDependencyCompletionReasons plan ++
     (if bool_decide (WorkPhases plan = []) && bool_decide (Criteria plan = [])
      then ["plan is empty: no workPhases[] and no criteria[] registered — fill the goalplan (schema in $crw-continue) before the E8 gate can certify completion"] else []) ++
     evidence_reasons plan ++ remaining_reasons plan ++ open_task_reasons plan ++ unmet_reasons plan ++ supersededIntegrityReasons plan ++ finalGateReasons plan ctx)%list.

Definition ValidateGoalplanStructuralReasons (plan : Goalplan) : list string :=
  ((if newer_schema plan then ["schemaVersion " +:+ from_option NumberString "" (SchemaVersion plan) +:+ " is newer than this build supports"] else []) ++
   GoalplanDefinitionIntegrityReasons plan ++ GoalplanDependencyCompletionReasons plan ++ evidence_reasons plan ++
   ((λ p, "work phase " +:+ PhaseID p +:+ " is marked done but still has open task(s)") <$> DoneWorkPhasesWithPendingTasks plan) ++ supersededIntegrityReasons plan)%list.
End validate.
