(* ===== verification/GoalSound.v ===== *)
(** * GoalSound: what a sound goal plan is: its dependencies have no cycle, its references resolve, nothing is done ahead of what it waits for; and what the checks say of it. *)
From S2P Require Import Prelude GoLib Sha256 Json Loads GoFloat GoPath JsText Attest Fsm GoalTypes GoalQuery GoalOps GoalGate.
Local Open Scope string_scope.
(** [x] depends on the node [y]. *)
Definition depends (byID : gmap string (list string)) (x y : string) : Prop := ∃ deps, byID !! x = Some deps ∧ y ∈ deps ∧ is_Some (byID !! y).

Definition linked {A} (R : A → A → Prop) (l : list A) : Prop := ∀ i x y, l !! i = Some x → l !! S i = Some y → R x y.

(** A chain that comes back to where it starts. *)
Definition closed_chain {A} (R : A → A → Prop) (c : list A) : Prop := ∃ x mid, c = (x :: mid ++ [x])%list ∧ linked R c.

Definition acyclic {A} (R : A → A → Prop) : Prop := ∀ x, ¬ tc R x x.

Section linked.
Context {A : Type} (R : A → A → Prop).

Lemma linked_drop l n : linked R l → linked R (drop n l).
Proof. intros H i x y Hx Hy. rewrite lookup_drop in Hx, Hy. rewrite Nat.add_succ_r in Hy. eauto. Qed.

Lemma linked_snoc l y : linked R l → (∀ x, last l = Some x → R x y) → linked R (l ++ [y])%list.
Proof.
  intros Hl Hlast i a b Ha Hb. apply lookup_app_Some in Hb as [Hb|[Hlen Hb]].
  - apply lookup_app_Some in Ha as [Ha|[Hn _]]; [eauto|]. apply lookup_lt_Some in Hb. lia.
  - destruct (S i - length l)%nat eqn:E; [|done]. injection Hb as <-. apply Hlast. rewrite last_lookup.
    apply lookup_app_Some in Ha as [Ha|[Hn Ha]]; [|lia]. by replace (pred (length l)) with i by lia.
Qed.

Lemma linked_tc x l y : linked R (x :: l ++ [y])%list → tc R x y.
Proof.
  revert x. induction l as [|z l IH]; intros x H; [apply tc_once; by apply (H 0)|].
  apply tc_l with z; [by apply (H 0)|]. apply IH. apply (linked_drop _ 1 H).
Qed.

Lemma closed_chain_tc c : closed_chain R c → ∃ x, tc R x x.
Proof. intros (x & mid & -> & H). exists x. by apply linked_tc with mid. Qed.

Lemma acc_no_cycle x : Acc (flip R) x → ¬ tc R x x.
Proof.
  induction 1 as [x _ IH]. intros Hx. inversion Hx as [? ? Hxx|? y ? Hxy Hyx]; subst; [by apply (IH x)|].
  apply (IH y Hxy). eapply tc_r; eauto.
Qed.
End linked.

(** ** The walk *)
Section walk.
Context (byID : gmap string (list string)).
Notation R := (depends byID).
Notation ids := (sorted_keys byID).

(** The ids that are settled. *)
Definition settled (visited : gset string) : Prop := ∀ v, v ∈ visited → Acc (flip R) v.

(** The stack of a walk that is about to visit [id]. *)
Definition on_stack (stack : list string) (id : string) : Prop :=
  NoDup stack ∧ Forall (λ x, is_Some (byID !! x)) stack ∧ linked R stack ∧ is_Some (byID !! id) ∧ (∀ x, last stack = Some x → R x id).

Definition walked (visited : gset string) (out : list string + gset string) (met : list string) : Prop :=
  match out with
  | inl cycle => closed_chain R cycle
  | inr visited' => visited ⊆ visited' ∧ settled visited' ∧ ∀ id, id ∈ met → is_Some (byID !! id) → id ∈ visited'
  end.

Lemma on_stack_short stack id : on_stack stack id → (length stack ≤ length ids)%nat.
Proof. intros (Hn & Hk & _). apply submseteq_length, NoDup_submseteq; [done|]. intros x Hx. apply elem_of_sorted_keys. by eapply Forall_forall in Hk. Qed.

Lemma on_stack_push stack id dep : on_stack stack id → id ∉ stack → dep ∈ default [] (byID !! id) → is_Some (byID !! dep) → on_stack (stack ++ [id])%list dep.
Proof.
  intros (Hn & Hk & Hl & Hid & Hlast) Hnot Hdep Hkey. split_and!; [|by apply Forall_app; split; [|constructor]|by apply linked_snoc|done|].
  - apply NoDup_app. split_and!; [done| |apply NoDup_singleton]. by intros x Hx ->%list_elem_of_singleton.
  - intros x. rewrite last_snoc. intros [= <-]. destruct Hid as [deps Hdeps]. exists deps. by rewrite Hdeps in Hdep.
Qed.

Lemma stack_cycle stack id i x : on_stack stack id → list_find (λ y, y = id) stack = Some (i, x) → closed_chain R (drop i stack ++ [id])%list.
Proof.
  intros (Hn & Hk & Hl & Hid & Hlast) (Hi & -> & _)%list_find_Some. exists id, (drop (S i) stack). rewrite (drop_S _ _ _ Hi). split; [done|].
  rewrite <- (drop_S _ _ _ Hi). apply linked_snoc; [by apply linked_drop|]. intros y Hy. apply Hlast. rewrite last_lookup, lookup_drop, length_drop in Hy.
  rewrite last_lookup. apply lookup_lt_Some in Hi. by replace (pred (length stack)) with (i + pred (length stack - i))%nat by lia.
Qed.

(** A loop over ids, each visited when it is a node, ends with all of them settled or with a cycle. *)
Lemma fold_walked (f : gset string → string → list string + gset string) l visited met :
  (∀ v id, id ∈ l → settled v → walked v (f v id) [id]) → settled visited → (∀ id, id ∈ met → is_Some (byID !! id) → id ∈ visited) →
  walked visited (foldl (λ acc id, match acc with inl cycle => inl cycle | inr v => f v id end) (inr visited) l) (met ++ l)%list.
Proof.
  revert visited met. induction l as [|id l IH]; intros visited met Hf Hs Hm; simpl; [by rewrite app_nil_r|].
  pose proof (Hf visited id ltac:(left) Hs) as Hone. destruct (f visited id) as [c|v].
  - simpl in Hone. clear -Hone. assert (∀ l : list string, foldl (λ acc id, match acc with inl cycle => inl cycle | inr v => f v id end) (inl c) l = inl c) as -> by (intros k; by induction k). done.
  - destruct Hone as (Hsub & Hv & Hid). rewrite cons_middle, app_assoc.
    assert (walked v (foldl (λ acc id, match acc with inl cycle => inl cycle | inr v => f v id end) (inr v) l) ((met ++ [id]) ++ l)%list) as Hw.
    { apply IH; [intros; apply Hf; [by right|done]|done|]. intros x [Hx|Hx]%elem_of_app Hk; eauto. }
    revert Hw. unfold walked. destruct foldl; [done|]. intros (? & ? & ?). split_and!; [by etrans|done|done].
Qed.

Lemma visit_walked fuel : ∀ stack visited id, on_stack stack id → settled visited → (fuel + length stack = S (length ids))%nat →
  walked visited (visit fuel byID stack visited id) [id].
Proof.
  induction fuel as [|fuel IH]; intros stack visited id Hst Hs Hfuel; [apply on_stack_short in Hst; lia|].
  simpl. destruct (list_find _ stack) as [[i x]|] eqn:Hfind; [by apply stack_cycle with x|].
  assert (id ∉ stack) as Hnot by (intros Hin; apply list_find_None in Hfind; eapply Forall_forall in Hfind; eauto).
  case_bool_decide as Hvis; [by split_and!; [| |intros ? ->%list_elem_of_singleton]|].
  unshelve epose proof (fold_walked (λ v dep, if bool_decide (is_Some (byID !! dep)) then visit fuel byID (stack ++ [id])%list v dep else inr v)
    (sortedDependencyIDs (default [] (byID !! id))) visited [] _ _ _) as Hfold.
  - intros v dep Hdep Hv. cbv beta. case_bool_decide as Hkey; [|by split_and!; [| |intros ? ->%list_elem_of_singleton]].
    apply IH; [|done|rewrite length_app; simpl; lia]. apply on_stack_push; [done|done| |done]. by apply elem_of_sort_by in Hdep.
  - done.
  - by intros ? ?%not_elem_of_nil.
  - revert Hfold. destruct foldl as [c|v]; [done|]. intros (Hsub & Hv & Hall).
    assert (Acc (flip R) id) as Hacc.
    { constructor. intros y (deps & Hdeps & Hy & Hkey). apply Hv, Hall; [|done]. simpl. apply elem_of_sort_by. by rewrite Hdeps. }
    split_and!; [set_solver| |intros ? ->%list_elem_of_singleton; set_solver].
    intros y [->%elem_of_singleton|Hy]%elem_of_union; auto.
Qed.
End walk.

(** The search ends with a chain that is closed, or every node is settled. *)
Lemma search_walked nodes :
  match findDependencyCycle nodes with
  | Some cycle => closed_chain (depends (by_id nodes)) cycle
  | None => ∀ id, is_Some (by_id nodes !! id) → Acc (flip (depends (by_id nodes))) id
  end.
Proof.
  unfold findDependencyCycle. set (byID := by_id nodes). set (ids := sortedDependencyIDs (sorted_keys byID)).
  assert (length ids = length (sorted_keys byID)) as Hlen by apply length_sort_by.
  unshelve epose proof (fold_walked byID (λ v id, visit (S (length ids)) byID [] v id) ids ∅ [] _ _ _) as Hfold.
  - intros v id Hid Hv. apply visit_walked; [|done|simpl; lia]. apply elem_of_sort_by, elem_of_sorted_keys in Hid.
    split_and!; [constructor|done|by intros ? ? ?|done|done].
  - by intros ? ?%not_elem_of_empty.
  - by intros ? ?%not_elem_of_nil.
  - revert Hfold. destruct foldl as [c|v]; [done|]. intros (_ & Hv & Hall) id Hid. apply Hv, Hall; [|done]. simpl. by apply elem_of_sort_by, elem_of_sorted_keys.
Qed.

Lemma findDependencyCycle_None nodes : findDependencyCycle nodes = None ↔ acyclic (depends (by_id nodes)).
Proof.
  pose proof (search_walked nodes) as H. destruct findDependencyCycle as [c|].
  - split; [done|]. intros Hac. by apply closed_chain_tc in H as [x Hx%Hac].
  - split; [|done]. intros _ x Hx. refine (acc_no_cycle _ _ (H x _) Hx). clear H. by inversion Hx as [? ? (d & Hd & _)|? ? ? (d & Hd & _)]; subst; exists d.
Qed.

(** * What the integrity checks of a goal plan decide.

    A plan is sound when its ids name one record each, its references are to records of the plan, nothing waits for itself, and what is done had what it waits for. The checks have no reason
    to give exactly when the plan is sound. *)
(** ** Soundness *)
Definition phase_edge (plan : Goalplan) (x y : string) : Prop := ∃ p, p ∈ WorkPhases plan ∧ PhaseID p = x ∧ y ∈ DependsOn p.
Definition task_edge (phase : GoalplanWorkPhase) (x y : string) : Prop := ∃ t, t ∈ Tasks phase ∧ TaskID t = x ∧ y ∈ TaskDependsOn t.

(** Schema 3 keeps the outcome of a done task, and of no other. *)
Definition outcome_kept (plan : Goalplan) (t : GoalplanTask) : Prop :=
  fle (Fin (QArith_base.inject_Z 3)) (EffectiveSchemaVersion plan false) = true →
  match TStatus t with TaskDone => Trim (Outcome t) ≠ "" | TaskPending => Outcome t = "" end.

Record phase_sound (plan : Goalplan) (p : GoalplanWorkPhase) : Prop := mkPhaseSound {
  awaits_once : NoDup (AwaitsDecision p);
  awaits_known : ∀ id, id ∈ AwaitsDecision p → ∃ d, d ∈ Decisions plan ∧ DecisionID d = id ∧ (PStatus p = WorkPhaseDone → DStatus d = DecisionDecided);
  depends_known : ∀ id, id ∈ DependsOn p → id ≠ PhaseID p ∧ id ∈ PhaseID <$> WorkPhases plan;
  tasks_once : NoDup (TaskID <$> Tasks p);
  task_depends_known : ∀ t id, t ∈ Tasks p → id ∈ TaskDependsOn t → id ≠ TaskID t ∧ id ∈ TaskID <$> Tasks p;
  tasks_acyclic : acyclic (task_edge p);
  outcomes_kept : ∀ t, t ∈ Tasks p → outcome_kept plan t;
  criteria_known : ∀ id, id ∈ CriteriaIDs p → id ∈ CriterionID <$> Criteria plan
}.

Record definition_sound (plan : Goalplan) : Prop := mkDefinitionSound {
  phases_once : NoDup (PhaseID <$> WorkPhases plan);
  decisions_once : NoDup (DecisionID <$> Decisions plan);
  criteria_once : NoDup (CriterionID <$> Criteria plan);
  phases_sound : ∀ p, p ∈ WorkPhases plan → phase_sound plan p;
  phases_acyclic : acyclic (phase_edge plan)
}.

(** What is done had what it depends on. *)
Definition phase_earned (plan : Goalplan) (p : GoalplanWorkPhase) : Prop :=
  PStatus p = WorkPhaseDone → ∀ id, id ∈ DependsOn p → ∃ q, q ∈ WorkPhases plan ∧ PhaseID q = id ∧ PStatus q = WorkPhaseDone.
Definition task_earned (p : GoalplanWorkPhase) (t : GoalplanTask) : Prop :=
  TStatus t = TaskDone → ∀ id, id ∈ TaskDependsOn t → ∃ u, u ∈ Tasks p ∧ TaskID u = id ∧ TStatus u = TaskDone.
Definition completion_sound (plan : Goalplan) : Prop := ∀ p, p ∈ WorkPhases plan → phase_earned plan p ∧ ∀ t, t ∈ Tasks p → task_earned p t.

(** A superseded phase names a live one. *)
Definition replaced (plan : Goalplan) (p : GoalplanWorkPhase) : Prop :=
  PStatus p = WorkPhaseSuperseded →
  ∃ by_ q, SupersededBy p = Some by_ ∧ Trim by_ ≠ "" ∧ by_ ≠ PhaseID p ∧ q ∈ WorkPhases plan ∧ PhaseID q = by_ ∧ PStatus q ≠ WorkPhaseSuperseded.

Definition evidenced (c : GoalplanCriterion) : Prop := CStatus c = CriterionMet → ∃ e, CapturedEvidence c = Some e ∧ Trim e ≠ "".
Definition all_tasks_done (p : GoalplanWorkPhase) : Prop := ∀ t, t ∈ Tasks p → TStatus t = TaskDone.

Record plan_sound (plan : Goalplan) : Prop := mkPlanSound {
  schema_known : newer_schema plan = false;
  definitions : definition_sound plan;
  completion : completion_sound plan;
  evidence_kept : ∀ c, c ∈ Criteria plan → evidenced c;
  done_tasks : ∀ p, p ∈ WorkPhases plan → PStatus p = WorkPhaseDone → all_tasks_done p;
  superseded_replaced : ∀ p, p ∈ WorkPhases plan → replaced plan p
}.

(** ** Lists without reasons *)
Lemma bind_nil_iff {A B} (f : A → list B) l : l ≫= f = [] ↔ ∀ x, x ∈ l → f x = [].
Proof.
  induction l as [|x l IH]; csimpl; [split; [by intros _ ? ?%not_elem_of_nil|done]|]. rewrite app_nil, IH. split.
  - intros [? ?] y [->|?]%elem_of_cons; auto.
  - intros H. split; [apply H; by left|]. intros y Hy. apply H. by right.
Qed.

Lemma elem_of_unique_from seen l x : x ∈ unique_from seen l ↔ x ∈ l ∧ x ∉ seen.
Proof.
  revert seen. induction l as [|y l IH]; intros seen; simpl; [split; [by intros ?%not_elem_of_nil|by intros [?%not_elem_of_nil _]]|].
  case_bool_decide; [rewrite IH; set_solver|]. rewrite !elem_of_cons, IH. destruct (decide (x = y)) as [->|]; set_solver.
Qed.

Lemma elem_of_unique l x : x ∈ uniqueDependencyIDs l ↔ x ∈ l.
Proof. unfold uniqueDependencyIDs. rewrite elem_of_unique_from. set_solver. Qed.

Lemma repeated_nil seen repeated l : (∀ x, x ∈ repeated → x ∈ seen) → (∀ x, x ∈ l → x ∉ repeated) →
  repeated_from seen repeated l = [] ↔ NoDup l ∧ ∀ x, x ∈ l → x ∉ seen.
Proof.
  revert seen. induction l as [|y l IH]; intros seen Hr Hl; simpl; [split; [split; [constructor|by intros ? ?%not_elem_of_nil]|done]|].
  rewrite (bool_decide_eq_false_2 (y ∈ repeated)) by (apply Hl; left). rewrite andb_true_r. case_bool_decide as Hs.
  - split; [done|]. intros [_ H]. exfalso. by apply (H y); [left|].
  - rewrite IH, NoDup_cons; [set_solver|set_solver|set_solver].
Qed.

Lemma duplicateIDs_nil l : duplicateIDs l = [] ↔ NoDup l.
Proof.
  unfold duplicateIDs, sortedDependencyIDs. assert (∀ k : list string, sort_by utf16_key k = [] ↔ k = []) as ->.
  { intros k. split; [|by intros ->]. intros H%(f_equal length). rewrite length_sort_by in H. by apply length_zero_iff_nil in H. }
  rewrite repeated_nil; [|set_solver|set_solver]. split; [by intros [? _]|]. intros H. split; [done|]. set_solver.
Qed.

Lemma fmap_nil_iff {A B} (f : A → B) l : f <$> l = [] ↔ l = [].
Proof. by destruct l. Qed.

(** ** Records under a key that names one *)
Section keyed.
Context {A B : Type} (key : A → string) (val : A → B).

Lemma keyed_unique l x y : NoDup (key <$> l) → x ∈ l → y ∈ l → key x = key y → x = y.
Proof.
  induction l as [|z l IH]; csimpl; [by intros _ ?%not_elem_of_nil|]. intros [Hz Hn]%NoDup_cons [->|Hx]%elem_of_cons [->|Hy]%elem_of_cons He; [done| | |by apply IH].
  - destruct Hz. rewrite He. by apply list_elem_of_fmap_2.
  - destruct Hz. rewrite <- He. by apply list_elem_of_fmap_2.
Qed.

Lemma find_keyed l k x : NoDup (key <$> l) → head (filter (λ y, key y = k) l) = Some x ↔ x ∈ l ∧ key x = k.
Proof.
  intros Hn. split.
  - intros H%head_Some_elem_of. by apply list_elem_of_filter in H as [? ?].
  - intros [Hx Hk]. destruct (filter _ l) as [|y f] eqn:E.
    + exfalso. eapply filter_nil_iff in E; [|exact Hx]. done.
    + simpl. f_equal. assert (y ∈ filter (λ y, key y = k) l) as Hy by (rewrite E; left). apply list_elem_of_filter in Hy as [Hky Hy].
      apply (keyed_unique l); [done|done|done|by rewrite Hk].
Qed.

Lemma by_id_snoc {C} (l : list (string * C)) k v : by_id (l ++ [(k, v)])%list = <[k := v]> (by_id l).
Proof. unfold by_id. by rewrite foldl_app. Qed.

Lemma by_id_is_Some {C} (l : list (string * C)) k : is_Some (by_id l !! k) ↔ k ∈ l.*1.
Proof.
  induction l as [|[j v] l IH] using rev_ind; [unfold by_id; simpl; rewrite lookup_empty; split; [by intros []|by intros ?%not_elem_of_nil]|].
  rewrite by_id_snoc, fmap_app, lookup_insert_is_Some, IH, elem_of_app. cbn [fmap list_fmap fst]. rewrite list_elem_of_singleton. destruct (decide (k = j)); naive_solver.
Qed.

Lemma by_id_keyed l k v : NoDup (key <$> l) → by_id ((λ x, (key x, val x)) <$> l) !! k = Some v ↔ ∃ x, x ∈ l ∧ key x = k ∧ val x = v.
Proof.
  induction l as [|y l IH] using rev_ind; [unfold by_id; simpl; rewrite lookup_empty; split; [done|by intros (? & ?%not_elem_of_nil & _)]|].
  rewrite !fmap_app. intros (Hn & Hd & _)%NoDup_app. simpl. rewrite by_id_snoc. destruct (decide (key y = k)) as [<-|Hk].
  - rewrite lookup_insert_eq. split; [intros [= <-]; exists y; split_and!; [apply elem_of_app; right; left|done|done]|]. intros (x & [Hx| ->%list_elem_of_singleton]%elem_of_app & He & <-); [|done].
    exfalso. apply (Hd (key y)); [rewrite <- He; by apply list_elem_of_fmap_2|left].
  - rewrite lookup_insert_ne, IH by done. split; intros (x & Hx & He & Hv); exists x; [split_and!; [apply elem_of_app; by left|done|done]|].
    apply elem_of_app in Hx as [?| ->%list_elem_of_singleton]; [done|congruence].
Qed.
End keyed.

(** ** The definition checks *)
Lemma cycle_reason_nil prefix nodes : cycle_reason prefix nodes = [] ↔ acyclic (depends (by_id nodes)).
Proof. rewrite <- findDependencyCycle_None. unfold cycle_reason. by destruct findDependencyCycle. Qed.

Lemma acyclic_ext {A} (R S : A → A → Prop) : (∀ x y, R x y ↔ S x y) → acyclic R ↔ acyclic S.
Proof. intros H. split; intros Hac x Hx; apply (Hac x); revert Hx; apply tc_congruence with (f := id); intros ? ?; apply H. Qed.

(** The nodes that the search is given have the edges of the references, when these are to other records of the list. *)
Lemma depends_keyed {A} (key : A → string) (deps : A → list string) l x y :
  NoDup (key <$> l) → (∀ a id, a ∈ l → id ∈ deps a → id ≠ key a ∧ id ∈ key <$> l) →
  depends (by_id ((λ a, (key a, withoutSelfDependency (key a) (deps a))) <$> l)) x y ↔ ∃ a, a ∈ l ∧ key a = x ∧ y ∈ deps a.
Proof.
  intros Hn Hk. unfold depends, withoutSelfDependency. split.
  - intros (ds & Hds & Hy & _). apply (by_id_keyed key (λ a, filter (λ d, d ≠ key a) (deps a))) in Hds as (a & Ha & Hx & <-); [|done].
    exists a. split_and!; [done|done|]. by apply list_elem_of_filter in Hy as [_ Hy].
  - intros (a & Ha & <- & Hy). destruct (Hk a y Ha Hy) as [Hne Hin]. exists (filter (λ d, d ≠ key a) (deps a)). split_and!; [|by apply list_elem_of_filter|apply by_id_is_Some; by rewrite <- list_fmap_compose].
    apply (by_id_keyed key (λ a, filter (λ d, d ≠ key a) (deps a))); [done|eauto].
Qed.

Lemma reference_reasons_nil (self : string) (known ids : list string) (f g : string → string) :
  (uniqueDependencyIDs ids ≫= λ id, if bool_decide (id = self) then [f id] else if bool_decide (id ∈ known) then [] else [g id]) = [] ↔
  ∀ id, id ∈ ids → id ≠ self ∧ id ∈ known.
Proof.
  rewrite bind_nil_iff. split; intros H id Hid.
  - specialize (H id (proj2 (elem_of_unique _ _) Hid)). cbv beta in H. by repeat case_bool_decide.
  - destruct (H id (proj1 (elem_of_unique _ _) Hid)). by rewrite bool_decide_eq_false_2, bool_decide_eq_true_2.
Qed.

Lemma awaits_reasons_nil plan p : NoDup (DecisionID <$> Decisions plan) → awaits_reasons plan p = [] ↔
  NoDup (AwaitsDecision p) ∧ ∀ id, id ∈ AwaitsDecision p → ∃ d, d ∈ Decisions plan ∧ DecisionID d = id ∧ (PStatus p = WorkPhaseDone → DStatus d = DecisionDecided).
Proof.
  intros Hn. unfold awaits_reasons. rewrite app_nil, fmap_nil_iff, duplicateIDs_nil, bind_nil_iff. apply and_iff_compat_l. split; intros H id Hid.
  - specialize (H id (proj2 (elem_of_unique _ _) Hid)). destruct (decision_status plan !! id) as [st|] eqn:E; [|done].
    apply (by_id_keyed DecisionID DStatus) in E as (d & Hd & He & <-); [|done]. exists d. split_and!; [done|done|]. intros Hp.
    rewrite (bool_decide_eq_true_2 _ Hp) in H. case_bool_decide; [done|]. by destruct (DStatus d).
  - destruct (H id (proj1 (elem_of_unique _ _) Hid)) as (d & Hd & He & Hdone).
    assert (decision_status plan !! id = Some (DStatus d)) as -> by (apply (by_id_keyed DecisionID DStatus); eauto).
    case_bool_decide as Hp; [|done]. by rewrite (Hdone Hp).
Qed.

Lemma outcome_reasons_nil plan p t : outcome_reasons plan p t = [] ↔ match TStatus t with TaskDone => Trim (Outcome t) ≠ "" | TaskPending => Outcome t = "" end.
Proof.
  unfold outcome_reasons. rewrite app_nil. destruct (TStatus t); simpl.
  - destruct (decide (Outcome t = "")) as [->|He]; [done|]. rewrite (bool_decide_eq_false_2 _ He). naive_solver.
  - case_bool_decide; naive_solver.
Qed.

Lemma phase_reasons_nil plan p : phase_reasons plan p = [] ↔
  (∀ id, id ∈ DependsOn p → id ≠ PhaseID p ∧ id ∈ PhaseID <$> WorkPhases plan) ∧ NoDup (TaskID <$> Tasks p) ∧
  (∀ t id, t ∈ Tasks p → id ∈ TaskDependsOn t → id ≠ TaskID t ∧ id ∈ TaskID <$> Tasks p) ∧ acyclic (task_edge p) ∧ (∀ t, t ∈ Tasks p → outcome_kept plan t).
Proof.
  unfold phase_reasons. rewrite !app_nil, fmap_nil_iff, duplicateIDs_nil, cycle_reason_nil. unfold phase_reference_reasons. rewrite reference_reasons_nil.
  apply and_iff_compat_l. split.
  - intros (Hn & Ht & Hc & Ho). rewrite bind_nil_iff in Ht. split_and!; [done| | |].
    + intros t id Hin Hid. exact (proj1 (reference_reasons_nil _ _ _ _ _) (Ht t Hin) id Hid).
    + revert Hc. apply acyclic_ext. intros x y. symmetry. apply depends_keyed; [done|]. intros t id Hin Hid. exact (proj1 (reference_reasons_nil _ _ _ _ _) (Ht t Hin) id Hid).
    + intros t Hin Hv. rewrite Hv, bind_nil_iff in Ho. by apply (outcome_reasons_nil plan p), Ho.
  - intros (Hn & Ht & Hc & Ho). split_and!; [done| | |].
    + apply bind_nil_iff. intros t Hin. apply reference_reasons_nil. eauto.
    + revert Hc. apply acyclic_ext. intros x y. apply depends_keyed; [done|]. eauto.
    + destruct (fle _ _) eqn:E; [|done]. apply bind_nil_iff. intros t Hin. apply outcome_reasons_nil. by apply Ho.
Qed.

(** The definition checks have nothing to say exactly of a plan whose definitions are sound. *)
Lemma definition_reasons_nil plan : GoalplanDefinitionIntegrityReasons plan = [] ↔ definition_sound plan.
Proof.
  unfold GoalplanDefinitionIntegrityReasons. rewrite !app_nil, !fmap_nil_iff, !duplicateIDs_nil, !bind_nil_iff, cycle_reason_nil. split.
  - intros (Hp & Hd & Ha & Hr & Hc & Hcr & Hk). split; [done|done|done| |].
    + intros p Hin. pose proof (proj1 (awaits_reasons_nil plan p Hd) (Ha p Hin)) as [? ?]. pose proof (proj1 (phase_reasons_nil plan p) (Hr p Hin)) as (? & ? & ? & ? & ?).
      split; [done..|]. intros id Hid. specialize (Hk p Hin). rewrite bind_nil_iff in Hk. specialize (Hk id Hid). simpl in Hk. by case_bool_decide.
    + revert Hc. apply acyclic_ext. intros x y. symmetry. apply depends_keyed; [done|]. intros p id Hin Hid. by apply (proj1 (phase_reasons_nil plan p) (Hr p Hin)).
  - intros [Hp Hd Hcr Hs Hac]. split_and!; [done|done| | | |done|].
    + intros p Hin. apply awaits_reasons_nil; [done|]. by destruct (Hs p Hin).
    + intros p Hin. apply phase_reasons_nil. by destruct (Hs p Hin).
    + revert Hac. apply acyclic_ext. intros x y. apply depends_keyed; [done|]. intros p id Hin Hid. by apply (depends_known _ _ (Hs p Hin)).
    + intros p Hin. apply bind_nil_iff. intros id Hid. by rewrite bool_decide_eq_true_2 by apply (criteria_known _ _ (Hs p Hin) id Hid).
Qed.

(** ** The completion and supersession checks *)
Lemma completion_reasons_nil plan : definition_sound plan → GoalplanDependencyCompletionReasons plan = [] ↔ completion_sound plan.
Proof.
  intros Hs. unfold GoalplanDependencyCompletionReasons, completion_sound. rewrite bind_nil_iff.
  assert (∀ p, p ∈ WorkPhases plan → phase_completion_reasons plan p = [] ↔ phase_earned plan p ∧ ∀ t, t ∈ Tasks p → task_earned p t) as Hp; [|by split; intros H p Hin; apply Hp; auto].
  intros p Hin. unfold phase_completion_reasons. rewrite app_nil, bind_nil_iff. f_equiv.
  - unfold phase_earned. case_bool_decide as Hd; [|done].
    assert (open_phase_dependencies plan p = [] ↔ ∀ id, id ∈ DependsOn p → ∃ q, q ∈ WorkPhases plan ∧ PhaseID q = id ∧ PStatus q = WorkPhaseDone) as Ho.
    { unfold open_phase_dependencies. rewrite filter_nil_iff. split; intros H id Hid.
      - apply (by_id_keyed PhaseID PStatus); [by apply phases_once|]. apply dec_stable, H. by apply elem_of_unique.
      - intros Hne. apply Hne. rewrite elem_of_unique in Hid. apply (by_id_keyed PhaseID PStatus); [by apply phases_once|]. by apply H. }
    split; [intros H _; apply Ho; by destruct open_phase_dependencies|intros H; by rewrite (proj2 Ho (H Hd))].
  - split; intros H t Ht; specialize (H t).
    + intros Hd. specialize (H Ht). cbv beta in H. rewrite bool_decide_eq_true_2 in H by done. destruct (open_task_dependencies p t) eqn:E; [|done]. unfold open_task_dependencies in E. rewrite filter_nil_iff in E.
      intros id Hid. apply (by_id_keyed TaskID TStatus); [by apply (tasks_once plan), phases_sound|]. apply dec_stable, E. by apply elem_of_unique.
    + case_bool_decide as Hd; [|done]. assert (open_task_dependencies p t = []) as ->; [|done]. apply filter_nil_iff. intros id Hid Hne. apply Hne. rewrite elem_of_unique in Hid.
      apply (by_id_keyed TaskID TStatus); [by apply (tasks_once plan), phases_sound|]. by apply (H Ht Hd).
Qed.

Lemma find_phase plan id p : NoDup (PhaseID <$> WorkPhases plan) → queryFindWorkPhase plan id = Some p ↔ p ∈ WorkPhases plan ∧ PhaseID p = id.
Proof. apply (find_keyed PhaseID). Qed.

Lemma find_task p id t : NoDup (TaskID <$> Tasks p) → queryFindTask p id = Some t ↔ t ∈ Tasks p ∧ TaskID t = id.
Proof. apply (find_keyed TaskID). Qed.

Lemma superseded_reasons_nil plan : definition_sound plan → supersededIntegrityReasons plan = [] ↔ ∀ p, p ∈ WorkPhases plan → replaced plan p.
Proof.
  intros Hs. pose proof (phases_once _ Hs) as Hn. unfold supersededIntegrityReasons. rewrite bind_nil_iff. split; intros H p Hin; specialize (H p Hin).
  - intros Hsup. unfold superseded_reason in H. rewrite bool_decide_eq_true_2 in H by done. simpl in H. destruct (SupersededBy p) as [by_|]; [|done].
    case_bool_decide as Ht; [done|]. case_bool_decide as He; [done|]. destruct (queryFindWorkPhase plan by_) as [q|] eqn:E; [|done].
    apply (find_phase _ _ _ Hn) in E as [Hq Hid]. case_bool_decide; [done|]. by exists by_, q.
  - unfold superseded_reason. case_bool_decide as Hsup; [|done]. simpl. destruct (H Hsup) as (by_ & q & -> & Ht & He & Hq & Hid & Hst).
    rewrite !bool_decide_eq_false_2 by done. assert (queryFindWorkPhase plan by_ = Some q) as -> by (by apply find_phase). by rewrite bool_decide_eq_false_2.
Qed.

Lemma unevidenced_false c : unevidenced c = false ↔ evidenced c.
Proof.
  unfold unevidenced, evidenced. destruct (CStatus c); simpl; [by split|]. destruct (CapturedEvidence c) as [e|].
  - rewrite bool_decide_eq_false. split; [by intros H _; exists e|]. intros H. destruct (H eq_refl) as (e' & [= <-] & He). done.
  - split; [done|]. intros H. by destruct (H eq_refl) as (e' & ? & _).
Qed.

Lemma evidence_reasons_nil plan : evidence_reasons plan = [] ↔ ∀ c, c ∈ Criteria plan → evidenced c.
Proof.
  unfold evidence_reasons. rewrite fmap_nil_iff, filter_nil_iff. split; intros H c Hc; specialize (H c Hc).
  - apply unevidenced_false. by destruct (unevidenced c).
  - apply unevidenced_false in H. by rewrite H.
Qed.

Lemma open_tasks_nil plan : DoneWorkPhasesWithPendingTasks plan = [] ↔ ∀ p, p ∈ WorkPhases plan → PStatus p = WorkPhaseDone → all_tasks_done p.
Proof.
  unfold DoneWorkPhasesWithPendingTasks. rewrite filter_nil_iff. split; intros H p Hp.
  - intros Hd t Ht. apply dec_stable. intros Hne. apply (H p Hp). split; [done|]. apply existsb_exists. exists t. split; [by apply list_elem_of_In|]. by rewrite bool_decide_eq_false_2.
  - intros [Hd He]. apply existsb_exists in He as (t & Ht & Hne). apply list_elem_of_In in Ht. by rewrite bool_decide_eq_true_2 in Hne by apply (H p Hp Hd t Ht).
Qed.

(** The structural checks have nothing to say exactly of a sound plan. *)
Lemma structural_reasons_nil NumberString plan : ValidateGoalplanStructuralReasons NumberString plan = [] ↔ plan_sound plan.
Proof.
  unfold ValidateGoalplanStructuralReasons. rewrite !app_nil, fmap_nil_iff, definition_reasons_nil, evidence_reasons_nil, open_tasks_nil. split.
  - intros (Hv & Hd & Hc & He & Ht & Hs). split; [by destruct newer_schema|done|by apply completion_reasons_nil|done|done|by apply superseded_reasons_nil].
  - intros [Hv Hd Hc He Ht Hs]. split_and!; [by rewrite Hv|done|by apply completion_reasons_nil|done|done|by apply superseded_reasons_nil].
Qed.

Lemma structural_valid plan : queryStructuralValid plan = true ↔ plan_sound plan.
Proof.
  rewrite <- (structural_reasons_nil (λ _, "")). unfold queryStructuralValid, ValidateGoalplanStructuralReasons.
  rewrite !andb_true_iff, !bool_decide_eq_true, !app_nil, fmap_nil_iff, !negb_true_iff, evidence_reasons_nil, open_tasks_nil, forallb_forall.
  assert (existsb unevidenced (Criteria plan) = false ↔ ∀ c, c ∈ Criteria plan → evidenced c) as ->.
  { rewrite <- not_true_iff_false, existsb_exists. split; [|intros H (c & Hc%list_elem_of_In & Hu); by rewrite (proj2 (unevidenced_false c) (H c Hc)) in Hu].
    intros H c Hc. apply unevidenced_false, not_true_iff_false. intros Hu. apply H. exists c. split; [by apply list_elem_of_In|done]. }
  assert ((∀ p, In p (WorkPhases plan) → negb (bool_decide (PStatus p = WorkPhaseDone)) || forallb (λ t, bool_decide (TStatus t = TaskDone)) (Tasks p) = true) ↔
    ∀ p, p ∈ WorkPhases plan → PStatus p = WorkPhaseDone → all_tasks_done p) as ->.
  { split; intros H p Hp; specialize (H p).
    - intros Hd t Ht. rewrite bool_decide_eq_true_2 in H by done. specialize (H (proj1 (list_elem_of_In _ _) Hp)). simpl in H. rewrite forallb_forall in H.
      specialize (H t (proj1 (list_elem_of_In _ _) Ht)). by apply bool_decide_eq_true in H.
    - case_bool_decide as Hd; [|done]. simpl. apply forallb_forall. intros t Ht%list_elem_of_In. apply bool_decide_eq_true. apply list_elem_of_In in Hp. by apply H. }
  destruct (newer_schema plan); naive_solver.
Qed.

(** * A change of statuses and outcomes leaves the definitions of a goal plan sound.

    Most operations keep every id and every reference: what is left to show is what the new statuses claim. *)
(** ** Readiness *)
Lemma done_phase_iff plan id : NoDup (PhaseID <$> WorkPhases plan) →
  done_phase (queryFindWorkPhase plan id) = true ↔ ∃ q, q ∈ WorkPhases plan ∧ PhaseID q = id ∧ PStatus q = WorkPhaseDone.
Proof.
  intros Hn. split.
  - destruct (queryFindWorkPhase plan id) as [q|] eqn:E; [|done]. apply find_phase in E as [Hq He]; [|done]. simpl. intros Hd%bool_decide_eq_true. by exists q.
  - intros (q & Hq & He & Hd). assert (queryFindWorkPhase plan id = Some q) as -> by (by apply find_phase). by apply bool_decide_eq_true.
Qed.

Lemma done_task_iff p id : NoDup (TaskID <$> Tasks p) → done_task (queryFindTask p id) = true ↔ ∃ t, t ∈ Tasks p ∧ TaskID t = id ∧ TStatus t = TaskDone.
Proof.
  intros Hn. split.
  - destruct (queryFindTask p id) as [t|] eqn:E; [|done]. apply find_task in E as [Ht He]; [|done]. simpl. intros Hd%bool_decide_eq_true. by exists t.
  - intros (t & Ht & He & Hd). assert (queryFindTask p id = Some t) as -> by (by apply find_task). by apply bool_decide_eq_true.
Qed.

Lemma phase_dependencies_met plan p : NoDup (PhaseID <$> WorkPhases plan) →
  WorkPhaseDependenciesMet plan p = true ↔ ∀ id, id ∈ DependsOn p → ∃ q, q ∈ WorkPhases plan ∧ PhaseID q = id ∧ PStatus q = WorkPhaseDone.
Proof.
  intros Hn. unfold WorkPhaseDependenciesMet. rewrite forallb_forall. split; intros H id Hid.
  - apply done_phase_iff; [done|]. by apply H, list_elem_of_In.
  - apply done_phase_iff; [done|]. by apply H, list_elem_of_In.
Qed.

Lemma task_dependencies_met p t : NoDup (TaskID <$> Tasks p) →
  TaskDependenciesMet p t = true ↔ ∀ id, id ∈ TaskDependsOn t → ∃ u, u ∈ Tasks p ∧ TaskID u = id ∧ TStatus u = TaskDone.
Proof.
  intros Hn. unfold TaskDependenciesMet. rewrite forallb_forall. split; intros H id Hid.
  - apply done_task_iff; [done|]. by apply H, list_elem_of_In.
  - apply done_task_iff; [done|]. by apply H, list_elem_of_In.
Qed.

Lemma filter_keyed {A} (key : A → string) l x : NoDup (key <$> l) → x ∈ l → filter (λ y, key y = key x) l = [x].
Proof.
  induction l as [|y l IH]; csimpl; [by intros _ ?%not_elem_of_nil|]. intros [Hy Hn]%NoDup_cons [->|Hx]%elem_of_cons.
  - rewrite filter_cons_True by done. f_equal. apply filter_nil_iff. intros z Hz He. destruct Hy. rewrite <- He. by apply list_elem_of_fmap_2.
  - rewrite filter_cons_False; [by apply IH|]. intros He. destruct Hy. rewrite He. by apply list_elem_of_fmap_2.
Qed.

Lemma decision_matches plan d : NoDup (DecisionID <$> Decisions plan) → d ∈ Decisions plan → queryDecisionMatches plan (DecisionID d) = (1, Some (DStatus d)).
Proof. intros Hn Hd. unfold queryDecisionMatches. by rewrite (filter_keyed DecisionID _ d Hn Hd). Qed.

Definition awaits_decided (plan : Goalplan) (p : GoalplanWorkPhase) : Prop := ∀ id, id ∈ AwaitsDecision p → ∃ d, d ∈ Decisions plan ∧ DecisionID d = id ∧ DStatus d = DecisionDecided.

Lemma no_open_decisions plan p : NoDup (DecisionID <$> Decisions plan) → OpenDecisionIDsForPhase plan p = [] ↔ awaits_decided plan p.
Proof.
  intros Hn. unfold OpenDecisionIDsForPhase, awaits_decided. rewrite filter_nil_iff. split; intros H id Hid.
  - specialize (H id (proj2 (elem_of_unique _ _) Hid)). apply dec_stable in H. unfold queryDecisionMatches in H. destruct (filter _ _) as [|d [|]] eqn:E; [done| |done].
    assert (d ∈ filter (λ d, DecisionID d = id) (Decisions plan)) as Hd by (rewrite E; left). apply list_elem_of_filter in Hd as [? ?]. simpl in H. exists d. naive_solver.
  - intros Hne. apply Hne. rewrite elem_of_unique in Hid. destruct (H id Hid) as (d & Hd & <- & Hst). by rewrite decision_matches, Hst.
Qed.

(** What a ready phase has. *)
Lemma ready_iff plan p : definition_sound plan → WorkPhaseReadyConditionsMet plan p = true ↔
  (∀ id, id ∈ DependsOn p → ∃ q, q ∈ WorkPhases plan ∧ PhaseID q = id ∧ PStatus q = WorkPhaseDone) ∧ awaits_decided plan p.
Proof.
  intros Hs. unfold WorkPhaseReadyConditionsMet. rewrite andb_true_iff, bool_decide_eq_true, phase_dependencies_met, no_open_decisions; [done|by apply decisions_once|by apply phases_once].
Qed.

(** ** The frame of a plan: ids and references *)
Definition task_frame (t : GoalplanTask) : string * list string := (TaskID t, TaskDependsOn t).
Definition phase_frame (p : GoalplanWorkPhase) : string * list string * list string * list string * list (string * list string) :=
  (PhaseID p, DependsOn p, AwaitsDecision p, CriteriaIDs p, task_frame <$> Tasks p).

Record same_frame (plan plan' : Goalplan) : Prop := mkSameFrame {
  frame_phases : (phase_frame <$> WorkPhases plan') = (phase_frame <$> WorkPhases plan);
  frame_decisions : (DecisionID <$> Decisions plan') = (DecisionID <$> Decisions plan);
  frame_criteria : (CriterionID <$> Criteria plan') = (CriterionID <$> Criteria plan);
  frame_schema : SchemaVersion plan' = SchemaVersion plan
}.

Lemma fmap_via {A B C} (f : A → B) (g : B → C) (h : A → C) (l l' : list A) : (∀ x, h x = g (f x)) → (f <$> l') = (f <$> l) → (h <$> l') = (h <$> l).
Proof. intros Hh H. rewrite !(list_fmap_ext h (g ∘ f)) by (intros; apply Hh). by rewrite !list_fmap_compose, H. Qed.

Lemma frame_ids plan plan' : same_frame plan plan' → (PhaseID <$> WorkPhases plan') = (PhaseID <$> WorkPhases plan).
Proof. intros H. by apply (fmap_via phase_frame (λ f, f.1.1.1.1)), frame_phases. Qed.

Lemma frame_phase plan plan' p' : same_frame plan plan' → p' ∈ WorkPhases plan' → ∃ p, p ∈ WorkPhases plan ∧ phase_frame p = phase_frame p'.
Proof.
  intros H Hp. apply (list_elem_of_fmap_2 phase_frame) in Hp. rewrite (frame_phases _ _ H) in Hp. apply list_elem_of_fmap in Hp as (p & -> & Hp). eauto.
Qed.

Lemma frame_task p p' t' : phase_frame p = phase_frame p' → t' ∈ Tasks p' → ∃ t, t ∈ Tasks p ∧ TaskID t = TaskID t' ∧ TaskDependsOn t = TaskDependsOn t'.
Proof.
  intros [= _ _ _ _ Ht] Hin. apply (list_elem_of_fmap_2 task_frame) in Hin. rewrite <- Ht in Hin. apply list_elem_of_fmap in Hin as (t & [= ? ?] & Hin). eauto.
Qed.

Lemma frame_task_ids p p' : phase_frame p = phase_frame p' → (TaskID <$> Tasks p) = (TaskID <$> Tasks p').
Proof. intros [= _ _ _ _ Ht]. by apply (fmap_via task_frame fst). Qed.

Lemma frame_sym plan plan' : same_frame plan plan' → same_frame plan' plan.
Proof. by intros []. Qed.

Lemma frame_edge plan plan' x y : same_frame plan plan' → phase_edge plan' x y → phase_edge plan x y.
Proof. intros H (p' & Hp & <- & Hy). destruct (frame_phase _ _ _ H Hp) as (p & Hin & [= E1 E2 _ _ _]). exists p. by rewrite E1, E2. Qed.

Lemma frame_task_edge p p' x y : phase_frame p = phase_frame p' → task_edge p' x y → task_edge p x y.
Proof. intros H (t' & Ht & <- & Hy). destruct (frame_task _ _ _ H Ht) as (t & Hin & E1 & E2). exists t. by rewrite E1, E2. Qed.

(** The definitions stay sound when a done phase's decisions are decided and the outcomes are as the schema has them. *)
Lemma frame_definitions plan plan' : same_frame plan plan' → definition_sound plan →
  (∀ p', p' ∈ WorkPhases plan' → PStatus p' = WorkPhaseDone → awaits_decided plan' p') → (∀ p' t', p' ∈ WorkPhases plan' → t' ∈ Tasks p' → outcome_kept plan' t') →
  definition_sound plan'.
Proof.
  intros Hf Hs Hdone Hout. split.
  - rewrite (frame_ids _ _ Hf). by apply phases_once.
  - rewrite (frame_decisions _ _ Hf). by apply decisions_once.
  - rewrite (frame_criteria _ _ Hf). by apply criteria_once.
  - intros p' Hp'. destruct (frame_phase _ _ _ Hf Hp') as (p & Hp & Hpp). destruct (phases_sound _ Hs p Hp) as [Haw Hak Hdk Htn Htd Hta _ Hck]. pose proof (frame_task_ids _ _ Hpp) as Hids.
    pose proof Hpp as [= E1 E2 E3 E4 _]. rewrite E2, E1 in Hdk. rewrite E3 in Haw, Hak. rewrite E4 in Hck. rewrite Hids in Htn. split; [done| | |done| | |by eauto|by rewrite (frame_criteria _ _ Hf)].
    + intros id Hid. destruct (decide (PStatus p' = WorkPhaseDone)) as [Hd|Hd].
      * destruct (Hdone p' Hp' Hd id Hid) as (d & ? & ? & ?). eauto.
      * destruct (Hak id Hid) as (d & Hd' & <- & _). apply (list_elem_of_fmap_2 DecisionID) in Hd'. rewrite <- (frame_decisions _ _ Hf) in Hd'.
        apply list_elem_of_fmap in Hd' as (d' & ? & ?). by exists d'.
    + by rewrite (frame_ids _ _ Hf).
    + intros t' id Ht Hid. destruct (frame_task _ _ _ Hpp Ht) as (t & Hin & <- & E). rewrite <- E in Hid. rewrite <- Hids. eauto.
    + intros x Hx. apply (Hta x). revert Hx. apply tc_congruence with (f := id). intros ? ?. by apply frame_task_edge.
  - intros x Hx. apply (phases_acyclic _ Hs x). revert Hx. apply tc_congruence with (f := id). intros ? ?. by apply frame_edge.
Qed.
