(* ===== verification/GoalKeep.v ===== *)
(** * GoalKeep: every operation on a goal plan keeps it sound. *)
From S2P Require Import Prelude GoLib Sha256 Json Loads GoFloat JsText GrammarProps Attest Fsm GoPath GoalTypes GoalQuery GoalOps GoalSteer GoalGate GoalSound.
Local Open Scope string_scope.

(** A change that keeps the frame keeps the plan sound when what the new statuses claim is so. *)
Lemma frame_sound plan plan' : same_frame plan plan' → plan_sound plan →
  (∀ p', p' ∈ WorkPhases plan' → PStatus p' = WorkPhaseDone → phase_earned plan' p' ∧ awaits_decided plan' p' ∧ all_tasks_done p') →
  (∀ p' t', p' ∈ WorkPhases plan' → t' ∈ Tasks p' → outcome_kept plan' t' ∧ task_earned p' t') →
  (∀ c, c ∈ Criteria plan' → evidenced c) → (∀ p', p' ∈ WorkPhases plan' → replaced plan' p') → plan_sound plan'.
Proof.
  intros Hf [Hv Hd Hc He Ht Hr] Hdone Htask Hev Hrep.
  assert (newer_schema plan' = false) as Hv' by (revert Hv; unfold newer_schema; by rewrite (frame_schema _ _ Hf)).
  split; [done| | |done| |done].
  - apply (frame_definitions plan); [done|done| |]; naive_solver.
  - intros p' Hp'. split; [intros Hd'; by apply Hdone|]. intros t' Ht'. by apply Htask.
  - intros p' Hp' Hd'. by apply Hdone.
Qed.

(** ** A phase's status *)
Lemma elem_of_set_status id s phases p' : p' ∈ set_status id s phases ↔ ∃ p, p ∈ phases ∧ p' = if bool_decide (PhaseID p = id) then with_status p s else p.
Proof. unfold set_status. rewrite list_elem_of_fmap. naive_solver. Qed.

Lemma set_status_frame plan id s cursor : same_frame plan (with_cursor plan cursor (set_status id s (WorkPhases plan))).
Proof. split; [|done..]. simpl. unfold set_status. rewrite <- list_fmap_compose. apply list_fmap_ext. intros _ p _. simpl. by case_bool_decide. Qed.

(** A status that is given to a phase which is not done, and claims no more than holds, keeps the plan sound. *)
Lemma set_status_sound plan p s cursor : plan_sound plan → p ∈ WorkPhases plan → PStatus p ≠ WorkPhaseSuperseded → s ≠ WorkPhaseSuperseded →
  (s = WorkPhaseDone → WorkPhaseReadyConditionsMet plan p = true ∧ all_tasks_done p) → (s ≠ WorkPhaseDone → PStatus p ≠ WorkPhaseDone) →
  plan_sound (with_cursor plan cursor (set_status (PhaseID p) s (WorkPhases plan))).
Proof.
  intros Hs Hp Hsup Hs2 Hdone Hundone. pose proof (definitions _ Hs) as Hd. pose proof (phases_once _ Hd) as Hn.
  set (plan' := with_cursor plan cursor (set_status (PhaseID p) s (WorkPhases plan))).
  assert (∀ q, q ∈ WorkPhases plan → PhaseID q = PhaseID p → q = p) as Huniq by (intros q Hq He; by apply (keyed_unique PhaseID (WorkPhases plan))).
  assert (∀ q, q ∈ WorkPhases plan → PStatus q = WorkPhaseDone → ∃ q', q' ∈ WorkPhases plan' ∧ PhaseID q' = PhaseID q ∧ PStatus q' = WorkPhaseDone) as Hkeep.
  { intros q Hq Hqd. exists (if bool_decide (PhaseID q = PhaseID p) then with_status q s else q). split_and!; [apply elem_of_set_status; eauto|by case_bool_decide|].
    case_bool_decide as He; [|done]. rewrite (Huniq q Hq He) in Hqd. simpl. destruct (decide (s = WorkPhaseDone)) as [->|Hne]; [done|]. by destruct (Hundone Hne). }
  assert (∀ q, q ∈ WorkPhases plan → (∀ id, id ∈ DependsOn q → ∃ r, r ∈ WorkPhases plan ∧ PhaseID r = id ∧ PStatus r = WorkPhaseDone) →
    ∀ id, id ∈ DependsOn q → ∃ r, r ∈ WorkPhases plan' ∧ PhaseID r = id ∧ PStatus r = WorkPhaseDone) as Hdeps.
  { intros q Hq H id Hid. destruct (H id Hid) as (r & Hr & <- & Hrd). by apply Hkeep. }
  apply (frame_sound plan); [apply set_status_frame|done| | |apply (evidence_kept _ Hs)|].
  - intros q' (q & Hq & ->)%elem_of_set_status Hqd. case_bool_decide as He.
    + pose proof (Huniq q Hq He) as ->. simpl in Hqd. subst s. destruct (Hdone eq_refl) as [[H1 H2]%ready_iff H3]; [|done]. split_and!; [intros _; exact (Hdeps p Hp H1)|done|done].
    + destruct (completion _ Hs q Hq) as [Hpe _]. split_and!; [intros _; apply Hdeps; [done|by apply Hpe]| |by apply (done_tasks _ Hs)].
      intros id Hid. destruct (awaits_known _ _ (phases_sound _ Hd q Hq) id Hid) as (d & ? & ? & ?). eauto.
  - intros q' t (q & Hq & ->)%elem_of_set_status Ht. assert (t ∈ Tasks q) as Htq by (by case_bool_decide). split.
    + by apply (outcomes_kept _ _ (phases_sound _ Hd q Hq) t).
    + destruct (completion _ Hs q Hq) as [_ Hte]. by case_bool_decide; apply (Hte t Htq).
  - intros q' (q & Hq & ->)%elem_of_set_status Hqs. case_bool_decide as He; [by simpl in Hqs|].
    destruct (superseded_replaced _ Hs q Hq Hqs) as (by_ & r & Hb & Htr & Hne & Hr & Hid & Hrs).
    exists by_, (if bool_decide (PhaseID r = PhaseID p) then with_status r s else r). split_and!; [done|done|done|apply elem_of_set_status; eauto|by case_bool_decide|by case_bool_decide].
Qed.

(** ** Closing and resuming a phase *)
Lemma first_runnable_spec plan stretch p : workPhaseFirstRunnable plan stretch = Some p → p ∈ stretch ∧ PStatus p = WorkPhasePending ∧ IsRunnablePhase plan p = true.
Proof. intros H%head_Some_elem_of. apply list_elem_of_filter in H. naive_solver. Qed.

(** The successor of a close is a phase of the plan that is not done. *)
Lemma close_successor_spec plan closed idx id recorded p : close_successor plan closed idx id recorded = inr (Some p) →
  p ∈ WorkPhases closed ∧ (PStatus p = WorkPhasePending ∨ PStatus p = WorkPhaseInProgress) ∧ WorkPhaseReadyConditionsMet closed p = true.
Proof.
  assert (∀ stretch, (∀ q, q ∈ stretch → q ∈ WorkPhases closed) → workPhaseFirstRunnable closed stretch = Some p →
    p ∈ WorkPhases closed ∧ (PStatus p = WorkPhasePending ∨ PStatus p = WorkPhaseInProgress) ∧ WorkPhaseReadyConditionsMet closed p = true) as Hfirst.
  { intros stretch Hsub (H1 & H2 & H3)%first_runnable_spec. unfold IsRunnablePhase in H3. apply andb_true_iff in H3 as [_ ?]. auto. }
  unfold close_successor. destruct recorded as [|[rec|]]; [|destruct (_ || _); [done|]|done].
  - destruct (workPhaseFirstRunnable closed (drop _ _)) as [q|] eqn:E.
    + intros [= ->]. revert E. apply Hfirst. intros q Hq. by apply (subseteq_drop (S idx) (WorkPhases closed)).
    + intros [= E2]. revert E2. apply Hfirst. intros q Hq. by apply (subseteq_take idx (WorkPhases closed)).
  - destruct (queryFindWorkPhase closed rec) as [named|] eqn:E; [|done]. apply head_Some_elem_of, list_elem_of_filter in E as [_ Hin].
    destruct (PStatus named) eqn:Est; try done.
    + destruct (WorkPhaseReadyConditionsMet closed named) eqn:Er; [|done]. intros [= <-]. auto.
    + destruct (WorkPhaseReadyConditionsMet closed named) eqn:Er; [|done]. intros [= <-]. auto.
    + destruct (ActiveWorkPhaseID plan); [|done]. case_bool_decide; [done|]. intros [= Hh%head_Some_elem_of]. apply list_elem_of_filter in Hh as [(_ & ? & ?) ?]. auto.
Qed.

Lemma settled_sound closed p : plan_sound closed → p ∈ WorkPhases closed → PStatus p = WorkPhasePending ∨ PStatus p = WorkPhaseInProgress → plan_sound (settled_plan closed (Some p)).
Proof. intros Hs Hp Hst. apply set_status_sound; [done|done|by destruct Hst as [->| ->]|done|done|by destruct Hst as [->| ->]]. Qed.

(** What a close that was not refused had. *)
Lemma close_ok plan id recorded closed next : workPhaseCloseFixed plan id recorded = WorkPhaseCloseFixedOK closed next →
  ∃ idx p succ, list_find (λ p, PhaseID p = id) (WorkPhases plan) = Some (idx, p) ∧ closed = id ∧
    (PStatus p = WorkPhasePending ∨ PStatus p = WorkPhaseInProgress ∨ PStatus p = WorkPhaseDone) ∧ WorkPhaseReadyConditionsMet plan p = true ∧ all_tasks_done p ∧
    close_successor plan (with_cursor plan None (set_status id WorkPhaseDone (WorkPhases plan))) idx id recorded = inr succ ∧
    next = settled_plan (with_cursor plan None (set_status id WorkPhaseDone (WorkPhases plan))) succ ∧ workPhaseSamePlanShape plan next = false.
Proof.
  unfold workPhaseCloseFixed. destruct (list_find _ _) as [[idx p]|] eqn:E; [|done]. intros H.
  assert (PStatus p = WorkPhasePending ∨ PStatus p = WorkPhaseInProgress ∨ PStatus p = WorkPhaseDone) as Hst by (destruct (PStatus p); auto; done).
  assert (close_gated plan id recorded idx p = WorkPhaseCloseFixedOK closed next) as H2 by (destruct (PStatus p); done). clear H. unfold close_gated in H2.
  destruct (WorkPhaseReadyConditionsMet plan p) eqn:Er; [|done]. simpl in H2. destruct (filter _ (Tasks p)) eqn:Et; [|done].
  destruct (close_successor _ _ _ _ _) as [lost|succ] eqn:Ec.
  - exfalso. revert Ec H2. unfold close_successor. repeat case_match; congruence.
  - destruct (workPhaseSamePlanShape _ _) eqn:Esh; [done|]. injection H2 as <- <-. exists idx, p, succ. split_and!; try done.
    intros t Ht. apply dec_stable. rewrite filter_nil_iff in Et. by apply Et.
Qed.

Lemma close_keeps plan id recorded closed next : plan_sound plan → workPhaseCloseFixed plan id recorded = WorkPhaseCloseFixedOK closed next → plan_sound next.
Proof.
  intros Hs H. apply close_ok in H as (idx & p & succ & Hf & _ & Hst & Hr & Ht & Hc & -> & _). apply list_find_Some in Hf as (Hidx & <- & _). apply list_elem_of_lookup_2 in Hidx as Hp.
  assert (plan_sound (with_cursor plan None (set_status (PhaseID p) WorkPhaseDone (WorkPhases plan)))) as Hclosed.
  { apply set_status_sound; [done|done|by destruct Hst as [->|[->| ->]]|done|done|done]. }
  destruct succ as [q|]; [|done]. destruct (close_successor_spec _ _ _ _ _ _ Hc) as (Hq & Hqs & _). by apply settled_sound.
Qed.

Lemma advance_ok plan closed next : workPhaseAdvance plan = WorkPhaseAdvanceOK closed next → ∃ id, EffectiveActiveWorkPhaseID plan = Some id ∧ id ≠ "" ∧ workPhaseCloseFixed plan id NextUnknown = WorkPhaseCloseFixedOK closed next.
Proof.
  unfold workPhaseAdvance. destruct (EffectiveActiveWorkPhaseID plan) as [id|]; [|done]. case_bool_decide as He; [done|]. destruct (workPhaseCloseFixed plan id NextUnknown) eqn:E; try done.
  intros [= <- <-]. by exists id.
Qed.

(** The checks do not read the cursor. *)
Lemma cursor_sound plan cursor : plan_sound plan → plan_sound (with_cursor plan cursor (WorkPhases plan)).
Proof. intros Hs. apply (structural_reasons_nil (λ _, "")). by apply (structural_reasons_nil (λ _, "")) in Hs. Qed.

Lemma resume_keeps plan recorded next : plan_sound plan → workPhaseResumeAbsentTarget plan recorded = WorkPhaseResumeActivate next → plan_sound next.
Proof.
  intros Hs. unfold workPhaseResumeAbsentTarget. case_bool_decide; [done|]. destruct (queryFindWorkPhase plan recorded) as [p|] eqn:E; [|done].
  apply head_Some_elem_of, list_elem_of_filter in E as [_ Hp]. destruct (PStatus p) eqn:Est; try done.
  - destruct (WorkPhaseReadyConditionsMet plan p); [|done]. simpl. intros [= <-]. apply set_status_sound; [done|done|by rewrite Est|done|done|by rewrite Est].
  - destruct (WorkPhaseReadyConditionsMet plan p); [|done]. simpl. case_bool_decide; [done|]. intros [= <-]. by apply cursor_sound.
Qed.

(** ** The lifecycle operations *)

(** Phases that are changed in place: what the plan says of progress stays so when the tasks do. *)
Lemma progress_map plan plan' f : plan_sound plan → WorkPhases plan' = f <$> WorkPhases plan →
  (∀ p, PhaseID (f p) = PhaseID p ∧ PStatus (f p) = PStatus p ∧ DependsOn (f p) = DependsOn p ∧ SupersededBy (f p) = SupersededBy p) →
  (∀ p, p ∈ WorkPhases plan → (∀ t, t ∈ Tasks (f p) → task_earned (f p) t) ∧ (PStatus p = WorkPhaseDone → all_tasks_done (f p))) →
  completion_sound plan' ∧ (∀ p, p ∈ WorkPhases plan' → PStatus p = WorkPhaseDone → all_tasks_done p) ∧ (∀ p, p ∈ WorkPhases plan' → replaced plan' p).
Proof.
  intros Hs Hm Hf Ht. rewrite Hm.
  assert (∀ p', p' ∈ f <$> WorkPhases plan → ∃ p, p ∈ WorkPhases plan ∧ p' = f p) as Hin by (intros p' (p & -> & ?)%list_elem_of_fmap; eauto). split_and!.
  - intros p' Hp'. rewrite Hm in Hp'. apply Hin in Hp' as (p & Hp & ->). destruct (Hf p) as (E1 & E2 & E3 & E4). split; [|by apply Ht].
    intros Hd id Hid. rewrite E2 in Hd. rewrite E3 in Hid. destruct (completion _ Hs p Hp) as [He _]. destruct (He Hd id Hid) as (q & Hq & <- & Hqd). destruct (Hf q) as (F1 & F2 & _).
    exists (f q). rewrite Hm, F1, F2. split_and!; [by apply list_elem_of_fmap_2|done|done].
  - intros p' (p & Hp & ->)%Hin Hd. destruct (Hf p) as (_ & E2 & _). rewrite E2 in Hd. by apply Ht.
  - intros p' (p & Hp & ->)%Hin Hd. destruct (Hf p) as (E1 & E2 & E3 & E4). rewrite E2 in Hd.
    destruct (superseded_replaced _ Hs p Hp Hd) as (by_ & q & Hb & Htr & Hne & Hq & Hid & Hqs). destruct (Hf q) as (F1 & F2 & _).
    exists by_, (f q). rewrite Hm, E1, E4, F1, F2. split_and!; [done|done|done|by apply list_elem_of_fmap_2|done|done].
Qed.

(** The tasks of a sound plan are as they should be. *)
Lemma tasks_as_they_are plan p : plan_sound plan → p ∈ WorkPhases plan → (∀ t, t ∈ Tasks p → task_earned p t) ∧ (PStatus p = WorkPhaseDone → all_tasks_done p).
Proof. intros Hs Hp. split; [apply (completion _ Hs p Hp)|by apply (done_tasks _ Hs)]. Qed.

Lemma if_sound_changed plan next : if_sound plan = GoalplanLifecycleChanged next → next = plan ∧ definition_sound plan.
Proof. unfold if_sound. destruct (GoalplanDefinitionIntegrityReasons plan) eqn:E; [|done]. intros [= <-]. split; [done|by apply definition_reasons_nil]. Qed.

Lemma ask_changed plan input next : AskGoalplanDecision plan input = GoalplanLifecycleChanged next → ∃ d ids, next = asked_plan plan d ids ∧ definition_sound next.
Proof.
  unfold AskGoalplanDecision, rejected_or. intros H. repeat (case_match; try discriminate H). apply if_sound_changed in H as [-> ?]. eauto.
Qed.

Lemma ask_keeps plan input next : plan_sound plan → AskGoalplanDecision plan input = GoalplanLifecycleChanged next → plan_sound next.
Proof.
  intros Hs H. apply ask_changed in H as (d & ids & -> & Hd).
  destruct (progress_map plan (asked_plan plan d ids) (λ p, if bool_decide (PhaseID p ∈ ids) then with_awaits p (AwaitsDecision p ++ [DecisionID d])%list else p) Hs) as (H1 & H2 & H3).
  - done.
  - intros p. by case_bool_decide.
  - intros p Hp. pose proof (tasks_as_they_are plan p Hs Hp) as [Ha Hb]. by case_bool_decide.
  - split; [apply (schema_known _ Hs)|done|done|apply (evidence_kept _ Hs)|done|done].
Qed.

Lemma decide_changed plan id answer at_ next : DecideGoalplanDecision plan id answer at_ = GoalplanLifecycleChanged next →
  ∃ d, next = with_decisions plan ((λ e, if bool_decide (DecisionID e = d) then decided (Trim answer) at_ e else e) <$> Decisions plan).
Proof.
  unfold DecideGoalplanDecision. destruct (filter _ _) as [|d [|]]; [done| |done]. intros H. repeat (case_match; try discriminate H). injection H as <-. by exists (DecisionID d).
Qed.

Lemma decide_keeps plan id answer at_ next : plan_sound plan → DecideGoalplanDecision plan id answer at_ = GoalplanLifecycleChanged next → plan_sound next.
Proof.
  intros Hs H. apply decide_changed in H as (key & ->). set (g := λ e, if bool_decide (DecisionID e = key) then decided (Trim answer) at_ e else e).
  destruct (progress_map plan (with_decisions plan (g <$> Decisions plan)) (λ p, p) Hs) as (H1 & H2 & H3); [by rewrite list_fmap_id|done|by intros p Hp; apply (tasks_as_they_are plan)|].
  split; [apply (schema_known _ Hs)| |done|apply (evidence_kept _ Hs)|done|done]. apply (frame_definitions plan); [|apply (definitions _ Hs)| |].
  - split; [done| |done|done]. simpl. rewrite <- list_fmap_compose. apply list_fmap_ext. intros _ e _. unfold g. simpl. by case_bool_decide.
  - intros p Hp Hd id' Hid. destruct (awaits_known _ _ (phases_sound _ (definitions _ Hs) p Hp) id' Hid) as (e & He & <- & Hdec). exists (g e).
    split_and!; [by apply list_elem_of_fmap_2| |]; unfold g; case_bool_decide; auto.
  - intros p t Hp Ht. apply (outcomes_kept _ _ (phases_sound _ (definitions _ Hs) p Hp) t Ht).
Qed.

Lemma add_task_changed plan phase id title deps next : AddGoalplanTask plan phase id title deps = GoalplanLifecycleChanged next →
  ∃ target, queryFindWorkPhase plan phase = Some target ∧ PStatus target ≠ WorkPhaseDone ∧ definition_sound next ∧
    next = with_phases plan ((λ p, if bool_decide (PhaseID p = phase) then with_tasks p (Tasks p ++ [mkTask (Trim id) (Trim title) TaskPending (Trim <$> deps) ""])%list else p) <$> WorkPhases plan).
Proof.
  unfold AddGoalplanTask. destruct (queryFindWorkPhase plan phase) as [target|]; [|by repeat case_match]. intros H. repeat (case_match; try discriminate H).
  apply if_sound_changed in H as [-> ?]. exists target. split_and!; [done| |done|done]. match goal with E : _ || _ = false |- _ => apply orb_false_iff in E as [E _]; by apply bool_decide_eq_false in E end.
Qed.

Lemma add_task_keeps plan phase id title deps next : plan_sound plan → AddGoalplanTask plan phase id title deps = GoalplanLifecycleChanged next → plan_sound next.
Proof.
  intros Hs H. apply add_task_changed in H as (target & Hf & Hnd & Hd & ->). pose proof (phases_once _ (definitions _ Hs)) as Hn. apply find_phase in Hf as [Htin Htid]; [|done].
  set (f := λ p, if bool_decide (PhaseID p = phase) then _ else p) in *.
  destruct (progress_map plan (with_phases plan (f <$> WorkPhases plan)) f Hs) as (H1 & H2 & H3).
  - done.
  - intros p. unfold f. by case_bool_decide.
  - intros p Hp. pose proof (tasks_as_they_are plan p Hs Hp) as [Ha Hb]. unfold f. case_bool_decide as He; [|done]. split.
    + intros t [Ht| ->%list_elem_of_singleton]%elem_of_app; [|done]. intros Htd dep Hdep. destruct (Ha t Ht Htd dep Hdep) as (u & Hu & ? & ?). exists u. split_and!; [apply elem_of_app; by left|done|done].
    + intros Hpd. assert (p = target) as ->; [|done]. apply (keyed_unique PhaseID (WorkPhases plan)); [done|done|done|by rewrite He].
  - split; [apply (schema_known _ Hs)|done|done|apply (evidence_kept _ Hs)|done|done].
Qed.

(** A task that can be completed: it is pending, what it waits for is done, and so is what its phase waits for. *)
Lemma complete_changed plan phase task text next : CompleteGoalplanTask plan phase task text = GoalplanLifecycleChanged next →
  next = completed_plan plan phase task (Trim text) ∧ Trim text ≠ "" ∧
  ∃ p t, p ∈ WorkPhases plan ∧ PhaseID p = phase ∧ IsRunnablePhase plan p = true ∧ t ∈ Tasks p ∧ TaskID t = task ∧ TStatus t = TaskPending ∧ TaskDependenciesMet p t = true.
Proof.
  unfold CompleteGoalplanTask. case_bool_decide as Ho; [done|]. intros H. repeat (case_match; try discriminate H). injection H as <-. split_and!; [done|done|].
  match goal with E : negb (existsb _ _) = false |- _ => apply negb_false_iff, existsb_exists in E as ([id t] & Hin & E2); apply andb_true_iff in E2 as [E3 E4];
    apply bool_decide_eq_true in E3; apply bool_decide_eq_true in E4; simpl in E3, E4 end.
  apply list_elem_of_In in Hin. unfold ReadyTasks in Hin. apply list_elem_of_bind in Hin as (q & Hin & Hp). apply list_elem_of_filter in Hp as [Hr Hp].
  apply list_elem_of_fmap in Hin as (t' & [= -> ->] & Ht). apply list_elem_of_filter in Ht as [Hready Ht]. unfold ready_task in Hready. apply andb_true_iff in Hready as [Hpend%bool_decide_eq_true Hmet].
  exists q, t'. by split_and!.
Qed.

Definition complete_in (phase task outcome : string) (p : GoalplanWorkPhase) : GoalplanWorkPhase :=
  if bool_decide (PhaseID p = phase) then with_tasks p ((λ t, if bool_decide (TaskID t = task) then completed_task outcome t else t) <$> Tasks p) else p.

Lemma elem_of_complete_in phase task outcome p t' : t' ∈ Tasks (complete_in phase task outcome p) →
  ∃ t, t ∈ Tasks p ∧ t' = if bool_decide (PhaseID p = phase ∧ TaskID t = task) then completed_task outcome t else t.
Proof.
  unfold complete_in. case_bool_decide as Hp.
  - intros (t & -> & Ht)%list_elem_of_fmap. exists t. split; [done|]. case_bool_decide as E; case_bool_decide as F; tauto.
  - intros Ht. exists t'. split; [done|]. by rewrite bool_decide_eq_false_2 by tauto.
Qed.

Lemma complete_in_elem phase task outcome p t : t ∈ Tasks p →
  (if bool_decide (PhaseID p = phase ∧ TaskID t = task) then completed_task outcome t else t) ∈ Tasks (complete_in phase task outcome p).
Proof.
  intros Ht. unfold complete_in. destruct (decide (PhaseID p = phase)) as [Hp|Hp].
  - rewrite (bool_decide_eq_true_2 (PhaseID p = phase)) by done. replace (bool_decide (PhaseID p = phase ∧ TaskID t = task)) with (bool_decide (TaskID t = task)) by (apply bool_decide_ext; tauto).
    apply list_elem_of_fmap. by exists t.
  - by rewrite (bool_decide_eq_false_2 (PhaseID p = phase)), bool_decide_eq_false_2 by tauto.
Qed.

Lemma completed_frame plan phase task outcome : same_frame plan (completed_plan plan phase task outcome).
Proof.
  split; [|done..]. simpl. rewrite <- list_fmap_compose. apply list_fmap_ext. intros _ p _. simpl. case_bool_decide; [|done]. unfold phase_frame. simpl. f_equal.
  rewrite <- list_fmap_compose. apply list_fmap_ext. intros _ t _. simpl. by case_bool_decide.
Qed.

Lemma complete_keeps plan phase task text next : plan_sound plan → CompleteGoalplanTask plan phase task text = GoalplanLifecycleChanged next → plan_sound next.
Proof.
  intros Hs H. apply complete_changed in H as (-> & Ho & p & t & Hp & Hpid & Hrun & Ht & Htid & Hpend & Hmet). pose proof (definitions _ Hs) as Hd.
  pose proof (phases_once _ Hd) as Hn. pose proof (tasks_once _ _ (phases_sound _ Hd p Hp)) as Htn. rewrite task_dependencies_met in Hmet by done.
  assert (∀ q, q ∈ WorkPhases plan → PhaseID q = phase → q = p) as Huniq by (intros q Hq He; apply (keyed_unique PhaseID (WorkPhases plan)); congruence).
  assert (PStatus p ≠ WorkPhaseDone) as Hnd by (intros E; unfold IsRunnablePhase in Hrun; by rewrite E in Hrun).
  destruct (progress_map plan (completed_plan plan phase task (Trim text)) (complete_in phase task (Trim text)) Hs) as (H1 & H2 & H3).
  - done.
  - intros q. unfold complete_in. by case_bool_decide.
  - intros q Hq. pose proof (tasks_as_they_are plan q Hs Hq) as [Ha Hb]. split.
    + intros t' (u & Hu & ->)%elem_of_complete_in Hud dep Hdep.
      assert (∃ w, w ∈ Tasks q ∧ TaskID w = dep ∧ TStatus w = TaskDone) as (w & Hw & <- & Hwd).
      { case_bool_decide as E; [|by apply (Ha u Hu)]. destruct E as [Eq Et]. pose proof (Huniq q Hq Eq) as ->. assert (u = t) as -> by (apply (keyed_unique TaskID (Tasks p)); congruence). by apply Hmet. }
      clear Hud Hdep. exists (if bool_decide (PhaseID q = phase ∧ TaskID w = task) then completed_task (Trim text) w else w). split_and!; [by apply complete_in_elem| |]; by case_bool_decide.
    + intros Hqd t' (u & Hu & ->)%elem_of_complete_in. case_bool_decide as E; [done|]. by apply (Hb Hqd).
  - split; [apply (schema_known _ Hs)| |done|apply (evidence_kept _ Hs)|done|done]. apply (frame_definitions plan); [apply completed_frame|done| |].
    + intros q' (q & -> & Hq)%list_elem_of_fmap Hqd. fold (complete_in phase task (Trim text) q) in *. intros id Hid.
      destruct (awaits_known _ _ (phases_sound _ Hd q Hq) id) as (d & ? & ? & Hdec); [unfold complete_in in Hid; by case_bool_decide|].
      exists d. split_and!; [done|done|]. apply Hdec. unfold complete_in in Hqd. by case_bool_decide.
    + intros q' t' (q & -> & Hq)%list_elem_of_fmap (u & Hu & ->)%elem_of_complete_in Hv. pose proof (outcomes_kept _ _ (phases_sound _ Hd q Hq) u Hu Hv) as Hk.
      case_bool_decide; [|done]. simpl. by rewrite Trim_idem.
Qed.

Lemma meet_changed plan id text next : MeetGoalplanCriterion plan id text = GoalplanLifecycleChanged next →
  Trim text ≠ "" ∧ next = with_criteria plan ((λ c, if bool_decide (CriterionID c = id) then met (Trim text) c else c) <$> Criteria plan).
Proof.
  unfold MeetGoalplanCriterion. case_bool_decide as Ho; [done|]. destruct (filter _ _) as [|c [|]]; [done| |done]. case_bool_decide; [done|]. by intros [= <-].
Qed.

Lemma meet_keeps plan id text next : plan_sound plan → MeetGoalplanCriterion plan id text = GoalplanLifecycleChanged next → plan_sound next.
Proof.
  intros Hs H. apply meet_changed in H as (Ho & ->). set (g := λ c, if bool_decide (CriterionID c = id) then met (Trim text) c else c).
  destruct (progress_map plan (with_criteria plan (g <$> Criteria plan)) (λ p, p) Hs) as (H1 & H2 & H3); [by rewrite list_fmap_id|done|by intros p Hp; apply (tasks_as_they_are plan)|].
  split; [apply (schema_known _ Hs)| |done| |done|done].
  - apply (frame_definitions plan); [|apply (definitions _ Hs)| |].
    + split; [done|done| |done]. simpl. rewrite <- list_fmap_compose. apply list_fmap_ext. intros _ c _. unfold g. simpl. by case_bool_decide.
    + intros p Hp Hd id' Hid. destruct (awaits_known _ _ (phases_sound _ (definitions _ Hs) p Hp) id' Hid) as (e & ? & ? & ?). eauto.
    + intros p t Hp Ht. apply (outcomes_kept _ _ (phases_sound _ (definitions _ Hs) p Hp) t Ht).
  - intros c' (c & -> & Hc)%list_elem_of_fmap. unfold g. case_bool_decide; [|by apply (evidence_kept _ Hs)]. intros _. exists (Trim text). by rewrite Trim_idem.
Qed.

(** ** Steering *)
Lemma if_whole_inr plan next : if_whole plan = inr next → next = plan ∧ definition_sound plan ∧ completion_sound plan.
Proof.
  unfold if_whole, steeringOpsIntegrityReasons. destruct (_ ++ _)%list eqn:E; [|done]. intros [= <-]. apply app_nil in E as [Ed%definition_reasons_nil Ec]. split_and!; [done|done|].
  by apply completion_reasons_nil.
Qed.

Lemma apply_op_keeps NumberString plan op next : plan_sound plan → apply_op NumberString plan op = inr next → plan_sound next.
Proof.
  intros Hs. destruct op as [note|scenario surface presented expected|id title deps]; simpl; [by intros [= <-]| |]; (case_bool_decide as Hfree; [done|]); intros (-> & Hd & Hc)%if_whole_inr.
  - split; [apply (schema_known _ Hs)|done|done| |apply (done_tasks _ Hs)|apply (superseded_replaced _ Hs)].
    intros c [Hin| ->%list_elem_of_singleton]%elem_of_app; [by apply (evidence_kept _ Hs)|done].
  - split; [apply (schema_known _ Hs)|done|done|apply (evidence_kept _ Hs)| |].
    + intros p [Hin| ->%list_elem_of_singleton]%elem_of_app; [by apply (done_tasks _ Hs)|done].
    + intros p [Hin| ->%list_elem_of_singleton]%elem_of_app; [|done]. intros Hsup. destruct (superseded_replaced _ Hs p Hin Hsup) as (by_ & q & ? & ? & ? & Hq & ? & ?).
      exists by_, q. split_and!; [done|done|done|apply elem_of_app; by left|done|done].
Qed.

Lemma steer_keeps NumberString ops : ∀ plan next, plan_sound plan → steeringOpsApplyOps NumberString plan ops = inr next → plan_sound next.
Proof.
  induction ops as [|op ops IH]; intros plan next Hs; simpl; [by intros [= <-]|]. destruct (apply_op NumberString plan op) as [|mid] eqn:E; [done|]. apply IH. by apply (apply_op_keeps _ _ _ _ Hs E).
Qed.

(** ** Every operation *)

(** One operation of the lifecycle on a plan that answered a plan. *)
Inductive lifecycle_step (plan next : Goalplan) : Prop :=
| step_ask input : AskGoalplanDecision plan input = GoalplanLifecycleChanged next → lifecycle_step plan next
| step_decide id answer at_ : DecideGoalplanDecision plan id answer at_ = GoalplanLifecycleChanged next → lifecycle_step plan next
| step_add_task phase id title deps : AddGoalplanTask plan phase id title deps = GoalplanLifecycleChanged next → lifecycle_step plan next
| step_complete phase task outcome : CompleteGoalplanTask plan phase task outcome = GoalplanLifecycleChanged next → lifecycle_step plan next
| step_meet id evidence : MeetGoalplanCriterion plan id evidence = GoalplanLifecycleChanged next → lifecycle_step plan next
| step_close id recorded closed : workPhaseCloseFixed plan id recorded = WorkPhaseCloseFixedOK closed next → lifecycle_step plan next
| step_advance closed : workPhaseAdvance plan = WorkPhaseAdvanceOK closed next → lifecycle_step plan next
| step_resume recorded : workPhaseResumeAbsentTarget plan recorded = WorkPhaseResumeActivate next → lifecycle_step plan next.

(** One operation on a plan that answered a plan. *)
Inductive goal_step (NumberString : float64 → string) (plan next : Goalplan) : Prop :=
| step_lifecycle : lifecycle_step plan next → goal_step NumberString plan next
| step_steer ops : steeringOpsApplyOps NumberString plan ops = inr next → goal_step NumberString plan next.

Lemma lifecycle_step_keeps plan next : plan_sound plan → lifecycle_step plan next → plan_sound next.
Proof.
  intros Hs [? H|? ? ? H|? ? ? ? H|? ? ? H|? ? H|? ? ? H|? H|? H].
  - exact (ask_keeps _ _ _ Hs H).
  - exact (decide_keeps _ _ _ _ _ Hs H).
  - exact (add_task_keeps _ _ _ _ _ _ Hs H).
  - exact (complete_keeps _ _ _ _ _ Hs H).
  - exact (meet_keeps _ _ _ _ Hs H).
  - exact (close_keeps _ _ _ _ _ Hs H).
  - destruct (advance_ok _ _ _ H) as (id & _ & _ & Hc). exact (close_keeps _ _ _ _ _ Hs Hc).
  - exact (resume_keeps _ _ _ Hs H).
Qed.

Lemma goal_step_keeps NumberString plan next : plan_sound plan → goal_step NumberString plan next → plan_sound next.
Proof. intros Hs [H|? H]; [exact (lifecycle_step_keeps _ _ Hs H)|exact (steer_keeps _ _ _ _ Hs H)]. Qed.

(** What the operations of the lifecycle and a steering batch do not touch. *)
Definition untouched (plan : Goalplan) : string * list SteeringEntry * list ReviewRoundState * option string * option string :=
  (Slug plan, SteeringLog plan, ReviewRounds plan, ActivePlanAuditRoundID plan, ActiveFinalGateRoundID plan).

Lemma lifecycle_step_untouched plan next : lifecycle_step plan next → untouched next = untouched plan.
Proof.
  assert (Hclose : ∀ id recorded closed, workPhaseCloseFixed plan id recorded = WorkPhaseCloseFixedOK closed next → untouched next = untouched plan).
  { intros id recorded closed H. apply close_ok in H as (idx & p & succ & _ & _ & _ & _ & _ & _ & -> & _). by destruct succ. }
  intros [? H|? ? ? H|? ? ? ? H|? ? ? H|? ? H|? ? ? H|? H|? H].
  - by apply ask_changed in H as (d & ids & -> & _).
  - by apply decide_changed in H as (d & ->).
  - by apply add_task_changed in H as (target & _ & _ & _ & ->).
  - by apply complete_changed in H as (-> & _).
  - by apply meet_changed in H as (_ & ->).
  - by eapply Hclose.
  - destruct (advance_ok _ _ _ H) as (id & _ & _ & Hc). by eapply Hclose.
  - revert H. unfold workPhaseResumeAbsentTarget. intros H. by repeat (case_match; try discriminate H); injection H as <-.
Qed.

Lemma steered_untouched NumberString ops : ∀ plan next, steeringOpsApplyOps NumberString plan ops = inr next → untouched next = untouched plan.
Proof.
  induction ops as [|op ops IH]; intros plan next; simpl; [by intros [= <-]|]. destruct (apply_op NumberString plan op) as [|mid] eqn:E; [done|]. intros H. rewrite (IH _ _ H).
  destruct op; simpl in E; [by injection E as <-| |]; (case_bool_decide; [done|]); by apply if_whole_inr in E as (-> & _).
Qed.

Lemma goal_step_untouched NumberString plan next : goal_step NumberString plan next → untouched next = untouched plan.
Proof. intros [H|ops H]; [by apply lifecycle_step_untouched|by eapply steered_untouched]. Qed.
