(* ===== verification/GoalFinish.v ===== *)
(** * GoalFinish: a sound goal plan that waits for nobody can be finished.

    A plan waits for somebody when a phase is blocked, when a decision that remaining work awaits is open, or when remaining work depends on a phase that was superseded. Otherwise some phase
    can run, some task of it can be done or the phase can be closed, and what is left to do gets less. *)
From S2P Require Import Prelude GoLib Sha256 Json Loads GoFloat GoPath JsText Attest Fsm GrammarProps GoalTypes GoalQuery GoalOps GoalSteer GoalGate GoalSound GoalKeep.
Local Open Scope string_scope.
(** ** Something comes first *)
Lemma acc_keyed {A} (key : A → string) (deps : A → list string) l :
  NoDup (key <$> l) → (∀ a id, a ∈ l → id ∈ deps a → id ≠ key a ∧ id ∈ key <$> l) → acyclic (λ x y, ∃ a, a ∈ l ∧ key a = x ∧ y ∈ deps a) →
  ∀ a, a ∈ l → Acc (λ b a, a ∈ l ∧ b ∈ l ∧ key b ∈ deps a) a.
Proof.
  intros Hn Hk Hac a Ha. set (nodes := (λ a, (key a, withoutSelfDependency (key a) (deps a))) <$> l).
  assert (findDependencyCycle nodes = None) as Hnone. { apply findDependencyCycle_None. revert Hac. apply acyclic_ext. intros x y. by apply depends_keyed. }
  pose proof (search_walked nodes) as Hw. rewrite Hnone in Hw.
  assert (Acc (flip (depends (by_id nodes))) (key a)) as Hacc. { apply Hw, by_id_is_Some. unfold nodes. rewrite <- list_fmap_compose. by apply (list_elem_of_fmap_2 key). }
  remember (key a) as x eqn:Ex. revert a Ex Ha. induction Hacc as [x _ IH]. intros a -> Ha. constructor. intros b (_ & Hb & Hab). apply (IH (key b)); [|done|done].
  apply depends_keyed; [done|done|eauto].
Qed.

(** Of the records that are still to do, one waits for none of the others. *)
Lemma first_to_do {A} (key : A → string) (deps : A → list string) (todo : A → Prop) `{∀ a, Decision (todo a)} (l : list A) a :
  Acc (λ b a, a ∈ l ∧ b ∈ l ∧ key b ∈ deps a) a → a ∈ l → todo a → ∃ b, b ∈ l ∧ todo b ∧ ∀ c, c ∈ l → key c ∈ deps b → ¬ todo c.
Proof.
  induction 1 as [a _ IH]. intros Ha Ht. destruct (filter (λ c, todo c ∧ key c ∈ deps a) l) as [|c f] eqn:E.
  - exists a. split_and!; [done|done|]. rewrite filter_nil_iff in E. intros c Hc Hd Htc. by apply (E c Hc).
  - assert (c ∈ filter (λ c, todo c ∧ key c ∈ deps a) l) as Hc by (rewrite E; left). apply list_elem_of_filter in Hc as [[Htc Hd] Hc]. by apply (IH c).
Qed.

(** ** What waits for nobody *)
Definition live (p : GoalplanWorkPhase) : Prop := PStatus p = WorkPhasePending ∨ PStatus p = WorkPhaseInProgress.
#[export] Instance live_dec p : Decision (live p).
Proof. unfold live. apply _. Defined.

Record unhindered (plan : Goalplan) : Prop := mkUnhindered {
  none_blocked : ∀ p, p ∈ WorkPhases plan → PStatus p ≠ WorkPhaseBlocked;
  none_awaiting : ∀ p, p ∈ WorkPhases plan → live p → awaits_decided plan p;
  none_orphaned : ∀ p q, p ∈ WorkPhases plan → live p → q ∈ WorkPhases plan → PhaseID q ∈ DependsOn p → PStatus q ≠ WorkPhaseSuperseded;
  all_named : ∀ p, p ∈ WorkPhases plan → PhaseID p ≠ ""
}.

Lemma runnable_iff plan p : IsRunnablePhase plan p = true ↔ live p ∧ WorkPhaseReadyConditionsMet plan p = true.
Proof. unfold IsRunnablePhase, live. by rewrite andb_true_iff, orb_true_iff, !bool_decide_eq_true. Qed.

Lemma some_runnable plan : plan_sound plan → unhindered plan → RemainingWorkPhases plan ≠ [] → ∃ p, p ∈ WorkPhases plan ∧ IsRunnablePhase plan p = true.
Proof.
  intros Hs Hu Hr. pose proof (definitions _ Hs) as Hd. destruct (RemainingWorkPhases plan) as [|a rest] eqn:E; [done|].
  assert (a ∈ RemainingWorkPhases plan) as Ha by (rewrite E; left). apply list_elem_of_filter in Ha as [[Hnd Hns] Ha].
  assert (live a) as Hlive by (pose proof (none_blocked _ Hu a Ha); unfold live; destruct (PStatus a); tauto).
  destruct (first_to_do PhaseID DependsOn live (WorkPhases plan) a) as (p & Hp & Hlp & Hfirst); [|done|done|].
  - apply acc_keyed; [by apply phases_once|intros q id Hq; apply (depends_known _ _ (phases_sound _ Hd q Hq))|by apply (phases_acyclic _ Hd)|done].
  - exists p. split; [done|]. apply runnable_iff. split; [done|]. apply ready_iff; [done|]. split; [|by apply none_awaiting].
    intros id Hid. destruct (depends_known _ _ (phases_sound _ Hd p Hp) id Hid) as [_ (q & -> & Hq)%list_elem_of_fmap]. exists q. split_and!; [done|done|].
    pose proof (Hfirst q Hq Hid) as Hnl. pose proof (none_blocked _ Hu q Hq). pose proof (none_orphaned _ Hu p q Hp Hlp Hq Hid). unfold live in Hnl. destruct (PStatus q); tauto.
Qed.

Lemma some_ready_task plan p : definition_sound plan → p ∈ WorkPhases plan → ¬ all_tasks_done p → ∃ t, t ∈ Tasks p ∧ ready_task p t = true.
Proof.
  intros Hd Hp Hnot. pose proof (phases_sound _ Hd p Hp) as Hps. destruct (filter (λ t, TStatus t = TaskPending) (Tasks p)) as [|a rest] eqn:E.
  { destruct Hnot. intros t Ht. rewrite filter_nil_iff in E. specialize (E t Ht). by destruct (TStatus t). }
  assert (a ∈ filter (λ t, TStatus t = TaskPending) (Tasks p)) as Ha by (rewrite E; left). apply list_elem_of_filter in Ha as [Hpend Ha].
  destruct (first_to_do TaskID TaskDependsOn (λ t, TStatus t = TaskPending) (Tasks p) a) as (t & Ht & Htp & Hfirst); [|done|done|].
  - apply acc_keyed; [apply (tasks_once _ _ Hps)|apply (task_depends_known _ _ Hps)|apply (tasks_acyclic _ _ Hps)|done].
  - exists t. split; [done|]. unfold ready_task. apply andb_true_iff. split; [by apply bool_decide_eq_true|]. apply task_dependencies_met; [apply (tasks_once _ _ Hps)|].
    intros id Hid. destruct (task_depends_known _ _ Hps t id Ht Hid) as [_ (u & -> & Hu)%list_elem_of_fmap]. exists u. split_and!; [done|done|].
    pose proof (Hfirst u Hu Hid). by destruct (TStatus u).
Qed.

(** The cursor falls on a phase that can run whenever there is one. *)
Lemma effective_runnable plan : NoDup (PhaseID <$> WorkPhases plan) → (∃ p, p ∈ WorkPhases plan ∧ IsRunnablePhase plan p = true) →
  ∃ p, p ∈ WorkPhases plan ∧ IsRunnablePhase plan p = true ∧ EffectiveActiveWorkPhaseID plan = Some (PhaseID p).
Proof.
  intros Hn (p & Hp & Hr). unfold EffectiveActiveWorkPhaseID. set (cursor := match ActiveWorkPhaseID plan with Some id => _ | None => None end).
  assert (∀ id, cursor = Some id → ∃ p, p ∈ WorkPhases plan ∧ IsRunnablePhase plan p = true ∧ id = PhaseID p) as Hcur.
  { intros id. unfold cursor. destruct (ActiveWorkPhaseID plan) as [a|]; [|done]. case_bool_decide; [done|]. destruct (queryFindWorkPhase plan a) as [q|] eqn:E; [|done].
    apply find_phase in E as [Hq _]; [|done]. destruct (IsRunnablePhase plan q) eqn:Eq; [|done]. intros [= <-]. eauto. }
  destruct cursor as [id|]; [destruct (Hcur id eq_refl) as (q & ? & ? & ->); eauto|]. clear Hcur.
  assert (∀ st q rest, filter (λ p, PStatus p = st ∧ IsRunnablePhase plan p = true) (WorkPhases plan) = q :: rest → q ∈ WorkPhases plan ∧ IsRunnablePhase plan q = true) as Hhead.
  { intros st q rest E. assert (q ∈ filter (λ p, PStatus p = st ∧ IsRunnablePhase plan p = true) (WorkPhases plan)) as Hq by (rewrite E; left).
    apply list_elem_of_filter in Hq. naive_solver. }
  destruct (filter _ _) as [|q rest] eqn:E1; [|destruct (Hhead _ _ _ E1); eauto]. destruct (filter (λ p, PStatus p = WorkPhasePending ∧ _) _) as [|q rest] eqn:E2; [|destruct (Hhead _ _ _ E2); eauto].
  exfalso. rewrite filter_nil_iff in E1, E2. apply runnable_iff in Hr as Hl. destruct Hl as [[Hst|Hst] _]; [by apply (E2 p)|by apply (E1 p)].
Qed.

(** ** A close *)
Definition closed_plan (plan : Goalplan) (id : string) : Goalplan := with_cursor plan None (set_status id WorkPhaseDone (WorkPhases plan)).

(** What a close makes of a phase. *)
Definition settle_phase (id : string) (succ : option GoalplanWorkPhase) (q : GoalplanWorkPhase) : GoalplanWorkPhase :=
  let q := if bool_decide (PhaseID q = id) then with_status q WorkPhaseDone else q in
  match succ with Some n => if bool_decide (PhaseID q = PhaseID n) then with_status q WorkPhaseInProgress else q | None => q end.

Lemma settled_phases plan id succ : WorkPhases (settled_plan (closed_plan plan id) succ) = settle_phase id succ <$> WorkPhases plan.
Proof. destruct succ as [n|]; simpl; unfold set_status; [rewrite <- list_fmap_compose|]; by apply list_fmap_ext. Qed.

(** A successor is live in the closed plan, so it is another phase than the closed one. *)
Lemma successor_other plan id idx recorded n : close_successor plan (closed_plan plan id) idx id recorded = inr (Some n) → n ∈ WorkPhases plan ∧ PhaseID n ≠ id ∧ live n.
Proof.
  intros (Hn & Hl & _)%close_successor_spec. apply elem_of_set_status in Hn as (q & Hq & ->). case_bool_decide; [by destruct Hl|]. by split_and!.
Qed.

Lemma settle_phase_done id succ q : (∀ n, succ = Some n → PhaseID n ≠ id) → PhaseID q = id → settle_phase id succ q = with_status q WorkPhaseDone.
Proof.
  intros Hs Hq. unfold settle_phase. rewrite (bool_decide_eq_true_2 _ Hq). destruct succ as [n|]; [|done]. rewrite bool_decide_eq_false_2; [done|]. simpl. rewrite Hq. intros E. by apply (Hs n).
Qed.

Lemma find_index plan p : NoDup (PhaseID <$> WorkPhases plan) → p ∈ WorkPhases plan → ∃ idx, list_find (λ q, PhaseID q = PhaseID p) (WorkPhases plan) = Some (idx, p).
Proof.
  intros Hn Hp. destruct (list_find_elem_of (λ q, PhaseID q = PhaseID p) (WorkPhases plan) p Hp eq_refl) as [[idx q] Hf]. exists idx.
  pose proof Hf as (Hi & He & _)%list_find_Some. assert (q = p) as ->; [|done]. apply (keyed_unique PhaseID (WorkPhases plan)); [done|by eapply list_elem_of_lookup_2|done|done].
Qed.

(** A phase that can run and has its tasks done can be closed. *)
Lemma close_runnable plan p : NoDup (PhaseID <$> WorkPhases plan) → p ∈ WorkPhases plan → IsRunnablePhase plan p = true → all_tasks_done p →
  ∃ succ, (∀ n, succ = Some n → n ∈ WorkPhases plan ∧ PhaseID n ≠ PhaseID p ∧ live n) ∧
    workPhaseCloseFixed plan (PhaseID p) NextUnknown = WorkPhaseCloseFixedOK (PhaseID p) (settled_plan (closed_plan plan (PhaseID p)) succ).
Proof.
  intros Hn Hp Hr Ht. apply runnable_iff in Hr as [Hl Hr]. destruct (find_index plan p Hn Hp) as [idx Hf]. pose proof Hf as (Hidx & _)%list_find_Some.
  destruct (close_successor plan (closed_plan plan (PhaseID p)) idx (PhaseID p) NextUnknown) as [?|succ] eqn:Ec; [done|].
  assert (∀ n, succ = Some n → n ∈ WorkPhases plan ∧ PhaseID n ≠ PhaseID p ∧ live n) as Hsucc by (intros n ->; by eapply successor_other).
  exists succ. split; [done|]. unfold workPhaseCloseFixed. rewrite Hf.
  assert (close_gated plan (PhaseID p) NextUnknown idx p = WorkPhaseCloseFixedOK (PhaseID p) (settled_plan (closed_plan plan (PhaseID p)) succ)) as Hg.
  { unfold close_gated. rewrite Hr. cbn [negb]. assert (filter (λ t, TStatus t ≠ TaskDone) (Tasks p) = []) as -> by (apply filter_nil_iff; intros t Hin Hne; by apply Hne, Ht).
    fold (closed_plan plan (PhaseID p)). rewrite Ec. destruct (workPhaseSamePlanShape _ _) eqn:Esh; [|done]. exfalso.
    unfold workPhaseSamePlanShape in Esh. apply andb_true_iff in Esh as [_ Esh]. apply bool_decide_eq_true in Esh. rewrite settled_phases in Esh.
    apply (f_equal (.!! idx)) in Esh. rewrite !list_lookup_fmap, Hidx in Esh. simpl in Esh. rewrite settle_phase_done in Esh; [|intros n En; by apply Hsucc|done].
    injection Esh as Est. simpl in Est. unfold live in Hl. rewrite Est in Hl. by destruct Hl. }
  destruct Hl as [E|E]; by rewrite E.
Qed.

Lemma advance_runnable plan p : NoDup (PhaseID <$> WorkPhases plan) → p ∈ WorkPhases plan → IsRunnablePhase plan p = true → all_tasks_done p → PhaseID p ≠ "" →
  EffectiveActiveWorkPhaseID plan = Some (PhaseID p) →
  ∃ succ, (∀ n, succ = Some n → n ∈ WorkPhases plan ∧ PhaseID n ≠ PhaseID p ∧ live n) ∧
    workPhaseAdvance plan = WorkPhaseAdvanceOK (PhaseID p) (settled_plan (closed_plan plan (PhaseID p)) succ).
Proof.
  intros Hn Hp Hr Ht He Ha. destruct (close_runnable plan p Hn Hp Hr Ht) as (succ & Hs & Hc). exists succ. split; [done|]. unfold workPhaseAdvance. by rewrite Ha, bool_decide_eq_false_2, Hc.
Qed.

(** A task that is ready can be completed. *)
Lemma complete_ready plan p t text : definition_sound plan → p ∈ WorkPhases plan → IsRunnablePhase plan p = true → t ∈ Tasks p → ready_task p t = true → Trim text ≠ "" →
  CompleteGoalplanTask plan (PhaseID p) (TaskID t) text = GoalplanLifecycleChanged (completed_plan plan (PhaseID p) (TaskID t) (Trim text)).
Proof.
  intros Hd Hp Hr Ht Hready Htext. pose proof (phases_once _ Hd) as Hn. pose proof (tasks_once _ _ (phases_sound _ Hd p Hp)) as Htn. unfold CompleteGoalplanTask.
  rewrite (bool_decide_eq_false_2 _ Htext). assert (queryFindWorkPhase plan (PhaseID p) = Some p) as -> by (by apply find_phase). simpl.
  assert (queryFindTask p (TaskID t) = Some t) as -> by (by apply find_task). simpl. unfold goalplanAmbiguousWorkPhaseMatches, goalplanAmbiguousTaskMatches.
  rewrite (filter_keyed PhaseID _ p Hn Hp), (filter_keyed TaskID _ t Htn Ht). simpl. pose proof Hready as Hpend. unfold ready_task in Hpend. apply andb_true_iff in Hpend as [Hpend%bool_decide_eq_true _].
  rewrite bool_decide_eq_false_2 by (by rewrite Hpend). assert (existsb (λ e, bool_decide (e.1 = PhaseID p) && bool_decide (TaskID e.2 = TaskID t)) (ReadyTasks plan) = true) as ->; [|done].
  apply existsb_exists. exists (PhaseID p, t). split; [|simpl; by rewrite !bool_decide_eq_true_2]. apply list_elem_of_In. unfold ReadyTasks. apply list_elem_of_bind. exists p. split.
  - apply list_elem_of_fmap. exists t. split; [done|]. by apply list_elem_of_filter.
  - by apply list_elem_of_filter.
Qed.

Lemma meet_open plan c text : NoDup (CriterionID <$> Criteria plan) → c ∈ Criteria plan → CStatus c = CriterionOpen → Trim text ≠ "" →
  MeetGoalplanCriterion plan (CriterionID c) text =
    GoalplanLifecycleChanged (with_criteria plan ((λ d, if bool_decide (CriterionID d = CriterionID c) then met (Trim text) d else d) <$> Criteria plan)).
Proof. intros Hn Hc Ho Ht. unfold MeetGoalplanCriterion. by rewrite (bool_decide_eq_false_2 _ Ht), (filter_keyed CriterionID _ c Hn Hc), Ho. Qed.

(** ** What is left to do *)
Definition task_load (t : GoalplanTask) : nat := match TStatus t with TaskPending => 1 | TaskDone => 0 end.
Definition phase_load (p : GoalplanWorkPhase) : nat := sum_list (task_load <$> Tasks p) + (if bool_decide (live p) then 1 else 0).
Definition criterion_load (c : GoalplanCriterion) : nat := match CStatus c with CriterionOpen => 1 | CriterionMet => 0 end.
Definition load (plan : Goalplan) : nat := sum_list (phase_load <$> WorkPhases plan) + sum_list (criterion_load <$> Criteria plan).

Lemma sum_map_le {A} (w : A → nat) (f : A → A) l : (∀ x, x ∈ l → (w (f x) ≤ w x)%nat) → (sum_list (w <$> (f <$> l)) ≤ sum_list (w <$> l))%nat.
Proof.
  induction l as [|x l IH]; intros H; [done|]. csimpl. specialize (H x ltac:(left)) as Hx. assert (sum_list (w <$> (f <$> l)) ≤ sum_list (w <$> l))%nat; [|lia].
  apply IH. intros y Hy. apply H. by right.
Qed.

Lemma sum_map_lt {A} (w : A → nat) (f : A → A) l a : (∀ x, x ∈ l → (w (f x) ≤ w x)%nat) → a ∈ l → (w (f a) < w a)%nat → (sum_list (w <$> (f <$> l)) < sum_list (w <$> l))%nat.
Proof.
  induction l as [|x l IH]; intros H Ha Hlt; [by apply not_elem_of_nil in Ha|]. csimpl.
  assert (∀ y, y ∈ l → (w (f y) ≤ w y)%nat) as Hl by (intros y Hy; apply H; by right). pose proof (H x ltac:(left)) as Hx. apply elem_of_cons in Ha as [<-|Ha].
  - pose proof (sum_map_le w f l Hl). lia.
  - pose proof (IH Hl Ha Hlt). lia.
Qed.

(** ** A step of the work: a task is completed, the cursor advances, a criterion is met. *)
Inductive work_step (plan next : Goalplan) : Prop :=
| work_task phase task outcome : CompleteGoalplanTask plan phase task outcome = GoalplanLifecycleChanged next → work_step plan next
| work_advance closed : workPhaseAdvance plan = WorkPhaseAdvanceOK closed next → work_step plan next
| work_criterion id evidence : MeetGoalplanCriterion plan id evidence = GoalplanLifecycleChanged next → work_step plan next.

Lemma work_keeps plan next : plan_sound plan → work_step plan next → plan_sound next.
Proof.
  intros Hs []; [by eapply complete_keeps| |by eapply meet_keeps]. destruct (advance_ok _ _ _ H) as (id & _ & _ & Hc). by eapply close_keeps.
Qed.

Lemma unhindered_map plan plan' f : unhindered plan → WorkPhases plan' = f <$> WorkPhases plan → Decisions plan' = Decisions plan →
  (∀ p, p ∈ WorkPhases plan → PhaseID (f p) = PhaseID p ∧ DependsOn (f p) = DependsOn p ∧ AwaitsDecision (f p) = AwaitsDecision p ∧
    (PStatus (f p) = PStatus p ∨ live p ∧ (live (f p) ∨ PStatus (f p) = WorkPhaseDone))) → unhindered plan'.
Proof.
  intros Hu Hm Hd Hf. assert (∀ p, p ∈ WorkPhases plan → live (f p) → live p) as Hlive by (intros p Hp Hl; destruct (Hf p Hp) as (_ & _ & _ & [E|[? _]]); [unfold live in *; by rewrite E in Hl|done]).
  split; rewrite Hm.
  - intros p' (p & -> & Hp)%list_elem_of_fmap. destruct (Hf p Hp) as (_ & _ & _ & [E|[_ E]]); [rewrite E; by apply (none_blocked _ Hu)|]. destruct E as [[E|E]|E]; by rewrite E.
  - intros p' (p & -> & Hp)%list_elem_of_fmap Hl id Hid. rewrite Hd. destruct (Hf p Hp) as (_ & _ & E & _). rewrite E in Hid. by apply (none_awaiting _ Hu p Hp); [apply Hlive|].
  - intros p' q' (p & -> & Hp)%list_elem_of_fmap Hl (q & -> & Hq)%list_elem_of_fmap Hid. destruct (Hf p Hp) as (_ & E & _). destruct (Hf q Hq) as (Eq & _ & _ & Hst). rewrite E, Eq in Hid.
    pose proof (none_orphaned _ Hu p q Hp (Hlive p Hp Hl) Hq Hid) as Hns. destruct Hst as [Est|[_ Est]]; [by rewrite Est|]. destruct Est as [[Est|Est]|Est]; by rewrite Est.
  - intros p' (p & -> & Hp)%list_elem_of_fmap. destruct (Hf p Hp) as (-> & _). by apply (all_named _ Hu).
Qed.

Lemma complete_in_load phase task outcome p : (phase_load (complete_in phase task outcome p) ≤ phase_load p)%nat.
Proof.
  unfold complete_in. case_bool_decide; [|done]. unfold phase_load. change (bool_decide (live (with_tasks p _))) with (bool_decide (live p)). simpl. apply Nat.add_le_mono_r.
  apply sum_map_le. intros t _. by case_bool_decide; [unfold task_load; simpl; lia|].
Qed.

Lemma complete_less plan p t outcome : p ∈ WorkPhases plan → t ∈ Tasks p → TStatus t = TaskPending → (load (completed_plan plan (PhaseID p) (TaskID t) outcome) < load plan)%nat.
Proof.
  intros Hp Ht Hpend. unfold load. simpl. apply Nat.add_lt_mono_r. apply (sum_map_lt phase_load (complete_in (PhaseID p) (TaskID t) outcome) _ p); [intros; apply complete_in_load|done|].
  unfold complete_in, phase_load. rewrite bool_decide_eq_true_2 by done. change (bool_decide (live (with_tasks p _))) with (bool_decide (live p)). simpl. apply Nat.add_lt_mono_r.
  apply (sum_map_lt task_load _ _ t); [|done|rewrite (bool_decide_eq_true_2 _ eq_refl); unfold task_load; simpl; rewrite Hpend; lia].
  intros u _. by case_bool_decide; [unfold task_load; simpl; lia|].
Qed.

Lemma settle_less plan p succ : p ∈ WorkPhases plan → live p → NoDup (PhaseID <$> WorkPhases plan) → (∀ n, succ = Some n → n ∈ WorkPhases plan ∧ PhaseID n ≠ PhaseID p ∧ live n) →
  (load (settled_plan (closed_plan plan (PhaseID p)) succ) < load plan)%nat.
Proof.
  intros Hp Hl Hn Hs. unfold load. replace (Criteria (settled_plan _ succ)) with (Criteria plan) by (by destruct succ). apply Nat.add_lt_mono_r. rewrite settled_phases.
  apply (sum_map_lt _ _ _ p); [|done|].
  - intros q Hq. destruct (decide (PhaseID q = PhaseID p)) as [He|He].
    + rewrite settle_phase_done; [|intros n En; by apply Hs|done]. unfold phase_load. rewrite (bool_decide_eq_false_2 (live (with_status q WorkPhaseDone))) by (by intros [|]). simpl. lia.
    + unfold settle_phase. rewrite (bool_decide_eq_false_2 _ He). destruct succ as [n|]; [|done]. case_bool_decide as En; [|done]. destruct (Hs n eq_refl) as (Hnin & _ & Hnl).
      assert (q = n) as -> by (by apply (keyed_unique PhaseID (WorkPhases plan))). unfold phase_load. rewrite (bool_decide_eq_true_2 (live n)) by done. simpl. lia.
  - rewrite settle_phase_done; [|intros n En; by apply Hs|done]. unfold phase_load. rewrite (bool_decide_eq_true_2 (live p)) by done.
    rewrite (bool_decide_eq_false_2 (live (with_status p WorkPhaseDone))) by (by intros [|]). simpl. lia.
Qed.

(** A plan that is not complete has a step that leaves less to do, and still waits for nobody. *)
Lemma work_continues plan : plan_sound plan → unhindered plan → IsGoalplanComplete plan = false → ∃ next, work_step plan next ∧ unhindered next ∧ (load next < load plan)%nat.
Proof.
  intros Hs Hu Hc. pose proof (definitions _ Hs) as Hd. destruct (decide (RemainingWorkPhases plan = [])) as [Hr|Hr].
  - assert (UnmetCriteria plan ≠ []) as Hun. { intros E. unfold IsGoalplanComplete in Hc. rewrite Hr, E, (proj2 (open_tasks_nil plan) (done_tasks _ Hs)) in Hc. done. }
    destruct (UnmetCriteria plan) as [|c rest] eqn:E; [done|]. assert (c ∈ UnmetCriteria plan) as Hin by (rewrite E; left). apply list_elem_of_filter in Hin as [Ho Hin].
    pose proof (meet_open plan c "x" (criteria_once _ Hd) Hin Ho ltac:(done)) as Hm. eexists. split_and!; [by eapply work_criterion| |].
    + apply (unhindered_map plan _ (λ p, p)); [done|by rewrite list_fmap_id|done|]. intros p _. by split_and!; [| | |left].
    + unfold load. simpl. apply Nat.add_lt_mono_l. apply (sum_map_lt criterion_load _ _ c); [|done|rewrite (bool_decide_eq_true_2 _ eq_refl); unfold criterion_load; simpl; rewrite Ho; lia].
      intros d _. case_bool_decide; [unfold criterion_load; simpl; lia|done].
  - destruct (effective_runnable plan (phases_once _ Hd) (some_runnable plan Hs Hu Hr)) as (p & Hp & Hrun & Hact).
    destruct (decide (Forall (λ t, TStatus t = TaskDone) (Tasks p))) as [Hall|Hall]; rewrite Forall_forall in Hall.
    + destruct (advance_runnable plan p (phases_once _ Hd) Hp Hrun Hall (all_named _ Hu p Hp) Hact) as (succ & Hsucc & Hadv).
      apply runnable_iff in Hrun as [Hl _]. eexists. split_and!; [by eapply work_advance| |by apply settle_less; [| |apply phases_once|]].
      apply (unhindered_map plan _ (settle_phase (PhaseID p) succ)); [done|apply settled_phases|by destruct succ|]. intros q Hq.
      split_and!; [unfold settle_phase; repeat case_match; done..|]. destruct (decide (PhaseID q = PhaseID p)) as [He|He].
      * right. assert (q = p) as -> by (by apply (keyed_unique PhaseID (WorkPhases plan)); [apply phases_once| | |]). split; [done|]. right.
        rewrite settle_phase_done; [done|intros n En; by apply Hsucc|done].
      * unfold settle_phase. rewrite (bool_decide_eq_false_2 _ He). destruct succ as [n|]; [|by left]. case_bool_decide as En; [|by left]. right. destruct (Hsucc n eq_refl) as (Hn & _ & Hnl).
        assert (q = n) as -> by (by apply (keyed_unique PhaseID (WorkPhases plan)); [apply phases_once| | |]). split; [done|]. left. by right.
    + destruct (some_ready_task plan p Hd Hp Hall) as (t & Ht & Hready). pose proof (complete_ready plan p t "x" Hd Hp Hrun Ht Hready ltac:(done)) as Hcomp.
      unfold ready_task in Hready. apply andb_true_iff in Hready as [Hpend%bool_decide_eq_true _]. eexists. split_and!; [by eapply work_task| |by apply complete_less].
      apply (unhindered_map plan _ (complete_in (PhaseID p) (TaskID t) (Trim "x"))); [done|done|done|]. intros q _. unfold complete_in. case_bool_decide; by split_and!; [| | |left].
Qed.

Lemma work_finishes plan : plan_sound plan → unhindered plan → ∃ final, rtc work_step plan final ∧ plan_sound final ∧ IsGoalplanComplete final = true.
Proof.
  remember (load plan) as n eqn:En. revert plan En. induction n as [n IH] using lt_wf_ind. intros plan -> Hs Hu.
  destruct (IsGoalplanComplete plan) eqn:Hc; [by exists plan|]. destruct (work_continues plan Hs Hu Hc) as (next & Hstep & Hu' & Hless).
  destruct (IH (load next) Hless next eq_refl (work_keeps _ _ Hs Hstep) Hu') as (final & Hsteps & Hfs & Hfc). exists final. split_and!; [by eapply rtc_l|done|done].
Qed.

(** * What the answers about a goal plan mean: a deadlock, a wait for decisions, a close that is tried again, a certificate. *)
(** ** Deadlock *)
Lemma unmet_phase_nil plan p : queryUnmetPhaseDependencyIDs plan p = [] ↔ WorkPhaseDependenciesMet plan p = true.
Proof.
  unfold queryUnmetPhaseDependencyIDs, WorkPhaseDependenciesMet. rewrite filter_nil_iff, forallb_forall. split; intros H id Hid.
  - apply not_false_iff_true, H, elem_of_unique. by apply list_elem_of_In.
  - rewrite H; [done|]. by apply list_elem_of_In, elem_of_unique.
Qed.

Lemma unmet_task_nil p t : queryUnmetTaskDependencyIDs p t = [] ↔ TaskDependenciesMet p t = true.
Proof.
  unfold queryUnmetTaskDependencyIDs, TaskDependenciesMet. rewrite filter_nil_iff, forallb_forall. split; intros H id Hid.
  - apply not_false_iff_true, H, elem_of_unique. by apply list_elem_of_In.
  - rewrite H; [done|]. by apply list_elem_of_In, elem_of_unique.
Qed.

(** A phase that can run and cannot proceed has a task that waits. *)
Lemma stuck_reasons p : can_proceed p = false → queryTaskWaitReasons p ≠ [].
Proof.
  intros [Hr Ha]%orb_false_iff Hn. apply not_true_iff_false in Ha. destruct Ha. apply forallb_forall. intros t Ht%list_elem_of_In. apply bool_decide_eq_true. apply dec_stable. intros Hnd.
  unfold queryTaskWaitReasons in Hn. rewrite bind_nil_iff in Hn. specialize (Hn t Ht). simpl in Hn. assert (TStatus t = TaskPending) as Hp by (by destruct (TStatus t)).
  rewrite bool_decide_eq_true_2 in Hn by done. destruct (queryUnmetTaskDependencyIDs p t) eqn:E; [|done]. apply unmet_task_nil in E.
  apply not_true_iff_false in Hr. destruct Hr. apply existsb_exists. exists t. split; [by apply list_elem_of_In|]. unfold ready_task. by rewrite bool_decide_eq_true_2, E.
Qed.

Lemma deadlock_reasons_some plan p : PStatus p ≠ WorkPhaseDone → PStatus p ≠ WorkPhaseSuperseded → (IsRunnablePhase plan p = true → can_proceed p = false) → deadlock_reasons plan p ≠ [].
Proof.
  intros Hd Hs Hc. unfold deadlock_reasons. case_bool_decide as Hb; [done|]. destruct (queryUnmetPhaseDependencyIDs plan p) eqn:E; [|done].
  apply unmet_phase_nil in E. intros [Hw Ht]%app_nil. revert Ht. apply stuck_reasons, Hc, runnable_iff. split; [unfold live; destruct (PStatus p); tauto|].
  unfold WorkPhaseReadyConditionsMet. rewrite E. simpl. apply bool_decide_eq_true. unfold queryDecisionWaitReasons in Hw. by destruct (OpenDecisionIDsForPhase plan p).
Qed.

Lemma deadlock_None plan : DetectDependencyDeadlock plan = None ↔
  RemainingWorkPhases plan = [] ∨ ∃ p, p ∈ WorkPhases plan ∧ IsRunnablePhase plan p = true ∧ can_proceed p = true.
Proof.
  assert (existsb can_proceed (ReadyWorkPhases plan) = true ↔ ∃ p, p ∈ WorkPhases plan ∧ IsRunnablePhase plan p = true ∧ can_proceed p = true) as Hex.
  { rewrite existsb_exists. unfold ReadyWorkPhases. split; [intros (p & [Hr Hp]%list_elem_of_In%list_elem_of_filter & Hc); eauto|]. intros (p & Hp & Hr & Hc). exists p.
    split; [by apply list_elem_of_In, list_elem_of_filter|done]. }
  rewrite <- Hex. unfold DetectDependencyDeadlock. case_bool_decide as Hn; [tauto|]. destruct (existsb _ _) eqn:E; [tauto|]. split; [|intros [?|?]; done].
  destruct (RemainingWorkPhases plan) as [|p rest] eqn:Er; [done|]. csimpl. destruct (deadlock_reasons plan p) eqn:Ed; [|done]. exfalso.
  assert (p ∈ RemainingWorkPhases plan) as Hp by (rewrite Er; left). apply list_elem_of_filter in Hp as [[H1 H2] Hp]. revert Ed. apply deadlock_reasons_some; [done|done|].
  intros Hr. apply not_true_iff_false. intros Hc. assert (false = true) by (apply Hex; eauto). done.
Qed.

(** ** Waiting for decisions *)
Definition awaited_open (plan : Goalplan) : Prop := ∃ p d, p ∈ WorkPhases plan ∧ live p ∧ d ∈ Decisions plan ∧ DecisionID d ∈ AwaitsDecision p ∧ DStatus d = DecisionOpen.

Lemma open_decision_match plan id : queryDecisionMatches plan id = (1, Some DecisionOpen) → ∃ d, d ∈ Decisions plan ∧ DecisionID d = id ∧ DStatus d = DecisionOpen.
Proof.
  unfold queryDecisionMatches. destruct (filter _ _) as [|d [|]] eqn:E; [done| |done]. simpl. intros [= Hst].
  assert (d ∈ filter (λ d, DecisionID d = id) (Decisions plan)) as Hd by (rewrite E; left). apply list_elem_of_filter in Hd as [? ?]. eauto.
Qed.

Lemma waiting_spec plan fuel visiting p : definition_sound plan → p ∈ WorkPhases plan → waiting fuel plan (by_id ((λ p, (PhaseID p, p)) <$> WorkPhases plan)) visiting p = true →
  WorkPhaseReadyConditionsMet plan p = false ∧ awaited_open plan.
Proof.
  intros Hd. pose proof (phases_once _ Hd) as Hn. revert visiting p. induction fuel as [|fuel IH]; intros visiting p Hp; [done|]. simpl. intros [Hl Hw]%andb_true_iff.
  assert (live p) as Hlive by (apply orb_true_iff in Hl; unfold live; by rewrite !bool_decide_eq_true in Hl). apply orb_true_iff in Hw as [Hw|Hw].
  - apply existsb_exists in Hw as (id & Hid%list_elem_of_In & (d & Hdin & <- & Hopen)%bool_decide_eq_true%open_decision_match). split; [|exists p, d; by split_and!].
    apply not_true_iff_false. intros [_ Hdec]%ready_iff; [|done]. destruct (Hdec _ Hid) as (e & He & Heq & Hst). assert (e = d) as -> by (by apply (keyed_unique DecisionID (Decisions plan)); [apply decisions_once| | |]).
    congruence.
  - apply andb_true_iff in Hw as [_ Hw]. apply existsb_exists in Hw as (id & Hid%list_elem_of_In & Hw). destruct (_ !! id) as [q|] eqn:E; [|done].
    apply (by_id_keyed PhaseID (λ p, p)) in E as (q' & Hq & <- & ->); [|done]. apply andb_true_iff in Hw as [Hnd%negb_true_iff%bool_decide_eq_false Hw].
    split; [|by apply (IH _ q Hq Hw)]. apply not_true_iff_false. intros [Hdeps _]%ready_iff; [|done]. destruct (Hdeps _ Hid) as (r & Hr & Hre & Hrd).
    assert (r = q) as -> by (by apply (keyed_unique PhaseID (WorkPhases plan))). done.
Qed.

Lemma yield_safe plan : RemainingWorkAwaitsDecisions plan = true → plan_sound plan ∧ ReadyWorkPhases plan = [] ∧ awaited_open plan.
Proof.
  unfold RemainingWorkAwaitsDecisions. rewrite !andb_true_iff, negb_true_iff, bool_decide_eq_false. intros [[[Hv Hr] Hw] _]. apply structural_valid in Hv. pose proof (definitions _ Hv) as Hd.
  rewrite forallb_forall in Hw. assert (∀ p, p ∈ RemainingWorkPhases plan → WorkPhaseReadyConditionsMet plan p = false ∧ awaited_open plan) as Hall.
  { intros p Hp. pose proof Hp as [_ Hin]%list_elem_of_filter. eapply waiting_spec; [done|done|]. by apply Hw, list_elem_of_In. }
  split_and!; [done| |].
  - apply filter_nil_iff. intros p Hp [Hl Hrun]%runnable_iff. destruct (Hall p) as [Hno _]; [|congruence]. apply list_elem_of_filter. split; [|done]. by destruct Hl as [E|E]; rewrite E.
  - destruct (RemainingWorkPhases plan) as [|p rest]; [done|]. apply (Hall p). left.
Qed.

(** ** A close that is tried again *)
Lemma set_status_same id s l : (∀ q, q ∈ l → PhaseID q = id → PStatus q = s) → set_status id s l = l.
Proof.
  intros H. unfold set_status. rewrite <- (list_fmap_id l) at 2. apply list_fmap_ext. intros i q Hq%list_elem_of_lookup_2. simpl. case_bool_decide as He; [|done]. rewrite <- (H q Hq He). by destruct q.
Qed.

Lemma same_shape plan : workPhaseSamePlanShape plan plan = true.
Proof. unfold workPhaseSamePlanShape. by rewrite !bool_decide_eq_true_2. Qed.

(** The recorded successor of a first close is the one the close chose. *)
Lemma recorded_again plan id idx n : plan_sound (closed_plan plan id) → close_successor plan (closed_plan plan id) idx id NextUnknown = inr (Some n) → PhaseID n ≠ "" →
  close_successor plan (closed_plan plan id) idx id (NextKnown (Some (PhaseID n))) = inr (Some n).
Proof.
  intros Hs Hc Hne. destruct (successor_other _ _ _ _ _ Hc) as (_ & Hother & Hl). destruct (close_successor_spec _ _ _ _ _ _ Hc) as (Hin & _ & Hr).
  unfold close_successor. rewrite !bool_decide_eq_false_2 by done. simpl.
  assert (queryFindWorkPhase (closed_plan plan id) (PhaseID n) = Some n) as -> by (apply find_phase; [apply phases_once, Hs|done]). rewrite Hr. by destruct Hl as [E|E]; rewrite E.
Qed.

(** A plan that was settled, closed again with the successor it has, stays as it is. *)
Lemma settled_again plan id idx succ p : plan_sound (closed_plan plan id) → p ∈ WorkPhases plan → PhaseID p = id →
  close_successor plan (closed_plan plan id) idx id NextUnknown = inr succ → (∀ n, succ = Some n → PhaseID n ≠ "") →
  let next := settled_plan (closed_plan plan id) succ in
  closed_plan next id = with_cursor next None (WorkPhases next) ∧
  ∀ idx', ∃ succ', close_successor next (closed_plan next id) idx' id (NextKnown (ActiveWorkPhaseID next)) = inr succ' ∧ settled_plan (closed_plan next id) succ' = next.
Proof.
  intros Hs Hp Hid Hc Hne next. assert (∀ n, succ = Some n → PhaseID n ≠ id) as Hother by (intros n ->; by apply (successor_other _ _ _ _ _ Hc)).
  assert (closed_plan next id = with_cursor next None (WorkPhases next)) as Hclosed.
  { unfold closed_plan at 1. f_equal. apply set_status_same. intros q' Hq' He. unfold next in Hq'. rewrite settled_phases in Hq'. apply list_elem_of_fmap in Hq' as (q & -> & Hq).
    assert (PhaseID q = id) as Hqi. { revert He. unfold settle_phase. repeat case_match; done. } by rewrite settle_phase_done. }
  split; [done|]. intros idx'. rewrite Hclosed. destruct succ as [n|]; [|by exists None].
  destruct (close_successor_spec _ _ _ _ _ _ Hc) as (Hin & Hl & Hr). pose proof (definitions _ Hs) as Hd. pose proof (settled_sound _ _ Hs Hin Hl) as Hns. fold next in Hns.
  pose proof (definitions _ Hns) as Hnd. set (n' := with_status n WorkPhaseInProgress).
  assert (n' ∈ WorkPhases next) as Hn'. { apply elem_of_set_status. exists n. by rewrite bool_decide_eq_true_2. }
  assert (WorkPhaseReadyConditionsMet next n' = true) as Hr'.
  { apply ready_iff; [done|]. apply ready_iff in Hr as [Hdeps Hdec]; [|done]. split; [|done]. intros dep Hdep. destruct (Hdeps dep Hdep) as (q & Hq & <- & Hqd). exists q. split_and!; [|done|done].
    apply elem_of_set_status. exists q. split; [done|]. rewrite bool_decide_eq_false_2; [done|]. intros E. assert (q = n) as -> by (by apply (keyed_unique PhaseID (WorkPhases (closed_plan plan id))); [apply phases_once| | |]).
    rewrite Hqd in Hl. by destruct Hl. }
  exists (Some n'). split.
  - change (ActiveWorkPhaseID next) with (Some (PhaseID n)). unfold close_successor. rewrite !bool_decide_eq_false_2 by eauto. cbn [orb].
    assert (queryFindWorkPhase (with_cursor next None (WorkPhases next)) (PhaseID n) = Some n') as -> by (apply (find_phase next); [by apply phases_once|done]).
    change (PStatus n') with WorkPhaseInProgress. cbv iota. change (WorkPhaseReadyConditionsMet (with_cursor next None (WorkPhases next)) n') with (WorkPhaseReadyConditionsMet next n'). by rewrite Hr'.
  - unfold settled_plan at 1. rewrite set_status_same; [done|]. intros q (r & Hr0 & ->)%elem_of_set_status. case_bool_decide as E; [done|]. simpl. intros He. done.
Qed.

Lemma close_again plan id next : plan_sound plan → (∀ p, p ∈ WorkPhases plan → PhaseID p ≠ "") → workPhaseCloseFixed plan id NextUnknown = WorkPhaseCloseFixedOK id next →
  workPhaseCloseFixed plan id (NextKnown (ActiveWorkPhaseID next)) = WorkPhaseCloseFixedOK id next ∧
  workPhaseCloseFixed next id (NextKnown (ActiveWorkPhaseID next)) = WorkPhaseCloseFixedAlreadyDone.
Proof.
  intros Hs Hnamed H. pose proof (close_keeps _ _ _ _ _ Hs H) as Hns. apply close_ok in H as (idx & p & succ & Hf & _ & Hst & Hr & Ht & Hc & -> & Hsh).
  fold (closed_plan plan id) in *. pose proof Hf as (Hidx & Hid & _)%list_find_Some. apply list_elem_of_lookup_2 in Hidx as Hp.
  assert (plan_sound (closed_plan plan id)) as Hclosed. { rewrite <- Hid. apply set_status_sound; [done|done|by destruct Hst as [->|[->| ->]]|done|done|done]. }
  assert (∀ n, succ = Some n → PhaseID n ≠ "" ∧ PhaseID n ≠ id) as Hsucc by (intros n ->; destruct (successor_other _ _ _ _ _ Hc) as (? & ? & _); auto).
  assert (filter (λ t, TStatus t ≠ TaskDone) (Tasks p) = []) as Hft by (apply filter_nil_iff; intros t Hin Hne; by apply Hne, Ht). split.
  - unfold workPhaseCloseFixed. rewrite Hf.
    assert (close_gated plan id (NextKnown (ActiveWorkPhaseID (settled_plan (closed_plan plan id) succ))) idx p = WorkPhaseCloseFixedOK id (settled_plan (closed_plan plan id) succ)) as Hg.
    { unfold close_gated. rewrite Hr, Hft. cbn [negb]. fold (closed_plan plan id).
      assert (close_successor plan (closed_plan plan id) idx id (NextKnown (ActiveWorkPhaseID (settled_plan (closed_plan plan id) succ))) = inr succ) as ->; [|by rewrite Hsh].
      destruct succ as [n|]; [|done]. apply recorded_again; [done|done|by apply Hsucc]. }
    destruct Hst as [E|[E|E]]; by rewrite E.
  - set (next := settled_plan (closed_plan plan id) succ) in *. set (p' := with_status p WorkPhaseDone).
    assert (p' ∈ WorkPhases next) as Hp'. { unfold next. rewrite settled_phases. apply list_elem_of_fmap. exists p. split; [|done]. rewrite settle_phase_done; [done|intros n E; by apply Hsucc|done]. }
    destruct (find_index next p' (phases_once _ (definitions _ Hns)) Hp') as [idx' Hf']. unfold p' at 1 in Hf'. simpl in Hf'. rewrite Hid in Hf'. unfold workPhaseCloseFixed. rewrite Hf'. simpl.
    assert (WorkPhaseReadyConditionsMet next p' = true) as Hr'.
    { apply ready_iff; [apply (definitions _ Hns)|]. split; [by apply (completion _ Hns p' Hp')|]. intros i Hi.
      destruct (awaits_known _ _ (phases_sound _ (definitions _ Hns) p' Hp') i Hi) as (d & ? & ? & ?). eauto. }
    destruct (settled_again plan id idx succ p Hclosed Hp Hid Hc) as [_ Hagain]; [intros n E; by apply Hsucc|]. destruct (Hagain idx') as (succ' & Hs1 & Hs2). fold next in Hs1, Hs2.
    unfold close_gated. rewrite Hr'. cbn [negb]. replace (Tasks p') with (Tasks p) by done. rewrite Hft. fold (closed_plan next id). rewrite Hs1, Hs2, same_shape. done.
Qed.

(** ** A certificate *)
Lemma validate_nil NumberString plan ctx : ValidateGoalplan NumberString plan ctx = [] ↔
  plan_sound plan ∧ IsGoalplanComplete plan = true ∧ (WorkPhases plan ≠ [] ∨ Criteria plan ≠ []) ∧ finalGateReasons NumberString plan ctx = [].
Proof.
  rewrite <- (structural_reasons_nil NumberString). unfold ValidateGoalplan, ValidateGoalplanStructuralReasons, IsGoalplanComplete, open_task_reasons.
  destruct (newer_schema plan); [split; [done|by intros (? & _)]|]. rewrite !app_nil, !fmap_nil_iff, !andb_true_iff, !bool_decide_eq_true.
  assert (remaining_reasons plan = [] ↔ RemainingWorkPhases plan = []) as -> by (unfold remaining_reasons; by destruct (RemainingWorkPhases plan)).
  assert (unmet_reasons plan = [] ↔ UnmetCriteria plan = []) as -> by (unfold unmet_reasons; by destruct (UnmetCriteria plan)).
  assert ((if bool_decide (WorkPhases plan = []) && bool_decide (Criteria plan = [])
      then ["plan is empty: no workPhases[] and no criteria[] registered — fill the goalplan (schema in $crw-continue) before the E8 gate can certify completion"] else []) = [] ↔
    (WorkPhases plan ≠ [] ∨ Criteria plan ≠ [])) as ->; [|tauto].
  do 2 case_bool_decide; simpl; split; try done; tauto.
Qed.

(** A receipt that was read and describes the tree as it is. *)
Definition receipt_current (ctx : GoalplanValidationCtx) (current : SourceIdentity) (path : option string) (kind : ReceiptKind) (e : GoalplanReceiptEvidence) : Prop :=
  ∃ file, path = Some file ∧ file ≠ "" ∧ ReadReceipt ctx file kind = ReceiptRead e ∧ CompareSource ctx (ReceiptSource e) current = ComparisonSame.

Record gate_certified (plan : Goalplan) (ctx : GoalplanValidationCtx) (g : FinalGateState) : Prop := mkCertified {
  every_surface : ∀ c, c ∈ Criteria plan → Surface c ≠ None;
  gate_approved : GateStatus g = GateApproved ∧ GateVerdict g ≠ Some VerdictFail;
  qa_scanned : QaRequired g = ComputeQaRequired plan;
  round_approved : ∃ r, r ∈ ReviewRounds plan ∧ ReviewRoundID g = Some (RoundID r) ∧ Purpose r = PurposeFinalGate ∧ RoundStatus r = ReviewApproved ∧
    LaneVerdict (Lane r) = GateVerdict g ∧ is_Some (GateVerdict g);
  tree_current : ∃ current own, CaptureSourceIdentity ctx = inr current ∧ GateSourceIdentity g = Some own ∧ CompareSource ctx own current = ComparisonSame ∧
    (∃ e, receipt_current ctx current (TestReceiptPath g) ReceiptTest e) ∧
    (ComputeQaRequired plan = true → ∃ e, receipt_current ctx current (QaReceiptPath g) ReceiptQA e ∧
       ∀ id, id ∈ finalGateDesktopArtifactCriterionIDs plan → finalGateHasArtifactIdentityForCriterion (ArtifactManifest e) id = true)
}.

Lemma round_reasons_nil plan g : finalGateRoundReasons plan g = [] →
  ∃ r, r ∈ ReviewRounds plan ∧ ReviewRoundID g = Some (RoundID r) ∧ Purpose r = PurposeFinalGate ∧ RoundStatus r = ReviewApproved ∧ LaneVerdict (Lane r) = GateVerdict g ∧ is_Some (GateVerdict g).
Proof.
  unfold finalGateRoundReasons. destruct (ReviewRoundID g) as [id|]; [|done]. destruct id as [|ch id]; [done|]. destruct (find_round plan (String ch id)) as [r|] eqn:E; [|done].
  apply head_Some_elem_of, list_elem_of_filter in E as [<- Hr]. unfold round_named_reasons. rewrite !app_nil. intros (H1 & H2 & H3). exists r.
  case_bool_decide; [|done]. case_bool_decide; [|done]. destruct (LaneVerdict (Lane r)) as [v|] eqn:Ev; [|done]. case_bool_decide as Hv; [|done]. by split_and!; [| | | | |rewrite <- Hv].
Qed.

Lemma slot_nil plan ctx label path kind current : (slot_reasons plan ctx label path kind).1 = [] →
  (∀ entry, entry ∈ (slot_reasons plan ctx label path kind).2 → identity_reason ctx current entry = []) →
  ∃ e, receipt_current ctx current path kind e ∧
    (kind = ReceiptQA → ∀ id, id ∈ finalGateDesktopArtifactCriterionIDs plan → finalGateHasArtifactIdentityForCriterion (ArtifactManifest e) id = true).
Proof.
  unfold slot_reasons. destruct path as [file|]; [|done]. destruct file as [|ch file]; [done|]. destruct (ReadReceipt ctx (String ch file) kind) as [e| |] eqn:E; [|done|done].
  cbn [fst snd]. intros Hr Hi. exists e. split.
  - exists (String ch file). split_and!; [done|done|done|]. specialize (Hi (label, ReceiptSource e) ltac:(left)). unfold identity_reason in Hi. simpl in Hi. by destruct (CompareSource ctx (ReceiptSource e) current).
  - intros -> id Hid. rewrite fmap_nil_iff, filter_nil_iff in Hr. apply not_false_iff_true. by apply Hr.
Qed.

Lemma identity_reasons_nil plan g ctx : finalGateIdentityReasons plan g ctx = [] → QaRequired g = ComputeQaRequired plan →
  ∃ current own, CaptureSourceIdentity ctx = inr current ∧ GateSourceIdentity g = Some own ∧ CompareSource ctx own current = ComparisonSame ∧
    (∃ e, receipt_current ctx current (TestReceiptPath g) ReceiptTest e) ∧
    (ComputeQaRequired plan = true → ∃ e, receipt_current ctx current (QaReceiptPath g) ReceiptQA e ∧
       ∀ id, id ∈ finalGateDesktopArtifactCriterionIDs plan → finalGateHasArtifactIdentityForCriterion (ArtifactManifest e) id = true).
Proof.
  unfold finalGateIdentityReasons. destruct (CaptureSourceIdentity ctx) as [|current]; [done|]. destruct (GateSourceIdentity g) as [own|]; [|by rewrite !app_nil; intros [? _]].
  rewrite !app_nil. intros (_ & Ht & Hq & Hb) Hqa. rewrite bind_nil_iff in Hb. exists current, own. split_and!; [done|done| | |].
  - specialize (Hb ("the final gate", own) ltac:(left)). unfold identity_reason in Hb. simpl in Hb. by destruct (CompareSource ctx own current).
  - destruct (slot_nil plan ctx "the test receipt" (TestReceiptPath g) ReceiptTest current Ht) as (e & He & _); [|by exists e].
    intros entry Hin. apply Hb. rewrite !elem_of_app. auto.
  - intros Hreq. rewrite Hqa, Hreq in Hq, Hb. destruct (slot_nil plan ctx "the QA receipt" (QaReceiptPath g) ReceiptQA current Hq) as (e & He & Hart); [|exists e; split; [done|by apply Hart]].
    intros entry Hin. apply Hb. rewrite !elem_of_app. auto.
Qed.

(** A gate that gives no reason on a plan of schema 2 or more certifies it. *)
Lemma gate_reasons_nil NumberString plan ctx markerPath markerPresent : Marker ctx = inr (markerPath, markerPresent) → below_two (EffectiveSchemaVersion plan markerPresent) = false →
  finalGateReasons NumberString plan (Some ctx) = [] → ∃ g, FinalGate plan = Some g ∧ gate_certified plan ctx g.
Proof.
  intros Hm Hv. unfold finalGateReasons. rewrite Hm, Hv. destruct (markerPresent && _); [done|]. unfold gate_reasons. destruct (FinalGate plan) as [g|]; [|by rewrite app_nil; intros [_ ?]].
  rewrite !app_nil, fmap_nil_iff, filter_nil_iff. intros (Hsurf & Hst & Hver & Hqa & Hround & Hid). exists g. split; [done|].
  destruct (bool_decide (GateStatus g = GateApproved)) eqn:E1; [apply bool_decide_eq_true in E1|done]. destruct (bool_decide (GateVerdict g = Some VerdictFail)) eqn:E2; [done|apply bool_decide_eq_false in E2].
  destruct (Bool.eqb _ _) eqn:Eq; [|done]. apply eqb_prop in Eq.
  split; [exact Hsurf|by split|done|by apply round_reasons_nil|by apply identity_reasons_nil].
Qed.

(** Two identities are the same exactly when git resolved both and the tree they name is one. *)
Lemma Compare_same a b : Compare a b = ComparisonSame ↔
  Kind a ≠ "unavailable" ∧ Kind b ≠ "unavailable" ∧ SourceRoot a = SourceRoot b ∧ CommitSha a = CommitSha b ∧ Dirty a = Dirty b ∧ default "" (TreeHash a) = default "" (TreeHash b).
Proof.
  unfold Compare. do 2 (case_bool_decide; simpl; [naive_solver|]). case_bool_decide; simpl; [|naive_solver]. case_bool_decide; simpl; [|naive_solver].
  destruct (Dirty a), (Dirty b); simpl; try naive_solver; case_bool_decide; simpl; naive_solver.
Qed.
