(* ===== verification/GoalClaims.v ===== *)
(** * GoalClaims: the theorems about goal plans; first what the retries of a steering batch do. *)
From S2P Require Import Prelude GoLib Sha256 Json Loads GoFloat GoPath JsText Attest Fsm GoalTypes GoalQuery GoalOps GoalSteer GoalGate GrammarProps GoalSound GoalKeep GoalFinish.
Local Open Scope string_scope.
(** ** The ids of an entry's rows *)
Lemma app_longer (a b : string) : a = a +:+ b → b = "".
Proof. induction a as [|c a IH]; simpl; [done|]. intros [= H]. by apply IH. Qed.

Lemma dependency_ids id i ops ev : ev ∈ dependency_events id i ops → ∃ j, (i ≤ j)%nat ∧ EventID ev = id +:+ ":op" +:+ itoa_nat j.
Proof.
  revert i. induction ops as [|op ops IH]; intros i; simpl; [by intros ?%not_elem_of_nil|].
  assert (ev ∈ dependency_events id (S i) ops → ∃ j, (i ≤ j)%nat ∧ EventID ev = id +:+ ":op" +:+ itoa_nat j) as Hrest by (intros (j & ? & ?)%IH; exists j; split; [lia|done]).
  destruct op as [| |phase title [|d deps]]; [done|done|done|]. intros [->|H]%elem_of_cons; [by exists i|by apply Hrest].
Qed.

Lemma event_ids_once Quote key summary rationale ops : NoDup (EventID <$> steeringEvents Quote key summary rationale ops).
Proof.
  unfold steeringEvents. csimpl. apply NoDup_cons. split.
  - intros (ev & E & (j & _ & Hid)%dependency_ids)%list_elem_of_fmap. rewrite Hid in E. apply app_longer in E. done.
  - generalize ("steer:" +:+ Quote key) as id. generalize 0%nat as i. induction ops as [|op ops IH]; intros i id; simpl; [constructor|].
    destruct op as [| |phase title [|d deps]]; [apply IH..|]. csimpl. apply NoDup_cons. split; [|apply IH].
    intros (ev & E & (j & Hj & Hid)%dependency_ids)%list_elem_of_fmap. rewrite Hid in E. apply (inj (String.append id)) in E. apply (inj (String.append ":op")), (inj (pretty (A := nat))) in E. lia.
Qed.

(** ** The rows of an entry *)
Section rows.
Context (slug : string) (entry : SteeringEntry).
Notation row := (event_row slug entry).

(** The ledger holds nothing that is taken for a row of the entry. *)
Definition fresh_ledger (rows : list GoalplanLedgerEntry) (evs : list SteeringEventRecord) : Prop :=
  Forall (λ r, LedgerSlug r = slug → Forall (λ ev, LedgerEventID r ≠ Some (EventID ev) ∧ (LedgerEventID r = None → (LedgerEvent r, LedgerDetail r) ≠ (Event ev, EventDetail ev))) evs) rows.

Lemma recorded_has rows ts ev : has (steeringRecordedRows rows slug ts) ev = true ↔
  ∃ r, r ∈ rows ∧ LedgerSlug r = slug ∧ (LedgerEventID r = Some (EventID ev) ∨ LedgerEventID r = None ∧ LedgerTs r = ts ∧ (LedgerEvent r, LedgerDetail r) = (Event ev, EventDetail ev)).
Proof.
  unfold has, steeringRecordedRows. rewrite orb_true_iff, !bool_decide_eq_true. simpl. rewrite list_elem_of_omap, list_elem_of_fmap. split.
  - intros [(r & Hr & Hid)|(r & Heq & Hr)]; exists r.
    + apply list_elem_of_filter in Hr as [? ?]. auto.
    + apply list_elem_of_filter in Hr as [[? ?] Hr]. apply list_elem_of_filter in Hr as [? ?]. split_and!; [done|done|right]. by split_and!.
  - intros (r & Hr & Hs & [Hid|(Hn & Ht & Heq)]); [left|right]; exists r.
    + split; [|done]. by apply list_elem_of_filter.
    + split; [done|]. do 2 (apply list_elem_of_filter; split; [done|]). done.
Qed.

(** Of a ledger that was fresh, the rows of the entry that were appended are the ones that count as recorded. *)
Lemma recorded_prefix rows evs done_ rest ts : evs = (done_ ++ rest)%list → NoDup (EventID <$> evs) → fresh_ledger rows evs →
  Forall (λ ev, has (steeringRecordedRows (rows ++ (row <$> done_))%list slug ts) ev = true) done_ ∧
  Forall (λ ev, has (steeringRecordedRows (rows ++ (row <$> done_))%list slug ts) ev = false) rest.
Proof.
  intros -> Hn Hfresh. rewrite fmap_app in Hn. apply NoDup_app in Hn as (_ & Hdisj & _). split; apply Forall_forall; intros ev Hev.
  - apply recorded_has. exists (row ev). split_and!; [|done|by left]. apply elem_of_app. right. by apply list_elem_of_fmap_2.
  - apply not_true_iff_false. rewrite recorded_has. intros (r & [Hr|Hr]%elem_of_app & Hs & Hm).
    + unfold fresh_ledger in Hfresh. rewrite Forall_forall in Hfresh. specialize (Hfresh r Hr Hs). rewrite Forall_forall in Hfresh.
      destruct (Hfresh ev) as [H1 H2]; [apply elem_of_app; by right|]. destruct Hm as [?|(? & _ & ?)]; [done|by apply H2].
    + apply list_elem_of_fmap in Hr as (ev' & -> & Hev'). destruct Hm as [Hm|[? _]]; [|done]. simpl in Hm. injection Hm as Hm.
      apply (Hdisj (EventID ev')); [by apply list_elem_of_fmap_2|rewrite Hm; by apply list_elem_of_fmap_2].
Qed.

Lemma append_skips recorded done_ rest outcomes rows : Forall (λ ev, has recorded ev = true) done_ →
  append_events slug entry recorded (done_ ++ rest)%list outcomes rows = append_events slug entry recorded rest outcomes rows.
Proof. induction 1 as [|ev evs Hev _ IH]; [done|]. simpl. by rewrite Hev. Qed.

(** What is missing is appended in order, until an append fails. *)
Lemma append_missing recorded rest : Forall (λ ev, has recorded ev = false) rest → ∀ outcomes rows,
  ∃ k, append_events slug entry recorded rest outcomes rows = ((rows ++ (row <$> take k rest))%list, (append_events slug entry recorded rest outcomes rows).2) ∧ (k ≤ length rest)%nat ∧
    (outcomes = [] → k = length rest ∧ (append_events slug entry recorded rest outcomes rows).2 = None).
Proof.
  induction 1 as [|ev evs Hev _ IH]; intros outcomes rows; [exists 0%nat; simpl; by rewrite app_nil_r|]. simpl. rewrite Hev.
  assert (∀ os, ∃ k, append_events slug entry recorded evs os (rows ++ [row ev])%list =
      ((rows ++ (row <$> take k (ev :: evs)))%list, (append_events slug entry recorded evs os (rows ++ [row ev])%list).2) ∧ (k ≤ S (length evs))%nat ∧
      (os = [] → k = S (length evs) ∧ (append_events slug entry recorded evs os (rows ++ [row ev])%list).2 = None)) as Hnext.
  { intros os. destruct (IH os (rows ++ [row ev])%list) as (k & Hk & Hle & Hos). exists (S k). split_and!; [|lia|intros E; destruct (Hos E); split; [lia|done]].
    etrans; [exact Hk|]. by rewrite <- (assoc_L (++)). }
  destruct outcomes as [|[|err|err] os].
  - destruct (Hnext []) as (k & ? & ? & ?). exists k. by split_and!.
  - destruct (Hnext os) as (k & ? & ? & _). exists k. by split_and!.
  - exists 0%nat. simpl. rewrite app_nil_r. split_and!; [done|lia|done].
  - exists 1%nat. simpl. split_and!; [done|lia|done].
Qed.
End rows.

(** ** Attempts of one batch *)
Section attempts.
Context (NumberString : float64 → string) (Quote : string → string) (slug : string) (batch : SteerBatch) (start : GoalStore).
Notation plan := (stored_plan start).
Notation events := (steeringEvents Quote (BatchKey batch) (steeringBatchSummary (BatchOps batch)) (BatchRationale batch) (BatchOps batch)).
Notation attempt := (λ store disk, steeringApplyLocked NumberString Quote slug store batch disk).

(** The store after the batch was applied at [now] and the first [m] rows were recorded. *)
Definition steered_store (applied : Goalplan) (now written : string) (m : nat) : GoalStore :=
  let entry := new_entry Quote batch now in
  mkGoalStore (with_updated (with_log applied (SteeringLog plan ++ [entry])%list) written) (ledger start ++ (event_row slug entry <$> take m events))%list.

Definition underway (store : GoalStore) : Prop :=
  store = start ∨ ∃ applied now written m, steeringOpsApplyOps NumberString plan (BatchOps batch) = inr applied ∧ (m ≤ length events)%nat ∧ store = steered_store applied now written m.

Definition key_unused : Prop := Forall (λ e, IdempotencyKey e ≠ BatchKey batch) (SteeringLog plan).

Lemma unused_filter : key_unused → filter (λ e, IdempotencyKey e = BatchKey batch) (SteeringLog plan) = [].
Proof. intros H. destruct (filter _ _) as [|e f] eqn:E; [done|]. assert (e ∈ filter (λ e, IdempotencyKey e = BatchKey batch) (SteeringLog plan)) as He by (rewrite E; left).
  apply list_elem_of_filter in He as [? He]. unfold key_unused in H. rewrite Forall_forall in H. by destruct (H e He).
Qed.

Lemma filter_entry now : key_unused → filter (λ e, IdempotencyKey e = BatchKey batch) (SteeringLog plan ++ [new_entry Quote batch now])%list = [new_entry Quote batch now].
Proof. intros H. rewrite filter_app, (unused_filter H), filter_cons_True by done. done. Qed.

Lemma same_batch now : steeringSameBatch (new_entry Quote batch now) batch = true.
Proof. unfold steeringSameBatch. by rewrite !bool_decide_eq_true_2. Qed.

Lemma take_prefix {A} (m k : nat) (l : list A) : (take m l ++ take k (drop m l))%list = take (m + k) l.
Proof. revert m. induction l as [|x l IH]; intros [|m]; simpl; [by rewrite take_nil|by rewrite take_nil|done|]. by rewrite IH. Qed.

(** Recording the rows of an entry of which the first [m] are there. *)
Lemma record_from now m disk : fresh_ledger slug (ledger start) events → (m ≤ length events)%nat → let entry := new_entry Quote batch now in
  let rows := (ledger start ++ (event_row slug entry <$> take m events))%list in
  ∃ k, (m ≤ k ≤ length events)%nat ∧
    (steeringRecordEvents slug entry (steeringRecordedRows rows slug now) disk rows).1 = (ledger start ++ (event_row slug entry <$> take k events))%list ∧
    (appends disk = [] → ledger_sync disk = None → k = length events ∧ (steeringRecordEvents slug entry (steeringRecordedRows rows slug now) disk rows).2 = "").
Proof.
  intros Hfresh Hm entry rows.
  destruct (recorded_prefix slug entry (ledger start) events (take m events) (drop m events) now) as [Hdone Hrest]; [by rewrite take_drop|apply event_ids_once|done|].
  fold rows in Hdone, Hrest. unfold steeringRecordEvents. change (SteeringEvents entry) with events. set (recorded := steeringRecordedRows rows slug now) in *.
  assert (append_events slug entry recorded events (appends disk) rows = append_events slug entry recorded (drop m events) (appends disk) rows) as ->.
  { rewrite <- (take_drop m events) at 1. by apply append_skips. }
  destruct (append_missing slug entry recorded (drop m events) Hrest (appends disk) rows) as (k & Hk & Hle & Hclean). rewrite length_drop in *.
  exists (m + k)%nat. rewrite Hk. destruct (append_events slug entry recorded (drop m events) (appends disk) rows).2 as [err|] eqn:E.
  - split_and!; [lia|lia|unfold rows; cbn [fst]; by rewrite <- (assoc_L (++)), <- fmap_app, take_prefix|]. intros Ha _. by destruct (Hclean Ha).
  - split_and!; [lia|lia|unfold rows; cbn [fst]; by rewrite <- (assoc_L (++)), <- fmap_app, take_prefix|]. intros Ha Hs. destruct (Hclean Ha) as [-> _]. split; [lia|].
    cbn [snd]. rewrite Hs. by case_match.
Qed.

(** The same, of an entry that is new: it has no row yet. *)
Lemma record_new now disk : let entry := new_entry Quote batch now in
  ∃ k, (k ≤ length events)%nat ∧ (steeringRecordEvents slug entry ([], []) disk (ledger start)).1 = (ledger start ++ (event_row slug entry <$> take k events))%list ∧
    (appends disk = [] → k = length events ∧ (steeringRecordEvents slug entry ([], []) disk (ledger start)).2 = "").
Proof.
  intros entry. unfold steeringRecordEvents. change (SteeringEvents entry) with events.
  assert (Forall (λ ev, has ([], []) ev = false) events) as Hnone by (apply Forall_true; intros ev; unfold has; by rewrite !bool_decide_eq_false_2 by apply not_elem_of_nil).
  destruct (append_missing slug entry ([], []) events Hnone (appends disk) (ledger start)) as (k & Hk & Hle & Hclean). exists k. rewrite Hk.
  assert (existsb (has ([], [])) events = false) as Hno. { apply not_true_iff_false. rewrite existsb_exists. intros (ev & Hin%list_elem_of_In & Hev). rewrite Forall_forall in Hnone. by rewrite (Hnone ev Hin) in Hev. }
  destruct (append_events slug entry ([], []) events (appends disk) (ledger start)).2 as [err|] eqn:E.
  - split_and!; [done|done|]. intros Ha. by destruct (Hclean Ha).
  - split_and!; [done|done|]. intros Ha. destruct (Hclean Ha) as [-> _]. by rewrite Hno.
Qed.

Lemma first_attempt disk : key_unused → underway (attempt start disk).1 ∧
  (∀ applied, steeringOpsApplyOps NumberString plan (BatchOps batch) = inr applied → appends disk = [] → plan_write disk = Written → ended_before_write disk = None →
    ∃ next, attempt start disk = (steered_store applied (clock disk) (write_clock disk) (length events), SteerResultApplied next (new_entry Quote batch (clock disk)) "")).
Proof.
  intros Hk. unfold steeringApplyLocked. rewrite (unused_filter Hk). destruct (steeringOpsApplyOps NumberString plan (BatchOps batch)) as [reason|applied] eqn:Ea; [by split; [left|]|].
  destruct (record_new (clock disk) disk) as (k & Hle & Hrows & Hclean). destruct (steeringRecordEvents slug (new_entry Quote batch (clock disk)) ([], []) disk (ledger start)) as [rows warning].
  cbn [fst snd] in *. subst rows. split.
  - destruct (ended_before_write disk); [by left|]. destruct (plan_write disk) as [|err|err]; [| |by left]; right; by exists applied, (clock disk), (write_clock disk), k.
  - intros a [= <-] Ha Hw He. rewrite He, Hw. destruct (Hclean Ha) as [-> ->]. eexists. done.
Qed.

Lemma next_attempt disk applied now written m : key_unused → BatchOps batch ≠ [] → fresh_ledger slug (ledger start) events →
  steeringOpsApplyOps NumberString plan (BatchOps batch) = inr applied → (m ≤ length events)%nat →
  underway (attempt (steered_store applied now written m) disk).1 ∧
  (appends disk = [] → ledger_sync disk = None → ledger_read disk = None → ended_before_scan disk = None → ended_before_write disk = None →
    attempt (steered_store applied now written m) disk = (steered_store applied now written (length events), SteerResultDuplicate (new_entry Quote batch now) "")).
Proof.
  intros Hk Hops Hfresh Ha Hm. unfold steeringApplyLocked. cbn [stored_plan steered_store with_updated with_log SteeringLog]. rewrite (filter_entry now Hk). unfold steer_again.
  rewrite bool_decide_eq_false_2 by (cbn [SteeringOps new_entry]; unfold steeringOpRecords; by destruct (BatchOps batch)). rewrite same_batch. cbn [negb].
  change (ledger (steered_store applied now written m)) with (ledger start ++ (event_row slug (new_entry Quote batch now) <$> take m events))%list.
  change (AppliedAt (new_entry Quote batch now)) with now. destruct (record_from now m disk Hfresh Hm) as (k & Hle & Hrows & Hclean).
  destruct (steeringRecordEvents _ _ _ _ _) as [rows warning]. cbn [fst snd] in *. subst rows.
  assert (underway (steered_store applied now written m)) as Hstay by (right; by exists applied, now, written, m). split.
  - destruct (ended_before_scan disk); [done|]. destruct (ledger_read disk); [done|]. case_match; [done|]. right. exists applied, now, written, k. split_and!; [done|lia|done].
  - intros Hap Hsy Hre Hs Hw. rewrite Hs, Hre, Hw. destruct (Hclean Hap Hsy) as [-> ->]. by destruct (steeringOwesRows _ _).
Qed.

Lemma attempts_underway disks : key_unused → BatchOps batch ≠ [] → fresh_ledger slug (ledger start) events → underway (foldl (λ store disk, (attempt store disk).1) start disks).
Proof.
  intros Hk Hops Hfresh. induction disks as [|d disks IH] using rev_ind; [by left|]. rewrite foldl_app. simpl.
  destruct IH as [->|(applied & now & written & m & Ha & Hm & ->)]; [by apply first_attempt|by apply next_attempt].
Qed.
End attempts.

(** * The theorems about goal plans. *)
(** The search for a dependency cycle is exact: it answers a chain of dependencies that comes back to where it starts, or there is no such chain. *)
Theorem cycle_search_is_exact (nodes : list dependencyNode) :
  match findDependencyCycle nodes with Some cycle => closed_chain (depends (by_id nodes)) cycle | None => acyclic (depends (by_id nodes)) end.
Proof. destruct (findDependencyCycle nodes) eqn:E; [|by apply findDependencyCycle_None]. pose proof (search_walked nodes) as H. by rewrite E in H. Qed.

(** C18: the structural checks of a goal plan decide its soundness, in the form that gives reasons and in the form that gives a verdict. *)
Theorem structural_checks_decide_soundness (NumberString : float64 → string) (plan : Goalplan) :
  (ValidateGoalplanStructuralReasons NumberString plan = [] ↔ plan_sound plan) ∧ (queryStructuralValid plan = true ↔ plan_sound plan).
Proof. split; [apply structural_reasons_nil|apply structural_valid]. Qed.

(** C7: whatever operations are run on a sound plan, in any order, the structural checks have nothing to say of the plan they leave. *)
Theorem goal_operations_keep_plans_sound (NumberString : float64 → string) (plan next : Goalplan) :
  ValidateGoalplanStructuralReasons NumberString plan = [] → rtc (goal_step NumberString) plan next → ValidateGoalplanStructuralReasons NumberString next = [].
Proof. rewrite !structural_reasons_nil. intros Hs Hsteps. revert Hs. induction Hsteps as [plan|plan mid next Hstep _ IH]; [done|]. intros Hs. by apply IH, (goal_step_keeps NumberString plan). Qed.

(** C8: a sound plan that waits for nobody ([unhindered]: no open decision, no phase blocked, and no phase with an empty id) can be finished: tasks are completed, the cursor advances and criteria are met until nothing remains. *)
Theorem sound_plan_can_finish (NumberString : float64 → string) (plan : Goalplan) :
  ValidateGoalplanStructuralReasons NumberString plan = [] → unhindered plan →
  ∃ final, rtc work_step plan final ∧ ValidateGoalplanStructuralReasons NumberString final = [] ∧ IsGoalplanComplete final = true.
Proof. intros Hs%structural_reasons_nil Hu. destruct (work_finishes plan Hs Hu) as (final & ? & ? & ?). exists final. by rewrite structural_reasons_nil. Qed.

(** The close of a work phase can be tried again: with the successor it recorded it gives the same plan when the first try was lost, and answers that it is done when the plan was written. *)
Theorem close_can_be_tried_again (NumberString : float64 → string) (plan next : Goalplan) (id : string) :
  ValidateGoalplanStructuralReasons NumberString plan = [] → Forall (λ p, PhaseID p ≠ "") (WorkPhases plan) → workPhaseCloseFixed plan id NextUnknown = WorkPhaseCloseFixedOK id next →
  workPhaseCloseFixed plan id (NextKnown (ActiveWorkPhaseID next)) = WorkPhaseCloseFixedOK id next ∧
  workPhaseCloseFixed next id (NextKnown (ActiveWorkPhaseID next)) = WorkPhaseCloseFixedAlreadyDone.
Proof. intros Hs%structural_reasons_nil Hn Hc. rewrite Forall_forall in Hn. by apply close_again. Qed.

(** A plan is reported deadlocked exactly when work remains and no phase that can run has a task to do or can be closed. *)
Theorem deadlock_report_is_exact (plan : Goalplan) :
  DetectDependencyDeadlock plan = None ↔ RemainingWorkPhases plan = [] ∨ ∃ p, p ∈ WorkPhases plan ∧ IsRunnablePhase plan p = true ∧ can_proceed p = true.
Proof. apply deadlock_None. Qed.

(** A plan that may yield because its remaining work awaits decisions has no phase that can run, and an open decision that a live phase awaits. *)
Theorem yield_leaves_no_work (plan : Goalplan) : RemainingWorkAwaitsDecisions plan = true → ReadyWorkPhases plan = [] ∧ awaited_open plan.
Proof. intros H. apply (yield_safe plan H). Qed.

(** C19: a certified plan is sound and complete; on schema 2 or more its final gate was approved by its own review round, every receipt was read, and each of them describes the tree as it is. *)
Theorem certificate_is_of_the_current_tree (NumberString : float64 → string) (plan : Goalplan) (ctx : GoalplanValidationCtx) (markerPath : string) (markerPresent : bool) :
  ValidateGoalplan NumberString plan (Some ctx) = [] → Marker ctx = inr (markerPath, markerPresent) →
  plan_sound plan ∧ IsGoalplanComplete plan = true ∧
  (below_two (EffectiveSchemaVersion plan markerPresent) = true ∨ ∃ g, FinalGate plan = Some g ∧ gate_certified plan ctx g).
Proof.
  rewrite validate_nil. intros (Hs & Hc & _ & Hg) Hm. split_and!; [done|done|]. destruct (below_two _) eqn:E; [by left|]. right. by apply (gate_reasons_nil NumberString plan ctx markerPath markerPresent).
Qed.

(** C14: a steering batch that the plan can take, under a key it has not seen, is applied once and recorded once: whatever the disk did to earlier attempts, an attempt it lets through leaves the plan with the batch applied one time and the ledger with
    each row of the batch one time, after what was there before. *)
Theorem batch_is_applied_and_recorded_once (NumberString : float64 → string) (Quote : string → string) (slug : string) (start : GoalStore) (batch : SteerBatch) (applied : Goalplan)
  (disks : list Disk) (disk : Disk) :
  key_unused batch start → BatchOps batch ≠ [] →
  fresh_ledger slug (ledger start) (steeringEvents Quote (BatchKey batch) (steeringBatchSummary (BatchOps batch)) (BatchRationale batch) (BatchOps batch)) →
  steeringOpsApplyOps NumberString (stored_plan start) (BatchOps batch) = inr applied →
  appends disk = [] → plan_write disk = Written → ledger_sync disk = None → ledger_read disk = None → ended_before_scan disk = None → ended_before_write disk = None →
  let before := foldl (λ store d, (steeringApplyLocked NumberString Quote slug store batch d).1) start disks in
  ∃ now written, let entry := new_entry Quote batch now in
    (steeringApplyLocked NumberString Quote slug before batch disk).1 =
      mkGoalStore (with_updated (with_log applied (SteeringLog (stored_plan start) ++ [entry])%list) written) (ledger start ++ (event_row slug entry <$> SteeringEvents entry))%list.
Proof.
  intros Hk Hops Hfresh Ha Hap Hw Hsy Hre Hes Hew before. pose proof (attempts_underway NumberString Quote slug batch start disks Hk Hops Hfresh) as [Hb|(a & now & written & m & Ha' & Hm & Hb)]; fold before in Hb; rewrite Hb.
  - destruct (first_attempt NumberString Quote slug batch start disk Hk) as [_ Hfirst]. destruct (Hfirst applied Ha Hap Hw Hew) as (next & ->). exists (clock disk), (write_clock disk).
    unfold steered_store. cbn [fst]. by rewrite firstn_all.
  - rewrite Ha in Ha'. injection Ha' as <-. destruct (next_attempt NumberString Quote slug batch start disk applied now written m Hk Hops Hfresh Ha Hm) as [_ Hnext].
    rewrite (Hnext Hap Hsy Hre Hes Hew). exists now, written. unfold steered_store. cbn [fst]. by rewrite firstn_all.
Qed.
