(* ===== verification/GoalRevive.v ===== *)
(** * GoalRevive: reading and writing a stored goal plan (internal/pabcd/goalplan: read.go, plan.go, revive.go, write.go, slug.go; the JSON names of types.go).

    A stored plan is a document of bytes. [read_plan] decodes and revives it; [writeEncodePlan] is the text of the record of the struct's fields, in their order and without the ones the JSON tags
    leave out. An empty list is the list [[]] here whether Go holds it as nil, which the record leaves out, or as an empty slice, which it writes as []: the argument [fill] of [writeEncodePlan] puts in the ones
    that are written ([filled] says what it may do). A key that is absent reads as null. JavaScript's spelling of a number that is not whole (jsnode) is an argument. *)
From S2P Require Import Prelude GoLib Sha256 Json Loads JsonText GoJson JsonSpelled GoFloat GoPath GoTime JsText Attest Fsm GoalTypes GoalQuery GoalOps GoalSteer.
Local Open Scope string_scope.
Definition fields : Type := list (string * value).
Definition epoch : string := "1970-01-01T00:00:00.000Z".

Definition object_of (v : value) : option fields := match v with VMap m => Some m | _ => None end.
Definition list_of (v : value) : option (list value) := match v with VList l => Some l | _ => None end.
Definition get (m : fields) (key : string) : value := default VNull (map_get m key).
Definition text (m : fields) (key : string) : option string := text_of (map_get m key).
Definition timestamp (m : fields) (key : string) : string := default epoch (text m key).
Definition is_text (v : value) (s : string) : bool := match v with VString t => bool_decide (t = s) | _ => false end.

(** [jsNumber] *)
Definition jsNumber (v : value) : option float64 :=
  match v with VInt z => Some (float_of_int z) | VNumber t | VFloat t => Some (parse_float t) | _ => None end.
Definition whole (q : QArith_base.Q) : bool := (QArith_base.Qnum q mod Z.pos (QArith_base.Qden q) =? 0)%Z.
Definition floor (q : QArith_base.Q) : Z := (QArith_base.Qnum q / Z.pos (QArith_base.Qden q))%Z.

Definition verdictOf (v : value) : option Verdict :=
  if is_text v "pass" then Some VerdictPass else if is_text v "near-pass" then Some VerdictNearPass else if is_text v "fail" then Some VerdictFail else None.
Definition reviewStatusOf (s : string) : option ReviewRoundStatus :=
  if bool_decide (s = "pending") then Some ReviewPending else if bool_decide (s = "launching") then Some ReviewLaunching else if bool_decide (s = "in_flight") then Some ReviewInFlight
  else if bool_decide (s = "approved") then Some ReviewApproved else if bool_decide (s = "changes_requested") then Some ReviewChangesRequested
  else if bool_decide (s = "inconclusive") then Some ReviewInconclusive else None.
Definition gateStatusOf (s : string) : option FinalGateStatus :=
  if bool_decide (s = "pending") then Some GatePending else if bool_decide (s = "in_flight") then Some GateInFlight else if bool_decide (s = "approved") then Some GateApproved
  else if bool_decide (s = "inconclusive") then Some GateInconclusive else None.
Definition purposeOf (s : string) : option ReviewPurpose :=
  if bool_decide (s = "plan_audit") then Some PurposePlanAudit else if bool_decide (s = "final_gate") then Some PurposeFinalGate else None.

(** ** revive.go *)
Definition MaxBlockers : Z := 9999.
Definition MaxFindingRefs : nat := 99.
Definition MaxFindingRefLength : nat := 120.

Definition letter_or_digit (b : Z) : bool := in_range 97 122 b || in_range 65 90 b || in_range 48 57 b.
Definition ValidFindingRef (s : string) : bool :=
  match bytes_of_string s with
  | [] => false
  | b :: rest => (length rest <? MaxFindingRefLength)%nat && letter_or_digit b && forallb (λ c, letter_or_digit c || bool_decide (c ∈ [46; 95; 58; 47; 35; 45]%Z)) rest
  end.

Definition reviveBlockers (raw : value) : Z :=
  match jsNumber raw with
  | Some (Fin q) => if whole q && (1 <=? floor q)%Z && (floor q <=? MaxBlockers)%Z then floor q else 0%Z
  | _ => 0%Z
  end.

Definition finding_ref (v : value) : option string := match v with VString s => if ValidFindingRef s then Some s else None | _ => None end.
Definition reviveFindingRefs (raw : value) : list string :=
  match list_of raw with Some l => if (length l <=? MaxFindingRefs)%nat then default [] (mapM finding_ref l) else [] | None => [] end.

Definition escapesWorkspace (p : string) : bool := has_prefix p "/" || bool_decide (Clean p = "..") || has_prefix (Clean p) "../".

Definition plan_file (entry : value) : option (string * string) :=
  f ← object_of entry; file ← text f "path"; sum ← text f "sha256";
  if bool_decide (file = "") || bool_decide (sum = "") || escapesWorkspace file then None else Some (file, sum).
Definition revivePlanFiles (raw : value) : list (string * string) := match list_of raw with Some l => default [] (mapM plan_file l) | None => [] end.

Definition reviveSourceIdentity (raw : value) : option SourceIdentity :=
  s ← object_of raw; kind ← text s "kind";
  if negb (bool_decide (kind = "resolved") || bool_decide (kind = "unavailable")) then None
  else
    let id root := mkSource kind (default "" (text s "commitSha")) (match get s "dirty" with VBool true => true | _ => false end) (timestamp s "capturedAt") (text s "treeHash") root in
    match map_get s "sourceRoot" with
    | None => Some (id None)
    | Some (VString root) => if has_prefix root "/" then Some (id (Some root)) else None
    | Some _ => None
    end.

Definition reviveLane (raw : value) : option ReviewLane :=
  r ← object_of raw; id ← text r "launchId";
  if bool_decide (id = "") then None
  else Some (mkLane id (text r "reviewerSession") (text r "workspaceRoot") (text r "artifactSha256") (verdictOf (get r "verdict")) (reviveSourceIdentity (get r "sourceIdentity"))
    (reviveBlockers (get r "blockers")) (reviveFindingRefs (get r "findings"))).

Definition revive_round (entry : value) : option ReviewRoundState :=
  r ← object_of entry; id ← text r "roundId"; purpose ← text r "purpose" ≫= purposeOf; planPath ← text r "planPath"; planSha ← text r "planSha256";
  status ← text r "status" ≫= reviewStatusOf; lane ← reviveLane (get r "lane");
  if bool_decide (id = "") then None
  else Some (mkRound id purpose planPath planSha status lane (timestamp r "openedAt") (text r "closedAt") (default "" (text r "ownerSessionId")) (default "" (text r "workPhaseId"))
    (default "" (text r "planUnit")) (default "" (text r "planEpoch")) (revivePlanFiles (get r "planFiles")) (default "" (text r "supersededBy"))).
(** A round that is not whole is dropped. *)
Definition reviveReviewRounds (raw : value) : list ReviewRoundState := match list_of raw with Some l => omap revive_round l | None => [] end.

Definition reviveFinalGate (raw : value) : option FinalGateState :=
  g ← object_of raw; status ← text g "status" ≫= gateStatusOf;
  match get g "qaRequired" with
  | VBool qaRequired =>
    Some (mkGate status qaRequired (timestamp g "updatedAt") (text g "reviewRoundId") (text g "testReceiptPath") (text g "qaReceiptPath") (verdictOf (get g "verdict"))
      (reviveSourceIdentity (get g "sourceIdentity")))
  | _ => None
  end.

(** ** plan.go *)

(** A list that fails the plan when it is there and is not one, or holds an entry of another shape. *)
Definition list_field {A} (f : value → option A) (m : fields) (key : string) : option (list A) := match map_get m key with None => Some [] | Some v => list_of v ≫= mapM f end.

(** A text that may be absent; another value fails the plan. *)
Definition optional_text (m : fields) (key : string) : option string := match map_get m key with None => Some "" | Some (VString s) => Some s | Some _ => None end.
Definition string_of (v : value) : option string := match v with VString s => Some s | _ => None end.

Definition supported (kind : string) : bool := bool_decide (kind ∈ ["annotate"; "add-criterion"; "add-work-phase"]).

Definition revive_op (item : value) : option SteeringOpRecord :=
  o ← object_of item;
  let kind := default "" (text o "kind") in
  if negb (supported kind) then None
  else
    note ← optional_text o "note"; scenario ← optional_text o "scenario"; expected ← optional_text o "expectedEvidence"; id ← optional_text o "id"; title ← optional_text o "title";
    surface ← optional_text o "surface"; presented ← optional_text o "presented"; deps ← list_field string_of o "dependsOn";
    Some (mkOpRecord kind note scenario surface presented expected id title (if bool_decide (deps = []) then None else Some deps)).

Definition revive_event (item : value) : option SteeringEventRecord :=
  o ← object_of item; id ← text o "id"; event ← text o "event"; detail ← text o "detail"; if bool_decide (id = "") then None else Some (mkEvent id event detail).

(** A list that is absent (or null), or holds at least one entry, each of its shape. *)
Definition some_list {A} (f : value → option A) (raw : value) : option (list A) :=
  match raw with VNull => Some [] | VList ((_ :: _) as l) => mapM f l | _ => None end.

Definition said_text (m : fields) (key : string) : option string := s ← text m key; if bool_decide (s = "") then None else Some s.

Definition revive_entry (entry : value) : option SteeringEntry :=
  e ← object_of entry; key ← said_text e "idempotencyKey"; rationale ← said_text e "rationale"; evidence ← said_text e "evidence"; appliedAt ← said_text e "appliedAt"; summary ← said_text e "summary";
  ops ← some_list revive_op (get e "ops"); events ← some_list revive_event (get e "events"); Some (mkSteering key rationale evidence appliedAt summary ops events).
Definition reviveSteeringLog (m : fields) (key : string) : option (list SteeringEntry) := list_field revive_entry m key.

Definition validSchemaVersion (m : fields) : bool :=
  match jsNumber (get m "schemaVersion") with None => true | Some (Fin q) => whole q && (1 <=? floor q)%Z | Some _ => false end.
Definition declaredSchemaVersion (m : fields) : float64 := default f1 (jsNumber (get m "schemaVersion")).

Definition not_blank (v : value) : option string := match v with VString s => if bool_decide (Trim s = "") then None else Some s | _ => None end.
Definition reviveDependsOn (m : fields) (key : string) : option (list string) := list_field not_blank m key.

(** The options are distinct after a trim, and there is one. *)
Definition reviveDecisionOptions (m : fields) (key : string) : option (list string) :=
  match map_get m key with
  | None => Some []
  | Some v => l ← list_of v; options ← mapM not_blank l; if bool_decide (options = []) || negb (bool_decide (NoDup (Trim <$> options))) then None else Some options
  end.

Definition valid_time (v : value) : option string := match v with VString s => if validIsoTime s then Some s else None | _ => None end.

Definition revive_decision (item : value) : option GoalplanDecision :=
  d ← object_of item; id ← text d "id"; question ← text d "question"; asked ← valid_time (get d "askedAt"); options ← reviveDecisionOptions d "options";
  recommendation ← match map_get d "recommendation" with None => Some "" | Some v => not_blank v end;
  if negb (isLifecycleID id) || bool_decide (Trim question = "") ||
     (negb (bool_decide (options = [])) && negb (bool_decide (recommendation = "")) && negb (bool_decide (Trim recommendation ∈ Trim <$> options))) then None
  else if is_text (get d "status") "open" then
    if bool_decide (is_Some (map_get d "answer")) || bool_decide (is_Some (map_get d "decidedAt")) then None
    else Some (mkDecision id question DecisionOpen "" asked "" recommendation options)
  else if is_text (get d "status") "decided" then
    answer ← text d "answer"; decidedAt ← valid_time (get d "decidedAt");
    if bool_decide (Trim answer = "") then None else Some (mkDecision id question DecisionDecided answer asked decidedAt recommendation options)
  else None.
Definition reviveDecisions (m : fields) (key : string) : option (list GoalplanDecision) := list_field revive_decision m key.

(** A task without an id or a title is skipped ([Some None]); one whose prerequisites have another shape fails the plan. *)
Definition revive_task (t : value) : option (option GoalplanTask) :=
  match (m ← object_of t; id ← text m "id"; title ← text m "title"; Some (m, id, title)) with
  | None => Some None
  | Some (m, id, title) =>
    deps ← reviveDependsOn m "dependsOn";
    Some (Some (mkTask id title (if is_text (get m "status") "done" then TaskDone else TaskPending) deps (Trim (default "" (text m "outcome")))))
  end.

Definition phaseStatusOf (v : value) : WorkPhaseStatus :=
  if is_text v "in_progress" then WorkPhaseInProgress else if is_text v "done" then WorkPhaseDone else if is_text v "blocked" then WorkPhaseBlocked
  else if is_text v "superseded" then WorkPhaseSuperseded else WorkPhasePending.

Definition revive_phase (wp : value) : option GoalplanWorkPhase :=
  w ← object_of wp; id ← text w "id"; title ← text w "title"; dependsOn ← reviveDependsOn w "dependsOn"; awaits ← reviveDependsOn w "awaitsDecision";
  tasks ← mapM revive_task (default [] (list_of (get w "tasks")));
  Some (mkPhase id title (phaseStatusOf (get w "status")) (omap (λ t, t) tasks) (omap string_of (default [] (list_of (get w "criteriaIds")))) dependsOn awaits (text w "blockedReason") (text w "supersededBy")).

Definition revive_criterion (c : value) : option GoalplanCriterion :=
  cc ← object_of c; id ← text cc "id"; scenario ← text cc "scenario";
  Some (mkCriterion id scenario (default "" (text cc "expectedEvidence")) (text cc "capturedEvidence") (if is_text (get cc "status") "met" then CriterionMet else CriterionOpen)
    (text cc "surface" ≫= surface_of) (if is_text (get cc "presented") "native" then Some PresentedNative else None)).

Definition revive_host (raw : value) : GoalplanHostLink :=
  let m := default [] (object_of raw) in
  mkHost (match get m "armed" with VBool true => true | _ => false end) (text m "armedAt") (if is_text (get m "source") "freeze" then "freeze" else "none").

Definition slug_byte (b : Z) : bool := letter_or_digit b || (b =? 46)%Z || (b =? 95)%Z || (b =? 45)%Z.
(** slug.go, without the text of the refusal *)
Definition ValidateGoalplanSlug (slug : string) : bool :=
  match bytes_of_string slug with [] => false | b :: rest => (length rest <? 128)%nat && letter_or_digit b && forallb slug_byte rest end.

Definition too_new (f : float64) : bool := match f with FNaN => false | _ => negb (fle f SupportedMaxSchemaVersion) end.

Definition revived_version (m : fields) : option float64 := match jsNumber (get m "schemaVersion") with Some (Fin q) => Some (Fin (QArith_base.inject_Z (floor q))) | _ => None end.

Definition reviveGoalplan (parsed : value) (expectedSlug : option string) : option Goalplan :=
  o ← object_of parsed; objective ← text o "objective"; slug ← text o "slug";
  if negb (ValidateGoalplanSlug slug) || match expectedSlug with Some s => negb (bool_decide (slug = s)) | None => false end || too_new (declaredSchemaVersion o) || negb (validSchemaVersion o) then None
  else
    phases ← list_of (get o "workPhases"); rawCriteria ← list_of (get o "criteria"); workPhases ← mapM revive_phase phases; criteria ← mapM revive_criterion rawCriteria;
    decisions ← reviveDecisions o "decisions"; log ← reviveSteeringLog o "steeringLog";
    Some (mkPlan objective slug (timestamp o "createdAt") (timestamp o "updatedAt") (text o "activeWorkPhaseId") workPhases criteria (revive_host (get o "host"))
      (reviveReviewRounds (get o "reviewRounds")) decisions (text o "activePlanAuditRoundId") (text o "activeFinalGateRoundId") (revived_version o) (reviveFinalGate (get o "finalGate")) log).

(** ** The record a plan is written as *)

(** The members that are there. *)
Definition members (fs : list (string * option value)) : fields := omap (λ f : string * option value, v ← f.2; Some (f.1, v)) fs.
Definition nonempty_text (s : string) : option value := if bool_decide (s = "") then None else Some (VString s).
Definition texts (l : list string) : value := VList (VString <$> l).
Definition nonempty_list {A} (f : A → value) (l : list A) : option value := if bool_decide (length l = 0%nat) then None else Some (VList (f <$> l)).
Definition nullable_text (s : option string) : value := match s with Some s => VString s | None => VNull end.

Definition write_source (i : SourceIdentity) : value :=
  VMap (members [("kind", Some (VString (Kind i))); ("commitSha", Some (VString (CommitSha i))); ("dirty", Some (VBool (Dirty i))); ("capturedAt", Some (VString (CapturedAt i)));
    ("treeHash", VString <$> TreeHash i); ("sourceRoot", VString <$> SourceRoot i)]).

Definition write_lane (l : ReviewLane) : value :=
  VMap (members [("launchId", Some (VString (LaunchID l))); ("reviewerSession", VString <$> ReviewerSession l); ("workspaceRoot", VString <$> WorkspaceRoot l);
    ("artifactSha256", VString <$> ArtifactSha256 l); ("verdict", (λ v, VString (verdict_text v)) <$> LaneVerdict l); ("sourceIdentity", write_source <$> LaneSourceIdentity l);
    ("blockers", if (Blockers l =? 0)%Z then None else Some (VInt (Blockers l))); ("findings", nonempty_list VString (Findings l))]).

Definition write_file (f : string * string) : value := VMap (members [("path", Some (VString f.1)); ("sha256", Some (VString f.2))]).

Definition write_round (r : ReviewRoundState) : value :=
  VMap (members [("roundId", Some (VString (RoundID r))); ("purpose", Some (VString (purpose_text (Purpose r)))); ("planPath", Some (VString (RoundPlanPath r)));
    ("planSha256", Some (VString (PlanSha256 r))); ("status", Some (VString (round_status_text (RoundStatus r)))); ("lane", Some (write_lane (Lane r))); ("openedAt", Some (VString (OpenedAt r)));
    ("closedAt", VString <$> RoundClosedAt r); ("ownerSessionId", nonempty_text (OwnerSessionID r)); ("workPhaseId", nonempty_text (RoundWorkPhaseID r)); ("planUnit", nonempty_text (PlanUnit r));
    ("planEpoch", nonempty_text (PlanEpoch r)); ("planFiles", nonempty_list write_file (PlanFiles r)); ("supersededBy", nonempty_text (RoundSupersededBy r))]).

Definition write_gate (g : FinalGateState) : value :=
  VMap (members [("status", Some (VString (gate_status_text (GateStatus g)))); ("qaRequired", Some (VBool (QaRequired g))); ("updatedAt", Some (VString (GateUpdatedAt g)));
    ("reviewRoundId", VString <$> ReviewRoundID g); ("testReceiptPath", VString <$> TestReceiptPath g); ("qaReceiptPath", VString <$> QaReceiptPath g);
    ("verdict", (λ v, VString (verdict_text v)) <$> GateVerdict g); ("sourceIdentity", write_source <$> GateSourceIdentity g)]).

Definition write_op (o : SteeringOpRecord) : value :=
  VMap (members [("kind", Some (VString (RKind o))); ("note", nonempty_text (RNote o)); ("scenario", nonempty_text (RScenario o)); ("surface", nonempty_text (RSurface o));
    ("presented", nonempty_text (RPresented o)); ("expectedEvidence", nonempty_text (RExpectedEvidence o)); ("id", nonempty_text (ROpID o)); ("title", nonempty_text (RTitle o));
    ("dependsOn", nonempty_list VString (default [] (RDependsOn o)))]).
Definition write_event (e : SteeringEventRecord) : value :=
  VMap (members [("id", Some (VString (EventID e))); ("event", Some (VString (Event e))); ("detail", Some (VString (EventDetail e)))]).
Definition write_entry (e : SteeringEntry) : value :=
  VMap (members [("idempotencyKey", Some (VString (IdempotencyKey e))); ("rationale", Some (VString (Rationale e))); ("evidence", Some (VString (SteeringEvidence e)));
    ("appliedAt", Some (VString (AppliedAt e))); ("summary", Some (VString (Summary e))); ("ops", nonempty_list write_op (SteeringOps e)); ("events", nonempty_list write_event (SteeringEvents e))]).

Definition decision_status_text (s : DecisionStatus) : string := match s with DecisionOpen => "open" | DecisionDecided => "decided" end.
Definition criterion_status_text (s : CriterionStatus) : string := match s with CriterionOpen => "open" | CriterionMet => "met" end.

Definition write_decision (d : GoalplanDecision) : value :=
  VMap (members [("id", Some (VString (DecisionID d))); ("question", Some (VString (Question d))); ("status", Some (VString (decision_status_text (DStatus d)))); ("answer", nonempty_text (Answer d));
    ("askedAt", Some (VString (AskedAt d))); ("decidedAt", nonempty_text (DecidedAt d)); ("recommendation", nonempty_text (Recommendation d)); ("options", nonempty_list VString (DecisionOptions d))]).
Definition write_task (t : GoalplanTask) : value :=
  VMap (members [("id", Some (VString (TaskID t))); ("title", Some (VString (TaskTitle t))); ("status", Some (VString (task_status_text (TStatus t)))); ("dependsOn", nonempty_list VString (TaskDependsOn t));
    ("outcome", nonempty_text (Outcome t))]).
Definition write_phase (p : GoalplanWorkPhase) : value :=
  VMap (members [("id", Some (VString (PhaseID p))); ("title", Some (VString (PhaseTitle p))); ("status", Some (VString (phase_status_text (PStatus p)))); ("tasks", Some (VList (write_task <$> Tasks p)));
    ("criteriaIds", Some (texts (CriteriaIDs p))); ("dependsOn", nonempty_list VString (DependsOn p)); ("awaitsDecision", nonempty_list VString (AwaitsDecision p));
    ("blockedReason", VString <$> BlockedReason p); ("supersededBy", VString <$> SupersededBy p)]).
Definition write_criterion (c : GoalplanCriterion) : value :=
  VMap (members [("id", Some (VString (CriterionID c))); ("scenario", Some (VString (Scenario c))); ("expectedEvidence", Some (VString (ExpectedEvidence c)));
    ("capturedEvidence", Some (nullable_text (CapturedEvidence c))); ("status", Some (VString (criterion_status_text (CStatus c)))); ("surface", (λ s, VString (surface_text s)) <$> Surface c);
    ("presented", (λ s, VString (presented_text s)) <$> Presented c)]).
Definition write_host (h : GoalplanHostLink) : value :=
  VMap (members [("armed", Some (VBool (Armed h))); ("armedAt", Some (nullable_text (ArmedAt h))); ("source", Some (VString (HostSource h)))]).

Section write.
Context (NumberString : float64 → string).

Definition write_number (f : float64) : value := match f with Fin q => if whole q then VInt (floor q) else VFloat (NumberString f) | _ => VFloat (NumberString f) end.

(** The record of a plan that was read: the struct's fields under their JSON names. *)
Definition plan_record (plan : Goalplan) : value :=
  VMap (members [("objective", Some (VString (Objective plan))); ("slug", Some (VString (Slug plan))); ("createdAt", Some (VString (CreatedAt plan))); ("updatedAt", Some (VString (PlanUpdatedAt plan)));
    ("activeWorkPhaseId", Some (nullable_text (ActiveWorkPhaseID plan))); ("workPhases", Some (VList (write_phase <$> WorkPhases plan))); ("criteria", Some (VList (write_criterion <$> Criteria plan)));
    ("host", Some (write_host (Host plan))); ("reviewRounds", nonempty_list write_round (ReviewRounds plan)); ("decisions", nonempty_list write_decision (Decisions plan));
    ("activePlanAuditRoundId", VString <$> ActivePlanAuditRoundID plan); ("activeFinalGateRoundId", VString <$> ActiveFinalGateRoundID plan); ("schemaVersion", write_number <$> SchemaVersion plan);
    ("finalGate", write_gate <$> FinalGate plan); ("steeringLog", nonempty_list write_entry (SteeringLog plan))]).
End write.

(** * A new goal plan (internal/pabcd/goalplan/write.go; the slug of interview/freeze.go). *)
(** ** interview/freeze.go *)

(** The letter or digit of ASCII that [unicode.ToLower] makes of a rune: of the runes beyond ASCII only the Kelvin sign is lower-cased to one. *)
Definition lower_alnum (r : Z) : option Z :=
  if in_range 97 122 r || in_range 48 57 r then Some r else if in_range 65 90 r then Some (r + 32)%Z else if (r =? 8490)%Z then Some 107%Z else None.

Definition slug_add (slug : list Z) (r : Z) : list Z :=
  match lower_alnum r with
  | Some b => slug ++ [b]
  | None => match last slug with Some c => if (c =? 45)%Z then slug else slug ++ [45%Z] | None => slug end
  end%list.
(** A capital dotted I is an i and a combining dot. *)
Definition slug_rune (slug : list Z) (r : Z) : list Z := if (r =? 304)%Z then slug_add (slug ++ [105%Z])%list 775%Z else slug_add slug r.

Fixpoint trim_left (b : Z) (s : list Z) : list Z := match s with c :: rest => if (c =? b)%Z then trim_left b rest else s | [] => [] end.
Definition trim_right (b : Z) (s : list Z) : list Z := reverse (trim_left b (reverse s)).

Definition DeriveSlug (objective : string) : string :=
  match trim_right 45 (take 48 (foldl slug_rune [] (runes (bytes_of_string objective)))) with [] => "interview" | slug => string_of_bytes slug end.

(** ** goalplan/write.go *)

(** A surface that is not given is the logic; one that is given may be empty. *)
Record NewGoalplanCriterion : Type := mkNewCriterion { NewScenario : string; NewExpectedEvidence : string; NewSurface : option (option CriterionSurface); NewPresented : option PresentedSurface }.
Record NewGoalplanInput : Type := mkNewInput { NewObjective : string; NewCriteria : list NewGoalplanCriterion; NewHost : option GoalplanHostLink; NewSchemaVersion : option float64 }.

Definition DefaultNewSchemaVersion : Z := 1.
Definition writeNormalizeNewSchemaVersion (requested : option float64) : Z :=
  match requested with Some (Fin q) => if (floor q <? 1)%Z then DefaultNewSchemaVersion else Z.min (floor q) 3 | _ => DefaultNewSchemaVersion end.

Definition new_criterion (i : nat) (c : NewGoalplanCriterion) : GoalplanCriterion :=
  mkCriterion ("c-" +:+ itoa_nat (S i)) (NewScenario c) (NewExpectedEvidence c) None CriterionOpen (default (Some SurfaceLogic) (NewSurface c)) (NewPresented c).

Definition new_host (host : option GoalplanHostLink) : GoalplanHostLink :=
  match host with Some h => mkHost (Armed h) (ArmedAt h) (if bool_decide (HostSource h = "freeze") then "freeze" else "none") | None => mkHost false None "none" end.

(** [ts] is what the clock says. *)
Definition BuildGoalplan (input : NewGoalplanInput) (ts : string) : Goalplan :=
  mkPlan (NewObjective input) (DeriveSlug (NewObjective input)) ts ts None [] (imap new_criterion (NewCriteria input)) (new_host (NewHost input)) [] [] None None
    (Some (Fin (QArith_base.inject_Z (writeNormalizeNewSchemaVersion (NewSchemaVersion input))))) None [].

(** The record of a new plan has its members in another order, and a surface that is empty. *)
Definition write_fresh_criterion (c : GoalplanCriterion) : value :=
  VMap (members [("id", Some (VString (CriterionID c))); ("scenario", Some (VString (Scenario c))); ("surface", Some (VString (from_option surface_text "" (Surface c))));
    ("presented", (λ s, VString (presented_text s)) <$> Presented c); ("expectedEvidence", Some (VString (ExpectedEvidence c))); ("capturedEvidence", Some (nullable_text (CapturedEvidence c)));
    ("status", Some (VString (criterion_status_text (CStatus c))))]).

Section fresh.
Context (NumberString : float64 → string).

Definition write_fresh_plan (plan : Goalplan) : value :=
  VMap (members [("objective", Some (VString (Objective plan))); ("slug", Some (VString (Slug plan))); ("schemaVersion", write_number NumberString <$> SchemaVersion plan);
    ("createdAt", Some (VString (CreatedAt plan))); ("updatedAt", Some (VString (PlanUpdatedAt plan))); ("activeWorkPhaseId", Some (nullable_text (ActiveWorkPhaseID plan)));
    ("workPhases", Some (VList (write_phase <$> WorkPhases plan))); ("criteria", Some (VList (write_fresh_criterion <$> Criteria plan))); ("host", Some (write_host (Host plan)));
    ("reviewRounds", nonempty_list write_round (ReviewRounds plan)); ("decisions", nonempty_list write_decision (Decisions plan));
    ("activePlanAuditRoundId", VString <$> ActivePlanAuditRoundID plan); ("activeFinalGateRoundId", VString <$> ActiveFinalGateRoundID plan);
    ("finalGate", write_gate <$> FinalGate plan); ("steeringLog", nonempty_list write_entry (SteeringLog plan))]).

(** The bytes of a plan; [fresh] is [goalplanBuiltFresh]. *)
Definition writeEncodePlan (fill : value → value) (fresh : bool) (plan : Goalplan) : list Z :=
  Stringify (fill (if fresh then write_fresh_plan plan else plan_record NumberString plan)) [32; 32]%Z.
End fresh.

(** Empty lists of a record that Go holds as empty slices: members of the names whose tags say omitzero, that the record left out. *)
Definition omitzero : list string := ["dependsOn"; "awaitsDecision"; "planFiles"; "reviewRounds"; "decisions"; "steeringLog"].

#[local] Set Warnings "-register-all".

Inductive with_empty (R : value → value → Prop) : fields → fields → Prop :=
| empty_done : with_empty R [] []
| empty_keep k v w fs gs : R v w → with_empty R fs gs → with_empty R ((k, v) :: fs) ((k, w) :: gs)
| empty_more k fs gs : k ∈ omitzero → with_empty R fs gs → with_empty R fs ((k, VList []) :: gs).

Inductive filled : value → value → Prop :=
| filled_same v : filled v v
| filled_list l k : Forall2 filled l k → filled (VList l) (VList k)
| filled_map fs gs : with_empty filled fs gs → NoDup gs.*1 → filled (VMap fs) (VMap gs).

(** ** read.go *)

(** [revivalLossReadPlan] of the bytes of the file: the plan, or no plan. *)
Definition read_plan (raw : list Z) (slug : string) : option Goalplan :=
  let decoded := DecodeUTF8 raw in
  match json_value (load_fuel decoded) 0 decoded with
  | Some (parsed, rest) =>
    match ws rest with
    | [] => if bool_decide (is_Some (unpairedSurrogate decoded)) then None else reviveGoalplan parsed (Some slug)
    | _ => None
    end
  | None => None
  end.

Example slugs : DeriveSlug "Port the Tool (v2)!" = "port-the-tool-v2" ∧ DeriveSlug " -- " = "interview".
Proof. split; vm_compute; reflexivity. Qed.
