(* ===== verification/GoalStored.v ===== *)
(** * GoalStored: the parts of a stored goal plan that are read back as they were written (review rounds, the final gate, the steering log). *)
From Stdlib Require Import QArith.
From S2P Require Import Prelude GoLib Sha256 Json Loads JsonText GoJson JsonSpelled GoFloat GoPath GoTime JsText Attest Fsm GoalTypes GoalQuery GoalOps GoalSteer GrammarProps GoalRevive.
Local Open Scope string_scope.
(** ** Members *)
Fixpoint pick (fs : list (string * option value)) (k : string) : option value := match fs with [] => None | (k', v) :: rest => if String.eqb k' k then v else pick rest k end.
Fixpoint distinct (ks : list string) : bool := match ks with [] => true | k :: rest => negb (existsb (String.eqb k) rest) && distinct rest end.

Lemma pick_absent fs k : k ∉ fs.*1 → pick fs k = None.
Proof. induction fs as [|[k' v] fs IH]; csimpl; [done|]. intros [Hk Hr]%not_elem_of_cons. rewrite (proj2 (String.eqb_neq k' k)) by done. by apply IH. Qed.

Lemma get_members fs k : distinct fs.*1 = true → map_get (members fs) k = pick fs k.
Proof.
  unfold members. induction fs as [|[k' v] fs IH]; [done|]. csimpl. intros [Hk Hd]%andb_true_iff. destruct (String.eqb_spec k' k) as [->|Hne].
  - assert (pick fs k = None) as Hp.
    { apply pick_absent. intros Hin. apply negb_true_iff, not_true_iff_false in Hk. apply Hk. apply existsb_exists. exists k. split; [by apply list_elem_of_In|apply String.eqb_refl]. }
    destruct v as [w|]; simpl; [by rewrite bool_decide_eq_true_2|]. by rewrite IH.
  - destruct v as [w|]; simpl; [rewrite bool_decide_eq_false_2 by done|]; by apply IH.
Qed.

(** Read the members of a record that was written. *)
Ltac read_members := unfold timestamp, optional_text, said_text, reviveDependsOn, reviveDecisionOptions; unfold list_field, text, get; cbv beta zeta; rewrite ?get_members by (vm_compute; reflexivity);
  cbn [pick String.eqb Ascii.eqb Bool.eqb from_option Datatypes.id].

(** ** Fields *)
Lemma text_of_option (o : option string) : text_of (VString <$> o) = o.
Proof. by destruct o. Qed.

Lemma text_of_nonempty s : default "" (text_of (nonempty_text s)) = s.
Proof. unfold nonempty_text. by case_bool_decide as E; [rewrite E|]. Qed.

Lemma text_of_nullable o : text_of (Some (nullable_text o)) = o.
Proof. by destruct o. Qed.

Lemma optional_nonempty s : match nonempty_text s with None => Some "" | Some (VString s) => Some s | Some _ => None end = Some s.
Proof. unfold nonempty_text. by case_bool_decide as E; [rewrite E|]. Qed.

(** A reader and a writer of the entries of a list: what was read is read again. *)
Definition again {A} (read : value → option A) (write : A → value) (a : A) : Prop := read (write a) = Some a.

Lemma mapM_again {A} (read : value → option A) (write : A → value) l : Forall (again read write) l → mapM read (write <$> l) = Some l.
Proof.
  induction 1 as [|a l Ha _ IH]; [done|]. change (mapM read (write <$> a :: l)) with (b ← read (write a); k ← mapM read (write <$> l); mret (b :: k)).
  rewrite Ha. cbn [mbind option_bind]. by rewrite IH.
Qed.

Lemma mapM_read {A} (read : value → option A) (P : A → Prop) raws l : (∀ v a, read v = Some a → P a) → mapM read raws = Some l → Forall P l.
Proof. intros Hr H%mapM_Some. induction H as [|v a raws l Hv _ IH]; constructor; eauto. Qed.

Lemma omap_again {A} (read : value → option A) (write : A → value) l : Forall (again read write) l → omap read (write <$> l) = l.
Proof. induction 1 as [|a l Ha _ IH]; [done|]. csimpl. unfold again in Ha. by rewrite Ha, IH. Qed.

Lemma omap_read {A} (read : value → option A) (write : A → value) raws : (∀ v a, read v = Some a → again read write a) → Forall (again read write) (omap read raws).
Proof. intros Hr. induction raws as [|v raws IH]; [constructor|]. csimpl. destruct (read v) eqn:E; [constructor; eauto|done]. Qed.

Lemma list_again {A} (read : value → option A) (write : A → value) l : Forall (again read write) l →
  match nonempty_list write l with None => Some [] | Some v => list_of v ≫= mapM read end = Some l.
Proof. intros Hl. unfold nonempty_list. destruct l as [|a l]; [done|]. cbn [length]. rewrite bool_decide_eq_false_2 by done. cbn [list_of mbind option_bind]. by apply mapM_again. Qed.

Lemma list_field_read {A} (read : value → option A) (P : A → Prop) m key l : (∀ v a, read v = Some a → P a) → list_field read m key = Some l → Forall P l.
Proof. intros Hr. unfold list_field. destruct (map_get m key) as [v|]; [|by intros [= <-]]. destruct (list_of v) as [raws|]; [|done]. simpl. by apply mapM_read. Qed.

Lemma string_again s : again string_of VString s.
Proof. done. Qed.
Lemma not_blank_again v s : not_blank v = Some s → again not_blank VString s.
Proof. destruct v; try done. simpl. case_bool_decide; [done|]. intros [= <-]. unfold again. simpl. by rewrite bool_decide_eq_false_2. Qed.
Lemma finding_again v s : finding_ref v = Some s → again finding_ref VString s.
Proof. destruct v; try done. simpl. destruct (ValidFindingRef s0) eqn:E; [|done]. intros [= <-]. unfold again. simpl. by rewrite E. Qed.

Lemma verdict_again o : verdictOf (default VNull ((λ v, VString (verdict_text v)) <$> o)) = o.
Proof. by destruct o as [[]|]. Qed.

Lemma mapM_length {A B} (f : A → option B) l k : mapM f l = Some k → length k = length l.
Proof. intros H%mapM_Some. symmetry. by apply Forall2_length in H. Qed.

(** ** revive.go *)
Lemma source_again v i : reviveSourceIdentity v = Some i → again reviveSourceIdentity write_source i.
Proof.
  unfold reviveSourceIdentity at 1. destruct (object_of v) as [s|]; [|done]. cbn [mbind option_bind]. destruct (text s "kind") as [kind|]; [|done]. cbn [mbind option_bind].
  destruct (negb _) eqn:Ek; [done|]. intros H.
  assert (Kind i = kind ∧ (∀ root, SourceRoot i = Some root → has_prefix root "/" = true)) as [<- Hroot].
  { destruct (map_get s "sourceRoot") as [[| | | | |root| |]|]; try done; [destruct (has_prefix root "/") eqn:E; [|done]|]; injection H as <-; split; simpl; [done|congruence|done|done]. }
  clear H. unfold again, write_source, reviveSourceIdentity. cbn [object_of mbind option_bind]. read_members. cbn [text_of mbind option_bind]. rewrite Ek, text_of_option. destruct i as [k c d at_ th root]. simpl in *.
  destruct root as [root|]; simpl; [rewrite (Hroot root eq_refl)|]; by destruct d.
Qed.

Lemma source_option v : reviveSourceIdentity (default VNull (write_source <$> reviveSourceIdentity v)) = reviveSourceIdentity v.
Proof. destruct (reviveSourceIdentity v) eqn:E; [|done]. by apply (source_again v). Qed.

Lemma small_float : forallb (λ n, match float_of_int n with Fin q => whole q && (floor q =? n)%Z | _ => false end) (seqZ 1 9999) = true.
Proof. vm_compute. reflexivity. Qed.

Lemma blockers_again v : reviveBlockers (default VNull (if (reviveBlockers v =? 0)%Z then None else Some (VInt (reviveBlockers v)))) = reviveBlockers v.
Proof.
  assert (reviveBlockers v = 0%Z ∨ 1 ≤ reviveBlockers v ≤ 9999)%Z as [->|Hr].
  { unfold reviveBlockers. destruct (jsNumber v) as [[| |q]|]; auto. destruct (_ && _) eqn:E; [|auto]. right. rewrite !andb_true_iff, !Z.leb_le in E. unfold MaxBlockers in E. lia. }
  { done. }
  rewrite (proj2 (Z.eqb_neq _ _)) by lia. simpl. set (n := reviveBlockers v) in *. clearbody n. pose proof small_float as Hs. rewrite forallb_forall in Hs.
  specialize (Hs n). unfold reviveBlockers. simpl. destruct (float_of_int n) as [| |q]; [exfalso; by discriminate Hs; apply list_elem_of_In, elem_of_seqZ; lia..|].
  rewrite andb_true_iff, Z.eqb_eq in Hs. destruct Hs as [Hw Hf]; [apply list_elem_of_In, elem_of_seqZ; lia|]. rewrite Hw, Hf.
  rewrite (proj2 (Z.leb_le 1 n)), (proj2 (Z.leb_le n MaxBlockers)) by (unfold MaxBlockers; lia). done.
Qed.

Lemma nonempty_list_back {A} (read : value → option A) (write : A → value) l : Forall (again read write) l →
  match list_of (default VNull (nonempty_list write l)) with Some l => default [] (mapM read l) | None => [] end = l.
Proof. intros Hl. unfold nonempty_list. destruct l as [|a l]; [done|]. cbn [length]. rewrite bool_decide_eq_false_2 by done. change (default [] (mapM read (write <$> a :: l)) = a :: l). by rewrite (mapM_again read write (a :: l) Hl). Qed.

Lemma findings_again v : reviveFindingRefs (default VNull (nonempty_list VString (reviveFindingRefs v))) = reviveFindingRefs v.
Proof.
  set (l := reviveFindingRefs v). assert (Forall (again finding_ref VString) l ∧ (length l ≤ MaxFindingRefs)%nat) as [Hl Hn].
  { unfold l, reviveFindingRefs. destruct (list_of v) as [raws|]; [|split; [done|simpl; lia]]. destruct (Nat.leb_spec (length raws) MaxFindingRefs); [|split; [done|simpl; lia]].
    destruct (mapM finding_ref raws) as [k|] eqn:E; [|split; [done|simpl; lia]]. simpl. split; [by eapply mapM_read; [apply finding_again|]|]. by rewrite (mapM_length _ _ _ E). }
  clearbody l. unfold reviveFindingRefs, nonempty_list. destruct l as [|s l]; [done|]. cbn [length]. rewrite bool_decide_eq_false_2 by done.
  change ((if (length (VString <$> s :: l) <=? MaxFindingRefs)%nat then default [] (mapM finding_ref (VString <$> s :: l)) else []) = s :: l).
  rewrite length_fmap, (proj2 (Nat.leb_le _ _) Hn). by rewrite (mapM_again finding_ref VString (s :: l) Hl).
Qed.

Lemma plan_file_again v f : plan_file v = Some f → again plan_file write_file f.
Proof.
  unfold plan_file at 1. destruct (object_of v) as [m|]; [|done]. cbn [mbind option_bind]. destruct (text m "path") as [file|]; [|done]. cbn [mbind option_bind]. destruct (text m "sha256") as [sum|]; [|done].
  cbn [mbind option_bind]. destruct (_ || _) eqn:E; [done|]. intros [= <-]. unfold again, plan_file, write_file. cbn [object_of mbind option_bind]. read_members. cbn [text_of mbind option_bind fst snd]. by rewrite E.
Qed.

Lemma plan_files_again v : revivePlanFiles (default VNull (nonempty_list write_file (revivePlanFiles v))) = revivePlanFiles v.
Proof.
  apply (nonempty_list_back plan_file). unfold revivePlanFiles. destruct (list_of v) as [raws|]; [|done]. destruct (mapM plan_file raws) as [k|] eqn:E; [|done]. simpl. eapply mapM_read; [apply plan_file_again|done].
Qed.

Lemma lane_again v l : reviveLane v = Some l → again reviveLane write_lane l.
Proof.
  unfold reviveLane at 1. destruct (object_of v) as [r|]; [|done]. cbn [mbind option_bind]. destruct (text r "launchId") as [id|]; [|done]. cbn [mbind option_bind]. case_bool_decide as Hid; [done|]. intros [= <-].
  unfold again, reviveLane, write_lane. cbn [object_of mbind option_bind LaunchID ReviewerSession WorkspaceRoot ArtifactSha256 LaneVerdict LaneSourceIdentity Blockers Findings]. read_members.
  cbn [text_of mbind option_bind]. rewrite bool_decide_eq_false_2 by done. by rewrite !text_of_option, verdict_again, source_option, blockers_again, findings_again.
Qed.

Lemma round_again v r : revive_round v = Some r → again revive_round write_round r.
Proof.
  unfold revive_round at 1. destruct (object_of v) as [m|]; [|done]. cbn [mbind option_bind]. destruct (text m "roundId") as [id|]; [|done]. cbn [mbind option_bind].
  destruct (text m "purpose" ≫= purposeOf) as [purpose|]; [|done]. cbn [mbind option_bind]. destruct (text m "planPath") as [path|]; [|done]. cbn [mbind option_bind].
  destruct (text m "planSha256") as [sha|]; [|done]. cbn [mbind option_bind]. destruct (text m "status" ≫= reviewStatusOf) as [status|]; [|done]. cbn [mbind option_bind].
  destruct (reviveLane (get m "lane")) as [lane|] eqn:El; [|done]. cbn [mbind option_bind]. case_bool_decide as Hid; [done|]. intros [= <-]. apply lane_again in El. unfold again in El.
  unfold again, revive_round, write_round. cbn [object_of mbind option_bind]. read_members. cbn [text_of mbind option_bind default RoundID Purpose RoundPlanPath PlanSha256 RoundStatus Lane OpenedAt RoundClosedAt
    OwnerSessionID RoundWorkPhaseID PlanUnit PlanEpoch PlanFiles RoundSupersededBy]. rewrite El. replace (purposeOf (purpose_text purpose)) with (Some purpose) by (by destruct purpose).
  replace (reviewStatusOf (round_status_text status)) with (Some status) by (by destruct status). cbn [mbind option_bind]. rewrite bool_decide_eq_false_2 by done.
  by rewrite text_of_option, !text_of_nonempty, plan_files_again.
Qed.

Lemma rounds_again v : reviveReviewRounds (default VNull (nonempty_list write_round (reviveReviewRounds v))) = reviveReviewRounds v.
Proof.
  set (l := reviveReviewRounds v). assert (Forall (again revive_round write_round) l) as Hl. { unfold l, reviveReviewRounds. destruct (list_of v); [|done]. apply omap_read, round_again. }
  clearbody l. unfold reviveReviewRounds, nonempty_list. destruct l as [|r l]; [done|]. cbn [length]. rewrite bool_decide_eq_false_2 by done. by apply (omap_again revive_round write_round (r :: l)).
Qed.

(** What a round has to hold to be read back. *)
Definition source_fit (o : option SourceIdentity) : Prop := reviveSourceIdentity (default VNull (write_source <$> o)) = o.
Definition blockers_fit (n : Z) : Prop := (0 ≤ n ≤ MaxBlockers)%Z.
Definition findings_fit (l : list string) : Prop := Forall (λ s, ValidFindingRef s = true) l ∧ (length l ≤ MaxFindingRefs)%nat.

Record lane_fit (l : ReviewLane) : Prop := {
  fit_launch : LaunchID l ≠ "";
  fit_source : source_fit (LaneSourceIdentity l);
  fit_blockers : blockers_fit (Blockers l);
  fit_findings : findings_fit (Findings l)
}.

Lemma blockers_back n : reviveBlockers (default VNull (if (n =? 0)%Z then None else Some (VInt n))) = n ↔ blockers_fit n.
Proof.
  unfold blockers_fit, MaxBlockers. destruct (Z.eqb_spec n 0) as [->|Hn]; [done|]. simpl. unfold reviveBlockers. simpl. split.
  - destruct (float_of_int n) as [| |q]; [lia|lia|]. destruct (_ && _) eqn:E; [|lia]. intros <-. rewrite !andb_true_iff, !Z.leb_le in E. unfold MaxBlockers in E. lia.
  - intros Hr. pose proof small_float as Hs. rewrite forallb_forall in Hs. assert (n ∈ seqZ 1 9999) as Hin%list_elem_of_In by (apply elem_of_seqZ; lia). specialize (Hs n Hin). destruct (float_of_int n) as [| |q]; [done|done|].
    rewrite andb_true_iff, Z.eqb_eq in Hs. destruct Hs as [-> ->]. rewrite (proj2 (Z.leb_le 1 n)), (proj2 (Z.leb_le n MaxBlockers)) by (unfold MaxBlockers; lia). done.
Qed.

Lemma finding_fit s : again finding_ref VString s ↔ ValidFindingRef s = true.
Proof. unfold again. simpl. destruct (ValidFindingRef s); split; congruence. Qed.

Lemma findings_back l : reviveFindingRefs (default VNull (nonempty_list VString l)) = l ↔ findings_fit l.
Proof.
  unfold findings_fit. destruct l as [|s l]; [split; [split; [constructor|simpl; lia]|done]|]. change (reviveFindingRefs (default VNull (nonempty_list VString (s :: l)))) with
    (if (length (VString <$> s :: l) <=? MaxFindingRefs)%nat then default [] (mapM finding_ref (VString <$> s :: l)) else []). rewrite length_fmap. destruct (Nat.leb_spec (length (s :: l)) MaxFindingRefs) as [Hn|Hn]; [|split; [done|intros [_ ?]; lia]].
  split.
  - destruct (mapM finding_ref (VString <$> s :: l)) as [k|] eqn:E; [|done]. simpl. intros ->. split; [|done]. eapply Forall_impl; [by eapply mapM_read; [apply finding_again|exact E]|]. intros x. apply finding_fit.
  - intros [Hl _]. rewrite (mapM_again finding_ref VString (s :: l)); [done|]. eapply Forall_impl; [exact Hl|]. intros x. apply finding_fit.
Qed.

Lemma lane_fit_again l : again reviveLane write_lane l ↔ lane_fit l.
Proof.
  unfold again, reviveLane, write_lane. cbn [object_of mbind option_bind]. read_members. cbn [text_of mbind option_bind]. rewrite !text_of_option, verdict_again. case_bool_decide as Hid; [split; [done|by intros []]|]. destruct l as [id session ws sum verdict src n fs]. simpl in *. split.
  - intros [= Hs Hb Hf]. constructor; simpl; [done|done|by apply blockers_back|by apply findings_back].
  - intros [_ Hs Hb%blockers_back Hf%findings_back]. simpl in *. unfold source_fit in Hs. by rewrite Hs, Hb, Hf.
Qed.

Record round_fit (r : ReviewRoundState) : Prop := {
  fit_id : RoundID r ≠ "";
  fit_lane : lane_fit (Lane r);
  fit_files : revivePlanFiles (default VNull (nonempty_list write_file (PlanFiles r))) = PlanFiles r
}.

Lemma round_fit_again r : again revive_round write_round r ↔ round_fit r.
Proof.
  unfold again, revive_round, write_round. cbn [object_of mbind option_bind]. read_members. cbn [text_of mbind option_bind default]. replace (purposeOf (purpose_text (Purpose r))) with (Some (Purpose r)) by (by destruct (Purpose r)).
  replace (reviewStatusOf (round_status_text (RoundStatus r))) with (Some (RoundStatus r)) by (by destruct (RoundStatus r)). cbn [mbind option_bind]. rewrite text_of_option, !text_of_nonempty. split.
  - destruct (reviveLane (write_lane (Lane r))) as [lane|] eqn:El; [|done]. cbn [mbind option_bind]. case_bool_decide as Hid; [done|]. intros H. destruct r. simpl in *. injection H as -> Hf. constructor; [done|by apply lane_fit_again|done].
  - intros [Hid Hl%lane_fit_again Hf]. unfold again in Hl. rewrite Hl. cbn [mbind option_bind]. rewrite bool_decide_eq_false_2 by done. rewrite Hf. by destruct r.
Qed.

Lemma gate_again v : reviveFinalGate (default VNull (write_gate <$> reviveFinalGate v)) = reviveFinalGate v.
Proof.
  destruct (reviveFinalGate v) as [g|] eqn:E; [|done]. revert E. unfold reviveFinalGate at 1. destruct (object_of v) as [m|]; [|done]. cbn [mbind option_bind].
  destruct (text m "status" ≫= gateStatusOf) as [status|]; [|done]. cbn [mbind option_bind]. destruct (get m "qaRequired") as [|qa| | | | | |]; try done. intros [= <-].
  cbn [fmap option_fmap option_map from_option Datatypes.id]. unfold reviveFinalGate, write_gate. cbn [object_of mbind option_bind]. read_members.
  cbn [text_of mbind option_bind default GateStatus QaRequired GateUpdatedAt ReviewRoundID TestReceiptPath QaReceiptPath GateVerdict GateSourceIdentity].
  replace (gateStatusOf (gate_status_text status)) with (Some status) by (by destruct status). cbn [mbind option_bind]. by rewrite !text_of_option, verdict_again, source_option.
Qed.

Lemma optional_said fs key s : distinct fs.*1 = true → pick fs key = nonempty_text s → optional_text (members fs) key = Some s.
Proof. intros Hd Hp. unfold optional_text. rewrite get_members, Hp by done. apply optional_nonempty. Qed.

Lemma list_field_again {A} (read : value → option A) (write : A → value) fs key l : distinct fs.*1 = true → pick fs key = nonempty_list write l → Forall (again read write) l →
  list_field read (members fs) key = Some l.
Proof. intros Hd Hp Hl. unfold list_field. rewrite get_members, Hp by done. by apply list_again. Qed.

Lemma text_said fs key s : distinct fs.*1 = true → pick fs key = Some (VString s) → text (members fs) key = Some s.
Proof. intros Hd Hp. unfold text. by rewrite get_members, Hp. Qed.

Lemma deps_back (deps : list string) : default [] (if bool_decide (deps = []) then None else Some deps) = deps.
Proof. by destruct deps. Qed.

Lemma got fs key v : distinct fs.*1 = true → pick fs key = Some v → get (members fs) key = v.
Proof. intros Hd Hp. unfold get. by rewrite get_members, Hp. Qed.

(** Give the value of a field whose writer is known. *)
Ltac reread := repeat first [erewrite text_said by reflexivity | erewrite optional_said by reflexivity]; cbn [mbind option_bind].

(** What an op, an event and an entry of the steering log are when they can be read back. *)
Definition op_ok (o : SteeringOpRecord) : Prop := supported (RKind o) = true ∧ RDependsOn o ≠ Some [].
Definition event_ok (e : SteeringEventRecord) : Prop := EventID e ≠ "".
Definition entry_ok (e : SteeringEntry) : Prop :=
  IdempotencyKey e ≠ "" ∧ Rationale e ≠ "" ∧ SteeringEvidence e ≠ "" ∧ AppliedAt e ≠ "" ∧ Summary e ≠ "" ∧ Forall op_ok (SteeringOps e) ∧ Forall event_ok (SteeringEvents e).

Lemma op_read v o : revive_op v = Some o → op_ok o.
Proof.
  unfold revive_op. destruct (object_of v) as [m|]; [|done]. cbn [mbind option_bind]. cbv zeta. destruct (negb _) eqn:Ek; [done|]. apply negb_false_iff in Ek.
  intros H. do 8 (apply bind_Some in H as (? & _ & H)). injection H as <-. split; [done|]. simpl. by case_bool_decide; [|intros [= ->]].
Qed.

Lemma op_again o : op_ok o → again revive_op write_op o.
Proof.
  intros [Hk Hd]. unfold again, revive_op, write_op. destruct o as [kind note scenario surface presented expected id title deps]. cbn [object_of mbind option_bind RKind RNote RScenario RSurface RPresented
    RExpectedEvidence ROpID RTitle RDependsOn] in *. rewrite (text_said _ "kind" kind) by reflexivity. cbn [from_option Datatypes.id]. rewrite Hk. cbn [negb]. do 8 reread.
  erewrite (list_field_again string_of VString); [|reflexivity..|by apply Forall_forall]. cbn [mbind option_bind]. do 2 f_equal. by destruct deps as [[|? ?]|].
Qed.

Lemma event_read v e : revive_event v = Some e → event_ok e.
Proof. unfold revive_event. intros H. do 4 (apply bind_Some in H as (? & _ & H)). case_bool_decide as Hid; [done|]. by injection H as <-. Qed.

Lemma event_again e : event_ok e → again revive_event write_event e.
Proof.
  intros Hid. unfold again, revive_event, write_event. destruct e as [id event detail]. cbn [object_of mbind option_bind EventID Event EventDetail]. do 3 reread. by rewrite bool_decide_eq_false_2.
Qed.

Lemma said_again fs key s : distinct fs.*1 = true → pick fs key = Some (VString s) → s ≠ "" → said_text (members fs) key = Some s.
Proof. intros Hd Hp Hs. unfold said_text. erewrite text_said by done. simpl. by rewrite bool_decide_eq_false_2. Qed.

Lemma said_not_empty m key s : said_text m key = Some s → s ≠ "".
Proof. unfold said_text. destruct (text m key); [|done]. simpl. case_bool_decide; [done|]. by intros [= <-]. Qed.

Lemma some_list_read {A} (read : value → option A) (P : A → Prop) raw l : (∀ v a, read v = Some a → P a) → some_list read raw = Some l → Forall P l.
Proof. intros Hr. unfold some_list. destruct raw as [| | | | | |[|v raws]|]; try done; [by intros [= <-]|]. intros H. by eapply mapM_read. Qed.

Lemma some_list_again {A} (read : value → option A) (write : A → value) fs key l : distinct fs.*1 = true → pick fs key = nonempty_list write l → Forall (again read write) l →
  some_list read (get (members fs) key) = Some l.
Proof.
  intros Hd Hp Hl. unfold get. rewrite get_members, Hp by done. unfold nonempty_list. destruct l as [|a l]; [done|]. cbn [length]. rewrite bool_decide_eq_false_2 by done.
  by apply (mapM_again read write (a :: l)).
Qed.

Lemma entry_read v e : revive_entry v = Some e → entry_ok e.
Proof.
  unfold revive_entry. intros H. apply bind_Some in H as (m & _ & H). do 5 (apply bind_Some in H as (? & ?%said_not_empty & H)).
  apply bind_Some in H as (ops & Hops & H). apply bind_Some in H as (events & Hevents & H). injection H as <-.
  split_and!; simpl; [done..| |]; [exact (some_list_read _ _ _ _ op_read Hops)|exact (some_list_read _ _ _ _ event_read Hevents)].
Qed.

Lemma entry_again e : entry_ok e → again revive_entry write_entry e.
Proof.
  destruct e as [key rationale evidence appliedAt summary ops events]. intros (Hk & Hr & He & Hat & Hs & Hops & Hevents).
  unfold again, revive_entry, write_entry. cbn [object_of mbind option_bind IdempotencyKey Rationale SteeringEvidence AppliedAt Summary SteeringOps SteeringEvents] in *.
  do 5 (erewrite said_again by (done || reflexivity); cbn [mbind option_bind]).
  erewrite (some_list_again revive_op write_op) by (reflexivity || by apply (Forall_impl _ _ _ Hops op_again)). cbn [mbind option_bind].
  erewrite (some_list_again revive_event write_event) by (reflexivity || by apply (Forall_impl _ _ _ Hevents event_again)). done.
Qed.

(** * Which goal plans are read back as they were written. *)
Lemma trimmed_not_empty s : Trim s ≠ "" → s ≠ "".
Proof. intros H ->. by apply H. Qed.

Lemma nonempty_text_some s : s ≠ "" → nonempty_text s = Some (VString s).
Proof. intros H. unfold nonempty_text. by rewrite bool_decide_eq_false_2. Qed.

(** A text with something in it, which the reader of ids and options takes. *)
Definition worded (s : string) : Prop := Trim s ≠ "".

Lemma worded_read v s : not_blank v = Some s → worded s.
Proof. destruct v; try done. simpl. case_bool_decide; [done|]. by intros [= <-]. Qed.
Lemma worded_again s : worded s → again not_blank VString s.
Proof. intros H. unfold again. simpl. by rewrite bool_decide_eq_false_2. Qed.
Lemma worded_all l : Forall worded l → Forall (again not_blank VString) l.
Proof. intros H. exact (Forall_impl _ _ _ H worded_again). Qed.

Lemma depends_read m key l : reviveDependsOn m key = Some l → Forall worded l.
Proof. by apply list_field_read, worded_read. Qed.
Lemma depends_again fs key l : distinct fs.*1 = true → pick fs key = nonempty_list VString l → Forall worded l → reviveDependsOn (members fs) key = Some l.
Proof. intros Hd Hp Hl. apply (list_field_again not_blank VString); [done..|]. by apply worded_all. Qed.

(** ** Decisions *)
Record decision_ok (d : GoalplanDecision) : Prop := mk_decision_ok {
  dok_id : isLifecycleID (DecisionID d) = true;
  dok_question : worded (Question d);
  dok_asked : validIsoTime (AskedAt d) = true;
  dok_options : Forall worded (DecisionOptions d) ∧ NoDup (Trim <$> DecisionOptions d);
  dok_recommendation : Recommendation d ≠ "" → worded (Recommendation d) ∧ (DecisionOptions d ≠ [] → Trim (Recommendation d) ∈ Trim <$> DecisionOptions d);
  dok_status : match DStatus d with DecisionOpen => Answer d = "" ∧ DecidedAt d = "" | DecisionDecided => worded (Answer d) ∧ validIsoTime (DecidedAt d) = true end }.

Lemma time_read v t : valid_time v = Some t → validIsoTime t = true.
Proof. destruct v; try done. simpl. destruct (validIsoTime s) eqn:E; [|done]. by intros [= <-]. Qed.
Lemma time_again t : validIsoTime t = true → valid_time (VString t) = Some t ∧ t ≠ "".
Proof. intros H. simpl. rewrite H. split; [done|]. by intros ->. Qed.

Lemma options_read m key options : reviveDecisionOptions m key = Some options → Forall worded options ∧ NoDup (Trim <$> options).
Proof.
  unfold reviveDecisionOptions. destruct (map_get m key) as [v|]; [|intros [= <-]; split; constructor]. intros (l & _ & (o & Ho & H)%bind_Some)%bind_Some. destruct (bool_decide (o = []) || _) eqn:E; [done|].
  injection H as <-. apply orb_false_iff in E as [_ E%negb_false_iff%bool_decide_eq_true]. split; [|done]. exact (mapM_read _ _ _ _ worded_read Ho).
Qed.

Lemma options_again fs k options : Forall worded options → NoDup (Trim <$> options) → distinct fs.*1 = true → pick fs k = nonempty_list VString options → reviveDecisionOptions (members fs) k = Some options.
Proof.
  intros Hw Hn Hd Hp. unfold reviveDecisionOptions. rewrite get_members, Hp by done. unfold nonempty_list. destruct options as [|a o]; [done|]. cbn [length]. rewrite bool_decide_eq_false_2 by done.
  cbn [list_of mbind option_bind]. rewrite (mapM_again not_blank VString) by (by apply worded_all). cbn [mbind option_bind]. by rewrite bool_decide_eq_false_2, bool_decide_eq_true_2.
Qed.

(** A text that is absent, or is a text with something in it. *)
Definition maybe_worded (o : option value) : option string := match o with None => Some "" | Some v => not_blank v end.
Lemma maybe_read o s : maybe_worded o = Some s → s ≠ "" → worded s.
Proof. destruct o as [v|]; [|by intros [= <-]]. intros H _. exact (worded_read v s H). Qed.
Lemma maybe_again s : (s ≠ "" → worded s) → maybe_worded (nonempty_text s) = Some s.
Proof. intros H. unfold nonempty_text. case_bool_decide as E; [by rewrite E|]. simpl. apply worded_again. by apply H. Qed.

Lemma decision_read v d : revive_decision v = Some d → decision_ok d.
Proof.
  unfold revive_decision. intros (m & _ & (id & _ & (question & _ & (asked & Ha%time_read & (options & Ho%options_read & (rec & Hr & H)%bind_Some)%bind_Some)%bind_Some)%bind_Some)%bind_Some)%bind_Some.
  destruct (negb (isLifecycleID id) || _ || _) eqn:Ec; [done|]. rewrite !orb_false_iff in Ec. destruct Ec as [[Hid%negb_false_iff Hq%bool_decide_eq_false] Hin].
  assert (Hrec : rec ≠ "" → worded rec ∧ (options ≠ [] → Trim rec ∈ Trim <$> options)).
  { intros Hne. split; [exact (maybe_read _ _ Hr Hne)|]. intros Hopt. rewrite (bool_decide_eq_false_2 (options = [])), (bool_decide_eq_false_2 (rec = "")) in Hin by done. simpl in Hin.
    by apply negb_false_iff, bool_decide_eq_true in Hin. }
  destruct (is_text (get m "status") "open").
  - destruct (bool_decide (is_Some (map_get m "answer")) || _); [done|]. injection H as <-. by constructor.
  - destruct (is_text (get m "status") "decided"); [|done]. apply bind_Some in H as (answer & _ & (decidedAt & Hd%time_read & H)%bind_Some). case_bool_decide as Hans; [done|]. injection H as <-. by constructor.
Qed.

Lemma decision_again d : decision_ok d → again revive_decision write_decision d.
Proof.
  intros [Hid Hq Ha [Ho Hn] Hr Hs]. destruct d as [id question status answer asked decidedAt rec options]. cbn [DecisionID Question DStatus Answer AskedAt DecidedAt Recommendation DecisionOptions] in *.
  unfold again, revive_decision, write_decision. cbn [object_of mbind option_bind DecisionID Question DStatus Answer AskedAt DecidedAt Recommendation DecisionOptions].
  rewrite (text_said _ "id" id), (text_said _ "question" question), (got _ "askedAt" (VString asked)), (proj1 (time_again asked Ha)) by reflexivity. cbn [mbind option_bind].
  erewrite options_again by (done || reflexivity). cbn [mbind option_bind]. unfold get, text. rewrite !get_members by reflexivity. cbn [pick String.eqb Ascii.eqb Bool.eqb from_option Datatypes.id].
  change (match nonempty_text rec with Some v => not_blank v | None => Some "" end) with (maybe_worded (nonempty_text rec)). rewrite maybe_again by (intros H; by apply Hr). cbn [text_of mbind option_bind].
  rewrite Hid, (bool_decide_eq_false_2 (Trim question = "")) by done.
  replace (negb (bool_decide (options = [])) && negb (bool_decide (rec = "")) && negb (bool_decide (Trim rec ∈ Trim <$> options))) with false.
  2:{ destruct (decide (options = [])) as [Eo|Eo]; [by rewrite (bool_decide_eq_true_2 (options = []))|]. destruct (decide (rec = "")) as [Er|Er]; [rewrite (bool_decide_eq_true_2 (rec = "")) by done; by rewrite andb_false_r|].
      rewrite (bool_decide_eq_true_2 (Trim rec ∈ _)) by (by apply Hr). by rewrite andb_false_r. }
  cbn [negb orb]. destruct status; cbn [decision_status_text is_text].
  - destruct Hs as [-> ->]. reflexivity.
  - destruct Hs as [Hans Hd]. destruct (time_again decidedAt Hd) as [Hd' Hne]. rewrite !nonempty_text_some by (done || by apply trimmed_not_empty).
    rewrite bool_decide_eq_false_2, bool_decide_eq_true_2 by done. cbn [text_of mbind option_bind from_option Datatypes.id]. rewrite Hd'. cbn [mbind option_bind]. by rewrite bool_decide_eq_false_2.
Qed.

(** ** Work phases *)
Definition task_ok (t : GoalplanTask) : Prop := Forall worded (TaskDependsOn t) ∧ Trim (Outcome t) = Outcome t.
Definition phase_ok (p : GoalplanWorkPhase) : Prop := Forall worded (DependsOn p) ∧ Forall worded (AwaitsDecision p) ∧ Forall task_ok (Tasks p).

Lemma task_read v t : revive_task v = Some (Some t) → task_ok t.
Proof.
  unfold revive_task. destruct (m ← object_of v; _) as [[[m id] title]|]; [|done]. intros (deps & Hd%depends_read & H)%bind_Some. injection H as <-. split; [done|]. apply Trim_idem.
Qed.

Lemma task_again t : task_ok t → revive_task (write_task t) = Some (Some t).
Proof.
  destruct t as [id title status deps outcome]. intros [Hd Ho]. cbn [TaskDependsOn Outcome] in *. unfold revive_task, write_task. cbn [object_of mbind option_bind TaskID TaskTitle TStatus TaskDependsOn Outcome].
  rewrite (text_said _ "id" id), (text_said _ "title" title) by reflexivity. cbn [mbind option_bind]. erewrite depends_again by (done || reflexivity). cbn [mbind option_bind]. unfold text. erewrite got by reflexivity.
  rewrite get_members by reflexivity. cbn [pick String.eqb Ascii.eqb Bool.eqb]. rewrite text_of_nonempty, Ho. by destruct status.
Qed.

Lemma tasks_again tasks : Forall task_ok tasks → mapM revive_task (write_task <$> tasks) = Some (Some <$> tasks).
Proof. intros H. apply mapM_Some. induction H as [|t tasks Ht _ IH]; [constructor|]. csimpl. constructor; [by apply task_again|done]. Qed.

Lemma tasks_read raws tasks : mapM revive_task raws = Some tasks → Forall task_ok (omap (λ t, t) tasks).
Proof. intros H%mapM_Some. induction H as [|v [t|] raws tasks Hv _ IH]; [constructor| |done]. csimpl. constructor; [by apply (task_read v)|done]. Qed.

Lemma omap_some {A} (l : list A) : omap (λ t : option A, t) (Some <$> l) = l.
Proof. induction l as [|a l IH]; [done|]. csimpl. by rewrite IH. Qed.

Lemma phase_read v p : revive_phase v = Some p → phase_ok p.
Proof.
  unfold revive_phase. intros (m & _ & (id & _ & (title & _ & (deps & Hd%depends_read & (awaits & Hw%depends_read & (tasks & Ht%tasks_read & H)%bind_Some)%bind_Some)%bind_Some)%bind_Some)%bind_Some)%bind_Some.
  by injection H as <-.
Qed.

Lemma phase_again p : phase_ok p → again revive_phase write_phase p.
Proof.
  destruct p as [id title status tasks criteria deps awaits blocked superseded]. intros (Hd & Hw & Ht%tasks_again). cbn [Tasks DependsOn AwaitsDecision] in *.
  unfold again, revive_phase, write_phase. cbn [object_of mbind option_bind PhaseID PhaseTitle PStatus Tasks CriteriaIDs DependsOn AwaitsDecision BlockedReason SupersededBy].
  rewrite (text_said _ "id" id), (text_said _ "title" title) by reflexivity. cbn [mbind option_bind]. do 2 (erewrite depends_again by (done || reflexivity); cbn [mbind option_bind]).
  do 3 (erewrite got by reflexivity; cbn [list_of from_option Datatypes.id texts]). rewrite Ht. cbn [mbind option_bind]. unfold text. rewrite !get_members by reflexivity. cbn [pick String.eqb Ascii.eqb Bool.eqb].
  rewrite omap_some, !text_of_option. rewrite (omap_again string_of VString) by (by apply Forall_forall). by destruct status.
Qed.

(** ** The rest of a plan *)
Lemma criterion_again c : again revive_criterion write_criterion c.
Proof.
  destruct c as [id scenario expected captured status surface presented]. unfold again, revive_criterion, write_criterion.
  cbn [object_of mbind option_bind CriterionID Scenario ExpectedEvidence CapturedEvidence CStatus Surface Presented].
  unfold get, text. rewrite !get_members by reflexivity. cbn [pick String.eqb Ascii.eqb Bool.eqb text_of mbind option_bind from_option Datatypes.id].
  destruct captured, status, surface as [[]|], presented as [[]|]; reflexivity.
Qed.

Definition host_ok (h : GoalplanHostLink) : Prop := HostSource h = "freeze" ∨ HostSource h = "none".
Lemma host_read raw : host_ok (revive_host raw).
Proof. unfold host_ok, revive_host. cbv zeta. cbn [HostSource]. destruct (is_text _ _); auto. Qed.
Lemma host_again h : host_ok h → revive_host (write_host h) = h.
Proof.
  destruct h as [armed at_ source]. unfold host_ok, revive_host, write_host. cbn [object_of from_option Datatypes.id Armed ArmedAt HostSource]. intros Hs. unfold get, text. rewrite !get_members by reflexivity.
  cbn [pick String.eqb Ascii.eqb Bool.eqb from_option Datatypes.id]. rewrite text_of_nullable. destruct armed, Hs as [-> | ->]; reflexivity.
Qed.

Definition gate_ok (g : option FinalGateState) : Prop := reviveFinalGate (default VNull (write_gate <$> g)) = g.
Definition rounds_ok (l : list ReviewRoundState) : Prop := reviveReviewRounds (default VNull (nonempty_list write_round l)) = l.

Definition version_ok (v : option float64) : Prop := match v with None => True | Some f => ∃ n, f = Fin (QArith_base.inject_Z n) ∧ (1 ≤ n ≤ 3)%Z end.

Lemma version_number q : whole q = true → (1 ≤ floor q)%Z → fle (Fin q) SupportedMaxSchemaVersion = true → (1 ≤ floor q ≤ 3)%Z.
Proof.
  destruct q as [n d]. unfold whole, floor, fle, SupportedMaxSchemaVersion, Qle_bool. cbn [QArith_base.Qnum QArith_base.Qden QArith_base.inject_Z]. intros Hw%Z.eqb_eq Hl Hu%Z.leb_le.
  split; [done|]. apply Z.div_le_upper_bound; lia.
Qed.

Lemma version_read m : too_new (declaredSchemaVersion m) = false → validSchemaVersion m = true → version_ok (revived_version m).
Proof.
  unfold declaredSchemaVersion, validSchemaVersion, revived_version. destruct (jsNumber (get m "schemaVersion")) as [[| |q]|]; try done. cbn [from_option Datatypes.id too_new].
  intros Hn%negb_false_iff [Hw Hl%Z.leb_le]%andb_true_iff. exists (floor q). split; [done|]. by apply version_number.
Qed.

Lemma version_written (NumberString : float64 → string) n : write_number NumberString (Fin (QArith_base.inject_Z n)) = VInt n.
Proof. unfold write_number, whole, floor. cbn [QArith_base.Qnum QArith_base.Qden QArith_base.inject_Z]. by rewrite Z.mod_1_r, Z.div_1_r. Qed.

Lemma version_again (NumberString : float64 → string) version fs : version_ok version → distinct fs.*1 = true → pick fs "schemaVersion" = write_number NumberString <$> version →
  too_new (declaredSchemaVersion (members fs)) = false ∧ validSchemaVersion (members fs) = true ∧ revived_version (members fs) = version.
Proof.
  unfold declaredSchemaVersion, validSchemaVersion, revived_version, get. intros Hv Hd Hp. rewrite get_members, Hp by done. destruct version as [f|]; [|done]. destruct Hv as (n & -> & Hn).
  cbn [fmap option_fmap option_map from_option Datatypes.id]. rewrite version_written. assert (n = 1 ∨ n = 2 ∨ n = 3)%Z as [->|[->| ->]] by lia; by vm_compute.
Qed.

Lemma picked fs k : distinct fs.*1 = true → get (members fs) k = default VNull (pick fs k).
Proof. intros Hd. unfold get. by rewrite get_members. Qed.
Lemma picked_text fs k : distinct fs.*1 = true → text (members fs) k = text_of (pick fs k).
Proof. intros Hd. unfold text. by rewrite get_members. Qed.

(** ** The plan *)
Lemma rounds_fit l : rounds_ok l ↔ Forall round_fit l.
Proof.
  unfold rounds_ok, reviveReviewRounds. split.
  - intros H. rewrite <- H. apply (Forall_impl (again revive_round write_round)); [|intros r; apply round_fit_again]. destruct (list_of _); [apply omap_read, round_again|constructor].
  - intros H. assert (Forall (again revive_round write_round) l) as Hl by (eapply Forall_impl; [exact H|]; intros r; apply round_fit_again). destruct l as [|r l]; [done|]. by apply (omap_again revive_round write_round (r :: l)).
Qed.

Record plan_ok (plan : Goalplan) : Prop := mk_plan_ok {
  pok_slug : ValidateGoalplanSlug (Slug plan) = true;
  pok_phases : Forall phase_ok (WorkPhases plan);
  pok_decisions : Forall decision_ok (Decisions plan);
  pok_log : Forall entry_ok (SteeringLog plan);
  pok_host : host_ok (Host plan);
  pok_rounds : rounds_ok (ReviewRounds plan);
  pok_gate : gate_ok (FinalGate plan);
  pok_version : version_ok (SchemaVersion plan) }.

Definition expected_of (expected : option string) (plan : Goalplan) : Prop := match expected with Some s => Slug plan = s | None => True end.

Lemma plan_read v expected plan : reviveGoalplan v expected = Some plan → plan_ok plan ∧ expected_of expected plan.
Proof.
  unfold reviveGoalplan. destruct (object_of v) as [m|]; [|done]. cbn [mbind option_bind]. destruct (text m "objective") as [objective|]; [|done]. cbn [mbind option_bind].
  destruct (text m "slug") as [slug|]; [|done]. cbn [mbind option_bind]. destruct (negb (ValidateGoalplanSlug slug) || _ || _ || _) eqn:Ec; [done|].
  intros (phases & _ & (rawCriteria & _ & (workPhases & Hp & (criteria & Hc & (decisions & Hd & (log & Hl & H)%bind_Some)%bind_Some)%bind_Some)%bind_Some)%bind_Some)%bind_Some. injection H as <-.
  rewrite !orb_false_iff in Ec. destruct Ec as [[[Hslug%negb_false_iff Hexp] Hnew] Hver%negb_false_iff]. split.
  - constructor; cbn [Slug WorkPhases Decisions SteeringLog Host ReviewRounds FinalGate SchemaVersion]; [done| | | |apply host_read|apply rounds_again|apply gate_again|by apply version_read].
    + exact (mapM_read _ _ _ _ phase_read Hp).
    + exact (list_field_read _ _ _ _ _ decision_read Hd).
    + exact (list_field_read _ _ _ _ _ entry_read Hl).
  - destruct expected as [s|]; [|done]. simpl. by apply negb_false_iff, bool_decide_eq_true in Hexp.
Qed.

(** A document that has the members a plan is read from. *)
Lemma plan_again (NumberString : float64 → string) (write_one : GoalplanCriterion → value) fs expected plan : plan_ok plan → expected_of expected plan → Forall (again revive_criterion write_one) (Criteria plan) →
  distinct fs.*1 = true →
  (λ k, pick fs k) <$> ["objective"; "slug"; "createdAt"; "updatedAt"; "activeWorkPhaseId"; "workPhases"; "criteria"; "host"; "reviewRounds"; "decisions"; "activePlanAuditRoundId"; "activeFinalGateRoundId"; "schemaVersion"; "finalGate"; "steeringLog"] =
  [Some (VString (Objective plan)); Some (VString (Slug plan)); Some (VString (CreatedAt plan)); Some (VString (PlanUpdatedAt plan)); Some (nullable_text (ActiveWorkPhaseID plan));
   Some (VList (write_phase <$> WorkPhases plan)); Some (VList (write_one <$> Criteria plan)); Some (write_host (Host plan)); nonempty_list write_round (ReviewRounds plan); nonempty_list write_decision (Decisions plan);
   VString <$> ActivePlanAuditRoundID plan; VString <$> ActiveFinalGateRoundID plan; write_number NumberString <$> SchemaVersion plan; write_gate <$> FinalGate plan; nonempty_list write_entry (SteeringLog plan)] →
  reviveGoalplan (VMap (members fs)) expected = Some plan.
Proof.
  intros [Hslug Hp Hd Hl Hh Hr Hg Hv] Hexp Hc Hdist Hm. cbn [fmap list_fmap] in Hm. injection Hm as Eobj Eslug Ecr Eup Eact Eph Ecrit Ehost Erounds Edec Eaudit Efinal Ever Egate Elog.
  destruct (version_again NumberString _ fs Hv Hdist Ever) as (Hnew & Hver & Hv').
  unfold reviveGoalplan. cbn [object_of mbind option_bind]. rewrite (text_said fs "objective" (Objective plan)), (text_said fs "slug" (Slug plan)) by done. cbn [mbind option_bind]. rewrite Hnew, Hver, Hv', Hslug.
  replace (match expected with Some s => negb (bool_decide (Slug plan = s)) | None => false end) with false by (destruct expected as [s|]; [simpl in Hexp; by rewrite bool_decide_eq_true_2|done]). cbn [orb negb].
  rewrite (got fs "workPhases" _ Hdist Eph), (got fs "criteria" _ Hdist Ecrit), (got fs "host" _ Hdist Ehost). cbn [list_of mbind option_bind].
  rewrite (mapM_again revive_phase write_phase) by (exact (Forall_impl _ _ _ Hp phase_again)). cbn [mbind option_bind]. rewrite (mapM_again revive_criterion write_one) by done. cbn [mbind option_bind].
  unfold reviveDecisions, reviveSteeringLog. rewrite (list_field_again revive_decision write_decision fs "decisions" (Decisions plan)) by (done || exact (Forall_impl _ _ _ Hd decision_again)).
  cbn [mbind option_bind]. rewrite (list_field_again revive_entry write_entry fs "steeringLog" (SteeringLog plan)) by (done || exact (Forall_impl _ _ _ Hl entry_again)).
  cbn [mbind option_bind]. rewrite (host_again (Host plan)) by done. unfold timestamp. rewrite !(picked_text fs), !(picked fs) by done. rewrite Ecr, Eup, Eact, Eaudit, Efinal, Erounds, Egate, Hr, Hg.
  rewrite !text_of_option, text_of_nullable. by destruct plan.
Qed.

Lemma written_again (NumberString : float64 → string) expected plan : plan_ok plan → expected_of expected plan → reviveGoalplan (plan_record NumberString plan) expected = Some plan.
Proof. intros Hok Hexp. apply (plan_again NumberString write_criterion); [done..| |reflexivity|reflexivity]. apply Forall_forall. intros c _. apply criterion_again. Qed.

(** * The document a plan is kept in *)

(** ** Values that are read alike

    What is decoded of a record that was written has its objects as maps and its integers as digits, and may have empty lists where the record has nothing. *)
#[local] Set Warnings "-register-all".

Inductive entry_alike (R : value → value → Prop) (k : string) : option value → option value → Prop :=
| entry_none : entry_alike R k None None
| entry_some v w : R v w → entry_alike R k (Some v) (Some w)
| entry_empty : k ∈ omitzero → entry_alike R k None (Some (VList [])).

Inductive alike : value → value → Prop :=
| alike_null : alike VNull VNull
| alike_bool b : alike (VBool b) (VBool b)
| alike_string s : alike (VString s) (VString s)
| alike_int z : alike (VInt z) (VNumber (itoa z))
| alike_list l k : Forall2 alike l k → alike (VList l) (VList k)
| alike_map fs gs : (∀ k, entry_alike alike k (map_get fs k) (map_get gs k)) → alike (VMap fs) (VMap gs).

Definition alike_fields (m n : fields) : Prop := ∀ k, entry_alike alike k (map_get m k) (map_get n k).

(** A reader that does not tell them apart. *)
Definition respects {A} (f : value → A) : Prop := ∀ v w, alike v w → f v = f w.

Lemma object_alike v w : alike v w → (object_of v = None ∧ object_of w = None) ∨ ∃ m n, object_of v = Some m ∧ object_of w = Some n ∧ alike_fields m n.
Proof. destruct 1; try (by left). right. by exists fs, gs. Qed.

Lemma list_alike v w : alike v w → (list_of v = None ∧ list_of w = None) ∨ ∃ l k, list_of v = Some l ∧ list_of w = Some k ∧ Forall2 alike l k.
Proof. destruct 1; try (by left). right. by exists l, k. Qed.

Lemma respects_mapM {A} (f : value → option A) l k : respects f → Forall2 alike l k → mapM f l = mapM f k.
Proof. intros Hf. induction 1 as [|v w l k Hv _ IH]; [done|]. cbn [mapM]. by rewrite (Hf v w Hv), IH. Qed.

Lemma respects_omap {A} (f : value → option A) l k : respects f → Forall2 alike l k → omap f l = omap f k.
Proof. intros Hf. induction 1 as [|v w l k Hv _ IH]; [done|]. csimpl. by rewrite (Hf v w Hv), IH. Qed.

Section members_alike.
Context (m n : fields) (Hmn : alike_fields m n).

Lemma text_alike k : text m k = text n k.
Proof. unfold text. destruct (Hmn k) as [|v w Hv|]; [done| |done]. by destruct Hv. Qed.

Lemma present_alike k : k ∉ omitzero → (map_get m k = None ∧ map_get n k = None) ∨ ∃ v w, map_get m k = Some v ∧ map_get n k = Some w ∧ alike v w.
Proof. intros Hk. destruct (Hmn k) as [|v w Hv|]; [by left|right; by exists v, w|done]. Qed.

Lemma got_alike {A} (f : value → A) k : respects f → k ∉ omitzero → f (get m k) = f (get n k).
Proof. intros Hf Hk. unfold get. destruct (present_alike k Hk) as [[-> ->]|(v & w & -> & -> & Hv)]; [done|]. by apply Hf. Qed.

Lemma maybe_alike {A} (f : value → A) (none : A) k : respects f → k ∉ omitzero → match map_get m k with None => none | Some v => f v end = match map_get n k with None => none | Some v => f v end.
Proof. intros Hf Hk. destruct (present_alike k Hk) as [[-> ->]|(v & w & -> & -> & Hv)]; [done|]. by apply Hf. Qed.

Lemma list_field_alike {A} (f : value → option A) k : respects f → list_field f m k = list_field f n k.
Proof.
  intros Hf. unfold list_field. destruct (Hmn k) as [|v w Hv|]; [done| |done]. destruct (list_alike v w Hv) as [[-> ->]|(l & l' & -> & -> & Hl)]; [done|]. by apply respects_mapM.
Qed.

Lemma there_alike k : k ∉ omitzero → bool_decide (is_Some (map_get m k)) = bool_decide (is_Some (map_get n k)).
Proof. intros Hk. destruct (present_alike k Hk) as [[-> ->]|(v & w & -> & -> & Hv)]; [done|]. by rewrite !bool_decide_eq_true_2. Qed.
End members_alike.

(** A value whose empty list reads as its absence. *)
Lemma listed_alike {A} (f : value → list A) m n k : alike_fields m n → respects f → f VNull = [] → f (VList []) = [] → f (get m k) = f (get n k).
Proof. intros H Hf H0 H1. unfold get. destruct (H k) as [|v w Hv|]; [done|by apply Hf|]. cbn [from_option Datatypes.id]. by rewrite H0, H1. Qed.

(** Follow a reader into the two objects. *)
Ltac into_objects H := intros ?v ?w H; match type of H with alike ?v ?w => destruct (object_alike v w H) as [[-> ->]|(?m & ?n & -> & -> & ?Hmn)]; [done|] end; cbn [mbind option_bind].


(** Rewrite what is read of the first object with what is read of the second. *)
Ltac same_texts := match goal with H : alike_fields ?m ?n |- _ => unfold said_text, timestamp; rewrite ?(text_alike m n H) end.
(** A name whose list is not left out when it is empty. *)
Ltac kept_name := refine (bool_decide_unpack _ _); vm_compute; exact I.
(** Rewrite a value read of the first object. *)
Ltac same_got Hf k := match goal with H : alike_fields ?m ?n |- _ => rewrite (got_alike m n H _ k Hf) by kept_name end.

(** *** Scalars *)
Lemma is_text_respects s : respects (λ v, is_text v s).
Proof. by intros v w []. Qed.
Lemma not_blank_respects : respects not_blank.
Proof. by intros v w []. Qed.
Lemma string_of_respects : respects string_of.
Proof. by intros v w []. Qed.
Lemma finding_respects : respects finding_ref.
Proof. by intros v w []. Qed.
Lemma time_respects : respects valid_time.
Proof. by intros v w []. Qed.
Lemma truth_respects : respects (λ v, match v with VBool true => true | _ => false end).
Proof. by intros v w []. Qed.
Lemma number_respects : respects jsNumber.
Proof. intros v w []; try done. simpl. by rewrite parse_float_itoa. Qed.
Lemma verdict_respects : respects verdictOf.
Proof. by intros v w []. Qed.
Lemma phase_status_respects : respects phaseStatusOf.
Proof. by intros v w []. Qed.
Lemma blockers_respects : respects reviveBlockers.
Proof. intros v w H. unfold reviveBlockers. by rewrite (number_respects v w H). Qed.
Lemma findings_respects : respects reviveFindingRefs.
Proof.
  intros v w H. unfold reviveFindingRefs. destruct (list_alike v w H) as [[-> ->]|(l & k & -> & -> & Hl)]; [done|]. rewrite (Forall2_length _ _ _ Hl). by rewrite (respects_mapM _ _ _ finding_respects Hl).
Qed.
Lemma listed_respects {A} (f : list value → A) (none : A) : (∀ l k, Forall2 alike l k → f l = f k) → respects (λ v, match list_of v with Some l => f l | None => none end).
Proof. intros Hf v w H. destruct (list_alike v w H) as [[-> ->]|(l & k & -> & -> & Hl)]; [done|]. by apply Hf. Qed.

(** *** Records *)
Lemma plan_file_respects : respects plan_file.
Proof. unfold respects, plan_file. into_objects H. by same_texts. Qed.

Lemma plan_files_respects : respects revivePlanFiles.
Proof. apply (listed_respects (λ l, default [] (mapM plan_file l))). intros l k Hl. by rewrite (respects_mapM _ _ _ plan_file_respects Hl). Qed.

Lemma source_respects : respects reviveSourceIdentity.
Proof.
  unfold respects, reviveSourceIdentity. into_objects H. same_texts. destruct (text n "kind"); [|done]. cbn [mbind option_bind]. destruct (negb _); [done|]. same_got truth_respects "dirty".
  destruct (present_alike m n Hmn "sourceRoot") as [[-> ->]|(x & y & -> & -> & Hx)]; [kept_name|done|]. by destruct Hx.
Qed.

Lemma lane_respects : respects reviveLane.
Proof.
  unfold respects, reviveLane. into_objects H. same_texts. same_got verdict_respects "verdict". same_got source_respects "sourceIdentity".
  same_got blockers_respects "blockers". by same_got findings_respects "findings".
Qed.

Lemma round_respects : respects revive_round.
Proof.
  unfold respects, revive_round. into_objects H. same_texts. same_got lane_respects "lane". by rewrite (listed_alike revivePlanFiles m n "planFiles" Hmn plan_files_respects eq_refl eq_refl).
Qed.

Lemma rounds_respects : respects reviveReviewRounds.
Proof. apply (listed_respects (omap revive_round)). intros l k Hl. apply (respects_omap _ _ _ round_respects Hl). Qed.

Lemma gate_respects : respects reviveFinalGate.
Proof.
  unfold respects, reviveFinalGate. into_objects H. same_texts. same_got verdict_respects "verdict". same_got source_respects "sourceIdentity".
  destruct (text n "status" ≫= gateStatusOf) as [status|]; [|done]. cbn [mbind option_bind].
  apply (got_alike m n Hmn (λ v, match v with VBool qaRequired => Some (mkGate status qaRequired (default epoch (text n "updatedAt")) (text n "reviewRoundId") (text n "testReceiptPath") (text n "qaReceiptPath")
    (verdictOf (get n "verdict")) (reviveSourceIdentity (get n "sourceIdentity"))) | _ => None end)); [|kept_name]. by intros x y [].
Qed.

Lemma optional_alike m n k : alike_fields m n → k ∉ omitzero → optional_text m k = optional_text n k.
Proof. intros H Hk. unfold optional_text. destruct (present_alike m n H k Hk) as [[-> ->]|(v & w & -> & -> & Hv)]; [done|]. by destruct Hv. Qed.

Lemma op_respects : respects revive_op.
Proof.
  unfold respects, revive_op. into_objects H. same_texts. rewrite !(optional_alike m n _ Hmn) by kept_name. by rewrite (list_field_alike m n Hmn string_of "dependsOn" string_of_respects).
Qed.

Lemma event_respects : respects revive_event.
Proof. unfold respects, revive_event. into_objects H. by same_texts. Qed.

Lemma some_list_respects {A} (f : value → option A) : respects f → respects (some_list f).
Proof. intros Hf v w []; try done. destruct H as [|x y l k Hx Hl]; [done|]. apply (respects_mapM f (x :: l) (y :: k) Hf). by constructor. Qed.

Lemma entry_respects : respects revive_entry.
Proof.
  unfold respects, revive_entry. into_objects H. same_texts. same_got (some_list_respects _ op_respects) "ops". by same_got (some_list_respects _ event_respects) "events".
Qed.

Lemma decision_respects : respects revive_decision.
Proof.
  unfold respects, revive_decision. into_objects H. same_texts. same_got time_respects "askedAt". same_got time_respects "decidedAt". rewrite !(there_alike m n Hmn) by kept_name.
  rewrite (got_alike m n Hmn (λ v, is_text v "open") "status"), (got_alike m n Hmn (λ v, is_text v "decided") "status") by (apply is_text_respects || kept_name).
  rewrite (maybe_alike m n Hmn not_blank (Some "") "recommendation" not_blank_respects) by kept_name.
  assert (reviveDecisionOptions m "options" = reviveDecisionOptions n "options") as ->; [|done].
  unfold reviveDecisionOptions. destruct (present_alike m n Hmn "options") as [[-> ->]|(x & y & -> & -> & Hx)]; [kept_name|done|]. destruct (list_alike x y Hx) as [[-> ->]|(l & k & -> & -> & Hl)]; [done|].
  cbn [mbind option_bind]. by rewrite (respects_mapM _ _ _ not_blank_respects Hl).
Qed.

Lemma task_respects : respects revive_task.
Proof.
  intros v w H. unfold revive_task. destruct (object_alike v w H) as [[-> ->]|(m & n & -> & -> & Hmn)]; [done|]. cbn [mbind option_bind]. same_texts. destruct (text n "id"); [|done]. cbn [mbind option_bind].
  destruct (text n "title"); [|done]. cbn [mbind option_bind]. unfold reviveDependsOn. same_texts. rewrite (list_field_alike m n Hmn not_blank "dependsOn" not_blank_respects).
  by rewrite (got_alike m n Hmn (λ v, is_text v "done") "status" (is_text_respects "done")) by kept_name.
Qed.

Lemma phase_respects : respects revive_phase.
Proof.
  unfold respects, revive_phase. into_objects H. same_texts. unfold reviveDependsOn. rewrite !(list_field_alike m n Hmn not_blank _ not_blank_respects). same_got phase_status_respects "status".
  rewrite (got_alike m n Hmn (λ v, mapM revive_task (default [] (list_of v))) "tasks"), (got_alike m n Hmn (λ v, omap string_of (default [] (list_of v))) "criteriaIds"); [done| |kept_name| |kept_name].
  - intros x y Hx. destruct (list_alike x y Hx) as [[-> ->]|(l & k & -> & -> & Hl)]; [done|]. exact (respects_omap _ _ _ string_of_respects Hl).
  - intros x y Hx. destruct (list_alike x y Hx) as [[-> ->]|(l & k & -> & -> & Hl)]; [done|]. exact (respects_mapM _ _ _ task_respects Hl).
Qed.

Lemma criterion_respects : respects revive_criterion.
Proof.
  unfold respects, revive_criterion. into_objects H. same_texts.
  by rewrite (got_alike m n Hmn (λ v, is_text v "met") "status"), (got_alike m n Hmn (λ v, is_text v "native") "presented") by (apply is_text_respects || kept_name).
Qed.

Lemma host_respects : respects revive_host.
Proof.
  intros v w H. unfold revive_host. destruct (object_alike v w H) as [[-> ->]|(m & n & -> & -> & Hmn)]; [done|]. cbv zeta. cbn [from_option Datatypes.id]. same_texts. same_got truth_respects "armed".
  by rewrite (got_alike m n Hmn (λ v, is_text v "freeze") "source") by (apply is_text_respects || kept_name).
Qed.

(** The reader of plans does not tell a record from what is decoded of its document. *)
Lemma plan_respects expected : respects (λ v, reviveGoalplan v expected).
Proof.
  intros v w H. unfold reviveGoalplan. destruct (object_alike v w H) as [[-> ->]|(m & n & -> & -> & Hmn)]; [done|]. cbn [mbind option_bind]. same_texts.
  unfold declaredSchemaVersion, validSchemaVersion, revived_version, reviveDecisions, reviveSteeringLog. same_got number_respects "schemaVersion".
  rewrite (list_field_alike m n Hmn _ "decisions" decision_respects), (list_field_alike m n Hmn _ "steeringLog" entry_respects). same_got host_respects "host". same_got gate_respects "finalGate".
  rewrite (listed_alike reviveReviewRounds m n "reviewRounds" Hmn rounds_respects eq_refl eq_refl).
  destruct (text n "objective"); [|done]. cbn [mbind option_bind]. destruct (text n "slug"); [|done]. cbn [mbind option_bind]. case_match; [done|].
  assert (∀ k, k ∉ omitzero → alike (get m k) (get n k)) as Hget by (intros k Hk; unfold get; destruct (present_alike m n Hmn k Hk) as [[-> ->]|(x & y & -> & -> & Hx)]; [constructor|done]).
  destruct (list_alike _ _ (Hget "workPhases" ltac:(kept_name))) as [[-> ->]|(l & k & -> & -> & Hl)]; [done|]. cbn [mbind option_bind].
  destruct (list_alike _ _ (Hget "criteria" ltac:(kept_name))) as [[-> ->]|(l' & k' & -> & -> & Hl')]; [done|]. cbn [mbind option_bind].
  by rewrite (respects_mapM _ _ _ phase_respects Hl), (respects_mapM _ _ _ criterion_respects Hl').
Qed.

(** ** A record and what is decoded of its document *)
Lemma assoc_last_absent l k : k ∉ l.*1 → assoc_last l k = None.
Proof.
  induction l as [|[k' v] l IH] using rev_ind; [done|]. rewrite fmap_app, not_elem_of_app. intros [Hl Hk]. rewrite assoc_last_app. unfold assoc_last at 1. simpl in *. rewrite bool_decide_eq_false_2; [by apply IH|].
  intros ->. apply Hk. by left.
Qed.

Lemma assoc_last_nodup l k : NoDup l.*1 → assoc_last l k = map_get l k.
Proof.
  induction l as [|[k' v] l IH]; [done|]. csimpl. intros [Hk Hn]%NoDup_cons. change ((k', v) :: l) with ([(k', v)] ++ l)%list. rewrite assoc_last_app, IH by done. simpl. unfold assoc_last. simpl.
  destruct (decide (k' = k)) as [->|Hne]; [|by rewrite !bool_decide_eq_false_2 by done; destruct (map_get l k)]. rewrite !bool_decide_eq_true_2 by done. by rewrite (proj2 (map_get_None l k) Hk).
Qed.

Lemma with_empty_keys R fs gs k : with_empty R fs gs → k ∈ fs.*1 → k ∈ gs.*1.
Proof. induction 1 as [|k' v w fs gs _ _ IH|k' fs gs _ _ IH]; csimpl; [done| |]; rewrite ?elem_of_cons; [intros [->|Hk]; [by left|right; by apply IH]|intros Hk; right; by apply IH]. Qed.

Lemma with_empty_refl (R : value → value → Prop) fs : (∀ v, R v v) → with_empty R fs fs.
Proof. intros Hr. induction fs as [|[k v] fs IH]; by constructor. Qed.

Lemma map_alike fs gs : Forall (λ kv, ∀ w, filled (snd kv) w → text_ok w → alike (snd kv) (as_read w)) fs → Forall (λ kv, text_ok (snd kv)) gs → with_empty filled fs gs → NoDup gs.*1 →
  alike (VMap fs) (as_read (VMap gs)).
Proof.
  intros IH Hok Hf Hn. constructor. intros k. change (entry_alike alike k (map_get fs k) (map_get (map_of ((λ kv, (kv.1, as_read kv.2)) <$> gs)) k)). rewrite map_get_of, assoc_last_nodup by (by rewrite <- list_fmap_compose).
  assert (map_get ((λ kv, (kv.1, as_read kv.2)) <$> gs) k = as_read <$> map_get gs k) as ->. { clear. induction gs as [|[k' v] gs IH]; [done|]. csimpl. by destruct (bool_decide (k' = k)). }
  induction Hf as [|k' v w fs gs Hv Hf IHf|k' fs gs Hk' Hf IHf]; [constructor| |].
  - apply Forall_cons in IH as [IHv IH]. apply Forall_cons in Hok as [Hw Hok]. csimpl in Hn. apply NoDup_cons in Hn as [_ Hn]. cbn [map_get]. destruct (bool_decide (k' = k)); [|by apply IHf]. constructor. by apply IHv.
  - apply Forall_cons in Hok as [_ Hok]. csimpl in Hn. apply NoDup_cons in Hn as [Hnot Hn]. cbn [map_get]. case_bool_decide as E; [subst k'|by apply IHf].
    rewrite (proj2 (map_get_None fs k)); [by constructor|]. intros Hin. by apply Hnot, (with_empty_keys _ _ _ _ Hf).
Qed.

Lemma filled_alike v w : filled v w → text_ok w → alike v (as_read w).
Proof.
  revert w. induction v as [| b | z | t | t | s | l IH | fs IH] using value_ind'; intros w Hf Hok; try (inversion Hf; subst; inversion Hok; by constructor).
  - assert (∃ k, w = VList k ∧ Forall2 filled l k) as (k & -> & Hl) by (inversion Hf; subst; eexists; (split; [done|]); [apply Forall_Forall2_diag, Forall_forall; by constructor|done]). clear Hf.
    inversion Hok as [| | | |? Hk|]; subst. cbn [as_read]. constructor. clear Hok. induction Hl as [|x y l k Hx _ IHl]; [constructor|]. apply Forall_cons in IH as [IHx IH]. apply Forall_cons in Hk as [Hy Hk]. constructor; [by apply IHx|by apply IHl].
  - inversion Hf as [|?|? gs Hg Hn]; subst; inversion Hok as [| | | | |? Hall Hnd]; subst; (apply map_alike; [done|eapply Forall_impl; [exact Hall|by intros ? []]| |done]); [apply with_empty_refl; by constructor|done].
Qed.

(** Filling in empty lists keeps a record as it is written. *)
Lemma fits_more n v : fits n v = true → fits (S n) v = true.
Proof.
  revert v. induction n as [|n IH]; intros [| | | | | |l|fs]; try done; cbn [fits].
  - rewrite !forallb_forall. intros H x Hx. by apply IH, H.
  - intros [-> H]%andb_true_iff. cbn [andb]. rewrite forallb_forall in H |- *. intros x Hx. by apply IH, H.
Qed.

Lemma fits_le n m v : (n ≤ m)%nat → fits n v = true → fits m v = true.
Proof. induction 1 as [|m _ IH]; [done|]. intros H. by apply fits_more, IH. Qed.

Lemma forallb_2 {A B} (R : A → B → Prop) (f : A → bool) (g : B → bool) l k : Forall2 R l k → (∀ x y, R x y → f x = true → g y = true) → forallb f l = true → forallb g k = true.
Proof. intros Hl Hr. induction Hl as [|x y l k Hx _ IH]; [done|]. cbn [forallb]. intros [Hf Hfs]%andb_true_iff. by rewrite (Hr x y Hx Hf), IH. Qed.

Lemma filled_fits n : ∀ v w, filled v w → fits n v = true → fits (S n) w = true.
Proof.
  induction n as [|n IH]; intros v w [|l k Hl|fs gs Hg Hn]; try (by apply fits_more); try done; cbn [fits].
  - by apply (forallb_2 filled).
  - intros [_ H]%andb_true_iff. rewrite bool_decide_eq_true_2 by done. clear Hn. cbn [andb]. induction Hg as [|k x y fs gs Hv _ IHg|k fs gs _ _ IHg]; [done| |by apply IHg].
    cbn [forallb snd] in *. apply andb_true_iff in H as [H0 H]. apply andb_true_iff. split; [exact (IH _ _ Hv H0)|by apply IHg].
Qed.

Lemma filled_texts v : ∀ w, filled v w → texts_valid v = true → texts_valid w = true.
Proof.
  induction v as [| b | z | t | t | s | l IH | fs IH] using value_ind'; intros w Hf; inversion Hf as [|? k Hl|? gs Hg Hn]; subst; try done; cbn [texts_valid].
  - clear Hf. induction Hl as [|x y l k Hx _ IHl]; [done|]. apply Forall_cons in IH as [IHx IH]. cbn [forallb]. intros [H0 H]%andb_true_iff. by rewrite (IHx _ Hx H0), IHl.
  - clear Hf Hn. induction Hg as [|k v w fs gs Hv _ IHg|k fs gs Hk _ IHg]; [done| |].
    + apply Forall_cons in IH as [IHv IH]. cbn [forallb fst snd]. intros [[-> H0]%andb_true_iff H]%andb_true_iff. by rewrite (IHv _ Hv H0), IHg.
    + intros H. cbn [forallb fst snd texts_valid]. rewrite IHg by done. assert (Forall (λ k, Valid (bytes_of_string k) = true) omitzero) as Ho by (by repeat constructor).
      rewrite Forall_forall in Ho. by rewrite (Ho k Hk).
Qed.

(** ** The records of a plan *)
Lemma distinct_nodup ks : distinct ks = true → NoDup ks.
Proof.
  induction ks as [|k ks IH]; [constructor|]. cbn [distinct]. intros [Hk Hd]%andb_true_iff. constructor; [|by apply IH]. intros Hin. apply negb_true_iff, not_true_iff_false in Hk. apply Hk, existsb_exists. exists k.
  split; [by apply list_elem_of_In|apply String.eqb_refl].
Qed.

Definition fits_there (n : nat) (o : option value) : Prop := match o with Some v => fits n v = true | None => True end.

Lemma fits_members n fs : distinct fs.*1 = true → Forall (fits_there n) fs.*2 → fits (S n) (VMap (members fs)) = true.
Proof.
  intros Hd%distinct_nodup Hf. cbn [fits]. assert ((members fs).*1 `sublist_of` fs.*1) as Hsub.
  { clear. unfold members. induction fs as [|[k [v|]] fs IH]; csimpl; [done|by constructor|by constructor]. }
  rewrite bool_decide_eq_true_2 by (by eapply sublist_NoDup). cbn [andb]. apply forallb_forall. intros [k v] Hin%list_elem_of_In. unfold members in Hin. apply list_elem_of_omap in Hin as ([k' o] & Hin & E).
  rewrite Forall_forall in Hf. specialize (Hf o (list_elem_of_fmap_2 snd _ _ Hin)). destruct o as [w|]; [|done]. simpl in E. by injection E as _ <-.
Qed.

Lemma fits_list {A} n (f : A → value) l : (∀ a, a ∈ l → fits n (f a) = true) → fits (S n) (VList (f <$> l)) = true.
Proof. intros H. cbn [fits]. apply forallb_forall. intros v (a & -> & Ha)%list_elem_of_In%list_elem_of_fmap. by apply H. Qed.

Lemma fits_nonempty {A} n (f : A → value) l : (∀ a, a ∈ l → fits n (f a) = true) → fits_there (S n) (nonempty_list f l).
Proof. intros H. unfold nonempty_list. case_bool_decide; [done|]. by apply fits_list. Qed.
Lemma fits_option {A} n (f : A → value) o : (∀ a, fits n (f a) = true) → fits_there n (f <$> o).
Proof. intros H. by destruct o; simpl. Qed.
Lemma fits_nonempty_text n s : fits_there n (nonempty_text s).
Proof. unfold nonempty_text. by case_bool_decide; destruct n. Qed.
Lemma fits_nullable n s : fits n (nullable_text s) = true.
Proof. by destruct s, n. Qed.
Lemma fits_string n s : fits n (VString s) = true.
Proof. by destruct n. Qed.

Lemma fits_bool n b : fits n (VBool b) = true.
Proof. by destruct n. Qed.
Lemma fits_some n v : fits n v = true → fits_there n (Some v).
Proof. done. Qed.

Create HintDb fits.
#[local] Hint Resolve fits_nonempty_text fits_nullable fits_string fits_bool fits_some fits_option fits_nonempty fits_list : fits.
#[local] Hint Opaque fits_there : fits.

(** The members of a record one by one. *)
Ltac each_member := intros; apply fits_members; [reflexivity|]; cbn [snd fmap list_fmap]; repeat apply Forall_cons_2; [..|apply Forall_nil_2]; auto with fits.

Lemma fits_source n i : fits (S n) (write_source i) = true.
Proof. each_member. Qed.
#[local] Hint Resolve fits_source : fits.
Lemma fits_lane n l : fits (S (S n)) (write_lane l) = true.
Proof. each_member. by destruct (_ =? _)%Z, n. Qed.
Lemma fits_file n f : fits (S n) (write_file f) = true.
Proof. each_member. Qed.
#[local] Hint Resolve fits_lane fits_file : fits.
Lemma fits_round n r : fits (S (S (S n))) (write_round r) = true.
Proof. each_member. Qed.
Lemma fits_gate n g : fits (S (S n)) (write_gate g) = true.
Proof. each_member. Qed.
Lemma fits_op n o : fits (S (S n)) (write_op o) = true.
Proof. each_member. Qed.
Lemma fits_event n e : fits (S n) (write_event e) = true.
Proof. each_member. Qed.
#[local] Hint Resolve fits_op fits_event : fits.
Lemma fits_entry n e : fits (S (S (S (S n)))) (write_entry e) = true.
Proof. each_member. Qed.
Lemma fits_decision n d : fits (S (S n)) (write_decision d) = true.
Proof. each_member. Qed.
Lemma fits_task n t : fits (S (S n)) (write_task t) = true.
Proof. each_member. Qed.
Lemma fits_texts n l : fits (S n) (texts l) = true.
Proof. apply fits_list. auto with fits. Qed.
#[local] Hint Resolve fits_task fits_texts : fits.
Lemma fits_phase n p : fits (S (S (S (S n)))) (write_phase p) = true.
Proof. each_member. Qed.
Lemma fits_criterion n c : fits (S n) (write_criterion c) = true.
Proof. each_member. Qed.
Lemma fits_fresh_criterion n c : fits (S n) (write_fresh_criterion c) = true.
Proof. each_member. Qed.
Lemma fits_host n h : fits (S n) (write_host h) = true.
Proof. each_member. Qed.
Lemma fits_version (NumberString : float64 → string) n version : version_ok version → fits_there n (write_number NumberString <$> version).
Proof. destruct version as [f|]; [|done]. intros (z & -> & _). change (fits n (write_number NumberString (Fin (QArith_base.inject_Z z))) = true). rewrite version_written. by destruct n. Qed.
#[local] Hint Resolve fits_round fits_gate fits_entry fits_decision fits_phase fits_criterion fits_fresh_criterion fits_host fits_version : fits.

(** A plan is written six containers deep. *)
Lemma fits_plan (NumberString : float64 → string) plan : version_ok (SchemaVersion plan) → fits 6 (plan_record NumberString plan) = true.
Proof. each_member. Qed.
Lemma fits_fresh_plan (NumberString : float64 → string) plan : version_ok (SchemaVersion plan) → fits 6 (write_fresh_plan NumberString plan) = true.
Proof. each_member. Qed.

(** ** The document is read as the record it was written from *)
Lemma document_read n record written slug : filled record written → fits n record = true → texts_valid record = true → (n < MaxDepth)%nat →
  read_plan (Stringify written [32; 32]%Z) slug = reviveGoalplan record (Some slug).
Proof.
  intros Hfill Hf Ht Hn. destruct (fits_text_ok (S n) written) as [Hok Hh]; [by eapply filled_fits|by eapply filled_texts|].
  destruct (Stringify_read written [32; 32]%Z Hok ltac:(lia) ltac:(by repeat constructor)) as (Hd & Hq & Hj). unfold read_plan. rewrite Hd, Hj, Hq. cbn [ws].
  rewrite bool_decide_eq_false_2 by (by intros []). symmetry. by apply (plan_respects (Some slug)), filled_alike.
Qed.
