(* ===== verification/GoalReview.v ===== *)
(** * GoalReview: the review rounds of a goal plan (internal/pabcd/review: round.go, signoff.go, verdictline.go; the binding of a round: internal/pabcd/cli/review_round_run.go).

    A round is opened, launched, in flight and judged; what is not judged is closed as inconclusive. A round that an operation selects is a place in the list, as the pointer of the source is. The order
    of round ids is a [float64] that is a whole number, so it is a [Z]; [nearest] is the rounding of a number with more than 53 bits. The clock is an argument, and so is the spelling of a number of
    [2 ^ 53] or more, which only a refusal shows. A verdict is one of the three words: the caller reads it with [ParseSignoff], which answers no other. *)
From S2P Require Import Prelude GoLib Sha256 Json Loads GoFloat GoPath JsText Attest Fsm GoalTypes GoalQuery GoalOps GoalSteer GoalGate GoalRevive.
Local Open Scope string_scope.

(** ** round.go *)
Inductive ReviewRoundResult : Type :=
| ReviewOK (plan : Goalplan) (round : ReviewRoundState)
| ReviewStale (reason : string)
| ReviewCASFailed (reason : string) (actual : ReviewRoundStatus)
| ReviewNotFound (reason : string)
| ReviewInvalidInput (reason : string).

Inductive Staleness : Type := Fresh | StalePlan | StillOpen.

Record OpenRoundInput : Type := mkOpen { OpenPurpose : ReviewPurpose; OpenPlanPath : string; OpenPlanSha256 : string }.

Record VerdictInput : Type := mkVerdict {
  VPurpose : ReviewPurpose;
  VRoundID : string;
  VLaunchID : string;
  VVerdict : Verdict;
  VArtifactSha256 : option string;
  VReviewerSession : option string;
  VSourceIdentity : option SourceIdentity;
  VBlockers : Z;
  VFindings : list string
}.

Definition reviewTerminal (s : ReviewRoundStatus) : bool := match s with ReviewApproved | ReviewChangesRequested | ReviewInconclusive => true | _ => false end.

Definition reviewCursor (p : Goalplan) (purpose : ReviewPurpose) : option string := match purpose with PurposePlanAudit => ActivePlanAuditRoundID p | PurposeFinalGate => ActiveFinalGateRoundID p end.

(** [strconv.ParseFloat] of a whole number; an infinite one counts as zero. *)
Definition nearest (n : Z) : Z := match float_of_int n with Fin q => floor q | _ => 0%Z end.

(** The sign and the digits that start a text. *)
Definition signed_digits (s : list Z) : option Z :=
  let '(negative, rest) := match s with 43 :: t => (false, t) | 45 :: t => (true, t) | _ => (false, s) end%Z in
  match (digits rest).1 with [] => None | ds => Some (if negative then - decimal ds else decimal ds)%Z end.

Definition strip_r (id : string) : string := match id with String "r" s => s | _ => id end.
Definition reviewRoundOrder (id : string) : Z := match signed_digits (bytes_of_string (Trim (strip_r id))) with Some n => nearest n | None => 0%Z end.

Definition reviewRoundIDLimit : Z := 2 ^ 53.

Definition reviewMintLaunchID (id now : string) : string := id +:+ "-" +:+ string_of_bytes (take 14 (filter (λ b, in_range 48 57 b = true) (bytes_of_string now))).

Definition reviewWithRounds (p : Goalplan) (rounds : list ReviewRoundState) (purpose : ReviewPurpose) (cursor : option string) : Goalplan :=
  mkPlan (Objective p) (Slug p) (CreatedAt p) (PlanUpdatedAt p) (ActiveWorkPhaseID p) (WorkPhases p) (Criteria p) (Host p) rounds (Decisions p)
    (match purpose with PurposePlanAudit => cursor | PurposeFinalGate => ActivePlanAuditRoundID p end) (match purpose with PurposeFinalGate => cursor | PurposePlanAudit => ActiveFinalGateRoundID p end)
    (SchemaVersion p) (FinalGate p) (SteeringLog p).

Definition reviewReplaceRound (rounds : list ReviewRoundState) (selected : nat) (updated : ReviewRoundState) : list ReviewRoundState := <[selected := updated]> rounds.

Definition open_round (purpose : ReviewPurpose) (r : ReviewRoundState) : bool := bool_decide (Purpose r = purpose) && negb (reviewTerminal (RoundStatus r)).

(** The first of the rounds with the highest order. *)
Fixpoint best_round (keep : ReviewRoundState → bool) (i : nat) (best : option (nat * ReviewRoundState)) (rounds : list ReviewRoundState) : option (nat * ReviewRoundState) :=
  match rounds with
  | [] => best
  | r :: rest =>
    let better := match best with None => true | Some (_, b) => (reviewRoundOrder (RoundID b) <? reviewRoundOrder (RoundID r))%Z end in
    best_round keep (S i) (if keep r && better then Some (i, r) else best) rest
  end.

Definition cursor_round (p : Goalplan) (purpose : ReviewPurpose) : option (nat * ReviewRoundState) :=
  cursor ← reviewCursor p purpose;
  if bool_decide (cursor = "") then None
  else '(i, r) ← list_find (λ r, RoundID r = cursor) (ReviewRounds p); if open_round purpose r then Some (i, r) else None.

Definition EffectiveRound (p : Goalplan) (purpose : ReviewPurpose) : option (nat * ReviewRoundState) :=
  match cursor_round p purpose with Some hit => Some hit | None => best_round (open_round purpose) 0 None (ReviewRounds p) end.

Definition LatestRound (p : Goalplan) (purpose : ReviewPurpose) : option (nat * ReviewRoundState) := best_round (λ r, bool_decide (Purpose r = purpose)) 0 None (ReviewRounds p).

Definition RoundByLaunchID (p : Goalplan) (purpose : ReviewPurpose) (launch : string) : option (nat * ReviewRoundState) :=
  if bool_decide (launch = "") then None else list_find (λ r, Purpose r = purpose ∧ LaunchID (Lane r) = launch) (ReviewRounds p).

(** A round with another status, time of closing and lane. *)
Definition moved (r : ReviewRoundState) (status : ReviewRoundStatus) (closedAt : option string) (lane : ReviewLane) : ReviewRoundState :=
  mkRound (RoundID r) (Purpose r) (RoundPlanPath r) (PlanSha256 r) status lane (OpenedAt r) closedAt (OwnerSessionID r) (RoundWorkPhaseID r) (PlanUnit r) (PlanEpoch r) (PlanFiles r) (RoundSupersededBy r).
Definition retired (now : string) (r : ReviewRoundState) : ReviewRoundState := moved r ReviewInconclusive (Some now) (Lane r).
Definition rehashed (sha : string) (r : ReviewRoundState) : ReviewRoundState :=
  mkRound (RoundID r) (Purpose r) (RoundPlanPath r) sha (RoundStatus r) (Lane r) (OpenedAt r) (RoundClosedAt r) (OwnerSessionID r) (RoundWorkPhaseID r) (PlanUnit r) (PlanEpoch r) (PlanFiles r) (RoundSupersededBy r).

Section format.
Context (FormatLarge : Z → string).

Definition round_name (n : Z) : string := "r" +:+ (if (n <? reviewRoundIDLimit)%Z then itoa n else FormatLarge n).

Definition highest_order (p : Goalplan) : Z := foldl (λ h r, Z.max h (reviewRoundOrder (RoundID r))) 0%Z (ReviewRounds p).

(** The next id, or why there is none. *)
Definition reviewNextRoundID (p : Goalplan) : string + string :=
  let n := nearest (highest_order p + 1) in
  let id := round_name n in
  if bool_decide (id ∈ RoundID <$> ReviewRounds p) then inl ("round id " +:+ id +:+ " is already stored: opening another round would overwrite it")
  else if (reviewRoundIDLimit <=? n)%Z then inl ("the next round id " +:+ id +:+ " is not an exact integer below 2^53: it could repeat a stored round id")
  else inr id.

Definition new_round (input : OpenRoundInput) (id now : string) : ReviewRoundState :=
  mkRound id (OpenPurpose input) (OpenPlanPath input) (OpenPlanSha256 input) ReviewPending (mkLane (reviewMintLaunchID id now) None None None None None 0 []) now None "" "" "" "" [] "".

Definition append_round (p : Goalplan) (input : OpenRoundInput) (now : string) : ReviewRoundResult :=
  match reviewNextRoundID p with
  | inl reason => ReviewInvalidInput reason
  | inr id =>
    let r := new_round input id now in
    ReviewOK (reviewWithRounds p (((λ r, if open_round (OpenPurpose input) r then retired now r else r) <$> ReviewRounds p) ++ [r])%list (OpenPurpose input) (Some id)) r
  end.

Definition OpenRound (p : Goalplan) (input : OpenRoundInput) (now : string) : ReviewRoundResult :=
  if bool_decide (OpenPlanSha256 input = "") then ReviewInvalidInput "planSha256 is required: a round without a plan hash cannot be judged fresh or stale"
  else if bool_decide (OpenPlanPath input = "") then ReviewInvalidInput "planPath is required"
  else match EffectiveRound p (OpenPurpose input) with
       | Some (i, live) =>
         if bool_decide (RoundStatus live = ReviewPending) && bool_decide (RoundPlanPath live = OpenPlanPath input) then
           let r := rehashed (OpenPlanSha256 input) live in
           ReviewOK (reviewWithRounds p (reviewReplaceRound (ReviewRounds p) i r) (OpenPurpose input) (Some (RoundID r))) r
         else append_round p input now
       | None => append_round p input now
       end.
End format.

(** The round a launch is for, if nothing came after it. *)
Definition reviewRequireRound (p : Goalplan) (purpose : ReviewPurpose) (id launch : string) : ReviewRoundResult + nat * ReviewRoundState :=
  let missing :=
    match list_find (λ r, Purpose r = purpose ∧ RoundID r = id) (ReviewRounds p) with
    | Some (_, r) => ReviewStale ("launch " +:+ launch +:+ " was superseded by " +:+ LaunchID (Lane r))
    | None => ReviewNotFound ("no " +:+ purpose_text purpose +:+ " round for launch " +:+ launch)
    end in
  match RoundByLaunchID p purpose launch with
  | Some (i, hit) =>
    if bool_decide (RoundID hit = id) then
      if existsb (λ r, bool_decide (Purpose r = purpose) && (reviewRoundOrder (RoundID hit) <? reviewRoundOrder (RoundID r))%Z) (ReviewRounds p)
      then inl (ReviewStale ("round " +:+ id +:+ " was superseded before this verdict arrived")) else inr (i, hit)
    else inl missing
  | None => inl missing
  end.

Definition reviewAdvance (p : Goalplan) (purpose : ReviewPurpose) (id launch : string) (expect : ReviewRoundStatus) (mutate : ReviewRoundState → ReviewRoundState) (clear : bool) : ReviewRoundResult :=
  match reviewRequireRound p purpose id launch with
  | inl result => result
  | inr (i, r) =>
    if negb (bool_decide (RoundStatus r = expect)) then
      ReviewCASFailed ("round " +:+ id +:+ " is " +:+ round_status_text (RoundStatus r) +:+ ", expected " +:+ round_status_text expect) (RoundStatus r)
    else
      let updated := mutate r in
      ReviewOK (reviewWithRounds p (reviewReplaceRound (ReviewRounds p) i updated) purpose (if clear then None else Some id)) updated
  end.

Definition with_workspace (l : ReviewLane) (workspace : option string) : ReviewLane :=
  mkLane (LaunchID l) (ReviewerSession l) workspace (ArtifactSha256 l) (LaneVerdict l) (LaneSourceIdentity l) (Blockers l) (Findings l).

Definition MarkLaunching (p : Goalplan) (purpose : ReviewPurpose) (id launch : string) (workspace : option string) : ReviewRoundResult :=
  reviewAdvance p purpose id launch ReviewPending (λ r, moved r ReviewLaunching (RoundClosedAt r) (with_workspace (Lane r) workspace)) false.

Definition MarkInFlight (p : Goalplan) (purpose : ReviewPurpose) (id launch : string) : ReviewRoundResult :=
  reviewAdvance p purpose id launch ReviewLaunching (λ r, moved r ReviewInFlight (RoundClosedAt r) (Lane r)) false.

Definition judged_lane (l : ReviewLane) (input : VerdictInput) : ReviewLane :=
  mkLane (LaunchID l) (match VReviewerSession input with Some s => Some s | None => ReviewerSession l end) (WorkspaceRoot l)
    (match VArtifactSha256 input with Some s => Some s | None => ArtifactSha256 l end) (Some (VVerdict input))
    (match VSourceIdentity input with Some i => Some i | None => LaneSourceIdentity l end) (VBlockers input) (VFindings input).
Definition judged_status (v : Verdict) : ReviewRoundStatus := match v with VerdictPass | VerdictNearPass => ReviewApproved | VerdictFail => ReviewChangesRequested end.

Definition RecordVerdict (p : Goalplan) (input : VerdictInput) (now : string) : ReviewRoundResult :=
  reviewAdvance p (VPurpose input) (VRoundID input) (VLaunchID input) ReviewInFlight (λ r, moved r (judged_status (VVerdict input)) (Some now) (judged_lane (Lane r) input)) true.

(** Close the rounds that are chosen: the rounds then, and the ids of the ones that were closed. *)
Definition close_rounds (chosen : ReviewRoundState → bool) (close : ReviewRoundState → ReviewRoundState) (rounds : list ReviewRoundState) : list ReviewRoundState * list string :=
  ((λ r, if chosen r then close r else r) <$> rounds, RoundID <$> filter (λ r, chosen r = true) rounds).

Definition owned_by (session : string) (r : ReviewRoundState) : bool := negb (bool_decide (OwnerSessionID r = "")) && bool_decide (OwnerSessionID r = session).

Definition SupersedeStaleRounds (p : Goalplan) (purpose : ReviewPurpose) (session epoch now : string) : Goalplan * list string :=
  if bool_decide (epoch = "") then (p, [])
  else
    let '(rounds, closed) := close_rounds (λ r, open_round purpose r && owned_by session r && bool_decide (PlanEpoch r = epoch)) (retired now) (ReviewRounds p) in
    if bool_decide (closed = []) then (p, []) else (reviewWithRounds p rounds purpose None, closed).

Definition obsolete (purpose : ReviewPurpose) (session keep : string) (r : ReviewRoundState) : bool :=
  open_round purpose r && owned_by session r && negb (bool_decide (PlanEpoch r = "")) && negb (bool_decide (PlanEpoch r = keep)).
Definition ObsoleteRounds (p : Goalplan) (purpose : ReviewPurpose) (session keep : string) : list string := RoundID <$> filter (λ r, obsolete purpose session keep r = true) (ReviewRounds p).

Definition superseded_round (now by_ : string) (r : ReviewRoundState) : ReviewRoundState :=
  mkRound (RoundID r) (Purpose r) (RoundPlanPath r) (PlanSha256 r) ReviewInconclusive (Lane r) (OpenedAt r) (Some now) (OwnerSessionID r) (RoundWorkPhaseID r) (PlanUnit r) (PlanEpoch r) (PlanFiles r) by_.

(** [now] is what the clock says when the caller gives no time. *)
Definition SupersedeRounds (p : Goalplan) (purpose : ReviewPurpose) (session keep : string) (ids : list string) (closedAt by_ now : string) : Goalplan * list string :=
  let at_ := if bool_decide (closedAt = "") then now else closedAt in
  let '(rounds, closed) := close_rounds (λ r, obsolete purpose session keep r && bool_decide (RoundID r ∈ ids)) (superseded_round at_ by_) (ReviewRounds p) in
  if bool_decide (closed = []) then (p, [])
  else
    let cursor := match reviewCursor p purpose with Some c => if bool_decide (c ∈ closed) then None else Some c | None => None end in
    (reviewWithRounds p rounds purpose cursor, closed).

Definition aborted_lane (l : ReviewLane) (reason : string) : ReviewLane :=
  mkLane (LaunchID l) (match ReviewerSession l with Some s => Some s | None => Some ("aborted: " +:+ reason) end) (WorkspaceRoot l) (ArtifactSha256 l) (LaneVerdict l) (LaneSourceIdentity l) (Blockers l) (Findings l).

Definition AbortRound (p : Goalplan) (purpose : ReviewPurpose) (reason now : string) : ReviewRoundResult :=
  match EffectiveRound p purpose with
  | None => ReviewNotFound ("no open " +:+ purpose_text purpose +:+ " round")
  | Some (i, live) =>
    let r := moved live ReviewInconclusive (Some now) (aborted_lane (Lane live) reason) in
    ReviewOK (reviewWithRounds p (reviewReplaceRound (ReviewRounds p) i r) purpose None) r
  end.

(** ** Binding a round (cli/review_round_run.go): the only writer of its owner, its work-phase, its unit, its epoch and its files. *)
Definition bind_round (session workPhase unit epoch : string) (files : list (string * string)) (r : ReviewRoundState) : ReviewRoundState :=
  mkRound (RoundID r) (Purpose r) (RoundPlanPath r) (PlanSha256 r) (RoundStatus r) (Lane r) (OpenedAt r) (RoundClosedAt r) session workPhase unit epoch files (RoundSupersededBy r).

Definition with_rounds (p : Goalplan) (rounds : list ReviewRoundState) : Goalplan := reviewWithRounds p rounds PurposePlanAudit (ActivePlanAuditRoundID p).

Definition reviewRoundRunBound (plan : Goalplan) (launch session workPhase unit epoch : string) (files : list (string * string)) : option Goalplan :=
  '(i, r) ← RoundByLaunchID plan PurposePlanAudit launch; Some (with_rounds plan (<[i := bind_round session workPhase unit epoch files r]> (ReviewRounds plan))).

Definition StalenessOf (p : Goalplan) (id sha : string) : Staleness :=
  match head (filter (λ r, RoundID r = id) (ReviewRounds p)) with
  | Some r => if negb (reviewTerminal (RoundStatus r)) then StillOpen else if bool_decide (PlanSha256 r = sha) then Fresh else StalePlan
  | None => StillOpen
  end.

(** A captured identity holds its tree hash as a text, which is empty when the tree is clean. *)
Record Identity : Type := mkIdentity { CapturedKind : string; CapturedCommitSha : string; CapturedDirty : bool; CapturedTreeHash : string; CapturedTime : string; CapturedRoot : option string }.

Definition StoredIdentity (id : Identity) : SourceIdentity :=
  mkSource (CapturedKind id) (CapturedCommitSha id) (CapturedDirty id) (CapturedTime id) (if bool_decide (CapturedTreeHash id = "") then None else Some (CapturedTreeHash id)) (CapturedRoot id).
(** [SourceIdentity.Identity] of internal/pabcd/state. *)
Definition identity_of (s : SourceIdentity) : Identity := mkIdentity (Kind s) (CommitSha s) (Dirty s) (default "" (TreeHash s)) (CapturedAt s) (SourceRoot s).

(** ** signoff.go *)
Record ReviewSignoff : Type := mkSignoff { SignoffLaunchID : string; SignoffVerdict : Verdict; SignoffBlockers : Z; SignoffFindings : list string }.

Definition upper_byte (b : Z) : Z := if in_range 97 122 b then (b - 32)%Z else b.

(** A label in any case at the start of the bytes, and what follows it. *)
Fixpoint after_label (fold_byte : Z → Z) (label s : list Z) : option (list Z) :=
  match label with [] => Some s | l :: label' => match s with b :: s' => if (fold_byte b =? l)%Z then after_label fold_byte label' s' else None | [] => None end end.

Definition marked_value (mark : Z) (rest : list Z) : option (list Z) :=
  match TrimBytes rest with b :: t => if (b =? mark)%Z then let value := TrimBytes t in if bool_decide (value = []) then None else Some value else None | [] => None end.

Definition reviewSignoffField (line : list Z) (label : string) : option (list Z) := after_label upper_byte (bytes_of_string label) line ≫= marked_value 58.

Definition upper_rune (r : Z) : list Z :=
  if (r =? 0xDF)%Z then [83; 83]%Z else if (r =? 0x131)%Z then [73]%Z else if (r =? 0x17F)%Z then [83]%Z else if (r =? 0xFB00)%Z then [70; 70]%Z else if (r =? 0xFB01)%Z then [70; 73]%Z
  else if (r =? 0xFB02)%Z then [70; 76]%Z else if (r =? 0xFB03)%Z then [70; 70; 73]%Z else if (r =? 0xFB04)%Z then [70; 70; 76]%Z else if (r =? 0xFB05)%Z || (r =? 0xFB06)%Z then [83; 84]%Z
  else encode_rune (upper_byte r).
Definition reviewVerdictUpper (s : list Z) : list Z := runes s ≫= upper_rune.

(** ** verdictline.go *)
Definition BlockerSuffix (blockers : Z) (findings : list string) : string :=
  " (blockers=" +:+ itoa blockers +:+ (match findings with [] => "" | _ => "; findings=" +:+ join_sep "," findings end) +:+ ")".

Record verdictLine : Type := mkLine { lineVerdict : Verdict; lineBlockers : Z; lineFindings : list string }.

(** [strings.Cut] at a byte: what is before it, and what is after it when it is there. *)
Fixpoint cut_at (mark : Z) (s : list Z) : list Z * option (list Z) :=
  match s with [] => ([], None) | b :: s' => if (b =? mark)%Z then ([], Some s') else let '(h, t) := cut_at mark s' in (b :: h, t) end.
Fixpoint split_at (mark : Z) (s : list Z) : list (list Z) :=
  match s with [] => [[]] | b :: s' => if (b =? mark)%Z then [] :: split_at mark s' else match split_at mark s' with w :: ws => (b :: w) :: ws | [] => [[b]] end end.

Definition verdictLineField (s : list Z) (label : string) : option (list Z) := after_label lower_byte (bytes_of_string label) (TrimBytes s) ≫= marked_value 61.

Definition verdict_word_of (word : list Z) : option Verdict :=
  if bool_decide (word = bytes_of_string "PASS") then Some VerdictPass else if bool_decide (word = bytes_of_string "FAIL") then Some VerdictFail
  else if bool_decide (word = bytes_of_string "NEAR-PASS") || bool_decide (word = bytes_of_string "GO-WITH-FIXES") then Some VerdictNearPass else None.

Definition blocker_count (count : list Z) : option Z :=
  n ← verdictLineField count "blockers";
  if (4 <? length n)%nat || negb (forallb (in_range 48 57) n) then None
  else let blockers := decimal n in if (blockers <? 1)%Z || (MaxBlockers <? blockers)%Z then None else Some blockers.

Definition trimmed_ref (p : list Z) : option string := let ref := string_of_bytes (TrimBytes p) in if ValidFindingRef ref then Some ref else None.
Definition finding_list (refs : option (list Z)) : option (list string) :=
  match refs with
  | None => Some []
  | Some r => l ← verdictLineField r "findings"; let parts := split_at 44 l in if (MaxFindingRefs <? length parts)%nat then None else mapM trimmed_ref parts
  end.

Definition cut_suffix (mark : Z) (s : list Z) : option (list Z) := match last s with Some b => if (b =? mark)%Z then Some (take (length s - 1) s) else None | None => None end.

Definition parseVerdictLine (raw : list Z) : option verdictLine :=
  let '(head, decorated) := cut_at 40 raw in
  verdict ← verdict_word_of (reviewVerdictUpper (TrimBytes head));
  match decorated with
  | None => Some (mkLine verdict 0 [])
  | Some rest =>
    if negb (bool_decide (verdict = VerdictNearPass)) then None
    else
      inner ← cut_suffix 41 rest;
      if existsb (λ b, (b =? 40) || (b =? 41))%Z inner then None
      else let '(count, refs) := cut_at 59 inner in blockers ← blocker_count count; findings ← finding_list refs; Some (mkLine verdict blockers findings)
  end.

(** [ParseSignoff] reads the last two lines that are not blank. *)
Definition ParseSignoffBytes (message : list Z) : option ReviewSignoff :=
  match reverse (filter (λ l, l ≠ []) (TrimBytes <$> SplitLinesBytes message)) with
  | verdict :: launch :: _ =>
    id ← reviewSignoffField launch "LAUNCH";
    if existsb isJSSpace (runes id) then None
    else raw ← reviewSignoffField verdict "VERDICT"; line ← parseVerdictLine raw; Some (mkSignoff (string_of_bytes id) (lineVerdict line) (lineBlockers line) (lineFindings line))
  | _ => None
  end.
Definition ParseSignoff (message : string) : option ReviewSignoff := ParseSignoffBytes (bytes_of_string message).

Example signoffs :
  ParseSignoff ("All done." +:+ String "010" ("launch: r3-20260102120000" +:+ String "010" "Verdict : go-with-fixes (blockers = 2; findings= c1 ,r2)")) = Some (mkSignoff "r3-20260102120000" VerdictNearPass 2 ["c1"; "r2"]) ∧
  ParseSignoff ("LAUNCH: r1" +:+ String "010" "VERDICT: PASS (blockers=1)") = None.
Proof. split; vm_compute; reflexivity. Qed.
