(* ===== verification/GoalReviewProps.v ===== *)
(** * GoalReviewProps: what the review rounds of a goal plan can do. *)
From Stdlib Require Import QArith.
From S2P Require Import Prelude GoLib Sha256 Json Loads Utf8 JsonText JsonRoundtrip GoFloat GoPath JsText Attest Fsm GrammarProps GoalTypes GoalQuery GoalOps GoalSteer GoalGate GoalRevive GoalReview.
From stdpp Require Import relations.
Local Open Scope string_scope.

(** ** Whole numbers as [float64] *)
Section nearest.
Local Open Scope Z_scope.

Lemma div_even_bounds p q : 0 < q → p / q ≤ div_even p q ≤ p / q + 1.
Proof. intros Hq. unfold div_even. repeat case_match; lia. Qed.

Lemma div_even_exact m q : 0 < q → div_even (m * q) q = m.
Proof. intros Hq. unfold div_even. rewrite Z.div_mul, Z.mod_mul by lia. by rewrite (proj2 (Z.ltb_lt _ _)) by lia. Qed.

(** The unit in the last place of a whole number. *)
Lemma round64_shape p : 0 < p → let unit := Z.log2 p - 52 in
  round64 p 1 = if unit <? 0 then Fin (Qred (inject_Z (p * 2 ^ (- unit)) * pow2 unit)) else
    let m := div_even p (2 ^ unit) in if (0 <? unit) && (2 ^ 1024 <=? m * 2 ^ unit) then FInf false else Fin (Qred (inject_Z m * pow2 unit)).
Proof.
  intros Hp unit. unfold round64. rewrite Z.log2_1, Z.sub_0_r. pose proof (Z.log2_spec p Hp) as [Hlo _]. pose proof (Z.log2_nonneg p) as Hk.
  rewrite (proj2 (Z.ltb_ge (Z.log2 p) 0)) by lia. rewrite Z.mul_1_l, (proj2 (Z.ltb_ge p _)) by lia. rewrite Z.max_l by lia. fold unit.
  destruct (Z.ltb_spec unit 0) as [Hu|Hu]; [|by rewrite Z.mul_1_l]. rewrite (proj2 (Z.ltb_ge 0 unit)) by lia. cbn [andb].
  replace (div_even (p * 2 ^ (- unit)) 1) with (p * 2 ^ (- unit)); [done|]. rewrite <- (Z.mul_1_r (p * 2 ^ (- unit))) at 2. by rewrite div_even_exact by lia.
Qed.

Lemma floor_whole (n : Z) x : Qeq x (inject_Z n) → GoalRevive.floor (Qred x) = n.
Proof.
  intros H. assert (Qred x = inject_Z n) as ->; [|unfold GoalRevive.floor; simpl; apply Z.div_1_r]. rewrite (Qred_complete _ _ H). unfold Qred, inject_Z. pose proof (Z.ggcd_gcd n 1) as Hg. pose proof (Z.ggcd_correct_divisors n 1) as Hd.
  destruct (Z.ggcd n 1) as [g [a b]]. simpl in *. rewrite Z.gcd_1_r in Hg. subst g. destruct Hd as [Ha Hb]. rewrite Z.mul_1_l in Ha, Hb. by rewrite <- Ha, <- Hb.
Qed.

Lemma nearest_exact n : 0 ≤ n < 2 ^ 53 → nearest n = n.
Proof.
  intros [H0 Hn]. destruct (decide (n = 0)) as [->|Hne]; [done|]. unfold nearest, float_of_int. rewrite (proj2 (Z.eqb_neq n 0)), (proj2 (Z.ltb_ge n 0)) by lia. rewrite round64_shape by lia. cbv zeta.
  assert (Z.log2 n < 53) as Hl by (apply Z.log2_lt_pow2; lia). destruct (Z.ltb_spec (Z.log2 n - 52) 0) as [Hu|Hu].
  - apply floor_whole. unfold pow2. rewrite (proj2 (Z.ltb_lt _ _)) by lia. set (e := - (Z.log2 n - 52)). assert (0 < 2 ^ e) by (apply Z.pow_pos_nonneg; lia). unfold Qeq, Qmult, inject_Z. simpl. rewrite Pos.mul_1_l, Z2Pos.id by lia. lia.
  - replace (Z.log2 n - 52) with 0 by lia. simpl. apply floor_whole. unfold pow2. simpl. rewrite <- (Z.mul_1_r n) at 1. rewrite div_even_exact by lia. unfold Qeq. simpl. lia.
Qed.

(** The largest number of 53 bits, and the rounding of a number that is larger than all of them. *)
Definition max_order : Z := 2 ^ 1024 - 2 ^ 971.

Lemma rounded_bounds p unit : 0 ≤ unit → 2 ^ (unit + 52) ≤ p < 2 ^ (unit + 53) → 2 ^ 52 ≤ div_even p (2 ^ unit) ≤ 2 ^ 53.
Proof.
  intros Hu [Hlo Hhi]. rewrite Z.add_comm, Z.pow_add_r in Hlo, Hhi by lia. assert (0 < 2 ^ unit) as Hp by (apply Z.pow_pos_nonneg; lia). pose proof (div_even_bounds p (2 ^ unit) Hp) as Hb.
  assert (2 ^ 52 ≤ p / 2 ^ unit) by (apply Z.div_le_lower_bound; lia). assert (p / 2 ^ unit < 2 ^ 53) by (apply Z.div_lt_upper_bound; lia). lia.
Qed.

Lemma floor_scaled m unit : 0 ≤ unit → GoalRevive.floor (Qred (inject_Z m * pow2 unit)) = m * 2 ^ unit.
Proof. intros Hu. apply floor_whole. unfold pow2. rewrite (proj2 (Z.ltb_ge _ _)) by lia. unfold Qeq. simpl. lia. Qed.

Lemma nearest_large p : 2 ^ 53 ≤ p → let unit := Z.log2 p - 52 in 1 ≤ unit ∧ 2 ^ 52 ≤ div_even p (2 ^ unit) ≤ 2 ^ 53 ∧
  nearest p = if 2 ^ 1024 <=? div_even p (2 ^ unit) * 2 ^ unit then 0 else div_even p (2 ^ unit) * 2 ^ unit.
Proof.
  intros Hp unit. assert (53 ≤ Z.log2 p) as Hl by (rewrite <- (Z.log2_pow2 53) by lia; by apply Z.log2_le_mono). split; [unfold unit; lia|]. pose proof (Z.log2_spec p ltac:(lia)) as Hs. split.
  - apply rounded_bounds; [unfold unit; lia|]. unfold unit. replace (Z.log2 p - 52 + 52) with (Z.log2 p) by lia. replace (Z.log2 p - 52 + 53) with (Z.succ (Z.log2 p)) by lia. lia.
  - unfold nearest, float_of_int. rewrite (proj2 (Z.eqb_neq p 0)), (proj2 (Z.ltb_ge p 0)) by lia. rewrite round64_shape by lia. cbv zeta. fold unit. rewrite (proj2 (Z.ltb_ge unit 0)) by (unfold unit; lia).
    rewrite (proj2 (Z.ltb_lt 0 unit)) by (unfold unit; lia). cbn [andb]. destruct (_ <=? _); [done|]. apply floor_scaled. unfold unit; lia.
Qed.

Lemma pow_top : 2 ^ 1024 = 2 ^ 53 * 2 ^ 971.
Proof. rewrite <- Z.pow_add_r by lia. done. Qed.

Lemma floor_opposite q : 0 ≤ Qnum q → GoalRevive.floor (- q)%Q ≤ 0.
Proof. intros Hq. unfold GoalRevive.floor. simpl. apply Z.div_le_upper_bound; lia. Qed.

Lemma Qred_nonneg q : 0 ≤ Qnum q → 0 ≤ Qnum (Qred q).
Proof. intros Hq. assert (Qle 0 (Qred q)) as H by (rewrite Qred_correct; unfold Qle; simpl; lia). unfold Qle in H. simpl in H. lia. Qed.

Lemma scaled_nonneg m unit : 0 ≤ m → 0 ≤ Qnum (Qred (inject_Z m * pow2 unit)).
Proof. intros Hm. apply Qred_nonneg. unfold pow2. destruct (unit <? 0); simpl; [lia|]. assert (0 ≤ 2 ^ unit) by (apply Z.pow_nonneg; lia). nia. Qed.

Lemma round64_nonneg p q : 0 < p → round64 p 1 = Fin q → 0 ≤ Qnum q.
Proof.
  intros Hp. rewrite round64_shape by done. cbv zeta. set (unit := Z.log2 p - 52). assert (0 < 2 ^ (- unit) ∨ 0 ≤ unit) as Hu by (destruct (Z.lt_ge_cases unit 0); [left; apply Z.pow_pos_nonneg; lia|right; lia]).
  destruct (Z.ltb_spec unit 0); [intros [= <-]; apply scaled_nonneg; nia|]. destruct (_ && _); [done|]. intros [= <-]. apply scaled_nonneg.
  assert (0 < 2 ^ unit) as H2 by (apply Z.pow_pos_nonneg; lia). pose proof (div_even_bounds p _ H2). assert (0 ≤ p / 2 ^ unit) by (apply Z.div_pos; lia). lia.
Qed.

Lemma nearest_bound n : nearest n ≤ max_order.
Proof.
  assert (2 ^ 53 ≤ 2 ^ 971) by (apply Z.pow_le_mono_r; lia). assert (2 ^ 53 ≤ max_order) as Hm by (unfold max_order; rewrite pow_top; nia).
  destruct (Z.lt_ge_cases n 0) as [Hn|Hn].
  { unfold nearest, float_of_int. rewrite (proj2 (Z.eqb_neq n 0)), (proj2 (Z.ltb_lt n 0)) by lia. destruct (round64 (- n) 1) as [|b|q] eqn:E; simpl; try lia. pose proof (floor_opposite q (round64_nonneg (- n) q ltac:(lia) E)). lia. }
  destruct (Z.lt_ge_cases n (2 ^ 53)) as [Hs|Hl]; [rewrite nearest_exact; lia|]. destruct (nearest_large n Hl) as (Hu & Hd & ->). set (unit := Z.log2 n - 52) in *. set (m := div_even n (2 ^ unit)) in *.
  destruct (Z.leb_spec (2 ^ 1024) (m * 2 ^ unit)) as [|Hlt]; [lia|]. destruct (Z.le_gt_cases unit 970) as [Hsm|Hbig].
  - assert (2 ^ unit ≤ 2 ^ 970) by (apply Z.pow_le_mono_r; lia). assert (m * 2 ^ unit ≤ 2 ^ 53 * 2 ^ 970) by nia. unfold max_order. rewrite pow_top. replace (2 ^ 971) with (2 * 2 ^ 970) by (by rewrite <- Z.pow_succ_r by lia). nia.
  - assert (2 ^ 971 ≤ 2 ^ unit) as Hge by (apply Z.pow_le_mono_r; lia). rewrite pow_top in Hlt. destruct (decide (unit = 971)) as [E|E].
    + rewrite E in Hlt |- *. assert (m < 2 ^ 53) by nia. unfold max_order. rewrite pow_top. nia.
    + assert (2 ^ 972 ≤ 2 ^ unit) by (apply Z.pow_le_mono_r; lia). replace (2 ^ 972) with (2 * 2 ^ 971) in * by (by rewrite <- Z.pow_succ_r by lia). nia.
Qed.

(** One more than an order is exact, or is past the limit of the ids. *)
Lemma nearest_succ h : 0 ≤ h ≤ max_order → nearest (h + 1) = h + 1 ∨ reviewRoundIDLimit ≤ nearest (h + 1).
Proof.
  intros [H0 Hm]. unfold reviewRoundIDLimit. destruct (Z.lt_ge_cases (h + 1) (2 ^ 53)) as [Hs|Hl]; [left; apply nearest_exact; lia|]. right. destruct (nearest_large _ Hl) as (Hu & Hd & ->). set (unit := Z.log2 (h + 1) - 52) in *. set (m := div_even (h + 1) (2 ^ unit)) in *.
  assert (2 ^ 1 ≤ 2 ^ unit) by (apply Z.pow_le_mono_r; lia). destruct (Z.leb_spec (2 ^ 1024) (m * 2 ^ unit)) as [Hbig|]; [exfalso|nia]. assert (unit ≤ 971) as Hle.
  { assert (Z.log2 (h + 1) < 1024); [|unfold unit; lia]. apply Z.log2_lt_pow2; [lia|]. unfold max_order in Hm. assert (2 ≤ 2 ^ 971) by (rewrite <- (Z.pow_1_r 2) at 1; apply Z.pow_le_mono_r; lia). lia. }
  rewrite pow_top in Hbig. destruct (decide (unit = 971)) as [E|E].
  - assert (m < 2 ^ 53) as Hlt; [|rewrite E in Hbig; nia]. unfold m, div_even. rewrite E. set (u := 2 ^ 971) in *. assert (4 ≤ u) as H4 by (change 4 with (2 ^ 2); apply Z.pow_le_mono_r; lia).
    pose proof (Z.div_mod (h + 1) u ltac:(lia)) as Hdm. pose proof (Z.mod_pos_bound (h + 1) u ltac:(lia)). assert ((h + 1) / u < 2 ^ 53) by (apply Z.div_lt_upper_bound; unfold max_order in Hm; rewrite pow_top in Hm; fold u in Hm; nia).
    unfold max_order in Hm. rewrite pow_top in Hm. fold u in Hm. repeat case_match; try lia; nia.
  - assert (2 ^ unit ≤ 2 ^ 970) by (apply Z.pow_le_mono_r; lia). replace (2 ^ 971) with (2 * 2 ^ 970) in Hbig by (by rewrite <- Z.pow_succ_r by lia). assert (0 < 2 ^ 970) by (apply Z.pow_pos_nonneg; lia). nia.
Qed.
End nearest.

(** ** Selecting a round *)
Definition is_best (keep : ReviewRoundState → bool) (rounds : list ReviewRoundState) (best : option (nat * ReviewRoundState)) : Prop :=
  match best with
  | None => ∀ r, r ∈ rounds → keep r = false
  | Some (i, b) => rounds !! i = Some b ∧ keep b = true ∧ ∀ r, r ∈ rounds → keep r = true → (reviewRoundOrder (RoundID r) ≤ reviewRoundOrder (RoundID b))%Z
  end.

Lemma is_best_snoc keep rounds best r :
  is_best keep rounds best →
  let better := match best with None => true | Some (_, b) => (reviewRoundOrder (RoundID b) <? reviewRoundOrder (RoundID r))%Z end in
  is_best keep (rounds ++ [r])%list (if keep r && better then Some (length rounds, r) else best).
Proof.
  intros H better. subst better. destruct (keep r) eqn:Ek; cbn [andb].
  - destruct best as [[i b]|].
    + destruct H as (Hi & Hb & Hm). destruct (Z.ltb_spec (reviewRoundOrder (RoundID b)) (reviewRoundOrder (RoundID r))).
      * split_and!; [by apply list_lookup_middle|done|]. intros x [Hx| ->%list_elem_of_singleton]%elem_of_app Hk; [|lia]. specialize (Hm x Hx Hk). lia.
      * split_and!; [by apply lookup_app_l_Some|done|]. intros x [Hx| ->%list_elem_of_singleton]%elem_of_app Hk; [by apply Hm|lia].
    + split_and!; [by apply list_lookup_middle|done|]. intros x [Hx| ->%list_elem_of_singleton]%elem_of_app Hk; [|lia]. by rewrite H in Hk.
  - destruct best as [[i b]|].
    + destruct H as (Hi & Hb & Hm). split_and!; [by apply lookup_app_l_Some|done|]. intros x [Hx| ->%list_elem_of_singleton]%elem_of_app Hk; [by apply Hm|congruence].
    + intros x [Hx| ->%list_elem_of_singleton]%elem_of_app; [by apply H|done].
Qed.

Lemma best_round_from keep rounds seen best : is_best keep seen best → is_best keep (seen ++ rounds)%list (best_round keep (length seen) best rounds).
Proof.
  revert seen best. induction rounds as [|r rounds IH]; intros seen best H; [by rewrite app_nil_r|]. cbn [best_round]. apply (is_best_snoc _ _ _ r) in H. apply IH in H. rewrite length_app, Nat.add_1_r, <- (assoc_L (++)%list) in H. exact H.
Qed.

Lemma best_round_best keep rounds : is_best keep rounds (best_round keep 0 None rounds).
Proof. apply (best_round_from keep rounds [] None). intros r []%elem_of_nil. Qed.

Lemma open_round_open purpose r : open_round purpose r = true ↔ Purpose r = purpose ∧ reviewTerminal (RoundStatus r) = false.
Proof. unfold open_round. rewrite andb_true_iff, bool_decide_eq_true, negb_true_iff. done. Qed.

Lemma effective_open p purpose i r : EffectiveRound p purpose = Some (i, r) → ReviewRounds p !! i = Some r ∧ open_round purpose r = true.
Proof.
  unfold EffectiveRound. destruct (cursor_round p purpose) as [[j x]|] eqn:Ec.
  - intros [= -> ->]. unfold cursor_round in Ec. destruct (reviewCursor p purpose) as [c|]; simpl in Ec; [|done]. case_bool_decide; [done|]. destruct (list_find _ _) as [[k y]|] eqn:Ef; simpl in Ec; [|done]. apply list_find_Some in Ef as (Hk & _ & _).
    destruct (open_round purpose y) eqn:Eo; [|done]. by injection Ec as -> ->.
  - pose proof (best_round_best (open_round purpose) (ReviewRounds p)) as H. intros E. rewrite E in H. destruct H as (? & ? & _). done.
Qed.

Lemma effective_none p purpose : EffectiveRound p purpose = None → ∀ r, r ∈ ReviewRounds p → open_round purpose r = false.
Proof. unfold EffectiveRound. destruct (cursor_round p purpose); [done|]. pose proof (best_round_best (open_round purpose) (ReviewRounds p)) as H. intros E. by rewrite E in H. Qed.

Lemma launch_round p purpose launch i r : RoundByLaunchID p purpose launch = Some (i, r) → ReviewRounds p !! i = Some r ∧ Purpose r = purpose ∧ LaunchID (Lane r) = launch.
Proof. unfold RoundByLaunchID. case_bool_decide; [done|]. intros (? & [? ?] & _)%list_find_Some. done. Qed.

Lemma required_round p purpose id launch i r : reviewRequireRound p purpose id launch = inr (i, r) ↔
  RoundByLaunchID p purpose launch = Some (i, r) ∧ RoundID r = id ∧ ∀ x, x ∈ ReviewRounds p → Purpose x = purpose → (reviewRoundOrder (RoundID x) ≤ reviewRoundOrder id)%Z.
Proof.
  unfold reviewRequireRound. destruct (RoundByLaunchID p purpose launch) as [[j y]|]; [|naive_solver]. case_bool_decide as Hid; [|naive_solver]. subst id.
  destruct (existsb _ _) eqn:Ee.
  - split; [done|]. intros ([= -> ->] & _ & Hm). apply existsb_exists in Ee as (x & Hx%list_elem_of_In & [Hp%bool_decide_eq_true Ho%Z.ltb_lt]%andb_true_iff). specialize (Hm x Hx Hp). lia.
  - split; [|naive_solver]. intros [= -> ->]. split_and!; [done|done|]. intros x Hx Hp. apply Z.nlt_ge. intros Hlt. apply not_true_iff_false in Ee. apply Ee, existsb_exists. exists x. split; [by apply list_elem_of_In|]. apply andb_true_iff. split; [by apply bool_decide_eq_true|by apply Z.ltb_lt].
Qed.

(** ** Trimmed texts *)
Section trimmed.
Local Open Scope Z_scope.

Definition ink (c : Z) : Prop := 32 < c < 0x80.

(** A text between two characters that trimming does not take away. *)
Definition firm (s : list Z) : Prop := (∃ c t, s = c :: t ∧ ink c) ∧ (∃ c t, s = (t ++ [c])%list ∧ ink c).

Lemma inked_firm s : s ≠ [] → Forall ink s → firm s.
Proof.
  intros Hs Hi. split; [destruct s as [|c t]; [done|]; exists c, t; by apply Forall_cons_1 in Hi as [? _]|].
  destruct s as [|c t] using rev_ind; [done|]. exists c, t. apply Forall_app in Hi as [_ Hi]. apply Forall_cons_1 in Hi as [Hi _]. done.
Qed.

Lemma firm_trim s : firm s → TrimBytes s = s.
Proof.
  intros [(c & t & -> & Hc) (d & u & E & Hd)]. unfold TrimBytes. assert (JsText.trim_left (length (c :: t)) (c :: t) = c :: t) as -> by apply (TrimLeft_solid (c :: t)), solid_ascii, Hc.
  rewrite E. replace (length (u ++ [d])) with (S (length u)) by (rewrite length_app; simpl; lia). assert (decode_last_rune (u ++ [d]) = (d, 1%nat)) as Hl.
  { unfold decode_last_rune. rewrite last_snoc. unfold ink in Hd. by rewrite (proj2 (Z.ltb_lt d 128)) by lia. }
  destruct (solid_ascii d [] Hd) as [|Hs]; [done|]. unfold decode_rune in Hs. unfold ink in Hd. rewrite (proj2 (Z.ltb_lt d 128)) in Hs by lia. cbn [fst] in Hs.
  cbn [JsText.trim_right]. rewrite Hl, Hs. by destruct (u ++ [d])%list.
Qed.

Lemma blank_firm_trim s : firm s → TrimBytes (32 :: s) = s.
Proof.
  intros H. pose proof (firm_trim s H) as Hs. destruct H as [(c & t & E & Hc) _]. assert (solid s) as Ht by (rewrite E; by apply solid_ascii). unfold TrimBytes.
  assert (JsText.trim_left (length (32 :: s)) (32 :: s) = s) as ->; [|by unfold TrimBytes in Hs; rewrite (TrimLeft_solid s Ht : JsText.trim_left (length s) s = s) in Hs].
  apply (TrimLeft_app [32]); [|done]. exists [32]. split; [by repeat constructor|done].
Qed.
End trimmed.

(** ** The order of round ids *)
Lemma itoa_nonneg n : (0 ≤ n)%Z → ∃ d ds, bytes_of_string (itoa n) = d :: ds ∧ Forall digit (d :: ds) ∧ decimal (d :: ds) = n.
Proof.
  intros Hn. destruct n as [|p|p]; [by exists 48%Z, []; repeat constructor| |lia]. destruct (pretty_go_digits (Npos p) "") as (d & ds & E & Hd & Hds & Hv); [done|]. exists d, ds.
  change (bytes_of_string (itoa (Zpos p))) with (bytes_of_string (pretty_N_go (Npos p) "")). rewrite E, app_nil_r. split_and!; [done|constructor; [unfold digit; lia|done]|by rewrite Hv].
Qed.

Lemma digits_ink ds : Forall digit ds → Forall ink ds.
Proof. intros H. eapply Forall_impl; [exact H|]. unfold digit, ink. lia. Qed.

(** The order of an id that is a number. *)
Lemma order_of_name n : (0 ≤ n < reviewRoundIDLimit)%Z → reviewRoundOrder ("r" +:+ itoa n) = n.
Proof.
  intros [H0 Hn]. unfold reviewRoundOrder. change (strip_r ("r" +:+ itoa n)) with (itoa n). destruct (itoa_nonneg n H0) as (d & ds & E & Hd & Hv). unfold Trim. rewrite E. rewrite firm_trim by (apply inked_firm; [done|by apply digits_ink]).
  rewrite <- E, string_of_bytes_of_string, E. unfold signed_digits. assert (48 ≤ d ≤ 57)%Z as Hr by (by apply Forall_cons_1 in Hd as [? _]).
  assert ((digits (d :: ds)).1 = d :: ds) as Hds by (rewrite <- (app_nil_r (d :: ds)) at 1; by rewrite digits_app).
  assert (match d :: ds with 43 :: t => (false, t) | 45 :: t => (true, t) | _ => (false, d :: ds) end%Z = (false, d :: ds)) as Hm.
  { destruct (decide (d = 43)%Z) as [->|]; [lia|]. destruct (decide (d = 45)%Z) as [->|]; [lia|]. repeat case_match; congruence. }
  rewrite Hm, Hds, Hv. by apply nearest_exact.
Qed.

Lemma order_bound id : (reviewRoundOrder id ≤ max_order)%Z.
Proof. unfold reviewRoundOrder. destruct (signed_digits _); [apply nearest_bound|]. by vm_compute. Qed.

Lemma highest_from rounds h : (h ≤ foldl (λ h r, Z.max h (reviewRoundOrder (RoundID r))) h rounds)%Z ∧
  (∀ r, r ∈ rounds → reviewRoundOrder (RoundID r) ≤ foldl (λ h r, Z.max h (reviewRoundOrder (RoundID r))) h rounds)%Z ∧
  (h ≤ max_order → foldl (λ h r, Z.max h (reviewRoundOrder (RoundID r))) h rounds ≤ max_order)%Z.
Proof.
  revert h. induction rounds as [|r rounds IH]; intros h; simpl; [split_and!; [lia|by intros r []%elem_of_nil|done]|].
  destruct (IH (Z.max h (reviewRoundOrder (RoundID r)))) as (H1 & H2 & H3). split_and!; [lia| |].
  - intros x [->|Hx]%elem_of_cons; [lia|by apply H2].
  - intros Hh. apply H3. pose proof (order_bound (RoundID r)). lia.
Qed.

Lemma highest_bounds p : (0 ≤ highest_order p ≤ max_order)%Z ∧ ∀ r, r ∈ ReviewRounds p → (reviewRoundOrder (RoundID r) ≤ highest_order p)%Z.
Proof. destruct (highest_from (ReviewRounds p) 0) as (H1 & H2 & H3). split; [split; [done|apply H3; by vm_compute]|done]. Qed.

(** A minted id is new, and it comes after every stored one. *)
Lemma minted_id F p id : reviewNextRoundID F p = inr id →
  id ∉ RoundID <$> ReviewRounds p ∧ id = "r" +:+ itoa (highest_order p + 1) ∧ (highest_order p + 1 < reviewRoundIDLimit)%Z ∧ ∀ r, r ∈ ReviewRounds p → (reviewRoundOrder (RoundID r) < reviewRoundOrder id)%Z.
Proof.
  destruct (highest_bounds p) as [Hh Hall]. unfold reviewNextRoundID. set (n := nearest (highest_order p + 1)). case_bool_decide as Hin; [done|]. destruct (Z.leb_spec reviewRoundIDLimit n) as [|Hlt]; [done|]. intros [= <-].
  destruct (nearest_succ _ Hh) as [Hn|]; [|lia]. fold n in Hn. assert (round_name F n = "r" +:+ itoa (highest_order p + 1)) as En by (unfold round_name; rewrite (proj2 (Z.ltb_lt _ _)) by lia; by rewrite Hn).
  split_and!; [done|done|lia|]. intros r Hr. rewrite En, order_of_name by lia. specialize (Hall r Hr). lia.
Qed.

(** An id is minted whenever the next number is exact. *)
Lemma minted_exact F p : (highest_order p + 1 < reviewRoundIDLimit)%Z → ∃ id, reviewNextRoundID F p = inr id.
Proof.
  intros Hlt. destruct (highest_bounds p) as [Hh Hall]. unfold reviewNextRoundID, round_name. rewrite (nearest_exact (highest_order p + 1)) by (unfold reviewRoundIDLimit in Hlt; lia).
  rewrite (proj2 (Z.ltb_lt _ _)), (proj2 (Z.leb_gt _ _)) by lia. case_bool_decide as Hin; [|eauto]. apply list_elem_of_fmap in Hin as (r & E & Hr). specialize (Hall r Hr). rewrite <- E, order_of_name in Hall by lia. lia.
Qed.
