(* ===== verification/GoalRounds.v ===== *)
(** * GoalRounds: the review rounds of a goal plan over any sequence of operations.

    A round moves on its own ([round_move]); an operation on the plan moves rounds of one purpose and may open one more ([review_step]). The binding of a round is a step of its own: [send_round] binds
    the round [OpenRound] answers, which is pending. *)
From S2P Require Import Prelude GoLib Sha256 Json Loads Utf8 JsonText JsonRoundtrip GoFloat GoPath JsText Attest Fsm GrammarProps GoalTypes GoalQuery GoalOps GoalSteer GoalGate GoalSound GoalKeep GoalRevive GoalReview GoalReviewProps.
From stdpp Require Import relations.
Local Open Scope string_scope.

Definition closed_round (r : ReviewRoundState) : bool := reviewTerminal (RoundStatus r).

Section moves.
(** The verdicts that are handed in, and the files a round is bound to. *)
Context (Allowed : VerdictInput + list (string * string) → Prop).

(** ** One round *)
Inductive round_move : relation ReviewRoundState :=
| move_rehash r sha : RoundStatus r = ReviewPending → sha ≠ "" → round_move r (rehashed sha r)
| move_bound r session workPhase unit epoch files : RoundStatus r = ReviewPending → Allowed (inr files) → round_move r (bind_round session workPhase unit epoch files r)
| move_launching r workspace : RoundStatus r = ReviewPending → round_move r (moved r ReviewLaunching (RoundClosedAt r) (with_workspace (Lane r) workspace))
| move_in_flight r : RoundStatus r = ReviewLaunching → round_move r (moved r ReviewInFlight (RoundClosedAt r) (Lane r))
| move_judged r input now : RoundStatus r = ReviewInFlight → Allowed (inl input) → round_move r (moved r (judged_status (VVerdict input)) (Some now) (judged_lane (Lane r) input))
| move_retired r now : closed_round r = false → round_move r (retired now r)
| move_superseded r now by_ : closed_round r = false → round_move r (superseded_round now by_ r)
| move_aborted r reason now : closed_round r = false → round_move r (moved r ReviewInconclusive (Some now) (aborted_lane (Lane r) reason)).

(** How far a round has come. *)
Definition stage (r : ReviewRoundState) : nat := match RoundStatus r with ReviewPending => 0 | ReviewLaunching => 1 | ReviewInFlight => 2 | _ => 3 end.

(** What a round is about never changes. *)
Definition subject (r : ReviewRoundState) : string * ReviewPurpose * string * string * string := (RoundID r, Purpose r, RoundPlanPath r, LaunchID (Lane r), OpenedAt r).

Lemma closed_stage r : closed_round r = true ↔ stage r = 3.
Proof. unfold closed_round, stage. destruct (RoundStatus r); simpl; split; congruence. Qed.

Lemma move_open r r' : round_move r r' → closed_round r = false.
Proof. unfold closed_round. destruct 1 as [r sha E|r ? ? ? ? ? E _|r w E|r E|r i n E _| | |]; try done; by rewrite E. Qed.

Lemma move_subject r r' : round_move r r' → subject r' = subject r.
Proof. by destruct 1. Qed.

Lemma move_stage r r' : round_move r r' → (stage r ≤ stage r')%nat.
Proof. pose proof closed_stage r. destruct 1 as [r sha E|r ? ? ? ? ? E _|r w E|r E|r i n E _| | |]; unfold stage; simpl; try rewrite E; try lia; try destruct (VVerdict i); simpl; destruct (RoundStatus r); simpl; lia. Qed.

(** The document of a round is fixed once it was launched. *)
Lemma move_hash r r' : round_move r r' → PlanSha256 r' = PlanSha256 r ∨ RoundStatus r = ReviewPending.
Proof. destruct 1; simpl; auto. Qed.

(** A judgement is of a round that was in flight. *)
Lemma move_judgement r r' : round_move r r' → LaneVerdict (Lane r') ≠ LaneVerdict (Lane r) → RoundStatus r = ReviewInFlight.
Proof. by destruct 1; simpl. Qed.

(** ** The rounds of a plan *)
Definition kept_for (u : ReviewPurpose) (r r' : ReviewRoundState) : Prop := r' = r ∨ Purpose r = u ∧ round_move r r'.

Inductive review_step (F : Z → string) (p : Goalplan) : Goalplan → Prop :=
| step_open input now q r : OpenRound F p input now = ReviewOK q r → review_step F p q
| step_bound launch session workPhase unit epoch files i r q : RoundByLaunchID p PurposePlanAudit launch = Some (i, r) → RoundStatus r = ReviewPending → Allowed (inr files) →
    reviewRoundRunBound p launch session workPhase unit epoch files = Some q → review_step F p q
| step_launching u id launch workspace q r : MarkLaunching p u id launch workspace = ReviewOK q r → review_step F p q
| step_in_flight u id launch q r : MarkInFlight p u id launch = ReviewOK q r → review_step F p q
| step_verdict input now q r : Allowed (inl input) → RecordVerdict p input now = ReviewOK q r → review_step F p q
| step_stale u session epoch now : review_step F p (SupersedeStaleRounds p u session epoch now).1
| step_supersede u session keep ids closedAt by_ now : review_step F p (SupersedeRounds p u session keep ids closedAt by_ now).1
| step_abort u reason now q r : AbortRound p u reason now = ReviewOK q r → review_step F p q.

Lemma insert_kept u rounds i r r' : rounds !! i = Some r → Purpose r = u → round_move r r' → Forall2 (kept_for u) rounds (reviewReplaceRound rounds i r').
Proof.
  intros Hi Hu Hm. unfold reviewReplaceRound. apply Forall2_same_length_lookup_2; [by rewrite length_insert|]. intros j x y Hx Hy. destruct (decide (i = j)) as [->|Hne].
  - rewrite list_lookup_insert_eq in Hy by (by eapply lookup_lt_Some). right. naive_solver.
  - rewrite list_lookup_insert_ne in Hy by done. left. congruence.
Qed.

Lemma map_kept u (chosen : ReviewRoundState → bool) close rounds : (∀ r, chosen r = true → Purpose r = u ∧ round_move r (close r)) → Forall2 (kept_for u) rounds ((λ r, if chosen r then close r else r) <$> rounds).
Proof. intros H. rewrite Forall2_fmap_r. apply Forall_Forall2_diag, Forall_forall. intros r _. change (kept_for u r (if chosen r then close r else r)). destruct (chosen r) eqn:E; [right; by apply H|by left]. Qed.

Lemma advanced p u id launch expect mutate clear q r : reviewAdvance p u id launch expect mutate clear = ReviewOK q r →
  ∃ i r0, reviewRequireRound p u id launch = inr (i, r0) ∧ RoundStatus r0 = expect ∧ r = mutate r0 ∧ q = reviewWithRounds p (reviewReplaceRound (ReviewRounds p) i r) u (if clear then None else Some id).
Proof. unfold reviewAdvance. destruct (reviewRequireRound p u id launch) as [res|[i r0]] eqn:E; [intros ->; unfold reviewRequireRound in E; repeat case_match; congruence|]. case_bool_decide; [|done]. cbn [negb]. intros [= <- <-]. eauto 10. Qed.

(** The plan after a step: rounds of one purpose have moved, and one round may be new. *)
Inductive reviewed (F : Z → string) (p : Goalplan) : Goalplan → Prop :=
| reviewed_same : reviewed F p p
| reviewed_moved u rounds cursor : Forall2 (kept_for u) (ReviewRounds p) rounds → reviewed F p (reviewWithRounds p rounds u cursor)
| reviewed_opened input rounds id now : Forall2 (kept_for (OpenPurpose input)) (ReviewRounds p) rounds → reviewNextRoundID F p = inr id → OpenPlanSha256 input ≠ "" → OpenPlanPath input ≠ "" →
    reviewed F p (reviewWithRounds p (rounds ++ [new_round input id now])%list (OpenPurpose input) (Some id)).

Lemma retire_kept u now rounds : Forall2 (kept_for u) rounds ((λ r, if open_round u r then retired now r else r) <$> rounds).
Proof. apply map_kept. intros r [Hu Ho]%open_round_open. split; [done|by constructor]. Qed.

Lemma opened_reviewed F p input now q r : OpenRound F p input now = ReviewOK q r → reviewed F p q.
Proof.
  unfold OpenRound. case_bool_decide as Hs; [done|]. case_bool_decide as Hp; [done|]. assert (append_round F p input now = ReviewOK q r → reviewed F p q) as Happ.
  { unfold append_round. destruct (reviewNextRoundID F p) as [reason|id] eqn:En; [done|]. intros [= <- _]. apply reviewed_opened; [apply retire_kept|done..]. }
  destruct (EffectiveRound p (OpenPurpose input)) as [[i live]|] eqn:Ee; [|done]. apply effective_open in Ee as [Hi [Hu Ho]%open_round_open]. destruct (_ && _) eqn:Eb; [|done].
  apply andb_true_iff in Eb as [Hst%bool_decide_eq_true _]. intros [= <- _]. apply reviewed_moved, (insert_kept _ _ _ live); [done|done|by constructor].
Qed.

Lemma advanced_reviewed F p u id launch expect mutate clear q r : (∀ r, RoundStatus r = expect → round_move r (mutate r)) → reviewAdvance p u id launch expect mutate clear = ReviewOK q r → reviewed F p q.
Proof.
  intros Hm (i & r0 & (Hl & _)%required_round & Hst & -> & ->)%advanced. apply launch_round in Hl as (Hi & Hu & _). apply reviewed_moved, (insert_kept _ _ _ r0); [done|done|by apply Hm].
Qed.

Lemma closing_kept u chosen close rounds : (∀ r, chosen r = true → open_round u r = true) → (∀ r, closed_round r = false → round_move r (close r)) → Forall2 (kept_for u) rounds (close_rounds chosen close rounds).1.
Proof. intros Hc Hm. apply map_kept. intros r Hr. apply Hc, open_round_open in Hr as [Hu Ho]. split; [done|by apply Hm]. Qed.

Lemma stale_open u session epoch r : open_round u r && owned_by session r && bool_decide (PlanEpoch r = epoch) = true → open_round u r = true.
Proof. by intros [[H _]%andb_true_iff _]%andb_true_iff. Qed.

Lemma obsolete_open u session keep (ids : list string) r : obsolete u session keep r && bool_decide (RoundID r ∈ ids) = true → open_round u r = true.
Proof. unfold obsolete. by intros [[[[H _]%andb_true_iff _]%andb_true_iff _]%andb_true_iff _]%andb_true_iff. Qed.

Lemma step_reviewed F p q : review_step F p q → reviewed F p q.
Proof.
  destruct 1 as [input now q r E|launch session workPhase unit epoch files i r q Hl Hst Ha E|u id launch ws q r E|u id launch q r E|input now q r Ha E|u session epoch now|u session keep ids closedAt by_ now|u reason now q r E].
  - by eapply opened_reviewed.
  - unfold reviewRoundRunBound in E. rewrite Hl in E. injection E as <-. apply launch_round in Hl as (Hi & Hu & _). apply reviewed_moved, (insert_kept _ _ _ r); [done|done|by constructor].
  - eapply advanced_reviewed, E. intros x Hx. by constructor.
  - eapply advanced_reviewed, E. intros x Hx. by constructor.
  - eapply advanced_reviewed, E. intros x Hx. by constructor.
  - unfold SupersedeStaleRounds. case_bool_decide; [constructor|]. match goal with |- context [close_rounds ?c ?f ?l] => pose proof (closing_kept u c f l) as Hk; destruct (close_rounds c f l) as [rounds closed] end.
    case_bool_decide; [constructor|]. apply reviewed_moved, Hk; [intros r; apply stale_open|by constructor].
  - unfold SupersedeRounds. generalize (if bool_decide (closedAt = "") then now else closedAt) as at_. intros at_. match goal with |- context [close_rounds ?c ?f ?l] => pose proof (closing_kept u c f l) as Hk; destruct (close_rounds c f l) as [rounds closed] end.
    case_bool_decide; [constructor|]. apply reviewed_moved, Hk; [intros r; apply obsolete_open|by constructor].
  - unfold AbortRound in E. destruct (EffectiveRound p u) as [[i live]|] eqn:Ee; [|done]. apply effective_open in Ee as [Hi [Hu Ho]%open_round_open]. injection E as <- _. apply reviewed_moved, (insert_kept _ _ _ live); [done|done|by constructor].
Qed.

Lemma kept_subject u r r' : kept_for u r r' → subject r' = subject r.
Proof. intros [->|[_ H]]; [done|by apply move_subject]. Qed.

(** ** What happened stays *)
Record history (r r' : ReviewRoundState) : Prop := {
  h_subject : subject r' = subject r;
  h_stage : (stage r ≤ stage r')%nat;
  h_closed : closed_round r = true → r' = r;
  h_hash : RoundStatus r ≠ ReviewPending → PlanSha256 r' = PlanSha256 r
}.

Lemma history_refl r : history r r.
Proof. by constructor. Qed.

Lemma history_move r r' : round_move r r' → history r r'.
Proof. intros H. constructor; [by apply move_subject|by apply move_stage|intros Hc; by rewrite (move_open _ _ H) in Hc|destruct (move_hash _ _ H); done]. Qed.

Lemma stage_pending r : RoundStatus r = ReviewPending ↔ stage r = 0.
Proof. unfold stage. destruct (RoundStatus r); simpl; split; congruence. Qed.

Lemma history_trans x y z : history x y → history y z → history x z.
Proof.
  intros [s1 g1 c1 h1] [s2 g2 c2 h2]. constructor; [congruence|lia|intros Hc; specialize (c1 Hc); subst y; by apply c2|].
  intros Hx. rewrite h2; [by apply h1|]. rewrite stage_pending in Hx |- *. lia.
Qed.

Definition rounds_later (p q : Goalplan) : Prop := ∀ i r, ReviewRounds p !! i = Some r → ∃ r', ReviewRounds q !! i = Some r' ∧ history r r'.

Lemma kept_later u rounds rounds' more i r : Forall2 (kept_for u) rounds rounds' → rounds !! i = Some r → ∃ r', (rounds' ++ more)%list !! i = Some r' ∧ history r r'.
Proof.
  intros HF Hi. destruct (Forall2_lookup_l _ _ _ _ _ HF Hi) as (r' & Hr' & Hk). exists r'. split; [by apply lookup_app_l_Some|]. destruct Hk as [->|[_ Hm]]; [apply history_refl|by apply history_move].
Qed.

Lemma reviewed_later F p q : reviewed F p q → rounds_later p q.
Proof.
  destruct 1 as [|u rounds cursor HF|input rounds id now HF Hid]; intros i r Hi; [by exists r; split; [|apply history_refl]| |].
  - simpl. rewrite <- (app_nil_r rounds). by eapply kept_later.
  - by eapply kept_later.
Qed.

Lemma steps_later F p q : rtc (review_step F) p q → rounds_later p q.
Proof.
  induction 1 as [p|p x q Hs _ IH]; intros i r Hi; [by exists r; split; [|apply history_refl]|]. destruct (reviewed_later F p x (step_reviewed _ _ _ Hs) i r Hi) as (y & Hy & H1). destruct (IH i y Hy) as (z & Hz & H2). exists z. split; [done|by eapply history_trans].
Qed.

(** ** The rounds of a plan are in order *)
(** A round is minted with its own id, has a document, is closed exactly when it has a time of closing, and a verdict it has is the one its status tells. *)
Record round_good (r : ReviewRoundState) : Prop := {
  g_launch : LaunchID (Lane r) = reviewMintLaunchID (RoundID r) (OpenedAt r);
  g_document : PlanSha256 r ≠ "" ∧ RoundPlanPath r ≠ "";
  g_closed : closed_round r = true ↔ is_Some (RoundClosedAt r);
  g_verdict : match LaneVerdict (Lane r) with Some v => RoundStatus r = judged_status v | None => RoundStatus r ≠ ReviewApproved ∧ RoundStatus r ≠ ReviewChangesRequested end
}.

Record rounds_ordered (p : Goalplan) : Prop := {
  ok_ids : NoDup (RoundID <$> ReviewRounds p);
  ok_good : Forall round_good (ReviewRounds p);
  ok_latest : ∀ r x, r ∈ ReviewRounds p → x ∈ ReviewRounds p → Purpose x = Purpose r → closed_round r = false → RoundID x = RoundID r ∨ (reviewRoundOrder (RoundID x) < reviewRoundOrder (RoundID r))%Z;
  ok_cursor : ∀ u id, reviewCursor p u = Some id ↔ ∃ r, r ∈ ReviewRounds p ∧ open_round u r = true ∧ RoundID r = id
}.

Lemma judged_closed v : reviewTerminal (judged_status v) = true.
Proof. by destruct v. Qed.

Lemma open_unjudged r : round_good r → closed_round r = false → LaneVerdict (Lane r) = None.
Proof. intros [_ _ _ Hv] Ho. destruct (LaneVerdict (Lane r)) as [v|]; [|done]. unfold closed_round in Ho. by rewrite Hv, judged_closed in Ho. Qed.

Lemma move_good r r' : round_move r r' → round_good r → round_good r'.
Proof.
  intros Hm Hg. pose proof (move_open _ _ Hm) as Ho. pose proof (open_unjudged _ Hg Ho) as Hv. destruct Hg as [Hl [Hs Hp] Hc _]. rewrite Ho in Hc. assert (RoundClosedAt r = None) as Hn by (destruct (RoundClosedAt r) as [t|]; [|done]; discriminate (proj2 Hc (mk_is_Some _ _ eq_refl))).
  destruct Hm as [r sha E|r ? ? ? ? ? E _|r w E|r E|r input now E _|r now E|r now by_ E|r reason now E]; (constructor; simpl; [done|done| |try rewrite Hv]); unfold closed_round; simpl; rewrite ?E, ?Hn, ?judged_closed; try done; try (split; [by eauto|done]); try (split; [done|by intros [? ?]]).
Qed.

Lemma kept_good u rounds rounds' : Forall2 (kept_for u) rounds rounds' → Forall round_good rounds → Forall round_good rounds'.
Proof. induction 1 as [|r r' rounds rounds' Hk _ IH]; [done|]. intros [Hg Hgs]%Forall_cons_1. constructor; [|by apply IH]. destruct Hk as [->|[_ Hm]]; [done|by eapply move_good]. Qed.

Lemma kept_ids u rounds rounds' : Forall2 (kept_for u) rounds rounds' → RoundID <$> rounds' = RoundID <$> rounds.
Proof. induction 1 as [|r r' rounds rounds' Hk _ IH]; [done|]. csimpl. rewrite IH. apply kept_subject in Hk. unfold subject in Hk. congruence. Qed.

Lemma kept_back u rounds rounds' x : Forall2 (kept_for u) rounds rounds' → x ∈ rounds' → ∃ r, r ∈ rounds ∧ kept_for u r x.
Proof. intros HF (i & Hi)%list_elem_of_lookup. destruct (Forall2_lookup_r _ _ _ _ _ HF Hi) as (r & Hr & Hk). exists r. split; [by eapply list_elem_of_lookup_2|done]. Qed.

Lemma kept_there u rounds rounds' r : Forall2 (kept_for u) rounds rounds' → r ∈ rounds → ∃ x, x ∈ rounds' ∧ kept_for u r x.
Proof. intros HF (i & Hi)%list_elem_of_lookup. destruct (Forall2_lookup_l _ _ _ _ _ HF Hi) as (x & Hx & Hk). exists x. split; [by eapply list_elem_of_lookup_2|done]. Qed.

Lemma kept_facts u r x : kept_for u r x → RoundID x = RoundID r ∧ Purpose x = Purpose r ∧ (closed_round x = false → closed_round r = false).
Proof. intros Hk. pose proof (kept_subject _ _ _ Hk) as Hs. unfold subject in Hs. split_and!; [congruence|congruence|]. destruct Hk as [->|[_ Hm]]; [done|intros _; by eapply move_open]. Qed.

Lemma same_round p r x : rounds_ordered p → r ∈ ReviewRounds p → x ∈ ReviewRounds p → RoundID r = RoundID x → r = x.
Proof.
  intros Hok (i & Hi)%list_elem_of_lookup (j & Hj)%list_elem_of_lookup E. assert (i = j) as ->; [|congruence]. eapply (NoDup_lookup _ i j); [apply (ok_ids _ Hok)|by rewrite list_lookup_fmap, Hi|]. rewrite list_lookup_fmap, Hj. simpl. by rewrite E.
Qed.

(** There is at most one open round of each purpose. *)
Lemma one_open p u r x : rounds_ordered p → r ∈ ReviewRounds p → x ∈ ReviewRounds p → open_round u r = true → open_round u x = true → r = x.
Proof.
  intros Hok Hr Hx [Ur Or]%open_round_open [Ux Ox]%open_round_open. apply (same_round p); [done..|]. destruct (ok_latest _ Hok r x Hr Hx) as [|H1]; [congruence|done|done|]. destruct (ok_latest _ Hok x r Hx Hr) as [|H2]; [congruence|done..|]. lia.
Qed.

Lemma purpose_other u v p rounds cursor : u ≠ v → reviewCursor (reviewWithRounds p rounds u cursor) v = reviewCursor p v.
Proof. by destruct u, v. Qed.
Lemma purpose_same u p rounds cursor : reviewCursor (reviewWithRounds p rounds u cursor) u = cursor.
Proof. by destruct u. Qed.

(** Moving rounds of one purpose keeps the order, if the cursor is right. *)
Lemma moved_ok p u rounds cursor : rounds_ordered p → Forall2 (kept_for u) (ReviewRounds p) rounds → (∀ id, cursor = Some id ↔ ∃ r, r ∈ rounds ∧ open_round u r = true ∧ RoundID r = id) → rounds_ordered (reviewWithRounds p rounds u cursor).
Proof.
  intros Hok HF Hc. constructor; simpl.
  - rewrite (kept_ids _ _ _ HF). apply (ok_ids _ Hok).
  - apply (kept_good _ _ _ HF), (ok_good _ Hok).
  - intros r x (r0 & Hr0 & Hr)%(kept_back _ _ _ _ HF) (x0 & Hx0 & Hx)%(kept_back _ _ _ _ HF) Hu Ho. apply kept_facts in Hr as (Er & Ur & Or). apply kept_facts in Hx as (Ex & Ux & _). rewrite Er, Ex. apply (ok_latest _ Hok); [done..|congruence|by apply Or].
  - intros v id. destruct (decide (u = v)) as [<-|Hne]; [by rewrite purpose_same|]. rewrite purpose_other by done. rewrite (ok_cursor _ Hok). split.
    + intros (r & Hr & [Hv Ho]%open_round_open & E). destruct (kept_there _ _ _ _ HF Hr) as (x & Hx & [->|[Hu _]]); [|congruence]. exists r. split_and!; [done|by apply open_round_open|done].
    + intros (x & Hx & [Hv Ho]%open_round_open & E). destruct (kept_back _ _ _ _ HF Hx) as (r & Hr & Hk). pose proof (kept_facts _ _ _ Hk) as (_ & Up & _). destruct Hk as [->|[Hu _]]; [|congruence]. exists r. split_and!; [done|by apply open_round_open|done].
Qed.

(** The place of the open round is updated; it stays open, or it is closed. *)
Lemma replaced_ok p u i r r' cursor : rounds_ordered p → ReviewRounds p !! i = Some r → open_round u r = true → round_move r r' →
  cursor = (if closed_round r' then None else Some (RoundID r)) → rounds_ordered (reviewWithRounds p (reviewReplaceRound (ReviewRounds p) i r') u cursor).
Proof.
  intros Hok Hi Ho Hm ->. pose proof Ho as [Hu _]%open_round_open. pose proof (insert_kept u _ _ _ _ Hi Hu Hm) as HF. apply moved_ok; [done..|]. intros id. assert (r' ∈ reviewReplaceRound (ReviewRounds p) i r') as Hin by (apply (list_elem_of_lookup_2 _ i), list_lookup_insert_eq; by eapply lookup_lt_Some).
  assert (∀ x, x ∈ reviewReplaceRound (ReviewRounds p) i r' → open_round u x = true → x = r' ∧ closed_round r' = false) as Hone.
  { intros x Hx Hox. apply list_elem_of_lookup in Hx as (j & Hj). unfold reviewReplaceRound in Hj. destruct (decide (i = j)) as [<-|Hne].
    - rewrite list_lookup_insert_eq in Hj by (by eapply lookup_lt_Some). injection Hj as <-. split; [done|by apply open_round_open in Hox as [_ ?]].
    - rewrite list_lookup_insert_ne in Hj by done. exfalso. apply Hne. assert (r = x) as <- by (apply (one_open p u); [done|by eapply list_elem_of_lookup_2..|done|done]). eapply (NoDup_lookup (RoundID <$> ReviewRounds p)); [apply (ok_ids _ Hok)|by rewrite list_lookup_fmap, Hi|by rewrite list_lookup_fmap, Hj]. }
  pose proof (move_subject _ _ Hm) as Hs. unfold subject in Hs. split.
  - destruct (closed_round r') eqn:Ec; [done|]. intros [= <-]. exists r'. split_and!; [done|apply open_round_open; split; [congruence|done]|congruence].
  - intros (x & Hx & Hox & <-). destruct (Hone x Hx Hox) as [-> ->]. congruence.
Qed.

(** Closing some of the open rounds of a purpose closes the only one. *)
Lemma closing_ok p u chosen close rounds closed cursor : rounds_ordered p → (∀ r, chosen r = true → open_round u r = true) → (∀ r, closed_round r = false → round_move r (close r) ∧ closed_round (close r) = true) →
  close_rounds chosen close (ReviewRounds p) = (rounds, closed) → closed ≠ [] → cursor = None → rounds_ordered (reviewWithRounds p rounds u cursor).
Proof.
  intros Hok Hc Hm E Hne ->. pose proof (closing_kept u chosen close (ReviewRounds p) Hc (λ r Hr, proj1 (Hm r Hr))) as HF. rewrite E in HF. apply moved_ok; [done..|]. intros id. split; [done|]. intros (x & Hx & Hox & _). exfalso.
  unfold close_rounds in E. injection E as <- <-. destruct (filter (λ r, chosen r = true) (ReviewRounds p)) as [|y ys] eqn:Ef; [done|]. assert (chosen y = true ∧ y ∈ ReviewRounds p) as [Hy Hin] by (apply (list_elem_of_filter (λ r, chosen r = true)); rewrite Ef; apply list_elem_of_here).
  apply list_elem_of_fmap in Hx as (r & -> & Hr). destruct (chosen r) eqn:Er.
  - apply Hc, open_round_open in Er as [_ Or]. apply Hm in Or as [_ Cr]. apply open_round_open in Hox as [_ Hox]. unfold closed_round in Cr. congruence.
  - assert (r = y) as -> by (apply (one_open p u); auto). congruence.
Qed.

Lemma retired_closed u now (rounds : list ReviewRoundState) x : x ∈ ((λ r, if open_round u r then retired now r else r) <$> rounds) → open_round u x = false.
Proof. intros (r & -> & _)%list_elem_of_fmap. destruct (open_round u r) eqn:E; [|done]. unfold open_round. simpl. by rewrite andb_false_r. Qed.

Lemma new_good input id now : OpenPlanSha256 input ≠ "" → OpenPlanPath input ≠ "" → round_good (new_round input id now).
Proof. intros Hs Hp. constructor; simpl; [done|done|split; [done|by intros []]|done]. Qed.

Lemma appended_ok F p input now q r : rounds_ordered p → OpenPlanSha256 input ≠ "" → OpenPlanPath input ≠ "" → append_round F p input now = ReviewOK q r → rounds_ordered q.
Proof.
  intros Hok Hs Hp. unfold append_round. destruct (reviewNextRoundID F p) as [|id] eqn:En; [done|]. intros [= <- _]. apply minted_id in En as (Hnew & _ & _ & Hord).
  pose proof (retire_kept (OpenPurpose input) now (ReviewRounds p)) as HF. pose proof (retired_closed (OpenPurpose input) now (ReviewRounds p)) as Hcl. set (u := OpenPurpose input) in *. set (rounds := (λ r, if open_round u r then retired now r else r) <$> ReviewRounds p) in *.
  assert (rounds_ordered (reviewWithRounds p rounds u None)) as Hr by (apply moved_ok; [done..|]; intros id'; split; [done|]; intros (x & Hx & Hox & _); by rewrite (Hcl x Hx) in Hox).
  assert (∀ x, x ∈ rounds → RoundID x ≠ id ∧ (reviewRoundOrder (RoundID x) < reviewRoundOrder id)%Z) as Hx.
  { intros x (r0 & Hr0 & (-> & _)%kept_facts)%(kept_back _ _ _ _ HF). split; [|by apply Hord]. intros <-. apply Hnew, list_elem_of_fmap. eauto. }
  constructor; cbn [ReviewRounds reviewWithRounds].
  - rewrite fmap_app. apply NoDup_app. split_and!; [apply (ok_ids _ Hr)| |apply NoDup_singleton]. intros i (x & -> & Hin)%list_elem_of_fmap E%list_elem_of_singleton. by destruct (Hx x Hin).
  - apply Forall_app. split; [apply (ok_good _ Hr)|]. apply Forall_singleton. by apply new_good.
  - intros a b [Ha| ->%list_elem_of_singleton]%elem_of_app [Hb| ->%list_elem_of_singleton]%elem_of_app Hu Ho; [by apply (ok_latest _ Hr)| |right; by apply Hx|by left]. exfalso. assert (open_round u a = true) as Hoa by (apply open_round_open; split; [by symmetry|done]). by rewrite (Hcl a Ha) in Hoa.
  - intros v i. destruct (decide (u = v)) as [<-|Hne].
    + rewrite purpose_same. split.
      * intros [= <-]. exists (new_round input id now). split_and!; [apply elem_of_app; right; by apply list_elem_of_singleton|by apply open_round_open|done].
      * intros (x & [Hin| ->%list_elem_of_singleton]%elem_of_app & Hox & <-); [by rewrite (Hcl x Hin) in Hox|done].
    + pose proof (ok_cursor _ Hr v i) as Hc. rewrite purpose_other in Hc |- * by done. rewrite Hc. cbn [ReviewRounds reviewWithRounds]. split.
      * intros (x & Hin & Hrest). exists x. split; [apply elem_of_app; by left|done].
      * intros (x & [Hin| ->%list_elem_of_singleton]%elem_of_app & [Hv Hox]%open_round_open & E); [|by destruct Hne]. exists x. split_and!; [done|by apply open_round_open|done].
Qed.

Lemma opened_ok F p input now q r : rounds_ordered p → OpenRound F p input now = ReviewOK q r → rounds_ordered q.
Proof.
  intros Hok. unfold OpenRound. case_bool_decide as Hs; [done|]. case_bool_decide as Hp; [done|]. destruct (EffectiveRound p (OpenPurpose input)) as [[i live]|] eqn:Ee; [|by apply appended_ok]. apply effective_open in Ee as [Hi Ho].
  destruct (_ && _) eqn:Eb; [|by apply appended_ok]. apply andb_true_iff in Eb as [Hst%bool_decide_eq_true _]. intros [= <- _]. apply (replaced_ok p _ i live); [done..|by constructor|]. unfold closed_round. simpl. by rewrite Hst.
Qed.

Lemma advanced_ok p u id launch expect mutate clear q r : rounds_ordered p → reviewTerminal expect = false → (∀ r, RoundStatus r = expect → round_move r (mutate r) ∧ closed_round (mutate r) = clear) →
  reviewAdvance p u id launch expect mutate clear = ReviewOK q r → rounds_ordered q.
Proof.
  intros Hok He Hm (i & r0 & (Hl & <- & _)%required_round & Hst & -> & ->)%advanced. apply launch_round in Hl as (Hi & Hu & _). destruct (Hm r0 Hst) as [H1 H2].
  apply (replaced_ok p u i r0); [done|done|apply open_round_open; by rewrite Hst|done|]. rewrite H2. by destruct clear.
Qed.

Lemma step_ok F p q : rounds_ordered p → review_step F p q → rounds_ordered q.
Proof.
  intros Hok. destruct 1 as [input now q r E|launch session workPhase unit epoch files i r q Hl Hst Ha E|u id launch ws q r E|u id launch q r E|input now q r Ha E|u session epoch now|u session keep ids closedAt by_ now|u reason now q r E].
  - by eapply opened_ok.
  - unfold reviewRoundRunBound in E. rewrite Hl in E. injection E as <-. apply launch_round in Hl as (Hi & Hu & _). assert (open_round PurposePlanAudit r = true) as Ho by (apply open_round_open; by rewrite Hst).
    apply (replaced_ok p PurposePlanAudit i r); [done|done|done|by constructor|]. unfold closed_round. cbn [bind_round RoundStatus]. rewrite Hst. cbn [reviewTerminal].
    apply (ok_cursor _ Hok PurposePlanAudit). exists r. split_and!; [by eapply list_elem_of_lookup_2|done|done].
  - eapply advanced_ok, E; [done|done|]. intros x Hx. split; [by constructor|done].
  - eapply advanced_ok, E; [done|done|]. intros x Hx. split; [by constructor|done].
  - eapply advanced_ok, E; [done|done|]. intros x Hx. split; [by constructor|apply judged_closed].
  - unfold SupersedeStaleRounds. case_bool_decide; [done|]. destruct (close_rounds _ _ _) as [rounds closed] eqn:E. case_bool_decide; [done|]. eapply closing_ok, eq_refl; [done| | |exact E|done]; [intros r; apply stale_open|]. intros r Hr. split; [by constructor|done].
  - unfold SupersedeRounds. generalize (if bool_decide (closedAt = "") then now else closedAt) as at_. intros at_. destruct (close_rounds _ _ _) as [rounds closed] eqn:E. case_bool_decide as Hne; [done|]. eapply closing_ok; [done| | |exact E|done|]; [intros r; apply obsolete_open|intros r Hr; split; [by constructor|done]|].
    destruct (reviewCursor p u) as [c|] eqn:Ec; [|done]. rewrite bool_decide_true; [done|]. apply (ok_cursor _ Hok) in Ec as (r & Hr & Ho & <-). unfold close_rounds in E. injection E as _ <-.
    destruct (filter (λ r, _ = true) (ReviewRounds p)) as [|y ys] eqn:Ef; [done|]. assert (y ∈ filter (λ r, obsolete u session keep r && bool_decide (RoundID r ∈ ids) = true) (ReviewRounds p)) as Hy by (rewrite Ef; apply list_elem_of_here).
    apply list_elem_of_filter in Hy as [Hy Hin]. assert (r = y) as -> by (apply (one_open p u); [done|done|done|done|by eapply obsolete_open]). apply list_elem_of_here.
  - unfold AbortRound in E. destruct (EffectiveRound p u) as [[i live]|] eqn:Ee; [|done]. apply effective_open in Ee as [Hi Ho]. injection E as <- _. apply (replaced_ok p u i live); [done..|by constructor; apply open_round_open in Ho as [_ ?]|done].
Qed.

Lemma steps_ok F p q : rounds_ordered p → rtc (review_step F) p q → rounds_ordered q.
Proof. intros Hok. induction 1 as [|p x q Hs _ IH]; [done|]. by eapply IH, step_ok. Qed.

Lemma no_rounds_ordered p : ReviewRounds p = [] → ActivePlanAuditRoundID p = None → ActiveFinalGateRoundID p = None → rounds_ordered p.
Proof. intros Hr Ha Hf. constructor; rewrite Hr; [constructor|constructor|by intros r x []%elem_of_nil|]. intros u id. unfold reviewCursor. rewrite Ha, Hf. split; [by destruct u|by intros (r & []%elem_of_nil & _)]. Qed.

(** ** Launches *)
Lemma mint_dash id now : ∃ ds, bytes_of_string (reviewMintLaunchID id now) = (bytes_of_string id ++ 45%Z :: ds)%list ∧ 45%Z ∉ ds.
Proof.
  unfold reviewMintLaunchID. set (ds := take 14 _). exists ds. assert (∀ b, b ∈ ds → (48 ≤ b ≤ 57)%Z) as Hd.
  { intros b (i & Hi & _)%elem_of_take. apply list_elem_of_lookup_2, list_elem_of_filter in Hi as [Hi _]. by apply in_range_spec in Hi. }
  split; [|intros H%Hd; lia]. rewrite !bytes_of_string_app, bytes_of_string_of_bytes; [done|]. apply Forall_forall. intros b Hb%Hd. unfold is_byte. lia.
Qed.

Lemma last_dash {A} (c : A) a b x y : (a ++ c :: x = b ++ c :: y)%list → c ∉ x → c ∉ y → a = b.
Proof.
  intros E Hx Hy. apply app_eq_inv in E as [(k & -> & E)|(k & -> & E)]; (destruct k as [|d k]; [by rewrite app_nil_r|]); injection E as _ ->; exfalso; [apply Hy|apply Hx]; apply elem_of_app; right; apply list_elem_of_here.
Qed.

Lemma mint_inj id id' now now' : reviewMintLaunchID id now = reviewMintLaunchID id' now' → id = id'.
Proof.
  intros E. destruct (mint_dash id now) as (ds & E1 & H1), (mint_dash id' now') as (ds' & E2 & H2). rewrite E, E2 in E1. apply last_dash in E1; [|done..]. by rewrite <- (string_of_bytes_of_string id), <- E1, string_of_bytes_of_string.
Qed.

Lemma mint_nonempty id now : reviewMintLaunchID id now ≠ "".
Proof. intros E. destruct (mint_dash id now) as (ds & E1 & _). rewrite E in E1. by destruct (bytes_of_string id). Qed.

(** The launch of a round finds the round. *)
Lemma launch_finds p i r : rounds_ordered p → ReviewRounds p !! i = Some r → RoundByLaunchID p (Purpose r) (LaunchID (Lane r)) = Some (i, r).
Proof.
  intros Hok Hi. pose proof (ok_good _ Hok) as Hg. rewrite Forall_forall in Hg. pose proof (list_elem_of_lookup_2 _ _ _ Hi) as Hr. unfold RoundByLaunchID. rewrite bool_decide_false by (rewrite (g_launch _ (Hg _ Hr)); apply mint_nonempty).
  apply list_find_Some. split_and!; [done|done|done|]. intros j x Hj Hlt [_ E]. pose proof (list_elem_of_lookup_2 _ _ _ Hj) as Hx. rewrite (g_launch _ (Hg _ Hr)), (g_launch _ (Hg _ Hx)) in E. apply mint_inj in E.
  assert (j = i); [|lia]. eapply (NoDup_lookup (RoundID <$> ReviewRounds p)); [apply (ok_ids _ Hok)|by rewrite list_lookup_fmap, Hj|]. rewrite list_lookup_fmap, Hi. simpl. by rewrite E.
Qed.

Lemma advance_works p i r expect mutate clear : rounds_ordered p → ReviewRounds p !! i = Some r → RoundStatus r = expect → reviewTerminal expect = false →
  reviewAdvance p (Purpose r) (RoundID r) (LaunchID (Lane r)) expect mutate clear = ReviewOK (reviewWithRounds p (reviewReplaceRound (ReviewRounds p) i (mutate r)) (Purpose r) (if clear then None else Some (RoundID r))) (mutate r).
Proof.
  intros Hok Hi Hst He. unfold reviewAdvance. assert (reviewRequireRound p (Purpose r) (RoundID r) (LaunchID (Lane r)) = inr (i, r)) as ->; [|by rewrite bool_decide_true]. apply required_round. split_and!; [by apply launch_finds|done|].
  intros x Hx Hu. destruct (ok_latest _ Hok r x) as [E|]; [by eapply list_elem_of_lookup_2|done|done|unfold closed_round; by rewrite Hst|rewrite E; lia|lia].
Qed.

(** ** A review from its opening to its verdict *)
Lemma replaced_there rounds i (r r' : ReviewRoundState) : rounds !! i = Some r → reviewReplaceRound rounds i r' !! i = Some r'.
Proof. intros Hi. apply list_lookup_insert_eq. by eapply lookup_lt_Some. Qed.

Lemma opened_there F p input now q r : OpenRound F p input now = ReviewOK q r →
  ∃ i, ReviewRounds q !! i = Some r ∧ Purpose r = OpenPurpose input ∧ RoundStatus r = ReviewPending ∧ RoundPlanPath r = OpenPlanPath input ∧ PlanSha256 r = OpenPlanSha256 input.
Proof.
  unfold OpenRound. case_bool_decide; [done|]. case_bool_decide; [done|]. assert (append_round F p input now = ReviewOK q r → ∃ i, ReviewRounds q !! i = Some r ∧ Purpose r = OpenPurpose input ∧ RoundStatus r = ReviewPending ∧ RoundPlanPath r = OpenPlanPath input ∧ PlanSha256 r = OpenPlanSha256 input) as Happ.
  { unfold append_round. destruct (reviewNextRoundID F p) as [|id]; [done|]. intros [= <- <-]. eexists. split; [by apply list_lookup_middle|done]. }
  destruct (EffectiveRound p (OpenPurpose input)) as [[i live]|] eqn:Ee; [|done]. apply effective_open in Ee as [Hi [Hu _]%open_round_open]. destruct (_ && _) eqn:Eb; [|done]. apply andb_true_iff in Eb as [Hst%bool_decide_eq_true Hpath%bool_decide_eq_true]. intros [= <- <-].
  exists i. split; [by eapply replaced_there|done].
Qed.

(** A round can be opened while its number is exact. *)
Lemma open_works F p input now : OpenPlanSha256 input ≠ "" → OpenPlanPath input ≠ "" → (highest_order p + 1 < reviewRoundIDLimit)%Z → ∃ q r, OpenRound F p input now = ReviewOK q r.
Proof.
  intros Hs Hp Hn. unfold OpenRound. rewrite !bool_decide_false by done. assert (∃ q r, append_round F p input now = ReviewOK q r) as Happ by (unfold append_round; destruct (minted_exact F p Hn) as [id ->]; eauto).
  destruct (EffectiveRound p (OpenPurpose input)) as [[i live]|]; [|done]. destruct (_ && _); [eauto|done].
Qed.

Lemma no_effective p u : rounds_ordered p → reviewCursor p u = None → EffectiveRound p u = None.
Proof.
  intros Hok Hc. destruct (EffectiveRound p u) as [[i r]|] eqn:E; [|done]. apply effective_open in E as [Hi Ho]. assert (reviewCursor p u = Some (RoundID r)); [|congruence]. apply (ok_cursor _ Hok). exists r. split_and!; [by eapply list_elem_of_lookup_2|done|done].
Qed.

(** What the open round becomes is the latest round. *)
Lemma latest_replaced p i r r' cursor : rounds_ordered p → ReviewRounds p !! i = Some r → closed_round r = false → round_move r r' → LatestRound (reviewWithRounds p (reviewReplaceRound (ReviewRounds p) i r') (Purpose r) cursor) (Purpose r) = Some (i, r').
Proof.
  intros Hok Hi Ho Hm. pose proof (move_subject _ _ Hm) as Hs. unfold subject in Hs. unfold LatestRound. cbn [ReviewRounds reviewWithRounds]. set (rounds := reviewReplaceRound (ReviewRounds p) i r'). pose proof (replaced_there _ _ _ r' Hi) as Hi'.
  pose proof (best_round_best (λ x, bool_decide (Purpose x = Purpose r)) rounds) as Hb. destruct (best_round _ 0 None rounds) as [[j b]|].
  - destruct Hb as (Hj & Hu%bool_decide_eq_true & Hmax). destruct (decide (i = j)) as [<-|Hne]; [unfold rounds in Hj; congruence|exfalso]. unfold rounds, reviewReplaceRound in Hj. rewrite list_lookup_insert_ne in Hj by done.
    assert (reviewRoundOrder (RoundID r') ≤ reviewRoundOrder (RoundID b))%Z as Hle by (apply Hmax; [by eapply list_elem_of_lookup_2|apply bool_decide_eq_true; congruence]). replace (RoundID r') with (RoundID r) in Hle by congruence.
    destruct (ok_latest _ Hok r b) as [E|]; [by eapply list_elem_of_lookup_2..|done|done| |lia]. apply Hne. eapply (NoDup_lookup (RoundID <$> ReviewRounds p)); [apply (ok_ids _ Hok)|by rewrite list_lookup_fmap, Hi|]. rewrite list_lookup_fmap, Hj. simpl. by rewrite E.
  - assert (bool_decide (Purpose r' = Purpose r) = false) as H%bool_decide_eq_false by (apply (Hb r'); by eapply list_elem_of_lookup_2). congruence.
Qed.

(** ** Rounds and the work on the plan *)
Section life.
Context (FormatLarge : Z → string) (NumberString : float64 → string).

(** Anything that is done to a plan: an operation on its work, or on its rounds. *)
Inductive any_step (p q : Goalplan) : Prop :=
| step_work : goal_step NumberString p q → any_step p q
| step_review : review_step FormatLarge p q → any_step p q.

Lemma work_same_rounds p q : goal_step NumberString p q → ReviewRounds q = ReviewRounds p ∧ ∀ u, reviewCursor q u = reviewCursor p u.
Proof. intros H%goal_step_untouched. injection H as _ _ Hr Ha Hf. split; [done|]. by intros []. Qed.

Lemma any_step_ordered p q : rounds_ordered p → any_step p q → rounds_ordered q.
Proof.
  intros Hok [[Hr Hc]%work_same_rounds|Hs]; [|by eapply step_ok]. destruct Hok as [? ? ? ok]. constructor; rewrite Hr; [done..|]. intros u id. rewrite Hc. apply ok.
Qed.

Lemma review_keeps_sound p rounds u cursor : plan_sound p → plan_sound (reviewWithRounds p rounds u cursor).
Proof. intros H%structural_valid. apply structural_valid. exact H. Qed.

Lemma reviewed_sound p q : plan_sound p → reviewed FormatLarge p q → plan_sound q.
Proof. intros Hs [|u rounds cursor _|input rounds id now _ _ _ _]; [done|by apply review_keeps_sound..]. Qed.

Lemma any_step_sound p q : plan_sound p → any_step p q → plan_sound q.
Proof. intros Hs [H|H%step_reviewed]; [by eapply goal_step_keeps|by eapply reviewed_sound]. Qed.

Lemma any_step_later p q : any_step p q → rounds_later p q.
Proof. intros [[Hr _]%work_same_rounds|Hs%step_reviewed]; [|by eapply reviewed_later]. intros i r Hi. exists r. rewrite Hr. split; [done|apply history_refl]. Qed.

Definition new_ids (p q : Goalplan) : Prop := ∀ i r, ReviewRounds q !! i = Some r → ReviewRounds p !! i = None → RoundID r ∉ RoundID <$> ReviewRounds p.

Lemma reviewed_new p q : reviewed FormatLarge p q → new_ids p q.
Proof.
  destruct 1 as [|u rounds cursor HF|input rounds id now HF Hid]; intros i r Hq Hp; simpl in Hq; [congruence| |].
  - apply lookup_lt_Some in Hq. apply lookup_ge_None in Hp. rewrite (Forall2_length _ _ _ HF) in Hp. lia.
  - apply minted_id in Hid as [Hnew _]. apply lookup_ge_None in Hp. rewrite (Forall2_length _ _ _ HF) in Hp. rewrite lookup_app_r in Hq by done. by apply list_lookup_singleton_Some in Hq as [_ <-].
Qed.

Lemma any_step_new p q : any_step p q → new_ids p q.
Proof. intros [[Hr _]%work_same_rounds|Hs%step_reviewed]; [|by apply reviewed_new]. intros i r. rewrite Hr. congruence. Qed.

Lemma later_ids p q : rounds_later p q → ∀ id, id ∈ RoundID <$> ReviewRounds p → id ∈ RoundID <$> ReviewRounds q.
Proof.
  intros H id (r & -> & (i & Hi)%list_elem_of_lookup)%list_elem_of_fmap. destruct (H i r Hi) as (r' & Hr' & [Hs _ _ _]). unfold subject in Hs. apply list_elem_of_fmap. exists r'. split; [congruence|by eapply list_elem_of_lookup_2].
Qed.

Lemma steps_history p q : rtc any_step p q → rounds_later p q ∧ new_ids p q.
Proof.
  induction 1 as [p|p x q Hs _ [IHl IHn]]; [split; [intros i r Hi; exists r; split; [done|apply history_refl]|intros i r; congruence]|]. pose proof (any_step_later _ _ Hs) as Hl. pose proof (any_step_new _ _ Hs) as Hn. split.
  - intros i r Hi. destruct (Hl i r Hi) as (y & Hy & H1). destruct (IHl i y Hy) as (z & Hz & H2). exists z. split; [done|by eapply history_trans].
  - intros i r Hq Hp Hin. destruct (ReviewRounds x !! i) as [y|] eqn:Hy; [|by apply (IHn i r Hq Hy), (later_ids p x)]. destruct (IHl i y Hy) as (z & Hz & [Hsub _ _ _]). unfold subject in Hsub. apply (Hn i y Hy Hp). replace (RoundID y) with (RoundID r) by congruence. done.
Qed.

(** C9: whatever is done to a plan that began without rounds, work on the plan and reviews of it in any order (rounds opened, bound to their session and epoch, launched, judged, retired, superseded
    by a later epoch, aborted), the plan stays sound and its rounds stay in order: no two rounds share an id, each
    purpose has at most one open round, that round is the latest of its purpose and the cursor of the purpose names it, every round has a document and a launch of its own, and a round has a
    verdict exactly when its status says so. *)
Theorem reviews_stay_in_order p q : plan_sound p → ReviewRounds p = [] → ActivePlanAuditRoundID p = None → ActiveFinalGateRoundID p = None → rtc any_step p q →
  plan_sound q ∧ rounds_ordered q ∧ ∀ u r x, r ∈ ReviewRounds q → x ∈ ReviewRounds q → open_round u r = true → open_round u x = true → r = x.
Proof.
  intros Hs Hr Ha Hf Hq. assert (rounds_ordered p) as Hok by by apply no_rounds_ordered. assert (plan_sound q ∧ rounds_ordered q) as [H1 H2] by (clear Hr Ha Hf; induction Hq as [|p x q H _ IH]; [done|]; apply IH; [by eapply any_step_sound|by eapply any_step_ordered]).
  split_and!; [done|done|]. intros u r x. by apply one_open.
Qed.

(** C10: no operation rewrites the history of the reviews of a plan, not even one whose rounds were found in disorder. A round keeps its place, its id, its purpose, its document path and its
    launch; it only moves forward; the hash of its document is fixed once it was launched; a closed round never changes again; and a new round never takes an id that was used. *)
Theorem review_history_is_kept p q : rtc any_step p q →
  (∀ i r, ReviewRounds p !! i = Some r → ∃ r', ReviewRounds q !! i = Some r' ∧ history r r') ∧ (∀ i r, ReviewRounds q !! i = Some r → ReviewRounds p !! i = None → RoundID r ∉ RoundID <$> ReviewRounds p).
Proof. apply steps_history. Qed.
End life.
End moves.

(** C36: on a plan whose rounds are in order, a verdict is recorded exactly for the round that is in flight, named by its own id and its own launch, and it is written to that round alone; a verdict of a launch that was superseded,
    of a round that is not in flight, or of the other purpose changes nothing. *)
Theorem verdict_is_of_the_open_launch p input now q r : rounds_ordered p →
  RecordVerdict p input now = ReviewOK q r ↔
  ∃ i r0, ReviewRounds p !! i = Some r0 ∧ Purpose r0 = VPurpose input ∧ RoundID r0 = VRoundID input ∧ LaunchID (Lane r0) = VLaunchID input ∧ RoundStatus r0 = ReviewInFlight ∧
    r = moved r0 (judged_status (VVerdict input)) (Some now) (judged_lane (Lane r0) input) ∧ q = reviewWithRounds p (<[i := r]> (ReviewRounds p)) (VPurpose input) None.
Proof.
  intros Hok. split.
  - intros (i & r0 & (Hl & Hid & _)%required_round & Hst & Hr & Hq)%advanced. apply launch_round in Hl as (Hi & Hu & Hlaunch). by exists i, r0.
  - intros (i & r0 & Hi & Hu & Hid & Hl & Hst & -> & ->). unfold RecordVerdict. rewrite <- Hu, <- Hid, <- Hl. by apply (advance_works p i r0).
Qed.

(** A review of a document can always be brought to its verdict while the numbers of the rounds are exact: the round opens, its launch is marked, it is in flight, the verdict is recorded; then it
    is the latest round of its purpose, it holds the hash that was opened, and no round of the purpose is open. *)
Theorem review_can_be_completed FormatLarge p input opened workspace verdict artifact session source blockers findings now :
  rounds_ordered p → OpenPlanSha256 input ≠ "" → OpenPlanPath input ≠ "" → (highest_order p + 1 < reviewRoundIDLimit)%Z →
  let u := OpenPurpose input in
  ∃ q0 r0 q1 r1 q2 r2 q3 r3 i, OpenRound FormatLarge p input opened = ReviewOK q0 r0 ∧ let launch := LaunchID (Lane r0) in let id := RoundID r0 in
    MarkLaunching q0 u id launch workspace = ReviewOK q1 r1 ∧ MarkInFlight q1 u id launch = ReviewOK q2 r2 ∧
    RecordVerdict q2 (mkVerdict u id launch verdict artifact session source blockers findings) now = ReviewOK q3 r3 ∧
    RoundStatus r3 = judged_status verdict ∧ PlanSha256 r3 = OpenPlanSha256 input ∧ RoundPlanPath r3 = OpenPlanPath input ∧ LatestRound q3 u = Some (i, r3) ∧ EffectiveRound q3 u = None ∧ rounds_ordered q3.
Proof.
  intros Hok Hs Hp Hn u. destruct (open_works FormatLarge p input opened Hs Hp Hn) as (q0 & r0 & E0). pose proof (opened_ok (λ _, True) _ _ _ _ _ _ Hok E0) as K0. destruct (opened_there _ _ _ _ _ _ E0) as (i & I0 & U0 & S0 & P0 & H0). fold u in U0.
  pose proof (advance_works q0 i r0 ReviewPending (λ r, moved r ReviewLaunching (RoundClosedAt r) (with_workspace (Lane r) workspace)) false K0 I0 S0 eq_refl) as E1. rewrite U0 in E1.
  pose proof (step_ok (λ _, True) FormatLarge _ _ K0 (step_launching _ _ _ _ _ _ _ _ _ E1)) as K1. pose proof (replaced_there _ _ _ (moved r0 ReviewLaunching (RoundClosedAt r0) (with_workspace (Lane r0) workspace)) I0) as I1. set (r1 := moved r0 ReviewLaunching _ _) in *. match type of E1 with _ = ReviewOK ?q _ => set (q1 := q) in * end.
  pose proof (advance_works q1 i r1 ReviewLaunching (λ r, moved r ReviewInFlight (RoundClosedAt r) (Lane r)) false K1 I1 eq_refl eq_refl) as E2. change (Purpose r1) with (Purpose r0) in E2. rewrite U0 in E2.
  pose proof (step_ok (λ _, True) FormatLarge _ _ K1 (step_in_flight _ _ _ _ _ _ _ _ E2)) as K2. pose proof (replaced_there _ _ _ (moved r1 ReviewInFlight (RoundClosedAt r1) (Lane r1)) I1) as I2. set (r2 := moved r1 ReviewInFlight _ _) in *. match type of E2 with _ = ReviewOK ?q _ => set (q2 := q) in * end.
  set (w := mkVerdict u (RoundID r0) (LaunchID (Lane r0)) verdict artifact session source blockers findings). pose proof (advance_works q2 i r2 ReviewInFlight (λ r, moved r (judged_status (VVerdict w)) (Some now) (judged_lane (Lane r) w)) true K2 I2 eq_refl eq_refl) as E3.
  change (Purpose r2) with (Purpose r0) in E3. rewrite U0 in E3. pose proof (step_ok (λ _, True) FormatLarge _ _ K2 (step_verdict _ _ _ w now _ _ I E3)) as K3. match type of E3 with _ = ReviewOK ?q ?r => set (q3 := q) in *; set (r3 := r) in * end.
  exists q0, r0, q1, r1, q2, r2, q3, r3, i. cbv zeta. split_and!; [exact E0|exact E1|exact E2|exact E3|done|exact H0|exact P0| | |exact K3].
  - pose proof (latest_replaced (λ _, True) q2 i r2 r3 None K2 I2 eq_refl (move_judged (λ _, True) r2 w now eq_refl I)) as HL. change (Purpose r2) with (Purpose r0) in HL. rewrite U0 in HL. exact HL.
  - apply no_effective; [done|]. apply purpose_same.
Qed.
