(* ===== verification/GoalSignoff.v ===== *)
(** * GoalSignoff: the sign-off a reviewer ends with is read as it was written, and what is read of any message can be stored. *)
From S2P Require Import Prelude GoLib Sha256 Json Loads Utf8 JsonText JsonRoundtrip GoFloat GoPath JsText Attest Fsm GrammarProps GoalTypes GoalQuery GoalOps GoalSteer GoalGate GoalRevive GoalStored GoalReview GoalReviewProps.
Local Open Scope Z_scope.

(** ** Lines *)
Lemma split_lf_app a b cur : split_lf (a ++ 10 :: b) cur = split_lf a cur ++ split_lf b [].
Proof. revert cur. induction a as [|c a IH]; intros cur; [done|]. simpl. destruct (c =? 10); by rewrite IH. Qed.

Lemma split_lf_line l cur : 10 ∉ l → split_lf l cur = [cur ++ l].
Proof.
  revert cur. induction l as [|c l IH]; intros cur; [by rewrite app_nil_r|]. rewrite not_elem_of_cons. intros [Hc Hl]. simpl. rewrite (proj2 (Z.eqb_neq c 10)) by done. rewrite IH by done. by rewrite <- (assoc_L (++)).
Qed.

Lemma strip_crs_last lines a b : strip_crs (lines ++ [a; b]) = (trim_cr <$> lines) ++ [trim_cr a; b].
Proof. induction lines as [|l lines IH]; [done|]. rewrite fmap_cons. cbn [app]. rewrite <- IH. by destruct lines. Qed.

Lemma firm_no_cr s : firm s → trim_cr s = s.
Proof. intros [_ (c & t & -> & Hc)]. unfold trim_cr. rewrite last_snoc. unfold ink in Hc. destruct (decide (c = 13)) as [->|]; [lia|]. repeat case_match; congruence. Qed.

(** The last two lines of a message, when they are not blank. *)
Lemma last_lines body a b : firm a → firm b → 10 ∉ a → 10 ∉ b → ∃ rest, reverse (filter (λ l, l ≠ []) (TrimBytes <$> SplitLinesBytes (body ++ 10 :: a ++ 10 :: b))) = b :: a :: rest.
Proof.
  intros Ha Hb Na Nb. unfold SplitLinesBytes. rewrite !split_lf_app, (split_lf_line a), (split_lf_line b) by done. cbn [app]. rewrite strip_crs_last, fmap_app, filter_app, firm_no_cr by done. cbn [fmap list_fmap]. rewrite !firm_trim by done.
  rewrite !filter_cons_True, filter_nil; [|by destruct Hb as [(c & t & -> & _) _]|by destruct Ha as [(c & t & -> & _) _]]. rewrite reverse_app. by eexists.
Qed.

(** ** Texts without marks *)
Lemma cut_at_app m l r : m ∉ l → cut_at m (l ++ m :: r) = (l, Some r).
Proof. induction l as [|c l IH]; simpl; [by rewrite Z.eqb_refl|]. rewrite not_elem_of_cons. intros [Hc Hl]. rewrite (proj2 (Z.eqb_neq c m)) by done. by rewrite IH. Qed.
Lemma cut_at_none m l : m ∉ l → cut_at m l = (l, None).
Proof. induction l as [|c l IH]; simpl; [done|]. rewrite not_elem_of_cons. intros [Hc Hl]. rewrite (proj2 (Z.eqb_neq c m)) by done. by rewrite IH. Qed.
Lemma cut_suffix_snoc m l : cut_suffix m (l ++ [m]) = Some l.
Proof. unfold cut_suffix. rewrite last_snoc, Z.eqb_refl, length_app, Nat.add_sub. by rewrite take_app_length. Qed.

Lemma split_at_line m l : m ∉ l → split_at m l = [l].
Proof. induction l as [|c l IH]; [done|]. rewrite not_elem_of_cons. intros [Hc Hl]. simpl. rewrite (proj2 (Z.eqb_neq c m)) by done. by rewrite IH. Qed.
Lemma split_at_app m l r : m ∉ l → split_at m (l ++ m :: r) = l :: split_at m r.
Proof. induction l as [|c l IH]; simpl; [by rewrite Z.eqb_refl|]. rewrite not_elem_of_cons. intros [Hc Hl]. rewrite (proj2 (Z.eqb_neq c m)) by done. by rewrite IH. Qed.

Lemma after_label_app fold label s : fold <$> label = label → after_label fold label (label ++ s) = Some s.
Proof. induction label as [|c label IH]; [done|]. rewrite fmap_cons. intros [= Hc Hl]. simpl. rewrite Hc, Z.eqb_refl. by apply IH. Qed.

Lemma marked_firm mark s : ink mark → firm s → marked_value mark (mark :: s) = Some s.
Proof.
  intros Hm Hs. unfold marked_value. assert (firm (mark :: s)) as Hf by (split; [by exists mark, s|destruct Hs as [_ (c & t & -> & Hc)]; exists c, (mark :: t); done]). rewrite (firm_trim _ Hf), Z.eqb_refl, (firm_trim _ Hs). rewrite bool_decide_eq_false_2; [done|]. by destruct Hs as [(c & t & -> & _) _].
Qed.
Lemma marked_blank_firm mark s : ink mark → firm s → marked_value mark (mark :: 32 :: s) = Some s.
Proof.
  intros Hm Hs. unfold marked_value. assert (firm (mark :: 32 :: s)) as Hf by (split; [by exists mark, (32 :: s)|destruct Hs as [_ (c & t & -> & Hc)]; exists c, (mark :: 32 :: t); done]). rewrite (firm_trim _ Hf), Z.eqb_refl, (blank_firm_trim _ Hs). rewrite bool_decide_eq_false_2; [done|]. by destruct Hs as [(c & t & -> & _) _].
Qed.

(** ** The suffix of a verdict *)
(** A character of a finding: no blank, no parenthesis, no comma, no semicolon. *)
Definition finding_char (c : Z) : Prop := ink c ∧ c ∉ [40; 41; 44; 59].
(** A character between the parentheses and around the semicolon. *)
Definition inner_char (c : Z) : Prop := ink c ∧ c ∉ [40; 41; 59].

Lemma off_marks (c : Z) l : (∀ m, In m l → c ≠ m) → c ∉ l.
Proof. intros H Hin%list_elem_of_In. by destruct (H c Hin). Qed.

Lemma ref_byte c : letter_or_digit c || bool_decide (c ∈ [46; 95; 58; 47; 35; 45]) = true → finding_char c.
Proof.
  unfold letter_or_digit. rewrite !orb_true_iff, !in_range_spec, bool_decide_eq_true, list_elem_of_In. simpl. intros H. unfold finding_char, ink. split; [lia|]. apply off_marks. simpl. intros m Hm. lia.
Qed.

Lemma ref_chars s : ValidFindingRef s = true → bytes_of_string s ≠ [] ∧ Forall finding_char (bytes_of_string s).
Proof.
  unfold ValidFindingRef. destruct (bytes_of_string s) as [|b rest]; [done|]. rewrite !andb_true_iff. intros [[_ Hb] Hr]. split; [done|]. constructor; [apply ref_byte; by rewrite Hb|]. apply Forall_forall. intros c Hc. rewrite forallb_forall in Hr. apply ref_byte, Hr. by apply list_elem_of_In.
Qed.

Lemma digit_chars ds : Forall digit ds → Forall finding_char ds.
Proof. intros H. eapply Forall_impl; [exact H|]. intros c Hc. unfold digit in Hc. unfold finding_char, ink. split; [lia|]. apply off_marks. simpl. intros m Hm. lia. Qed.

Lemma finding_inner l : Forall finding_char l → Forall inner_char l.
Proof. intros H. eapply Forall_impl; [exact H|]. unfold finding_char, inner_char. intros c [Hi Hc]. split; [done|]. intros Hin. apply Hc. rewrite list_elem_of_In in Hin |- *. simpl in *. tauto. Qed.

Lemma chars_ink l : Forall inner_char l → Forall ink l.
Proof. intros H. eapply Forall_impl; [exact H|]. by intros c [? _]. Qed.

Lemma without {P : Z → Prop} m l : Forall P l → ¬ P m → m ∉ l.
Proof. rewrite Forall_forall. intros H Hm Hin. by apply Hm, H. Qed.

Lemma not_finding m : m ∈ [40; 41; 44; 59] → ¬ finding_char m.
Proof. by intros H [_ ?]. Qed.
Lemma not_inner m : m ∈ [40; 41; 59] → ¬ inner_char m.
Proof. by intros H [_ ?]. Qed.

Definition valid_refs (fs : list string) : Prop := Forall (λ s, ValidFindingRef s = true) fs.

Lemma joined_refs f fs : valid_refs (f :: fs) → let l := bytes_of_string (join_sep "," (f :: fs)) in l ≠ [] ∧ Forall inner_char l ∧ split_at 44 l = bytes_of_string <$> f :: fs.
Proof.
  revert f. induction fs as [|g fs IH]; intros f [[Hne Hf]%ref_chars Hfs]%Forall_cons_1.
  - simpl. split_and!; [done|by apply finding_inner|]. apply split_at_line, (without _ _ Hf), not_finding. set_solver.
  - destruct (IH g Hfs) as (_ & Hc & Hs). change (join_sep "," (f :: g :: fs)) with (f +:+ "," +:+ join_sep "," (g :: fs))%string. cbv zeta. rewrite !bytes_of_string_app. change (bytes_of_string ",") with [44]. cbn [app]. split_and!.
    + by destruct (bytes_of_string f).
    + apply Forall_app. split; [by apply finding_inner|]. constructor; [|done]. split; [unfold ink; lia|]. apply off_marks. simpl. intros m Hm. lia.
    + rewrite fmap_cons, <- Hs. apply split_at_app, (without _ _ Hf), not_finding. set_solver.
Qed.

Lemma refs_read fs : valid_refs fs → mapM trimmed_ref (bytes_of_string <$> fs) = Some fs.
Proof.
  induction 1 as [|f fs Hf _ IH]; [done|]. destruct (ref_chars _ Hf) as [Hne Hc]. assert (trimmed_ref (bytes_of_string f) = Some f) as Er by (unfold trimmed_ref; rewrite firm_trim by (apply inked_firm; [done|by apply chars_ink, finding_inner]); by rewrite string_of_bytes_of_string, Hf).
  rewrite fmap_cons. cbn [mapM]. rewrite Er. cbn [mbind option_bind]. by rewrite IH.
Qed.

Lemma short_counts : forallb (λ n, (length (bytes_of_string (itoa n)) <=? 4)%nat) (seqZ 1 9999) = true.
Proof. vm_compute. reflexivity. Qed.

Lemma count_read n : 1 ≤ n ≤ MaxBlockers → blocker_count (bytes_of_string ("blockers=" +:+ itoa n)%string) = Some n.
Proof.
  intros Hn. destruct (itoa_nonneg n ltac:(lia)) as (d & ds & E & Hd & Hv). pose proof (digit_chars _ Hd) as Hc. unfold blocker_count, verdictLineField. rewrite bytes_of_string_app, E. change (bytes_of_string "blockers=") with (bytes_of_string "blockers" ++ [61]). rewrite <- (assoc_L (++)). cbn [app].
  rewrite firm_trim. 2:{ split; [by exists 98, ([108; 111; 99; 107; 101; 114; 115] ++ 61 :: d :: ds)|]. assert (firm (d :: ds)) as [_ (c & t & -> & Hi)] by by apply inked_firm, chars_ink, finding_inner. exists c, (bytes_of_string "blockers" ++ 61 :: t). by rewrite <- (assoc_L (++)). }
  rewrite after_label_app by done. cbn [mbind option_bind]. rewrite marked_firm; [|by unfold ink|by apply inked_firm, chars_ink, finding_inner]. cbn [mbind option_bind].
  assert (length (d :: ds) ≤ 4)%nat as Hl. { pose proof short_counts as H. rewrite forallb_forall in H. specialize (H n). rewrite E in H. apply Nat.leb_le, H, list_elem_of_In, elem_of_seqZ. unfold MaxBlockers in Hn. lia. }
  rewrite (proj2 (Nat.ltb_ge _ _) Hl). assert (forallb (in_range 48 57) (d :: ds) = true) as ->. { apply forallb_forall. intros c Hin%list_elem_of_In. rewrite Forall_forall in Hd. apply in_range_spec. by apply Hd. }
  cbn [orb negb]. rewrite Hv. rewrite (proj2 (Z.ltb_ge n 1)), (proj2 (Z.ltb_ge MaxBlockers n)) by lia. done.
Qed.

Lemma findings_read f fs : valid_refs (f :: fs) → (length (f :: fs) ≤ MaxFindingRefs)%nat → finding_list (Some (bytes_of_string (" findings=" +:+ join_sep "," (f :: fs))%string)) = Some (f :: fs).
Proof.
  intros Hv Hn. destruct (joined_refs f fs Hv) as (Hne & Hc & Hs). rewrite bytes_of_string_app. change (bytes_of_string " findings=") with (32 :: bytes_of_string "findings" ++ [61]). rewrite <- app_comm_cons, <- (assoc_L (++)). cbn [app].
  set (l := bytes_of_string (join_sep "," (f :: fs))) in *. assert (firm l) as Hl by by apply inked_firm, chars_ink. unfold finding_list, verdictLineField. rewrite blank_firm_trim.
  2:{ split; [by exists 102, ([105; 110; 100; 105; 110; 103; 115] ++ 61 :: l)|]. destruct Hl as [_ (c & t & -> & Hi)]. exists c, (bytes_of_string "findings" ++ 61 :: t). by rewrite <- (assoc_L (++)). }
  rewrite after_label_app by done. cbn [mbind option_bind]. rewrite marked_firm; [|by unfold ink|done]. cbn [mbind option_bind]. rewrite Hs, length_fmap. rewrite (proj2 (Nat.ltb_ge _ _) Hn). by apply refs_read.
Qed.

(** What is between the parentheses. *)
Definition suffix_text (n : Z) (fs : list string) : list Z := bytes_of_string ("blockers=" +:+ itoa n)%string ++ (match fs with [] => [] | _ => 59 :: bytes_of_string (" findings=" +:+ join_sep "," fs)%string end).

Lemma suffix_bytes n fs : bytes_of_string (BlockerSuffix n fs) = 32 :: 40 :: suffix_text n fs ++ [41].
Proof.
  unfold BlockerSuffix, suffix_text. rewrite !bytes_of_string_app. change (bytes_of_string " (blockers=") with (32 :: 40 :: bytes_of_string "blockers="). rewrite <- !app_comm_cons. f_equal. f_equal. rewrite <- !(assoc_L (++)). f_equal. f_equal.
  destruct fs; [done|]. rewrite !bytes_of_string_app. done.
Qed.

Lemma count_chars n : 1 ≤ n → Forall inner_char (bytes_of_string ("blockers=" +:+ itoa n)%string).
Proof.
  intros Hn. destruct (itoa_nonneg n ltac:(lia)) as (d & ds & E & Hd & _). rewrite bytes_of_string_app, E. apply Forall_app. split; [|by apply finding_inner, digit_chars]. apply Forall_forall. intros c Hc%list_elem_of_In. change (bytes_of_string "blockers=") with [98; 108; 111; 99; 107; 101; 114; 115; 61] in Hc. simpl in Hc. split; [unfold ink; lia|]. apply off_marks. simpl. intros m Hm. lia.
Qed.

Lemma suffix_unmarked n fs m : 1 ≤ n → valid_refs fs → m = 40 ∨ m = 41 → m ∉ suffix_text n fs.
Proof.
  intros Hn Hv Hm. assert (¬ inner_char m) as Hi by (apply not_inner; apply list_elem_of_In; simpl; lia). unfold suffix_text. rewrite elem_of_app. intros [H|H]; [by apply (without m _ (count_chars n Hn))|]. destruct fs as [|f fs]; [by apply not_elem_of_nil in H|].
  apply elem_of_cons in H as [->|H]; [lia|]. rewrite bytes_of_string_app in H. apply elem_of_app in H as [H|H]; [apply list_elem_of_In in H; change (bytes_of_string " findings=") with [32; 102; 105; 110; 100; 105; 110; 103; 115; 61] in H; simpl in H; lia|]. destruct (joined_refs f fs Hv) as (_ & Hc & _). by apply (without m _ Hc).
Qed.

Lemma suffix_read n fs : 1 ≤ n ≤ MaxBlockers → findings_fit fs →
  (let '(count, refs) := cut_at 59 (suffix_text n fs) in blockers ← blocker_count count; findings ← finding_list refs; Some (mkLine VerdictNearPass blockers findings)) = Some (mkLine VerdictNearPass n fs).
Proof.
  intros Hn [Hv Hl]. assert (59 ∉ bytes_of_string ("blockers=" +:+ itoa n)%string) as Hc by (apply (without _ _ (count_chars n ltac:(lia))), not_inner; apply list_elem_of_In; simpl; lia). unfold suffix_text. destruct fs as [|f fs].
  - rewrite app_nil_r, cut_at_none by done. cbv zeta. rewrite count_read by done. done.
  - rewrite cut_at_app by done. rewrite count_read by done. cbn [mbind option_bind]. by rewrite findings_read.
Qed.

(** A word that says the work is good once its blockers are fixed, and the count of them. *)
Lemma decorated_read w n fs : w = "NEAR-PASS"%string ∨ w = "GO-WITH-FIXES"%string → 1 ≤ n ≤ MaxBlockers → findings_fit fs → parseVerdictLine (bytes_of_string (w +:+ BlockerSuffix n fs)%string) = Some (mkLine VerdictNearPass n fs).
Proof.
  intros Hw Hn Hf. rewrite bytes_of_string_app, suffix_bytes. replace (bytes_of_string w ++ 32 :: 40 :: suffix_text n fs ++ [41]) with ((bytes_of_string w ++ [32]) ++ 40 :: suffix_text n fs ++ [41]) by (by rewrite <- (assoc_L (++))).
  unfold parseVerdictLine. rewrite cut_at_app by (destruct Hw as [-> | ->]; by vm_compute; set_solver). assert (verdict_word_of (reviewVerdictUpper (TrimBytes (bytes_of_string w ++ [32]))) = Some VerdictNearPass) as -> by (destruct Hw as [-> | ->]; vm_compute; reflexivity).
  cbn [mbind option_bind]. rewrite bool_decide_eq_true_2 by done. cbn [negb]. rewrite cut_suffix_snoc. cbn [mbind option_bind]. destruct (existsb _ _) eqn:E; [|by apply suffix_read].
  apply existsb_exists in E as (m & Hm%list_elem_of_In & [?%Z.eqb_eq|?%Z.eqb_eq]%orb_true_iff); exfalso; apply (suffix_unmarked n fs m); [lia|by apply Hf|lia|done|lia|by apply Hf|lia|done].
Qed.

(** ** The message *)
Local Open Scope string_scope.

(** The texts that state a verdict. *)
Inductive states : string → Verdict → Z → list string → Prop :=
| states_pass : states "PASS" VerdictPass 0 []
| states_fail : states "FAIL" VerdictFail 0 []
| states_bare w : w = "NEAR-PASS" ∨ w = "GO-WITH-FIXES" → states w VerdictNearPass 0 []
| states_counted w n fs : w = "NEAR-PASS" ∨ w = "GO-WITH-FIXES" → (1 ≤ n ≤ MaxBlockers)%Z → findings_fit fs → states (w +:+ BlockerSuffix n fs) VerdictNearPass n fs.

Lemma states_read w v n fs : states w v n fs → parseVerdictLine (bytes_of_string w) = Some (mkLine v n fs).
Proof. destruct 1 as [| |w [-> | ->]|w n fs Hw Hn Hf]; [vm_compute; reflexivity..|by apply decorated_read]. Qed.

Lemma firm_app l r : l ≠ [] → Forall ink l → firm r → firm (l ++ r)%list.
Proof. intros Hl Hi [_ (c & t & -> & Hc)]. split; [destruct l as [|b l]; [done|]; apply Forall_cons_1 in Hi as [Hb _]; by exists b, (l ++ t ++ [c])%list|]. exists c, (l ++ t)%list. by rewrite (assoc_L (++)%list). Qed.

Lemma word_ink w : w = "NEAR-PASS" ∨ w = "GO-WITH-FIXES" → bytes_of_string w ≠ [] ∧ Forall ink (bytes_of_string w).
Proof. intros [-> | ->]; (split; [done|]); by repeat constructor. Qed.

Lemma suffix_shape n fs : (1 ≤ n)%Z → valid_refs fs → 10%Z ∉ bytes_of_string (BlockerSuffix n fs).
Proof.
  intros Hn Hv. rewrite suffix_bytes. assert (¬ inner_char 10) as Hi by (intros [H _]; unfold ink in H; lia). rewrite !not_elem_of_cons, not_elem_of_app. split; [done|]. split; [done|]. split; [|by intros H%list_elem_of_singleton]. unfold suffix_text. rewrite not_elem_of_app.
  split; [by apply (without _ _ (count_chars n Hn))|]. destruct fs as [|f fs]; [apply not_elem_of_nil|]. rewrite not_elem_of_cons. split; [done|]. rewrite bytes_of_string_app, not_elem_of_app. destruct (joined_refs f fs Hv) as (_ & Hc & _). split; [|by apply (without _ _ Hc)].
  intros H%list_elem_of_In. change (bytes_of_string " findings=") with [32; 102; 105; 110; 100; 105; 110; 103; 115; 61]%Z in H. simpl in H. lia.
Qed.

Lemma ink_no_lf l : Forall ink l → 10%Z ∉ l.
Proof. intros H. apply (without _ _ H). unfold ink. lia. Qed.

Lemma states_line w v n fs : states w v n fs → firm (bytes_of_string w) ∧ 10%Z ∉ bytes_of_string w.
Proof.
  destruct 1 as [| |w [Hne Hi]%word_ink|w n fs [Hne Hi]%word_ink Hn Hf].
  - assert (Forall ink (bytes_of_string "PASS")) by by repeat constructor. by split; [apply inked_firm|apply ink_no_lf].
  - assert (Forall ink (bytes_of_string "FAIL")) by by repeat constructor. by split; [apply inked_firm|apply ink_no_lf].
  - by split; [apply inked_firm|apply ink_no_lf].
  - rewrite bytes_of_string_app. split; [|rewrite not_elem_of_app; split; [by apply ink_no_lf|apply suffix_shape; [lia|by apply Hf]]]. destruct (inked_firm _ Hne Hi) as [(c & t & E & Hc) _]. split; [exists c, (t ++ bytes_of_string (BlockerSuffix n fs))%list; by rewrite E|].
    exists 41%Z, (bytes_of_string w ++ 32%Z :: 40%Z :: suffix_text n fs)%list. rewrite suffix_bytes, <- (assoc_L (++)%list). split; [done|by unfold ink].
Qed.

Lemma labelled label l : label ≠ "" → Forall ink (bytes_of_string label) → upper_byte <$> bytes_of_string label = bytes_of_string label → firm l → 10%Z ∉ l →
  let line := (bytes_of_string (label +:+ ": ") ++ l)%list in firm line ∧ 10%Z ∉ line ∧ reviewSignoffField line label = Some l.
Proof.
  intros Hne Hi Hu Hl Hn line. unfold line. rewrite bytes_of_string_app, <- (assoc_L (++)%list). change (bytes_of_string ": ") with [58; 32]%Z. cbn [app]. split_and!.
  - apply firm_app; [by destruct label|done|]. destruct Hl as [_ (c & t & -> & Hc)]. split; [by exists 58%Z, (32%Z :: t ++ [c])%list|]. by exists c, (58%Z :: 32%Z :: t).
  - rewrite not_elem_of_app, !not_elem_of_cons. split_and!; [by apply ink_no_lf|done..].
  - unfold reviewSignoffField. rewrite after_label_app by done. cbn [mbind option_bind]. by apply marked_blank_firm.
Qed.

Lemma runes_ink l : Forall ink l → runes l = l.
Proof.
  induction 1 as [|c l Hc _ IH]; [done|]. rewrite runes_step by done. unfold ink in Hc. assert (decode_rune (c :: l) = (c, 1%nat)) as -> by (unfold decode_rune; by rewrite (proj2 (Z.ltb_lt c 128)) by lia). simpl. by rewrite drop_0, IH.
Qed.

Lemma ink_no_space l : Forall ink l → existsb isJSSpace l = false.
Proof.
  induction 1 as [|c l Hc _ IH]; [done|]. simpl. rewrite IH, orb_false_r. destruct (solid_ascii c [] Hc) as [|H]; [done|]. unfold ink in Hc. unfold decode_rune in H. by rewrite (proj2 (Z.ltb_lt c 128)) in H by lia.
Qed.

Definition line_feed : string := String "010" "".

(** C37: a message that ends with a launch line and a verdict line is read as what was written, whatever comes before: the launch, the word, and for a verdict with blockers their count and the
    findings that [BlockerSuffix] wrote. *)
Theorem signoff_reads_back body launch w v n fs : launch ≠ "" → Forall ink (bytes_of_string launch) → states w v n fs →
  ParseSignoff (body +:+ line_feed +:+ ("LAUNCH: " +:+ launch) +:+ line_feed +:+ ("VERDICT: " +:+ w)) = Some (mkSignoff launch v n fs).
Proof.
  intros Hl Hi Hs. unfold ParseSignoff. rewrite !bytes_of_string_app. change (bytes_of_string line_feed) with [10]%Z. assert (bytes_of_string launch ≠ []) as Hne by by destruct launch.
  destruct (labelled "LAUNCH" (bytes_of_string launch)) as (F1 & N1 & R1); [done|by repeat constructor|done|by apply inked_firm|by apply ink_no_lf|]. destruct (states_line _ _ _ _ Hs) as [Fw Nw].
  destruct (labelled "VERDICT" (bytes_of_string w)) as (F2 & N2 & R2); [done|by repeat constructor|done|done|done|]. change (bytes_of_string "LAUNCH: ") with (bytes_of_string ("LAUNCH" +:+ ": ")). change (bytes_of_string "VERDICT: ") with (bytes_of_string ("VERDICT" +:+ ": ")).
  destruct (last_lines (bytes_of_string body) _ _ F1 F2 N1 N2) as [rest E]. cbn [app]. unfold ParseSignoffBytes. rewrite E, R1. cbn [mbind option_bind]. rewrite runes_ink, ink_no_space by done. rewrite R2. cbn [mbind option_bind]. rewrite (states_read _ _ _ _ Hs). cbn [mbind option_bind lineVerdict lineBlockers lineFindings].
  by rewrite string_of_bytes_of_string.
Qed.

Lemma counted_fit count n : blocker_count count = Some n → (1 ≤ n ≤ MaxBlockers)%Z.
Proof. unfold blocker_count. destruct (verdictLineField count "blockers") as [ds|]; [|done]. cbn [mbind option_bind]. destruct (_ || _); [done|]. destruct (_ || _) eqn:E; [done|]. intros [= <-]. rewrite orb_false_iff, !Z.ltb_ge in E. lia. Qed.

Lemma listed_fit refs fs : finding_list refs = Some fs → findings_fit fs.
Proof.
  destruct refs as [r|]; simpl; [|intros [= <-]; split; [constructor|simpl; unfold MaxFindingRefs; lia]]. destruct (verdictLineField r "findings") as [l|]; [|done]. cbn [mbind option_bind]. destruct (Nat.ltb_spec MaxFindingRefs (length (split_at 44 l))) as [|Hn]; [done|].
  intros H. split; [|by rewrite (mapM_length _ _ _ H)]. apply mapM_Some in H. apply Forall_forall. intros s (i & Hi)%list_elem_of_lookup. destruct (Forall2_lookup_r _ _ _ _ _ H Hi) as (x & _ & Hx). unfold trimmed_ref in Hx. destruct (ValidFindingRef _) eqn:E; [|done]. by injection Hx as <-.
Qed.

Lemma line_fit raw line : parseVerdictLine raw = Some line → findings_fit (lineFindings line) ∧ (lineBlockers line = 0%Z ∧ lineFindings line = [] ∨ (1 ≤ lineBlockers line ≤ MaxBlockers)%Z ∧ lineVerdict line = VerdictNearPass).
Proof.
  unfold parseVerdictLine. destruct (cut_at 40 raw) as [h decorated]. destruct (verdict_word_of _) as [v|]; [|done]. cbn [mbind option_bind]. destruct decorated as [rest|]; [|intros [= <-]; simpl; split; [split; [constructor|simpl; unfold MaxFindingRefs; lia]|by left]].
  case_bool_decide as Hv; [|done]. cbn [negb]. destruct (cut_suffix 41 rest) as [inner|]; [|done]. cbn [mbind option_bind]. destruct (existsb _ inner); [done|]. destruct (cut_at 59 inner) as [count refs]. destruct (blocker_count count) as [n|] eqn:En; [|done]. cbn [mbind option_bind].
  destruct (finding_list refs) as [fs|] eqn:Ef; [|done]. intros [= <-]. simpl. split; [by eapply listed_fit|]. right. split; [by eapply counted_fit|done].
Qed.

Lemma signed_value line label value : reviewSignoffField line label = Some value → value ≠ [].
Proof. unfold reviewSignoffField. destruct (after_label _ _ _) as [rest|]; [|done]. simpl. unfold marked_value. destruct (TrimBytes rest) as [|b t]; [done|]. destruct (b =? 58)%Z; [|done]. case_bool_decide; [done|]. by intros [= <-]. Qed.

(** What is read of any message is of the form that a stored round keeps: a launch, a count of at most [MaxBlockers], references that are valid; only a verdict that asks for fixes has a count. *)
Theorem parsed_signoff_fits message s : ParseSignoff message = Some s →
  SignoffLaunchID s ≠ "" ∧ blockers_fit (SignoffBlockers s) ∧ findings_fit (SignoffFindings s) ∧ (SignoffVerdict s ≠ VerdictNearPass → SignoffBlockers s = 0%Z ∧ SignoffFindings s = []).
Proof.
  unfold ParseSignoff, ParseSignoffBytes. destruct (reverse _) as [|verdict [|launch rest]]; [done|done|]. destruct (reviewSignoffField launch "LAUNCH") as [id|] eqn:El; [|done]. cbn [mbind option_bind]. destruct (existsb _ _); [done|].
  destruct (reviewSignoffField verdict "VERDICT") as [raw|]; [|done]. cbn [mbind option_bind]. destruct (parseVerdictLine raw) as [line|] eqn:Ep; [|done]. cbn [mbind option_bind]. intros [= <-]. simpl. apply signed_value in El. destruct (line_fit _ _ Ep) as [Hf Hb].
  split; [by destruct id|]. split; [unfold blockers_fit, MaxBlockers in *; lia|]. split; [done|]. destruct Hb as [Hb|[_ Hb]]; [done|done].
Qed.
