(* ===== verification/GoalInbox.v ===== *)
(** * GoalInbox: a plan audit around its round. The commands that open and abort it (internal/pabcd/cli: review_round_run.go), the sign-offs a session keeps and how they are applied
    (internal/pabcd/hook: reviewobserver.go, reviewobserver_inbox.go), and the check of the verdict when the session goes on (orchestrate_review_binding.go).

    The inbox of a session is a directory: a map from names to what a file there is. A file under an entry's name holds an entry that was put, is not an entry, or cannot be read. The goal plan, the
    session and the outcome of every write are arguments; the rows for the ledger are answered. A removal is of a name of the inbox's own, leaves a
    directory in place, and succeeds on a file (an entry that could not be unlinked is judged again by the next drain, which changes nothing); the holder of the session lock is the only one who
    removes, so that no entry goes away between the listing and the reading. *)
From S2P Require Import Prelude GoLib Sha256 Json Loads Utf8 GoFloat GoJson GoPath JsText Attest Fsm GoalTypes GoalQuery GoalOps GoalSteer GoalGate GoalRevive GoalReview.
Local Open Scope string_scope.

(** ** Entries *)
Record reviewInboxEntry : Type := mkInbox {
  InboxSessionID : string;
  InboxSlug : string;
  InboxPlanEpoch : string;
  InboxWorkPhaseID : string;
  InboxLaunchID : string;
  InboxAgentID : string;
  InboxVerdict : Verdict;
  InboxBlockers : Z;
  InboxFindings : list string;
  ReceivedAt : string
}.

(** An entry with the name of its file; no name is an entry that is held in memory only. *)
Record reviewInboxItem : Type := mkItem { item_entry : reviewInboxEntry; item_name : string }.

Definition reviewObserverInboxMax : nat := 64.
Definition reviewObserverInboxReadMax : nat := 256.
Definition reviewObserverDetailMax : nat := 200.

Definition nul : string := String "000" "".
Definition reviewObserverInboxName (e : reviewInboxEntry) : string :=
  String.substring 0 32 (sha256_hex (join_sep nul [InboxSessionID e; InboxSlug e; InboxLaunchID e; InboxAgentID e])) +:+ ".json".

Definition lower_hex (b : Z) : bool := in_range 48 57 b || in_range 97 102 b.
Definition reviewObserverInboxOwnName (name : string) : bool :=
  let bs := bytes_of_string name in (length bs =? 37)%nat && bool_decide (drop 32 bs = bytes_of_string ".json") && forallb lower_hex (take 32 bs).

(** [strings.ToValidUTF8(s, "")]; [fuel] is the bytes left. *)
Fixpoint valid_utf8 (fuel : nat) (s : list Z) : list Z :=
  match fuel, s with
  | O, _ | _, [] => []
  | S fuel', _ => let '(r, n) := decode_rune s in ((if (r =? rune_error)%Z && (n =? 1)%nat then [] else take n s) ++ valid_utf8 fuel' (drop n s))%list
  end.
Definition reviewObserverBounded (s : string) : string :=
  let bs := bytes_of_string s in if (reviewObserverDetailMax <? length bs)%nat then string_of_bytes (valid_utf8 reviewObserverDetailMax (take reviewObserverDetailMax bs)) +:+ "..." else s.

Definition reviewObserverNewEntry (sessionID : string) (st : Session) (plan : option Goalplan) (agentID : string) (signoff : ReviewSignoff) (now : string) : reviewInboxEntry :=
  let phase :=
    match plan with
    | None => ""
    | Some p =>
      match RoundByLaunchID p PurposePlanAudit (SignoffLaunchID signoff) with
      | Some (_, round) => if bool_decide (RoundWorkPhaseID round = "") then default "" (EffectiveActiveWorkPhaseID p) else RoundWorkPhaseID round
      | None => default "" (EffectiveActiveWorkPhaseID p)
      end
    end in
  mkInbox sessionID (Fsm.Slug st) (default "" (Fsm.PlanEpoch st)) phase (SignoffLaunchID signoff) agentID (SignoffVerdict signoff) (SignoffBlockers signoff) (SignoffFindings signoff) now.

(** ** The directory *)
Inductive inbox_file : Type :=
| KeptEntry (e : reviewInboxEntry)
| NotAnEntry (directory : bool)
| UnreadableEntry (err : string).

Notation Inbox := (gmap string inbox_file).

Definition reviewObserverInboxNames (inbox : Inbox) : list string := filter (λ n, reviewObserverInboxOwnName n = true) (sorted_keys inbox).

Definition received (e : reviewInboxEntry) (now : string) : reviewInboxEntry :=
  mkInbox (InboxSessionID e) (InboxSlug e) (InboxPlanEpoch e) (InboxWorkPhaseID e) (InboxLaunchID e) (InboxAgentID e) (InboxVerdict e) (InboxBlockers e) (InboxFindings e) now.

(** Keep an entry: the error, or none. [unopened] is why the directory could not be opened or locked, [unwritten] why the file could not be written. *)
Definition reviewObserverInboxPut (unopened unwritten : option string) (e : reviewInboxEntry) (now : string) (inbox : Inbox) : option string * Inbox :=
  let final := reviewObserverInboxName e in
  match unopened with
  | Some err => (Some err, inbox)
  | None =>
    if bool_decide (is_Some (inbox !! final)) then (None, inbox)
    else if (reviewObserverInboxMax <=? length (reviewObserverInboxNames inbox))%nat then (Some "the review inbox is full", inbox)
    else match unwritten with Some err => (Some err, inbox) | None => (None, <[final := KeptEntry (received e now)]> inbox) end
  end.

(** How an inbox is found. *)
Inductive opened_inbox : Type := InboxAbsent | InboxUnopened (err : string) | InboxUnlisted (err : string) | InboxOpened (inbox : Inbox).

Record reviewInboxRead : Type := mkRead { read_items : list reviewInboxItem; read_corrupt : list string; read_blocked : list string }.

Definition read_file (r : reviewInboxRead) (name : string) (f : inbox_file) : reviewInboxRead :=
  match f with
  | KeptEntry e => mkRead (read_items r ++ [mkItem e name])%list (read_corrupt r) (read_blocked r)
  | NotAnEntry _ => mkRead (read_items r) (read_corrupt r ++ [name])%list (read_blocked r)
  | UnreadableEntry err => mkRead (read_items r) (read_corrupt r) (read_blocked r ++ [reviewObserverBounded ("the review inbox entry " +:+ name +:+ " could not be read: " +:+ err)])%list
  end.

Definition by_receipt (items : list reviewInboxItem) : list reviewInboxItem := sort_by (λ i, ReceivedAt (item_entry i)) items.

Definition reviewObserverInboxReadAll (found : opened_inbox) : reviewInboxRead :=
  match found with
  | InboxAbsent => mkRead [] [] []
  | InboxUnopened err => mkRead [] [] [reviewObserverBounded ("the review inbox could not be opened: " +:+ err)]
  | InboxUnlisted err => mkRead [] [] [reviewObserverBounded ("the review inbox could not be listed: " +:+ err)]
  | InboxOpened inbox =>
    let names := reviewObserverInboxNames inbox in
    if (reviewObserverInboxReadMax <? length names)%nat then mkRead [] [] ["the review inbox holds " +:+ itoa_nat (length names) +:+ " entries, more than can be ordered"]
    else
      let r := foldl (λ r n, match inbox !! n with Some f => read_file r n f | None => r end) (mkRead [] [] []) names in
      mkRead (by_receipt (read_items r)) (read_corrupt r) (read_blocked r)
  end.

(** [unlinkat] without a flag removes no directory, and its error is ignored. *)
Definition stays (f : option inbox_file) : bool := match f with Some (NotAnEntry directory) => directory | _ => false end.
Definition reviewObserverInboxRemove (name : string) (inbox : Inbox) : Inbox := if reviewObserverInboxOwnName name && negb (stays (inbox !! name)) then delete name inbox else inbox.

(** ** Judging a sign-off *)
(** A row for the ledger. *)
Record ReviewNote : Type := mkNote { NoteEvent : string; NoteDetail : string; NoteRound : option string; NoteLaunch : option string }.

Definition EventReviewSignoffIgnored : string := "review_signoff_ignored".
Definition reviewObserverUnparsed : string := "review_signoff_unparsed".
Definition reviewObserverInboxFailed : string := "review_signoff_inbox_failed".
Definition reviewObserverWriteFailed : string := "review_signoff_write_failed".
Definition reviewObserverWriteUnsynced : string := "review_signoff_write_unsynced".

(** The plan in hand, the plan of the file, the rows so far and what the next writes will do (none left: they succeed). *)
Record Drain : Type := mkDrain { drain_plan : Goalplan; drain_file : Goalplan; drain_notes : list ReviewNote; drain_writes : list WriteOutcome }.

Definition noted (d : Drain) (n : ReviewNote) : Drain := mkDrain (drain_plan d) (drain_file d) (drain_notes d ++ [n])%list (drain_writes d).

Definition observeUnparsed (plan : Goalplan) (st : Session) : list ReviewNote :=
  if existsb (λ r, bool_decide (Purpose r = PurposePlanAudit) && bool_decide (RoundStatus r = ReviewInFlight)) (ReviewRounds plan) && bool_decide (SPhase st = PhaseA) then
    [mkNote reviewObserverUnparsed ("a subagent exited with no parseable sign-off while a plan_audit round was in flight; " +:+
      "the closing two lines must be exactly LAUNCH then VERDICT (PASS, FAIL, NEAR-PASS or GO-WITH-FIXES (blockers=N))") None None]
  else [].

(** Why a sign-off for a round is not recorded, before the round itself is asked. *)
Definition unbound (st : Session) (sessionID : string) (e : reviewInboxEntry) (round : ReviewRoundState) : option string :=
  let epoch := default "" (Fsm.PlanEpoch st) in
  if negb (bool_decide (SPhase st = PhaseA)) then Some "the session left A before the reviewer finished"
  else if negb (bool_decide (OwnerSessionID round = sessionID)) then Some "the round belongs to another session"
  else if bool_decide (GoalTypes.PlanEpoch round = "") || bool_decide (Fsm.PlanEpoch st = None) || negb (bool_decide (GoalTypes.PlanEpoch round = epoch)) then Some "the plan was re-planned after this round opened"
  else if bool_decide (InboxPlanEpoch e = "") || negb (bool_decide (InboxPlanEpoch e = epoch)) then Some "the plan was re-planned after this sign-off arrived"
  else if bool_decide (InboxAgentID e = "") then Some "the child named no agent id"
  else match ReviewerSession (Lane round) with
       | Some signer =>
         if negb (bool_decide (signer = InboxAgentID e)) then Some ("round " +:+ RoundID round +:+ " was already signed by " +:+ signer)
         else None
       | None => None
       end.

Definition other_phase (plan : Goalplan) (e : reviewInboxEntry) (round : ReviewRoundState) : option string :=
  let audited := RoundWorkPhaseID round in
  match EffectiveActiveWorkPhaseID plan with
  | Some active =>
    if bool_decide (audited = "") || negb (bool_decide (audited = active)) then
      Some ("the round audited work-phase " +:+ (if bool_decide (audited = "") then "none" else audited) +:+ ", but " +:+ active +:+ " is active")
    else if negb (bool_decide (InboxWorkPhaseID e = "")) && negb (bool_decide (InboxWorkPhaseID e = active)) then
      Some ("the sign-off arrived for work-phase " +:+ InboxWorkPhaseID e +:+ ", but " +:+ active +:+ " is active")
    else None
  | None => Some ("the round audited work-phase " +:+ (if bool_decide (audited = "") then "none" else audited) +:+ ", but none is active")
  end.

Definition kind_text (r : ReviewRoundResult) : string := match r with ReviewOK _ _ => "ok" | ReviewStale _ => "stale" | ReviewCASFailed _ _ => "cas_failed" | ReviewNotFound _ => "not_found" | ReviewInvalidInput _ => "invalid_input" end.
Definition result_reason (r : ReviewRoundResult) : string :=
  let reason := match r with ReviewOK _ _ => "" | ReviewStale s | ReviewCASFailed s _ | ReviewNotFound s | ReviewInvalidInput s => s end in if bool_decide (reason = "") then kind_text r else reason.

Definition signed_verdict (e : reviewInboxEntry) (round : ReviewRoundState) : VerdictInput :=
  mkVerdict PurposePlanAudit (RoundID round) (InboxLaunchID e) (InboxVerdict e) None (Some (InboxAgentID e)) None (InboxBlockers e) (InboxFindings e).

Section observer.
(** The time of a verdict and of a write. *)
Context (now : string).

(** Write a plan: what the file holds then, whether to try again, and the row for it. *)
Definition published (d : Drain) (plan : Goalplan) (id launch : string) : Drain * bool :=
  let writes := tail (drain_writes d) in
  match default Written (head (drain_writes d)) with
  | Written => (mkDrain plan (with_updated plan now) (drain_notes d) writes, false)
  | PublishedUnsynced err =>
    (mkDrain plan (with_updated plan now) (drain_notes d ++ [mkNote reviewObserverWriteUnsynced (reviewObserverBounded ("the verdict was recorded but the plan directory could not be synced: " +:+ err)) (Some id) (Some launch)])%list writes, false)
  | NotWritten err =>
    (mkDrain (drain_plan d) (drain_file d) (drain_notes d ++ [mkNote reviewObserverWriteFailed (reviewObserverBounded ("the verdict was valid but the plan could not be written: " +:+ err)) (Some id) (Some launch)])%list writes, true)
  end.

Definition observe (st : Session) (sessionID : string) (e : reviewInboxEntry) (d : Drain) : Drain * bool :=
  let plan := drain_plan d in
  let launch := InboxLaunchID e in
  let verdict := verdict_text (InboxVerdict e) in
  match RoundByLaunchID plan PurposePlanAudit launch with
  | None => (noted d (mkNote EventReviewSignoffIgnored (verdict +:+ " sign-off named launch " +:+ launch +:+ ", which belongs to no plan_audit round") None (Some launch)), false)
  | Some (_, round) =>
    let ignore reason := (noted d (mkNote EventReviewSignoffIgnored (verdict +:+ " sign-off was not recorded: " +:+ reason) (Some (RoundID round)) (Some launch)), false) in
    match unbound st sessionID e round with
    | Some reason => ignore reason
    | None =>
      match other_phase plan e round with
      | Some reason => ignore reason
      | None =>
        match RecordVerdict plan (signed_verdict e round) now with
        | ReviewOK recorded _ => published d recorded (RoundID round) launch
        | refused => ignore (result_reason refused)
        end
      end
    end
  end.

Definition drainEntry (st : Session) (sessionID : string) (e : reviewInboxEntry) (d : Drain) : Drain * bool :=
  if negb (bool_decide (InboxSessionID e = sessionID)) || negb (bool_decide (InboxSlug e = Fsm.Slug st)) then
    (noted d (mkNote EventReviewSignoffIgnored (verdict_text (InboxVerdict e) +:+ " sign-off was not recorded: the sign-off was kept for another session or plan") None (Some (InboxLaunchID e))), false)
  else observe st sessionID e d.

(** The entries in memory that are given up, a row for each. *)
Definition given_up (reason : string) (items : list reviewInboxItem) : list ReviewNote :=
  (λ i, mkNote reviewObserverWriteFailed (verdict_text (InboxVerdict (item_entry i)) +:+ " sign-off was not judged: " +:+ reason) None (Some (InboxLaunchID (item_entry i)))) <$> filter (λ i, item_name i = "") items.

(** Judge entries in their order until a write fails: the names that reached a decision, and how many entries did not. *)
Fixpoint drain_items (st : Session) (sessionID : string) (items : list reviewInboxItem) (d : Drain) : Drain * list string * nat :=
  match items with
  | [] => (d, [], 0)
  | i :: rest =>
    let '(d', retry) := drainEntry st sessionID (item_entry i) d in
    if retry then (mkDrain (drain_plan d') (drain_file d') (drain_notes d' ++ given_up "an earlier verdict could not be written" rest)%list (drain_writes d'), [], S (length rest))
    else let '(d'', names, kept) := drain_items st sessionID rest d' in (d'', item_name i :: names, kept)
  end.

Definition dropCorrupt (names : list string) : list ReviewNote :=
  (λ n, mkNote EventReviewSignoffIgnored (reviewObserverBounded ("an unreadable review inbox entry was removed: " +:+ n)) None None) <$> names.

Record ReviewObserverDrain : Type := mkOutcome { outcome_drain : Drain; outcome_removed : list string; outcome_kept : nat; outcome_wrote : bool }.

(** [cancelled] is what the caller's last check before the first write answers. *)
Definition drainInbox (r : reviewInboxRead) (st : Session) (sessionID : string) (extra : list reviewInboxItem) (cancelled : option string) (d : Drain) : ReviewObserverDrain + string :=
  let pending := (read_items r ++ extra)%list in
  if bool_decide (read_corrupt r = []) && bool_decide (read_blocked r = []) && bool_decide (pending = []) then inl (mkOutcome d [] 0 false)
  else match cancelled with
       | Some err => inr err
       | None =>
         let d1 := mkDrain (drain_plan d) (drain_file d) (drain_notes d ++ dropCorrupt (read_corrupt r))%list (drain_writes d) in
         match read_blocked r with
         | blocked :: _ =>
           let row := mkNote reviewObserverInboxFailed (reviewObserverBounded (blocked +:+ "; the kept sign-offs are not applied until it can be read")) None None in
           inl (mkOutcome (mkDrain (drain_plan d1) (drain_file d1) (drain_notes d1 ++ row :: given_up "the review inbox could not be read" pending)%list (drain_writes d1))
             (read_corrupt r) (length pending + length (read_blocked r)) true)
         | [] => let '(d2, names, kept) := drain_items st sessionID pending d1 in inl (mkOutcome d2 (read_corrupt r ++ names)%list kept true)
         end
       end.

Definition remove_all (names : list string) (inbox : Inbox) : Inbox := foldr reviewObserverInboxRemove inbox names.
End observer.

(** ** The entry points *)

(** The drain of a transition, which holds both locks. *)
Definition DrainReviewObserverInboxInLock (now : string) (st : Session) (sessionID : string) (plan : option Goalplan) (found : opened_inbox) (cancelled : option string) (writes : list WriteOutcome) : option (ReviewObserverDrain + string) :=
  match plan with
  | Some p => if bool_decide (Fsm.Slug st = "") then None else Some (drainInbox now (reviewObserverInboxReadAll found) st sessionID [] cancelled (mkDrain p p [] writes))
  | None => None
  end.

(** [json.Unmarshal] into a map of any values: an object, nothing after it, and no number beyond [float64]. *)
Fixpoint numbers_fit (v : value) : bool :=
  match v with
  | VNumber s => match parse_float s with Fin _ => true | _ => false end
  | VList l => forallb numbers_fit l
  | VMap m => forallb (λ kv, numbers_fit kv.2) m
  | _ => true
  end.
Definition payload_of (raw : string) : option (list (string * value)) :=
  let doc := bytes_of_string raw in
  match json_value (load_fuel doc) 0 doc with
  | Some (VMap m, rest) => if bool_decide (ws rest = []) && numbers_fit (VMap m) then Some m else None
  | _ => None
  end.
Definition stop_field (m : list (string * value)) (key : string) : string := match map_get m key with Some (VString s) => s | _ => "" end.

Definition GatedAgentTypes : list string := ["executor"; "worker"].
Definition IsGatedAgentType (agentType : string) : bool := bool_decide (agentType ∈ GatedAgentTypes).

(** What an exit of a child meets: the session and the plan before the locks, what becomes of the put, whether the session lock is had and the session under it, how the inbox is found, and the plan
    under its lock (none: the lock is not had, or there is no plan). *)
Record ObserverWorld : Type := mkObserver {
  unlocked_state : Session;
  unlocked_plan : option Goalplan;
  put_unopened : option string;
  put_unwritten : option string;
  session_locked : bool;
  locked_state : Session;
  found_inbox : Inbox → opened_inbox;
  locked_plan : option Goalplan;
  plan_writes : list WriteOutcome
}.

(** A sign-off in hand is put, or kept in memory: the items in memory, the rows, and the inbox. *)
Definition keep_signoff (now : string) (w : ObserverWorld) (sessionID agentID : string) (signoff : option ReviewSignoff) (inbox : Inbox) : list reviewInboxItem * list ReviewNote * Inbox :=
  match signoff with
  | None => ([], [], inbox)
  | Some s =>
    let entry := reviewObserverNewEntry sessionID (unlocked_state w) (unlocked_plan w) agentID s now in
    if bool_decide (agentID = "") then ([mkItem entry ""], [], inbox)
    else match reviewObserverInboxPut (put_unopened w) (put_unwritten w) entry now inbox with
         | (None, inbox') => ([], [], inbox')
         | (Some err, inbox') => ([mkItem entry ""], [mkNote reviewObserverInboxFailed (reviewObserverBounded ("the sign-off could not be kept: " +:+ err)) None None], inbox')
         end
  end.

(** What the hook leaves: the drain that ran, the rows before it, and the inbox. *)
Definition HandleReviewObserver (now : string) (raw : string) (w : ObserverWorld) (inbox : Inbox) : option ReviewObserverDrain * list ReviewNote * Inbox :=
  match payload_of raw with
  | None => (None, [], inbox)
  | Some m =>
    let sessionID := stop_field m "session_id" in
    if negb (bool_decide (stop_field m "hook_event_name" = "SubagentStop")) || IsGatedAgentType (stop_field m "agent_type") || bool_decide (stop_field m "cwd" = "") || bool_decide (sessionID = "")
       || bool_decide (Fsm.Slug (unlocked_state w) = "") then (None, [], inbox)
    else
      let signoff := ParseSignoff (stop_field m "last_assistant_message") in
      let '(inMemory, rows, inbox1) := keep_signoff now w sessionID (stop_field m "agent_id") signoff inbox in
      if negb (session_locked w) || bool_decide (Fsm.Slug (locked_state w) = "") then (None, rows, inbox1)
      else match locked_plan w with
           | None => (None, rows, inbox1)
           | Some plan =>
             let first := match signoff with None => observeUnparsed plan (locked_state w) | Some _ => [] end in
             match drainInbox now (reviewObserverInboxReadAll (found_inbox w inbox1)) (locked_state w) sessionID inMemory None (mkDrain plan plan first (plan_writes w)) with
             | inl out => (Some out, rows, remove_all (outcome_removed out) inbox1)
             | inr _ => (None, rows, inbox1)
             end
           end
  end.

(** * The commands of a round *)

(** ** internal/pabcd/state *)
Definition key_char (r : Z) : bool := in_range 97 122 r || in_range 65 90 r || in_range 48 57 r || bool_decide (r ∈ [46; 95; 45]%Z).
Definition key_rune (acc : list Z * bool) (r : Z) : list Z * bool :=
  let '(b, inRun) := acc in if key_char r then ((b ++ [r])%list, false) else if inRun then acc else ((b ++ [45%Z])%list, true).
Definition SanitizeKey (s : string) : string :=
  let b := (foldl key_rune ([], false) (runes (bytes_of_string s))).1 in
  let trimmed := string_of_bytes (GoalRevive.trim_right 45 (GoalRevive.trim_left 45 b)) in if bool_decide (trimmed = "") then "missing" else trimmed.
Definition IsCanonicalSessionID (id : string) : bool := negb (bool_decide (id = "")) && bool_decide (SanitizeKey id = id).

(** ** review_round_args.go, review_round_run.go *)
Definition PlanFilesHash (files : list (string * string)) : string := sha256_hex (join_sep nul ((λ f, f.1 +:+ nul +:+ f.2) <$> files)).

Definition reviewRoundRunActiveWorkPhase (plan : Goalplan) : string :=
  let first status := head (filter (λ p, PStatus p = status ∧ IsRunnablePhase plan p = true) (WorkPhases plan)) in
  let found := match first WorkPhaseInProgress with Some p => PhaseID p | None => match first WorkPhasePending with Some p => PhaseID p | None => "" end end in
  match ActiveWorkPhaseID plan with
  | Some cursor =>
    if bool_decide (cursor = "") then found
    else match head (filter (λ p, PhaseID p = cursor) (WorkPhases plan)) with Some p => if IsRunnablePhase plan p then cursor else found | None => found end
  | None => found
  end.

(** What [ReadStateStrict] answers for a session: its state, or that it cannot be read. *)
Definition reviewRoundRunHeldBy (ReadStateStrict : string → option Session) (slug session : string) (r : ReviewRoundState) : string :=
  let owner := OwnerSessionID r in
  if bool_decide (owner = "") || bool_decide (owner = session) || negb (IsCanonicalSessionID owner) then ""
  else match ReadStateStrict owner with
       | None => owner
       | Some st => if bool_decide (SPhase st = PhaseA) && bool_decide (Fsm.Slug st = slug) && bool_decide (Fsm.PlanEpoch st = Some (GoalTypes.PlanEpoch r)) then owner else ""
       end.

Definition reviewRoundRunOwnerRefusal (verb roundID owner : string) : string :=
  "review-round " +:+ verb +:+ ": round " +:+ roundID +:+ " belongs to session " +:+ owner +:+ ", which is still auditing this plan. Nothing was written. " +:+
  "That session closes it (`crw work assessment abort --session " +:+ owner +:+ "`), or it is released once that session leaves A.".

(** A command that answers for a round: refused, failed, or done with the plan it wrote and what could not be synced. *)
Inductive RoundCommand : Type :=
| CommandRefused (output : string)
| CommandFailed (err : string)
| CommandDone (plan : Goalplan) (round : ReviewRoundState) (warning : string).

Definition written_round (slug : string) (write : WriteOutcome) (plan : Goalplan) (round : ReviewRoundState) : RoundCommand :=
  match write with
  | Written => CommandDone plan round ""
  | PublishedUnsynced err => CommandDone plan round (goalplanPublishedWarning slug err)
  | NotWritten err => CommandFailed err
  end.

(** What was asked of the disk: it failed, it refused, or it answered. *)
Inductive answer (A : Type) : Type := Failed (err : string) | Refused (reason : string) | Answered (a : A).
Arguments Failed {A} err.
Arguments Refused {A} reason.
Arguments Answered {A} a.

(** The plan under its lock, and whether every stored round was read. *)
Definition reviewRoundRunLocked (verb : string) (locked : answer (Goalplan * bool)) (body : Goalplan → RoundCommand) : RoundCommand :=
  match locked with
  | Failed err => CommandFailed err
  | Refused reason => CommandRefused ("review-round " +:+ verb +:+ ": " +:+ reason +:+ "; retry")
  | Answered (plan, intact) => if intact then body plan else CommandRefused ("review-round " +:+ verb +:+ ": the goalplan holds review rounds that this build cannot read; refusing to rewrite it")
  end.

Section commands.
Context (FormatLarge : Z → string) (ReadStateStrict : string → option Session).

(** The first open round of the purpose that another session holds. *)
Definition held_round (slug session : string) (plan : Goalplan) : option (string * string) :=
  head (omap (λ r, let owner := reviewRoundRunHeldBy ReadStateStrict slug session r in if open_round PurposePlanAudit r && negb (bool_decide (owner = "")) then Some (RoundID r, owner) else None) (ReviewRounds plan)).

(** The rounds of the plan as the lock holds it: opened, bound, launched and in flight. *)
Definition send_round (session workPhase unit epoch : string) (files : list (string * string)) (now : string) (plan : Goalplan) : ReviewRoundResult + Goalplan * ReviewRoundState :=
  match OpenRound FormatLarge plan (mkOpen PurposePlanAudit unit (PlanFilesHash files)) now with
  | ReviewOK opened round =>
    let launch := LaunchID (Lane round) in
    match reviewRoundRunBound opened launch session workPhase unit epoch files with
    | None => inl (ReviewNotFound ("no plan_audit round for launch " +:+ launch))
    | Some bound =>
      match MarkLaunching bound PurposePlanAudit (RoundID round) launch None with
      | ReviewOK launching _ =>
        match MarkInFlight launching PurposePlanAudit (RoundID round) launch with
        | ReviewOK flying _ => inr (flying, round)
        | refused => inl refused
        end
      | refused => inl refused
      end
    end
  | refused => inl refused
  end.

Definition reviewRoundRunOpen (session : string) (st : Session) (collected : answer (list (string * string))) (locked : answer (Goalplan * bool)) (write : WriteOutcome) (now : string) : RoundCommand :=
  let prefix := "review-round open: " in
  if negb (bool_decide (SPhase st = PhaseA)) then CommandRefused (prefix +:+ "session is at " +:+ SPhase st +:+ ", not A — a plan audit is opened during Audit")
  else if bool_decide (Fsm.Slug st = "") then CommandRefused (prefix +:+ "this session has no bound goalplan")
  else match SPlanUnit st, Fsm.PlanEpoch st with
       | Some unit, Some epoch =>
         if bool_decide (unit = "") || bool_decide (epoch = "") then CommandRefused (prefix +:+ "no plan binding on this session — enter A through `crw work state A` so P>A records the unit it validated")
         else match collected with
              | Failed err => CommandFailed err
              | Refused refusal => CommandRefused (prefix +:+ refusal)
              | Answered files =>
                reviewRoundRunLocked "open" locked (λ plan,
                  let workPhase := reviewRoundRunActiveWorkPhase plan in
                  if bool_decide (workPhase = "") then CommandRefused (prefix +:+ "the bound goalplan has no active work-phase")
                  else match held_round (Fsm.Slug st) session plan with
                       | Some (id, owner) => CommandRefused (reviewRoundRunOwnerRefusal "open" id owner)
                       | None =>
                         match send_round session workPhase unit epoch files now plan with
                         | inl refused => CommandRefused (prefix +:+ result_reason refused)
                         | inr (flying, round) => written_round (Fsm.Slug st) write flying round
                         end
                       end)
              end
       | _, _ => CommandRefused (prefix +:+ "no plan binding on this session — enter A through `crw work state A` so P>A records the unit it validated")
       end.

Definition reviewRoundRunAbort (session : string) (st : Session) (reason : option string) (locked : answer (Goalplan * bool)) (write : WriteOutcome) (now : string) : RoundCommand :=
  if bool_decide (Fsm.Slug st = "") then CommandRefused "review-round abort: this session has no bound goalplan"
  else reviewRoundRunLocked "abort" locked (λ plan,
    let owner := match EffectiveRound plan PurposePlanAudit with Some (_, live) => reviewRoundRunHeldBy ReadStateStrict (Fsm.Slug st) session live | None => "" end in
    if negb (bool_decide (owner = "")) then CommandRefused (reviewRoundRunOwnerRefusal "abort" (match EffectiveRound plan PurposePlanAudit with Some (_, live) => RoundID live | None => "" end) owner)
    else match AbortRound plan PurposePlanAudit (default "aborted by the agent" reason) now with
         | ReviewOK aborted round => written_round (Fsm.Slug st) write aborted round
         | refused => CommandRefused ("review-round abort: " +:+ result_reason refused)
         end).
End commands.

(** ** orchestrate_review_binding.go *)

(** Why the verdict of the latest audit does not let the session go on, if it does not. [Recomputed] reads the files of the round again. The sentences around the reason, which name the command and the
    phase and say what to do, are left out. *)
Definition orchestrateReviewBindingCheckPlan (Recomputed : list (string * string) → list (string * string)) (plan : option Goalplan) (cur : Session) (sessionID : string) (attest : option Attestation) : option string :=
  p ← plan; '(_, round) ← LatestRound p PurposePlanAudit; verdict ← LaneVerdict (Lane round);
  if bool_decide (OwnerSessionID round = "") || bool_decide (RoundWorkPhaseID round = "") || bool_decide (GoalTypes.PlanEpoch round = "") || bool_decide (PlanFiles round = []) then
    Some "the latest plan_audit round has a recorded verdict but no complete binding (owner session, work-phase, plan epoch and plan files), so its verdict cannot be checked"
  else if negb (bool_decide (OwnerSessionID round = sessionID)) then Some ("round " +:+ RoundID round +:+ " was approved for a different session, so it cannot be spent here")
  else if negb (bool_decide (Fsm.PlanEpoch cur = Some (GoalTypes.PlanEpoch round))) then Some ("round " +:+ RoundID round +:+ " approved an earlier plan — re-planning invalidated that approval")
  else if negb (bool_decide (EffectiveActiveWorkPhaseID p = Some (RoundWorkPhaseID round))) then
    Some ("round " +:+ RoundID round +:+ " approved work-phase " +:+ RoundWorkPhaseID round +:+ ", but " +:+ default "none" (EffectiveActiveWorkPhaseID p) +:+ " is active")
  else if negb (bool_decide (PlanFilesHash (Recomputed (PlanFiles round)) = PlanSha256 round)) then Some ("the plan changed after round " +:+ RoundID round +:+ " approved it")
  else match attest with
       | None => None
       | Some a =>
         if negb (bool_decide (AuditVerdict a = "")) && negb (bool_decide (AuditVerdict a = verdict_text verdict)) then
           Some (quoted "you attested ~" +:+ AuditVerdict a +:+ quoted "~ but the reviewer recorded ~" +:+ verdict_text verdict +:+ quoted "~")
         else if (0 <? Blockers (Lane round))%Z && bool_decide (verdict = VerdictNearPass) && negb (DisposesBlockers attest (Blockers (Lane round))) then
           Some ("round " +:+ RoundID round +:+ " recorded GO-WITH-FIXES (blockers=" +:+ itoa (Blockers (Lane round)) +:+ quoted "), so the attest must carry ~auditBlockers~: one entry per blocker 1.." +:+ itoa (Blockers (Lane round)) +:+
             quoted " as {~blocker~:<n>,~disposition~:~folded~|~rebutted~,~reason~:~<why>~}, each blocker folded into the plan or rebutted with the reason")
         else None
       end.
