(* ===== verification/GoalInboxProps.v ===== *)
(** * GoalInboxProps: kept sign-offs are applied first come, first served; a fault delays them and never reorders or loses them. *)
From S2P Require Import DagDecodeProps Prelude GoLib Sha256 Json Loads Utf8 GoFloat GoJson GoPath JsText Attest Fsm GoalTypes GoalQuery GoalOps GoalSteer GoalGate GoalRevive GoalSound GoalKeep GoalReview GoalReviewProps GoalRounds GoalInbox.
Local Open Scope string_scope.

Section observer.
Context (st : Session) (sessionID : string).

(** ** The round a sign-off decides *)

(** The round is in flight and nothing of its purpose came after it. *)
Definition decidable_round (p : Goalplan) (r : ReviewRoundState) : bool :=
  bool_decide (RoundStatus r = ReviewInFlight) && forallb (λ x, negb (bool_decide (Purpose x = PurposePlanAudit)) || (reviewRoundOrder (RoundID x) <=? reviewRoundOrder (RoundID r))%Z) (ReviewRounds p).

(** The place of the round an entry decides when the plan is [p]: the round of its launch, bound to this session, this epoch, the active work phase and no other reviewer. *)
Definition decides (p : Goalplan) (e : reviewInboxEntry) : option (nat * ReviewRoundState) :=
  if negb (bool_decide (InboxSessionID e = sessionID)) || negb (bool_decide (InboxSlug e = Fsm.Slug st)) then None
  else match RoundByLaunchID p PurposePlanAudit (InboxLaunchID e) with
       | Some (i, r) => if bool_decide (unbound st sessionID e r = None) && bool_decide (other_phase p e r = None) && decidable_round p r then Some (i, r) else None
       | None => None
       end.

(** A round as a sign-off decides it. *)
Definition decided_by (now : string) (e : reviewInboxEntry) (r : ReviewRoundState) : ReviewRoundState :=
  moved r (judged_status (InboxVerdict e)) (Some now) (judged_lane (Lane r) (signed_verdict e r)).

Definition decided_plan (now : string) (p : Goalplan) (e : reviewInboxEntry) (i : nat) (r : ReviewRoundState) : Goalplan :=
  reviewWithRounds p (<[i := decided_by now e r]> (ReviewRounds p)) PurposePlanAudit None.

Lemma decidable_spec p r : decidable_round p r = true ↔ RoundStatus r = ReviewInFlight ∧ ∀ x, x ∈ ReviewRounds p → Purpose x = PurposePlanAudit → (reviewRoundOrder (RoundID x) ≤ reviewRoundOrder (RoundID r))%Z.
Proof.
  unfold decidable_round. rewrite andb_true_iff, bool_decide_eq_true, forallb_forall. split; intros [Hs H]; (split; [done|]); intros x Hx.
  - intros Hp. apply list_elem_of_In, H in Hx. rewrite bool_decide_eq_true_2 in Hx by done. simpl in Hx. lia.
  - apply list_elem_of_In in Hx. apply orb_true_iff. destruct (decide (Purpose x = PurposePlanAudit)) as [Hp|Hp]; [right; apply Z.leb_le; by apply H|left; by rewrite bool_decide_eq_false_2].
Qed.

Lemma verdict_decides now p e i r : RoundByLaunchID p PurposePlanAudit (InboxLaunchID e) = Some (i, r) →
  RecordVerdict p (signed_verdict e r) now = ReviewOK (decided_plan now p e i r) (decided_by now e r) ∧ decidable_round p r = true ∨ (∀ q x, RecordVerdict p (signed_verdict e r) now ≠ ReviewOK q x) ∧ decidable_round p r = false.
Proof.
  intros Hl. destruct (decidable_round p r) eqn:Ed.
  - left. split; [|done]. apply decidable_spec in Ed as [Hs Hm]. unfold RecordVerdict, reviewAdvance. simpl. rewrite (proj2 (required_round p PurposePlanAudit (RoundID r) (InboxLaunchID e) i r)) by done. by rewrite bool_decide_eq_true_2.
  - right. split; [|done]. intros q x H. unfold RecordVerdict, reviewAdvance in H. simpl in H. destruct (reviewRequireRound p PurposePlanAudit (RoundID r) (InboxLaunchID e)) as [res|[j y]] eqn:Er.
    + unfold reviewRequireRound in Er. rewrite Hl in Er. repeat case_match; congruence.
    + apply required_round in Er as (Hl' & _ & Hm). rewrite Hl in Hl'. injection Hl' as <- <-. case_bool_decide as Hs; [|done]. apply not_true_iff_false in Ed. by apply Ed, decidable_spec.
Qed.

(** What the observer does with an entry. *)
Lemma drain_entry now e d : ∃ n, drainEntry now st sessionID e d = match decides (drain_plan d) e with Some (i, r) => published now d (decided_plan now (drain_plan d) e i r) (RoundID r) (InboxLaunchID e) | None => (noted d n, false) end.
Proof.
  unfold drainEntry, decides. destruct (_ || _); [by eexists|]. unfold observe. destruct (RoundByLaunchID (drain_plan d) PurposePlanAudit (InboxLaunchID e)) as [[i r]|] eqn:El; [|by eexists].
  destruct (unbound st sessionID e r) as [reason|]; [by eexists|]. rewrite bool_decide_eq_true_2 by done. destruct (other_phase (drain_plan d) e r) as [reason|]; [by eexists|]. rewrite bool_decide_eq_true_2 by done. cbn [andb].
  destruct (verdict_decides now _ e i r El) as [[-> ->]|[Hno ->]]; [exists (mkNote "" "" None None); done|]. destruct (RecordVerdict _ _ _) as [q x| | | |]; [by destruct (Hno q x)|by eexists..].
Qed.

(** ** Decisions do not disturb one another *)
Lemma find_replaced (P : ReviewRoundState → Prop) `{!∀ r, Decision (P r)} l i r r' : l !! i = Some r → (P r ↔ P r') → ∀ j x, list_find P (<[i := r']> l) = Some (j, x) ↔ (j = i ∧ x = r' ∧ list_find P l = Some (i, r)) ∨ (j ≠ i ∧ list_find P l = Some (j, x)).
Proof.
  intros Hi HP j x. assert (i < length l)%nat as Hlt by by eapply lookup_lt_Some. rewrite !list_find_Some. assert (∀ k y, <[i := r']> l !! k = Some y → ∃ z, l !! k = Some z ∧ (P y ↔ P z)) as Hto.
  { intros k y Hk. destruct (decide (i = k)) as [<-|Hne]; [rewrite list_lookup_insert_eq in Hk by done; injection Hk as <-; by exists r|rewrite list_lookup_insert_ne in Hk by done; by exists y]. }
  assert (∀ k y, l !! k = Some y → ∃ z, <[i := r']> l !! k = Some z ∧ (P y ↔ P z)) as Hfrom.
  { intros k y Hk. destruct (decide (i = k)) as [<-|Hne]; [exists r'; rewrite list_lookup_insert_eq by done; split; [done|]; by rewrite Hi in Hk; injection Hk as <-|exists y; by rewrite list_lookup_insert_ne]. }
  split.
  - intros (Hj & Hx & Hmin). assert (∀ k y, l !! k = Some y → (k < j)%nat → ¬ P y) as Hmin'. { intros k y Hk Hlt'. destruct (Hfrom k y Hk) as (z & Hz & ->). by eapply Hmin. }
    destruct (decide (j = i)) as [->|Hne]; [left|right]; (split; [done|]).
    + rewrite list_lookup_insert_eq in Hj by done. injection Hj as <-. split; [done|]. split_and!; [done|by apply HP|done].
    + rewrite list_lookup_insert_ne in Hj by done. by split_and!.
  - intros [(-> & -> & _ & Hr & Hmin)|(Hne & Hj & Hx & Hmin)].
    + split_and!; [by apply list_lookup_insert_eq|by apply HP|]. intros k y Hk Hlt'. destruct (Hto k y Hk) as (z & Hz & ->). by eapply Hmin.
    + split_and!; [by rewrite list_lookup_insert_ne|done|]. intros k y Hk Hlt'. destruct (Hto k y Hk) as (z & Hz & ->). by eapply Hmin.
Qed.

Lemma launch_replaced p i r r' cursor launch j x : ReviewRounds p !! i = Some r → Purpose r' = Purpose r → LaunchID (Lane r') = LaunchID (Lane r) →
  RoundByLaunchID (reviewWithRounds p (<[i := r']> (ReviewRounds p)) PurposePlanAudit cursor) PurposePlanAudit launch = Some (j, x) ↔
  (j = i ∧ x = r' ∧ RoundByLaunchID p PurposePlanAudit launch = Some (i, r)) ∨ (j ≠ i ∧ RoundByLaunchID p PurposePlanAudit launch = Some (j, x)).
Proof.
  intros Hi Hp Hl. unfold RoundByLaunchID. cbn [ReviewRounds reviewWithRounds]. case_bool_decide; [split; [done|by intros [(_ & _ & ?)|(_ & ?)]]|]. apply find_replaced; [done|]. by rewrite Hp, Hl.
Qed.

Lemma decidable_replaced p i r r' cursor x : ReviewRounds p !! i = Some r → Purpose r' = Purpose r → RoundID r' = RoundID r → decidable_round (reviewWithRounds p (<[i := r']> (ReviewRounds p)) PurposePlanAudit cursor) x = decidable_round p x.
Proof.
  intros Hi Hp Hid. assert (∀ y, y ∈ <[i := r']> (ReviewRounds p) → ∃ z, z ∈ ReviewRounds p ∧ Purpose z = Purpose y ∧ RoundID z = RoundID y) as Hto.
  { intros y (k & Hk)%list_elem_of_lookup. apply list_lookup_insert_Some in Hk as [(_ & -> & _)|[_ Hk]]; [exists r|exists y]; (split; [by eapply list_elem_of_lookup_2|done]). }
  assert (∀ y, y ∈ ReviewRounds p → ∃ z, z ∈ <[i := r']> (ReviewRounds p) ∧ Purpose z = Purpose y ∧ RoundID z = RoundID y) as Hfrom.
  { intros y (k & Hk)%list_elem_of_lookup. destruct (decide (i = k)) as [<-|Hne]; [exists r'|exists y].
    - split; [eapply list_elem_of_lookup_2, list_lookup_insert_eq; by eapply lookup_lt_Some|]. rewrite Hi in Hk. by injection Hk as <-.
    - split; [eapply (list_elem_of_lookup_2 _ k); by rewrite list_lookup_insert_ne|done]. }
  apply eq_true_iff_eq. rewrite !decidable_spec. cbn [ReviewRounds reviewWithRounds]. split; intros [Hs H]; (split; [done|]); intros y Hy Hpy.
  - destruct (Hfrom y Hy) as (z & Hz & Ep & Eid). rewrite <- Eid. apply H; [done|congruence].
  - destruct (Hto y Hy) as (z & Hz & Ep & Eid). rewrite <- Eid. apply H; [done|congruence].
Qed.

Lemma decides_spec p e i r : decides p e = Some (i, r) ↔ InboxSessionID e = sessionID ∧ InboxSlug e = Fsm.Slug st ∧ RoundByLaunchID p PurposePlanAudit (InboxLaunchID e) = Some (i, r) ∧ unbound st sessionID e r = None ∧ other_phase p e r = None ∧ decidable_round p r = true.
Proof.
  unfold decides. destruct (decide (InboxSessionID e = sessionID)) as [Hs|Hs]; [rewrite (bool_decide_eq_true_2 _ Hs)|rewrite (bool_decide_eq_false_2 _ Hs); simpl; naive_solver]. destruct (decide (InboxSlug e = Fsm.Slug st)) as [Hg|Hg]; [rewrite (bool_decide_eq_true_2 _ Hg)|rewrite (bool_decide_eq_false_2 _ Hg); simpl; naive_solver].
  cbn [negb orb]. destruct (RoundByLaunchID p PurposePlanAudit (InboxLaunchID e)) as [[j x]|]; [|naive_solver]. destruct (_ && _) eqn:E.
  - rewrite !andb_true_iff, !bool_decide_eq_true in E. destruct E as [[Hu Ho] Hd]. split; [intros [= -> ->]; done|]. by intros (_ & _ & [= -> ->] & _).
  - split; [done|]. intros (_ & _ & [= -> ->] & Hu & Ho & Hd). rewrite Hu, Ho, Hd, !bool_decide_eq_true_2 in E by done. done.
Qed.

(** A decision takes its round away from the others, and changes nothing else for them. *)
Lemma decides_after now p e i r : decides p e = Some (i, r) → ∀ e' j x, decides (decided_plan now p e i r) e' = Some (j, x) ↔ j ≠ i ∧ decides p e' = Some (j, x).
Proof.
  intros (_ & _ & Hl & _)%decides_spec e' j x. apply launch_round in Hl as (Hi & _ & _). rewrite !decides_spec. unfold decided_plan. rewrite (launch_replaced p i r) by done. rewrite (decidable_replaced p i r) by done.
  change (other_phase (reviewWithRounds p (<[i := decided_by now e r]> (ReviewRounds p)) PurposePlanAudit None) e' x) with (other_phase p e' x). split.
  - intros (Hs & Hg & [(_ & -> & _)|(Hne & Hf)] & Hu & Ho & Hd); [|done]. exfalso. apply decidable_spec in Hd as [Hst _]. simpl in Hst. by destruct (InboxVerdict e).
  - intros (Hne & Hs & Hg & Hf & Hu & Ho & Hd). split_and!; [done|done|by right|done..].
Qed.

(** ** First come, first served *)
(** The rounds after some entries: each round is decided by the first of them that decides it as the plan was. *)
Definition deciding (p : Goalplan) (i : nat) (es : list reviewInboxEntry) : option reviewInboxEntry := head (filter (λ e, fst <$> decides p e = Some i) es).
Definition settled (now : string) (p : Goalplan) (es : list reviewInboxEntry) : list ReviewRoundState := imap (λ i r, match deciding p i es with Some e => decided_by now e r | None => r end) (ReviewRounds p).

Lemma deciding_after now p e i r es j : decides p e = Some (i, r) → deciding (decided_plan now p e i r) j es = if bool_decide (j = i) then None else deciding p j es.
Proof.
  intros Hd. unfold deciding. induction es as [|e' es IH]; [by case_bool_decide|]. rewrite !filter_cons. assert (fst <$> decides (decided_plan now p e i r) e' = Some j ↔ j ≠ i ∧ fst <$> decides p e' = Some j) as Hiff.
  { pose proof (decides_after now p e i r Hd e') as Ha. destruct (decides (decided_plan now p e i r) e') as [[k x]|]; simpl.
    - destruct (proj1 (Ha k x) eq_refl) as [Hk ->]. simpl. naive_solver.
    - split; [done|]. intros [Hne Hj]. destruct (decides p e') as [[k x]|]; [|done]. simpl in Hj. injection Hj as ->. by discriminate (proj2 (Ha j x) (conj Hne eq_refl)). }
  destruct (decide (fst <$> decides (decided_plan now p e i r) e' = Some j)) as [H1|H1]; [apply Hiff in H1 as [Hne H1]; rewrite decide_True by done; simpl; by rewrite bool_decide_eq_false_2|].
  rewrite IH. case_bool_decide as Hji; [done|]. rewrite decide_False; [done|]. intros H2. by apply H1, Hiff.
Qed.

Lemma settled_step now p e es : settled now p (e :: es) = match decides p e with Some (i, r) => settled now (decided_plan now p e i r) es | None => settled now p es end.
Proof.
  destruct (decides p e) as [[i r]|] eqn:Hd.
  - pose proof Hd as (_ & _ & Hl & _)%decides_spec. apply launch_round in Hl as (Hi & _ & _). apply list_eq. intros j. unfold settled. cbn [ReviewRounds reviewWithRounds decided_plan]. rewrite !list_lookup_imap. rewrite (deciding_after now p e i r es j Hd).
    unfold deciding at 1. rewrite filter_cons, Hd. cbn [fmap option_fmap option_map fst]. destruct (decide (j = i)) as [->|Hne].
    + rewrite bool_decide_eq_true_2 by done. rewrite decide_True by done. cbn [head]. rewrite Hi, list_lookup_insert_eq by (by eapply lookup_lt_Some). done.
    + rewrite bool_decide_eq_false_2 by done. rewrite decide_False by congruence. by rewrite list_lookup_insert_ne by done.
  - unfold settled. apply imap_ext. intros j x _. unfold deciding. rewrite filter_cons, Hd. simpl. done.
Qed.

Lemma settled_nil now p : settled now p [] = ReviewRounds p.
Proof. unfold settled. apply list_eq. intros i. rewrite list_lookup_imap. by destruct (ReviewRounds p !! i). Qed.

Fixpoint plan_after (now : string) (p : Goalplan) (es : list reviewInboxEntry) : Goalplan :=
  match es with [] => p | e :: es' => plan_after now (match decides p e with Some (i, r) => decided_plan now p e i r | None => p end) es' end.

Lemma plan_after_app now p es es' : plan_after now p (es ++ es')%list = plan_after now (plan_after now p es) es'.
Proof. revert p. induction es as [|e es IH]; intros p; [done|]. apply IH. Qed.

Lemma plan_after_rounds now p es : ReviewRounds (plan_after now p es) = settled now p es.
Proof. revert p. induction es as [|e es IH]; intros p; [by rewrite settled_nil|]. rewrite settled_step. cbn [plan_after]. destruct (decides p e) as [[i r]|]; apply IH. Qed.

(** An entry decides a round afterwards only if it did before. *)
Lemma decides_later now p es e j x : decides (plan_after now p es) e = Some (j, x) → decides p e = Some (j, x).
Proof.
  revert p. induction es as [|e' es IH]; intros p; [done|]. cbn [plan_after]. intros H%IH. destruct (decides p e') as [[i r]|] eqn:Hd; [|done]. by apply (decides_after now p e' i r Hd) in H as [_ H].
Qed.

(** Entries that were applied decide nothing any more. *)
Lemma applied_decide_nothing now p es e : e ∈ es → decides (plan_after now p es) e = None.
Proof.
  revert p. induction es as [|e' es IH]; intros p; [by intros []%elem_of_nil|]. intros [->|He]%elem_of_cons; [|by apply IH]. cbn [plan_after]. destruct (decides _ e') as [[j x]|] eqn:E; [|done]. apply decides_later in E as E'. destruct (decides p e') as [[i r]|] eqn:Hd; [|congruence].
  apply (decides_after now p e' i r Hd) in E' as [Hne Hd']. rewrite Hd in Hd'. by injection Hd' as ->.
Qed.

Lemma nothing_decided now p es : (∀ e, e ∈ es → decides p e = None) → plan_after now p es = p.
Proof. induction es as [|e es IH]; intros H; [done|]. cbn [plan_after]. rewrite H by apply list_elem_of_here. apply IH. intros x Hx. apply H. by apply list_elem_of_further. Qed.

(** Every decision is the recording of a verdict, so that what holds of the rounds over any sequence of operations holds over a drain. *)
Lemma drain_reviews F now p es : rtc (review_step (λ _, True) F) p (plan_after now p es).
Proof.
  revert p. induction es as [|e es IH]; intros p; [constructor|]. cbn [plan_after]. destruct (decides p e) as [[i r]|] eqn:Hd; [|apply IH]. eapply rtc_l; [|apply IH]. apply decides_spec in Hd as (_ & _ & Hl & _ & _ & Hr).
  destruct (verdict_decides now p e i r Hl) as [[Hv _]|[_ ?]]; [|congruence]. by eapply step_verdict.
Qed.

Lemma drain_keeps_rounds_in_order now p es : rounds_ordered p → rounds_ordered (plan_after now p es).
Proof. intros Hok. by eapply (steps_ok (λ _, True)), (drain_reviews (λ _, "")). Qed.

(** ** A drain with faults *)
Definition writes_through (w : WriteOutcome) : Prop := match w with NotWritten _ => False | _ => True end.

(** The file holds the plan in hand, with the time of its write. *)
Definition in_step (now : string) (d : Drain) : Prop := drain_file d = drain_plan d ∨ drain_file d = with_updated (drain_plan d) now.

Lemma published_outcome now d plan id launch : (published now d plan id launch).2 = false ∧ drain_plan (published now d plan id launch).1 = plan ∧ drain_file (published now d plan id launch).1 = with_updated plan now ∨
  (published now d plan id launch).2 = true ∧ drain_plan (published now d plan id launch).1 = drain_plan d ∧ drain_file (published now d plan id launch).1 = drain_file d ∧ ¬ Forall writes_through (drain_writes d).
Proof.
  unfold published. destruct (drain_writes d) as [|w ws]; simpl; [by left|]. destruct w as [|err|err]; simpl; [by left|by left|]. right. split_and!; [done..|]. by intros [[] _]%Forall_cons_1.
Qed.

Lemma published_writes now d plan id launch : Forall writes_through (drain_writes d) → Forall writes_through (drain_writes (published now d plan id launch).1).
Proof. intros H. assert (Forall writes_through (tail (drain_writes d))) as Ht by (destruct (drain_writes d); [done|by apply Forall_cons_1 in H as [_ ?]]). unfold published. by destruct (default Written (head (drain_writes d))). Qed.

Lemma drain_items_prefix now items d : ∃ k, (k ≤ length items)%nat ∧ (drain_items now st sessionID items d).1.2 = item_name <$> take k items ∧ (drain_items now st sessionID items d).2 = (length items - k)%nat ∧
  drain_plan (drain_items now st sessionID items d).1.1 = plan_after now (drain_plan d) (item_entry <$> take k items) ∧ (in_step now d → in_step now (drain_items now st sessionID items d).1.1) ∧
  (Forall writes_through (drain_writes d) → k = length items).
Proof.
  revert d. induction items as [|i items IH]; intros d; [exists 0; by split_and!|]. cbn [drain_items]. destruct (drain_entry now (item_entry i) d) as [n E]. destruct (decides (drain_plan d) (item_entry i)) as [[j r]|] eqn:Hd.
  - pose proof (published_outcome now d (decided_plan now (drain_plan d) (item_entry i) j r) (RoundID r) (InboxLaunchID (item_entry i))) as Hp. pose proof (published_writes now d (decided_plan now (drain_plan d) (item_entry i) j r) (RoundID r) (InboxLaunchID (item_entry i))) as Hw.
    rewrite E. destruct (published _ _ _ _ _) as [d' retry]. cbn [fst snd] in *. destruct Hp as [(-> & Hplan & Hfile)|(-> & Hplan & Hfile & Hno)].
    + destruct (IH d') as (k & Hk & Hn & Hkept & Hpl & Hst & Hall). destruct (drain_items now st sessionID items d') as [[d'' names] kept]. cbn [fst snd] in *. exists (S k). split_and!; [simpl; lia|simpl; by rewrite Hn|done| | |].
      * rewrite Hpl, Hplan. simpl. by rewrite Hd.
      * intros _. apply Hst. right. by rewrite Hfile, Hplan.
      * intros H%Hw. simpl. by rewrite (Hall H).
    + exists 0. cbn [take fmap list_fmap fst snd length]. split_and!; [lia|done|lia|done| |by intros ?]. unfold in_step. simpl. by rewrite Hplan, Hfile.
  - rewrite E. cbn [noted]. destruct (IH (noted d n)) as (k & Hk & Hn & Hkept & Hpl & Hst & Hall). destruct (drain_items now st sessionID items (noted d n)) as [[d'' names] kept]. cbn [fst snd] in *. exists (S k). split_and!; [simpl; lia|simpl; by rewrite Hn|done| |done|].
    + rewrite Hpl. simpl. by rewrite Hd.
    + intros H. simpl. by rewrite (Hall H).
Qed.
End observer.

(** ** Sorting by receipt *)
Lemma sort_insert_first {A} (key : A → string) x l : Forall (key_le key x) l → sort_insert key x l = x :: l.
Proof. destruct l as [|y l]; [done|]. intros [Hy _]%Forall_cons_1. simpl. unfold key_le, String.le in Hy. by destruct (String.leb (key x) (key y)). Qed.

Lemma sort_insert_filter {A} (key : A → string) (P : A → Prop) `{!∀ x, Decision (P x)} x l : StronglySorted (key_le key) l → filter P (sort_insert key x l) = if decide (P x) then sort_insert key x (filter P l) else filter P l.
Proof.
  induction l as [|y l IH]; intros Hs; [change (sort_insert key x []) with [x]; by rewrite filter_cons, filter_nil|]. pose proof Hs as [Hy Hl]%StronglySorted_cons. simpl. destruct (String.leb (key x) (key y)) eqn:E.
  - rewrite filter_cons. destruct (decide (P x)); [|done]. symmetry. apply sort_insert_first, Forall_forall. intros z0 [_ Hz0]%list_elem_of_filter. revert z0 Hz0. apply Forall_forall. constructor; [unfold key_le, String.le; by rewrite E|]. eapply Forall_impl; [exact Hy|]. intros z Hz. unfold key_le in *. etrans; [|exact Hz]. unfold String.le. by rewrite E.
  - rewrite filter_cons, IH by done. destruct (decide (P x)) as [Hx|Hx]; rewrite (filter_cons P y l); destruct (decide (P y)); try done. simpl. by rewrite E.
Qed.

Lemma sort_by_filter {A} (key : A → string) (P : A → Prop) `{!∀ x, Decision (P x)} l : filter P (sort_by key l) = sort_by key (filter P l).
Proof. induction l as [|x l IH]; [done|]. simpl. rewrite sort_insert_filter by apply sort_by_sorted. rewrite IH, filter_cons. by destruct (decide (P x)). Qed.

(** ** The inbox *)
#[export] Instance entry_eq : EqDecision reviewInboxEntry.
Proof. solve_decision. Defined.
#[export] Instance inbox_file_eq : EqDecision inbox_file.
Proof. solve_decision. Defined.

Definition item_at (inbox : Inbox) (name : string) : option reviewInboxItem := match inbox !! name with Some (KeptEntry e) => Some (mkItem e name) | _ => None end.
Definition kept_items (inbox : Inbox) : list reviewInboxItem := omap (item_at inbox) (reviewObserverInboxNames inbox).
Definition is_corrupt (f : option inbox_file) : bool := match f with Some (NotAnEntry _) => true | _ => false end.
Definition corrupt_names (inbox : Inbox) : list string := filter (λ n, is_corrupt (inbox !! n) = true) (reviewObserverInboxNames inbox).

(** Every entry can be read, and there are not too many to order. *)
Definition readable (inbox : Inbox) : Prop := (length (reviewObserverInboxNames inbox) ≤ reviewObserverInboxReadMax)%nat ∧ ∀ n err, reviewObserverInboxOwnName n = true → inbox !! n ≠ Some (UnreadableEntry err).

Lemma names_own inbox n : n ∈ reviewObserverInboxNames inbox ↔ reviewObserverInboxOwnName n = true ∧ is_Some (inbox !! n).
Proof. unfold reviewObserverInboxNames. by rewrite list_elem_of_filter, elem_of_sorted_keys. Qed.

Lemma read_all inbox : readable inbox → reviewObserverInboxReadAll (InboxOpened inbox) = mkRead (by_receipt (kept_items inbox)) (corrupt_names inbox) [].
Proof.
  intros [Hlen Hread]. unfold reviewObserverInboxReadAll. rewrite (proj2 (Nat.ltb_ge _ _) Hlen). assert (∀ names r, (∀ n, n ∈ names → n ∈ reviewObserverInboxNames inbox) →
    foldl (λ r n, match inbox !! n with Some f => read_file r n f | None => r end) r names = mkRead (read_items r ++ omap (item_at inbox) names)%list (read_corrupt r ++ filter (λ n, is_corrupt (inbox !! n) = true) names)%list (read_blocked r)) as Hfold.
  { induction names as [|n names IH]; intros r Hin; [rewrite filter_nil; cbn [omap list_omap]; rewrite !app_nil_r; by destruct r|]. cbn [foldl]. destruct (proj1 (names_own inbox n) (Hin n (list_elem_of_here _ _))) as [Hown [f Hf]]. rewrite Hf, IH by (intros x Hx; apply Hin; by apply list_elem_of_further).
    rewrite filter_cons. cbn [omap list_omap]. unfold item_at at 2. rewrite Hf. destruct f as [e|dir|err]; cbn [read_file read_items read_corrupt read_blocked is_corrupt]; [rewrite decide_False by done; by rewrite <- (assoc_L (++)%list)|rewrite decide_True by done; by rewrite <- (assoc_L (++)%list)|by destruct (Hread n err Hown)]. }
  rewrite Hfold by done. done.
Qed.

(** ** Removing *)
Lemma removed_lookup names inbox n : remove_all names inbox !! n = if bool_decide (n ∈ names) && reviewObserverInboxOwnName n && negb (stays (inbox !! n)) then None else inbox !! n.
Proof.
  induction names as [|m names IH]; [done|]. cbn [remove_all foldr]. fold (remove_all names inbox). unfold reviewObserverInboxRemove. destruct (decide (m = n)) as [->|Hne].
  - rewrite (bool_decide_eq_true_2 (n ∈ n :: names)) by apply list_elem_of_here. cbn [andb]. destruct (reviewObserverInboxOwnName n); cbn [andb]; [|by rewrite andb_false_r in IH].
    destruct (stays (inbox !! n)) eqn:Es; cbn [negb] in IH |- *; [rewrite andb_false_r in IH; by rewrite IH, Es|].
    assert (stays (remove_all names inbox !! n) = false) as -> by (rewrite IH; by destruct (_ && _)). apply lookup_delete_eq.
  - assert (n ∈ m :: names ↔ n ∈ names) as Hiff by (rewrite elem_of_cons; naive_solver). rewrite (bool_decide_ext _ _ Hiff), <- IH. destruct (reviewObserverInboxOwnName m && negb (stays (remove_all names inbox !! m))); [by rewrite lookup_delete_ne|done].
Qed.

Lemma names_sorted inbox : StronglySorted String.le (reviewObserverInboxNames inbox) ∧ NoDup (reviewObserverInboxNames inbox).
Proof.
  unfold reviewObserverInboxNames. split; [|apply NoDup_filter, NoDup_sorted_keys]. assert (StronglySorted String.le (sorted_keys inbox)) as Hs by apply sort_strings_sorted. induction Hs as [|n l _ IH Hn]; [constructor|]. rewrite filter_cons. destruct (decide _); [|done].
  constructor; [done|]. apply Forall_forall. intros x [_ Hx]%list_elem_of_filter. rewrite Forall_forall in Hn. by apply Hn.
Qed.

Lemma removed_names names inbox : reviewObserverInboxNames (remove_all names inbox) = filter (λ n, n ∉ names ∨ stays (inbox !! n) = true) (reviewObserverInboxNames inbox).
Proof.
  destruct (names_sorted (remove_all names inbox)) as [S1 N1]. destruct (names_sorted inbox) as [S2 N2]. apply (StronglySorted_unique String.le); [done| |].
  - clear S1 N1 N2. induction S2 as [|n l _ IH Hn]; [constructor|]. rewrite filter_cons. destruct (decide _); [|done]. constructor; [done|]. apply Forall_forall. intros x [_ Hx]%list_elem_of_filter. rewrite Forall_forall in Hn. by apply Hn.
  - apply NoDup_Permutation; [done|by apply NoDup_filter|]. intros n. rewrite list_elem_of_filter, !names_own, removed_lookup. case_bool_decide as Hin; [|naive_solver]. destruct (reviewObserverInboxOwnName n); simpl; [|naive_solver].
    destruct (stays (inbox !! n)); simpl; [naive_solver|]. split; [by intros [_ []]|by intros [[?|?] _]].
Qed.

Lemma removed_items names inbox : kept_items (remove_all names inbox) = filter (λ i, item_name i ∉ names) (kept_items inbox).
Proof.
  unfold kept_items. rewrite removed_names. assert (∀ n, n ∈ reviewObserverInboxNames inbox → reviewObserverInboxOwnName n = true) as Hown by (intros n [? _]%names_own; done). induction (reviewObserverInboxNames inbox) as [|n l IH]; [done|].
  specialize (IH (λ m Hm, Hown m (list_elem_of_further _ _ _ Hm))). specialize (Hown n (list_elem_of_here _ _)). assert (omap (item_at inbox) (n :: l) = option_list (item_at inbox n) ++ omap (item_at inbox) l)%list as -> by (cbn [omap list_omap]; by destruct (item_at inbox n)). rewrite filter_app, <- IH, filter_cons.
  assert (∀ e, item_at inbox n = Some e → item_name e = n) as Hname by (unfold item_at; intros e He; repeat case_match; simplify_eq; done). destruct (decide (n ∉ names)) as [Hn|Hn]; [rewrite decide_True by by left|destruct (stays (inbox !! n)) eqn:Es; [rewrite decide_True by by right|rewrite decide_False by naive_solver]].
  - cbn [omap list_omap]. assert (item_at (remove_all names inbox) n = item_at inbox n) as -> by (unfold item_at; by rewrite removed_lookup, bool_decide_eq_false_2). destruct (item_at inbox n) as [e|]; [|done]. change (option_list (Some e)) with [e]. rewrite filter_cons, filter_nil, decide_True; [done|]. by rewrite (Hname e eq_refl).
  - assert (item_at inbox n = None) as En by (unfold item_at; by destruct (inbox !! n) as [[| |]|]). cbn [omap list_omap]. assert (item_at (remove_all names inbox) n = None) as -> by (unfold item_at in *; rewrite removed_lookup, Es, andb_false_r; done). by rewrite En.
  - destruct (item_at inbox n) as [e|]; [|done]. change (option_list (Some e)) with [e]. rewrite filter_cons, filter_nil, decide_False; [done|]. by rewrite (Hname e eq_refl).
Qed.

Lemma kept_names inbox : NoDup (item_name <$> kept_items inbox) ∧ ∀ i, i ∈ kept_items inbox → inbox !! item_name i = Some (KeptEntry (item_entry i)).
Proof.
  unfold kept_items. pose proof (proj2 (names_sorted inbox)) as Hn. assert (∀ n i, item_at inbox n = Some i → item_name i = n ∧ inbox !! n = Some (KeptEntry (item_entry i))) as Hat by (unfold item_at; intros n i Hi; repeat case_match; simplify_eq; done). split.
  - induction Hn as [|n l Hn _ IH]; [constructor|]. cbn [omap list_omap]. destruct (item_at inbox n) as [i|] eqn:Ei; [|done]. rewrite fmap_cons. constructor; [|done]. intros (j & Ej & (m & Hm & Hj)%list_elem_of_omap)%list_elem_of_fmap. apply Hat in Hj as [Hj _]. apply Hat in Ei as [Ei _]. congruence.
  - intros i (n & _ & Hi)%list_elem_of_omap. by apply Hat in Hi as [<- ?].
Qed.

Lemma filter_agree {A} (P Q : A → Prop) `{!∀ x, Decision (P x), !∀ x, Decision (Q x)} (l : list A) : (∀ x, x ∈ l → (P x ↔ Q x)) → filter P l = filter Q l.
Proof.
  induction l as [|x l IH]; intros Hl; [done|]. rewrite !filter_cons, IH by (intros y Hy; apply Hl; by apply list_elem_of_further). pose proof (Hl x (list_elem_of_here _ _)) as Hx. destruct (decide (P x)), (decide (Q x)); naive_solver.
Qed.

Lemma taken_gone (items : list reviewInboxItem) k : NoDup (item_name <$> items) → filter (λ i, item_name i ∉ item_name <$> take k items) items = drop k items.
Proof.
  revert k. induction items as [|i items IH]; intros k Hn; [by destruct k|]. rewrite fmap_cons in Hn. apply NoDup_cons in Hn as [Hi Hn]. destruct k as [|k]; [apply filter_all; intros x _; apply not_elem_of_nil|].
  rewrite filter_cons, decide_False by (intros H; apply H; rewrite firstn_cons, fmap_cons; apply list_elem_of_here). change (drop (S k) (i :: items)) with (drop k items). rewrite <- (IH k Hn). apply filter_agree. intros x Hx. rewrite firstn_cons, fmap_cons, not_elem_of_cons.
  split; [by intros [_ ?]|]. intros H. split; [|done]. intros E. apply Hi. rewrite <- E. by apply list_elem_of_fmap_2.
Qed.

(** ** Draining an inbox *)
Section drain.
Context (st : Session) (sessionID : string).

(** A drain of the inbox of a session by a caller that holds the locks: the plan, the inbox and the number of entries that wait on. *)
Definition drained (now : string) (inbox : Inbox) (d : Drain) : Drain * Inbox * nat :=
  match drainInbox now (reviewObserverInboxReadAll (InboxOpened inbox)) st sessionID [] None d with
  | inl out => (outcome_drain out, remove_all (outcome_removed out) inbox, outcome_kept out)
  | inr _ => (d, inbox, 0%nat)
  end.

(** The entries by the time of their receipt. *)
Definition oldest_first (inbox : Inbox) : list reviewInboxItem := sort_by (λ i, ReceivedAt (item_entry i)) (kept_items inbox).

Lemma oldest_names inbox : NoDup (item_name <$> oldest_first inbox).
Proof. unfold oldest_first. rewrite sort_by_perm. apply kept_names. Qed.

Lemma drained_prefix now inbox d : readable inbox → ∃ k, (k ≤ length (oldest_first inbox))%nat ∧ oldest_first (drained now inbox d).1.2 = drop k (oldest_first inbox) ∧ readable (drained now inbox d).1.2 ∧
  (drained now inbox d).2 = (length (oldest_first inbox) - k)%nat ∧ drain_plan (drained now inbox d).1.1 = plan_after st sessionID now (drain_plan d) (item_entry <$> take k (oldest_first inbox)) ∧
  (in_step now d → in_step now (drained now inbox d).1.1) ∧ (Forall writes_through (drain_writes d) → k = length (oldest_first inbox)).
Proof.
  intros Hr. unfold drained. rewrite read_all by done. unfold drainInbox. cbn [read_items read_corrupt read_blocked]. change (by_receipt (kept_items inbox)) with (oldest_first inbox). rewrite app_nil_r. destruct (_ && _) eqn:Eb.
  - rewrite !andb_true_iff, !bool_decide_eq_true in Eb. destruct Eb as [_ E]. exists 0. cbn [fst snd outcome_drain outcome_removed outcome_kept remove_all foldr]. rewrite E. by split_and!.
  - set (d1 := mkDrain _ _ _ _). destruct (drain_items_prefix st sessionID now (oldest_first inbox) d1) as (k & Hk & Hnames & Hkept & Hplan & Hstep & Hall). destruct (drain_items now st sessionID (oldest_first inbox) d1) as [[d2 names] kept]. cbn [fst snd outcome_drain outcome_removed outcome_kept] in *.
    exists k. split_and!; [done| | |done|done|done|done].
    + unfold oldest_first at 1. rewrite removed_items, <- sort_by_filter. fold (oldest_first inbox). rewrite <- (taken_gone (oldest_first inbox) k) by apply oldest_names. apply filter_agree. intros i Hi. rewrite not_elem_of_app, Hnames. split; [by intros [_ ?]|]. intros H. split; [|done].
      unfold oldest_first in Hi. rewrite elem_of_sort_by in Hi. apply kept_names in Hi. intros [Hc _]%list_elem_of_filter. by rewrite Hi in Hc.
    + destruct Hr as [Hlen Hread]. split.
      * rewrite removed_names. pose proof (length_filter (λ n, n ∉ (corrupt_names inbox ++ names)%list ∨ stays (inbox !! n) = true) (reviewObserverInboxNames inbox)). lia.
      * intros n err Hown. rewrite removed_lookup, Hown. intros E. destruct (_ && _ && negb _) in E; [done|]. by apply (Hread n err Hown).
Qed.

(** A round without the time of its closing. *)
Definition untimed (r : ReviewRoundState) : ReviewRoundState := moved r (RoundStatus r) None (Lane r).

Lemma deciding_run now p js j es : deciding st sessionID (plan_after st sessionID now p js) j es = match deciding st sessionID p j js with Some _ => None | None => deciding st sessionID p j es end.
Proof.
  revert p. induction js as [|e js IH]; intros p; [done|]. cbn [plan_after]. rewrite IH. unfold deciding at 3. rewrite filter_cons. destruct (decides st sessionID p e) as [[i r]|] eqn:Hd; [|by rewrite decide_False].
  rewrite !(deciding_after st sessionID now p e i r _ j Hd). cbn [fmap option_fmap option_map fst]. case_bool_decide as Hji; [subst j; by rewrite decide_True|]. rewrite decide_False by congruence. done.
Qed.

Lemma deciding_app p j es es' : deciding st sessionID p j (es ++ es')%list = match deciding st sessionID p j es with Some e => Some e | None => deciding st sessionID p j es' end.
Proof. unfold deciding. rewrite filter_app. by destruct (filter _ es). Qed.

(** Entries that are applied later decide what they would have decided at once. *)
Lemma settled_later now now' p js es : untimed <$> settled st sessionID now' (plan_after st sessionID now p js) es = untimed <$> settled st sessionID now p (js ++ es)%list.
Proof.
  apply list_eq. intros j. rewrite !list_lookup_fmap. unfold settled at 1. rewrite plan_after_rounds. unfold settled. rewrite !list_lookup_imap. destruct (ReviewRounds p !! j) as [r|]; [|done]. simpl. rewrite deciding_run, deciding_app. destruct (deciding st sessionID p j js) as [e|]; [done|]. by destruct (deciding st sessionID p j es).
Qed.

Lemma file_decides now d e : in_step now d → decides st sessionID (drain_file d) e = decides st sessionID (drain_plan d) e.
Proof. by intros [-> | ->]. Qed.

Lemma file_settled now now' d es : in_step now d → settled st sessionID now' (drain_file d) es = settled st sessionID now' (drain_plan d) es.
Proof. by intros [-> | ->]. Qed.

Lemma all_taken inbox : take (length (oldest_first inbox)) (oldest_first inbox) = oldest_first inbox.
Proof. by apply take_ge. Qed.

(** C38: the sign-offs that a session kept are applied first come, first served, when its inbox can be read (every entry, and no more than can be ordered) and no write fails: each audit round is
    decided by the oldest sign-off that may decide it as the plan was (one of this session and plan, for the launch of a round that is in flight and the latest, bound to the epoch and the work phase
    of the moment, of a named agent that is no second reviewer), and no other round changes; the file holds that plan; no entry is left. Draining the same entries again, as after a crash before they
    were removed, changes nothing. *)
Theorem first_signoff_decides now inbox plan writes : readable inbox → Forall writes_through writes →
  let '(d, inbox', waiting) := drained now inbox (mkDrain plan plan [] writes) in let entries := item_entry <$> oldest_first inbox in
  ReviewRounds (drain_plan d) = settled st sessionID now plan entries ∧ in_step now d ∧ waiting = 0%nat ∧ kept_items inbox' = [] ∧
  ∀ now' writes', drain_plan (drained now' inbox (mkDrain (drain_plan d) (drain_plan d) [] writes')).1.1 = drain_plan d.
Proof.
  intros Hr Hw. destruct (drained_prefix now inbox (mkDrain plan plan [] writes) Hr) as (k & _ & Hold & _ & Hwait & Hplan & Hstep & Hall). rewrite (Hall Hw) in Hold, Hwait, Hplan. rewrite all_taken in Hplan. destruct (drained now inbox (mkDrain plan plan [] writes)) as [[d inbox'] waiting]. cbn [fst snd drain_plan] in *. cbv zeta. split_and!.
  - rewrite Hplan. apply plan_after_rounds.
  - apply Hstep. by left.
  - lia.
  - rewrite drop_all in Hold. apply (f_equal length) in Hold. unfold oldest_first in Hold. rewrite length_sort_by in Hold. by destruct (kept_items inbox').
  - intros now' writes'. destruct (drained_prefix now' inbox (mkDrain (drain_plan d) (drain_plan d) [] writes') Hr) as (k' & _ & _ & _ & _ & -> & _). cbn [drain_plan]. apply nothing_decided. intros e (i & -> & Hi)%list_elem_of_fmap. rewrite Hplan. apply applied_decide_nothing. apply list_elem_of_fmap_2. by apply elem_of_take in Hi as (n & Hi%list_elem_of_lookup_2 & _).
Qed.

(** C39: a write that fails delays the sign-offs of a session and neither loses nor reorders them, as long as its inbox can be read. Whatever the writes of a drain do, the entries it decided are the
    oldest ones and the rest is in the inbox as it came, in its order. When the next drain finds that inbox, the same session state and the plan of the file, and its writes go through, every round is
    as if all the sign-offs had been applied at once in the order they came, but for the time of its closing, and no entry is left. *)
Theorem failed_writes_only_delay now now' inbox plan writes writes' : readable inbox → Forall writes_through writes' →
  let '(d, inbox1, waiting) := drained now inbox (mkDrain plan plan [] writes) in
  let '(d', inbox2, waiting') := drained now' inbox1 (mkDrain (drain_file d) (drain_file d) [] writes') in
  (∃ k, (k ≤ length (oldest_first inbox))%nat ∧ oldest_first inbox1 = drop k (oldest_first inbox) ∧ waiting = (length (oldest_first inbox) - k)%nat ∧
    drain_plan d = plan_after st sessionID now plan (item_entry <$> take k (oldest_first inbox))) ∧
  waiting = length (kept_items inbox1) ∧ waiting' = 0%nat ∧ kept_items inbox2 = [] ∧ untimed <$> ReviewRounds (drain_plan d') = untimed <$> settled st sessionID now plan (item_entry <$> oldest_first inbox).
Proof.
  intros Hr Hw. destruct (drained_prefix now inbox (mkDrain plan plan [] writes) Hr) as (k & Hk & Hold & Hr1 & Hwait & Hplan & Hstep & _). destruct (drained now inbox (mkDrain plan plan [] writes)) as [[d inbox1] waiting]. cbn [fst snd drain_plan] in *.
  destruct (drained_prefix now' inbox1 (mkDrain (drain_file d) (drain_file d) [] writes') Hr1) as (k' & _ & Hold' & _ & Hwait' & Hplan' & _ & Hall). rewrite (Hall Hw) in Hold', Hwait', Hplan'. rewrite all_taken in Hplan'. destruct (drained now' inbox1 _) as [[d' inbox2] waiting']. cbn [fst snd drain_plan] in *.
  assert (in_step now d) as Hs by (apply Hstep; by left). split_and!.
  - by exists k.
  - apply (f_equal length) in Hold. rewrite length_drop in Hold. change (oldest_first inbox1) with (sort_by (λ i, ReceivedAt (item_entry i)) (kept_items inbox1)) in Hold. rewrite length_sort_by in Hold. lia.
  - lia.
  - rewrite drop_all in Hold'. apply (f_equal length) in Hold'. unfold oldest_first in Hold'. rewrite length_sort_by in Hold'. by destruct (kept_items inbox2).
  - rewrite Hplan', plan_after_rounds, (file_settled now) by done. rewrite Hplan, Hold, settled_later. rewrite <- fmap_app, take_drop. done.
Qed.
End drain.

(** ** Keeping *)
(** An inbox of entries, within the bound. *)
Definition tidy (inbox : Inbox) : Prop := (length (reviewObserverInboxNames inbox) ≤ reviewObserverInboxMax)%nat ∧ ∀ n err, inbox !! n ≠ Some (UnreadableEntry err).

Lemma tidy_readable inbox : tidy inbox → readable inbox.
Proof. intros [Hl Hn]. split; [unfold reviewObserverInboxMax, reviewObserverInboxReadMax in *; lia|]. intros n err _. apply Hn. Qed.

Lemma names_insert inbox n f : (length (reviewObserverInboxNames (<[n := f]> inbox)) ≤ S (length (reviewObserverInboxNames inbox)))%nat.
Proof.
  change (S (length (reviewObserverInboxNames inbox))) with (length (n :: reviewObserverInboxNames inbox)). apply submseteq_length, NoDup_submseteq; [apply names_sorted|]. intros m [Hown Hm]%names_own. destruct (decide (n = m)) as [->|Hne]; [apply list_elem_of_here|].
  apply list_elem_of_further, names_own. by rewrite lookup_insert_ne in Hm by done.
Qed.

(** Keeping a sign-off stays within the bound, and an entry that is there is kept as it is. *)
Theorem put_keeps_the_inbox_tidy unopened unwritten e now inbox : tidy inbox → tidy (reviewObserverInboxPut unopened unwritten e now inbox).2 ∧
  ∀ n f, inbox !! n = Some f → (reviewObserverInboxPut unopened unwritten e now inbox).2 !! n = Some f.
Proof.
  intros Ht. unfold reviewObserverInboxPut. destruct unopened; [done|]. case_bool_decide as He; [done|]. destruct (Nat.leb_spec reviewObserverInboxMax (length (reviewObserverInboxNames inbox))) as [|Hlt]; [done|]. destruct unwritten; [done|]. destruct Ht as [Hl Hn]. split.
  - split; [pose proof (names_insert inbox (reviewObserverInboxName e) (KeptEntry (received e now))); simpl; lia|]. intros n err. simpl. rewrite lookup_insert_Some. intros [[_ ?]|[_ ?]]; [done|by eapply Hn].
  - intros n f Hf. simpl. rewrite lookup_insert_ne; [done|]. intros <-. apply He. eauto.
Qed.

(** A sign-off of a named child that met no fault on its way into the inbox is still there after the hook, or the hook decided on it. *)
Theorem signoff_is_kept_or_judged now raw w inbox m s : payload_of raw = Some m → stop_field m "hook_event_name" = "SubagentStop" → IsGatedAgentType (stop_field m "agent_type") = false → stop_field m "cwd" ≠ "" →
  stop_field m "session_id" ≠ "" → Fsm.Slug (unlocked_state w) ≠ "" → ParseSignoff (stop_field m "last_assistant_message") = Some s → stop_field m "agent_id" ≠ "" → put_unopened w = None → put_unwritten w = None →
  (length (reviewObserverInboxNames inbox) < reviewObserverInboxMax)%nat →
  let name := reviewObserverInboxName (reviewObserverNewEntry (stop_field m "session_id") (unlocked_state w) (unlocked_plan w) (stop_field m "agent_id") s now) in
  let '(out, _, inbox') := HandleReviewObserver now raw w inbox in is_Some (inbox' !! name) ∨ ∃ o, out = Some o ∧ name ∈ outcome_removed o.
Proof.
  intros Hm Hev Hg Hcwd Hsid Hslug Hs Ha Hu1 Hu2 Hlen name. unfold HandleReviewObserver. rewrite Hm, Hs. cbv zeta. rewrite (bool_decide_eq_true_2 _ Hev), Hg, (bool_decide_eq_false_2 _ Hcwd), (bool_decide_eq_false_2 _ Hsid), (bool_decide_eq_false_2 _ Hslug). cbn [negb orb].
  assert (∃ inbox1, keep_signoff now w (stop_field m "session_id") (stop_field m "agent_id") (Some s) inbox = ([], [], inbox1) ∧ is_Some (inbox1 !! name)) as (inbox1 & -> & Hin).
  { unfold keep_signoff. rewrite (bool_decide_eq_false_2 _ Ha). unfold reviewObserverInboxPut. rewrite Hu1, Hu2. fold name. case_bool_decide as He; [by eexists|]. rewrite (proj2 (Nat.leb_gt _ _) Hlen). eexists. split; [done|]. rewrite lookup_insert_eq. eauto. }
  destruct (_ || _); [by left|]. destruct (locked_plan w) as [plan|]; [|by left]. destruct (drainInbox _ _ _ _ _ _ _) as [o|]; [|by left]. rewrite removed_lookup. destruct (bool_decide_reflect (name ∈ outcome_removed o)); [right; eauto|by left].
Qed.

(** * A plan audit from its opening to the next phase *)
Lemma active_phase plan : reviewRoundRunActiveWorkPhase plan = default "" (EffectiveActiveWorkPhaseID plan).
Proof.
  unfold reviewRoundRunActiveWorkPhase, EffectiveActiveWorkPhaseID, queryFindWorkPhase. set (running := filter _ (WorkPhases plan)) at 1. set (waiting := filter (λ p, PStatus p = WorkPhasePending ∧ _) (WorkPhases plan)).
  assert (match head running with Some p => PhaseID p | None => match head waiting with Some p => PhaseID p | None => "" end end = default "" (match running with p :: _ => Some (PhaseID p) | [] => match waiting with p :: _ => Some (PhaseID p) | [] => None end end)) as Hf by (by destruct running, waiting).
  destruct (ActiveWorkPhaseID plan) as [cursor|]; [|exact Hf]. case_bool_decide; [exact Hf|]. destruct (head (filter (λ p, PhaseID p = cursor) (WorkPhases plan))) as [p|] eqn:Eh; [|exact Hf]. destruct (IsRunnablePhase plan p); [|exact Hf]. apply head_Some_elem_of, list_elem_of_filter in Eh as [Eh _]. done.
Qed.

(** Binding a round does not disturb the order of the rounds. *)
Lemma bound_ordered p i r session workPhase unit epoch files : rounds_ordered p → ReviewRounds p !! i = Some r → rounds_ordered (with_rounds p (<[i := bind_round session workPhase unit epoch files r]> (ReviewRounds p))).
Proof.
  intros [Hids Hgood Hlatest Hcursor] Hi. set (b := bind_round session workPhase unit epoch files r). assert (i < length (ReviewRounds p))%nat as Hlt by by eapply lookup_lt_Some.
  assert (∀ x, x ∈ <[i := b]> (ReviewRounds p) → x ∈ ReviewRounds p ∨ x = b) as Hto by (intros x (k & Hk)%list_elem_of_lookup; apply list_lookup_insert_Some in Hk as [(_ & -> & _)|[_ Hk]]; [by right|left; by eapply list_elem_of_lookup_2]).
  assert (r ∈ ReviewRounds p) as Hr by by eapply list_elem_of_lookup_2.
  assert (∀ x, x ∈ <[i := b]> (ReviewRounds p) → ∃ y, y ∈ ReviewRounds p ∧ RoundID y = RoundID x ∧ Purpose y = Purpose x ∧ RoundStatus y = RoundStatus x) as Hsim by (intros x [Hx| ->]%Hto; [by exists x|by exists r]).
  constructor; unfold with_rounds; cbn [ReviewRounds reviewWithRounds].
  - rewrite list_fmap_insert. change (RoundID b) with (RoundID r). by rewrite list_insert_id by (by rewrite list_lookup_fmap, Hi).
  - apply Forall_insert; [done|]. rewrite Forall_forall in Hgood. destruct (Hgood r Hr) as [? ? ? ?]. by constructor.
  - intros x y (x' & Hx' & Ix & Px & Sx)%Hsim (y' & Hy' & Iy & Py & Sy)%Hsim Hp Ho. rewrite <- Ix, <- Iy. apply Hlatest; [done..|congruence|]. unfold closed_round in *. by rewrite Sx.
  - intros u id. assert (reviewCursor (reviewWithRounds p (<[i := b]> (ReviewRounds p)) PurposePlanAudit (ActivePlanAuditRoundID p)) u = reviewCursor p u) as -> by by destruct u. rewrite Hcursor. split.
    + intros (x & (k & Hk)%list_elem_of_lookup & Ho & E). destruct (decide (i = k)) as [<-|Hne].
      * exists b. split_and!; [by eapply list_elem_of_lookup_2, list_lookup_insert_eq|rewrite Hi in Hk; by injection Hk as <-|rewrite Hi in Hk; by injection Hk as <-].
      * exists x. split_and!; [eapply (list_elem_of_lookup_2 _ k); by rewrite list_lookup_insert_ne|done|done].
    + intros (x & [Hx| ->]%Hto & Ho & E); [by exists x|by exists r].
Qed.

Lemma files_hash_nonempty files : PlanFilesHash files ≠ "".
Proof. intros E. pose proof (sha256_hex_shape (join_sep nul ((λ f, f.1 +:+ nul +:+ f.2) <$> files))) as H. fold (PlanFilesHash files) in H. by rewrite E in H. Qed.

(** With no audit open, nobody holds one. *)
Lemma none_held ReadStateStrict slug session p : rounds_ordered p → ActivePlanAuditRoundID p = None → held_round ReadStateStrict slug session p = None.
Proof.
  intros Hok Hc. unfold held_round. pose proof (effective_none p PurposePlanAudit (no_effective p PurposePlanAudit Hok Hc)) as Hn. induction (ReviewRounds p) as [|r l IH]; [done|]. simpl. rewrite (Hn r) by apply list_elem_of_here. apply IH. intros x Hx. by apply Hn, list_elem_of_further.
Qed.

(** A round that was sent out: in flight, bound to what it was opened for, and signed by nobody. *)
Record sent_round (session workPhase unit epoch : string) (files : list (string * string)) (p : Goalplan) (i : nat) (r : ReviewRoundState) : Prop := {
  sent_ordered : rounds_ordered p;
  sent_there : ReviewRounds p !! i = Some r;
  sent_status : RoundStatus r = ReviewInFlight;
  sent_purpose : Purpose r = PurposePlanAudit;
  sent_binding : (OwnerSessionID r, RoundWorkPhaseID r, PlanUnit r, GoalTypes.PlanEpoch r, PlanFiles r, PlanSha256 r) = (session, workPhase, unit, epoch, files, PlanFilesHash files);
  sent_unsigned : ReviewerSession (Lane r) = None
}.

Lemma send_works F session workPhase unit epoch files now p : rounds_ordered p → ActivePlanAuditRoundID p = None → unit ≠ "" → (highest_order p + 1 < reviewRoundIDLimit)%Z →
  ∃ flying round i r, send_round F session workPhase unit epoch files now p = inr (flying, round) ∧ sent_round session workPhase unit epoch files flying i r ∧ LaunchID (Lane r) = LaunchID (Lane round) ∧
    EffectiveActiveWorkPhaseID flying = EffectiveActiveWorkPhaseID p.
Proof.
  intros Hok Hc Hu Hn. set (input := mkOpen PurposePlanAudit unit (PlanFilesHash files)). destruct (open_works F p input now (files_hash_nonempty files) Hu Hn) as (q0 & r0 & E0). pose proof (opened_ok (λ _, True) _ _ _ _ _ _ Hok E0) as K0.
  destruct (opened_there _ _ _ _ _ _ E0) as (i & I0 & U0 & S0 & P0 & H0). assert (ReviewerSession (Lane r0) = None ∧ EffectiveActiveWorkPhaseID q0 = EffectiveActiveWorkPhaseID p) as [Hs Ha].
  { revert E0. unfold OpenRound. rewrite !bool_decide_false by (done || apply files_hash_nonempty). rewrite (no_effective p (OpenPurpose input) Hok Hc). unfold append_round. destruct (reviewNextRoundID F p); [done|]. by intros [= <- <-]. }
  unfold send_round. fold input. rewrite E0. cbv zeta. unfold reviewRoundRunBound. pose proof (launch_finds _ _ _ K0 I0) as Hl. rewrite U0 in Hl. change (OpenPurpose input) with PurposePlanAudit in *. rewrite Hl. cbn [mbind option_bind].
  set (r1 := bind_round session workPhase unit epoch files r0). set (q1 := with_rounds q0 (<[i:=r1]> (ReviewRounds q0))). pose proof (bound_ordered q0 i r0 session workPhase unit epoch files K0 I0) as K1. fold r1 q1 in K1.
  assert (ReviewRounds q1 !! i = Some r1) as I1 by exact (replaced_there (ReviewRounds q0) i r0 r1 I0).
  pose proof (advance_works q1 i r1 ReviewPending (λ r, moved r ReviewLaunching (RoundClosedAt r) (with_workspace (Lane r) None)) false K1 I1 S0 eq_refl) as E1. change (Purpose r1) with (Purpose r0) in E1. rewrite U0 in E1. cbn [RoundID] in E1.
  pose proof (step_ok (λ _, True) F _ _ K1 (step_launching _ _ _ _ _ _ _ _ _ E1)) as K2. unfold MarkLaunching. change (RoundID r0) with (RoundID r1). change (LaunchID (Lane r0)) with (LaunchID (Lane r1)). rewrite E1.
  set (r2 := moved r1 ReviewLaunching _ _) in *. match type of E1 with _ = ReviewOK ?q _ => set (q2 := q) in * end. assert (ReviewRounds q2 !! i = Some r2) as I2 by exact (replaced_there (ReviewRounds q1) i r1 r2 I1).
  pose proof (advance_works q2 i r2 ReviewLaunching (λ r, moved r ReviewInFlight (RoundClosedAt r) (Lane r)) false K2 I2 eq_refl eq_refl) as E2. change (Purpose r2) with (Purpose r0) in E2. rewrite U0 in E2.
  pose proof (step_ok (λ _, True) F _ _ K2 (step_in_flight _ _ _ _ _ _ _ _ E2)) as K3. unfold MarkInFlight. change (reviewAdvance q2 PurposePlanAudit (RoundID r1) (LaunchID (Lane r1))) with (reviewAdvance q2 PurposePlanAudit (RoundID r2) (LaunchID (Lane r2))). rewrite E2.
  exists (reviewWithRounds q2 (reviewReplaceRound (ReviewRounds q2) i (moved r2 ReviewInFlight (RoundClosedAt r2) (Lane r2))) PurposePlanAudit (Some (RoundID r2))), r0, i, (moved r2 ReviewInFlight (RoundClosedAt r2) (Lane r2)). split; [reflexivity|]. split; [|by split]. split; [exact K3|exact (replaced_there (ReviewRounds q2) i r2 _ I2)|done|exact U0| |exact Hs]. cbn. by rewrite H0.
Qed.

(** An attestation does not speak against a recorded verdict: it names no other verdict, and it disposes of every blocker that was counted. *)
Definition agrees (attest : option Attestation) (v : GoalTypes.Verdict) (blockers : Z) : Prop :=
  match attest with
  | None => True
  | Some a => (AuditVerdict a = "" ∨ AuditVerdict a = verdict_text v) ∧ (v = VerdictNearPass → (0 < blockers)%Z → DisposesBlockers attest blockers = true)
  end.

Lemma guard_none (b : bool) (reason : string) (x : option string) : (if b then Some reason else x) = None ↔ b = false ∧ x = None.
Proof. destruct b; naive_solver. Qed.

Lemma binding_checked Recomputed p cur session attest i round v : LatestRound p PurposePlanAudit = Some (i, round) → LaneVerdict (Lane round) = Some v →
  orchestrateReviewBindingCheckPlan Recomputed (Some p) cur session attest = None ↔
  (OwnerSessionID round ≠ "" ∧ RoundWorkPhaseID round ≠ "" ∧ GoalTypes.PlanEpoch round ≠ "" ∧ PlanFiles round ≠ []) ∧ OwnerSessionID round = session ∧ Fsm.PlanEpoch cur = Some (GoalTypes.PlanEpoch round) ∧
  EffectiveActiveWorkPhaseID p = Some (RoundWorkPhaseID round) ∧ PlanFilesHash (Recomputed (PlanFiles round)) = PlanSha256 round ∧ agrees attest v (Blockers (Lane round)).
Proof.
  intros Hl Hv. unfold orchestrateReviewBindingCheckPlan. cbn [mbind option_bind]. rewrite Hl. cbn [mbind option_bind]. rewrite Hv. cbn [mbind option_bind].
  rewrite !guard_none, !orb_false_iff, !negb_false_iff, !bool_decide_eq_false, !bool_decide_eq_true. unfold agrees. destruct attest as [a|]; [|tauto]. rewrite !guard_none, !andb_false_iff, !negb_false_iff, Z.ltb_ge, bool_decide_eq_false, !bool_decide_eq_true.
  destruct (decide (v = VerdictNearPass)), (decide (Blockers (Lane round) ≤ 0)%Z), (DisposesBlockers (Some a) (Blockers (Lane round))); intuition (done || lia).
Qed.

(** The sign-off of a named child for a round that was sent out decides it, and the round is then the latest one. *)
Lemma sent_is_decided st session workPhase unit epoch files p i r agent v n findings at_ now writes : sent_round session workPhase unit epoch files p i r → SPhase st = PhaseA → Fsm.PlanEpoch st = Some epoch → epoch ≠ "" → workPhase ≠ "" →
  EffectiveActiveWorkPhaseID p = Some workPhase → agent ≠ "" → Forall writes_through writes →
  let e := reviewObserverNewEntry session st (Some p) agent (mkSignoff (LaunchID (Lane r)) v n findings) at_ in
  let '(d, retry) := drainEntry now st session e (mkDrain p p [] writes) in
  retry = false ∧ drain_file d = with_updated (drain_plan d) now ∧ EffectiveActiveWorkPhaseID (drain_plan d) = Some workPhase ∧ LatestRound (drain_plan d) PurposePlanAudit = Some (i, decided_by now e r).
Proof.
  intros [Hok Hi Hst Hu Hb Hr] Hph Hep Hne Hwp Hact Hag Hw e. injection Hb as Hown Hphase Hunit Hepoch Hfiles Hsha. pose proof (launch_finds _ _ _ Hok Hi) as Hl. rewrite Hu in Hl.
  assert (InboxWorkPhaseID e = workPhase) as Hewp by (unfold e, reviewObserverNewEntry; cbn; rewrite Hl, Hphase; by rewrite bool_decide_eq_false_2).
  assert (decides st session p e = Some (i, r)) as Hd.
  { apply decides_spec. split_and!; [done|done|exact Hl| | |].
    - unfold unbound. rewrite Hph, Hown, Hepoch, Hep, Hr. cbn. rewrite Hep. cbn. rewrite !bool_decide_eq_true_2, (bool_decide_eq_true_2 (epoch = epoch)) by done. by rewrite (bool_decide_eq_false_2 _ Hne), (bool_decide_eq_false_2 _ Hag).
    - unfold other_phase. rewrite Hact, Hphase, Hewp, (bool_decide_eq_false_2 _ Hwp), (bool_decide_eq_true_2 (workPhase = workPhase)) by done. done.
    - apply decidable_spec. split; [done|]. intros x Hx Hpx. destruct (ok_latest _ Hok r x) as [->|]; [by eapply list_elem_of_lookup_2|done|congruence|unfold closed_round; by rewrite Hst|lia|lia]. }
  destruct (drain_entry st session now e (mkDrain p p [] writes)) as [note ->]. cbn [drain_plan]. rewrite Hd. unfold published. cbn [drain_writes drain_notes drain_plan drain_file].
  assert (LatestRound (decided_plan now p e i r) PurposePlanAudit = Some (i, decided_by now e r)) as HL.
  { pose proof (latest_replaced (λ _, True) p i r (decided_by now e r) None Hok Hi) as HL. rewrite Hu in HL. apply HL; [unfold closed_round; by rewrite Hst|]. exact (move_judged (λ _, True) r (signed_verdict e r) now Hst I). }
  destruct Hw as [|w ws Hw _]; [done|]. cbn [head default from_option id]. destruct w; [done|done|]. done.
Qed.

Lemma updated_ordered p now : rounds_ordered p → rounds_ordered (with_updated p now).
Proof. intros [? ? ? Hc]. split; [done..|]. intros u id. rewrite <- Hc. by destruct u. Qed.

Lemma sent_updated session workPhase unit epoch files p i r now : sent_round session workPhase unit epoch files p i r → sent_round session workPhase unit epoch files (with_updated p now) i r.
Proof. intros [? ? ? ? ? ?]. split; [by apply updated_ordered|done..]. Qed.

(** C11: an audit that was opened and answered decides whether its session goes on. With no audit open, a session in Audit of a plan with rounds in order, an active work phase and files to review can open one; the sign-off of a named child that quotes the launch is recorded,
    whichever way its write goes through; then the check before the next phase lets the session go on exactly when the files of the plan still have the hash they were opened with and its attestation
    names no other verdict than the reviewer's and disposes of every blocker the reviewer counted. *)
Theorem audit_decides_the_next_phase F ReadStateStrict session st unit epoch workPhase files p now :
  SPhase st = PhaseA → Fsm.Slug st ≠ "" → SPlanUnit st = Some unit → unit ≠ "" → Fsm.PlanEpoch st = Some epoch → epoch ≠ "" → session ≠ "" → files ≠ [] → rounds_ordered p → ActivePlanAuditRoundID p = None →
  EffectiveActiveWorkPhaseID p = Some workPhase → workPhase ≠ "" → (highest_order p + 1 < reviewRoundIDLimit)%Z →
  ∃ flying round, reviewRoundRunOpen F ReadStateStrict session st (Answered files) (Answered (p, true)) Written now = CommandDone flying round "" ∧ let file := with_updated flying now in
    ∀ agent v blockers findings received judged writes, agent ≠ "" → Forall writes_through writes →
    let e := reviewObserverNewEntry session st (Some file) agent (mkSignoff (LaunchID (Lane round)) v blockers findings) received in
    let '(d, retry) := drainEntry judged st session e (mkDrain file file [] writes) in
    retry = false ∧ ∀ Recomputed attest, orchestrateReviewBindingCheckPlan Recomputed (Some (drain_file d)) st session attest = None ↔ PlanFilesHash (Recomputed files) = PlanFilesHash files ∧ agrees attest v blockers.
Proof.
  intros Hph Hslug Hunit Hune Hep Hene Hses Hfiles Hok Hc Hact Hwp Hn. destruct (send_works F session workPhase unit epoch files now p Hok Hc Hune Hn) as (flying & round & i & r & Hsend & Hsent & Hlaunch & Hsame).
  exists flying, round. split.
  - unfold reviewRoundRunOpen. rewrite Hph, (bool_decide_eq_false_2 _ Hslug), Hunit, Hep, (bool_decide_eq_false_2 _ Hune), (bool_decide_eq_false_2 _ Hene). cbn [negb bool_decide decide_rel orb]. rewrite bool_decide_eq_true_2 by done. cbn [negb reviewRoundRunLocked].
    rewrite active_phase, Hact. cbn [default from_option id]. rewrite (bool_decide_eq_false_2 _ Hwp), none_held by done. by rewrite Hsend.
  - cbv zeta. intros agent v blockers findings received judged writes Hag Hw. rewrite <- Hlaunch. apply (sent_updated _ _ _ _ _ _ _ _ now) in Hsent. pose proof (sent_binding _ _ _ _ _ _ _ _ Hsent) as Hb. injection Hb as Hown Hphase _ Hepoch Hpf Hsha.
    pose proof (sent_is_decided st session workPhase unit epoch files (with_updated flying now) i r agent v blockers findings received judged writes Hsent Hph Hep Hene Hwp) as Hd. cbv zeta in Hd. specialize (Hd ltac:(by rewrite <- Hact) Hag Hw).
    destruct (drainEntry judged st session _ _) as [d retry]. destruct Hd as (Hretry & Hfile & Heff & Hlat). split; [done|]. intros Recomputed attest. rewrite Hfile, (binding_checked Recomputed (with_updated (drain_plan d) judged) st session attest i _ v Hlat eq_refl).
    unfold decided_by. cbn [OwnerSessionID RoundWorkPhaseID GoalTypes.PlanEpoch PlanFiles PlanSha256 moved Lane Blockers judged_lane signed_verdict VBlockers]. rewrite Hown, Hphase, Hepoch, Hpf, Hsha.
    change (EffectiveActiveWorkPhaseID (with_updated (drain_plan d) judged)) with (EffectiveActiveWorkPhaseID (drain_plan d)). rewrite Heff. cbn. tauto.
Qed.

(** C40: neither command takes an audit away from a session that is still at it. While a round of a plan in order is open whose owner is another session of a canonical id, in Audit of this very plan (or a session whose state cannot be read),
    opening an audit and aborting one are refused whatever else they meet, and nothing is written. *)
Theorem held_audit_is_left_alone F ReadStateStrict session st p r : rounds_ordered p → r ∈ ReviewRounds p → open_round PurposePlanAudit r = true →
  let owner := OwnerSessionID r in owner ≠ session → IsCanonicalSessionID owner = true → (∀ s, ReadStateStrict owner = Some s → SPhase s = PhaseA ∧ Fsm.Slug s = Fsm.Slug st ∧ Fsm.PlanEpoch s = Some (GoalTypes.PlanEpoch r)) →
  ∀ write now plan round warning, (∀ collected, reviewRoundRunOpen F ReadStateStrict session st collected (Answered (p, true)) write now ≠ CommandDone plan round warning) ∧
    ∀ reason, reviewRoundRunAbort ReadStateStrict session st reason (Answered (p, true)) write now ≠ CommandDone plan round warning.
Proof.
  intros Hok Hr Ho owner Hne Hcan Hat write now plan round warning. assert (reviewRoundRunHeldBy ReadStateStrict (Fsm.Slug st) session r ≠ "") as Hh.
  { apply andb_true_iff in Hcan as Hcan'. destruct Hcan' as [Hown%negb_true_iff _]. unfold reviewRoundRunHeldBy. cbv zeta. fold owner. rewrite Hcan, Hown, (bool_decide_eq_false_2 _ Hne). cbn [negb orb]. apply bool_decide_eq_false in Hown.
    destruct (ReadStateStrict owner) as [s|]; [|done]. destruct (Hat s eq_refl) as (H1 & H2 & H3). by rewrite !bool_decide_eq_true_2. }
  split.
  - intros collected. assert (held_round ReadStateStrict (Fsm.Slug st) session p ≠ None) as Hheld.
    { unfold held_round. intros E. apply head_None in E. assert ((RoundID r, reviewRoundRunHeldBy ReadStateStrict (Fsm.Slug st) session r) ∈ @nil (string * string)) as Hin by (rewrite <- E; apply list_elem_of_omap; exists r; split; [done|]; by rewrite Ho, (bool_decide_eq_false_2 _ Hh)). by apply not_elem_of_nil in Hin. }
    unfold reviewRoundRunOpen, reviewRoundRunLocked. cbv zeta. destruct (held_round _ _ _ _) as [[id holder]|]; [|done]. repeat case_match; congruence.
  - intros reason. destruct (EffectiveRound p PurposePlanAudit) as [[i live]|] eqn:Ee; [|pose proof (effective_none _ _ Ee r Hr); congruence]. pose proof Ee as Ee'. apply effective_open in Ee' as [Hi%list_elem_of_lookup_2 Hl]. rewrite (one_open p PurposePlanAudit r live Hok Hr Hi Ho Hl) in Hh.
    unfold reviewRoundRunAbort, reviewRoundRunLocked. rewrite Ee. rewrite (bool_decide_eq_false_2 _ Hh). by case_bool_decide.
Qed.
