(* ===== verification/GoalWritten.v ===== *)
(** * GoalWritten: whatever is done to a goal plan, what is written is read back as it is. *)
From S2P Require Import Prelude GoLib Sha256 Json Loads Utf8 GoFloat GoTime JsText GrammarProps JsonText GoJson JsonSpelled Attest Fsm GoPath GoalTypes GoalQuery GoalOps GoalSteer GoalGate GoalSound GoalKeep GoalRevive GoalStored GoalReview GoalReviewProps GoalRounds GoalSignoff.
Local Open Scope string_scope.

(** ** Texts that were trimmed *)
Lemma trimmed_worded s : Trim s ≠ "" → worded (Trim s).
Proof. unfold worded. by rewrite Trim_idem. Qed.

Lemma trimmed_all (l : list string) : "" ∉ Trim <$> l → Forall worded (Trim <$> l).
Proof. intros H. apply Forall_fmap, Forall_forall. intros s Hs. apply trimmed_worded. intros E. apply H. rewrite <- E. by apply list_elem_of_fmap_2. Qed.

Lemma trim_trimmed (l : list string) : (Trim <$> (Trim <$> l)) = Trim <$> l.
Proof. rewrite <- list_fmap_compose. apply list_fmap_ext. intros _ s _. apply Trim_idem. Qed.

Lemma lifecycle_id_worded s : isLifecycleID (Trim s) = true → worded (Trim s).
Proof. intros H. apply trimmed_worded. intros E. by rewrite E in H. Qed.

Lemma no_repeat_nodup l : ∀ seen, first_repeat seen l = None → NoDup l ∧ ∀ x, x ∈ l → x ∉ seen.
Proof.
  induction l as [|x l IH]; intros seen; simpl; [intros _; split; [constructor|by intros x Hx%elem_of_nil]|]. case_bool_decide as Hx; [done|]. intros H. destruct (IH _ H) as [Hn Hs]. split.
  - constructor; [|done]. intros Hin. apply (Hs x Hin). by left.
  - intros y [->|Hy]%elem_of_cons; [done|]. intros Hy2. apply (Hs y Hy). by right.
Qed.

(** ** Each operation keeps a plan readable *)
Lemma same_phases_ok plan phases cursor : plan_ok plan → Forall phase_ok phases → plan_ok (with_cursor plan cursor phases).
Proof. intros [? ? ? ? ? ? ? ?] Hp. by constructor. Qed.

Lemma set_status_ok id s phases : Forall phase_ok phases → Forall phase_ok (set_status id s phases).
Proof. intros H. unfold set_status. apply Forall_fmap. apply (Forall_impl _ _ _ H). intros p Hp. simpl. by case_bool_decide. Qed.

Lemma closed_ok plan id recorded closed next : plan_ok plan → workPhaseCloseFixed plan id recorded = WorkPhaseCloseFixedOK closed next → plan_ok next.
Proof.
  intros Hok H. apply close_ok in H as (idx & p & succ & _ & _ & _ & _ & _ & _ & -> & _). pose proof (set_status_ok id WorkPhaseDone _ (pok_phases _ Hok)) as Hp.
  destruct succ as [q|]; unfold settled_plan; [|by apply same_phases_ok]. apply same_phases_ok; [by apply same_phases_ok|]. by apply set_status_ok.
Qed.

Lemma resumed_ok plan recorded next : plan_ok plan → workPhaseResumeAbsentTarget plan recorded = WorkPhaseResumeActivate next → plan_ok next.
Proof.
  intros Hok. unfold workPhaseResumeAbsentTarget. intros H. repeat (case_match; try discriminate H); injection H as <-; apply same_phases_ok; try done; try apply (pok_phases _ Hok). apply set_status_ok, (pok_phases _ Hok).
Qed.

Lemma mapped_ok plan f : plan_ok plan → (∀ p, p ∈ WorkPhases plan → phase_ok p → phase_ok (f p)) → plan_ok (with_phases plan (f <$> WorkPhases plan)).
Proof. intros [? Hp ? ? ? ? ? ?] Hf. constructor; try done. simpl. apply Forall_fmap. rewrite Forall_forall in Hp |- *. intros p Hin. apply Hf; [done|]. by apply Hp. Qed.

Lemma added_ok plan phase id title deps next : plan_ok plan → AddGoalplanTask plan phase id title deps = GoalplanLifecycleChanged next → plan_ok next.
Proof.
  intros Hok H. assert (Hdeps : "" ∉ Trim <$> deps) by (revert H; unfold AddGoalplanTask; intros H; repeat (case_match; try discriminate H); by match goal with E : bool_decide ("" ∈ _) = false |- _ => apply bool_decide_eq_false in E end).
  apply add_task_changed in H as (target & _ & _ & _ & ->). apply mapped_ok; [done|]. intros p _ (Hd & Hw & Ht). case_bool_decide; [|done]. split_and!; [done|done|]. simpl. apply Forall_app. split; [done|].
  apply Forall_singleton. split; [by apply trimmed_all|done].
Qed.

Lemma completed_ok plan phase task text next : plan_ok plan → CompleteGoalplanTask plan phase task text = GoalplanLifecycleChanged next → plan_ok next.
Proof.
  intros Hok (-> & _ & _)%complete_changed. apply mapped_ok; [done|]. intros p _ (Hd & Hw & Ht). case_bool_decide; [|done]. split_and!; [done|done|]. simpl. apply Forall_fmap. apply (Forall_impl _ _ _ Ht).
  intros t [Htd Hto]. simpl. case_bool_decide; [|done]. split; [done|]. apply Trim_idem.
Qed.

Lemma met_ok plan id text next : plan_ok plan → MeetGoalplanCriterion plan id text = GoalplanLifecycleChanged next → plan_ok next.
Proof. intros [? ? ? ? ? ? ? ?] (_ & ->)%meet_changed. by constructor. Qed.

Lemma decide_said plan id answer at_ next : DecideGoalplanDecision plan id answer at_ = GoalplanLifecycleChanged next → Trim answer ≠ "" ∧ validIsoTime at_ = true.
Proof.
  unfold DecideGoalplanDecision. destruct (filter _ _) as [|d [|]]; [done| |done]. case_bool_decide as Ha; [done|]. destruct (validIsoTime at_); [done|]. done.
Qed.

Lemma decided_ok plan id answer at_ next : plan_ok plan → DecideGoalplanDecision plan id answer at_ = GoalplanLifecycleChanged next → plan_ok next.
Proof.
  intros [? ? Hds ? ? ? ? ?] H. destruct (decide_said _ _ _ _ _ H) as [Ha Ht]. apply decide_changed in H as (key & ->). constructor; try done. simpl. apply Forall_fmap. apply (Forall_impl _ _ _ Hds).
  intros d [? ? ? ? ? ?]. simpl. case_bool_decide; [|by constructor]. constructor; try done. simpl. split; [by apply trimmed_worded|done].
Qed.

(** What a question that was taken said. *)
Lemma ask_said plan input next : AskGoalplanDecision plan input = GoalplanLifecycleChanged next → ∃ d ids, next = asked_plan plan d ids ∧ decision_ok d ∧ worded (DecisionID d).
Proof.
  unfold AskGoalplanDecision. cbv zeta. set (id := Trim (AskID input)). set (question := Trim (AskQuestion input)). set (rec := Trim <$> AskRecommendation input).
  set (options := (λ l : list string, Trim <$> l) <$> AskOptions input). destruct (isLifecycleID id) eqn:Hid; [|done]. cbn [negb]. case_bool_decide as Hq; [done|]. case_bool_decide as Hr; [done|].
  destruct (options_refusal rec options) as [|] eqn:Ho; [done|]. cbn [rejected_or]. destruct (validIsoTime (AskAskedAt input)) eqn:Ht; [|done]. cbn [negb]. case_bool_decide; [done|].
  destruct (filter _ (Decisions plan)); [|done]. case_bool_decide; [done|]. destruct (negb _); [done|]. destruct (ask_phase_refusal _ _); [done|]. cbn [rejected_or]. intros [-> _]%if_sound_changed.
  do 2 eexists. split; [reflexivity|]. split; [|by apply lifecycle_id_worded].
  assert (Hopts : Forall worded (default [] options) ∧ NoDup (Trim <$> default [] options) ∧ (default [] options ≠ [] → ∀ r, rec = Some r → r ∈ default [] options) ∧ (Trim <$> default [] options) = default [] options).
  { unfold options in Ho |- *. destruct (AskOptions input) as [l|]; cbn [fmap option_fmap option_map from_option Datatypes.id] in Ho |- *; [|by split_and!; try constructor]. unfold options_refusal in Ho.
    case_bool_decide; [done|]. case_bool_decide as Hb; [done|]. destruct (first_repeat [] (Trim <$> l)) as [|] eqn:Hf; [done|]. rewrite trim_trimmed. destruct (no_repeat_nodup _ _ Hf) as [Hn _].
    split_and!; [by apply trimmed_all|done| |done]. intros _ r Er. rewrite Er in Ho. by case_bool_decide. }
  destruct Hopts as (Hw & Hn & Hin & Et). constructor; cbn [DecisionID Question AskedAt DecisionOptions Recommendation DStatus Answer DecidedAt]; [done|by apply trimmed_worded|done|done| |done].
  unfold rec in Hr, Hin |- *. destruct (AskRecommendation input) as [r|]; [|done]. cbn [fmap option_fmap option_map from_option Datatypes.id] in Hr, Hin |- *. intros Hne. split; [by apply trimmed_worded|].
  intros Hopt. rewrite Trim_idem, Et. by apply Hin.
Qed.

Lemma asked_ok plan input next : plan_ok plan → AskGoalplanDecision plan input = GoalplanLifecycleChanged next → plan_ok next.
Proof.
  intros Hok (d & ids & -> & Hd & Hw)%ask_said. destruct Hok as [? Hp Hds ? ? ? ? ?]. constructor; try done; simpl; [|by apply Forall_app; split; [|apply Forall_singleton]].
  apply Forall_fmap. apply (Forall_impl _ _ _ Hp). intros p (Hpd & Hpw & Hpt). simpl. case_bool_decide; [|done]. split_and!; [done| |done]. simpl. apply Forall_app. by split; [|apply Forall_singleton].
Qed.

Lemma lifecycle_step_ok plan next : plan_ok plan → lifecycle_step plan next → plan_ok next.
Proof.
  intros Hok [? H|? ? ? H|? ? ? ? H|? ? ? H|? ? H|? ? ? H|? H|? H].
  - exact (asked_ok _ _ _ Hok H).
  - exact (decided_ok _ _ _ _ _ Hok H).
  - exact (added_ok _ _ _ _ _ _ Hok H).
  - exact (completed_ok _ _ _ _ _ Hok H).
  - exact (met_ok _ _ _ _ Hok H).
  - exact (closed_ok _ _ _ _ _ Hok H).
  - destruct (advance_ok _ _ _ H) as (id & _ & _ & Hc). exact (closed_ok _ _ _ _ _ Hok Hc).
  - exact (resumed_ok _ _ _ Hok H).
Qed.

(** ** Steering *)

(** What the validator lets through. *)
Definition steer_ok (op : SteerOp) : Prop := match op with SteerOpAddWorkPhase _ _ deps => Forall worded deps | _ => True end.

Lemma validate_op_ok i raw op : validate_op i raw = inr op → steer_ok op.
Proof.
  unfold validate_op. destruct (negb _); [done|]. destruct (text_field raw "kind") as [kind|]; [|done]. case_bool_decide; [unfold validate_annotate; case_match; [by intros [= <-]|done]|].
  case_bool_decide; [unfold validate_add_criterion; intros Hv; repeat (case_match; try discriminate Hv); by injection Hv as <-|]. case_bool_decide; [|done]. unfold validate_add_work_phase.
  destruct (text_field raw "id"); [|done]. destruct (negb _); [done|]. destruct (said raw "title"); [|done]. cbv zeta. destruct (steeringOpsStringList _) as [deps|] eqn:E; [|done].
  case_bool_decide as Hb; [done|]. destruct (negb _); [done|]. intros [= <-]. simpl. unfold steeringOpsStringList in E. destruct (match steeringOpsField raw "dependsOn" with None | Some VNull => VList [] | Some v => v end); try discriminate E.
  injection E as <-. apply Forall_fmap, Forall_forall. intros v Hv. pose proof (list_elem_of_fmap_2 (λ e, match e with VString s => Trim s | _ => "" end) _ _ Hv) as Hin.
  simpl in Hin |- *. destruct v as [| | | | |t| |]; try done. apply trimmed_worded. intros Et. apply Hb. by rewrite Et in Hin.
Qed.

Lemma validate_ops_ok raws : ∀ i ops, validate_ops i raws = inr ops → Forall steer_ok ops ∧ length ops = length raws.
Proof.
  induction raws as [|raw raws IH]; intros i ops; simpl; [by intros [= <-]|]. destruct (validate_op i raw) eqn:E; [done|]. destruct (validate_ops (S i) raws) eqn:E2; [done|]. intros [= <-].
  destruct (IH _ _ E2) as [Hf Hl]. split; [constructor; [by eapply validate_op_ok|done]|simpl; lia].
Qed.

Lemma said_worded raw key s : said raw key = Some s → worded s.
Proof. unfold said. destruct (text_field raw key); [|done]. simpl. case_bool_decide; [done|]. by intros [= <-]. Qed.

Lemma validate_ok raw batch : steeringOpsValidateBatch raw = inr batch →
  worded (BatchKey batch) ∧ worded (BatchRationale batch) ∧ worded (BatchEvidence batch) ∧ BatchOps batch ≠ [] ∧ Forall steer_ok (BatchOps batch).
Proof.
  unfold steeringOpsValidateBatch. destruct raw as [| | | | | | |m]; try done. destruct (said _ "idempotencyKey") as [key|] eqn:Hk; [|done]. destruct (said _ "rationale") as [rationale|] eqn:Hr; [|done].
  destruct (said _ "evidence") as [evidence|] eqn:He; [|done]. destruct (steeringOpsField _ "ops") as [[| | | | | |[|raw raws]|]|]; try done. destruct (validate_ops 0 (raw :: raws)) as [|ops] eqn:E; [done|]. intros [= <-].
  destruct (validate_ops_ok _ _ _ E) as [Hf Hl]. split_and!; try (by eapply said_worded); [by destruct ops|done].
Qed.

Section written.
Context (NumberString : float64 → string) (Quote : string → string).

Lemma apply_op_ok plan op next : plan_ok plan → steer_ok op → apply_op NumberString plan op = inr next → plan_ok next.
Proof.
  intros [? Hp ? ? ? ? ? ?] Hop. destruct op as [note|scenario surface presented expected|id title deps]; simpl; [by intros [= <-]| |]; (case_bool_decide; [done|]); intros (-> & _)%if_whole_inr; [by constructor|].
  constructor; try done. simpl. apply Forall_app. split; [done|]. apply Forall_singleton. by split_and!.
Qed.

Lemma steered_ok ops : ∀ plan next, plan_ok plan → Forall steer_ok ops → steeringOpsApplyOps NumberString plan ops = inr next → plan_ok next.
Proof.
  induction ops as [|op ops IH]; intros plan next Hok Hops; simpl; [by intros [= <-]|]. apply Forall_cons in Hops as [Hop Hops]. destruct (apply_op NumberString plan op) as [|mid] eqn:E; [done|].
  apply IH; [|done]. exact (apply_op_ok _ _ _ Hok Hop E).
Qed.

Lemma records_ok ops : Forall op_ok (steeringOpRecords ops).
Proof. unfold steeringOpRecords. apply Forall_fmap, Forall_forall. intros op _. destruct op as [| |id title deps]; split; try done. simpl. by case_bool_decide; [|intros [= ->]]. Qed.

Lemma append_not_empty s t : s ≠ "" → s +:+ t ≠ "".
Proof. by destruct s. Qed.

Lemma dependency_events_ok id ops : ∀ i, id ≠ "" → Forall event_ok (dependency_events id i ops).
Proof.
  induction ops as [|[| |phase title [|dep deps]] ops IH]; intros i Hid; simpl; try (by apply IH); [constructor|]. constructor; [by apply append_not_empty|by apply IH].
Qed.

Lemma entry_of_batch_ok raw batch now : steeringOpsValidateBatch raw = inr batch → now ≠ "" → entry_ok (new_entry Quote batch now).
Proof.
  intros (Hk & Hr & He & Hops & _)%validate_ok Hn. unfold new_entry. split_and!; cbn [IdempotencyKey Rationale SteeringEvidence AppliedAt Summary SteeringOps SteeringEvents];
    [by apply trimmed_not_empty|by apply trimmed_not_empty|by apply trimmed_not_empty|done| |apply records_ok|].
  - unfold steeringBatchSummary. destruct (itoa_nat _); done.
  - constructor; [done|]. by apply dependency_events_ok.
Qed.
End written.

(** ** A new plan *)
Definition slug_bytes (l : list Z) : Prop := Forall (λ b, slug_byte b = true ∧ is_byte b) l ∧ ∀ b, head l = Some b → letter_or_digit b = true.

Lemma lower_alnum_ok r b : lower_alnum r = Some b → letter_or_digit b = true ∧ slug_byte b = true ∧ is_byte b.
Proof.
  unfold lower_alnum, slug_byte, letter_or_digit, in_range, is_byte. intros H. assert (97 ≤ b ≤ 122 ∨ 48 ≤ b ≤ 57)%Z as Hb.
  { destruct ((97 <=? r) && (r <=? 122) || (48 <=? r) && (r <=? 57))%Z eqn:E1; [injection H as <-; lia|]. destruct ((65 <=? r) && (r <=? 90))%Z eqn:E2; [injection H as <-; lia|].
    destruct (r =? 8490)%Z; [injection H as <-; lia|done]. }
  assert ((97 <=? b) && (b <=? 122) || (65 <=? b) && (b <=? 90) || (48 <=? b) && (b <=? 57) = true)%Z as -> by lia. split; [done|split; [done|lia]].
Qed.

Lemma slug_snoc l b : slug_bytes l → slug_byte b = true → is_byte b → (l = [] → letter_or_digit b = true) → slug_bytes (l ++ [b])%list.
Proof. intros [Hl Hh] Hb Hbb He. split; [apply Forall_app; split; [done|by apply Forall_singleton]|]. destruct l as [|c l]; simpl; [intros ? [= <-]; by apply He|]. intros x [= <-]. by apply Hh. Qed.

Lemma slug_add_ok l r : slug_bytes l → slug_bytes (slug_add l r).
Proof.
  intros Hl. unfold slug_add. destruct (lower_alnum r) as [b|] eqn:E; [destruct (lower_alnum_ok _ _ E) as (? & ? & ?); by apply slug_snoc|]. destruct (last l) as [c|] eqn:Ec; [|done].
  destruct (c =? 45)%Z; [done|]. apply slug_snoc; [done|reflexivity|unfold is_byte; lia|]. intros ->. done.
Qed.

Lemma slug_rune_ok l r : slug_bytes l → slug_bytes (slug_rune l r).
Proof. intros Hl. unfold slug_rune. destruct (r =? 304)%Z; [|by apply slug_add_ok]. apply slug_add_ok, slug_snoc; [done|reflexivity|unfold is_byte; lia|done]. Qed.

Lemma slug_fold_ok rs : ∀ l, slug_bytes l → slug_bytes (foldl slug_rune l rs).
Proof. induction rs as [|r rs IH]; intros l Hl; simpl; [done|]. by apply IH, slug_rune_ok. Qed.

Lemma slug_prefix l k : slug_bytes (l ++ k)%list → slug_bytes l.
Proof. intros [Hl Hh]. apply Forall_app in Hl as [Hl _]. split; [done|]. destruct l as [|b l]; [done|]. exact Hh. Qed.

Lemma trim_left_suffix b s : ∃ k, s = (k ++ trim_left b s)%list.
Proof. induction s as [|c s [k IH]]; simpl; [by exists []|]. destruct (c =? b)%Z; [exists (c :: k); simpl; by f_equal|by exists []]. Qed.

Lemma trim_right_prefix b s : ∃ k, s = (trim_right b s ++ k)%list.
Proof. destruct (trim_left_suffix b (reverse s)) as [k Hk]. exists (reverse k). unfold trim_right. by rewrite <- reverse_app, <- Hk, reverse_involutive. Qed.

Lemma derived_slug_ok objective : ValidateGoalplanSlug (DeriveSlug objective) = true.
Proof.
  unfold DeriveSlug. set (l := take 48 (foldl slug_rune [] (runes (bytes_of_string objective)))).
  assert (slug_bytes l) as Hl. { eapply slug_prefix. unfold l. rewrite take_drop. apply slug_fold_ok. by split. }
  assert (length l ≤ 48)%nat as Hlen by (unfold l; rewrite length_take; lia). clearbody l. destruct (trim_right_prefix 45 l) as [k Hk]. rewrite Hk in Hl, Hlen. apply slug_prefix in Hl.
  rewrite length_app in Hlen. destruct (trim_right 45 l) as [|b rest]; [reflexivity|]. clear Hk. destruct Hl as [Hb Hh]. unfold ValidateGoalplanSlug.
  rewrite bytes_of_string_of_bytes by (apply (Forall_impl _ _ _ Hb); by intros ? [_ ?]). rewrite (Hh b eq_refl). cbn [length] in Hlen. apply Forall_cons in Hb as [_ Hb].
  rewrite (proj2 (Nat.ltb_lt _ _)) by lia. simpl. apply forallb_forall. rewrite Forall_forall in Hb. intros c Hc. apply Hb. by apply list_elem_of_In.
Qed.

Lemma new_version_ok requested : (1 ≤ writeNormalizeNewSchemaVersion requested ≤ 3)%Z.
Proof. unfold writeNormalizeNewSchemaVersion, DefaultNewSchemaVersion. destruct requested as [[| |q]|]; try lia. destruct (Z.ltb_spec (floor q) 1); lia. Qed.

Lemma new_plan_ok input ts : plan_ok (BuildGoalplan input ts).
Proof.
  constructor; cbn [BuildGoalplan Slug WorkPhases Decisions SteeringLog Host ReviewRounds FinalGate SchemaVersion]; [apply derived_slug_ok|constructor|constructor|constructor| |reflexivity|reflexivity|].
  - unfold new_host. destruct (NewHost input) as [h|]; [|by right]. unfold host_ok. simpl. case_bool_decide; auto.
  - exists (writeNormalizeNewSchemaVersion (NewSchemaVersion input)). split; [done|apply new_version_ok].
Qed.

Lemma fresh_criterion_again c : again revive_criterion write_fresh_criterion c.
Proof.
  destruct c as [id scenario expected captured status surface presented]. unfold again, revive_criterion, write_fresh_criterion.
  cbn [object_of mbind option_bind CriterionID Scenario ExpectedEvidence CapturedEvidence CStatus Surface Presented].
  unfold get, text. rewrite !get_members by reflexivity. cbn [pick String.eqb Ascii.eqb Bool.eqb text_of mbind option_bind from_option Datatypes.id].
  destruct captured, status, surface as [[]|], presented as [[]|]; reflexivity.
Qed.

Lemma new_plan_again NumberString input ts : reviveGoalplan (write_fresh_plan NumberString (BuildGoalplan input ts)) (Some (Slug (BuildGoalplan input ts))) = Some (BuildGoalplan input ts).
Proof. apply (plan_again NumberString write_fresh_criterion); [apply new_plan_ok|done| |reflexivity|reflexivity]. apply Forall_forall. intros c _. apply fresh_criterion_again. Qed.

(** ** The life of a stored plan *)
Lemma lifecycle_step_slug plan next : lifecycle_step plan next → Slug next = Slug plan.
Proof. intros H%lifecycle_step_untouched. by injection H. Qed.

(** A verdict whose count, references and source are of the form that is read. *)
Definition verdict_fit (input : VerdictInput) : Prop := source_fit (VSourceIdentity input) ∧ blockers_fit (VBlockers input) ∧ findings_fit (VFindings input).

(** The verdict a sign-off states has that form. *)
Lemma signed_verdict_fit message s u id artifact session source : ParseSignoff message = Some s → source_fit source →
  verdict_fit (mkVerdict u id (SignoffLaunchID s) (SignoffVerdict s) artifact session source (SignoffBlockers s) (SignoffFindings s)).
Proof. by intros (_ & Hb & Hf & _)%parsed_signoff_fits Hs. Qed.

(** A capture of a tree is stored in that form, and it is the same capture when it is taken out again. *)
Lemma stored_identity_fit id : CapturedKind id = "resolved" ∨ CapturedKind id = "unavailable" → (∀ root, CapturedRoot id = Some root → has_prefix root "/" = true) → source_fit (Some (StoredIdentity id)) ∧ identity_of (StoredIdentity id) = id.
Proof.
  destruct id as [kind sha dirty hash at_ root]. simpl. intros Hk Hr. split; [|unfold identity_of, StoredIdentity; simpl; f_equal; by case_bool_decide]. unfold source_fit. simpl. unfold reviveSourceIdentity, write_source, StoredIdentity. cbn [object_of mbind option_bind]. read_members. cbn [text_of mbind option_bind].
  rewrite text_of_option. simpl. assert (bool_decide (kind = "resolved") || bool_decide (kind = "unavailable") = true) as -> by (destruct Hk as [-> | ->]; done). destruct root as [root|]; simpl; [rewrite (Hr root eq_refl)|]; by destruct dirty, (bool_decide (hash = "")).
Qed.

(** Files of a round: paths that stay in the workspace, with their sums, as the files of a unit are collected. *)
Definition files_fit (files : list (string * string)) : Prop := Forall (λ f, f.1 ≠ "" ∧ f.2 ≠ "" ∧ escapesWorkspace f.1 = false) files.

Lemma files_fit_again files : files_fit files → revivePlanFiles (default VNull (nonempty_list write_file files)) = files.
Proof.
  intros Hf. assert (mapM plan_file (write_file <$> files) = Some files) as Hm.
  { induction Hf as [|[path sum] files (H1 & H2 & H3) _ IH]; [done|]. cbn [fmap list_fmap]. cbn [mapM]. assert (plan_file (write_file (path, sum)) = Some (path, sum)) as ->.
    { unfold plan_file, write_file. cbn [object_of mbind option_bind]. unfold text. read_members. cbn [text_of mbind option_bind fst snd] in *. by rewrite !bool_decide_false, H3 by done. }
    cbn [mbind option_bind]. by rewrite IH. }
  unfold nonempty_list, revivePlanFiles. destruct files as [|f files]; [done|]. change (default [] (mapM plan_file (write_file <$> f :: files)) = f :: files). by rewrite Hm.
Qed.

(** What is handed in and written to a round has the form that is read. *)
Definition handed_fit (x : VerdictInput + list (string * string)) : Prop := match x with inl input => verdict_fit input | inr files => files_fit files end.

Lemma move_fit r r' : round_move handed_fit r r' → round_fit r → round_fit r'.
Proof.
  intros Hm [Hid [Hl Hs Hb Hf] Hfiles]. destruct Hm as [|r ? ? ? ? files _ Hfit| | |r input now _ (Vs & Vb & Vf)| | |]; (constructor; [done| |done || by apply files_fit_again]); constructor; simpl; try done. by destruct (VSourceIdentity input).
Qed.

Lemma kept_fit u rounds rounds' : Forall2 (kept_for handed_fit u) rounds rounds' → Forall round_fit rounds → Forall round_fit rounds'.
Proof. induction 1 as [|r r' rounds rounds' Hk _ IH]; [done|]. intros [Hr Hrs]%Forall_cons_1. constructor; [|by apply IH]. destruct Hk as [->|[_ Hm]]; [done|by eapply move_fit]. Qed.

Lemma new_round_fit F p input id now : reviewNextRoundID F p = inr id → round_fit (new_round input id now).
Proof. intros (_ & -> & _)%minted_id. constructor; [done| |done]. constructor; simpl; [apply mint_nonempty|done|done|]. split; [constructor|simpl; lia]. Qed.

Lemma reviewed_fit F p q : reviewed handed_fit F p q → plan_ok p → plan_ok q.
Proof.
  intros H [? ? ? ? ? Hr%rounds_fit ? ?]. destruct H as [|u rounds cursor HF|input rounds id now HF Hid _ _]; constructor; try done; simpl; apply rounds_fit; [done|by eapply kept_fit|].
  apply Forall_app. split; [by eapply kept_fit|]. apply Forall_singleton. by eapply new_round_fit.
Qed.

Lemma reviewed_slug F p q : reviewed handed_fit F p q → Slug q = Slug p.
Proof. by destruct 1. Qed.

Section life.
Context (NumberString : float64 → string) (Quote : string → string) (FormatLarge : Z → string).

Lemma steered_slug ops plan next : steeringOpsApplyOps NumberString plan ops = inr next → Slug next = Slug plan ∧ SteeringLog next = SteeringLog plan.
Proof. intros H%steered_untouched. by injection H. Qed.

(** A write of a plan: an operation of the lifecycle or of a review round with the time of the write, or an attempt at a steering batch that was validated; its clock says something. *)
Inductive plan_rewrite (plan next : Goalplan) : Prop :=
| write_lifecycle mid ts : lifecycle_step plan mid → next = with_updated mid ts → plan_rewrite plan next
| write_review mid ts : review_step handed_fit FormatLarge plan mid → next = with_updated mid ts → plan_rewrite plan next
| write_batch raw batch slug rows rows' disk : steeringOpsValidateBatch raw = inr batch → clock disk ≠ "" →
    (steeringApplyLocked NumberString Quote slug (mkGoalStore plan rows) batch disk).1 = mkGoalStore next rows' → plan_rewrite plan next.

Lemma updated_ok plan ts : plan_ok plan → plan_ok (with_updated plan ts).
Proof. intros [? ? ? ? ? ? ? ?]. by constructor. Qed.

Lemma plan_rewrite_ok plan next : plan_ok plan → plan_rewrite plan next → plan_ok next ∧ Slug next = Slug plan.
Proof.
  intros Hok [mid ts Hstep ->|mid ts Hstep%step_reviewed ->|raw batch slug rows rows' disk Hv Hc H].
  - split; [by apply updated_ok, (lifecycle_step_ok plan)|exact (lifecycle_step_slug _ _ Hstep)].
  - split; [by eapply updated_ok, reviewed_fit|exact (reviewed_slug _ _ _ Hstep)].
  - revert H. unfold steeringApplyLocked. cbn [stored_plan]. destruct (filter _ _) as [|existing rest].
    + destruct (steeringOpsApplyOps NumberString plan (BatchOps batch)) as [|applied] eqn:Ha; [by intros [= <- <-]|]. destruct (steered_slug _ _ _ Ha) as [Hslug Hlog]. destruct (validate_ok _ _ Hv) as (_ & _ & _ & _ & Hops).
      pose proof (steered_ok NumberString _ _ _ Hok Hops Ha) as Happ. pose proof (entry_of_batch_ok Quote raw batch (clock disk) Hv Hc) as He.
      assert (plan_ok (with_log applied (SteeringLog plan ++ [new_entry Quote batch (clock disk)])%list)) as Hnext.
      { destruct Happ as [? ? ? Hl ? ? ? ?]. constructor; try done. simpl. rewrite Hlog in Hl. apply Forall_app. by split; [|apply Forall_singleton]. }
      destruct (ended_before_write disk); [by intros [= <- <-]|]. destruct (plan_write disk); try destruct (steeringRecordEvents slug (new_entry Quote batch (clock disk)) ([], []) disk (ledger (mkGoalStore plan rows))); intros [= <- <-]; by try split; try apply updated_ok.
    + unfold steer_again. repeat case_match; by intros [= <- <-].
Qed.

(** A document that holds a plan, in bytes: a new plan that was written, one that was found and read, or the plan a write left. What is written is in UTF-8: other bytes are replaced. *)
Inductive plan_document : list Z → Goalplan → Prop :=
| document_new fill input ts : filled (write_fresh_plan NumberString (BuildGoalplan input ts)) (fill (write_fresh_plan NumberString (BuildGoalplan input ts))) →
    texts_valid (write_fresh_plan NumberString (BuildGoalplan input ts)) = true → plan_document (writeEncodePlan NumberString fill true (BuildGoalplan input ts)) (BuildGoalplan input ts)
| document_found raw slug plan : read_plan raw slug = Some plan → plan_document raw plan
| document_written fill raw plan next : plan_document raw plan → plan_rewrite plan next → filled (plan_record NumberString next) (fill (plan_record NumberString next)) →
    texts_valid (plan_record NumberString next) = true → plan_document (writeEncodePlan NumberString fill false next) next.

Lemma read_plan_revived raw slug plan : read_plan raw slug = Some plan → ∃ v, reviveGoalplan v (Some slug) = Some plan.
Proof. unfold read_plan. cbv zeta. destruct (json_value _ _ _) as [[parsed rest]|]; [|done]. destruct (ws rest); [|done]. destruct (bool_decide _); [done|]. by exists parsed. Qed.

Lemma shallow : (6 < MaxDepth)%nat.
Proof. apply Nat.ltb_lt. vm_compute. reflexivity. Qed.

Lemma document_again raw plan : plan_document raw plan → plan_ok plan ∧ read_plan raw (Slug plan) = Some plan.
Proof.
  induction 1 as [fill input ts Hf Ht|raw slug plan H|fill raw plan next _ [Hok _] Hw Hf Ht].
  - pose proof (new_plan_ok input ts) as Hok. split; [done|]. unfold writeEncodePlan. rewrite (document_read 6 _ _ _ Hf (fits_fresh_plan _ _ (pok_version _ Hok)) Ht shallow). apply new_plan_again.
  - destruct (read_plan_revived _ _ _ H) as [v Hv]. pose proof (plan_read _ _ _ Hv) as [Hok Hs]. simpl in Hs. by rewrite Hs.
  - destruct (plan_rewrite_ok plan next Hok Hw) as [Hn _]. split; [done|]. unfold writeEncodePlan. rewrite (document_read 6 _ _ _ Hf (fits_plan _ _ (pok_version _ Hn)) Ht shallow). by apply written_again.
Qed.

(** C17: whatever is done to a goal plan, the bytes it is kept in read back as exactly the plan that was in memory, when every text of it is UTF-8: a new plan, a plan that was found in any file the reader takes
    (unknown members, statuses of no name, tasks without a title, a version written as 2.0, bytes that are not UTF-8), and the plan that any sequence of operations, steering attempts and steps of review rounds
    leaves, the binding of a round among them. No such write leaves a document that the reader refuses, drops a part of, or changes: not by the text of it (indentation, escapes, the order of the
    members, empty lists that are written or left out) and not by its members. *)
Theorem plan_documents_read_back raw plan : plan_document raw plan → read_plan raw (Slug plan) = Some plan.
Proof. intros H. apply (document_again raw plan H). Qed.
End life.

Lemma new_ids_nodup l : ∀ k, NoDup (imap (λ i (_ : NewGoalplanCriterion), "c-" +:+ itoa_nat (S (i + k))) l).
Proof.
  intros k. apply NoDup_alt. intros i j x. rewrite !list_lookup_imap. destruct (l !! i) eqn:Ei; [|done]. destruct (l !! j) eqn:Ej; [|done]. simpl. intros [= <-] [= H].
  change (itoa_nat (S (j + k)) = itoa_nat (S (i + k))) in H. unfold itoa_nat in H. apply (inj (pretty (A := nat))) in H. lia.
Qed.

(** A new plan is sound. *)
Theorem new_plan_is_sound input ts : plan_sound (BuildGoalplan input ts).
Proof.
  split.
  - unfold newer_schema. cbn [BuildGoalplan SchemaVersion]. apply negb_false_iff. cbn [fle SupportedMaxSchemaVersion]. unfold QArith_base.Qle_bool. cbn [QArith_base.Qnum QArith_base.Qden QArith_base.inject_Z]. apply Z.leb_le. pose proof (new_version_ok (NewSchemaVersion input)). lia.
  - split; [constructor|constructor| |by intros p Hp%elem_of_nil|].
    + simpl. rewrite fmap_imap. pose proof (new_ids_nodup (NewCriteria input) 0) as H. erewrite imap_ext in H; [exact H|]. intros i c _. simpl. by rewrite Nat.add_0_r.
    + intros x Hx. inversion Hx as [? ? (p & Hp%elem_of_nil & _)|? ? ? (p & Hp%elem_of_nil & _)]; done.
  - by intros p Hp%elem_of_nil.
  - intros c Hc. apply elem_of_lookup_imap in Hc as (i & y & -> & _). done.
  - by intros p Hp%elem_of_nil.
  - by intros p Hp%elem_of_nil.
Qed.
