(* ===== verification/GoalExample.v ===== *)
(** * GoalExample: a goal plan that the theorems are applied to. *)
From S2P Require Import Prelude GoLib Sha256 Json Loads JsonText GoJson JsonSpelled GoFloat JsText Attest Fsm GoPath GoalTypes GoalQuery GoalOps GoalSteer GoalGate GoalSound GoalKeep GoalFinish GoalClaims GoalRevive GoalStored GoalReview GoalReviewProps GoalRounds GoalSignoff GoalInbox GoalInboxProps GoalWritten.
Local Open Scope string_scope.

Definition spell (f : float64) : string := "2".
Definition spell_quoted (s : string) : string := steeringOpsQuoted s.
Definition at_noon : string := "2026-01-02T12:00:00.000Z".

Definition demo_tasks : list GoalplanTask := [mkTask "t-1" "write the parser" TaskPending [] ""; mkTask "t-2" "test the parser" TaskPending ["t-1"] ""].
Definition demo_phases : list GoalplanWorkPhase :=
  [mkPhase "wp1" "parser" WorkPhasePending demo_tasks ["c-1"] [] [] None None; mkPhase "wp2" "printer" WorkPhasePending [] [] ["wp1"] ["dec-1"] None None].
Definition demo_criteria : list GoalplanCriterion := [mkCriterion "c-1" "parses the corpus" "test log" None CriterionOpen (Some SurfaceLogic) None].
Definition demo_decisions : list GoalplanDecision := [mkDecision "dec-1" "which format?" DecisionDecided "json" at_noon at_noon "" []].
Definition demo_plan (phases : list GoalplanWorkPhase) (criteria : list GoalplanCriterion) (decisions : list GoalplanDecision) (schema : Z) (rounds : list ReviewRoundState) (g : option FinalGateState) : Goalplan :=
  mkPlan "port the tool" "port" at_noon at_noon None phases criteria (mkHost false None "none") rounds decisions None None (Some (Fin (QArith_base.inject_Z schema))) g [].
Definition demo : Goalplan := demo_plan demo_phases demo_criteria demo_decisions 3 [] None.

Lemma demo_structural : ValidateGoalplanStructuralReasons spell demo = [].
Proof. vm_compute. reflexivity. Qed.

Definition after (r : GoalplanLifecycleResult) : Goalplan := match r with GoalplanLifecycleChanged p => p | _ => demo end.
Definition demo_1 : Goalplan := Eval vm_compute in after (CompleteGoalplanTask demo "wp1" "t-1" "written").
Definition demo_2 : Goalplan := Eval vm_compute in after (CompleteGoalplanTask demo_1 "wp1" "t-2" "green").
Definition demo_3 : Goalplan := Eval vm_compute in match workPhaseCloseFixed demo_2 "wp1" NextUnknown with WorkPhaseCloseFixedOK _ p => p | _ => demo end.

Lemma demo_completes_1 : CompleteGoalplanTask demo "wp1" "t-1" "written" = GoalplanLifecycleChanged demo_1.
Proof. vm_compute. reflexivity. Qed.
Lemma demo_completes_2 : CompleteGoalplanTask demo_1 "wp1" "t-2" "green" = GoalplanLifecycleChanged demo_2.
Proof. vm_compute. reflexivity. Qed.
Lemma demo_closes : workPhaseCloseFixed demo_2 "wp1" NextUnknown = WorkPhaseCloseFixedOK "wp1" demo_3.
Proof. vm_compute. reflexivity. Qed.
Lemma demo_2_structural : ValidateGoalplanStructuralReasons spell demo_2 = [].
Proof. vm_compute. reflexivity. Qed.
Lemma demo_2_named : Forall (λ p, PhaseID p ≠ "") (WorkPhases demo_2).
Proof. repeat constructor; done. Qed.

(** The second task waits for the first, and the second phase is started by the close of the first. *)
Example demo_order : CompleteGoalplanTask demo "wp1" "t-2" "green" = GoalplanLifecycleRejected "task 'wp1/t-2' is not ready" ∧ ActiveWorkPhaseID demo_3 = Some "wp2".
Proof. split; vm_compute; reflexivity. Qed.

Lemma demo_steps : rtc (goal_step spell) demo demo_3.
Proof.
  eapply rtc_l; [exact (step_lifecycle _ _ _ (step_complete _ _ _ _ _ demo_completes_1))|]. eapply rtc_l; [exact (step_lifecycle _ _ _ (step_complete _ _ _ _ _ demo_completes_2))|]. apply rtc_once. exact (step_lifecycle _ _ _ (step_close _ _ _ _ _ demo_closes)).
Qed.

Lemma goal_operations_keep_plans_sound_witness : ValidateGoalplanStructuralReasons spell demo_3 = [].
Proof. exact (goal_operations_keep_plans_sound spell demo demo_3 demo_structural demo_steps). Defined.

Lemma demo_unhindered : unhindered demo.
Proof.
  split; [intros p [->|[->|?%not_elem_of_nil]%elem_of_cons]%elem_of_cons; done| |intros p q [->|[->|?%not_elem_of_nil]%elem_of_cons]%elem_of_cons _ [->|[->|?%not_elem_of_nil]%elem_of_cons]%elem_of_cons; done|
    intros p [->|[->|?%not_elem_of_nil]%elem_of_cons]%elem_of_cons; done].
  intros p [->|[->|?%not_elem_of_nil]%elem_of_cons]%elem_of_cons; [by intros _ id ?%not_elem_of_nil| |done].
  intros _ id ->%list_elem_of_singleton. eexists. split; [left|done].
Qed.

Lemma sound_plan_can_finish_witness : ∃ final, rtc work_step demo final ∧ ValidateGoalplanStructuralReasons spell final = [] ∧ IsGoalplanComplete final = true.
Proof. exact (sound_plan_can_finish spell demo demo_structural demo_unhindered). Defined.

Lemma close_can_be_tried_again_witness :
  workPhaseCloseFixed demo_2 "wp1" (NextKnown (Some "wp2")) = WorkPhaseCloseFixedOK "wp1" demo_3 ∧ workPhaseCloseFixed demo_3 "wp1" (NextKnown (Some "wp2")) = WorkPhaseCloseFixedAlreadyDone.
Proof. exact (close_can_be_tried_again spell demo_2 demo_3 "wp1" demo_2_structural demo_2_named demo_closes). Defined.

(** ** A plan that waits for an answer *)
Definition waiting_demo : Goalplan :=
  demo_plan [mkPhase "wp1" "parser" WorkPhasePending [] ["c-1"] [] ["dec-1"] None None; mkPhase "wp2" "printer" WorkPhasePending [] [] ["wp1"] [] None None] demo_criteria
    [mkDecision "dec-1" "which format?" DecisionOpen "" at_noon "" "" []] 1 [] None.
Lemma waiting_demo_yields : RemainingWorkAwaitsDecisions waiting_demo = true.
Proof. vm_compute. reflexivity. Qed.

Lemma yield_leaves_no_work_witness : ReadyWorkPhases waiting_demo = [] ∧ awaited_open waiting_demo.
Proof. exact (yield_leaves_no_work waiting_demo waiting_demo_yields). Defined.

(** ** A plan that is certified *)
Definition tree : SourceIdentity := mkSource "resolved" "0123456789" false at_noon None None.
Definition gate_round : ReviewRoundState :=
  mkRound "r1" PurposeFinalGate "plan.md" "00" ReviewApproved (mkLane "l1" None None None (Some VerdictPass) (Some tree) 0 []) at_noon None "" "" "" "" [] "".
Definition gated_demo : Goalplan :=
  demo_plan [mkPhase "wp1" "parser" WorkPhaseDone [] ["c-1"] [] [] None None] [mkCriterion "c-1" "opens the window" "shot" (Some "shot.png") CriterionMet (Some SurfaceDesktop) None] [] 2 [gate_round]
    (Some (mkGate GateApproved true at_noon (Some "r1") (Some "test.json") (Some "qa.json") (Some VerdictPass) (Some tree))).
Definition demo_ctx : GoalplanValidationCtx :=
  mkCtx (inr tree) Compare (λ _ _, ReceiptRead (mkReceipt tree [mkArtifact "out/artifact-identity.json" "artifact-identity" ["c-1"]])) (inr ("schema-v2.marker", true)).
Lemma gated_demo_valid : ValidateGoalplan spell gated_demo (Some demo_ctx) = [].
Proof. vm_compute. reflexivity. Qed.

Lemma certificate_is_of_the_current_tree_witness : plan_sound gated_demo ∧ IsGoalplanComplete gated_demo = true ∧
  (below_two (EffectiveSchemaVersion gated_demo true) = true ∨ ∃ g, FinalGate gated_demo = Some g ∧ gate_certified gated_demo demo_ctx g).
Proof. exact (certificate_is_of_the_current_tree spell gated_demo demo_ctx "schema-v2.marker" true gated_demo_valid eq_refl). Defined.

(** ** A batch whose second row the disk refused *)
Definition demo_batch : SteerBatch := mkBatch "steer-1" "the printer needs a spec" "review r1" [SteerOpAnnotate "after review"; SteerOpAddWorkPhase "wp3" "spec" ["wp1"]].
Definition demo_store : GoalStore := mkGoalStore demo [mkLedgerEntry at_noon "port" "created" "port the tool" None].
Definition refusing_disk : Disk := mkDisk at_noon at_noon [Appended; NotAppended "disk full"] Written None None None None.
Definition clean_disk : Disk := mkDisk "2026-01-02T13:00:00.000Z" at_noon [] Written None None None None.
Definition demo_applied : Goalplan := Eval vm_compute in match steeringOpsApplyOps spell demo (BatchOps demo_batch) with inr p => p | inl _ => demo end.

Lemma demo_key_unused : key_unused demo_batch demo_store.
Proof. constructor. Qed.
Lemma demo_batch_ops : BatchOps demo_batch ≠ [].
Proof. done. Qed.
Lemma demo_fresh : fresh_ledger "port" (ledger demo_store)
  (steeringEvents spell_quoted (BatchKey demo_batch) (steeringBatchSummary (BatchOps demo_batch)) (BatchRationale demo_batch) (BatchOps demo_batch)).
Proof. repeat constructor; done. Qed.
Lemma demo_batch_applies : steeringOpsApplyOps spell (stored_plan demo_store) (BatchOps demo_batch) = inr demo_applied.
Proof. vm_compute. reflexivity. Qed.

(** The first attempt records one row of two and says so; the retry is answered as a duplicate and records the other. *)
Example demo_attempts :
  length (ledger (steeringApplyLocked spell spell_quoted "port" demo_store demo_batch refusing_disk).1) = 2 ∧
  length (ledger (steeringApplyLocked spell spell_quoted "port" (steeringApplyLocked spell spell_quoted "port" demo_store demo_batch refusing_disk).1 demo_batch clean_disk).1) = 3.
Proof. split; vm_compute; reflexivity. Qed.

Lemma batch_is_applied_and_recorded_once_witness : ∃ now written, let entry := new_entry spell_quoted demo_batch now in
  (steeringApplyLocked spell spell_quoted "port" (foldl (λ store d, (steeringApplyLocked spell spell_quoted "port" store demo_batch d).1) demo_store [refusing_disk]) demo_batch clean_disk).1 =
    mkGoalStore (with_updated (with_log demo_applied (SteeringLog (stored_plan demo_store) ++ [entry])%list) written) (ledger demo_store ++ (event_row "port" entry <$> SteeringEvents entry))%list.
Proof.
  exact (batch_is_applied_and_recorded_once spell spell_quoted "port" demo_store demo_batch demo_applied [refusing_disk] clean_disk demo_key_unused demo_batch_ops demo_fresh demo_batch_applies
    eq_refl eq_refl eq_refl eq_refl eq_refl eq_refl).
Defined.

(** A stored document with members of no name, a version written with a fraction, and a task that has no title. *)
Definition stored_text : string := quoted
  "{~objective~:~port~,~slug~:~port~,~schemaVersion~:2.0,~mood~:7,~workPhases~:[{~id~:~wp1~,~title~:~parser~,~status~:~odd~,~dependsOn~:[],~tasks~:[{~id~:~t-0~},{~id~:~t-1~,~title~:~write~,~status~:~done~,~outcome~:~ ok ~}]}],~criteria~:[{~id~:~c-1~,~scenario~:~runs~,~surface~:~web~}],~decisions~:[{~id~:~d-1~,~question~:~which?~,~askedAt~:~2026-01-02T12:00:00.000Z~,~status~:~open~,~options~:[~a~,~b~],~recommendation~:~b~}],~finalGate~:{~status~:~pending~,~qaRequired~:true},~reviewRounds~:[{~roundId~:~r~}],~steeringLog~:[{~idempotencyKey~:~k~,~rationale~:~r~,~evidence~:~e~,~appliedAt~:~t~,~summary~:~s~,~ops~:[{~kind~:~annotate~,~note~:~n~}]}]}".
Definition stored_raw : list Z := bytes_of_string stored_text.

Lemma stored_raw_reads : match read_plan stored_raw "port" with
  | Some plan => (λ p, (PhaseID p, PStatus p, (λ t, (TaskID t, Outcome t)) <$> Tasks p)) <$> WorkPhases plan = [("wp1", WorkPhasePending, [("t-1", "ok")])] ∧ ReviewRounds plan = [] ∧ length (SteeringLog plan) = 1%nat
  | None => False
  end.
Proof. vm_compute. auto. Qed.

Definition stored_0 : Goalplan := Eval vm_compute in default demo (read_plan stored_raw "port").
Definition stored_1 : Goalplan := Eval vm_compute in after (DecideGoalplanDecision stored_0 "d-1" "b" at_noon).
Lemma stored_read : read_plan stored_raw "port" = Some stored_0.
Proof. vm_compute. reflexivity. Qed.
Lemma stored_decided : DecideGoalplanDecision stored_0 "d-1" "b" at_noon = GoalplanLifecycleChanged stored_1.
Proof. vm_compute. reflexivity. Qed.

(** ** A review of the plan *)
Definition reviewed_plan (r : ReviewRoundResult) : Goalplan := match r with ReviewOK p _ => p | _ => demo end.
Definition reviewed_round (r : ReviewRoundResult) : ReviewRoundState := match r with ReviewOK _ x => x | _ => new_round (mkOpen PurposePlanAudit "" "") "" "" end.
Definition audit : OpenRoundInput := mkOpen PurposePlanAudit "plan.md" "5d41402a".
Definition approval : VerdictInput := mkVerdict PurposePlanAudit "r1" "r1-20260102120000" VerdictNearPass None (Some "reviewer-1") None 2 ["c1"; "src/a.go:12"].

Definition audit_0 : Goalplan := Eval vm_compute in reviewed_plan (OpenRound itoa demo audit at_noon).
Definition audit_1 : Goalplan := Eval vm_compute in reviewed_plan (MarkLaunching audit_0 PurposePlanAudit "r1" "r1-20260102120000" (Some "/work")).
Definition audit_2 : Goalplan := Eval vm_compute in reviewed_plan (MarkInFlight audit_1 PurposePlanAudit "r1" "r1-20260102120000").
Definition audit_3 : Goalplan := Eval vm_compute in after (CompleteGoalplanTask audit_2 "wp1" "t-1" "written").
Definition audit_4 : Goalplan := Eval vm_compute in reviewed_plan (RecordVerdict audit_3 approval at_noon).
Definition audit_5 : Goalplan := Eval vm_compute in reviewed_plan (OpenRound itoa audit_4 audit at_noon).

(** The second round is bound to the session s1 at the epoch e1, and superseded when that session is at e2. *)
Definition bound_files : list (string * string) := [("plans/000_plan.md", "5d41402a")].
Definition audit_6 : Goalplan := Eval vm_compute in default demo (reviewRoundRunBound audit_5 "r2-20260102120000" "s1" "wp1" "plans" "e1" bound_files).
Definition audit_7 : Goalplan := Eval vm_compute in (SupersedeRounds audit_6 PurposePlanAudit "s1" "e2" ["r2"] "" "e2" at_noon).1.

Lemma audit_opened : OpenRound itoa demo audit at_noon = ReviewOK audit_0 (reviewed_round (OpenRound itoa demo audit at_noon)).
Proof. vm_compute. reflexivity. Qed.
Lemma audit_launching : MarkLaunching audit_0 PurposePlanAudit "r1" "r1-20260102120000" (Some "/work") = ReviewOK audit_1 (reviewed_round (MarkLaunching audit_0 PurposePlanAudit "r1" "r1-20260102120000" (Some "/work"))).
Proof. vm_compute. reflexivity. Qed.
Lemma audit_flying : MarkInFlight audit_1 PurposePlanAudit "r1" "r1-20260102120000" = ReviewOK audit_2 (reviewed_round (MarkInFlight audit_1 PurposePlanAudit "r1" "r1-20260102120000")).
Proof. vm_compute. reflexivity. Qed.
Lemma audit_works : CompleteGoalplanTask audit_2 "wp1" "t-1" "written" = GoalplanLifecycleChanged audit_3.
Proof. vm_compute. reflexivity. Qed.
Lemma audit_judged : RecordVerdict audit_3 approval at_noon = ReviewOK audit_4 (reviewed_round (RecordVerdict audit_3 approval at_noon)).
Proof. vm_compute. reflexivity. Qed.
Lemma audit_again : OpenRound itoa audit_4 audit at_noon = ReviewOK audit_5 (reviewed_round (OpenRound itoa audit_4 audit at_noon)).
Proof. vm_compute. reflexivity. Qed.

Lemma approval_fits : verdict_fit approval.
Proof. split; [done|]. split; [split; done|]. split; [|apply Nat.leb_le; reflexivity]. constructor; [reflexivity|]. constructor; [reflexivity|constructor]. Qed.

Lemma demo_to_flight : rtc (any_step handed_fit itoa spell) demo audit_3.
Proof.
  eapply rtc_l; [exact (step_review _ _ _ _ _ (step_open _ _ _ _ _ _ _ audit_opened))|]. eapply rtc_l; [exact (step_review _ _ _ _ _ (step_launching _ _ _ _ _ _ _ _ _ audit_launching))|].
  eapply rtc_l; [exact (step_review _ _ _ _ _ (step_in_flight _ _ _ _ _ _ _ _ audit_flying))|]. apply rtc_once. exact (step_work _ _ _ _ _ (step_lifecycle _ _ _ (step_complete _ _ _ _ _ audit_works))).
Qed.

Lemma flight_to_next : rtc (any_step handed_fit itoa spell) audit_3 audit_5.
Proof. eapply rtc_l; [exact (step_review _ _ _ _ _ (step_verdict _ _ _ _ _ _ _ approval_fits audit_judged))|]. apply rtc_once. exact (step_review _ _ _ _ _ (step_open _ _ _ _ _ _ _ audit_again)). Qed.

Lemma next_superseded : rtc (any_step handed_fit itoa spell) audit_5 audit_7.
Proof.
  assert (∃ r, RoundByLaunchID audit_5 PurposePlanAudit "r2-20260102120000" = Some (1%nat, r) ∧ RoundStatus r = ReviewPending) as (r & Hr & Hs) by (eexists; split; vm_compute; reflexivity).
  eapply rtc_l; [eapply (step_review _ _ _ _ _ (step_bound _ _ _ "r2-20260102120000" "s1" "wp1" "plans" "e1" bound_files 1 r audit_6 Hr Hs _ _))|].
  apply rtc_once. exact (step_review _ _ _ _ _ (step_supersede handed_fit itoa audit_6 PurposePlanAudit "s1" "e2" ["r2"] "" "e2" at_noon)).
  Unshelve. all: [> repeat constructor; vm_compute; done|vm_compute; reflexivity].
Qed.

Lemma demo_sound : plan_sound demo.
Proof. apply (structural_reasons_nil spell). exact demo_structural. Qed.

Lemma audit_ordered : rounds_ordered audit_3.
Proof. assert (rounds_ordered demo) as H by by apply no_rounds_ordered. revert H. induction demo_to_flight as [|p x q Hs _ IH]; [done|]. intros H. by eapply IH, any_step_ordered. Qed.

Lemma reviews_stay_in_order_witness : ((λ r, (RoundID r, RoundStatus r, OwnerSessionID r)) <$> ReviewRounds audit_7) = [("r1", ReviewApproved, ""); ("r2", ReviewInconclusive, "s1")] ∧
  ActivePlanAuditRoundID audit_6 = Some "r2" ∧ ActivePlanAuditRoundID audit_7 = None ∧
  plan_sound audit_7 ∧ rounds_ordered audit_7 ∧ ∀ u r x, r ∈ ReviewRounds audit_7 → x ∈ ReviewRounds audit_7 → open_round u r = true → open_round u x = true → r = x.
Proof.
  split; [vm_compute; reflexivity|]. split; [vm_compute; reflexivity|]. split; [vm_compute; reflexivity|].
  exact (reviews_stay_in_order handed_fit itoa spell demo audit_7 demo_sound eq_refl eq_refl eq_refl
    (rtc_trans demo audit_5 audit_7 (rtc_trans demo audit_3 audit_5 demo_to_flight flight_to_next) next_superseded)).
Defined.

Lemma review_history_is_kept_witness :
  (∀ i r, ReviewRounds audit_3 !! i = Some r → ∃ r', ReviewRounds audit_5 !! i = Some r' ∧ history r r') ∧ (∀ i r, ReviewRounds audit_5 !! i = Some r → ReviewRounds audit_3 !! i = None → RoundID r ∉ RoundID <$> ReviewRounds audit_3).
Proof. exact (review_history_is_kept handed_fit itoa spell audit_3 audit_5 flight_to_next). Defined.

Lemma verdict_is_of_the_open_launch_witness : ∃ i r0, ReviewRounds audit_3 !! i = Some r0 ∧ RoundStatus r0 = ReviewInFlight ∧ LaunchID (Lane r0) = "r1-20260102120000".
Proof.
  destruct (proj1 (verdict_is_of_the_open_launch audit_3 approval at_noon audit_4 (reviewed_round (RecordVerdict audit_3 approval at_noon)) audit_ordered) audit_judged) as (i & r0 & Hi & _ & _ & Hl & Hst & _ & _). by exists i, r0.
Defined.

Lemma review_can_be_completed_witness : ∃ q r i, LatestRound q PurposePlanAudit = Some (i, r) ∧ RoundStatus r = ReviewApproved ∧ PlanSha256 r = "5d41402a".
Proof.
  destruct (review_can_be_completed itoa audit_3 audit at_noon None VerdictPass None None None 0 [] at_noon audit_ordered) as (q0 & r0 & q1 & r1 & q2 & r2 & q3 & r3 & i & _ & _ & _ & _ & Hst & Hsha & _ & Hl & _ & _); [done|done|vm_compute; done|]. by exists q3, r3, i.
Defined.

Definition stored_2 : Goalplan := Eval vm_compute in reviewed_plan (OpenRound itoa (with_updated stored_1 at_noon) audit at_noon).
Lemma stored_opened : OpenRound itoa (with_updated stored_1 at_noon) audit at_noon = ReviewOK stored_2 (reviewed_round (OpenRound itoa (with_updated stored_1 at_noon) audit at_noon)).
Proof. vm_compute. reflexivity. Qed.

(** The list of rounds of the stored plan is an empty slice: it is written. *)
Definition with_rounds_member (v : value) : value := match v with VMap fs => VMap (fs ++ [("reviewRounds", VList [])])%list | _ => v end.
Lemma rounds_member_filled : filled (plan_record spell (with_updated stored_1 at_noon)) (with_rounds_member (plan_record spell (with_updated stored_1 at_noon))).
Proof.
  vm_compute. apply filled_map; [|refine (bool_decide_unpack _ _); vm_compute; exact I]. repeat (apply empty_keep; [apply filled_same|]). apply empty_more; [refine (bool_decide_unpack _ _); vm_compute; exact I|apply empty_done].
Qed.

(** A decision of the stored plan is answered and a review of it is opened; the plan is written each time, and read. *)
Lemma plan_documents_read_back_witness :
  read_plan (writeEncodePlan spell (λ v, v) false (with_updated stored_2 at_noon)) (Slug (with_updated stored_2 at_noon)) = Some (with_updated stored_2 at_noon).
Proof.
  apply (plan_documents_read_back spell spell_quoted itoa). eapply document_written; [|exact (write_review _ _ _ _ _ stored_2 at_noon (step_open _ _ _ _ _ _ _ stored_opened) eq_refl)|apply filled_same|vm_compute; reflexivity].
  eapply (document_written _ _ _ with_rounds_member stored_raw stored_0); [exact (document_found _ _ _ _ _ _ stored_read)| |exact rounds_member_filled|vm_compute; reflexivity].
  exact (write_lifecycle _ _ _ _ _ stored_1 at_noon (step_decide _ _ _ _ _ stored_decided) eq_refl).
Defined.

(** A text that is not UTF-8 is written with U+FFFD in the place of the byte, and the document reads back as the plan with that text. *)
Example stray_byte : let plan := BuildGoalplan (mkNewInput (string_of_bytes [97; 0xff]%Z) [] None None) at_noon in
  texts_valid (write_fresh_plan spell plan) = false ∧ Objective <$> read_plan (writeEncodePlan spell (λ v, v) true plan) (Slug plan) = Some (string_of_bytes (97 :: encode_rune rune_error)%Z).
Proof. vm_compute. done. Qed.

Lemma signoff_reads_back_witness :
  ParseSignoff ("The plan is sound." +:+ line_feed +:+ ("LAUNCH: " +:+ "r1-20260102120000") +:+ line_feed +:+ ("VERDICT: " +:+ ("GO-WITH-FIXES" +:+ BlockerSuffix 2 ["c1"; "src/a.go:12"]))) =
  Some (mkSignoff "r1-20260102120000" VerdictNearPass 2 ["c1"; "src/a.go:12"]).
Proof.
  apply signoff_reads_back; [done|by repeat constructor|]. apply states_counted; [by right|by split|]. exact (proj2 (proj2 approval_fits)).
Defined.

(** ** Sign-offs that were kept *)
Definition session_a : Session :=
  let s := defaultState "s1" "port" at_noon in
  mkSession PhaseA "s1" "port" (SFlags s) (LastInjectedPhase s) true (SInterview s) (StopBlockWorkPhaseID s) (LoopArmSeen s) (IdleEditNudges s) (PhaseEntrySource s) (SPlanUnit s) (Some "e1") (CheckEpoch s) (DcloseRecovery s) (SKept s).
Definition flying_round : ReviewRoundState :=
  mkRound "r1" PurposePlanAudit "plan.md" "5d41402a" ReviewInFlight (mkLane "r1-1" None None None None None 0 []) at_noon None "s1" "wp1" "" "e1" [] "".
Definition signed_plan : Goalplan := demo_plan demo_phases demo_criteria demo_decisions 3 [flying_round] None.
Definition signoff_of (agent : string) (v : Verdict) (n : Z) : reviewInboxEntry := reviewObserverNewEntry "s1" session_a (Some signed_plan) agent (mkSignoff "r1-1" v n []) "".
Definition inbox_1 : Inbox := (reviewObserverInboxPut None None (signoff_of "late" VerdictPass 0) "2026-01-02T12:00:09.000000000Z" ∅).2.
Definition inbox_2 : Inbox := (reviewObserverInboxPut None None (signoff_of "early" VerdictNearPass 3) "2026-01-02T12:00:05.000000000Z" inbox_1).2.

Lemma inbox_2_tidy : tidy inbox_2.
Proof. apply put_keeps_the_inbox_tidy, put_keeps_the_inbox_tidy. split; [apply Nat.leb_le; vm_compute; reflexivity|]. intros n err. by rewrite lookup_empty. Qed.

(** The sign-off that came first decides, though its file was written last. *)
Example early_decides : (λ r, (RoundStatus r, ReviewerSession (Lane r), Blockers (Lane r))) <$> ReviewRounds (drain_plan (drained session_a "s1" at_noon inbox_2 (mkDrain signed_plan signed_plan [] [])).1.1) = [(ReviewApproved, Some "early", 3%Z)].
Proof. vm_compute. reflexivity. Qed.

Lemma first_signoff_decides_witness : let '(d, inbox', waiting) := drained session_a "s1" at_noon inbox_2 (mkDrain signed_plan signed_plan [] []) in let entries := item_entry <$> oldest_first inbox_2 in
  ReviewRounds (drain_plan d) = settled session_a "s1" at_noon signed_plan entries ∧ in_step at_noon d ∧ waiting = 0%nat ∧ kept_items inbox' = [] ∧
  ∀ now' writes', drain_plan (drained session_a "s1" now' inbox_2 (mkDrain (drain_plan d) (drain_plan d) [] writes')).1.1 = drain_plan d.
Proof. exact (first_signoff_decides session_a "s1" at_noon inbox_2 signed_plan [] (tidy_readable _ inbox_2_tidy) (Forall_nil_2 _)). Defined.

Lemma failed_writes_only_delay_witness :
  let '(d, inbox1, waiting) := drained session_a "s1" at_noon inbox_2 (mkDrain signed_plan signed_plan [] [NotWritten "disk full"]) in
  let '(d', inbox2, waiting') := drained session_a "s1" "2026-01-02T13:00:00.000Z" inbox1 (mkDrain (drain_file d) (drain_file d) [] []) in
  (∃ k, (k ≤ length (oldest_first inbox_2))%nat ∧ oldest_first inbox1 = drop k (oldest_first inbox_2) ∧ waiting = (length (oldest_first inbox_2) - k)%nat ∧
    drain_plan d = plan_after session_a "s1" at_noon signed_plan (item_entry <$> take k (oldest_first inbox_2))) ∧
  waiting = length (kept_items inbox1) ∧ waiting' = 0%nat ∧ kept_items inbox2 = [] ∧ untimed <$> ReviewRounds (drain_plan d') = untimed <$> settled session_a "s1" at_noon signed_plan (item_entry <$> oldest_first inbox_2).
Proof. exact (failed_writes_only_delay session_a "s1" at_noon "2026-01-02T13:00:00.000Z" inbox_2 signed_plan [NotWritten "disk full"] [] (tidy_readable _ inbox_2_tidy) (Forall_nil_2 _)). Defined.

(** ** An audit from its opening to the next phase *)
Definition auditing : Session :=
  mkSession PhaseA "s1" "port" (SFlags session_a) None true None None false (IdleEditNudges session_a) None (Some "u1") (Some "e1") None (DcloseRecovery session_a) (SKept session_a).
Definition audited_files : list (string * string) := [("plan.md", "5d41402a")].

Lemma demo_ordered : rounds_ordered demo.
Proof. by apply no_rounds_ordered. Qed.

(** The reviewer found two blockers: the session goes on when its attestation agrees and disposes of both, and not when it claims a pass. *)
Lemma audit_decides_the_next_phase_witness : ∃ p, (∃ round, reviewRoundRunOpen itoa (λ _, None) "s1" auditing (Answered audited_files) (Answered (demo, true)) Written at_noon = CommandDone p round "") ∧ ∃ d,
  let attested v blockers := Some (mkAttestation "A" "B" "built it" "read" v "" None blockers "" None false "" [] "" "") in
  orchestrateReviewBindingCheckPlan (λ f, f) (Some (drain_file d)) auditing "s1" (attested "near-pass" [mkBlocker 1 "folded" "in step 2"; mkBlocker 2 "rebutted" "out of scope"]) = None ∧
  orchestrateReviewBindingCheckPlan (λ f, f) (Some (drain_file d)) auditing "s1" (attested "pass" []) ≠ None.
Proof.
  destruct (audit_decides_the_next_phase itoa (λ _, None) "s1" auditing "u1" "e1" "wp1" audited_files demo at_noon) as (flying & round & Hopen & Hgo); [done..|exact demo_ordered|done|vm_compute; reflexivity|done|vm_compute; reflexivity|].
  exists flying. split; [by exists round|]. specialize (Hgo "child" VerdictNearPass 2%Z [] at_noon at_noon [] ltac:(done) (Forall_nil_2 _)). cbv zeta in Hgo. destruct (drainEntry _ _ _ _ _) as [d retry]. destruct Hgo as [_ Hgo]. exists d. cbv zeta. split.
  - apply Hgo. split; [done|]. split; [by right|]. intros _ _. vm_compute. reflexivity.
  - intros [_ [[E|E] _]]%Hgo; discriminate E.
Defined.

(** The audit that session opened, seen by another session. *)
Definition held_sent : Goalplan * ReviewRoundState := Eval vm_compute in match send_round itoa "s1" "wp1" "u1" "e1" audited_files at_noon demo with inr sent => sent | inl _ => (demo, flying_round) end.
Definition held_plan : Goalplan := held_sent.1.
Definition held_audit : ReviewRoundState := default flying_round (head (ReviewRounds held_plan)).

Lemma held_plan_ordered : rounds_ordered held_plan.
Proof.
  destruct (send_works itoa "s1" "wp1" "u1" "e1" audited_files at_noon demo demo_ordered) as (flying & round & i & r & Hs & Hr & _ & _); [done|done|vm_compute; reflexivity|].
  assert (send_round itoa "s1" "wp1" "u1" "e1" audited_files at_noon demo = inr held_sent) as E by (vm_compute; reflexivity). rewrite E in Hs. assert (held_sent = (flying, round)) as E' by (clear -Hs; congruence). unfold held_plan. rewrite E'. exact (sent_ordered _ _ _ _ _ _ _ _ Hr).
Qed.

Lemma held_audit_is_left_alone_witness : (∀ plan round warning collected, reviewRoundRunOpen itoa (λ _, Some auditing) "s2" auditing collected (Answered (held_plan, true)) Written at_noon ≠ CommandDone plan round warning) ∧
  ∀ plan round warning reason, reviewRoundRunAbort (λ _, Some auditing) "s2" auditing reason (Answered (held_plan, true)) Written at_noon ≠ CommandDone plan round warning.
Proof.
  split; intros plan round warning; (eapply (held_audit_is_left_alone itoa (λ _, Some auditing) "s2" auditing held_plan held_audit held_plan_ordered);
    [by apply list_elem_of_here|vm_compute; reflexivity|vm_compute; discriminate|vm_compute; reflexivity|intros s [= <-]; vm_compute; auto]).
Defined.
